(* ===== verification/_CoqProject ===== *)
-Q . S2P
Prelude.v
Io.v
FatIo.v
BufIo.v
BufReader.v
BufSeek.v
BufWrite.v
LineWrite.v
BufCopy.v
Cursor.v
BlockDev.v
SdCard.v
SdProtocol.v
SdSample.v
Pll.v
Sysctl.v
FatBits.v
FatTime.v
BootSector.v
FatTable.v
FatFs.v
FatSlice.v
FatVolume.v
FatMount.v
FatSample.v
DirEntry.v
FatName.v
ShortName.v
FatFile.v
FileRep.v
FileWrite.v
FatDir.v
DirRep.v
DirList.v
DirRoot.v
DirOps.v
FileSample.v
Address.v
Memory.v
ForwardList.v
PhysPage.v
Pte.v
BTree.v
PageTable.v
PageMap.v
World.v
AddressSpace.v
Cow.v
Spaces.v
SpaceOps.v
Vfs.v
Vnode.v
VnodeInv.v
VnodeOps.v
VnodeProps.v
VnodeSample.v
VnodeIo.v
FatInode.v
UserMem.v
UserStack.v
Boot.v
MemSample.v
StackSample.v
Sched.v
Pipe.v
Wait.v
Clock.v
Task.v
Exec.v
TaskProps.v
TaskSample.v
Syscall.v
SyscallSample.v
VnodeOwn.v
Kernel.v
KernelProps.v
KernelInv.v
KernelSample.v
HeapPages.v
Slab.v
