(* ===== verification/Prelude.v ===== *)
(** * Hecto-OS: a verification library for the kernel

    Hecto-OS is a RISC-V kernel in Rust (src/kernel) with a FAT file system
    library (src/fatfs) on top of a port of [std::io] (src/core_io).  This library
    models both as executable functions and proves what they promise each other.

    ** Parts and how they interact

    The kernel keeps physical pages in a free list with reference counts, builds
    Sv39 page tables from them, and gives every process an address space of areas
    that [fork] shares copy on write.  Threads have an identifier, a kernel stack
    at an address computed from it, and a place in a FIFO queue; they sleep on
    condition variables, in [sys_wait4] and on the timer.  Open files are
    descriptors on vnodes; a vnode's inode is a FAT file or directory, a pipe or
    the console.  The FAT library reads and writes a stream of bytes: the file
    system object hands out slices of it for the allocation table and the root
    directory, files walk the cluster chains, directories are files of 32-byte
    entries.  Below it is a device that buffers one block of a disk, on the K210
    an SD card behind a serial bus whose clocks the system controller makes.  A
    trap saves the registers on the kernel stack of the thread; a system call is
    decoded from them, acts on these parts, and returns through them.

    ** Files

    Shared: [Prelude] (faults, the state monad, checked integers, lists), [Io] (the
    traits of core_io and byte streams), [FatIo] (integer widths, byte order).

    Readers and writers, src/core_io/src/io:
    - [BufIo]: mod.rs, what readers and buffered readers promise, and the loops over
      them; [BufReader]: buffered/bufreader.rs, [Take], [Chain] and slices keep the promise;
      [BufSeek]: seeking with a buffer.
    - [BufWrite]: mod.rs and buffered/bufwriter.rs, what writers promise and [BufWriter];
      [LineWrite]: linewritershim.rs and linewriter.rs; [BufCopy]: copy.rs, and
      the writers of impls.rs; [Cursor]: cursor.rs.

    FAT library, src/fatfs/src:
    - [FatBits], [FatTime]: bit fields; time.rs.
    - [BootSector]: boot_sector.rs, the boot sector and the geometry of a volume.
    - [FatTable]: table.rs, the three formats of the table and cluster chains.
    - [FatFs]: fs.rs, the file system object, slices, mounting and formatting;
      [FatSlice], [FatVolume], [FatMount] prove it, [FatSample] has a volume.
    - [DirEntry]: dir_entry.rs, both kinds of entries and the editor.
    - [FatName]: dir.rs, path components, long and short names; [ShortName] the
      search for a free short name.
    - [FatFile]: file.rs; [FileRep] says what an open file is on a volume,
      [FileWrite] proves reads, seeks and writes.
    - [FatDir]: dir.rs, directories; [FileSample] runs sessions on a volume.
    - [DirRep]: the root directory of a volume as a stream of entries; [DirList]: a
      directory as a list, its iterator, its free and deleted slots; [DirRoot]: the
      root directory of a volume and the search for names; [DirOps]: opening, creating,
      removing and renaming files there.

    Disk and clocks of the K210:
    - [BlockDev]: kernel/src/drivers/block/mod.rs, the buffered device.
    - [SdCard]: drivers/block/sdcard.rs; [SdProtocol] proves it against a card that
      answers on the bus, [SdSample] is such a card.
    - [Pll]: k210-soc/src/sysctl/pll_compute.rs; [Sysctl]: sysctl.rs on the
      registers of k210-pac.

    Memory, src/kernel/src/mm and src/kernel/arch/riscv:
    - [Address]: address.rs and the board configurations; [Memory]: raw words.
    - [ForwardList], [PhysPage]: forward_list.rs, physical_page.rs.
    - [Pte], [PageTable], [PageMap]: page_table.rs of arch and of mm.
    - [BTree]: the ordered maps the kernel uses; [World] joins memory, allocator
      and page tables; [AddressSpace]: address_space.rs; [Cow] proves [fork] and
      the fault handler, [Spaces] and [SpaceOps] the operations that add and remove
      pages; [Boot] builds a machine for the examples.
    - [UserMem]: syscall/mm.rs, the system calls on memory; [MemSample] runs them.
    - [UserStack]: the initial stack and trap frame of a program
      (process/process.rs, arch/riscv/trap_context.rs); [StackSample] runs two;
      [Exec]: [sys_execve] and the strings it reads.
    - [HeapPages], [Slab]: heap/slab_allocator, the global allocator.

    Threads and processes:
    - [Sched]: thread identifiers and kernel stacks (process/thread.rs), the FIFO
      scheduler (vendor/algorithm), timer.rs.
    - [Pipe]: sync/condvar.rs, sync/spinlock.rs, fs/pipe.rs, [sys_read] and
      [sys_write] on the descriptors of a pipe, and the dispatch in [schedule].
    - [Wait]: [sys_exit] and [sys_wait4] (syscall/process.rs).
    - [Clock]: arch/riscv/timer.rs, syscall/misc.rs, and the accounting of times.
    - [Task]: [Thread] and [Process] (process), with [clone] and the calls on
      identifiers, on the state of [Wait] with memory and address spaces below it;
      [TaskProps] proves it, [TaskSample] runs the life of a process.
    - [Syscall]: syscall/mod.rs, the handler and its dispatch, and [handle_trap]
      (arch/riscv/trap.rs), over [Task] and [UserMem]; [SyscallSample] runs a session.

    Open files, src/kernel/src/fs, syscall/fs.rs and process/process.rs:
    - [Vfs]: fs/file.rs, descriptor tables, descriptor calls and path names, mount
      lookup.
    - [Vnode]: the vnode table and the file system calls, with the counts of every
      [Arc]; [VnodeInv], [VnodeOps] and [VnodeProps] prove the counts exact,
      [VnodeSample] runs a session.
    - [VnodeIo]: reading, writing and [sendfile]; [FatInode] makes the FAT volume an
      instance of the inodes these files assume, and runs the calls on it.
    - [VnodeOwn]: [sys_fcntl], and which call touches whose table.

    Together:
    - [Kernel]: the state of [Task] and that of [Vnode] side by side, and every system
      call with its pointers into the memory of the caller (syscall); it instantiates
      the parameters of [Syscall] for files, time and what [clone] does to files.
      [KernelProps] says which threads, tables and counts a call may touch, [KernelInv] the invariant of all steps
      of the kernel, [KernelSample] runs processes on a file system in memory.

    ** How code becomes definitions

    A method with [&mut self] is a function in the monad [M S] that passes its state
    and may panic; [Result] is [ioresult], and [?] is [try].  Integers are [Z] kept
    in their width by checked operations: the default build is a debug build, so
    overflow and [debug_assert!] panic.  A record has the fields of its struct, one
    definition stands for each method, and loops that do not follow a list have
    fuel.  What is outside the sources is a parameter: streams and disks (classes
    with laws), the ELF parser's headers, upper-casing, the clock.  A call that stores
    to user memory with the lock of its process held finds a page that must first be
    copied as [Deadlock].  Undefined behaviour is the fault [UB], where a run of the model ends:
    the code follows the pointers of a program unchecked, and the model follows them into the
    user half of the address space only ([user_va]); likewise [execve] writes the arguments
    of a program only as far as they fit in a page ([fitted_user_stack]).  Under these conditions
    what the kernel keeps at the top of its stacks, thread pointers and trap frames, is out of
    reach of stores to user memory, and [Task] keeps it apart from the words of memory.

    ** What the theorems show

    - Memory: the frame allocator refines an abstract one and never hands out a
      page twice; mapping a page changes one translation; [fork] shares every page
      and a write fault gives the writer its own copy, so that processes do not see
      each other's writes; [mmap] and a growing [brk] map fresh pages with guard
      pages around them, [munmap] undoes it, and both keep the address space exact:
      it maps the devices, the pages of its areas, and nothing else.  A program
      reads its arguments and environment where its registers say.  The heap's
      [page_alloc] is first fit; [zone_index] finds the least size class.
    - FAT: table entries, boot sectors, directory entries, long names, times and
      whole volumes survive being written and read; allocation, truncation and
      freeing change exactly the chain in every copy of the table and keep the
      count of free clusters; reads, seeks and writes of open files are those of a
      byte sequence and touch no other cluster; generated short names are new, and
      the search for them ends.  The root directory of a FAT32 volume is a list of
      entries: finding a name is a search in it, creating, removing and renaming a
      file change one element of it and no cluster of another file.
    - Disk: inside a block, the buffered device is the byte array of its disk; the SD
      driver brings up a card and makes it such a disk, checked down to the bytes
      on the bus.
    - Clocks: [pll_set_freq] ends with a running PLL within its limits; gates, dividers
      and selectors are independent fields.  The times of a process are the time it
      had the processor, for threads whose clock was set; [nanosleep] wakes at the first tick after
      its deadline, unless that comes before the thread is marked as waiting.
    - Processes: whatever threads come and go, the kernel finds the current thread and
      its frame by its stack pointer; [clone] gives the child its parent's registers,
      a copy of its memory and a place in the process table, and touches nothing
      else; a program gets results behind its [ecall] and all other registers back.
    - Threads: kernel stacks are disjoint, the scheduler starves nobody, the timer
      runs what is due; in every interleaving pipes keep the order of their bytes
      and lose no wake-up, and a parent never sleeps past a child's exit.
    - Files: descriptors keep their own position; [dup] takes the lowest number; after
      any calls the counts of descriptors and vnodes are the references there are,
      and a path has one vnode while it is open; [sendfile] copies.
    - The kernel as a whole: from the boot on, through system calls, faults, new and
      dropped processes in every order, the stack pointer leads to a thread, its
      descriptor table and directory, and counts stay exact; a cloned process
      has its parent's files in a new table; after a [fork] neither process can [read]
      into a page they share.
    - Readers and writers: a buffer changes how often the reader or writer below is
      asked, and nothing else: what is read is what is there, seeks included, and what is
      written is taken once and in order, whatever is interrupted or fails; completed
      lines do not wait; [split] and [copy] end with everything; a cursor is a file.
    - Faults: the theorems about errors pin down inputs on which the code panics,
      loses data or deadlocks; each says so in its comment.

    ** Fuel and bounds

    [read_exact] and [write_all] have one round for every byte, which suffices
    unless a stream is interrupted without end.  Cluster walks have one round for
    every entry of the table; free lists one for every word of memory; iteration
    over a directory one for every entry of the largest directory (proved to be enough
    for the root directory); the short-name search 65536 rounds, enough for fewer
    entries than that (proved); the timer one for every event (proved).  The SD driver waits a number of polls that is a
    parameter; the search for PLL parameters ends within 300 rounds (proved);
    [sendfile] needs a round for every byte (proved where writes are whole, and
    without bound where they fail); [convert_cstr_array] one for every byte of a
    string and every string (proved for the initial stack).  Loops over readers and writers
    have a round for every byte and every interruption, and their theorems say how many
    suffice.  Running out of fuel is the fault [OutOfFuel],
    and the theorems that say a call returns exclude it.  Concurrency is that of
    one processor: threads are preempted only in user mode, and kernel paths
    interleave where they yield.  The timer also interrupts kernel paths, to run its
    callbacks; [Clock] says what that does to [nanosleep].

    ** Not modelled

    Assembly, control registers and the switch between stacks; register access to
    the DMA, SPI and pin controllers (the SD driver sees a bus) and the virtio crate;
    console and logging; text in core_io ([read_line], [lines], [write_fmt]), vectored
    reads, and the vendored crates.  Programs that pass pointers into the kernel half, or arguments of
    more than a page, which the code does not refuse.  The keys of the vnode table are values, where the
    code has pointers that an [umount] leaves dangling.  Whether an ELF file is well formed is the parser's
    business: [execve] gets its headers from a parameter.  The theorems on directories are
    about the root directory of FAT32, and about new names that fit into it without a new
    cluster ([FileWrite] says how a directory grows); other directories are modelled and
    run in [FileSample].  The kernel as a whole runs on
    inodes with laws; [FatInode] gives those of the FAT library.  Mounts on a path that is
    open are left out of the invariant, since they break it.  *)

From stdpp Require Export base tactics numbers list gmap.
From Stdlib Require Export ZArith Lia Bool.

#[export] Set Default Goal Selector "!".

Declare Scope kernel_scope.
Delimit Scope kernel_scope with K.
Global Open Scope Z_scope.
Global Open Scope kernel_scope.

(** ** Faults and fallible execution *)

(** The ways kernel code stops.  The default build mode is [debug]
    (kernel/boards/Makefile.common), so arithmetic overflow and failed
    [debug_assert!]s panic; [UB] is an access through a pointer that designates
    no modelled object, [Deadlock] a spin lock that its only possible holder, the
    one processor, waits for, and [OutOfFuel] a loop that did not end within the
    bound its definition gives it. *)
Inductive fault :=
  | Overflow
  | AssertFailed
  | UnwrapNone
  | OutOfBounds
  | Explicit
  | UB
  | Deadlock
  | OutOfFuel.

#[export] Instance fault_eq_dec : EqDecision fault.
Proof. solve_decision. Defined.

(** A computation that returns or panics. *)
Inductive exec (A : Type) :=
  | Ok (a : A)
  | Panic (f : fault).
Arguments Ok {_} _.
Arguments Panic {_} _.

#[export] Instance exec_ret : MRet exec := @Ok.
#[export] Instance exec_bind : MBind exec := λ A B f m,
  match m with Ok a => f a | Panic e => Panic e end.

(** State passing with panics: the shape of every [&mut self] method. *)
Definition M (S A : Type) : Type := S → exec (A * S).

#[export] Instance M_ret {S} : MRet (M S) := λ A a s, Ok (a, s).
#[export] Instance M_bind {S} : MBind (M S) := λ A B f m s,
  match m s with Ok (a, s') => f a s' | Panic e => Panic e end.

(** Lifts and the primitive actions of [M]. *)
Definition lift {S A} (e : exec A) : M S A := λ s,
  match e with Ok a => Ok (a, s) | Panic f => Panic f end.
Definition get {S} : M S S := λ s, Ok (s, s).
Definition put {S} (s' : S) : M S unit := λ _, Ok (tt, s').
Definition modify {S} (f : S → S) : M S unit := λ s, Ok (tt, f s).
Definition panic {S A} (e : fault) : M S A := λ _, Panic e.

(** [assert!(b)] and [debug_assert!(b)]. *)
Definition ensure (b : bool) : exec unit := if b then Ok tt else Panic AssertFailed.
(** [Option::unwrap] *)
Definition unwrap {A} (o : option A) : exec A :=
  match o with Some a => Ok a | None => Panic UnwrapNone end.

(** [for x in l { f(x) }] *)
Fixpoint for_each {S A} (l : list A) (f : A → M S unit) : M S unit :=
  match l with
  | [] => mret tt
  | x :: l => f x ;; for_each l f
  end.

Section monad_laws.
Context {S : Type}.

Lemma exec_bind_Ok {A B} (m : exec A) (f : A → exec B) b :
  m ≫= f = Ok b ↔ ∃ a, m = Ok a ∧ f a = Ok b.
Proof. destruct m; cbn; naive_solver. Qed.

Lemma M_bind_Ok {A B} (m : M S A) (f : A → M S B) s b s' :
  (m ≫= f) s = Ok (b, s') ↔ ∃ a s1, m s = Ok (a, s1) ∧ f a s1 = Ok (b, s').
Proof.
  unfold mbind, M_bind. destruct (m s) as [[a s1]|]; naive_solver.
Qed.

Lemma M_bind_eq {A B} (m : M S A) (f : A → M S B) s a s1 :
  m s = Ok (a, s1) → (m ≫= f) s = f a s1.
Proof. unfold mbind, M_bind. by intros ->. Qed.

Lemma M_bind_assoc {A B D} (m : M S A) (f : A → M S B) (g : B → M S D) s :
  ((m ≫= f) ≫= g) s = (m ≫= λ a, f a ≫= g) s.
Proof. unfold mbind, M_bind. by destruct (m s) as [[a s1]|]. Qed.

Lemma M_bind_Panic {A B} (m : M S A) (f : A → M S B) s e :
  m s = Panic e → (m ≫= f) s = Panic e.
Proof. unfold mbind, M_bind. by intros ->. Qed.

Lemma lift_Ok {A} (e : exec A) (s : S) a s' :
  lift e s = Ok (a, s') ↔ e = Ok a ∧ s' = s.
Proof. unfold lift. destruct e; naive_solver. Qed.

Lemma ensure_Ok b u : ensure b = Ok u ↔ b = true.
Proof. destruct b, u; cbn; naive_solver. Qed.

Lemma unwrap_Ok {A} (o : option A) a : unwrap o = Ok a ↔ o = Some a.
Proof. destruct o; cbn; naive_solver. Qed.

Lemma for_each_app {A} (l1 l2 : list A) (f : A → M S unit) s :
  for_each (l1 ++ l2) f s = (for_each l1 f ;; for_each l2 f) s.
Proof.
  revert s. induction l1 as [|x l1 IH]; intros s; [done|].
  cbn [app for_each]. unfold mbind, M_bind in *.
  destruct (f x s) as [[? s1]|]; [|done]. apply IH.
Qed.

(** The loop rule: an invariant indexed by the processed prefix. *)
Lemma for_each_inv {A} (I : list A → S → Prop) (f : A → M S unit) l s :
  I [] s →
  (∀ l1 x l2 s1, l = l1 ++ x :: l2 → I l1 s1 →
     ∃ s2, f x s1 = Ok (tt, s2) ∧ I (l1 ++ [x]) s2) →
  ∃ s', for_each l f s = Ok (tt, s') ∧ I l s'.
Proof.
  intros H0 Hstep.
  enough (∀ l2 l1 s1, l = l1 ++ l2 → I l1 s1 →
            ∃ s', for_each l2 f s1 = Ok (tt, s') ∧ I l s') as H
    by (by apply (H l [])).
  induction l2 as [|x l2 IH]; intros l1 s1 Hl HI.
  - exists s1. rewrite app_nil_r in Hl. by subst.
  - destruct (Hstep _ _ _ _ Hl HI) as (s2 & Hf & HI').
    destruct (IH (l1 ++ [x]) s2) as (s' & Hs & ?); [by rewrite <- app_assoc|done|].
    exists s'. split; [|done]. cbn. by rewrite (M_bind_eq _ _ _ _ _ Hf).
Qed.
End monad_laws.

(** Runs the first action of a monadic goal with its equation. *)
Ltac run H := rewrite (M_bind_eq _ _ _ _ _ H).

Ltac run_refl := erewrite M_bind_eq; [|reflexivity].
(** Run the next operation, whose result [L] proves. *)
Ltac step_by L := erewrite M_bind_eq; [|L].

(** Inverts a successful run of monadic code in the hypotheses. *)
Ltac inv_exec :=
  repeat match goal with
    | H : Ok _ = Ok _ |- _ => injection H as H; simplify_eq
    | H : Panic _ = Ok _ |- _ => discriminate H
    | H : Ok _ = Panic _ |- _ => discriminate H
    | H : mret _ _ = Ok _ |- _ => injection H as H; simplify_eq
    | H : (_ ≫= _) _ = Ok (_, _) |- _ =>
        let a := fresh "a" in let s := fresh "s" in let H1 := fresh "Hm" in
        apply M_bind_Ok in H; destruct H as (a & s & H1 & H)
    | H : _ ≫= _ = Ok _ |- _ =>
        let a := fresh "a" in let H1 := fresh "Hm" in
        apply exec_bind_Ok in H; destruct H as (a & H1 & H)
    | H : lift _ _ = Ok (_, _) |- _ => apply lift_Ok in H; destruct H as [H ->]
    | H : ensure _ = Ok _ |- _ => apply ensure_Ok in H
    | H : unwrap _ = Ok _ |- _ => apply unwrap_Ok in H
    | H : ∃ _, _ |- _ => destruct H
    | H : _ ∧ _ |- _ => destruct H
    | x : _ * _ |- _ => destruct x
    end.

(** ** Machine integers *)

(** [usize]/[u64] on riscv64. *)
Definition USIZE_BITS : Z := 64.
Definition usize_range : Z := 2 ^ 64.
Abbreviation in_usize z := (0 ≤ z < 2 ^ 64).
Definition in_usizeb (z : Z) : bool := (0 <=? z) && (z <? 2 ^ 64).

(** Arithmetic with overflow checks (a debug build panics). *)
Definition checked (z : Z) : exec Z := if in_usizeb z then Ok z else Panic Overflow.
Definition uadd (a b : Z) : exec Z := checked (a + b).
Definition usub (a b : Z) : exec Z := checked (a - b).
Definition umul (a b : Z) : exec Z := checked (a * b).
(** [a << n] drops the bits shifted out and [a >> n] the low ones; only the
    shift amount is checked, and the code shifts by constants below 64. *)
Definition ushl (a n : Z) : Z := Z.shiftl a n `mod` 2 ^ 64.
Definition ushr (a n : Z) : Z := Z.shiftr a n.
(** [!a] *)
Definition unot (a : Z) : Z := 2 ^ 64 - 1 - a.

Lemma in_usizeb_spec z : in_usizeb z = true ↔ in_usize z.
Proof. unfold in_usizeb. rewrite andb_true_iff, Z.leb_le, Z.ltb_lt. done. Qed.

Lemma checked_Ok z r : checked z = Ok r ↔ r = z ∧ in_usize z.
Proof.
  unfold checked. destruct (in_usizeb z) eqn:E.
  - apply in_usizeb_spec in E. naive_solver.
  - split; [done|]. intros [_ H]. apply in_usizeb_spec in H. congruence.
Qed.

Lemma checked_in z : in_usize z → checked z = Ok z.
Proof. intros H. by apply checked_Ok. Qed.

Lemma checked_out z : ¬ in_usize z → checked z = Panic Overflow.
Proof.
  intros H. unfold checked. destruct (in_usizeb z) eqn:E; [|done].
  by apply in_usizeb_spec in E.
Qed.

Lemma uadd_in a b : in_usize (a + b) → uadd a b = Ok (a + b).
Proof. apply checked_in. Qed.
Lemma usub_in a b : in_usize (a - b) → usub a b = Ok (a - b).
Proof. apply checked_in. Qed.
Lemma umul_in a b : in_usize (a * b) → umul a b = Ok (a * b).
Proof. apply checked_in. Qed.

(** One step of checked arithmetic that does not overflow. *)
Ltac arith := (rewrite uadd_in by lia || rewrite usub_in by lia || rewrite umul_in by lia);
  cbn [mbind exec_bind].

Lemma ushr_div a n : 0 ≤ n → ushr a n = a `div` 2 ^ n.
Proof. intros. unfold ushr. by apply Z.shiftr_div_pow2. Qed.

Lemma ushl_mul a n : 0 ≤ n → ushl a n = (a * 2 ^ n) `mod` 2 ^ 64.
Proof. intros. unfold ushl. by rewrite Z.shiftl_mul_pow2. Qed.

Lemma land_pow2_mod a n : 0 ≤ n → Z.land a (2 ^ n - 1) = a `mod` 2 ^ n.
Proof. intros. rewrite <- Z.land_ones by lia. by rewrite Z.ones_equiv. Qed.

(** [unot] is bitwise complement on 64 bits. *)
Lemma unot_ldiff a b : in_usize a → in_usize b → Z.land a (unot b) = Z.ldiff a b.
Proof.
  intros Ha Hb. unfold unot.
  replace (2 ^ 64 - 1 - b) with (Z.ldiff (Z.ones 64) b).
  - apply Z.bits_inj'. intros i Hi.
    rewrite Z.land_spec, !Z.ldiff_spec. destruct (decide (i < 64)).
    + by rewrite Z.ones_spec_low by lia.
    + rewrite <- (Z.mod_small a (2 ^ 64)) by lia.
      by rewrite Z.mod_pow2_bits_high by lia.
  - rewrite <- Z.sub_nocarry_ldiff; [by rewrite Z.ones_equiv|].
    apply Z.bits_inj'. intros i Hi. rewrite Z.ldiff_spec, Z.bits_0.
    destruct (decide (i < 64)).
    + rewrite Z.ones_spec_low by lia. by rewrite andb_false_r.
    + rewrite <- (Z.mod_small b (2 ^ 64)) by lia.
      by rewrite Z.mod_pow2_bits_high by lia.
Qed.

(** Clearing the low [n] bits. *)
Lemma ldiff_pow2 a n : 0 ≤ n → Z.ldiff a (2 ^ n - 1) = a - a `mod` 2 ^ n.
Proof.
  intros Hn. replace (2 ^ n - 1) with (Z.ones n) by (rewrite Z.ones_equiv; lia).
  rewrite Z.ldiff_ones_r by done.
  rewrite Z.shiftl_mul_pow2, Z.shiftr_div_pow2 by done.
  pose proof (Z.div_mod a (2 ^ n)). pose proof (Z.pow_pos_nonneg 2 n). lia.
Qed.

(** [round_down!] and [round_up!] (kernel/src/mm/address.rs) mask with
    [!(boundary - 1)]. *)
Lemma land_unot_pow2 a n :
  0 ≤ n < 64 → in_usize a → Z.land a (unot (2 ^ n - 1)) = a - a `mod` 2 ^ n.
Proof.
  intros Hn Ha.
  assert (0 < 2 ^ n) by (apply Z.pow_pos_nonneg; lia).
  assert (2 ^ n ≤ 2 ^ 64) by (apply Z.pow_le_mono_r; lia).
  rewrite unot_ldiff by lia. apply ldiff_pow2. lia.
Qed.

(** Disjoint bit fields: [a] below bit [n], [b] above it. *)
Lemma lor_shiftl_add a b n :
  0 ≤ n → 0 ≤ a < 2 ^ n → Z.lor (Z.shiftl b n) a = b * 2 ^ n + a.
Proof.
  intros Hn Ha. rewrite <- Z.shiftl_mul_pow2 by done.
  rewrite Z.add_nocarry_lxor.
  - symmetry. apply Z.lxor_lor. apply Z.bits_inj'. intros i Hi.
    rewrite Z.land_spec, Z.shiftl_spec, Z.bits_0 by done.
    destruct (decide (i < n)).
    + by rewrite Z.testbit_neg_r by lia.
    + rewrite <- (Z.mod_small a (2 ^ n)) by lia.
      rewrite Z.mod_pow2_bits_high by lia. by rewrite andb_false_r.
  - apply Z.bits_inj'. intros i Hi.
    rewrite Z.land_spec, Z.shiftl_spec, Z.bits_0 by done.
    destruct (decide (i < n)).
    + by rewrite Z.testbit_neg_r by lia.
    + rewrite <- (Z.mod_small a (2 ^ n)) by lia.
      rewrite Z.mod_pow2_bits_high by lia. by rewrite andb_false_r.
Qed.

(** Integer ranges [a..b] as lists. *)
Definition range (a b : Z) : list Z := seqZ a (b - a).

Lemma elem_of_range a b x : x ∈ range a b ↔ a ≤ x < b.
Proof. unfold range. rewrite elem_of_seqZ. lia. Qed.

Lemma NoDup_range a b : NoDup (range a b).
Proof. apply NoDup_seqZ. Qed.

Lemma range_nil a b : b ≤ a → range a b = [].
Proof. intros. unfold range. by rewrite seqZ_nil by lia. Qed.

Lemma range_cons a b : a < b → range a b = a :: range (a + 1) b.
Proof.
  intros. unfold range. rewrite seqZ_cons by lia. do 2 f_equal; lia.
Qed.

(** Filters that keep nothing, or everything. *)
Lemma filter_none {A} (P : A → Prop) `{!∀ x, Decision (P x)} l : Forall (λ x, ¬ P x) l → filter P l = [].
Proof. induction 1; [done|]. by rewrite filter_cons_False. Qed.

Lemma filter_all {A} (P : A → Prop) `{!∀ x, Decision (P x)} l : Forall P l → filter P l = l.
Proof. induction 1 as [|x l Hx _ IH]; [done|]. by rewrite filter_cons_True, IH. Qed.

Create HintDb kernel.
Create Rewrite HintDb kernel.
#[export] Hint Resolve checked_in elem_of_range : kernel.
#[export] Hint Rewrite @app_nil_r @elem_of_range : kernel.
