(* ===== verification/Io.v ===== *)
(** * Input and output

    The traits [Read], [Write] and [Seek] of core_io (core_io/src/io/mod.rs), the
    error kinds the kernel and the file system return, and the default methods
    [read_exact] and [write_all].  A stream is a state type with the four
    primitive methods; a method may return an error, which the caller sees, or
    panic, which nobody does. *)

From S2P Require Import Prelude.

(** [ErrorKind] (core_io/src/io/error.rs): the kinds kernel and fatfs use. *)
Inductive ErrorKind :=
  | NotFound
  | PermissionDenied
  | AlreadyExists
  | InvalidInput
  | BrokenPipe
  | UnexpectedEof
  | WriteZero
  | Interrupted
  | OtherError.

#[export] Instance ErrorKind_eq_dec : EqDecision ErrorKind.
Proof. solve_decision. Defined.

(** [Result<A>] *)
Inductive ioresult (A : Type) := IoOk (a : A) | IoErr (e : ErrorKind).
Arguments IoOk {_} _.
Arguments IoErr {_} _.

(** [SeekFrom] *)
Inductive SeekFrom := SeekStart (pos : Z) | SeekEnd (off : Z) | SeekCurrent (off : Z).

(** The [?] operator: an error is returned to the caller. *)
Definition try {S A B} (m : M S (ioresult A)) (f : A → M S (ioresult B)) : M S (ioresult B) :=
  r ← m; match r with IoOk a => f a | IoErr e => mret (IoErr e) end.

Notation "x ←? m ; k" := (try m (λ x, k))
  (at level 20, m at level 100, k at level 200, right associativity, only parsing) : kernel_scope.
Notation "m ?; k" := (try m (λ _, k))
  (at level 100, k at level 200, right associativity, only parsing) : kernel_scope.

Definition ok {S A} (a : A) : M S (ioresult A) := mret (IoOk a).
Definition err {S A} (e : ErrorKind) : M S (ioresult A) := mret (IoErr e).

(** [Result::unwrap] *)
Definition io_unwrap {A} (r : ioresult A) : exec A :=
  match r with IoOk a => Ok a | IoErr _ => Panic UnwrapNone end.

Lemma try_ok {S A B} (m : M S (ioresult A)) (f : A → M S (ioresult B)) s a s' :
  m s = Ok (IoOk a, s') → try m f s = f a s'.
Proof. unfold try. intros H. by rewrite (M_bind_eq _ _ _ _ _ H). Qed.

Lemma try_err {S A B} (m : M S (ioresult A)) (f : A → M S (ioresult B)) s e s' :
  m s = Ok (IoErr e, s') → try m f s = Ok (IoErr e, s').
Proof. unfold try. intros H. by rewrite (M_bind_eq _ _ _ _ _ H). Qed.

(** ** Streams *)

(** [Read + Write + Seek]: [s_read n] is [read] into a buffer of [n] bytes and
    returns the bytes it put there. *)
Class Stream (D : Type) := {
  s_read : Z → M D (ioresult (list Z));
  s_write : list Z → M D (ioresult Z);
  s_flush : M D (ioresult unit);
  s_seek : SeekFrom → M D (ioresult Z);
}.

Section defaults.
Context {D : Type} `{!Stream D}.

(** [default_read_exact]: the loop ends when the buffer is full or the stream is
    at its end; only a stream that is interrupted again and again exhausts the
    fuel. *)
Fixpoint read_exact_loop (fuel : nat) (n : Z) (acc : list Z) : M D (ioresult (list Z)) :=
  if n =? 0 then ok acc
  else match fuel with
       | O => panic OutOfFuel
       | S fuel =>
           r ← s_read n;
           match r with
           | IoOk [] => err UnexpectedEof
           | IoOk bs =>
               n' ← lift (usub n (Z.of_nat (length bs)));
               read_exact_loop fuel n' (acc ++ bs)
           | IoErr Interrupted => read_exact_loop fuel n acc
           | IoErr e => err e
           end
       end.
Definition read_exact (n : Z) : M D (ioresult (list Z)) := read_exact_loop (Z.to_nat n) n [].

(** [Write::write_all] *)
Fixpoint write_all_loop (fuel : nat) (buf : list Z) : M D (ioresult unit) :=
  match buf with
  | [] => ok tt
  | _ =>
      match fuel with
      | O => panic OutOfFuel
      | S fuel =>
          r ← s_write buf;
          match r with
          | IoOk 0 => err WriteZero
          | IoOk n =>
              lift (if Z.of_nat (length buf) <? n then Panic OutOfBounds else Ok tt) ;;
              write_all_loop fuel (drop (Z.to_nat n) buf)
          | IoErr Interrupted => write_all_loop fuel buf
          | IoErr e => err e
          end
      end
  end.
Definition write_all (buf : list Z) : M D (ioresult unit) := write_all_loop (length buf) buf.
End defaults.

(** ** Streams of bytes

    What the clients above rely on: a stream is a sequence of bytes with a
    position.  [stream_rep d bs pos] says that [d] holds the bytes [bs] and stands
    at [pos]; a read returns a non-empty prefix of what follows, unless nothing
    does, and moves past it. *)
Definition splice (pos : Z) (l bs : list Z) : list Z :=
  take (Z.to_nat pos) bs ++ l ++ drop (Z.to_nat pos + length l) bs.

Class ByteStream (D : Type) `{Stream D} := {
  stream_rep : D → list Z → Z → Prop;
  stream_pos d bs pos : stream_rep d bs pos → 0 ≤ pos;
  stream_seek d bs pos pos' : stream_rep d bs pos → 0 ≤ pos' ≤ Z.of_nat (length bs) →
    ∃ d', s_seek (SeekStart pos') d = Ok (IoOk pos', d') ∧ stream_rep d' bs pos';
  stream_tell d bs pos : stream_rep d bs pos →
    ∃ d', s_seek (SeekCurrent 0) d = Ok (IoOk pos, d') ∧ stream_rep d' bs pos;
  stream_read d bs pos n : stream_rep d bs pos → 0 ≤ n →
    ∃ (k : nat) d', s_read n d = Ok (IoOk (take k (drop (Z.to_nat pos) bs)), d') ∧
      stream_rep d' bs (pos + Z.of_nat k) ∧ Z.of_nat k ≤ n ∧
      Z.of_nat k ≤ Z.max 0 (Z.of_nat (length bs) - pos) ∧
      (0 < n → pos < Z.of_nat (length bs) → (0 < k)%nat);
  stream_write d bs pos l : stream_rep d bs pos → pos + Z.of_nat (length l) ≤ Z.of_nat (length bs) →
    ∃ (k : nat) d', s_write l d = Ok (IoOk (Z.of_nat k), d') ∧
      stream_rep d' (splice pos (take k l) bs) (pos + Z.of_nat k) ∧
      (k ≤ length l)%nat ∧ (l ≠ [] → (0 < k)%nat);
}.

Lemma length_splice pos l bs :
  0 ≤ pos → pos + Z.of_nat (length l) ≤ Z.of_nat (length bs) → length (splice pos l bs) = length bs.
Proof.
  intros. unfold splice. rewrite !length_app, length_take, length_drop. lia.
Qed.

Lemma splice_nil pos bs : splice pos [] bs = bs.
Proof. unfold splice. cbn. rewrite Nat.add_0_r. apply take_drop. Qed.

Lemma splice_app pos l1 l2 bs :
  0 ≤ pos → pos + Z.of_nat (length (l1 ++ l2)) ≤ Z.of_nat (length bs) →
  splice (pos + Z.of_nat (length l1)) l2 (splice pos l1 bs) = splice pos (l1 ++ l2) bs.
Proof.
  intros Hp Hl. rewrite length_app in Hl. unfold splice.
  assert (length (take (Z.to_nat pos) bs) = Z.to_nat pos) as Ht by (rewrite length_take; lia).
  replace (Z.to_nat (pos + Z.of_nat (length l1))) with (Z.to_nat pos + length l1)%nat by lia.
  rewrite (app_assoc (take _ _) l1), take_app_length' by (rewrite length_app; lia).
  rewrite <- Nat.add_assoc, drop_app_ge by (rewrite length_app; lia).
  rewrite length_app, Ht, drop_drop, length_app. rewrite <- !app_assoc. do 4 f_equal. lia.
Qed.

(** What a splice leaves and what it puts there. *)
Lemma splice_read pos l bs :
  0 ≤ pos → pos + Z.of_nat (length l) ≤ Z.of_nat (length bs) →
  take (length l) (drop (Z.to_nat pos) (splice pos l bs)) = l.
Proof.
  intros. unfold splice. rewrite drop_app_length' by (rewrite length_take; lia).
  by rewrite take_app_length.
Qed.

Lemma splice_lookup pos l bs i :
  0 ≤ pos → pos + Z.of_nat (length l) ≤ Z.of_nat (length bs) →
  splice pos l bs !! i =
    if decide (Z.to_nat pos ≤ i < Z.to_nat pos + length l)%nat then l !! (i - Z.to_nat pos)%nat else bs !! i.
Proof.
  intros Hp Hl. unfold splice.
  assert (length (take (Z.to_nat pos) bs) = Z.to_nat pos) as Ht by (rewrite length_take; lia).
  destruct (decide (i < Z.to_nat pos)%nat).
  { rewrite lookup_app_l by lia. rewrite lookup_take_lt by lia. by rewrite decide_False by lia. }
  rewrite lookup_app_r by lia. rewrite Ht.
  case_decide.
  - by rewrite lookup_app_l by lia.
  - rewrite lookup_app_r by lia. rewrite lookup_drop. f_equal. lia.
Qed.

Section read.
Context {D : Type} `{!Stream D, !ByteStream D}.

Lemma read_exact_loop_spec bs fuel : ∀ d pos n acc,
  stream_rep d bs pos → 0 ≤ n < 2 ^ 64 → pos + n ≤ Z.of_nat (length bs) → n ≤ Z.of_nat fuel →
  ∃ d', read_exact_loop fuel n acc d =
      Ok (IoOk (acc ++ take (Z.to_nat n) (drop (Z.to_nat pos) bs)), d') ∧
    stream_rep d' bs (pos + n).
Proof.
  induction fuel as [|fuel IH]; intros d pos n acc Hd Hn Hb Hf;
    pose proof (stream_pos _ _ _ Hd) as Hpos.
  - assert (n = 0) as -> by lia. exists d. cbn. rewrite app_nil_r, Z.add_0_r. done.
  - cbn [read_exact_loop]. destruct (Z.eqb_spec n 0) as [->|Hn0].
    { exists d. cbn. rewrite app_nil_r, Z.add_0_r. done. }
    destruct (stream_read d bs pos n Hd) as (k & d' & Hr & Hd' & Hkn & Hkl & Hk0); [lia|].
    specialize (Hk0 ltac:(lia) ltac:(lia)). run Hr.
    set (l := take k (drop (Z.to_nat pos) bs)).
    assert (length l = k) as Hl by (unfold l; rewrite length_take, length_drop; lia).
    destruct l as [|b l'] eqn:El; [cbn in Hl; lia|]. rewrite <- El in *. clear b l' El.
    rewrite Hl. unfold usub. rewrite checked_in by lia. run_refl.
    destruct (IH d' (pos + Z.of_nat k) (n - Z.of_nat k) (acc ++ l) Hd') as (d2 & H2 & Hd2); [lia..|].
    exists d2. rewrite H2. replace (pos + n) with (pos + Z.of_nat k + (n - Z.of_nat k)) by lia.
    split; [|done]. do 3 f_equal. rewrite <- app_assoc. f_equal. unfold l.
    replace (Z.to_nat (pos + Z.of_nat k)) with (Z.to_nat pos + k)%nat by lia.
    rewrite <- drop_drop. replace (Z.to_nat n) with (k + Z.to_nat (n - Z.of_nat k))%nat by lia.
    by rewrite take_take_drop.
Qed.

(** [read_exact] reads exactly the next [n] bytes of a stream that has them. *)
Lemma read_exact_spec d bs pos n :
  stream_rep d bs pos → 0 ≤ n < 2 ^ 64 → pos + n ≤ Z.of_nat (length bs) →
  ∃ d', read_exact n d = Ok (IoOk (take (Z.to_nat n) (drop (Z.to_nat pos) bs)), d') ∧
    stream_rep d' bs (pos + n).
Proof. intros Hd Hn Hb. apply (read_exact_loop_spec bs _ d pos n []); [done..|lia]. Qed.

Lemma write_all_loop_spec fuel : ∀ d bs pos l,
  stream_rep d bs pos → pos + Z.of_nat (length l) ≤ Z.of_nat (length bs) → (length l ≤ fuel)%nat →
  ∃ d', write_all_loop fuel l d = Ok (IoOk tt, d') ∧
    stream_rep d' (splice pos l bs) (pos + Z.of_nat (length l)).
Proof.
  induction fuel as [|fuel IH]; intros d bs pos l Hd Hb Hf.
  { destruct l; [|cbn in Hf; lia]. exists d. rewrite splice_nil. cbn. by rewrite Z.add_0_r. }
  destruct l as [|b l0]; [exists d; rewrite splice_nil; cbn; by rewrite Z.add_0_r|].
  set (l := b :: l0) in *. pose proof (stream_pos _ _ _ Hd) as Hpos.
  destruct (stream_write d bs pos l Hd Hb) as (k & d' & Hw & Hd' & Hk & Hk0).
  specialize (Hk0 ltac:(done)).
  cbn [write_all_loop]. unfold l at 1. run Hw.
  destruct (Z.of_nat k) as [|p|p] eqn:Ek; [lia| |lia]. rewrite <- Ek in *.
  replace (Z.of_nat (length l) <? Z.of_nat k) with false by lia. run_refl.
  rewrite Nat2Z.id.
  assert (length (take k l) = k) as Htk by (rewrite length_take; lia).
  destruct (IH d' (splice pos (take k l) bs) (pos + Z.of_nat k) (drop k l)) as (d2 & H2 & Hd2);
    [done|rewrite length_splice, length_drop by lia; lia|rewrite length_drop; lia|].
  exists d2. split; [done|]. rewrite <- Htk in Hd2 at 1.
  rewrite splice_app, take_drop in Hd2 by (rewrite ?take_drop; lia).
  rewrite length_drop in Hd2. by replace (pos + Z.of_nat k + Z.of_nat (length l - k)) with
    (pos + Z.of_nat (length l)) in Hd2 by lia.
Qed.

(** [write_all] replaces the next bytes of a stream that has room for them. *)
Lemma write_all_spec d bs pos l :
  stream_rep d bs pos → pos + Z.of_nat (length l) ≤ Z.of_nat (length bs) →
  ∃ d', write_all l d = Ok (IoOk tt, d') ∧
    stream_rep d' (splice pos l bs) (pos + Z.of_nat (length l)).
Proof. intros. by apply write_all_loop_spec. Qed.
End read.

(** An in-memory file: the instance the examples use. *)
Record memfile := { mf_bytes : list Z; mf_pos : Z }.

#[export] Instance memfile_stream : Stream memfile := {|
  s_read n f :=
    let bs := take (Z.to_nat n) (drop (Z.to_nat (mf_pos f)) (mf_bytes f)) in
    Ok (IoOk bs, {| mf_bytes := mf_bytes f; mf_pos := mf_pos f + Z.of_nat (length bs) |});
  s_write bs f :=
    let p := Z.to_nat (mf_pos f) in
    Ok (IoOk (Z.of_nat (length bs)),
        {| mf_bytes := take p (mf_bytes f) ++ bs ++ drop (p + length bs) (mf_bytes f);
           mf_pos := mf_pos f + Z.of_nat (length bs) |});
  s_flush f := Ok (IoOk tt, f);
  s_seek w f :=
    match w with
    | SeekStart p => Ok (IoOk p, {| mf_bytes := mf_bytes f; mf_pos := p |})
    | SeekCurrent x =>
        if mf_pos f + x <? 0 then Ok (IoErr InvalidInput, f)
        else Ok (IoOk (mf_pos f + x), {| mf_bytes := mf_bytes f; mf_pos := mf_pos f + x |})
    | SeekEnd x =>
        let p := Z.of_nat (length (mf_bytes f)) + x in
        if p <? 0 then Ok (IoErr InvalidInput, f)
        else Ok (IoOk p, {| mf_bytes := mf_bytes f; mf_pos := p |})
    end |}.

#[export] Instance memfile_bytes : ByteStream memfile.
Proof.
  refine {| stream_rep := λ f bs pos, mf_bytes f = bs ∧ mf_pos f = pos ∧ 0 ≤ pos |}.
  - by intros d bs pos (_ & _ & ?).
  - intros d bs pos pos' (<- & <- & ?) Hp. eexists. split; [done|]. cbn. split_and!; try done. lia.
  - intros d bs pos (<- & <- & ?). cbn. rewrite Z.add_0_r.
    replace (mf_pos d <? 0) with false by lia. eexists. split; [done|]. done.
  - intros d bs pos n (<- & <- & ?) Hn. cbn.
    set (l := drop (Z.to_nat (mf_pos d)) (mf_bytes d)).
    exists (length (take (Z.to_nat n) l)),
      {| mf_bytes := mf_bytes d; mf_pos := mf_pos d + Z.of_nat (length (take (Z.to_nat n) l)) |}.
    split; [|split].
    + rewrite length_take. do 3 f_equal.
      destruct (decide (Z.to_nat n ≤ length l)%nat).
      * f_equal. lia.
      * rewrite Nat.min_r by lia. rewrite !take_ge by lia. done.
    + cbn. split_and!; [done|lia..].
    + rewrite length_take. assert (length l = length (mf_bytes d) - Z.to_nat (mf_pos d))%nat as ->
        by (unfold l; apply length_drop). lia.
  - intros d bs pos l (<- & <- & ?) Hl. exists (length l). eexists. split; [done|].
    rewrite (take_ge l (length l)) by lia. cbn. split_and!; [done|done|lia|lia|]. destruct l; cbn; [done|lia].
Defined.
