(* ===== verification/FatIo.v ===== *)
(** * Integers and byte order of the FAT library

    The fixed-width arithmetic fatfs uses ([u8], [u16], [u32], [u64] with the
    overflow checks of a debug build), and the little-endian readers and writers
    of fatfs/src/byteorder_core_io.rs over the streams of [Io]. *)

From S2P Require Import Prelude Io.

(** ** Widths *)

(** The checked result of an operation on [w]-bit unsigned integers. *)
Definition chk (w z : Z) : exec Z := if (0 <=? z) && (z <? 2 ^ w) then Ok z else Panic Overflow.
Abbreviation u8 := (chk 8).
Abbreviation u16 := (chk 16).
Abbreviation u32 := (chk 32).
Abbreviation u64 := (chk 64).
(** [i32] and [i64] results. *)
Definition ichk (w z : Z) : exec Z :=
  if (- 2 ^ (w - 1) <=? z) && (z <? 2 ^ (w - 1)) then Ok z else Panic Overflow.
(** [x as uW], [x as iW] and [x << n]. *)
Definition cast (w z : Z) : Z := z `mod` 2 ^ w.
Definition icast (w z : Z) : Z :=
  let u := z `mod` 2 ^ w in if u <? 2 ^ (w - 1) then u else u - 2 ^ w.
Definition shl (w a n : Z) : Z := Z.shiftl a n `mod` 2 ^ w.

Lemma chk_in w z : 0 ≤ z < 2 ^ w → chk w z = Ok z.
Proof. intros. unfold chk. by replace ((0 <=? z) && (z <? 2 ^ w)) with true by lia. Qed.

Lemma chk_Ok w z r : chk w z = Ok r ↔ r = z ∧ 0 ≤ z < 2 ^ w.
Proof.
  unfold chk. destruct ((0 <=? z) && (z <? 2 ^ w)) eqn:E; [|split; [done|lia]].
  split; [intros [= <-]; lia|intros [-> _]; done].
Qed.

Lemma lift_chk {S} w z (s : S) : 0 ≤ z < 2 ^ w → lift (chk w z) s = Ok (z, s).
Proof. intros. unfold lift. by rewrite chk_in. Qed.

Lemma ichk_in w z : - 2 ^ (w - 1) ≤ z < 2 ^ (w - 1) → ichk w z = Ok z.
Proof.
  intros. unfold ichk.
  by replace ((- 2 ^ (w - 1) <=? z) && (z <? 2 ^ (w - 1))) with true by lia.
Qed.

Lemma cast_in w z : 0 ≤ z < 2 ^ w → cast w z = z.
Proof. apply Z.mod_small. Qed.

Lemma icast_in w z : 0 < w → - 2 ^ (w - 1) ≤ z < 2 ^ (w - 1) → icast w z = z.
Proof.
  intros Hw Hz. unfold icast.
  assert (2 ^ w = 2 * 2 ^ (w - 1)) by (rewrite <- Z.pow_succ_r by lia; f_equal; lia).
  destruct (decide (0 ≤ z)).
  - rewrite Z.mod_small by lia. by replace (z <? 2 ^ (w - 1)) with true by lia.
  - replace (z `mod` 2 ^ w) with (z + 2 ^ w).
    + replace (z + 2 ^ w <? 2 ^ (w - 1)) with false by lia. lia.
    + apply Z.mod_unique with (-1); lia.
Qed.

Lemma cast_range w z : 0 ≤ w → 0 ≤ cast w z < 2 ^ w.
Proof. intros. apply Z.mod_pos_bound. by apply Z.pow_pos_nonneg. Qed.

Lemma shl_mul w a n : 0 ≤ n → 0 ≤ a → a * 2 ^ n < 2 ^ w → shl w a n = a * 2 ^ n.
Proof.
  intros. unfold shl. rewrite Z.shiftl_mul_pow2 by done. apply Z.mod_small. nia.
Qed.

(** [u32::count_ones] *)
Fixpoint pos_ones (p : positive) : Z :=
  match p with xH => 1 | xO p => pos_ones p | xI p => 1 + pos_ones p end.
Definition count_ones (z : Z) : Z := match z with Zpos p => pos_ones p | _ => 0 end.

Lemma pos_ones_pos p : 0 < pos_ones p.
Proof. induction p; cbn; lia. Qed.

Lemma count_ones_1 z : count_ones z = 1 → ∃ n, 0 ≤ n ∧ z = 2 ^ n.
Proof.
  destruct z as [|p|]; cbn; try discriminate.
  induction p as [p IH|p IH|]; cbn; intros H.
  - pose proof (pos_ones_pos p). lia.
  - destruct (IH H) as (n & Hn & E). exists (n + 1). split; [lia|].
    rewrite Z.pow_add_r, <- E by lia. lia.
  - by exists 0.
Qed.

(** ** Little-endian integers *)

Definition is_byte (b : Z) : Prop := 0 ≤ b < 256.

Fixpoint le_bytes (n : nat) (v : Z) : list Z :=
  match n with
  | O => []
  | S n => v `mod` 256 :: le_bytes n (v `div` 256)
  end.
Fixpoint le_value (l : list Z) : Z :=
  match l with
  | [] => 0
  | b :: l => b + 256 * le_value l
  end.

Lemma length_le_bytes n v : length (le_bytes n v) = n.
Proof. revert v. induction n; intros; cbn; auto. Qed.

Lemma le_bytes_bytes n v : Forall is_byte (le_bytes n v).
Proof.
  revert v. induction n as [|n IH]; intros v; cbn; constructor; [|done].
  unfold is_byte. pose proof (Z.mod_pos_bound v 256). lia.
Qed.

Lemma le_value_bytes n v : 0 ≤ v < 2 ^ (8 * Z.of_nat n) → le_value (le_bytes n v) = v.
Proof.
  revert v. induction n as [|n IH]; intros v Hv; cbn; [change (2 ^ (8 * Z.of_nat 0)) with 1 in Hv; lia|].
  rewrite IH; [pose proof (Z.div_mod v 256); lia|].
  replace (8 * Z.of_nat (S n)) with (8 + 8 * Z.of_nat n) in Hv by lia.
  rewrite Z.pow_add_r in Hv by lia. change (2 ^ 8) with 256 in Hv.
  split; [apply Z.div_pos; lia|apply Z.div_lt_upper_bound; lia].
Qed.

Lemma le_bytes_value l : Forall is_byte l → le_bytes (length l) (le_value l) = l.
Proof.
  induction 1 as [|b l Hb Hl IH]; cbn; [done|]. unfold is_byte in Hb.
  replace ((b + 256 * le_value l) `mod` 256) with b.
  - f_equal. etrans; [|exact IH]. f_equal. symmetry. apply Z.div_unique with b; lia.
  - apply Z.mod_unique with (le_value l); lia.
Qed.

Lemma le_value_range l : Forall is_byte l → 0 ≤ le_value l < 2 ^ (8 * Z.of_nat (length l)).
Proof.
  induction 1 as [|b l Hb Hl IH]; cbn [le_value length]; [cbn; lia|]. unfold is_byte in Hb.
  replace (8 * Z.of_nat (S (length l))) with (8 + 8 * Z.of_nat (length l)) by lia.
  rewrite Z.pow_add_r by lia. change (2 ^ 8) with 256. lia.
Qed.

Section byteorder.
Context {D : Type} `{!Stream D}.

(** [read_u8], [read_u16::<LittleEndian>], [read_u32::<LittleEndian>]: a
    [read_exact] into a buffer of the width, and its value. *)
Definition read_le (n : Z) : M D (ioresult Z) :=
  buf ←? read_exact n;
  ok (le_value buf).
Definition read_u8 : M D (ioresult Z) := read_le 1.
Definition read_u16 : M D (ioresult Z) := read_le 2.
Definition read_u32 : M D (ioresult Z) := read_le 4.

(** [write_u8], [write_u16::<LittleEndian>], [write_u32::<LittleEndian>] *)
Definition write_u8 (v : Z) : M D (ioresult unit) := write_all (le_bytes 1 v).
Definition write_u16 (v : Z) : M D (ioresult unit) := write_all (le_bytes 2 v).
Definition write_u32 (v : Z) : M D (ioresult unit) := write_all (le_bytes 4 v).
End byteorder.

(** ** Reading and writing a record

    [reads d bs pos rest]: the stream stands at [pos] and [rest] follows there.
    The readers below consume the bytes of their value: a decoder's correctness is a
    chain of these. *)
Section codec.
Context {D : Type} `{!Stream D, !ByteStream D}.

Definition reads (d : D) (bs : list Z) (pos : Z) (rest : list Z) : Prop :=
  stream_rep d bs pos ∧ pos ≤ Z.of_nat (length bs) ∧ drop (Z.to_nat pos) bs = rest.

Lemma reads_exact d bs pos l rest :
  Z.of_nat (length l) < 2 ^ 64 →
  reads d bs pos (l ++ rest) →
  ∃ d', read_exact (Z.of_nat (length l)) d = Ok (IoOk l, d') ∧
    reads d' bs (pos + Z.of_nat (length l)) rest.
Proof.
  intros Hl (Hd & Hp & Hr). pose proof (stream_pos _ _ _ Hd).
  assert (length (drop (Z.to_nat pos) bs) = length (l ++ rest)) as E by (by rewrite Hr).
  rewrite length_drop, length_app in E.
  destruct (read_exact_spec d bs pos (Z.of_nat (length l)) Hd) as (d' & H1 & Hd'); [lia..|].
  exists d'. rewrite H1, Nat2Z.id, Hr, take_app_length. split; [done|]. split; [done|].
  split; [lia|]. replace (Z.to_nat (pos + Z.of_nat (length l))) with (Z.to_nat pos + length l)%nat by lia.
  by rewrite <- drop_drop, Hr, drop_app_length.
Qed.

Lemma reads_array n l d bs pos rest :
  Z.of_nat (length l) = n → n < 2 ^ 64 → reads d bs pos (l ++ rest) →
  ∃ d', read_exact n d = Ok (IoOk l, d') ∧ reads d' bs (pos + n) rest.
Proof. intros <- Hn Hd. by apply reads_exact. Qed.

Lemma reads_le n v d bs pos rest :
  0 ≤ v < 2 ^ (8 * Z.of_nat n) → Z.of_nat n < 2 ^ 64 →
  reads d bs pos (le_bytes n v ++ rest) →
  ∃ d', read_le (Z.of_nat n) d = Ok (IoOk v, d') ∧ reads d' bs (pos + Z.of_nat n) rest.
Proof.
  intros Hv Hn Hd. destruct (reads_exact d bs pos (le_bytes n v) rest) as (d' & H & Hd');
    rewrite ?length_le_bytes; [done..|]. rewrite length_le_bytes in H, Hd'.
  exists d'. split; [|done]. unfold read_le. rewrite (try_ok _ _ _ _ _ H).
  by rewrite le_value_bytes.
Qed.

Lemma reads_u8 v d bs pos rest : 0 ≤ v < 2 ^ 8 → reads d bs pos (le_bytes 1 v ++ rest) →
  ∃ d', read_u8 d = Ok (IoOk v, d') ∧ reads d' bs (pos + 1) rest.
Proof. intros. by apply (reads_le 1). Qed.
Lemma reads_u16 v d bs pos rest : 0 ≤ v < 2 ^ 16 → reads d bs pos (le_bytes 2 v ++ rest) →
  ∃ d', read_u16 d = Ok (IoOk v, d') ∧ reads d' bs (pos + 2) rest.
Proof. intros. by apply (reads_le 2). Qed.
Lemma reads_u32 v d bs pos rest : 0 ≤ v < 2 ^ 32 → reads d bs pos (le_bytes 4 v ++ rest) →
  ∃ d', read_u32 d = Ok (IoOk v, d') ∧ reads d' bs (pos + 4) rest.
Proof. intros. by apply (reads_le 4). Qed.

End codec.

(** A record is written as a sequence of chunks. *)
Section chunks.
Context {D : Type} `{!Stream D}.

Fixpoint write_seq (cs : list (list Z)) : M D (ioresult unit) :=
  match cs with
  | [] => ok tt
  | c :: cs => write_all c ?; write_seq cs
  end.

Lemma try_ext {A B} (m : M D (ioresult A)) (f g : A → M D (ioresult B)) s :
  (∀ a s', f a s' = g a s') → try m f s = try m g s.
Proof.
  intros H. unfold try, mbind, M_bind. destruct (m s) as [[[a|e] s1]|]; [apply H|done..].
Qed.

Lemma try_unit (m : M D (ioresult unit)) s : m s = try m (λ _, ok tt) s.
Proof. unfold try, mbind, M_bind. by destruct (m s) as [[[[]|e] s1]|]. Qed.

Lemma try_assoc {A B C} (m : M D (ioresult A)) (f : A → M D (ioresult B)) (g : B → M D (ioresult C)) s :
  try (try m f) g s = try m (λ a, try (f a) g) s.
Proof. unfold try, mbind, M_bind. by destruct (m s) as [[[a|e] s1]|]. Qed.

Lemma try_bind {A B C} (m : M D A) (f : A → M D (ioresult B)) (g : B → M D (ioresult C)) s :
  (m ≫= λ a, try (f a) g) s = try (m ≫= f) g s.
Proof. unfold try, mbind, M_bind. by destruct (m s) as [[a s1]|]. Qed.

Lemma try_id {A B} (a : A) (f : A → M D (ioresult B)) s : try (ok a) f s = f a s.
Proof. done. Qed.

Lemma write_seq_app cs1 cs2 s : write_seq (cs1 ++ cs2) s = try (write_seq cs1) (λ _, write_seq cs2) s.
Proof.
  revert s. induction cs1 as [|c cs1 IH]; intros s; [done|]. cbn [app write_seq].
  rewrite try_assoc. apply try_ext. intros _. apply IH.
Qed.

Context `{!ByteStream D}.

Lemma write_seq_spec cs : ∀ d bs pos,
  stream_rep d bs pos → pos + Z.of_nat (length (concat cs)) ≤ Z.of_nat (length bs) →
  ∃ d', write_seq cs d = Ok (IoOk tt, d') ∧
    stream_rep d' (splice pos (concat cs) bs) (pos + Z.of_nat (length (concat cs))).
Proof.
  induction cs as [|c cs IH]; intros d bs pos Hd Hl.
  { exists d. cbn. rewrite splice_nil, Z.add_0_r. done. }
  pose proof (stream_pos _ _ _ Hd). cbn [concat] in Hl. pose proof Hl as Hl'. rewrite length_app in Hl'.
  destruct (write_all_spec d bs pos c Hd) as (d1 & H1 & Hd1); [lia|].
  destruct (IH _ _ _ Hd1) as (d2 & H2 & Hd2); [rewrite length_splice; lia|].
  exists d2. cbn [write_seq concat]. rewrite (try_ok _ _ _ _ _ H1), H2. split; [done|].
  rewrite splice_app in Hd2 by done. rewrite length_app.
  by replace (pos + Z.of_nat (length c + length (concat cs))) with
    (pos + Z.of_nat (length c) + Z.of_nat (length (concat cs))) by lia.
Qed.
End chunks.

(** Identifies a chain of writers with a sequence of chunks. *)
Ltac as_chunks := repeat (rewrite ?try_assoc; apply try_ext; intros ? ?); cbn [write_seq]; try apply try_unit.

(** Runs a checked operation that is in range. *)
Ltac chk_run := erewrite M_bind_eq; [|apply lift_chk; lia].

(** Runs the next reader ([?] included) of a monadic goal against [reads]. *)
Ltac read_next L H :=
  let d := fresh "d" in let E := fresh "E" in
  eapply L in H; [destruct H as (d & E & H); rewrite ?try_assoc, (try_ok _ _ _ _ _ E); clear E|lia..].
