(* ===== verification/BufIo.v ===== *)
(** * Buffered reading

    [Read] and [BufRead] of core_io with their loops ([default_read_exact], [read_to_end],
    [read_until], [Split]; core_io/src/io/mod.rs), the adapters [Take] and [Chain], and [BufReader]
    (core_io/src/io/buffered/bufreader.rs).  What a reader promises is stated once, as a class; each adapter
    keeps the promise, whatever it is put around. *)

From S2P Require Import Prelude Io FatIo.

(** ** What a reader promises *)

(** [Read::read] into a buffer of [n] bytes: the bytes it put there *)
Class Reader (R : Type) := { r_read : Z → M R (ioresult (list Z)) }.

(** A reader that has [l] to deliver, and is interrupted at most [i] times before it has: a read takes a prefix, which is
    empty only when nothing is left or asked for. *)
Class ReaderOk (R : Type) `{!Reader R} := {
  rd_rep : R → list Z → nat → Prop;
  rd_read r l i n : rd_rep r l i → 0 ≤ n →
    (∃ (k : nat) r' i', r_read n r = Ok (IoOk (take k l), r') ∧ rd_rep r' (drop k l) i' ∧ (i' ≤ i)%nat ∧
       Z.of_nat k ≤ n ∧ (k ≤ length l)%nat ∧ (0 < n → l ≠ [] → (0 < k)%nat)) ∨
    (∃ r' i', r_read n r = Ok (IoErr Interrupted, r') ∧ rd_rep r' l i' ∧ (i' < i)%nat);
}.

(** [BufRead] *)
Class BufReading (B : Type) := { fill_buf : M B (ioresult (list Z)); consume : Z → M B unit }.
(** [fill_buf] shows a prefix of what is left, and leaves it there for [consume]. *)
Class BufReadOk (B : Type) `{!BufReading B} := {
  bf_rep : B → list Z → nat → Prop;
  bf_fill b l i : bf_rep b l i →
    (∃ (k : nat) b' i', fill_buf b = Ok (IoOk (take k l), b') ∧ (i' ≤ i)%nat ∧ (k ≤ length l)%nat ∧ (l ≠ [] → (0 < k)%nat) ∧
       ∀ n : nat, (n ≤ k)%nat → ∃ b'', consume (Z.of_nat n) b' = Ok (tt, b'') ∧ bf_rep b'' (drop n l) i') ∨
    (∃ b' i', fill_buf b = Ok (IoErr Interrupted, b') ∧ bf_rep b' l i' ∧ (i' < i)%nat);
  bf_nothing b l i : bf_rep b l i → ∃ b', consume 0 b = Ok (tt, b') ∧ bf_rep b' l i;
}.

Section loops.
Context {R : Type} `{!Reader R}.

(** [default_read_exact] *)
Fixpoint rd_exact_loop (fuel : nat) (n : Z) (acc : list Z) : M R (ioresult (list Z)) :=
  if n =? 0 then ok acc
  else
    match fuel with
    | O => panic OutOfFuel
    | S fuel =>
        r ← r_read n;
        match r with
        | IoOk [] => err UnexpectedEof
        | IoOk bs =>
            n' ← lift (usub n (Z.of_nat (length bs)));
            rd_exact_loop fuel n' (acc ++ bs)
        | IoErr Interrupted => rd_exact_loop fuel n acc
        | IoErr e => err e
        end
    end.

(** [Vec::reserve]: the capacity doubles at least. *)
Definition reserve (cap len n : Z) : Z :=
  if cap - len <? n then Z.max 8 (Z.max (2 * cap) (len + n)) else cap.

(** [read_to_end_with_reservation]: [acc] is what has been read into the vector, [len] its length as the loop sets it,
    which is the capacity once it has grown. *)
Fixpoint read_to_end_loop (fuel : nat) (reservation_size : R → Z) (acc : list Z) (len cap start_len : Z) : M R (ioresult (list Z)) :=
  match fuel with
  | O => panic OutOfFuel
  | S fuel =>
      s ← get;
      let g := Z.of_nat (length acc) in
      let cap := if g =? len then reserve cap len (reservation_size s) else cap in
      let len := if g =? len then cap else len in
      r ← r_read (len - g);
      match r with
      | IoOk [] => ok acc
      | IoOk bs =>
          lift (ensure (Z.of_nat (length bs) <=? len - g)) ;;
          read_to_end_loop fuel reservation_size (acc ++ bs) len cap start_len
      | IoErr Interrupted => read_to_end_loop fuel reservation_size acc len cap start_len
      | IoErr e => err e
      end
  end.
(** Onto a vector that holds [v]: its contents then, whose growth is the count that is returned *)
Definition rd_to_end (fuel : nat) (reservation_size : R → Z) (v : list Z) (cap : Z) : M R (ioresult (list Z)) :=
  read_to_end_loop fuel reservation_size v (Z.of_nat (length v)) cap (Z.of_nat (length v)).
End loops.

Section until.
Context {B : Type} `{!BufReading B}.

(** [memchr] *)
Fixpoint memchr (d : Z) (l : list Z) : option nat :=
  match l with
  | [] => None
  | x :: l => if x =? d then Some O else S <$> memchr d l
  end.

Fixpoint read_until (fuel : nat) (delim : Z) (buf : list Z) (read : Z) : M B (ioresult (list Z * Z)) :=
  match fuel with
  | O => panic OutOfFuel
  | S fuel =>
      r ← fill_buf;
      match r with
      | IoOk available =>
          let '(done, used) := match memchr delim available with Some i => (true, S i) | None => (false, length available) end in
          consume (Z.of_nat used) ;;
          read ← lift (uadd read (Z.of_nat used));
          if done || (used =? 0)%nat then ok (buf ++ take used available, read)
          else read_until fuel delim (buf ++ take used available) read
      | IoErr Interrupted => read_until fuel delim buf read
      | IoErr e => err e
      end
  end.

(** [Split::next] *)
Definition split_next (fuel : nat) (delim : Z) : M B (ioresult (option (list Z))) :=
  r ←? read_until fuel delim [] 0;
  let '(buf, n) := r in
  if n =? 0 then ok None
  else ok (Some (match last buf with Some x => if x =? delim then take (length buf - 1) buf else buf | None => buf end)).
(** The pieces up to the end *)
Fixpoint split_all (n fuel : nat) (delim : Z) : M B (ioresult (list (list Z))) :=
  match n with
  | O => panic OutOfFuel
  | S n =>
      o ←? split_next fuel delim;
      match o with
      | Some p => ps ←? split_all n fuel delim; ok (p :: ps)
      | None => ok []
      end
  end.
End until.

(** ** Loops to the end *)

Section loop_laws.
Context {R : Type} `{!Reader R, !ReaderOk R}.

(** [read_exact] on a reader that has the bytes *)
Lemma rd_exact_spec fuel : ∀ r l i n acc, rd_rep r l i → 0 ≤ n ≤ Z.of_nat (length l) → n < 2 ^ 64 → (Z.to_nat n + i ≤ fuel)%nat →
  ∃ r' i', rd_exact_loop fuel n acc r = Ok (IoOk (acc ++ take (Z.to_nat n) l), r') ∧ rd_rep r' (drop (Z.to_nat n) l) i' ∧ (i' ≤ i)%nat.
Proof.
  induction fuel as [|fuel IH]; intros r l i n acc Hr Hn Hm Hf; cbn [rd_exact_loop]; (destruct (Z.eqb_spec n 0) as [->|Hn0];
    [exists r, i; rewrite app_nil_r; done|]); [lia|].
  destruct (rd_read r l i n Hr) as [(k & r' & i' & Hrd & Hr' & Hi & Hk & Hkl & Hk0)|(r' & i' & Hrd & Hr' & Hi)]; [lia|..].
  - specialize (Hk0 ltac:(lia) ltac:(intros ->; cbn in *; lia)). run Hrd. assert (length (take k l) = k) as Hl by (rewrite length_take; lia).
    destruct (take k l) as [|b bs] eqn:El; [cbn in Hl; lia|]. rewrite <- El in *. rewrite Hl, usub_in by lia. run_refl.
    destruct (IH r' (drop k l) i' (n - Z.of_nat k) (acc ++ take k l) Hr') as (r2 & i2 & H2 & Hr2 & Hi2); [rewrite length_drop; lia|lia|lia|].
    exists r2, i2. rewrite H2. replace (Z.to_nat n) with (k + Z.to_nat (n - Z.of_nat k))%nat by lia.
    rewrite <- app_assoc, take_take_drop, <- drop_drop. split; [done|]. split; [done|lia].
  - run Hrd. destruct (IH r' l i' n acc Hr') as (r2 & i2 & H2 & Hr2 & Hi2); [lia..|]. exists r2, i2. split; [done|]. split; [done|lia].
Qed.
(** and on one that does not *)
Lemma rd_exact_eof fuel : ∀ r l i n acc, rd_rep r l i → Z.of_nat (length l) < n < 2 ^ 64 → (length l + i < fuel)%nat →
  ∃ r', rd_exact_loop fuel n acc r = Ok (IoErr UnexpectedEof, r').
Proof.
  induction fuel as [|fuel IH]; intros r l i n acc Hr Hn Hf; [lia|]. cbn [rd_exact_loop]. destruct (Z.eqb_spec n 0) as [->|_]; [lia|].
  destruct (rd_read r l i n Hr) as [(k & r' & i' & Hrd & Hr' & Hi & Hk & Hkl & Hk0)|(r' & i' & Hrd & Hr' & Hi)]; [lia|..].
  - run Hrd. assert (length (take k l) = k) as Hl by (rewrite length_take; lia). destruct (take k l) as [|b bs] eqn:El; [by exists r'|].
    rewrite <- El in *. rewrite Hl, usub_in by lia. run_refl. apply (IH r' (drop k l) i'); [done|rewrite length_drop; lia|].
    rewrite length_drop. assert (0 < k)%nat by (rewrite <- Hl, El; cbn; lia). lia.
  - run Hrd. apply (IH r' l i'); [done|lia..].
Qed.

Lemma read_to_end_loop_spec resv start fuel : ∀ r l i acc len cap, (∀ r, 0 < resv r) → rd_rep r l i → (length l + i < fuel)%nat →
  Z.of_nat (length acc) ≤ len ≤ cap →
  ∃ r' i', read_to_end_loop fuel resv acc len cap start r = Ok (IoOk (acc ++ l), r') ∧ rd_rep r' [] i' ∧ (i' ≤ i)%nat.
Proof.
  induction fuel as [|fuel IH]; intros r l i acc len cap Hs Hr Hf Hlen; [lia|]. cbn [read_to_end_loop]. run_refl.
  set (cap' := if _ =? len then reserve _ _ _ else cap). set (len' := if _ =? len then cap' else len).
  assert (Z.of_nat (length acc) < len' ≤ cap') as Hlen'.
  { unfold len', cap', reserve. specialize (Hs r). destruct (Z.eqb_spec (Z.of_nat (length acc)) len); [|lia]. destruct (Z.ltb_spec (cap - len) (resv r)); lia. }
  destruct (rd_read r l i (len' - Z.of_nat (length acc)) Hr) as [(k & r' & i' & Hrd & Hr' & Hi & Hk & Hkl & Hk0)|(r' & i' & Hrd & Hr' & Hi)]; [lia|..].
  - run Hrd. assert (length (take k l) = k) as Hl by (rewrite length_take; lia). destruct (take k l) as [|b bs] eqn:El.
    + destruct l as [|x l]; [|specialize (Hk0 ltac:(lia) ltac:(done)); cbn in Hl; lia]. exists r', i'. rewrite app_nil_r. rewrite drop_nil in Hr'. done.
    + rewrite <- El in *. rewrite Hl. replace (Z.of_nat k <=? len' - Z.of_nat (length acc)) with true by lia. run_refl.
      destruct (IH r' (drop k l) i' (acc ++ take k l) len' cap' Hs Hr') as (r2 & i2 & H2 & Hr2 & Hi2).
      * rewrite length_drop. assert (0 < k)%nat by (rewrite <- Hl, El; cbn; lia). lia.
      * rewrite length_app, Hl. lia.
      * exists r2, i2. rewrite H2, <- app_assoc, take_drop. split; [done|]. split; [done|lia].
  - run Hrd. destruct (IH r' l i' acc len' cap' Hs Hr') as (r2 & i2 & H2 & Hr2 & Hi2); [lia..|]. exists r2, i2. split; [done|]. split; [done|lia].
Qed.
(** [read_to_end] takes everything. *)
Lemma rd_to_end_spec resv fuel r l i v cap : (∀ r, 0 < resv r) → rd_rep r l i → (length l + i < fuel)%nat → Z.of_nat (length v) ≤ cap →
  ∃ r' i', rd_to_end fuel resv v cap r = Ok (IoOk (v ++ l), r') ∧ rd_rep r' [] i' ∧ (i' ≤ i)%nat.
Proof. intros. apply read_to_end_loop_spec; [done..|lia]. Qed.
End loop_laws.

(** ** Up to a delimiter *)

(** The bytes up to the first delimiter, and it *)
Definition until (d : Z) (l : list Z) : list Z := match memchr d l with Some i => take (S i) l | None => l end.

Lemma memchr_lt d l i : memchr d l = Some i → (i < length l)%nat ∧ l !! i = Some d.
Proof.
  revert i. induction l as [|x l IH]; intros i; [done|]. cbn. destruct (Z.eqb_spec x d) as [->|]; [intros [= <-]; split; [lia|done]|].
  destruct (memchr d l) as [j|]; [|done]. intros [= <-]. destruct (IH j eq_refl). split; [lia|done].
Qed.
Lemma memchr_app_Some d l1 l2 i : memchr d l1 = Some i → memchr d (l1 ++ l2) = Some i.
Proof.
  revert i. induction l1 as [|x l1 IH]; intros i; [done|]. cbn. destruct (x =? d); [done|].
  destruct (memchr d l1) as [j|]; [|done]. intros [= <-]. by rewrite (IH j).
Qed.
Lemma memchr_app_None d l1 l2 : memchr d l1 = None → memchr d (l1 ++ l2) = (λ i, (length l1 + i)%nat) <$> memchr d l2.
Proof.
  induction l1 as [|x l1 IH]; [cbn; by destruct (memchr d l2)|]. cbn. destruct (x =? d); [done|].
  destruct (memchr d l1); [done|]. intros _. rewrite IH by done. by destruct (memchr d l2).
Qed.
Lemma until_found d l1 l2 i : memchr d l1 = Some i → until d (l1 ++ l2) = take (S i) l1.
Proof. intros H. unfold until. rewrite (memchr_app_Some _ _ _ _ H). apply take_app_le. apply memchr_lt in H. lia. Qed.
Lemma until_next d l1 l2 : memchr d l1 = None → until d (l1 ++ l2) = l1 ++ until d l2.
Proof.
  intros H. unfold until. rewrite (memchr_app_None _ _ _ H). destruct (memchr d l2) as [i|]; [|done]. cbn [fmap option_fmap option_map].
  by rewrite <- Nat.add_succ_r, take_app_add.
Qed.
Lemma until_length d l : (length (until d l) ≤ length l)%nat.
Proof. unfold until. case_match; [rewrite length_take|]; lia. Qed.

Section until_laws.
Context {B : Type} `{!BufReading B, !BufReadOk B}.

Lemma read_until_spec d fuel : ∀ b l i buf n, bf_rep b l i → (length l + i < fuel)%nat → 0 ≤ n → n + Z.of_nat (length l) < 2 ^ 64 →
  ∃ b' i', read_until fuel d buf n b = Ok (IoOk (buf ++ until d l, n + Z.of_nat (length (until d l))), b') ∧
    bf_rep b' (drop (length (until d l)) l) i' ∧ (i' ≤ i)%nat.
Proof.
  induction fuel as [|fuel IH]; intros b l i buf n Hb Hf Hn Hmax; [lia|]. cbn [read_until].
  destruct (bf_fill b l i Hb) as [(k & b' & i' & Hfl & Hi & Hk & Hk0 & Hc)|(b' & i' & Hfl & Hb' & Hi)]; run Hfl.
  2:{ destruct (IH b' l i' buf n Hb') as (b2 & i2 & H2 & Hb2 & Hi2); [lia..|]. exists b2, i2. split; [done|]. split; [done|lia]. }
  assert (length (take k l) = k) as Hl by (rewrite length_take; lia).
  destruct (memchr d (take k l)) as [j|] eqn:Hj.
  - pose proof (memchr_lt _ _ _ Hj) as [Hjl _]. destruct (Hc (S j)) as (b2 & Hcs & Hb2); [lia|]. run Hcs.
    pose proof (until_found d (take k l) (drop k l) j Hj) as Hu. rewrite take_drop in Hu.
    assert (length (until d l) = S j) as Hul by (rewrite Hu, length_take; lia).
    rewrite uadd_in by lia. run_refl. cbn [orb]. exists b2, i'. rewrite <- Hu, Hul. done.
  - destruct (Hc k) as (b2 & Hcs & Hb2); [lia|]. rewrite Hl. run Hcs. rewrite uadd_in by lia. run_refl. cbn [orb].
    pose proof (until_next d (take k l) (drop k l) Hj) as Hu. rewrite take_drop in Hu.
    rewrite (take_ge (take k l) k) by lia. destruct (Nat.eqb_spec k 0) as [->|Hk1].
    + destruct l as [|x l]; [|specialize (Hk0 ltac:(done)); lia]. exists b2, i'. cbn. rewrite Z.add_0_r. done.
    + destruct (IH b2 (drop k l) i' (buf ++ take k l) (n + Z.of_nat k) Hb2) as (b3 & i3 & H3 & Hb3 & Hi3); [rewrite ?length_drop; lia..|].
      exists b3, i3. rewrite H3, Hu, length_app, Hl, <- app_assoc, <- drop_drop. split; [do 4 f_equal; lia|]. split; [done|lia].
Qed.

(** The pieces between delimiters; nothing comes behind the last one. *)
Fixpoint pieces (d : Z) (l : list Z) : list (list Z) :=
  match l with
  | [] => []
  | x :: l => if x =? d then [] :: pieces d l else match pieces d l with p :: ps => (x :: p) :: ps | [] => [[x]] end
  end.

Lemma pieces_until d l : l ≠ [] → pieces d l =
  match memchr d l with Some i => take i l :: pieces d (drop (S i) l) | None => [l] end.
Proof.
  induction l as [|x l IH]; [done|]. intros _. cbn. destruct (x =? d); [done|]. destruct l as [|y l]; [done|].
  rewrite IH by done. by destruct (memchr d (y :: l)).
Qed.

Lemma split_next_spec d fuel b l i : bf_rep b l i → (length l + i < fuel)%nat → Z.of_nat (length l) < 2 ^ 64 →
  ∃ b' i', split_next fuel d b = Ok (IoOk (match memchr d l with Some j => Some (take j l) | None => if (length l =? 0)%nat then None else Some l end), b') ∧
    bf_rep b' (drop (length (until d l)) l) i' ∧ (i' ≤ i)%nat.
Proof.
  intros Hb Hf Hm. destruct (read_until_spec d fuel b l i [] 0 Hb Hf) as (b' & i' & H & Hb' & Hi); [lia..|]. exists b', i'. split; [|done].
  unfold split_next. rewrite (try_ok _ _ _ _ _ H). cbn [app]. unfold until. destruct (memchr d l) as [j|] eqn:Hj.
  - apply memchr_lt in Hj as [Hjl Hd]. assert (length (take (S j) l) = S j) as Hl by (rewrite length_take; lia). rewrite Hl.
    destruct (Z.eqb_spec (0 + Z.of_nat (S j)) 0) as [|_]; [lia|]. rewrite (take_S_r l j d Hd), last_snoc, Z.eqb_refl.
    replace (S j - 1)%nat with j by lia. by rewrite take_app_length' by (rewrite length_take; lia).
  - destruct l as [|x l]; [done|]. destruct (Z.eqb_spec (0 + Z.of_nat (length (x :: l))) 0) as [|_]; [cbn in *; lia|]. cbn [Nat.eqb length].
    destruct (last (x :: l)) as [y|] eqn:Hl; [|done]. destruct (Z.eqb_spec y d) as [->|]; [|done]. exfalso.
    apply last_Some in Hl as [l' E]. rewrite E in Hj. clear -Hj. induction l' as [|z l' IH]; cbn in Hj; [by rewrite Z.eqb_refl in Hj|].
    destruct (z =? d); [done|]. destruct (memchr d (l' ++ [d])); [done|]. by apply IH.
Qed.

(** C34: [split] on any buffered reader, however its bytes arrive and how often it is interrupted: the pieces between the delimiters
    in order, and it ends. *)
Theorem split_pieces d n fuel b l i : bf_rep b l i → (length l < n)%nat → (length l + i < fuel)%nat → Z.of_nat (length l) < 2 ^ 64 →
  ∃ b' i', split_all n fuel d b = Ok (IoOk (pieces d l), b') ∧ bf_rep b' [] i'.
Proof.
  revert b l i. induction n as [|n IH]; intros b l i Hb Hn Hf Hm; [lia|]. cbn [split_all].
  destruct (split_next_spec d fuel b l i Hb Hf Hm) as (b' & i' & H & Hb' & Hi). rewrite (try_ok _ _ _ _ _ H).
  destruct (decide (l = [])) as [->|Hl]; [exists b', i'; done|]. rewrite pieces_until by done. unfold until in Hb'.
  destruct (memchr d l) as [j|] eqn:Hj.
  - apply memchr_lt in Hj as [Hjl _]. assert (length (take (S j) l) = S j) as Ht by (rewrite length_take; lia). rewrite Ht in Hb'.
    destruct (IH b' (drop (S j) l) i' Hb') as (b2 & i2 & H2 & Hb2); [rewrite length_drop; lia..|]. exists b2, i2. split; [|done].
    erewrite try_ok by exact H2. done.
  - destruct (Nat.eqb_spec (length l) 0) as [?%length_zero_iff_nil|_]; [done|]. rewrite drop_all in Hb'.
    destruct (IH b' [] i' Hb') as (b2 & i2 & H2 & Hb2); [cbn; destruct l; cbn in *; [done|lia]|cbn in *; lia|cbn; lia|]. exists b2, i2. split; [|done].
    erewrite try_ok by exact H2. done.
Qed.
End until_laws.
