(* ===== verification/BufReader.v ===== *)
(** * Readers around readers

    [BufReader] (core_io/src/io/buffered/bufreader.rs), [Take] and [Chain] (core_io/src/io/mod.rs) and byte slices
    (impls.rs) keep what [BufIo] says of readers: a buffer between a program and a reader changes how often
    the reader is asked, and nothing else. *)

From S2P Require Import Prelude Io FatIo BufIo.

(** [&buf[a..b]] *)
Definition slice (a b : Z) (l : list Z) : exec (list Z) :=
  if (a <=? b) && (b <=? Z.of_nat (length l)) then Ok (take (Z.to_nat (b - a)) (drop (Z.to_nat a) l)) else Panic OutOfBounds.

(** ** [BufReader] *)

Record BufReader (R : Type) := { br_inner : R; br_buf : list Z; br_pos : Z; br_cap : Z }.
Arguments br_inner {_}. Arguments br_buf {_}. Arguments br_pos {_}. Arguments br_cap {_}.
Definition DEFAULT_BUF_SIZE : Z := 8 * 1024.

Section bufreader.
Context {R : Type}.
Abbreviation BR := (BufReader R).

(** A new buffer is zeroed, unless the reader does not mind. *)
Definition br_with_capacity (capacity : Z) (inner : R) : BR :=
  {| br_inner := inner; br_buf := replicate (Z.to_nat capacity) 0; br_pos := 0; br_cap := 0 |}.
Definition br_new (inner : R) : BR := br_with_capacity DEFAULT_BUF_SIZE inner.
Definition at_buf (pos cap : Z) : M BR unit := modify (λ s, {| br_inner := br_inner s; br_buf := br_buf s; br_pos := pos; br_cap := cap |}).
Definition on_reader {A} (m : M R A) : M BR A := λ s,
  match m (br_inner s) with
  | Ok (r, x) => Ok (r, {| br_inner := x; br_buf := br_buf s; br_pos := br_pos s; br_cap := br_cap s |})
  | Panic e => Panic e
  end.

Definition br_buffer : M BR (list Z) := s ← get; lift (slice (br_pos s) (br_cap s) (br_buf s)).
Definition discard_buffer : M BR unit := at_buf 0 0.
Definition br_consume (amt : Z) : M BR unit :=
  s ← get; p ← lift (uadd (br_pos s) amt); at_buf (Z.min p (br_cap s)) (br_cap s).

Section reading.
Context `{!Reader R}.
Definition br_fill_buf : M BR (ioresult (list Z)) :=
  s ← get;
  r ← (if br_cap s <=? br_pos s then
         lift (ensure (br_pos s =? br_cap s)) ;;
         bs ←? on_reader (r_read (Z.of_nat (length (br_buf s))));
         modify (λ s, {| br_inner := br_inner s; br_buf := bs ++ drop (length bs) (br_buf s); br_pos := 0; br_cap := Z.of_nat (length bs) |}) ;;
         ok tt
       else ok tt);
  match r with
  | IoOk _ => b ← br_buffer; ok b
  | IoErr e => err e
  end.

Definition br_read (n : Z) : M BR (ioresult (list Z)) :=
  s ← get;
  if (br_pos s =? br_cap s) && (Z.of_nat (length (br_buf s)) <=? n) then
    discard_buffer ;;
    on_reader (r_read n)
  else
    rem ←? br_fill_buf;
    let bs := take (Z.to_nat n) rem in
    br_consume (Z.of_nat (length bs)) ;;
    ok bs.
End reading.
#[export] Instance br_reader `{!Reader R} : Reader BR := {| r_read := br_read |}.
#[export] Instance br_bufreading `{!Reader R} : BufReading BR := {| fill_buf := br_fill_buf; consume := br_consume |}.

(** [read_exact]: from the buffer when it has enough *)
Definition br_read_exact `{!Reader R} (fuel : nat) (n : Z) : M BR (ioresult (list Z)) :=
  b ← br_buffer;
  if n <=? Z.of_nat (length b) then
    br_consume n ;;
    ok (take (Z.to_nat n) b)
  else rd_exact_loop fuel n [].

(** ** Reading *)

Context `{!Reader R, !ReaderOk R}.

Definition br_wf (s : BR) : Prop := 0 ≤ br_pos s ≤ br_cap s ∧ br_cap s ≤ Z.of_nat (length (br_buf s)) < 2 ^ 63.
(** What is left in the buffer *)
Definition pending (s : BR) : list Z := take (Z.to_nat (br_cap s - br_pos s)) (drop (Z.to_nat (br_pos s)) (br_buf s)).
Definition br_rep (s : BR) (l : list Z) (i : nat) : Prop := br_wf s ∧ ∃ rest, rd_rep (br_inner s) rest i ∧ l = pending s ++ rest.

Lemma length_pending s : br_wf s → Z.of_nat (length (pending s)) = br_cap s - br_pos s.
Proof. intros [? ?]. unfold pending. rewrite length_take, length_drop. lia. Qed.
Lemma pending_empty s : br_wf s → br_cap s ≤ br_pos s → pending s = [].
Proof. intros Hw H. apply length_zero_iff_nil. pose proof (length_pending s Hw). lia. Qed.

Lemma br_buffer_eq s : br_wf s → br_buffer s = Ok (pending s, s).
Proof.
  intros [? ?]. unfold br_buffer, slice. run_refl. replace ((br_pos s <=? br_cap s) && (br_cap s <=? Z.of_nat (length (br_buf s)))) with true by lia. done.
Qed.
Lemma br_consume_eq s (n : nat) : br_wf s → (n ≤ length (pending s))%nat →
  ∃ s', br_consume (Z.of_nat n) s = Ok (tt, s') ∧ br_wf s' ∧ pending s' = drop n (pending s) ∧ br_inner s' = br_inner s ∧ br_buf s' = br_buf s.
Proof.
  intros Hw Hn. pose proof (length_pending s Hw) as Hl. destruct Hw as [Hp Hc]. unfold br_consume. run_refl. rewrite uadd_in by lia. run_refl.
  rewrite Z.min_l by lia. eexists. split; [reflexivity|]. unfold br_wf. cbn. split; [lia|]. split; [|done]. unfold pending. cbn.
  rewrite skipn_firstn_comm, drop_drop. f_equal; [|f_equal]; lia.
Qed.

Lemma br_fill_spec s l i : br_rep s l i → (0 < length (br_buf s))%nat →
  (∃ s' rest i', br_fill_buf s = Ok (IoOk (pending s'), s') ∧ br_wf s' ∧ rd_rep (br_inner s') rest i' ∧ (i' ≤ i)%nat ∧ l = pending s' ++ rest ∧
     (l ≠ [] → pending s' ≠ []) ∧ length (br_buf s') = length (br_buf s)) ∨
  (∃ s' i', br_fill_buf s = Ok (IoErr Interrupted, s') ∧ br_rep s' l i' ∧ (i' < i)%nat ∧ length (br_buf s') = length (br_buf s)).
Proof.
  intros [Hw (rest & Hr & ->)] Hlen. unfold br_fill_buf. run_refl. destruct (Z.leb_spec (br_cap s) (br_pos s)) as [Hle|Hlt].
  - rewrite (pending_empty s) by done. cbn [app]. pose proof Hw as [Hp Hc]. replace (br_pos s =? br_cap s) with true by lia.
    destruct (rd_read (br_inner s) rest i (Z.of_nat (length (br_buf s))) Hr) as
      [(k & r' & i' & Hrd & Hr' & Hi & Hk & Hkl & Hk0)|(r' & i' & Hrd & Hr' & Hi)]; [lia|left|right].
    + assert (length (take k rest) = k) as Hl by (rewrite length_take; lia).
      set (s' := {| br_inner := r'; br_buf := take k rest ++ drop k (br_buf s); br_pos := 0; br_cap := Z.of_nat k |}).
      assert (length (br_buf s') = length (br_buf s)) as Hb' by (cbn; rewrite length_app, Hl, length_drop; lia).
      assert (br_wf s') as Hw' by (unfold br_wf; rewrite Hb'; cbn; lia).
      assert (pending s' = take k rest) as Hpe.
      { unfold pending, s'. cbn. rewrite drop_0, Z.sub_0_r, Nat2Z.id. apply take_app_length'. lia. }
      exists s', (drop k rest), i'. split.
      * step_by ltac:(run_refl; erewrite try_ok by (unfold on_reader; rewrite Hrd; reflexivity); rewrite Hl; cbn; reflexivity).
        change ((b ← br_buffer; ok b) s' = Ok (IoOk (pending s'), s')). by run (br_buffer_eq s' Hw').
      * rewrite Hpe, take_drop. split_and!; try done. intros Hl0. specialize (Hk0 ltac:(lia) Hl0). intros E. rewrite E in Hl. cbn in Hl. lia.
    + eexists _, i'. split.
      * step_by ltac:(run_refl; unfold try; erewrite M_bind_eq by (unfold on_reader; rewrite Hrd; reflexivity); reflexivity). reflexivity.
      * split; [|done]. split; [done|]. exists rest. split; [done|]. rewrite pending_empty by done. done.
  - left. exists s, rest, i. run_refl. cbn beta iota. run (br_buffer_eq s Hw). split_and!; try done. intros _ E. pose proof (length_pending s Hw) as Hl. rewrite E in Hl. cbn in Hl. lia.
Qed.

(** A buffered reader reads what the reader under it would have: with any buffer, even an empty one, and any state of it, a read takes a
    prefix of what is left, which is empty only at the end (or if nothing is asked for). *)
Theorem br_read_spec s l i n : br_rep s l i → 0 ≤ n →
  (∃ (k : nat) s' i', br_read n s = Ok (IoOk (take k l), s') ∧ br_rep s' (drop k l) i' ∧ (i' ≤ i)%nat ∧
     Z.of_nat k ≤ n ∧ (k ≤ length l)%nat ∧ (0 < n → l ≠ [] → (0 < k)%nat)) ∨
  (∃ s' i', br_read n s = Ok (IoErr Interrupted, s') ∧ br_rep s' l i' ∧ (i' < i)%nat).
Proof.
  intros Hs Hn. unfold br_read. run_refl. destruct ((br_pos s =? br_cap s) && (Z.of_nat (length (br_buf s)) <=? n)) eqn:Hby.
  - destruct Hs as [Hw (rest & Hr & ->)]. rewrite (pending_empty s) by (done || lia). cbn [app].
    assert (br_wf {| br_inner := br_inner s; br_buf := br_buf s; br_pos := 0; br_cap := 0 |}) as Hw0 by (destruct Hw; unfold br_wf; cbn; lia).
    destruct (rd_read (br_inner s) rest i n Hr Hn) as [(k & r' & i' & Hrd & Hr' & Hk)|(r' & i' & Hrd & Hr' & Hi)]; [left|right].
    + exists k. eexists _, i'. split; [run_refl; unfold on_reader; cbn; rewrite Hrd; reflexivity|]. split; [|done]. split; [done|]. by exists (drop k rest).
    + eexists _, i'. split; [run_refl; unfold on_reader; cbn; rewrite Hrd; reflexivity|]. split; [|done]. split; [done|]. by exists rest.
  - pose proof Hs as [[Hp Hc] _]. destruct (decide (0 < length (br_buf s))%nat) as [Hlen|Hlen]; [|lia].
    destruct (br_fill_spec s l i Hs Hlen) as [(s1 & rest & i' & Hf & Hw1 & Hr1 & Hi & -> & Hne & _)|(s1 & i' & Hf & Hs1 & Hi & _)]; [left|right].
    + rewrite (try_ok _ _ _ _ _ Hf). set (k := Nat.min (Z.to_nat n) (length (pending s1))).
      assert (take (Z.to_nat n) (pending s1) = take k (pending s1)) as Et.
      { unfold k. destruct (decide (Z.to_nat n ≤ length (pending s1))%nat); [by rewrite Nat.min_l by lia|].
        rewrite Nat.min_r by lia. by rewrite !take_ge by lia. }
      rewrite Et. assert (length (take k (pending s1)) = k) as Hk by (rewrite length_take; lia). rewrite Hk.
      destruct (br_consume_eq s1 k Hw1) as (s2 & Hcs & Hw2 & Hp2 & Hi2 & _); [lia|]. run Hcs. exists k, s2, i'.
      rewrite take_app_le by lia. split; [done|]. split.
      * split; [done|]. exists rest. rewrite Hi2, Hp2, drop_app_le by lia. done.
      * split; [done|]. split; [lia|]. split; [rewrite length_app; lia|]. intros H0 Hl. specialize (Hne Hl).
        assert (length (pending s1) ≠ 0%nat) by (intros ?%length_zero_iff_nil; done). lia.
    + exists s1, i'. rewrite (try_err _ _ _ _ _ Hf). done.
Qed.
#[export] Instance br_reader_ok : ReaderOk BR := {| rd_rep := br_rep; rd_read := br_read_spec |}.

(** With a buffer that holds something, it is a [BufRead]. *)
Lemma br_fill_ok s l i : br_rep s l i ∧ (0 < length (br_buf s))%nat →
  (∃ (k : nat) s' i', br_fill_buf s = Ok (IoOk (take k l), s') ∧ (i' ≤ i)%nat ∧ (k ≤ length l)%nat ∧ (l ≠ [] → (0 < k)%nat) ∧
     ∀ n : nat, (n ≤ k)%nat → ∃ s'', br_consume (Z.of_nat n) s' = Ok (tt, s'') ∧ br_rep s'' (drop n l) i' ∧ (0 < length (br_buf s''))%nat) ∨
  (∃ s' i', br_fill_buf s = Ok (IoErr Interrupted, s') ∧ (br_rep s' l i' ∧ (0 < length (br_buf s'))%nat) ∧ (i' < i)%nat).
Proof.
  intros [Hs Hlen]. destruct (br_fill_spec s l i Hs Hlen) as [(s1 & rest & i' & Hf & Hw1 & Hr1 & Hi & -> & Hne & Hb)|(s1 & i' & Hf & Hs1 & Hi & Hb)]; [left|right].
  - exists (length (pending s1)), s1, i'. rewrite take_app_length. split; [done|]. split; [done|]. split; [rewrite length_app; lia|].
    split; [intros Hl; specialize (Hne Hl); destruct (pending s1); [done|cbn; lia]|]. intros n Hn.
    destruct (br_consume_eq s1 n Hw1 Hn) as (s2 & Hcs & Hw2 & Hp2 & Hi2 & Hb2). exists s2. split; [done|]. split; [|rewrite Hb2; lia].
    split; [done|]. exists rest. rewrite Hi2, Hp2, drop_app_le by lia. done.
  - exists s1, i'. split; [done|]. split; [|done]. split; [done|lia].
Qed.
#[export] Instance br_bufread_ok : BufReadOk BR.
Proof.
  refine {| bf_rep s l i := br_rep s l i ∧ (0 < length (br_buf s))%nat; bf_fill := br_fill_ok |}.
  intros s l i [[Hw (rest & Hr & ->)] Hb]. destruct (br_consume_eq s 0 Hw) as (s' & Hc & Hw' & Hp & Hi & Hb'); [lia|]. exists s'.
  split; [exact Hc|]. rewrite Hb'. split; [|done]. split; [done|]. exists rest. by rewrite Hi, Hp, drop_0.
Defined.

(** [read_exact] takes the next bytes, through the buffer or around it. *)
Lemma br_exact_spec fuel s l i n : br_rep s l i → 0 ≤ n ≤ Z.of_nat (length l) → n < 2 ^ 64 → (Z.to_nat n + i ≤ fuel)%nat →
  ∃ s' i', br_read_exact fuel n s = Ok (IoOk (take (Z.to_nat n) l), s') ∧ br_rep s' (drop (Z.to_nat n) l) i' ∧ (i' ≤ i)%nat.
Proof.
  intros Hs Hn Hm Hf. unfold br_read_exact. run (br_buffer_eq s (proj1 Hs)). destruct (Z.leb_spec n (Z.of_nat (length (pending s)))) as [Hle|Hgt].
  - destruct Hs as [Hw (rest & Hr & ->)]. destruct (br_consume_eq s (Z.to_nat n) Hw) as (s' & Hc & Hw' & Hp' & Hi' & _); [lia|].
    rewrite Z2Nat.id in Hc by lia. run Hc. exists s', i. rewrite take_app_le by lia. split; [done|]. split; [|lia].
    split; [done|]. exists rest. rewrite Hi', Hp', drop_app_le by lia. done.
  - exact (rd_exact_spec (R := BR) fuel s l i n [] Hs Hn Hm Hf).
Qed.
End bufreader.

(** ** [Take] *)

Record Take (R : Type) := { tk_inner : R; tk_limit : Z }.
Arguments tk_inner {_}. Arguments tk_limit {_}.

Section take.
Context {R : Type}.
Abbreviation TK := (Take R).
Definition on_taken {A} (m : M R A) : M TK A := λ s,
  match m (tk_inner s) with Ok (r, x) => Ok (r, {| tk_inner := x; tk_limit := tk_limit s |}) | Panic e => Panic e end.
(** [self.limit -= n] *)
Definition tk_less (n : Z) : M TK unit :=
  s ← get; x ← lift (usub (tk_limit s) n); modify (λ s, {| tk_inner := tk_inner s; tk_limit := x |}).

Definition tk_read `{!Reader R} (n : Z) : M TK (ioresult (list Z)) :=
  s ← get;
  if tk_limit s =? 0 then ok []
  else
    bs ←? on_taken (r_read (Z.min n (tk_limit s)));
    tk_less (Z.of_nat (length bs)) ;;
    ok bs.
Definition tk_fill_buf `{!BufReading R} : M TK (ioresult (list Z)) :=
  s ← get;
  if tk_limit s =? 0 then ok []
  else
    buf ←? on_taken fill_buf;
    ok (take (Z.to_nat (Z.min (Z.of_nat (length buf)) (tk_limit s))) buf).
Definition tk_consume `{!BufReading R} (amt : Z) : M TK unit :=
  s ← get;
  let amt := Z.min amt (tk_limit s) in
  tk_less amt ;;
  on_taken (consume amt).
#[export] Instance tk_reader `{!Reader R} : Reader TK := {| r_read := tk_read |}.
#[export] Instance tk_bufreading `{!BufReading R} : BufReading TK := {| fill_buf := tk_fill_buf; consume := tk_consume |}.

Lemma tk_less_eq s n : 0 ≤ n ≤ tk_limit s → tk_limit s < 2 ^ 64 → tk_less n s = Ok (tt, {| tk_inner := tk_inner s; tk_limit := tk_limit s - n |}).
Proof. intros. unfold tk_less. run_refl. rewrite usub_in by lia. done. Qed.

(** The first [limit] bytes of what is left *)
Lemma tk_read_ok `{!Reader R, !ReaderOk R} (s : TK) l0 i n : 0 ≤ tk_limit s < 2 ^ 64 → rd_rep (tk_inner s) l0 i → 0 ≤ n →
  let l := take (Z.to_nat (tk_limit s)) l0 in
  (∃ (k : nat) s' i', tk_read n s = Ok (IoOk (take k l), s') ∧
     (0 ≤ tk_limit s' < 2 ^ 64 ∧ ∃ l0', rd_rep (tk_inner s') l0' i' ∧ drop k l = take (Z.to_nat (tk_limit s')) l0') ∧ (i' ≤ i)%nat ∧
     Z.of_nat k ≤ n ∧ (k ≤ length l)%nat ∧ (0 < n → l ≠ [] → (0 < k)%nat)) ∨
  (∃ s' i', tk_read n s = Ok (IoErr Interrupted, s') ∧
     (0 ≤ tk_limit s' < 2 ^ 64 ∧ ∃ l0', rd_rep (tk_inner s') l0' i' ∧ l = take (Z.to_nat (tk_limit s')) l0') ∧ (i' < i)%nat).
Proof.
  intros Hlim Hr Hn l. unfold tk_read. run_refl. destruct (Z.eqb_spec (tk_limit s) 0) as [E|E].
  { left. exists 0%nat, s, i. unfold l. rewrite E. cbn. split; [done|]. split; [split; [lia|]; by exists l0|]. split; [lia|]. split; [lia|]. done. }
  destruct (rd_read (tk_inner s) l0 i (Z.min n (tk_limit s)) Hr) as [(k & r' & i' & Hrd & Hr' & Hi & Hk & Hkl & Hk0)|(r' & i' & Hrd & Hr' & Hi)]; [lia|left|right].
  - assert (length (take k l0) = k) as Hl by (rewrite length_take; lia). exists k. eexists _, i'. split.
    + erewrite try_ok by (unfold on_taken; rewrite Hrd; reflexivity). rewrite Hl.
      erewrite M_bind_eq by (apply tk_less_eq; cbn; lia). unfold l. rewrite take_take. replace (k `min` Z.to_nat (tk_limit s))%nat with k by lia. reflexivity.
    + cbn. split; [split; [lia|]; exists (drop k l0); split; [done|]; unfold l; rewrite skipn_firstn_comm; f_equal; lia|].
      split; [done|]. split; [lia|]. split; [unfold l; rewrite length_take; lia|].
      intros H0 H1. apply Hk0; [lia|]. intros ->. apply H1. unfold l. apply take_nil.
  - eexists _, i'. split; [unfold try; erewrite M_bind_eq by (unfold on_taken; rewrite Hrd; reflexivity); reflexivity|]. split; [|done]. cbn. split; [done|]. by exists l0.
Qed.
#[export] Instance tk_reader_ok `{!Reader R, !ReaderOk R} : ReaderOk TK.
Proof.
  refine {| rd_rep (s : TK) l i := 0 ≤ tk_limit s < 2 ^ 64 ∧ ∃ l0, rd_rep (tk_inner s) l0 i ∧ l = take (Z.to_nat (tk_limit s)) l0 |}.
  intros s l i n (Hlim & l0 & Hr & ->) Hn. by apply tk_read_ok.
Defined.
#[export] Instance tk_bufread_ok `{!BufReading R, !BufReadOk R} : BufReadOk TK.
Proof.
  refine {| bf_rep (s : TK) l i := 0 ≤ tk_limit s < 2 ^ 64 ∧ ∃ l0, bf_rep (tk_inner s) l0 i ∧ l = take (Z.to_nat (tk_limit s)) l0 |}.
  - intros s l i (Hlim & l0 & Hr & ->). cbn [fill_buf consume tk_bufreading]. unfold tk_fill_buf. run_refl. destruct (Z.eqb_spec (tk_limit s) 0) as [E|E].
    + left. exists 0%nat, s, i. rewrite E. cbn. split_and!; try done; try lia. intros n Hn. assert (n = 0%nat) as -> by lia.
      unfold tk_consume. run_refl. replace (Z.min (Z.of_nat 0) (tk_limit s)) with 0 by lia. step_by ltac:(apply tk_less_eq; lia).
      destruct (bf_nothing (tk_inner s) l0 i Hr) as (r' & Hc & Hr'). unfold on_taken. cbn [tk_inner tk_limit]. rewrite Hc. eexists. split; [reflexivity|].
      cbn. rewrite E. split; [lia|]. by exists l0.
    + destruct (bf_fill (tk_inner s) l0 i Hr) as [(k & r' & i' & Hrd & Hi & Hkl & Hk0 & Hc)|(r' & i' & Hrd & Hr' & Hi)]; [left|right].
      * assert (length (take k l0) = k) as Hl by (rewrite length_take; lia). exists (Nat.min k (Z.to_nat (tk_limit s))). eexists _, i'. split.
        { erewrite try_ok by (unfold on_taken; rewrite Hrd; reflexivity). rewrite Hl, !take_take.
          replace (Z.to_nat (Z.min (Z.of_nat k) (tk_limit s)) `min` k)%nat with ((k `min` Z.to_nat (tk_limit s)) `min` Z.to_nat (tk_limit s))%nat by lia. reflexivity. }
        split; [done|]. split; [rewrite length_take; lia|]. split; [intros H; assert (l0 ≠ []) as H0 by (intros ->; rewrite take_nil in H; done); specialize (Hk0 H0); lia|].
        intros n Hn. unfold tk_consume. run_refl. cbn [tk_limit tk_inner]. rewrite Z.min_l by lia. erewrite M_bind_eq by (apply tk_less_eq; cbn; lia).
        destruct (Hc n ltac:(lia)) as (r2 & Hc2 & Hr2). unfold on_taken. cbn [tk_inner tk_limit]. rewrite Hc2. eexists. split; [reflexivity|]. cbn. split; [lia|].
        exists (drop n l0). split; [done|]. rewrite skipn_firstn_comm. f_equal. lia.
      * eexists _, i'. split; [unfold try; erewrite M_bind_eq by (unfold on_taken; rewrite Hrd; reflexivity); reflexivity|]. split; [|done]. cbn. split; [done|]. by exists l0.
  - intros s l i (Hlim & l0 & Hr & ->). cbn [consume tk_bufreading]. unfold tk_consume. run_refl. rewrite Z.min_l by lia.
    step_by ltac:(apply tk_less_eq; lia). destruct (bf_nothing (tk_inner s) l0 i Hr) as (r' & Hc & Hr'). unfold on_taken. cbn [tk_inner tk_limit]. rewrite Hc.
    eexists. split; [reflexivity|]. cbn. rewrite Z.sub_0_r. split; [done|]. by exists l0.
Defined.
End take.

(** ** [Chain] *)

Record Chain (T U : Type) := { ch_first : T; ch_second : U; done_first : bool }.
Arguments ch_first {_ _}. Arguments ch_second {_ _}. Arguments done_first {_ _}.

Section chain.
Context {T U : Type}.
Abbreviation CH := (Chain T U).
Definition on_first {A} (m : M T A) : M CH A := λ s,
  match m (ch_first s) with Ok (r, x) => Ok (r, {| ch_first := x; ch_second := ch_second s; done_first := done_first s |}) | Panic e => Panic e end.
Definition on_second {A} (m : M U A) : M CH A := λ s,
  match m (ch_second s) with Ok (r, x) => Ok (r, {| ch_first := ch_first s; ch_second := x; done_first := done_first s |}) | Panic e => Panic e end.
Definition set_done : M CH unit := modify (λ s, {| ch_first := ch_first s; ch_second := ch_second s; done_first := true |}).

Definition ch_read `{!Reader T, !Reader U} (n : Z) : M CH (ioresult (list Z)) :=
  s ← get;
  if done_first s then on_second (r_read n)
  else
    bs ←? on_first (r_read n);
    if (length bs =? 0)%nat && negb (n =? 0) then set_done ;; on_second (r_read n)
    else ok bs.
Definition ch_fill_buf `{!BufReading T, !BufReading U} : M CH (ioresult (list Z)) :=
  s ← get;
  if done_first s then on_second fill_buf
  else
    bs ←? on_first fill_buf;
    if (length bs =? 0)%nat then set_done ;; on_second fill_buf else ok bs.
Definition ch_consume `{!BufReading T, !BufReading U} (amt : Z) : M CH unit :=
  s ← get; if done_first s then on_second (consume amt) else on_first (consume amt).
#[export] Instance ch_reader `{!Reader T, !Reader U} : Reader CH := {| r_read := ch_read |}.
#[export] Instance ch_bufreading `{!BufReading T, !BufReading U} : BufReading CH := {| fill_buf := ch_fill_buf; consume := ch_consume |}.

(** What the first has left, then what the second has *)
Definition ch_rep `{!Reader T, !ReaderOk T, !Reader U, !ReaderOk U} (s : CH) (l : list Z) (i : nat) : Prop := ∃ l1 i1 l2 i2,
  (if done_first s then l1 = [] ∧ i1 = 0%nat else rd_rep (ch_first s) l1 i1) ∧ rd_rep (ch_second s) l2 i2 ∧ l = l1 ++ l2 ∧ i = (i1 + i2)%nat.

Lemma second_read `{!Reader T, !ReaderOk T, !Reader U, !ReaderOk U} (s : CH) l i n : done_first s = true → rd_rep (ch_second s) l i → 0 ≤ n →
  (∃ (k : nat) s' i', on_second (r_read n) s = Ok (IoOk (take k l), s') ∧ ch_rep s' (drop k l) i' ∧ (i' ≤ i)%nat ∧
     Z.of_nat k ≤ n ∧ (k ≤ length l)%nat ∧ (0 < n → l ≠ [] → (0 < k)%nat)) ∨
  (∃ s' i', on_second (r_read n) s = Ok (IoErr Interrupted, s') ∧ ch_rep s' l i' ∧ (i' < i)%nat).
Proof.
  intros Hd Hr Hn. destruct (rd_read (ch_second s) l i n Hr Hn) as [(k & r' & i' & Hrd & Hr' & Hk)|(r' & i' & Hrd & Hr' & Hi)]; [left; exists k|right].
  - eexists _, i'. split; [unfold on_second; rewrite Hrd; reflexivity|]. split; [|done]. exists [], 0%nat, (drop k l), i'. cbn. by rewrite Hd.
  - eexists _, i'. split; [unfold on_second; rewrite Hrd; reflexivity|]. split; [|done]. exists [], 0%nat, l, i'. cbn. by rewrite Hd.
Qed.

Lemma ch_read_ok `{!Reader T, !ReaderOk T, !Reader U, !ReaderOk U} (s : CH) l i n : ch_rep s l i → 0 ≤ n →
  (∃ (k : nat) s' i', ch_read n s = Ok (IoOk (take k l), s') ∧ ch_rep s' (drop k l) i' ∧ (i' ≤ i)%nat ∧
     Z.of_nat k ≤ n ∧ (k ≤ length l)%nat ∧ (0 < n → l ≠ [] → (0 < k)%nat)) ∨
  (∃ s' i', ch_read n s = Ok (IoErr Interrupted, s') ∧ ch_rep s' l i' ∧ (i' < i)%nat).
Proof.
  intros (l1 & i1 & l2 & i2 & H1 & H2 & -> & ->) Hn. unfold ch_read. run_refl. destruct (done_first s) eqn:Hd.
  { destruct H1 as [-> ->]. by apply second_read. }
  destruct (rd_read (ch_first s) l1 i1 n H1 Hn) as [(k & r' & i' & Hrd & Hr' & Hi & Hk & Hkl & Hk0)|(r' & i' & Hrd & Hr' & Hi)].
  - assert (length (take k l1) = k) as Hl by (rewrite length_take; lia). erewrite try_ok by (unfold on_first; rewrite Hrd; reflexivity). rewrite Hl.
    destruct ((k =? 0)%nat && negb (n =? 0)) eqn:Hz.
    + apply andb_true_iff in Hz as [Hz1%Nat.eqb_eq Hz2%negb_true_iff%Z.eqb_neq].
      assert (l1 = []) as -> by (destruct l1; [done|]; specialize (Hk0 ltac:(lia) ltac:(done)); lia). run_refl. cbn [app].
      destruct (second_read {| ch_first := r'; ch_second := ch_second s; done_first := true |} l2 i2 n eq_refl H2 Hn) as
        [(k2 & s' & i2' & G1 & G2 & G3 & G4)|(s' & i2' & G1 & G2 & G3)]; [left|right].
      * exists k2, s', i2'. split; [exact G1|]. split; [done|]. split; [lia|done].
      * exists s', i2'. split; [exact G1|]. split; [done|lia].
    + left. exists k. eexists _, (i' + i2)%nat. split; [rewrite take_app_le by lia; reflexivity|]. split.
      { exists (drop k l1), i', l2, i2. cbn. rewrite Hd, drop_app_le by lia. done. }
      split; [lia|]. split; [lia|]. split; [rewrite length_app; lia|]. intros H0 _. destruct k; [|lia]. cbn in Hz. apply negb_false_iff, Z.eqb_eq in Hz. lia.
  - right. eexists _, (i' + i2)%nat. split; [unfold try; erewrite M_bind_eq by (unfold on_first; rewrite Hrd; reflexivity); reflexivity|]. split; [|lia].
    exists l1, i', l2, i2. cbn. by rewrite Hd.
Qed.
#[export] Instance ch_reader_ok `{!Reader T, !ReaderOk T, !Reader U, !ReaderOk U} : ReaderOk CH := {| rd_rep := ch_rep; rd_read := ch_read_ok |}.
End chain.

(** ** Byte slices *)

#[export] Instance slice_reader : Reader (list Z) := {| r_read n s := Ok (IoOk (take (Z.to_nat n) s), drop (Z.to_nat n) s) |}.
#[export] Instance slice_bufreading : BufReading (list Z) := {|
  fill_buf s := Ok (IoOk s, s);
  consume amt s := if amt <=? Z.of_nat (length s) then Ok (tt, drop (Z.to_nat amt) s) else Panic OutOfBounds |}.
#[export] Instance slice_reader_ok : ReaderOk (list Z).
Proof.
  refine {| rd_rep s l i := s = l |}. intros s l i n -> Hn. left. exists (Nat.min (Z.to_nat n) (length l)), (drop (Z.to_nat n) l), i. cbn. split.
  - do 3 f_equal. destruct (decide (Z.to_nat n ≤ length l)%nat); [by rewrite Nat.min_l by lia|]. rewrite Nat.min_r by lia. by rewrite !take_ge by lia.
  - split; [|split; [lia|]; split; [lia|]; split; [lia|]; intros H0 Hl; destruct l; [done|cbn; lia]].
    destruct (decide (Z.to_nat n ≤ length l)%nat); [by rewrite Nat.min_l by lia|]. rewrite Nat.min_r by lia. by rewrite !drop_ge by lia.
Defined.
#[export] Instance slice_bufread_ok : BufReadOk (list Z).
Proof.
  refine {| bf_rep s l i := s = l |}.
  - intros s l i ->. left. exists (length l), l, i. cbn. rewrite take_ge by lia. split; [done|]. split; [lia|]. split; [lia|].
    split; [destruct l; [done|cbn; lia]|]. intros n Hn. replace (Z.of_nat n <=? Z.of_nat (length l)) with true by lia. rewrite Nat2Z.id. by eexists.
  - intros s l i ->. exists l. split; [|done]. unfold consume, slice_bufreading. by rewrite (proj2 (Z.leb_le 0 _)) by lia.
Defined.

(** ** A reader that comes in pieces *)

(** Each read delivers at most the first piece; an empty one is an interruption. *)
Definition step_read (n : Z) (s : list (list Z)) : exec (ioresult (list Z) * list (list Z)) :=
  match s with
  | [] => Ok (IoOk [], [])
  | [] :: s => Ok (IoErr Interrupted, s)
  | p :: s => Ok (IoOk (take (Z.to_nat n) p), match drop (Z.to_nat n) p with [] => s | q => q :: s end)
  end.
#[export] Instance step_reader : Reader (list (list Z)) := {| r_read := step_read |}.
#[export] Instance step_reader_ok : ReaderOk (list (list Z)).
Proof.
  refine {| rd_rep s l i := l = concat s ∧ length (filter (λ p, p = []) s) = i |}. intros s l i n (-> & <-) Hn. cbn [r_read step_reader].
  destruct s as [|[|x p] s]; cbn [step_read].
  - left. exists 0%nat, [], 0%nat. cbn. split_and!; done || lia.
  - right. eexists _, (length (filter (λ p, p = []) s)). split; [reflexivity|]. split; [done|]. rewrite filter_cons_True by done. cbn. lia.
  - left. set (q := x :: p). exists (Nat.min (Z.to_nat n) (length q)). eexists _, (length (filter (λ p, p = []) s)). cbn [concat]. split.
    + rewrite take_app_le by lia. replace (take (Nat.min (Z.to_nat n) (length q)) q) with (take (Z.to_nat n) q); [reflexivity|].
      destruct (decide (Z.to_nat n ≤ length q)%nat); [by rewrite Nat.min_l by lia|]. rewrite Nat.min_r by lia. by rewrite !take_ge by lia.
    + rewrite drop_app_le by lia. split; [|rewrite filter_cons_False by done; split; [lia|]; split; [lia|]; split; [rewrite length_app; lia|]; intros H0 _; unfold q; cbn [length]; lia].
      destruct (decide (Z.to_nat n < length q)%nat) as [Hlt|Hge].
      * rewrite Nat.min_l by lia. destruct (drop (Z.to_nat n) q) as [|y r] eqn:E; [apply (f_equal length) in E; rewrite length_drop in E; change (length []) with 0%nat in E; lia|].
        split; [done|]. rewrite filter_cons_False by done. done.
      * rewrite Nat.min_r, !drop_ge by lia. done.
Defined.

(** [Bytes::next] *)
Fixpoint bytes_next {R} `{!Reader R} (fuel : nat) : M R (option (ioresult Z)) :=
  match fuel with
  | O => panic OutOfFuel
  | S fuel =>
      r ← r_read 1;
      match r with
      | IoOk [] => mret None
      | IoOk (b :: _) => mret (Some (IoOk b))
      | IoErr Interrupted => bytes_next fuel
      | IoErr e => mret (Some (IoErr e))
      end
  end.
Lemma bytes_next_spec {R} `{!Reader R, !ReaderOk R} fuel (r : R) l i : rd_rep r l i → (i < fuel)%nat →
  ∃ r' i', bytes_next fuel r = Ok (IoOk <$> head l, r') ∧ rd_rep r' (tail l) i' ∧ (i' ≤ i)%nat.
Proof.
  revert r i. induction fuel as [|fuel IH]; intros r i Hr Hf; [lia|]. cbn [bytes_next].
  destruct (rd_read r l i 1 Hr) as [(k & r' & i' & Hrd & Hr' & Hi & Hk & Hkl & Hk0)|(r' & i' & Hrd & Hr' & Hi)]; [lia|run Hrd..].
  - destruct l as [|x l].
    + rewrite take_nil. rewrite drop_nil in Hr'. by exists r', i'.
    + specialize (Hk0 ltac:(lia) ltac:(done)). assert (k = 1%nat) as -> by lia. by exists r', i'.
  - destruct (IH r' i' Hr') as (r2 & i2 & H2 & Hr2 & Hi2); [lia|]. exists r2, i2. split; [done|]. split; [done|lia].
Qed.

(** ** Examples *)

(** Eight bytes in three pieces, with two interruptions, through a buffer of four bytes: lines *)
Definition in_pieces : list (list Z) := [[0x61; 0x62; 10]; []; [0x63; 0x64; 0x65; 10]; []; [0x66]].
Definition buffered_pieces : BufReader (list (list Z)) := br_with_capacity 4 in_pieces.
Lemma buffered_pieces_rep : br_rep buffered_pieces (concat in_pieces) 2.
Proof. split; [vm_compute; repeat split; discriminate|]. exists (concat in_pieces). done. Qed.

Lemma br_read_spec_witness : ∃ (k : nat) s', br_read 2 buffered_pieces = Ok (IoOk (take k (concat in_pieces)), s') ∧ (0 < k)%nat.
Proof.
  destruct (br_read_spec buffered_pieces (concat in_pieces) 2 2 buffered_pieces_rep) as [(k & s' & i' & H & _ & _ & _ & _ & Hk)|(s' & i' & H & _)].
  - lia.
  - exists k, s'. split; [exact H|]. apply Hk; [lia|discriminate].
  - exfalso. vm_compute in H. discriminate H.
Defined.
Lemma split_pieces_witness : ∃ s', split_all 9 11 10 buffered_pieces = Ok (IoOk [[0x61; 0x62]; [0x63; 0x64; 0x65]; [0x66]], s').
Proof.
  destruct (split_pieces (B := BufReader (list (list Z))) 10 9 11 buffered_pieces (concat in_pieces) 2) as (s' & i' & H & _).
  - split; [exact buffered_pieces_rep|]. apply Nat.ltb_lt. reflexivity.
  - apply Nat.ltb_lt. reflexivity.
  - apply Nat.ltb_lt. reflexivity.
  - reflexivity.
  - exists s'. exact H.
Defined.

(** The first six bytes of two slices, one behind the other *)
Example take_chain : rd_to_end 20 (λ _, 32) [] 0 {| tk_inner := {| ch_first := [1; 2; 3; 4]; ch_second := [5; 6; 7]; done_first := false |}; tk_limit := 6 |} =
  Ok (IoOk [1; 2; 3; 4; 5; 6], {| tk_inner := {| ch_first := []; ch_second := [7]; done_first := true |}; tk_limit := 0 |}).
Proof. vm_compute. reflexivity. Qed.
