(* ===== verification/BufSeek.v ===== *)
(** * Seeking with a buffer

    [Seek for BufReader], [seek_relative] and [stream_position] (core_io/src/io/buffered/bufreader.rs) over a stream: the position a
    program sees is that of a stream without a buffer, wherever the stream itself stands. *)

From S2P Require Import Prelude Io FatIo BufIo BufReader.

#[export] Instance stream_reader {D} `{!Stream D} : Reader D := {| r_read := s_read |}.

(** Seeking from the current position *)
Class ByteSeek (D : Type) `{ByteStream D} := {
  stream_seek_by d bs pos n : stream_rep d bs pos → 0 ≤ pos + n ≤ Z.of_nat (length bs) →
    ∃ d', s_seek (SeekCurrent n) d = Ok (IoOk (pos + n), d') ∧ stream_rep d' bs (pos + n);
}.
#[export] Instance memfile_seek : ByteSeek memfile.
Proof.
  split. intros d bs pos n (<- & <- & H0) Hn. cbn. replace (mf_pos d + n <? 0) with false by lia. eexists. split; [reflexivity|]. cbn. split_and!; done || lia.
Qed.

Section seek.
Context {D : Type} `{!Stream D}.
Abbreviation BR := (BufReader D).

(** [i64::checked_sub] and [u64::checked_add], [checked_sub] *)
Definition i64_checked (z : Z) : option Z := if (- 2 ^ 63 <=? z) && (z <? 2 ^ 63) then Some z else None.
Definition u64_checked (z : Z) : option Z := if (0 <=? z) && (z <? 2 ^ 64) then Some z else None.

Definition br_seek (pos : SeekFrom) : M BR (ioresult Z) :=
  result ←? match pos with
    | SeekCurrent n =>
        s ← get;
        remainder ← lift (usub (br_cap s) (br_pos s));
        let remainder := icast 64 remainder in
        match i64_checked (n - remainder) with
        | Some offset => on_reader (s_seek (SeekCurrent offset))
        | None =>
            on_reader (s_seek (SeekCurrent (- remainder))) ?;
            discard_buffer ;;
            on_reader (s_seek (SeekCurrent n))
        end
    | pos => on_reader (s_seek pos)
    end;
  discard_buffer ;;
  ok result.

(** Within the buffer, it is kept; [-offset] overflows for the least [i64]. *)
Definition seek_relative (offset : Z) : M BR (ioresult unit) :=
  s ← get;
  lift (if offset =? - 2 ^ 63 then Panic Overflow else Ok tt) ;;
  let pos := br_pos s in
  let inside :=
    if offset <? 0 then u64_checked (pos - cast 64 (- offset))
    else match u64_checked (pos + offset) with Some p => if p <=? br_cap s then Some p else None | None => None end in
  match inside with
  | Some p => at_buf p (br_cap s) ;; ok tt
  | None => br_seek (SeekCurrent offset) ?; ok tt
  end.

Definition br_stream_position : M BR (ioresult Z) :=
  s ← get;
  remainder ← lift (usub (br_cap s) (br_pos s));
  pos ←? on_reader (s_seek (SeekCurrent 0));
  p ← lift (unwrap (u64_checked (pos - remainder)));
  ok p.

Context `{!ByteStream D, !ByteSeek D}.

(** The buffer holds the bytes in front of the stream's position; the program is at [lpos]. *)
Definition buffered_at (s : BR) (bs : list Z) (lpos : Z) : Prop :=
  br_wf s ∧ ∃ pos, stream_rep (br_inner s) bs pos ∧ br_cap s ≤ pos ≤ Z.of_nat (length bs) ∧
    take (Z.to_nat (br_cap s)) (br_buf s) = take (Z.to_nat (br_cap s)) (drop (Z.to_nat (pos - br_cap s)) bs) ∧
    lpos = pos - (br_cap s - br_pos s).

Lemma buffered_pos s bs lpos : buffered_at s bs lpos → 0 ≤ lpos ≤ Z.of_nat (length bs).
Proof. intros ([? ?] & pos & _ & ? & _ & ->). lia. Qed.
Lemma buffered_pending s bs lpos : buffered_at s bs lpos → pending s = take (Z.to_nat (br_cap s - br_pos s)) (drop (Z.to_nat lpos) bs).
Proof.
  intros ([Hp Hc] & pos & _ & Hpos & Hb & ->). unfold pending.
  assert (∀ l : list Z, take (Z.to_nat (br_cap s - br_pos s)) (drop (Z.to_nat (br_pos s)) l) =
    drop (Z.to_nat (br_pos s)) (take (Z.to_nat (br_cap s)) l)) as E by (intros l; rewrite skipn_firstn_comm; f_equal; lia).
  rewrite E, Hb, <- E, drop_drop. do 2 f_equal. lia.
Qed.
(** An empty buffer in front of a stream *)
Lemma buffered_empty (d : D) (buf bs : list Z) pos : stream_rep d bs pos → pos ≤ Z.of_nat (length bs) → Z.of_nat (length buf) < 2 ^ 63 →
  buffered_at {| br_inner := d; br_buf := buf; br_pos := 0; br_cap := 0 |} bs pos.
Proof.
  intros Hd Hp Hb. pose proof (stream_pos _ _ _ Hd). split; [unfold br_wf; cbn; lia|]. exists pos. cbn. split; [done|]. split; [lia|]. split; [done|lia].
Qed.

(** A seek of the stream, after which the buffer is empty *)
Lemma seek_tail s bs w p d' : br_wf s → s_seek w (br_inner s) = Ok (IoOk p, d') → stream_rep d' bs p → p ≤ Z.of_nat (length bs) →
  ∃ s', (r ←? on_reader (s_seek w); discard_buffer ;; ok r) s = Ok (IoOk p, s') ∧ buffered_at s' bs p ∧ length (br_buf s') = length (br_buf s).
Proof.
  intros Hw H Hd Hp. eexists. split; [erewrite try_ok by (unfold on_reader; rewrite H; reflexivity); reflexivity|]. split; [|done].
  apply buffered_empty; [done|done|apply Hw].
Qed.
Lemma br_seek_start s bs lpos p : buffered_at s bs lpos → 0 ≤ p ≤ Z.of_nat (length bs) →
  ∃ s', br_seek (SeekStart p) s = Ok (IoOk p, s') ∧ buffered_at s' bs p ∧ length (br_buf s') = length (br_buf s).
Proof.
  intros (Hw & pos & Hs & _) Hp. destruct (stream_seek _ _ _ p Hs Hp) as (d' & H & Hd). by apply (seek_tail s bs (SeekStart p) p d'); [..|lia].
Qed.
Lemma br_seek_by s bs lpos n : buffered_at s bs lpos → 0 ≤ lpos + n ≤ Z.of_nat (length bs) → Z.of_nat (length bs) < 2 ^ 63 →
  ∃ s', br_seek (SeekCurrent n) s = Ok (IoOk (lpos + n), s') ∧ buffered_at s' bs (lpos + n) ∧ length (br_buf s') = length (br_buf s).
Proof.
  intros (Hw & pos & Hs & Hc & Hb & ->) Hn Hi. pose proof Hw as [Hp Hl]. set (rem := br_cap s - br_pos s) in *.
  destruct (stream_seek_by _ _ _ (n - rem) Hs) as (d' & H & Hd); [lia|]. replace (pos + (n - rem)) with (pos - rem + n) in * by lia.
  destruct (seek_tail s bs (SeekCurrent (n - rem)) _ d' Hw H Hd) as (s' & Hs' & Hat); [lia|]. exists s'. split; [|done].
  rewrite <- Hs'. unfold br_seek, try. rewrite M_bind_assoc. run_refl. fold rem. rewrite (usub_in (br_cap s) (br_pos s)) by lia. rewrite M_bind_assoc.
  run_refl. fold rem. rewrite icast_in by lia. unfold i64_checked. replace ((- 2 ^ 63 <=? n - rem) && (n - rem <? 2 ^ 63)) with true by lia. done.
Qed.

(** Inside the buffer *)
Lemma at_buf_spec s bs lpos p : buffered_at s bs lpos → 0 ≤ p ≤ br_cap s →
  ∃ s', at_buf p (br_cap s) s = Ok (tt, s') ∧ buffered_at s' bs (lpos + (p - br_pos s)).
Proof.
  intros (Hw & pos & Hs & Hc & Hb & ->) Hp. eexists. split; [reflexivity|]. destruct Hw. split; [unfold br_wf; cbn; lia|]. exists pos. cbn.
  split; [done|]. split; [done|]. split; [done|lia].
Qed.
Lemma seek_relative_spec s bs lpos n : buffered_at s bs lpos → 0 ≤ lpos + n ≤ Z.of_nat (length bs) → Z.of_nat (length bs) < 2 ^ 63 →
  ∃ s', seek_relative n s = Ok (IoOk tt, s') ∧ buffered_at s' bs (lpos + n).
Proof.
  intros Hs Hn Hm. pose proof (buffered_pos _ _ _ Hs) as Hl. pose proof Hs as ([Hp Hc] & _). unfold seek_relative. run_refl.
  replace (n =? - 2 ^ 63) with false by lia. run_refl. cbn beta zeta.
  match goal with |- context [match ?o with Some p => at_buf p _ ;; _ | None => _ end] => destruct o as [p|] eqn:Ho end.
  - assert (p = br_pos s + n ∧ 0 ≤ p ≤ br_cap s) as [-> Hp'].
    { revert Ho. unfold u64_checked. destruct (Z.ltb_spec n 0).
      - rewrite cast_in by lia. case_match; [|done]. intros [= <-]. lia.
      - destruct ((0 <=? br_pos s + n) && _) eqn:Hq; [|done]. destruct (Z.leb_spec (br_pos s + n) (br_cap s)); [|done]. intros [= <-]. lia. }
    destruct (at_buf_spec s bs lpos (br_pos s + n) Hs Hp') as (s' & H' & Hs'). run H'. exists s'. split; [done|].
    by replace (lpos + n) with (lpos + (br_pos s + n - br_pos s)) by lia.
  - destruct (br_seek_by s bs lpos n Hs Hn Hm) as (s' & H' & Hs' & _). rewrite (try_ok _ _ _ _ _ H'). by exists s'.
Qed.
Lemma br_position_spec s bs lpos : buffered_at s bs lpos → Z.of_nat (length bs) < 2 ^ 63 →
  ∃ s', br_stream_position s = Ok (IoOk lpos, s') ∧ buffered_at s' bs lpos ∧ pending s' = pending s.
Proof.
  intros Hs Hm. pose proof (buffered_pos _ _ _ Hs) as Hl. destruct Hs as (Hw & pos & Hs & Hc & Hb & ->). pose proof Hw as [Hp Hc'].
  destruct (stream_tell _ _ _ Hs) as (d' & H & Hd). eexists. split.
  - unfold br_stream_position. run_refl. rewrite usub_in by lia. run_refl. erewrite try_ok by (unfold on_reader; rewrite H; reflexivity).
    unfold u64_checked. replace ((0 <=? pos - (br_cap s - br_pos s)) && (pos - (br_cap s - br_pos s) <? 2 ^ 64)) with true by lia. run_refl. reflexivity.
  - split; [|done]. split; [done|]. exists pos. done.
Qed.

(** Reading *)
Lemma stream_filled s bs lpos n : buffered_at s bs lpos → br_pos s = br_cap s → 0 ≤ n →
  ∃ (k : nat) d', s_read n (br_inner s) = Ok (IoOk (take k (drop (Z.to_nat lpos) bs)), d') ∧ stream_rep d' bs (lpos + Z.of_nat k) ∧
    length (take k (drop (Z.to_nat lpos) bs)) = k ∧ Z.of_nat k ≤ n ∧ lpos + Z.of_nat k ≤ Z.of_nat (length bs) ∧
    (0 < n → lpos < Z.of_nat (length bs) → (0 < k)%nat).
Proof.
  intros (Hw & pos & Hs & Hc & Hb & ->) He Hn. replace (pos - (br_cap s - br_pos s)) with pos by lia. pose proof (stream_pos _ _ _ Hs) as Hp0.
  destruct (stream_read _ _ _ n Hs Hn) as (k & d' & H & Hd & Hk & Hkl & Hk0). exists k, d'. split; [done|]. split; [done|].
  split; [rewrite length_take, length_drop; lia|]. split; [done|]. split; [lia|done].
Qed.
Lemma br_fill_at s bs lpos : buffered_at s bs lpos → (0 < length (br_buf s))%nat →
  ∃ s', br_fill_buf s = Ok (IoOk (pending s'), s') ∧ buffered_at s' bs lpos ∧ (lpos < Z.of_nat (length bs) → pending s' ≠ []).
Proof.
  intros Hs Hlen. pose proof Hs as (Hw & _). pose proof (length_pending s Hw) as Hlp. unfold br_fill_buf. run_refl. destruct (Z.leb_spec (br_cap s) (br_pos s)) as [Hle|Hlt].
  - pose proof Hw as [Hp Hc]. replace (br_pos s =? br_cap s) with true by lia. pose proof (buffered_pos _ _ _ Hs).
    destruct (stream_filled s bs lpos (Z.of_nat (length (br_buf s))) Hs) as (k & d' & H1 & Hd & Hl & Hk & Hkl & Hk0); [lia..|].
    set (data := take k (drop (Z.to_nat lpos) bs)) in *.
    set (s' := {| br_inner := d'; br_buf := data ++ drop k (br_buf s); br_pos := 0; br_cap := Z.of_nat k |}).
    assert (br_wf s') as Hw' by (unfold br_wf; cbn; rewrite length_app, Hl, length_drop; lia).
    assert (buffered_at s' bs lpos) as Hs'.
    { split; [done|]. exists (lpos + Z.of_nat k). cbn. split; [done|]. split; [lia|]. split; [|lia].
      rewrite Nat2Z.id, take_app_length' by done. unfold data. do 2 f_equal. lia. }
    exists s'. split.
    + step_by ltac:(run_refl; erewrite try_ok by (unfold on_reader; cbn [r_read stream_reader]; rewrite H1; reflexivity); rewrite Hl; cbn; reflexivity).
      change ((b ← br_buffer; ok b) s' = Ok (IoOk (pending s'), s')). by run (br_buffer_eq s' Hw').
    + split; [done|]. intros Hlt E. specialize (Hk0 ltac:(lia) Hlt). pose proof (length_pending s' Hw') as Hl'. rewrite E in Hl'. cbn in Hl'. lia.
  - exists s. run_refl. cbn beta iota. run (br_buffer_eq s Hw). split; [done|]. split; [done|]. intros _ E. rewrite E in Hlp. cbn in Hlp. lia.
Qed.
Lemma br_read_at s bs lpos n : buffered_at s bs lpos → 0 ≤ n →
  ∃ (k : nat) s', br_read n s = Ok (IoOk (take k (drop (Z.to_nat lpos) bs)), s') ∧ buffered_at s' bs (lpos + Z.of_nat k) ∧
    Z.of_nat k ≤ n ∧ (0 < n → lpos < Z.of_nat (length bs) → (0 < k)%nat).
Proof.
  intros Hs Hn. pose proof Hs as (Hw & _). pose proof Hw as [Hp Hc]. unfold br_read. run_refl.
  destruct ((br_pos s =? br_cap s) && (Z.of_nat (length (br_buf s)) <=? n)) eqn:Hby.
  - destruct (stream_filled s bs lpos n Hs) as (k & d' & H1 & Hd & Hl & Hk & Hkl & Hk0); [lia..|]. exists k. eexists. split.
    + run_refl. unfold on_reader. cbn [br_inner br_buf br_pos br_cap r_read stream_reader]. rewrite H1. reflexivity.
    + split; [apply buffered_empty; [done|lia|lia]|]. done.
  - destruct (decide (0 < length (br_buf s))%nat) as [Hlen|Hlen]; [|lia].
    destruct (br_fill_at s bs lpos Hs Hlen) as (s1 & Hf & Hs1 & Hne). rewrite (try_ok _ _ _ _ _ Hf). pose proof Hs1 as (Hw1 & _).
    set (k := Nat.min (Z.to_nat n) (length (pending s1))). pose proof (length_pending s1 Hw1) as Hlp. pose proof (buffered_pending _ _ _ Hs1) as Hpe.
    assert (take (Z.to_nat n) (pending s1) = take k (drop (Z.to_nat lpos) bs)) as Et.
    { rewrite Hpe, take_take. f_equal. unfold k. lia. }
    rewrite Et. assert (length (take k (drop (Z.to_nat lpos) bs)) = k) as Hk by (rewrite <- Et, length_take; lia). rewrite Hk.
    unfold br_consume. rewrite M_bind_assoc. run_refl. destruct Hw1 as [Hp1 Hc1]. rewrite uadd_in by lia. rewrite M_bind_assoc. run_refl. rewrite Z.min_l by lia.
    destruct (at_buf_spec s1 bs lpos (br_pos s1 + Z.of_nat k) Hs1) as (s2 & H2 & Hs2); [lia|]. run H2. exists k, s2. split; [done|].
    replace (lpos + Z.of_nat k) with (lpos + (br_pos s1 + Z.of_nat k - br_pos s1)) by lia. split; [done|]. split; [lia|].
    intros H0 Hlt. specialize (Hne Hlt). assert (length (pending s1) ≠ 0%nat) by (intros ?%length_zero_iff_nil; done). lia.
Qed.

(** C33: A buffered reader over any stream of bytes stands where the program put it: a read returns what is there, [seek] from the start or the current
    position and [seek_relative], which may stay in the buffer, go where they are told, and [stream_position] tells it. *)
Theorem buffered_stream s bs lpos : buffered_at s bs lpos → Z.of_nat (length bs) < 2 ^ 63 →
  (∀ p, 0 ≤ p ≤ Z.of_nat (length bs) → ∃ s', br_seek (SeekStart p) s = Ok (IoOk p, s') ∧ buffered_at s' bs p) ∧
  (∀ n, 0 ≤ lpos + n ≤ Z.of_nat (length bs) → ∃ s', br_seek (SeekCurrent n) s = Ok (IoOk (lpos + n), s') ∧ buffered_at s' bs (lpos + n)) ∧
  (∀ n, 0 ≤ lpos + n ≤ Z.of_nat (length bs) → ∃ s', seek_relative n s = Ok (IoOk tt, s') ∧ buffered_at s' bs (lpos + n)) ∧
  (∃ s', br_stream_position s = Ok (IoOk lpos, s') ∧ buffered_at s' bs lpos ∧ pending s' = pending s) ∧
  (∀ n, 0 ≤ n → ∃ (k : nat) s', br_read n s = Ok (IoOk (take k (drop (Z.to_nat lpos) bs)), s') ∧ buffered_at s' bs (lpos + Z.of_nat k) ∧
     Z.of_nat k ≤ n ∧ (0 < n → lpos < Z.of_nat (length bs) → (0 < k)%nat)).
Proof.
  intros Hs Hm. split; [intros p Hp; destruct (br_seek_start s bs lpos p Hs Hp) as (s' & ? & ? & _); by exists s'|].
  split; [intros n Hn; destruct (br_seek_by s bs lpos n Hs Hn Hm) as (s' & ? & ? & _); by exists s'|].
  split; [intros n Hn; by apply seek_relative_spec|]. split; [by apply br_position_spec|]. intros n Hn. by apply br_read_at.
Qed.
End seek.

(** Ten bytes behind a buffer of four *)
Definition ten : memfile := {| mf_bytes := seqZ 0 10; mf_pos := 0 |}.
Lemma buffered_stream_witness : ∃ s', seek_relative 7 (br_with_capacity 4 ten) = Ok (IoOk tt, s') ∧ buffered_at s' (seqZ 0 10) 7.
Proof.
  refine (proj1 (proj2 (proj2 (buffered_stream (br_with_capacity 4 ten) (seqZ 0 10) 0 _ _))) 7 _).
  - apply buffered_empty; [|vm_compute; discriminate|reflexivity]. split; [reflexivity|]. split; [reflexivity|lia].
  - reflexivity.
  - vm_compute. split; discriminate.
Defined.
