(* ===== verification/BufWrite.v ===== *)
(** * Buffered writing

    [Write] of core_io with its default methods (core_io/src/io/mod.rs), [BufWriter] (buffered/bufwriter.rs), slices and vectors
    as writers (impls.rs) and [copy] (copy.rs).  A writer may take less than it is given, be interrupted or fail; what a
    writer promises is which bytes it has taken, and [BufWriter] promises the same. *)

From S2P Require Import Prelude Io FatIo BufIo BufReader.

(** ** What a writer promises *)

Class Writer (W : Type) := {
  w_write : list Z → M W (ioresult Z);
  w_write_all : list Z → M W (ioresult unit);
  w_write_vectored : list (list Z) → M W (ioresult Z);
  w_is_vectored : W → bool;
  w_flush : M W (ioresult unit);
}.

(** [rep w out i]: [w] has taken the bytes [out], and is interrupted at most [i] times more.  A call that is given [l] takes a prefix
    and says how long, or fails and takes nothing. *)
Definition takes {W} (rep : W → list Z → nat → Prop) (m : M W (ioresult Z)) (l : list Z) : Prop := ∀ w out i, rep w out i →
  ∃ r w' i', m w = Ok (r, w') ∧ (i' ≤ i)%nat ∧
    match r with
    | IoOk n => ∃ k : nat, n = Z.of_nat k ∧ (k ≤ length l)%nat ∧ rep w' (out ++ take k l) i'
    | IoErr e => rep w' out i' ∧ (e = Interrupted → (i' < i)%nat)
    end.
(** A call that takes everything, or fails somewhere *)
Definition takes_all {W} (rep : W → list Z → nat → Prop) (m : M W (ioresult unit)) (l : list Z) : Prop := ∀ w out i, rep w out i →
  ∃ r w' i', m w = Ok (r, w') ∧ (i' ≤ i)%nat ∧
    match r with
    | IoOk _ => rep w' (out ++ l) i'
    | IoErr e => ∃ k : nat, (k ≤ length l)%nat ∧ rep w' (out ++ take k l) i'
    end.
(** A slice is at most [isize::MAX] bytes. *)
Definition sized (l : list Z) : Prop := Z.of_nat (length l) < 2 ^ 63.

Class WriterOk (W : Type) `{!Writer W} := {
  wr_rep : W → list Z → nat → Prop;
  wr_write l : sized l → takes wr_rep (w_write l) l;
  wr_write_all l : sized l → takes_all wr_rep (w_write_all l) l;
  wr_vectored bufs : sized (concat bufs) → takes wr_rep (w_write_vectored bufs) (concat bufs);
  wr_flush : takes_all wr_rep w_flush [];
}.

Section defaults.
Context {W : Type} (write : list Z → M W (ioresult Z)).

(** [Write::write_all]; [fuel] is the number of interruptions it lives through. *)
Fixpoint all_loop (n : nat) (buf : list Z) : M W (ioresult unit) :=
  match buf with
  | [] => ok tt
  | _ =>
      match n with
      | O => panic OutOfFuel
      | S n =>
          r ← write buf;
          match r with
          | IoOk 0 => err WriteZero
          | IoOk k => lift (if Z.of_nat (length buf) <? k then Panic OutOfBounds else Ok tt) ;; all_loop n (drop (Z.to_nat k) buf)
          | IoErr Interrupted => all_loop n buf
          | IoErr e => err e
          end
      end
  end.
Definition default_write_all (fuel : nat) (buf : list Z) : M W (ioresult unit) := all_loop (length buf + fuel) buf.

(** [IoSlice::advance]: past the first [n] bytes *)
Fixpoint advance (bufs : list (list Z)) (n accumulated_len : Z) : exec (list (list Z)) :=
  match bufs with
  | [] => Ok []
  | b :: rest =>
      match uadd accumulated_len (Z.of_nat (length b)) with
      | Panic e => Panic e
      | Ok sum => if n <? sum then Ok (drop (Z.to_nat (n - accumulated_len)) b :: rest) else advance rest n sum
      end
  end.
(** [Write::write_all_vectored] *)
Fixpoint vectored_loop (write_vectored : list (list Z) → M W (ioresult Z)) (n : nat) (bufs : list (list Z)) : M W (ioresult unit) :=
  match bufs with
  | [] => ok tt
  | _ =>
      match n with
      | O => panic OutOfFuel
      | S n =>
          r ← write_vectored bufs;
          match r with
          | IoOk 0 => err WriteZero
          | IoOk k => bufs ← lift (advance bufs k 0); vectored_loop write_vectored n bufs
          | IoErr Interrupted => vectored_loop write_vectored n bufs
          | IoErr e => err e
          end
      end
  end.
Definition write_all_vectored (write_vectored : list (list Z) → M W (ioresult Z)) (fuel : nat) (bufs : list (list Z)) : M W (ioresult unit) :=
  bufs ← lift (advance bufs 0 0);
  vectored_loop write_vectored (length (concat bufs) + fuel) bufs.
(** [bufs.iter().find(|b| !b.is_empty())] *)
Definition non_empty (b : list Z) : bool := negb (length b =? 0)%nat.
Definition default_write_vectored (bufs : list (list Z)) : M W (ioresult Z) := write (default [] (List.find non_empty bufs)).
End defaults.

Section default_laws.
Context {W : Type} (rep : W → list Z → nat → Prop) (write : list Z → M W (ioresult Z)) (Hwrite : ∀ l, sized l → takes rep (write l) l).

Lemma all_loop_spec n : ∀ l w out i, sized l → rep w out i → (length l + i ≤ n)%nat →
  ∃ r w' i', all_loop write n l w = Ok (r, w') ∧ (i' ≤ i)%nat ∧
    match r with IoOk _ => rep w' (out ++ l) i' | IoErr _ => ∃ k : nat, (k ≤ length l)%nat ∧ rep w' (out ++ take k l) i' end.
Proof.
  induction n as [|n IH]; intros l w out i Hl Hw Hn.
  { destruct l; [|cbn in Hn; lia]. exists (IoOk tt), w, i. rewrite app_nil_r. done. }
  destruct l as [|x l0]; [exists (IoOk tt), w, i; rewrite app_nil_r; done|]. set (l := x :: l0) in *. cbn [all_loop]. unfold l at 1.
  destruct (Hwrite l Hl w out i Hw) as (r & w1 & i1 & H1 & Hi1 & Hr). run H1. destruct r as [k|e].
  - destruct Hr as (k' & -> & Hk & Hw1). destruct k' as [|k']; [exists (IoErr WriteZero), w1, i1; split; [done|]; split; [done|]; by exists 0%nat|].
    assert ((Z.of_nat (length l) <? Z.of_nat (S k')) = false) as Hlt by (apply Z.ltb_ge; lia). cbn [Z.of_nat] in Hlt |- *. rewrite Hlt.
    cbn beta iota. change (Z.pos (Pos.of_succ_nat k')) with (Z.of_nat (S k')). rewrite Nat2Z.id.
    destruct (IH (drop (S k') l) w1 (out ++ take (S k') l) i1) as (r2 & w2 & i2 & H2 & Hi2 & Hr2); [unfold sized in *; rewrite length_drop; lia|done|rewrite length_drop; lia|].
    exists r2, w2, i2. split; [exact H2|]. split; [lia|]. destruct r2 as [[]|e].
    + by rewrite <- app_assoc, take_drop in Hr2.
    + destruct Hr2 as (k2 & Hk2 & Hr2). exists (S k' + k2)%nat. rewrite length_drop in Hk2. split; [lia|]. by rewrite <- app_assoc, take_take_drop in Hr2.
  - destruct Hr as [Hw1 He]. destruct (decide (e = Interrupted)) as [->|Hne].
    + specialize (He eq_refl). destruct (IH l w1 out i1 Hl Hw1) as (r2 & w2 & i2 & H2 & Hi2 & Hr2); [lia|]. exists r2, w2, i2. split; [done|]. split; [lia|done].
    + exists (IoErr e), w1, i1. split; [by destruct e|]. split; [done|]. exists 0%nat. rewrite app_nil_r. split; [lia|done].
Qed.
Lemma default_write_all_spec fuel l : (∀ w out i, rep w out i → (i ≤ fuel)%nat) → sized l → takes_all rep (default_write_all write fuel l) l.
Proof. intros Hf Hl w out i Hw. pose proof (Hf _ _ _ Hw). apply all_loop_spec; [done..|lia]. Qed.

(** The first slice that is not empty is a prefix of them all. *)
Lemma find_concat bufs : default [] (List.find non_empty bufs) `prefix_of` concat bufs.
Proof.
  induction bufs as [|[|x b] bufs IH]; [done|exact IH|]. cbn. eexists. reflexivity.
Qed.
Lemma takes_prefix m l l' : l `prefix_of` l' → takes rep m l → takes rep m l'.
Proof.
  intros [l2 ->] H w out i Hw. destruct (H w out i Hw) as (r & w' & i' & H1 & Hi & Hr). exists r, w', i'. split; [done|]. split; [done|].
  destruct r; [|done]. destruct Hr as (k & -> & Hk & Hr). exists k. rewrite length_app, take_app_le by lia. split; [done|]. split; [lia|done].
Qed.
Lemma sized_prefix l l' : l `prefix_of` l' → sized l' → sized l.
Proof. unfold sized. intros [l2 ->]. rewrite length_app. lia. Qed.
Lemma default_vectored_spec bufs : sized (concat bufs) → takes rep (default_write_vectored write bufs) (concat bufs).
Proof. intros Hs. pose proof (find_concat bufs) as Hp. apply (takes_prefix _ _ _ Hp), Hwrite. by apply (sized_prefix _ _ Hp). Qed.

(** After [advance] the slices are empty or begin with a byte. *)
Definition advanced (bufs : list (list Z)) : Prop := match bufs with [] => True | b :: _ => b ≠ [] end.
Lemma advance_spec bufs : ∀ n acc, 0 ≤ acc ≤ n → n ≤ acc + Z.of_nat (length (concat bufs)) < 2 ^ 64 →
  ∃ bufs', advance bufs n acc = Ok bufs' ∧ concat bufs' = drop (Z.to_nat (n - acc)) (concat bufs) ∧ advanced bufs'.
Proof.
  induction bufs as [|b bufs IH]; intros n acc Ha Hn; cbn [advance concat] in *; [exists []; by rewrite drop_nil|]. rewrite length_app in Hn. rewrite uadd_in by lia.
  destruct (Z.ltb_spec n (acc + Z.of_nat (length b))).
  - eexists. split; [reflexivity|]. cbn. split; [by rewrite drop_app_le by lia|]. intros E%(f_equal length). rewrite length_drop in E. cbn in E. lia.
  - destruct (IH n (acc + Z.of_nat (length b))) as (bufs' & H1 & H2 & H3); [lia..|]. exists bufs'. split; [done|]. split; [|done].
    rewrite H2, drop_app_ge by lia. f_equal. lia.
Qed.
Lemma vectored_loop_spec write_vectored n : (∀ bufs, sized (concat bufs) → takes rep (write_vectored bufs) (concat bufs)) →
  ∀ bufs w out i, advanced bufs → sized (concat bufs) → rep w out i → (length (concat bufs) + i ≤ n)%nat →
  ∃ r w' i', vectored_loop write_vectored n bufs w = Ok (r, w') ∧ (i' ≤ i)%nat ∧
    match r with IoOk _ => rep w' (out ++ concat bufs) i' | IoErr _ => ∃ k : nat, (k ≤ length (concat bufs))%nat ∧ rep w' (out ++ take k (concat bufs)) i' end.
Proof.
  intros Hv. induction n as [|n IH]; intros bufs w out i Ha Hl Hw Hn; (destruct bufs as [|b bufs]; [exists (IoOk tt), w, i; by rewrite app_nil_r|]); cbn in Ha.
  { destruct b; [done|]. cbn in Hn. lia. }
  cbn [vectored_loop]. set (l := concat (b :: bufs)) in *. destruct (Hv (b :: bufs) Hl w out i Hw) as (r & w1 & i1 & H1 & Hi1 & Hr). run H1. fold l in Hr. destruct r as [k|e].
  - destruct Hr as (k' & -> & Hk & Hw1). destruct k' as [|k']; [exists (IoErr WriteZero), w1, i1; split; [done|]; split; [done|]; by exists 0%nat|].
    destruct (advance_spec (b :: bufs) (Z.of_nat (S k')) 0) as (bufs' & H2 & Hc & Ha'); [lia|fold l; unfold sized in *; lia|]. fold l in Hc. rewrite Z.sub_0_r, Nat2Z.id in Hc.
    assert (∃ p, Z.of_nat (S k') = Z.pos p) as [p Hp] by (by eexists). rewrite Hp in *. cbn beta iota. rewrite H2. run_refl.
    assert (length (concat bufs') = length l - S k')%nat as Hcl by (rewrite Hc; apply length_drop).
    destruct (IH bufs' w1 (out ++ take (S k') l) i1 Ha') as (r2 & w2 & i2 & H3 & Hi2 & Hr2); [unfold sized in *; lia|done|lia|].
    exists r2, w2, i2. split; [done|]. split; [lia|]. rewrite Hc in Hr2. destruct r2 as [[]|e].
    + by rewrite <- app_assoc, take_drop in Hr2.
    + destruct Hr2 as (k2 & Hk2 & Hr2). exists (S k' + k2)%nat. rewrite length_drop in Hk2. split; [lia|]. by rewrite <- app_assoc, take_take_drop in Hr2.
  - destruct Hr as [Hw1 He]. destruct (decide (e = Interrupted)) as [->|Hne].
    + specialize (He eq_refl). destruct (IH (b :: bufs) w1 out i1) as (r2 & w2 & i2 & H2 & Hi2 & Hr2); [done..|fold l; lia|]. exists r2, w2, i2. split; [done|]. split; [lia|done].
    + exists (IoErr e), w1, i1. split; [by destruct e|]. split; [done|]. exists 0%nat. rewrite app_nil_r. split; [lia|done].
Qed.
Lemma write_all_vectored_spec write_vectored fuel bufs : (∀ bufs, sized (concat bufs) → takes rep (write_vectored bufs) (concat bufs)) →
  (∀ w out i, rep w out i → (i ≤ fuel)%nat) → sized (concat bufs) → takes_all rep (write_all_vectored write_vectored fuel bufs) (concat bufs).
Proof.
  intros Hv Hf Hl w out i Hw. pose proof (Hf _ _ _ Hw). unfold sized in Hl. destruct (advance_spec bufs 0 0) as (bufs' & H1 & H2 & H3); [lia..|]. change (drop _ (concat bufs)) with (concat bufs) in H2. unfold write_all_vectored.
  rewrite H1. run_refl. rewrite <- H2. apply vectored_loop_spec; [done|done|unfold sized; congruence|done|lia].
Qed.
End default_laws.

(** ** [BufWriter] *)

(** [inner] is taken out by [into_inner]; the buffer is a vector with its capacity. *)
Record BufWriter (W : Type) := { bw_inner : option W; bw_buf : list Z; bw_cap : Z; panicked : bool }.
Arguments bw_inner {_}. Arguments bw_buf {_}. Arguments bw_cap {_}. Arguments panicked {_}.

Section bufwriter.
Context {W : Type} `{!Writer W} (fuel : nat).
Abbreviation BW := (BufWriter W).

Definition bw_with_capacity (capacity : Z) (inner : W) : BW := {| bw_inner := Some inner; bw_buf := []; bw_cap := capacity; panicked := false |}.
Definition bw_new (inner : W) : BW := bw_with_capacity DEFAULT_BUF_SIZE inner.

Definition set_panicked (b : bool) : M BW unit := modify (λ s, {| bw_inner := bw_inner s; bw_buf := bw_buf s; bw_cap := bw_cap s; panicked := b |}).
Definition set_buf (f : list Z → list Z) : M BW unit := modify (λ s, {| bw_inner := bw_inner s; bw_buf := f (bw_buf s); bw_cap := bw_cap s; panicked := panicked s |}).
(** [self.inner.as_mut().unwrap()] *)
Definition on_writer {A} (m : M W A) : M BW A := λ s,
  match bw_inner s with
  | None => Panic UnwrapNone
  | Some w =>
      match m w with
      | Ok (r, w') => Ok (r, {| bw_inner := Some w'; bw_buf := bw_buf s; bw_cap := bw_cap s; panicked := panicked s |})
      | Panic e => Panic e
      end
  end.
Definition guarded {A} (m : M W A) : M BW A := set_panicked true ;; r ← on_writer m; set_panicked false ;; mret r.

(** The loop of [flush_buf]: the guard has [written] bytes of the buffer behind it. *)
Fixpoint flush_loop (n : nat) (written : Z) : M BW (ioresult unit * Z) :=
  s ← get;
  if Z.of_nat (length (bw_buf s)) <=? written then mret (IoOk tt, written)
  else
    match n with
    | O => panic OutOfFuel
    | S n =>
        r ← guarded (w_write (drop (Z.to_nat written) (bw_buf s)));
        match r with
        | IoOk 0 => mret (IoErr WriteZero, written)
        | IoOk k => written ← lift (uadd written k); flush_loop n written
        | IoErr Interrupted => flush_loop n written
        | IoErr e => mret (IoErr e, written)
        end
    end.
(** [Vec::drain], when the guard is dropped *)
Definition drop_guard (written : Z) : M BW unit :=
  if 0 <? written then
    s ← get;
    lift (if Z.of_nat (length (bw_buf s)) <? written then Panic OutOfBounds else Ok tt) ;;
    set_buf (drop (Z.to_nat written))
  else mret tt.
Definition flush_buf : M BW (ioresult unit) :=
  s ← get;
  lift (unwrap (bw_inner s)) ;;
  p ← flush_loop (length (bw_buf s) + fuel) 0;
  drop_guard p.2 ;;
  mret p.1.

Definition write_to_buf (buf : list Z) : M BW Z :=
  s ← get;
  available ← lift (usub (bw_cap s) (Z.of_nat (length (bw_buf s))));
  let amt_to_buffer := Z.min available (Z.of_nat (length buf)) in
  set_buf (λ b, b ++ take (Z.to_nat amt_to_buffer) buf) ;;
  mret amt_to_buffer.

(** What [write], [write_all] and both branches of [write_vectored] share: [len] bytes that do not fit flush the buffer; [direct] is
    called when they never will. *)
Definition buffered_write {A} (len : Z) (direct : M BW (ioresult A)) (buffer : M BW (ioresult A)) : M BW (ioresult A) :=
  s ← get;
  sum ← lift (uadd (Z.of_nat (length (bw_buf s))) len);
  (if bw_cap s <? sum then flush_buf else ok tt) ?;
  s ← get;
  if bw_cap s <=? len then direct else buffer.
Definition bw_write (buf : list Z) : M BW (ioresult Z) :=
  buffered_write (Z.of_nat (length buf)) (guarded (w_write buf)) (set_buf (.++ buf) ;; ok (Z.of_nat (length buf))).
Definition bw_write_all (buf : list Z) : M BW (ioresult unit) :=
  buffered_write (Z.of_nat (length buf)) (guarded (w_write_all buf)) (set_buf (.++ buf) ;; ok tt).

(** Once the first slice is in the buffer, the others go there while they fit. *)
Fixpoint vectored_rest (bufs : list (list Z)) (total_written : Z) : M BW (ioresult Z) :=
  match bufs with
  | [] => ok total_written
  | buf :: bufs =>
      s ← get;
      sum ← lift (uadd (Z.of_nat (length (bw_buf s))) (Z.of_nat (length buf)));
      if bw_cap s <? sum then ok total_written
      else
        set_buf (.++ buf) ;;
        total ← lift (uadd total_written (Z.of_nat (length buf)));
        vectored_rest bufs total
  end.
Fixpoint vectored_first (bufs : list (list Z)) : M BW (ioresult Z) :=
  match bufs with
  | [] => ok 0
  | buf :: bufs =>
      if non_empty buf then
        buffered_write (Z.of_nat (length buf)) (guarded (w_write buf))
          (set_buf (.++ buf) ;; vectored_rest bufs (Z.of_nat (length buf)))
      else vectored_first bufs
  end.
Definition total_len (bufs : list (list Z)) : Z := Z.of_nat (length (concat bufs)).
Definition bw_write_vectored (bufs : list (list Z)) : M BW (ioresult Z) :=
  s ← get;
  w ← lift (unwrap (bw_inner s));
  if w_is_vectored w then
    total_len ← lift (checked (total_len bufs));
    buffered_write total_len (guarded (w_write_vectored bufs)) (set_buf (.++ concat bufs) ;; ok total_len)
  else vectored_first bufs.
Definition bw_flush : M BW (ioresult unit) := flush_buf ?; on_writer w_flush.

(** [Seek for BufWriter], over the [seek] of the writer *)
Definition bw_seek (seek : SeekFrom → M W (ioresult Z)) (pos : SeekFrom) : M BW (ioresult Z) := flush_buf ?; on_writer (seek pos).

(** [into_inner], [into_raw_parts] and [Drop] *)
Definition bw_into_inner : M BW (ioresult W) :=
  flush_buf ?;
  s ← get;
  w ← lift (unwrap (bw_inner s));
  put {| bw_inner := None; bw_buf := bw_buf s; bw_cap := bw_cap s; panicked := panicked s |} ;;
  ok w.
Definition bw_into_raw_parts (s : BW) : exec (W * (list Z + list Z)) :=
  match bw_inner s with Some w => Ok (w, if panicked s then inr (bw_buf s) else inl (bw_buf s)) | None => Panic UnwrapNone end.
Definition bw_drop : M BW unit :=
  s ← get;
  if (match bw_inner s with Some _ => true | None => false end) && negb (panicked s) then _ ← flush_buf; mret tt else mret tt.

Definition bw_writer : Writer BW := {| w_write := bw_write; w_write_all := bw_write_all; w_write_vectored := bw_write_vectored;
  w_is_vectored _ := true; w_flush := bw_flush |}.
End bufwriter.

Section bufwriter_laws.
Context {W : Type} `{!Writer W, !WriterOk W} (fuel : nat) (cap : Z).
Abbreviation BW := (BufWriter W).

(** The writer has taken [out]; [buf] waits in the buffer. *)
Definition bw_at (s : BW) (out buf : list Z) (i : nat) : Prop := ∃ w, bw_inner s = Some w ∧ wr_rep w out i ∧ bw_buf s = buf ∧
  bw_cap s = cap ∧ Z.of_nat (length buf) ≤ cap < 2 ^ 63 ∧ panicked s = false ∧ (i ≤ fuel)%nat.

Lemma bw_new_at w out i : wr_rep w out i → 0 ≤ cap < 2 ^ 63 → (i ≤ fuel)%nat → bw_at (bw_with_capacity cap w) out [] i.
Proof. intros. exists w. done. Qed.
Lemma guarded_at {A} (m : M W A) s out buf i : bw_at s out buf i → ∃ w, wr_rep w out i ∧ ∀ r w' out' i',
  m w = Ok (r, w') → wr_rep w' out' i' → (i' ≤ i)%nat → ∃ s', guarded m s = Ok (r, s') ∧ bw_at s' out' buf i'.
Proof.
  intros (w & Hw & Hr & Hb & Hc & Hl & Hp & Hi). exists w. split; [done|]. intros r w' out' i' H Hr' Hi'. eexists. split.
  - unfold guarded. run_refl. step_by ltac:(unfold on_writer; cbn [bw_inner]; rewrite Hw, H; reflexivity). reflexivity.
  - exists w'. cbn. split_and!; done || lia.
Qed.
Lemma on_writer_at {A} (m : M W A) s out buf i : bw_at s out buf i → ∃ w, wr_rep w out i ∧ ∀ r w' out' i',
  m w = Ok (r, w') → wr_rep w' out' i' → (i' ≤ i)%nat → ∃ s', on_writer m s = Ok (r, s') ∧ bw_at s' out' buf i'.
Proof.
  intros (w & Hw & Hr & Hb & Hc & Hl & Hp & Hi). exists w. split; [done|]. intros r w' out' i' H Hr' Hi'. unfold on_writer. rewrite Hw, H.
  eexists. split; [reflexivity|]. exists w'. cbn. split_and!; done || lia.
Qed.
Lemma set_buf_at f s out buf i : bw_at s out buf i → Z.of_nat (length (f buf)) ≤ cap → ∃ s', set_buf f s = Ok (tt, s') ∧ bw_at s' out (f buf) i.
Proof. intros (w & Hw & Hr & Hb & Hc & Hl & Hp & Hi) Hf. eexists. split; [reflexivity|]. exists w. cbn. rewrite Hb. split_and!; done || lia. Qed.

Lemma flush_loop_spec n : ∀ s out buf written i, bw_at s (out ++ take written buf) buf i → (written ≤ length buf)%nat → (length buf - written + i ≤ n)%nat →
  ∃ r (k : nat) s' i', flush_loop n (Z.of_nat written) s = Ok ((r, Z.of_nat k), s') ∧ bw_at s' (out ++ take k buf) buf i' ∧ (i' ≤ i)%nat ∧
    (k ≤ length buf)%nat ∧ r ≠ IoErr Interrupted ∧ (r = IoOk tt → k = length buf).
Proof.
  induction n as [|n IH]; intros s out buf written i Hs Hk Hn; pose proof Hs as (w0 & _ & _ & Hb & _ & Hl & _); cbn [flush_loop]; run_refl; rewrite Hb;
    (destruct (Z.leb_spec (Z.of_nat (length buf)) (Z.of_nat written)); [exists (IoOk tt), written, s, i; split_and!; done || lia|]); [lia|].
  rewrite Nat2Z.id. set (l := drop written buf). assert (length l = length buf - written)%nat as Hll by apply length_drop.
  destruct (guarded_at (w_write l) s _ _ i Hs) as (w & Hw & Hg).
  destruct (wr_write l ltac:(unfold sized; lia) w _ i Hw) as (r & w1 & i1 & H1 & Hi1 & Hr). destruct r as [k|e].
  - destruct Hr as (k' & -> & Hk' & Hw1). destruct (Hg _ _ _ _ H1 Hw1 Hi1) as (s1 & H2 & Hs1). run H2.
    unfold l in Hs1. rewrite <- app_assoc, take_take_drop in Hs1. destruct k' as [|k'].
    + exists (IoErr WriteZero), written, s1, i1. rewrite Nat.add_0_r in Hs1. done.
    + assert (∃ p, Z.of_nat (S k') = Z.pos p) as [p Hp] by (by eexists). rewrite Hp. cbn beta iota. rewrite <- Hp, uadd_in by lia. run_refl.
      rewrite <- Nat2Z.inj_add. destruct (IH s1 out buf (written + S k')%nat i1 Hs1) as (r & k & s2 & i2 & H3 & Hs2 & Hi2 & Hr); [lia..|].
      exists r, k, s2, i2. split; [done|]. split; [done|]. split; [lia|done].
  - destruct Hr as [Hw1 He]. destruct (Hg _ _ _ _ H1 Hw1 Hi1) as (s1 & H2 & Hs1). run H2. destruct (decide (e = Interrupted)) as [->|Hne].
    + specialize (He eq_refl). destruct (IH s1 out buf written i1 Hs1) as (r & k & s2 & i2 & H3 & Hs2 & Hi2 & Hr); [lia..|].
      exists r, k, s2, i2. split; [done|]. split; [done|]. split; [lia|done].
    + exists (IoErr e), written, s1, i1. split; [by destruct e|]. split_and!; try done. intros [= ->]. done.
Qed.
(** [flush_buf] leaves behind what the writer did not take. *)
Lemma flush_buf_spec s out buf i : bw_at s out buf i → ∃ r (k : nat) s' i', flush_buf fuel s = Ok (r, s') ∧
  bw_at s' (out ++ take k buf) (drop k buf) i' ∧ (i' ≤ i)%nat ∧ (k ≤ length buf)%nat ∧ r ≠ IoErr Interrupted ∧ (r = IoOk tt → k = length buf).
Proof.
  intros Hs. pose proof Hs as (w & Hw & _ & Hb & _ & Hl & _ & Hi). destruct (flush_loop_spec (length buf + fuel) s out buf 0 i) as (r & k & s1 & i1 & H1 & Hs1 & Hi1 & Hk & Hr);
    [by rewrite app_nil_r|lia|lia|]. unfold flush_buf. run_refl. rewrite Hw, Hb. run_refl. run H1. cbn [fst snd]. unfold drop_guard.
  destruct (Z.ltb_spec 0 (Z.of_nat k)).
  - pose proof Hs1 as (w1 & _ & _ & Hb1 & _). rewrite M_bind_assoc. run_refl. rewrite Hb1, (proj2 (Z.ltb_ge _ _)), Nat2Z.id by lia.
    destruct (set_buf_at (drop k) s1 _ _ _ Hs1) as (s2 & H2 & Hs2); [rewrite length_drop; lia|]. exists r, k, s2, i1. split; [|done].
    rewrite M_bind_assoc. run_refl. by run H2.
  - assert (k = 0%nat) as -> by lia. exists r, 0%nat, s1, i1. done.
Qed.
Lemma flush_buf_ok s out buf i : bw_at s out buf i → ∃ r s' i' out' buf', flush_buf fuel s = Ok (r, s') ∧ bw_at s' out' buf' i' ∧ (i' ≤ i)%nat ∧
  out' ++ buf' = out ++ buf ∧ buf' `suffix_of` buf ∧ r ≠ IoErr Interrupted ∧ (r = IoOk tt → buf' = []).
Proof.
  intros Hs. destruct (flush_buf_spec s out buf i Hs) as (r & k & s' & i' & H & Hs' & Hi & Hk & Hr & Hok). exists r, s', i', (out ++ take k buf), (drop k buf).
  split; [done|]. split; [done|]. split; [done|]. split; [by rewrite <- app_assoc, take_drop|]. split; [eexists; symmetry; apply take_drop|].
  split; [done|]. intros E. by rewrite (Hok E), drop_ge by lia.
Qed.

Lemma buffered_write_spec {A} len (direct buffer : M BW (ioresult A)) s out buf i : bw_at s out buf i → 0 ≤ len < 2 ^ 63 →
  ∃ s1 i1 out1 buf1, bw_at s1 out1 buf1 i1 ∧ (i1 ≤ i)%nat ∧ out1 ++ buf1 = out ++ buf ∧ buf1 `suffix_of` buf ∧
    ((∃ e, buffered_write fuel len direct buffer s = Ok (IoErr e, s1) ∧ e ≠ Interrupted) ∨
     (buffered_write fuel len direct buffer s = (if cap <=? len then direct else buffer) s1 ∧
      (cap ≤ len → buf1 = []) ∧ (len < cap → Z.of_nat (length buf1) + len ≤ cap))).
Proof.
  intros Hs Hlen. pose proof Hs as (w & _ & _ & Hb & Hc & Hl & _ & _). unfold buffered_write. run_refl. rewrite Hb, Hc, uadd_in by lia. run_refl.
  destruct (Z.ltb_spec cap (Z.of_nat (length buf) + len)) as [Hlt|Hge].
  - destruct (flush_buf_ok s out buf i Hs) as (r & s1 & i1 & out1 & buf1 & H1 & Hs1 & Hi1 & He1 & Hsuf & Hr & Hok). exists s1, i1, out1, buf1.
    split; [done|]. split; [done|]. split; [done|]. split; [done|]. destruct r as [[]|e].
    + right. rewrite (try_ok _ _ _ _ _ H1), (Hok eq_refl) in *. pose proof Hs1 as (_ & _ & _ & _ & Hc1 & _). run_refl. rewrite Hc1. split; [done|]. split; [done|cbn; lia].
    + left. exists e. rewrite (try_err _ _ _ _ _ H1). split; [done|]. intros ->. done.
  - exists s, i, out, buf. split; [done|]. split; [done|]. split; [done|]. split; [done|]. right. rewrite (try_ok _ _ s tt s) by done. run_refl. rewrite Hc.
    split; [done|]. split; [|lia]. intros ?. apply length_zero_iff_nil. lia.
Qed.

(** What a call may leave in the buffer: the end of what was there, and [l] or, for slices, the first bytes of them *)
Definition whole (buf l buf' : list Z) : Prop := ∃ b, b `suffix_of` buf ∧ (buf' = b ∨ buf' = b ++ l).
Definition partly (buf l buf' : list Z) : Prop := ∃ b k, b `suffix_of` buf ∧ buf' = b ++ take k l.
Lemma whole_partly buf l buf' : whole buf l buf' → partly buf l buf'.
Proof. intros (b & Hb & [->| ->]); exists b; [exists 0%nat; by rewrite app_nil_r|exists (length l); by rewrite take_ge by lia]. Qed.

(** [takes] and [takes_all], with what is in the buffer *)
Definition takes_at (grow : list Z → list Z → list Z → Prop) (m : M BW (ioresult Z)) (l : list Z) : Prop := ∀ s out buf i, bw_at s out buf i →
  ∃ r s' i' out' buf', m s = Ok (r, s') ∧ (i' ≤ i)%nat ∧ bw_at s' out' buf' i' ∧ grow buf l buf' ∧
    match r with
    | IoOk n => ∃ k : nat, n = Z.of_nat k ∧ (k ≤ length l)%nat ∧ out' ++ buf' = out ++ buf ++ take k l
    | IoErr e => out' ++ buf' = out ++ buf ∧ (e = Interrupted → (i' < i)%nat)
    end.
Definition takes_all_at (grow : list Z → list Z → list Z → Prop) (m : M BW (ioresult unit)) (l : list Z) : Prop := ∀ s out buf i, bw_at s out buf i →
  ∃ r s' i' out' buf', m s = Ok (r, s') ∧ (i' ≤ i)%nat ∧ bw_at s' out' buf' i' ∧ grow buf l buf' ∧
    match r with
    | IoOk _ => out' ++ buf' = out ++ buf ++ l
    | IoErr e => ∃ k : nat, (k ≤ length l)%nat ∧ out' ++ buf' = out ++ buf ++ take k l
    end.

(** A call that goes through to the writer, when the buffer is empty *)
Lemma direct_takes m l s out i : takes wr_rep m l → bw_at s out [] i → ∃ r s' i' out', guarded m s = Ok (r, s') ∧ (i' ≤ i)%nat ∧ bw_at s' out' [] i' ∧
  match r with
  | IoOk n => ∃ k : nat, n = Z.of_nat k ∧ (k ≤ length l)%nat ∧ out' = out ++ take k l
  | IoErr e => out' = out ∧ (e = Interrupted → (i' < i)%nat)
  end.
Proof.
  intros Hm Hs. destruct (guarded_at m s out [] i Hs) as (w & Hw & Hg). destruct (Hm w out i Hw) as (r & w' & i' & H1 & Hi & Hr). destruct r as [n|e].
  - destruct Hr as (k & -> & Hk & Hw'). destruct (Hg _ _ _ _ H1 Hw' Hi) as (s' & H2 & Hs'). exists (IoOk (Z.of_nat k)), s', i', (out ++ take k l). eauto 10.
  - destruct Hr as [Hw' He]. destruct (Hg _ _ _ _ H1 Hw' Hi) as (s' & H2 & Hs'). exists (IoErr e), s', i', out. eauto 10.
Qed.
Lemma direct_takes_all m l s out i : takes_all wr_rep m l → bw_at s out [] i → ∃ r s' i' out', guarded m s = Ok (r, s') ∧ (i' ≤ i)%nat ∧ bw_at s' out' [] i' ∧
  match r with
  | IoOk _ => out' = out ++ l
  | IoErr e => ∃ k : nat, (k ≤ length l)%nat ∧ out' = out ++ take k l
  end.
Proof.
  intros Hm Hs. destruct (guarded_at m s out [] i Hs) as (w & Hw & Hg). destruct (Hm w out i Hw) as (r & w' & i' & H1 & Hi & Hr). destruct r as [n|e].
  - destruct (Hg _ _ _ _ H1 Hr Hi) as (s' & H2 & Hs'). exists (IoOk n), s', i', (out ++ l). eauto 10.
  - destruct Hr as (k & Hk & Hw'). destruct (Hg _ _ _ _ H1 Hw' Hi) as (s' & H2 & Hs'). exists (IoErr e), s', i', (out ++ take k l). eauto 10.
Qed.

(** The shared part, for a call whose direct and buffered halves are right *)
Lemma buffered_takes (grow : list Z → list Z → list Z → Prop) len l direct buffer : 0 ≤ len < 2 ^ 63 → len ≤ Z.of_nat (length l) →
  (∀ buf l b, b `suffix_of` buf → grow buf l b) → takes wr_rep direct l →
  (∀ s out buf0 buf i, bw_at s out buf i → Z.of_nat (length buf) + len ≤ cap → buf `suffix_of` buf0 →
     ∃ (k : nat) s' buf', buffer s = Ok (IoOk (Z.of_nat k), s') ∧ (k ≤ length l)%nat ∧ bw_at s' out buf' i ∧ buf' = buf ++ take k l ∧ grow buf0 l buf') →
  takes_at grow (buffered_write fuel len (guarded direct) buffer) l.
Proof.
  intros Hlen Hll Hgrow Hd Hbuf s out buf i Hs. destruct (buffered_write_spec len (guarded direct) buffer s out buf i Hs Hlen) as
    (s1 & i1 & out1 & buf1 & Hs1 & Hi1 & He & Hsuf & [(e & H & Hne)|(H & H0 & H1)]).
  - exists (IoErr e), s1, i1, out1, buf1. split; [done|]. split; [done|]. split; [done|]. split; [by apply Hgrow|]. split; [done|]. intros ->. done.
  - rewrite H. destruct (Z.leb_spec cap len) as [Hle|Hlt].
    + rewrite (H0 Hle) in *. rewrite app_nil_r in He. subst out1.
      destruct (direct_takes direct l s1 (out ++ buf) i1 Hd Hs1) as (r & s2 & i2 & out2 & H2 & Hi2 & Hs2 & Hr). exists r, s2, i2, out2, [].
      split; [done|]. split; [lia|]. split; [done|]. split; [by apply Hgrow|]. rewrite app_nil_r. destruct r as [n|e].
      * destruct Hr as (k & -> & Hk & ->). exists k. rewrite <- app_assoc. done.
      * destruct Hr as [-> Hr]. split; [done|]. intros E. specialize (Hr E). lia.
    + destruct (Hbuf s1 out1 buf buf1 i1 Hs1 (H1 Hlt) Hsuf) as (k & s2 & buf2 & H2 & Hk & Hs2 & -> & Hg). exists (IoOk (Z.of_nat k)), s2, i1, out1, (buf1 ++ take k l).
      split; [done|]. split; [done|]. split; [done|]. split; [done|]. exists k. by rewrite app_assoc, He, app_assoc.
Qed.
Lemma whole_suffix buf l b : b `suffix_of` buf → whole buf l b.
Proof. intros. exists b. auto. Qed.
Lemma partly_suffix buf l b : b `suffix_of` buf → partly buf l b.
Proof. intros. by apply whole_partly, whole_suffix. Qed.

Lemma bw_write_spec l : sized l → takes_at whole (bw_write fuel l) l.
Proof.
  intros Hl. apply buffered_takes; [unfold sized in *; lia|lia|apply whole_suffix|by apply wr_write|].
  intros s out buf0 buf i Hs Hc Hsuf. destruct (set_buf_at (.++ l) s out buf i Hs) as (s' & H & Hs'); [rewrite length_app; lia|].
  exists (length l), s', (buf ++ l). run H. rewrite take_ge by lia. split; [done|]. split; [lia|]. split; [done|]. split; [done|]. exists buf. auto.
Qed.
Lemma bw_write_all_spec l : sized l → takes_all_at whole (bw_write_all fuel l) l.
Proof.
  intros Hl s out buf i Hs. destruct (buffered_write_spec (Z.of_nat (length l)) (guarded (w_write_all l)) (set_buf (.++ l) ;; ok tt) s out buf i Hs) as
    (s1 & i1 & out1 & buf1 & Hs1 & Hi1 & He & Hsuf & [(e & H & Hne)|(H & H0 & H1)]); [unfold sized in *; lia|unfold bw_write_all; rewrite H..].
  - exists (IoErr e), s1, i1, out1, buf1. split; [done|]. split; [done|]. split; [done|]. split; [by apply whole_suffix|]. exists 0%nat. rewrite He, app_nil_r. split; [lia|done].
  - destruct (Z.leb_spec cap (Z.of_nat (length l))) as [Hle|Hlt].
    + rewrite (H0 Hle) in *. rewrite app_nil_r in He. subst out1.
      destruct (direct_takes_all (w_write_all l) l s1 (out ++ buf) i1 (wr_write_all l Hl) Hs1) as (r & s2 & i2 & out2 & H2 & Hi2 & Hs2 & Hr). exists r, s2, i2, out2, [].
      split; [done|]. split; [lia|]. split; [done|]. split; [by apply whole_suffix, suffix_nil|]. rewrite app_nil_r. destruct r as [n|e].
      * by rewrite Hr, app_assoc.
      * destruct Hr as (k & Hk & ->). exists k. by rewrite app_assoc.
    + destruct (set_buf_at (.++ l) s1 out1 buf1 i1 Hs1) as (s2 & H2 & Hs2); [rewrite length_app; specialize (H1 Hlt); lia|].
      exists (IoOk tt), s2, i1, out1, (buf1 ++ l). run H2. split; [done|]. split; [done|]. split; [done|]. split; [exists buf1; auto|]. by rewrite !app_assoc, He.
Qed.

Lemma vectored_rest_spec bufs : ∀ s out buf n i, bw_at s out buf i → 0 ≤ n → n + Z.of_nat (length (concat bufs)) < 2 ^ 63 →
  ∃ (k : nat) s', vectored_rest bufs n s = Ok (IoOk (n + Z.of_nat k), s') ∧ (k ≤ length (concat bufs))%nat ∧ bw_at s' out (buf ++ take k (concat bufs)) i.
Proof.
  induction bufs as [|b bufs IH]; intros s out buf n i Hs Hn Hl; cbn [vectored_rest concat].
  { exists 0%nat, s. rewrite Z.add_0_r, take_0, app_nil_r. done. }
  pose proof Hs as (_ & _ & _ & Hb & Hc & Hcap & _). cbn [concat] in Hl. rewrite length_app in Hl. run_refl. rewrite Hb, Hc, (uadd_in (Z.of_nat (length buf))) by lia. run_refl.
  destruct (Z.ltb_spec cap (Z.of_nat (length buf) + Z.of_nat (length b))).
  { exists 0%nat, s. rewrite Z.add_0_r, take_0, app_nil_r. split; [done|]. split; [lia|done]. }
  destruct (set_buf_at (.++ b) s out buf i Hs) as (s1 & H1 & Hs1); [rewrite length_app; lia|]. run H1. rewrite uadd_in by lia. run_refl.
  destruct (IH s1 out (buf ++ b) (n + Z.of_nat (length b)) i Hs1) as (k & s2 & H2 & Hk & Hs2); [lia..|].
  exists (length b + k)%nat, s2. rewrite H2, length_app, take_app_add, app_assoc. split; [do 3 f_equal; lia|]. split; [lia|done].
Qed.
Lemma vectored_first_spec bufs : sized (concat bufs) → takes_at partly (vectored_first fuel bufs) (concat bufs).
Proof.
  unfold sized. induction bufs as [|b bufs IH]; intros Hl; cbn [vectored_first concat].
  { intros s out buf i Hs. exists (IoOk 0), s, i, out, buf. split; [done|]. split; [done|]. split; [done|]. split; [by apply partly_suffix|]. exists 0%nat. rewrite app_nil_r. done. }
  destruct b as [|x b]; [by apply IH|]. set (b0 := x :: b) in *. change (non_empty b0) with true. cbn [concat] in Hl |- *. cbn beta iota. rewrite length_app in Hl.
  apply buffered_takes; [lia|rewrite length_app; lia|apply partly_suffix|eapply takes_prefix, wr_write; [by eexists|unfold sized; lia]|].
  intros s out buf0 buf i Hs Hc Hsuf. destruct (set_buf_at (.++ b0) s out buf i Hs) as (s1 & H1 & Hs1); [rewrite length_app; lia|].
  destruct (vectored_rest_spec bufs s1 out (buf ++ b0) (Z.of_nat (length b0)) i Hs1) as (k & s2 & H2 & Hk & Hs2); [lia..|].
  exists (length b0 + k)%nat, s2, (buf ++ take (length b0 + k) (b0 ++ concat bufs)). run H1. rewrite H2, Nat2Z.inj_add. split; [done|]. rewrite length_app. split; [lia|].
  rewrite take_app_add, app_assoc. split; [done|]. split; [done|]. exists buf, (length b0 + k)%nat. by rewrite take_app_add, app_assoc.
Qed.
Lemma bw_vectored_spec bufs : sized (concat bufs) → takes_at partly (bw_write_vectored fuel bufs) (concat bufs).
Proof.
  intros Hl s out buf i Hs. pose proof Hs as (w & Hw & _). unfold bw_write_vectored. run_refl. rewrite Hw. run_refl. destruct (w_is_vectored w); [|by apply vectored_first_spec].
  unfold total_len. rewrite checked_in by (unfold sized in *; lia). run_refl. revert s out buf i Hs Hw. intros s out buf i Hs _. revert s out buf i Hs.
  apply buffered_takes; [unfold sized in *; lia|lia|apply partly_suffix|by apply wr_vectored|].
  intros s out buf0 buf i Hs Hc Hsuf. destruct (set_buf_at (.++ concat bufs) s out buf i Hs) as (s' & H & Hs'); [rewrite length_app; lia|].
  exists (length (concat bufs)), s', (buf ++ concat bufs). run H. rewrite take_ge by lia. split; [done|]. split; [lia|]. split; [done|]. split; [done|].
  exists buf, (length (concat bufs)). by rewrite take_ge by lia.
Qed.

Lemma bw_flush_spec : takes_all_at partly (bw_flush fuel) [].
Proof.
  intros s out buf i Hs. destruct (flush_buf_ok s out buf i Hs) as (r & s1 & i1 & out1 & buf1 & H1 & Hs1 & Hi1 & He1 & Hsuf & Hr & Hok). unfold bw_flush.
  destruct r as [[]|e]; [rewrite (try_ok _ _ _ _ _ H1), (Hok eq_refl) in *|rewrite (try_err _ _ _ _ _ H1)].
  2:{ exists (IoErr e), s1, i1, out1, buf1. split; [done|]. split; [done|]. split; [done|]. split; [by apply partly_suffix|]. exists 0%nat. rewrite app_nil_r. done. }
  destruct Hs1 as (w1 & Hw1 & Hr1 & Hb1 & Hc1 & Hl1 & Hp1 & Hi). destruct (wr_flush w1 out1 i1 Hr1) as (r & w2 & i2 & H2 & Hi2 & Hr2).
  unfold on_writer. rewrite Hw1, H2. eexists r, _, i2, out1, []. split; [reflexivity|]. split; [lia|].
  assert (wr_rep w2 out1 i2) as Hw2 by (destruct r; [by rewrite app_nil_r in Hr2|]; destruct Hr2 as (k & _ & Hr2); by rewrite take_nil, app_nil_r in Hr2).
  split; [exists w2; cbn in *; split_and!; done || lia|]. split; [by apply partly_suffix, suffix_nil|]. rewrite app_nil_r in He1 |- *. subst out1.
  destruct r; [by rewrite app_nil_r|]. exists 0%nat. by rewrite app_nil_r.
Qed.

(** All that was accepted, written or not *)
Definition bw_rep (s : BW) (all : list Z) (i : nat) : Prop := ∃ out buf, bw_at s out buf i ∧ all = out ++ buf.
Lemma takes_at_rep grow m l : takes_at grow m l → takes bw_rep m l.
Proof.
  intros H s all i (out & buf & Hs & ->). destruct (H s out buf i Hs) as (r & s' & i' & out' & buf' & H1 & Hi & Hs' & _ & Hr). exists r, s', i'. split; [done|]. split; [done|].
  destruct r; [destruct Hr as (k & -> & Hk & E); exists k; split; [done|]; split; [done|]|destruct Hr as [E Hr]; split; [|done]]; exists out', buf'; split; [done| |done|done].
  by rewrite E, app_assoc.
Qed.
Lemma takes_all_at_rep grow m l : takes_all_at grow m l → takes_all bw_rep m l.
Proof.
  intros H s all i (out & buf & Hs & ->). destruct (H s out buf i Hs) as (r & s' & i' & out' & buf' & H1 & Hi & Hs' & _ & Hr). exists r, s', i'. split; [done|]. split; [done|].
  destruct r; [|destruct Hr as (k & Hk & E); exists k; split; [done|]]; exists out', buf'; split; [done| |done|]; by rewrite ?Hr, ?E, app_assoc.
Qed.
(** A [BufWriter] is a writer. *)
Definition bw_writer_ok : @WriterOk BW (bw_writer fuel) := @Build_WriterOk BW (bw_writer fuel) bw_rep
  (λ l Hl, takes_at_rep _ _ _ (bw_write_spec l Hl)) (λ l Hl, takes_all_at_rep _ _ _ (bw_write_all_spec l Hl))
  (λ bufs Hl, takes_at_rep _ _ _ (bw_vectored_spec bufs Hl)) (takes_all_at_rep _ _ _ bw_flush_spec).

(** ** Sequences of calls *)

Inductive wcall := CWrite (l : list Z) | CWriteAll (l : list Z) | CVectored (bufs : list (list Z)) | CFlush.
Definition given (c : wcall) : list Z := match c with CWrite l | CWriteAll l => l | CVectored bufs => concat bufs | CFlush => [] end.
Definition bw_call (c : wcall) : M BW (ioresult Z) :=
  match c with
  | CWrite l => bw_write fuel l
  | CWriteAll l => bw_write_all fuel l ?; ok (Z.of_nat (length l))
  | CVectored bufs => bw_write_vectored fuel bufs
  | CFlush => bw_flush fuel ?; ok 0
  end.
Fixpoint bw_calls (cs : list wcall) : M BW (list (ioresult Z)) :=
  match cs with
  | [] => mret []
  | c :: cs => r ← bw_call c; rs ← bw_calls cs; mret (r :: rs)
  end.
(** The bytes a call has accepted, by its result: as many as it says; after an error none, or after one of [write_all] those in front *)
Definition accepted (c : wcall) (p : ioresult Z * list Z) : Prop :=
  match p.1 with
  | IoOk n => ∃ k : nat, n = Z.of_nat k ∧ (k ≤ length (given c))%nat ∧ p.2 = take k (given c) ∧ (∀ l, c = CWriteAll l → k = length l)
  | IoErr _ => p.2 `prefix_of` given c ∧ ((∀ l, c ≠ CWriteAll l) → p.2 = [])
  end.

Lemma accepted_takes c m s all i : bw_rep s all i → (∀ l, c ≠ CWriteAll l) → takes bw_rep m (given c) →
  ∃ r bs s' i', m s = Ok (r, s') ∧ (i' ≤ i)%nat ∧ bw_rep s' (all ++ bs) i' ∧ accepted c (r, bs).
Proof.
  intros Hs Hc H. destruct (H s all i Hs) as (r & s' & i' & H1 & Hi & Hr). destruct r as [n|e].
  - destruct Hr as (k & -> & Hk & Hr). exists (IoOk (Z.of_nat k)), (take k (given c)), s', i'. split; [done|]. split; [done|]. split; [done|].
    exists k. cbn. split_and!; try done. intros l ->. by destruct (Hc l).
  - destruct Hr as [Hr _]. exists (IoErr e), [], s', i'. rewrite app_nil_r. split; [done|]. split; [done|]. split; [done|]. split; [apply prefix_nil|done].
Qed.
Lemma bw_call_spec c s all i : bw_rep s all i → sized (given c) →
  ∃ r bs s' i', bw_call c s = Ok (r, s') ∧ (i' ≤ i)%nat ∧ bw_rep s' (all ++ bs) i' ∧ accepted c (r, bs).
Proof.
  intros Hs Hl. destruct c as [l|l|bufs|]; cbn [bw_call given] in *.
  - apply accepted_takes; [done|done|]. by eapply takes_at_rep, bw_write_spec.
  - destruct (takes_all_at_rep _ _ _ (bw_write_all_spec l Hl) s all i Hs) as (r & s' & i' & H1 & Hi & Hr). destruct r as [[]|e].
    + exists (IoOk (Z.of_nat (length l))), l, s', i'. rewrite (try_ok _ _ _ _ _ H1). split; [done|]. split; [done|]. split; [done|]. exists (length l). cbn.
      rewrite take_ge by lia. split; [done|]. split; [lia|]. split; [done|]. intros l' [= ->]. done.
    + destruct Hr as (k & Hk & Hr). exists (IoErr e), (take k l), s', i'. rewrite (try_err _ _ _ _ _ H1). split; [done|]. split; [done|]. split; [done|].
      split; [cbn; apply prefix_take|]. intros Hne. by destruct (Hne l).
  - apply accepted_takes; [done|done|]. by eapply takes_at_rep, bw_vectored_spec.
  - destruct (takes_all_at_rep _ _ _ bw_flush_spec s all i Hs) as (r & s' & i' & H1 & Hi & Hr). destruct r as [[]|e].
    + exists (IoOk 0), [], s', i'. rewrite (try_ok _ _ _ _ _ H1). split; [done|]. split; [done|]. split; [done|]. by exists 0%nat.
    + destruct Hr as (k & Hk & Hr). rewrite take_nil in Hr. exists (IoErr e), [], s', i'. rewrite (try_err _ _ _ _ _ H1). done.
Qed.
Lemma bw_calls_spec cs : ∀ s all i, bw_rep s all i → Forall (sized ∘ given) cs →
  ∃ ps s' i', bw_calls cs s = Ok (ps.*1, s') ∧ (i' ≤ i)%nat ∧ bw_rep s' (all ++ concat ps.*2) i' ∧ Forall2 accepted cs ps.
Proof.
  induction cs as [|c cs IH]; intros s all i Hs Hl; cbn [bw_calls].
  { exists [], s, i. cbn. rewrite app_nil_r. done. }
  inversion Hl as [|? ? Hc Hl']; subst. destruct (bw_call_spec c s all i Hs Hc) as (r & bs & s1 & i1 & H1 & Hi1 & Hs1 & Ha). run H1.
  destruct (IH s1 (all ++ bs) i1 Hs1 Hl') as (ps & s2 & i2 & H2 & Hi2 & Hs2 & Hps). run H2. exists ((r, bs) :: ps), s2, i2. cbn.
  rewrite app_assoc. split; [done|]. split; [lia|]. split; [done|]. by constructor.
Qed.
(** A seek is made by a writer that has taken everything. *)
Lemma bw_seek_spec seek pos s all i : bw_rep s all i →
  (∃ e s' i', bw_seek fuel seek pos s = Ok (IoErr e, s') ∧ bw_rep s' all i') ∨
  (∃ w s' i', wr_rep w all i' ∧ bw_inner s' = Some w ∧ bw_buf s' = [] ∧ bw_seek fuel seek pos s = on_writer (seek pos) s').
Proof.
  intros (out & buf & Hs & ->). destruct (flush_buf_ok s out buf i Hs) as (r & s1 & i1 & out1 & buf1 & H1 & Hs1 & Hi1 & He1 & _ & _ & Hok). unfold bw_seek. destruct r as [[]|e].
  - right. rewrite (try_ok _ _ _ _ _ H1), (Hok eq_refl), app_nil_r in *. destruct Hs1 as (w1 & Hw1 & Hr1 & Hb1 & _). exists w1, s1, i1. by rewrite <- He1.
  - left. exists e, s1, i1. rewrite (try_err _ _ _ _ _ H1). split; [done|]. by exists out1, buf1.
Qed.
Lemma bw_into_inner_spec s all i : bw_rep s all i → ∃ r s' i', bw_into_inner fuel s = Ok (r, s') ∧ (i' ≤ i)%nat ∧
  match r with IoOk w => wr_rep w all i' | IoErr _ => bw_rep s' all i' end.
Proof.
  intros (out & buf & Hs & ->). destruct (flush_buf_ok s out buf i Hs) as (r & s1 & i1 & out1 & buf1 & H1 & Hs1 & Hi1 & He1 & Hsuf & Hr & Hok). unfold bw_into_inner.
  destruct r as [[]|e].
  - rewrite (try_ok _ _ _ _ _ H1), (Hok eq_refl) in *. destruct Hs1 as (w1 & Hw1 & Hr1 & _). run_refl. rewrite Hw1. run_refl. eexists (IoOk w1), _, i1.
    split; [reflexivity|]. split; [done|]. rewrite app_nil_r in He1. by rewrite <- He1.
  - rewrite (try_err _ _ _ _ _ H1). exists (IoErr e), s1, i1. split; [done|]. split; [done|]. exists out1, buf1. done.
Qed.

(** C32: Whatever a program writes through a [BufWriter], with [write], [write_all], [write_vectored] and [flush], to a writer that takes as little as it
    likes, is interrupted or fails: the bytes the calls accepted, by their results, are those the writer took and those in the buffer, in
    this order, none lost and none twice; and [into_inner] hands out a writer that has them all, or the buffer with the rest. *)
Theorem buffered_in_order cs s all i : bw_rep s all i → Forall (sized ∘ given) cs →
  ∃ ps s' i', bw_calls cs s = Ok (ps.*1, s') ∧ (i' ≤ i)%nat ∧ Forall2 accepted cs ps ∧ bw_rep s' (all ++ concat ps.*2) i' ∧
    ∃ r s2 i2, bw_into_inner fuel s' = Ok (r, s2) ∧
      match r with IoOk w => wr_rep w (all ++ concat ps.*2) i2 | IoErr _ => bw_rep s2 (all ++ concat ps.*2) i2 end.
Proof.
  intros Hs Hl. destruct (bw_calls_spec cs s all i Hs Hl) as (ps & s' & i' & H & Hi & Hs' & Hps). exists ps, s', i'. split; [done|]. split; [done|]. split; [done|].
  split; [done|]. destruct (bw_into_inner_spec s' _ i' Hs') as (r & s2 & i2 & H2 & _ & Hr). by exists r, s2, i2.
Qed.
End bufwriter_laws.
