(* ===== verification/LineWrite.v ===== *)
(** * Writing lines

    [LineWriterShim] and [LineWriter] (core_io/src/io/buffered/linewritershim.rs, linewriter.rs) over a [BufWriter]: a completed line does not stay in
    the buffer. *)

From S2P Require Import Prelude Io FatIo BufIo BufReader BufWrite.

Definition newline : Z := 10.

(** [memrchr]: the last place of a byte *)
Fixpoint memrchr (d : Z) (l : list Z) : option nat :=
  match l with
  | [] => None
  | x :: l => match memrchr d l with Some i => Some (S i) | None => if x =? d then Some O else None end
  end.

Section shim.
Context {W : Type} `{!Writer W} (fuel : nat).
Abbreviation BW := (BufWriter W).

(** [LineWriter::with_capacity] and [new] *)
Definition lw_with_capacity (capacity : Z) (inner : W) : BW := bw_with_capacity capacity inner.
Definition lw_new (inner : W) : BW := lw_with_capacity 1024 inner.

Definition flush_if_completed_line : M BW (ioresult unit) :=
  s ← get;
  match last (bw_buf s) with
  | Some b => if b =? newline then flush_buf fuel else ok tt
  | None => ok tt
  end.

(** Which part of what the writer did not take is buffered *)
Definition line_tail (buf : list Z) (newline_idx flushed capacity : Z) : list Z :=
  let after := drop (Z.to_nat flushed) buf in
  if newline_idx <=? flushed then after
  else if newline_idx - flushed <=? capacity then take (Z.to_nat (newline_idx - flushed)) after
  else
    let scan_area := take (Z.to_nat capacity) after in
    match memrchr newline scan_area with
    | Some i => take (S i) scan_area
    | None => scan_area
    end.
Definition lw_write (buf : list Z) : M BW (ioresult Z) :=
  match memrchr newline buf with
  | None => flush_if_completed_line ?; bw_write fuel buf
  | Some i =>
      let newline_idx := Z.of_nat (S i) in
      flush_buf fuel ?;
      flushed ←? on_writer (w_write (take (S i) buf));
      if flushed =? 0 then ok 0
      else
        lift (if Z.of_nat (length buf) <? flushed then Panic OutOfBounds else Ok tt) ;;
        s ← get;
        buffered ← write_to_buf (line_tail buf newline_idx flushed (bw_cap s));
        total ← lift (uadd flushed buffered);
        ok total
  end.
Definition lw_write_all (buf : list Z) : M BW (ioresult unit) :=
  match memrchr newline buf with
  | None => flush_if_completed_line ?; bw_write_all fuel buf
  | Some i =>
      let lines := take (S i) buf in
      let tail := drop (S i) buf in
      s ← get;
      (if (length (bw_buf s) =? 0)%nat then on_writer (w_write_all lines)
       else bw_write_all fuel lines ?; flush_buf fuel) ?;
      bw_write_all fuel tail
  end.
Definition lw_flush : M BW (ioresult unit) := bw_flush fuel.

(** The last of the slices that has a newline *)
Fixpoint last_line_slice (bufs : list (list Z)) : option nat :=
  match bufs with
  | [] => None
  | b :: bufs => match last_line_slice bufs with Some i => Some (S i) | None => match memchr newline b with Some _ => Some O | None => None end end
  end.
(** [filter], [map(write_to_buf)], [take_while], [sum] *)
Fixpoint buffer_slices (bufs : list (list Z)) (sum : Z) : M BW Z :=
  match bufs with
  | [] => mret sum
  | b :: bufs =>
      if non_empty b then
        n ← write_to_buf b;
        if 0 <? n then sum ← lift (uadd sum n); buffer_slices bufs sum else mret sum
      else buffer_slices bufs sum
  end.
Definition lw_write_vectored (bufs : list (list Z)) : M BW (ioresult Z) :=
  s ← get;
  w ← lift (unwrap (bw_inner s));
  if negb (w_is_vectored w) then
    match List.find non_empty bufs with Some buf => lw_write buf | None => ok 0 end
  else
    match last_line_slice bufs with
    | None => flush_if_completed_line ?; bw_write_vectored fuel bufs
    | Some i =>
        flush_buf fuel ?;
        let lines := take (S i) bufs in
        let tail := drop (S i) bufs in
        flushed ←? on_writer (w_write_vectored lines);
        if flushed =? 0 then ok 0
        else
          lines_len ← lift (checked (total_len lines));
          if flushed <? lines_len then ok flushed
          else
            buffered ← buffer_slices tail 0;
            total ← lift (uadd flushed buffered);
            ok total
    end.
Definition lw_writer : Writer BW := {| w_write := lw_write; w_write_all := lw_write_all; w_write_vectored := lw_write_vectored;
  w_is_vectored _ := true; w_flush := lw_flush |}.
End shim.

(** ** Where the lines end *)

Lemma memrchr_None d l : memrchr d l = None → d ∉ l.
Proof.
  induction l as [|x l IH]; [intros _; apply not_elem_of_nil|]. cbn. destruct (memrchr d l); [done|]. destruct (Z.eqb_spec x d); [done|].
  intros _. apply not_elem_of_cons. split; [done|auto].
Qed.
Lemma memrchr_Some d l i : memrchr d l = Some i → l !! i = Some d ∧ d ∉ drop (S i) l.
Proof.
  revert i. induction l as [|x l IH]; intros i; [done|]. cbn. destruct (memrchr d l) as [j|] eqn:E.
  - intros [= <-]. by apply IH.
  - destruct (Z.eqb_spec x d) as [->|]; [|done]. intros [= <-]. split; [done|]. rewrite skipn_O. by apply memrchr_None.
Qed.
Lemma memchr_None d l : memchr d l = None → d ∉ l.
Proof.
  induction l as [|x l IH]; [intros _; apply not_elem_of_nil|]. cbn. destruct (Z.eqb_spec x d); [done|]. destruct (memchr d l); [done|].
  intros _. apply not_elem_of_cons. split; [done|auto].
Qed.

(** No newline but at the end *)
Definition line_ok (buf : list Z) : Prop := newline ∉ buf ∨ last buf = Some newline.
Lemma line_ok_suffix b buf : b `suffix_of` buf → line_ok buf → line_ok b.
Proof.
  intros [l ->] [H|H]; [left; set_solver|]. destruct b as [|x b]; [left; apply not_elem_of_nil|]. right. by rewrite last_app_cons in H.
Qed.
Lemma line_ok_take l i : l !! i = Some newline → line_ok (take (S i) l).
Proof. intros H. right. rewrite (take_S_r _ _ _ H). apply last_snoc. Qed.
Lemma none_line_ok l : newline ∉ l → line_ok l.
Proof. by left. Qed.
Create HintDb lines.
#[export] Hint Resolve none_line_ok line_ok_suffix line_ok_take not_elem_of_nil : lines.
Lemma not_elem_take k (l : list Z) : newline ∉ l → newline ∉ take k l.
Proof. intros H Ht. apply H. rewrite <- (take_drop k l). set_solver. Qed.
#[export] Hint Resolve not_elem_take : lines.

Lemma line_tail_prefix buf idx flushed capacity : line_tail buf idx flushed capacity `prefix_of` drop (Z.to_nat flushed) buf.
Proof.
  unfold line_tail. destruct (_ <=? flushed); [done|]. destruct (_ <=? capacity); [apply prefix_take|].
  destruct (memrchr _ _); [transitivity (take (Z.to_nat capacity) (drop (Z.to_nat flushed) buf)); apply prefix_take|apply prefix_take].
Qed.
Lemma line_tail_ok buf i flushed capacity : memrchr newline buf = Some i → (flushed ≤ S i)%nat → 0 ≤ capacity →
  line_ok (take (Z.to_nat capacity) (line_tail buf (Z.of_nat (S i)) (Z.of_nat flushed) capacity)).
Proof.
  intros [Hi Hno]%memrchr_Some Hf Hc. pose proof (lookup_lt_Some _ _ _ Hi). unfold line_tail. rewrite Nat2Z.id.
  destruct (Z.leb_spec (Z.of_nat (S i)) (Z.of_nat flushed)); [replace flushed with (S i) by lia; auto with lines|].
  destruct (Z.leb_spec (Z.of_nat (S i) - Z.of_nat flushed) capacity).
  - rewrite take_ge by (rewrite length_take; lia). replace (Z.to_nat (Z.of_nat (S i) - Z.of_nat flushed)) with (S (i - flushed)) by lia.
    apply line_ok_take. rewrite lookup_drop. replace (flushed + (i - flushed))%nat with i by lia. done.
  - destruct (memrchr newline _) as [j|] eqn:E.
    + apply memrchr_Some in E as [Hj _]. rewrite (take_ge (take (S j) _)) by (rewrite !length_take; lia). by apply line_ok_take.
    + apply memrchr_None in E. auto with lines.
Qed.
Lemma last_line_slice_None bufs : last_line_slice bufs = None → newline ∉ concat bufs.
Proof.
  induction bufs as [|b bufs IH]; [intros _; apply not_elem_of_nil|]. cbn. destruct (last_line_slice bufs); [done|]. destruct (memchr newline b) eqn:E; [done|].
  intros _. apply memchr_None in E. specialize (IH eq_refl). set_solver.
Qed.
Lemma last_line_slice_Some bufs i : last_line_slice bufs = Some i → newline ∉ concat (drop (S i) bufs).
Proof.
  revert i. induction bufs as [|b bufs IH]; intros i; [done|]. cbn. destruct (last_line_slice bufs) as [j|] eqn:E; [intros [= <-]; by apply IH|].
  destruct (memchr newline b); [|done]. intros [= <-]. by apply last_line_slice_None.
Qed.

Section shim_laws.
Context {W : Type} `{!Writer W, !WriterOk W} (fuel : nat) (cap : Z).
Abbreviation BW := (BufWriter W).
Abbreviation at_ := (bw_at fuel cap).

(** All that was accepted; a newline in the buffer is its end. *)
Definition lw_rep (s : BW) (all : list Z) (i : nat) : Prop := ∃ out buf, at_ s out buf i ∧ all = out ++ buf ∧ line_ok buf.

Lemma write_to_buf_at l (s : BW) out buf i : at_ s out buf i → sized l →
  ∃ k s', write_to_buf l s = Ok (Z.of_nat k, s') ∧ at_ s' out (buf ++ take k l) i ∧ k = Nat.min (Z.to_nat cap - length buf) (length l).
Proof.
  intros Hs Hl. pose proof Hs as (_ & _ & _ & Hb & Hc & Hcap & _). unfold write_to_buf. run_refl. rewrite Hb, Hc, usub_in by lia. run_refl.
  set (k := Nat.min (Z.to_nat cap - length buf) (length l)). replace (Z.min (cap - Z.of_nat (length buf)) (Z.of_nat (length l))) with (Z.of_nat k) by lia. rewrite Nat2Z.id.
  destruct (set_buf_at fuel cap (λ b, b ++ take k l) s out buf i Hs) as (s' & H & Hs'); [rewrite length_app, length_take; lia|]. exists k, s'. by run H.
Qed.
Lemma flush_completed_spec (s : BW) out buf i : at_ s out buf i → line_ok buf → ∃ r s' i' out' buf', flush_if_completed_line fuel s = Ok (r, s') ∧ (i' ≤ i)%nat ∧
  at_ s' out' buf' i' ∧ out' ++ buf' = out ++ buf ∧ line_ok buf' ∧ r ≠ IoErr Interrupted ∧ (r = IoOk tt → newline ∉ buf').
Proof.
  intros Hs Hl. pose proof Hs as (_ & _ & _ & Hb & _). unfold flush_if_completed_line. run_refl. rewrite Hb.
  assert (last buf = Some newline ∨ ((newline ∉ buf) ∧ last buf ≠ Some newline)) as [E|[Hn E]].
  { destruct (decide (last buf = Some newline)); [by left|]. destruct Hl; [by right|done]. }
  - rewrite E, Z.eqb_refl. destruct (flush_buf_ok fuel cap s out buf i Hs) as (r & s1 & i1 & out1 & buf1 & H1 & Hs1 & Hi1 & He1 & Hsuf & Hr & Hok).
    exists r, s1, i1, out1, buf1. split; [done|]. split; [done|]. split; [done|]. split; [done|]. split; [eauto with lines|]. split; [done|].
    intros Er. rewrite (Hok Er). apply not_elem_of_nil.
  - exists (IoOk tt), s, i, out, buf. split; [|done]. destruct (last buf) as [b|]; [|done]. destruct (Z.eqb_spec b newline); [congruence|done].
Qed.
Lemma whole_none buf l buf' : whole buf l buf' → newline ∉ buf → newline ∉ l → newline ∉ buf'.
Proof. intros (b & [b0 ->] & [->| ->]) H1 H2; set_solver. Qed.
Lemma partly_none buf l buf' : partly buf l buf' → newline ∉ buf → newline ∉ l → newline ∉ buf'.
Proof. intros (b & k & [b0 ->] & ->) H1 H2. pose proof (not_elem_take k l H2). set_solver. Qed.
(** Lines at the end *)
Lemma whole_lines buf l buf' : whole buf l buf' → line_ok buf → last l = Some newline → line_ok buf'.
Proof.
  intros (b & Hb & [->| ->]) Hok Hl; [eauto with lines|]. right. destruct l as [|x l]; [done|]. by rewrite last_app_cons.
Qed.

(** A slice without a newline *)
Lemma none_spec grow m l : newline ∉ l → (∀ buf l buf', grow buf l buf' → newline ∉ buf → newline ∉ l → newline ∉ buf') → takes_at fuel cap grow m l →
  takes lw_rep (try (flush_if_completed_line fuel) (λ _, m)) l.
Proof.
  intros Hn Hg Hm s all i (out & buf & Hs & -> & Hl). destruct (flush_completed_spec s out buf i Hs Hl) as (r & s1 & i1 & out1 & buf1 & H1 & Hi1 & Hs1 & He1 & Hl1 & Hr & Hok).
  destruct r as [[]|e].
  - specialize (Hok eq_refl). destruct (Hm s1 out1 buf1 i1 Hs1) as (r & s2 & i2 & out2 & buf2 & H2 & Hi2 & Hs2 & Hg2 & Hr2).
    exists r, s2, i2. rewrite (try_ok _ _ _ _ _ H1). split; [done|]. split; [lia|]. assert (line_ok buf2) by (left; eauto). destruct r as [n|e].
    + destruct Hr2 as (k & -> & Hk & E). exists k. split; [done|]. split; [done|]. exists out2, buf2. by rewrite E, <- He1, app_assoc.
    + destruct Hr2 as [E Hr2]. split; [exists out2, buf2; by rewrite E|]. intros Ei. specialize (Hr2 Ei). lia.
  - exists (IoErr e), s1, i1. rewrite (try_err _ _ _ _ _ H1). split; [done|]. split; [done|]. split; [by exists out1, buf1|]. intros ->. done.
Qed.
(** What is buffered goes, then the lines go to the writer. *)
Lemma lines_direct m lines (cont : Z → M BW (ioresult Z)) s out buf i : takes wr_rep m lines → at_ s out buf i → line_ok buf →
  let call := try (flush_buf fuel) (λ _, try (on_writer m) cont) in
  (∃ e s' i', call s = Ok (IoErr e, s') ∧ (i' ≤ i)%nat ∧ lw_rep s' (out ++ buf) i' ∧ (e = Interrupted → (i' < i)%nat)) ∨
  (∃ (k : nat) s' i', call s = cont (Z.of_nat k) s' ∧ (k ≤ length lines)%nat ∧ (i' ≤ i)%nat ∧ at_ s' ((out ++ buf) ++ take k lines) [] i').
Proof.
  intros Hm Hs Hl call. destruct (flush_buf_ok fuel cap s out buf i Hs) as (r & s1 & i1 & out1 & buf1 & H1 & Hs1 & Hi1 & He1 & Hsuf & Hr & Hok). unfold call. destruct r as [[]|e].
  2:{ left. exists e, s1, i1. rewrite (try_err _ _ _ _ _ H1). split; [done|]. split; [done|]. split; [exists out1, buf1; eauto with lines|]. intros ->. done. }
  rewrite (try_ok _ _ _ _ _ H1), (Hok eq_refl), ?app_nil_r in *. subst out1. destruct (on_writer_at fuel cap m s1 _ _ i1 Hs1) as (w & Hw & Hg).
  destruct (Hm w _ i1 Hw) as (r & w2 & i2 & H2 & Hi2 & Hr2). destruct r as [n|e].
  - destruct Hr2 as (k & -> & Hk & Hw2). destruct (Hg _ _ _ _ H2 Hw2 Hi2) as (s2 & H3 & Hs2). right. exists k, s2, i2. rewrite (try_ok _ _ _ _ _ H3). split; [done|]. split; [done|]. split; [lia|done].
  - destruct Hr2 as [Hw2 He2]. destruct (Hg _ _ _ _ H2 Hw2 Hi2) as (s2 & H3 & Hs2). left. exists e, s2, i2. rewrite (try_err _ _ _ _ _ H3). split; [done|]. split; [lia|].
    split; [exists (out ++ buf), []; rewrite app_nil_r; auto with lines|]. intros E. specialize (He2 E). lia.
Qed.

Lemma lw_write_spec l : sized l → takes lw_rep (lw_write fuel l) l.
Proof.
  intros Hl. unfold lw_write. destruct (memrchr newline l) as [j|] eqn:Hj.
  2:{ apply memrchr_None in Hj. apply (none_spec whole); [done|apply whole_none|by apply bw_write_spec]. }
  pose proof (memrchr_Some _ _ _ Hj) as [Hjl _]. apply lookup_lt_Some in Hjl. intros s all i (out & buf & Hs & -> & Hlo). cbn zeta.
  assert (sized (take (S j) l)) as Hll by (unfold sized in *; rewrite length_take; lia).
  match goal with |- context [try (on_writer _) ?f] => set (cont := f) end.
  destruct (lines_direct (w_write (take (S j) l)) (take (S j) l) cont s out buf i (wr_write _ Hll) Hs Hlo) as [(e & s1 & i1 & H1 & Hi1 & Hs1 & He)|(k & s1 & i1 & H1 & Hk & Hi1 & Hs1)];
    [by exists (IoErr e), s1, i1|]. cbn zeta in H1. rewrite H1. clear H1. unfold cont. rewrite length_take in Hk.
  destruct (Z.eqb_spec (Z.of_nat k) 0) as [E|E].
  { exists (IoOk 0), s1, i1. assert (k = 0%nat) as -> by lia. split; [done|]. split; [done|]. exists 0%nat. split; [done|]. split; [lia|]. eexists _, []. split; [exact Hs1|]. split; [by rewrite !app_nil_r|auto with lines]. }
  rewrite (proj2 (Z.ltb_ge _ _)) by lia. run_refl. run_refl. pose proof Hs1 as (_ & _ & _ & _ & Hc & Hcap & _). rewrite Hc.
  set (t := line_tail l (Z.of_nat (S j)) (Z.of_nat k) cap). pose proof (line_tail_prefix l (Z.of_nat (S j)) (Z.of_nat k) cap) as Hpre. fold t in Hpre. rewrite Nat2Z.id in Hpre.
  pose proof (prefix_length _ _ Hpre) as Hpl. rewrite length_drop in Hpl.
  destruct (write_to_buf_at t s1 _ [] i1 Hs1) as (k2 & s2 & H2 & Hs2 & Hk2); [unfold sized in *; lia|]. run H2. unfold sized in Hl. rewrite uadd_in by lia. run_refl.
  exists (IoOk (Z.of_nat k + Z.of_nat k2)), s2, i1. split; [done|]. split; [done|]. exists (k + k2)%nat. split; [lia|]. split; [lia|]. eexists _, _. split; [exact Hs2|]. split.
  - rewrite take_take, Nat.min_l by lia. cbn [app]. rewrite <- !app_assoc. do 2 f_equal. rewrite <- take_take_drop. f_equal. destruct Hpre as [t2 ->]. by rewrite take_app_le by lia.
  - cbn [app]. pose proof (line_tail_ok l j k cap Hj) as Hok. fold t in Hok. cbn [length] in Hk2. rewrite Nat.sub_0_r in Hk2.
    replace (take k2 t) with (take (Z.to_nat cap) t); [apply Hok; lia|]. rewrite Hk2. destruct (decide (Z.to_nat cap ≤ length t)%nat); [by rewrite Nat.min_l by lia|].
    rewrite Nat.min_r by lia. by rewrite !take_ge by lia.
Qed.

(** After [write_all] there is no newline in the buffer. *)
Definition lw_flushed (s : BW) (all : list Z) (i : nat) : Prop := ∃ out buf, at_ s out buf i ∧ all = out ++ buf ∧ newline ∉ buf.
Definition lw_all (r : ioresult unit) (s' : BW) (all l : list Z) (i' : nat) : Prop :=
  match r with
  | IoOk _ => lw_flushed s' (all ++ l) i'
  | IoErr _ => ∃ k : nat, (k ≤ length l)%nat ∧ lw_rep s' (all ++ take k l) i'
  end.
Lemma no_line_all t s out buf i : at_ s out buf i → newline ∉ buf → newline ∉ t → sized t →
  ∃ r s' i', bw_write_all fuel t s = Ok (r, s') ∧ (i' ≤ i)%nat ∧ lw_all r s' (out ++ buf) t i'.
Proof.
  intros Hs Hb Ht Hl. destruct (bw_write_all_spec fuel cap t Hl s out buf i Hs) as (r & s1 & i1 & out1 & buf1 & H1 & Hi1 & Hs1 & Hw & Hr).
  pose proof (whole_none _ _ _ Hw Hb Ht) as Hn. exists r, s1, i1. split; [done|]. split; [done|]. destruct r as [[]|e]; cbn.
  - exists out1, buf1. by rewrite Hr, app_assoc.
  - destruct Hr as (k & Hk & E). exists k. split; [done|]. exists out1, buf1. rewrite E, app_assoc. auto with lines.
Qed.
Lemma lines_first lines s out buf i : at_ s out buf i → line_ok buf → last lines = Some newline → sized lines →
  ∃ r s' i', (if (length (bw_buf s) =? 0)%nat then on_writer (w_write_all lines) else try (bw_write_all fuel lines) (λ _, flush_buf fuel)) s = Ok (r, s') ∧
    (i' ≤ i)%nat ∧ match r with
    | IoOk _ => at_ s' ((out ++ buf) ++ lines) [] i'
    | IoErr _ => ∃ k : nat, (k ≤ length lines)%nat ∧ lw_rep s' ((out ++ buf) ++ take k lines) i'
    end.
Proof.
  intros Hs Hlo Hlast Hl. pose proof Hs as (_ & _ & _ & Hb & _). rewrite Hb. destruct buf as [|x buf0]; cbn [length Nat.eqb].
  - rewrite app_nil_r. destruct (on_writer_at fuel cap (w_write_all lines) s out [] i Hs) as (w & Hw & Hg). destruct (wr_write_all lines Hl w out i Hw) as (r & w1 & i1 & H1 & Hi1 & Hr).
    destruct r as [[]|e]; [|destruct Hr as (k & Hk & Hr)]; destruct (Hg _ _ _ _ H1 Hr Hi1) as (s1 & H2 & Hs1); eexists _, s1, i1; (split; [exact H2|]); (split; [done|]); [done|].
    exists k. split; [done|]. eexists _, []. split; [exact Hs1|]. rewrite app_nil_r. auto with lines.
  - set (buf := x :: buf0) in *. destruct (bw_write_all_spec fuel cap lines Hl s out buf i Hs) as (r & s1 & i1 & out1 & buf1 & H1 & Hi1 & Hs1 & Hw & Hr).
    pose proof (whole_lines _ _ _ Hw Hlo Hlast) as Hlo1. destruct r as [[]|e].
    + destruct (flush_buf_ok fuel cap s1 out1 buf1 i1 Hs1) as (r & s2 & i2 & out2 & buf2 & H2 & Hs2 & Hi2 & He2 & Hsuf & Hr2 & Hok).
      exists r, s2, i2. rewrite (try_ok _ _ _ _ _ H1). split; [done|]. split; [lia|]. rewrite Hr, app_assoc in He2. destruct r as [[]|e].
      * rewrite (Hok eq_refl), app_nil_r in *. by subst.
      * exists (length lines). split; [lia|]. exists out2, buf2. rewrite take_ge by lia. eauto with lines.
    + destruct Hr as (k & Hk & E). exists (IoErr e), s1, i1. rewrite (try_err _ _ _ _ _ H1). split; [done|]. split; [done|]. exists k. split; [done|]. exists out1, buf1. by rewrite E, app_assoc.
Qed.
Lemma lw_write_all_spec l s all i : lw_rep s all i → sized l → ∃ r s' i', lw_write_all fuel l s = Ok (r, s') ∧ (i' ≤ i)%nat ∧ lw_all r s' all l i'.
Proof.
  intros (out & buf & Hs & -> & Hlo) Hl. unfold lw_write_all. destruct (memrchr newline l) as [j|] eqn:Hj.
  - pose proof (memrchr_Some _ _ _ Hj) as [Hjl Hno]. pose proof (lookup_lt_Some _ _ _ Hjl) as Hlt. cbn zeta. run_refl.
    assert (length (take (S j) l) = S j) as Hlen by (rewrite length_take; lia).
    destruct (lines_first (take (S j) l) s out buf i Hs Hlo) as (r & s1 & i1 & H1 & Hi1 & Hr); [by rewrite (take_S_r _ _ _ Hjl), last_snoc|unfold sized in *; lia|]. destruct r as [[]|e].
    + destruct (no_line_all (drop (S j) l) s1 _ [] i1 Hr) as (r & s2 & i2 & H2 & Hi2 & Hr2); [apply not_elem_of_nil|done|unfold sized in *; rewrite length_drop; lia|].
      exists r, s2, i2. rewrite (try_ok _ _ _ _ _ H1). split; [done|]. split; [lia|]. rewrite app_nil_r in Hr2. destruct r as [[]|e]; cbn in Hr2 |- *.
      * by rewrite <- app_assoc, take_drop in Hr2.
      * destruct Hr2 as (k & Hk & Hr2). rewrite length_drop in Hk. exists (S j + k)%nat. rewrite <- app_assoc, take_take_drop in Hr2. split; [lia|done].
    + destruct Hr as (k & Hk & Hr). exists (IoErr e), s1, i1. rewrite (try_err _ _ _ _ _ H1). split; [done|]. split; [done|]. exists k.
      rewrite take_take, Nat.min_l in Hr by lia. split; [lia|done].
  - apply memrchr_None in Hj. destruct (flush_completed_spec s out buf i Hs Hlo) as (r & s1 & i1 & out1 & buf1 & H1 & Hi1 & Hs1 & He1 & Hl1 & Hr & Hok). destruct r as [[]|e].
    + destruct (no_line_all l s1 out1 buf1 i1 Hs1 (Hok eq_refl) Hj Hl) as (r & s2 & i2 & H2 & Hi2 & Hr2). exists r, s2, i2. rewrite (try_ok _ _ _ _ _ H1), <- He1. split; [done|]. split; [lia|done].
    + exists (IoErr e), s1, i1. rewrite (try_err _ _ _ _ _ H1). split; [done|]. split; [done|]. exists 0%nat. split; [lia|]. exists out1, buf1. by rewrite He1, app_nil_r.
Qed.

(** Slices without newlines behind the lines *)
Lemma buffer_slices_spec bufs : ∀ (s : BW) out buf n i, at_ s out buf i → 0 ≤ n → n + Z.of_nat (length (concat bufs)) < 2 ^ 63 →
  ∃ (k : nat) s', buffer_slices bufs n s = Ok (n + Z.of_nat k, s') ∧ (k ≤ length (concat bufs))%nat ∧ at_ s' out (buf ++ take k (concat bufs)) i.
Proof.
  induction bufs as [|b bufs IH]; intros s out buf n i Hs Hn Hl; cbn [buffer_slices concat].
  { exists 0%nat, s. rewrite Z.add_0_r, take_0, app_nil_r. done. }
  cbn [concat] in Hl. rewrite length_app in Hl. destruct b as [|x b0]; [by apply IH|]. set (b := x :: b0) in *. change (non_empty b) with true. cbn beta iota.
  destruct (write_to_buf_at b s out buf i Hs) as (k & s1 & H1 & Hs1 & Hk); [unfold sized; lia|]. run H1. destruct (Z.ltb_spec 0 (Z.of_nat k)).
  2:{ exists 0%nat, s1. assert (k = 0%nat) as -> by lia. rewrite Z.add_0_r. split; [done|]. split; [lia|done]. }
  rewrite uadd_in by lia. run_refl. destruct (IH s1 out (buf ++ take k b) (n + Z.of_nat k) i Hs1) as (k2 & s2 & H2 & Hk2 & Hs2); [lia..|].
  destruct (decide (k = length b)) as [->|Hne].
  - exists (length b + k2)%nat, s2. rewrite H2, length_app, take_app_add. split; [do 2 f_equal; lia|]. split; [lia|]. by rewrite (take_ge b) in Hs2 by lia; rewrite app_assoc.
  - assert (k2 = 0%nat) as ->.
    { destruct Hs2 as (_ & _ & _ & _ & _ & Hc & _). rewrite !length_app, !length_take in Hc. rewrite (Nat.min_l k) in Hc by lia. lia. }
    exists k, s2. rewrite H2, length_app, take_app_le by lia. rewrite take_0, app_nil_r in Hs2. split; [do 2 f_equal; lia|]. split; [lia|done].
Qed.
Lemma lw_vectored_spec bufs : sized (concat bufs) → takes lw_rep (lw_write_vectored fuel bufs) (concat bufs).
Proof.
  intros Hl s all i Hrep. pose proof Hrep as (out & buf & Hs & -> & Hlo). pose proof Hs as (w & Hw & _). unfold lw_write_vectored. run_refl. rewrite Hw. run_refl.
  destruct (w_is_vectored w); cbn [negb].
  2:{ pose proof (find_concat bufs) as Hp. destruct (List.find non_empty bufs) as [b|]; cbn [default] in Hp.
    - revert Hrep. apply (takes_prefix _ _ _ _ Hp). apply lw_write_spec. by apply (sized_prefix _ _ Hp).
    - exists (IoOk 0), s, i. split; [done|]. split; [done|]. exists 0%nat. rewrite take_0, app_nil_r. split; [done|]. split; [lia|done]. }
  destruct (last_line_slice bufs) as [j|] eqn:Hj.
  2:{ apply last_line_slice_None in Hj. revert Hrep. apply (none_spec partly); [done|apply partly_none|by apply bw_vectored_spec]. }
  apply last_line_slice_Some in Hj. assert (concat bufs = concat (take (S j) bufs) ++ concat (drop (S j) bufs)) as Hcat by by rewrite <- concat_app, take_drop.
  cbn zeta. rewrite Hcat in Hl |- *. set (lines := take (S j) bufs) in *. set (tl := drop (S j) bufs) in *. unfold sized in Hl. rewrite length_app in Hl.
  match goal with |- context [try (on_writer _) ?f] => set (cont := f) end.
  destruct (lines_direct (w_write_vectored lines) (concat lines) cont s out buf i (wr_vectored lines ltac:(unfold sized; lia)) Hs Hlo) as
    [(e & s1 & i1 & H1 & Hi1 & Hs1 & He)|(k & s1 & i1 & H1 & Hk & Hi1 & Hs1)]; [by exists (IoErr e), s1, i1|].
  cbn zeta in H1. rewrite H1. clear H1. unfold cont.
  assert (lw_rep s1 ((out ++ buf) ++ take k (concat lines ++ concat tl)) i1) as Hs1'.
  { eexists _, []. split; [exact Hs1|]. rewrite app_nil_r, take_app_le by lia. auto with lines. }
  destruct (Z.eqb_spec (Z.of_nat k) 0) as [E|E].
  { exists (IoOk 0), s1, i1. assert (k = 0%nat) as -> by lia. split; [done|]. split; [done|]. exists 0%nat. split; [done|]. split; [lia|done]. }
  unfold total_len. rewrite checked_in by lia. run_refl. destruct (Z.ltb_spec (Z.of_nat k) (Z.of_nat (length (concat lines)))) as [Hlt|Hge].
  { exists (IoOk (Z.of_nat k)), s1, i1. split; [done|]. split; [done|]. exists k. rewrite length_app. split; [done|]. split; [lia|done]. }
  assert (k = length (concat lines)) as -> by lia. destruct (buffer_slices_spec tl s1 _ [] 0 i1 Hs1) as (k2 & s2 & H2 & Hk2 & Hs2); [lia..|]. run H2. rewrite uadd_in by lia. run_refl.
  eexists (IoOk _), s2, i1. split; [reflexivity|]. split; [done|]. exists (length (concat lines) + k2)%nat. rewrite length_app, take_app_add. split; [lia|]. split; [lia|].
  eexists _, _. split; [exact Hs2|]. rewrite (take_ge (concat lines)) by lia. cbn [app]. rewrite !app_assoc. split; [done|]. left. by apply not_elem_take.
Qed.
Lemma lw_flush_spec : takes_all lw_rep (lw_flush fuel) [].
Proof.
  intros s all i (out & buf & Hs & -> & Hlo). destruct (bw_flush_spec fuel cap s out buf i Hs) as (r & s1 & i1 & out1 & buf1 & H1 & Hi1 & Hs1 & (b & k & Hb & ->) & Hr).
  rewrite take_nil, app_nil_r in *. exists r, s1, i1. split; [done|]. split; [done|].
  destruct r; [|destruct Hr as (k2 & Hk2 & Hr); exists 0%nat; split; [lia|]; rewrite take_nil in Hr]; exists out1, b; rewrite Hr, !app_nil_r; eauto with lines.
Qed.

(** A [LineWriter] accepts bytes as a [BufWriter] does, in order and without loss whatever the writer below does, and when [write_all] has
    succeeded every line that was completed has been taken by the writer: no newline waits in the buffer. *)
Theorem lines_go_out l s all i : lw_rep s all i → sized l →
  takes lw_rep (lw_write fuel l) l ∧ takes_all lw_rep (lw_flush fuel) [] ∧ (∀ bufs, sized (concat bufs) → takes lw_rep (lw_write_vectored fuel bufs) (concat bufs)) ∧
  ∃ r s' i', lw_write_all fuel l s = Ok (r, s') ∧ (i' ≤ i)%nat ∧
    match r with
    | IoOk _ => ∃ out buf, at_ s' out buf i' ∧ all ++ l = out ++ buf ∧ newline ∉ buf
    | IoErr _ => ∃ k : nat, (k ≤ length l)%nat ∧ lw_rep s' (all ++ take k l) i'
    end.
Proof. intros Hs Hl. split; [by apply lw_write_spec|]. split; [apply lw_flush_spec|]. split; [apply lw_vectored_spec|]. by apply lw_write_all_spec. Qed.
End shim_laws.
