(* ===== verification/BufCopy.v ===== *)
(** * Copying

    [copy] (core_io/src/io/copy.rs) with its two bodies, and the writers that are vectors and slices (impls.rs): everything a reader
    has reaches the writer, or the writer's error is returned. *)

From S2P Require Import Prelude Io FatIo BufIo BufReader BufWrite LineWrite.

Section copy.
Context {R W : Type} `{!Reader R}.
Definition on_src {A} (m : M R A) : M (R * W) A := λ s, match m s.1 with Ok (r, x) => Ok (r, (x, s.2)) | Panic e => Panic e end.
Definition on_dst {A} (m : M W A) : M (R * W) A := λ s, match m s.2 with Ok (r, x) => Ok (r, (s.1, x)) | Panic e => Panic e end.

Fixpoint stack_buffer_copy `{!Writer W} (n : nat) (written : Z) : M (R * W) (ioresult Z) :=
  match n with
  | O => panic OutOfFuel
  | S n =>
      r ← on_src (r_read DEFAULT_BUF_SIZE);
      match r with
      | IoOk [] => ok written
      | IoOk bs =>
          on_dst (w_write_all bs) ?;
          written ← lift (uadd written (Z.of_nat (length bs)));
          stack_buffer_copy n written
      | IoErr Interrupted => stack_buffer_copy n written
      | IoErr e => err e
      end
  end.
End copy.

Section buffered_copy.
Context {R W : Type} `{!Reader R, !Writer W} (fuel : nat).
Abbreviation BW := (BufWriter W).

(** Into the buffer itself *)
Fixpoint spare_copy (n : nat) (len : Z) : M (R * BW) (ioresult Z) :=
  match n with
  | O => panic OutOfFuel
  | S n =>
      s ← get;
      spare ← lift (usub (bw_cap s.2) (Z.of_nat (length (bw_buf s.2))));
      if DEFAULT_BUF_SIZE <=? spare then
        r ← on_src (r_read spare);
        match r with
        | IoOk [] => ok len
        | IoOk bs =>
            lift (ensure (Z.of_nat (length bs) <=? spare)) ;;
            on_dst (set_buf (.++ bs)) ;;
            len ← lift (uadd len (Z.of_nat (length bs)));
            spare_copy n len
        | IoErr Interrupted => spare_copy n len
        | IoErr e => err e
        end
      else on_dst (flush_buf fuel) ?; spare_copy n len
  end.
Definition copy_to (n : nat) : M (R * BW) (ioresult Z) :=
  s ← get;
  if bw_cap s.2 <? DEFAULT_BUF_SIZE then stack_buffer_copy (Writer0 := bw_writer fuel) n 0 else spare_copy n 0.
End buffered_copy.

(** ** Everything arrives *)

Section copy_laws.
Context {R W : Type} `{!Reader R, !ReaderOk R}.

(** All of it, or, after an error of the writer, a first part *)
Definition copied (rep : W → list Z → nat → Prop) (out l : list Z) (n : Z) (r : ioresult Z) (s : R * W) : Prop :=
  match r with
  | IoOk m => m = n + Z.of_nat (length l) ∧ ∃ i j, rd_rep s.1 [] i ∧ rep s.2 (out ++ l) j
  | IoErr _ => ∃ (k : nat) j, (k ≤ length l)%nat ∧ rep s.2 (out ++ take k l) j
  end.
Lemma copied_cons rep out k l n r s : (k ≤ length l)%nat → copied rep (out ++ take k l) (drop k l) (n + Z.of_nat k) r s → copied rep out l n r s.
Proof.
  intros Hk. unfold copied. rewrite length_drop. destruct r as [m|e].
  - intros (-> & i & j & Hr & Hw). split; [lia|]. exists i, j. by rewrite <- app_assoc, take_drop in Hw.
  - intros (k2 & j & Hk2 & Hw). exists (k + k2)%nat, j. split; [lia|]. by rewrite <- app_assoc, take_take_drop in Hw.
Qed.
Lemma src_read (x : R) (w : W) l i n : rd_rep x l i → 0 ≤ n →
  (∃ (k : nat) x' i', on_src (r_read n) (x, w) = Ok (IoOk (take k l), (x', w)) ∧ rd_rep x' (drop k l) i' ∧ (i' ≤ i)%nat ∧
     Z.of_nat k ≤ n ∧ (k ≤ length l)%nat ∧ (0 < n → l ≠ [] → (0 < k)%nat)) ∨
  (∃ x' i', on_src (r_read n) (x, w) = Ok (IoErr Interrupted, (x', w)) ∧ rd_rep x' l i' ∧ (i' < i)%nat).
Proof.
  intros Hx Hn. unfold on_src. cbn [fst snd]. destruct (rd_read x l i n Hx Hn) as [(k & x' & i' & H & Hr)|(x' & i' & H & Hr)]; rewrite H; eauto 10.
Qed.

Lemma stack_copy_spec `{!Writer W, !WriterOk W} n : ∀ x l i w out j written, rd_rep x l i → wr_rep w out j → (length l + i < n)%nat →
  0 ≤ written → written + Z.of_nat (length l) < 2 ^ 64 → ∃ r s', stack_buffer_copy n written (x, w) = Ok (r, s') ∧ copied wr_rep out l written r s'.
Proof.
  induction n as [|n IH]; intros x l i w out j written Hx Hw Hn Hw0 Hmax; [lia|]. cbn [stack_buffer_copy].
  destruct (src_read x w l i DEFAULT_BUF_SIZE Hx ltac:(by unfold DEFAULT_BUF_SIZE)) as [(k & x1 & i1 & H1 & Hx1 & Hi1 & Hk & Hkl & Hk0)|(x1 & i1 & H1 & Hx1 & Hi1)]; run H1;
    [|apply (IH x1 l i1 w out j); [done..|lia|lia|lia]].
  assert (length (take k l) = k) as Hlen by (rewrite length_take; lia). destruct (take k l) as [|b bs] eqn:Et.
  - destruct l as [|y l]; [|specialize (Hk0 ltac:(done) ltac:(done)); cbn in Hlen; lia]. rewrite drop_nil in Hx1. eexists _, _. split; [reflexivity|]. split; [cbn; lia|].
    exists i1, j. by rewrite app_nil_r.
  - rewrite <- Et in *. assert (0 < k)%nat by (rewrite <- Hlen, Et; cbn; lia).
    destruct (wr_write_all (take k l) ltac:(unfold sized, DEFAULT_BUF_SIZE in *; lia) w out j Hw) as (r & w1 & j1 & H2 & Hj1 & Hr).
    destruct r as [[]|e]; [erewrite try_ok by (unfold on_dst; cbn [fst snd]; rewrite H2; reflexivity)|erewrite try_err by (unfold on_dst; cbn [fst snd]; rewrite H2; reflexivity)].
    + rewrite Hlen, uadd_in by lia. run_refl. destruct (IH x1 (drop k l) i1 w1 (out ++ take k l) j1 (written + Z.of_nat k) Hx1 Hr) as (r & s' & H3 & Hc); [rewrite ?length_drop; lia..|].
      exists r, s'. split; [exact H3|]. by apply (copied_cons _ _ k).
    + destruct Hr as (k2 & Hk2 & Hr). eexists _, _. split; [reflexivity|]. exists k2, j1. rewrite take_take, Nat.min_l in Hr by lia. split; [lia|done].
Qed.
End copy_laws.

Section buffered_copy_laws.
Context {R W : Type} `{!Reader R, !ReaderOk R, !Writer W, !WriterOk W} (fuel : nat) (cap : Z).
Abbreviation BW := (BufWriter W).

Lemma spare_copy_spec n : ∀ (x : R) l i (s : BW) out buf j len, rd_rep x l i → bw_at fuel cap s out buf j → DEFAULT_BUF_SIZE ≤ cap →
  (2 * (length l + i) + (if Z.to_nat cap <? Z.to_nat DEFAULT_BUF_SIZE + length buf then 1 else 0) < n)%nat → 0 ≤ len → len + Z.of_nat (length l) < 2 ^ 64 →
  ∃ r s', spare_copy fuel n len (x, s) = Ok (r, s') ∧ copied (bw_rep fuel cap) (out ++ buf) l len r s'.
Proof.
  induction n as [|n IH]; intros x l i s out buf j len Hx Hs Hcap Hn Hl0 Hmax; [lia|]. cbn [spare_copy]. pose proof Hs as (_ & _ & _ & Hb & Hc & Hbl & _).
  run_refl. cbn [snd]. rewrite Hb, Hc, usub_in by lia. run_refl. destruct (Z.leb_spec DEFAULT_BUF_SIZE (cap - Z.of_nat (length buf))) as [Hge|Hlt].
  - assert (DEFAULT_BUF_SIZE > 0) by done. rewrite (proj2 (Nat.ltb_ge _ _)) in Hn by lia.
    destruct (src_read x s l i (cap - Z.of_nat (length buf)) Hx) as [(k & x1 & i1 & H1 & Hx1 & Hi1 & Hk & Hkl & Hk0)|(x1 & i1 & H1 & Hx1 & Hi1)]; [lia|run H1..];
      [|apply (IH x1 l i1 s out buf j); try done; rewrite (proj2 (Nat.ltb_ge _ _)) by lia; lia].
    assert (length (take k l) = k) as Hlen by (rewrite length_take; lia). destruct (take k l) as [|b bs] eqn:Et.
    + destruct l as [|y l]; [|specialize (Hk0 ltac:(lia) ltac:(done)); cbn in Hlen; lia]. rewrite drop_nil in Hx1. eexists _, _. split; [reflexivity|]. split; [cbn; lia|].
      exists i1, j. split; [done|]. exists out, buf. by rewrite app_nil_r.
    + rewrite <- Et in *. assert (0 < k)%nat by (rewrite <- Hlen, Et; cbn; lia). rewrite Hlen, (proj2 (Z.leb_le _ _)) by lia. run_refl.
      destruct (set_buf_at fuel cap (.++ take k l) s out buf j Hs) as (s1 & H2 & Hs1); [rewrite length_app; lia|].
      step_by ltac:(unfold on_dst; cbn [fst snd]; rewrite H2; reflexivity). rewrite uadd_in by lia. run_refl.
      destruct (IH x1 (drop k l) i1 s1 out (buf ++ take k l) j (len + Z.of_nat k) Hx1 Hs1) as (r & s' & H3 & Hcp); [done|rewrite length_drop, length_app, Hlen; case_match; lia|rewrite ?length_drop; lia..|].
      exists r, s'. split; [exact H3|]. rewrite app_assoc in Hcp. by apply (copied_cons _ _ k).
  - destruct (flush_buf_ok fuel cap s out buf j Hs) as (r & s1 & j1 & out1 & buf1 & H1 & Hs1 & Hj1 & He1 & _ & _ & Hok).
    destruct r as [[]|e]; [erewrite try_ok by (unfold on_dst; cbn [fst snd]; rewrite H1; reflexivity)|erewrite try_err by (unfold on_dst; cbn [fst snd]; rewrite H1; reflexivity)].
    + rewrite (Hok eq_refl) in *. rewrite <- He1. apply (IH x l i s1 out1 [] j1); try done. rewrite (proj2 (Nat.ltb_lt _ _)) in Hn by lia. rewrite (proj2 (Nat.ltb_ge _ _)) by (cbn; lia). lia.
    + eexists _, _. split; [reflexivity|]. exists 0%nat, j1. split; [lia|]. exists out1, buf1. by rewrite take_0, app_nil_r.
Qed.

(** C35: [copy] into a [BufWriter], with a small buffer through one on the stack and with a large one directly into it: everything the reader has, whose
    reads may be short or interrupted, is accepted by the buffered writer in order, and its number is returned; if the writer fails, its error
    is returned and what was accepted is a first part. *)
Theorem copy_arrives n (x : R) l i (s : BW) all j : rd_rep x l i → bw_rep fuel cap s all j → (2 * (length l + i) + 1 < n)%nat → Z.of_nat (length l) < 2 ^ 64 →
  ∃ r s', copy_to fuel n (x, s) = Ok (r, s') ∧ copied (bw_rep fuel cap) all l 0 r s'.
Proof.
  intros Hx Hs Hn Hmax. destruct Hs as (out & buf & Hs & ->). pose proof Hs as (_ & _ & _ & _ & Hc & _). unfold copy_to. run_refl. cbn [snd]. rewrite Hc.
  destruct (Z.ltb_spec cap DEFAULT_BUF_SIZE).
  - apply (stack_copy_spec (Writer0 := bw_writer fuel) (WriterOk0 := bw_writer_ok fuel cap) n x l i s (out ++ buf) j 0); [done|by exists out, buf|lia..].
  - apply (spare_copy_spec n x l i s out buf j 0); try done. case_match; lia.
Qed.
End buffered_copy_laws.

(** ** Writers *)

(** [Vec<u8>] *)
#[export] Instance vec_writer : Writer (list Z) := {|
  w_write buf v := Ok (IoOk (Z.of_nat (length buf)), v ++ buf);
  w_write_all buf v := Ok (IoOk tt, v ++ buf);
  w_write_vectored bufs v := match checked (total_len bufs) with Ok len => Ok (IoOk len, v ++ concat bufs) | Panic e => Panic e end;
  w_is_vectored _ := true;
  w_flush v := Ok (IoOk tt, v) |}.
#[export] Instance vec_writer_ok : WriterOk (list Z).
Proof.
  refine {| wr_rep v out i := v = out |}.
  - intros l Hl v out i ->. exists (IoOk (Z.of_nat (length l))), (out ++ l), i. split; [done|]. split; [done|]. exists (length l). by rewrite take_ge by lia.
  - intros l Hl v out i ->. exists (IoOk tt), (out ++ l), i. done.
  - intros bufs Hl v out i ->. exists (IoOk (total_len bufs)), (out ++ concat bufs), i. cbn. rewrite checked_in by (unfold total_len, sized in *; lia).
    split; [done|]. split; [done|]. exists (length (concat bufs)). by rewrite take_ge by lia.
  - intros v out i ->. exists (IoOk tt), out, i. by rewrite app_nil_r.
Defined.

(** [&mut \[u8\]]: what was filled, and what is left *)
Record slice_writer := { sw_filled : list Z; sw_left : list Z }.
Definition sw_write (data : list Z) : M slice_writer (ioresult Z) :=
  s ← get;
  let amt := Nat.min (length data) (length (sw_left s)) in
  put {| sw_filled := sw_filled s ++ take amt data; sw_left := drop amt (sw_left s) |} ;;
  ok (Z.of_nat amt).
Definition sw_after (data : list Z) (s : slice_writer) : slice_writer :=
  let amt := Nat.min (length data) (length (sw_left s)) in {| sw_filled := sw_filled s ++ take amt data; sw_left := drop amt (sw_left s) |}.
Lemma sw_write_eq data s : sw_write data s = Ok (IoOk (Z.of_nat (Nat.min (length data) (length (sw_left s)))), sw_after data s).
Proof. reflexivity. Qed.
Definition sw_write_all (data : list Z) : M slice_writer (ioresult unit) :=
  n ←? sw_write data;
  if n =? Z.of_nat (length data) then ok tt else err WriteZero.
Fixpoint sw_write_vectored (bufs : list (list Z)) (nwritten : Z) : M slice_writer (ioresult Z) :=
  match bufs with
  | [] => ok nwritten
  | buf :: bufs =>
      n ←? sw_write buf;
      nwritten ← lift (uadd nwritten n);
      s ← get;
      if (length (sw_left s) =? 0)%nat then ok nwritten else sw_write_vectored bufs nwritten
  end.
#[export] Instance slice_writing : Writer slice_writer := {| w_write := sw_write; w_write_all := sw_write_all; w_write_vectored bufs := sw_write_vectored bufs 0;
  w_is_vectored _ := true; w_flush := ok tt |}.
Lemma sw_vectored_spec bufs : ∀ s n, 0 ≤ n → n + Z.of_nat (length (concat bufs)) < 2 ^ 64 → ∃ (k : nat) s', sw_write_vectored bufs n s = Ok (IoOk (n + Z.of_nat k), s') ∧
  (k ≤ length (concat bufs))%nat ∧ sw_filled s' = sw_filled s ++ take k (concat bufs).
Proof.
  induction bufs as [|b bufs IH]; intros s n Hn Hl; cbn [sw_write_vectored concat].
  { exists 0%nat, s. by rewrite Z.add_0_r, app_nil_r. }
  cbn [concat] in Hl. rewrite length_app in Hl. set (amt := Nat.min (length b) (length (sw_left s))).
  set (s1 := sw_after b s). rewrite (try_ok _ _ _ _ _ (sw_write_eq b s)), uadd_in by lia. run_refl. run_refl. fold amt s1. destruct (Nat.eqb_spec (length (sw_left s1)) 0) as [E|E].
  - exists amt, s1. split; [done|]. rewrite length_app, take_app_le by lia. split; [lia|reflexivity].
  - cbn in E. rewrite length_drop in E. assert (amt = length b) as Ha by lia. destruct (IH s1 (n + Z.of_nat amt)) as (k & s2 & H2 & Hk & Hf); [lia..|].
    exists (length b + k)%nat, s2. rewrite H2, length_app, Hf, take_app_add. split; [do 3 f_equal; lia|]. split; [lia|].
    change (sw_filled s1) with (sw_filled s ++ take amt b). rewrite Ha, (take_ge b) by lia. by rewrite app_assoc.
Qed.
#[export] Instance slice_writing_ok : WriterOk slice_writer.
Proof.
  refine {| wr_rep s out i := sw_filled s = out |}.
  - intros l Hl s out i <-. eexists _, _, i. split; [apply sw_write_eq|]. split; [done|]. exists (Nat.min (length l) (length (sw_left s))). split; [done|]. split; [lia|done].
  - intros l Hl s out i <-. cbn [w_write_all slice_writing]. set (amt := Nat.min (length l) (length (sw_left s))). unfold sw_write_all. rewrite (try_ok _ _ _ _ _ (sw_write_eq l s)). fold amt.
    destruct (Z.eqb_spec (Z.of_nat amt) (Z.of_nat (length l))) as [E|E]; eexists _, _, i; (split; [reflexivity|]); (split; [done|]).
    + cbn. fold amt. by rewrite take_ge by lia.
    + exists amt. split; [lia|done].
  - intros bufs Hl s out i <-. destruct (sw_vectored_spec bufs s 0) as (k & s' & H & Hk & Hf); [lia|unfold sized in *; lia|]. exists (IoOk (Z.of_nat k)), s', i. split; [done|]. split; [done|].
    by exists k.
  - intros s out i <-. exists (IoOk tt), s, i. by rewrite app_nil_r.
Defined.

(** ** A slow writer *)

(** What each write does: it is interrupted, or takes so many bytes; later ones take everything. *)
Record slow := { sl_out : list Z; sl_script : list (option nat) }.
Definition sl_write (l : list Z) (w : slow) : exec (ioresult Z * slow) :=
  match sl_script w with
  | None :: t => Ok (IoErr Interrupted, {| sl_out := sl_out w; sl_script := t |})
  | Some k :: t => Ok (IoOk (Z.of_nat (Nat.min k (length l))), {| sl_out := sl_out w ++ take (Nat.min k (length l)) l; sl_script := t |})
  | [] => Ok (IoOk (Z.of_nat (length l)), {| sl_out := sl_out w ++ l; sl_script := [] |})
  end.
#[export] Instance slow_writer : Writer slow := {| w_write := sl_write; w_write_all l w := default_write_all sl_write (length (sl_script w)) l w;
  w_write_vectored := default_write_vectored sl_write; w_is_vectored _ := false; w_flush := ok tt |}.
Definition sl_rep (w : slow) (out : list Z) (i : nat) : Prop := sl_out w = out ∧ length (sl_script w) = i.
Lemma sl_write_spec l : takes sl_rep (sl_write l) l.
Proof.
  intros [out' sc] out i [<- <-]. unfold sl_write. cbn [sl_script sl_out]. destruct sc as [|[k|] sc].
  - eexists _, _, 0%nat. split; [reflexivity|]. split; [done|]. exists (length l). by rewrite take_ge by lia.
  - eexists _, _, (length sc). split; [reflexivity|]. split; [cbn; lia|]. exists (Nat.min k (length l)). split; [done|]. split; [lia|done].
  - eexists _, _, (length sc). split; [reflexivity|]. split; [cbn; lia|]. split; [done|]. intros _. cbn. lia.
Qed.
#[export] Instance slow_writer_ok : WriterOk slow.
Proof.
  refine {| wr_rep := sl_rep |}.
  - intros l _. apply sl_write_spec.
  - intros l Hl w out i Hw. pose proof Hw as [_ <-]. apply (all_loop_spec sl_rep); [intros ? _; apply sl_write_spec|done|done|lia].
  - intros bufs Hl. apply default_vectored_spec; [intros ? _; apply sl_write_spec|done].
  - intros w out i Hw. exists (IoOk tt), w, i. by rewrite app_nil_r.
Defined.

(** It takes two bytes, is interrupted twice, and takes three. *)
Definition slowly : slow := {| sl_out := []; sl_script := [Some 2%nat; None; None; Some 3%nat] |}.
Lemma slowly_at : bw_at 8 4 (bw_with_capacity 4 slowly) [] [] 4.
Proof. apply bw_new_at; [done|done|apply Nat.leb_le; reflexivity]. Qed.

Definition some_calls : list wcall := [CWrite [1; 2; 3]; CWriteAll [4; 5; 6; 7; 8; 9]; CFlush; CVectored [[]; [10]; [11; 12]; [13; 14]]].
(** The calls themselves *)
Example some_calls_eq : bw_calls 8 some_calls (bw_with_capacity 4 slowly) =
  Ok ([IoOk 3; IoOk 6; IoOk 0; IoOk 3], {| bw_inner := Some {| sl_out := seqZ 1 9; sl_script := [] |}; bw_buf := [10; 11; 12]; bw_cap := 4; panicked := false |}).
Proof. vm_compute. reflexivity. Qed.
Lemma buffered_in_order_witness : ∃ ps s' i', bw_calls 8 some_calls (bw_with_capacity 4 slowly) = Ok (ps.*1, s') ∧ bw_rep 8 4 s' (concat ps.*2) i'.
Proof.
  destruct (buffered_in_order 8 4 some_calls (bw_with_capacity 4 slowly) [] 4) as (ps & s' & i' & H & _ & _ & Hs & _).
  - exists [], []. split; [exact slowly_at|reflexivity].
  - repeat constructor.
  - exists ps, s', i'. split; [exact H|exact Hs].
Defined.
(** Two lines and a half *)
Lemma lines_go_out_witness : ∃ r s' i', lw_write_all 8 [65; 10; 66; 67; 10; 68] (lw_with_capacity 4 slowly) = Ok (r, s') ∧ (i' ≤ 4)%nat.
Proof.
  destruct (lines_go_out 8 4 [65; 10; 66; 67; 10; 68] (lw_with_capacity 4 slowly) [] 4) as (_ & _ & _ & r & s' & i' & H & Hi & _).
  - exists [], []. split; [exact slowly_at|]. split; [reflexivity|]. left. apply not_elem_of_nil.
  - reflexivity.
  - exists r, s', i'. split; [exact H|exact Hi].
Defined.
Example lines_out : lw_write_all 8 [65; 10; 66; 67; 10; 68] (lw_with_capacity 4 slowly) =
  Ok (IoOk tt, {| bw_inner := Some {| sl_out := [65; 10; 66; 67; 10]; sl_script := [] |}; bw_buf := [68]; bw_cap := 4; panicked := false |}).
Proof. vm_compute. reflexivity. Qed.
Lemma copy_arrives_witness : ∃ r s', copy_to 8 30 (in_pieces, bw_with_capacity 4 slowly) = Ok (r, s') ∧ copied (bw_rep 8 4) [] (concat in_pieces) 0 r s'.
Proof.
  apply (copy_arrives 8 4 30 in_pieces (concat in_pieces) 2 (bw_with_capacity 4 slowly) [] 4).
  - split; reflexivity.
  - exists [], []. split; [exact slowly_at|reflexivity].
  - apply Nat.ltb_lt. reflexivity.
  - reflexivity.
Defined.
