(* ===== verification/Cursor.v ===== *)
(** * Cursors

    [Cursor] (core_io/src/io/cursor.rs): a position over a slice, which does not grow, or a vector, which does.  A cursor is a stream of
    bytes, so what is proved of the file system over streams holds over a cursor. *)

From S2P Require Import Prelude Io FatIo BufIo BufReader BufSeek BufWrite LineWrite BufCopy.

Record Cursor := { cu_inner : list Z; cu_pos : Z }.
Definition cu_new (inner : list Z) : Cursor := {| cu_inner := inner; cu_pos := 0 |}.
Definition set_position (pos : Z) : M Cursor unit := modify (λ s, {| cu_inner := cu_inner s; cu_pos := pos |}).

Definition cu_seek (style : SeekFrom) : M Cursor (ioresult Z) :=
  s ← get;
  match style with
  | SeekStart n => set_position n ;; ok n
  | SeekEnd offset | SeekCurrent offset =>
      let base_pos := match style with SeekCurrent _ => cu_pos s | _ => Z.of_nat (length (cu_inner s)) end in
      let new_pos :=
        if 0 <=? offset then u64_checked (base_pos + cast 64 offset)
        else u64_checked (base_pos - cast 64 (icast 64 (- offset))) in
      match new_pos with
      | Some n => set_position n ;; ok n
      | None => err InvalidInput
      end
  end.
Definition cu_stream_len : M Cursor (ioresult Z) := s ← get; ok (Z.of_nat (length (cu_inner s))).
Definition cu_stream_position : M Cursor (ioresult Z) := s ← get; ok (cu_pos s).

(** [get_buf], [fill_buf]: what is behind the position *)
Definition cu_get_buf : M Cursor (ioresult (list Z)) :=
  s ← get;
  let amt := Z.min (cu_pos s) (Z.of_nat (length (cu_inner s))) in
  ok (drop (Z.to_nat amt) (cu_inner s)).
Definition cu_consume (amt : Z) : M Cursor unit := s ← get; p ← lift (uadd (cu_pos s) amt); set_position p.
Definition cu_read (n : Z) : M Cursor (ioresult (list Z)) :=
  b ←? cu_get_buf;
  let bs := take (Z.to_nat n) b in
  cu_consume (Z.of_nat (length bs)) ;;
  ok bs.
Definition cu_read_exact (n : Z) : M Cursor (ioresult (list Z)) :=
  b ←? cu_get_buf;
  if Z.of_nat (length b) <? n then err UnexpectedEof
  else cu_consume n ;; ok (take (Z.to_nat n) b).
Fixpoint cu_read_vectored (sizes : list Z) (acc : list (list Z)) : M Cursor (ioresult (list (list Z))) :=
  match sizes with
  | [] => ok acc
  | n :: sizes =>
      bs ←? cu_read n;
      if Z.of_nat (length bs) <? n then ok (acc ++ [bs]) else cu_read_vectored sizes (acc ++ [bs])
  end.

(** [&mut \[u8\]] *)
Definition slice_write (buf : list Z) : M Cursor (ioresult Z) :=
  s ← get;
  let pos := Z.to_nat (Z.min (cu_pos s) (Z.of_nat (length (cu_inner s)))) in
  let amt := Nat.min (length buf) (length (cu_inner s) - pos) in
  p ← lift (uadd (cu_pos s) (Z.of_nat amt));
  put {| cu_inner := take pos (cu_inner s) ++ take amt buf ++ drop (pos + amt) (cu_inner s); cu_pos := p |} ;;
  ok (Z.of_nat amt).
Fixpoint slice_write_vectored (bufs : list (list Z)) (nwritten : Z) : M Cursor (ioresult Z) :=
  match bufs with
  | [] => ok nwritten
  | buf :: bufs =>
      n ←? slice_write buf;
      nwritten ← lift (uadd nwritten n);
      if n <? Z.of_nat (length buf) then ok nwritten else slice_write_vectored bufs nwritten
  end.

(** [Vec::resize]; the capacity is at most [isize::MAX]. *)
Definition vec_resize (n : Z) (v : list Z) : exec (list Z) :=
  if n <? 2 ^ 63 then Ok (take (Z.to_nat n) v ++ replicate (Z.to_nat n - length v) 0) else Panic Overflow.
(** [Vec<u8>] *)
Definition vec_write (buf : list Z) : M Cursor (ioresult Z) :=
  s ← get;
  let pos := cu_pos s in
  v ← lift (if Z.of_nat (length (cu_inner s)) <? pos then vec_resize pos (cu_inner s) else Ok (cu_inner s));
  let space := (length v - Z.to_nat pos)%nat in
  let left := take (Nat.min space (length buf)) buf in
  let right := drop (Nat.min space (length buf)) buf in
  let v := take (Z.to_nat pos) v ++ left ++ drop (Z.to_nat pos + length left) v ++ right in
  p ← lift (uadd pos (Z.of_nat (length buf)));
  put {| cu_inner := v; cu_pos := p |} ;;
  ok (Z.of_nat (length buf)).
Fixpoint vec_write_vectored (bufs : list (list Z)) (nwritten : Z) : M Cursor (ioresult Z) :=
  match bufs with
  | [] => ok nwritten
  | buf :: bufs => n ←? vec_write buf; nwritten ← lift (uadd nwritten n); vec_write_vectored bufs nwritten
  end.

(** ** What a cursor does *)

(** The bytes, and a position, which may be behind them *)
Definition cu_rep (s : Cursor) (bs : list Z) (pos : Z) : Prop := cu_inner s = bs ∧ cu_pos s = pos ∧ 0 ≤ pos ∧ pos < 2 ^ 63 ∧ Z.of_nat (length bs) < 2 ^ 63.

Lemma cu_seek_spec s bs pos p : cu_rep s bs pos → 0 ≤ p < 2 ^ 63 → ∃ s', cu_seek (SeekStart p) s = Ok (IoOk p, s') ∧ cu_rep s' bs p.
Proof. intros (<- & <- & H0 & H1 & H2) Hp. eexists. split; [reflexivity|]. split_and!; try done; lia. Qed.
Lemma cu_seek_by s bs pos n : cu_rep s bs pos → 0 ≤ pos + n < 2 ^ 63 → ∃ s', cu_seek (SeekCurrent n) s = Ok (IoOk (pos + n), s') ∧ cu_rep s' bs (pos + n).
Proof.
  intros (<- & <- & H0 & H1 & H2) Hn. unfold cu_seek. run_refl. unfold u64_checked. destruct (Z.leb_spec 0 n).
  - rewrite cast_in by lia. replace ((0 <=? cu_pos s + n) && (cu_pos s + n <? 2 ^ 64)) with true by lia. eexists. split; [reflexivity|]. split_and!; try done; lia.
  - rewrite icast_in, cast_in by lia. replace (cu_pos s - - n) with (cu_pos s + n) by lia. replace ((0 <=? cu_pos s + n) && (cu_pos s + n <? 2 ^ 64)) with true by lia.
    eexists. split; [reflexivity|]. split_and!; try done; lia.
Qed.
Lemma cu_read_spec s bs pos n : cu_rep s bs pos → 0 ≤ n → let k := Nat.min (Z.to_nat n) (length bs - Z.to_nat pos) in
  ∃ s', cu_read n s = Ok (IoOk (take k (drop (Z.to_nat pos) bs)), s') ∧ cu_rep s' bs (pos + Z.of_nat k).
Proof.
  intros (<- & <- & H0 & H1 & H2) Hn k. set (b := drop (Z.to_nat (Z.min (cu_pos s) (Z.of_nat (length (cu_inner s))))) (cu_inner s)).
  assert (take (Z.to_nat n) b = take k (drop (Z.to_nat (cu_pos s)) (cu_inner s)) ∧ length (take (Z.to_nat n) b) = k) as [Eb Hl].
  { split; [|unfold b; rewrite length_take, length_drop; lia]. unfold b, k. destruct (decide (cu_pos s ≤ Z.of_nat (length (cu_inner s)))).
    - rewrite Z.min_l by lia. destruct (decide (Z.to_nat n ≤ length (cu_inner s) - Z.to_nat (cu_pos s))%nat); [by rewrite Nat.min_l by lia|].
      rewrite Nat.min_r by lia. by rewrite !take_ge by (rewrite length_drop; lia).
    - rewrite Z.min_r, Nat2Z.id, !drop_ge, !take_nil by lia. done. }
  unfold cu_read. rewrite (try_ok _ _ s b s) by reflexivity. rewrite Hl, Eb. unfold cu_consume. rewrite M_bind_assoc. run_refl. rewrite uadd_in by lia. rewrite M_bind_assoc. run_refl.
  eexists. split; [reflexivity|]. split_and!; try done; cbn; lia.
Qed.

(** In place, as far as there is room *)
Lemma slice_write_spec s bs pos l : cu_rep s bs pos → pos + Z.of_nat (length l) ≤ Z.of_nat (length bs) →
  ∃ s', slice_write l s = Ok (IoOk (Z.of_nat (length l)), s') ∧ cu_rep s' (splice pos l bs) (pos + Z.of_nat (length l)).
Proof.
  intros (<- & <- & H0 & H1 & H2) Hl. unfold slice_write. run_refl. cbn zeta. rewrite Z.min_l by lia. rewrite Nat.min_l by lia. rewrite uadd_in by lia. run_refl.
  eexists. split; [reflexivity|]. cbn. rewrite (take_ge l) by lia. fold (splice (cu_pos s) l (cu_inner s)). split; [done|]. rewrite length_splice by lia. split_and!; done || lia.
Qed.
(** The bytes with [l] at [pos], and zeros in between *)
Definition overlay (pos : Z) (l bs : list Z) : list Z :=
  take (Z.to_nat pos) bs ++ replicate (Z.to_nat pos - length bs) 0 ++ l ++ drop (Z.to_nat pos + length l) bs.
Lemma length_overlay pos l bs : 0 ≤ pos → Z.of_nat (length (overlay pos l bs)) = Z.max (Z.of_nat (length bs)) (pos + Z.of_nat (length l)).
Proof. intros. unfold overlay. rewrite !length_app, length_take, length_replicate, length_drop. lia. Qed.
Lemma overlay_splice pos l bs : 0 ≤ pos → pos + Z.of_nat (length l) ≤ Z.of_nat (length bs) → overlay pos l bs = splice pos l bs.
Proof. intros. unfold overlay, splice. by replace (Z.to_nat pos - length bs)%nat with 0%nat by lia. Qed.
Lemma vec_write_spec s bs pos l : cu_rep s bs pos → pos + Z.of_nat (length l) < 2 ^ 63 →
  ∃ s', vec_write l s = Ok (IoOk (Z.of_nat (length l)), s') ∧ cu_rep s' (overlay pos l bs) (pos + Z.of_nat (length l)).
Proof.
  intros (<- & <- & H0 & H1 & H2) Hl. set (pos := cu_pos s) in *. set (bs := cu_inner s) in *. unfold vec_write. run_refl. fold pos bs.
  set (v := take (Z.to_nat pos) bs ++ replicate (Z.to_nat pos - length bs) 0 ++ drop (Z.to_nat pos) bs).
  assert ((if Z.of_nat (length bs) <? pos then vec_resize pos bs else Ok bs) = Ok v) as ->.
  { unfold v, vec_resize. destruct (Z.ltb_spec (Z.of_nat (length bs)) pos).
    - rewrite (proj2 (Z.ltb_lt _ _)) by lia. rewrite drop_ge, app_nil_r by lia. done.
    - replace (Z.to_nat pos - length bs)%nat with 0%nat by lia. cbn [replicate app]. by rewrite take_drop. }
  run_refl. cbn zeta. rewrite uadd_in by lia. run_refl. eexists. split; [reflexivity|]. set (n := Z.to_nat pos).
  set (pre := take n bs ++ replicate (n - length bs) 0). assert (length pre = n) as Hpre by (unfold pre; rewrite length_app, length_take, length_replicate; lia).
  assert (v = pre ++ drop n bs) as Hv by (unfold v, pre; by rewrite <- app_assoc). rewrite Hv, length_app, Hpre. replace (n + length (drop n bs) - n)%nat with (length (drop n bs)) by lia.
  rewrite length_drop, length_take. rewrite take_app_length' by done. rewrite drop_app_add' by done. rewrite drop_drop.
  set (k := Nat.min (length bs - n) (length l)). split; [|cbn; split; [done|]; split; [lia|]; split; [lia|]; rewrite length_overlay by lia; lia].
  cbn. unfold overlay. fold n. rewrite (app_assoc (take n bs)). fold pre. f_equal. replace (Nat.min k (length l)) with k by lia.
  destruct (decide (length l ≤ length bs - n)%nat).
  - replace k with (length l) by lia. by rewrite take_ge, (drop_ge l), app_nil_r by lia.
  - rewrite !(drop_ge bs) by lia. rewrite app_nil_r. cbn [app]. apply take_drop.
Qed.

(** ** Cursors are streams *)

#[export] Instance vec_stream : Stream Cursor := {| s_read := cu_read; s_write := vec_write; s_flush := ok tt; s_seek := cu_seek |}.
Definition slice_stream : Stream Cursor := {| s_read := cu_read; s_write := slice_write; s_flush := ok tt; s_seek := cu_seek |}.

Lemma cu_stream_seek s bs pos pos' : cu_rep s bs pos → 0 ≤ pos' ≤ Z.of_nat (length bs) → ∃ s', cu_seek (SeekStart pos') s = Ok (IoOk pos', s') ∧ cu_rep s' bs pos'.
Proof. intros Hs Hp. pose proof Hs as (_ & _ & _ & _ & H). apply (cu_seek_spec s bs pos); [done|lia]. Qed.
Lemma cu_stream_tell s bs pos : cu_rep s bs pos → ∃ s', cu_seek (SeekCurrent 0) s = Ok (IoOk pos, s') ∧ cu_rep s' bs pos.
Proof. intros Hs. pose proof Hs as (_ & _ & Hp0 & Hp1 & _). destruct (cu_seek_by s bs pos 0 Hs) as (s' & H); [lia|]. rewrite Z.add_0_r in H. by exists s'. Qed.
Lemma cu_stream_read s bs pos n : cu_rep s bs pos → 0 ≤ n → ∃ (k : nat) s', cu_read n s = Ok (IoOk (take k (drop (Z.to_nat pos) bs)), s') ∧
  cu_rep s' bs (pos + Z.of_nat k) ∧ Z.of_nat k ≤ n ∧ Z.of_nat k ≤ Z.max 0 (Z.of_nat (length bs) - pos) ∧ (0 < n → pos < Z.of_nat (length bs) → (0 < k)%nat).
Proof.
  intros Hs Hn. pose proof Hs as (_ & _ & ? & _). destruct (cu_read_spec s bs pos n Hs Hn) as (s' & H1 & H2). eexists _, s'. split; [exact H1|]. split; [exact H2|]. split_and!; lia.
Qed.
#[export] Instance vec_byte_stream : ByteStream Cursor.
Proof.
  refine {| stream_rep := cu_rep; stream_seek := cu_stream_seek; stream_tell := cu_stream_tell; stream_read := cu_stream_read |}; [by intros ??? (? & ? & ? & _)|].
  intros s bs pos l Hs Hl. pose proof Hs as (_ & _ & H0 & _ & H1). destruct (vec_write_spec s bs pos l Hs) as (s' & H2 & H3); [lia|]. exists (length l), s'. split; [exact H2|].
  rewrite take_ge by lia. rewrite overlay_splice in H3 by lia. split; [done|]. split; [lia|]. destruct l; [done|cbn; lia].
Defined.
Definition slice_byte_stream : @ByteStream Cursor slice_stream.
Proof.
  refine (@Build_ByteStream Cursor slice_stream cu_rep _ cu_stream_seek cu_stream_tell cu_stream_read _); [by intros ??? (? & ? & ? & _)|].
  intros s bs pos l Hs Hl. destruct (slice_write_spec s bs pos l Hs Hl) as (s' & H2 & H3). exists (length l), s'. split; [exact H2|].
  rewrite take_ge by lia. split; [done|]. split; [lia|]. destruct l; [done|cbn; lia].
Defined.
#[export] Instance cursor_byte_seek : ByteSeek Cursor.
Proof. split. intros s bs pos n Hs Hn. pose proof Hs as (_ & _ & _ & _ & H). apply cu_seek_by; [done|lia]. Qed.

Lemma cast_icast z : cast 64 (icast 64 z) = cast 64 z.
Proof.
  unfold icast. fold (cast 64 z). pose proof (Z.mod_pos_bound z (2 ^ 64) ltac:(lia)) as Hm. fold (cast 64 z) in Hm. case_match; [by apply cast_in|].
  unfold cast at 1. replace (cast 64 z - 2 ^ 64) with (cast 64 z + -1 * 2 ^ 64) by lia. rewrite Z.mod_add by lia. by apply Z.mod_small.
Qed.
(** A seek fails where the position would not be a 64-bit number, and nothing has moved. *)
Lemma cu_seek_current s bs pos n : cu_rep s bs pos → - 2 ^ 63 ≤ n < 2 ^ 63 → cu_seek (SeekCurrent n) s =
  if 0 <=? pos + n then Ok (IoOk (pos + n), {| cu_inner := bs; cu_pos := pos + n |}) else Ok (IoErr InvalidInput, s).
Proof.
  intros (<- & <- & H0 & H1 & H2) Hn. unfold cu_seek. run_refl. unfold u64_checked.
  assert ((if 0 <=? n then cu_pos s + cast 64 n else cu_pos s - cast 64 (icast 64 (- n))) = cu_pos s + n) as E.
  { destruct (Z.leb_spec 0 n); [by rewrite cast_in by lia|]. rewrite cast_icast, cast_in by lia. lia. }
  replace (if 0 <=? n then _ else _) with (if (0 <=? cu_pos s + n) && (cu_pos s + n <? 2 ^ 64) then Some (cu_pos s + n) else None) by (destruct (0 <=? n); by rewrite E).
  destruct (Z.leb_spec 0 (cu_pos s + n)); [|done]. rewrite (proj2 (Z.ltb_lt _ _)) by lia. done.
Qed.

(** C36: A [Cursor] over a vector is a file in memory: [write] at any position, behind the end too, puts the bytes there, fills the gap with zeros and
    leaves every other byte, the bytes are read back from where they were written, and a seek reaches every position but one before
    the start, which is an error that moves nothing. *)
Theorem cursor_file s bs pos l : cu_rep s bs pos → pos + Z.of_nat (length l) < 2 ^ 63 →
  (∃ s1 s2 s3, vec_write l s = Ok (IoOk (Z.of_nat (length l)), s1) ∧ cu_seek (SeekStart pos) s1 = Ok (IoOk pos, s2) ∧
     cu_read (Z.of_nat (length l)) s2 = Ok (IoOk l, s3) ∧ cu_rep s3 (overlay pos l bs) (pos + Z.of_nat (length l))) ∧
  (∀ i, overlay pos l bs !! i = if decide (Z.to_nat pos ≤ i < Z.to_nat pos + length l)%nat then l !! (i - Z.to_nat pos)%nat
     else if decide (length bs ≤ i < Z.to_nat pos)%nat then Some 0 else bs !! i) ∧
  (∀ n, - 2 ^ 63 ≤ n < 2 ^ 63 → cu_seek (SeekCurrent n) s =
     if 0 <=? pos + n then Ok (IoOk (pos + n), {| cu_inner := bs; cu_pos := pos + n |}) else Ok (IoErr InvalidInput, s)).
Proof.
  intros Hs Hl. pose proof Hs as (_ & _ & H0 & H1 & H2). split; [|split; [|intros n Hn; by apply cu_seek_current]].
  - destruct (vec_write_spec s bs pos l Hs Hl) as (s1 & Hw & Hs1). destruct (cu_seek_spec s1 _ _ pos Hs1) as (s2 & Hk & Hs2); [lia|].
    destruct (cu_read_spec s2 _ _ (Z.of_nat (length l)) Hs2) as (s3 & Hr & Hs3); [lia|]. exists s1, s2, s3. split; [done|]. split; [done|].
    pose proof (length_overlay pos l bs H0) as Ho. rewrite Nat2Z.id, Nat.min_l in Hr, Hs3 by lia. split; [|done]. rewrite Hr. do 3 f_equal.
    unfold overlay. rewrite app_assoc, drop_app_length' by (rewrite length_app, length_take, length_replicate; lia). apply take_app_length.
  - intros i. unfold overlay. rewrite app_assoc. assert (length (take (Z.to_nat pos) bs ++ replicate (Z.to_nat pos - length bs) 0) = Z.to_nat pos) as Hp by (rewrite length_app, length_take, length_replicate; lia).
    case_decide; [rewrite lookup_app_r, Hp by lia; by rewrite lookup_app_l by lia|]. destruct (decide (i < Z.to_nat pos)%nat).
    + rewrite lookup_app_l by lia. case_decide.
      * rewrite lookup_app_r by (rewrite length_take; lia). apply lookup_replicate_2. rewrite length_take. lia.
      * rewrite lookup_app_l by (rewrite length_take; lia). by rewrite lookup_take_lt by lia.
    + rewrite lookup_app_r, Hp by lia. rewrite lookup_app_r by lia. rewrite lookup_drop, decide_False by lia. f_equal. lia.
Qed.
(** Two bytes behind a vector of one *)
Lemma cursor_file_witness : ∃ s1 s2 s3, vec_write [8; 9] {| cu_inner := [7]; cu_pos := 3 |} = Ok (IoOk 2, s1) ∧ cu_seek (SeekStart 3) s1 = Ok (IoOk 3, s2) ∧
  cu_read 2 s2 = Ok (IoOk [8; 9], s3) ∧ cu_rep s3 [7; 0; 0; 8; 9] 5.
Proof.
  refine (proj1 (cursor_file {| cu_inner := [7]; cu_pos := 3 |} [7] 3 [8; 9] _ _)).
  - split_and!; reflexivity || (vm_compute; discriminate).
  - reflexivity.
Defined.
