(* ===== verification/BlockDev.v ===== *)
(** * The buffered block device

    [BufBlkDeviceInner] (kernel/src/drivers/block/mod.rs): the one-block buffer
    between the FAT library and a disk driver.  The drivers (virtio, SD card) are
    behind the trait [BlockDevice]; they are instances of the class of that name,
    and its laws say that a block reads back as written. *)

From S2P Require Import Prelude Io FatIo.

Definition BLOCK_SZ : Z := 512.

(** ** Drivers *)

Class BlockDevice (B : Type) := {
  read_block : Z → M B (list Z);
  write_block : Z → list Z → M B unit;
}.

(** A disk of [n] blocks: [blocks b i] is the content of block [i]. *)
Class BlockLaws (B : Type) `{BlockDevice B} := {
  nblocks : Z;
  blocks : B → Z → list Z;
  disk_ok : B → Prop;
  blocks_length b i : disk_ok b → 0 ≤ i < nblocks → Z.of_nat (length (blocks b i)) = BLOCK_SZ;
  read_block_eq b i : disk_ok b → 0 ≤ i < nblocks →
    ∃ b', read_block i b = Ok (blocks b i, b') ∧ disk_ok b' ∧ ∀ j, 0 ≤ j < nblocks → blocks b' j = blocks b j;
  write_block_eq b i l : disk_ok b → 0 ≤ i < nblocks → Z.of_nat (length l) = BLOCK_SZ →
    ∃ b', write_block i l b = Ok (tt, b') ∧ disk_ok b' ∧
      ∀ j, 0 ≤ j < nblocks → blocks b' j = if decide (j = i) then l else blocks b j;
}.

(** ** The buffer *)

Record BufBlkDeviceInner (B : Type) := {
  device : B;
  bb_buf : list Z;
  bb_pos : Z;
  block_id : Z;
  modified : bool;
}.
Arguments device {_}. Arguments bb_buf {_}. Arguments bb_pos {_}. Arguments block_id {_}. Arguments modified {_}.

Section buffer.
Context {B : Type} `{!BlockDevice B}.
Abbreviation Buf := (BufBlkDeviceInner B).

Definition with_device (s : Buf) d : Buf := {| device := d; bb_buf := bb_buf s; bb_pos := bb_pos s; block_id := block_id s; modified := modified s |}.
Definition with_buf (s : Buf) b : Buf := {| device := device s; bb_buf := b; bb_pos := bb_pos s; block_id := block_id s; modified := modified s |}.
Definition with_pos (s : Buf) p : Buf := {| device := device s; bb_buf := bb_buf s; bb_pos := p; block_id := block_id s; modified := modified s |}.
Definition with_block (s : Buf) i : Buf := {| device := device s; bb_buf := bb_buf s; bb_pos := bb_pos s; block_id := i; modified := modified s |}.
Definition with_modified (s : Buf) m : Buf := {| device := device s; bb_buf := bb_buf s; bb_pos := bb_pos s; block_id := block_id s; modified := m |}.

Definition on_device {A} (m : M B A) : M Buf A := λ s,
  match m (device s) with Ok (a, d) => Ok (a, with_device s d) | Panic f => Panic f end.

Definition fill_buf : M Buf unit :=
  s ← get; b ← on_device (read_block (block_id s)); modify (λ s, with_buf s b).
Definition flush_buf : M Buf unit :=
  s ← get; on_device (write_block (block_id s) (bb_buf s)).

(** [BufBlkDeviceInner::new] on the driver [Block::new()] returned *)
Definition bb_new (d : B) : exec Buf :=
  r ← fill_buf {| device := d; bb_buf := replicate (Z.to_nat BLOCK_SZ) 0; bb_pos := 0; block_id := 0; modified := false |};
  mret r.2.

Definition bb_flush : M Buf (ioresult unit) :=
  s ← get;
  (if modified s then flush_buf ;; modify (λ s, with_modified s false) else mret tt) ;;
  ok tt.

(** [&l[a..]]; [Read for &[u8]] and [Write for &mut [u8]] copy as much as fits. *)
Definition slice_from (l : list Z) (a : Z) : exec (list Z) :=
  if Z.of_nat (length l) <? a then Panic OutOfBounds else Ok (drop (Z.to_nat a) l).
Definition copy_len (src dst : list Z) : Z := Z.min (Z.of_nat (length src)) (Z.of_nat (length dst)).
Definition copy_into (at_ : Z) (src dst : list Z) (n : Z) : list Z := splice at_ (take (Z.to_nat n) src) dst.

Definition next_block : M Buf Z :=
  s ← get; i ← lift (uadd (block_id s) 1); modify (λ s, with_block s i) ;; mret i.

(** Whole blocks straight into the caller's buffer, from [at_] on *)
Fixpoint read_blocks (k : nat) (at_ : Z) (buf : list Z) : M Buf (list Z) :=
  match k with
  | O => mret buf
  | S k =>
      i ← next_block;
      lift (if at_ <? Z.of_nat (length buf) then Ok tt else Panic OutOfBounds) ;;
      b ← on_device (read_block i);
      lift (if at_ + BLOCK_SZ <=? Z.of_nat (length buf) then Ok tt else Panic UB) ;;
      read_blocks k (at_ + BLOCK_SZ) (splice at_ b buf)
  end.

(** [read] into [buf]: the count it reports and the buffer it leaves *)
Definition bb_read (buf : list Z) : M Buf (ioresult Z * list Z) :=
  s ← get;
  rest ← lift (slice_from (bb_buf s) (bb_pos s));
  let n := copy_len rest buf in
  let buf := copy_into 0 rest buf n in
  pos ← lift (uadd (bb_pos s) n);
  modify (λ s, with_pos s pos) ;;
  if pos =? BLOCK_SZ - 1 then
    r ← bb_flush;
    match r with
    | IoErr e => mret (IoErr e, buf)
    | IoOk _ =>
        let size := (Z.of_nat (length buf) - n) `div` BLOCK_SZ in
        buf ← read_blocks (Z.to_nat size) n buf;
        next_block ;;
        fill_buf ;;
        s ← get;
        let rest := drop (Z.to_nat (n + size * BLOCK_SZ)) buf in
        let m := copy_len (bb_buf s) rest in
        modify (λ s, with_pos s m) ;;
        mret (IoOk (Z.of_nat (length buf)), copy_into (n + size * BLOCK_SZ) (bb_buf s) buf m)
    end
  else mret (IoOk (Z.of_nat (length buf)), buf).

(** [transmute(&buf[at])] reads 512 bytes behind [at]. *)
Fixpoint write_blocks (k : nat) (at_ : Z) (buf : list Z) : M Buf unit :=
  match k with
  | O => mret tt
  | S k =>
      i ← next_block;
      lift (if at_ <? Z.of_nat (length buf) then Ok tt else Panic OutOfBounds) ;;
      lift (if at_ + BLOCK_SZ <=? Z.of_nat (length buf) then Ok tt else Panic UB) ;;
      on_device (write_block i (take (Z.to_nat BLOCK_SZ) (drop (Z.to_nat at_) buf))) ;;
      write_blocks k (at_ + BLOCK_SZ) buf
  end.

Definition bb_write (buf : list Z) : M Buf (ioresult Z) :=
  s ← get;
  rest ← lift (slice_from (bb_buf s) (bb_pos s));
  let n := copy_len buf rest in
  modify (λ s, with_buf s (copy_into (bb_pos s) buf (bb_buf s) n)) ;;
  pos ← lift (uadd (bb_pos s) n);
  modify (λ s, with_pos s pos) ;;
  (if 0 <? n then modify (λ s, with_modified s true) else mret tt) ;;
  if pos =? BLOCK_SZ - 1 then
    bb_flush ?;
    size ← lift (usub (Z.of_nat (length buf)) (n `div` BLOCK_SZ));
    write_blocks (Z.to_nat size) n buf ;;
    next_block ;;
    fill_buf ;;
    rest ← lift (slice_from buf (n + size * BLOCK_SZ));
    s ← get;
    let m := copy_len rest (bb_buf s) in
    modify (λ s, with_pos (with_buf s (copy_into 0 rest (bb_buf s) m)) m) ;;
    (if 0 <? m then modify (λ s, with_modified s true) else mret tt) ;;
    ok (Z.of_nat (length buf))
  else ok (Z.of_nat (length buf)).

(** The two arms of [seek] that are implemented share their tail. *)
Definition seek_to (i : Z) : M Buf (ioresult Z) :=
  modify (λ s, with_pos s (i `mod` BLOCK_SZ)) ;;
  let new_block_id := i `div` BLOCK_SZ in
  s ← get;
  if negb (block_id s =? new_block_id) then
    bb_flush ?;
    modify (λ s, with_block s new_block_id) ;;
    fill_buf ;;
    ok i
  else ok i.

Definition bb_seek (pos : SeekFrom) : M Buf (ioresult Z) :=
  match pos with
  | SeekStart i => seek_to i
  | SeekEnd _ => panic Explicit
  | SeekCurrent i =>
      s ← get;
      p ← lift (umul (block_id s) BLOCK_SZ);
      p ← lift (uadd p (bb_pos s));
      q ← lift (ichk 64 (icast 64 p + i));
      seek_to (cast 64 q)
  end.
End buffer.

(** ** The disk behind the buffer *)

(** Requests as fatfs issues them; [Rd] passes the caller's buffer. *)
Inductive request := ReqSeek (p : Z) | ReqRead (buf : list Z) | ReqWrite (buf : list Z) | ReqFlush.

(** The abstract disk: its bytes, and the cursor as a block and an offset in it.
    The cursor may stand behind the last byte of its block. *)
Record flat_disk := { bytes : list Z; cur_block : Z; cur_off : Z }.
Definition cursor (a : flat_disk) : Z := cur_block a * BLOCK_SZ + cur_off a.

(** What a byte array does; a reply is the value returned and the caller's buffer. *)
Definition flat_step (r : request) (a : flat_disk) : (ioresult Z * list Z) * flat_disk :=
  match r with
  | ReqSeek p => ((IoOk p, []), {| bytes := bytes a; cur_block := p `div` BLOCK_SZ; cur_off := p `mod` BLOCK_SZ |})
  | ReqRead buf =>
      ((IoOk (Z.of_nat (length buf)), take (length buf) (drop (Z.to_nat (cursor a)) (bytes a))),
       {| bytes := bytes a; cur_block := cur_block a; cur_off := cur_off a + Z.of_nat (length buf) |})
  | ReqWrite buf =>
      ((IoOk (Z.of_nat (length buf)), []),
       {| bytes := splice (cursor a) buf (bytes a); cur_block := cur_block a; cur_off := cur_off a + Z.of_nat (length buf) |})
  | ReqFlush => ((IoOk 0, []), a)
  end.

(** The accesses the buffer gets right: inside one block, and not up to the byte
    before its last one. *)
Definition fits (a : flat_disk) (l : list Z) : bool :=
  (cur_off a + Z.of_nat (length l) <=? BLOCK_SZ) && negb (cur_off a + Z.of_nat (length l) =? BLOCK_SZ - 1).
Definition admissible (r : request) (a : flat_disk) : bool :=
  match r with
  | ReqSeek p => (0 <=? p) && (p <? Z.of_nat (length (bytes a)))
  | ReqRead buf | ReqWrite buf => fits a buf
  | ReqFlush => true
  end.

Fixpoint flat_run (rs : list request) (a : flat_disk) : option (list (ioresult Z * list Z) * flat_disk) :=
  match rs with
  | [] => Some ([], a)
  | r :: rs =>
      if admissible r a then
        let '(o, a) := flat_step r a in '(os, a) ← flat_run rs a; Some (o :: os, a)
      else None
  end.

Section refinement.
Context {B : Type} `{!BlockDevice B, !BlockLaws B}.
Abbreviation Buf := (BufBlkDeviceInner B).

Definition bb_step (r : request) : M Buf (ioresult Z * list Z) :=
  match r with
  | ReqSeek p => v ← bb_seek (SeekStart p); mret (v, [])
  | ReqRead buf => bb_read buf
  | ReqWrite buf => v ← bb_write buf; mret (v, [])
  | ReqFlush => v ← bb_flush; mret (match v with IoOk _ => IoOk 0 | IoErr e => IoErr e end, [])
  end.
Fixpoint bb_run (rs : list request) : M Buf (list (ioresult Z * list Z)) :=
  match rs with
  | [] => mret []
  | r :: rs => o ← bb_step r; os ← bb_run rs; mret (o :: os)
  end.

Definition block_of (bs : list Z) (i : Z) : list Z :=
  take (Z.to_nat BLOCK_SZ) (drop (Z.to_nat (i * BLOCK_SZ)) bs).

(** The buffer stands for its block, the driver for all others. *)
Record buf_rep (s : Buf) (a : flat_disk) : Prop := {
  br_disk : disk_ok (device s);
  br_size : nblocks * BLOCK_SZ < 2 ^ 64;
  br_len : Z.of_nat (length (bytes a)) = nblocks * BLOCK_SZ;
  br_buf : Z.of_nat (length (bb_buf s)) = BLOCK_SZ;
  br_block : cur_block a = block_id s ∧ 0 ≤ block_id s < nblocks;
  br_off : cur_off a = bb_pos s ∧ 0 ≤ bb_pos s ≤ BLOCK_SZ;
  br_data : ∀ i, 0 ≤ i < nblocks →
    block_of (bytes a) i = if decide (i = block_id s) then bb_buf s else blocks (device s) i;
  br_clean : modified s = false → blocks (device s) (block_id s) = bb_buf s;
}.

Lemma length_block_of bs i :
  0 ≤ i → (i + 1) * BLOCK_SZ ≤ Z.of_nat (length bs) → Z.of_nat (length (block_of bs i)) = BLOCK_SZ.
Proof. intros. unfold block_of, BLOCK_SZ in *. rewrite length_take, length_drop. lia. Qed.

(** Bytes inside one block of the disk are bytes of that block. *)
Lemma block_bytes bs i o n :
  0 ≤ i → 0 ≤ o → 0 ≤ n → o + n ≤ BLOCK_SZ →
  take (Z.to_nat n) (drop (Z.to_nat (i * BLOCK_SZ + o)) bs) = take (Z.to_nat n) (drop (Z.to_nat o) (block_of bs i)).
Proof.
  intros. unfold block_of, BLOCK_SZ in *. rewrite skipn_firstn_comm, firstn_firstn, Nat.min_l by lia.
  rewrite drop_drop. do 2 f_equal. lia.
Qed.

Lemma block_of_splice bs i j o l :
  0 ≤ i → 0 ≤ j → 0 ≤ o → o + Z.of_nat (length l) ≤ BLOCK_SZ → (i + 1) * BLOCK_SZ ≤ Z.of_nat (length bs) →
  block_of (splice (i * BLOCK_SZ + o) l bs) j = if decide (j = i) then splice o l (block_of bs i) else block_of bs j.
Proof.
  intros Hi Hj Ho Hl Hb. pose proof (length_block_of bs i Hi Hb) as Hlb.
  apply list_eq. intros k. unfold block_of at 1. unfold BLOCK_SZ in *.
  destruct (decide (k < 512)%nat) as [Hk|Hk].
  - rewrite lookup_take_lt, lookup_drop, splice_lookup by lia.
    destruct (decide (j = i)) as [->|Hji]; [rewrite splice_lookup by lia|]; unfold block_of, BLOCK_SZ;
      rewrite lookup_take_lt, lookup_drop by lia; repeat case_decide; try lia; try done. f_equal; lia.
  - rewrite lookup_take_ge by lia. symmetry. apply lookup_ge_None_2.
    destruct (decide (j = i)); [rewrite length_splice by lia; lia|]. unfold block_of, BLOCK_SZ. rewrite length_take. lia.
Qed.

Ltac unstate := unfold mbind, M_bind, get, modify, lift, mret, M_ret, on_device.

Lemma fill_buf_eq (s : Buf) : disk_ok (device s) → 0 ≤ block_id s < nblocks →
  ∃ d, fill_buf s = Ok (tt, with_buf (with_device s d) (blocks (device s) (block_id s))) ∧ disk_ok d ∧
    ∀ j, 0 ≤ j < nblocks → blocks d j = blocks (device s) j.
Proof.
  intros Hd Hi. destruct (read_block_eq (device s) (block_id s) Hd Hi) as (d & Hr & Hd' & Hj).
  exists d. unfold fill_buf. unstate. by rewrite Hr.
Qed.

(** [flush] makes the driver hold what the buffer holds. *)
Lemma bb_flush_spec s a : buf_rep s a →
  ∃ s', bb_flush s = Ok (IoOk tt, s') ∧ buf_rep s' a ∧ modified s' = false ∧ bb_pos s' = bb_pos s ∧
    block_id s' = block_id s ∧ ∀ i, 0 ≤ i < nblocks → blocks (device s') i = block_of (bytes a) i.
Proof.
  intros [Hd Hsz Hl Hb [Hc Hi] Ho Hdata Hcl]. unfold bb_flush. unstate.
  destruct (modified s) eqn:Em.
  - destruct (write_block_eq (device s) (block_id s) (bb_buf s) Hd Hi Hb) as (d & Hw & Hd' & Hbl).
    unfold flush_buf. unstate. rewrite Hw. eexists. split; [done|].
    assert (∀ i, 0 ≤ i < nblocks → blocks d i = block_of (bytes a) i) as Hall.
    { intros i Hir. rewrite Hbl, Hdata by done. by case_decide. }
    split; [|done]. split; cbn; try done.
    + intros i Hir. rewrite <- Hall, Hbl by done. by case_decide.
    + intros _. rewrite Hbl by done. by rewrite decide_True.
  - eexists. split; [done|]. specialize (Hcl eq_refl). split; [by split|]. split_and!; try done.
    intros i Hir. rewrite Hdata by done. case_decide; [by subst|done].
Qed.

Lemma seek_spec s a p : buf_rep s a → 0 ≤ p < Z.of_nat (length (bytes a)) →
  ∃ s', bb_seek (SeekStart p) s = Ok (IoOk p, s') ∧ buf_rep s' (flat_step (ReqSeek p) a).2.
Proof.
  intros Ha Hp. pose proof (br_len _ _ Ha) as Hl. cbn [bb_seek flat_step snd]. unfold seek_to.
  assert (0 ≤ p `div` BLOCK_SZ < nblocks) as Hq.
  { split; [apply Z.div_pos; unfold BLOCK_SZ; lia|apply Z.div_lt_upper_bound; unfold BLOCK_SZ in *; lia]. }
  pose proof (Z.mod_pos_bound p BLOCK_SZ ltac:(done)) as Hm.
  set (s1 := with_pos s (p `mod` BLOCK_SZ)). set (a1 := {| bytes := bytes a; cur_block := cur_block a; cur_off := p `mod` BLOCK_SZ |}).
  assert (buf_rep s1 a1) as H1 by (destruct Ha; split; cbn; try done; split; [done|lia]).
  run_refl. fold s1. run_refl. destruct (Z.eqb_spec (block_id s1) (p `div` BLOCK_SZ)) as [He|He]; cbn [negb].
  - exists s1. split; [done|]. cbn in He. destruct H1; split; cbn; try done. split; [done|lia].
  - destruct (bb_flush_spec s1 a1 H1) as (s2 & Hf & [Hd Hsz _ Hb _ Ho _ _] & Hcl & Hpo & _ & Hall).
    rewrite (try_ok _ _ _ _ _ Hf). run_refl.
    edestruct (fill_buf_eq (with_block s2 (p `div` BLOCK_SZ)) Hd Hq) as (d & Hfill & Hd' & Hj).
    run Hfill. eexists. split; [done|]. cbn in Hj.
    split; cbn; try done.
    + by apply blocks_length.
    + intros i Hi. rewrite Hj, <- Hall by done. case_decide; [by subst|done].
    + intros _. by apply Hj.
Qed.

Lemma slice_from_eq l a : a ≤ Z.of_nat (length l) → slice_from l a = Ok (drop (Z.to_nat a) l).
Proof. intros. unfold slice_from. by replace (Z.of_nat (length l) <? a) with false by lia. Qed.

Lemma fits_spec a l : fits a l = true ↔
  cur_off a + Z.of_nat (length l) ≤ BLOCK_SZ ∧ cur_off a + Z.of_nat (length l) ≠ BLOCK_SZ - 1.
Proof. unfold fits. lia. Qed.

Lemma read_spec s a buf : buf_rep s a → fits a buf = true →
  ∃ s', bb_read buf s = Ok ((flat_step (ReqRead buf) a).1, s') ∧ buf_rep s' (flat_step (ReqRead buf) a).2.
Proof.
  intros Ha [Hf1 Hf2]%fits_spec. destruct Ha as [Hd Hsz Hl Hb [Hc Hi] [Ho Hp] Hdata Hcl] eqn:EHa. clear EHa.
  assert (copy_len (drop (Z.to_nat (bb_pos s)) (bb_buf s)) buf = Z.of_nat (length buf)) as Hn.
  { unfold copy_len. rewrite length_drop. lia. }
  unfold bb_read. run_refl. rewrite slice_from_eq by lia. run_refl. rewrite Hn.
  rewrite uadd_in by (unfold BLOCK_SZ in *; lia). run_refl. run_refl.
  replace (bb_pos s + Z.of_nat (length buf) =? BLOCK_SZ - 1) with false by lia.
  set (l := drop (Z.to_nat (bb_pos s)) (bb_buf s)) in *.
  assert (copy_into 0 l buf (Z.of_nat (length buf)) = take (length buf) l) as Hcopy.
  { unfold copy_into, splice. rewrite Nat2Z.id. cbn. rewrite drop_ge, app_nil_r; [done|].
    rewrite length_take. unfold copy_len in Hn. lia. }
  rewrite Hcopy. eexists. split.
  - cbn [flat_step fst]. unfold cursor. rewrite Hc, Ho.
    pose proof (block_bytes (bytes a) (block_id s) (bb_pos s) (Z.of_nat (length buf))) as Hbb.
    rewrite Nat2Z.id, Hdata, decide_True in Hbb by lia. rewrite Hbb by lia.
    replace (length (take (length buf) l)) with (length buf); [done|].
    rewrite length_take. unfold copy_len in Hn. lia.
  - split; cbn; try done. split; [by rewrite Ho|lia].
Qed.

Lemma write_spec s a buf : buf_rep s a → fits a buf = true →
  ∃ s', bb_write buf s = Ok ((flat_step (ReqWrite buf) a).1.1, s') ∧ buf_rep s' (flat_step (ReqWrite buf) a).2.
Proof.
  intros [Hd Hsz Hl Hb [Hc Hi] [Ho Hp] Hdata Hcl] [Hf1 Hf2]%fits_spec.
  assert (copy_len buf (drop (Z.to_nat (bb_pos s)) (bb_buf s)) = Z.of_nat (length buf)) as Hn.
  { unfold copy_len. rewrite length_drop. lia. }
  unfold bb_write. run_refl. rewrite slice_from_eq by lia. run_refl. rewrite Hn. run_refl.
  rewrite uadd_in by (unfold BLOCK_SZ in *; lia). run_refl. run_refl.
  replace (bb_pos s + Z.of_nat (length buf) =? BLOCK_SZ - 1) with false by lia.
  unfold copy_into. rewrite Nat2Z.id, (take_ge buf) by lia.
  set (s1 := with_pos _ _).
  exists (if 0 <? Z.of_nat (length buf) then with_modified s1 true else s1). split.
  { by destruct (0 <? Z.of_nat (length buf)). }
  assert (∀ m, (m = false → buf = [] ∧ modified s = false) → buf_rep (with_modified s1 m) (flat_step (ReqWrite buf) a).2) as Hrep.
  { intros m Hm. unfold s1. split; cbn; try done.
    - rewrite length_splice; [done|unfold cursor, BLOCK_SZ in *; lia|unfold cursor, BLOCK_SZ in *; nia].
    - rewrite length_splice by lia. done.
    - split; [by rewrite Ho|lia].
    - intros i Hir. unfold cursor. rewrite Hc, Ho, block_of_splice by (unfold BLOCK_SZ in *; lia).
      case_decide; [|rewrite Hdata by done; by rewrite decide_False].
      rewrite Hdata by done. by rewrite decide_True.
    - intros [-> Hm']%Hm. rewrite splice_nil. by apply Hcl. }
  destruct (Z.ltb_spec 0 (Z.of_nat (length buf))); [by apply Hrep|].
  assert (buf = []) as Hbuf by (destruct buf; [done|cbn in *; lia]).
  replace s1 with (with_modified s1 (modified s)) by done. by apply Hrep.
Qed.

Lemma step_spec s a r : buf_rep s a → admissible r a = true →
  ∃ s', bb_step r s = Ok ((flat_step r a).1, s') ∧ buf_rep s' (flat_step r a).2.
Proof.
  intros Ha Hr. destruct r as [p|buf|buf|]; cbn [admissible] in Hr; unfold bb_step.
  - destruct (seek_spec s a p Ha) as (s' & H & H'); [lia|]. run H. by exists s'.
  - by apply read_spec.
  - destruct (write_spec s a buf Ha Hr) as (s' & H & H'). run H. by exists s'.
  - destruct (bb_flush_spec s a Ha) as (s' & H & H' & _). run H. by exists s'.
Qed.

Lemma buf_run_at (rs : list request) : ∀ (s : Buf) (a a' : flat_disk) os,
  buf_rep s a → flat_run rs a = Some (os, a') →
  ∃ s' s'', bb_run rs s = Ok (os, s') ∧ buf_rep s' a' ∧
    bb_flush s' = Ok (IoOk tt, s'') ∧ ∀ i, 0 ≤ i < nblocks → blocks (device s'') i = block_of (bytes a') i.
Proof.
  induction rs as [|r rs IH]; intros s a a' os Ha Hrun; cbn in Hrun.
  - simplify_eq. destruct (bb_flush_spec s a' Ha) as (s2 & H & _ & _ & _ & _ & Hall). by exists s, s2.
  - destruct (admissible r a) eqn:Hr; [|done].
    destruct (step_spec s a r Ha Hr) as (s1 & H1 & Ha1).
    destruct (flat_step r a) as [o a1] eqn:Estep. cbn in Hrun, H1, Ha1.
    apply bind_Some in Hrun as ([os1 a2] & Hrun & ?). simplify_eq.
    destruct (IH s1 a1 a' os1 Ha1 Hrun) as (s' & s'' & H2 & H3 & H4).
    exists s', s''. split; [|done]. cbn [bb_run]. run H1. by run H2.
Qed.

(** C19: The buffered device behaves as the array of bytes of its disk for every
    sequence of seeks, flushes, and reads and writes that stay inside a block and
    do not end one byte before its end; a final flush leaves all of it on the disk. *)
Theorem block_device_refines (rs : list request) : ∀ (s : Buf) (a a' : flat_disk) os,
  buf_rep s a → flat_run rs a = Some (os, a') →
  ∃ s' s'', bb_run rs s = Ok (os, s') ∧ buf_rep s' a' ∧
    bb_flush s' = Ok (IoOk tt, s'') ∧ ∀ i, 0 ≤ i < nblocks → blocks (device s'') i = block_of (bytes a') i.
Proof. apply buf_run_at. Qed.

(** Accesses that do not fit: [rest] is what is left of the block *)
Section misfit.
Variables (s : Buf) (a : flat_disk) (buf : list Z).
Hypothesis Ha : buf_rep s a.
#[local] Abbreviation len := (Z.of_nat (length buf)).
#[local] Abbreviation rest := (drop (Z.to_nat (cur_off a)) (bb_buf s)).

Lemma misfit_facts : cur_off a = bb_pos s ∧ 0 ≤ bb_pos s ≤ BLOCK_SZ ∧ Z.of_nat (length (bb_buf s)) = BLOCK_SZ ∧
  Z.of_nat (length rest) = BLOCK_SZ - bb_pos s ∧ 0 ≤ block_id s < nblocks ∧ nblocks * BLOCK_SZ < 2 ^ 64 ∧ cur_block a = block_id s.
Proof. destruct Ha as [? ? ? ? [? ?] [? ?] _ _]. rewrite length_drop. split_and!; lia. Qed.

Lemma read_cross : BLOCK_SZ < cur_off a + len →
  ∃ s', bb_read buf s = Ok ((IoOk len, rest ++ drop (length rest) buf), s').
Proof.
  destruct misfit_facts as (Ho & Hp & Hb & Hr & _). intros Hlong. unfold bb_read. run_refl.
  rewrite slice_from_eq by lia. run_refl. rewrite <- Ho.
  assert (copy_len rest buf = BLOCK_SZ - bb_pos s) as -> by (unfold copy_len; lia).
  rewrite uadd_in by (unfold BLOCK_SZ in *; lia). run_refl. run_refl.
  replace (cur_off a + _ =? BLOCK_SZ - 1) with false by lia. eexists.
  unfold copy_into, splice. rewrite (take_ge rest) by lia.
  change (Z.to_nat 0) with 0%nat. rewrite take_0, Nat.add_0_l, app_nil_l.
  replace (Z.of_nat (length (rest ++ _))) with len; [done|]. rewrite length_app, (length_drop buf). lia.
Qed.

Lemma write_cross : BLOCK_SZ < cur_off a + len →
  ∃ s', bb_write buf s = Ok (IoOk len, s') ∧ block_id s' = block_id s ∧
    bb_buf s' = take (Z.to_nat (cur_off a)) (bb_buf s) ++ take (length rest) buf.
Proof.
  destruct misfit_facts as (Ho & Hp & Hb & Hr & _). intros Hlong. unfold bb_write. run_refl.
  rewrite slice_from_eq by lia. run_refl. rewrite <- Ho.
  assert (copy_len buf rest = BLOCK_SZ - bb_pos s) as -> by (unfold copy_len; lia). run_refl.
  rewrite uadd_in by (unfold BLOCK_SZ in *; lia). run_refl. run_refl.
  replace (cur_off a + _ =? BLOCK_SZ - 1) with false by lia.
  destruct (0 <? BLOCK_SZ - bb_pos s); eexists; (split_and!; [done|done|]); cbn; unfold copy_into, splice;
    rewrite (drop_ge (bb_buf s)), app_nil_r by (rewrite length_take; lia); rewrite Ho in Hr |- *; do 2 f_equal; lia.
Qed.

Lemma write_end_panics : cur_off a + len = BLOCK_SZ - 1 → buf ≠ [] → bb_write buf s = Panic OutOfBounds.
Proof.
  destruct misfit_facts as (Ho & Hp & Hb & Hr & Hi & Hsz & _). intros Hend Hne.
  assert (0 < len) as Hpos by (destruct buf; [done|cbn; lia]).
  unfold bb_write. run_refl. rewrite slice_from_eq by lia. run_refl. rewrite <- Ho.
  assert (copy_len buf rest = len) as -> by (unfold copy_len; lia). run_refl.
  rewrite uadd_in by (unfold BLOCK_SZ in *; lia). run_refl. run_refl.
  replace (0 <? len) with true by lia. run_refl. replace (cur_off a + len =? BLOCK_SZ - 1) with true by lia.
  unfold copy_into. rewrite Nat2Z.id, (take_ge buf) by lia. set (s1 := with_modified _ _).
  assert (∃ s2, bb_flush s1 = Ok (IoOk tt, s2) ∧ block_id s2 = block_id s) as (s2 & Hfl & Hid).
  { destruct (write_block_eq (device s) (block_id s) (splice (bb_pos s) buf (bb_buf s))) as (d & Hw & _);
      [by destruct Ha|done|rewrite length_splice; lia|].
    unfold bb_flush, flush_buf, s1. unstate. cbn [modified with_modified block_id bb_buf device with_pos with_buf bb_pos].
    rewrite Hw. by eexists. }
  rewrite (try_ok _ _ _ _ _ Hfl), Z.div_small, usub_in by (unfold BLOCK_SZ in *; lia). run_refl.
  rewrite Z.sub_0_r, Nat2Z.id. destruct (length buf) as [|k] eqn:Ek; [lia|].
  apply M_bind_Panic. cbn [write_blocks]. unfold next_block. unstate. rewrite Hid, uadd_in, Ek by (unfold BLOCK_SZ in *; lia).
  by rewrite Z.ltb_irrefl.
Qed.

Lemma read_end_skips : cur_off a + len = BLOCK_SZ - 1 → cur_block a + 1 < nblocks →
  ∃ s', bb_read buf s = Ok ((IoOk len, take (length buf) rest), s') ∧ block_id s' = cur_block a + 1 ∧ bb_pos s' = 0.
Proof.
  destruct misfit_facts as (Ho & Hp & Hb & Hr & Hi & Hsz & Hc). intros Hend Hnb. rewrite Hc in *.
  unfold bb_read. run_refl. rewrite slice_from_eq by lia. run_refl. rewrite <- Ho.
  assert (copy_len rest buf = len) as -> by (unfold copy_len; lia).
  rewrite uadd_in by (unfold BLOCK_SZ in *; lia). run_refl. run_refl.
  replace (cur_off a + len =? BLOCK_SZ - 1) with true by lia. set (s1 := with_pos _ _).
  set (a1 := {| bytes := bytes a; cur_block := cur_block a; cur_off := cur_off a + len |}).
  assert (buf_rep s1 a1) as H1 by (destruct Ha as [? ? ? ? [? ?] [? ?] ? ?]; unfold s1, a1; split; cbn; try done; split; [done|lia]).
  destruct (bb_flush_spec s1 a1 H1) as (s2 & Hf & H2 & _ & _ & Hid & _). run Hf. cbn [block_id with_pos s1] in Hid.
  assert (copy_into 0 rest buf len = take (length buf) rest) as ->.
  { unfold copy_into, splice. rewrite Nat2Z.id. cbn. rewrite (drop_ge buf), app_nil_r; [done|]. rewrite length_take. lia. }
  assert (length (take (length buf) rest) = length buf) as Hlt by (rewrite length_take; lia).
  rewrite Hlt, Z.sub_diag, Z.div_0_l by done. cbn [read_blocks Z.to_nat]. run_refl.
  unfold next_block at 1. erewrite (M_bind_eq _ _ s2);
    [|unstate; rewrite Hid, uadd_in by (unfold BLOCK_SZ in *; lia); done].
  edestruct fill_buf_eq as (d & Hfill & _); [| |run Hfill]; [apply (br_disk _ _ H2)|cbn; lia|].
  run_refl. run_refl. rewrite Z.mul_0_l, Z.add_0_r, Nat2Z.id, (drop_ge (take _ _)) by lia.
  unfold copy_len. rewrite Z.min_r by (cbn; lia). unfold copy_into. rewrite splice_nil, Hlt.
  eexists. split; done.
Qed.
End misfit.

(** Outside those accesses the buffered device loses data without an error.  A
    read or write that leaves the block is reported as complete, but only the
    bytes up to the end of the block are transferred; a read that ends one byte
    before the end of the block goes on at the start of the next one, and a write
    that ends there panics. *)
Theorem block_access_limits (s : Buf) (a : flat_disk) (buf : list Z) :
  buf_rep s a →
  let len := Z.of_nat (length buf) in
  let rest := drop (Z.to_nat (cur_off a)) (bb_buf s) in
  (BLOCK_SZ < cur_off a + len →
     (∃ s', bb_read buf s = Ok ((IoOk len, rest ++ drop (length rest) buf), s')) ∧
     (∃ s', bb_write buf s = Ok (IoOk len, s') ∧ block_id s' = block_id s ∧
        bb_buf s' = take (Z.to_nat (cur_off a)) (bb_buf s) ++ take (length rest) buf)) ∧
  (cur_off a + len = BLOCK_SZ - 1 → buf ≠ [] →
     bb_write buf s = Panic OutOfBounds ∧
     (cur_block a + 1 < nblocks →
        ∃ s', bb_read buf s = Ok ((IoOk len, take (length buf) rest), s') ∧ block_id s' = cur_block a + 1 ∧ bb_pos s' = 0)).
Proof.
  intros Ha len rest. split; [intros H|intros H Hne]; split.
  - by apply read_cross.
  - by apply write_cross.
  - by apply write_end_panics with a.
  - by apply read_end_skips.
Qed.
End refinement.

(** ** A disk in memory *)

(** Two blocks, the driver of the examples *)
Record ramdisk := { ram : list (list Z) }.
#[export] Instance ramdisk_device : BlockDevice ramdisk := {|
  read_block i d := match ram d !! Z.to_nat i with Some l => Ok (l, d) | None => Panic Explicit end;
  write_block i l d := if bool_decide (Z.to_nat i < length (ram d))%nat then Ok (tt, {| ram := <[Z.to_nat i := l]> (ram d) |}) else Panic Explicit |}.
#[export] Instance ramdisk_laws : BlockLaws ramdisk.
Proof.
  refine {| nblocks := 2; blocks d i := default [] (ram d !! Z.to_nat i);
            disk_ok d := length (ram d) = 2%nat ∧ Forall (λ l, Z.of_nat (length l) = BLOCK_SZ) (ram d) |}.
  - intros [l] i [Hl Hf] Hi. cbn in *. destruct (lookup_lt_is_Some_2 l (Z.to_nat i)) as [x Hx]; [lia|].
    rewrite Hx. by apply (Forall_lookup_1 _ _ _ _ Hf Hx).
  - intros [l] i [Hl Hf] Hi. cbn in *. destruct (lookup_lt_is_Some_2 l (Z.to_nat i)) as [x Hx]; [lia|].
    rewrite Hx. by exists {| ram := l |}.
  - intros [l] i b [Hl Hf] Hi Hb. cbn in *. rewrite bool_decide_true by lia. eexists. split; [done|]. cbn. split.
    + split; [by rewrite length_insert|by apply Forall_insert].
    + intros j Hj. case_decide as Hji; [subst; by rewrite list_lookup_insert_eq by lia|].
      rewrite list_lookup_insert_ne by lia. done.
Defined.

Definition disk0 : ramdisk := {| ram := [replicate 512 1; replicate 512 2] |}.
Definition buf0 : BufBlkDeviceInner ramdisk :=
  {| device := disk0; bb_buf := replicate 512 1; bb_pos := 0; block_id := 0; modified := false |}.
Definition flat0 : flat_disk := {| bytes := replicate 512 1 ++ replicate 512 2; cur_block := 0; cur_off := 0 |}.

Example buf0_new : bb_new disk0 = Ok buf0.
Proof. reflexivity. Qed.

Lemma buf0_rep : buf_rep buf0 flat0.
Proof.
  split; try (cbn; lia); try done.
  - split; [done|]. by repeat constructor.
  - intros i Hi. change nblocks with 2 in Hi. assert (i = 0 ∨ i = 1) as [-> | ->] by lia; reflexivity.
Qed.

Lemma block_device_refines_witness : ∃ s' s'',
  bb_run [ReqSeek 600; ReqWrite [7; 8]; ReqSeek 600; ReqRead [0; 0]] buf0 =
    Ok ([(IoOk 600, []); (IoOk 2, []); (IoOk 600, []); (IoOk 2, [7; 8])], s') ∧
  bb_flush s' = Ok (IoOk tt, s'') ∧
  blocks (device s'') 1 = replicate 88 2 ++ [7; 8] ++ replicate 422 2.
Proof.
  destruct (block_device_refines [ReqSeek 600; ReqWrite [7; 8]; ReqSeek 600; ReqRead [0; 0]] buf0 flat0
    {| bytes := replicate 512 1 ++ replicate 88 2 ++ [7; 8] ++ replicate 422 2; cur_block := 1; cur_off := 90 |} _ buf0_rep eq_refl)
    as (s' & s'' & H1 & _ & H2 & H3).
  exists s', s''. split; [exact H1|]. split; [exact H2|]. rewrite H3; [reflexivity|done].
Defined.

Lemma block_access_limits_witness : ∃ s', bb_read (replicate 600 0) buf0 = Ok ((IoOk 600, replicate 512 1 ++ replicate 88 0), s').
Proof. apply (block_access_limits buf0 flat0 (replicate 600 0) buf0_rep). reflexivity. Defined.
