(* ===== verification/SdCard.v ===== *)
(** * The SD card driver

    [SDCard] (kernel/src/drivers/block/sdcard.rs): commands and data blocks of an
    SD card in SPI mode.  The driver is generic in the bus, the class [SpiBus] (the
    trait [SPI] with the pin functions of the k210-soc crate); this file has the
    driver's operations.  [SdProtocol] says how a card answers and proves them. *)

From S2P Require Import Prelude Io FatIo BlockDev.

(** ** The bus *)

Inductive work_mode := MODE0 | MODE1 | MODE2 | MODE3.
Inductive frame_format := FF_STANDARD | FF_DUAL | FF_QUAD | FF_OCTAL.
Inductive aitm := AITM_STANDARD | ADDR_STANDARD | AS_FRAME_FORMAT.
Inductive tmod := TRANS_RECV | TRANS | RECV | EEROM.

(** The arguments of [SPI::configure] *)
Record spi_config := {
  cf_work_mode : work_mode;
  cf_frame_format : frame_format;
  data_bit_length : Z;
  cf_endian : Z;
  instruction_length : Z;
  address_length : Z;
  wait_cycles : Z;
  cf_aitm : aitm;
  cf_tmod : tmod;
}.

(** Pin functions of fpioa.rs the driver connects *)
Inductive fpioa_function := SPI0_SCLK | SPI0_D0 | SPI0_D1 | GPIOHS (n : Z).
Inductive fpioa_io := IO_SPI0_MISO | IO_SPI0_SCLK | IO_SPI0_MOSI | IO_SPI0_CS0.
Inductive fpioa_pull := PULL_NONE | PULL_DOWN | PULL_UP.

Class SpiBus (S : Type) := {
  spi_configure : spi_config → M S unit;
  spi_set_clk_rate : Z → M S Z;
  spi_recv_data : Z → Z → M S (list Z);
  spi_send_data : Z → list Z → M S unit;
  gpiohs_set_pin : Z → bool → M S unit;
  gpiohs_set_output : Z → M S unit;
  fpioa_set_function : fpioa_io → fpioa_function → M S unit;
  fpioa_set_io_pull : fpioa_io → fpioa_pull → M S unit;
}.

(** ** Data of the driver *)

Definition SD_START_DATA_SINGLE_BLOCK_READ : Z := 0xFE.
Definition SD_START_DATA_SINGLE_BLOCK_WRITE : Z := 0xFE.
Definition SD_START_DATA_MULTIPLE_BLOCK_WRITE : Z := 0xFC.
Definition SEC_LEN : Z := 512.

Inductive CMD :=
  | CMD0 | CMD8 | CMD9 | CMD10 | CMD12 | CMD16 | CMD17 | CMD18 | ACMD23 | CMD24 | CMD25 | ACMD41 | CMD55 | CMD58 | CMD59.

(** [cmd as u8] *)
Definition cmd_code (c : CMD) : Z :=
  match c with
  | CMD0 => 0 | CMD8 => 8 | CMD9 => 9 | CMD10 => 10 | CMD12 => 12 | CMD16 => 16 | CMD17 => 17 | CMD18 => 18
  | ACMD23 => 23 | CMD24 => 24 | CMD25 => 25 | ACMD41 => 41 | CMD55 => 55 | CMD58 => 58 | CMD59 => 59
  end.

Inductive InitError :=
  | CMDFailed (c : CMD) (response : Z)
  | CardCapacityStatusNotSet (ocr : list Z)
  | CannotGetCardInfo.

Record SDCardCSD := {
  CSDStruct : Z; SysSpecVersion : Z; csd_Reserved1 : Z; TAAC : Z; NSAC : Z; MaxBusClkFrec : Z;
  CardComdClasses : Z; RdBlockLen : Z; PartBlockRead : Z; WrBlockMisalign : Z; RdBlockMisalign : Z;
  DSRImpl : Z; csd_Reserved2 : Z; DeviceSize : Z; EraseGrSize : Z; EraseGrMul : Z; WrProtectGrSize : Z;
  WrProtectGrEnable : Z; ManDeflECC : Z; WrSpeedFact : Z; MaxWrBlockLen : Z; WriteBlockPaPartial : Z;
  csd_Reserved3 : Z; ContentProtectAppli : Z; FileFormatGroup : Z; CopyFlag : Z; PermWrProtect : Z;
  TempWrProtect : Z; FileFormat : Z; csd_ECC : Z; CSD_CRC : Z; csd_Reserved4 : Z;
}.

Record SDCardCID := {
  ManufacturerID : Z; OEM_AppliID : Z; ProdName1 : Z; ProdName2 : Z; ProdRev : Z; ProdSN : Z;
  cid_Reserved1 : Z; ManufactDate : Z; CID_CRC : Z; cid_Reserved2 : Z;
}.

Record SDCardInfo := { SD_csd : SDCardCSD; SD_cid : SDCardCID; CardCapacity : Z; CardBlockSize : Z }.

(** [(b & mask) >> n] on a byte *)
Definition bits_of (b mask n : Z) : Z := Z.shiftr (Z.land b mask) n.

(** The struct that [get_csdregister] builds from the 18 bytes it read *)
Definition csd_decode (t : list Z) : SDCardCSD :=
  let b i := nth i t 0 in
  {| CSDStruct := bits_of (b 0%nat) 0xC0 6;
     SysSpecVersion := bits_of (b 0%nat) 0x3C 2;
     csd_Reserved1 := Z.land (b 0%nat) 0x03;
     TAAC := b 1%nat;
     NSAC := b 2%nat;
     MaxBusClkFrec := b 3%nat;
     CardComdClasses := Z.lor (shl 16 (b 4%nat) 4) (bits_of (b 5%nat) 0xF0 4);
     RdBlockLen := Z.land (b 5%nat) 0x0F;
     PartBlockRead := bits_of (b 6%nat) 0x80 7;
     WrBlockMisalign := bits_of (b 6%nat) 0x40 6;
     RdBlockMisalign := bits_of (b 6%nat) 0x20 5;
     DSRImpl := bits_of (b 6%nat) 0x10 4;
     csd_Reserved2 := 0;
     DeviceSize := Z.lor (Z.lor (shl 32 (Z.land (b 7%nat) 0x3F) 16) (shl 32 (b 8%nat) 8)) (b 9%nat);
     EraseGrSize := bits_of (b 10%nat) 0x40 6;
     EraseGrMul := Z.lor (shl 8 (Z.land (b 10%nat) 0x3F) 1) (bits_of (b 11%nat) 0x80 7);
     WrProtectGrSize := Z.land (b 11%nat) 0x7F;
     WrProtectGrEnable := bits_of (b 12%nat) 0x80 7;
     ManDeflECC := bits_of (b 12%nat) 0x60 5;
     WrSpeedFact := bits_of (b 12%nat) 0x1C 2;
     MaxWrBlockLen := Z.lor (shl 8 (Z.land (b 12%nat) 0x03) 2) (bits_of (b 13%nat) 0xC0 6);
     WriteBlockPaPartial := bits_of (b 13%nat) 0x20 5;
     csd_Reserved3 := 0;
     ContentProtectAppli := Z.land (b 13%nat) 0x01;
     FileFormatGroup := bits_of (b 14%nat) 0x80 7;
     CopyFlag := bits_of (b 14%nat) 0x40 6;
     PermWrProtect := bits_of (b 14%nat) 0x20 5;
     TempWrProtect := bits_of (b 14%nat) 0x10 4;
     FileFormat := bits_of (b 14%nat) 0x0C 2;
     csd_ECC := Z.land (b 14%nat) 0x03;
     CSD_CRC := bits_of (b 15%nat) 0xFE 1;
     csd_Reserved4 := 1 |}.

(** The struct that [get_cidregister] builds *)
Definition cid_decode (t : list Z) : SDCardCID :=
  let b i := nth i t 0 in
  {| ManufacturerID := b 0%nat;
     OEM_AppliID := Z.lor (shl 16 (b 1%nat) 8) (b 2%nat);
     ProdName1 := Z.lor (Z.lor (Z.lor (shl 32 (b 3%nat) 24) (shl 32 (b 4%nat) 16)) (shl 32 (b 5%nat) 8)) (b 6%nat);
     ProdName2 := b 7%nat;
     ProdRev := b 8%nat;
     ProdSN := Z.lor (Z.lor (Z.lor (shl 32 (b 9%nat) 24) (shl 32 (b 10%nat) 16)) (shl 32 (b 11%nat) 8)) (b 12%nat);
     cid_Reserved1 := bits_of (b 13%nat) 0xF0 4;
     ManufactDate := Z.lor (shl 16 (Z.land (b 13%nat) 0x0F) 8) (b 14%nat);
     CID_CRC := bits_of (b 15%nat) 0xFE 1;
     cid_Reserved2 := 1 |}.

(** ** The driver *)

(** [SDCard<SPI>] without the bus, which is the state [S] of its methods *)
Record SDCard := { spi_cs : Z; cs_gpionum : Z }.

Section driver.
Context {S : Type} `{!SpiBus S}.
(** Rounds the wait for a card that programs a block may take *)
Variable busy_fuel : nat.
Variable sd : SDCard.

Definition CS_HIGH : M S unit := gpiohs_set_pin (cs_gpionum sd) true.
Definition CS_LOW : M S unit := gpiohs_set_pin (cs_gpionum sd) false.
Definition HIGH_SPEED_ENABLE : M S unit := spi_set_clk_rate 10000000 ;; mret tt.
Definition lowlevel_init : M S unit := gpiohs_set_output (cs_gpionum sd) ;; spi_set_clk_rate 200000 ;; mret tt.

(** The transaction both directions configure *)
Definition byte_mode (t : tmod) : spi_config :=
  {| cf_work_mode := MODE0; cf_frame_format := FF_STANDARD; data_bit_length := 8; cf_endian := 0; instruction_length := 0;
     address_length := 0; wait_cycles := 0; cf_aitm := AITM_STANDARD; cf_tmod := t |}.

Definition write_data (data : list Z) : M S unit :=
  spi_configure (byte_mode TRANS) ;; spi_send_data (spi_cs sd) data.
(** [read_data] into a slice of [n] bytes *)
Definition read_data (n : Z) : M S (list Z) :=
  spi_configure (byte_mode RECV) ;; spi_recv_data (spi_cs sd) n.

Definition cmd_frame (cmd : CMD) (arg crc : Z) : list Z :=
  [Z.lor (cmd_code cmd) 0x40; cast 8 (Z.shiftr arg 24); cast 8 (Z.land (Z.shiftr arg 16) 0xff);
   cast 8 (Z.land (Z.shiftr arg 8) 0xff); cast 8 (Z.land arg 0xff); crc].
Definition send_cmd (cmd : CMD) (arg crc : Z) : M S unit := CS_LOW ;; write_data (cmd_frame cmd arg crc).
Definition end_cmd : M S unit := CS_HIGH ;; write_data [0xff].

(** One byte, as the driver's one-element arrays receive it *)
Definition read_byte : M S Z := l ← read_data 1; mret (nth 0 l 0).

Fixpoint response_loop (timeout : nat) : M S Z :=
  match timeout with
  | O => mret 0xFF
  | Datatypes.S timeout => b ← read_byte; if negb (b =? 0xFF) then mret b else response_loop timeout
  end.
Definition get_response : M S Z := response_loop (Z.to_nat 0x0FFF).

(** [while response[0] == 0] *)
Fixpoint busy_loop (fuel : nat) (b : Z) : M S unit :=
  if b =? 0 then
    match fuel with
    | O => panic OutOfFuel
    | Datatypes.S fuel => b ← read_byte; busy_loop fuel b
    end
  else mret tt.
Definition get_dataresponse : M S Z :=
  b ← read_byte;
  if negb (Z.land b 0x1F =? 0x05) then mret 0xFF
  else b ← read_byte; busy_loop busy_fuel b ;; mret 0.

(** The block read behind [CMD9] and [CMD10]: 16 bytes and their checksum *)
Definition get_register (cmd : CMD) : M S (list Z + unit) :=
  send_cmd cmd 0 0 ;;
  r ← get_response;
  if negb (r =? 0) then end_cmd ;; mret (inr tt)
  else
    r ← get_response;
    if negb (r =? SD_START_DATA_SINGLE_BLOCK_READ) then end_cmd ;; mret (inr tt)
    else tab ← read_data 18; end_cmd ;; mret (inl tab).

Definition get_csdregister : M S (SDCardCSD + unit) :=
  r ← get_register CMD9; mret match r with inl t => inl (csd_decode t) | inr e => inr e end.
Definition get_cidregister : M S (SDCardCID + unit) :=
  r ← get_register CMD10; mret match r with inl t => inl (cid_decode t) | inr e => inr e end.

Definition get_cardinfo : M S (SDCardInfo + unit) :=
  csd ← get_csdregister;
  match csd with
  | inr e => mret (inr e)
  | inl csd =>
      cid ← get_cidregister;
      match cid with
      | inr e => mret (inr e)
      | inl cid =>
          let size := shl 64 1 (RdBlockLen csd) in
          n ← lift (uadd (DeviceSize csd) 1);
          n ← lift (umul n 1024);
          cap ← lift (umul n size);
          mret (inl {| SD_csd := csd; SD_cid := cid; CardCapacity := cap; CardBlockSize := size |})
      end
  end.

(** The loop on [ACMD41]: [inl e] is an early return, [inr index] the end of the
    loop with the counter it leaves *)
Fixpoint acmd41_loop (index : nat) : M S (InitError + nat) :=
  match index with
  | O => mret (inr 0%nat)
  | Datatypes.S index' =>
      send_cmd CMD55 0 0 ;;
      r ← get_response;
      end_cmd ;;
      if negb (r =? 0x01) then mret (inl (CMDFailed CMD55 r))
      else
        send_cmd ACMD41 0x40000000 0 ;;
        r ← get_response;
        end_cmd ;;
        if r =? 0x00 then mret (inr index) else acmd41_loop index'
  end.

(** The loop on [CMD58]: [index] and [frame] as it leaves them *)
Fixpoint cmd58_loop (index : nat) (frame : list Z) : M S (nat * list Z) :=
  match index with
  | O => mret (0%nat, frame)
  | Datatypes.S index' =>
      send_cmd CMD58 0 1 ;;
      r ← get_response;
      frame ← read_data 4;
      end_cmd ;;
      if r =? 0 then mret (index, frame) else cmd58_loop index' frame
  end.

(** [result] in the two errors behind the loops is the response to [CMD8]: the
    loops bind names of their own. *)
Definition sd_init : M S (SDCardInfo + InitError) :=
  lowlevel_init ;;
  CS_HIGH ;;
  write_data (replicate 10 0xff) ;;
  send_cmd CMD0 0 0x95 ;;
  result ← get_response;
  end_cmd ;;
  if negb (result =? 0x01) then mret (inr (CMDFailed CMD0 result))
  else
    send_cmd CMD8 0x01AA 0x87 ;;
    result ← get_response;
    read_data 4 ;;
    end_cmd ;;
    if negb (result =? 0x01) then mret (inr (CMDFailed CMD8 result))
    else
      l ← acmd41_loop 255;
      match l with
      | inl e => mret (inr e)
      | inr 0%nat => mret (inr (CMDFailed ACMD41 result))
      | inr _ =>
          '(index, frame) ← cmd58_loop 255 [0; 0; 0; 0];
          match index with
          | O => mret (inr (CMDFailed CMD58 result))
          | _ =>
              if Z.land (nth 0 frame 0) 0x40 =? 0 then mret (inr (CardCapacityStatusNotSet frame))
              else
                HIGH_SPEED_ENABLE ;;
                i ← get_cardinfo;
                mret match i with inl i => inl i | inr _ => inr CannotGetCardInfo end
          end
      end.

Definition sector_buffer (data_buf : list Z) : bool :=
  (SEC_LEN <=? Z.of_nat (length data_buf)) && (Z.of_nat (length data_buf) `mod` SEC_LEN =? 0).

(** [for chunk in data_buf.chunks_mut(SEC_LEN)]: [error] and the buffer *)
Fixpoint read_chunks (n : nat) (at_ : Z) (data_buf : list Z) : M S (bool * list Z) :=
  match n with
  | O => mret (false, data_buf)
  | Datatypes.S n =>
      r ← get_response;
      if negb (r =? SD_START_DATA_SINGLE_BLOCK_READ) then mret (true, data_buf)
      else
        tmp_chunk ← read_data SEC_LEN;
        read_data 2 ;;
        read_chunks n (at_ + SEC_LEN) (splice at_ tmp_chunk data_buf)
  end.

(** The result and the buffer as [read_sector] leaves it *)
Definition read_sector (data_buf : list Z) (sector : Z) : M S ((unit + unit) * list Z) :=
  lift (ensure (sector_buffer data_buf)) ;;
  let flag := negb (Z.of_nat (length data_buf) =? SEC_LEN) in
  send_cmd (if flag then CMD18 else CMD17) sector 0 ;;
  r ← get_response;
  if negb (r =? 0) then end_cmd ;; mret (inr tt, data_buf)
  else
    '(error, data_buf) ← read_chunks (Z.to_nat (Z.of_nat (length data_buf) `div` SEC_LEN)) 0 data_buf;
    end_cmd ;;
    (if flag then send_cmd CMD12 0 0 ;; get_response ;; end_cmd ;; end_cmd else mret tt) ;;
    mret ((if error : bool then inr tt else inl tt), data_buf).

(** [for chunk in data_buf.chunks(SEC_LEN)] with the token in [frame]; [false] is
    the early return *)
Fixpoint write_chunks (n : nat) (frame data_buf : list Z) : M S bool :=
  match n with
  | O => mret true
  | Datatypes.S n =>
      write_data frame ;;
      write_data (take (Z.to_nat SEC_LEN) data_buf) ;;
      write_data [0xff; 0xff] ;;
      r ← get_dataresponse;
      if negb (r =? 0) then end_cmd ;; mret false
      else write_chunks n frame (drop (Z.to_nat SEC_LEN) data_buf)
  end.

Definition write_sector (data_buf : list Z) (sector : Z) : M S (unit + unit) :=
  lift (ensure (sector_buffer data_buf)) ;;
  let n := Z.of_nat (length data_buf) `div` SEC_LEN in
  token ← (if Z.of_nat (length data_buf) =? SEC_LEN then
             send_cmd CMD24 sector 0 ;; mret SD_START_DATA_SINGLE_BLOCK_WRITE
           else
             lift (if n <? 2 ^ 32 then Ok tt else Panic UnwrapNone) ;;
             send_cmd ACMD23 n 0 ;;
             get_response ;;
             end_cmd ;;
             send_cmd CMD25 sector 0 ;; mret SD_START_DATA_MULTIPLE_BLOCK_WRITE);
  r ← get_response;
  if negb (r =? 0) then end_cmd ;; mret (inr tt)
  else
    b ← write_chunks (Z.to_nat n) [0xff; token] data_buf;
    if b : bool then end_cmd ;; end_cmd ;; mret (inl tt) else mret (inr tt).
End driver.

(** ** The block device *)

Definition SD_CS_GPIONUM : Z := 7.
Definition SD_CS : Z := 3.
Definition sd_dev : SDCard := {| spi_cs := SD_CS; cs_gpionum := SD_CS_GPIONUM |}.

Section wrapper.
Context {S : Type} `{!SpiBus S}.
Variable busy_fuel : nat.

Definition io_init : M S unit :=
  fpioa_set_function IO_SPI0_SCLK SPI0_SCLK ;;
  fpioa_set_function IO_SPI0_MOSI SPI0_D0 ;;
  fpioa_set_function IO_SPI0_MISO SPI0_D1 ;;
  fpioa_set_function IO_SPI0_CS0 (GPIOHS SD_CS_GPIONUM) ;;
  fpioa_set_io_pull IO_SPI0_CS0 PULL_DOWN.

(** [SDCardWrapper::new]: [init_sdcard] *)
Definition init_sdcard : M S SDCard :=
  io_init ;;
  r ← sd_init sd_dev;
  info ← lift (match r with inl i => Ok i | inr _ => Panic UnwrapNone end);
  lift (ensure (0 <? CardCapacity info `div` 512)) ;;
  mret sd_dev.

Definition sd_read_block (block_id : Z) : M S (list Z) :=
  '(r, buf) ← read_sector sd_dev (replicate (Z.to_nat BLOCK_SZ) 0) (cast 32 block_id);
  match r with inl _ => mret buf | inr _ => panic UnwrapNone end.
Definition sd_write_block (block_id : Z) (buf : list Z) : M S unit :=
  r ← write_sector busy_fuel sd_dev buf (cast 32 block_id);
  match r with inl _ => mret tt | inr _ => panic UnwrapNone end.
End wrapper.
