(* ===== verification/SdProtocol.v ===== *)
(** * What an SD card answers, and the driver on it

    The card is hardware: its documented behaviour in SPI mode is the class
    [CardLaws] on a bus, stated with the phases of a transaction.  Against these
    laws the driver of [SdCard] initialises a card, reads and writes its sectors,
    and is a disk in the sense of [BlockDev].  [SimBus] is a simulated card that
    satisfies the laws. *)

From S2P Require Import Prelude Io FatIo BlockDev SdCard.

(** ** The card *)

(** Checksum of a command frame: CRC7 with the polynomial [x^7 + x^3 + 1] *)
Definition crc7_bit (crc : Z) (b : bool) : Z :=
  let crc' := Z.shiftl crc 1 in
  if xorb (Z.testbit crc 6) b then Z.lxor (Z.land crc' 0x7F) 0x09 else Z.land crc' 0x7F.
Definition crc7_byte (crc b : Z) : Z := foldl (λ c i, crc7_bit c (Z.testbit b i)) crc [7; 6; 5; 4; 3; 2; 1; 0].
Definition crc7 (bs : list Z) : Z := foldl crc7_byte 0 bs.

(** [Idle n]: initialisation completes at the [n]th [ACMD41] from now *)
Inductive stage := PowerOn | Idle (polls : nat) | Operational.

(** The state of a card: its registers and the content of its sectors *)
Record card := {
  cd_stage : stage;
  cd_app : bool;
  cd_polls : nat;
  cd_ocr : list Z;
  cd_csd : list Z;
  cd_cid : list Z;
  cd_size : Z;
  cd_data : Z → list Z;
}.
Definition card_at (c : card) (st : stage) (app : bool) : card :=
  {| cd_stage := st; cd_app := app; cd_polls := cd_polls c; cd_ocr := cd_ocr c; cd_csd := cd_csd c; cd_cid := cd_cid c;
     cd_size := cd_size c; cd_data := cd_data c |}.
Definition card_store (c : card) (i : Z) (l : list Z) : card :=
  {| cd_stage := cd_stage c; cd_app := cd_app c; cd_polls := cd_polls c; cd_ocr := cd_ocr c; cd_csd := cd_csd c; cd_cid := cd_cid c;
     cd_size := cd_size c; cd_data := λ j, if decide (j = i) then l else cd_data c j |}.

(** The phases of a transaction.  [Deselected] has chip select high; [Listening]
    expects a command; [Sending bs p] has [bs] to send and is in [p] behind them;
    [Delayed bs p] first lets some clocks pass; [Stream i] sends the sectors from
    [i] on, [Parked] is a stream with chip select high and [Halting] one selected
    again, which waits for [CMD12]; [WantToken i], [WantData i] and [WantCrc i l]
    take a block for sector [i]; [Programming p] acknowledges one and is busy. *)
Inductive phase :=
  | Deselected
  | Listening
  | Sending (bs : list Z) (p : phase)
  | Delayed (bs : list Z) (p : phase)
  | Stream (i : Z)
  | Parked
  | Halting
  | WantToken (i : Z)
  | WantData (i : Z)
  | WantCrc (i : Z) (l : list Z)
  | Programming (p : phase).

Definition sent (bs : list Z) (p : phase) : phase := match bs with [] => p | _ => Sending bs p end.

(** R1: the idle bit, no errors *)
Definition r1 (c : card) : Z := match cd_stage c with Operational => 0 | _ => 1 end.

Section card.
(** The two checksum bytes behind a data block *)
Variable crc16 : list Z → list Z.

Definition data_block (l : list Z) : list Z := 0xFE :: l ++ crc16 l.
Definition refuse (c : card) : card * phase := (card_at c (cd_stage c) false, Delayed [Z.lor (r1 c) 0x40] Listening).

(** The answer to a command frame.  Only [CMD0] and [CMD8] have their checksum
    checked; high-capacity cards leave the idle state only for a host that sets
    bit 30 of [ACMD41], and address sectors, not bytes. *)
Definition answer (c : card) (cmd arg : Z) (crc_ok : bool) : option (card * phase) :=
  let c' st := card_at c st false in
  if cmd =? 0 then if crc_ok then Some (c' (Idle (cd_polls c)), Delayed [1] Listening) else None
  else
    match cd_stage c with
    | PowerOn => None
    | Idle n =>
        if cmd =? 8 then
          if crc_ok then Some (c' (Idle n), Delayed [1; 0; 0; Z.land (Z.shiftr arg 8) 0x0F; Z.land arg 0xFF] Listening) else None
        else if cmd =? 55 then Some (card_at c (Idle n) true, Delayed [1] Listening)
        else if (cmd =? 41) && cd_app c && Z.testbit arg 30 then
          match n with
          | O => Some (c' Operational, Delayed [0] Listening)
          | S n => Some (c' (Idle n), Delayed [1] Listening)
          end
        else if cmd =? 58 then Some (c' (Idle n), Delayed (1 :: cd_ocr c) Listening)
        else None
    | Operational =>
        if cmd =? 58 then Some (c' Operational, Delayed (0 :: cd_ocr c) Listening)
        else if cmd =? 9 then Some (c' Operational, Delayed [0] (Delayed (data_block (cd_csd c)) Listening))
        else if cmd =? 10 then Some (c' Operational, Delayed [0] (Delayed (data_block (cd_cid c)) Listening))
        else if cmd =? 17 then
          Some (if arg <? cd_size c then (c' Operational, Delayed [0] (Delayed (data_block (cd_data c arg)) Listening)) else refuse c)
        else if cmd =? 18 then
          Some (if arg <? cd_size c then (c' Operational, Delayed [0] (Stream arg)) else refuse c)
        else if cmd =? 24 then
          Some (if arg <? cd_size c then (c' Operational, Delayed [0] (WantToken arg)) else refuse c)
        else None
    end.

(** An interrupted stream ends with [CMD12]; the byte to skip behind it is one of
    the idle bytes. *)
Definition command (c : card) (p : phase) (cmd arg : Z) (crc_ok : bool) : option (card * phase) :=
  match p with
  | Listening => answer c cmd arg crc_ok
  | Halting => if cmd =? 12 then Some (c, Delayed [0] Listening) else None
  | _ => None
  end.

End card.

(** Chip select *)
Fixpoint streaming (p : phase) : bool :=
  match p with
  | Stream _ | Parked | Halting => true
  | Sending _ p | Delayed _ p | Programming p => streaming p
  | _ => false
  end.
Definition select (high : bool) (p : phase) : phase :=
  if high then if streaming p then Parked else Deselected
  else match p with Deselected => Listening | Parked => Halting | p => p end.


(** The frame of a command: its number and argument are bytes of it. *)
Definition frame_cmd (f : list Z) : Z := Z.land (nth 0 f 0) 0x3F.
Definition frame_arg (f : list Z) : Z :=
  nth 1 f 0 * 2 ^ 24 + nth 2 f 0 * 2 ^ 16 + nth 3 f 0 * 2 ^ 8 + nth 4 f 0.
Definition frame_crc_ok (f : list Z) : bool := nth 5 f 0 =? crc7 (take 5 f) * 2 + 1.

(** The documented behaviour of a card on a bus, whose chip select is pin
    [SD_CS_GPIONUM]: [view s m c p] says that the bus transfers in mode [m] and the
    card is [c] in phase [p].  A card answers within the 4095 bytes the driver
    waits for, and is busy for at most [busy_max] bytes. *)
Class CardLaws (S : Type) `{SpiBus S} := {
  view : S → tmod → card → phase → Prop;
  card_of : S → card;
  view_card s m c p : view s m c p → card_of s = c;
  crc16 : list Z → list Z;
  busy_max : nat;
  crc16_length l : length (crc16 l) = 2%nat;
  law_configure s m c p t : view s m c p → ∃ s', spi_configure (byte_mode t) s = Ok (tt, s') ∧ view s' t c p;
  law_clk s m c p f : view s m c p → ∃ r s', spi_set_clk_rate f s = Ok (r, s') ∧ view s' m c p;
  law_output s m c p : view s m c p → ∃ s', gpiohs_set_output SD_CS_GPIONUM s = Ok (tt, s') ∧ view s' m c p;
  law_pin s m c p b : view s m c p → ∃ s', gpiohs_set_pin SD_CS_GPIONUM b s = Ok (tt, s') ∧ view s' m c (select b p);
  law_function s m c p io f : view s m c p → ∃ s', fpioa_set_function io f s = Ok (tt, s') ∧ view s' m c p;
  law_pull s m c p io f : view s m c p → ∃ s', fpioa_set_io_pull io f s = Ok (tt, s') ∧ view s' m c p;
  law_delay s m c bs p : view s m c (Delayed bs p) →
    ∃ k, (k < 4095)%nat ∧ view s m c (Sending (replicate k 0xFF ++ bs) p);
  law_stream s m c i : view s m c (Stream i) → i < cd_size c →
    view s m c (Delayed (data_block crc16 (cd_data c i)) (Stream (i + 1)));
  law_recv s c n bs p : view s RECV c (Sending bs p) → 0 < n ≤ Z.of_nat (length bs) →
    ∃ s', spi_recv_data SD_CS n s = Ok (take (Z.to_nat n) bs, s') ∧ view s' RECV c (sent (drop (Z.to_nat n) bs) p);
  law_ignored s c l : view s TRANS c Deselected → ∃ s', spi_send_data SD_CS l s = Ok (tt, s') ∧ view s' TRANS c Deselected;
  law_parked s c l : view s TRANS c Parked → ∃ s', spi_send_data SD_CS l s = Ok (tt, s') ∧ view s' TRANS c Parked;
  law_command s c p f c' p' : view s TRANS c p → length f = 6%nat → Z.land (nth 0 f 0) 0xC0 = 0x40 →
    command crc16 c p (frame_cmd f) (frame_arg f) (frame_crc_ok f) = Some (c', p') →
    ∃ s', spi_send_data SD_CS f s = Ok (tt, s') ∧ view s' TRANS c' p';
  law_token s c i : view s TRANS c (WantToken i) →
    ∃ s', spi_send_data SD_CS [0xFF; 0xFE] s = Ok (tt, s') ∧ view s' TRANS c (WantData i);
  law_data s c i l : view s TRANS c (WantData i) → Z.of_nat (length l) = SEC_LEN →
    ∃ s', spi_send_data SD_CS l s = Ok (tt, s') ∧ view s' TRANS c (WantCrc i l);
  law_crc s c i l x y : view s TRANS c (WantCrc i l) →
    ∃ s', spi_send_data SD_CS [x; y] s = Ok (tt, s') ∧ view s' TRANS (card_store c i l) (Programming Listening);
  law_program s m c p : view s m c (Programming p) →
    ∃ x k y, Z.land x 0x1F = 5 ∧ (k ≤ busy_max)%nat ∧ y ≠ 0 ∧ view s m c (Sending (x :: replicate k 0 ++ [y]) p);
}.

(** ** The driver against the laws *)

Section proofs.
Context {S : Type} `{!SpiBus S, !CardLaws S}.
(** The card's state between the driver's transfers, which configure the bus *)
Definition bus_at (s : S) (c : card) (p : phase) : Prop := ∃ m, view s m c p.

Lemma set_pin_at s c p b : bus_at s c p →
  ∃ s', gpiohs_set_pin SD_CS_GPIONUM b s = Ok (tt, s') ∧ bus_at s' c (select b p).
Proof. intros [m H]. destruct (law_pin _ _ _ _ b H) as (s' & ? & ?). exists s'. split; [done|by exists m]. Qed.

(** [write_data] sends what the bus sends in transmit mode. *)
Lemma write_data_at s c p l c' p' : bus_at s c p →
  (∀ s, view s TRANS c p → ∃ s', spi_send_data SD_CS l s = Ok (tt, s') ∧ view s' TRANS c' p') →
  ∃ s', write_data sd_dev l s = Ok (tt, s') ∧ bus_at s' c' p'.
Proof.
  intros [m H] Hsend. unfold write_data. destruct (law_configure _ _ _ _ TRANS H) as (s1 & H1 & V1). run H1.
  destruct (Hsend s1 V1) as (s2 & H2 & V2). exists s2. split; [done|by eexists].
Qed.

Lemma read_data_at s c n bs p : bus_at s c (Sending bs p) → 0 < n ≤ Z.of_nat (length bs) →
  ∃ s', read_data sd_dev n s = Ok (take (Z.to_nat n) bs, s') ∧ bus_at s' c (sent (drop (Z.to_nat n) bs) p).
Proof.
  intros [m H] Hn. unfold read_data. destruct (law_configure _ _ _ _ RECV H) as (s1 & H1 & V1). run H1.
  destruct (law_recv _ _ _ _ _ V1 Hn) as (s2 & H2 & V2). exists s2. split; [done|by eexists].
Qed.

Lemma read_byte_at s c b bs p : bus_at s c (Sending (b :: bs) p) →
  ∃ s', read_byte sd_dev s = Ok (b, s') ∧ bus_at s' c (sent bs p).
Proof.
  intros H. destruct (read_data_at _ _ 1 _ _ H) as (s' & H1 & V1); [cbn; lia|].
  exists s'. split; [|done]. unfold read_byte. by run H1.
Qed.

Lemma response_loop_at k : ∀ timeout s c r bs p, (k < timeout)%nat → r ≠ 0xFF →
  bus_at s c (Sending (replicate k 0xFF ++ r :: bs) p) →
  ∃ s', response_loop sd_dev timeout s = Ok (r, s') ∧ bus_at s' c (sent bs p).
Proof.
  induction k as [|k IH]; intros [|timeout] s c r bs p Hk Hr H; try lia; cbn [response_loop];
    destruct (read_byte_at _ _ _ _ _ H) as (s1 & H1 & V1); run H1.
  - replace (r =? 0xFF) with false by lia. exists s1. by split.
  - cbn [negb Z.eqb Pos.eqb]. apply (IH timeout); [lia|done|]. destruct k; exact V1.
Qed.

(** The response behind a delay, whatever its length *)
Lemma get_response_at s c r bs p : bus_at s c (Delayed (r :: bs) p) → r ≠ 0xFF →
  ∃ s', get_response sd_dev s = Ok (r, s') ∧ bus_at s' c (sent bs p).
Proof.
  intros [m H] Hr. destruct (law_delay _ _ _ _ _ H) as (k & Hk & V). apply (response_loop_at k); [lia|done|]. by exists m.
Qed.

Lemma end_cmd_at s c p q : bus_at s c p → select true p = q → q = Deselected ∨ q = Parked →
  ∃ s', end_cmd sd_dev s = Ok (tt, s') ∧ bus_at s' c q.
Proof.
  intros H Hq Hd. destruct (set_pin_at _ _ _ true H) as (s1 & H1 & V1). unfold end_cmd, CS_HIGH. cbn [cs_gpionum sd_dev]. run H1.
  rewrite Hq in V1. apply (write_data_at _ _ _ _ _ _ V1). intros s2 V2.
  destruct Hd as [-> | ->]; [by apply law_ignored|by apply law_parked].
Qed.

Definition is_u32 (z : Z) : Prop := 0 ≤ z < 2 ^ 32.

Lemma cmd_frame_cmd cmd arg crc : frame_cmd (cmd_frame cmd arg crc) = cmd_code cmd ∧ Z.land (nth 0 (cmd_frame cmd arg crc) 0) 0xC0 = 0x40.
Proof. by destruct cmd. Qed.

Lemma cmd_frame_arg cmd arg crc : is_u32 arg → frame_arg (cmd_frame cmd arg crc) = arg.
Proof.
  intros [Ha1 Ha2]. unfold frame_arg, cmd_frame, cast. cbn [nth]. change 0xff with (2 ^ 8 - 1).
  rewrite !land_pow2_mod, !Z.shiftr_div_pow2, !Z.mod_mod by lia. rewrite (Z.mod_small (arg `div` 2 ^ 24)).
  - Z.to_euclidean_division_equations; lia.
  - Z.to_euclidean_division_equations; lia.
Qed.

(** A command sent to a selected or deselected card *)
Lemma send_cmd_at s c p cmd arg crc c' p' : bus_at s c p → is_u32 arg →
  command crc16 c (select false p) (cmd_code cmd) arg (frame_crc_ok (cmd_frame cmd arg crc)) = Some (c', p') →
  ∃ s', send_cmd sd_dev cmd arg crc s = Ok (tt, s') ∧ bus_at s' c' p'.
Proof.
  intros H Ha Hcmd. destruct (set_pin_at _ _ _ false H) as (s1 & H1 & V1). unfold send_cmd, CS_LOW. cbn [cs_gpionum sd_dev]. run H1.
  apply (write_data_at _ _ _ _ _ _ V1). intros s2 V2. destruct (cmd_frame_cmd cmd arg crc) as [Hc Ht].
  eapply law_command; [exact V2|done|done|]. by rewrite Hc, cmd_frame_arg.
Qed.

(** *** Sectors *)

(** The device size in the register of a high-capacity card: [C_SIZE], in units of
    1024 sectors, is in the bytes 7 to 9. *)
Definition c_size (csd : list Z) : Z := nth 7 csd 0 `mod` 2 ^ 6 * 2 ^ 16 + nth 8 csd 0 * 2 ^ 8 + nth 9 csd 0.

Record card_wf (c : card) : Prop := {
  wf_data : ∀ i, 0 ≤ i < cd_size c → Z.of_nat (length (cd_data c i)) = SEC_LEN;
  wf_ocr : length (cd_ocr c) = 4%nat;
  wf_csd : length (cd_csd c) = 16%nat;
  wf_cid : length (cd_cid c) = 16%nat;
  wf_bytes : Forall is_byte (cd_csd c);
  wf_block_len : nth 5 (cd_csd c) 0 `mod` 2 ^ 4 = 9;
  wf_c_size : cd_size c = (c_size (cd_csd c) + 1) * 1024;
}.

Lemma csd_byte c i : card_wf c → is_byte (nth i (cd_csd c) 0).
Proof.
  intros Hwf. pose proof (wf_bytes _ Hwf) as Hb. revert i. induction Hb; intros [|i]; cbn; done || auto.
Qed.

Lemma c_size_bound c : card_wf c → 0 ≤ c_size (cd_csd c) < 2 ^ 22.
Proof.
  intros Hwf. unfold c_size. pose proof (csd_byte c 8 Hwf). pose proof (csd_byte c 9 Hwf).
  pose proof (Z.mod_pos_bound (nth 7 (cd_csd c) 0) (2 ^ 6)). unfold is_byte in *. lia.
Qed.

Lemma wf_size c : card_wf c → 0 < cd_size c ≤ 2 ^ 32.
Proof. intros Hwf. rewrite wf_c_size by done. pose proof (c_size_bound c Hwf). lia. Qed.
(** A card that is initialised and waits for a command *)
Definition card_ready (c : card) : Prop := cd_stage c = Operational ∧ cd_app c = false ∧ card_wf c.

Lemma card_at_ready c : card_ready c → card_at c Operational false = c.
Proof. intros (? & ? & _). destruct c; cbn in *; by subst. Qed.

Lemma Delayed_sent_app s c d p : length d ≠ 0%nat → bus_at s c (sent (d ++ crc16 d) p) → bus_at s c (Sending (d ++ crc16 d) p).
Proof. by destruct d. Qed.

Lemma data_block_at s c d p : bus_at s c (Delayed (data_block crc16 d) p) → length d ≠ 0%nat →
  ∃ s', get_response sd_dev s = Ok (0xFE, s') ∧ bus_at s' c (Sending (d ++ crc16 d) p).
Proof.
  intros H Hd. destruct (get_response_at _ _ _ _ _ H ltac:(done)) as (s' & H1 & V1). exists s'. split; [done|]. by apply Delayed_sent_app.
Qed.

Lemma read_chunk_at s c d p n at_ buf : bus_at s c (Delayed (data_block crc16 d) p) → Z.of_nat (length d) = SEC_LEN →
  ∃ s', read_chunks sd_dev (Datatypes.S n) at_ buf s = read_chunks sd_dev n (at_ + SEC_LEN) (splice at_ d buf) s' ∧ bus_at s' c p.
Proof.
  intros H Hd. assert (length d = 512%nat) as Hd' by (unfold SEC_LEN in Hd; lia). cbn [read_chunks].
  destruct (data_block_at _ _ _ _ H) as (s1 & H1 & V1); [lia|]. run H1. cbn [negb Z.eqb Pos.eqb SD_START_DATA_SINGLE_BLOCK_READ].
  pose proof (crc16_length d) as Hc.
  destruct (read_data_at _ _ SEC_LEN _ _ V1) as (s2 & H2 & V2); [rewrite length_app; unfold SEC_LEN; lia|]. run H2.
  rewrite take_app_length' by (unfold SEC_LEN in *; lia). rewrite drop_app_length' in V2 by (unfold SEC_LEN in *; lia).
  destruct (crc16 d) as [|x [|y [|]]]; try done.
  destruct (read_data_at _ _ 2 _ _ V2) as (s3 & H3 & V3); [done|]. run H3. by exists s3.
Qed.

(** The sectors [i], ..., [i + n - 1] *)
Definition sectors (c : card) (i : Z) (n : nat) : list Z := concat (map (cd_data c) (seqZ i (Z.of_nat n))).

Lemma sectors_cons c i n : sectors c i (Datatypes.S n) = cd_data c i ++ sectors c (i + 1) n.
Proof. unfold sectors. rewrite seqZ_cons by lia. cbn [map concat]. do 4 f_equal; lia. Qed.

Lemma length_sectors c n : card_wf c → ∀ i, 0 ≤ i → i + Z.of_nat n ≤ cd_size c → Z.of_nat (length (sectors c i n)) = Z.of_nat n * SEC_LEN.
Proof.
  intros Hwf. induction n as [|n IH]; intros i Hi Hn; [done|].
  rewrite sectors_cons, length_app, Nat2Z.inj_add, IH, wf_data by (done || lia). lia.
Qed.

(** A stream fills the buffer from [at_] on. *)
Lemma read_stream_at n : ∀ s c i at_ buf, card_wf c → bus_at s c (Stream i) → 0 ≤ i → i + Z.of_nat n ≤ cd_size c →
  0 ≤ at_ → Z.of_nat (length buf) = at_ + Z.of_nat n * SEC_LEN →
  ∃ s', read_chunks sd_dev n at_ buf s = Ok ((false, take (Z.to_nat at_) buf ++ sectors c i n), s') ∧ bus_at s' c (Stream (i + Z.of_nat n)).
Proof.
  induction n as [|n IH]; intros s c i at_ buf Hwf H Hi Hn Hat Hb.
  - exists s. rewrite Z.add_0_r. split; [|done]. cbn. rewrite take_ge, app_nil_r by lia. done.
  - destruct H as [m H]. pose proof (law_stream _ _ _ _ H ltac:(lia)) as V. pose proof (wf_data _ Hwf i ltac:(lia)) as Hd.
    destruct (read_chunk_at s c (cd_data c i) (Stream (i + 1)) n at_ buf) as (s1 & -> & V1); [by exists m|done|].
    destruct (IH s1 c (i + 1) (at_ + SEC_LEN) (splice at_ (cd_data c i) buf)) as (s2 & -> & V2); try done; try lia.
    { rewrite length_splice; unfold SEC_LEN in *; lia. }
    exists s2. split; [|by replace (i + Z.of_nat (Datatypes.S n)) with (i + 1 + Z.of_nat n) by lia].
    rewrite sectors_cons, app_assoc. do 4 f_equal. unfold splice, SEC_LEN in *.
    rewrite (app_assoc (take _ buf)), take_app_le, take_ge by (rewrite ?length_app, ?length_take; lia). done.
Qed.

Lemma sector_buffer_true buf n : Z.of_nat (length buf) = Z.of_nat (Datatypes.S n) * SEC_LEN → sector_buffer buf = true.
Proof. intros H. unfold sector_buffer. rewrite H, Z.mod_mul by done. rewrite andb_true_r. apply Z.leb_le. unfold SEC_LEN. lia. Qed.

Ltac steps H := let s := fresh "s" in let E := fresh "E" in let V := fresh "V" in destruct H as (s & E & V); [..|rewrite ?M_bind_assoc; rewrite (M_bind_eq _ _ _ _ _ E)].

Lemma read_sector_one s c buf sector : card_ready c → bus_at s c Deselected → Z.of_nat (length buf) = SEC_LEN →
  0 ≤ sector < cd_size c →
  ∃ s', read_sector sd_dev buf sector s = Ok ((inl tt, cd_data c sector), s') ∧ bus_at s' c Deselected.
Proof.
  intros Hr H Hb Hs. pose proof Hr as (Hst & _ & Hwf). pose proof (wf_size _ Hwf) as Hsz. unfold read_sector.
  rewrite (sector_buffer_true buf 0) by lia. cbn [ensure]. run_refl. rewrite Hb, Z.eqb_refl. cbn [negb].
  steps (send_cmd_at s c _ CMD17 sector 0 c (Delayed [0] (Delayed (data_block crc16 (cd_data c sector)) Listening)) H ltac:(unfold is_u32; lia)).
  { cbn. rewrite Hst. replace (sector <? cd_size c) with true by lia. by rewrite card_at_ready. }
  steps (get_response_at _ _ _ _ _ V ltac:(done)). cbn [negb Z.eqb sent] in V0 |- *. rewrite Z.div_same by done.
  pose proof (wf_data _ Hwf sector Hs) as Hd. change (Z.to_nat 1) with 1%nat.
  destruct (read_chunk_at _ _ _ _ 0 0 buf V0 Hd) as (s2 & E2 & V2). cbn [read_chunks] in E2. run E2.
  steps (end_cmd_at _ _ _ _ V2 eq_refl ltac:(by left)). run_refl. exists s3. split; [|done].
  unfold splice. cbn. rewrite drop_ge, app_nil_r by lia. done.
Qed.

Lemma read_sector_many s c buf sector n : card_ready c → bus_at s c Deselected → (1 < n)%nat →
  Z.of_nat (length buf) = Z.of_nat n * SEC_LEN → 0 ≤ sector → sector + Z.of_nat n ≤ cd_size c →
  ∃ s', read_sector sd_dev buf sector s = Ok ((inl tt, sectors c sector n), s') ∧ bus_at s' c Deselected.
Proof.
  intros Hr H Hn Hb Hs1 Hs2. pose proof Hr as (Hst & _ & Hwf). pose proof (wf_size _ Hwf) as Hsz. unfold read_sector.
  destruct n as [|n']; [lia|]. rewrite (sector_buffer_true buf n') by lia. set (n := Datatypes.S n') in *. cbn [ensure]. run_refl.
  replace (Z.of_nat (length buf) =? SEC_LEN) with false by (unfold SEC_LEN in *; lia). cbn [negb].
  steps (send_cmd_at s c _ CMD18 sector 0 c (Delayed [0] (Stream sector)) H ltac:(unfold is_u32; lia)).
  { cbn. rewrite Hst. replace (sector <? cd_size c) with true by lia. by rewrite card_at_ready. }
  steps (get_response_at _ _ _ _ _ V ltac:(done)). cbn [negb Z.eqb sent] in V0 |- *.
  rewrite Hb, Z.div_mul, Nat2Z.id by done.
  steps (read_stream_at n _ _ _ 0 buf Hwf V0 Hs1 Hs2 ltac:(done) ltac:(lia)). cbn [take Z.to_nat app].
  steps (end_cmd_at _ _ _ _ V1 eq_refl ltac:(by right)).
  steps (send_cmd_at _ _ _ CMD12 0 0 c (Delayed [0] Listening) V2 ltac:(done) eq_refl).
  steps (get_response_at _ _ _ _ _ V3 ltac:(done)). cbn [sent] in V4.
  steps (end_cmd_at _ _ _ _ V4 eq_refl ltac:(by left)). steps (end_cmd_at _ _ _ _ V5 eq_refl ltac:(by left)).
  by eexists.
Qed.

(** A buffer of whole sectors is filled with them, by one command or a stream. *)
Lemma read_sector_at s c buf sector n : card_ready c → bus_at s c Deselected → (0 < n)%nat →
  Z.of_nat (length buf) = Z.of_nat n * SEC_LEN → 0 ≤ sector → sector + Z.of_nat n ≤ cd_size c →
  ∃ s', read_sector sd_dev buf sector s = Ok ((inl tt, sectors c sector n), s') ∧ bus_at s' c Deselected.
Proof.
  intros Hr H Hn Hb Hs1 Hs2. destruct (decide (n = 1%nat)) as [-> | Hn1]; [|by apply read_sector_many; try lia].
  rewrite sectors_cons. change (sectors c (sector + 1) 0) with (@nil Z). rewrite app_nil_r. apply read_sector_one; try done; lia.
Qed.

(** A sector behind the end of the card is refused. *)
Lemma refused_at s c cmd sector : card_ready c → bus_at s c Deselected → cd_size c ≤ sector < 2 ^ 32 →
  cmd = CMD17 ∨ cmd = CMD18 ∨ cmd = CMD24 →
  ∃ s', send_cmd sd_dev cmd sector 0 s = Ok (tt, s') ∧ bus_at s' c (Delayed [0x40] Listening).
Proof.
  intros Hr H Hs Hcmd. pose proof Hr as (Hst & _ & Hwf). pose proof (wf_size _ Hwf) as Hsz.
  apply (send_cmd_at _ _ _ _ _ _ _ _ H); [unfold is_u32; lia|].
  destruct Hcmd as [-> | [-> | ->]]; cbn; rewrite Hst; replace (sector <? cd_size c) with false by lia;
    unfold refuse, r1; rewrite Hst, card_at_ready; done.
Qed.

Lemma read_sector_refused s c buf sector n : card_ready c → bus_at s c Deselected →
  Z.of_nat (length buf) = Z.of_nat (Datatypes.S n) * SEC_LEN → cd_size c ≤ sector < 2 ^ 32 →
  ∃ s', read_sector sd_dev buf sector s = Ok ((inr tt, buf), s') ∧ bus_at s' c Deselected.
Proof.
  intros Hr H Hb Hs. unfold read_sector. rewrite (sector_buffer_true buf n Hb). cbn [ensure]. run_refl.
  destruct (refused_at s c (if negb (Z.of_nat (length buf) =? SEC_LEN) then CMD18 else CMD17) sector Hr H Hs) as (s1 & E1 & V1);
    [destruct (_ =? _); naive_solver|]. run E1.
  steps (get_response_at _ _ _ _ _ V1 ltac:(done)). cbn [negb Z.eqb sent] in V |- *.
  steps (end_cmd_at _ _ _ _ V eq_refl ltac:(by left)). by eexists.
Qed.

(** *** Initialisation *)

Abbreviation idle c n := (card_at c (Idle n) false).
Abbreviation oper c := (card_at c Operational false).

(** Exchanges [CMD55] and [ACMD41] until the card is operational, at most [index]
    times *)
Lemma acmd41_loop_at c index : ∀ n s, bus_at s (idle c n) Deselected →
  ∃ s', acmd41_loop sd_dev index s = Ok (inr (index - n)%nat, s') ∧
    bus_at s' (if decide (n < index)%nat then oper c else idle c (n - index)) Deselected.
Proof.
  induction index as [|index IH]; intros n s H.
  { exists s. by rewrite Nat.sub_0_r, decide_False by lia. }
  cbn [acmd41_loop]. steps (send_cmd_at s (idle c n) _ CMD55 0 0 (card_at c (Idle n) true) (Delayed [1] Listening) H ltac:(done) eq_refl).
  steps (get_response_at _ _ _ _ _ V ltac:(done)). cbn [sent] in V0.
  steps (end_cmd_at _ _ _ _ V0 eq_refl ltac:(by left)). cbn [negb Z.eqb Pos.eqb].
  destruct n as [|n].
  - steps (send_cmd_at _ _ _ ACMD41 0x40000000 0 (oper c) (Delayed [0] Listening) V1 ltac:(done) eq_refl).
    steps (get_response_at _ _ _ _ _ V2 ltac:(done)). cbn [sent] in V3.
    steps (end_cmd_at _ _ _ _ V3 eq_refl ltac:(by left)). exists s5. by rewrite decide_True by lia.
  - steps (send_cmd_at _ _ _ ACMD41 0x40000000 0 (idle c n) (Delayed [1] Listening) V1 ltac:(done) eq_refl).
    steps (get_response_at _ _ _ _ _ V2 ltac:(done)). cbn [sent] in V3.
    steps (end_cmd_at _ _ _ _ V3 eq_refl ltac:(by left)). cbn [Z.eqb].
    destruct (IH n s5 V4) as (s6 & E6 & V6). exists s6. split; [exact E6|].
    destruct (decide (n < index)%nat); [rewrite decide_True by lia|rewrite decide_False by lia]; done.
Qed.

Lemma cmd58_loop_at s c index frame : card_wf c → bus_at s (oper c) Deselected →
  ∃ s', cmd58_loop sd_dev (Datatypes.S index) frame s = Ok ((Datatypes.S index, cd_ocr c), s') ∧ bus_at s' (oper c) Deselected.
Proof.
  intros Hwf H. cbn [cmd58_loop]. pose proof (wf_ocr _ Hwf) as Ho.
  steps (send_cmd_at s (oper c) _ CMD58 0 1 (oper c) (Delayed (0 :: cd_ocr c) Listening) H ltac:(done) eq_refl).
  steps (get_response_at _ _ _ _ _ V ltac:(done)).
  destruct (cd_ocr c) as [|a [|b [|d [|e [|]]]]]; try done. cbn [sent] in V0.
  steps (read_data_at _ _ 4 _ _ V0 ltac:(cbn; lia)). cbn in V1.
  steps (end_cmd_at _ _ _ _ V1 eq_refl ltac:(by left)). by eexists.
Qed.

Lemma get_register_at s c cmd reg : bus_at s (oper c) Deselected → length reg = 16%nat →
  cmd = CMD9 ∧ reg = cd_csd c ∨ cmd = CMD10 ∧ reg = cd_cid c →
  ∃ s', get_register sd_dev cmd s = Ok (inl (reg ++ crc16 reg), s') ∧ bus_at s' (oper c) Deselected.
Proof.
  intros H Hl Hcmd. unfold get_register.
  steps (send_cmd_at s (oper c) _ cmd 0 0 (oper c) (Delayed [0] (Delayed (data_block crc16 reg) Listening)) H ltac:(done)).
  { by destruct Hcmd as [[-> ->] | [-> ->]]. }
  steps (get_response_at _ _ _ _ _ V ltac:(done)). cbn [negb Z.eqb sent] in V0 |- *.
  steps (data_block_at _ _ _ _ V0 ltac:(lia)). cbn [negb Z.eqb Pos.eqb SD_START_DATA_SINGLE_BLOCK_READ].
  assert (length (reg ++ crc16 reg) = 18%nat) as H18 by (rewrite length_app, crc16_length; lia).
  steps (read_data_at _ _ 18 _ _ V1 ltac:(lia)). rewrite take_ge by lia. rewrite drop_ge in V2 by lia. cbn [sent] in V2.
  steps (end_cmd_at _ _ _ _ V2 eq_refl ltac:(by left)). by eexists.
Qed.

(** The registers are decoded from their first 16 bytes. *)
Lemma csd_decode_app t l : length t = 16%nat → csd_decode (t ++ l) = csd_decode t.
Proof. intros H. do 16 (destruct t as [|? t]; [done|]). by destruct t. Qed.
Lemma cid_decode_app t l : length t = 16%nat → cid_decode (t ++ l) = cid_decode t.
Proof. intros H. do 16 (destruct t as [|? t]; [done|]). by destruct t. Qed.

Lemma decode_device_size c : card_wf c → DeviceSize (csd_decode (cd_csd c)) = c_size (cd_csd c).
Proof.
  intros Hwf. cbn. pose proof (csd_byte c 8 Hwf). pose proof (csd_byte c 9 Hwf). unfold is_byte in *.
  set (x := nth 7 _ 0) in *. set (y := nth 8 _ 0) in *. set (z := nth 9 _ 0) in *.
  change 0x3F with (2 ^ 6 - 1). rewrite land_pow2_mod by lia. pose proof (Z.mod_pos_bound x (2 ^ 6) ltac:(lia)).
  unfold shl. rewrite !(Z.mod_small (Z.shiftl _ _)) by (rewrite Z.shiftl_mul_pow2; lia).
  rewrite (Z.shiftl_mul_pow2 y), lor_shiftl_add by lia.
  replace (x `mod` 2 ^ 6 * 2 ^ 16 + y * 2 ^ 8) with ((x `mod` 2 ^ 6 * 2 ^ 8 + y) * 2 ^ 8) by lia.
  rewrite <- Z.shiftl_mul_pow2, lor_shiftl_add by lia. unfold c_size. fold x y z. lia.
Qed.

Definition card_info (c : card) : SDCardInfo :=
  {| SD_csd := csd_decode (cd_csd c); SD_cid := cid_decode (cd_cid c); CardCapacity := cd_size c * 512; CardBlockSize := 512 |}.

Lemma get_cardinfo_at s c : card_wf c → bus_at s (oper c) Deselected →
  ∃ s', get_cardinfo sd_dev s = Ok (inl (card_info c), s') ∧ bus_at s' (oper c) Deselected.
Proof.
  intros Hwf H. unfold get_cardinfo, get_csdregister, get_cidregister. rewrite ?M_bind_assoc.
  steps (get_register_at s c CMD9 (cd_csd c) H ltac:(by apply wf_csd) ltac:(by left)). run_refl. rewrite ?M_bind_assoc.
  steps (get_register_at _ c CMD10 (cd_cid c) V ltac:(by apply wf_cid) ltac:(by right)). run_refl.
  rewrite csd_decode_app, cid_decode_app by (by apply wf_csd || by apply wf_cid).
  assert (RdBlockLen (csd_decode (cd_csd c)) = 9) as ->.
  { cbn. change 0x0F with (2 ^ 4 - 1). rewrite land_pow2_mod by lia. by apply wf_block_len. }
  rewrite decode_device_size by done. pose proof (c_size_bound c Hwf). change (shl 64 1 9) with 512.
  rewrite uadd_in by lia. run_refl. rewrite umul_in by lia. run_refl. rewrite umul_in by lia. run_refl.
  exists s1. split; [|done]. unfold card_info. by rewrite (wf_c_size c Hwf).
Qed.

(** A card that the first commands reset; [CMD8] is answered with the idle bit. *)
Definition init_tail (result : Z) : M S (SDCardInfo + InitError) :=
  l ← acmd41_loop sd_dev 255;
  match l with
  | inl e => mret (inr e)
  | inr 0%nat => mret (inr (CMDFailed ACMD41 result))
  | inr _ =>
      '(index, frame) ← cmd58_loop sd_dev 255 [0; 0; 0; 0];
      match index with
      | O => mret (inr (CMDFailed CMD58 result))
      | _ =>
          if Z.land (nth 0 frame 0) 0x40 =? 0 then mret (inr (CardCapacityStatusNotSet frame))
          else
            HIGH_SPEED_ENABLE ;;
            i ← get_cardinfo sd_dev;
            mret match i with inl i => inl i | inr _ => inr CannotGetCardInfo end
      end
  end.

Lemma init_reset_at s c p : bus_at s c p → select true p = Deselected →
  ∃ s', sd_init sd_dev s = init_tail 1 s' ∧ bus_at s' (idle c (cd_polls c)) Deselected.
Proof.
  intros [m H] Hp. unfold sd_init, lowlevel_init. rewrite ?M_bind_assoc.
  steps (law_output _ _ _ _ H). destruct (law_clk _ _ _ _ 200000 V) as (r & s1 & E1 & V1). rewrite ?M_bind_assoc. run E1. run_refl.
  steps (set_pin_at s1 c p true (ex_intro (λ m, view s1 m c p) m V1)). rewrite Hp in V0.
  steps (write_data_at _ _ _ (replicate 10 0xff) c Deselected V0 ltac:(intros; by apply law_ignored)).
  steps (send_cmd_at _ c _ CMD0 0 0x95 (idle c (cd_polls c)) (Delayed [1] Listening) V2 ltac:(done) ltac:(reflexivity)).
  steps (get_response_at _ _ _ _ _ V3 ltac:(done)). cbn [sent] in V4.
  steps (end_cmd_at _ _ _ _ V4 eq_refl ltac:(by left)). cbn [negb Z.eqb Pos.eqb].
  steps (send_cmd_at _ _ _ CMD8 0x01AA 0x87 (idle c (cd_polls c)) (Delayed [1; 0; 0; 1; 0xAA] Listening) V5 ltac:(done) ltac:(reflexivity)).
  steps (get_response_at _ _ _ _ _ V6 ltac:(done)). cbn [sent] in V7.
  steps (read_data_at _ _ 4 _ _ V7 ltac:(cbn; lia)). cbn in V8.
  steps (end_cmd_at _ _ _ _ V8 eq_refl ltac:(by left)). eexists. split; [reflexivity|done].
Qed.

Lemma init_tail_at s c : card_wf c → bus_at s (idle c (cd_polls c)) Deselected → (cd_polls c < 255)%nat →
  ∃ s', (if Z.testbit (nth 0 (cd_ocr c) 0) 6 then init_tail 1 s = Ok (inl (card_info c), s')
         else init_tail 1 s = Ok (inr (CardCapacityStatusNotSet (cd_ocr c)), s')) ∧
    bus_at s' (oper c) Deselected.
Proof.
  intros Hwf H Hn. unfold init_tail. steps (acmd41_loop_at c 255 (cd_polls c) s H). rewrite decide_True in V by done.
  destruct (255 - cd_polls c)%nat eqn:Ep; [lia|]. steps (cmd58_loop_at _ c 254 [0; 0; 0; 0] Hwf V).
  set (b := nth 0 (cd_ocr c) 0). assert (Z.land b 0x40 = if Z.testbit b 6 then 0x40 else 0) as ->.
  { change 0x40 with (2 ^ 6). rewrite Z.land_comm. apply Z.bits_inj'. intros i Hi. rewrite Z.land_spec, Z.pow2_bits_eqb by lia.
    destruct (Z.eqb_spec 6 i) as [<-|]; [|destruct (Z.testbit b 6); rewrite ?Z.bits_0, ?Z.pow2_bits_false; done || lia].
    by destruct (Z.testbit b 6). }
  destruct (Z.testbit b 6); cbn [Z.eqb]; [|by eexists].
  destruct V0 as [m V0]. destruct (law_clk _ _ _ _ 10000000 V0) as (r & s2 & E2 & V2). unfold HIGH_SPEED_ENABLE.
  rewrite ?M_bind_assoc. run E2. run_refl.
  steps (get_cardinfo_at s2 c Hwf (ex_intro (λ m, view s2 m _ _) m V2)). by eexists.
Qed.

Lemma init_slow_at s c : bus_at s (idle c (cd_polls c)) Deselected → (255 ≤ cd_polls c)%nat →
  ∃ s', init_tail 1 s = Ok (inr (CMDFailed ACMD41 1), s') ∧ bus_at s' (idle c (cd_polls c - 255)) Deselected.
Proof.
  intros H Hn. unfold init_tail. steps (acmd41_loop_at c 255 (cd_polls c) s H). rewrite decide_False in V by lia.
  replace (255 - cd_polls c)%nat with 0%nat by lia. by eexists.
Qed.

(** Initialisation of a card in any state brings it to its operational state and
    decodes its registers: the capacity it reports is that of the sectors.  A card
    that is not a high-capacity card is refused with its operating conditions, and
    one that needs more than 255 polls with the last command. *)
Theorem sd_init_correct s c p : card_wf c → bus_at s c p → select true p = Deselected →
  ∃ r s', sd_init sd_dev s = Ok (r, s') ∧
    if decide (cd_polls c < 255)%nat then
      bus_at s' (card_at c Operational false) Deselected ∧
      r = (if Z.testbit (nth 0 (cd_ocr c) 0) 6 then inl (card_info c) else inr (CardCapacityStatusNotSet (cd_ocr c)))
    else r = inr (CMDFailed ACMD41 1).
Proof.
  intros Hwf H Hp. destruct (init_reset_at s c p H Hp) as (s1 & -> & V1).
  destruct (decide (cd_polls c < 255)%nat) as [Hn|Hn].
  - destruct (init_tail_at s1 c Hwf V1 Hn) as (s2 & E2 & V2). destruct (Z.testbit _ 6); eexists _, s2; (split; [exact E2|done]).
  - destruct (init_slow_at s1 c V1) as (s2 & E2 & V2); [lia|]. eexists _, s2. by split; [exact E2|].
Qed.

Lemma block_of_sectors c n : card_wf c → ∀ i j, 0 ≤ i → i + Z.of_nat n ≤ cd_size c → 0 ≤ j < Z.of_nat n →
  block_of (sectors c i n) j = cd_data c (i + j).
Proof.
  intros Hwf. induction n as [|n IH]; intros i j Hi Hn Hj; [lia|]. rewrite sectors_cons.
  pose proof (wf_data _ Hwf i ltac:(lia)) as Hd. unfold block_of, BLOCK_SZ, SEC_LEN in *.
  destruct (decide (j = 0)) as [-> | Hj0].
  - change (Z.to_nat (0 * 512)) with 0%nat. rewrite drop_0, take_app_length' by lia. f_equal; lia.
  - rewrite drop_app_ge by lia. replace (i + j) with (i + 1 + (j - 1)) by lia. rewrite <- IH by lia. do 2 f_equal. lia.
Qed.

(** The bytes of a card *)
Definition card_bytes (c : card) : list Z := sectors c 0 (Z.to_nat (cd_size c)).

(** *** Writing *)

Variable fuel : nat.
Hypothesis Hfuel : (busy_max ≤ fuel)%nat.

(** The card acknowledges a block, and is busy for a while. *)
Lemma busy_loop_at k : ∀ fuel s c y p, (k ≤ fuel)%nat → y ≠ 0 → bus_at s c (Sending (replicate k 0 ++ [y]) p) →
  ∃ s', (b ← read_byte sd_dev; busy_loop sd_dev fuel b) s = Ok (tt, s') ∧ bus_at s' c p.
Proof.
  induction k as [|k IH]; intros f s c y p Hk Hy H; steps (read_byte_at _ _ _ _ _ H).
  - exists s0. split; [|done]. destruct f; cbn; by replace (y =? 0) with false by lia.
  - destruct f as [|f]; [lia|]. cbn [busy_loop Z.eqb]. apply (IH f s0 c y); [lia|done|]. destruct k; exact V.
Qed.

Lemma get_dataresponse_at s c p : bus_at s c (Programming p) →
  ∃ s', get_dataresponse fuel sd_dev s = Ok (0, s') ∧ bus_at s' c p.
Proof.
  intros [m H]. destruct (law_program _ _ _ _ H) as (x & k & y & Hx & Hk & Hy & V). unfold get_dataresponse.
  steps (read_byte_at s c x (replicate k 0 ++ [y]) p (ex_intro (λ m, view s m c _) m V)). rewrite Hx. cbn [negb Z.eqb Pos.eqb].
  destruct (busy_loop_at k fuel s0 c y p) as (s1 & E1 & V1); [lia|done|destruct k; exact V0|].
  exists s1. split; [|done]. rewrite <- M_bind_assoc. by run E1.
Qed.

Lemma card_store_ready c i l : card_ready c → Z.of_nat (length l) = SEC_LEN → card_ready (card_store c i l).
Proof.
  intros (? & ? & []) Hl. split_and!; [done..|]. split; try done. cbn. intros j Hj. case_decide; auto.
Qed.

Lemma write_sector_at s c buf sector : card_ready c → bus_at s c Deselected → Z.of_nat (length buf) = SEC_LEN →
  0 ≤ sector < cd_size c →
  ∃ s', write_sector fuel sd_dev buf sector s = Ok (inl tt, s') ∧ bus_at s' (card_store c sector buf) Deselected.
Proof.
  intros Hr H Hb Hs. pose proof Hr as (Hst & _ & Hwf). pose proof (wf_size _ Hwf) as Hsz. unfold write_sector.
  rewrite (sector_buffer_true buf 0) by lia. cbn [ensure]. run_refl. rewrite Hb, Z.eqb_refl.
  steps (send_cmd_at s c _ CMD24 sector 0 c (Delayed [0] (WantToken sector)) H ltac:(unfold is_u32; lia)).
  { cbn. rewrite Hst. replace (sector <? cd_size c) with true by lia. by rewrite card_at_ready. }
  run_refl. steps (get_response_at _ _ _ _ _ V ltac:(done)). cbn [negb Z.eqb sent] in V0 |- *. rewrite Z.div_same by done.
  change (Z.to_nat 1) with 1%nat. cbn [write_chunks]. rewrite take_ge by (unfold SEC_LEN in *; lia).
  steps (write_data_at _ _ _ [0xff; 0xFE] c (WantData sector) V0 ltac:(intros; by apply law_token)).
  steps (write_data_at _ _ _ buf c (WantCrc sector buf) V1 ltac:(intros; by apply law_data)).
  steps (write_data_at _ _ _ [0xff; 0xff] (card_store c sector buf) (Programming Listening) V2 ltac:(intros; by apply law_crc)).
  steps (get_dataresponse_at _ _ _ V3). cbn [negb Z.eqb]. run_refl.
  steps (end_cmd_at _ _ _ _ V4 eq_refl ltac:(by left)). steps (end_cmd_at _ _ _ _ V5 eq_refl ltac:(by left)). by eexists.
Qed.

Lemma write_sector_refused s c buf sector : card_ready c → bus_at s c Deselected →
  Z.of_nat (length buf) = SEC_LEN → cd_size c ≤ sector < 2 ^ 32 →
  ∃ s', write_sector fuel sd_dev buf sector s = Ok (inr tt, s') ∧ bus_at s' c Deselected.
Proof.
  intros Hr H Hb Hs. unfold write_sector. rewrite (sector_buffer_true buf 0) by lia. cbn [ensure]. run_refl.
  rewrite Hb, Z.eqb_refl. steps (refused_at s c CMD24 sector Hr H Hs ltac:(by right; right)). run_refl.
  steps (get_response_at _ _ _ _ _ V ltac:(done)). cbn [negb Z.eqb sent] in V0 |- *.
  steps (end_cmd_at _ _ _ _ V0 eq_refl ltac:(by left)). by eexists.
Qed.

(** Sectors read back as written: a read of whole sectors fills the buffer with
    their content, a write of one sector changes that sector and no other, and
    both end with the card deselected and ready; a sector behind the end of the
    card is an error that changes nothing.  This holds for every delay the card
    answers with. *)
Theorem sd_sectors_correct s c : card_ready c → bus_at s c Deselected →
  (∀ buf sector n, (0 < n)%nat → Z.of_nat (length buf) = Z.of_nat n * SEC_LEN → 0 ≤ sector < 2 ^ 32 →
     (sector + Z.of_nat n ≤ cd_size c →
        ∃ s', read_sector sd_dev buf sector s = Ok ((inl tt, sectors c sector n), s') ∧ bus_at s' c Deselected) ∧
     (cd_size c ≤ sector →
        ∃ s', read_sector sd_dev buf sector s = Ok ((inr tt, buf), s') ∧ bus_at s' c Deselected)) ∧
  (∀ buf sector, Z.of_nat (length buf) = SEC_LEN → 0 ≤ sector < 2 ^ 32 →
     ∃ r s', write_sector fuel sd_dev buf sector s = Ok (r, s') ∧
       if decide (sector < cd_size c) then
         r = inl tt ∧ bus_at s' (card_store c sector buf) Deselected ∧ card_ready (card_store c sector buf)
       else r = inr tt ∧ bus_at s' c Deselected).
Proof.
  intros Hr H. split.
  - intros buf sector n Hn Hb Hs. split; intros Hs'; [by apply read_sector_at; try lia|].
    destruct n as [|n]; [lia|]. by apply (read_sector_refused _ _ _ _ n); try lia.
  - intros buf sector Hb Hs. destruct (decide (sector < cd_size c)) as [Hlt|Hge].
    + destruct (write_sector_at s c buf sector Hr H Hb) as (s' & E & V); [lia|]. exists (inl tt), s'.
      split_and!; try done. by apply card_store_ready.
    + destruct (write_sector_refused s c buf sector Hr H Hb) as (s' & E & V); [lia|]. by exists (inr tt), s'.
Qed.

(** *** The block device *)

Lemma bus_card s c p : bus_at s c p → card_of s = c.
Proof. intros [m H]. by eapply view_card. Qed.

(** A bus with a ready card of [n] sectors is a disk of [n] blocks. *)
Definition sd_ok (n : Z) (s : S) : Prop := bus_at s (card_of s) Deselected ∧ card_ready (card_of s) ∧ cd_size (card_of s) = n.

#[local] Instance sd_device : BlockDevice S := {| read_block := sd_read_block; write_block := sd_write_block fuel |}.

#[local] Instance sd_laws (n : Z) : BlockLaws S.
Proof.
  refine {| nblocks := n; blocks s i := cd_data (card_of s) i; disk_ok := sd_ok n |}.
  - intros s i (_ & (_ & _ & Hwf) & Hn) Hi. apply (wf_data _ Hwf). lia.
  - intros s i (H & Hr & Hn) Hi. pose proof Hr as (_ & _ & Hwf). pose proof (wf_size _ Hwf).
    destruct (read_sector_one s _ (replicate (Z.to_nat BLOCK_SZ) 0) i Hr H) as (s' & E & V); [done|lia|].
    exists s'. cbn. unfold sd_read_block. unfold cast. rewrite Z.mod_small by lia. run E. rewrite <- (bus_card _ _ _ V).
    split; [by rewrite (bus_card _ _ _ V)|]. rewrite (bus_card _ _ _ V). split; [|done].
    unfold sd_ok. by rewrite (bus_card _ _ _ V).
  - intros s i l (H & Hr & Hn) Hi Hl. pose proof Hr as (_ & _ & Hwf). pose proof (wf_size _ Hwf).
    destruct (write_sector_at s _ l i Hr H Hl) as (s' & E & V); [lia|].
    exists s'. cbn. unfold sd_write_block. unfold cast. rewrite Z.mod_small by lia. run E.
    split; [done|]. pose proof (bus_card _ _ _ V) as Hc. split.
    + unfold sd_ok. rewrite Hc. split_and!; [done| by apply card_store_ready|done].
    + intros j Hj. rewrite Hc. done.
Defined.

Lemma bb_new_at s c : bus_at s c Deselected → card_ready c →
  ∃ b, bb_new s = Ok b ∧ @buf_rep S sd_device (sd_laws (cd_size c)) b {| bytes := card_bytes c; cur_block := 0; cur_off := 0 |}.
Proof.
  intros H Hr. pose proof Hr as (_ & _ & Hwf). pose proof (wf_size _ Hwf) as Hsz. pose proof (bus_card _ _ _ H) as Hc.
  set (b0 := {| device := s; bb_buf := replicate (Z.to_nat BLOCK_SZ) 0; bb_pos := 0; block_id := 0; modified := false |}).
  destruct (@fill_buf_eq S sd_device (sd_laws (cd_size c)) b0) as (d & E & Hd & Hj);
    [unfold disk_ok; cbn; unfold sd_ok; by rewrite Hc|change (0 ≤ 0 < cd_size c); lia|].
  eexists. split; [unfold bb_new; fold b0; rewrite E; reflexivity|]. unfold sd_laws in Hj. cbn in Hj.
  pose proof (wf_data _ Hwf 0 ltac:(lia)) as H0. rewrite Hc in *.
  split; cbn; try done.
  - unfold BLOCK_SZ. lia.
  - unfold card_bytes. rewrite length_sectors by (done || lia). change BLOCK_SZ with SEC_LEN. lia.
  - by rewrite Hc.
  - split; [done|lia].
  - intros i Hi. unfold card_bytes. rewrite block_of_sectors by (done || lia). rewrite Hj by lia.
    rewrite Hc. case_decide; [subst|]; by rewrite Z.add_0_l.
  - intros _. by rewrite Hj, Hc by lia.
Qed.

Lemma init_sdcard_at s c p : card_wf c → bus_at s c p → select true p = Deselected → (cd_polls c < 255)%nat →
  Z.testbit (nth 0 (cd_ocr c) 0) 6 = true →
  ∃ s', init_sdcard s = Ok (sd_dev, s') ∧ bus_at s' (card_at c Operational false) Deselected.
Proof.
  intros Hwf [m H] Hp Hn Ho. unfold init_sdcard, io_init. rewrite ?M_bind_assoc.
  steps (law_function _ _ _ _ IO_SPI0_SCLK SPI0_SCLK H). steps (law_function _ _ _ _ IO_SPI0_MOSI SPI0_D0 V).
  steps (law_function _ _ _ _ IO_SPI0_MISO SPI0_D1 V0). steps (law_function _ _ _ _ IO_SPI0_CS0 (GPIOHS SD_CS_GPIONUM) V1).
  steps (law_pull _ _ _ _ IO_SPI0_CS0 PULL_DOWN V2).
  destruct (init_reset_at s4 c p (ex_intro (λ m, view s4 m c p) m V3) Hp) as (s5 & E5 & V5).
  destruct (init_tail_at s5 c Hwf V5 Hn) as (s6 & E6 & V6). rewrite Ho in E6. rewrite E6 in E5. run E5. run_refl.
  pose proof (wf_size _ Hwf). cbn [CardCapacity card_info].
  rewrite Z.div_mul by done. replace (0 <? cd_size c) with true by lia. run_refl. by exists s6.
Qed.

(** C20: From power-on to files: the driver brings up any high-capacity card that answers within 255 polls, and the
    buffered block device over it behaves as the array of the card's bytes for
    every sequence of accesses that stay inside a block and do not end one byte before its end; a final flush leaves the
    result in the card's sectors. *)
Theorem sd_card_is_disk s c p : card_wf c → bus_at s c p → select true p = Deselected → (cd_polls c < 255)%nat →
  Z.testbit (nth 0 (cd_ocr c) 0) 6 = true →
  ∃ s1 b, init_sdcard s = Ok (sd_dev, s1) ∧ bb_new s1 = Ok b ∧
    ∀ rs os a, flat_run rs {| bytes := card_bytes c; cur_block := 0; cur_off := 0 |} = Some (os, a) →
      ∃ b1 b2, bb_run rs b = Ok (os, b1) ∧ bb_flush b1 = Ok (IoOk tt, b2) ∧
        ∀ i, 0 ≤ i < cd_size c → cd_data (card_of (device b2)) i = block_of (bytes a) i.
Proof.
  intros Hwf H Hp Hn Ho. destruct (init_sdcard_at s c p Hwf H Hp Hn Ho) as (s1 & E1 & V1).
  assert (card_ready (card_at c Operational false)) as Hr by (split_and!; [done..|]; by destruct Hwf).
  destruct (bb_new_at s1 _ V1 Hr) as (b & Eb & Hb). exists s1, b. split_and!; [done..|].
  intros rs os a Hrun. destruct (@buf_run_at S sd_device (sd_laws (cd_size c)) rs b _ a os Hb Hrun) as (b1 & b2 & H1 & _ & H2 & H3).
  by exists b1, b2.
Qed.
End proofs.
