(* ===== verification/SdSample.v ===== *)
(** * A simulated SD card

    [SimBus] is a bus with a card that behaves as [SdProtocol] documents, with a
    fixed delay; it satisfies the laws, and the driver runs on it. *)

From S2P Require Import Prelude Io FatIo BlockDev SdCard SdProtocol.

Record sim := { sm_mode : tmod; sm_card : card; sm_phase : phase }.

Definition sim_crc (l : list Z) : list Z := [0; 0].

(** The phase with its delay made explicit *)
Definition norm (c : card) (p : phase) : phase :=
  match p with
  | Delayed bs p => Sending ([0xFF; 0xFF] ++ bs) p
  | Stream i => if i <? cd_size c then Sending ([0xFF; 0xFF] ++ data_block sim_crc (cd_data c i)) (Stream (i + 1)) else Stream i
  | Programming p => Sending [0xE5; 0; 0; 0; 0xFF] p
  | p => p
  end.

Definition sim_goto (s : sim) (c : card) (p : phase) : sim := {| sm_mode := sm_mode s; sm_card := c; sm_phase := p |}.

Definition sim_recv (n : Z) (s : sim) : list Z * sim :=
  match norm (sm_card s) (sm_phase s), sm_mode s with
  | Sending bs p, RECV => (take (Z.to_nat n) bs, sim_goto s (sm_card s) (sent (drop (Z.to_nat n) bs) p))
  | _, _ => (replicate (Z.to_nat n) 0xFF, s)
  end.

Definition sim_send (l : list Z) (s : sim) : sim :=
  let c := sm_card s in
  match norm c (sm_phase s), sm_mode s with
  | (Listening | Halting) as p, TRANS =>
      match command sim_crc c p (frame_cmd l) (frame_arg l) (frame_crc_ok l) with
      | Some (c', p') => sim_goto s c' p'
      | None => s
      end
  | WantToken i, TRANS => if bool_decide (l = [0xFF; 0xFE]) then sim_goto s c (WantData i) else s
  | WantData i, TRANS => sim_goto s c (WantCrc i l)
  | WantCrc i d, TRANS => sim_goto s (card_store c i d) (Programming Listening)
  | _, _ => s
  end.

#[export] Instance SimBus : SpiBus sim := {|
  spi_configure cfg s := Ok (tt, {| sm_mode := cf_tmod cfg; sm_card := sm_card s; sm_phase := sm_phase s |});
  spi_set_clk_rate f s := Ok (f, s);
  spi_recv_data _ n s := Ok (sim_recv n s);
  spi_send_data _ l s := Ok (tt, sim_send l s);
  gpiohs_set_pin n b s := Ok (tt, if n =? SD_CS_GPIONUM then sim_goto s (sm_card s) (select b (sm_phase s)) else s);
  gpiohs_set_output _ s := Ok (tt, s);
  fpioa_set_function _ _ s := Ok (tt, s);
  fpioa_set_io_pull _ _ s := Ok (tt, s);
|}.

Definition sim_view (s : sim) (m : tmod) (c : card) (p : phase) : Prop :=
  sm_mode s = m ∧ sm_card s = c ∧ norm c (sm_phase s) = norm c p.

Lemma norm_streaming c p : streaming (norm c p) = streaming p.
Proof. destruct p; try done. cbn. by destruct (i <? cd_size c). Qed.

Lemma norm_select c b p q : norm c p = norm c q → norm c (select b p) = norm c (select b q).
Proof.
  intros H. unfold select. pose proof (norm_streaming c p) as Hp. rewrite H, norm_streaming in Hp.
  destruct b; [by rewrite Hp|].
  destruct p, q; cbn in *; try done; repeat case_match; try done; by simplify_eq.
Qed.

#[export] Instance SimLaws : CardLaws sim.
Proof.
  refine {| view := sim_view; card_of := sm_card; crc16 := sim_crc; busy_max := 3 |}; unfold sim_view.
  - by intros s m c p (_ & ? & _).
  - done.
  - intros s m c p t (? & <- & Hp). by eexists.
  - intros s m c p f H. by eexists _, s.
  - intros s m c p H. by exists s.
  - intros s m c p b (? & <- & Hp). eexists. split; [done|]. cbn. split_and!; [done..|]. by apply norm_select.
  - intros s m c p io f H. by exists s.
  - intros s m c p io f H. by exists s.
  - intros s m c bs p (? & ? & Hp). exists 2%nat. split; [lia|done].
  - intros s m c i (? & ? & Hp) Hi. cbn in Hp. replace (i <? cd_size c) with true in Hp by lia. done.
  - intros s c n bs p (Hm & <- & Hp) Hn. cbn. unfold sim_recv. rewrite Hp, Hm. cbn [norm].
    eexists. split; [done|]. split_and!; [exact Hm|done..].
  - intros s c l (Hm & <- & Hp). exists s. split; [|done]. cbn. unfold sim_send. by rewrite Hp.
  - intros s c l (Hm & <- & Hp). exists s. split; [|done]. cbn. unfold sim_send. by rewrite Hp.
  - intros s c p f c' p' (Hm & <- & Hp) _ _ Hc. cbn. unfold sim_send. rewrite Hp, Hm.
    destruct p; try done; cbn [norm]; rewrite Hc; by eexists.
  - intros s c i (Hm & <- & Hp). cbn. unfold sim_send. rewrite Hp, Hm. cbn [norm]. by eexists.
  - intros s c i l (Hm & <- & Hp) _. cbn. unfold sim_send. rewrite Hp, Hm. cbn [norm]. by eexists.
  - intros s c i l x y (Hm & <- & Hp). cbn. unfold sim_send. rewrite Hp, Hm. cbn [norm]. by eexists.
  - intros s m c p (? & <- & Hp). exists 0xE5, 3%nat, 0xFF. split_and!; try done.
Defined.

(** ** A card of half a megabyte *)

Definition sample_csd : list Z := [0x40; 0x0E; 0; 0x32; 0x5B; 0x59; 0; 0; 0; 0; 0x7F; 0x80; 0x0A; 0x40; 0; 0x01].
Definition sample_card (polls : nat) (ocr0 : Z) : card :=
  {| cd_stage := PowerOn; cd_app := false; cd_polls := polls; cd_ocr := [ocr0; 0xFF; 0x80; 0]; cd_csd := sample_csd;
     cd_cid := replicate 16 1; cd_size := 1024; cd_data := λ i, replicate 512 (i `mod` 256) |}.
Definition sample_bus (polls : nat) (ocr0 : Z) : sim :=
  {| sm_mode := TRANS_RECV; sm_card := sample_card polls ocr0; sm_phase := Deselected |}.

Lemma sample_wf polls ocr0 : card_wf (sample_card polls ocr0).
Proof. split; try done. by repeat constructor. Qed.

Lemma sample_at polls ocr0 : bus_at (sample_bus polls ocr0) (sample_card polls ocr0) Deselected.
Proof. by exists TRANS_RECV. Qed.

Lemma sd_init_correct_witness :
  (∃ s', sd_init sd_dev (sample_bus 3 0xC0) = Ok (inl (card_info (sample_card 3 0xC0)), s')) ∧
  (∃ s', sd_init sd_dev (sample_bus 3 0x80) = Ok (inr (CardCapacityStatusNotSet [0x80; 0xFF; 0x80; 0]), s')) ∧
  (∃ s', sd_init sd_dev (sample_bus 300 0xC0) = Ok (inr (CMDFailed ACMD41 1), s')).
Proof.
  split; [|split].
  - destruct (sd_init_correct (sample_bus 3 0xC0) _ _ (sample_wf _ _) (sample_at 3 0xC0) eq_refl) as (r & s' & E & _ & ->). by exists s'.
  - destruct (sd_init_correct (sample_bus 3 0x80) _ _ (sample_wf _ _) (sample_at 3 0x80) eq_refl) as (r & s' & E & _ & ->). by exists s'.
  - destruct (sd_init_correct (sample_bus 300 0xC0) _ _ (sample_wf _ _) (sample_at 300 0xC0) eq_refl) as (r & s' & E & ->). by exists s'.
Defined.

Definition ready_bus : sim := {| sm_mode := TRANS; sm_card := card_at (sample_card 3 0xC0) Operational false; sm_phase := Deselected |}.
Lemma ready_ready : card_ready (sm_card ready_bus).
Proof. split_and!; [done..|]. by destruct (sample_wf 3 0xC0). Qed.
Lemma ready_at : bus_at ready_bus (sm_card ready_bus) Deselected.
Proof. by exists TRANS. Qed.

Lemma sd_sectors_correct_witness :
  (∃ s', read_sector sd_dev (replicate 1024 0) 7 ready_bus = Ok ((inl tt, replicate 512 7 ++ replicate 512 8), s')) ∧
  (∃ s', read_sector sd_dev (replicate 512 0) 1024 ready_bus = Ok ((inr tt, replicate 512 0), s')) ∧
  (∃ s', write_sector 3 sd_dev (replicate 512 9) 7 ready_bus = Ok (inl tt, s') ∧
     bus_at s' (card_store (sm_card ready_bus) 7 (replicate 512 9)) Deselected).
Proof.
  destruct (@sd_sectors_correct sim SimBus SimLaws 3 (le_n 3) ready_bus _ ready_ready ready_at) as [Hrd Hwr]. split; [|split].
  - destruct (Hrd (replicate 1024 0) 7 2%nat ltac:(lia) eq_refl ltac:(lia)) as [H _].
    destruct H as (s' & E & _); [cbn; lia|]. exists s'.
    assert (replicate 512 7 ++ replicate 512 8 = sectors (sm_card ready_bus) 7 2) as -> by (vm_compute; reflexivity). exact E.
  - destruct (Hrd (replicate 512 0) 1024 1%nat ltac:(lia) eq_refl ltac:(lia)) as [_ H].
    destruct H as (s' & E & _); [cbn; lia|]. exists s'. exact E.
  - destruct (Hwr (replicate 512 9) 7 eq_refl ltac:(lia)) as (r & s' & E & -> & V & _). exists s'. exact (conj E V).
Defined.

(** Two bytes written into the second block of a disk *)
Definition sample_session : list request := [ReqSeek 600; ReqWrite [7; 8]].
Lemma sample_session_run bs : 1024 ≤ Z.of_nat (length bs) →
  flat_run sample_session {| bytes := bs; cur_block := 0; cur_off := 0 |} =
    Some ([(IoOk 600, []); (IoOk 2, [])], {| bytes := splice 600 [7; 8] bs; cur_block := 1; cur_off := 90 |}).
Proof.
  intros Hl. cbn [sample_session flat_run admissible bytes]. replace (600 <? Z.of_nat (length bs)) with true by lia. reflexivity.
Qed.

Lemma sample_bytes polls ocr0 : Z.of_nat (length (card_bytes (sample_card polls ocr0))) = 1024 * 512.
Proof. unfold card_bytes. by rewrite length_sectors by (apply sample_wf || done). Qed.

Lemma sd_card_is_disk_witness : ∃ s1 b b1 b2,
  init_sdcard (sample_bus 3 0xC0) = Ok (sd_dev, s1) ∧ @bb_new sim (sd_device 3) s1 = Ok b ∧
  @bb_run sim (sd_device 3) sample_session b = Ok ([(IoOk 600, []); (IoOk 2, [])], b1) ∧
  @bb_flush sim (sd_device 3) b1 = Ok (IoOk tt, b2) ∧
  cd_data (sm_card (device b2)) 1 = splice 88 [7; 8] (replicate 512 1).
Proof.
  destruct (@sd_card_is_disk sim SimBus SimLaws 3 (le_n 3) (sample_bus 3 0xC0) _ _ (sample_wf _ _) (sample_at 3 0xC0) eq_refl
    ltac:(cbn; lia) eq_refl) as (s1 & b & E1 & Eb & Hrun).
  pose proof (sample_bytes 3 0xC0) as Hl.
  destruct (Hrun _ _ _ (sample_session_run (card_bytes (sample_card 3 0xC0)) ltac:(lia))) as (b1 & b2 & H1 & H2 & H3).
  exists s1, b, b1, b2. split; [exact E1|]. split; [exact Eb|]. split; [exact H1|]. split; [exact H2|].
  etransitivity; [exact (H3 1 ltac:(cbn; lia))|]. cbn [bytes].
  change 600 with (1 * BLOCK_SZ + 88). rewrite block_of_splice by (unfold BLOCK_SZ; cbn [length]; lia). rewrite decide_True by done.
  unfold card_bytes. rewrite block_of_sectors by (apply sample_wf || (cbn; lia)). reflexivity.
Defined.
