(* ===== verification/Pll.v ===== *)
(** * PLL parameters

    [compute_params] (k210-soc/src/sysctl/pll_compute.rs): the dividers and the
    multiplier that bring a PLL close to a frequency.  The model keeps the widths
    of the code's integers; the theorems say that the search ends without
    overflow, that what it finds respects the limits of the oscillator, and where
    the multiplier leaves its field. *)

From S2P Require Import Prelude FatIo.

Record Params := { clkr : Z; clkf : Z; clkod : Z; bwadj : Z }.

Definition VCO_MIN : Z := 340000000.
Definition VCO_MAX : Z := 1750000000.
Definition DIV_MIN : Z := 13300000.
Definition R_MIN : Z := 1.
Definition R_MAX : Z := 16.
Definition F_MIN : Z := 1.
Definition F_MAX : Z := 64.
Definition OD_MIN : Z := 1.
Definition OD_MAX : Z := 16.
Definition OUT_MIN : Z := VCO_MIN / OD_MAX.
Definition OUT_MAX : Z := VCO_MAX / OD_MIN.
Definition IN_MIN : Z := DIV_MIN * R_MIN.
Definition IN_MAX : Z := OUT_MAX.

(** ** The table of divider pairs *)

(** A [Factor] is its packed byte; [pack] runs at compile time, on factors from 1
    to 16. *)
Definition pack (r od : Z) : Z := Z.lor (shl 8 (Z.land (cast 8 r - 1) 0xF) 4) (Z.land (cast 8 od - 1) 0xF).
Definition unpack_r (factor : Z) : Z := Z.land (Z.shiftr factor 4) 0xF + 1.
Definition unpack_od (factor : Z) : Z := Z.land factor 0xF + 1.

Definition FACTORS : list Z :=
  [pack 1 1; pack 1 2; pack 1 3; pack 1 4; pack 1 5; pack 1 6; pack 1 7; pack 1 8; pack 1 9; pack 3 3;
   pack 1 10; pack 1 11; pack 1 12; pack 3 4; pack 1 13; pack 1 14; pack 1 15; pack 3 5; pack 1 16; pack 4 4;
   pack 2 9; pack 2 10; pack 3 7; pack 2 11; pack 2 12; pack 5 5; pack 2 13; pack 3 9; pack 2 14; pack 2 15;
   pack 2 16; pack 3 11; pack 5 7; pack 3 12; pack 3 13; pack 4 10; pack 3 14; pack 4 11; pack 3 15; pack 3 16;
   pack 7 7; pack 5 10; pack 4 13; pack 6 9; pack 5 11; pack 4 14; pack 4 15; pack 7 9; pack 4 16; pack 5 13;
   pack 6 11; pack 5 14; pack 6 12; pack 5 15; pack 7 11; pack 6 13; pack 5 16; pack 9 9; pack 6 14; pack 8 11;
   pack 6 15; pack 7 13; pack 6 16; pack 7 14; pack 9 11; pack 10 10; pack 8 13; pack 7 15; pack 9 12;
   pack 10 11; pack 7 16; pack 9 13; pack 8 15; pack 11 11; pack 9 14; pack 8 16; pack 10 13; pack 11 12;
   pack 9 15; pack 10 14; pack 11 13; pack 9 16; pack 10 15; pack 11 14; pack 12 13; pack 10 16; pack 11 15;
   pack 12 14; pack 13 13; pack 11 16; pack 12 15; pack 13 14; pack 12 16; pack 13 15; pack 14 14; pack 13 16;
   pack 14 15; pack 14 16; pack 15 15; pack 15 16; pack 16 16].

(** ** Arithmetic *)

Definition div_round_closest (n d : Z) : exec Z :=
  s ← u64 (n + d `div` 2);
  if d =? 0 then Panic Explicit else mret (s `div` d).
Definition bit (b : Z) : Z := shl 64 1 b.
Definition abs_diff (a b : Z) : exec Z := if b <? a then u32 (a - b) else u32 (b - a).

(** ** The search *)

(** The variables of [compute_params] that live across rounds of its loop *)
Record search := {
  best : option Params;
  factors : list Z;
  error : Z;
  best_error : Z;
  s_r : Z;
  s_f : Z;
  s_od : Z;
}.

(** [while r * od == last_r * last_od] takes the next factor; [None] is the end of
    the table, which ends the search. *)
Fixpoint next_product (fs : list Z) (r od last : Z) : exec (option (list Z * Z * Z)) :=
  p ← u32 (r * od);
  if p =? last then
    match fs with
    | factor :: fs => next_product fs (unpack_r factor) (unpack_od factor) last
    | [] => mret None
    end
  else mret (Some (fs, r, od)).

(** The first factor whose product reaches [goal], which stays in the table *)
Fixpoint seek_goal (fs : list Z) (goal : Z) : exec (option (list Z * Z * Z)) :=
  match fs with
  | [] => mret None
  | factor :: fs' =>
      let r := unpack_r factor in
      let od := unpack_od factor in
      p ← u32 (r * od);
      if p <? goal then seek_goal fs' goal else mret (Some (fs, r, od))
  end.

(** Step one of a round: the next [f], [r] and [od] with the rest of the table *)
Definition next_ratio (freq_in freq_out ratio inv_ratio : Z) (s : search) : exec (option (list Z * Z * Z * Z)) :=
  last ← u32 (s_r s * s_od s);
  if freq_in <? freq_out then
    o ← next_product (factors s) (s_r s) (s_od s) last;
    match o with
    | None => mret None
    | Some (fs, r, od) =>
        p ← u32 (r * od);
        p ← u64 (p * ratio);
        p ← u64 (p + bit 31);
        let f := cast 32 (Z.shiftr p 32) in
        mret (Some (fs, r, od, if F_MAX <? f then F_MAX else f))
    end
  else
    f ← u32 (s_f s + 1);
    tmp ← u64 (f * inv_ratio);
    let round_up := negb (Z.land tmp (bit 31) =? 0) in
    goal ← u32 (cast 32 (Z.shiftr tmp 32) + (if round_up then 1 else 0));
    o ← seek_goal (factors s) goal;
    match o with
    | None => mret None
    | Some (fs, r, od) =>
        p ← u32 (r * od);
        err ← abs_diff p goal;
        last_err ← abs_diff last goal;
        if (last_err <? err) || (round_up && (last_err =? err)) then mret (Some (fs, s_r s, s_od s, f))
        else mret (Some (tail fs, r, od, f))
    end.

(** [out_of_spec] for a divider and a multiplier *)
Definition out_of_spec (freq_in max_r r f : Z) : exec bool :=
  if max_r <? r then mret true
  else
    p ← u64 (freq_in * f);
    vco ← div_round_closest p r;
    mret ((VCO_MAX <? vco) || (vco <? VCO_MIN)).

(** Step two: [r] and [od] are swapped and replaced by other factorisations until
    they respect the limits.  The bool says whether they do; [None] ends the
    search. *)
Fixpoint enforce (fuel : nat) (freq_in max_r f : Z) (swapped : bool) (fs : list Z) (r od : Z) : exec (option (bool * list Z * Z * Z)) :=
  match fuel with
  | O => Panic OutOfFuel
  | S fuel =>
      bad ← out_of_spec freq_in max_r r f;
      if bad : bool then
        if negb swapped then enforce fuel freq_in max_r f true fs od r
        else
          match fs with
          | [] => mret None
          | factor :: fs' =>
              let new_r := unpack_r factor in
              let new_od := unpack_od factor in
              p ← u32 (r * od);
              q ← u32 (new_r * new_od);
              if p =? q then enforce fuel freq_in max_r f false fs' new_r new_od
              else mret (Some (false, fs, r, od))
          end
      else mret (Some (true, fs, r, od))
  end.

(** The relative error of a setting, as the code measures it *)
Definition setting_error (inv_ratio r f od : Z) : exec Z :=
  p ← u64 (f * inv_ratio);
  d ← u32 (r * od);
  e ← div_round_closest p d;
  e ← ichk 64 (icast 64 e - icast 64 (bit 32));
  a ← ichk 64 (Z.abs e);
  mret (Z.shiftr a 16).

Definition setting (r f od : Z) : exec Params :=
  clkr ← u32 (r - 1); clkf ← u32 (f - 1); clkod ← u32 (od - 1);
  mret {| clkr := cast 8 clkr; clkf := cast 8 clkf; clkod := cast 8 clkod; bwadj := cast 8 clkf |}.

(** A round of the outer loop: [inl] leaves it with the result. *)
Definition round (freq_in freq_out ratio inv_ratio max_r : Z) (s : search) : exec (option Params + search) :=
  o ← next_ratio freq_in freq_out ratio inv_ratio s;
  match o with
  | None => mret (inl (best s))
  | Some (fs, r, od, f) =>
      o ← enforce (2 * length fs + 2) freq_in max_r f false fs r od;
      match o with
      | None => mret (inl (best s))
      | Some (false, fs, r, od) =>
          if error s =? 0 then mret (inl (best s))
          else mret (inr {| best := best s; factors := fs; error := error s; best_error := best_error s; s_r := r; s_f := f; s_od := od |})
      | Some (true, fs, r, od) =>
          e ← setting_error inv_ratio r f od;
          b ← (if e <? best_error s then p ← setting r f od; mret (Some p, e) else mret (best s, best_error s));
          if e =? 0 then mret (inl b.1)
          else mret (inr {| best := b.1; factors := fs; error := e; best_error := b.2; s_r := r; s_f := f; s_od := od |})
      end
  end.

Fixpoint rounds (fuel : nat) (freq_in freq_out ratio inv_ratio max_r : Z) (s : search) : exec (option Params) :=
  match fuel with
  | O => Panic OutOfFuel
  | S fuel =>
      r ← round freq_in freq_out ratio inv_ratio max_r s;
      match r with
      | inl b => mret b
      | inr s => rounds fuel freq_in freq_out ratio inv_ratio max_r s
      end
  end.

Definition search0 : search :=
  {| best := None; factors := FACTORS; error := 2 ^ 63 - 1; best_error := 2 ^ 63 - 1; s_r := 0; s_f := 0; s_od := 0 |}.

(** One round for every factor or multiplier up to 256, and the last *)
Definition PLL_FUEL : nat := 300.

Definition compute_params (freq_in freq_out : Z) : exec (option Params) :=
  if (OUT_MAX <? freq_out) || (freq_out <? OUT_MIN) then mret None
  else if (IN_MAX <? freq_in) || (freq_in <? IN_MIN) then mret None
  else
    ratio ← div_round_closest (shl 64 freq_out 32) freq_in;
    inv_ratio ← div_round_closest (shl 64 freq_in 32) freq_out;
    if (freq_in <? freq_out) && (shl 64 64 32 <? ratio) then mret None
    else if (freq_out <=? freq_in) && (shl 64 256 32 <? inv_ratio) then mret None
    else rounds PLL_FUEL freq_in freq_out ratio inv_ratio (freq_in `div` DIV_MIN) search0.

(** ** The reference of the unit tests *)

(** One candidate of [brute_force_params]: the best setting and its error *)
Definition brute_step (freq_in inv_ratio : Z) (acc : option Params * Z) (c : Z * Z * Z) : exec (option Params * Z) :=
  let '(r, f, od) := c in
  p ← u64 (freq_in * f);
  vco ← div_round_closest p r;
  if (VCO_MAX <? vco) || (vco <? VCO_MIN) then mret acc
  else
    e ← setting_error inv_ratio r f od;
    if e <? acc.2 then p ← setting r f od; mret (Some p, e) else mret acc.

Fixpoint brute_loop (freq_in inv_ratio : Z) (cs : list (Z * Z * Z)) (acc : option Params * Z) : exec (option Params) :=
  match cs with
  | [] => mret acc.1
  | c :: cs => acc ← brute_step freq_in inv_ratio acc c; brute_loop freq_in inv_ratio cs acc
  end.

Definition brute_force_params (freq_in freq_out : Z) : exec (option Params) :=
  let max_r := Z.min R_MAX (freq_in `div` DIV_MIN) in
  inv_ratio ← div_round_closest (shl 64 freq_in 32) freq_out;
  brute_loop freq_in inv_ratio
    (r ← range R_MIN (max_r + 1); f ← range F_MIN (F_MAX + 1); od ← range OD_MIN (OD_MAX + 1); [(r, f, od)]) (None, 2 ^ 63 - 1).

Definition params_equal (a b : option Params) : exec bool :=
  match a, b with
  | None, None => mret true
  | Some a, Some b =>
      ar ← u8 (clkr a + 1); af ← u8 (clkf a + 1); aod ← u8 (clkod a + 1);
      br ← u8 (clkr b + 1); bf ← u8 (clkf b + 1); bod ← u8 (clkod b + 1);
      x ← u32 (af * br); x ← u32 (x * bod); y ← u32 (bf * ar); y ← u32 (y * aod);
      mret (x =? y)
  | _, _ => mret false
  end.

Definition verify_compute_params (freq_in freq_out : Z) : exec bool :=
  a ← compute_params freq_in freq_out; b ← brute_force_params freq_in freq_out; params_equal a b.

(** [test_compute_params] *)
Example pll_test_none :
  map (uncurry compute_params) [(26000000, 0); (0, 390000000); (26000000, 2000000000); (2000000000, 390000000); (20000000, 1500000000)] =
  replicate 5 (Ok None).
Proof. vm_compute. reflexivity. Qed.

Example pll_test_brute :
  map (uncurry verify_compute_params)
    [(26000000, 1500000000); (26000000, 1000000000); (26000000, 800000000); (26000000, 700000000); (26000000, 300000000);
     (26000000, 45158400); (26000000, 27000000); (27000000, 26000000); (390000000, 26000000); (390000000, 383846400)] =
  replicate 10 (Ok true).
Proof. vm_compute. reflexivity. Qed.

(** ** The search ends within the limits *)

Lemma unpack_bounds p : 1 ≤ unpack_r p ≤ 16 ∧ 1 ≤ unpack_od p ≤ 16.
Proof.
  unfold unpack_r, unpack_od. change 0xF with (2 ^ 4 - 1). rewrite !land_pow2_mod by lia.
  pose proof (Z.mod_pos_bound (Z.shiftr p 4) (2 ^ 4)). pose proof (Z.mod_pos_bound p (2 ^ 4)). lia.
Qed.

Definition divider (x : Z) : Prop := 1 ≤ x ≤ 16.

Lemma div_round_closest_eq n d : 0 ≤ n < 2 ^ 63 → 0 < d < 2 ^ 32 → div_round_closest n d = Ok ((n + d `div` 2) `div` d).
Proof.
  intros Hn Hd. unfold div_round_closest. rewrite chk_in.
  - cbn [mbind exec_bind]. by replace (d =? 0) with false by lia.
  - pose proof (Z.div_pos d 2). pose proof (Z.div_le_upper_bound d 2 d). lia.
Qed.

Lemma div_round_bounds n d : 0 ≤ n → 0 < d → 0 ≤ (n + d `div` 2) `div` d ≤ n + 1.
Proof. intros. pose proof (Z.div_pos d 2). split; [apply Z.div_pos; lia|]. Z.to_euclidean_division_equations; nia. Qed.

Lemma product_bound r od : divider r → divider od → 1 ≤ r * od ≤ 256.
Proof. unfold divider. nia. Qed.

Section search.
Variables freq_in freq_out ratio inv_ratio max_r : Z.
Hypothesis Hin : IN_MIN ≤ freq_in ≤ IN_MAX.
Hypothesis Hout : OUT_MIN ≤ freq_out ≤ OUT_MAX.
Hypothesis Hup : freq_in < freq_out → 2 ^ 32 ≤ ratio ≤ 2 ^ 38 ∧ 0 ≤ inv_ratio ≤ 2 ^ 32.
Hypothesis Hdown : freq_out ≤ freq_in → 2 ^ 32 ≤ inv_ratio ≤ 2 ^ 40.
Hypothesis Hmax : 0 ≤ max_r < 2 ^ 32.

(** The largest multiplier the search tries *)
Definition f_limit : Z := if freq_in <? freq_out then 64 else 256.

Lemma f_limit_256 : f_limit ≤ 256.
Proof. unfold f_limit. destruct (_ <? _); lia. Qed.

Definition vco (r f : Z) : Z := (freq_in * f + r `div` 2) `div` r.

(** What a result promises *)
Definition in_limits (p : Params) : Prop :=
  divider (clkr p + 1) ∧ clkr p + 1 ≤ max_r ∧ divider (clkod p + 1) ∧
  1 ≤ clkf p + 1 ≤ f_limit ∧ bwadj p = clkf p ∧ VCO_MIN ≤ vco (clkr p + 1) (clkf p + 1) ≤ VCO_MAX.
Definition best_ok (b : option Params) : Prop := match b with Some p => in_limits p | None => True end.

Lemma next_product_ok fs : ∀ r od last, 0 ≤ r * od < 2 ^ 32 → 
  ∃ o, next_product fs r od last = Ok o ∧
    match o with
    | None => True
    | Some (fs', r', od') => (length fs' ≤ length fs)%nat ∧ (r * od = last → divider r' ∧ divider od' ∧ (length fs' < length fs)%nat)
    end.
Proof.
  induction fs as [|p fs IH]; intros r od last Hp; cbn [next_product]; rewrite chk_in by lia; cbn [mbind exec_bind];
    destruct (Z.eqb_spec (r * od) last) as [He|He].
  - by exists None.
  - exists (Some ([], r, od)). done.
  - pose proof (unpack_bounds p) as [Hr Ho]. pose proof (product_bound _ _ Hr Ho).
    destruct (IH (unpack_r p) (unpack_od p) last) as (o & E & Hok); [lia|].
    exists o. split; [done|]. destruct o as [[[fs' r'] od']|]; [|done]. destruct Hok as [Hl Hd]. split; [cbn; lia|]. intros _.
    cbn [length]. destruct (decide (unpack_r p * unpack_od p = last)) as [He'|He'].
    + destruct (Hd He') as (? & ? & ?). split_and!; [done..|lia].
    + revert E. destruct fs; cbn [next_product]; rewrite chk_in by lia; cbn [mbind exec_bind];
        (replace (_ =? last) with false by lia); intros [= <- <- <-]; split_and!; done || lia.
  - exists (Some (p :: fs, r, od)). done.
Qed.

Lemma seek_goal_ok fs goal : ∃ o, seek_goal fs goal = Ok o ∧
  match o with
  | None => True
  | Some (fs', r, od) => (length fs' ≤ length fs)%nat ∧ divider r ∧ divider od ∧ goal ≤ r * od
  end.
Proof.
  induction fs as [|p fs (o & E & Ho)]; [by exists None|]. cbn [seek_goal].
  pose proof (unpack_bounds p) as [Hr Hod]. pose proof (product_bound _ _ Hr Hod). rewrite chk_in by lia. cbn [mbind exec_bind].
  destruct (Z.ltb_spec (unpack_r p * unpack_od p) goal) as [Hlt|Hge].
  - exists o. split; [done|]. destruct o as [[[fs' r] od]|]; [|done]. destruct Ho as (? & ? & ? & ?). cbn [length]. split_and!; done || lia.
  - eexists. split; [reflexivity|]. done.
Qed.

(** The first product that reaches a goal is closer to it than zero is, so that the
    first round never keeps the factors it starts from. *)
Lemma first_goal goal : 1 ≤ goal ≤ 256 →
  match seek_goal FACTORS goal with Ok (Some (_, r, od)) => r * od < 2 * goal | _ => False end.
Proof.
  intros Hg. assert (forallb (λ g, match seek_goal FACTORS g with Ok (Some (_, r, od)) => r * od <? 2 * g | _ => false end) (range 1 257) = true)
    as H by (vm_compute; reflexivity).
  rewrite forallb_forall in H. specialize (H goal). rewrite <- list_elem_of_In, elem_of_range in H. specialize (H ltac:(lia)).
  destruct (seek_goal FACTORS goal) as [[[[? ?] ?]|]|]; try done. lia.
Qed.

Lemma abs_diff_eq a b : 0 ≤ a < 2 ^ 32 → 0 ≤ b < 2 ^ 32 → abs_diff a b = Ok (Z.abs (a - b)).
Proof. intros. unfold abs_diff. destruct (Z.ltb_spec b a); rewrite chk_in by lia; f_equal; lia. Qed.

(** The invariant of the outer loop *)
Record search_ok (s : search) : Prop := {
  so_f : 0 ≤ s_f s ≤ 256;
  so_best : best_ok (best s);
  so_factors : (s_r s = 0 ∧ s_od s = 0 ∧ s_f s = 0 ∧ factors s = FACTORS) ∨ (divider (s_r s) ∧ divider (s_od s));
}.

Lemma so_last s : search_ok s → 0 ≤ s_r s * s_od s ≤ 256.
Proof. intros [_ _ [(-> & -> & _) | [Hr Ho]]]; [lia|]. pose proof (product_bound _ _ Hr Ho). lia. Qed.

(** Rounds left: factors while going up, multipliers while going down *)
Definition left (s : search) : nat := if freq_in <? freq_out then length (factors s) else Z.to_nat (256 - s_f s).

Lemma next_ratio_up s : search_ok s → freq_in < freq_out →
  ∃ o, next_ratio freq_in freq_out ratio inv_ratio s = Ok o ∧
    match o with
    | None => True
    | Some (fs, r, od, f) => divider r ∧ divider od ∧ 1 ≤ f ≤ f_limit ∧ (length fs < length (factors s))%nat
    end.
Proof.
  intros Hs Hlt. pose proof (so_last s Hs) as Hlast. unfold next_ratio, f_limit. rewrite (chk_in 32 (s_r s * s_od s)) by lia. cbn [mbind exec_bind].
  replace (freq_in <? freq_out) with true by lia.
  destruct (next_product_ok (factors s) (s_r s) (s_od s) (s_r s * s_od s)) as (o & -> & Ho); [lia|]. cbn [mbind exec_bind].
  destruct o as [[[fs r] od]|]; [|by exists None]. destruct Ho as (_ & Hd). destruct (Hd eq_refl) as (Hr & Hod & Hl).
  pose proof (product_bound _ _ Hr Hod) as Hp. destruct (Hup Hlt) as [Hrat _]. change (bit 31) with (2 ^ 31).
  rewrite chk_in by lia. cbn [mbind exec_bind]. set (x := r * od) in *. clearbody x.
  assert (2 ^ 32 ≤ x * ratio ≤ 2 ^ 46) as Hx by nia. rewrite chk_in by lia. cbn [mbind exec_bind].
  rewrite chk_in by lia. cbn [mbind exec_bind]. eexists. split; [reflexivity|]. cbn beta iota. rewrite Z.shiftr_div_pow2 by lia.
  assert (1 ≤ (x * ratio + 2 ^ 31) `div` 2 ^ 32 < 2 ^ 32) as Hq
    by (split; [apply Z.div_le_lower_bound; lia|apply Z.div_lt_upper_bound; lia]).
  rewrite cast_in by lia. unfold F_MAX. split_and!; try done; destruct (Z.ltb_spec 64 ((x * ratio + 2 ^ 31) `div` 2 ^ 32)); lia.
Qed.

Lemma next_ratio_down s : search_ok s → freq_out ≤ freq_in →
  ∃ o, next_ratio freq_in freq_out ratio inv_ratio s = Ok o ∧
    match o with
    | None => True
    | Some (fs, r, od, f) => divider r ∧ divider od ∧ 1 ≤ f ≤ f_limit ∧ f = s_f s + 1
    end.
Proof.
  intros Hs Hle. pose proof (so_last s Hs) as Hlast. destruct Hs as [Hf _ Hfac]. unfold next_ratio, f_limit. rewrite (chk_in 32 (s_r s * s_od s)) by lia. cbn [mbind exec_bind].
  replace (freq_in <? freq_out) with false by lia. pose proof (Hdown Hle) as Hinv.
  rewrite chk_in by lia. cbn [mbind exec_bind]. rewrite chk_in by nia. cbn [mbind exec_bind].
  set (f := s_f s + 1) in *. rewrite Z.shiftr_div_pow2 by lia.
  assert (f ≤ (f * inv_ratio) `div` 2 ^ 32 < 2 ^ 31) as Hg.
  { split; [apply Z.div_le_lower_bound; nia|apply Z.div_lt_upper_bound; nia]. }
  rewrite cast_in by lia. set (ru := negb _). set (goal := _ + (if ru then 1 else 0)).
  assert (f ≤ goal < 2 ^ 32) by (unfold goal; destruct ru; lia). rewrite chk_in by lia. cbn [mbind exec_bind].
  destruct (seek_goal_ok (factors s) goal) as (o & Eo & Ho). rewrite Eo. cbn [mbind exec_bind].
  destruct o as [[[fs r] od]|]; [|by exists None]. destruct Ho as (_ & Hr & Hod & Hge).
  pose proof (product_bound _ _ Hr Hod) as Hp. rewrite chk_in by lia. cbn [mbind exec_bind].
  rewrite !abs_diff_eq by lia. cbn [mbind exec_bind].
  destruct ((_ <? _) || _) eqn:Ek; (eexists; split; [reflexivity|]); [|split_and!; done || lia].
  destruct Hfac as [(H1 & H2 & H3 & H4) | [? ?]]; [exfalso|split_and!; done || lia].
  pose proof (first_goal goal ltac:(lia)) as Hfirst. rewrite H4 in Eo. rewrite Eo in Hfirst. rewrite H1, H2 in Ek.
  apply orb_true_iff in Ek as [Ek%Z.ltb_lt|[_ Ek%Z.eqb_eq]%andb_true_iff]; lia.
Qed.

Lemma out_of_spec_ok r f : divider r → 1 ≤ f ≤ 256 →
  ∃ b, out_of_spec freq_in max_r r f = Ok b ∧ (b = false → r ≤ max_r ∧ VCO_MIN ≤ vco r f ≤ VCO_MAX).
Proof.
  intros Hr Hf. unfold out_of_spec. destruct (Z.ltb_spec max_r r); [by exists true|].
  unfold IN_MAX, OUT_MAX, IN_MIN, VCO_MAX, OD_MIN, DIV_MIN, R_MIN, divider in *. rewrite Z.div_1_r in Hin.
  rewrite chk_in by nia. cbn [mbind exec_bind]. rewrite div_round_closest_eq by nia. cbn [mbind exec_bind].
  eexists. split; [reflexivity|]. fold (vco r f). unfold VCO_MAX, VCO_MIN. lia.
Qed.

Lemma enforce_ok f : 1 ≤ f ≤ 256 → ∀ fuel (swapped : bool) fs r od, divider r → divider od →
  (2 * length fs + (if swapped then 0 else 1) < fuel)%nat →
  ∃ o, enforce fuel freq_in max_r f swapped fs r od = Ok o ∧
    match o with
    | None => True
    | Some (b, fs', r', od') => (length fs' ≤ length fs)%nat ∧ divider r' ∧ divider od' ∧
        (b = true → r' ≤ max_r ∧ VCO_MIN ≤ vco r' f ≤ VCO_MAX)
    end.
Proof.
  intros Hf. induction fuel as [|fuel IH]; intros swapped fs r od Hr Hod Hfuel; [lia|]. cbn [enforce].
  destruct (out_of_spec_ok r f Hr Hf) as (b & -> & Hb). cbn [mbind exec_bind].
  destruct b; [|exists (Some (true, fs, r, od)); split; [reflexivity|]; split_and!; auto].
  destruct swapped; cbn [negb]; [|by apply IH; try lia].
  destruct fs as [|p fs]; [by exists None|]. pose proof (unpack_bounds p) as [Hr' Hod'].
  pose proof (product_bound _ _ Hr Hod). pose proof (product_bound _ _ Hr' Hod').
  rewrite !chk_in by lia. cbn [mbind exec_bind]. destruct (_ =? _).
  - destruct (IH false fs (unpack_r p) (unpack_od p) Hr' Hod') as (o & E & Ho); [cbn in *; lia|]. exists o. split; [done|].
    destruct o as [[[[b fs'] r'] od']|]; [|done]. destruct Ho as (? & ? & ? & ?). split_and!; try done. cbn. lia.
  - eexists. split; [reflexivity|]. split_and!; done || lia.
Qed.

Lemma setting_error_ok r f od : divider r → divider od → 1 ≤ f ≤ 256 → ∃ e, setting_error inv_ratio r f od = Ok e.
Proof.
  intros Hr Hod Hf. pose proof (product_bound _ _ Hr Hod). assert (0 ≤ inv_ratio ≤ 2 ^ 40) as Hinv.
  { destruct (decide (freq_in < freq_out)) as [Hlt|Hge]; [destruct (Hup Hlt)|pose proof (Hdown ltac:(lia))]; lia. }
  unfold setting_error. assert (0 ≤ f * inv_ratio ≤ 2 ^ 48) by nia.
  rewrite (chk_in 64 (f * inv_ratio)) by lia. cbn [mbind exec_bind]. rewrite (chk_in 32 (r * od)) by lia. cbn [mbind exec_bind].
  rewrite div_round_closest_eq by lia. cbn [mbind exec_bind].
  pose proof (div_round_bounds (f * inv_ratio) (r * od) ltac:(lia) ltac:(lia)) as Hb.
  set (e := _ `div` (r * od)) in *. assert (0 ≤ e ≤ 2 ^ 50) by lia. rewrite icast_in by lia.
  change (icast 64 (bit 32)) with (2 ^ 32). rewrite ichk_in by lia. cbn [mbind exec_bind]. rewrite ichk_in by lia. by eexists.
Qed.

Lemma setting_ok r f od : divider r → divider od → 1 ≤ f ≤ f_limit → r ≤ max_r → VCO_MIN ≤ vco r f ≤ VCO_MAX →
  ∃ p, setting r f od = Ok p ∧ in_limits p.
Proof.
  intros Hr Hod Hf Hm Hv. pose proof f_limit_256. unfold divider in *.
  unfold setting. rewrite !chk_in by lia. cbn [mbind exec_bind]. rewrite !cast_in by lia. eexists. split; [reflexivity|].
  unfold in_limits, divider; cbn. rewrite !Z.sub_add. split_and!; try done; lia.
Qed.

Lemma round_ok s : search_ok s →
  ∃ x, round freq_in freq_out ratio inv_ratio max_r s = Ok x ∧
    match x with inl b => best_ok b | inr s' => search_ok s' ∧ (left s' < left s)%nat end.
Proof.
  intros Hs. pose proof (so_best s Hs) as Hbest. unfold round.
  assert (∃ o, next_ratio freq_in freq_out ratio inv_ratio s = Ok o ∧
    match o with
    | None => True
    | Some (fs, r, od, f) => divider r ∧ divider od ∧ 1 ≤ f ≤ f_limit ∧
        ∀ b fs' e be r' od', (length fs' ≤ length fs)%nat →
          (left {| best := b; factors := fs'; error := e; best_error := be; s_r := r'; s_f := f; s_od := od' |} < left s)%nat
    end) as (o & -> & Ho).
  { unfold left. destruct (decide (freq_in < freq_out)) as [Hlt|Hge].
    - destruct (next_ratio_up s Hs Hlt) as (o & E & Ho). exists o. split; [done|]. destruct o as [[[[fs r] od] f]|]; [|done].
      destruct Ho as (? & ? & ? & ?). do 3 (split; [done|]). replace (freq_in <? freq_out) with true by lia. cbn. lia.
    - destruct (next_ratio_down s Hs ltac:(lia)) as (o & E & Ho). exists o. split; [done|]. destruct o as [[[[fs r] od] f]|]; [|done].
      destruct Ho as (? & ? & Hf & ?). do 3 (split; [done|]). unfold f_limit in Hf. replace (freq_in <? freq_out) with false in * by lia.
      cbn. lia. }
  cbn [mbind exec_bind]. destruct o as [[[[fs r] od] f]|]; [|by eexists]. destruct Ho as (Hr & Hod & Hf & Hleft).
  pose proof f_limit_256.
  destruct (enforce_ok f ltac:(lia) (2 * length fs + 2) false fs r od Hr Hod ltac:(cbn iota; lia)) as (o & -> & Ho). cbn [mbind exec_bind].
  destruct o as [[[[[] fs'] r'] od']|]; [| |by eexists]; destruct Ho as (Hl & Hr' & Hod' & Hspec).
  - destruct (setting_error_ok r' f od' Hr' Hod' ltac:(lia)) as (e & ->). cbn [mbind exec_bind].
    destruct (Hspec eq_refl) as [Hm Hv]. destruct (setting_ok r' f od' Hr' Hod' Hf Hm Hv) as (p & Ep & Hp).
    assert (∃ b, (if e <? best_error s then p ← setting r' f od'; mret (Some p, e) else mret (best s, best_error s)) = Ok b ∧ best_ok b.1)
      as (b & -> & Hb) by (rewrite Ep; destruct (_ <? _); by eexists).
    cbn [mbind exec_bind]. destruct (e =? 0); (eexists; split; [reflexivity|]); [done|].
    split; [|by apply Hleft]. split; cbn; [lia|done|by right].
  - destruct (error s =? 0); (eexists; split; [reflexivity|]); [done|]. split; [|by apply Hleft]. split; cbn; [lia|done|by right].
Qed.

Lemma rounds_ok fuel : ∀ s, search_ok s → (left s < fuel)%nat →
  ∃ b, rounds fuel freq_in freq_out ratio inv_ratio max_r s = Ok b ∧ best_ok b.
Proof.
  induction fuel as [|fuel IH]; intros s Hs Hf; [lia|]. cbn [rounds].
  destruct (round_ok s Hs) as (x & -> & Hx). cbn [mbind exec_bind]. destruct x as [b|s']; [by exists b|].
  destruct Hx as [Hs' Hl]. apply IH; [done|lia].
Qed.
End search.

Lemma shl32 x : 0 ≤ x < 2 ^ 31 → shl 64 x 32 = x * 2 ^ 32.
Proof. intros. apply shl_mul; lia. Qed.

Lemma round_ratio a b : 0 < b < 2 ^ 31 → b ≤ a < 2 ^ 31 → 2 ^ 32 ≤ (a * 2 ^ 32 + b `div` 2) `div` b.
Proof. intros. apply Z.div_le_lower_bound; [lia|]. pose proof (Z.div_pos b 2). nia. Qed.

Lemma round_inverse a b : 0 < b < 2 ^ 31 → 0 ≤ a < b → 0 ≤ (a * 2 ^ 32 + b `div` 2) `div` b ≤ 2 ^ 32.
Proof.
  intros Hb Ha. assert (0 ≤ b `div` 2 ≤ b) by (split; [apply Z.div_pos; lia|apply Z.div_le_upper_bound; lia]).
  split; [apply Z.div_pos; lia|]. apply Z.div_le_upper_bound; [lia|]. nia.
Qed.

Lemma pll_compute_ok (freq_in freq_out : Z) :
  0 ≤ freq_in < 2 ^ 32 → 0 ≤ freq_out < 2 ^ 32 →
  ∃ o, compute_params freq_in freq_out = Ok o ∧
    match o with
    | None => True
    | Some p =>
        1 ≤ clkr p + 1 ≤ 16 ∧ DIV_MIN * (clkr p + 1) ≤ freq_in ∧ 1 ≤ clkod p + 1 ≤ 16 ∧
        1 ≤ clkf p + 1 ≤ (if freq_in <? freq_out then 64 else 256) ∧ bwadj p = clkf p ∧
        VCO_MIN ≤ (freq_in * (clkf p + 1) + (clkr p + 1) `div` 2) `div` (clkr p + 1) ≤ VCO_MAX
    end.
Proof.
  intros Hi Ho. unfold compute_params.
  destruct ((OUT_MAX <? freq_out) || _) eqn:E1; [by exists None|]. destruct ((IN_MAX <? freq_in) || _) eqn:E2; [by exists None|].
  apply orb_false_iff in E1 as [E1%Z.ltb_ge E1'%Z.ltb_ge]. apply orb_false_iff in E2 as [E2%Z.ltb_ge E2'%Z.ltb_ge].
  change OUT_MAX with 1750000000 in *. change OUT_MIN with 21250000 in *. change IN_MAX with 1750000000 in *. change IN_MIN with 13300000 in *.
  rewrite !shl32 by lia. rewrite !div_round_closest_eq by lia. cbn [mbind exec_bind].
  change (shl 64 64 32) with (2 ^ 38). change (shl 64 256 32) with (2 ^ 40).
  set (ratio := (freq_out * 2 ^ 32 + _) `div` freq_in). set (inv_ratio := _ `div` freq_out).
  destruct ((freq_in <? freq_out) && _) eqn:E3; [by exists None|]. destruct ((freq_out <=? freq_in) && _) eqn:E4; [by exists None|].
  set (max_r := freq_in `div` DIV_MIN). assert (0 ≤ max_r < 2 ^ 32 ∧ DIV_MIN * max_r ≤ freq_in) as [Hm Hm'].
  { unfold max_r, DIV_MIN. split; [split; [apply Z.div_pos; lia|apply Z.div_lt_upper_bound; lia]|apply Z.mul_div_le; lia]. }
  destruct (rounds_ok freq_in freq_out ratio inv_ratio max_r) with (fuel := PLL_FUEL) (s := search0) as (b & -> & Hb); try done.
  - intros Hlt. assert (2 ^ 32 ≤ ratio) by (apply round_ratio; lia). assert (0 ≤ inv_ratio ≤ 2 ^ 32) by (apply round_inverse; lia).
    split; [|done]. destruct (Z.ltb_spec freq_in freq_out), (Z.ltb_spec (2 ^ 38) ratio); done || lia.
  - intros Hle. assert (2 ^ 32 ≤ inv_ratio) by (apply round_ratio; lia).
    destruct (Z.leb_spec freq_out freq_in), (Z.ltb_spec (2 ^ 40) inv_ratio); done || lia.
  - split; [cbn; lia|done|by left].
  - unfold left. destruct (freq_in <? freq_out); apply Nat.ltb_lt; vm_compute; reflexivity.
  - exists b. split; [done|]. destruct b as [p|]; [|done]. destruct Hb as (Hr & Hr' & Hod & Hf & Hbw & Hv).
    unfold divider, f_limit, vco in *. split_and!; try done; try lia. unfold DIV_MIN in *. lia.
Qed.

(** C27: The search for the parameters of a PLL ends on every pair of frequencies,
    without overflow or division by zero.  What it finds respects the limits of
    the hardware: the dividers are between 1 and 16, the divided clock is above its
    minimum, the oscillator runs between 340 MHz and 1.75 GHz; the multiplier is
    at most 64 when the frequency is raised, but only at most 256 when it is
    lowered. *)
Theorem pll_params_in_limits (freq_in freq_out : Z) :
  0 ≤ freq_in < 2 ^ 32 → 0 ≤ freq_out < 2 ^ 32 →
  ∃ o, compute_params freq_in freq_out = Ok o ∧
    match o with
    | None => True
    | Some p =>
        1 ≤ clkr p + 1 ≤ 16 ∧ DIV_MIN * (clkr p + 1) ≤ freq_in ∧ 1 ≤ clkod p + 1 ≤ 16 ∧
        1 ≤ clkf p + 1 ≤ (if freq_in <? freq_out then 64 else 256) ∧ bwadj p = clkf p ∧
        VCO_MIN ≤ (freq_in * (clkf p + 1) + (clkr p + 1) `div` 2) `div` (clkr p + 1) ≤ VCO_MAX
    end.
Proof. apply pll_compute_ok. Qed.

Lemma pll_params_in_limits_witness :
  compute_params 26000000 800000000 = Ok (Some {| clkr := 0; clkf := 30; clkod := 0; bwadj := 30 |}) ∧ 30 + 1 ≤ 64.
Proof.
  destruct (pll_params_in_limits 26000000 800000000 ltac:(lia) ltac:(lia)) as (o & E & H).
  assert (compute_params 26000000 800000000 = Ok (Some {| clkr := 0; clkf := 30; clkod := 0; bwadj := 30 |})) as E' by (vm_compute; reflexivity).
  split; [exact E'|]. rewrite E' in E. injection E as <-. destruct H as (_ & _ & _ & Hf & _). exact (proj2 Hf).
Defined.
