(* ===== verification/Sysctl.v ===== *)
(** * The system controller of the K210

    k210-soc/src/sysctl.rs: clock gates, dividers and selectors, resets and PLLs.
    The controller is its registers; their fields have the offsets and widths of
    the register crate (k210-pac).  A write to a field replaces its bits by the low
    bits of the value. *)

From S2P Require Import Prelude FatIo Pll.

(** ** Registers and fields *)

Inductive sysreg :=
  | PLL0 | PLL1 | PLL2 | PLL_LOCK | CLK_SEL0 | CLK_SEL1 | CLK_EN_CENT | CLK_EN_PERI | SOFT_RESET | PERI_RESET
  | CLK_TH0 | CLK_TH1 | CLK_TH2 | CLK_TH3 | CLK_TH4 | CLK_TH5 | CLK_TH6 | MISC | DMA_SEL0 | DMA_SEL1
  | POWER_SEL.
#[export] Instance sysreg_eq_dec : EqDecision sysreg.
Proof. solve_decision. Defined.

Definition registers : Type := sysreg → Z.

(** A field of [width] bits at bit [offset] of a register *)
Record field := Field { fd_reg : sysreg; fd_off : Z; fd_width : Z }.
#[export] Instance field_eq_dec : EqDecision field.
Proof. solve_decision. Defined.

(** The reader of a field and its write proxy under [modify] *)
Definition get_field (f : field) (s : registers) : Z := Z.land (Z.shiftr (s (fd_reg f)) (fd_off f)) (2 ^ fd_width f - 1).
Definition put_field (f : field) (v bits : Z) : Z :=
  let mask := 2 ^ fd_width f - 1 in
  Z.lor (Z.ldiff bits (Z.shiftl mask (fd_off f))) (Z.shiftl (Z.land v mask) (fd_off f)).
Definition set_reg (r : sysreg) (v : Z) (s : registers) : registers := λ r', if decide (r' = r) then v else s r'.
Definition set_field (f : field) (v : Z) (s : registers) : registers := set_reg (fd_reg f) (put_field f v (s (fd_reg f))) s.
Definition get_flag (f : field) (s : registers) : bool := negb (get_field f s =? 0).
Definition set_flag (f : field) (b : bool) (s : registers) : registers := set_field f (if b then 1 else 0) s.

(** ** Names *)

Inductive pll :=
  | P_PLL0 | P_PLL1 | P_PLL2.
Inductive clock_source :=
  | S_IN0 | S_PLL0 | S_PLL1 | S_PLL2 | S_ACLK.
Inductive clock :=
  | C_PLL0 | C_PLL1 | C_PLL2 | C_CPU | C_SRAM0 | C_SRAM1 | C_APB0 | C_APB1 | C_APB2 | C_ROM | C_DMA | C_AI
  | C_DVP | C_FFT | C_GPIO | C_SPI0 | C_SPI1 | C_SPI2 | C_SPI3 | C_I2S0 | C_I2S1 | C_I2S2 | C_I2C0 | C_I2C1
  | C_I2C2 | C_UART1 | C_UART2 | C_UART3 | C_AES | C_FPIOA | C_TIMER0 | C_TIMER1 | C_TIMER2 | C_WDT0 | C_WDT1
  | C_SHA | C_OTP | C_RTC | C_ACLK | C_HCLK | C_IN0.
Inductive threshold :=
  | T_ACLK | T_APB0 | T_APB1 | T_APB2 | T_SRAM0 | T_SRAM1 | T_AI | T_DVP | T_ROM | T_SPI0 | T_SPI1 | T_SPI2
  | T_SPI3 | T_TIMER0 | T_TIMER1 | T_TIMER2 | T_I2S0 | T_I2S1 | T_I2S2 | T_I2S0_M | T_I2S1_M | T_I2S2_M
  | T_I2C0 | T_I2C1 | T_I2C2 | T_WDT0 | T_WDT1.
Inductive clock_select :=
  | K_PLL0_BYPASS | K_PLL1_BYPASS | K_PLL2_BYPASS | K_PLL2 | K_ACLK | K_SPI3 | K_TIMER0 | K_TIMER1 | K_TIMER2
  | K_SPI3_SAMPLE.
Inductive reset_line :=
  | R_SOC | R_ROM | R_DMA | R_AI | R_DVP | R_FFT | R_GPIO | R_SPI0 | R_SPI1 | R_SPI2 | R_SPI3 | R_I2S0
  | R_I2S1 | R_I2S2 | R_I2C0 | R_I2C1 | R_I2C2 | R_UART1 | R_UART2 | R_UART3 | R_AES | R_FPIOA | R_TIMER0
  | R_TIMER1 | R_TIMER2 | R_WDT0 | R_WDT1 | R_SHA | R_RTC.
Inductive io_power_mode := V33 | V18.
Inductive power_bank :=
  | BANK0 | BANK1 | BANK2 | BANK3 | BANK4 | BANK5 | BANK6 | BANK7.
Inductive dma_channel :=
  | CHANNEL0 | CHANNEL1 | CHANNEL2 | CHANNEL3 | CHANNEL4 | CHANNEL5.
#[export] Instance pll_eq_dec : EqDecision pll.
Proof. solve_decision. Defined.
#[export] Instance clock_source_eq_dec : EqDecision clock_source.
Proof. solve_decision. Defined.
#[export] Instance clock_eq_dec : EqDecision clock.
Proof. solve_decision. Defined.
#[export] Instance threshold_eq_dec : EqDecision threshold.
Proof. solve_decision. Defined.
#[export] Instance clock_select_eq_dec : EqDecision clock_select.
Proof. solve_decision. Defined.
#[export] Instance reset_line_eq_dec : EqDecision reset_line.
Proof. solve_decision. Defined.
#[export] Instance dma_channel_eq_dec : EqDecision dma_channel.
Proof. solve_decision. Defined.
#[export] Instance power_bank_eq_dec : EqDecision power_bank.
Proof. solve_decision. Defined.

(** ** The fields behind them *)

Definition threshold_field (x : threshold) : field :=
  match x with
  | T_ACLK => Field CLK_SEL0 1 2
  | T_APB0 => Field CLK_SEL0 3 3
  | T_APB1 => Field CLK_SEL0 6 3
  | T_APB2 => Field CLK_SEL0 9 3
  | T_SRAM0 => Field CLK_TH0 0 4
  | T_SRAM1 => Field CLK_TH0 4 4
  | T_AI => Field CLK_TH0 8 4
  | T_DVP => Field CLK_TH0 12 4
  | T_ROM => Field CLK_TH0 16 4
  | T_SPI0 => Field CLK_TH1 0 8
  | T_SPI1 => Field CLK_TH1 8 8
  | T_SPI2 => Field CLK_TH1 16 8
  | T_SPI3 => Field CLK_TH1 24 8
  | T_TIMER0 => Field CLK_TH2 0 8
  | T_TIMER1 => Field CLK_TH2 8 8
  | T_TIMER2 => Field CLK_TH2 16 8
  | T_I2S0 => Field CLK_TH3 0 16
  | T_I2S1 => Field CLK_TH3 16 16
  | T_I2S2 => Field CLK_TH4 0 16
  | T_I2S0_M => Field CLK_TH4 16 8
  | T_I2S1_M => Field CLK_TH4 24 8
  | T_I2S2_M => Field CLK_TH5 0 8
  | T_I2C0 => Field CLK_TH5 8 8
  | T_I2C1 => Field CLK_TH5 16 8
  | T_I2C2 => Field CLK_TH5 24 8
  | T_WDT0 => Field CLK_TH6 0 8
  | T_WDT1 => Field CLK_TH6 8 8
  end.

(** [ACLK], [HCLK] and [IN0] have no enable of their own. *)
Definition device_field (x : clock) : option field :=
  match x with
  | C_PLL0 => Some (Field PLL0 25 1)
  | C_PLL1 => Some (Field PLL1 25 1)
  | C_PLL2 => Some (Field PLL2 25 1)
  | C_CPU => Some (Field CLK_EN_CENT 0 1)
  | C_SRAM0 => Some (Field CLK_EN_CENT 1 1)
  | C_SRAM1 => Some (Field CLK_EN_CENT 2 1)
  | C_APB0 => Some (Field CLK_EN_CENT 3 1)
  | C_APB1 => Some (Field CLK_EN_CENT 4 1)
  | C_APB2 => Some (Field CLK_EN_CENT 5 1)
  | C_ROM => Some (Field CLK_EN_PERI 0 1)
  | C_DMA => Some (Field CLK_EN_PERI 1 1)
  | C_AI => Some (Field CLK_EN_PERI 2 1)
  | C_DVP => Some (Field CLK_EN_PERI 3 1)
  | C_FFT => Some (Field CLK_EN_PERI 4 1)
  | C_GPIO => Some (Field CLK_EN_PERI 5 1)
  | C_SPI0 => Some (Field CLK_EN_PERI 6 1)
  | C_SPI1 => Some (Field CLK_EN_PERI 7 1)
  | C_SPI2 => Some (Field CLK_EN_PERI 8 1)
  | C_SPI3 => Some (Field CLK_EN_PERI 9 1)
  | C_I2S0 => Some (Field CLK_EN_PERI 10 1)
  | C_I2S1 => Some (Field CLK_EN_PERI 11 1)
  | C_I2S2 => Some (Field CLK_EN_PERI 12 1)
  | C_I2C0 => Some (Field CLK_EN_PERI 13 1)
  | C_I2C1 => Some (Field CLK_EN_PERI 14 1)
  | C_I2C2 => Some (Field CLK_EN_PERI 15 1)
  | C_UART1 => Some (Field CLK_EN_PERI 16 1)
  | C_UART2 => Some (Field CLK_EN_PERI 17 1)
  | C_UART3 => Some (Field CLK_EN_PERI 18 1)
  | C_AES => Some (Field CLK_EN_PERI 19 1)
  | C_FPIOA => Some (Field CLK_EN_PERI 20 1)
  | C_TIMER0 => Some (Field CLK_EN_PERI 21 1)
  | C_TIMER1 => Some (Field CLK_EN_PERI 22 1)
  | C_TIMER2 => Some (Field CLK_EN_PERI 23 1)
  | C_WDT0 => Some (Field CLK_EN_PERI 24 1)
  | C_WDT1 => Some (Field CLK_EN_PERI 25 1)
  | C_SHA => Some (Field CLK_EN_PERI 26 1)
  | C_OTP => Some (Field CLK_EN_PERI 27 1)
  | C_RTC => Some (Field CLK_EN_PERI 29 1)
  | _ => None
  end.

Definition reset_field (x : reset_line) : field :=
  match x with
  | R_SOC => Field SOFT_RESET 0 1
  | R_ROM => Field PERI_RESET 0 1
  | R_DMA => Field PERI_RESET 1 1
  | R_AI => Field PERI_RESET 2 1
  | R_DVP => Field PERI_RESET 3 1
  | R_FFT => Field PERI_RESET 4 1
  | R_GPIO => Field PERI_RESET 5 1
  | R_SPI0 => Field PERI_RESET 6 1
  | R_SPI1 => Field PERI_RESET 7 1
  | R_SPI2 => Field PERI_RESET 8 1
  | R_SPI3 => Field PERI_RESET 9 1
  | R_I2S0 => Field PERI_RESET 10 1
  | R_I2S1 => Field PERI_RESET 11 1
  | R_I2S2 => Field PERI_RESET 12 1
  | R_I2C0 => Field PERI_RESET 13 1
  | R_I2C1 => Field PERI_RESET 14 1
  | R_I2C2 => Field PERI_RESET 15 1
  | R_UART1 => Field PERI_RESET 16 1
  | R_UART2 => Field PERI_RESET 17 1
  | R_UART3 => Field PERI_RESET 18 1
  | R_AES => Field PERI_RESET 19 1
  | R_FPIOA => Field PERI_RESET 20 1
  | R_TIMER0 => Field PERI_RESET 21 1
  | R_TIMER1 => Field PERI_RESET 22 1
  | R_TIMER2 => Field PERI_RESET 23 1
  | R_WDT0 => Field PERI_RESET 24 1
  | R_WDT1 => Field PERI_RESET 25 1
  | R_SHA => Field PERI_RESET 26 1
  | R_RTC => Field PERI_RESET 29 1
  end.

Definition select_field (x : clock_select) : field :=
  match x with
  | K_PLL0_BYPASS => Field PLL0 23 1
  | K_PLL1_BYPASS => Field PLL1 23 1
  | K_PLL2_BYPASS => Field PLL2 23 1
  | K_PLL2 => Field PLL2 26 2
  | K_ACLK => Field CLK_SEL0 0 1
  | K_SPI3 => Field CLK_SEL0 12 1
  | K_TIMER0 => Field CLK_SEL0 13 1
  | K_TIMER1 => Field CLK_SEL0 14 1
  | K_TIMER2 => Field CLK_SEL0 15 1
  | K_SPI3_SAMPLE => Field CLK_SEL1 0 1
  end.

Definition pll_clkr (p : pll) : field :=
  match p with
  | P_PLL0 => Field PLL0 0 4
  | P_PLL1 => Field PLL1 0 4
  | P_PLL2 => Field PLL2 0 4
  end.
Definition pll_clkf (p : pll) : field :=
  match p with
  | P_PLL0 => Field PLL0 4 6
  | P_PLL1 => Field PLL1 4 6
  | P_PLL2 => Field PLL2 4 6
  end.
Definition pll_clkod (p : pll) : field :=
  match p with
  | P_PLL0 => Field PLL0 10 4
  | P_PLL1 => Field PLL1 10 4
  | P_PLL2 => Field PLL2 10 4
  end.
Definition pll_bwadj (p : pll) : field :=
  match p with
  | P_PLL0 => Field PLL0 14 6
  | P_PLL1 => Field PLL1 14 6
  | P_PLL2 => Field PLL2 14 6
  end.
Definition pll_reset (p : pll) : field :=
  match p with
  | P_PLL0 => Field PLL0 20 1
  | P_PLL1 => Field PLL1 20 1
  | P_PLL2 => Field PLL2 20 1
  end.
Definition pll_pwrd (p : pll) : field :=
  match p with
  | P_PLL0 => Field PLL0 21 1
  | P_PLL1 => Field PLL1 21 1
  | P_PLL2 => Field PLL2 21 1
  end.
Definition pll_out_en (p : pll) : field :=
  match p with
  | P_PLL0 => Field PLL0 25 1
  | P_PLL1 => Field PLL1 25 1
  | P_PLL2 => Field PLL2 25 1
  end.
Definition pll_ckin_sel : field := Field PLL2 26 2.
Definition pll_lock_field (p : pll) : field :=
  match p with
  | P_PLL0 => Field PLL_LOCK 0 2
  | P_PLL1 => Field PLL_LOCK 8 2
  | P_PLL2 => Field PLL_LOCK 16 2
  end.
Definition pll_slip_clear_field (p : pll) : field :=
  match p with
  | P_PLL0 => Field PLL_LOCK 2 1
  | P_PLL1 => Field PLL_LOCK 10 1
  | P_PLL2 => Field PLL_LOCK 18 1
  end.
Definition dma_field (c : dma_channel) : field :=
  match c with
  | CHANNEL0 => Field DMA_SEL0 0 6
  | CHANNEL1 => Field DMA_SEL0 6 6
  | CHANNEL2 => Field DMA_SEL0 12 6
  | CHANNEL3 => Field DMA_SEL0 18 6
  | CHANNEL4 => Field DMA_SEL0 24 6
  | CHANNEL5 => Field DMA_SEL1 0 6
  end.
Definition spi_dvp_data_enable : field := Field MISC 10 1.

(** ** Gates, dividers, selectors *)

(** The APB clock that [clock_bus_en] turns on for a device *)
Definition bus_field (c : clock) : option field :=
  match c with
  | C_GPIO | C_SPI2 | C_I2S0 | C_I2S1 | C_I2S2 | C_I2C0 | C_I2C1 | C_I2C2 | C_UART1 | C_UART2 | C_UART3 | C_FPIOA
  | C_TIMER0 | C_TIMER1 | C_TIMER2 | C_SHA => Some (Field CLK_EN_CENT 3 1)
  | C_AES | C_WDT0 | C_WDT1 | C_OTP | C_RTC => Some (Field CLK_EN_CENT 4 1)
  | C_SPI0 | C_SPI1 => Some (Field CLK_EN_CENT 5 1)
  | _ => None
  end.
Definition set_flag_opt (f : option field) (b : bool) (s : registers) : registers :=
  match f with Some f => set_flag f b s | None => s end.

Definition clock_bus_en (c : clock) (en : bool) (s : registers) : registers :=
  if en then set_flag_opt (bus_field c) en s else s.
Definition clock_device_en (c : clock) (en : bool) (s : registers) : registers := set_flag_opt (device_field c) en s.
Definition clock_enable (c : clock) (s : registers) : registers := clock_device_en c true (clock_bus_en c true s).
Definition sysctl_clock_disable (c : clock) (s : registers) : registers := clock_device_en c false (clock_bus_en c false s).

(** [threshold as u16] for the three dividers of 16 bits, [as u8] for the others *)
Definition threshold_cast (w : threshold) : Z := match w with T_I2S0 | T_I2S1 | T_I2S2 => 16 | _ => 8 end.
Definition clock_set_threshold (w : threshold) (v : Z) (s : registers) : registers :=
  set_field (threshold_field w) (cast (threshold_cast w) v) s.
Definition clock_get_threshold (w : threshold) (s : registers) : Z := get_field (threshold_field w) s.

Definition clock_set_clock_select (w : clock_select) (v : Z) (s : registers) : registers :=
  match w with
  | K_PLL2 => set_field (select_field w) v s
  | _ => set_flag (select_field w) (negb (v =? 0)) s
  end.
Definition clock_get_clock_select (w : clock_select) (s : registers) : Z := get_field (select_field w) s.

Definition set_spi0_dvp_data (status : bool) (s : registers) : registers := set_flag spi_dvp_data_enable status s.
(** [set_bit] of utils.rs on the whole register *)
Definition set_bit (inval b : Z) (state : bool) : Z :=
  if state then Z.lor inval (Z.shiftl 1 b) else Z.ldiff inval (Z.shiftl 1 b).
Definition get_bit (inval b : Z) : bool := negb (Z.land inval (Z.shiftl 1 b) =? 0).
Definition bank_index (b : power_bank) : Z :=
  match b with BANK0 => 0 | BANK1 => 1 | BANK2 => 2 | BANK3 => 3 | BANK4 => 4 | BANK5 => 5 | BANK6 => 6 | BANK7 => 7 end.
Definition set_power_mode (b : power_bank) (mode : io_power_mode) (s : registers) : registers :=
  set_reg POWER_SEL (set_bit (s POWER_SEL) (bank_index b) (match mode with V33 => false | V18 => true end)) s.
(** [select] is the number of the request line. *)
Definition sysctl_dma_select (c : dma_channel) (select : Z) (s : registers) : registers := set_field (dma_field c) select s.

(** ** Frequencies *)

Definition SYSCTRL_CLOCK_FREQ_IN0 : Z := 26000000.

Definition pll2_cksel_to_source (bits : Z) : exec clock_source :=
  if bits =? 0 then mret S_IN0 else if bits =? 1 then mret S_PLL0 else if bits =? 2 then mret S_PLL1 else Panic Explicit.
Definition pll2_source_to_cksel (source : clock_source) : exec Z :=
  match source with S_IN0 => mret 0 | S_PLL0 => mret 1 | S_PLL1 => mret 2 | _ => Panic Explicit end.

(** The end of [pll_get_freq]: [FIN / NR * NF / OD], which has to fit [u32] *)
Definition pll_rate (p : pll) (freq_in : Z) (s : registers) : exec Z :=
  nr ← u8 (get_field (pll_clkr p) s + 1);
  nf ← u8 (get_field (pll_clkf p) s + 1);
  od ← u8 (get_field (pll_clkod p) s + 1);
  a ← u64 (freq_in * nf);
  b ← u64 (nr * od);
  let f := a `div` b in
  if f <? 2 ^ 32 then mret f else Panic UnwrapNone.

(** [clock_source_get_freq], [pll_get_freq] and the [ACLK] case of
    [clock_get_freq] call each other, to a depth of three. *)
Fixpoint source_freq (fuel : nat) (source : clock_source) (s : registers) : exec Z :=
  match fuel with
  | O => Panic OutOfFuel
  | S fuel =>
      match source with
      | S_IN0 => mret SYSCTRL_CLOCK_FREQ_IN0
      | S_PLL0 => f ← source_freq fuel S_IN0 s; pll_rate P_PLL0 f s
      | S_PLL1 => f ← source_freq fuel S_IN0 s; pll_rate P_PLL1 f s
      | S_PLL2 =>
          source ← pll2_cksel_to_source (clock_get_clock_select K_PLL2 s);
          f ← source_freq fuel source s; pll_rate P_PLL2 f s
      | S_ACLK =>
          let sel := clock_get_clock_select K_ACLK s in
          if sel =? 0 then source_freq fuel S_IN0 s
          else if sel =? 1 then
            f ← source_freq fuel S_PLL0 s; mret (f `div` shl 32 2 (clock_get_threshold T_ACLK s))
          else Panic Explicit
      end
  end.
Definition clock_source_get_freq : clock_source → registers → exec Z := source_freq 3.
Definition pll_get_freq (p : pll) : registers → exec Z :=
  clock_source_get_freq match p with P_PLL0 => S_PLL0 | P_PLL1 => S_PLL1 | P_PLL2 => S_PLL2 end.

(** A source behind a divider that counts from one, or in steps of two *)
Definition divided (source : exec Z) (d : Z) : exec Z := f ← source; d ← u32 d; mret (f `div` d).
Definition selected (w : clock_select) (s : registers) : exec Z :=
  let sel := clock_get_clock_select w s in
  if sel =? 0 then clock_source_get_freq S_IN0 s
  else if sel =? 1 then clock_source_get_freq S_PLL0 s
  else Panic Explicit.

Definition clock_get_freq (c : clock) (s : registers) : exec Z :=
  let src x := clock_source_get_freq x s in
  let th x := clock_get_threshold x s in
  match c with
  | C_IN0 => src S_IN0
  | C_PLL0 => src S_PLL0
  | C_PLL1 => src S_PLL1
  | C_PLL2 => src S_PLL2
  | C_CPU | C_DMA | C_FFT | C_ACLK | C_HCLK => src S_ACLK
  | C_SRAM0 => divided (src S_ACLK) (th T_SRAM0 + 1)
  | C_SRAM1 => divided (src S_ACLK) (th T_SRAM1 + 1)
  | C_ROM => divided (src S_ACLK) (th T_ROM + 1)
  | C_DVP => divided (src S_ACLK) (th T_DVP + 1)
  | C_APB0 | C_GPIO | C_UART1 | C_UART2 | C_UART3 | C_FPIOA | C_SHA => divided (src S_ACLK) (th T_APB0 + 1)
  | C_APB1 | C_AES | C_OTP => divided (src S_ACLK) (th T_APB1 + 1)
  | C_APB2 => divided (src S_ACLK) (th T_APB2 + 1)
  | C_AI => divided (src S_PLL1) (th T_AI + 1)
  | C_I2S0 => divided (src S_PLL2) ((th T_I2S0 + 1) * 2)
  | C_I2S1 => divided (src S_PLL2) ((th T_I2S1 + 1) * 2)
  | C_I2S2 => divided (src S_PLL2) ((th T_I2S2 + 1) * 2)
  | C_WDT0 => divided (src S_IN0) ((th T_WDT0 + 1) * 2)
  | C_WDT1 => divided (src S_IN0) ((th T_WDT1 + 1) * 2)
  | C_SPI0 => divided (src S_PLL0) ((th T_SPI0 + 1) * 2)
  | C_SPI1 => divided (src S_PLL0) ((th T_SPI1 + 1) * 2)
  | C_SPI2 => divided (src S_PLL0) ((th T_SPI2 + 1) * 2)
  | C_I2C0 => divided (src S_PLL0) ((th T_I2C0 + 1) * 2)
  | C_I2C1 => divided (src S_PLL0) ((th T_I2C1 + 1) * 2)
  | C_I2C2 => divided (src S_PLL0) ((th T_I2C2 + 1) * 2)
  | C_SPI3 => divided (selected K_SPI3 s) ((th T_SPI3 + 1) * 2)
  | C_TIMER0 => divided (selected K_TIMER0 s) ((th T_TIMER0 + 1) * 2)
  | C_TIMER1 => divided (selected K_TIMER1 s) ((th T_TIMER1 + 1) * 2)
  | C_TIMER2 => divided (selected K_TIMER2 s) ((th T_TIMER2 + 1) * 2)
  | C_RTC => src S_IN0
  end.

(** [usleep] waits on the cycle counter, which no register of the controller sees;
    the number of cycles is computed from the frequency of the processor. *)
Definition usleep (n : Z) (s : registers) : exec unit :=
  f ← clock_get_freq C_CPU s; c ← umul (f `div` 62) n; mret tt.

(** ** Resets *)

Definition reset_ctl (r : reset_line) (rst_value : bool) (s : registers) : registers := set_flag (reset_field r) rst_value s.
Definition sysctl_reset (r : reset_line) (s : registers) : exec registers :=
  let s := reset_ctl r true s in usleep 10 s ;; mret (reset_ctl r false s).

(** ** PLLs *)

(** The controller with the number of reads of its lock register, which the
    hardware drives *)
Record sysctl := { sc_regs : registers; sc_reads : nat }.
Definition on_regs (f : registers → registers) : M sysctl unit :=
  modify (λ s, {| sc_regs := f (sc_regs s); sc_reads := sc_reads s |}).
Definition read_regs {A} (f : registers → exec A) : M sysctl A := s ← get; lift (f (sc_regs s)).

Section pll.
(** The value of the lock register at its [n]th read *)
Variable lock : nat → Z.

Definition read_lock : M sysctl Z :=
  s ← get; put {| sc_regs := sc_regs s; sc_reads := S (sc_reads s) |} ;; mret (lock (sc_reads s)).

(** The fields of a value of the lock register *)
Definition lock_bits (p : pll) (v : Z) : Z := get_field (pll_lock_field p) (λ _, v).
Definition locked (p : pll) (v : Z) : bool :=
  match p with P_PLL0 => lock_bits p v =? 3 | _ => Z.land (lock_bits p v) 1 =? 1 end.
Definition pll_is_lock (p : pll) : M sysctl bool := v ← read_lock; mret (locked p v).
Definition pll_clear_slip (p : pll) : M sysctl bool :=
  v ← read_lock;
  on_regs (set_reg PLL_LOCK (put_field (pll_slip_clear_field p) 1 v)) ;;
  pll_is_lock p.
Fixpoint wait_lock (fuel : nat) (p : pll) : M sysctl unit :=
  b ← pll_is_lock p;
  if b : bool then mret tt
  else match fuel with O => panic OutOfFuel | S fuel => pll_clear_slip p ;; wait_lock fuel p end.

(** The parameters in the register of a PLL; [cksel] is written for PLL2 only. *)
Definition put_params (p : pll) (cksel : Z) (found : Params) (s : registers) : registers :=
  let s := match p with P_PLL2 => set_field pll_ckin_sel cksel s | _ => s end in
  set_field (pll_bwadj p) (bwadj found) (set_field (pll_clkod p) (clkod found)
    (set_field (pll_clkf p) (clkf found) (set_field (pll_clkr p) (clkr found) s))).

Definition pll_source_set_freq (p : pll) (source : clock_source) (freq : Z) : M sysctl (Z + unit) :=
  if bool_decide ((p = P_PLL0 ∨ p = P_PLL1) ∧ source ≠ S_IN0) then mret (inr tt)
  else
    freq_in ← read_regs (clock_source_get_freq source);
    if freq_in =? 0 then mret (inr tt)
    else
      o ← lift (compute_params freq_in freq);
      match o with
      | None => mret (inr tt)
      | Some found =>
          cksel ← lift (match p with P_PLL2 => pll2_source_to_cksel source | _ => mret 0 end);
          on_regs (put_params p cksel found) ;;
          f ← read_regs (pll_get_freq p);
          mret (inl f)
      end.

Definition pll_set_freq (fuel : nat) (p : pll) (freq : Z) : M sysctl (Z + unit) :=
  (if bool_decide (p = P_PLL0) then on_regs (clock_set_clock_select K_ACLK 0) else mret tt) ;;
  on_regs (set_flag (pll_out_en p) false) ;;
  on_regs (set_flag (pll_pwrd p) false) ;;
  result ←
    (if bool_decide (p = P_PLL2) then
       source ← read_regs (λ s, pll2_cksel_to_source (clock_get_clock_select K_PLL2 s));
       pll_source_set_freq p source freq
     else pll_source_set_freq p S_IN0 freq);
  on_regs (set_flag (pll_pwrd p) true) ;;
  read_regs (usleep 1) ;;
  on_regs (set_flag (pll_reset p) false) ;;
  on_regs (set_flag (pll_reset p) true) ;;
  read_regs (usleep 1) ;;
  on_regs (set_flag (pll_reset p) false) ;;
  wait_lock fuel p ;;
  on_regs (set_flag (pll_out_en p) true) ;;
  (if bool_decide (p = P_PLL0) then on_regs (clock_set_clock_select K_ACLK 1) else mret tt) ;;
  mret result.
End pll.

(** ** Fields are independent *)

Definition field_wf (f : field) : bool := (0 <=? fd_off f) && (0 <? fd_width f) && (fd_off f + fd_width f <=? 32).
Definition field_disjoint (f g : field) : bool :=
  negb (bool_decide (fd_reg f = fd_reg g)) || (fd_off f + fd_width f <=? fd_off g) || (fd_off g + fd_width g <=? fd_off f).

Lemma field_wf_spec f : field_wf f = true ↔ 0 ≤ fd_off f ∧ 0 < fd_width f ∧ fd_off f + fd_width f ≤ 32.
Proof. unfold field_wf. lia. Qed.

Lemma get_field_bit f s i : field_wf f = true → 0 ≤ i →
  Z.testbit (get_field f s) i = (i <? fd_width f) && Z.testbit (s (fd_reg f)) (i + fd_off f).
Proof.
  intros Hf%field_wf_spec Hi. unfold get_field. rewrite land_pow2_mod by lia.
  destruct (Z.ltb_spec i (fd_width f)).
  - rewrite Z.mod_pow2_bits_low, Z.shiftr_spec by lia. done.
  - by rewrite Z.mod_pow2_bits_high by lia.
Qed.

Lemma put_field_bit f v bits i : field_wf f = true → 0 ≤ i →
  Z.testbit (put_field f v bits) i =
    if (fd_off f <=? i) && (i <? fd_off f + fd_width f) then Z.testbit v (i - fd_off f) else Z.testbit bits i.
Proof.
  intros Hf%field_wf_spec Hi. unfold put_field. rewrite land_pow2_mod by lia.
  replace (2 ^ fd_width f - 1) with (Z.ones (fd_width f)) by (rewrite Z.ones_equiv; lia).
  rewrite Z.lor_spec, Z.ldiff_spec, !Z.shiftl_spec by lia.
  destruct (Z.leb_spec (fd_off f) i), (Z.ltb_spec i (fd_off f + fd_width f)); cbn [andb]; try lia.
  - rewrite Z.ones_spec_low, Z.mod_pow2_bits_low by lia. by rewrite andb_false_r.
  - rewrite Z.ones_spec_high, Z.mod_pow2_bits_high by lia. by rewrite andb_true_r, orb_false_r.
  - rewrite !(Z.testbit_neg_r _ (i - fd_off f)) by lia. by rewrite andb_true_r, orb_false_r.
Qed.

Lemma set_reg_same r v s : set_reg r v s r = v.
Proof. unfold set_reg. by rewrite decide_True. Qed.
Lemma set_reg_other r r' v s : r' ≠ r → set_reg r v s r' = s r'.
Proof. intros. unfold set_reg. by rewrite decide_False. Qed.

(** A field reads back as the low bits written to it, and no other field changes. *)
Lemma get_set_same f v s : field_wf f = true → get_field f (set_field f v s) = v `mod` 2 ^ fd_width f.
Proof.
  intros Hf. apply Z.bits_inj'. intros i Hi. pose proof (proj1 (field_wf_spec f) Hf).
  rewrite get_field_bit by done. unfold set_field. rewrite set_reg_same, put_field_bit by (done || lia).
  destruct (Z.ltb_spec i (fd_width f)).
  - replace ((_ <=? _) && _) with true by lia. cbn [andb]. rewrite Z.mod_pow2_bits_low by lia. f_equal. lia.
  - by rewrite Z.mod_pow2_bits_high by lia.
Qed.

Lemma get_set_other f g v s : field_wf f = true → field_wf g = true → field_disjoint f g = true →
  get_field g (set_field f v s) = get_field g s.
Proof.
  intros Hf Hg Hd. unfold field_disjoint in Hd. destruct (decide (fd_reg f = fd_reg g)) as [He|Hne].
  - rewrite bool_decide_true in Hd by done. cbn [negb orb] in Hd.
    apply Z.bits_inj'. intros i Hi. pose proof (proj1 (field_wf_spec f) Hf). pose proof (proj1 (field_wf_spec g) Hg).
    rewrite !get_field_bit by done. unfold set_field. rewrite <- He, set_reg_same, put_field_bit by (done || lia).
    destruct (Z.ltb_spec i (fd_width g)); [|done]. replace ((_ <=? _) && _) with false by lia. done.
  - unfold get_field, set_field. by rewrite set_reg_other.
Qed.

Lemma get_field_range f s : field_wf f = true → 0 ≤ get_field f s < 2 ^ fd_width f.
Proof. intros Hf%field_wf_spec. unfold get_field. rewrite land_pow2_mod by lia. apply Z.mod_pos_bound. lia. Qed.

Lemma get_flag_same f b s : field_wf f = true → get_flag f (set_flag f b s) = b.
Proof.
  intros Hf. pose proof (proj1 (field_wf_spec f) Hf). unfold get_flag, set_flag. rewrite get_set_same by done.
  pose proof (Z.pow_le_mono_r 2 1 (fd_width f)). destruct b; rewrite Z.mod_small by lia; done.
Qed.

Lemma get_flag_other f g b s : field_wf f = true → field_wf g = true → field_disjoint f g = true →
  get_flag g (set_flag f b s) = get_flag g s.
Proof. intros. unfold get_flag, set_flag. by rewrite get_set_other. Qed.

Create Rewrite HintDb fields.
#[export] Hint Rewrite get_set_same get_set_other get_flag_same get_flag_other using done : fields.

Lemma threshold_fields w w' : field_wf (threshold_field w) = true ∧ (w ≠ w' → field_disjoint (threshold_field w) (threshold_field w') = true).
Proof. by destruct w, w'. Qed.

Lemma mod_mod_pow2 v a b : 0 ≤ a ≤ b → (v `mod` 2 ^ b) `mod` 2 ^ a = v `mod` 2 ^ a.
Proof.
  intros. apply Z.mod_mod_divide. exists (2 ^ (b - a)). rewrite <- Z.pow_add_r by lia. f_equal. lia.
Qed.

Lemma threshold_widths w : fd_width (threshold_field w) ≤ threshold_cast w.
Proof. by destruct w. Qed.

(** A divider reads back as written, up to the width of its field, and setting it
    changes no other divider and no selector. *)
Theorem thresholds_independent (w w' : threshold) (k : clock_select) (v : Z) (s : registers) :
  let s' := clock_set_threshold w v s in
  clock_get_threshold w s' = v `mod` 2 ^ fd_width (threshold_field w) ∧
  (w' ≠ w → clock_get_threshold w' s' = clock_get_threshold w' s) ∧
  clock_get_clock_select k s' = clock_get_clock_select k s.
Proof.
  cbn. unfold clock_get_threshold, clock_set_threshold, clock_get_clock_select.
  destruct (threshold_fields w w') as [Hw Hd]. destruct (threshold_fields w' w) as [Hw' _].
  pose proof (threshold_widths w). pose proof (proj1 (field_wf_spec _) Hw). split_and!.
  - rewrite get_set_same by done. unfold cast. by rewrite mod_mod_pow2 by lia.
  - intros Hne. apply get_set_other; [done|done|]. apply Hd. congruence.
  - apply get_set_other; [done|by destruct k|]. by destruct w, k.
Qed.

(** ** Gates *)

Lemma device_disjoint c c' f f' : device_field c = Some f → device_field c' = Some f' →
  field_wf f = true ∧ (c ≠ c' → field_disjoint f f' = true).
Proof. by destruct c, c'; intros; simplify_eq/=. Qed.

Lemma bus_is_device c f : bus_field c = Some f → ∃ b, device_field b = Some f ∧ bus_field b = None.
Proof. destruct c; intros; simplify_eq/=; ((by exists C_APB0) || (by exists C_APB1) || (by exists C_APB2)). Qed.

Lemma device_inj c c' f : device_field c = Some f → device_field c' = Some f → c = c'.
Proof. destruct c, c'; intros; simplify_eq/=; done. Qed.

Lemma set_device_flag c c' f f' b s : device_field c = Some f → device_field c' = Some f' →
  get_flag f' (set_flag f b s) = if decide (c' = c) then b else get_flag f' s.
Proof.
  intros Hc Hc'. destruct (device_disjoint c c' f f' Hc Hc') as [Hf Hd]. destruct (device_disjoint c' c f' f Hc' Hc) as [Hf' _].
  case_decide; [simplify_eq; by apply get_flag_same|]. apply get_flag_other; [done|done|]. apply Hd. congruence.
Qed.

(** Enabling a clock sets its own gate and that of the bus it hangs on, disabling
    it clears its own; no other gate changes. *)
Theorem clock_gates (c c' : clock) (f' : field) (s : registers) : device_field c' = Some f' →
  get_flag f' (clock_enable c s) =
    bool_decide (c' = c ∧ is_Some (device_field c)) || bool_decide (bus_field c = Some f') || get_flag f' s ∧
  get_flag f' (sysctl_clock_disable c s) = negb (bool_decide (c' = c)) && get_flag f' s.
Proof.
  intros Hc'. unfold clock_enable, sysctl_clock_disable, clock_bus_en, clock_device_en.
  assert (∀ b s, get_flag f' (set_flag_opt (device_field c) b s) = if decide (c' = c) then b else get_flag f' s) as Hdev.
  { intros b s'. destruct (device_field c) as [f|] eqn:Hc; cbn; [by apply (set_device_flag c c' f f')|]. case_decide; congruence. }
  assert (get_flag f' (set_flag_opt (bus_field c) true s) = bool_decide (bus_field c = Some f') || get_flag f' s) as Hbus.
  { destruct (bus_field c) as [f|] eqn:Hb; cbn; [|done]. destruct (bus_is_device c f Hb) as (b & Hf & _).
    rewrite (set_device_flag b c' f f') by done. case_bool_decide as Hff; simplify_eq/=.
    - by rewrite decide_True by (by apply (device_inj _ _ f')).
    - rewrite decide_False; [done|]. intros ->. congruence. }
  rewrite !Hdev, Hbus. split; case_decide as Hd; subst.
  - rewrite bool_decide_true; [done|]. split; [done|]. by rewrite Hc'.
  - rewrite (bool_decide_false (c' = c ∧ _)) by tauto. done.
  - by rewrite bool_decide_true.
  - by rewrite bool_decide_false.
Qed.

(** ** Programming a PLL *)

Lemma pll_fields_wf p : field_wf (pll_clkr p) = true ∧ field_wf (pll_clkf p) = true ∧ field_wf (pll_clkod p) = true.
Proof. by destruct p. Qed.

Lemma pll_field_ranges p s : 0 ≤ get_field (pll_clkr p) s < 16 ∧ 0 ≤ get_field (pll_clkf p) s < 64 ∧ 0 ≤ get_field (pll_clkod p) s < 16.
Proof.
  destruct (pll_fields_wf p) as (H1 & H2 & H3).
  pose proof (get_field_range _ s H1). pose proof (get_field_range _ s H2). pose proof (get_field_range _ s H3). destruct p; cbn [fd_width pll_clkr pll_clkf pll_clkod] in *; lia.
Qed.

(** What the dividers make of the input, if it fits *)
Lemma pll_rate_eq p freq_in s : 0 ≤ freq_in < 2 ^ 32 →
  let f := (freq_in * (get_field (pll_clkf p) s + 1)) `div` ((get_field (pll_clkr p) s + 1) * (get_field (pll_clkod p) s + 1)) in
  pll_rate p freq_in s = if f <? 2 ^ 32 then Ok f else Panic UnwrapNone.
Proof.
  intros Hf. destruct (pll_field_ranges p s) as (Hr & Hff & Ho). cbn. unfold pll_rate.
  rewrite (chk_in 8 (get_field (pll_clkr p) s + 1)), (chk_in 8 (get_field (pll_clkf p) s + 1)), (chk_in 8 (get_field (pll_clkod p) s + 1)) by lia.
  cbn [mbind exec_bind]. rewrite chk_in by nia. cbn [mbind exec_bind]. rewrite chk_in by nia. reflexivity.
Qed.

Lemma pll01_freq p s : p ≠ P_PLL2 → ∃ f, pll_rate p SYSCTRL_CLOCK_FREQ_IN0 s = Ok f ∧ 0 ≤ f < 2 ^ 32.
Proof.
  intros _. rewrite pll_rate_eq by done. destruct (pll_field_ranges p s) as (Hr & Hff & Ho). unfold SYSCTRL_CLOCK_FREQ_IN0.
  set (f := _ `div` _). assert (0 ≤ f < 2 ^ 32).
  { split; [apply Z.div_pos; nia|apply Z.div_lt_upper_bound; nia]. }
  exists f. by replace (f <? 2 ^ 32) with true by lia.
Qed.

(** The processor's frequency is always defined, so that [usleep] returns. *)
Lemma usleep_ok n s : 0 ≤ n < 2 ^ 32 → usleep n s = Ok tt.
Proof.
  intros Hn. unfold usleep, clock_get_freq, clock_source_get_freq.
  assert (∃ f, source_freq 3 S_ACLK s = Ok f ∧ 0 ≤ f < 2 ^ 32) as (f & Hf & Hr).
  { cbn [source_freq]. assert (0 ≤ clock_get_clock_select K_ACLK s < 2) as Hk by (by apply (get_field_range (select_field K_ACLK))).
    assert (0 ≤ clock_get_threshold T_ACLK s < 4) as Ht by (by apply (get_field_range (threshold_field T_ACLK))).
    destruct (Z.eqb_spec (clock_get_clock_select K_ACLK s) 0); [by exists SYSCTRL_CLOCK_FREQ_IN0|].
    replace (_ =? 1) with true by lia. cbn [mbind exec_bind mret exec_ret].
    destruct (pll01_freq P_PLL0 s ltac:(done)) as (f & -> & Hf). cbn [mbind exec_bind].
    set (t := clock_get_threshold T_ACLK s) in *. assert (1 ≤ 2 ^ t ≤ 8) as Hp.
    { pose proof (Z.pow_pos_nonneg 2 t). pose proof (Z.pow_le_mono_r 2 t 3). lia. }
    eexists. split; [reflexivity|]. rewrite shl_mul by lia.
    split; [apply Z.div_pos; lia|]. apply Z.div_lt_upper_bound; nia. }
  rewrite Hf. cbn [mbind exec_bind].
  assert (0 ≤ f `div` 62 ≤ f) by (split; [apply Z.div_pos; lia|apply Z.div_le_upper_bound; lia]).
  rewrite umul_in by nia. done.
Qed.

Section pll_proofs.
Variable lock : nat → Z.

Lemma wait_lock_ok p : ∀ fuel s n0, (∀ n, (n0 ≤ n)%nat → locked p (lock n) = true) → (n0 - sc_reads s ≤ fuel)%nat →
  ∃ s', wait_lock lock fuel p s = Ok (tt, s') ∧ ∀ r, r ≠ PLL_LOCK → sc_regs s' r = sc_regs s r.
Proof.
  induction fuel as [|fuel IH]; intros s n0 Hlock Hf; cbn [wait_lock]; unfold pll_is_lock, read_lock.
  - run_refl. cbn [fst snd]. rewrite Hlock by lia. by eexists.
  - run_refl. cbn. destruct (locked p (lock (sc_reads s))) eqn:El; [by eexists|].
    run_refl.
    match goal with |- context [wait_lock _ _ _ ?t] => destruct (IH t n0 Hlock) as (s' & E & Hr) end; [cbn; lia|].
    exists s'. split; [exact E|].
    intros r Hne. rewrite Hr by done. cbn. by rewrite set_reg_other.
Qed.

(** The registers that [pll_set_freq] leaves: [mid] is what the middle of it makes
    of them, while the PLL is off. *)
Definition pll_off (p : pll) (s : registers) : registers :=
  set_flag (pll_pwrd p) false (set_flag (pll_out_en p) false
    (if bool_decide (p = P_PLL0) then clock_set_clock_select K_ACLK 0 s else s)).
Definition pll_released (p : pll) (s : registers) : registers :=
  set_flag (pll_reset p) false (set_flag (pll_reset p) true (set_flag (pll_reset p) false (set_flag (pll_pwrd p) true s))).
Definition pll_on (p : pll) (s : registers) : registers :=
  let s := set_flag (pll_out_en p) true s in
  if bool_decide (p = P_PLL0) then clock_set_clock_select K_ACLK 1 s else s.

(** Registers that agree but for the lock register *)
Definition same_regs (s s' : registers) : Prop := ∀ r, r ≠ PLL_LOCK → s r = s' r.

Lemma read_regs_eq {A} (f : registers → exec A) s a : f (sc_regs s) = Ok a → read_regs f s = Ok (a, s).
Proof. intros H. unfold read_regs. run_refl. by rewrite H. Qed.

Lemma read_usleep s : read_regs (usleep 1) s = Ok (tt, s).
Proof. apply read_regs_eq. by apply usleep_ok. Qed.

(** The sequence around the computation of the parameters *)
Lemma pll_sequence fuel p freq s n0 result mid :
  (∀ n, (n0 ≤ n)%nat → locked p (lock n) = true) → (n0 ≤ fuel)%nat →
  (if bool_decide (p = P_PLL2) then
     source ← read_regs (λ s, pll2_cksel_to_source (clock_get_clock_select K_PLL2 s)); pll_source_set_freq p source freq
   else pll_source_set_freq p S_IN0 freq) {| sc_regs := pll_off p (sc_regs s); sc_reads := sc_reads s |} =
    Ok (result, {| sc_regs := mid; sc_reads := sc_reads s |}) →
  ∃ s' w, pll_set_freq lock fuel p freq s = Ok (result, s') ∧ sc_regs s' = pll_on p w ∧ same_regs w (pll_released p mid).
Proof.
  intros Hlock Hf Hmid. unfold pll_set_freq.
  erewrite (M_bind_eq _ _ s _ {| sc_regs := if bool_decide (p = P_PLL0) then clock_set_clock_select K_ACLK 0 (sc_regs s) else sc_regs s;
    sc_reads := sc_reads s |}); [|destruct (bool_decide (p = P_PLL0)), s; reflexivity].
  run_refl. run_refl. cbn [sc_regs sc_reads].
  change (set_flag (pll_pwrd p) false _) with (pll_off p (sc_regs s)). run Hmid.
  run_refl. erewrite M_bind_eq; [|apply read_usleep]. run_refl. run_refl. erewrite M_bind_eq; [|apply read_usleep]. run_refl. cbn [sc_regs sc_reads].
  match goal with |- context [(_ ≫= _) ?t] => destruct (wait_lock_ok p fuel t n0 Hlock) as (s1 & E1 & H1) end; [cbn; lia|]. run E1.
  run_refl. exists {| sc_regs := pll_on p (sc_regs s1); sc_reads := sc_reads s1 |}, (sc_regs s1). split; [|done].
  unfold pll_on. by destruct (bool_decide (p = P_PLL0)).
Qed.

(** Reads a field through a sequence of writes. *)
Ltac fields :=
  repeat match goal with
    | |- context [get_field ?g (set_field ?f ?v ?s)] =>
        (rewrite (get_set_same f v s) by done) || (rewrite (get_set_other f g v s) by done)
    end.

Definition pll_reg (p : pll) : sysreg := match p with P_PLL0 => PLL0 | P_PLL1 => PLL1 | P_PLL2 => PLL2 end.
Definition pll_param (f : field) (p : pll) : Prop := f = pll_clkr p ∨ f = pll_clkf p ∨ f = pll_clkod p.

Lemma get_field_same_regs f s s' : same_regs s s' → fd_reg f ≠ PLL_LOCK → get_field f s = get_field f s'.
Proof. intros H Hf. unfold get_field. by rewrite H. Qed.

(** What determines the frequencies of the PLLs *)
Definition pll_setting (f : field) : Prop := (∃ p, pll_param f p) ∨ f = select_field K_PLL2.

Ltac case_setting := intros [[[] [-> | [-> | ->]]] | ->].

Lemma setting_reg f : pll_setting f → fd_reg f ≠ PLL_LOCK.
Proof. by case_setting. Qed.
Lemma off_setting f p s : pll_setting f → get_field f (pll_off p s) = get_field f s.
Proof. unfold pll_off, clock_set_clock_select, set_flag. case_setting; destruct p; repeat case_bool_decide; try done; by fields. Qed.
Lemma released_setting f p s : pll_setting f → get_field f (pll_released p s) = get_field f s.
Proof. unfold pll_released, set_flag. case_setting; destruct p; by fields. Qed.
Lemma on_setting f p s : pll_setting f → get_field f (pll_on p s) = get_field f s.
Proof. unfold pll_on, clock_set_clock_select, set_flag. case_setting; destruct p; repeat case_bool_decide; try done; by fields. Qed.

Lemma final_setting f p w mid : pll_setting f → same_regs w (pll_released p mid) → get_field f (pll_on p w) = get_field f mid.
Proof.
  intros Hf Hw. rewrite on_setting, (get_field_same_regs f _ _ Hw), released_setting by done || by apply setting_reg. done.
Qed.

Lemma final_flags p w mid : same_regs w (pll_released p mid) →
  get_flag (pll_out_en p) (pll_on p w) = true ∧ get_flag (pll_pwrd p) (pll_on p w) = true ∧ get_flag (pll_reset p) (pll_on p w) = false.
Proof.
  intros Hw. assert (∀ f, f = pll_pwrd p ∨ f = pll_reset p → get_field f (pll_on p w) = get_field f (pll_released p mid)) as Hf.
  { intros f Hf. rewrite <- (get_field_same_regs f _ _ Hw) by (by destruct p, Hf as [-> | ->]).
    unfold pll_on, clock_set_clock_select, set_flag. destruct p, Hf as [-> | ->]; repeat case_bool_decide; try done; by fields. }
  unfold get_flag. rewrite (Hf (pll_pwrd p)), (Hf (pll_reset p)) by auto. unfold pll_released, pll_on, clock_set_clock_select, set_flag.
  destruct p; repeat case_bool_decide; try done; fields; done.
Qed.

Lemma put_params_get p cksel q s :
  get_field (pll_clkr p) (put_params p cksel q s) = clkr q `mod` 16 ∧
  get_field (pll_clkf p) (put_params p cksel q s) = clkf q `mod` 64 ∧
  get_field (pll_clkod p) (put_params p cksel q s) = clkod q `mod` 16.
Proof. unfold put_params. destruct p; fields; done. Qed.

(** A frequency depends on the parameters only. *)
Lemma pll_rate_ext p f s s' : (∀ g, pll_param g p → get_field g s = get_field g s') → pll_rate p f s = pll_rate p f s'.
Proof. intros H. unfold pll_rate. rewrite !H; unfold pll_param; auto. Qed.

(** The source of a PLL, which [PLL2] selects *)
Definition pll_source (p : pll) (s : registers) : exec clock_source :=
  if bool_decide (p = P_PLL2) then pll2_cksel_to_source (clock_get_clock_select K_PLL2 s) else mret S_IN0.

Lemma pll_source_cases p s src : pll_source p s = Ok src →
  (p ≠ P_PLL2 ∧ src = S_IN0) ∨
  (p = P_PLL2 ∧ ∃ k, clock_get_clock_select K_PLL2 s = k ∧ pll2_source_to_cksel src = Ok k ∧ (src = S_IN0 ∨ src = S_PLL0 ∨ src = S_PLL1)).
Proof.
  unfold pll_source, pll2_cksel_to_source. case_bool_decide as Hp; [|intros [= <-]; by left].
  intros H. right. split; [done|]. eexists. split; [reflexivity|].
  destruct (Z.eqb_spec (clock_get_clock_select K_PLL2 s) 0) as [->|]; [injection H as <-; split; [done|auto]|].
  destruct (Z.eqb_spec (clock_get_clock_select K_PLL2 s) 1) as [->|]; [injection H as <-; split; [done|auto]|].
  destruct (Z.eqb_spec (clock_get_clock_select K_PLL2 s) 2) as [->|]; [injection H as <-; split; [done|auto]|]. done.
Qed.

Lemma param_setting p f : pll_param f p → pll_setting f.
Proof. intros. left. by exists p. Qed.

Definition same_settings (s s' : registers) : Prop := ∀ f, pll_setting f → get_field f s = get_field f s'.

Lemma pll_source_ext p s s' : same_settings s s' → pll_source p s = pll_source p s'.
Proof. intros H. unfold pll_source, clock_get_clock_select. rewrite (H (select_field K_PLL2)); [done|by right]. Qed.

Definition as_source (p : pll) : clock_source := match p with P_PLL0 => S_PLL0 | P_PLL1 => S_PLL1 | P_PLL2 => S_PLL2 end.

Lemma source_freq_ext src s s' : (src = S_IN0 ∨ src = S_PLL0 ∨ src = S_PLL1) →
  (∀ p g, src = as_source p → pll_param g p → get_field g s = get_field g s') → clock_source_get_freq src s = clock_source_get_freq src s'.
Proof.
  intros [-> | [-> | ->]] H; [done|apply (pll_rate_ext P_PLL0)|apply (pll_rate_ext P_PLL1)]; intros g Hg;
    [by apply (H P_PLL0)|by apply (H P_PLL1)].
Qed.

Lemma pll_get_freq_eq p s : pll_get_freq p s = (src ← pll_source p s; f ← clock_source_get_freq src s; pll_rate p f s).
Proof.
  destruct p; [done..|]. unfold pll_get_freq, pll_source, clock_source_get_freq. rewrite bool_decide_true by done.
  cbn [source_freq]. unfold pll2_cksel_to_source. by repeat case_match.
Qed.

Lemma pll_get_freq_ext p s s' : same_settings s s' → pll_get_freq p s = pll_get_freq p s'.
Proof.
  intros H. rewrite !pll_get_freq_eq, (pll_source_ext p s s' H). destruct (pll_source p s') as [src|] eqn:E; [|done]. cbn [mbind exec_bind].
  rewrite (source_freq_ext src s s').
  - destruct (clock_source_get_freq src s'); [|done]. cbn [mbind exec_bind]. apply pll_rate_ext. intros g Hg. by eapply H, param_setting.
  - destruct (pll_source_cases p s' src E) as [[_ ->] | (_ & k & _ & _ & Hs)]; auto.
  - intros p' g _ Hg. by eapply H, param_setting.
Qed.

(** The frequency a setting makes, with the multiplier cut to its six bits *)
Definition set_rate (freq_in : Z) (q : Params) : Z := (freq_in * (clkf q `mod` 64 + 1)) `div` ((clkr q + 1) * (clkod q + 1)).

Lemma put_params_rate p freq_in freq cksel q s : 0 ≤ freq_in < 2 ^ 32 → 0 ≤ freq < 2 ^ 32 → compute_params freq_in freq = Ok (Some q) →
  pll_rate p freq_in (put_params p cksel q s) = Ok (set_rate freq_in q).
Proof.
  intros Hi Ho Hq. destruct (pll_compute_ok freq_in freq Hi Ho) as (o & E & H). rewrite Hq in E. injection E as <-.
  destruct H as (Hr & _ & Hod & Hf & _ & Hv). rewrite pll_rate_eq by done. cbn zeta.
  destruct (put_params_get p cksel q s) as (-> & -> & ->). rewrite !(Z.mod_small (_ q) 16) by lia. fold (set_rate freq_in q).
  assert (set_rate freq_in q < 2 ^ 32) as Hlt; [|by replace (_ <? _) with true by lia].
  set (r := clkr q + 1) in *. assert (clkf q ≤ 256) by (destruct (freq_in <? freq); lia).
  assert (clkf q `mod` 64 ≤ clkf q) by (apply Z.mod_le; lia). pose proof (Z.mod_pos_bound (clkf q) 64).
  assert (freq_in * (clkf q + 1) < (VCO_MAX + 1) * r).
  { pose proof (Z.div_pos r 2). destruct Hv as [_ Hv]. apply Z.lt_succ_r in Hv. unfold Z.succ in Hv.
    pose proof (Z.mul_succ_div_gt (freq_in * (clkf q + 1) + r `div` 2) r). nia. }
  unfold set_rate. fold r. apply Z.div_lt_upper_bound; [nia|]. unfold VCO_MAX in *.
  assert (freq_in * (clkf q `mod` 64 + 1) ≤ freq_in * (clkf q + 1)) by nia. nia.
Qed.

(** [pll_source_set_freq] on the source the PLL has *)
Lemma source_set_ok p src freq_in freq o (s : sysctl) : pll_source p (sc_regs s) = Ok src →
  clock_source_get_freq src (sc_regs s) = Ok freq_in → 0 ≤ freq_in < 2 ^ 32 → 0 ≤ freq < 2 ^ 32 → compute_params freq_in freq = Ok o →
  ∃ mid, pll_source_set_freq p src freq s =
      Ok (match o with Some q => inl (set_rate freq_in q) | None => inr tt end, {| sc_regs := mid; sc_reads := sc_reads s |}) ∧
    match o with
    | Some q => pll_get_freq p mid = Ok (set_rate freq_in q) ∧
        ∀ p' g, p' ≠ p → pll_param g p' → get_field g mid = get_field g (sc_regs s)
    | None => mid = sc_regs s
    end.
Proof.
  intros Hsrc Hin Hi Ho Hq. pose proof (pll_source_cases _ _ _ Hsrc) as Hcases. unfold pll_source_set_freq.
  rewrite bool_decide_false by (destruct Hcases as [[? ->] | [-> _]]; naive_solver).
  run (read_regs_eq _ _ _ Hin).
  destruct (Z.eqb_spec freq_in 0) as [-> | Hne].
  { exists (sc_regs s). assert (o = None) as -> by (unfold compute_params in Hq; destruct (_ || _) in Hq; by injection Hq as <-).
    by destruct s. }
  rewrite Hq. run_refl. destruct o as [q|]; [|exists (sc_regs s); by destruct s].
  assert (∃ k, (match p with P_PLL2 => pll2_source_to_cksel src | _ => mret 0 end) = Ok k ∧
    (p = P_PLL2 → pll2_cksel_to_source (k `mod` 4) = Ok src ∧ (src = S_IN0 ∨ src = S_PLL0 ∨ src = S_PLL1))) as (k & Hk & Hk').
  { destruct Hcases as [[Hp ->] | (-> & k & Hs & Hk & Hsrcs)]; [exists 0; by destruct p|]. exists k. split; [done|]. intros _.
    split; [|done]. by destruct Hsrcs as [-> | [-> | ->]]; injection Hk as <-. }
  rewrite Hk. run_refl. run_refl. cbn [sc_regs sc_reads]. set (mid := put_params p k q (sc_regs s)).
  assert (∀ p' g, p' ≠ p → pll_param g p' → get_field g mid = get_field g (sc_regs s)) as Hkeep.
  { intros p' g Hp' Hg. unfold mid, put_params. destruct p, p', Hg as [-> | [-> | ->]]; try done; by fields. }
  assert (pll_get_freq p mid = Ok (set_rate freq_in q)) as Hrate.
  { rewrite pll_get_freq_eq. assert (pll_source p mid = Ok src) as ->.
    { unfold pll_source in *. case_bool_decide as Hp; [|done]. destruct (Hk' Hp) as [Hc _]. rewrite <- Hc. do 2 f_equal.
      unfold clock_get_clock_select, mid, put_params. subst p. change (select_field K_PLL2) with pll_ckin_sel. fields. reflexivity. }
    cbn [mbind exec_bind]. rewrite (source_freq_ext src mid (sc_regs s)), Hin.
    - cbn [mbind exec_bind]. by apply put_params_rate with freq.
    - destruct Hcases as [[_ ->] | (_ & _ & _ & _ & Hs)]; auto.
    - intros p' g Hp' Hg. apply (Hkeep p'); [|done]. destruct Hcases as [[_ ->] | (-> & _ & _ & _ & Hs)]; [by destruct p'|].
      intros ->. subst src. by destruct Hs as [? | [? | ?]]. }
  exists mid. split; [|done]. run (read_regs_eq (pll_get_freq p) {| sc_regs := mid; sc_reads := sc_reads s |} _ Hrate). done.
Qed.

(** Programming a PLL: once the lock register reports a lock, the call returns with
    the PLL powered, released from reset and driving its output, and no other PLL
    changed.  The frequency it reports is the one the registers make: that of the
    parameters found with the multiplier cut to six bits, which is the frequency
    asked for only when it fits.  If no parameters exist the call fails and the old
    setting goes on. *)
Theorem pll_set_freq_correct fuel p freq s src freq_in n0 :
  pll_source p (sc_regs s) = Ok src → clock_source_get_freq src (sc_regs s) = Ok freq_in → 0 ≤ freq_in < 2 ^ 32 → 0 ≤ freq < 2 ^ 32 →
  (∀ n, (n0 ≤ n)%nat → locked p (lock n) = true) → (n0 ≤ fuel)%nat →
  ∃ r s', pll_set_freq lock fuel p freq s = Ok (r, s') ∧
    get_flag (pll_out_en p) (sc_regs s') = true ∧ get_flag (pll_pwrd p) (sc_regs s') = true ∧
    get_flag (pll_reset p) (sc_regs s') = false ∧
    (∀ p' g, p' ≠ p → pll_param g p' → get_field g (sc_regs s') = get_field g (sc_regs s)) ∧
    match compute_params freq_in freq with
    | Ok (Some q) => r = inl (set_rate freq_in q) ∧ pll_get_freq p (sc_regs s') = Ok (set_rate freq_in q)
    | Ok None => r = inr tt ∧ pll_get_freq p (sc_regs s') = pll_get_freq p (sc_regs s)
    | Panic _ => False
    end.
Proof.
  intros Hsrc Hin Hi Ho Hlock Hf. destruct (pll_compute_ok freq_in freq Hi Ho) as (o & Hq & _).
  assert (same_settings (pll_off p (sc_regs s)) (sc_regs s)) as Hoff by (intros f Hs; by apply off_setting).
  destruct (source_set_ok p src freq_in freq o {| sc_regs := pll_off p (sc_regs s); sc_reads := sc_reads s |}) as (mid & E & Hmid); cbn [sc_regs]; try done.
  { by rewrite (pll_source_ext _ _ _ Hoff). }
  { rewrite <- Hin. apply source_freq_ext.
    - destruct (pll_source_cases _ _ _ Hsrc) as [[_ ->] | (_ & _ & _ & _ & Hs)]; auto.
    - intros p' g _ Hg. by eapply Hoff, param_setting. }
  destruct (pll_sequence fuel p freq s n0 (match o with Some q => inl (set_rate freq_in q) | None => inr tt end) mid Hlock Hf) as (s' & w & Erun & Hs' & Hw).
  { unfold pll_source in Hsrc. case_bool_decide as Hp; [|injection Hsrc as <-; exact E].
    unfold read_regs. rewrite M_bind_assoc. run_refl. unfold lift at 1. cbn [sc_regs].
    unfold clock_get_clock_select in *. rewrite off_setting, Hsrc by (by right). exact E. }
  eexists _, s'. split; [exact Erun|]. rewrite Hs'.
  assert (same_settings (pll_on p w) mid) as Hon by (intros f Hs; by apply final_setting).
  cbn [sc_regs] in Hmid. destruct (final_flags p w mid Hw) as (H1 & H2 & H3). split_and!; try done.
  - intros p' g Hp' Hg. rewrite (Hon g), <- (Hoff g) by (by eapply param_setting).
    destruct o as [q|]; [|by subst mid]. destruct Hmid as [_ Hmid]. by apply (Hmid p').
  - rewrite Hq. rewrite (pll_get_freq_ext p _ _ Hon). destruct o as [q|]; [by destruct Hmid as [-> _]|].
    subst mid. by rewrite (pll_get_freq_ext p _ _ Hoff).
Qed.
End pll_proofs.

(** ** A multiplier that does not fit *)

(** PLL1 makes 299 MHz of the crystal and feeds PLL2. *)
Definition regs_299 : registers := λ r,
  match r with
  | PLL1 => put_field (pll_clkod P_PLL1) 1 (put_field (pll_clkf P_PLL1) 22 0)
  | PLL2 => put_field pll_ckin_sel 2 0
  | _ => 0
  end.
Definition sys_299 : sysctl := {| sc_regs := regs_299; sc_reads := 0 |}.
Definition all_locked : nat → Z := λ _, 0x10103.

(** Lowering a frequency may need a multiplier above 64, which [compute_params]
    returns and the register cuts off: asked for 83.45 MHz from a source of 299
    MHz, the call succeeds and leaves PLL2 at 3.7375 MHz. *)
Theorem pll_multiplier_truncated :
  pll_get_freq P_PLL1 regs_299 = Ok 299000000 ∧
  compute_params 299000000 83450000 = Ok (Some {| clkr := 14; clkf := 66; clkod := 15; bwadj := 66 |}) ∧
  match pll_set_freq all_locked 0 P_PLL2 83450000 sys_299 with
  | Ok (r, s) => r = inl 3737500 ∧ pll_get_freq P_PLL2 (sc_regs s) = Ok 3737500
  | Panic _ => False
  end.
Proof. vm_compute. auto. Qed.

Lemma pll_set_freq_correct_witness : ∃ s',
  pll_set_freq all_locked 0 P_PLL0 800000000 sys_299 = Ok (inl 806000000, s') ∧
  pll_get_freq P_PLL0 (sc_regs s') = Ok 806000000 ∧ get_flag (pll_out_en P_PLL0) (sc_regs s') = true.
Proof.
  destruct (pll_set_freq_correct all_locked 0 P_PLL0 800000000 sys_299 S_IN0 26000000 0) as (r & s' & E & H1 & _ & _ & _ & H2);
    [reflexivity|reflexivity|lia|lia|intros; reflexivity|lia|].
  assert (compute_params 26000000 800000000 = Ok (Some {| clkr := 0; clkf := 30; clkod := 0; bwadj := 30 |})) as Hq by (vm_compute; reflexivity).
  rewrite Hq in H2. destruct H2 as [-> H2]. exists s'. exact (conj E (conj H2 H1)).
Defined.

Lemma clock_gates_witness :
  get_flag (Field CLK_EN_CENT 3 1) (clock_enable C_UART1 regs_299) = true ∧
  get_flag (Field CLK_EN_PERI 17 1) (clock_enable C_UART1 regs_299) = false.
Proof.
  destruct (clock_gates C_UART1 C_APB0 _ regs_299 eq_refl) as [H1 _]. destruct (clock_gates C_UART1 C_UART2 _ regs_299 eq_refl) as [H2 _].
  split; [rewrite H1|rewrite H2]; reflexivity.
Defined.

(** [DVP] is listed under APB1, but enabling it leaves the bus off. *)
Example dvp_bus_off : get_flag (Field CLK_EN_CENT 4 1) (clock_enable C_DVP regs_299) = false.
Proof. reflexivity. Qed.
