(* ===== verification/FatBits.v ===== *)
(** * Byte strings as bit strings

    A table of packed entries is easiest to reason about as one string of bits:
    [le_value] of all its bytes.  Reading a slice and splicing bytes in are the
    bit-level operations below. *)

From S2P Require Import Prelude Io FatIo.

Definition bit (bs : list Z) (i : Z) : bool := Z.testbit (le_value bs) i.
Definition slice (off : Z) (n : nat) (bs : list Z) : list Z := take n (drop (Z.to_nat off) bs).

Lemma testbit_byte_high b i : is_byte b → 8 ≤ i → Z.testbit b i = false.
Proof.
  intros Hb Hi. unfold is_byte in Hb. rewrite <- (Z.mod_small b (2 ^ 8)) by lia.
  by apply Z.mod_pow2_bits_high; lia.
Qed.

Lemma le_value_testbit l i : Forall is_byte l → 0 ≤ i →
  Z.testbit (le_value l) i =
    match l !! Z.to_nat (i `div` 8) with Some b => Z.testbit b (i `mod` 8) | None => false end.
Proof.
  intros Hl. revert i. induction Hl as [|b l Hb Hl IH]; intros i Hi; cbn [le_value]; [by rewrite Z.bits_0|].
  assert (b + 256 * le_value l = Z.lor (Z.shiftl (le_value l) 8) b) as ->.
  { rewrite lor_shiftl_add by (unfold is_byte in Hb; lia). change (2 ^ 8) with 256. lia. }
  rewrite Z.lor_spec, Z.shiftl_spec by done. destruct (decide (i < 8)).
  - rewrite Z.testbit_neg_r by lia. rewrite Z.div_small, Z.mod_small by lia. done.
  - rewrite (testbit_byte_high b i), orb_false_r by (done || lia). rewrite IH by lia.
    destruct (Z.le_exists_sub 8 i) as (j & -> & Hj); [lia|]. replace (j + 8 - 8) with j by lia.
    replace (j + 8) with (j + 1 * 8) by lia.
    rewrite Z.div_add, Z.mod_add by lia. assert (0 ≤ j `div` 8) by (apply Z.div_pos; lia).
    by replace (Z.to_nat (j `div` 8 + 1)) with (S (Z.to_nat (j `div` 8))) by lia.
Qed.

Lemma Forall_slice off n bs : Forall is_byte bs → Forall is_byte (slice off n bs).
Proof. intros. by apply Forall_take, Forall_drop. Qed.

Lemma Forall_splice pos l bs : Forall is_byte l → Forall is_byte bs → Forall is_byte (splice pos l bs).
Proof.
  intros Hl Hb. unfold splice. apply Forall_app_2; [by apply Forall_take|].
  apply Forall_app_2; [done|by apply Forall_drop].
Qed.

Lemma length_slice off n bs : 0 ≤ off → off + Z.of_nat n ≤ Z.of_nat (length bs) → length (slice off n bs) = n.
Proof. intros. unfold slice. rewrite length_take, length_drop. lia. Qed.

Lemma div8_off i off : 0 ≤ off → 0 ≤ i →
  Z.to_nat ((8 * off + i) `div` 8) = (Z.to_nat off + Z.to_nat (i `div` 8))%nat.
Proof.
  intros. replace (8 * off + i) with (i + off * 8) by lia. rewrite Z.div_add by lia.
  rewrite Z2Nat.inj_add by (try apply Z.div_pos; lia). lia.
Qed.

Lemma mod8_off i off : (8 * off + i) `mod` 8 = i `mod` 8.
Proof. replace (8 * off + i) with (i + off * 8) by lia. apply Z.mod_add. lia. Qed.

(** Reading a slice selects its bits. *)
Lemma slice_bit off n bs i : Forall is_byte bs → 0 ≤ off → 0 ≤ i →
  Z.testbit (le_value (slice off n bs)) i = (i <? 8 * Z.of_nat n) && bit bs (8 * off + i).
Proof.
  intros Hb Ho Hi. unfold bit.
  rewrite !le_value_testbit by (try apply Forall_slice; done || lia).
  rewrite div8_off, mod8_off by lia. unfold slice.
  destruct (Z.ltb_spec i (8 * Z.of_nat n)); cbn [andb].
  - rewrite lookup_take_lt, lookup_drop; [done|].
    apply Nat2Z.inj_lt. rewrite Z2Nat.id by (apply Z.div_pos; lia).
    apply Z.div_lt_upper_bound; lia.
  - rewrite lookup_take_ge; [done|].
    apply Nat2Z.inj_le. rewrite Z2Nat.id by (apply Z.div_pos; lia).
    apply Z.div_le_lower_bound; lia.
Qed.

(** Splicing replaces them. *)
Lemma splice_bit off l bs i : Forall is_byte bs → Forall is_byte l →
  0 ≤ off → off + Z.of_nat (length l) ≤ Z.of_nat (length bs) → 0 ≤ i →
  bit (splice off l bs) i =
    if (8 * off <=? i) && (i <? 8 * (off + Z.of_nat (length l))) then Z.testbit (le_value l) (i - 8 * off)
    else bit bs i.
Proof.
  intros Hb Hl Ho Hlen Hi. unfold bit. rewrite (le_value_testbit (splice _ _ _)) by (try apply Forall_splice; done).
  rewrite splice_lookup by lia.
  pose proof (Z.div_mod i 8). pose proof (Z.mod_pos_bound i 8). pose proof (Z.div_pos i 8).
  destruct ((8 * off <=? i) && (i <? 8 * (off + Z.of_nat (length l)))) eqn:E.
  - rewrite decide_True by lia. rewrite (le_value_testbit l) by (done || lia).
    destruct (Z.le_exists_sub (8 * off) i) as (j & Ej & Hj); [lia|].
    replace (i - 8 * off) with j by lia. replace i with (8 * off + j) by lia.
    rewrite div8_off, mod8_off by lia.
    by replace (Z.to_nat off + Z.to_nat (j `div` 8) - Z.to_nat off)%nat with (Z.to_nat (j `div` 8)) by lia.
  - rewrite decide_False by lia. by rewrite le_value_testbit.
Qed.

Lemma le_bytes_testbit n v i : 0 ≤ i → i < 8 * Z.of_nat n →
  Z.testbit (le_value (le_bytes n v)) i = Z.testbit v i.
Proof.
  revert v i. induction n as [|n IH]; intros v i Hi Hn; [lia|]. cbn [le_bytes le_value].
  pose proof (Z.mod_pos_bound v 256).
  assert (v `mod` 256 + 256 * le_value (le_bytes n (v `div` 256)) =
          Z.lor (Z.shiftl (le_value (le_bytes n (v `div` 256))) 8) (v `mod` 256)) as ->.
  { rewrite lor_shiftl_add by lia. change (2 ^ 8) with 256. lia. }
  rewrite Z.lor_spec, Z.shiftl_spec by done. change 256 with (2 ^ 8) in *. destruct (decide (i < 8)).
  - rewrite Z.testbit_neg_r by lia. by rewrite Z.mod_pow2_bits_low by lia.
  - rewrite Z.mod_pow2_bits_high, orb_false_r by lia. rewrite IH by lia.
    rewrite Z.div_pow2_bits by lia. f_equal. lia.
Qed.

Lemma testbit_range n v : 0 ≤ n → 0 ≤ v < 2 ^ n → ∀ i, n ≤ i → Z.testbit v i = false.
Proof.
  intros Hn Hv i Hi. rewrite <- (Z.mod_small v (2 ^ n)) by done. by apply Z.mod_pow2_bits_high.
Qed.

Lemma testbit_bound n v : 0 ≤ n → 0 ≤ v → (∀ i, n ≤ i → Z.testbit v i = false) → v < 2 ^ n.
Proof.
  intros Hn Hv H. rewrite <- (Z.mod_small v (2 ^ n)); [apply Z.mod_pos_bound; lia|].
  split; [done|]. assert (v = v `mod` 2 ^ n) as ->.
  { apply Z.bits_inj'. intros i Hi. destruct (decide (i < n)).
    - by rewrite Z.mod_pow2_bits_low.
    - rewrite Z.mod_pow2_bits_high by lia. apply H. lia. }
  apply Z.mod_pos_bound. lia.
Qed.
