(* ===== verification/FatTime.v ===== *)
(** * DOS dates and times (fatfs/src/time.rs)

    [Date] and [Time] with the packed formats of directory entries.  The
    [chrono] feature is not enabled in this build: the default time provider
    decodes zeros. *)

From S2P Require Import Prelude FatIo.

Record Date := { year : Z; month : Z; day : Z }.
Record Time := { hour : Z; minute : Z; sec : Z; millis : Z }.
Record DateTime := { date : Date; time : Time }.

#[export] Instance Date_eq_dec : EqDecision Date.
Proof. solve_decision. Defined.
#[export] Instance Time_eq_dec : EqDecision Time.
Proof. solve_decision. Defined.
#[export] Instance DateTime_eq_dec : EqDecision DateTime.
Proof. solve_decision. Defined.

(** [Date::decode] and [Date::encode] *)
Definition date_decode (dos_date : Z) : exec Date :=
  y ← u16 (Z.shiftr dos_date 9 + 1980);
  mret {| year := y; month := Z.land (Z.shiftr dos_date 5) 0xF; day := Z.land dos_date 0x1F |}.
Definition date_encode (self : Date) : exec Z :=
  y ← u16 (year self - 1980);
  mret (Z.lor (Z.lor (shl 16 y 9) (shl 16 (month self) 5)) (day self)).

(** [Time::decode] and [Time::encode] *)
Definition time_decode (dos_time dos_time_hi_res : Z) : exec Time :=
  s2 ← u16 (Z.land dos_time 0x1F * 2);
  s ← u16 (s2 + dos_time_hi_res `div` 100);
  ms ← u16 ((dos_time_hi_res `mod` 100) * 10);
  mret {| hour := Z.shiftr dos_time 11; minute := Z.land (Z.shiftr dos_time 5) 0x3F; sec := s; millis := ms |}.
Definition time_encode (self : Time) : exec (Z * Z) :=
  let dos_time := Z.lor (Z.lor (shl 16 (hour self) 11) (shl 16 (minute self) 5)) (sec self `div` 2) in
  odd ← u16 ((sec self `mod` 2) * 100);
  hi ← u16 (millis self `div` 10 + odd);
  mret (dos_time, cast 8 hi).

(** [DateTime::decode] *)
Definition date_time_decode (dos_date dos_time dos_time_hi_res : Z) : exec DateTime :=
  d ← date_decode dos_date;
  t ← time_decode dos_time dos_time_hi_res;
  mret {| date := d; time := t |}.

(** [DefaultTimeProvider] *)
Definition get_current_date : exec Date := date_decode 0.
Definition get_current_date_time : exec DateTime := date_time_decode 0 0 0.

(** The ranges the documentation of the fields gives. *)
Definition valid_date (d : Date) : Prop :=
  1980 ≤ year d ≤ 2107 ∧ 1 ≤ month d ≤ 12 ∧ 1 ≤ day d ≤ 31.
Definition valid_time (t : Time) : Prop :=
  0 ≤ hour t ≤ 23 ∧ 0 ≤ minute t ≤ 59 ∧ 0 ≤ sec t ≤ 59 ∧ 0 ≤ millis t ≤ 999.

(** Three packed bit fields. *)
Lemma pack3 a b c p q :
  0 ≤ p ≤ q → 0 ≤ c < 2 ^ p → 0 ≤ b → b * 2 ^ p + c < 2 ^ q → 0 ≤ a →
  Z.lor (Z.lor (a * 2 ^ q) (b * 2 ^ p)) c = a * 2 ^ q + (b * 2 ^ p + c).
Proof.
  intros Hp Hc Hb Hbc Ha. rewrite <- Z.lor_assoc, <- (Z.shiftl_mul_pow2 b p) by lia.
  assert (0 ≤ b * 2 ^ p) by (apply Z.mul_nonneg_nonneg; lia).
  rewrite (lor_shiftl_add c b p), <- (Z.shiftl_mul_pow2 a q) by lia.
  rewrite lor_shiftl_add by lia. by rewrite !Z.shiftl_mul_pow2 by lia.
Qed.

(** Decoding a packed pair. *)
Lemma low_field a c p : 0 ≤ p → 0 ≤ c < 2 ^ p → Z.land (a * 2 ^ p + c) (2 ^ p - 1) = c.
Proof.
  intros. rewrite land_pow2_mod by done. symmetry. apply Z.mod_unique with a; lia.
Qed.
Lemma high_field a c p : 0 ≤ p → 0 ≤ c < 2 ^ p → Z.shiftr (a * 2 ^ p + c) p = a.
Proof.
  intros. rewrite Z.shiftr_div_pow2 by done. symmetry. apply Z.div_unique with c; lia.
Qed.

Lemma date_encode_value d :
  0 ≤ year d - 1980 < 128 → 0 ≤ month d < 16 → 0 ≤ day d < 32 →
  date_encode d = Ok ((year d - 1980) * 2 ^ 9 + (month d * 2 ^ 5 + day d)).
Proof.
  intros. unfold date_encode. rewrite chk_in by lia. cbn [mbind exec_bind mret exec_ret].
  rewrite !shl_mul by lia. by rewrite pack3 by lia.
Qed.

Lemma date_decode_value y m d :
  0 ≤ y < 128 → 0 ≤ m < 16 → 0 ≤ d < 32 →
  date_decode (y * 2 ^ 9 + (m * 2 ^ 5 + d)) = Ok {| year := y + 1980; month := m; day := d |}.
Proof.
  intros Hy Hm Hd. unfold date_decode. rewrite high_field by lia. rewrite chk_in by lia.
  cbn [mbind exec_bind mret exec_ret]. do 2 f_equal.
  - replace (y * 2 ^ 9 + (m * 2 ^ 5 + d)) with ((y * 2 ^ 4 + m) * 2 ^ 5 + d) by lia.
    rewrite high_field by lia. by apply (low_field y m 4).
  - replace (y * 2 ^ 9 + (m * 2 ^ 5 + d)) with ((y * 2 ^ 4 + m) * 2 ^ 5 + d) by lia.
    by apply (low_field _ d 5).
Qed.

Lemma time_encode_value t :
  0 ≤ hour t < 32 → 0 ≤ minute t < 64 → 0 ≤ sec t < 64 → 0 ≤ millis t < 1000 →
  time_encode t = Ok (hour t * 2 ^ 11 + (minute t * 2 ^ 5 + sec t `div` 2),
                      millis t `div` 10 + sec t `mod` 2 * 100).
Proof.
  intros. unfold time_encode.
  assert (0 ≤ sec t `mod` 2 < 2) by (apply Z.mod_pos_bound; lia).
  assert (0 ≤ millis t `div` 10 < 100) by (split; [apply Z.div_pos|apply Z.div_lt_upper_bound]; lia).
  assert (0 ≤ sec t `div` 2 < 32) by (split; [apply Z.div_pos|apply Z.div_lt_upper_bound]; lia).
  rewrite chk_in by lia. cbn [mbind exec_bind]. rewrite chk_in by lia. cbn [mbind exec_bind mret exec_ret].
  rewrite !shl_mul by lia. rewrite pack3 by lia. by rewrite cast_in by lia.
Qed.

Lemma time_decode_value h m s2 hi :
  0 ≤ h < 32 → 0 ≤ m < 64 → 0 ≤ s2 < 32 → 0 ≤ hi < 256 →
  time_decode (h * 2 ^ 11 + (m * 2 ^ 5 + s2)) hi =
    Ok {| hour := h; minute := m; sec := s2 * 2 + hi `div` 100; millis := hi `mod` 100 * 10 |}.
Proof.
  intros Hh Hm Hs Hi. unfold time_decode.
  assert (0 ≤ hi `mod` 100 < 100) by (apply Z.mod_pos_bound; lia).
  assert (0 ≤ hi `div` 100 < 3) by (split; [apply Z.div_pos|apply Z.div_lt_upper_bound]; lia).
  assert (Z.land (h * 2 ^ 11 + (m * 2 ^ 5 + s2)) 0x1F = s2) as ->.
  { replace (h * 2 ^ 11 + (m * 2 ^ 5 + s2)) with ((h * 2 ^ 6 + m) * 2 ^ 5 + s2) by lia.
    by apply (low_field _ s2 5). }
  rewrite chk_in by lia. cbn [mbind exec_bind]. rewrite chk_in by lia. cbn [mbind exec_bind].
  rewrite chk_in by lia. cbn [mbind exec_bind mret exec_ret].
  rewrite high_field by lia. do 2 f_equal.
  replace (h * 2 ^ 11 + (m * 2 ^ 5 + s2)) with ((h * 2 ^ 6 + m) * 2 ^ 5 + s2) by lia.
  rewrite high_field by lia. by apply (low_field h m 6).
Qed.

(** Any words of the width decode. *)
Lemma date_decode_total w : 0 ≤ w < 2 ^ 16 → ∃ d, date_decode w = Ok d.
Proof.
  intros Hw. unfold date_decode. rewrite (Z.shiftr_div_pow2 w 9) by lia. change (2 ^ 9) with 512.
  assert (0 ≤ w `div` 512 < 128) by (split; [apply Z.div_pos|apply Z.div_lt_upper_bound]; lia).
  rewrite chk_in by lia. cbn [mbind exec_bind]. by eexists.
Qed.

Lemma time_decode_total w hi : 0 ≤ hi < 2 ^ 8 → ∃ t, time_decode w hi = Ok t.
Proof.
  intros Hh. unfold time_decode. change 0x1F with (2 ^ 5 - 1). rewrite land_pow2_mod by lia.
  assert (0 ≤ w `mod` (2 ^ 5) < 32) by (apply (Z.mod_pos_bound w 32); lia).
  assert (0 ≤ hi `mod` 100 < 100) by (apply Z.mod_pos_bound; lia).
  assert (0 ≤ hi `div` 100 < 3) by (split; [apply Z.div_pos|apply Z.div_lt_upper_bound]; lia).
  rewrite chk_in by lia. cbn [mbind exec_bind]. rewrite chk_in by lia. cbn [mbind exec_bind].
  rewrite chk_in by lia. cbn [mbind exec_bind]. by eexists.
Qed.

(** Every date and every time of the documented ranges survives the packing into
    the fields of a directory entry, times to the resolution of ten
    milliseconds, and the packed words fit their fields. *)
Theorem dos_time_roundtrip (d : Date) (t : Time) :
  valid_date d → valid_time t →
  ∃ w lo hi,
    date_encode d = Ok w ∧ time_encode t = Ok (lo, hi) ∧
    0 ≤ w < 2 ^ 16 ∧ 0 ≤ lo < 2 ^ 16 ∧ 0 ≤ hi < 200 ∧
    date_time_decode w lo hi =
      Ok {| date := d; time := {| hour := hour t; minute := minute t; sec := sec t;
                                  millis := millis t - millis t `mod` 10 |} |}.
Proof.
  intros (Hy & Hm & Hd) (Hh & Hmi & Hs & Hms).
  pose proof (Z.mod_pos_bound (sec t) 2). pose proof (Z.div_mod (sec t) 2).
  pose proof (Z.mod_pos_bound (millis t) 10). pose proof (Z.div_mod (millis t) 10).
  exists ((year d - 1980) * 2 ^ 9 + (month d * 2 ^ 5 + day d)),
    (hour t * 2 ^ 11 + (minute t * 2 ^ 5 + sec t `div` 2)), (millis t `div` 10 + sec t `mod` 2 * 100).
  rewrite date_encode_value, time_encode_value by lia. split_and!; [done|done|lia..|].
  unfold date_time_decode. rewrite date_decode_value, time_decode_value by lia.
  assert ((millis t `div` 10 + sec t `mod` 2 * 100) `div` 100 = sec t `mod` 2) as ->
    by (symmetry; apply Z.div_unique with (millis t `div` 10); lia).
  assert ((millis t `div` 10 + sec t `mod` 2 * 100) `mod` 100 = millis t `div` 10) as ->
    by (symmetry; apply Z.mod_unique with (sec t `mod` 2); lia).
  cbn. destruct d, t; cbn in *. repeat f_equal; lia.
Qed.

Lemma dos_time_roundtrip_witness :
  ∃ w lo hi, date_encode {| year := 2021; month := 8; day := 31 |} = Ok w ∧
    time_encode {| hour := 23; minute := 59; sec := 59; millis := 995 |} = Ok (lo, hi) ∧
    0 ≤ w < 2 ^ 16 ∧ 0 ≤ lo < 2 ^ 16 ∧ 0 ≤ hi < 200 ∧
    date_time_decode w lo hi =
      Ok {| date := {| year := 2021; month := 8; day := 31 |};
            time := {| hour := 23; minute := 59; sec := 59; millis := 990 |} |}.
Proof.
  apply (dos_time_roundtrip {| year := 2021; month := 8; day := 31 |}
           {| hour := 23; minute := 59; sec := 59; millis := 995 |}); repeat split; discriminate.
Defined.

(** The default provider's date: the documentation of [TimeProvider] promises the
    DOS minimum 1980/1/1, the code yields month 0 and day 0, which no valid date
    has. *)
Theorem default_date_invalid :
  ∃ d, get_current_date = Ok d ∧ d = {| year := 1980; month := 0; day := 0 |} ∧ ¬ valid_date d.
Proof. eexists. split; [reflexivity|]. split; [done|]. intros (_ & [Hm _] & _). exact (Hm eq_refl). Qed.
