(* ===== verification/BootSector.v ===== *)
(** * The boot sector (fatfs/src/boot_sector.rs)

    [FatType] and [FsStatusFlags] of fatfs/src/fs.rs, the BIOS parameter block,
    its reader, writer and validation, the geometry computed when a volume is
    formatted, and the boot sector around it.  Arithmetic is [u32] unless a cast
    says otherwise, and panics on overflow as in the debug build. *)

From S2P Require Import Prelude Io FatIo.

(** [a / b] *)
Definition udiv (a b : Z) : exec Z := if b =? 0 then Panic Explicit else Ok (a `div` b).

(** Early returns with an error of kind [Other]. *)
Definition reject {A} (b : bool) (k : exec (ioresult A)) : exec (ioresult A) :=
  if b then Ok (IoErr OtherError) else k.

Notation "'reject_if' c ; k" := (reject c k)
  (at level 10, c at level 100, k at level 200, only parsing) : kernel_scope.

(** ** FAT types and status flags *)

Inductive FatType := Fat12 | Fat16 | Fat32.

#[export] Instance FatType_eq_dec : EqDecision FatType.
Proof. solve_decision. Defined.

Definition is_Fat32 (t : FatType) : bool := match t with Fat32 => true | _ => false end.

Definition FAT16_MIN_CLUSTERS : Z := 4085.
Definition FAT32_MIN_CLUSTERS : Z := 65525.
Definition FAT32_MAX_CLUSTERS : Z := 0x0FFFFFF4.

(** [FatType::from_clusters] *)
Definition from_clusters (_total_clusters : Z) : FatType := Fat32.
Definition bits_per_fat_entry (t : FatType) : Z :=
  match t with Fat12 => 12 | Fat16 => 16 | Fat32 => 32 end.
Definition min_clusters (t : FatType) : Z :=
  match t with Fat12 => 0 | Fat16 => FAT16_MIN_CLUSTERS | Fat32 => FAT32_MIN_CLUSTERS end.
Definition max_clusters (t : FatType) : Z :=
  match t with
  | Fat12 => FAT16_MIN_CLUSTERS - 1
  | Fat16 => FAT32_MIN_CLUSTERS - 1
  | Fat32 => FAT32_MAX_CLUSTERS
  end.

Record FsStatusFlags := { dirty : bool; io_error : bool }.

#[export] Instance FsStatusFlags_eq_dec : EqDecision FsStatusFlags.
Proof. solve_decision. Defined.

(** [FsStatusFlags::encode] and [FsStatusFlags::decode] *)
Definition flags_encode (f : FsStatusFlags) : Z :=
  let res := if dirty f then Z.lor 0 1 else 0 in
  if io_error f then Z.lor res 2 else res.
Definition flags_decode (flags : Z) : FsStatusFlags :=
  {| dirty := negb (Z.land flags 1 =? 0); io_error := negb (Z.land flags 2 =? 0) |}.

(** ** The BIOS parameter block *)

Record BiosParameterBlock := {
  bytes_per_sector : Z;
  sectors_per_cluster : Z;
  reserved_sectors_16 : Z;
  fats : Z;
  root_entries : Z;
  total_sectors_16 : Z;
  media : Z;
  sectors_per_fat_16 : Z;
  sectors_per_track : Z;
  heads : Z;
  hidden_sectors : Z;
  total_sectors_32 : Z;
  sectors_per_fat_32 : Z;
  extended_flags : Z;
  fs_version : Z;
  root_dir_first_cluster : Z;
  fs_info_sector : Z;
  backup_boot_sector : Z;
  reserved_0 : list Z;
  drive_num : Z;
  reserved_1 : Z;
  ext_sig : Z;
  volume_id : Z;
  volume_label : list Z;
  fs_type_label : list Z;
}.

Definition is_fat32 (b : BiosParameterBlock) : bool := sectors_per_fat_16 b =? 0.

Definition DIR_ENTRY_SIZE : Z := 32.
Definition RESERVED_FAT_ENTRIES : Z := 2.

Section bpb.
Variable self : BiosParameterBlock.

Definition mirroring_enabled : bool := Z.land (extended_flags self) 0x80 =? 0.
Definition active_fat : Z := if mirroring_enabled then 0 else Z.land (extended_flags self) 0x0F.
Definition status_flags : FsStatusFlags := flags_decode (reserved_1 self).
Definition sectors_per_fat : Z :=
  if is_fat32 self then sectors_per_fat_32 self else sectors_per_fat_16 self.
Definition total_sectors : Z :=
  if total_sectors_16 self =? 0 then total_sectors_32 self else total_sectors_16 self.
Definition root_dir_sectors : exec Z :=
  root_dir_bytes ← u32 (root_entries self * DIR_ENTRY_SIZE);
  a ← u32 (root_dir_bytes + bytes_per_sector self);
  b ← u32 (a - 1);
  udiv b (bytes_per_sector self).
Definition sectors_per_all_fats : exec Z := u32 (fats self * sectors_per_fat).
Definition first_data_sector : exec Z :=
  rds ← root_dir_sectors;
  fat_sectors ← sectors_per_all_fats;
  a ← u32 (reserved_sectors_16 self + fat_sectors);
  u32 (a + rds).
Definition total_clusters : exec Z :=
  fds ← first_data_sector;
  data_sectors ← u32 (total_sectors - fds);
  udiv data_sectors (sectors_per_cluster self).
Definition bytes_from_sectors (sectors : Z) : exec Z := u64 (sectors * bytes_per_sector self).
Definition sectors_from_clusters (clusters : Z) : exec Z := u32 (clusters * sectors_per_cluster self).
Definition cluster_size : exec Z := u32 (sectors_per_cluster self * bytes_per_sector self).
Definition clusters_from_bytes (bytes : Z) : exec Z :=
  cs ← cluster_size;
  a ← ichk 64 (icast 64 bytes + cs);
  b ← ichk 64 (a - 1);
  if cs =? 0 then Panic Explicit else Ok (cast 32 (b `quot` cs)).

(** [BiosParameterBlock::validate]; the warnings it logs have no effect. *)
Definition bpb_validate : exec (ioresult unit) :=
  let is32 := is_fat32 self in
  reject_if (negb (count_ones (bytes_per_sector self) =? 1));
  reject_if (bytes_per_sector self <? 512);
  reject_if (4096 <? bytes_per_sector self);
  reject_if (negb (count_ones (sectors_per_cluster self) =? 1));
  reject_if (sectors_per_cluster self <? 1);
  reject_if (128 <? sectors_per_cluster self);
  _ ← u32 (bytes_per_sector self * sectors_per_cluster self);
  reject_if (reserved_sectors_16 self <? 1);
  reject_if (fats self =? 0);
  reject_if (is32 && negb (root_entries self =? 0));
  reject_if (negb is32 && (root_entries self =? 0));
  _ ← u32 (root_entries self * DIR_ENTRY_SIZE);
  reject_if (Bool.eqb (total_sectors_16 self =? 0) (total_sectors_32 self =? 0));
  reject_if (is32 && (sectors_per_fat_32 self =? 0));
  reject_if (negb (fs_version self =? 0));
  fds ← first_data_sector;
  reject_if (total_sectors <=? fds);
  reject_if (is32 && (reserved_sectors_16 self <=? backup_boot_sector self));
  reject_if (is32 && (reserved_sectors_16 self <=? fs_info_sector self));
  tc ← total_clusters;
  let fat_type := from_clusters tc in
  reject_if (negb (Bool.eqb is32 (is_Fat32 fat_type)));
  reject_if (is_Fat32 fat_type && (0x0FFFFFFF <? tc));
  e1 ← u32 (sectors_per_fat * bytes_per_sector self);
  e2 ← u32 (e1 * 8);
  total_fat_entries ← udiv e2 (bits_per_fat_entry fat_type);
  _ ← u32 (total_fat_entries - RESERVED_FAT_ENTRIES);
  Ok (IoOk tt).
End bpb.

Section bpb_io.
Context {D : Type} `{!Stream D}.

(** [BiosParameterBlock::deserialize] *)
Definition bpb_deserialize : M D (ioresult BiosParameterBlock) :=
  bps ←? read_u16;
  spc ←? read_u8;
  rs ←? read_u16;
  fs ←? read_u8;
  re ←? read_u16;
  ts16 ←? read_u16;
  md ←? read_u8;
  spf16 ←? read_u16;
  spt ←? read_u16;
  hd ←? read_u16;
  hs ←? read_u32;
  ts32 ←? read_u32;
  e ←? (if spf16 =? 0 then
          spf32 ←? read_u32;
          ef ←? read_u16;
          fv ←? read_u16;
          rdfc ←? read_u32;
          fis ←? read_u16;
          bbs ←? read_u16;
          r0 ←? read_exact 12;
          ok (spf32, ef, fv, rdfc, fis, bbs, r0)
        else ok (0, 0, 0, 0, 0, 0, replicate 12 0));
  dn ←? read_u8;
  r1 ←? read_u8;
  sig ←? read_u8;
  vid ←? read_u32;
  vl ←? read_exact 11;
  ftl ←? read_exact 8;
  let '(spf32, ef, fv, rdfc, fis, bbs, r0) := e in
  let sig_ok := sig =? 0x29 in
  ok {| bytes_per_sector := bps; sectors_per_cluster := spc; reserved_sectors_16 := rs;
        fats := fs; root_entries := re; total_sectors_16 := ts16; media := md;
        sectors_per_fat_16 := spf16; sectors_per_track := spt; heads := hd;
        hidden_sectors := hs; total_sectors_32 := ts32; sectors_per_fat_32 := spf32;
        extended_flags := ef; fs_version := fv; root_dir_first_cluster := rdfc;
        fs_info_sector := fis; backup_boot_sector := bbs; reserved_0 := r0;
        drive_num := dn; reserved_1 := r1; ext_sig := sig;
        volume_id := if sig_ok then vid else 0;
        volume_label := if sig_ok then vl else replicate 11 0;
        fs_type_label := if sig_ok then ftl else replicate 8 0 |}.

(** [BiosParameterBlock::serialize] *)
Definition bpb_serialize (self : BiosParameterBlock) : M D (ioresult unit) :=
  write_u16 (bytes_per_sector self) ?;
  write_u8 (sectors_per_cluster self) ?;
  write_u16 (reserved_sectors_16 self) ?;
  write_u8 (fats self) ?;
  write_u16 (root_entries self) ?;
  write_u16 (total_sectors_16 self) ?;
  write_u8 (media self) ?;
  write_u16 (sectors_per_fat_16 self) ?;
  write_u16 (sectors_per_track self) ?;
  write_u16 (heads self) ?;
  write_u32 (hidden_sectors self) ?;
  write_u32 (total_sectors_32 self) ?;
  (if is_fat32 self then
     write_u32 (sectors_per_fat_32 self) ?;
     write_u16 (extended_flags self) ?;
     write_u16 (fs_version self) ?;
     write_u32 (root_dir_first_cluster self) ?;
     write_u16 (fs_info_sector self) ?;
     write_u16 (backup_boot_sector self) ?;
     write_all (reserved_0 self)
   else ok tt) ?;
  write_u8 (drive_num self) ?;
  write_u8 (reserved_1 self) ?;
  write_u8 (ext_sig self) ?;
  write_u32 (volume_id self) ?;
  write_all (volume_label self) ?;
  write_all (fs_type_label self).
End bpb_io.

(** ** The boot sector *)

Record BootSector := {
  bootjmp : list Z;
  oem_name : list Z;
  bpb : BiosParameterBlock;
  boot_code : list Z;
  boot_sig : list Z;
}.

Section boot_io.
Context {D : Type} `{!Stream D}.

(** [BootSector::deserialize]: the part of [boot_code] that is not read keeps the
    zeros of [Default::default()]. *)
Definition boot_deserialize : M D (ioresult BootSector) :=
  jmp ←? read_exact 3;
  oem ←? read_exact 8;
  b ←? bpb_deserialize;
  code ←? (if is_fat32 b then
             c ←? read_exact 420;
             ok (c ++ replicate 28 0)
           else read_exact 448);
  sig ←? read_exact 2;
  ok {| bootjmp := jmp; oem_name := oem; bpb := b; boot_code := code; boot_sig := sig |}.

(** [BootSector::serialize] *)
Definition boot_serialize (self : BootSector) : M D (ioresult unit) :=
  write_all (bootjmp self) ?;
  write_all (oem_name self) ?;
  bpb_serialize (bpb self) ?;
  (if is_fat32 (bpb self) then write_all (take 420 (boot_code self))
   else write_all (take 448 (boot_code self))) ?;
  write_all (boot_sig self).
End boot_io.

(** [BootSector::validate] *)
Definition boot_validate (self : BootSector) : exec (ioresult unit) :=
  reject_if (negb (bool_decide (boot_sig self = [0x55; 0xAA])));
  bpb_validate (bpb self).

(** ** Formatting *)

Definition KB : Z := 1024.
Definition MB : Z := KB * 1024.
Definition GB : Z := MB * 1024.

(** [FormatVolumeOptions] (fatfs/src/fs.rs) *)
Record FormatVolumeOptions := {
  o_bytes_per_sector : option Z;
  o_total_sectors : option Z;
  o_bytes_per_cluster : option Z;
  o_fat_type : option FatType;
  o_max_root_dir_entries : option Z;
  o_fats : option Z;
  o_media : option Z;
  o_sectors_per_track : option Z;
  o_heads : option Z;
  o_drive_num : option Z;
  o_volume_id : option Z;
  o_volume_label : option (list Z);
}.

(** [u64::next_power_of_two] and [u32::is_power_of_two] *)
Definition next_power_of_two (z : Z) : exec Z := u64 (if z <=? 1 then 1 else 2 ^ Z.log2_up z).
Definition is_power_of_two (z : Z) : bool := count_ones z =? 1.

Definition estimate_fat_type (total_bytes : Z) : FatType :=
  if total_bytes <? 4 * MB then Fat12
  else if total_bytes <? 512 * MB then Fat16
  else Fat32.

Definition determine_bytes_per_cluster (total_bytes bps : Z) (fat_type : option FatType) : exec Z :=
  let fat_type := default (estimate_fat_type total_bytes) fat_type in
  bytes_per_cluster ←
    match fat_type with
    | Fat12 =>
        p ← next_power_of_two total_bytes;
        r ← u64 (p `div` MB * 512);
        mret (cast 32 r)
    | Fat16 =>
        if total_bytes <=? 16 * MB then Ok (1 * KB)
        else if total_bytes <=? 128 * MB then Ok (2 * KB)
        else
          p ← next_power_of_two total_bytes;
          r ← u64 (p `div` (64 * MB) * KB);
          mret (cast 32 r)
    | Fat32 =>
        if total_bytes <=? 260 * MB then Ok 512
        else if total_bytes <=? 8 * GB then Ok (4 * KB)
        else
          p ← next_power_of_two total_bytes;
          r ← u64 (p `div` (2 * GB) * KB);
          mret (cast 32 r)
    end;
  _ ← ensure (is_power_of_two bytes_per_cluster);
  mret (Z.min (Z.max bytes_per_cluster bps) (32 * KB)).

Definition determine_sectors_per_fat (ts bps spc : Z) (fat_type : FatType)
    (rs root_sectors nfats : Z) : exec Z :=
  a ← u32 (ts - rs);
  t0 ← u32 (a - root_sectors);
  d ← u32 (2 * spc);
  t1 ← u64 (t0 + d);
  b1 ← u32 (spc * bps);
  bits_per_cluster ← u32 (b1 * 8);
  q ← udiv bits_per_cluster (bits_per_fat_entry fat_type);
  t2 ← u32 (q + nfats);
  n1 ← u64 (t1 + t2);
  n2 ← u64 (n1 - 1);
  spf ← udiv n2 t2;
  mret (cast 32 spf).

Definition try_fs_geometry (ts bps spc : Z) (fat_type : FatType) (root_sectors nfats : Z) :
    exec (ioresult (Z * Z)) :=
  let rs := if is_Fat32 fat_type then 8 else 1 in
  m1 ← u32 (rs + root_sectors);
  m2 ← u32 (m1 + 8);
  reject_if (ts <=? m2);
  spf ← determine_sectors_per_fat ts bps spc fat_type rs root_sectors nfats;
  d1 ← u32 (ts - rs);
  d2 ← u32 (d1 - root_sectors);
  d3 ← u32 (spf * nfats);
  data_sectors ← u32 (d2 - d3);
  tc ← udiv data_sectors spc;
  reject_if (negb (bool_decide (fat_type = from_clusters tc)));
  _ ← ensure (min_clusters fat_type <=? tc);
  reject_if (max_clusters fat_type <? tc);
  Ok (IoOk (rs, spf)).

Definition determine_root_dir_sectors (root_dir_entries bps : Z) (fat_type : FatType) : exec Z :=
  if is_Fat32 fat_type then Ok 0
  else
    root_dir_bytes ← u32 (root_dir_entries * DIR_ENTRY_SIZE);
    a ← u32 (root_dir_bytes + bps);
    b ← u32 (a - 1);
    udiv b bps.

Fixpoint geometry_loop (types : list FatType) (ts bps spc root_dir_entries nfats : Z) :
    exec (ioresult (FatType * Z * Z)) :=
  match types with
  | [] => Ok (IoErr OtherError)
  | fat_type :: types =>
      root_sectors ← determine_root_dir_sectors root_dir_entries bps fat_type;
      result ← try_fs_geometry ts bps spc fat_type root_sectors nfats;
      match result with
      | IoOk (rs, spf) => Ok (IoOk (fat_type, rs, spf))
      | IoErr _ => geometry_loop types ts bps spc root_dir_entries nfats
      end
  end.
Definition determine_fs_geometry (ts bps spc root_dir_entries nfats : Z) :
    exec (ioresult (FatType * Z * Z)) :=
  geometry_loop [Fat32; Fat16; Fat12] ts bps spc root_dir_entries nfats.

(** The byte strings of the source. *)
Definition NO_NAME : list Z := [0x4E; 0x4F; 0x20; 0x4E; 0x41; 0x4D; 0x45; 0x20; 0x20; 0x20; 0x20].
Definition fs_type_str (t : FatType) : list Z :=
  [0x46; 0x41; 0x54] ++
  match t with Fat12 => [0x31; 0x32] | Fat16 => [0x31; 0x36] | Fat32 => [0x33; 0x32] end ++
  [0x20; 0x20; 0x20].

Definition format_bpb (options : FormatVolumeOptions) (ts bps : Z) :
    exec (ioresult (BiosParameterBlock * FatType)) :=
  bytes_per_cluster ←
    match o_bytes_per_cluster options with
    | Some b => Ok b
    | None =>
        total_bytes ← u64 (ts * bps);
        determine_bytes_per_cluster total_bytes bps (o_fat_type options)
    end;
  spc ← udiv bytes_per_cluster bps;
  _ ← ensure (spc <=? 255);
  let nfats := default 2 (o_fats options) in
  let root_dir_entries := default 512 (o_max_root_dir_entries options) in
  geometry ← determine_fs_geometry ts bps spc root_dir_entries nfats;
  match geometry with
  | IoErr e => Ok (IoErr e)
  | IoOk (fat_type, rs, spf) =>
      let is32 := is_Fat32 fat_type in
      spf16 ← if is32 then Ok 0 else (_ ← ensure (spf <=? 0xFFFF); mret (cast 16 spf));
      let b := {|
        bytes_per_sector := bps; sectors_per_cluster := spc; reserved_sectors_16 := rs;
        fats := nfats; root_entries := if is32 then 0 else root_dir_entries;
        total_sectors_16 := if ts <? 0x10000 then cast 16 ts else 0;
        media := default 0xF8 (o_media options);
        sectors_per_fat_16 := spf16;
        sectors_per_track := default 0x20 (o_sectors_per_track options);
        heads := default 0x40 (o_heads options);
        hidden_sectors := 0;
        total_sectors_32 := if 0x10000 <=? ts then ts else 0;
        sectors_per_fat_32 := if is32 then spf else 0;
        extended_flags := 0; fs_version := 0;
        root_dir_first_cluster := if is32 then 2 else 0;
        fs_info_sector := if is32 then 1 else 0;
        backup_boot_sector := if is32 then 6 else 0;
        reserved_0 := replicate 12 0;
        drive_num := default (match fat_type with Fat12 => 0 | _ => 0x80 end) (o_drive_num options);
        reserved_1 := 0; ext_sig := 0x29;
        volume_id := default 0x12345678 (o_volume_id options);
        volume_label := default NO_NAME (o_volume_label options);
        fs_type_label := fs_type_str fat_type |} in
      tc ← total_clusters b;
      reject_if (negb (bool_decide (from_clusters tc = fat_type)));
      Ok (IoOk (b, fat_type))
  end.

(** The boot code of [format_boot_sector] and the OEM name "MSWIN4.1". *)
Definition mkfs_boot_code : list Z := [
  0x0E; 0x1F; 0xBE; 0x77; 0x7C; 0xAC; 0x22; 0xC0; 0x74; 0x0B; 0x56; 0xB4; 0x0E; 0xBB; 0x07; 0x00; 0xCD; 0x10;
  0x5E; 0xEB; 0xF0; 0x32; 0xE4; 0xCD; 0x16; 0xCD; 0x19; 0xEB; 0xFE; 0x54; 0x68; 0x69; 0x73; 0x20; 0x69; 0x73;
  0x20; 0x6E; 0x6F; 0x74; 0x20; 0x61; 0x20; 0x62; 0x6F; 0x6F; 0x74; 0x61; 0x62; 0x6C; 0x65; 0x20; 0x64; 0x69;
  0x73; 0x6B; 0x2E; 0x20; 0x20; 0x50; 0x6C; 0x65; 0x61; 0x73; 0x65; 0x20; 0x69; 0x6E; 0x73; 0x65; 0x72; 0x74;
  0x20; 0x61; 0x20; 0x62; 0x6F; 0x6F; 0x74; 0x61; 0x62; 0x6C; 0x65; 0x20; 0x66; 0x6C; 0x6F; 0x70; 0x70; 0x79;
  0x20; 0x61; 0x6E; 0x64; 0x0D; 0x0A; 0x70; 0x72; 0x65; 0x73; 0x73; 0x20; 0x61; 0x6E; 0x79; 0x20; 0x6B; 0x65;
  0x79; 0x20; 0x74; 0x6F; 0x20; 0x74; 0x72; 0x79; 0x20; 0x61; 0x67; 0x61; 0x69; 0x6E; 0x20; 0x2E; 0x2E; 0x2E;
  0x20; 0x0D; 0x0A].
Definition MSWIN : list Z := [0x4D; 0x53; 0x57; 0x49; 0x4E; 0x34; 0x2E; 0x31].

Definition format_boot_sector (options : FormatVolumeOptions) (ts bps : Z) :
    exec (ioresult (BootSector * FatType)) :=
  r ← format_bpb options ts bps;
  match r with
  | IoErr e => Ok (IoErr e)
  | IoOk (b, fat_type) =>
      let code := mkfs_boot_code ++ replicate (448 - 129) 0 in
      let jmp := [0xEB; 0x58; 0x90] in
      let boot_code_offset := 0x36 + 8 in
      let message_offset_in_sector := boot_code_offset + 29 + 0x7c00 in
      let patch := negb (is_Fat32 fat_type) in
      Ok (IoOk ({|
        bootjmp := if patch then <[1%nat := boot_code_offset - 2]> jmp else jmp;
        oem_name := MSWIN;
        bpb := b;
        boot_code :=
          if patch then <[4%nat := Z.shiftr message_offset_in_sector 8]>
                        (<[3%nat := Z.land message_offset_in_sector 0xff]> code)
          else code;
        boot_sig := [0x55; 0xAA] |}, fat_type))
  end.

(** ** Round trip *)

(** The bytes of a parameter block, field by field. *)
Definition bpb_bytes (b : BiosParameterBlock) : list Z :=
  le_bytes 2 (bytes_per_sector b) ++ le_bytes 1 (sectors_per_cluster b) ++
  le_bytes 2 (reserved_sectors_16 b) ++ le_bytes 1 (fats b) ++ le_bytes 2 (root_entries b) ++
  le_bytes 2 (total_sectors_16 b) ++ le_bytes 1 (media b) ++ le_bytes 2 (sectors_per_fat_16 b) ++
  le_bytes 2 (sectors_per_track b) ++ le_bytes 2 (heads b) ++ le_bytes 4 (hidden_sectors b) ++
  le_bytes 4 (total_sectors_32 b) ++
  (if is_fat32 b then
     le_bytes 4 (sectors_per_fat_32 b) ++ le_bytes 2 (extended_flags b) ++ le_bytes 2 (fs_version b) ++
     le_bytes 4 (root_dir_first_cluster b) ++ le_bytes 2 (fs_info_sector b) ++
     le_bytes 2 (backup_boot_sector b) ++ reserved_0 b
   else []) ++
  le_bytes 1 (drive_num b) ++ le_bytes 1 (reserved_1 b) ++ le_bytes 1 (ext_sig b) ++
  le_bytes 4 (volume_id b) ++ volume_label b ++ fs_type_label b.

(** Field widths, and the fields a reader resets. *)
Record bpb_wf (b : BiosParameterBlock) : Prop := {
  wf_bps : 0 ≤ bytes_per_sector b < 2 ^ 16;
  wf_spc : 0 ≤ sectors_per_cluster b < 2 ^ 8;
  wf_rs : 0 ≤ reserved_sectors_16 b < 2 ^ 16;
  wf_fats : 0 ≤ fats b < 2 ^ 8;
  wf_re : 0 ≤ root_entries b < 2 ^ 16;
  wf_ts16 : 0 ≤ total_sectors_16 b < 2 ^ 16;
  wf_media : 0 ≤ media b < 2 ^ 8;
  wf_spf16 : 0 ≤ sectors_per_fat_16 b < 2 ^ 16;
  wf_spt : 0 ≤ sectors_per_track b < 2 ^ 16;
  wf_heads : 0 ≤ heads b < 2 ^ 16;
  wf_hs : 0 ≤ hidden_sectors b < 2 ^ 32;
  wf_ts32 : 0 ≤ total_sectors_32 b < 2 ^ 32;
  wf_spf32 : 0 ≤ sectors_per_fat_32 b < 2 ^ 32;
  wf_ef : 0 ≤ extended_flags b < 2 ^ 16;
  wf_fv : 0 ≤ fs_version b < 2 ^ 16;
  wf_rdfc : 0 ≤ root_dir_first_cluster b < 2 ^ 32;
  wf_fis : 0 ≤ fs_info_sector b < 2 ^ 16;
  wf_bbs : 0 ≤ backup_boot_sector b < 2 ^ 16;
  wf_r0 : length (reserved_0 b) = 12%nat;
  wf_dn : 0 ≤ drive_num b < 2 ^ 8;
  wf_r1 : 0 ≤ reserved_1 b < 2 ^ 8;
  wf_sig : ext_sig b = 0x29;
  wf_vid : 0 ≤ volume_id b < 2 ^ 32;
  wf_vl : length (volume_label b) = 11%nat;
  wf_ftl : length (fs_type_label b) = 8%nat;
  wf_16 : is_fat32 b = false →
    sectors_per_fat_32 b = 0 ∧ extended_flags b = 0 ∧ fs_version b = 0 ∧
    root_dir_first_cluster b = 0 ∧ fs_info_sector b = 0 ∧ backup_boot_sector b = 0 ∧
    reserved_0 b = replicate 12 0;
}.

Definition boot_bytes (b : BootSector) : list Z :=
  bootjmp b ++ oem_name b ++ bpb_bytes (bpb b) ++
  take (if is_fat32 (bpb b) then 420 else 448) (boot_code b) ++ boot_sig b.

Record boot_wf (b : BootSector) : Prop := {
  bwf_bpb : bpb_wf (bpb b);
  bwf_jmp : length (bootjmp b) = 3%nat;
  bwf_oem : length (oem_name b) = 8%nat;
  bwf_code : length (boot_code b) = 448%nat;
  bwf_sig : length (boot_sig b) = 2%nat;
  bwf_tail : is_fat32 (bpb b) = true → drop 420 (boot_code b) = replicate 28 0;
}.

Lemma length_bpb_bytes b : bpb_wf b →
  length (bpb_bytes b) = (if is_fat32 b then 79 else 51)%nat.
Proof.
  intros H. unfold bpb_bytes. rewrite !length_app, !length_le_bytes, (wf_vl b H), (wf_ftl b H).
  destruct (is_fat32 b); rewrite ?length_app, ?length_le_bytes, ?(wf_r0 b H); cbn; lia.
Qed.

Lemma length_boot_bytes b : boot_wf b → length (boot_bytes b) = 512%nat.
Proof.
  intros H. unfold boot_bytes.
  rewrite !length_app, length_bpb_bytes, length_take, (bwf_jmp b H), (bwf_oem b H),
    (bwf_code b H), (bwf_sig b H) by apply H.
  destruct (is_fat32 (bpb b)); lia.
Qed.

Section roundtrip.
Context {D : Type} `{!Stream D, !ByteStream D}.

Definition bpb_chunks (b : BiosParameterBlock) : list (list Z) :=
  [le_bytes 2 (bytes_per_sector b); le_bytes 1 (sectors_per_cluster b);
   le_bytes 2 (reserved_sectors_16 b); le_bytes 1 (fats b); le_bytes 2 (root_entries b);
   le_bytes 2 (total_sectors_16 b); le_bytes 1 (media b); le_bytes 2 (sectors_per_fat_16 b);
   le_bytes 2 (sectors_per_track b); le_bytes 2 (heads b); le_bytes 4 (hidden_sectors b);
   le_bytes 4 (total_sectors_32 b)] ++
  (if is_fat32 b then
     [le_bytes 4 (sectors_per_fat_32 b); le_bytes 2 (extended_flags b); le_bytes 2 (fs_version b);
      le_bytes 4 (root_dir_first_cluster b); le_bytes 2 (fs_info_sector b);
      le_bytes 2 (backup_boot_sector b); reserved_0 b]
   else []) ++
  [le_bytes 1 (drive_num b); le_bytes 1 (reserved_1 b); le_bytes 1 (ext_sig b);
   le_bytes 4 (volume_id b); volume_label b; fs_type_label b].

Lemma bpb_serialize_chunks b d : bpb_serialize b d = write_seq (bpb_chunks b) d.
Proof.
  unfold bpb_serialize, bpb_chunks. cbn [app write_seq].
  do 12 (apply try_ext; intros _ ?). destruct (is_fat32 b).
  - cbn [app write_seq]. as_chunks.
  - cbn [app write_seq]. rewrite try_id. as_chunks.
Qed.

Lemma bpb_chunks_bytes b : concat (bpb_chunks b) = bpb_bytes b.
Proof.
  unfold bpb_chunks, bpb_bytes. rewrite !concat_app. cbn [concat]. rewrite !app_nil_r, <- !app_assoc.
  destruct (is_fat32 b); [|done]. cbn [concat]. by rewrite !app_nil_r.
Qed.

Lemma boot_serialize_spec b d bs pos :
  boot_wf b → pos + 512 ≤ Z.of_nat (length bs) → stream_rep d bs pos →
  ∃ d', boot_serialize b d = Ok (IoOk tt, d') ∧
    stream_rep d' (splice pos (boot_bytes b) bs) (pos + 512).
Proof.
  intros Hb Hl Hd.
  set (cs := [bootjmp b; oem_name b] ++ bpb_chunks (bpb b) ++
             [take (if is_fat32 (bpb b) then 420 else 448) (boot_code b); boot_sig b]).
  assert (concat cs = boot_bytes b) as Hcs.
  { unfold cs, boot_bytes. rewrite !concat_app, bpb_chunks_bytes. cbn [concat].
    by rewrite !app_nil_r, <- app_assoc. }
  assert (boot_serialize b d = write_seq cs d) as ->.
  { unfold boot_serialize, cs. cbn [app write_seq]. do 2 (apply try_ext; intros _ ?).
    rewrite write_seq_app. etrans; [|apply try_ext; intros; reflexivity].
    unfold try at 1 3, mbind, M_bind. rewrite bpb_serialize_chunks.
    destruct (write_seq (bpb_chunks (bpb b)) s'0) as [[[|] ?]|]; [|done..].
    destruct (is_fat32 (bpb b)); cbn [write_seq]; as_chunks. }
  destruct (write_seq_spec cs d bs pos Hd) as (d' & H & Hd'); rewrite Hcs in *;
    rewrite ?length_boot_bytes in * by done; eauto.
Qed.

Lemma bpb_deserialize_spec b d bs pos rest :
  bpb_wf b → reads d bs pos (bpb_bytes b ++ rest) →
  ∃ d', bpb_deserialize d = Ok (IoOk b, d') ∧
    reads d' bs (pos + Z.of_nat (length (bpb_bytes b))) rest.
Proof.
  intros Hb Hr. rewrite length_bpb_bytes by done. unfold bpb_bytes in Hr. rewrite <- !app_assoc in Hr.
  pose proof (wf_16 b Hb) as H16.
  destruct Hb. unfold bpb_deserialize, is_fat32 in *.
  read_next (reads_u16 (bytes_per_sector b)) Hr. read_next (reads_u8 (sectors_per_cluster b)) Hr.
  read_next (reads_u16 (reserved_sectors_16 b)) Hr. read_next (reads_u8 (fats b)) Hr.
  read_next (reads_u16 (root_entries b)) Hr. read_next (reads_u16 (total_sectors_16 b)) Hr.
  read_next (reads_u8 (media b)) Hr. read_next (reads_u16 (sectors_per_fat_16 b)) Hr.
  read_next (reads_u16 (sectors_per_track b)) Hr. read_next (reads_u16 (heads b)) Hr.
  read_next (reads_u32 (hidden_sectors b)) Hr. read_next (reads_u32 (total_sectors_32 b)) Hr.
  destruct (sectors_per_fat_16 b =? 0) eqn:E32.
  - rewrite <- !app_assoc in Hr.
    read_next (reads_u32 (sectors_per_fat_32 b)) Hr. read_next (reads_u16 (extended_flags b)) Hr.
    read_next (reads_u16 (fs_version b)) Hr. read_next (reads_u32 (root_dir_first_cluster b)) Hr.
    read_next (reads_u16 (fs_info_sector b)) Hr. read_next (reads_u16 (backup_boot_sector b)) Hr.
    read_next (reads_array 12 (reserved_0 b)) Hr. rewrite try_id.
    read_next (reads_u8 (drive_num b)) Hr. read_next (reads_u8 (reserved_1 b)) Hr.
    read_next (reads_u8 (ext_sig b)) Hr. read_next (reads_u32 (volume_id b)) Hr.
    read_next (reads_array 11 (volume_label b)) Hr. read_next (reads_array 8 (fs_type_label b)) Hr.
    rewrite wf_sig0. eexists. split; [destruct b; cbn in *; by subst|].
    by rewrite <- !Z.add_assoc in Hr.
  - rewrite try_id. destruct (H16 eq_refl) as (? & ? & ? & ? & ? & ? & ?). cbn [app] in Hr.
    read_next (reads_u8 (drive_num b)) Hr. read_next (reads_u8 (reserved_1 b)) Hr.
    read_next (reads_u8 (ext_sig b)) Hr. read_next (reads_u32 (volume_id b)) Hr.
    read_next (reads_array 11 (volume_label b)) Hr. read_next (reads_array 8 (fs_type_label b)) Hr.
    rewrite wf_sig0. eexists. split; [destruct b; cbn in *; by subst|].
    by rewrite <- !Z.add_assoc in Hr.
Qed.

Lemma boot_deserialize_spec b d bs pos rest :
  boot_wf b → reads d bs pos (boot_bytes b ++ rest) →
  ∃ d', boot_deserialize d = Ok (IoOk b, d') ∧ stream_rep d' bs (pos + 512).
Proof.
  intros [Hb Hj Ho Hc Hs Ht] Hr. pose proof (length_bpb_bytes (bpb b) Hb) as Hlen.
  unfold boot_bytes in Hr. rewrite <- !app_assoc in Hr. unfold boot_deserialize.
  read_next (reads_array 3 (bootjmp b)) Hr. read_next (reads_array 8 (oem_name b)) Hr.
  apply bpb_deserialize_spec in Hr as (db & E1 & Hr); [|done]. rewrite (try_ok _ _ _ _ _ E1).
  assert (Z.of_nat (length (take 420 (boot_code b))) = 420) by (rewrite length_take; lia).
  assert (Z.of_nat (length (take 448 (boot_code b))) = 448) by (rewrite length_take; lia).
  destruct (is_fat32 (bpb b)).
  - read_next (reads_array 420 (take 420 (boot_code b))) Hr.
    rewrite try_id. read_next (reads_array 2 (boot_sig b)) Hr.
    eexists. split.
    + rewrite <- Ht, take_drop by done. destruct b; done.
    + destruct Hr as [Hr _]. rewrite Hlen in Hr. by rewrite <- !Z.add_assoc in Hr.
  - read_next (reads_array 448 (take 448 (boot_code b))) Hr.
    read_next (reads_array 2 (boot_sig b)) Hr.
    eexists. split.
    + rewrite take_ge by lia. destruct b; done.
    + destruct Hr as [Hr _]. rewrite Hlen in Hr. by rewrite <- !Z.add_assoc in Hr.
Qed.

(** A boot sector that [serialize] writes is read back by [deserialize], FAT12/16
    and FAT32 layouts alike; exactly the 512 bytes of the sector are replaced. *)
Theorem boot_sector_roundtrip (b : BootSector) (d : D) (bs : list Z) (pos : Z) :
  boot_wf b → stream_rep d bs pos → pos + 512 ≤ Z.of_nat (length bs) →
  ∃ d1 d2 d3 bs',
    boot_serialize b d = Ok (IoOk tt, d1) ∧ stream_rep d1 bs' (pos + 512) ∧
    (∀ i : nat, ¬ (pos ≤ Z.of_nat i < pos + 512) → bs' !! i = bs !! i) ∧
    s_seek (SeekStart pos) d1 = Ok (IoOk pos, d2) ∧
    boot_deserialize d2 = Ok (IoOk b, d3) ∧ stream_rep d3 bs' (pos + 512).
Proof.
  intros Hb Hd Hl. pose proof (stream_pos _ _ _ Hd) as Hp.
  pose proof (length_boot_bytes b Hb) as Hlen.
  destruct (boot_serialize_spec b d bs pos Hb Hl Hd) as (d1 & H1 & Hd1).
  assert (length (splice pos (boot_bytes b) bs) = length bs) as Hls by (apply length_splice; lia).
  destruct (stream_seek d1 _ _ pos Hd1) as (d2 & H2 & Hd2); [lia|].
  destruct (boot_deserialize_spec b d2 (splice pos (boot_bytes b) bs) pos
              (drop (512) (drop (Z.to_nat pos) (splice pos (boot_bytes b) bs))) Hb) as (d3 & H3 & Hd3).
  { split; [done|]. split; [lia|]. rewrite <- (take_drop 512 (drop (Z.to_nat pos) _)) at 1.
    f_equal. rewrite <- Hlen at 1. apply splice_read; lia. }
  exists d1, d2, d3, (splice pos (boot_bytes b) bs). split_and!; try done.
  intros i Hi. rewrite splice_lookup by lia. by rewrite decide_False by lia.
Qed.
End roundtrip.

(** ** Geometry *)

Lemma reject_Ok {A} b (k : exec (ioresult A)) a :
  reject b k = Ok (IoOk a) ↔ b = false ∧ k = Ok (IoOk a).
Proof. unfold reject. destruct b; naive_solver. Qed.

Lemma udiv_Ok a b r : udiv a b = Ok r ↔ b ≠ 0 ∧ r = a `div` b.
Proof. unfold udiv. destruct (Z.eqb_spec b 0); naive_solver. Qed.

(** Unfolds a checked computation that succeeded. *)
Ltac inv_checked :=
  repeat (match goal with
    | H : chk _ _ = Ok _ |- _ => apply chk_Ok in H as [-> H]
    | H : udiv _ _ = Ok _ |- _ => apply udiv_Ok in H as [? ->]
    | H : reject _ _ = Ok (IoOk _) |- _ =>
        let E := fresh "Hrej" in apply reject_Ok in H as [E H]
    end || inv_exec).

Lemma ceil_div_mul a b : 0 < b → a ≤ (a + b - 1) `div` b * b.
Proof.
  intros. pose proof (Z.mod_pos_bound (a + b - 1) b). pose proof (Z.div_mod (a + b - 1) b). lia.
Qed.

(** [sectors_per_fat] rounds up: the table and its copies cover the volume. *)
Lemma sectors_per_fat_covers ts bps spc fat_type rs root_sectors nfats spf :
  512 ≤ bps → 0 < spc → 0 < nfats → ts < 2 ^ 32 → 0 ≤ rs → 0 ≤ root_sectors →
  determine_sectors_per_fat ts bps spc fat_type rs root_sectors nfats = Ok spf →
  ts - rs - root_sectors + 2 * spc ≤ spf * ((spc * bps * 8) `div` bits_per_fat_entry fat_type + nfats).
Proof.
  intros Hbps Hspc Hf Hts Hrs Hroot H. unfold determine_sectors_per_fat in H. inv_checked.
  injection H as <-.
  set (q := (spc * bps * 8) `div` bits_per_fat_entry fat_type) in *.
  set (t1 := ts - rs - root_sectors + 2 * spc) in *.
  assert (128 ≤ q) by (apply Z.div_le_lower_bound; destruct fat_type; cbn; nia).
  rewrite cast_in; [apply (ceil_div_mul t1); lia|].
  split; [apply Z.div_pos; lia|apply Z.div_lt_upper_bound; lia].
Qed.

(** A table that covers [clusters * spc] sectors has their entries. *)
Lemma fat_entries_fit bits spc bps clusters spf :
  0 < bits → 0 < spc →
  spc * (clusters + 2) ≤ spf * ((spc * bps * 8) `div` bits) → 0 ≤ spf →
  (clusters + 2) * bits ≤ spf * (bps * 8).
Proof.
  intros Hb Hs H Hf. pose proof (Z.mul_div_le (spc * bps * 8) bits Hb).
  apply (Z.mul_le_mono_pos_l _ _ spc Hs). nia.
Qed.

(** The allocation table [try_fs_geometry] reserves has an entry for every
    cluster of the data area that remains, the two reserved entries included, and
    the number of clusters suits the table's type. *)
Theorem fat_size_adequate (ts bps spc root_sectors nfats rs spf : Z) (fat_type : FatType) :
  512 ≤ bps → 0 < spc → 0 ≤ root_sectors → 0 < nfats → ts < 2 ^ 32 →
  try_fs_geometry ts bps spc fat_type root_sectors nfats = Ok (IoOk (rs, spf)) →
  let data_sectors := ts - rs - root_sectors - spf * nfats in
  0 ≤ data_sectors ∧
  (data_sectors `div` spc + RESERVED_FAT_ENTRIES) * bits_per_fat_entry fat_type ≤ spf * (bps * 8) ∧
  min_clusters fat_type ≤ data_sectors `div` spc ≤ max_clusters fat_type.
Proof.
  intros Hbps Hspc Hroot Hfats Hts H. cbv zeta. unfold try_fs_geometry in H.
  assert (0 ≤ (if is_Fat32 fat_type then 8 else 1)) by (destruct fat_type; cbn; lia).
  set (r := if is_Fat32 fat_type then 8 else 1) in *. clearbody r.
  inv_checked.
  match goal with H : determine_sectors_per_fat _ _ _ _ _ _ _ = _ |- _ =>
    apply sectors_per_fat_covers in H; [|lia..] end.
  set (data_sectors := ts - rs - root_sectors - spf * nfats) in *. split; [lia|]. split; [|lia].
  pose proof (Z.mul_div_le data_sectors spc Hspc).
  apply (fat_entries_fit _ spc); [destruct fat_type; cbn; lia|lia| |nia].
  unfold data_sectors in *. lia.
Qed.

Lemma first_data_sector_Ok b fds : first_data_sector b = Ok fds →
  ∃ rds, root_dir_sectors b = Ok rds ∧
    fds = reserved_sectors_16 b + fats b * sectors_per_fat b + rds ∧ 0 ≤ fds < 2 ^ 32.
Proof.
  unfold first_data_sector, sectors_per_all_fats. intros H. inv_checked.
  eexists. split_and!; [done|lia..].
Qed.

(** C40: Validation is sound: a parameter block it accepts describes a FAT32 volume
    whose sector and cluster sizes are powers of two in range, whose derived
    quantities are computed without overflow, whose system sectors lie in the
    reserved area, and all of whose clusters lie behind the tables and within the
    volume. *)
Theorem bpb_validate_sound (b : BiosParameterBlock) :
  bpb_wf b → bpb_validate b = Ok (IoOk tt) →
  is_fat32 b = true ∧
  (∃ n, 0 ≤ n ∧ bytes_per_sector b = 2 ^ n) ∧ 512 ≤ bytes_per_sector b ≤ 4096 ∧
  (∃ n, 0 ≤ n ∧ sectors_per_cluster b = 2 ^ n) ∧ 1 ≤ sectors_per_cluster b ≤ 128 ∧
  fs_info_sector b < reserved_sectors_16 b ∧ backup_boot_sector b < reserved_sectors_16 b ∧
  ∃ fds tc,
    first_data_sector b = Ok fds ∧ total_clusters b = Ok tc ∧ tc ≤ 0x0FFFFFFF ∧
    reserved_sectors_16 b + fats b * sectors_per_fat b = fds ∧
    ∀ c, RESERVED_FAT_ENTRIES ≤ c < tc + RESERVED_FAT_ENTRIES →
      fds ≤ fds + (c - RESERVED_FAT_ENTRIES) * sectors_per_cluster b ∧
      fds + (c - RESERVED_FAT_ENTRIES + 1) * sectors_per_cluster b ≤ total_sectors b.
Proof.
  intros Hb H. unfold bpb_validate in H. inv_checked.
  match goal with H : first_data_sector b = Ok ?x, H2 : total_clusters b = Ok ?y |- _ =>
    rename H into Hfds; rename x into fds; rename H2 into Htc; rename y into tc end.
  assert (is_fat32 b = true) as E32 by (destruct (is_fat32 b); cbn in *; congruence).
  rewrite E32 in *. cbn [andb negb is_Fat32 from_clusters Bool.eqb] in *.
  split; [done|]. split; [apply count_ones_1; lia|]. split; [lia|].
  split; [apply count_ones_1; lia|]. split; [lia|]. split; [lia|]. split; [lia|].
  exists fds, tc. split; [done|]. split; [done|]. split; [lia|].
  destruct (first_data_sector_Ok _ _ Hfds) as (rds & Hrds & Efds & _).
  assert (rds = 0) as ->.
  { unfold root_dir_sectors in Hrds. inv_checked.
    replace (root_entries b) with 0 by lia. apply Z.div_small. lia. }
  split; [lia|]. intros c Hc. unfold total_clusters in Htc. rewrite Hfds in Htc. cbn [mbind exec_bind] in Htc.
  inv_checked. pose proof (Z.mul_div_le (total_sectors b - fds) (sectors_per_cluster b) ltac:(lia)).
  unfold RESERVED_FAT_ENTRIES in *. nia.
Qed.

(** One checked operation of the goal, in range. *)
Ltac chk_next :=
  match goal with |- context [chk ?w ?z] => rewrite (chk_in w z) by lia end; cbn [mbind exec_bind].

Lemma small_spf_bound t0 spc nfats :
  9 ≤ t0 → 1 ≤ spc → 1 ≤ nfats ≤ 2 →
  let spf := (t0 + 2 * spc + (128 * spc + nfats) - 1) `div` (128 * spc + nfats) in
  0 ≤ spf ∧ spf * nfats ≤ t0.
Proof.
  intros H0 Hs Hf spf. unfold spf. set (t2 := 128 * spc + nfats) in *.
  assert (0 < t2) by lia. split; [apply Z.div_pos; lia|].
  pose proof (Z.mul_div_le (t0 + 2 * spc + t2 - 1) t2 ltac:(lia)).
  pose proof (Z.mod_pos_bound (t0 + 2 * spc + t2 - 1) t2 ltac:(lia)).
  assert ((t0 + 2 * spc + t2 - 1) `div` t2 ≤ 2 + t0 `div` 128).
  { apply Z.div_le_upper_bound; [lia|]. pose proof (Z.div_mod t0 128). pose proof (Z.mod_pos_bound t0 128).
    unfold t2. nia. }
  pose proof (Z.mul_div_le t0 128). pose proof (Z.div_pos t0 128). nia.
Qed.

Lemma udiv_in a b : b ≠ 0 → udiv a b = Ok (a `div` b).
Proof. intros. by apply udiv_Ok. Qed.

Lemma try_fat32_small ts spc nfats :
  17 ≤ ts < FAT32_MIN_CLUSTERS → 1 ≤ spc ≤ 128 → 1 ≤ nfats ≤ 2 →
  try_fs_geometry ts 512 spc Fat32 0 nfats = Panic AssertFailed.
Proof.
  intros Hts Hspc Hf. unfold FAT32_MIN_CLUSTERS in *.
  unfold try_fs_geometry, determine_sectors_per_fat. cbn [is_Fat32]. repeat chk_next.
  unfold reject at 1. replace (ts <=? 8 + 0 + 8) with false by lia. repeat chk_next.
  cbn [bits_per_fat_entry]. rewrite udiv_in by lia. cbn [mbind exec_bind].
  assert ((spc * 512 * 8) `div` 32 = 128 * spc) as ->
    by (symmetry; apply Z.div_unique with 0; lia).
  repeat chk_next. rewrite udiv_in by lia. cbn [mbind exec_bind mret exec_ret].
  destruct (small_spf_bound (ts - 8 - 0) spc nfats) as [Hp Hm]; [lia..|]. cbv zeta in *.
  set (spf := _ `div` (128 * spc + nfats)) in *. rewrite cast_in by nia. repeat chk_next.
  rewrite udiv_in by lia. cbn [mbind exec_bind].
  unfold reject at 1. rewrite bool_decide_true by done. cbn [negb]. unfold ensure.
  replace (min_clusters Fat32 <=? _) with false; [done|].
  symmetry. apply Z.leb_gt. apply Z.div_lt_upper_bound; cbn; [lia|].
  unfold FAT32_MIN_CLUSTERS. nia.
Qed.

(** A volume too small for FAT32 is not formatted as FAT16 or FAT12: since
    [from_clusters] always answers FAT32, the first attempt reaches the
    [debug_assert!] on the number of clusters and panics. *)
Theorem format_small_volume_panics (ts spc root_dir_entries nfats : Z) :
  17 ≤ ts < FAT32_MIN_CLUSTERS → 1 ≤ spc ≤ 128 → 1 ≤ nfats ≤ 2 →
  determine_fs_geometry ts 512 spc root_dir_entries nfats = Panic AssertFailed.
Proof.
  intros Hts Hspc Hf. unfold determine_fs_geometry.
  cbn [geometry_loop determine_root_dir_sectors is_Fat32 mbind exec_bind]. by rewrite try_fat32_small.
Qed.

(** ** A concrete volume: 64 MiB, 131072 sectors of 512 bytes, one sector per
    cluster. *)
Definition small_options : FormatVolumeOptions := {|
  o_bytes_per_sector := None; o_total_sectors := None; o_bytes_per_cluster := Some 512;
  o_fat_type := None; o_max_root_dir_entries := None; o_fats := None; o_media := None;
  o_sectors_per_track := None; o_heads := None; o_drive_num := None; o_volume_id := None;
  o_volume_label := None |}.

Definition sample_boot : BootSector :=
  match format_boot_sector small_options 131072 512 with
  | Ok (IoOk (b, _)) => b
  | _ => {| bootjmp := []; oem_name := [];
            bpb := Build_BiosParameterBlock 0 0 0 0 0 0 0 0 0 0 0 0 0 0 0 0 0 0 [] 0 0 0 0 [] [];
            boot_code := []; boot_sig := [] |}
  end.

Example sample_formatted : format_boot_sector small_options 131072 512 = Ok (IoOk (sample_boot, Fat32)).
Proof. vm_compute. reflexivity. Qed.

Example sample_valid : boot_validate sample_boot = Ok (IoOk tt).
Proof. vm_compute. reflexivity. Qed.

Lemma sample_bpb_wf : bpb_wf (bpb sample_boot).
Proof. by split; vm_compute. Qed.

Lemma sample_boot_wf : boot_wf sample_boot.
Proof. split; [apply sample_bpb_wf|by vm_compute..]. Qed.

Lemma boot_sector_roundtrip_witness :
  ∃ d1 d2 d3 bs',
    boot_serialize sample_boot {| mf_bytes := replicate 1024 7; mf_pos := 512 |} = Ok (IoOk tt, d1) ∧
    stream_rep d1 bs' (512 + 512) ∧
    (∀ i : nat, ¬ (512 ≤ Z.of_nat i < 512 + 512) → bs' !! i = replicate 1024 7 !! i) ∧
    s_seek (SeekStart 512) d1 = Ok (IoOk 512, d2) ∧
    boot_deserialize d2 = Ok (IoOk sample_boot, d3) ∧ stream_rep d3 bs' (512 + 512).
Proof.
  apply (boot_sector_roundtrip sample_boot {| mf_bytes := replicate 1024 7; mf_pos := 512 |}
           (replicate 1024 7) 512 sample_boot_wf); [|vm_compute; discriminate].
  cbn. split; [reflexivity|]. split; [reflexivity|discriminate].
Defined.

Lemma fat_size_adequate_witness :
  0 ≤ 131072 - 8 - 0 - 1009 * 2 ∧
  ((131072 - 8 - 0 - 1009 * 2) `div` 1 + RESERVED_FAT_ENTRIES) * bits_per_fat_entry Fat32 ≤ 1009 * (512 * 8) ∧
  min_clusters Fat32 ≤ (131072 - 8 - 0 - 1009 * 2) `div` 1 ≤ max_clusters Fat32.
Proof. apply (fat_size_adequate 131072 512 1 0 2 8 1009 Fat32); [lia..|vm_compute; reflexivity]. Defined.

Lemma bpb_validate_sound_witness :
  is_fat32 (bpb sample_boot) = true ∧
  ∃ fds tc, first_data_sector (bpb sample_boot) = Ok fds ∧ total_clusters (bpb sample_boot) = Ok tc.
Proof.
  destruct (bpb_validate_sound (bpb sample_boot) sample_bpb_wf) as (H & _ & _ & _ & _ & _ & _ & fds & tc & H1 & H2 & _);
    [vm_compute; reflexivity|].
  split; [exact H|]. exists fds, tc. split; [exact H1|exact H2].
Defined.

Lemma format_small_volume_panics_witness :
  determine_fs_geometry 20000 512 1 512 2 = Panic AssertFailed.
Proof. apply (format_small_volume_panics 20000 1 512 2); unfold FAT32_MIN_CLUSTERS; lia. Defined.
