(* ===== verification/FatTable.v ===== *)
(** * The file allocation table (fatfs/src/table.rs)

    Entries of the three formats read and written through a stream over the
    table, the search for a free cluster, allocation, and the iterator over the
    clusters of a chain with its [truncate] and [free]. *)

From S2P Require Import Prelude Io FatIo FatBits BootSector.

Inductive FatValue := Free | Data (n : Z) | Bad | EndOfChain.

#[export] Instance FatValue_eq_dec : EqDecision FatValue.
Proof. solve_decision. Defined.

Definition is_Free (v : FatValue) : bool := match v with Free => true | _ => false end.

(** The cluster numbers FAT32 reserves as markers. *)
Definition special (cluster : Z) : bool := (0x0FFFFFF7 <=? cluster) && (cluster <=? 0x0FFFFFFF).

(** [for x in l { f(x)? }] *)
Fixpoint try_each {S A} (l : list A) (f : A → M S (ioresult unit)) : M S (ioresult unit) :=
  match l with
  | [] => ok tt
  | x :: l => f x ?; try_each l f
  end.

Section table.
Context {T : Type} `{!Stream T}.

Definition seek_to (pos : Z) : M T (ioresult Z) := s_seek (SeekStart pos).

(** ** Fat12 *)
Definition fat12_packed (cluster packed_val : Z) : Z :=
  if Z.land cluster 1 =? 0 then Z.land packed_val 0x0FFF else Z.shiftr packed_val 4.
Definition fat12_get_raw (cluster : Z) : M T (ioresult Z) :=
  fat_offset ← lift (u32 (cluster + cluster `div` 2));
  seek_to fat_offset ?;
  packed_val ←? read_u16;
  ok (fat12_packed cluster packed_val).
Definition fat12_decode (val : Z) : FatValue :=
  if val =? 0 then Free
  else if val =? 0xFF7 then Bad
  else if (0xFF8 <=? val) && (val <=? 0xFFF) then EndOfChain
  else Data val.
Definition fat12_get (cluster : Z) : M T (ioresult FatValue) :=
  val ←? fat12_get_raw cluster;
  ok (fat12_decode val).
Definition fat12_set_raw (cluster raw_val : Z) : M T (ioresult unit) :=
  fat_offset ← lift (u32 (cluster + cluster `div` 2));
  seek_to fat_offset ?;
  old_packed ←? read_u16;
  seek_to fat_offset ?;
  let new_packed :=
    if Z.land cluster 1 =? 0 then Z.lor (Z.land old_packed 0xF000) (cast 16 raw_val)
    else Z.lor (Z.land old_packed 0x000F) (shl 16 (cast 16 raw_val) 4) in
  write_u16 new_packed.
Definition fat12_encode (value : FatValue) : Z :=
  match value with Free => 0 | Bad => 0xFF7 | EndOfChain => 0xFFF | Data n => cast 16 n end.
Definition fat12_set (cluster : Z) (value : FatValue) : M T (ioresult unit) :=
  fat12_set_raw cluster (fat12_encode value).
Fixpoint fat12_find_loop (fuel : nat) (cluster packed_val end_cluster : Z) : M T (ioresult Z) :=
  match fuel with
  | O => panic OutOfFuel
  | S fuel =>
      if fat12_packed cluster packed_val =? 0 then ok cluster
      else
        cluster ← lift (u32 (cluster + 1));
        if cluster =? end_cluster then err OtherError
        else
          packed_val ←?
            (if Z.land cluster 1 =? 0 then read_u16
             else
               next_byte ←? read_u8;
               ok (Z.lor (Z.shiftr packed_val 8) (shl 16 next_byte 8)));
          fat12_find_loop fuel cluster packed_val end_cluster
  end.
Definition fat12_find_free (start_cluster end_cluster : Z) : M T (ioresult Z) :=
  fat_offset ← lift (u32 (start_cluster + start_cluster `div` 2));
  seek_to fat_offset ?;
  packed_val ←? read_u16;
  fat12_find_loop (Z.to_nat (end_cluster - start_cluster) + 1) start_cluster packed_val end_cluster.
Fixpoint fat12_count_loop (l : list Z) (prev_packed_val count : Z) : M T (ioresult Z) :=
  match l with
  | [] => ok count
  | cluster :: l =>
      packed_val ←? (if Z.land cluster 1 =? 0 then read_u16 else read_u8);
      let val :=
        if Z.land cluster 1 =? 0 then Z.land packed_val 0x0FFF
        else Z.lor (shl 16 packed_val 8) (Z.shiftr prev_packed_val 12) in
      count ← lift (u32 (if val =? 0 then count + 1 else count));
      fat12_count_loop l packed_val count
  end.
Definition fat12_count_free (end_cluster : Z) : M T (ioresult Z) :=
  seek_to ((RESERVED_FAT_ENTRIES * 3) `div` 2) ?;
  fat12_count_loop (range RESERVED_FAT_ENTRIES end_cluster) 0 0.

(** ** Fat16 *)
Definition fat16_get_raw (cluster : Z) : M T (ioresult Z) :=
  off ← lift (u32 (cluster * 2));
  seek_to off ?;
  read_u16.
Definition fat16_decode (val : Z) : FatValue :=
  if val =? 0 then Free
  else if val =? 0xFFF7 then Bad
  else if (0xFFF8 <=? val) && (val <=? 0xFFFF) then EndOfChain
  else Data val.
Definition fat16_get (cluster : Z) : M T (ioresult FatValue) :=
  val ←? fat16_get_raw cluster;
  ok (fat16_decode val).
Definition fat16_set_raw (cluster raw_value : Z) : M T (ioresult unit) :=
  off ← lift (u32 (cluster * 2));
  seek_to off ?;
  write_u16 (cast 16 raw_value).
Definition fat16_encode (value : FatValue) : Z :=
  match value with Free => 0 | Bad => 0xFFF7 | EndOfChain => 0xFFFF | Data n => cast 16 n end.
Definition fat16_set (cluster : Z) (value : FatValue) : M T (ioresult unit) :=
  fat16_set_raw cluster (fat16_encode value).
Fixpoint fat16_find_loop (l : list Z) : M T (ioresult Z) :=
  match l with
  | [] => err OtherError
  | cluster :: l =>
      val ←? read_u16;
      if val =? 0 then ok cluster else fat16_find_loop l
  end.
Definition fat16_find_free (start_cluster end_cluster : Z) : M T (ioresult Z) :=
  off ← lift (u32 (start_cluster * 2));
  seek_to off ?;
  fat16_find_loop (range start_cluster end_cluster).
Fixpoint fat16_count_loop (l : list Z) (count : Z) : M T (ioresult Z) :=
  match l with
  | [] => ok count
  | _ :: l =>
      val ←? read_u16;
      count ← lift (u32 (if val =? 0 then count + 1 else count));
      fat16_count_loop l count
  end.
Definition fat16_count_free (end_cluster : Z) : M T (ioresult Z) :=
  seek_to (RESERVED_FAT_ENTRIES * 2) ?;
  fat16_count_loop (range RESERVED_FAT_ENTRIES end_cluster) 0.

(** ** Fat32 *)
Definition fat32_get_raw (cluster : Z) : M T (ioresult Z) :=
  off ← lift (u32 (cluster * 4));
  seek_to off ?;
  read_u32.
Definition fat32_decode (cluster val : Z) : FatValue :=
  if (val =? 0) && special cluster then Bad
  else if val =? 0 then Free
  else if val =? 0x0FFFFFF7 then Bad
  else if (0x0FFFFFF8 <=? val) && (val <=? 0x0FFFFFFF) then EndOfChain
  else if special cluster then Bad
  else Data val.
Definition fat32_get (cluster : Z) : M T (ioresult FatValue) :=
  val ←? fat32_get_raw cluster;
  ok (fat32_decode cluster (Z.land val 0x0FFFFFFF)).
Definition fat32_set_raw (cluster raw_value : Z) : M T (ioresult unit) :=
  off ← lift (u32 (cluster * 4));
  seek_to off ?;
  write_u32 raw_value.
Definition fat32_encode (value : FatValue) : Z :=
  match value with Free => 0 | Bad => 0x0FFFFFF7 | EndOfChain => 0x0FFFFFFF | Data n => n end.
Definition fat32_set (cluster : Z) (value : FatValue) : M T (ioresult unit) :=
  raw ←? fat32_get_raw cluster;
  let old_reserved_bits := Z.land raw 0xF0000000 in
  if is_Free value && special cluster then panic Explicit
  else fat32_set_raw cluster (Z.lor (fat32_encode value) old_reserved_bits).
Fixpoint fat32_find_loop (l : list Z) : M T (ioresult Z) :=
  match l with
  | [] => err OtherError
  | cluster :: l =>
      raw ←? read_u32;
      if Z.land raw 0x0FFFFFFF =? 0 then ok cluster else fat32_find_loop l
  end.
Definition fat32_find_free (start_cluster end_cluster : Z) : M T (ioresult Z) :=
  off ← lift (u32 (start_cluster * 4));
  seek_to off ?;
  fat32_find_loop (range start_cluster end_cluster).
Fixpoint fat32_count_loop (l : list Z) (count : Z) : M T (ioresult Z) :=
  match l with
  | [] => ok count
  | _ :: l =>
      raw ←? read_u32;
      count ← lift (u32 (if Z.land raw 0x0FFFFFFF =? 0 then count + 1 else count));
      fat32_count_loop l count
  end.
Definition fat32_count_free (end_cluster : Z) : M T (ioresult Z) :=
  seek_to (RESERVED_FAT_ENTRIES * 4) ?;
  fat32_count_loop (range RESERVED_FAT_ENTRIES end_cluster) 0.

(** ** The table of either type *)
Definition read_fat (fat_type : FatType) (cluster : Z) : M T (ioresult FatValue) :=
  match fat_type with
  | Fat12 => fat12_get cluster
  | Fat16 => fat16_get cluster
  | Fat32 => fat32_get cluster
  end.
Definition write_fat (fat_type : FatType) (cluster : Z) (value : FatValue) : M T (ioresult unit) :=
  match fat_type with
  | Fat12 => fat12_set cluster value
  | Fat16 => fat16_set cluster value
  | Fat32 => fat32_set cluster value
  end.
Definition get_next_cluster (fat_type : FatType) (cluster : Z) : M T (ioresult (option Z)) :=
  val ←? read_fat fat_type cluster;
  ok (match val with Data n => Some n | _ => None end).
Definition find_free_cluster (fat_type : FatType) (start_cluster end_cluster : Z) : M T (ioresult Z) :=
  match fat_type with
  | Fat12 => fat12_find_free start_cluster end_cluster
  | Fat16 => fat16_find_free start_cluster end_cluster
  | Fat32 => fat32_find_free start_cluster end_cluster
  end.
Definition alloc_cluster (fat_type : FatType) (prev_cluster hint : option Z) (total : Z) :
    M T (ioresult Z) :=
  end_cluster ← lift (u32 (total + RESERVED_FAT_ENTRIES));
  let start_cluster :=
    match hint with
    | Some n => if n <? end_cluster then n else RESERVED_FAT_ENTRIES
    | None => RESERVED_FAT_ENTRIES
    end in
  r ← find_free_cluster fat_type start_cluster end_cluster;
  new_cluster ←?
    match r with
    | IoOk n => ok n
    | IoErr e =>
        if RESERVED_FAT_ENTRIES <? start_cluster
        then find_free_cluster fat_type RESERVED_FAT_ENTRIES start_cluster
        else err e
    end;
  write_fat fat_type new_cluster EndOfChain ?;
  match prev_cluster with
  | Some n => write_fat fat_type n (Data new_cluster)
  | None => ok tt
  end ?;
  ok new_cluster.
Definition read_fat_flags (fat_type : FatType) : M T (ioresult FsStatusFlags) :=
  val ←?
    match fat_type with
    | Fat12 => ok 0xFFF
    | Fat16 => fat16_get_raw 1
    | Fat32 => fat32_get_raw 1
    end;
  ok {| dirty :=
          match fat_type with
          | Fat12 => false
          | Fat16 => Z.land val (Z.shiftl 1 15) =? 0
          | Fat32 => Z.land val (Z.shiftl 1 27) =? 0
          end;
        io_error :=
          match fat_type with
          | Fat12 => false
          | Fat16 => Z.land val (Z.shiftl 1 14) =? 0
          | Fat32 => Z.land val (Z.shiftl 1 26) =? 0
          end |}.
Definition count_free_clusters (fat_type : FatType) (total : Z) : M T (ioresult Z) :=
  end_cluster ← lift (u32 (total + RESERVED_FAT_ENTRIES));
  match fat_type with
  | Fat12 => fat12_count_free end_cluster
  | Fat16 => fat16_count_free end_cluster
  | Fat32 => fat32_count_free end_cluster
  end.
Definition format_fat (fat_type : FatType) (media_byte bytes_per_fat total : Z) : M T (ioresult unit) :=
  match fat_type with
  | Fat12 => write_u8 media_byte ?; write_u16 0xFFFF
  | Fat16 => write_u16 (Z.lor media_byte 0xFF00) ?; write_u16 0xFFFF
  | Fat32 => write_u32 (Z.lor media_byte 0xFFFFF00) ?; write_u32 0xFFFFFFFF
  end ?;
  start_cluster ← lift (u32 (total + RESERVED_FAT_ENTRIES));
  bits ← lift (u64 (bytes_per_fat * 8));
  let end_cluster := cast 32 (bits `div` bits_per_fat_entry fat_type) in
  try_each (range start_cluster end_cluster) (λ c, write_fat fat_type c EndOfChain) ?;
  if 0x0FFFFFF0 <? end_cluster then
    try_each (range 0x0FFFFFF0 (Z.min (0x0FFFFFFF + 1) end_cluster)) (λ c, write_fat fat_type c Bad)
  else ok tt.
End table.

(** ** The cluster iterator *)

Record ClusterIterator (T : Type) := {
  ci_fat : T;
  ci_fat_type : FatType;
  ci_cluster : option Z;
  ci_err : bool;
}.
Arguments ci_fat {T} _.
Arguments ci_fat_type {T} _.
Arguments ci_cluster {T} _.
Arguments ci_err {T} _.

Section iterator.
Context {T : Type} `{!Stream T}.

Definition ci_new (fat : T) (fat_type : FatType) (cluster : Z) : ClusterIterator T :=
  {| ci_fat := fat; ci_fat_type := fat_type; ci_cluster := Some cluster; ci_err := false |}.

(** A use of [self.fat] *)
Definition on_fat {A} (m : FatType → M T A) : M (ClusterIterator T) A := λ it,
  match m (ci_fat_type it) (ci_fat it) with
  | Ok (a, fat) => Ok (a, {| ci_fat := fat; ci_fat_type := ci_fat_type it;
                             ci_cluster := ci_cluster it; ci_err := ci_err it |})
  | Panic f => Panic f
  end.

(** [Iterator::next] *)
Definition ci_next : M (ClusterIterator T) (option (ioresult Z)) :=
  it ← get;
  if ci_err it then mret None
  else
    match ci_cluster it with
    | None => mret None
    | Some current_cluster =>
        r ← on_fat (λ t, get_next_cluster t current_cluster);
        match r with
        | IoOk next_cluster =>
            modify (λ it, {| ci_fat := ci_fat it; ci_fat_type := ci_fat_type it;
                             ci_cluster := next_cluster; ci_err := ci_err it |}) ;;
            mret (IoOk <$> next_cluster)
        | IoErr e =>
            modify (λ it, {| ci_fat := ci_fat it; ci_fat_type := ci_fat_type it;
                             ci_cluster := ci_cluster it; ci_err := true |}) ;;
            mret (Some (IoErr e))
        end
    end.

(** [ClusterIterator::free]: every round frees a cluster, so a loop in the chain
    ends it; a read error that does not recur on the write keeps the cursor in
    place and exhausts the fuel. *)
Fixpoint free_loop (fuel : nat) (num_free : Z) : M (ClusterIterator T) (ioresult Z) :=
  it ← get;
  match ci_cluster it with
  | None => ok num_free
  | Some n =>
      match fuel with
      | O => panic OutOfFuel
      | S fuel =>
          ci_next ;;
          on_fat (λ t, write_fat t n Free) ?;
          num_free ← lift (u32 (num_free + 1));
          free_loop fuel num_free
      end
  end.
Definition ci_free (fuel : nat) : M (ClusterIterator T) (ioresult Z) := free_loop fuel 0.

(** [ClusterIterator::truncate] *)
Definition ci_truncate (fuel : nat) : M (ClusterIterator T) (ioresult Z) :=
  it ← get;
  match ci_cluster it with
  | Some n =>
      ci_next ;;
      on_fat (λ t, write_fat t n EndOfChain) ?;
      ci_free fuel
  | None => ok 0
  end.
End iterator.

(** ** What the table means

    Entry [c] of a table of [w]-bit entries is the [c]-th group of [w] bits of the
    byte string; the packing of twelve-bit entries is a detail of the offsets. *)
Definition ent_off (t : FatType) (c : Z) : Z :=
  match t with Fat12 => c + c `div` 2 | Fat16 => c * 2 | Fat32 => c * 4 end.
Definition ent_len (t : FatType) : nat := match t with Fat32 => 4 | _ => 2 end.
Definition raw_entry (t : FatType) (bs : list Z) (c : Z) : Z :=
  let v := le_value (slice (ent_off t c) (ent_len t) bs) in
  match t with Fat12 => fat12_packed c v | _ => v end.
Definition fat_value (t : FatType) (bs : list Z) (c : Z) : FatValue :=
  match t with
  | Fat12 => fat12_decode (raw_entry t bs c)
  | Fat16 => fat16_decode (raw_entry t bs c)
  | Fat32 => fat32_decode c (Z.land (raw_entry t bs c) 0x0FFFFFFF)
  end.

(** A byte table below 4 GiB that has the entry [c]. *)
Definition table_ok (bs : list Z) : Prop := Forall is_byte bs ∧ Z.of_nat (length bs) < 2 ^ 32.
Definition in_table (t : FatType) (bs : list Z) (c : Z) : Prop :=
  0 ≤ c ∧ ent_off t c + Z.of_nat (ent_len t) ≤ Z.of_nat (length bs).

Definition cluster_limit (t : FatType) : Z :=
  match t with Fat12 => 0xFF7 | Fat16 => 0xFFF7 | Fat32 => 0x0FFFFFF7 end.

(** The values an entry can hold: a FAT32 marker number is no data cluster. *)
Definition storable (t : FatType) (c : Z) (v : FatValue) : Prop :=
  (t = Fat32 → c < 0x0FFFFFF7) ∧
  match v with
  | Data n => 1 ≤ n < cluster_limit t
  | _ => True
  end.

Lemma land_1_odd c : Z.land c 1 = c `mod` 2.
Proof. exact (Z.land_ones c 1 ltac:(done)). Qed.

Lemma ent_off_bits t c : 0 ≤ c →
  8 * ent_off t c = bits_per_fat_entry t * c - match t with Fat12 => 4 * (c `mod` 2) | _ => 0 end.
Proof. intros. destruct t; cbn [ent_off bits_per_fat_entry]; [|lia..]. pose proof (Z.div_mod c 2). lia. Qed.

Lemma raw_entry_bit t bs c i : Forall is_byte bs → 0 ≤ c → 0 ≤ i →
  Z.testbit (raw_entry t bs c) i =
    (i <? bits_per_fat_entry t) && bit bs (bits_per_fat_entry t * c + i).
Proof.
  intros Hb Hc Hi. pose proof (ent_off_bits t c Hc) as Ho.
  assert (0 ≤ ent_off t c) by (destruct t; cbn; [pose proof (Z.div_pos c 2)|..]; lia).
  unfold raw_entry. destruct t; cbn [ent_len bits_per_fat_entry] in *.
  - unfold fat12_packed. rewrite land_1_odd. pose proof (Z.mod_pos_bound c 2).
    destruct (Z.eqb_spec (c `mod` 2) 0) as [E|E].
    + change 0x0FFF with (2 ^ 12 - 1). rewrite land_pow2_mod by lia.
      rewrite E in Ho. destruct (Z.ltb_spec i 12); cbn [andb].
      * rewrite Z.mod_pow2_bits_low, slice_bit by (done || lia). change (8 * Z.of_nat 2) with 16.
        replace (i <? 16) with true by lia. cbn [andb]. f_equal. lia.
      * by rewrite Z.mod_pow2_bits_high by lia.
    + rewrite Z.shiftr_spec, slice_bit by (done || lia). change (8 * Z.of_nat 2) with 16. replace (c `mod` 2) with 1 in Ho by lia.
      destruct (Z.ltb_spec i 12); [|by replace (i + 4 <? 16) with false by lia].
      replace (i + 4 <? 16) with true by lia. cbn [andb]. f_equal. lia.
  - rewrite slice_bit by done. change (8 * Z.of_nat 2) with 16. do 2 f_equal. lia.
  - rewrite slice_bit by done. change (8 * Z.of_nat 4) with 32. do 2 f_equal. lia.
Qed.

Lemma raw_entry_nonneg t bs c : Forall is_byte bs → 0 ≤ raw_entry t bs c.
Proof.
  intros Hb. assert (0 ≤ le_value (slice (ent_off t c) (ent_len t) bs))
    by (apply le_value_range, Forall_slice, Hb).
  unfold raw_entry. destruct t; [|done..]. unfold fat12_packed.
  destruct (_ =? _); [by apply Z.land_nonneg; left|by apply Z.shiftr_nonneg].
Qed.

(** A write of the bits of one entry changes that entry only. *)
Definition entry_written (t : FatType) (bs : list Z) (c raw : Z) (bs' : list Z) : Prop :=
  Forall is_byte bs' ∧ length bs' = length bs ∧
  ∀ i, 0 ≤ i → bit bs' i =
    if (bits_per_fat_entry t * c <=? i) && (i <? bits_per_fat_entry t * c + bits_per_fat_entry t)
    then Z.testbit raw (i - bits_per_fat_entry t * c) else bit bs i.

Lemma entry_written_same t bs c raw bs' : Forall is_byte bs → 0 ≤ c → 0 ≤ raw < 2 ^ bits_per_fat_entry t →
  entry_written t bs c raw bs' → raw_entry t bs' c = raw.
Proof.
  intros Hb Hc Hr (Hb' & _ & Hbit). apply Z.bits_inj'. intros i Hi.
  assert (0 < bits_per_fat_entry t) by (destruct t; cbn; lia).
  rewrite raw_entry_bit, Hbit by (done || lia). destruct (Z.ltb_spec i (bits_per_fat_entry t)); cbn [andb].
  - replace (_ && _) with true by lia. f_equal. lia.
  - symmetry. apply (testbit_range (bits_per_fat_entry t)); lia.
Qed.

Lemma entry_written_other t bs c raw bs' c' : Forall is_byte bs → 0 ≤ c → 0 ≤ c' → c' ≠ c →
  entry_written t bs c raw bs' → raw_entry t bs' c' = raw_entry t bs c'.
Proof.
  intros Hb Hc Hc' Hne (Hb' & _ & Hbit). apply Z.bits_inj'. intros i Hi.
  assert (0 < bits_per_fat_entry t) by (destruct t; cbn; lia).
  rewrite !raw_entry_bit by done. destruct (Z.ltb_spec i (bits_per_fat_entry t)); cbn [andb]; [|done].
  rewrite Hbit by nia. replace (_ && _) with false; [done|]. symmetry. apply andb_false_iff.
  rewrite Z.leb_gt, Z.ltb_ge. nia.
Qed.

Section table_specs.
Context {T : Type} `{!Stream T, !ByteStream T}.

Lemma seek_read n off d bs pos :
  stream_rep d bs pos → 0 ≤ off → off + Z.of_nat n ≤ Z.of_nat (length bs) → Z.of_nat n < 2 ^ 64 →
  ∃ d', (seek_to off ?; read_le (Z.of_nat n)) d = Ok (IoOk (le_value (slice off n bs)), d') ∧
    stream_rep d' bs (off + Z.of_nat n).
Proof.
  intros Hd Ho Hl Hn. destruct (stream_seek d bs pos off Hd) as (d1 & H1 & Hd1); [lia|].
  destruct (read_exact_spec d1 bs off (Z.of_nat n) Hd1) as (d2 & H2 & Hd2); [lia..|].
  exists d2. split; [|done]. unfold seek_to. rewrite (try_ok _ _ _ _ _ H1). unfold read_le.
  rewrite (try_ok _ _ _ _ _ H2), Nat2Z.id. done.
Qed.

Lemma seek_write off l d bs pos :
  stream_rep d bs pos → 0 ≤ off → off + Z.of_nat (length l) ≤ Z.of_nat (length bs) →
  ∃ d', (seek_to off ?; write_all l) d = Ok (IoOk tt, d') ∧
    stream_rep d' (splice off l bs) (off + Z.of_nat (length l)).
Proof.
  intros Hd Ho Hl. destruct (stream_seek d bs pos off Hd) as (d1 & H1 & Hd1); [lia|].
  destruct (write_all_spec d1 bs off l Hd1 Hl) as (d2 & H2 & Hd2).
  exists d2. split; [|done]. unfold seek_to. by rewrite (try_ok _ _ _ _ _ H1).
Qed.

Lemma ent_off_range t bs c : table_ok bs → in_table t bs c → 0 ≤ ent_off t c < 2 ^ 32.
Proof.
  intros [_ Hl] [Hc Hi]. split; [|lia].
  destruct t; cbn [ent_off]; [pose proof (Z.div_pos c 2)|..]; lia.
Qed.

Definition get_raw (t : FatType) : Z → M T (ioresult Z) :=
  match t with Fat12 => fat12_get_raw | Fat16 => fat16_get_raw | Fat32 => fat32_get_raw end.

Lemma get_raw_spec t c d bs pos :
  table_ok bs → in_table t bs c → stream_rep d bs pos →
  ∃ d' pos', get_raw t c d = Ok (IoOk (raw_entry t bs c), d') ∧ stream_rep d' bs pos'.
Proof.
  intros Hb Hc Hd. pose proof (ent_off_range t bs c Hb Hc) as Ho. destruct Hc as [Hc Hi].
  destruct (seek_read (ent_len t) (ent_off t c) d bs pos Hd) as (d' & H & Hd'); [lia|lia|destruct t; cbn; lia|].
  exists d', (ent_off t c + Z.of_nat (ent_len t)). split; [|done].
  unfold get_raw. destruct t; cbn [ent_off ent_len] in *;
    unfold fat12_get_raw, fat16_get_raw, fat32_get_raw; rewrite chk_in by lia; run_refl; try exact H.
  unfold read_u16. change 2 with (Z.of_nat 2) at 2.
  unfold try in H |- *. apply M_bind_Ok in H as ([a|e] & s1 & H1 & H2); [|discriminate H2].
  rewrite (M_bind_eq _ _ _ _ _ H1). cbn beta iota in *. by rewrite (M_bind_eq _ _ _ _ _ H2).
Qed.

(** Reading an entry gives its value. *)
Lemma read_fat_spec t c d bs pos :
  table_ok bs → in_table t bs c → stream_rep d bs pos →
  ∃ d' pos', read_fat t c d = Ok (IoOk (fat_value t bs c), d') ∧ stream_rep d' bs pos'.
Proof.
  intros Hb Hc Hd. destruct (get_raw_spec t c d bs pos Hb Hc Hd) as (d' & pos' & H & Hd').
  exists d', pos'. split; [|done].
  destruct t; cbn [read_fat get_raw] in *; unfold fat12_get, fat16_get, fat32_get;
    by rewrite (try_ok _ _ _ _ _ H).
Qed.

(** Splicing the bytes of [v] at byte [off] writes its bits. *)
Lemma splice_le_bit n off v bs i : Forall is_byte bs → 0 ≤ off → off + Z.of_nat n ≤ Z.of_nat (length bs) → 0 ≤ i →
  bit (splice off (le_bytes n v) bs) i =
    if (8 * off <=? i) && (i <? 8 * off + 8 * Z.of_nat n) then Z.testbit v (i - 8 * off) else bit bs i.
Proof.
  intros Hb Ho Hl Hi. rewrite splice_bit by (rewrite ?length_le_bytes; auto using le_bytes_bytes).
  rewrite length_le_bytes. replace (8 * (off + Z.of_nat n)) with (8 * off + 8 * Z.of_nat n) by lia.
  destruct (_ && _) eqn:E; [|done]. apply le_bytes_testbit; lia.
Qed.

Lemma splice_le_ok n off v bs : Forall is_byte bs → 0 ≤ off → off + Z.of_nat n ≤ Z.of_nat (length bs) →
  Forall is_byte (splice off (le_bytes n v) bs) ∧ length (splice off (le_bytes n v) bs) = length bs.
Proof.
  intros. split; [apply Forall_splice; auto using le_bytes_bytes|].
  apply length_splice; rewrite ?length_le_bytes; lia.
Qed.

Lemma fat16_set_raw_spec c raw d bs pos :
  table_ok bs → in_table Fat16 bs c → 0 ≤ raw < 2 ^ 16 → stream_rep d bs pos →
  ∃ d' bs' pos', fat16_set_raw c raw d = Ok (IoOk tt, d') ∧ stream_rep d' bs' pos' ∧
    entry_written Fat16 bs c raw bs'.
Proof.
  intros Hb Hc Hr Hd. pose proof (ent_off_range _ _ _ Hb Hc). destruct Hb as [Hb _], Hc as [Hc Hi].
  cbn [ent_off ent_len] in *.
  destruct (seek_write (c * 2) (le_bytes 2 raw) d bs pos Hd) as (d' & Hw & Hd');
    [lia|by rewrite length_le_bytes|].
  exists d', (splice (c * 2) (le_bytes 2 raw) bs). eexists. split; [|split; [exact Hd'|]].
  - unfold fat16_set_raw. rewrite chk_in by lia. run_refl. rewrite cast_in by lia. exact Hw.
  - destruct (splice_le_ok 2 (c * 2) raw bs) as [Hf Hlen]; [done|lia..|].
    split; [done|]. split; [done|]. intros i Hi0. rewrite splice_le_bit by (done || lia).
    cbn [bits_per_fat_entry]. change (8 * Z.of_nat 2) with 16. by replace (8 * (c * 2)) with (16 * c) by lia.
Qed.

Lemma fat32_set_raw_spec c raw d bs pos :
  table_ok bs → in_table Fat32 bs c → stream_rep d bs pos →
  ∃ d' bs' pos', fat32_set_raw c raw d = Ok (IoOk tt, d') ∧ stream_rep d' bs' pos' ∧
    entry_written Fat32 bs c raw bs'.
Proof.
  intros Hb Hc Hd. pose proof (ent_off_range _ _ _ Hb Hc). destruct Hb as [Hb _], Hc as [Hc Hi].
  cbn [ent_off ent_len] in *.
  destruct (seek_write (c * 4) (le_bytes 4 raw) d bs pos Hd) as (d' & Hw & Hd');
    [lia|by rewrite length_le_bytes|].
  exists d', (splice (c * 4) (le_bytes 4 raw) bs). eexists. split; [|split; [exact Hd'|]].
  - unfold fat32_set_raw. rewrite chk_in by lia. run_refl. exact Hw.
  - destruct (splice_le_ok 4 (c * 4) raw bs) as [Hf Hlen]; [done|lia..|].
    split; [done|]. split; [done|]. intros i Hi0. rewrite splice_le_bit by (done || lia).
    cbn [bits_per_fat_entry]. change (8 * Z.of_nat 4) with 32. by replace (8 * (c * 4)) with (32 * c) by lia.
Qed.

(** The word [set_raw] writes for a twelve-bit entry: the other four bits are the
    neighbour's. *)
Definition repack (c old raw : Z) : Z :=
  if Z.land c 1 =? 0 then Z.lor (Z.land old 0xF000) (cast 16 raw)
  else Z.lor (Z.land old 0x000F) (shl 16 (cast 16 raw) 4).

Lemma repack_bit c old raw i : 0 ≤ raw < 2 ^ 12 → 0 ≤ i < 16 →
  Z.testbit (repack c old raw) i =
    let lo := if Z.land c 1 =? 0 then 0 else 4 in
    if (lo <=? i) && (i <? lo + 12) then Z.testbit raw (i - lo) else Z.testbit old i.
Proof.
  intros Hr Hi. unfold repack. rewrite cast_in by lia. cbv zeta.
  assert (∀ j, 12 ≤ j → Z.testbit raw j = false) as Hhigh by (apply testbit_range; lia).
  destruct (Z.land c 1 =? 0).
  - change 0xF000 with (Z.shiftl (2 ^ 4 - 1) 12). rewrite Z.lor_spec, Z.land_spec, Z.shiftl_spec by lia.
    rewrite Z.sub_0_r, Z.add_0_l. destruct (decide (i < 12)).
    + rewrite (Z.testbit_neg_r _ (i - 12)), andb_false_r by lia. by replace (_ && _) with true by lia.
    + rewrite (Hhigh i), orb_false_r by lia. replace ((0 <=? i) && (i <? 12)) with false by lia.
      change (2 ^ 4 - 1) with (Z.ones 4). by rewrite Z.ones_spec_low, andb_true_r by lia.
  - rewrite shl_mul by lia. rewrite <- Z.shiftl_mul_pow2 by lia.
    change 0x000F with (Z.ones 4). rewrite Z.lor_spec, Z.land_spec, Z.shiftl_spec by lia.
    destruct (decide (i < 4)).
    + rewrite (Z.testbit_neg_r _ (i - 4)), orb_false_r by lia. rewrite Z.ones_spec_low, andb_true_r by lia.
      by replace (_ && _) with false by lia.
    + rewrite Z.ones_spec_high, andb_false_r by lia. by replace (_ && _) with true by lia.
Qed.

Lemma fat12_set_raw_spec c raw d bs pos :
  table_ok bs → in_table Fat12 bs c → 0 ≤ raw < 2 ^ 12 → stream_rep d bs pos →
  ∃ d' bs' pos', fat12_set_raw c raw d = Ok (IoOk tt, d') ∧ stream_rep d' bs' pos' ∧
    entry_written Fat12 bs c raw bs'.
Proof.
  intros Hb Hc Hr Hd. pose proof (ent_off_range _ _ _ Hb Hc) as Ho.
  pose proof (ent_off_bits Fat12 c ltac:(apply Hc)) as Hbits. destruct Hb as [Hb _], Hc as [Hc Hi].
  cbn [ent_len bits_per_fat_entry] in *. set (off := ent_off Fat12 c) in *.
  destruct (stream_seek d bs pos off Hd) as (d1 & H1 & Hd1); [lia|].
  destruct (read_exact_spec d1 bs off 2 Hd1) as (d2 & H2 & Hd2); [lia..|].
  set (old := le_value (slice off 2 bs)).
  destruct (seek_write off (le_bytes 2 (repack c old raw)) d2 bs _ Hd2) as (d' & Hw & Hd');
    [lia|by rewrite length_le_bytes|].
  exists d', (splice off (le_bytes 2 (repack c old raw)) bs). eexists. split; [|split; [exact Hd'|]].
  - unfold fat12_set_raw. change (c + c `div` 2) with off. rewrite chk_in by lia. run_refl.
    unfold seek_to at 1. rewrite (try_ok _ _ _ _ _ H1). unfold read_u16, read_le.
    rewrite try_assoc, (try_ok _ _ _ _ _ H2), try_id. exact Hw.
  - destruct (splice_le_ok 2 off (repack c old raw) bs) as [Hf Hlen]; [done|lia..|].
    split; [done|]. split; [done|]. intros i Hi0. rewrite splice_le_bit by (done || lia).
    change (8 * Z.of_nat 2) with 16. cbn [bits_per_fat_entry]. pose proof (Z.mod_pos_bound c 2).
    destruct ((8 * off <=? i) && (i <? 8 * off + 16)) eqn:E.
    + rewrite repack_bit by lia. cbv zeta. rewrite land_1_odd.
      destruct (Z.eqb_spec (c `mod` 2) 0) as [E2|E2].
      * rewrite E2 in Hbits. destruct ((0 <=? i - 8 * off) && (i - 8 * off <? 0 + 12)) eqn:E3.
        -- replace ((12 * c <=? i) && (i <? 12 * c + 12)) with true by lia. f_equal. lia.
        -- replace ((12 * c <=? i) && (i <? 12 * c + 12)) with false by lia.
           unfold old. rewrite slice_bit by (done || lia).
           change (8 * Z.of_nat 2) with 16. replace (i - 8 * off <? 16) with true by lia.
           cbn [andb]. f_equal. lia.
      * replace (c `mod` 2) with 1 in Hbits by lia.
        destruct ((4 <=? i - 8 * off) && (i - 8 * off <? 4 + 12)) eqn:E3.
        -- replace ((12 * c <=? i) && (i <? 12 * c + 12)) with true by lia. f_equal. lia.
        -- replace ((12 * c <=? i) && (i <? 12 * c + 12)) with false by lia.
           unfold old. rewrite slice_bit by (done || lia).
           change (8 * Z.of_nat 2) with 16. replace (i - 8 * off <? 16) with true by lia.
           cbn [andb]. f_equal. lia.
    + replace ((12 * c <=? i) && (i <? 12 * c + 12)) with false by lia. done.
Qed.

(** What [write_fat] does to the table. *)
Record updated (t : FatType) (bs : list Z) (c : Z) (v : FatValue) (bs' : list Z) : Prop := {
  up_ok : table_ok bs';
  up_len : length bs' = length bs;
  up_value : fat_value t bs' c = v;
  up_other c' : 0 ≤ c' → c' ≠ c → raw_entry t bs' c' = raw_entry t bs c';
}.

Lemma fat12_decode_encode v : storable Fat12 0 v →
  0 ≤ fat12_encode v < 2 ^ 12 ∧ fat12_decode (fat12_encode v) = v.
Proof.
  intros [_ H]. cbn [cluster_limit] in H. destruct v as [|n| |]; cbn [fat12_encode]; try (split; [lia|done]).
  rewrite cast_in by lia. split; [lia|]. unfold fat12_decode.
  replace (n =? 0) with false by lia. replace (n =? 0xFF7) with false by lia.
  by replace ((0xFF8 <=? n) && (n <=? 0xFFF)) with false by lia.
Qed.

Lemma fat16_decode_encode v : storable Fat16 0 v →
  0 ≤ fat16_encode v < 2 ^ 16 ∧ fat16_decode (fat16_encode v) = v.
Proof.
  intros [_ H]. cbn [cluster_limit] in H. destruct v as [|n| |]; cbn [fat16_encode]; try (split; [lia|done]).
  rewrite cast_in by lia. split; [lia|]. unfold fat16_decode.
  replace (n =? 0) with false by lia. replace (n =? 0xFFF7) with false by lia.
  by replace ((0xFFF8 <=? n) && (n <=? 0xFFFF)) with false by lia.
Qed.

Lemma fat32_decode_encode c v : storable Fat32 c v →
  0 ≤ fat32_encode v < 2 ^ 28 ∧ fat32_decode c (fat32_encode v) = v.
Proof.
  intros [Hc H]. specialize (Hc eq_refl). cbn [cluster_limit] in H. unfold fat32_decode, special.
  replace ((0x0FFFFFF7 <=? c) && (c <=? 0x0FFFFFFF)) with false by lia.
  destruct v as [|n| |]; cbn [fat32_encode]; try (split; [lia|done]). rewrite andb_false_r.
  split; [lia|]. replace (n =? 0) with false by lia. replace (n =? 0x0FFFFFF7) with false by lia.
  by replace ((0x0FFFFFF8 <=? n) && (n <=? 0x0FFFFFFF)) with false by lia.
Qed.

(** The four reserved bits of a FAT32 entry and its value. *)
Lemma fat32_raw_split v old : 0 ≤ v < 2 ^ 28 → 0 ≤ old < 2 ^ 32 →
  let raw := Z.lor v (Z.land old 0xF0000000) in
  0 ≤ raw < 2 ^ 32 ∧ Z.land raw 0x0FFFFFFF = v ∧ Z.land raw 0xF0000000 = Z.land old 0xF0000000.
Proof.
  intros Hv Ho raw. change 0xF0000000 with (Z.shiftl (Z.ones 4) 28) in *.
  change 0x0FFFFFFF with (Z.ones 28) in *.
  assert (∀ j, 28 ≤ j → Z.testbit v j = false) as Hvh by (apply testbit_range; lia).
  assert (∀ j, 32 ≤ j → Z.testbit old j = false) as Hoh by (apply testbit_range; lia).
  assert (0 ≤ raw) by (apply Z.lor_nonneg; split; [lia|apply Z.land_nonneg; left; lia]).
  split; [split; [done|]|split].
  - apply testbit_bound; [lia|done|]. intros i Hi. unfold raw.
    by rewrite Z.lor_spec, Z.land_spec, Hvh, Hoh by lia.
  - apply Z.bits_inj'. intros i Hi. unfold raw.
    rewrite Z.land_spec, Z.lor_spec, Z.land_spec, Z.shiftl_spec by lia. destruct (decide (i < 28)).
    + rewrite (Z.ones_spec_low 28), (Z.testbit_neg_r _ (i - 28)) by lia.
      by rewrite andb_false_r, orb_false_r, andb_true_r.
    + by rewrite (Z.ones_spec_high 28), andb_false_r, Hvh by lia.
  - apply Z.bits_inj'. intros i Hi. unfold raw.
    rewrite !Z.land_spec, Z.lor_spec, Z.land_spec, Z.shiftl_spec by lia. destruct (decide (i < 28)).
    + by rewrite (Z.testbit_neg_r _ (i - 28)), !andb_false_r by lia.
    + rewrite Hvh by lia. cbn [orb]. by destruct (Z.testbit old i), (Z.testbit (Z.ones 4) (i - 28)).
Qed.

Lemma raw_entry_range t bs c : Forall is_byte bs → 0 ≤ c → 0 ≤ raw_entry t bs c < 2 ^ bits_per_fat_entry t.
Proof.
  intros Hb Hc. split; [by apply raw_entry_nonneg|]. apply testbit_bound.
  - destruct t; cbn; lia.
  - by apply raw_entry_nonneg.
  - intros i Hi. assert (0 < bits_per_fat_entry t) by (destruct t; cbn; lia).
    rewrite raw_entry_bit by (done || lia). by replace (i <? bits_per_fat_entry t) with false by lia.
Qed.

Lemma entry_written_updated t bs c raw bs' v :
  table_ok bs → 0 ≤ c → 0 ≤ raw < 2 ^ bits_per_fat_entry t → entry_written t bs c raw bs' →
  match t with
  | Fat12 => fat12_decode raw
  | Fat16 => fat16_decode raw
  | Fat32 => fat32_decode c (Z.land raw 0x0FFFFFFF)
  end = v →
  updated t bs c v bs'.
Proof.
  intros [Hb Hl] Hc Hr He Hv. pose proof (entry_written_same t bs c raw bs' Hb Hc Hr He) as Hs.
  split.
  - split; [apply He|]. destruct He as (_ & -> & _). done.
  - apply He.
  - unfold fat_value. by rewrite Hs.
  - intros c' Hc' Hne. by apply (entry_written_other t bs c raw).
Qed.

Lemma write_fat_spec t c v d bs pos :
  table_ok bs → in_table t bs c → storable t c v → stream_rep d bs pos →
  ∃ d' bs' pos', write_fat t c v d = Ok (IoOk tt, d') ∧ stream_rep d' bs' pos' ∧ updated t bs c v bs' ∧
    (t = Fat32 → Z.land (raw_entry t bs' c) 0xF0000000 = Z.land (raw_entry t bs c) 0xF0000000).
Proof.
  intros Hb Hc Hs Hd. destruct t; cbn [write_fat].
  - destruct (fat12_decode_encode v) as [Hr Hv]; [split; [done|apply Hs]|].
    destruct (fat12_set_raw_spec c (fat12_encode v) d bs pos Hb Hc Hr Hd) as (d' & bs' & pos' & H & Hd' & He).
    exists d', bs', pos'. split_and!; [done|done| |done].
    apply (entry_written_updated Fat12 bs c _ bs' v Hb ltac:(apply Hc) Hr He Hv).
  - destruct (fat16_decode_encode v) as [Hr Hv]; [split; [done|apply Hs]|].
    destruct (fat16_set_raw_spec c (fat16_encode v) d bs pos Hb Hc Hr Hd) as (d' & bs' & pos' & H & Hd' & He).
    exists d', bs', pos'. split_and!; [done|done| |done].
    apply (entry_written_updated Fat16 bs c _ bs' v Hb ltac:(apply Hc) Hr He Hv).
  - destruct (fat32_decode_encode c v Hs) as [Hr Hv].
    destruct (get_raw_spec Fat32 c d bs pos Hb Hc Hd) as (d1 & pos1 & H1 & Hd1). cbn [get_raw] in H1.
    pose proof (raw_entry_range Fat32 bs c ltac:(apply Hb) ltac:(apply Hc)) as Ho.
    destruct (fat32_raw_split (fat32_encode v) (raw_entry Fat32 bs c) Hr Ho) as (Hraw & Hlow & Hhigh).
    destruct (fat32_set_raw_spec c (Z.lor (fat32_encode v) (Z.land (raw_entry Fat32 bs c) 0xF0000000))
                d1 bs pos1 Hb Hc Hd1) as (d' & bs' & pos' & H & Hd' & He).
    exists d', bs', pos'. split_and!; [|done| |].
    + unfold fat32_set. rewrite (try_ok _ _ _ _ _ H1). unfold special.
      destruct Hs as [Hs _]. specialize (Hs eq_refl).
      replace ((0x0FFFFFF7 <=? c) && (c <=? 0x0FFFFFFF)) with false by lia. by rewrite andb_false_r.
    + apply (entry_written_updated Fat32 bs c _ bs' v Hb ltac:(apply Hc) Hraw He). by rewrite Hlow.
    + intros _. by rewrite (entry_written_same Fat32 bs c _ bs' ltac:(apply Hb) ltac:(apply Hc) Hraw He).
Qed.

(** *** Searching *)

Definition free_entry (t : FatType) (bs : list Z) (c : Z) : bool :=
  match t with
  | Fat32 => Z.land (raw_entry t bs c) 0x0FFFFFFF =? 0
  | _ => raw_entry t bs c =? 0
  end.
Fixpoint first_free (t : FatType) (bs : list Z) (l : list Z) : option Z :=
  match l with
  | [] => None
  | c :: l => if free_entry t bs c then Some c else first_free t bs l
  end.
Definition found (o : option Z) : ioresult Z :=
  match o with Some c => IoOk c | None => IoErr OtherError end.

Lemma first_free_Some t bs l c : first_free t bs l = Some c → c ∈ l ∧ free_entry t bs c = true.
Proof.
  induction l as [|a l IH]; cbn; [done|]. destruct (free_entry t bs a) eqn:E.
  - intros [= ->]. split; [left|done].
  - intros H. destruct (IH H). split; [by right|done].
Qed.

Lemma first_free_None t bs l c : first_free t bs l = None → c ∈ l → free_entry t bs c = false.
Proof.
  induction l as [|a l IH]; cbn; [intros _ H; by apply elem_of_nil in H|].
  destruct (free_entry t bs a) eqn:E; [done|]. intros H Hc.
  apply elem_of_cons in Hc as [->|Hc]; auto.
Qed.

Lemma free_entry_value t bs c : table_ok bs → 0 ≤ c → (t = Fat32 → c < 0x0FFFFFF7) →
  free_entry t bs c = true ↔ fat_value t bs c = Free.
Proof.
  intros [Hb _] Hc Hs. pose proof (raw_entry_range t bs c Hb Hc) as Hr. unfold free_entry, fat_value.
  rewrite ?Z.eqb_eq. destruct t; cbn [bits_per_fat_entry] in Hr; rewrite ?Z.eqb_eq;
    unfold fat12_decode, fat16_decode, fat32_decode.
  - destruct (Z.eqb_spec (raw_entry Fat12 bs c) 0) as [->|]; [done|]. repeat case_match; naive_solver.
  - destruct (Z.eqb_spec (raw_entry Fat16 bs c) 0) as [->|]; [done|]. repeat case_match; naive_solver.
  - specialize (Hs eq_refl). unfold special.
    replace ((0x0FFFFFF7 <=? c) && (c <=? 0x0FFFFFFF)) with false by lia.
    destruct (Z.eqb_spec (Z.land (raw_entry Fat32 bs c) 0x0FFFFFFF) 0) as [->|]; [done|].
    cbn [andb]. repeat case_match; naive_solver.
Qed.

Lemma read_le_at n d bs pos :
  stream_rep d bs pos → pos + Z.of_nat n ≤ Z.of_nat (length bs) → Z.of_nat n < 2 ^ 64 →
  ∃ d', read_le (Z.of_nat n) d = Ok (IoOk (le_value (slice pos n bs)), d') ∧
    stream_rep d' bs (pos + Z.of_nat n).
Proof.
  intros Hd Hl Hn. destruct (read_exact_spec d bs pos (Z.of_nat n) Hd) as (d2 & H2 & Hd2); [lia..|].
  exists d2. split; [|done]. unfold read_le. by rewrite (try_ok _ _ _ _ _ H2), Nat2Z.id.
Qed.

Lemma in_table_mono t bs c c' : 0 ≤ c ≤ c' → in_table t bs c' → in_table t bs c.
Proof.
  intros Hc [Hc' H]. split; [lia|]. enough (ent_off t c ≤ ent_off t c') by lia.
  destruct t; cbn; [pose proof (Z.div_le_mono c c' 2)|..]; lia.
Qed.

Lemma fat32_find_loop_spec bs e n : ∀ d c,
  Z.to_nat (e - c) = n → 0 ≤ c → (c < e → in_table Fat32 bs (e - 1)) → stream_rep d bs (c * 4) →
  ∃ d' pos', fat32_find_loop (range c e) d = Ok (found (first_free Fat32 bs (range c e)), d') ∧
    stream_rep d' bs pos'.
Proof.
  induction n as [|n IH]; intros d c Hn Hc Hi Hd.
  { rewrite range_nil by lia. by exists d, (c * 4). }
  rewrite range_cons by lia. cbn [fat32_find_loop first_free].
  destruct (in_table_mono Fat32 bs c (e - 1)) as [_ Hlen]; [lia|apply Hi; lia|]. cbn [ent_off ent_len] in Hlen.
  destruct (read_le_at 4 d bs (c * 4) Hd) as (d1 & H1 & Hd1); [done..|].
  rewrite (try_ok _ _ _ _ _ H1). unfold free_entry. cbn [raw_entry ent_off ent_len].
  change (raw_entry Fat32 bs c) with (le_value (slice (c * 4) 4 bs)).
  destruct (_ =? 0); [by exists d1, (c * 4 + 4)|].
  apply (IH d1 (c + 1)); [lia|lia|intros; apply Hi; lia|]. by replace ((c + 1) * 4) with (c * 4 + 4) by lia.
Qed.

Lemma fat16_find_loop_spec bs e n : ∀ d c,
  Z.to_nat (e - c) = n → 0 ≤ c → (c < e → in_table Fat16 bs (e - 1)) → stream_rep d bs (c * 2) →
  ∃ d' pos', fat16_find_loop (range c e) d = Ok (found (first_free Fat16 bs (range c e)), d') ∧
    stream_rep d' bs pos'.
Proof.
  induction n as [|n IH]; intros d c Hn Hc Hi Hd.
  { rewrite range_nil by lia. by exists d, (c * 2). }
  rewrite range_cons by lia. cbn [fat16_find_loop first_free].
  destruct (in_table_mono Fat16 bs c (e - 1)) as [_ Hlen]; [lia|apply Hi; lia|]. cbn [ent_off ent_len] in Hlen.
  destruct (read_le_at 2 d bs (c * 2) Hd) as (d1 & H1 & Hd1); [done..|].
  rewrite (try_ok _ _ _ _ _ H1). unfold free_entry.
  change (raw_entry Fat16 bs c) with (le_value (slice (c * 2) 2 bs)).
  destruct (_ =? 0); [by exists d1, (c * 2 + 2)|].
  apply (IH d1 (c + 1)); [lia|lia|intros; apply Hi; lia|]. by replace ((c + 1) * 2) with (c * 2 + 2) by lia.
Qed.

(** The next packed word of a FAT12 table from the last one. *)
Lemma next_packed bs off : table_ok bs → 0 ≤ off → off + 3 ≤ Z.of_nat (length bs) →
  le_value (slice (off + 1) 2 bs) =
    Z.lor (Z.shiftr (le_value (slice off 2 bs)) 8) (shl 16 (le_value (slice (off + 2) 1 bs)) 8).
Proof.
  intros [Hb _] Ho Hl. apply Z.bits_inj'. intros i Hi.
  rewrite slice_bit by (done || lia). rewrite Z.lor_spec, Z.shiftr_spec, slice_bit by (done || lia).
  pose proof (le_value_range (slice (off + 2) 1 bs) ltac:(by apply Forall_slice)) as Hr.
  rewrite length_slice in Hr by lia. change (8 * Z.of_nat 1) with 8 in Hr.
  rewrite shl_mul by lia. rewrite <- Z.shiftl_mul_pow2, Z.shiftl_spec by lia.
  change (8 * Z.of_nat 2) with 16. destruct (decide (i < 8)).
  - rewrite (Z.testbit_neg_r _ (i - 8)), orb_false_r by lia.
    replace (i <? 16) with true by lia. replace (i + 8 <? 16) with true by lia. cbn [andb]. f_equal. lia.
  - replace (i + 8 <? 16) with false by lia. cbn [andb orb]. rewrite slice_bit by (done || lia).
    change (8 * Z.of_nat 1) with 8. replace (i - 8 <? 8) with (i <? 16) by lia. do 2 f_equal. lia.
Qed.

Lemma ent_off12_next c : 0 ≤ c → ent_off Fat12 (c + 1) = ent_off Fat12 c + 1 + c `mod` 2.
Proof.
  intros. cbn [ent_off]. pose proof (Z.div_mod c 2). pose proof (Z.div_mod (c + 1) 2).
  pose proof (Z.mod_pos_bound c 2). pose proof (Z.mod_pos_bound (c + 1) 2). lia.
Qed.

Lemma fat12_find_loop_spec bs e : table_ok bs → e < 2 ^ 32 → ∀ fuel d c,
  0 ≤ c < e → (Z.to_nat (e - c) ≤ fuel)%nat → in_table Fat12 bs (e - 1) →
  stream_rep d bs (ent_off Fat12 c + 2) →
  ∃ d' pos', fat12_find_loop fuel c (le_value (slice (ent_off Fat12 c) 2 bs)) e d =
      Ok (found (first_free Fat12 bs (range c e)), d') ∧ stream_rep d' bs pos'.
Proof.
  intros Hb He. induction fuel as [|fuel IH]; intros d c Hc Hf Hi Hd; [lia|].
  rewrite range_cons by lia. cbn [fat12_find_loop first_free]. unfold free_entry.
  change (raw_entry Fat12 bs c) with (fat12_packed c (le_value (slice (ent_off Fat12 c) 2 bs))).
  destruct (_ =? 0); [by exists d, (ent_off Fat12 c + 2)|].
  rewrite chk_in by lia. run_refl. destruct (Z.eqb_spec (c + 1) e) as [->|Hne].
  { rewrite range_nil by lia. by exists d, (ent_off Fat12 c + 2). }
  destruct (in_table_mono Fat12 bs (c + 1) (e - 1)) as [_ Hlen]; [lia|done|]. cbn [ent_len] in Hlen.
  assert (0 ≤ ent_off Fat12 c) by (cbn; pose proof (Z.div_pos c 2); lia).
  rewrite land_1_odd. pose proof (Z.mod_pos_bound c 2). pose proof (ent_off12_next c ltac:(lia)) as Hn.
  assert ((c + 1) `mod` 2 = 1 - c `mod` 2) as ->
    by (pose proof (Z.div_mod c 2); pose proof (Z.div_mod (c + 1) 2); pose proof (Z.mod_pos_bound (c + 1) 2); lia).
  destruct (Z.eqb_spec (1 - c `mod` 2) 0) as [E|E].
  - replace (c `mod` 2) with 1 in Hn by lia. replace (ent_off Fat12 c + 2) with (ent_off Fat12 (c + 1)) in Hd by lia.
    destruct (read_le_at 2 d bs _ Hd) as (d1 & H1 & Hd1); [lia|done|].
    rewrite (try_ok _ _ _ _ _ H1). apply IH; [lia|lia|done|done].
  - replace (c `mod` 2) with 0 in Hn by lia.
    destruct (read_le_at 1 d bs _ Hd) as (d1 & H1 & Hd1); [lia|done|].
    rewrite try_assoc. unfold read_u8. rewrite (try_ok _ _ _ _ _ H1), try_id, <- next_packed by (done || lia).
    replace (ent_off Fat12 c + 1) with (ent_off Fat12 (c + 1)) by lia.
    apply IH; [lia|lia|done|]. by replace (ent_off Fat12 (c + 1) + 2) with (ent_off Fat12 c + 2 + Z.of_nat 1) by lia.
Qed.

(** [find_free_cluster] returns the first free entry of the range, or an error
    when there is none. *)
Lemma find_free_spec t a e d bs pos :
  table_ok bs → 0 ≤ a < e → e < 2 ^ 32 → in_table t bs (e - 1) → stream_rep d bs pos →
  ∃ d' pos', find_free_cluster t a e d = Ok (found (first_free t bs (range a e)), d') ∧
    stream_rep d' bs pos'.
Proof.
  intros Hb Ha He Hi Hd. pose proof (in_table_mono t bs a (e - 1) ltac:(lia) Hi) as Hia.
  pose proof (ent_off_range t bs a Hb Hia) as Ho. destruct Hia as [_ Hlen].
  destruct (stream_seek d bs pos (ent_off t a) Hd) as (d1 & H1 & Hd1); [lia|].
  destruct t; cbn [find_free_cluster];
    unfold fat12_find_free, fat16_find_free, fat32_find_free; cbn [ent_off] in Ho, H1, Hd1;
    rewrite chk_in by lia; run_refl; unfold seek_to; rewrite (try_ok _ _ _ _ _ H1).
  - destruct (read_le_at 2 d1 bs _ Hd1) as (d2 & H2 & Hd2); [exact Hlen|done|].
    unfold read_u16. rewrite (try_ok _ _ _ _ _ H2).
    apply fat12_find_loop_spec; [done|done|done|lia|done|done].
  - eapply fat16_find_loop_spec; [reflexivity|lia|done|done].
  - eapply fat32_find_loop_spec; [reflexivity|lia|done|done].
Qed.

(** *** Allocation *)

Definition live (total c : Z) : Prop := RESERVED_FAT_ENTRIES ≤ c < total + RESERVED_FAT_ENTRIES.

(** A table with an entry for each of [total] clusters. *)
Record fat_for (t : FatType) (bs : list Z) (total : Z) : Prop := {
  ff_ok : table_ok bs;
  ff_total : 1 ≤ total ∧ total + RESERVED_FAT_ENTRIES ≤ cluster_limit t;
  ff_in : in_table t bs (total + RESERVED_FAT_ENTRIES - 1);
}.

Lemma cluster_limit_32 t : cluster_limit t < 2 ^ 28.
Proof. by destruct t. Qed.

Lemma fat_for_in t bs total c : fat_for t bs total → live total c →
  in_table t bs c ∧ (t = Fat32 → c < 0x0FFFFFF7) ∧ 1 ≤ c < cluster_limit t.
Proof.
  intros [] [Hc1 Hc2]. unfold RESERVED_FAT_ENTRIES in *. split_and!; [|intros ->; cbn in *; lia|lia..].
  eapply in_table_mono; [|done]. lia.
Qed.

Lemma fat_for_updated t bs total c v bs' : fat_for t bs total → updated t bs c v bs' → fat_for t bs' total.
Proof.
  intros [] []. split; [done|done|]. unfold in_table in *. by rewrite up_len0.
Qed.

Lemma updated_value t bs c v bs' c' : updated t bs c v bs' → 0 ≤ c' →
  fat_value t bs' c' = if decide (c' = c) then v else fat_value t bs c'.
Proof.
  intros [] Hc'. case_decide as E; [by subst|]. unfold fat_value. by rewrite up_other0.
Qed.

Definition alloc_start (hint : option Z) (total : Z) : Z :=
  match hint with
  | Some n => if n <? total + RESERVED_FAT_ENTRIES then n else RESERVED_FAT_ENTRIES
  | None => RESERVED_FAT_ENTRIES
  end.

(** The two searches of [alloc_cluster]: from the hint to the end, then from the
    first cluster to the hint. *)
Lemma alloc_search t bs hint total d pos :
  fat_for t bs total → (∀ n, hint = Some n → RESERVED_FAT_ENTRIES ≤ n) → stream_rep d bs pos →
  let start := alloc_start hint total in
  ∃ r d' pos',
    (r ← find_free_cluster t start (total + RESERVED_FAT_ENTRIES);
     match r with
     | IoOk n => ok n
     | IoErr e =>
         if RESERVED_FAT_ENTRIES <? start then find_free_cluster t RESERVED_FAT_ENTRIES start else err e
     end) d = Ok (found r, d') ∧ stream_rep d' bs pos' ∧
    match r with
    | Some c => live total c ∧ fat_value t bs c = Free
    | None => ∀ c, live total c → fat_value t bs c ≠ Free
    end.
Proof.
  intros Hf Hh Hd start. pose proof Hf as [Hok [Ht1 Ht2] Hin]. pose proof (cluster_limit_32 t).
  unfold live, RESERVED_FAT_ENTRIES in *.
  assert (2 ≤ start < total + 2) as Hs.
  { unfold start, alloc_start, RESERVED_FAT_ENTRIES. destruct hint as [n|]; [|lia].
    specialize (Hh n eq_refl). destruct (Z.ltb_spec n (total + 2)); lia. }
  assert (∀ c, 2 ≤ c < total + 2 → free_entry t bs c = true ↔ fat_value t bs c = Free) as Hfree.
  { intros c Hc. apply free_entry_value; [done|lia|]. eapply (fat_for_in t bs total); done. }
  destruct (find_free_spec t start (total + 2) d bs pos) as (d1 & pos1 & H1 & Hd1); [done|lia|lia|done|done|].
  destruct (first_free t bs (range start (total + 2))) as [c|] eqn:E1.
  { apply first_free_Some in E1 as [Hc Hv]. apply elem_of_range in Hc.
    exists (Some c), d1, pos1. run H1. split; [done|]. split; [done|]. split; [lia|]. apply Hfree; [lia|done]. }
  destruct (Z.ltb_spec 2 start) as [Hlt|Hge].
  - destruct (find_free_spec t 2 start d1 bs pos1) as (d2 & pos2 & H2 & Hd2);
      [done|lia|lia|eapply in_table_mono; [|done]; lia|done|].
    exists (first_free t bs (range 2 start)), d2, pos2. run H1. cbn [found].
    split; [exact H2|]. split; [done|].
    destruct (first_free t bs (range 2 start)) as [c|] eqn:E2.
    + apply first_free_Some in E2 as [Hc Hv]. apply elem_of_range in Hc.
      split; [lia|]. apply Hfree; [lia|done].
    + intros c Hc Hv. apply Hfree in Hv; [|done]. destruct (decide (c < start)).
      * rewrite (first_free_None _ _ _ c E2) in Hv; [done|]. apply elem_of_range. lia.
      * rewrite (first_free_None _ _ _ c E1) in Hv; [done|]. apply elem_of_range. lia.
  - exists None, d1, pos1. run H1. split; [done|]. split; [done|].
    intros c Hc Hv. apply Hfree in Hv; [|done].
    rewrite (first_free_None _ _ _ c E1) in Hv; [done|]. apply elem_of_range. lia.
Qed.

(** What an allocation does to the table. *)
Definition allocated (t : FatType) (bs : list Z) (prev : option Z) (c : Z) (bs' : list Z) : Prop :=
  ∀ c', 0 ≤ c' → fat_value t bs' c' =
    if decide (prev = Some c') then Data c
    else if decide (c' = c) then EndOfChain
    else fat_value t bs c'.

Lemma alloc_cluster_spec t prev hint total d bs pos :
  fat_for t bs total → (∀ n, hint = Some n → RESERVED_FAT_ENTRIES ≤ n) →
  (∀ p, prev = Some p → live total p) → stream_rep d bs pos →
  (∃ c d' bs' pos', alloc_cluster t prev hint total d = Ok (IoOk c, d') ∧ stream_rep d' bs' pos' ∧
     live total c ∧ fat_value t bs c = Free ∧ allocated t bs prev c bs' ∧
     fat_for t bs' total ∧ length bs' = length bs) ∨
  ((∀ c, live total c → fat_value t bs c ≠ Free) ∧
   ∃ d' pos', alloc_cluster t prev hint total d = Ok (IoErr OtherError, d') ∧ stream_rep d' bs pos').
Proof.
  intros Hf Hh Hp Hd. pose proof Hf as [Hok [Ht1 Ht2] Hin]. pose proof (cluster_limit_32 t).
  destruct (alloc_search t bs hint total d pos Hf Hh Hd) as (r & d1 & pos1 & H1 & Hd1 & Hr).
  unfold alloc_cluster. rewrite chk_in by (unfold RESERVED_FAT_ENTRIES in *; lia).
  run_refl. change (match hint with Some n => _ | None => _ end) with (alloc_start hint total). cbv zeta in H1 |- *.
  rewrite try_bind. destruct r as [c|]; cbn [found] in H1.
  - left. rewrite (try_ok _ _ _ _ _ H1). destruct Hr as [Hc Hv]. destruct (fat_for_in _ _ _ _ Hf Hc) as (Hic & Hsp & Hcl).
    destruct (write_fat_spec t c EndOfChain d1 bs pos1 Hok Hic) as (d2 & bs2 & pos2 & H2 & Hd2 & Hu2 & _);
      [by split|done|]. rewrite (try_ok _ _ _ _ _ H2).
    pose proof (fat_for_updated _ _ _ _ _ _ Hf Hu2) as Hf2.
    destruct prev as [p|].
    + specialize (Hp p eq_refl). destruct (fat_for_in _ _ _ _ Hf2 Hp) as (Hip & Hspp & _).
      destruct (write_fat_spec t p (Data c) d2 bs2 pos2 ltac:(apply Hf2) Hip) as (d3 & bs3 & pos3 & H3 & Hd3 & Hu3 & _);
        [by split|done|]. rewrite (try_ok _ _ _ _ _ H3).
      exists c, d3, bs3, pos3. split_and!; [done|done|apply Hc..|done| |by eapply fat_for_updated|
        rewrite (up_len _ _ _ _ _ Hu3); apply Hu2].
      intros c' Hc'. rewrite (updated_value _ _ _ _ _ _ Hu3 Hc'), (updated_value _ _ _ _ _ _ Hu2 Hc').
      repeat case_decide; congruence.
    + exists c, d2, bs2, pos2. split_and!; [done|done|apply Hc..|done| |done|apply Hu2].
      intros c' Hc'. rewrite (updated_value _ _ _ _ _ _ Hu2 Hc'). by repeat case_decide.
  - right. split; [done|]. exists d1, pos1. by rewrite (try_err _ _ _ _ _ H1).
Qed.

(** *** Chains *)

Definition next_of (v : FatValue) : option Z := match v with Data n => Some n | _ => None end.

(** [l] lists the clusters of a chain in order. *)
Fixpoint chain (t : FatType) (bs : list Z) (l : list Z) : Prop :=
  match l with
  | [] => True
  | c :: l => next_of (fat_value t bs c) = head l ∧ chain t bs l
  end.

Lemma chain_same t bs bs' l :
  (∀ c, c ∈ l → fat_value t bs' c = fat_value t bs c) → chain t bs l → chain t bs' l.
Proof.
  induction l as [|c l IH]; cbn [chain]; [done|]. intros Hs [Hn Hl]. rewrite Hs by (by left).
  split; [done|]. apply IH; [|done]. intros c' Hc'. apply Hs. by right.
Qed.

Lemma live_nodup_length total l : 0 ≤ total → Forall (live total) l → NoDup l → Z.of_nat (length l) ≤ total.
Proof.
  intros Ht Hl Hn. assert (l ⊆+ range RESERVED_FAT_ENTRIES (total + RESERVED_FAT_ENTRIES)) as Hs.
  { apply NoDup_submseteq; [done|]. intros c Hc. apply elem_of_range.
    by apply (proj1 (Forall_forall _ _) Hl). }
  apply submseteq_length in Hs. unfold range in Hs. rewrite length_seqZ in Hs. lia.
Qed.

Lemma get_next_spec t c d bs pos :
  table_ok bs → in_table t bs c → stream_rep d bs pos →
  ∃ d' pos', get_next_cluster t c d = Ok (IoOk (next_of (fat_value t bs c)), d') ∧ stream_rep d' bs pos'.
Proof.
  intros Hb Hc Hd. destruct (read_fat_spec t c d bs pos Hb Hc Hd) as (d' & pos' & H & Hd').
  exists d', pos'. split; [|done]. unfold get_next_cluster. by rewrite (try_ok _ _ _ _ _ H).
Qed.

Lemma on_fat_spec {A} (m : FatType → M T A) it a d' :
  m (ci_fat_type it) (ci_fat it) = Ok (a, d') →
  on_fat m it = Ok (a, {| ci_fat := d'; ci_fat_type := ci_fat_type it;
                          ci_cluster := ci_cluster it; ci_err := ci_err it |}).
Proof. unfold on_fat. by intros ->. Qed.

Lemma ci_next_spec t c d bs pos :
  table_ok bs → in_table t bs c → stream_rep d bs pos →
  ∃ d' pos', stream_rep d' bs pos' ∧
    ci_next {| ci_fat := d; ci_fat_type := t; ci_cluster := Some c; ci_err := false |} =
    Ok (IoOk <$> next_of (fat_value t bs c),
        {| ci_fat := d'; ci_fat_type := t; ci_cluster := next_of (fat_value t bs c); ci_err := false |}).
Proof.
  intros Hb Hc Hd. destruct (get_next_spec t c d bs pos Hb Hc Hd) as (d' & pos' & H & Hd').
  exists d', pos'. split; [done|]. unfold ci_next. run_refl. cbn [ci_err ci_cluster].
  rewrite (M_bind_eq _ _ _ _ _ (on_fat_spec (λ t, get_next_cluster t c)
    {| ci_fat := d; ci_fat_type := t; ci_cluster := Some c; ci_err := false |} _ _ H)). by run_refl.
Qed.

Lemma free_loop_spec t total : ∀ l fuel k d bs pos,
  fat_for t bs total → Forall (live total) l → NoDup l → chain t bs l → (length l ≤ fuel)%nat →
  0 ≤ k → k + Z.of_nat (length l) < 2 ^ 32 → stream_rep d bs pos →
  ∃ d' bs' pos',
    free_loop fuel k {| ci_fat := d; ci_fat_type := t; ci_cluster := head l; ci_err := false |} =
      Ok (IoOk (k + Z.of_nat (length l)),
          {| ci_fat := d'; ci_fat_type := t; ci_cluster := None; ci_err := false |}) ∧
    stream_rep d' bs' pos' ∧ fat_for t bs' total ∧ length bs' = length bs ∧
    ∀ c, 0 ≤ c → fat_value t bs' c = if decide (c ∈ l) then Free else fat_value t bs c.
Proof.
  induction l as [|c l IH]; intros fuel k d bs pos Hf Hl Hn Hc Hfu Hk Hkl Hd.
  { exists d, bs, pos. split_and!; [|done|done|done|].
    - destruct fuel; cbn; by rewrite Z.add_0_r.
    - intros c _. rewrite decide_False; [done|apply not_elem_of_nil]. }
  inversion_clear Hl as [|? ? Hlc Hll]. inversion_clear Hn as [|? ? Hni Hnl]. destruct Hc as [Hnx Hcl].
  destruct fuel as [|fuel]; [cbn in Hfu; lia|].
  destruct (fat_for_in _ _ _ _ Hf Hlc) as (Hic & Hsp & _). pose proof (ff_ok _ _ _ Hf) as Hok.
  destruct (ci_next_spec t c d bs pos Hok Hic Hd) as (d1 & pos1 & Hd1 & H1). rewrite Hnx in H1.
  destruct (write_fat_spec t c Free d1 bs pos1 Hok Hic) as (d2 & bs2 & pos2 & H2 & Hd2 & Hu & _); [by split|done|].
  assert (∀ c', c' ∈ l → fat_value t bs2 c' = fat_value t bs c') as Hsame.
  { intros c' Hc'. pose proof (proj1 (Forall_forall _ _) Hll c' Hc') as [? _]. unfold RESERVED_FAT_ENTRIES in *.
    rewrite (updated_value _ _ _ _ _ _ Hu) by lia. rewrite decide_False; [done|]. by intros ->. }
  cbn [length] in Hfu, Hkl.
  destruct (IH fuel (k + 1) d2 bs2 pos2) as (d' & bs' & pos' & H & Hd' & Hf' & Hlen' & Hv);
    [by eapply fat_for_updated|done|done|by apply (chain_same t bs)|lia|lia|lia|done|].
  exists d', bs', pos'. split_and!; [|done|done|rewrite Hlen'; apply Hu|].
  - cbn [free_loop head]. run_refl. cbn [ci_cluster]. run H1.
    rewrite (try_ok _ _ _ _ _ (on_fat_spec (λ t, write_fat t c Free)
      {| ci_fat := d1; ci_fat_type := t; ci_cluster := head l; ci_err := false |} _ _ H2)).
    rewrite chk_in by lia. run_refl. cbn [ci_fat_type ci_cluster ci_err]. rewrite H. do 3 f_equal. cbn [length]. lia.
  - intros c' Hc'. rewrite (Hv c' Hc'), (updated_value _ _ _ _ _ _ Hu Hc').
    destruct (decide (c' = c)) as [->|Hne].
    + rewrite (decide_True (P := c ∈ c :: l)) by left. by rewrite decide_False.
    + destruct (decide (c' ∈ l)) as [Hin|Hin].
      * by rewrite decide_True by (by right).
      * rewrite decide_False; [done|]. rewrite elem_of_cons. naive_solver.
Qed.

(** *** Counting *)

Definition free_count (t : FatType) (bs : list Z) (l : list Z) : Z :=
  Z.of_nat (length (filter (λ c, free_entry t bs c = true) l)).

Lemma filter_ext_in {A} (P Q : A → Prop) `{!∀ x, Decision (P x), !∀ x, Decision (Q x)} (l : list A) :
  (∀ x, x ∈ l → P x ↔ Q x) → filter P l = filter Q l.
Proof.
  induction l as [|a l IH]; intros HPQ; [done|]. rewrite !filter_cons.
  assert (P a ↔ Q a) as Ha by (apply HPQ; left). rewrite IH by (intros; apply HPQ; by right).
  repeat case_decide; naive_solver.
Qed.

Lemma free_count_cons t bs c l :
  free_count t bs (c :: l) = (if free_entry t bs c then 1 else 0) + free_count t bs l.
Proof.
  unfold free_count. rewrite filter_cons. destruct (free_entry t bs c) eqn:E.
  - rewrite decide_True by done. cbn [length]. lia.
  - rewrite decide_False by done. lia.
Qed.

Lemma fat32_count_loop_spec bs e n : ∀ d c k,
  Z.to_nat (e - c) = n → 0 ≤ c → 0 ≤ k → k + (e - c) < 2 ^ 32 → (c < e → in_table Fat32 bs (e - 1)) →
  stream_rep d bs (c * 4) →
  ∃ d' pos', fat32_count_loop (range c e) k d = Ok (IoOk (k + free_count Fat32 bs (range c e)), d') ∧
    stream_rep d' bs pos'.
Proof.
  induction n as [|n IH]; intros d c k Hn Hc Hk Hkl Hi Hd.
  { rewrite range_nil by lia. exists d, (c * 4). cbn. by rewrite Z.add_0_r. }
  rewrite range_cons, free_count_cons by lia. cbn [fat32_count_loop].
  destruct (in_table_mono Fat32 bs c (e - 1)) as [_ Hlen]; [lia|apply Hi; lia|]. cbn [ent_off ent_len] in Hlen.
  destruct (read_le_at 4 d bs (c * 4) Hd) as (d1 & H1 & Hd1); [done..|].
  rewrite (try_ok _ _ _ _ _ H1). unfold free_entry.
  change (raw_entry Fat32 bs c) with (le_value (slice (c * 4) 4 bs)).
  set (b := _ =? 0). rewrite chk_in by (destruct b; lia). run_refl.
  destruct (IH d1 (c + 1) (if b then k + 1 else k)) as (d' & pos' & H & Hd');
    [lia|lia|destruct b; lia|destruct b; lia|intros; apply Hi; lia|by replace ((c + 1) * 4) with (c * 4 + 4) by lia|].
  exists d', pos'. rewrite H. split; [|done]. do 3 f_equal. destruct b; lia.
Qed.

Lemma fat16_count_loop_spec bs e n : ∀ d c k,
  Z.to_nat (e - c) = n → 0 ≤ c → 0 ≤ k → k + (e - c) < 2 ^ 32 → (c < e → in_table Fat16 bs (e - 1)) →
  stream_rep d bs (c * 2) →
  ∃ d' pos', fat16_count_loop (range c e) k d = Ok (IoOk (k + free_count Fat16 bs (range c e)), d') ∧
    stream_rep d' bs pos'.
Proof.
  induction n as [|n IH]; intros d c k Hn Hc Hk Hkl Hi Hd.
  { rewrite range_nil by lia. exists d, (c * 2). cbn. by rewrite Z.add_0_r. }
  rewrite range_cons, free_count_cons by lia. cbn [fat16_count_loop].
  destruct (in_table_mono Fat16 bs c (e - 1)) as [_ Hlen]; [lia|apply Hi; lia|]. cbn [ent_off ent_len] in Hlen.
  destruct (read_le_at 2 d bs (c * 2) Hd) as (d1 & H1 & Hd1); [done..|].
  rewrite (try_ok _ _ _ _ _ H1). unfold free_entry.
  change (raw_entry Fat16 bs c) with (le_value (slice (c * 2) 2 bs)).
  set (b := _ =? 0). rewrite chk_in by (destruct b; lia). run_refl.
  destruct (IH d1 (c + 1) (if b then k + 1 else k)) as (d' & pos' & H & Hd');
    [lia|lia|destruct b; lia|destruct b; lia|intros; apply Hi; lia|by replace ((c + 1) * 2) with (c * 2 + 2) by lia|].
  exists d', pos'. rewrite H. split; [|done]. do 3 f_equal. destruct b; lia.
Qed.

(** The word the counter forms for an odd FAT12 entry is zero exactly when the
    entry is. *)
Lemma fat12_odd_zero bs c : table_ok bs → in_table Fat12 bs c → c `mod` 2 = 1 →
  (Z.lor (shl 16 (le_value (slice (ent_off Fat12 c + 1) 1 bs)) 8)
     (Z.shiftr (le_value (slice (ent_off Fat12 c - 1) 2 bs)) 12) =? 0) = free_entry Fat12 bs c.
Proof.
  intros [Hb Hl] [Hc Hi] Hodd. cbn [ent_len] in Hi.
  assert (1 ≤ ent_off Fat12 c) by (cbn; pose proof (Z.div_mod c 2); lia).
  set (off := ent_off Fat12 c) in *.
  pose proof (le_value_range (slice (off + 1) 1 bs) ltac:(by apply Forall_slice)) as Hr1.
  rewrite length_slice in Hr1 by lia. change (8 * Z.of_nat 1) with 8 in Hr1.
  pose proof (le_value_range (slice (off - 1) 2 bs) ltac:(by apply Forall_slice)) as Hr2.
  rewrite length_slice in Hr2 by lia. change (8 * Z.of_nat 2) with 16 in Hr2.
  set (hi := le_value (slice (off + 1) 1 bs)) in *. set (w := le_value (slice (off - 1) 2 bs)) in *.
  assert (raw_entry Fat12 bs c = Z.lor (Z.shiftl hi 4) (Z.shiftr w 12)) as Hraw.
  { apply Z.bits_inj'. intros i Hi0. rewrite raw_entry_bit by done. cbn [bits_per_fat_entry].
    pose proof (ent_off_bits Fat12 c Hc) as Hbits. fold off in Hbits. cbn [bits_per_fat_entry] in Hbits.
    rewrite Hodd in Hbits.
    rewrite Z.lor_spec, Z.shiftr_spec, Z.shiftl_spec by done. unfold w. rewrite slice_bit by (done || lia).
    change (8 * Z.of_nat 2) with 16. destruct (decide (i < 4)).
    - rewrite Z.testbit_neg_r by lia. replace (i <? 12) with true by lia.
      replace (i + 12 <? 16) with true by lia. cbn [andb orb]. f_equal. lia.
    - replace (i + 12 <? 16) with false by lia. cbn [andb]. rewrite orb_false_r. unfold hi.
      rewrite slice_bit by (done || lia). change (8 * Z.of_nat 1) with 8.
      replace (i - 4 <? 8) with (i <? 12) by lia. do 2 f_equal. lia. }
  unfold free_entry. rewrite Hraw, shl_mul by lia. rewrite <- Z.shiftl_mul_pow2 by lia.
  assert (∀ k, 0 ≤ k → (Z.lor (Z.shiftl hi k) (Z.shiftr w 12) =? 0) = ((hi =? 0) && (Z.shiftr w 12 =? 0))) as Hz.
  { intros k Hk. apply eq_true_iff_eq. rewrite andb_true_iff, !Z.eqb_eq, Z.lor_eq_0_iff.
    rewrite Z.shiftl_eq_0_iff by done. done. }
  by rewrite !Hz.
Qed.

Lemma fat12_even_zero bs c : c `mod` 2 = 0 →
  (Z.land (le_value (slice (ent_off Fat12 c) 2 bs)) 0x0FFF =? 0) = free_entry Fat12 bs c.
Proof.
  intros E. unfold free_entry, raw_entry, fat12_packed. rewrite land_1_odd, E. done.
Qed.

Lemma fat12_count_loop_spec bs e n : table_ok bs → ∀ d c k prev,
  Z.to_nat (e - c) = n → 2 ≤ c → 0 ≤ k → k + (e - c) < 2 ^ 32 → (c < e → in_table Fat12 bs (e - 1)) →
  (c `mod` 2 = 1 → prev = le_value (slice (ent_off Fat12 c - 1) 2 bs)) →
  stream_rep d bs (ent_off Fat12 c + c `mod` 2) →
  ∃ d' pos', fat12_count_loop (range c e) prev k d = Ok (IoOk (k + free_count Fat12 bs (range c e)), d') ∧
    stream_rep d' bs pos'.
Proof.
  intros Hok. induction n as [|n IH]; intros d c k prev Hn Hc Hk Hkl Hi Hp Hd.
  { rewrite range_nil by lia. eexists d, _. cbn. by rewrite Z.add_0_r. }
  rewrite range_cons, free_count_cons by lia. cbn [fat12_count_loop].
  pose proof (in_table_mono Fat12 bs c (e - 1) ltac:(lia) ltac:(apply Hi; lia)) as Hic.
  pose proof (proj2 Hic) as Hlen. cbn [ent_len] in Hlen.
  pose proof (ent_off12_next c ltac:(lia)) as Hnext. pose proof (Z.mod_pos_bound c 2) as Hm.
  assert ((c + 1) `mod` 2 = 1 - c `mod` 2) as Hm1
    by (pose proof (Z.div_mod c 2); pose proof (Z.div_mod (c + 1) 2); pose proof (Z.mod_pos_bound (c + 1) 2); lia).
  rewrite land_1_odd. destruct (Z.eqb_spec (c `mod` 2) 0) as [E|E].
  - rewrite E, Z.add_0_r in Hd.
    destruct (read_le_at 2 d bs _ Hd) as (d1 & H1 & Hd1); [exact Hlen|done|].
    unfold read_u16. rewrite (try_ok _ _ _ _ _ H1), fat12_even_zero by done.
    set (b := free_entry Fat12 bs c). rewrite chk_in by (destruct b; lia). run_refl.
    destruct (IH d1 (c + 1) (if b then k + 1 else k) (le_value (slice (ent_off Fat12 c) 2 bs))) as (d' & pos' & H & Hd');
      [lia|lia|destruct b; lia|destruct b; lia|intros; apply Hi; lia| | |].
    + intros _. do 2 f_equal. lia.
    + replace (ent_off Fat12 (c + 1) + (c + 1) `mod` 2) with (ent_off Fat12 c + Z.of_nat 2) by lia. done.
    + exists d', pos'. rewrite H. split; [|done]. do 3 f_equal. destruct b; lia.
  - assert (c `mod` 2 = 1) as E1 by lia. rewrite E1 in Hd.
    destruct (read_le_at 1 d bs _ Hd) as (d1 & H1 & Hd1); [lia|done|].
    unfold read_u8. rewrite (try_ok _ _ _ _ _ H1), (Hp E1), fat12_odd_zero by done.
    set (b := free_entry Fat12 bs c). rewrite chk_in by (destruct b; lia). run_refl.
    destruct (IH d1 (c + 1) (if b then k + 1 else k) (le_value (slice (ent_off Fat12 c + 1) 1 bs))) as (d' & pos' & H & Hd');
      [lia|lia|destruct b; lia|destruct b; lia|intros; apply Hi; lia|lia| |].
    + replace (ent_off Fat12 (c + 1) + (c + 1) `mod` 2) with (ent_off Fat12 c + 1 + Z.of_nat 1) by lia. done.
    + exists d', pos'. rewrite H. split; [|done]. do 3 f_equal. destruct b; lia.
Qed.

(** [count_free_clusters] counts the free entries of the data clusters. *)
Lemma count_free_spec t total d bs pos :
  fat_for t bs total → stream_rep d bs pos →
  ∃ d' pos', count_free_clusters t total d =
      Ok (IoOk (free_count t bs (range RESERVED_FAT_ENTRIES (total + RESERVED_FAT_ENTRIES))), d') ∧
    stream_rep d' bs pos'.
Proof.
  intros Hf Hd. pose proof Hf as [Hok [Ht1 Ht2] Hin]. pose proof (cluster_limit_32 t).
  unfold count_free_clusters, RESERVED_FAT_ENTRIES in *. rewrite chk_in by lia. run_refl.
  pose proof (proj2 (in_table_mono t bs 2 (total + 2 - 1) ltac:(lia) Hin)) as Hlen.
  destruct (stream_seek d bs pos (ent_off t 2) Hd) as (d1 & H1 & Hd1); [assert (0 ≤ ent_off t 2) by (by destruct t); lia|].
  destruct t; unfold fat12_count_free, fat16_count_free, fat32_count_free, seek_to, RESERVED_FAT_ENTRIES;
    cbn [ent_off] in H1, Hd1; rewrite (try_ok _ _ _ _ _ H1).
  - eapply (fat12_count_loop_spec bs (total + 2)); [done|reflexivity|lia|lia|lia|done|done|done].
  - eapply (fat16_count_loop_spec bs (total + 2)); [reflexivity|lia|lia|lia|done|done].
  - eapply (fat32_count_loop_spec bs (total + 2)); [reflexivity|lia|lia|lia|done|done].
Qed.

(** *** Properties *)

(** For all three formats: what [write_fat] stores, [read_fat] returns; every
    other entry keeps its raw bits, packed neighbours included, and FAT32 keeps
    the four reserved bits of the entry itself. *)
Theorem fat_entry_roundtrip t c v d bs pos :
  table_ok bs → in_table t bs c → storable t c v → stream_rep d bs pos →
  ∃ d1 d2 bs' pos',
    write_fat t c v d = Ok (IoOk tt, d1) ∧ read_fat t c d1 = Ok (IoOk v, d2) ∧
    stream_rep d2 bs' pos' ∧ table_ok bs' ∧ length bs' = length bs ∧
    (∀ c', 0 ≤ c' → c' ≠ c → raw_entry t bs' c' = raw_entry t bs c') ∧
    (t = Fat32 → Z.land (raw_entry t bs' c) 0xF0000000 = Z.land (raw_entry t bs c) 0xF0000000).
Proof.
  intros Hb Hc Hs Hd.
  destruct (write_fat_spec t c v d bs pos Hb Hc Hs Hd) as (d1 & bs1 & pos1 & H1 & Hd1 & Hu & Hr).
  destruct (read_fat_spec t c d1 bs1 pos1) as (d2 & pos2 & H2 & Hd2);
    [apply Hu|unfold in_table; by rewrite (up_len _ _ _ _ _ Hu)|done|].
  exists d1, d2, bs1, pos2. rewrite (up_value _ _ _ _ _ Hu) in H2.
  split_and!; [done|done|done|apply Hu..|done].
Qed.

(** Linking a new cluster behind the last one of a chain. *)
Lemma chain_allocated t bs total l p c bs' :
  chain t bs (l ++ [p]) → Forall (live total) (l ++ [p]) → NoDup (l ++ [p]) → c ∉ l ++ [p] → live total c →
  allocated t bs (Some p) c bs' → chain t bs' (l ++ [p; c]) ∧ NoDup (l ++ [p; c]).
Proof.
  intros Hc Hl Hn Hnew Hlc Ha. apply Forall_app in Hl as [Hl Hp]. rewrite Forall_singleton in Hp.
  assert (0 ≤ p ∧ 0 ≤ c) as [Hp0 Hc0] by (unfold live, RESERVED_FAT_ENTRIES in *; lia).
  assert (p ∉ l) as Hpl by (apply NoDup_app in Hn as (_ & Hn & _); intros Hin; apply (Hn p Hin); by apply list_elem_of_singleton).
  assert (c ≠ p) as Hcp by (intros ->; apply Hnew, elem_of_app; right; by apply list_elem_of_singleton).
  split.
  - assert (∀ c', c' ∈ l → fat_value t bs' c' = fat_value t bs c') as Hsame.
    { intros c' Hin. assert (live total c') as Hlv by (by apply (proj1 (Forall_forall _ _) Hl)).
      rewrite Ha by (unfold live, RESERVED_FAT_ENTRIES in Hlv; lia).
      rewrite decide_False by congruence. rewrite decide_False; [done|].
      intros ->. apply Hnew, elem_of_app. by left. }
    assert (fat_value t bs' p = Data c) as Hvp by (rewrite Ha by done; by rewrite decide_True).
    assert (fat_value t bs' c = EndOfChain) as Hvc
      by (rewrite Ha by done; rewrite decide_False by congruence; by rewrite decide_True).
    clear -Hc Hsame Hvp Hvc. induction l as [|a l IH].
    + cbn in Hc |- *. rewrite Hvp, Hvc. done.
    + change ((a :: l) ++ [p]) with (a :: (l ++ [p])) in Hc. change ((a :: l) ++ [p; c]) with (a :: (l ++ [p; c])).
      cbn [chain] in Hc |- *. destruct Hc as [Ha Hc].
      split; [rewrite Hsame by left; destruct l; done|].
      apply IH; [done|]. intros c' Hin. apply Hsame. by right.
  - change (l ++ [p; c]) with (l ++ [p] ++ [c]). rewrite app_assoc. apply NoDup_app. split; [done|].
    split; [|apply NoDup_singleton]. intros x Hx Hxc. apply list_elem_of_singleton in Hxc as ->. done.
Qed.

(** [alloc_cluster] takes a free data cluster when there is one, marks it as the
    end of a chain and links it behind the last cluster [p] of a chain [l], whose
    clusters with the new one then form a chain; no other entry changes.  It fails
    exactly when no data cluster is free, whatever the hint. *)
Theorem alloc_extends_chain t hint total d bs pos l p :
  fat_for t bs total → (∀ n, hint = Some n → RESERVED_FAT_ENTRIES ≤ n) →
  chain t bs (l ++ [p]) → Forall (live total) (l ++ [p]) → NoDup (l ++ [p]) →
  (∀ c, c ∈ l ++ [p] → fat_value t bs c ≠ Free) → stream_rep d bs pos →
  (∃ c d' bs' pos', alloc_cluster t (Some p) hint total d = Ok (IoOk c, d') ∧ stream_rep d' bs' pos' ∧
     live total c ∧ fat_value t bs c = Free ∧ chain t bs' (l ++ [p; c]) ∧ NoDup (l ++ [p; c]) ∧
     fat_value t bs' c = EndOfChain ∧ fat_for t bs' total ∧
     ∀ c', 0 ≤ c' → c' ≠ c → c' ≠ p → fat_value t bs' c' = fat_value t bs c') ∨
  ((∀ c, live total c → fat_value t bs c ≠ Free) ∧
   ∃ d' pos', alloc_cluster t (Some p) hint total d = Ok (IoErr OtherError, d') ∧ stream_rep d' bs pos').
Proof.
  intros Hf Hh Hc Hl Hn Hu Hd. pose proof Hl as Hl0. apply Forall_app in Hl as [Hl Hp].
  rewrite Forall_singleton in Hp.
  destruct (alloc_cluster_spec t (Some p) hint total d bs pos Hf Hh) as [Hok|Hno];
    [intros ? [= <-]; exact Hp|exact Hd| |right; exact Hno].
  left. destruct Hok as (c & d' & bs' & pos' & H & Hd' & Hlc & Hfree & Ha & Hf' & _).
  assert (c ∉ l ++ [p]) as Hnew by (intros Hin; by apply (Hu c Hin)).
  assert (0 ≤ p ∧ 0 ≤ c) as [Hp0 Hc0] by (unfold live, RESERVED_FAT_ENTRIES in *; lia).
  assert (c ≠ p) as Hcp by (intros ->; apply Hnew, elem_of_app; right; by apply list_elem_of_singleton).
  destruct (chain_allocated t bs total l p c bs' Hc Hl0 Hn Hnew Hlc Ha) as [Hch Hnd].
  exists c, d', bs', pos'. split_and!; try done; try apply Hlc.
  - rewrite Ha by done. rewrite decide_False by congruence. by rewrite decide_True.
  - intros c' Hc' Hne Hnp. rewrite Ha by done. rewrite decide_False by congruence. by rewrite decide_False.
Qed.

Lemma ci_truncate_spec t total d bs pos c l fuel :
  fat_for t bs total → chain t bs (c :: l) → Forall (live total) (c :: l) → NoDup (c :: l) →
  total ≤ Z.of_nat fuel → stream_rep d bs pos →
  ∃ d' bs' pos',
    ci_truncate fuel (ci_new d t c) =
      Ok (IoOk (Z.of_nat (length l)), {| ci_fat := d'; ci_fat_type := t; ci_cluster := None; ci_err := false |}) ∧
    stream_rep d' bs' pos' ∧ fat_for t bs' total ∧ length bs' = length bs ∧
    ∀ c', 0 ≤ c' → fat_value t bs' c' =
      if decide (c' = c) then EndOfChain else if decide (c' ∈ l) then Free else fat_value t bs c'.
Proof.
  intros Hf Hc Hl Hn Hfu Hd. pose proof (ff_total _ _ _ Hf) as [Ht1 Ht2]. pose proof (cluster_limit_32 t).
  pose proof (live_nodup_length total (c :: l) ltac:(lia) Hl Hn) as Hlen.
  unfold RESERVED_FAT_ENTRIES in Ht2.
  inversion_clear Hl as [|? ? Hlc Hll]. inversion_clear Hn as [|? ? Hni Hnl]. destruct Hc as [Hnx Hcl].
  destruct (fat_for_in _ _ _ _ Hf Hlc) as (Hic & Hsp & _). pose proof (ff_ok _ _ _ Hf) as Hok.
  destruct (ci_next_spec t c d bs pos Hok Hic Hd) as (d1 & pos1 & Hd1 & H1). rewrite Hnx in H1.
  destruct (write_fat_spec t c EndOfChain d1 bs pos1 Hok Hic) as (d2 & bs2 & pos2 & H2 & Hd2 & Hu & _); [by split|done|].
  cbn [length] in Hlen.
  destruct (free_loop_spec t total l fuel 0 d2 bs2 pos2) as (d' & bs' & pos' & H3 & Hd' & Hf' & Hlen' & Hv);
    [by eapply fat_for_updated|done|done| |lia|lia|lia|done|].
  { apply (chain_same t bs); [|done]. intros c' Hc'. pose proof (proj1 (Forall_forall _ _) Hll c' Hc') as [? _].
    unfold RESERVED_FAT_ENTRIES in *. rewrite (updated_value _ _ _ _ _ _ Hu) by lia.
    rewrite decide_False; [done|]. by intros ->. }
  exists d', bs', pos'. split_and!; [|done|done|rewrite Hlen'; apply Hu|].
  - unfold ci_truncate, ci_new. run_refl. cbn [ci_cluster]. run H1.
    rewrite (try_ok _ _ _ _ _ (on_fat_spec (λ t, write_fat t c EndOfChain)
      {| ci_fat := d1; ci_fat_type := t; ci_cluster := head l; ci_err := false |} _ _ H2)). exact H3.
  - intros c' Hc'. rewrite (Hv c' Hc'), (updated_value _ _ _ _ _ _ Hu Hc').
    destruct (decide (c' = c)) as [->|]; [by rewrite decide_False|done].
Qed.

Lemma ci_free_spec t total d bs pos c l fuel :
  fat_for t bs total → chain t bs (c :: l) → Forall (live total) (c :: l) → NoDup (c :: l) →
  total ≤ Z.of_nat fuel → stream_rep d bs pos →
  ∃ d' bs' pos',
    ci_free fuel (ci_new d t c) =
      Ok (IoOk (Z.of_nat (S (length l))), {| ci_fat := d'; ci_fat_type := t; ci_cluster := None; ci_err := false |}) ∧
    stream_rep d' bs' pos' ∧ fat_for t bs' total ∧ length bs' = length bs ∧
    ∀ c', 0 ≤ c' → fat_value t bs' c' = if decide (c' ∈ c :: l) then Free else fat_value t bs c'.
Proof.
  intros Hf Hc Hl Hn Hfu Hd. pose proof (ff_total _ _ _ Hf) as [Ht1 Ht2]. pose proof (cluster_limit_32 t).
  pose proof (live_nodup_length total (c :: l) ltac:(lia) Hl Hn) as Hlen. unfold RESERVED_FAT_ENTRIES in Ht2.
  destruct (free_loop_spec t total (c :: l) fuel 0 d bs pos) as (d' & bs' & pos' & H3 & Hd' & Hf' & Hlen' & Hv);
    [done|done|done|done|lia|lia|lia|done|].
  exists d', bs', pos'. split_and!; [exact H3|done|done|done|done].
Qed.

(** [truncate] ends the chain at its first cluster and frees the others, [free]
    frees all of them; both terminate, return the number of clusters they freed,
    and leave every entry outside the chain alone. *)
Theorem truncate_and_free_chain t total d bs pos c l fuel :
  fat_for t bs total → chain t bs (c :: l) → Forall (live total) (c :: l) → NoDup (c :: l) →
  total ≤ Z.of_nat fuel → stream_rep d bs pos →
  (∃ d' bs' pos',
     ci_truncate fuel (ci_new d t c) =
       Ok (IoOk (Z.of_nat (length l)), {| ci_fat := d'; ci_fat_type := t; ci_cluster := None; ci_err := false |}) ∧
     stream_rep d' bs' pos' ∧ fat_for t bs' total ∧ length bs' = length bs ∧
     ∀ c', 0 ≤ c' → fat_value t bs' c' =
       if decide (c' = c) then EndOfChain else if decide (c' ∈ l) then Free else fat_value t bs c') ∧
  (∃ d' bs' pos',
     ci_free fuel (ci_new d t c) =
       Ok (IoOk (Z.of_nat (S (length l))), {| ci_fat := d'; ci_fat_type := t; ci_cluster := None; ci_err := false |}) ∧
     stream_rep d' bs' pos' ∧ fat_for t bs' total ∧ length bs' = length bs ∧
     ∀ c', 0 ≤ c' → fat_value t bs' c' = if decide (c' ∈ c :: l) then Free else fat_value t bs c').
Proof. intros. split; [by eapply ci_truncate_spec|by eapply ci_free_spec]. Qed.

(** [count_free_clusters] returns the number of data clusters whose entry is
    free, in all three formats. *)
Theorem count_free_clusters_correct t total d bs pos :
  fat_for t bs total → stream_rep d bs pos →
  ∃ d' pos', count_free_clusters t total d =
      Ok (IoOk (Z.of_nat (length (filter (λ c, fat_value t bs c = Free)
        (range RESERVED_FAT_ENTRIES (total + RESERVED_FAT_ENTRIES))))), d') ∧
    stream_rep d' bs pos'.
Proof.
  intros Hf Hd. destruct (count_free_spec t total d bs pos Hf Hd) as (d' & pos' & H & Hd').
  exists d', pos'. split; [|done]. rewrite H. do 5 f_equal. unfold free_count. do 2 f_equal.
  apply filter_ext_in. intros c Hc. apply elem_of_range in Hc.
  destruct (fat_for_in t bs total c Hf Hc) as (_ & ? & _).
  apply free_entry_value; [apply Hf|unfold RESERVED_FAT_ENTRIES in *; lia|done].
Qed.
End table_specs.

(** ** A concrete table: ten clusters, the chain 2, 3, 4, the rest free *)
Definition sample_fat : list Z :=
  concat (le_bytes 4 <$> [0x0FFFFFF8; 0xFFFFFFFF; 3; 4; 0x0FFFFFFF; 0; 0; 0; 0; 0; 0; 0]).
Definition sample_table : memfile := {| mf_bytes := sample_fat; mf_pos := 0 |}.

Lemma sample_rep : stream_rep sample_table sample_fat 0.
Proof. by cbn. Qed.

Lemma sample_fat_for : fat_for Fat32 sample_fat 10.
Proof.
  split; [split; [|by vm_compute]|by vm_compute|split; by vm_compute].
  apply Forall_concat, Forall_fmap, Forall_forall. intros v _. apply le_bytes_bytes.
Qed.

Lemma sample_chain : chain Fat32 sample_fat [2; 3; 4].
Proof. vm_compute. done. Qed.

Lemma sample_live : Forall (live 10) [2; 3; 4].
Proof. repeat constructor; vm_compute; congruence. Qed.

Lemma sample_nodup : NoDup [2; 3; 4].
Proof. apply (bool_decide_unpack _). by vm_compute. Qed.

Lemma fat_entry_roundtrip_witness :
  ∃ d1 d2, write_fat Fat32 7 (Data 9) sample_table = Ok (IoOk tt, d1) ∧
    read_fat Fat32 7 d1 = Ok (IoOk (Data 9), d2).
Proof.
  destruct (fat_entry_roundtrip Fat32 7 (Data 9) sample_table sample_fat 0) as (d1 & d2 & _ & _ & H1 & H2 & _).
  - exact (ff_ok _ _ _ sample_fat_for).
  - split; vm_compute; congruence.
  - split; [reflexivity|split; vm_compute; congruence].
  - exact sample_rep.
  - exists d1, d2. split; [exact H1|exact H2].
Defined.

Lemma alloc_extends_chain_witness :
  (∃ c d' bs' pos', alloc_cluster Fat32 (Some 4) (Some 6) 10 sample_table = Ok (IoOk c, d') ∧
     stream_rep d' bs' pos' ∧ live 10 c ∧ fat_value Fat32 sample_fat c = Free ∧
     chain Fat32 bs' ([2; 3] ++ [4; c]) ∧ NoDup ([2; 3] ++ [4; c]) ∧
     fat_value Fat32 bs' c = EndOfChain ∧ fat_for Fat32 bs' 10 ∧
     ∀ c', 0 ≤ c' → c' ≠ c → c' ≠ 4 → fat_value Fat32 bs' c' = fat_value Fat32 sample_fat c') ∨
  ((∀ c, live 10 c → fat_value Fat32 sample_fat c ≠ Free) ∧
   ∃ d' pos', alloc_cluster Fat32 (Some 4) (Some 6) 10 sample_table = Ok (IoErr OtherError, d') ∧
     stream_rep d' sample_fat pos').
Proof.
  apply (alloc_extends_chain Fat32 (Some 6) 10 sample_table sample_fat 0 [2; 3] 4 sample_fat_for).
  - intros n [= <-]. vm_compute. congruence.
  - exact sample_chain.
  - exact sample_live.
  - exact sample_nodup.
  - intros c Hc. cbn [app] in Hc. rewrite !elem_of_cons in Hc.
    destruct Hc as [->|[->|[->|Hc]]]; [vm_compute; congruence..|by apply elem_of_nil in Hc].
  - exact sample_rep.
Defined.

Lemma truncate_and_free_chain_witness :
  (∃ d', ci_truncate 10 (ci_new sample_table Fat32 2) =
     Ok (IoOk 2, {| ci_fat := d'; ci_fat_type := Fat32; ci_cluster := None; ci_err := false |})) ∧
  (∃ d', ci_free 10 (ci_new sample_table Fat32 2) =
     Ok (IoOk 3, {| ci_fat := d'; ci_fat_type := Fat32; ci_cluster := None; ci_err := false |})).
Proof.
  destruct (truncate_and_free_chain Fat32 10 sample_table sample_fat 0 2 [3; 4] 10 sample_fat_for
              sample_chain sample_live sample_nodup) as [(d1 & _ & _ & H1 & _) (d2 & _ & _ & H2 & _)];
    [vm_compute; congruence|exact sample_rep|].
  split; [exists d1; exact H1|exists d2; exact H2].
Defined.

Lemma count_free_clusters_correct_witness :
  ∃ d', count_free_clusters Fat32 10 sample_table = Ok (IoOk 7, d').
Proof.
  destruct (count_free_clusters_correct Fat32 10 sample_table sample_fat 0 sample_fat_for sample_rep)
    as (d' & _ & H & _). exists d'. rewrite H. vm_compute. reflexivity.
Defined.
