(* ===== verification/FatFs.v ===== *)
(** * The FAT file system object (fatfs/src/fs.rs)

    Slices of a disk with mirrored writes, the FSInfo sector, mounting,
    cluster allocation and release with their bookkeeping, the dirty flag,
    unmounting, and formatting.

    [FileSystem] keeps the disk and the two cells in one record: the code holds
    [RefCell]s that are borrowed for single calls only.  [FsIoAdapter] is the
    [Stream] instance of that record; the table of a mounted volume is a
    [DiskSlice] over it. *)

From S2P Require Import Prelude Io FatIo FatTime BootSector FatTable.

(** ** Disk slices *)

Record DiskSlice (T : Type) := {
  begin : Z;
  size : Z;
  offset : Z;
  mirrors : Z;
  inner : T;
}.
Arguments begin {T} _.
Arguments size {T} _.
Arguments offset {T} _.
Arguments mirrors {T} _.
Arguments inner {T} _.

Section disk_slice.
Context {T : Type}.

Definition ds_new (b s m : Z) (t : T) : DiskSlice T :=
  {| begin := b; size := s; mirrors := m; inner := t; offset := 0 |}.
Definition ds_from_sectors (first_sector sector_count m : Z) (b : BiosParameterBlock) (t : T) :
    exec (DiskSlice T) :=
  first ← bytes_from_sectors b first_sector;
  len ← bytes_from_sectors b sector_count;
  mret (ds_new first len m t).
Definition ds_abs_pos (self : DiskSlice T) : exec Z := u64 (begin self + offset self).

Definition with_offset (self : DiskSlice T) (o : Z) : DiskSlice T :=
  {| begin := begin self; size := size self; offset := o; mirrors := mirrors self; inner := inner self |}.
Definition with_inner (self : DiskSlice T) (t : T) : DiskSlice T :=
  {| begin := begin self; size := size self; offset := offset self; mirrors := mirrors self; inner := t |}.

(** A use of [self.inner] *)
Definition on_inner {A} (m : M T A) : M (DiskSlice T) A := λ self,
  match m (inner self) with
  | Ok (a, t) => Ok (a, with_inner self t)
  | Panic f => Panic f
  end.

Context `{!Stream T}.

Definition ds_read (n : Z) : M (DiskSlice T) (ioresult (list Z)) :=
  self ← get;
  off ← lift (u64 (begin self + offset self));
  left ← lift (u64 (size self - offset self));
  let read_size := Z.min left n in
  on_inner (s_seek (SeekStart off)) ?;
  buf ←? on_inner (s_read read_size);
  off' ← lift (u64 (offset self + Z.of_nat (length buf)));
  modify (λ self, with_offset self off') ;;
  ok buf.

Definition ds_write (buf : list Z) : M (DiskSlice T) (ioresult Z) :=
  self ← get;
  off ← lift (u64 (begin self + offset self));
  left ← lift (u64 (size self - offset self));
  let write_size := Z.min left (Z.of_nat (length buf)) in
  if write_size =? 0 then ok 0
  else
    try_each (range 0 (mirrors self)) (λ i,
      p ← lift (u64 (i * size self));
      q ← lift (u64 (off + p));
      on_inner (s_seek (SeekStart q)) ?;
      on_inner (write_all (take (Z.to_nat write_size) buf))) ?;
    off' ← lift (u64 (offset self + write_size));
    modify (λ self, with_offset self off') ;;
    ok write_size.

Definition ds_seek (pos : SeekFrom) : M (DiskSlice T) (ioresult Z) :=
  self ← get;
  new_offset ← lift
    match pos with
    | SeekCurrent x => ichk 64 (icast 64 (offset self) + x)
    | SeekStart x => Ok (icast 64 x)
    | SeekEnd x => ichk 64 (icast 64 (size self) + x)
    end;
  if (new_offset <? 0) || (size self <? cast 64 new_offset) then err InvalidInput
  else
    modify (λ self, with_offset self (cast 64 new_offset)) ;;
    ok (cast 64 new_offset).

#[export] Instance disk_slice_stream : Stream (DiskSlice T) := {|
  s_read := ds_read;
  s_write := ds_write;
  s_flush := on_inner s_flush;
  s_seek := ds_seek |}.
End disk_slice.

(** [fat_slice] *)
Definition fat_slice {T} (io : T) (b : BiosParameterBlock) : exec (DiskSlice T) :=
  if mirroring_enabled b then
    ds_from_sectors (reserved_sectors_16 b) (sectors_per_fat b) (fats b) b io
  else
    p ← u32 (active_fat b * sectors_per_fat b);
    fat_first_sector ← u32 (reserved_sectors_16 b + p);
    ds_from_sectors fat_first_sector (sectors_per_fat b) 1 b io.

(** Work on a slice built over the current state. *)
Definition with_slice {T A} (mk : T → exec (DiskSlice T)) (m : M (DiskSlice T) A) : M T A := λ t,
  match mk t with
  | Ok sl => match m sl with Ok (a, sl') => Ok (a, inner sl') | Panic f => Panic f end
  | Panic f => Panic f
  end.

(** [write_zeros]: the buffer has 512 zeros. *)
Section zeros.
Context {T : Type} `{!Stream T}.

Fixpoint write_zeros_loop (fuel : nat) (len : Z) : M T (ioresult unit) :=
  if len <=? 0 then ok tt
  else
    match fuel with
    | O => panic OutOfFuel
    | S fuel =>
        let write_size := Z.min len 512 in
        write_all (replicate (Z.to_nat write_size) 0) ?;
        len ← lift (u64 (len - write_size));
        write_zeros_loop fuel len
    end.
Definition write_zeros (len : Z) : M T (ioresult unit) := write_zeros_loop (Z.to_nat (len `div` 512) + 1) len.

Definition write_zeros_until_end_of_sector (bps : Z) : M T (ioresult unit) :=
  pos ←? s_seek (SeekCurrent 0);
  lift (if bps =? 0 then Panic Explicit else Ok tt) ;;
  total_bytes_to_write ← lift (u64 (bps - pos `mod` bps));
  if negb (total_bytes_to_write =? bps) then write_zeros total_bytes_to_write else ok tt.
End zeros.

(** ** The FSInfo sector *)

Record FsInfoSector := {
  free_cluster_count : option Z;
  next_free_cluster : option Z;
  info_dirty : bool;
}.

Definition LEAD_SIG : Z := 0x41615252.
Definition STRUC_SIG : Z := 0x61417272.
Definition TRAIL_SIG : Z := 0xAA550000.

Section fs_info_io.
Context {T : Type} `{!Stream T}.

Definition info_deserialize : M T (ioresult FsInfoSector) :=
  lead_sig ←? read_u32;
  if negb (lead_sig =? LEAD_SIG) then err OtherError
  else
    _ ←? read_exact 480;
    struc_sig ←? read_u32;
    if negb (struc_sig =? STRUC_SIG) then err OtherError
    else
      n ←? read_u32;
      let fcc := if n =? 0xFFFFFFFF then None else Some n in
      n ←? read_u32;
      let nfc := if n =? 0xFFFFFFFF then None else if (n =? 0) || (n =? 1) then None else Some n in
      _ ←? read_exact 12;
      trail_sig ←? read_u32;
      if negb (trail_sig =? TRAIL_SIG) then err OtherError
      else ok {| free_cluster_count := fcc; next_free_cluster := nfc; info_dirty := false |}.

Definition info_serialize (self : FsInfoSector) : M T (ioresult unit) :=
  write_u32 LEAD_SIG ?;
  write_all (replicate 480 0) ?;
  write_u32 STRUC_SIG ?;
  write_u32 (default 0xFFFFFFFF (free_cluster_count self)) ?;
  write_u32 (default 0xFFFFFFFF (next_free_cluster self)) ?;
  write_all (replicate 12 0) ?;
  write_u32 TRAIL_SIG.
End fs_info_io.

(** [FsInfoSector::validate_and_fix] *)
Definition validate_and_fix (self : FsInfoSector) (total : Z) : exec FsInfoSector :=
  max_valid_cluster_number ← u32 (total + RESERVED_FAT_ENTRIES);
  mret {|
    free_cluster_count :=
      match free_cluster_count self with Some n => if total <? n then None else Some n | None => None end;
    next_free_cluster :=
      match next_free_cluster self with
      | Some n => if max_valid_cluster_number <? n then None else Some n
      | None => None
      end;
    info_dirty := info_dirty self |}.

(** [FsInfoSector::add_free_clusters] *)
Definition add_free_clusters (self : FsInfoSector) (free_clusters : Z) : exec FsInfoSector :=
  match free_cluster_count self with
  | Some n =>
      s ← ichk 32 (icast 32 n + free_clusters);
      mret {| free_cluster_count := Some (cast 32 s); next_free_cluster := next_free_cluster self;
              info_dirty := true |}
  | None => mret self
  end.
Definition set_next_free_cluster (self : FsInfoSector) (cluster : Z) : FsInfoSector :=
  {| free_cluster_count := free_cluster_count self; next_free_cluster := Some cluster; info_dirty := true |}.
Definition set_free_cluster_count (self : FsInfoSector) (n : Z) : FsInfoSector :=
  {| free_cluster_count := Some n; next_free_cluster := next_free_cluster self; info_dirty := true |}.

(** ** Options *)

(** [OemCpConverter] and [LossyOemCpConverter]; characters are code points. *)
Record OemCpConverter := { oem_decode : Z → Z; oem_encode : Z → option Z }.
Definition LOSSY_OEM_CP_CONVERTER : OemCpConverter := {|
  oem_decode := λ oem_char, if oem_char <=? 0x7F then oem_char else 0xFFFD;
  oem_encode := λ uni_char, if uni_char <=? 0x7F then Some (cast 8 uni_char) else None |}.

(** [TimeProvider] and the default one *)
Record TimeProvider := { tp_date : exec Date; tp_date_time : exec DateTime }.
Definition DEFAULT_TIME_PROVIDER : TimeProvider := {|
  tp_date := get_current_date; tp_date_time := get_current_date_time |}.

Record FsOptions := {
  update_accessed_date : bool;
  oem_cp_converter : OemCpConverter;
  time_provider : TimeProvider;
}.
Definition FsOptions_new : FsOptions := {|
  update_accessed_date := false;
  oem_cp_converter := LOSSY_OEM_CP_CONVERTER;
  time_provider := DEFAULT_TIME_PROVIDER |}.

(** ** The file system *)

Record FileSystem (D : Type) := {
  disk : D;
  options : FsOptions;
  fat_type : FatType;
  fs_bpb : BiosParameterBlock;
  fs_first_data_sector : Z;
  fs_root_dir_sectors : Z;
  fs_total_clusters : Z;
  fs_info : FsInfoSector;
  current_status_flags : FsStatusFlags;
}.
Arguments disk {D} _.
Arguments options {D} _.
Arguments fat_type {D} _.
Arguments fs_bpb {D} _.
Arguments fs_first_data_sector {D} _.
Arguments fs_root_dir_sectors {D} _.
Arguments fs_total_clusters {D} _.
Arguments fs_info {D} _.
Arguments current_status_flags {D} _.

Record FileSystemStats := { st_cluster_size : Z; st_total_clusters : Z; st_free_clusters : Z }.

Section fs.
Context {D : Type}.
Abbreviation Fs := (FileSystem D).

Definition with_disk (self : Fs) (d : D) : Fs :=
  {| disk := d; options := options self; fat_type := fat_type self; fs_bpb := fs_bpb self;
     fs_first_data_sector := fs_first_data_sector self; fs_root_dir_sectors := fs_root_dir_sectors self;
     fs_total_clusters := fs_total_clusters self; fs_info := fs_info self;
     current_status_flags := current_status_flags self |}.
Definition with_info (self : Fs) (i : FsInfoSector) : Fs :=
  {| disk := disk self; options := options self; fat_type := fat_type self; fs_bpb := fs_bpb self;
     fs_first_data_sector := fs_first_data_sector self; fs_root_dir_sectors := fs_root_dir_sectors self;
     fs_total_clusters := fs_total_clusters self; fs_info := i;
     current_status_flags := current_status_flags self |}.
Definition with_status (self : Fs) (f : FsStatusFlags) : Fs :=
  {| disk := disk self; options := options self; fat_type := fat_type self; fs_bpb := fs_bpb self;
     fs_first_data_sector := fs_first_data_sector self; fs_root_dir_sectors := fs_root_dir_sectors self;
     fs_total_clusters := fs_total_clusters self; fs_info := fs_info self; current_status_flags := f |}.

(** A use of [self.disk.borrow_mut()] *)
Definition on_disk {A} (m : M D A) : M Fs A := λ self,
  match m (disk self) with
  | Ok (a, d) => Ok (a, with_disk self d)
  | Panic f => Panic f
  end.

Definition offset_from_sector (self : Fs) (sector : Z) : exec Z := bytes_from_sectors (fs_bpb self) sector.
Definition sector_from_cluster (self : Fs) (cluster : Z) : exec Z :=
  n ← u32 (cluster - RESERVED_FAT_ENTRIES);
  s ← sectors_from_clusters (fs_bpb self) n;
  u32 (fs_first_data_sector self + s).
Definition fs_cluster_size (self : Fs) : exec Z := cluster_size (fs_bpb self).
Definition offset_from_cluster (self : Fs) (cluster : Z) : exec Z :=
  s ← sector_from_cluster self cluster;
  offset_from_sector self s.
Definition bytes_from_clusters (self : Fs) (clusters : Z) : exec Z :=
  s ← sectors_from_clusters (fs_bpb self) clusters;
  bytes_from_sectors (fs_bpb self) s.
Definition fs_clusters_from_bytes (self : Fs) (bytes : Z) : exec Z := clusters_from_bytes (fs_bpb self) bytes.

(** [volume_label_as_bytes]: the label without its padding. *)
Definition strip_padding (l : list Z) : list Z :=
  reverse ((fix skip l := match l with b :: l' => if b =? 0x20 then skip l' else l | [] => [] end) (reverse l)).
Definition volume_label_as_bytes (self : Fs) : list Z := strip_padding (volume_label (fs_bpb self)).
Definition fs_volume_label (self : Fs) : list Z :=
  oem_decode (oem_cp_converter (options self)) <$> volume_label_as_bytes self.

Context `{!Stream D}.

(** [FileSystem::set_dirty_flag] *)
Definition set_dirty_flag (b : bool) : M Fs (ioresult unit) :=
  self ← get;
  let flags := status_flags (fs_bpb self) in
  let flags := {| dirty := dirty flags || b; io_error := io_error flags |} in
  if bool_decide (flags = current_status_flags self) then ok tt
  else
    let encoded := flags_encode flags in
    let off := match fat_type self with Fat32 => 0x041 | _ => 0x025 end in
    on_disk (s_seek (SeekStart off)) ?;
    on_disk (write_u8 encoded) ?;
    modify (λ self, with_status self flags) ;;
    ok tt.

(** [FsIoAdapter]: a write marks the volume dirty. *)
#[export] Instance fs_io_adapter : Stream Fs := {|
  s_read n := on_disk (s_read n);
  s_write buf :=
    written ←? on_disk (s_write buf);
    (if 0 <? written then set_dirty_flag true else ok tt) ?;
    ok written;
  s_flush := on_disk s_flush;
  s_seek pos := on_disk (s_seek pos) |}.

(** Work on the table of the volume. *)
Definition with_fat {A} (m : M (DiskSlice Fs) A) : M Fs A :=
  with_slice (λ self, fat_slice self (fs_bpb self)) m.

(** [FileSystem::cluster_iter(cluster)] and what is then done with the iterator. *)
Definition with_cluster_iter {A} (cluster : Z) (m : M (ClusterIterator (DiskSlice Fs)) A) : M Fs A :=
  self ← get;
  with_fat (λ sl,
    match m (ci_new sl (fat_type self) cluster) with
    | Ok (a, it) => Ok (a, ci_fat it)
    | Panic f => Panic f
    end).

(** An upper bound on the entries of the table: its bytes. *)
Definition fat_fuel (self : Fs) : nat :=
  Z.to_nat (sectors_per_fat (fs_bpb self) * bytes_per_sector (fs_bpb self)) + 2.

Definition update_info (f : FsInfoSector → exec FsInfoSector) : M Fs unit :=
  self ← get;
  i ← lift (f (fs_info self));
  put (with_info self i).

Definition truncate_cluster_chain (cluster : Z) : M Fs (ioresult unit) :=
  self ← get;
  num_free ←? with_cluster_iter cluster (ci_truncate (fat_fuel self));
  update_info (λ i, add_free_clusters i (icast 32 num_free)) ;;
  ok tt.
Definition free_cluster_chain (cluster : Z) : M Fs (ioresult unit) :=
  self ← get;
  num_free ←? with_cluster_iter cluster (ci_free (fat_fuel self));
  update_info (λ i, add_free_clusters i (icast 32 num_free)) ;;
  ok tt.

(** [FileSystem::alloc_cluster] *)
Definition fs_alloc_cluster (prev_cluster : option Z) (zero : bool) : M Fs (ioresult Z) :=
  self ← get;
  let hint := next_free_cluster (fs_info self) in
  cluster ←? with_fat (alloc_cluster (fat_type self) prev_cluster hint (fs_total_clusters self));
  (if zero then
     off ← lift (offset_from_cluster self cluster);
     on_disk (s_seek (SeekStart off)) ?;
     len ← lift (fs_cluster_size self);
     on_disk (write_zeros len)
   else ok tt) ?;
  next ← lift (u32 (cluster + 1));
  update_info (λ i, add_free_clusters (set_next_free_cluster i next) (-1)) ;;
  ok cluster.

Definition read_status_flags : M Fs (ioresult FsStatusFlags) :=
  self ← get;
  let bpb_status := status_flags (fs_bpb self) in
  fat_status ←? with_fat (read_fat_flags (fat_type self));
  ok {| dirty := dirty bpb_status || dirty fat_status;
        io_error := io_error bpb_status || io_error fat_status |}.

Definition recalc_free_clusters : M Fs (ioresult Z) :=
  self ← get;
  n ←? with_fat (count_free_clusters (fat_type self) (fs_total_clusters self));
  update_info (λ i, Ok (set_free_cluster_count i n)) ;;
  ok n.
Definition stats : M Fs (ioresult FileSystemStats) :=
  self ← get;
  free ←? match free_cluster_count (fs_info self) with Some n => ok n | None => recalc_free_clusters end;
  cs ← lift (fs_cluster_size self);
  ok {| st_cluster_size := cs; st_total_clusters := fs_total_clusters self; st_free_clusters := free |}.

Definition flush_fs_info : M Fs (ioresult unit) :=
  self ← get;
  if is_Fat32 (fat_type self) && info_dirty (fs_info self) then
    off ← lift (offset_from_sector self (fs_info_sector (fs_bpb self)));
    on_disk (s_seek (SeekStart off)) ?;
    on_disk (info_serialize (fs_info self)) ?;
    modify (λ self, with_info self
      {| free_cluster_count := free_cluster_count (fs_info self);
         next_free_cluster := next_free_cluster (fs_info self); info_dirty := false |}) ;;
    ok tt
  else ok tt.
Definition unmount_internal : M Fs (ioresult unit) :=
  flush_fs_info ?;
  set_dirty_flag false ?;
  ok tt.
(** [Drop]: errors are logged only. *)
Definition fs_drop : M Fs unit := unmount_internal ;; mret tt.
Definition unmount : M Fs (ioresult unit) :=
  r ← unmount_internal;
  fs_drop ;;
  mret r.

(** [FileSystem::new] *)
Definition fs_new (opts : FsOptions) (d : D) : exec (ioresult Fs) :=
  r ← (pos ←? s_seek (SeekCurrent 0);
       lift (ensure (pos =? 0)) ;;
       boot ←? boot_deserialize;
       v ← lift (boot_validate boot);
       match v with
       | IoErr e => err e
       | IoOk _ =>
           let b := bpb boot in
           rds ← lift (root_dir_sectors b);
           fds ← lift (first_data_sector b);
           tc ← lift (total_clusters b);
           let ft := from_clusters tc in
           info ←? (if is_Fat32 ft then
                      off ← lift (bytes_from_sectors b (fs_info_sector b));
                      s_seek (SeekStart off) ?;
                      info_deserialize
                    else ok {| free_cluster_count := None; next_free_cluster := None; info_dirty := false |});
           let info :=
             if dirty (status_flags b) then
               {| free_cluster_count := None; next_free_cluster := next_free_cluster info;
                  info_dirty := info_dirty info |}
             else info in
           info ← lift (validate_and_fix info tc);
           ok (b, rds, fds, tc, ft, info)
       end) d;
  match r with
  | (IoErr e, _) => Ok (IoErr e)
  | (IoOk (b, rds, fds, tc, ft, info), d') =>
      Ok (IoOk {| disk := d'; options := opts; fat_type := ft; fs_bpb := b; fs_first_data_sector := fds;
                  fs_root_dir_sectors := rds; fs_total_clusters := tc; fs_info := info;
                  current_status_flags := status_flags b |})
  end.
End fs.

(** ** Formatting *)
Section format.
Context {D : Type} `{!Stream D}.

Definition format_volume (opts : FormatVolumeOptions) : M D (ioresult unit) :=
  pos ←? s_seek (SeekCurrent 0);
  lift (ensure (pos =? 0)) ;;
  let bps := default 512 (o_bytes_per_sector opts) in
  ts ←? match o_total_sectors opts with
        | None =>
            total_bytes ←? s_seek (SeekEnd 0);
            n ← lift (udiv total_bytes bps);
            s_seek (SeekStart 0) ?;
            if 0xFFFFFFFF <? n then err OtherError else ok n
        | Some n => ok n
        end;
  r ← lift (format_boot_sector opts ts bps);
  p ←? mret r;
  let '(boot, ft) := p in
  v ← lift (boot_validate boot);
  mret v ?;
  boot_serialize boot ?;
  let b := bpb boot in
  let bps := bytes_per_sector b in
  write_zeros_until_end_of_sector bps ?;
  (if is_fat32 b then
     off ← lift (bytes_from_sectors b (fs_info_sector b));
     s_seek (SeekStart off) ?;
     info_serialize {| free_cluster_count := None; next_free_cluster := None; info_dirty := false |} ?;
     write_zeros_until_end_of_sector bps ?;
     off ← lift (bytes_from_sectors b (backup_boot_sector b));
     s_seek (SeekStart off) ?;
     boot_serialize boot ?;
     write_zeros_until_end_of_sector bps
   else ok tt) ?;
  let rs := reserved_sectors_16 b in
  fat_pos ← lift (bytes_from_sectors b rs);
  all_fats ← lift (sectors_per_all_fats b);
  s_seek (SeekStart fat_pos) ?;
  fat_bytes ← lift (bytes_from_sectors b all_fats);
  write_zeros fat_bytes ?;
  bytes_per_fat ← lift (bytes_from_sectors b (sectors_per_fat b));
  tc ← lift (total_clusters b);
  with_slice (λ d, fat_slice d b) (format_fat ft (media b) bytes_per_fat tc) ?;
  root_dir_first_sector ← lift (u32 (rs + all_fats));
  rds ← lift (root_dir_sectors b);
  root_dir_pos ← lift (bytes_from_sectors b root_dir_first_sector);
  s_seek (SeekStart root_dir_pos) ?;
  root_bytes ← lift (bytes_from_sectors b rds);
  write_zeros root_bytes ?;
  (if is_Fat32 ft then
     root_cluster ←? with_slice (λ d, fat_slice d b) (alloc_cluster ft None None 1);
     lift (ensure (root_cluster =? root_dir_first_cluster b)) ;;
     a ← lift (u32 (rs + all_fats));
     fds ← lift (u32 (a + rds));
     n ← lift (u32 (root_cluster - RESERVED_FAT_ENTRIES));
     s ← lift (sectors_from_clusters b n);
     first ← lift (u32 (fds + s));
     root_dir_pos ← lift (bytes_from_sectors b first);
     s_seek (SeekStart root_dir_pos) ?;
     cs ← lift (cluster_size b);
     write_zeros cs
   else ok tt) ?;
  s_seek (SeekStart 0) ?;
  ok tt.
End format.
