(* ===== verification/FatSlice.v ===== *)
(** * Mirrored slices are byte streams

    A [DiskSlice] over a disk behaves as a stream over its own bytes, keeps its
    mirrored copies equal and leaves the rest of the disk alone.  What a slice
    needs of the disk is the class [Media]; it holds of any byte stream, and of a
    mounted file system ([FsIoAdapter]), whose writes also set the dirty flag in
    the boot sector. *)

From S2P Require Import Prelude Io FatIo FatBits BootSector FatTable FatFs.

(** [media_rep t dbs]: the accessible bytes of [t], from offset [media_lo] on. *)
Class Media (T : Type) `{Stream T} := {
  media_rep : T → list Z → Prop;
  media_lo : Z;
  media_lo_pos : 0 ≤ media_lo;
  media_read t dbs p n : media_rep t dbs → media_lo ≤ p ≤ Z.of_nat (length dbs) → 0 ≤ n →
    ∃ (k : nat) t1 t2, s_seek (SeekStart p) t = Ok (IoOk p, t1) ∧
      s_read n t1 = Ok (IoOk (take k (drop (Z.to_nat p) dbs)), t2) ∧ media_rep t2 dbs ∧
      Z.of_nat k ≤ n ∧ Z.of_nat k ≤ Z.of_nat (length dbs) - p ∧
      (0 < n → p < Z.of_nat (length dbs) → (0 < k)%nat);
  media_write t dbs p l : media_rep t dbs → media_lo ≤ p → p + Z.of_nat (length l) ≤ Z.of_nat (length dbs) →
    ∃ t1 t2, s_seek (SeekStart p) t = Ok (IoOk p, t1) ∧ write_all l t1 = Ok (IoOk tt, t2) ∧
      media_rep t2 (splice p l dbs);
}.

(** Any byte stream is a medium. *)
Definition stream_media {T} `{ByteStream T} : Media T.
Proof.
  refine {| media_rep := λ t dbs, ∃ pos, stream_rep t dbs pos; media_lo := 0 |}.
  - done.
  - intros t dbs p n [pos Ht] Hp Hn.
    destruct (stream_seek t dbs pos p Ht) as (t1 & H1 & Ht1); [lia|].
    destruct (stream_read t1 dbs p n Ht1 Hn) as (k & t2 & H2 & Ht2 & Hk & Hkl & Hk0).
    exists k, t1, t2. split_and!; [done|done|by eexists|done|lia|done].
  - intros t dbs p l [pos Ht] Hp Hl.
    destruct (stream_seek t dbs pos p Ht) as (t1 & H1 & Ht1); [lia|].
    destruct (write_all_spec t1 dbs p l Ht1 Hl) as (t2 & H2 & Ht2).
    exists t1, t2. split_and!; [done|done|by eexists].
Defined.

Lemma splice_mid X Y bs off l :
  0 ≤ off → off + Z.of_nat (length l) ≤ Z.of_nat (length bs) →
  splice (Z.of_nat (length X) + off) l (X ++ bs ++ Y) = X ++ splice off l bs ++ Y.
Proof.
  intros Ho Hl. unfold splice.
  replace (Z.to_nat (Z.of_nat (length X) + off)) with (length X + Z.to_nat off)%nat by lia.
  rewrite take_app_add. rewrite take_app_le by lia.
  rewrite <- Nat.add_assoc, drop_app_add. rewrite drop_app_le by lia.
  by rewrite <- !app_assoc.
Qed.

Lemma drop_mid (X Y bs : list Z) off n :
  0 ≤ off → off + Z.of_nat n ≤ Z.of_nat (length bs) →
  take n (drop (Z.to_nat (Z.of_nat (length X) + off)) (X ++ bs ++ Y)) = take n (drop (Z.to_nat off) bs).
Proof.
  intros Ho Hl.
  replace (Z.to_nat (Z.of_nat (length X) + off)) with (length X + Z.to_nat off)%nat by lia.
  rewrite drop_app_add, drop_app_le by lia. by rewrite take_app_le by (rewrite length_drop; lia).
Qed.

Lemma length_copies n (bs : list Z) : length (concat (replicate n bs)) = (n * length bs)%nat.
Proof. induction n as [|n IH]; cbn; [done|]. rewrite length_app, IH. done. Qed.

Section slice.
Context {T : Type} `{!Stream T, !Media T}.
(** The disk around the slice, and the number of its copies. *)
Variables (A B : list Z) (copies : nat).

(** The disk is [A], then one copy of [bs] per mirror, then [B]. *)
Record slice_rep (sl : DiskSlice T) (bs : list Z) (pos : Z) : Prop := {
  sr_begin : begin sl = Z.of_nat (length A);
  sr_lo : media_lo ≤ begin sl;
  sr_size : size sl = Z.of_nat (length bs);
  sr_mirrors : mirrors sl = Z.of_nat copies ∧ (1 ≤ copies)%nat;
  sr_offset : offset sl = pos;
  sr_pos : 0 ≤ pos ≤ size sl;
  sr_inner : media_rep (inner sl) (A ++ concat (replicate copies bs) ++ B);
  sr_limit : Z.of_nat (length (A ++ concat (replicate copies bs) ++ B)) < 2 ^ 63;
}.

Lemma copies_split k n (bs : list Z) : (k < n)%nat →
  concat (replicate n bs) = concat (replicate k bs) ++ bs ++ concat (replicate (n - S k) bs).
Proof.
  intros. replace n with (k + S (n - S k))%nat at 1 by lia.
  rewrite replicate_add, concat_app. done.
Qed.

Lemma slice_limits sl bs pos : slice_rep sl bs pos →
  Z.of_nat (length A) + mirrors sl * Z.of_nat (length bs) + Z.of_nat (length B) < 2 ^ 63 ∧
  0 ≤ mirrors sl * Z.of_nat (length bs).
Proof.
  intros [? ? ? ? ? ? ? Hl]. rewrite !length_app, length_copies in Hl. nia.
Qed.

Lemma on_inner_spec {R} (m : M T R) sl r t' : m (inner sl) = Ok (r, t') →
  on_inner m sl = Ok (r, with_inner sl t').
Proof. unfold on_inner. by intros ->. Qed.

Lemma ds_read_spec sl bs pos n : slice_rep sl bs pos → 0 ≤ n →
  ∃ (k : nat) sl', ds_read n sl = Ok (IoOk (take k (drop (Z.to_nat pos) bs)), sl') ∧
    slice_rep sl' bs (pos + Z.of_nat k) ∧ Z.of_nat k ≤ n ∧
    Z.of_nat k ≤ Z.max 0 (Z.of_nat (length bs) - pos) ∧
    (0 < n → pos < Z.of_nat (length bs) → (0 < k)%nat).
Proof.
  intros Hr Hn. pose proof (slice_limits sl bs pos Hr) as [Hlim Hm]. destruct Hr as [Hb Hlo Hs Hmi Ho Hp Hi Hl].
  set (m := copies) in *.
  assert (concat (replicate m bs) = bs ++ concat (replicate (m - 1) bs)) as Hc
    by (apply (copies_split 0 m bs); lia).
  assert (Z.of_nat (length bs) ≤ mirrors sl * Z.of_nat (length bs)) by nia.
  destruct (media_read (inner sl) _ (begin sl + offset sl) (Z.min (size sl - offset sl) n) Hi)
    as (k & t1 & t2 & H1 & H2 & Ht2 & Hk & _ & Hk0); [rewrite !length_app, length_copies; nia|lia|].
  exists k, (with_offset (with_inner (with_inner sl t1) t2) (pos + Z.of_nat k)).
  assert (take k (drop (Z.to_nat (begin sl + offset sl)) (A ++ concat (replicate m bs) ++ B)) =
          take k (drop (Z.to_nat pos) bs)) as Hd.
  { rewrite Hb, Ho, Hc, <- app_assoc. apply drop_mid; lia. }
  assert (length (take k (drop (Z.to_nat pos) bs)) = k) as Hlen
    by (rewrite length_take, length_drop; lia).
  split.
  - unfold ds_read. run_refl. do 2 chk_run.
    rewrite (try_ok _ _ _ _ _ (on_inner_spec _ sl _ _ H1)).
    rewrite (try_ok _ _ _ _ _ (on_inner_spec _ (with_inner sl t1) _ _ H2)).
    rewrite Hd, Hlen. chk_run. run_refl. by rewrite Ho.
  - split; [split; cbn; (done || lia)|]. split; [lia|]. split; [lia|].
    intros. apply Hk0; [lia|]. rewrite !length_app, length_copies. nia.
Qed.

(** One round of the mirror loop per copy. *)
Lemma mirror_loop bs bs' off l (m : nat) sl0 : bs' = splice off l bs →
  0 ≤ off → off + Z.of_nat (length l) ≤ Z.of_nat (length bs) →
  media_lo ≤ Z.of_nat (length A) →
  Z.of_nat (length A) + Z.of_nat m * Z.of_nat (length bs) + Z.of_nat (length B) < 2 ^ 63 →
  ∀ n i sl, Z.of_nat m - i = Z.of_nat n → 0 ≤ i →
  (∃ t, sl = with_inner sl0 t ∧
     media_rep t (A ++ concat (replicate (Z.to_nat i) bs' ++ replicate n bs) ++ B)) →
  ∃ t', try_each (range i (Z.of_nat m)) (λ i,
      p ← lift (u64 (i * Z.of_nat (length bs)));
      q ← lift (u64 (Z.of_nat (length A) + off + p));
      on_inner (s_seek (SeekStart q)) ?;
      on_inner (write_all l)) sl = Ok (IoOk tt, with_inner sl0 t') ∧
    media_rep t' (A ++ concat (replicate m bs') ++ B).
Proof.
  intros Hbs' Ho Hl Hlo Hlim. induction n as [|n IH]; intros i sl Hn Hi (t & -> & Ht).
  { rewrite range_nil by lia. exists t. split; [done|]. rewrite app_nil_r in Ht.
    by replace m with (Z.to_nat i) by lia. }
  assert (length bs' = length bs) as Hlen by (subst bs'; by apply length_splice).
  rewrite range_cons by lia. cbn [try_each].
  set (X := concat (replicate (Z.to_nat i) bs')). set (Y := concat (replicate n bs)).
  assert (length X = (Z.to_nat i * length bs)%nat) as HX by (unfold X; by rewrite length_copies, Hlen).
  assert (A ++ concat (replicate (Z.to_nat i) bs' ++ replicate (S n) bs) ++ B = (A ++ X) ++ bs ++ (Y ++ B)) as E.
  { rewrite concat_app. cbn [replicate concat]. fold X Y. by rewrite <- !app_assoc. }
  rewrite E in Ht. set (q := Z.of_nat (length A) + off + i * Z.of_nat (length bs)).
  assert (q = Z.of_nat (length (A ++ X)) + off) as Hq by (rewrite length_app, HX; unfold q; nia).
  assert (0 ≤ q) by lia.
  destruct (media_write t _ q l Ht) as (t1 & t2 & H1 & H2 & Ht2);
    [rewrite Hq, length_app; lia|rewrite Hq, !length_app; rewrite length_app in *; lia|].
  rewrite Hq, splice_mid, <- Hbs' in Ht2 by done.
  destruct (IH (i + 1) (with_inner (with_inner (with_inner sl0 t) t1) t2)) as (t' & H3 & Ht'); [lia|lia| |].
  { exists t2. split; [done|]. replace (Z.to_nat (i + 1)) with (Z.to_nat i + 1)%nat by lia.
    rewrite replicate_add, concat_app, concat_app. cbn [replicate concat]. rewrite app_nil_r.
    fold X Y. rewrite <- !app_assoc in *. exact Ht2. }
  exists t'. split; [|done].
  assert (0 ≤ i * Z.of_nat (length bs) ≤ Z.of_nat m * Z.of_nat (length bs)) by nia.
  assert (q < 2 ^ 63) by (unfold q; nia).
  erewrite try_ok; [exact H3|].
  chk_run. erewrite M_bind_eq; [|apply lift_chk; fold q; lia]. fold q.
  rewrite (try_ok _ _ _ _ _ (on_inner_spec _ (with_inner sl0 t) _ _ H1)).
  exact (on_inner_spec _ (with_inner (with_inner sl0 t) t1) _ _ H2).
Qed.

Lemma ds_write_spec sl bs pos l : slice_rep sl bs pos → pos + Z.of_nat (length l) ≤ Z.of_nat (length bs) →
  ∃ sl', ds_write l sl = Ok (IoOk (Z.of_nat (length l)), sl') ∧
    slice_rep sl' (splice pos l bs) (pos + Z.of_nat (length l)).
Proof.
  intros Hr Hl. pose proof (slice_limits sl bs pos Hr) as [Hlim Hm].
  pose proof Hr as [Hb Hlo Hs Hmi Ho Hp Hi Hli].
  assert (Z.of_nat (length bs) ≤ mirrors sl * Z.of_nat (length bs)) by nia.
  unfold ds_write. setoid_rewrite (M_bind_eq _ _ sl sl sl eq_refl). do 2 chk_run.
  rewrite Hs, Ho. replace (Z.min (Z.of_nat (length bs) - pos) (Z.of_nat (length l))) with (Z.of_nat (length l)) by lia.
  destruct (Z.eqb_spec (Z.of_nat (length l)) 0) as [E|E].
  { destruct l; [|done]. exists sl. split; [done|]. rewrite splice_nil. cbn [length]. by rewrite Z.add_0_r. }
  rewrite Nat2Z.id, (take_ge l) by lia.
  destruct (mirror_loop bs (splice pos l bs) pos l copies sl eq_refl ltac:(lia) Hl ltac:(lia))
    with (n := copies) (i := 0) (sl := sl) as (t' & H1 & Ht'); [nia|lia|lia| |].
  { exists (inner sl). split; [by destruct sl|]. exact Hi. }
  rewrite (proj1 Hmi), Hb. rewrite (try_ok _ _ _ _ _ H1). chk_run. run_refl.
  eexists. split; [done|].
  assert (length (splice pos l bs) = length bs) as Hlen by (apply length_splice; lia).
  split; cbn; rewrite ?Hlen; try (done || lia).
  rewrite !length_app, length_copies in *. by rewrite Hlen.
Qed.

Lemma ds_seek_spec sl bs pos w pos' : slice_rep sl bs pos →
  match w with SeekStart x => x | SeekCurrent x => pos + x | SeekEnd x => Z.of_nat (length bs) + x end = pos' →
  0 ≤ pos' ≤ Z.of_nat (length bs) →
  ∃ sl', ds_seek w sl = Ok (IoOk pos', sl') ∧ slice_rep sl' bs pos'.
Proof.
  intros Hr Hw Hp'. pose proof (slice_limits sl bs pos Hr) as [Hlim Hm].
  destruct Hr as [Hb Hlo Hs Hmi Ho Hp Hi Hli].
  assert (Z.of_nat (length bs) ≤ mirrors sl * Z.of_nat (length bs)) by nia.
  exists (with_offset sl pos'). split; [|split; cbn; (done || lia)].
  unfold ds_seek. run_refl. rewrite (M_bind_eq _ _ sl pos' sl).
  - rewrite (cast_in 64 pos') by lia. replace (_ || _) with false by (rewrite Hs; lia). by run_refl.
  - rewrite <- Hw in *. destruct w; rewrite ?icast_in, ?ichk_in by lia; unfold lift; by rewrite ?Ho, ?Hs.
Qed.

(** A slice is a byte stream over its own bytes. *)
Definition ds_bytes : ByteStream (DiskSlice T).
Proof using A B copies Media0.
  refine {| stream_rep := slice_rep |}.
  - intros sl bs pos Hr. apply Hr.
  - intros sl bs pos pos' Hr Hp. by apply (ds_seek_spec sl bs pos).
  - intros sl bs pos Hr. apply (ds_seek_spec sl bs pos (SeekCurrent 0) pos Hr); [lia|].
    rewrite <- (sr_size _ _ _ Hr). apply Hr.
  - intros sl bs pos n. apply ds_read_spec.
  - intros sl bs pos l Hr Hl. destruct (ds_write_spec sl bs pos l Hr Hl) as (sl' & H & Hr').
    exists (length l), sl'. rewrite take_ge by lia. split_and!; [done|done|lia|]. destruct l; cbn; [done|lia].
Defined.
End slice.
