(* ===== verification/FatVolume.v ===== *)
(** * A mounted FAT32 volume

    The operations of [FileSystem] on a disk that writes whole buffers: what they
    do to the table (all its copies), to the rest of the disk, to the dirty flag
    and to the counters of the FSInfo sector. *)

From S2P Require Import Prelude Io FatIo FatBits BootSector FatTable FatFs FatSlice.

(** A disk that never writes a part of a buffer.  [FsIoAdapter::write] moves the
    position of the disk when it sets the dirty flag, so the continuation of a
    partial write would go to the boot sector. *)
Class WholeWrites (D : Type) `{ByteStream D} : Prop := {
  whole_write d bs pos l : stream_rep d bs pos → pos + Z.of_nat (length l) ≤ Z.of_nat (length bs) →
    ∃ d', s_write l d = Ok (IoOk (Z.of_nat (length l)), d') ∧
      stream_rep d' (splice pos l bs) (pos + Z.of_nat (length l));
}.

#[export] Instance memfile_whole : WholeWrites memfile.
Proof.
  split. intros d bs pos l (<- & <- & ?) Hl. eexists. split; [done|].
  cbn. split_and!; [done|done|lia].
Qed.

(** The byte of the boot sector with the status flags, and the disk without it. *)
Definition STATUS : nat := 0x41.
Definition mask (raw : list Z) : list Z := <[STATUS := 0]> raw.

Lemma length_mask raw : length (mask raw) = length raw.
Proof. apply length_insert. Qed.

Lemma mask_drop raw p : 512 ≤ p → drop (Z.to_nat p) (mask raw) = drop (Z.to_nat p) raw.
Proof. intros. unfold mask, STATUS. apply drop_insert_lt. lia. Qed.

Lemma mask_splice raw p l : 512 ≤ p → p + Z.of_nat (length l) ≤ Z.of_nat (length raw) →
  mask (splice p l raw) = splice p l (mask raw).
Proof.
  intros Hp Hl. unfold splice, mask, STATUS. rewrite insert_app_l by (rewrite length_take; lia).
  rewrite take_insert_lt by lia. do 2 f_equal. symmetry. apply drop_insert_lt. lia.
Qed.

Lemma splice_one p b bs : 0 ≤ p < Z.of_nat (length bs) → splice p [b] bs = <[Z.to_nat p := b]> bs.
Proof.
  intros Hp. apply list_eq. intros i. rewrite splice_lookup by (cbn; lia).
  destruct (decide (i = Z.to_nat p)) as [->|Hne].
  - rewrite decide_True by (cbn; lia). rewrite list_lookup_insert_eq by lia. by rewrite Nat.sub_diag.
  - rewrite decide_False by (cbn; lia). by rewrite list_lookup_insert_ne by done.
Qed.

Lemma mask_status raw b : (STATUS < length raw)%nat → mask (splice (Z.of_nat STATUS) [b] raw) = mask raw.
Proof.
  intros H. rewrite splice_one by (unfold STATUS in *; lia). unfold mask. rewrite Nat2Z.id. apply list_insert_insert_eq.
Qed.

Section fs_media.
Context {D : Type} `{!Stream D, !ByteStream D, !WholeWrites D}.
Abbreviation Fs := (FileSystem D).

(** [fs] is [fs0] up to the disk and the status flags. *)
Definition static (fs0 fs : Fs) : Prop :=
  fs = with_status (with_disk fs0 (disk fs)) (current_status_flags fs).

(** The disk of [fs] stands at [pos]; without its status byte it is [dbs]; the
    status byte holds the current flags; and unless nothing has changed since
    [dbs0] the volume is marked dirty. *)
Record fs_at (fs0 : Fs) (dbs0 : list Z) (fs : Fs) (dbs : list Z) (pos : Z) : Prop := {
  fa_static : static fs0 fs;
  fa_disk : ∃ raw, stream_rep (disk fs) raw pos ∧ dbs = mask raw ∧
    raw !! STATUS = Some (flags_encode (current_status_flags fs));
  fa_len : 512 ≤ Z.of_nat (length dbs);
  fa_dirty : dbs = dbs0 ∨ dirty (current_status_flags fs) = true;
  fa_keep : dirty (current_status_flags fs0) = true → dirty (current_status_flags fs) = true;
}.
Definition fs_rep (fs0 : Fs) (dbs0 : list Z) (fs : Fs) (dbs : list Z) : Prop := ∃ pos, fs_at fs0 dbs0 fs dbs pos.

(** The fields that are fixed at mount time, and a mark that stays *)
Definition same_volume (fs fs' : Fs) : Prop :=
  options fs' = options fs ∧ fat_type fs' = fat_type fs ∧ fs_bpb fs' = fs_bpb fs ∧
  fs_first_data_sector fs' = fs_first_data_sector fs ∧ fs_root_dir_sectors fs' = fs_root_dir_sectors fs ∧
  fs_total_clusters fs' = fs_total_clusters fs ∧
  (dirty (current_status_flags fs) = true → dirty (current_status_flags fs') = true).

Lemma same_volume_trans fs1 fs2 fs3 : same_volume fs1 fs2 → same_volume fs2 fs3 → same_volume fs1 fs3.
Proof. unfold same_volume. intuition congruence. Qed.
Lemma static_same fs fs' i : static fs fs' →
  (dirty (current_status_flags fs) = true → dirty (current_status_flags fs') = true) → same_volume fs (with_info fs' i).
Proof. unfold static, same_volume. intros -> Hd. by split_and!. Qed.
Lemma same_volume_refl fs : same_volume fs fs.
Proof. by split_and!. Qed.

Lemma on_disk_spec {R} (m : M D R) fs r d' : m (disk fs) = Ok (r, d') →
  on_disk m fs = Ok (r, with_disk fs d').
Proof. unfold on_disk. by intros ->. Qed.

Lemma static_disk fs0 fs d : static fs0 fs → static fs0 (with_disk fs d).
Proof. unfold static. by intros ->. Qed.
Lemma static_status fs0 fs f : static fs0 fs → static fs0 (with_status fs f).
Proof. unfold static. by intros ->. Qed.

Lemma fs_seek_spec fs0 dbs0 fs dbs p : fs_rep fs0 dbs0 fs dbs → 0 ≤ p ≤ Z.of_nat (length dbs) →
  ∃ fs', s_seek (SeekStart p) fs = Ok (IoOk p, fs') ∧ fs_at fs0 dbs0 fs' dbs p.
Proof.
  intros [pos [Hs (raw & Hd & -> & Hb) Hl Hdi Hke]] Hp. rewrite length_mask in Hp.
  destruct (stream_seek (disk fs) raw pos p Hd Hp) as (d' & H & Hd').
  exists (with_disk fs d'). split; [by apply (on_disk_spec (s_seek (SeekStart p)))|].
  split; [by apply static_disk|by exists raw|done|done|done].
Qed.

Lemma fs_read_spec fs0 dbs0 fs dbs p n : fs_at fs0 dbs0 fs dbs p →
  512 ≤ p ≤ Z.of_nat (length dbs) → 0 ≤ n →
  ∃ (k : nat) fs', s_read n fs = Ok (IoOk (take k (drop (Z.to_nat p) dbs)), fs') ∧ fs_rep fs0 dbs0 fs' dbs ∧
    Z.of_nat k ≤ n ∧ Z.of_nat k ≤ Z.of_nat (length dbs) - p ∧
    (0 < n → p < Z.of_nat (length dbs) → (0 < k)%nat).
Proof.
  intros [Hs (raw & Hd & -> & Hb) Hl Hdi Hke] Hp Hn. rewrite length_mask in *.
  destruct (stream_read (disk fs) raw p n Hd Hn) as (k & d' & H & Hd' & Hk & Hkl & Hk0).
  exists k, (with_disk fs d'). rewrite mask_drop by lia.
  split; [by apply (on_disk_spec (s_read n))|]. split; [|split_and!; [lia|lia|done]].
  exists (p + Z.of_nat k). split; [by apply static_disk|by exists raw|by rewrite length_mask|done|done].
Qed.

Definition flags_with (fs : Fs) (b : bool) : FsStatusFlags :=
  {| dirty := dirty (status_flags (fs_bpb fs)) || b; io_error := io_error (status_flags (fs_bpb fs)) |}.

Lemma flags_encode_byte f : le_bytes 1 (flags_encode f) = [flags_encode f].
Proof. by destruct f as [[] []]. Qed.

(** [set_dirty_flag] writes the status byte and nothing else. *)
Lemma set_dirty_spec fs b raw pos :
  fat_type fs = Fat32 → stream_rep (disk fs) raw pos → 512 ≤ Z.of_nat (length raw) →
  raw !! STATUS = Some (flags_encode (current_status_flags fs)) →
  ∃ fs' raw' pos', set_dirty_flag b fs = Ok (IoOk tt, fs') ∧ static fs fs' ∧
    current_status_flags fs' = flags_with fs b ∧ stream_rep (disk fs') raw' pos' ∧ mask raw' = mask raw ∧
    length raw' = length raw ∧ raw' !! STATUS = Some (flags_encode (current_status_flags fs')).
Proof.
  intros Hf Hd Hl Hb. unfold set_dirty_flag. setoid_rewrite (M_bind_eq _ _ fs fs fs eq_refl). rewrite Hf.
  fold (flags_with fs b). case_bool_decide as E.
  { exists fs, raw, pos. split_and!; try done. by destruct fs. }
  destruct (stream_seek (disk fs) raw pos 0x41 Hd) as (d1 & H1 & Hd1); [lia|].
  destruct (write_all_spec d1 raw 0x41 [flags_encode (flags_with fs b)] Hd1) as (d2 & H2 & Hd2); [cbn; lia|].
  assert (STATUS < length raw)%nat by (unfold STATUS; lia).
  eexists (with_status (with_disk (with_disk fs d1) d2) (flags_with fs b)), _, _. split_and!; [|done|done|exact Hd2| | |].
  - rewrite (try_ok _ _ _ _ _ (on_disk_spec _ fs _ _ H1)).
    unfold write_u8. rewrite flags_encode_byte.
    rewrite (try_ok _ _ _ _ _ (on_disk_spec _ (with_disk fs d1) _ _ H2)). by run_refl.
  - by apply mask_status.
  - apply length_splice; cbn; lia.
  - rewrite splice_one by lia. change (Z.to_nat 0x41) with STATUS. rewrite list_lookup_insert_eq by lia. done.
Qed.

Lemma static_trans fs0 fs1 fs2 : static fs0 fs1 → static fs1 fs2 → static fs0 fs2.
Proof. unfold static. intros H1 H2. rewrite H2. rewrite H1 at 1. done. Qed.

(** A write through the adapter. *)
Lemma fs_write_all_spec fs0 dbs0 fs dbs p l :
  fat_type fs0 = Fat32 → fs_at fs0 dbs0 fs dbs p → 512 ≤ p → p + Z.of_nat (length l) ≤ Z.of_nat (length dbs) →
  ∃ fs', write_all l fs = Ok (IoOk tt, fs') ∧ fs_rep fs0 dbs0 fs' (splice p l dbs).
Proof.
  intros Hf Hat Hp Hl. destruct l as [|b l0].
  { exists fs. split; [done|]. rewrite splice_nil. by exists p. }
  set (l := b :: l0) in *. assert (length l = S (length l0)) as Hll by done. destruct Hat as [Hs (raw & Hd & -> & Hb) Hlen Hdi Hke]. rewrite length_mask in *.
  destruct (whole_write (disk fs) raw p l Hd Hl) as (d1 & H1 & Hd1).
  assert (splice p l raw !! STATUS = Some (flags_encode (current_status_flags fs))) as Hb1.
  { rewrite splice_lookup by lia. unfold STATUS in *. by rewrite decide_False by lia. }
  destruct (set_dirty_spec (with_disk fs d1) true _ _ ltac:(cbn; by rewrite Hs) Hd1) as
    (fs2 & raw2 & pos2 & H2 & Hs2 & Hc2 & Hd2 & Hm2 & Hl2 & Hb2); [by rewrite length_splice by lia|done|].
  exists fs2. split.
  - unfold write_all. change (length l) with (S (length l0)). cbn [write_all_loop]. unfold l at 1.
    assert (s_write l fs = Ok (IoOk (Z.of_nat (S (length l0))), fs2)) as Hw.
    { cbn [s_write fs_io_adapter]. rewrite (try_ok _ _ _ _ _ (on_disk_spec (s_write l) fs _ _ H1)).
      replace (0 <? Z.of_nat (length l)) with true by lia.
      rewrite (try_ok _ _ _ _ _ H2). by rewrite Hll. }
    run Hw. destruct (Z.of_nat (S (length l0))) as [|q|q] eqn:Eq; [lia| |lia]. rewrite <- Eq.
    replace (Z.of_nat (length l) <? Z.of_nat (S (length l0))) with false by (rewrite Hll; lia). run_refl.
    rewrite Nat2Z.id, <- Hll.
    rewrite drop_all. by destruct (length l0).
  - exists pos2. split.
    + eapply static_trans; [apply static_disk, Hs|done].
    + exists raw2. split_and!; [done| |done]. by rewrite Hm2, mask_splice.
    + rewrite length_splice by (rewrite ?length_mask; lia). by rewrite length_mask.
    + right. rewrite Hc2. unfold flags_with. by rewrite orb_true_r.
    + intros _. rewrite Hc2. unfold flags_with. by rewrite orb_true_r.
Qed.

(** A mounted file system is a medium: its writes show in the bytes behind the
    boot sector, and the flag they set does not. *)
Definition fs_media (fs0 : Fs) (dbs0 : list Z) (Hf : fat_type fs0 = Fat32) : Media Fs.
Proof using WholeWrites0.
  refine {| media_rep := fs_rep fs0 dbs0; media_lo := 512 |}.
  - done.
  - intros fs dbs p n Hr Hp Hn. destruct (fs_seek_spec fs0 dbs0 fs dbs p Hr) as (fs1 & H1 & Hr1); [lia|].
    destruct (fs_read_spec fs0 dbs0 fs1 dbs p n Hr1 Hp Hn) as (k & fs2 & H2 & Hr2 & Hk).
    by exists k, fs1, fs2.
  - intros fs dbs p l Hr Hp Hl. destruct (fs_seek_spec fs0 dbs0 fs dbs p Hr) as (fs1 & H1 & Hr1); [lia|].
    destruct (fs_write_all_spec fs0 dbs0 fs1 dbs p l Hf Hr1 Hp Hl) as (fs2 & H2 & Hr2).
    by exists fs1, fs2.
Defined.
End fs_media.

(** ** Volumes *)
Section volume.
Context {D : Type} `{!Stream D, !ByteStream D, !WholeWrites D}.
Abbreviation Fs := (FileSystem D).

Definition fat_copies (b : BiosParameterBlock) : Z := if mirroring_enabled b then fats b else 1.
Definition fat_first_sector (b : BiosParameterBlock) : Z :=
  reserved_sectors_16 b + (if mirroring_enabled b then 0 else active_fat b * sectors_per_fat b).
Definition volume_bytes (b : BiosParameterBlock) (A bs B : list Z) : list Z :=
  A ++ concat (replicate (Z.to_nat (fat_copies b)) bs) ++ B.
Definition data_clusters (fs : Fs) : list Z :=
  range RESERVED_FAT_ENTRIES (fs_total_clusters fs + RESERVED_FAT_ENTRIES).

(** A mounted volume: the disk is [A] (the reserved area), the copies of the
    table [bs], and [B] (the data area); the FSInfo hint is a data cluster and the
    FSInfo count, when there is one, is the number of free entries. *)
Record volume (fs : Fs) (A bs B : list Z) : Prop := {
  v_fat32 : fat_type fs = Fat32;
  v_bpb : bpb_wf (fs_bpb fs);
  v_A : Z.of_nat (length A) = fat_first_sector (fs_bpb fs) * bytes_per_sector (fs_bpb fs);
  v_lo : 512 ≤ Z.of_nat (length A);
  v_bs : Z.of_nat (length bs) = sectors_per_fat (fs_bpb fs) * bytes_per_sector (fs_bpb fs);
  v_copies : 1 ≤ fat_copies (fs_bpb fs);
  v_first : fat_first_sector (fs_bpb fs) < 2 ^ 32;
  v_disk : fs_rep fs (volume_bytes (fs_bpb fs) A bs B) fs (volume_bytes (fs_bpb fs) A bs B);
  v_limit : Z.of_nat (length (volume_bytes (fs_bpb fs) A bs B)) < 2 ^ 63;
  v_fat : fat_for Fat32 bs (fs_total_clusters fs);
  v_hint n : next_free_cluster (fs_info fs) = Some n → RESERVED_FAT_ENTRIES ≤ n;
  v_count n : free_cluster_count (fs_info fs) = Some n → n = free_count Fat32 bs (data_clusters fs);
}.

Lemma sectors_per_fat_wf b : bpb_wf b → 0 ≤ sectors_per_fat b < 2 ^ 32.
Proof. intros []. unfold sectors_per_fat. destruct (is_fat32 b); lia. Qed.

Lemma active_fat_wf b : bpb_wf b → 0 ≤ active_fat b.
Proof.
  intros []. unfold active_fat. destruct (mirroring_enabled b); [done|]. apply Z.land_nonneg. lia.
Qed.

(** The slice of the table of a volume. *)
Lemma fat_slice_volume fs A bs B : volume fs A bs B →
  fat_slice fs (fs_bpb fs) = Ok {| begin := Z.of_nat (length A); size := Z.of_nat (length bs); offset := 0;
                                   mirrors := fat_copies (fs_bpb fs); inner := fs |}.
Proof.
  intros [_ Hb HA _ Hbs _ Hf _ _ _ _ _]. pose proof (sectors_per_fat_wf _ Hb) as Hspf.
  pose proof (active_fat_wf _ Hb) as Hact.
  pose proof (wf_bps _ Hb) as Hbps. pose proof (wf_rs _ Hb) as Hrs.
  unfold fat_slice, fat_copies, fat_first_sector, ds_from_sectors, bytes_from_sectors, ds_new in *.
  destruct (mirroring_enabled (fs_bpb fs)).
  - rewrite Z.add_0_r in HA. rewrite <- HA. rewrite (chk_in 64 (Z.of_nat (length A))) by nia.
    cbn [mbind exec_bind]. rewrite <- Hbs, chk_in by nia. done.
  - rewrite (chk_in 32 (active_fat _ * _)) by nia. cbn [mbind exec_bind].
    rewrite (chk_in 32 (reserved_sectors_16 _ + _)) by nia. cbn [mbind exec_bind].
    rewrite <- HA, (chk_in 64 (Z.of_nat (length A))) by nia.
    cbn [mbind exec_bind]. rewrite <- Hbs, chk_in by nia. done.
Qed.

(** Work on the table of a volume. *)
Definition volume_stream (fs : Fs) (A bs B : list Z) (Hf : fat_type fs = Fat32) : ByteStream (DiskSlice Fs) :=
  ds_bytes (Media0 := fs_media fs (volume_bytes (fs_bpb fs) A bs B) Hf) A B (Z.to_nat (fat_copies (fs_bpb fs))).

Lemma with_fat_run {R} (m : M (DiskSlice Fs) R) fs A bs B (H : volume fs A bs B) :
  ∃ sl, stream_rep (ByteStream := volume_stream fs A bs B (v_fat32 _ _ _ _ H)) sl bs 0 ∧
    ∀ r sl', m sl = Ok (r, sl') → with_fat m fs = Ok (r, inner sl').
Proof.
  eexists. split; [|intros r sl' Hm; unfold with_fat, with_slice; rewrite (fat_slice_volume fs A bs B H);
    by rewrite Hm].
  split; cbn; try done; try apply H.
  - split; [|pose proof (v_copies _ _ _ _ H); lia]. pose proof (v_copies _ _ _ _ H). lia.
  - lia.
Qed.

Lemma volume_slice fs A bs B (H : volume fs A bs B) sl bs' pos' :
  stream_rep (ByteStream := volume_stream fs A bs B (v_fat32 _ _ _ _ H)) sl bs' pos' →
  fs_rep fs (volume_bytes (fs_bpb fs) A bs B) (inner sl) (volume_bytes (fs_bpb fs) A bs' B).
Proof. intros Hr. apply (sr_inner _ _ _ _ _ _ Hr). Qed.

(** The volume after an operation. *)
Lemma volume_after fs A bs B fs' bs' B' i :
  volume fs A bs B → fs_rep fs (volume_bytes (fs_bpb fs) A bs B) fs' (volume_bytes (fs_bpb fs) A bs' B') →
  length bs' = length bs → length B' = length B → fat_for Fat32 bs' (fs_total_clusters fs) →
  (∀ n, next_free_cluster i = Some n → RESERVED_FAT_ENTRIES ≤ n) →
  (∀ n, free_cluster_count i = Some n → n = free_count Fat32 bs' (data_clusters fs)) →
  volume (with_info fs' i) A bs' B'.
Proof.
  intros [] [pos [Hs (raw & Hd & Hm & Hb) Hl Hdi Hke]] Hlb HlB Hf Hh Hc. unfold static in Hs.
  assert (fs_bpb (with_info fs' i) = fs_bpb fs) as Eb by (cbn; by rewrite Hs).
  assert (fs_total_clusters (with_info fs' i) = fs_total_clusters fs) as Et by (cbn; by rewrite Hs).
  assert (length (volume_bytes (fs_bpb fs) A bs' B') = length (volume_bytes (fs_bpb fs) A bs B)) as El.
  { unfold volume_bytes. by rewrite !length_app, !length_copies, Hlb, HlB. }
  split; rewrite ?Eb, ?Et, ?El; try done.
  - cbn. by rewrite Hs.
  - by rewrite Hlb.
  - exists pos. split; [done|by exists raw|done|by left|done].
  - intros n Hn. unfold data_clusters. rewrite Et. by apply Hc.
Qed.

Lemma with_info_id (fs : Fs) : with_info fs (fs_info fs) = fs.
Proof. by destruct fs. Qed.

Lemma static_info fs0 (fs : Fs) : static fs0 fs → fs_info fs = fs_info fs0.
Proof. unfold static. by intros ->. Qed.

(** Freeing or taking a set of clusters changes the number of free entries by its
    size. *)
Lemma free_count_diff t bs bs' (S l : list Z) :
  NoDup S → NoDup l → S ⊆ l →
  (∀ c, c ∈ l → free_entry t bs' c = true ↔ free_entry t bs c = true ∨ c ∈ S) →
  (∀ c, c ∈ S → free_entry t bs c = false) →
  free_count t bs' l = free_count t bs l + Z.of_nat (length S).
Proof.
  intros HS Hl Hsub H1 H2. unfold free_count.
  assert (filter (λ c, free_entry t bs' c = true) l ≡ₚ S ++ filter (λ c, free_entry t bs c = true) l) as Hp.
  { apply NoDup_Permutation.
    - by apply NoDup_filter.
    - apply NoDup_app. split; [done|]. split; [|by apply NoDup_filter].
      intros c Hc Hf. apply list_elem_of_filter in Hf as [Hf _]. by rewrite (H2 c Hc) in Hf.
    - intros c. rewrite elem_of_app, !list_elem_of_filter. split.
      + intros [Hf Hc]. apply (H1 c Hc) in Hf as [Hf|Hf]; auto.
      + intros [Hc|[Hf Hc]]; (split; [apply H1|]); auto. }
  rewrite (Permutation_length Hp), length_app. lia.
Qed.

Lemma data_free_entry fs A bs B c : volume fs A bs B → c ∈ data_clusters fs →
  free_entry Fat32 bs c = true ↔ fat_value Fat32 bs c = Free.
Proof.
  intros Hv Hc. apply elem_of_range in Hc. pose proof (v_fat _ _ _ _ Hv) as Hf.
  destruct (fat_for_in _ _ _ c Hf Hc) as (_ & Hs & _).
  apply free_entry_value; [apply Hf|unfold RESERVED_FAT_ENTRIES in *; lia|done].
Qed.

(** [write_zeros] *)
Lemma write_zeros_loop_spec fuel : ∀ (d : D) bs pos len,
  stream_rep d bs pos → 0 ≤ len < 2 ^ 64 → pos + len ≤ Z.of_nat (length bs) → len < 512 * Z.of_nat fuel + 1 →
  ∃ d', write_zeros_loop fuel len d = Ok (IoOk tt, d') ∧
    stream_rep d' (splice pos (replicate (Z.to_nat len) 0) bs) (pos + len).
Proof.
  induction fuel as [|fuel IH]; intros d bs pos len Hd Hlen Hb Hf.
  { assert (len = 0) as -> by lia. exists d. cbn. rewrite splice_nil, Z.add_0_r. done. }
  cbn [write_zeros_loop]. destruct (Z.leb_spec len 0).
  { assert (len = 0) as -> by lia. exists d. cbn. rewrite splice_nil, Z.add_0_r. done. }
  set (w := Z.min len 512). pose proof (stream_pos _ _ _ Hd).
  assert (length (replicate (Z.to_nat w) 0) = Z.to_nat w) as Hw by apply length_replicate.
  destruct (write_all_spec d bs pos (replicate (Z.to_nat w) 0) Hd) as (d1 & H1 & Hd1); [rewrite Hw; lia|].
  rewrite (try_ok _ _ _ _ _ H1). chk_run.
  destruct (IH d1 _ _ (len - w) Hd1) as (d2 & H2 & Hd2); [lia|rewrite length_splice, Hw by (rewrite ?Hw; lia); lia|lia|].
  exists d2. split; [done|].
  rewrite splice_app in Hd2 by (rewrite ?length_app, ?length_replicate; lia).
  rewrite <- replicate_add in Hd2. rewrite Hw in Hd2.
  replace (Z.to_nat w + Z.to_nat (len - w))%nat with (Z.to_nat len) in Hd2 by lia.
  by replace (pos + Z.of_nat (Z.to_nat w) + (len - w)) with (pos + len) in Hd2 by lia.
Qed.

Lemma write_zeros_spec (d : D) bs pos len :
  stream_rep d bs pos → 0 ≤ len < 2 ^ 64 → pos + len ≤ Z.of_nat (length bs) →
  ∃ d', write_zeros len d = Ok (IoOk tt, d') ∧
    stream_rep d' (splice pos (replicate (Z.to_nat len) 0) bs) (pos + len).
Proof.
  intros Hd Hlen Hb. apply write_zeros_loop_spec; try done.
  pose proof (Z.div_mod len 512). pose proof (Z.mod_pos_bound len 512). lia.
Qed.

(** Allocation in the table of a volume. *)
Lemma with_fat_alloc fs A bs B prev : volume fs A bs B →
  (∀ p, prev = Some p → live (fs_total_clusters fs) p) →
  let run := with_fat (alloc_cluster Fat32 prev (next_free_cluster (fs_info fs)) (fs_total_clusters fs)) fs in
  (∃ c fs' bs', run = Ok (IoOk c, fs') ∧
     fs_rep fs (volume_bytes (fs_bpb fs) A bs B) fs' (volume_bytes (fs_bpb fs) A bs' B) ∧
     live (fs_total_clusters fs) c ∧ fat_value Fat32 bs c = Free ∧ allocated Fat32 bs prev c bs' ∧
     fat_for Fat32 bs' (fs_total_clusters fs) ∧ length bs' = length bs) ∨
  ((∀ c, live (fs_total_clusters fs) c → fat_value Fat32 bs c ≠ Free) ∧
   ∃ fs', run = Ok (IoErr OtherError, fs') ∧
     fs_rep fs (volume_bytes (fs_bpb fs) A bs B) fs' (volume_bytes (fs_bpb fs) A bs B)).
Proof.
  intros Hv Hp run. unfold run.
  destruct (with_fat_run (alloc_cluster Fat32 prev (next_free_cluster (fs_info fs)) (fs_total_clusters fs))
              fs A bs B Hv) as (sl & Hsl & Hrun).
  destruct (alloc_cluster_spec (ByteStream0 := volume_stream fs A bs B (v_fat32 _ _ _ _ Hv))
              Fat32 prev (next_free_cluster (fs_info fs)) (fs_total_clusters fs) sl bs 0)
    as [(c & sl' & bs' & pos' & H & Hsl' & Hc & Hfree & Ha & Hf & Hl)|(Hno & sl' & pos' & H & Hsl')];
    [apply Hv|apply (v_hint _ _ _ _ Hv)|exact Hp|exact Hsl| |].
  - left. exists c, (inner sl'), bs'. split; [exact (Hrun _ _ H)|].
    split; [exact (volume_slice fs A bs B Hv sl' bs' pos' Hsl')|]. split_and!; [apply Hc..|done|done|done|done].
  - right. split; [done|]. exists (inner sl'). split; [exact (Hrun _ _ H)|].
    exact (volume_slice fs A bs B Hv sl' bs pos' Hsl').
Qed.

(** The geometry of the data area [B]. *)
Record data_area (fs : Fs) (A bs B : list Z) : Prop := {
  da_spc : 1 ≤ sectors_per_cluster (fs_bpb fs);
  da_bps : 1 ≤ bytes_per_sector (fs_bpb fs);
  da_start : Z.of_nat (length (A ++ concat (replicate (Z.to_nat (fat_copies (fs_bpb fs))) bs))) ≤
    fs_first_data_sector fs * bytes_per_sector (fs_bpb fs);
  da_end : (fs_first_data_sector fs + fs_total_clusters fs * sectors_per_cluster (fs_bpb fs)) *
    bytes_per_sector (fs_bpb fs) ≤ Z.of_nat (length (volume_bytes (fs_bpb fs) A bs B));
  da_sectors : fs_first_data_sector fs + fs_total_clusters fs * sectors_per_cluster (fs_bpb fs) < 2 ^ 32;
}.

Definition cluster_bytes (fs : Fs) : Z := sectors_per_cluster (fs_bpb fs) * bytes_per_sector (fs_bpb fs).
(** Where cluster [c] begins on the disk, and in the data area. *)
Definition cluster_pos (fs : Fs) (c : Z) : Z :=
  (fs_first_data_sector fs + (c - RESERVED_FAT_ENTRIES) * sectors_per_cluster (fs_bpb fs)) *
  bytes_per_sector (fs_bpb fs).
Definition in_data (fs : Fs) (A bs : list Z) (c : Z) : Z :=
  cluster_pos fs c - Z.of_nat (length (A ++ concat (replicate (Z.to_nat (fat_copies (fs_bpb fs))) bs))).

Lemma cluster_pos_range fs A bs B c : volume fs A bs B → data_area fs A bs B → live (fs_total_clusters fs) c →
  0 ≤ in_data fs A bs c ∧ in_data fs A bs c + cluster_bytes fs ≤ Z.of_nat (length B) ∧
  offset_from_cluster fs c = Ok (cluster_pos fs c) ∧ fs_cluster_size fs = Ok (cluster_bytes fs) ∧
  0 < cluster_bytes fs < 2 ^ 32.
Proof.
  intros Hv [Hspc Hbps Hst Hen Hsec] [Hc1 Hc2]. pose proof (v_limit _ _ _ _ Hv) as Hlim.
  pose proof (wf_bps _ (v_bpb _ _ _ _ Hv)) as Hb. pose proof (wf_spc _ (v_bpb _ _ _ _ Hv)) as Hs.
  unfold volume_bytes in *. rewrite app_assoc in Hen, Hlim. rewrite (length_app (A ++ _)) in Hen, Hlim.
  unfold offset_from_cluster, sector_from_cluster, offset_from_sector, sectors_from_clusters, bytes_from_sectors,
    fs_cluster_size, cluster_size, in_data, cluster_pos, cluster_bytes, RESERVED_FAT_ENTRIES in *.
  set (L := Z.of_nat (length (A ++ concat _))) in *. set (spc := sectors_per_cluster (fs_bpb fs)) in *.
  set (bps := bytes_per_sector (fs_bpb fs)) in *. set (fds := fs_first_data_sector fs) in *.
  set (tc := fs_total_clusters fs) in *.
  assert (0 ≤ (c - 2) * spc) by nia. assert ((c - 2) * spc + spc ≤ tc * spc) by nia.
  assert (0 ≤ fds) by nia.
  assert ((fds + (c - 2) * spc) * bps + spc * bps ≤ (fds + tc * spc) * bps) by nia.
  assert (0 < spc * bps < 2 ^ 32) by nia. assert (fds * bps ≤ (fds + (c - 2) * spc) * bps) by nia.
  split_and!; [lia|lia| |apply chk_in; lia|lia|lia].
  rewrite (chk_in 32 (c - 2)) by nia. cbn [mbind exec_bind]. rewrite chk_in by nia. cbn [mbind exec_bind].
  rewrite chk_in by nia. cbn [mbind exec_bind]. apply chk_in. lia.
Qed.

(** Zeroing a cluster. *)
Lemma zero_cluster fs A bs B c fs1 bs1 : volume fs A bs B → data_area fs A bs B → live (fs_total_clusters fs) c →
  length bs1 = length bs → dirty (current_status_flags fs1) = true →
  fs_rep fs (volume_bytes (fs_bpb fs) A bs B) fs1 (volume_bytes (fs_bpb fs) A bs1 B) →
  ∃ fs2, (on_disk (s_seek (SeekStart (cluster_pos fs c))) ?; on_disk (write_zeros (cluster_bytes fs))) fs1 =
      Ok (IoOk tt, fs2) ∧ current_status_flags fs2 = current_status_flags fs1 ∧
    fs_rep fs (volume_bytes (fs_bpb fs) A bs B) fs2 (volume_bytes (fs_bpb fs) A bs1
      (splice (in_data fs A bs c) (replicate (Z.to_nat (cluster_bytes fs)) 0) B)).
Proof.
  intros Hv Hda Hc Hlb Hdirty [pos [Hs (raw & Hd & Hm & Hb) Hl Hdi Hke]].
  destruct (cluster_pos_range fs A bs B c Hv Hda Hc) as (Hp0 & Hp1 & _ & _ & Hcb).
  set (X := A ++ concat (replicate (Z.to_nat (fat_copies (fs_bpb fs))) bs1)).
  assert (volume_bytes (fs_bpb fs) A bs1 B = X ++ B ++ []) as EX
    by (unfold volume_bytes, X; by rewrite app_nil_r, app_assoc).
  assert (cluster_pos fs c = Z.of_nat (length X) + in_data fs A bs c) as Ep.
  { unfold in_data, X. rewrite !length_app, !length_copies, Hlb. lia. }
  assert (length raw = length X + length B)%nat as Hraw.
  { rewrite <- (length_mask raw), <- Hm, EX, !length_app. cbn. lia. }
  assert (512 ≤ Z.of_nat (length X)) by (pose proof (v_lo _ _ _ _ Hv); unfold X; rewrite length_app; lia).
  destruct (stream_seek (disk fs1) raw pos (cluster_pos fs c) Hd) as (d1 & H1 & Hd1); [lia|].
  destruct (write_zeros_spec d1 raw (cluster_pos fs c) (cluster_bytes fs) Hd1) as (d2 & H2 & Hd2); [lia|lia|].
  assert (length (replicate (Z.to_nat (cluster_bytes fs)) 0) = Z.to_nat (cluster_bytes fs)) as Hz by apply length_replicate.
  exists (with_disk (with_disk fs1 d1) d2). split; [|split; [done|]].
  - rewrite (try_ok _ _ _ _ _ (on_disk_spec _ fs1 _ _ H1)).
    exact (on_disk_spec _ (with_disk fs1 d1) _ _ H2).
  - eexists. split.
    + by apply static_disk, static_disk.
    + eexists. split; [exact Hd2|]. split.
      * rewrite mask_splice by lia. rewrite <- Hm, EX, Ep, splice_mid by (rewrite ?Hz; lia).
        unfold X, volume_bytes. by rewrite app_nil_r, app_assoc.
      * rewrite splice_lookup by lia. unfold STATUS in *. rewrite decide_False by lia. exact Hb.
    + unfold volume_bytes in *. rewrite !length_app in *. rewrite length_splice by (rewrite ?Hz; lia). done.
    + by right.
    + done.
Qed.

Lemma free_count_bound t bs fs : 0 ≤ fs_total_clusters fs →
  0 ≤ free_count t bs (data_clusters fs) ≤ fs_total_clusters fs.
Proof.
  intros Ht. unfold free_count, data_clusters, range.
  pose proof (length_filter (λ c, free_entry t bs c = true)
    (seqZ RESERVED_FAT_ENTRIES (fs_total_clusters fs + RESERVED_FAT_ENTRIES - RESERVED_FAT_ENTRIES))) as H.
  rewrite length_seqZ in H. lia.
Qed.

Lemma fat_for_total t bs total : fat_for t bs total → 1 ≤ total < 2 ^ 28 - 2.
Proof.
  intros [_ [H1 H2] _]. pose proof (cluster_limit_32 t). unfold RESERVED_FAT_ENTRIES in *. lia.
Qed.

Lemma add_free_spec i k n : free_cluster_count i = Some n → 0 ≤ n < 2 ^ 30 → - 2 ^ 30 ≤ k < 2 ^ 30 → 0 ≤ n + k →
  add_free_clusters i k = Ok {| free_cluster_count := Some (n + k); next_free_cluster := next_free_cluster i;
                                info_dirty := true |}.
Proof.
  intros Hn Hr Hk Hs. unfold add_free_clusters. rewrite Hn, icast_in by lia. rewrite ichk_in by lia.
  cbn [mbind exec_bind mret exec_ret]. by rewrite cast_in by lia.
Qed.

Lemma update_info_spec (f : FsInfoSector → exec FsInfoSector) (fs : Fs) i :
  f (fs_info fs) = Ok i → update_info f fs = Ok (tt, with_info fs i).
Proof. intros H. unfold update_info. run_refl. rewrite H. by run_refl. Qed.

Lemma add_free_none i k : free_cluster_count i = None → add_free_clusters i k = Ok i.
Proof. intros Hn. unfold add_free_clusters. by rewrite Hn. Qed.

(** The count after an allocation. *)
Lemma allocated_count fs A bs B prev c bs' : volume fs A bs B → live (fs_total_clusters fs) c →
  (∀ p, prev = Some p → live (fs_total_clusters fs) p ∧ fat_value Fat32 bs p ≠ Free) →
  fat_value Fat32 bs c = Free → allocated Fat32 bs prev c bs' → fat_for Fat32 bs' (fs_total_clusters fs) →
  free_count Fat32 bs' (data_clusters fs) = free_count Fat32 bs (data_clusters fs) - 1.
Proof.
  intros Hv Hc Hp Hfree Ha Hf.
  assert (c ∈ data_clusters fs) as Hin by (by apply elem_of_range).
  assert (∀ x, x ∈ data_clusters fs → free_entry Fat32 bs' x = true ↔ fat_value Fat32 bs' x = Free) as He.
  { intros x Hx. apply elem_of_range in Hx. destruct (fat_for_in _ _ _ x Hf Hx) as (_ & Hs & _).
    apply free_entry_value; [apply Hf|unfold RESERVED_FAT_ENTRIES in *; lia|done]. }
  assert (∀ x, x ∈ data_clusters fs → fat_value Fat32 bs' x = Free ↔ fat_value Fat32 bs x = Free ∧ x ≠ c) as Hx.
  { intros x Hx. apply elem_of_range in Hx. rewrite Ha by (unfold RESERVED_FAT_ENTRIES in *; lia).
    destruct (decide (prev = Some x)) as [E|E]; [destruct (Hp x E); naive_solver|].
    destruct (decide (x = c)); naive_solver. }
  rewrite (free_count_diff Fat32 bs' bs [c] (data_clusters fs)).
  - cbn [length]. lia.
  - apply NoDup_singleton.
  - apply NoDup_range.
  - intros x Hxc. by apply list_elem_of_singleton in Hxc as ->.
  - intros x Hxd. rewrite (data_free_entry fs A bs B x Hv Hxd), (He x Hxd), (Hx x Hxd), list_elem_of_singleton.
    destruct (decide (x = c)); naive_solver.
  - intros x Hxc. apply list_elem_of_singleton in Hxc as ->.
    destruct (free_entry Fat32 bs' c) eqn:E; [|done]. apply (He c Hin), (Hx c Hin) in E. naive_solver.
Qed.

Lemma fs_alloc_spec fs A bs B prev zero :
  volume fs A bs B → data_area fs A bs B →
  (∀ p, prev = Some p → live (fs_total_clusters fs) p ∧ fat_value Fat32 bs p ≠ Free) →
  (∃ c fs' bs', fs_alloc_cluster prev zero fs = Ok (IoOk c, fs') ∧
     volume fs' A bs' (if zero then splice (in_data fs A bs c) (replicate (Z.to_nat (cluster_bytes fs)) 0) B else B) ∧
     live (fs_total_clusters fs) c ∧ fat_value Fat32 bs c = Free ∧ allocated Fat32 bs prev c bs' ∧
     dirty (current_status_flags fs') = true ∧ next_free_cluster (fs_info fs') = Some (c + 1) ∧
     same_volume fs fs') ∨
  ((∀ c, live (fs_total_clusters fs) c → fat_value Fat32 bs c ≠ Free) ∧
   ∃ fs', fs_alloc_cluster prev zero fs = Ok (IoErr OtherError, fs') ∧ volume fs' A bs B ∧ same_volume fs fs').
Proof.
  intros Hv Hda Hp. pose proof (fat_for_total _ _ _ (v_fat _ _ _ _ Hv)) as Htot.
  unfold fs_alloc_cluster. setoid_rewrite (M_bind_eq _ _ fs fs fs eq_refl). rewrite (v_fat32 _ _ _ _ Hv).
  destruct (with_fat_alloc fs A bs B prev Hv) as [(c & fs1 & bs' & H1 & Hr1 & Hc & Hfree & Ha & Hf & Hl)|(Hno & fs1 & H1 & Hr1)];
    [intros p Ep; apply (Hp p Ep)| |].
  2:{ right. split; [done|]. exists fs1. rewrite (try_err _ _ _ _ _ H1). split; [done|].
      destruct Hr1 as [pos Hr1]. pose proof (static_info _ _ (fa_static _ _ _ _ _ Hr1)) as Hi.
      rewrite <- (with_info_id fs1). split; [|apply static_same; apply Hr1].
      apply (volume_after fs A bs B); rewrite ?Hi; try done; try apply Hv. by exists pos. }
  left. exists c. rewrite (try_ok _ _ _ _ _ H1).
  assert (dirty (current_status_flags fs1) = true) as Hdirty.
  { destruct Hr1 as [pos [_ _ _ [E|E] _]]; [|done]. exfalso.
    apply app_inv_head, app_inv_tail in E.
    assert (bs' = bs) as ->.
    { pose proof (v_copies _ _ _ _ Hv). destruct (Z.to_nat (fat_copies (fs_bpb fs))) as [|k] eqn:Ek; [lia|].
      cbn in E. apply app_inj_1 in E as [? _]; done. }
    assert (0 ≤ c) by (unfold live, RESERVED_FAT_ENTRIES in Hc; lia).
    specialize (Ha c ltac:(lia)). rewrite Hfree in Ha. repeat case_decide; congruence. }
  assert (∃ fs2, (if zero then
            off ← lift (offset_from_cluster fs c);
            on_disk (s_seek (SeekStart off)) ?;
            len ← lift (fs_cluster_size fs);
            on_disk (write_zeros len)
          else ok tt) fs1 = Ok (IoOk tt, fs2) ∧ current_status_flags fs2 = current_status_flags fs1 ∧
          fs_rep fs (volume_bytes (fs_bpb fs) A bs B) fs2 (volume_bytes (fs_bpb fs) A bs'
            (if zero then splice (in_data fs A bs c) (replicate (Z.to_nat (cluster_bytes fs)) 0) B else B)))
    as (fs2 & H2 & Hst2 & Hr2).
  { destruct zero; [|by exists fs1]. destruct (cluster_pos_range fs A bs B c Hv Hda Hc) as (_ & _ & -> & -> & _).
    exact (zero_cluster fs A bs B c fs1 bs' Hv Hda Hc Hl Hdirty Hr1). }
  rewrite (try_ok _ _ _ _ _ H2). assert (2 ≤ c < 2 ^ 28) by (unfold live, RESERVED_FAT_ENTRIES in Hc; lia).
  chk_run. pose proof Hr2 as [pos2 Hat2]. pose proof (static_info _ _ (fa_static _ _ _ _ _ Hat2)) as Hi2.
  pose proof (allocated_count fs A bs B prev c bs' Hv Hc Hp Hfree Ha Hf) as Hcount.
  pose proof (free_count_bound Fat32 bs fs ltac:(lia)) as Hb1. pose proof (free_count_bound Fat32 bs' fs ltac:(lia)) as Hb2.
  assert (∃ i, add_free_clusters (set_next_free_cluster (fs_info fs2) (c + 1)) (-1) = Ok i ∧
            next_free_cluster i = Some (c + 1) ∧
            ∀ n, free_cluster_count i = Some n → n = free_count Fat32 bs' (data_clusters fs)) as (i & Hadd & Hnext & Hcnt).
  { rewrite Hi2. destruct (free_cluster_count (fs_info fs)) as [n|] eqn:En.
    - pose proof (v_count _ _ _ _ Hv n En) as ->. eexists. rewrite (add_free_spec (set_next_free_cluster (fs_info fs) (c + 1)) (-1) _ En) by lia.
      split_and!; [done|done|]. cbn. intros n [= <-]. lia.
    - eexists. rewrite (add_free_none (set_next_free_cluster (fs_info fs) (c + 1)) (-1) En).
      split_and!; [done|done|]. cbn. by rewrite En. }
  exists (with_info fs2 i), bs'. split.
  - by rewrite (M_bind_eq _ _ _ _ _ (update_info_spec (λ i, add_free_clusters (set_next_free_cluster i (c + 1)) (-1)) fs2 i Hadd)).
  - split; [|split_and!; [apply Hc..|done|done|by cbn; rewrite Hst2|done|apply static_same; apply Hat2]].
    apply (volume_after fs A bs B fs2 bs'); try done.
    + destruct zero; [|done]. destruct (cluster_pos_range fs A bs B c Hv Hda Hc) as (? & ? & _ & _ & ?).
      apply length_splice; rewrite ?length_replicate; lia.
    + rewrite Hnext. intros ? [= <-]. unfold RESERVED_FAT_ENTRIES. lia.
Qed.

(** C17: Allocating a cluster of a mounted volume: a free cluster is taken when there
    is one, in every copy of the table; the volume is marked dirty; the FSInfo
    count stays exact and the hint moves behind the cluster; on request the
    cluster is zeroed, and nothing else on the disk changes.  Without a free
    cluster the call fails and the volume is as before. *)
Theorem fs_alloc_cluster_correct fs A bs B prev zero :
  volume fs A bs B → data_area fs A bs B →
  (∀ p, prev = Some p → live (fs_total_clusters fs) p ∧ fat_value Fat32 bs p ≠ Free) →
  (∃ c fs' bs', fs_alloc_cluster prev zero fs = Ok (IoOk c, fs') ∧
     volume fs' A bs' (if zero then splice (in_data fs A bs c) (replicate (Z.to_nat (cluster_bytes fs)) 0) B else B) ∧
     live (fs_total_clusters fs) c ∧ fat_value Fat32 bs c = Free ∧ allocated Fat32 bs prev c bs' ∧
     dirty (current_status_flags fs') = true ∧ next_free_cluster (fs_info fs') = Some (c + 1) ∧
     same_volume fs fs') ∨
  ((∀ c, live (fs_total_clusters fs) c → fat_value Fat32 bs c ≠ Free) ∧
   ∃ fs', fs_alloc_cluster prev zero fs = Ok (IoErr OtherError, fs') ∧ volume fs' A bs B ∧ same_volume fs fs').
Proof. apply fs_alloc_spec. Qed.

Lemma with_iter_run {R} (m : M (ClusterIterator (DiskSlice Fs)) R) fs A bs B c (H : volume fs A bs B) :
  ∃ sl, stream_rep (ByteStream := volume_stream fs A bs B (v_fat32 _ _ _ _ H)) sl bs 0 ∧
    ∀ r it, m (ci_new sl Fat32 c) = Ok (r, it) → with_cluster_iter c m fs = Ok (r, inner (ci_fat it)).
Proof.
  destruct (with_fat_run (λ sl, match m (ci_new sl (fat_type fs) c) with
                               | Ok (a, it) => Ok (a, ci_fat it)
                               | Panic f => Panic f end) fs A bs B H) as (sl & Hsl & Hrun).
  exists sl. split; [done|]. intros r it Hm. unfold with_cluster_iter. run_refl.
  apply Hrun. rewrite (v_fat32 _ _ _ _ H), Hm. done.
Qed.

Lemma fat_fuel_enough fs A bs B : volume fs A bs B → fs_total_clusters fs ≤ Z.of_nat (fat_fuel fs).
Proof.
  intros Hv. pose proof (v_bs _ _ _ _ Hv) as Hb. destruct (ff_in _ _ _ (v_fat _ _ _ _ Hv)) as [_ Hi].
  pose proof (fat_for_total _ _ _ (v_fat _ _ _ _ Hv)).
  unfold fat_fuel. rewrite <- Hb. unfold RESERVED_FAT_ENTRIES in *. cbn [ent_off ent_len] in Hi. lia.
Qed.

(** The bookkeeping after a release of the clusters [S]. *)
Lemma release_clusters fs A bs B fs1 bs' S : volume fs A bs B → Forall (live (fs_total_clusters fs)) S → NoDup S →
  (∀ c, c ∈ S → fat_value Fat32 bs c ≠ Free) → fat_for Fat32 bs' (fs_total_clusters fs) → length bs' = length bs →
  (∀ c, live (fs_total_clusters fs) c → fat_value Fat32 bs' c = Free ↔ fat_value Fat32 bs c = Free ∨ c ∈ S) →
  fs_rep fs (volume_bytes (fs_bpb fs) A bs B) fs1 (volume_bytes (fs_bpb fs) A bs' B) →
  ∃ i, update_info (λ i, add_free_clusters i (icast 32 (Z.of_nat (length S)))) fs1 = Ok (tt, with_info fs1 i) ∧
    volume (with_info fs1 i) A bs' B.
Proof.
  intros Hv Hl Hn Hu Hf Hlen Hval Hr. pose proof (fat_for_total _ _ _ (v_fat _ _ _ _ Hv)) as Htot.
  pose proof (live_nodup_length (fs_total_clusters fs) S ltac:(lia) Hl Hn) as HS.
  assert (∀ c, c ∈ data_clusters fs → free_entry Fat32 bs' c = true ↔ fat_value Fat32 bs' c = Free) as He.
  { intros x Hx. apply elem_of_range in Hx. destruct (fat_for_in _ _ _ x Hf Hx) as (_ & Hs & _).
    apply free_entry_value; [apply Hf|unfold RESERVED_FAT_ENTRIES in *; lia|done]. }
  assert (S ⊆ data_clusters fs) as Hsub
    by (intros c Hc; by apply elem_of_range, (proj1 (Forall_forall _ _) Hl)).
  assert (free_count Fat32 bs' (data_clusters fs) = free_count Fat32 bs (data_clusters fs) + Z.of_nat (length S)) as Hcount.
  { apply free_count_diff; [done|apply NoDup_range|done| |].
    - intros c Hc. rewrite (He c Hc), (data_free_entry fs A bs B c Hv Hc). apply Hval. by apply elem_of_range in Hc.
    - intros c Hc. destruct (free_entry Fat32 bs c) eqn:E; [|done].
      apply (data_free_entry fs A bs B c Hv (Hsub c Hc)) in E. by destruct (Hu c Hc). }
  pose proof (free_count_bound Fat32 bs fs ltac:(lia)) as Hb1. pose proof (free_count_bound Fat32 bs' fs ltac:(lia)) as Hb2.
  pose proof Hr as [pos Hat]. pose proof (static_info _ _ (fa_static _ _ _ _ _ Hat)) as Hi.
  rewrite icast_in by lia.
  destruct (free_cluster_count (fs_info fs)) as [n|] eqn:En.
  - pose proof (v_count _ _ _ _ Hv n En) as ->.
    eexists. split; [apply update_info_spec; rewrite Hi; apply (add_free_spec _ _ _ En); lia|].
    apply (volume_after fs A bs B); cbn; try done; [apply Hv|]. intros n [= <-]. lia.
  - eexists. split; [apply update_info_spec; rewrite Hi; by apply add_free_none|].
    apply (volume_after fs A bs B); try done; [apply Hv|]. by rewrite En.
Qed.

Lemma fs_release_spec fs A bs B c l :
  volume fs A bs B → chain Fat32 bs (c :: l) → Forall (live (fs_total_clusters fs)) (c :: l) → NoDup (c :: l) →
  (∀ c', c' ∈ c :: l → fat_value Fat32 bs c' ≠ Free) →
  (∃ fs' bs', free_cluster_chain c fs = Ok (IoOk tt, fs') ∧ volume fs' A bs' B ∧ same_volume fs fs' ∧
     ∀ c', 0 ≤ c' → fat_value Fat32 bs' c' = if decide (c' ∈ c :: l) then Free else fat_value Fat32 bs c') ∧
  (∃ fs' bs', truncate_cluster_chain c fs = Ok (IoOk tt, fs') ∧ volume fs' A bs' B ∧ same_volume fs fs' ∧
     ∀ c', 0 ≤ c' → fat_value Fat32 bs' c' =
       if decide (c' = c) then EndOfChain else if decide (c' ∈ l) then Free else fat_value Fat32 bs c').
Proof.
  intros Hv Hc Hl Hn Hu. pose proof (fat_fuel_enough fs A bs B Hv) as Hfu. split.
  - destruct (with_iter_run (ci_free (fat_fuel fs)) fs A bs B c Hv) as (sl & Hsl & Hrun).
    destruct (ci_free_spec (ByteStream0 := volume_stream fs A bs B (v_fat32 _ _ _ _ Hv)) Fat32 _ sl bs 0 c l (fat_fuel fs)
                (v_fat _ _ _ _ Hv) Hc Hl Hn Hfu Hsl) as (sl' & bs' & pos' & H1 & Hsl' & Hf & Hlen & Hval).
    destruct (release_clusters fs A bs B (inner sl') bs' (c :: l) Hv Hl Hn Hu Hf Hlen) as (i & Hi & Hv').
    { intros c' Hc'. rewrite Hval by (unfold live, RESERVED_FAT_ENTRIES in Hc'; lia).
      case_decide; naive_solver. }
    { exact (volume_slice fs A bs B Hv sl' bs' pos' Hsl'). }
    exists (with_info (inner sl') i), bs'. split; [|split; [done|split; [|done]];
      by destruct (volume_slice fs A bs B Hv sl' bs' pos' Hsl') as [? [Hst _ _ _ Hke]]; apply static_same]. unfold free_cluster_chain. run_refl.
    rewrite (try_ok _ _ _ _ _ (Hrun _ _ H1)). cbn [ci_fat]. by rewrite (M_bind_eq _ _ _ _ _ Hi).
  - destruct (with_iter_run (ci_truncate (fat_fuel fs)) fs A bs B c Hv) as (sl & Hsl & Hrun).
    destruct (ci_truncate_spec (ByteStream0 := volume_stream fs A bs B (v_fat32 _ _ _ _ Hv)) Fat32 _ sl bs 0 c l (fat_fuel fs)
                (v_fat _ _ _ _ Hv) Hc Hl Hn Hfu Hsl) as (sl' & bs' & pos' & H1 & Hsl' & Hf & Hlen & Hval).
    pose proof Hl as Hl'. inversion_clear Hl' as [|? ? Hlc Hll]. inversion_clear Hn as [|? ? Hni Hnl].
    destruct (release_clusters fs A bs B (inner sl') bs' l Hv Hll Hnl) as (i & Hi & Hv'); [|done|done| | |].
    { intros c' Hc'. apply Hu. by right. }
    { intros c' Hc'. rewrite Hval by (unfold live, RESERVED_FAT_ENTRIES in Hc'; lia).
      destruct (decide (c' = c)) as [->|]; [|case_decide; naive_solver].
      split; [done|]. intros [E|E]; [|done]. exfalso. apply (Hu c); [left|done]. }
    { exact (volume_slice fs A bs B Hv sl' bs' pos' Hsl'). }
    exists (with_info (inner sl') i), bs'. split; [|split; [done|split; [|done]];
      by destruct (volume_slice fs A bs B Hv sl' bs' pos' Hsl') as [? [Hst _ _ _ Hke]]; apply static_same]. unfold truncate_cluster_chain. run_refl.
    rewrite (try_ok _ _ _ _ _ (Hrun _ _ H1)). cbn [ci_fat]. by rewrite (M_bind_eq _ _ _ _ _ Hi).
Qed.

(** C18: Releasing a chain of a mounted volume, whole ([free_cluster_chain]) or behind
    its first cluster ([truncate_cluster_chain]): the calls return, exactly those
    clusters become free in every copy of the table, the data area is untouched,
    and the FSInfo count stays exact. *)
Theorem fs_release_chain_correct fs A bs B c l :
  volume fs A bs B → chain Fat32 bs (c :: l) → Forall (live (fs_total_clusters fs)) (c :: l) → NoDup (c :: l) →
  (∀ c', c' ∈ c :: l → fat_value Fat32 bs c' ≠ Free) →
  (∃ fs' bs', free_cluster_chain c fs = Ok (IoOk tt, fs') ∧ volume fs' A bs' B ∧ same_volume fs fs' ∧
     ∀ c', 0 ≤ c' → fat_value Fat32 bs' c' = if decide (c' ∈ c :: l) then Free else fat_value Fat32 bs c') ∧
  (∃ fs' bs', truncate_cluster_chain c fs = Ok (IoOk tt, fs') ∧ volume fs' A bs' B ∧ same_volume fs fs' ∧
     ∀ c', 0 ≤ c' → fat_value Fat32 bs' c' =
       if decide (c' = c) then EndOfChain else if decide (c' ∈ l) then Free else fat_value Fat32 bs c').
Proof. apply fs_release_spec. Qed.
End volume.
