(* ===== verification/FatMount.v ===== *)
(** * Mounting and unmounting

    The FSInfo codec, what [unmount] leaves on the disk, and that mounting the
    disk again gives the same file system. *)

From S2P Require Import Prelude Io FatIo FatBits BootSector FatTable FatFs FatSlice FatVolume.

(** ** The FSInfo sector *)

Definition info_chunks (i : FsInfoSector) : list (list Z) :=
  [le_bytes 4 LEAD_SIG; replicate 480 0; le_bytes 4 STRUC_SIG;
   le_bytes 4 (default 0xFFFFFFFF (free_cluster_count i));
   le_bytes 4 (default 0xFFFFFFFF (next_free_cluster i)); replicate 12 0; le_bytes 4 TRAIL_SIG].
Definition info_bytes (i : FsInfoSector) : list Z := concat (info_chunks i).

Lemma length_info_bytes i : length (info_bytes i) = 512%nat.
Proof.
  unfold info_bytes, info_chunks. cbn [concat].
  rewrite !length_app, !length_le_bytes, !length_replicate. done.
Qed.

(** The counters that fit the sector. *)
Definition info_wf (i : FsInfoSector) : Prop :=
  (∀ n, free_cluster_count i = Some n → 0 ≤ n < 0xFFFFFFFF) ∧
  (∀ n, next_free_cluster i = Some n → 2 ≤ n < 0xFFFFFFFF).

Section info_codec.
Context {D : Type} `{!Stream D, !ByteStream D}.

Lemma info_serialize_spec i d bs pos :
  pos + 512 ≤ Z.of_nat (length bs) → stream_rep d bs pos →
  ∃ d', info_serialize i d = Ok (IoOk tt, d') ∧ stream_rep d' (splice pos (info_bytes i) bs) (pos + 512).
Proof.
  intros Hl Hd.
  destruct (write_seq_spec (info_chunks i) d bs pos Hd) as (d' & H & Hd');
    [change (concat (info_chunks i)) with (info_bytes i); rewrite length_info_bytes; lia|].
  change (concat (info_chunks i)) with (info_bytes i) in Hd'. rewrite length_info_bytes in Hd'.
  exists d'. split; [|done]. rewrite <- H. unfold info_serialize, info_chunks, write_u32. cbn [write_seq]. as_chunks.
Qed.

Lemma info_deserialize_spec i d bs pos rest :
  info_wf i → reads d bs pos (info_bytes i ++ rest) →
  ∃ d', info_deserialize d = Ok (IoOk {| free_cluster_count := free_cluster_count i;
      next_free_cluster := next_free_cluster i; info_dirty := false |}, d') ∧ stream_rep d' bs (pos + 512).
Proof.
  intros [Hc Hn] Hr. unfold info_bytes, info_chunks in Hr. cbn [concat] in Hr.
  rewrite app_nil_r, <- !app_assoc in Hr. unfold info_deserialize.
  assert (0 ≤ default 0xFFFFFFFF (free_cluster_count i) < 2 ^ 32)
    by (destruct (free_cluster_count i) as [n|]; cbn; [specialize (Hc n eq_refl)|]; lia).
  assert (0 ≤ default 0xFFFFFFFF (next_free_cluster i) < 2 ^ 32)
    by (destruct (next_free_cluster i) as [n|]; cbn; [specialize (Hn n eq_refl)|]; lia).
  assert (0 ≤ LEAD_SIG < 2 ^ 32 ∧ 0 ≤ STRUC_SIG < 2 ^ 32 ∧ 0 ≤ TRAIL_SIG < 2 ^ 32) as (? & ? & ?)
    by (unfold LEAD_SIG, STRUC_SIG, TRAIL_SIG; lia).
  assert (Z.of_nat (length (replicate 480 0)) = 480 ∧ Z.of_nat (length (replicate 12 0)) = 12) as [? ?]
    by (by rewrite !length_replicate).
  read_next (reads_u32 LEAD_SIG) Hr. rewrite Z.eqb_refl. cbn [negb].
  read_next (reads_array 480 (replicate 480 0)) Hr. read_next (reads_u32 STRUC_SIG) Hr.
  rewrite Z.eqb_refl. cbn [negb].
  read_next (reads_u32 (default 0xFFFFFFFF (free_cluster_count i))) Hr.
  read_next (reads_u32 (default 0xFFFFFFFF (next_free_cluster i))) Hr.
  read_next (reads_array 12 (replicate 12 0)) Hr. read_next (reads_u32 TRAIL_SIG) Hr.
  rewrite Z.eqb_refl. cbn [negb]. eexists. split; [|destruct Hr as [Hr _]; by rewrite <- !Z.add_assoc in Hr].
  destruct (free_cluster_count i) as [c|] eqn:Ec; cbn [default];
    destruct (next_free_cluster i) as [n|] eqn:En; cbn [default id];
    try (specialize (Hc c eq_refl); replace (c =? 0xFFFFFFFF) with false by lia);
    try (specialize (Hn n eq_refl); replace (n =? 0xFFFFFFFF) with false by lia;
         replace ((n =? 0) || (n =? 1)) with false by lia); done.
Qed.
End info_codec.

(** ** The status byte of a boot sector *)

Lemma boot_bytes_status boot : boot_wf boot → is_fat32 (bpb boot) = true →
  boot_bytes boot !! STATUS = Some (reserved_1 (bpb boot)).
Proof.
  intros [Hb Hj Ho Hc Hs Ht] H32. pose proof (wf_r1 _ Hb) as Hr1.
  set (b := bpb boot) in *.
  set (cs := bpb_chunks b ++ [take (if is_fat32 b then 420 else 448) (boot_code boot); boot_sig boot]).
  assert (boot_bytes boot = (bootjmp boot ++ oem_name boot) ++ concat cs) as ->.
  { unfold cs, boot_bytes. fold b. rewrite concat_app, bpb_chunks_bytes. cbn [concat].
    by rewrite !app_nil_r, <- !app_assoc. }
  rewrite lookup_app_r by (rewrite length_app, Hj, Ho; unfold STATUS; lia). rewrite length_app, Hj, Ho.
  rewrite <- (take_drop 20 cs), concat_app. unfold cs, bpb_chunks. rewrite H32. cbn [app take drop].
  rewrite lookup_app_r; cbn [concat]; rewrite !length_app, !length_le_bytes, (wf_r0 _ Hb); [|cbn; lia].
  cbn [length le_bytes app lookup list_lookup]. unfold STATUS. cbn [Nat.sub Nat.add].
  by rewrite (Z.mod_small (reserved_1 b)) by lia.
Qed.

Lemma mask_inj a b : mask a = mask b → a !! STATUS = b !! STATUS → a = b.
Proof.
  intros Hm Hs. apply list_eq. intros i. destruct (decide (i = STATUS)) as [->|Hne]; [done|].
  assert (mask a !! i = mask b !! i) as H by (by rewrite Hm). unfold mask in H.
  by rewrite !list_lookup_insert_ne in H by done.
Qed.

Lemma mask_take raw n : (STATUS < n)%nat → mask (take n raw) = take n (mask raw).
Proof. intros. unfold mask. by rewrite take_insert_lt. Qed.

Section mount.
Context {D : Type} `{!Stream D, !ByteStream D, !WholeWrites D}.
Abbreviation Fs := (FileSystem D).

Definition info_pos (fs : Fs) : Z := fs_info_sector (fs_bpb fs) * bytes_per_sector (fs_bpb fs).

(** A volume whose reserved area [A] holds the valid boot sector [boot] it was
    mounted from, clean, and a FSInfo sector. *)
Record mounted (fs : Fs) (boot : BootSector) (A : list Z) : Prop := {
  mo_boot : boot_wf boot;
  mo_bpb : bpb boot = fs_bpb fs;
  mo_valid : boot_validate boot = Ok (IoOk tt);
  mo_first : first_data_sector (fs_bpb fs) = Ok (fs_first_data_sector fs);
  mo_total : total_clusters (fs_bpb fs) = Ok (fs_total_clusters fs);
  mo_clean : dirty (status_flags (fs_bpb fs)) = false;
  mo_flags : flags_encode (status_flags (fs_bpb fs)) = reserved_1 (fs_bpb fs);
  mo_prefix : take 512 A = mask (boot_bytes boot);
  mo_info_pos : 512 ≤ info_pos fs ∧ info_pos fs + 512 ≤ Z.of_nat (length A);
  mo_info : info_dirty (fs_info fs) = false → slice (info_pos fs) 512 A = info_bytes (fs_info fs);
  mo_wf : info_wf (fs_info fs);
  mo_count n : free_cluster_count (fs_info fs) = Some n → n ≤ fs_total_clusters fs;
  mo_hint n : next_free_cluster (fs_info fs) = Some n → n ≤ fs_total_clusters fs + RESERVED_FAT_ENTRIES;
}.

(** What [unmount] leaves: the FSInfo sector of the volume, the table and the data
    as they were, and the flags of the boot sector reset. *)
Lemma unmount_spec fs boot A bs B : volume fs A bs B → mounted fs boot A →
  let A' := splice (info_pos fs) (info_bytes (fs_info fs)) A in
  ∃ fs' raw pos, unmount_internal fs = Ok (IoOk tt, fs') ∧ stream_rep (disk fs') raw pos ∧
    mask raw = volume_bytes (fs_bpb fs) A' bs B ∧ raw !! STATUS = Some (reserved_1 (fs_bpb fs)).
Proof.
  intros Hv Hmo A'. destruct (v_disk _ _ _ _ Hv) as [pos0 [_ (raw & Hd & Hm & Hb) Hlen _ _]].
  destruct (mo_info_pos _ _ _ Hmo) as [Hi0 Hi1]. pose proof (v_limit _ _ _ _ Hv) as Hlim.
  rewrite Hm, length_mask in Hlim, Hlen.
  assert (length A ≤ length raw)%nat as HlA
    by (rewrite <- (length_mask raw), <- Hm; unfold volume_bytes; rewrite length_app; lia).
  pose proof (length_info_bytes (fs_info fs)) as Hli.
  assert (∃ fs1 raw1 pos1, flush_fs_info fs = Ok (IoOk tt, fs1) ∧ stream_rep (disk fs1) raw1 pos1 ∧
            mask raw1 = volume_bytes (fs_bpb fs) A' bs B ∧ length raw1 = length raw ∧
            raw1 !! STATUS = Some (flags_encode (current_status_flags fs1)) ∧
            fs_bpb fs1 = fs_bpb fs ∧ fat_type fs1 = Fat32) as (fs1 & raw1 & pos1 & H1 & Hd1 & Hm1 & Hl1 & Hb1 & Hbp & Hf1).
  { unfold flush_fs_info. setoid_rewrite (M_bind_eq _ _ fs fs fs eq_refl). rewrite (v_fat32 _ _ _ _ Hv). cbn [is_Fat32 andb].
    destruct (info_dirty (fs_info fs)) eqn:Ed.
    - pose proof (wf_fis _ (v_bpb _ _ _ _ Hv)). pose proof (wf_bps _ (v_bpb _ _ _ _ Hv)).
      unfold offset_from_sector, bytes_from_sectors. fold (info_pos fs).
      destruct (stream_seek (disk fs) raw pos0 (info_pos fs) Hd) as (d1 & H1 & Hd1); [lia|].
      destruct (info_serialize_spec (fs_info fs) d1 raw (info_pos fs)) as (d2 & H2 & Hd2); [lia|done|].
      eexists (with_info (with_disk (with_disk fs d1) d2) _), _, _. split; [|split; [exact Hd2|]].
      + chk_run. rewrite (try_ok _ _ _ _ _ (on_disk_spec _ fs _ _ H1)).
        rewrite (try_ok _ _ _ _ _ (on_disk_spec _ (with_disk fs d1) _ _ H2)). by run_refl.
      + split_and!; [| |rewrite splice_lookup by lia; unfold STATUS in *; rewrite decide_False by lia; exact Hb|done|apply Hv].
        * rewrite mask_splice, <- Hm by lia. unfold volume_bytes, A'.
          apply (splice_mid [] _ A (info_pos fs)); lia.
        * apply length_splice; lia.
    - exists fs, raw, pos0. split_and!; try done; [|apply Hv]. rewrite <- Hm. f_equal. unfold A'.
      rewrite <- (mo_info _ _ _ Hmo Ed). symmetry. unfold slice, splice.
      rewrite length_take, length_drop. replace (512 `min` (length A - Z.to_nat (info_pos fs)))%nat with 512%nat by lia.
      rewrite <- drop_drop, take_drop, take_drop. done. }
  destruct (set_dirty_spec fs1 false raw1 pos1 Hf1 Hd1) as (fs2 & raw2 & pos2 & H2 & Hs2 & Hc2 & Hd2 & Hm2 & Hl2 & Hb2);
    [lia|done|].
  exists fs2, raw2, pos2. split_and!; [|done|by rewrite Hm2|].
  - unfold unmount_internal. rewrite (try_ok _ _ _ _ _ H1), (try_ok _ _ _ _ _ H2). done.
  - rewrite Hb2, Hc2. unfold flags_with. rewrite orb_false_r, Hbp, <- (mo_flags _ _ _ Hmo).
    by destruct (status_flags (fs_bpb fs)).
Qed.

(** A disk with a valid boot sector and FSInfo sector mounts. *)
Lemma mount_spec opts d raw boot i fds tc :
  stream_rep d raw 0 → boot_wf boot → boot_validate boot = Ok (IoOk tt) → is_fat32 (bpb boot) = true →
  take 512 raw = boot_bytes boot → dirty (status_flags (bpb boot)) = false →
  first_data_sector (bpb boot) = Ok fds → total_clusters (bpb boot) = Ok tc → 0 ≤ tc < 2 ^ 32 - 2 →
  let off := fs_info_sector (bpb boot) * bytes_per_sector (bpb boot) in
  0 ≤ off → off + 512 ≤ Z.of_nat (length raw) → slice off 512 raw = info_bytes i → info_wf i →
  (∀ n, free_cluster_count i = Some n → n ≤ tc) → (∀ n, next_free_cluster i = Some n → n ≤ tc + RESERVED_FAT_ENTRIES) →
  ∃ fs pos rds, fs_new opts d = Ok (IoOk fs) ∧ stream_rep (disk fs) raw pos ∧ 
    fs = {| disk := disk fs; options := opts; fat_type := Fat32; fs_bpb := bpb boot; fs_first_data_sector := fds;
            fs_root_dir_sectors := rds; fs_total_clusters := tc;
            fs_info := {| free_cluster_count := free_cluster_count i;
                          next_free_cluster := next_free_cluster i; info_dirty := false |};
            current_status_flags := status_flags (bpb boot) |}.
Proof.
  intros Hd Hbw Hval H32 Hpre Hclean Hfds Htc Htcr off Hoff Hol Hinfo Hiw Hcnt Hhint.
  destruct (first_data_sector_Ok _ _ Hfds) as (rds & Hrds & _).
  pose proof (length_boot_bytes boot Hbw) as Hlb. pose proof (length_info_bytes i) as Hli.
  destruct (stream_tell d raw 0 Hd) as (d1 & H1 & Hd1).
  destruct (boot_deserialize_spec boot d1 raw 0 (drop 512 raw) Hbw) as (d2 & H2 & Hd2).
  { split; [done|]. split; [lia|]. change (Z.to_nat 0) with 0%nat. rewrite drop_0, <- Hpre. symmetry. apply take_drop. }
  destruct (stream_seek d2 raw _ off Hd2) as (d3 & H3 & Hd3); [lia|].
  destruct (info_deserialize_spec i d3 raw off (drop 512 (drop (Z.to_nat off) raw)) Hiw) as (d4 & H4 & Hd4).
  { split; [done|]. split; [lia|]. rewrite <- Hinfo. unfold slice. symmetry. apply take_drop. }
  set (info := {| free_cluster_count := free_cluster_count i;
                  next_free_cluster := next_free_cluster i; info_dirty := false |}) in *.
  exists {| disk := d4; options := opts; fat_type := Fat32; fs_bpb := bpb boot; fs_first_data_sector := fds;
            fs_root_dir_sectors := rds; fs_total_clusters := tc; fs_info := info;
            current_status_flags := status_flags (bpb boot) |}, (off + 512), rds.
  split; [|split; [exact Hd4|reflexivity]].
  unfold fs_new. match goal with |- context [try ?m ?f d] =>
    enough (try m f d = Ok (IoOk (bpb boot, rds, fds, tc, Fat32, info), d4)) as -> by reflexivity end.
  rewrite (try_ok _ _ _ _ _ H1). run_refl. rewrite (try_ok _ _ _ _ _ H2). rewrite Hval. run_refl.
  rewrite Hrds, Hfds, Htc. do 3 run_refl. cbn [from_clusters is_Fat32].
  pose proof (wf_fis _ (bwf_bpb _ Hbw)). pose proof (wf_bps _ (bwf_bpb _ Hbw)).
  assert (off < 2 ^ 64) by (unfold off; nia).
  erewrite try_ok; [|unfold bytes_from_sectors; fold off; chk_run; rewrite (try_ok _ _ _ _ _ H3); exact H4].
  rewrite Hclean. unfold validate_and_fix, info. rewrite chk_in by (unfold RESERVED_FAT_ENTRIES; lia). run_refl.
  cbn [free_cluster_count next_free_cluster info_dirty mret exec_ret].
  destruct (free_cluster_count i) as [c|] eqn:Ec; [specialize (Hcnt c eq_refl); replace (tc <? c) with false by lia|];
    (destruct (next_free_cluster i) as [n|] eqn:En;
      [specialize (Hhint n eq_refl); replace (tc + RESERVED_FAT_ENTRIES <? n) with false by lia|]); reflexivity.
Qed.

Lemma bpb_validate_is_fat32 b : bpb_validate b = Ok (IoOk tt) → is_fat32 b = true.
Proof.
  intros H. unfold bpb_validate in H. inv_checked. destruct (is_fat32 b); cbn in *; congruence.
Qed.

(** C26: Unmounting a volume that was mounted clean, with its reserved flag bits zero, and mounting its disk again gives the volume back: the
    same table and data, the same cluster counters, now read from the FSInfo
    sector, and no dirty flag. *)
Theorem unmount_mount_roundtrip fs boot A bs B opts :
  volume fs A bs B → mounted fs boot A →
  let A' := splice (info_pos fs) (info_bytes (fs_info fs)) A in
  ∃ fs1 d fs2, unmount_internal fs = Ok (IoOk tt, fs1) ∧
    s_seek (SeekStart 0) (disk fs1) = Ok (IoOk 0, d) ∧ fs_new opts d = Ok (IoOk fs2) ∧
    volume fs2 A' bs B ∧ fs_bpb fs2 = fs_bpb fs ∧
    free_cluster_count (fs_info fs2) = free_cluster_count (fs_info fs) ∧
    next_free_cluster (fs_info fs2) = next_free_cluster (fs_info fs) ∧
    fs_total_clusters fs2 = fs_total_clusters fs ∧ dirty (current_status_flags fs2) = false.
Proof.
  intros Hv Hmo A'. destruct (unmount_spec fs boot A bs B Hv Hmo) as (fs1 & raw & pos & H1 & Hd & Hm & Hb).
  fold A' in Hm. pose proof Hmo as [Hbw Hbpb Hval Hfd Htc Hcl Hfl Hpre [Hi0 Hi1] _ Hiw Hc Hh].
  destruct (stream_seek (disk fs1) raw pos 0 Hd) as (d & H2 & Hd2); [lia|].
  pose proof (fat_for_total _ _ _ (v_fat _ _ _ _ Hv)) as Htot.
  pose proof (length_info_bytes (fs_info fs)) as Hli.
  assert (length A' = length A) as HlA' by (apply length_splice; lia).
  assert (is_fat32 (bpb boot) = true) as H32.
  { unfold boot_validate in Hval. apply reject_Ok in Hval as [_ Hval]. by apply bpb_validate_is_fat32. }
  assert (length raw = length (volume_bytes (fs_bpb fs) A bs B)) as Hlr.
  { rewrite <- (length_mask raw), Hm. unfold volume_bytes. by rewrite !length_app, HlA'. }
  assert (length A ≤ length raw)%nat as HlA by (rewrite Hlr; unfold volume_bytes; rewrite length_app; lia).
  assert (take 512 raw = boot_bytes boot) as Hpre'.
  { apply mask_inj.
    - rewrite mask_take, Hm by (unfold STATUS; lia). unfold volume_bytes. rewrite take_app_le by lia.
      rewrite <- Hpre. unfold A', splice. rewrite take_app_le by (rewrite length_take; lia).
      by rewrite take_take, Nat.min_l by lia.
    - rewrite lookup_take_lt by (unfold STATUS; lia). by rewrite Hb, boot_bytes_status, Hbpb. }
  assert (slice (info_pos fs) 512 raw = info_bytes (fs_info fs)) as Hinfo.
  { unfold slice. rewrite <- mask_drop, Hm by lia. unfold volume_bytes. rewrite <- Hli at 1.
    rewrite (drop_app_le A') by lia. rewrite take_app_le by (rewrite length_drop; lia).
    unfold A'. apply splice_read; lia. }
  destruct (v_disk _ _ _ _ Hv) as [_ [_ _ Hlen _ _]].
  destruct (mount_spec opts d raw boot (fs_info fs) (fs_first_data_sector fs) (fs_total_clusters fs) Hd2 Hbw Hval H32 Hpre')
    as (fs2 & pos2 & rds & H3 & Hd3 & E2);
    [by rewrite Hbpb|by rewrite Hbpb|by rewrite Hbpb|lia|rewrite Hbpb; fold (info_pos fs); lia..|
     rewrite Hbpb; exact Hinfo|done|done|done|].
  rewrite Hbpb in E2. exists fs1, d, fs2. split; [done|]. split; [done|]. split; [done|].
  assert (fs_bpb fs2 = fs_bpb fs ∧ fs_total_clusters fs2 = fs_total_clusters fs ∧ fat_type fs2 = Fat32 ∧
          free_cluster_count (fs_info fs2) = free_cluster_count (fs_info fs) ∧
          next_free_cluster (fs_info fs2) = next_free_cluster (fs_info fs) ∧
          current_status_flags fs2 = status_flags (fs_bpb fs)) as (Eb & Et & Ef & Ec & En & Es)
    by (rewrite E2; done).
  split; [|split_and!; [done..|by rewrite Es]].
  pose proof Hv as []. split; rewrite ?Eb, ?Et, ?Ec, ?En, ?HlA'; try done.
  - exists pos2. split; [by destruct fs2| | |by left|done].
    + exists raw. by rewrite Hm, Es, Hfl.
    + by rewrite <- Hm, length_mask, Hlr.
  - rewrite <- Hm, length_mask, Hlr. done.
  - intros n Hn. unfold data_clusters. rewrite Et. by apply v_count.
Qed.
End mount.
