(* ===== verification/FatSample.v ===== *)
(** * A concrete FAT32 volume

    Fourteen sectors: boot sector, FSInfo, two copies of a one-sector table and
    ten data clusters, of which 2, 3, 4 form a chain.  It mounts, and the
    theorems on volumes apply to it. *)

From S2P Require Import Prelude Io FatIo FatBits BootSector FatTable FatFs FatSlice FatVolume FatMount.

Definition vol_bpb : BiosParameterBlock := {|
  bytes_per_sector := 512; sectors_per_cluster := 1; reserved_sectors_16 := 2; fats := 2;
  root_entries := 0; total_sectors_16 := 14; media := 0xF8; sectors_per_fat_16 := 0;
  sectors_per_track := 32; heads := 64; hidden_sectors := 0; total_sectors_32 := 0;
  sectors_per_fat_32 := 1; extended_flags := 0; fs_version := 0; root_dir_first_cluster := 2;
  fs_info_sector := 1; backup_boot_sector := 0; reserved_0 := replicate 12 0; drive_num := 0x80;
  reserved_1 := 0; ext_sig := 0x29; volume_id := 1; volume_label := NO_NAME; fs_type_label := fs_type_str Fat32 |}.
Definition vol_boot : BootSector := {|
  bootjmp := [0xEB; 0x58; 0x90]; oem_name := MSWIN; bpb := vol_bpb; boot_code := replicate 448 0;
  boot_sig := [0x55; 0xAA] |}.
Definition vol_info : FsInfoSector :=
  {| free_cluster_count := Some 7; next_free_cluster := Some 5; info_dirty := false |}.
Definition vol_table : list Z := sample_fat ++ replicate 464 0.
Definition vol_data : list Z := replicate (10 * 512) 0xAA.
Definition vol_disk : memfile :=
  {| mf_bytes := boot_bytes vol_boot ++ info_bytes vol_info ++ vol_table ++ vol_table ++ vol_data; mf_pos := 0 |}.
Definition vol_fs : FileSystem memfile := {|
  disk := {| mf_bytes := mf_bytes vol_disk; mf_pos := 1024 |}; options := FsOptions_new; fat_type := Fat32;
  fs_bpb := vol_bpb; fs_first_data_sector := 4; fs_root_dir_sectors := 0; fs_total_clusters := 10;
  fs_info := vol_info; current_status_flags := {| dirty := false; io_error := false |} |}.

Lemma vol_mounts : fs_new FsOptions_new vol_disk = Ok (IoOk vol_fs).
Proof. vm_compute. reflexivity. Qed.

Definition vol_reserved : list Z := mask (boot_bytes vol_boot) ++ info_bytes vol_info.

Lemma vol_bpb_wf : bpb_wf vol_bpb.
Proof. by split; vm_compute. Qed.

Lemma vol_boot_wf : boot_wf vol_boot.
Proof. split; [apply vol_bpb_wf|by vm_compute..]. Qed.

Lemma vol_fat_for : fat_for Fat32 vol_table 10.
Proof.
  split; [split; [|by vm_compute]|by vm_compute|split; by vm_compute].
  apply Forall_app_2; [exact (proj1 (ff_ok _ _ _ sample_fat_for))|].
  apply Forall_replicate. split; by vm_compute.
Qed.

Lemma vol_volume : volume vol_fs vol_reserved vol_table vol_data.
Proof.
  split.
  - reflexivity.
  - exact vol_bpb_wf.
  - vm_compute. reflexivity.
  - vm_compute. discriminate.
  - vm_compute. reflexivity.
  - vm_compute. discriminate.
  - vm_compute. reflexivity.
  - exists 1024. split; [reflexivity| |vm_compute; discriminate|left; reflexivity|done].
    exists (mf_bytes vol_disk). split; [split; [reflexivity|split; [reflexivity|discriminate]]|].
    split; vm_compute; reflexivity.
  - vm_compute. reflexivity.
  - exact vol_fat_for.
  - intros n [= <-]. vm_compute. discriminate.
  - intros n [= <-]. vm_compute. reflexivity.
Qed.

Lemma vol_data_area : data_area vol_fs vol_reserved vol_table vol_data.
Proof. split; vm_compute; (discriminate || reflexivity). Qed.

Lemma vol_mounted : mounted vol_fs vol_boot vol_reserved.
Proof.
  split.
  - exact vol_boot_wf.
  - reflexivity.
  - vm_compute. reflexivity.
  - vm_compute. reflexivity.
  - vm_compute. reflexivity.
  - vm_compute. reflexivity.
  - vm_compute. reflexivity.
  - vm_compute. reflexivity.
  - split; vm_compute; discriminate.
  - intros _. vm_compute. reflexivity.
  - split; intros n [= <-]; lia.
  - intros n [= <-]. vm_compute. discriminate.
  - intros n [= <-]. vm_compute. discriminate.
Qed.

Lemma fs_alloc_cluster_correct_witness :
  (∃ c fs' bs', fs_alloc_cluster (Some 4) true vol_fs = Ok (IoOk c, fs') ∧
     volume fs' vol_reserved bs'
       (splice (in_data vol_fs vol_reserved vol_table c) (replicate (Z.to_nat (cluster_bytes vol_fs)) 0) vol_data) ∧
     live 10 c ∧ fat_value Fat32 vol_table c = Free ∧ allocated Fat32 vol_table (Some 4) c bs' ∧
     dirty (current_status_flags fs') = true ∧ next_free_cluster (fs_info fs') = Some (c + 1) ∧
     same_volume vol_fs fs') ∨
  ((∀ c, live 10 c → fat_value Fat32 vol_table c ≠ Free) ∧
   ∃ fs', fs_alloc_cluster (Some 4) true vol_fs = Ok (IoErr OtherError, fs') ∧
     volume fs' vol_reserved vol_table vol_data ∧ same_volume vol_fs fs').
Proof.
  apply (fs_alloc_cluster_correct vol_fs vol_reserved vol_table vol_data (Some 4) true vol_volume vol_data_area).
  intros p [= <-]. split; [split; vm_compute; congruence|vm_compute; discriminate].
Defined.

Lemma fs_release_chain_correct_witness :
  (∃ fs', free_cluster_chain 2 vol_fs = Ok (IoOk tt, fs')) ∧
  (∃ fs', truncate_cluster_chain 2 vol_fs = Ok (IoOk tt, fs')).
Proof.
  destruct (fs_release_chain_correct vol_fs vol_reserved vol_table vol_data 2 [3; 4] vol_volume)
    as [(fs1 & _ & H1 & _) (fs2 & _ & H2 & _)].
  - vm_compute. repeat split.
  - exact sample_live.
  - exact sample_nodup.
  - intros c Hc. rewrite !elem_of_cons in Hc.
    destruct Hc as [->|[->|[->|Hc]]]; [vm_compute; discriminate..|by apply elem_of_nil in Hc].
  - split; [exists fs1; exact H1|exists fs2; exact H2].
Defined.

Lemma unmount_mount_roundtrip_witness :
  ∃ fs1 d fs2, unmount_internal vol_fs = Ok (IoOk tt, fs1) ∧
    s_seek (SeekStart 0) (disk fs1) = Ok (IoOk 0, d) ∧ fs_new FsOptions_new d = Ok (IoOk fs2) ∧
    free_cluster_count (fs_info fs2) = Some 7.
Proof.
  destruct (unmount_mount_roundtrip vol_fs vol_boot vol_reserved vol_table vol_data FsOptions_new
              vol_volume vol_mounted) as (fs1 & d & fs2 & H1 & H2 & H3 & _ & _ & H4 & _).
  exists fs1, d, fs2. split; [exact H1|split; [exact H2|split; [exact H3|exact H4]]].
Defined.
