(* ===== verification/DirEntry.v ===== *)
(** * Directory entries (fatfs/src/dir_entry.rs)

    Short names, the two kinds of 32-byte entries with their reader and writer,
    and the editor that caches the entry of an open file. *)

From S2P Require Import Prelude Io FatIo FatTime BootSector FatTable FatFs.

(** [FileAttributes] *)
Definition READ_ONLY : Z := 0x01.
Definition HIDDEN : Z := 0x02.
Definition SYSTEM : Z := 0x04.
Definition VOLUME_ID : Z := 0x08.
Definition DIRECTORY : Z := 0x10.
Definition ARCHIVE : Z := 0x20.
Definition LFN : Z := Z.lor (Z.lor (Z.lor READ_ONLY HIDDEN) SYSTEM) VOLUME_ID.
(** [from_bits_truncate] and [contains] of the bitflags macro *)
Definition attrs_truncate (bits : Z) : Z := Z.land bits 0x3F.
Definition attrs_contains (attrs other : Z) : bool := Z.land attrs other =? other.

Definition DIR_ENTRY_DELETED_FLAG : Z := 0xE5.
Definition DIR_ENTRY_REALLY_E5_FLAG : Z := 0x05.
Definition LFN_PART_LEN : nat := 13.
Definition LFN_ENTRY_LAST_FLAG : Z := 0x40.

(** [name[i] = b] and [name[i]] on arrays the code indexes with constants. *)
Definition at0 (l : list Z) : Z := default 0 (head l).

(** ** Short names *)

Record ShortName := { sn_name : list Z; sn_len : Z }.

Definition PADDING : Z := 0x20.

(** [rposition(|x| x != PADDING).map(|p| p + 1).unwrap_or(0)] *)
Definition trimmed_len (l : list Z) : nat := length (strip_padding l).

Definition sn_new (raw_name : list Z) : ShortName :=
  let name_len := trimmed_len (take 8 raw_name) in
  let ext_len := trimmed_len (take 3 (drop 8 raw_name)) in
  let body :=
    if (0 <? ext_len)%nat
    then take name_len raw_name ++ [0x2E] ++ take ext_len (drop 8 raw_name)
    else take name_len raw_name in
  let name := body ++ replicate (12 - length body) PADDING in
  {| sn_name := if at0 name =? DIR_ENTRY_REALLY_E5_FLAG then <[0%nat := 0xE5]> name else name;
     sn_len := Z.of_nat (length body) |}.
Definition sn_as_bytes (self : ShortName) : list Z := take (Z.to_nat (sn_len self)) (sn_name self).
Definition sn_to_string (self : ShortName) (conv : OemCpConverter) : list Z :=
  oem_decode conv <$> sn_as_bytes self.

(** ** Case

    [char::to_uppercase] yields several characters for some; outside ASCII it is
    given by Unicode's tables, which are an argument here. *)
Section case.
Variable upper_other : Z → list Z.

Definition to_uppercase (c : Z) : list Z :=
  if c <? 0x80 then [if (0x61 <=? c) && (c <=? 0x7A) then c - 32 else c] else upper_other c.
Definition upper (s : list Z) : list Z := s ≫= to_uppercase.
Definition sn_eq_ignore_case (self : ShortName) (name : list Z) (conv : OemCpConverter) : bool :=
  bool_decide (upper (oem_decode conv <$> sn_as_bytes self) = upper name).
End case.

Definition to_ascii_lowercase (c : Z) : Z := if (0x41 <=? c) && (c <=? 0x5A) then c + 32 else c.

(** ** Short-name entries *)

Record DirFileEntryData := {
  name : list Z;
  attrs : Z;
  e_reserved_0 : Z;
  create_time_0 : Z;
  create_time_1 : Z;
  create_date : Z;
  access_date : Z;
  first_cluster_hi : Z;
  modify_time : Z;
  modify_date : Z;
  first_cluster_lo : Z;
  e_size : Z;
}.

Definition dfe_new (n : list Z) (a : Z) : DirFileEntryData :=
  {| name := n; attrs := a; e_reserved_0 := 0; create_time_0 := 0; create_time_1 := 0; create_date := 0;
     access_date := 0; first_cluster_hi := 0; modify_time := 0; modify_date := 0; first_cluster_lo := 0;
     e_size := 0 |}.
Definition dfe_default : DirFileEntryData := dfe_new (replicate 11 0) 0.

Section file_entry.
Variable self : DirFileEntryData.

Definition renamed (new_name : list Z) : DirFileEntryData :=
  {| name := new_name; attrs := attrs self; e_reserved_0 := e_reserved_0 self;
     create_time_0 := create_time_0 self; create_time_1 := create_time_1 self; create_date := create_date self;
     access_date := access_date self; first_cluster_hi := first_cluster_hi self;
     modify_time := modify_time self; modify_date := modify_date self;
     first_cluster_lo := first_cluster_lo self; e_size := e_size self |}.
Definition with_cluster (hi lo : Z) : DirFileEntryData :=
  {| name := name self; attrs := attrs self; e_reserved_0 := e_reserved_0 self;
     create_time_0 := create_time_0 self; create_time_1 := create_time_1 self; create_date := create_date self;
     access_date := access_date self; first_cluster_hi := hi;
     modify_time := modify_time self; modify_date := modify_date self;
     first_cluster_lo := lo; e_size := e_size self |}.
Definition dfe_set_size (s : Z) : DirFileEntryData :=
  {| name := name self; attrs := attrs self; e_reserved_0 := e_reserved_0 self;
     create_time_0 := create_time_0 self; create_time_1 := create_time_1 self; create_date := create_date self;
     access_date := access_date self; first_cluster_hi := first_cluster_hi self;
     modify_time := modify_time self; modify_date := modify_date self;
     first_cluster_lo := first_cluster_lo self; e_size := s |}.
Definition with_times (ct0 ct1 cd ad mt md : Z) : DirFileEntryData :=
  {| name := name self; attrs := attrs self; e_reserved_0 := e_reserved_0 self;
     create_time_0 := ct0; create_time_1 := ct1; create_date := cd;
     access_date := ad; first_cluster_hi := first_cluster_hi self;
     modify_time := mt; modify_date := md;
     first_cluster_lo := first_cluster_lo self; e_size := e_size self |}.

Definition is_dir : bool := attrs_contains (attrs self) DIRECTORY.
Definition is_file : bool := negb is_dir.
Definition is_volume : bool := attrs_contains (attrs self) VOLUME_ID.
Definition lowercase_basename : bool := negb (Z.land (e_reserved_0 self) (Z.shiftl 1 3) =? 0).
Definition lowercase_ext : bool := negb (Z.land (e_reserved_0 self) (Z.shiftl 1 4) =? 0).
Definition lowercase_name : ShortName :=
  let base := take 8 (name self) in
  let ext := drop 8 (name self) in
  sn_new ((if lowercase_basename then to_ascii_lowercase <$> base else base) ++
          (if lowercase_ext then to_ascii_lowercase <$> ext else ext)).
Definition dfe_first_cluster (t : FatType) : option Z :=
  let hi := if is_Fat32 t then first_cluster_hi self else 0 in
  let n := Z.lor (shl 32 hi 16) (first_cluster_lo self) in
  if n =? 0 then None else Some n.
Definition dfe_set_first_cluster (cluster : option Z) (t : FatType) : DirFileEntryData :=
  let n := default 0 cluster in
  with_cluster (if is_Fat32 t then cast 16 (Z.shiftr n 16) else first_cluster_hi self)
    (cast 16 (Z.land n 0xFFFF)).
Definition dfe_size : option Z := if is_file then Some (e_size self) else None.

Definition created : exec DateTime := date_time_decode (create_date self) (create_time_1 self) (create_time_0 self).
Definition accessed : exec Date := date_decode (access_date self).
Definition modified : exec DateTime := date_time_decode (modify_date self) (modify_time self) 0.
Definition dfe_set_created (dt : DateTime) : exec DirFileEntryData :=
  d ← date_encode (date dt);
  t ← time_encode (time dt);
  mret (with_times t.2 t.1 d (access_date self) (modify_time self) (modify_date self)).
Definition dfe_set_accessed (dt : Date) : exec DirFileEntryData :=
  d ← date_encode dt;
  mret (with_times (create_time_0 self) (create_time_1 self) (create_date self) d
          (modify_time self) (modify_date self)).
Definition dfe_set_modified (dt : DateTime) : exec DirFileEntryData :=
  d ← date_encode (date dt);
  t ← time_encode (time dt);
  mret (with_times (create_time_0 self) (create_time_1 self) (create_date self) (access_date self) t.1 d).

Definition dfe_is_deleted : bool := at0 (name self) =? DIR_ENTRY_DELETED_FLAG.
Definition dfe_set_deleted : DirFileEntryData := renamed (<[0%nat := DIR_ENTRY_DELETED_FLAG]> (name self)).
Definition dfe_is_end : bool := at0 (name self) =? 0.
End file_entry.

(** ** Long-name entries *)

Record DirLfnEntryData := {
  order : Z;
  name_0 : list Z;
  l_attrs : Z;
  entry_type : Z;
  checksum : Z;
  name_1 : list Z;
  l_reserved_0 : Z;
  name_2 : list Z;
}.

Definition lfn_new (o c : Z) : DirLfnEntryData :=
  {| order := o; name_0 := replicate 5 0; l_attrs := LFN; entry_type := 0; checksum := c;
     name_1 := replicate 6 0; l_reserved_0 := 0; name_2 := replicate 2 0 |}.
Definition copy_name_from_slice (self : DirLfnEntryData) (lfn_part : list Z) : DirLfnEntryData :=
  {| order := order self; name_0 := take 5 lfn_part; l_attrs := l_attrs self; entry_type := entry_type self;
     checksum := checksum self; name_1 := take 6 (drop 5 lfn_part); l_reserved_0 := l_reserved_0 self;
     name_2 := take 2 (drop 11 lfn_part) |}.
(** The thirteen units [copy_name_to_slice] writes. *)
Definition copy_name_to_slice (self : DirLfnEntryData) : list Z := name_0 self ++ name_1 self ++ name_2 self.
Definition lfn_is_deleted (self : DirLfnEntryData) : bool := order self =? DIR_ENTRY_DELETED_FLAG.
Definition lfn_set_deleted (self : DirLfnEntryData) : DirLfnEntryData :=
  {| order := DIR_ENTRY_DELETED_FLAG; name_0 := name_0 self; l_attrs := l_attrs self;
     entry_type := entry_type self; checksum := checksum self; name_1 := name_1 self;
     l_reserved_0 := l_reserved_0 self; name_2 := name_2 self |}.
Definition lfn_is_end (self : DirLfnEntryData) : bool := order self =? 0.

(** ** Entries *)

Inductive DirEntryData := FileEntry (file : DirFileEntryData) | LfnEntry (lfn : DirLfnEntryData).

Definition is_deleted (e : DirEntryData) : bool :=
  match e with FileEntry f => dfe_is_deleted f | LfnEntry l => lfn_is_deleted l end.
Definition set_deleted (e : DirEntryData) : DirEntryData :=
  match e with FileEntry f => FileEntry (dfe_set_deleted f) | LfnEntry l => LfnEntry (lfn_set_deleted l) end.
Definition is_end (e : DirEntryData) : bool :=
  match e with FileEntry f => dfe_is_end f | LfnEntry l => lfn_is_end l end.

(** [u16] units from pairs of bytes ([read_u16_into]) *)
Fixpoint units (l : list Z) : list Z :=
  match l with
  | a :: b :: l => le_value [a; b] :: units l
  | _ => []
  end.

Section entry_io.
Context {T : Type} `{!Stream T}.

Definition dfe_serialize (self : DirFileEntryData) : M T (ioresult unit) :=
  write_all (name self) ?;
  write_u8 (attrs self) ?;
  write_u8 (e_reserved_0 self) ?;
  write_u8 (create_time_0 self) ?;
  write_u16 (create_time_1 self) ?;
  write_u16 (create_date self) ?;
  write_u16 (access_date self) ?;
  write_u16 (first_cluster_hi self) ?;
  write_u16 (modify_time self) ?;
  write_u16 (modify_date self) ?;
  write_u16 (first_cluster_lo self) ?;
  write_u32 (e_size self).

Definition lfn_serialize (self : DirLfnEntryData) : M T (ioresult unit) :=
  write_u8 (order self) ?;
  try_each (name_0 self) write_u16 ?;
  write_u8 (l_attrs self) ?;
  write_u8 (entry_type self) ?;
  write_u8 (checksum self) ?;
  try_each (name_1 self) write_u16 ?;
  write_u16 (l_reserved_0 self) ?;
  try_each (name_2 self) write_u16.

(** [DirEntryData::serialize] *)
Definition entry_serialize (e : DirEntryData) : M T (ioresult unit) :=
  match e with FileEntry f => dfe_serialize f | LfnEntry l => lfn_serialize l end.

(** [DirEntryData::deserialize]: a directory that fills its last cluster has no
    terminating entry, so the end of the stream reads as an empty entry. *)
Definition entry_deserialize : M T (ioresult DirEntryData) :=
  r ← read_exact 11;
  match r with
  | IoErr UnexpectedEof => ok (FileEntry dfe_default)
  | IoErr e => err e
  | IoOk nm =>
      a ←? read_u8;
      let a := attrs_truncate a in
      if Z.land a LFN =? LFN then
        et ←? read_u8;
        ck ←? read_u8;
        n1 ←? read_exact 12;
        r0 ←? read_u16;
        n2 ←? read_exact 4;
        ok (LfnEntry {| order := at0 nm; name_0 := units (drop 1 nm); l_attrs := a; entry_type := et;
                        checksum := ck; name_1 := units n1; l_reserved_0 := r0; name_2 := units n2 |})
      else
        r0 ←? read_u8;
        ct0 ←? read_u8;
        ct1 ←? read_u16;
        cd ←? read_u16;
        ad ←? read_u16;
        fch ←? read_u16;
        mt ←? read_u16;
        md ←? read_u16;
        fcl ←? read_u16;
        sz ←? read_u32;
        ok (FileEntry {| name := nm; attrs := a; e_reserved_0 := r0; create_time_0 := ct0; create_time_1 := ct1;
                         create_date := cd; access_date := ad; first_cluster_hi := fch; modify_time := mt;
                         modify_date := md; first_cluster_lo := fcl; e_size := sz |})
  end.
End entry_io.

(** ** The entry editor *)

Record DirEntryEditor := { ed_data : DirFileEntryData; ed_pos : Z; ed_dirty : bool }.

Definition ed_new (d : DirFileEntryData) (p : Z) : DirEntryEditor :=
  {| ed_data := d; ed_pos := p; ed_dirty := false |}.
(** A changed entry is to be written back. *)
Definition ed_change (self : DirEntryEditor) (d : DirFileEntryData) : DirEntryEditor :=
  {| ed_data := d; ed_pos := ed_pos self; ed_dirty := true |}.

Definition ed_set_first_cluster (self : DirEntryEditor) (c : option Z) (t : FatType) : DirEntryEditor :=
  if bool_decide (c = dfe_first_cluster (ed_data self) t) then self
  else ed_change self (dfe_set_first_cluster (ed_data self) c t).
Definition ed_set_size (self : DirEntryEditor) (s : Z) : DirEntryEditor :=
  match dfe_size (ed_data self) with
  | Some n => if s =? n then self else ed_change self (dfe_set_size (ed_data self) s)
  | None => self
  end.
Definition ed_set_created (self : DirEntryEditor) (dt : DateTime) : exec DirEntryEditor :=
  cur ← created (ed_data self);
  if bool_decide (dt = cur) then mret self
  else d ← dfe_set_created (ed_data self) dt; mret (ed_change self d).
Definition ed_set_accessed (self : DirEntryEditor) (dt : Date) : exec DirEntryEditor :=
  cur ← accessed (ed_data self);
  if bool_decide (dt = cur) then mret self
  else d ← dfe_set_accessed (ed_data self) dt; mret (ed_change self d).
Definition ed_set_modified (self : DirEntryEditor) (dt : DateTime) : exec DirEntryEditor :=
  cur ← modified (ed_data self);
  if bool_decide (dt = cur) then mret self
  else d ← dfe_set_modified (ed_data self) dt; mret (ed_change self d).

Section editor_io.
Context {D : Type} `{!Stream D}.

Definition ed_write (self : DirEntryEditor) : M (FileSystem D) (ioresult unit) :=
  on_disk (s_seek (SeekStart (ed_pos self))) ?;
  on_disk (dfe_serialize (ed_data self)).
Definition ed_flush (self : DirEntryEditor) : M (FileSystem D) (ioresult DirEntryEditor) :=
  if ed_dirty self then
    ed_write self ?;
    ok {| ed_data := ed_data self; ed_pos := ed_pos self; ed_dirty := false |}
  else ok self.
End editor_io.

(** [Stat] and [LinuxDirent64] (fatfs/src/lib.rs), and their contents for an entry.
    [mem::size_of::<DirEntryData>()] is layout of the compiler and an argument. *)
Record Stat := {
  st_dev : Z; st_ino : Z; st_mode : Z; st_nlink : Z; st_uid : Z; st_gid : Z; st_rdev : Z; st_pad : Z;
  st_size : Z; st_blksize : Z; st_pad2 : Z; st_blocks : Z;
  st_atime_sec : Z; st_atime_nsec : Z; st_mtime_sec : Z; st_mtime_nsec : Z; st_ctime_sec : Z;
  st_ctime_nsec : Z; st_unused : list Z;
}.
(** [0o010_0000] and [0o004_0000] *)
Definition S_IFREG : Z := 0x8000.
Definition S_IFDIR : Z := 0x4000.
Definition editor_stat (self : DirEntryEditor) : Stat :=
  {| st_dev := 0; st_ino := ed_pos self;
     st_mode := if attrs_contains (attrs (ed_data self)) DIRECTORY then S_IFDIR else S_IFREG;
     st_nlink := 1; st_uid := 0; st_gid := 0; st_rdev := 0; st_pad := 0;
     st_size := icast 64 (e_size (ed_data self)); st_blksize := 512; st_pad2 := 0; st_blocks := 1;
     st_atime_sec := access_date (ed_data self); st_atime_nsec := 0;
     st_mtime_sec := modify_time (ed_data self); st_mtime_nsec := 0;
     st_ctime_sec := create_time_1 (ed_data self); st_ctime_nsec := 0; st_unused := [0; 0] |}.
Record LinuxDirent64 := { d_ino : Z; d_off : Z; d_reclen : Z; d_type : Z; d_name : list Z }.
Definition editor_dirent (entry_size : Z) (self : DirEntryEditor) : exec LinuxDirent64 :=
  off ← ichk 64 (icast 64 (ed_pos self) + entry_size);
  mret {| d_ino := ed_pos self; d_off := off; d_reclen := cast 16 entry_size;
          d_type := attrs (ed_data self); d_name := name (ed_data self) |}.

(** ** Round trips *)

Definition file_entry_chunks (e : DirFileEntryData) : list (list Z) :=
  [name e; le_bytes 1 (attrs e); le_bytes 1 (e_reserved_0 e); le_bytes 1 (create_time_0 e);
   le_bytes 2 (create_time_1 e); le_bytes 2 (create_date e); le_bytes 2 (access_date e);
   le_bytes 2 (first_cluster_hi e); le_bytes 2 (modify_time e); le_bytes 2 (modify_date e);
   le_bytes 2 (first_cluster_lo e); le_bytes 4 (e_size e)].
Definition lfn_entry_chunks (e : DirLfnEntryData) : list (list Z) :=
  [le_bytes 1 (order e)] ++ (le_bytes 2 <$> name_0 e) ++
  [le_bytes 1 (l_attrs e); le_bytes 1 (entry_type e); le_bytes 1 (checksum e)] ++
  (le_bytes 2 <$> name_1 e) ++ [le_bytes 2 (l_reserved_0 e)] ++ (le_bytes 2 <$> name_2 e).
Definition entry_bytes (e : DirEntryData) : list Z :=
  concat (match e with FileEntry f => file_entry_chunks f | LfnEntry l => lfn_entry_chunks l end).

(** Field widths; the attributes decide the kind of an entry. *)
Definition file_entry_wf (e : DirFileEntryData) : Prop :=
  length (name e) = 11%nat ∧ (0 ≤ attrs e < 0x40 ∧ Z.land (attrs e) LFN ≠ LFN) ∧
  0 ≤ e_reserved_0 e < 2 ^ 8 ∧ 0 ≤ create_time_0 e < 2 ^ 8 ∧ 0 ≤ create_time_1 e < 2 ^ 16 ∧
  0 ≤ create_date e < 2 ^ 16 ∧ 0 ≤ access_date e < 2 ^ 16 ∧ 0 ≤ first_cluster_hi e < 2 ^ 16 ∧
  0 ≤ modify_time e < 2 ^ 16 ∧ 0 ≤ modify_date e < 2 ^ 16 ∧ 0 ≤ first_cluster_lo e < 2 ^ 16 ∧
  0 ≤ e_size e < 2 ^ 32.
Definition is_unit (u : Z) : Prop := 0 ≤ u < 2 ^ 16.
Definition lfn_entry_wf (e : DirLfnEntryData) : Prop :=
  0 ≤ order e < 2 ^ 8 ∧ (length (name_0 e) = 5%nat ∧ Forall is_unit (name_0 e)) ∧
  (0 ≤ l_attrs e < 0x40 ∧ Z.land (l_attrs e) LFN = LFN) ∧ 0 ≤ entry_type e < 2 ^ 8 ∧
  0 ≤ checksum e < 2 ^ 8 ∧ (length (name_1 e) = 6%nat ∧ Forall is_unit (name_1 e)) ∧
  is_unit (l_reserved_0 e) ∧ (length (name_2 e) = 2%nat ∧ Forall is_unit (name_2 e)).
Definition entry_wf (e : DirEntryData) : Prop :=
  match e with FileEntry f => file_entry_wf f | LfnEntry l => lfn_entry_wf l end.

Lemma attrs_truncate_id a : 0 ≤ a < 0x40 → attrs_truncate a = a.
Proof. intros. unfold attrs_truncate. change 0x3F with (2 ^ 6 - 1). rewrite land_pow2_mod by lia. by apply Z.mod_small. Qed.

Lemma length_units_bytes (l : list Z) : length (concat (le_bytes 2 <$> l)) = (2 * length l)%nat.
Proof. induction l as [|u l IH]; [done|]. cbn [fmap list_fmap concat]. rewrite length_app, IH, length_le_bytes. cbn. lia. Qed.

Lemma units_bytes l : Forall is_unit l → units (concat (le_bytes 2 <$> l)) = l.
Proof.
  induction 1 as [|u l Hu Hl IH]; [done|].
  change (le_value (le_bytes 2 u) :: units (concat (le_bytes 2 <$> l)) = u :: l).
  rewrite IH. f_equal. apply (le_value_bytes 2). exact Hu.
Qed.

Lemma length_entry_bytes e : entry_wf e → length (entry_bytes e) = 32%nat.
Proof.
  destruct e as [f|l]; cbn [entry_wf]; unfold entry_bytes.
  - intros (Hn & _). unfold file_entry_chunks. cbn [concat]. by rewrite !length_app, !length_le_bytes, Hn.
  - intros (_ & [H0 _] & _ & _ & _ & [H1 _] & _ & [H2 _]). unfold lfn_entry_chunks.
    rewrite !concat_app, !length_app, !length_units_bytes, H0, H1, H2. cbn [concat].
    by rewrite !length_app, !length_le_bytes.
Qed.

Section entry_codec.
Context {D : Type} `{!Stream D, !ByteStream D}.

Lemma try_congr {A B} (m m' : M D (ioresult A)) (f g : A → M D (ioresult B)) s :
  (∀ s, m s = m' s) → (∀ a s', f a s' = g a s') → try m f s = try m' g s.
Proof. intros Hm Hf. unfold try at 1, mbind, M_bind. rewrite Hm. by apply (try_ext m'). Qed.

Lemma try_each_chunks (l : list Z) (d : D) : try_each l write_u16 d = write_seq (le_bytes 2 <$> l) d.
Proof.
  revert d. induction l as [|u l IH]; intros d; [done|]. cbn [try_each fmap list_fmap write_seq].
  apply try_ext. intros _. apply IH.
Qed.

Lemma entry_serialize_spec e d bs pos :
  entry_wf e → pos + 32 ≤ Z.of_nat (length bs) → stream_rep d bs pos →
  ∃ d', entry_serialize e d = Ok (IoOk tt, d') ∧ stream_rep d' (splice pos (entry_bytes e) bs) (pos + 32).
Proof.
  intros He Hl Hd. pose proof (length_entry_bytes e He) as Hlen. unfold entry_bytes in *.
  set (cs := match e with FileEntry f => file_entry_chunks f | LfnEntry l => lfn_entry_chunks l end) in *.
  assert (entry_serialize e d = write_seq cs d) as ->.
  { destruct e as [f|l]; unfold entry_serialize, cs.
    - unfold dfe_serialize, file_entry_chunks, write_u8, write_u16, write_u32. cbn [write_seq]. as_chunks.
    - unfold lfn_serialize, lfn_entry_chunks, write_u8. cbn [app write_seq].
      apply try_ext. intros _ s1. rewrite write_seq_app. apply try_congr; [apply try_each_chunks|].
      intros _ s2. cbn [app write_seq]. do 3 (apply try_ext; intros _ ?). rewrite write_seq_app.
      apply try_congr; [apply try_each_chunks|]. intros _ s4. cbn [app write_seq].
      apply try_ext. intros _ s5. apply try_each_chunks. }
  destruct (write_seq_spec cs d bs pos Hd) as (d' & H & Hd'); rewrite Hlen in *; [done|eauto].
Qed.

Lemma entry_deserialize_spec e d bs pos rest :
  entry_wf e → reads d bs pos (entry_bytes e ++ rest) →
  ∃ d', entry_deserialize d = Ok (IoOk e, d') ∧ reads d' bs (pos + 32) rest.
Proof.
  intros He Hr. unfold entry_bytes in Hr. unfold entry_deserialize. destruct e as [f|l]; cbn [entry_wf] in He.
  - destruct He as (Hn & (Ha & Hk) & ?).
    unfold file_entry_chunks in Hr. cbn [concat] in Hr. rewrite <- !app_assoc, app_nil_l in Hr.
    apply (reads_array 11 (name f)) in Hr as (d1 & E & Hr); [|lia..]. rewrite (M_bind_eq _ _ _ _ _ E). clear E.
    read_next (reads_u8 (attrs f)) Hr. rewrite attrs_truncate_id by done.
    rewrite (proj2 (Z.eqb_neq _ _) Hk).
    read_next (reads_u8 (e_reserved_0 f)) Hr. read_next (reads_u8 (create_time_0 f)) Hr.
    read_next (reads_u16 (create_time_1 f)) Hr. read_next (reads_u16 (create_date f)) Hr.
    read_next (reads_u16 (access_date f)) Hr. read_next (reads_u16 (first_cluster_hi f)) Hr.
    read_next (reads_u16 (modify_time f)) Hr. read_next (reads_u16 (modify_date f)) Hr.
    read_next (reads_u16 (first_cluster_lo f)) Hr. read_next (reads_u32 (e_size f)) Hr.
    eexists. split; [by destruct f|]. by rewrite <- !Z.add_assoc in Hr.
  - destruct He as (Ho & [H0 U0] & (Ha & Hk) & He & Hc & [H1 U1] & Hres & [H2 U2]). unfold is_unit in Hres.
    set (u0 := concat (le_bytes 2 <$> name_0 l)) in *. set (u1 := concat (le_bytes 2 <$> name_1 l)).
    set (u2 := concat (le_bytes 2 <$> name_2 l)).
    unfold lfn_entry_chunks in Hr. rewrite !concat_app in Hr. cbn [concat] in Hr.
    rewrite !app_nil_r, <- !app_assoc in Hr. fold u0 u1 u2 in Hr.
    assert (length u0 = 10%nat ∧ length u1 = 12%nat ∧ length u2 = 4%nat) as (L0 & L1 & L2).
    { unfold u0, u1, u2. by rewrite !length_units_bytes, H0, H1, H2. }
    rewrite (app_assoc (le_bytes 1 (order l))) in Hr.
    apply (reads_array 11 (le_bytes 1 (order l) ++ u0)) in Hr as (d1 & E & Hr);
      [|rewrite length_app, L0; done|lia]. rewrite (M_bind_eq _ _ _ _ _ E). clear E.
    read_next (reads_u8 (l_attrs l)) Hr. rewrite attrs_truncate_id by done.
    rewrite (proj2 (Z.eqb_eq _ _) Hk).
    read_next (reads_u8 (entry_type l)) Hr. read_next (reads_u8 (checksum l)) Hr.
    read_next (reads_array 12 u1) Hr. read_next (reads_u16 (l_reserved_0 l)) Hr.
    read_next (reads_array 4 u2) Hr. eexists. split; [|by rewrite <- !Z.add_assoc in Hr].
    change (at0 (le_bytes 1 (order l) ++ u0)) with (order l `mod` 256).
    change (drop 1 (le_bytes 1 (order l) ++ u0)) with u0. rewrite Z.mod_small by lia.
    unfold u0, u1, u2. rewrite !units_bytes by done. by destruct l.
Qed.

(** Both kinds of directory entries are 32 bytes on disk: what [serialize] writes,
    [deserialize] reads back, with the kind recovered from the attributes; no
    other byte of the stream changes. *)
Theorem dir_entry_roundtrip (e : DirEntryData) (d : D) (bs : list Z) (pos : Z) :
  entry_wf e → stream_rep d bs pos → pos + 32 ≤ Z.of_nat (length bs) →
  ∃ d1 d2 d3 bs',
    entry_serialize e d = Ok (IoOk tt, d1) ∧ stream_rep d1 bs' (pos + 32) ∧
    (∀ i : nat, ¬ (pos ≤ Z.of_nat i < pos + 32) → bs' !! i = bs !! i) ∧
    s_seek (SeekStart pos) d1 = Ok (IoOk pos, d2) ∧
    entry_deserialize d2 = Ok (IoOk e, d3) ∧ stream_rep d3 bs' (pos + 32).
Proof.
  intros He Hd Hl. pose proof (stream_pos _ _ _ Hd) as Hp. pose proof (length_entry_bytes e He) as Hlen.
  destruct (entry_serialize_spec e d bs pos He Hl Hd) as (d1 & H1 & Hd1).
  assert (length (splice pos (entry_bytes e) bs) = length bs) as Hls by (apply length_splice; lia).
  destruct (stream_seek d1 _ _ pos Hd1) as (d2 & H2 & Hd2); [lia|].
  destruct (entry_deserialize_spec e d2 (splice pos (entry_bytes e) bs) pos
              (drop 32 (drop (Z.to_nat pos) (splice pos (entry_bytes e) bs))) He) as (d3 & H3 & [Hd3 _]).
  { split; [done|]. split; [lia|]. rewrite <- (take_drop 32 (drop (Z.to_nat pos) _)) at 1.
    f_equal. rewrite <- Hlen at 1. apply splice_read; lia. }
  exists d1, d2, d3, (splice pos (entry_bytes e) bs). split_and!; try done.
  intros i Hi. rewrite splice_lookup by lia. by rewrite decide_False by lia.
Qed.
End entry_codec.

(** ** Time stamps *)

(** The editor's setters for valid stamps: they return, and change neither the kind
    nor the size nor the clusters of the entry. *)
Definition same_file (d d' : DirFileEntryData) : Prop :=
  name d' = name d ∧ attrs d' = attrs d ∧ e_size d' = e_size d ∧ first_cluster_hi d' = first_cluster_hi d ∧
  first_cluster_lo d' = first_cluster_lo d.

Lemma ed_set_accessed_spec e dt w :
  file_entry_wf (ed_data e) → date_encode dt = Ok w → 0 ≤ w < 2 ^ 16 →
  ∃ e', ed_set_accessed e dt = Ok e' ∧ file_entry_wf (ed_data e') ∧ same_file (ed_data e) (ed_data e') ∧
    ed_pos e' = ed_pos e.
Proof.
  intros Hw He Hr. pose proof Hw as (? & ? & ? & ? & ? & ? & Ha & ?).
  destruct (date_decode_total _ Ha) as [d Hd]. unfold ed_set_accessed, accessed. rewrite Hd.
  cbn [mbind exec_bind]. case_bool_decide; [by exists e|].
  unfold dfe_set_accessed. rewrite He. cbn [mbind exec_bind mret exec_ret]. eexists. split; [done|].
  split; [|done]. unfold file_entry_wf in *. cbn. tauto.
Qed.

Lemma ed_set_modified_spec e dt d t :
  file_entry_wf (ed_data e) → date_encode (date dt) = Ok d → 0 ≤ d < 2 ^ 16 →
  time_encode (time dt) = Ok t → 0 ≤ t.1 < 2 ^ 16 →
  ∃ e', ed_set_modified e dt = Ok e' ∧ file_entry_wf (ed_data e') ∧ same_file (ed_data e) (ed_data e') ∧
    ed_pos e' = ed_pos e.
Proof.
  intros Hw Hd Hdr Ht Htr. pose proof Hw as (? & ? & ? & ? & ? & ? & ? & ? & Hmt & Hmd & ?).
  destruct (date_decode_total _ Hmd) as [d0 Hd0].
  destruct (time_decode_total (modify_time (ed_data e)) 0) as [t0 Ht0]; [lia|].
  unfold ed_set_modified, modified, date_time_decode. rewrite Hd0. cbn [mbind exec_bind]. rewrite Ht0.
  cbn [mbind exec_bind mret exec_ret]. case_bool_decide; [by exists e|].
  unfold dfe_set_modified. rewrite Hd. cbn [mbind exec_bind]. rewrite Ht. cbn [mbind exec_bind mret exec_ret].
  eexists. split; [done|]. split; [|done]. unfold file_entry_wf in *. cbn. tauto.
Qed.

Lemma same_file_size d d' : same_file d d' → dfe_size d' = dfe_size d ∧ is_dir d' = is_dir d.
Proof. intros (_ & E1 & E2 & _). unfold dfe_size, is_file, is_dir. by rewrite E1, E2. Qed.

(** ** Example entries *)

(** [README.TXT], 1234 bytes from cluster 0x12345 *)
Definition sample_entry : DirFileEntryData :=
  {| name := [0x52; 0x45; 0x41; 0x44; 0x4D; 0x45; 0x20; 0x20; 0x54; 0x58; 0x54]; attrs := ARCHIVE;
     e_reserved_0 := 0; create_time_0 := 100; create_time_1 := 0x6000; create_date := 0x5021;
     access_date := 0x5021; first_cluster_hi := 1; modify_time := 0x6000; modify_date := 0x5021;
     first_cluster_lo := 0x2345; e_size := 1234 |}.

Example sample_entry_name : sn_as_bytes (sn_new (name sample_entry)) =
  [0x52; 0x45; 0x41; 0x44; 0x4D; 0x45; 0x2E; 0x54; 0x58; 0x54].
Proof. reflexivity. Qed.

Lemma dir_entry_roundtrip_witness :
  ∃ d1 d2 d3 bs',
    entry_serialize (FileEntry sample_entry) {| mf_bytes := replicate 96 7; mf_pos := 32 |} = Ok (IoOk tt, d1) ∧
    stream_rep d1 bs' (32 + 32) ∧
    (∀ i : nat, ¬ (32 ≤ Z.of_nat i < 32 + 32) → bs' !! i = replicate 96 7 !! i) ∧
    s_seek (SeekStart 32) d1 = Ok (IoOk 32, d2) ∧
    entry_deserialize d2 = Ok (IoOk (FileEntry sample_entry), d3) ∧ stream_rep d3 bs' (32 + 32).
Proof.
  apply (dir_entry_roundtrip (FileEntry sample_entry) {| mf_bytes := replicate 96 7; mf_pos := 32 |}
           (replicate 96 7) 32); [..|vm_compute; discriminate].
  - vm_compute. intuition congruence.
  - cbn. split; [reflexivity|]. split; [reflexivity|discriminate].
Defined.
