(* ===== verification/FatName.v ===== *)
(** * File names (fatfs/src/dir.rs)

    Paths, the validation of long names, the entries a long name is split into
    and the builder that joins them again, and the generator of 8.3 names.

    A string is the list of its characters' code points. *)

From stdpp Require Import strings.
From S2P Require Import Prelude Io FatIo FatTime BootSector FatTable FatFs DirEntry.

Definition SFN_PADDING : Z := 0x20.

(** ** Paths *)

(** [trim_matches('/')] *)
Fixpoint trim_start (c : Z) (s : list Z) : list Z :=
  match s with
  | x :: s' => if x =? c then trim_start c s' else s
  | [] => []
  end.
Definition trim_matches (c : Z) (s : list Z) : list Z := reverse (trim_start c (reverse (trim_start c s))).
(** [splitn(2, '/')] *)
Fixpoint split_once (c : Z) (s : list Z) : list Z * option (list Z) :=
  match s with
  | [] => ([], None)
  | x :: s => if x =? c then ([], Some s) else let r := split_once c s in (x :: r.1, r.2)
  end.
Definition split_path (path : list Z) : list Z * option (list Z) := split_once 0x2F (trim_matches 0x2F path).

(** ** UTF-8 length and UTF-16 *)

Definition utf8_len (s : list Z) : Z :=
  foldr (λ c n, (if c <? 0x80 then 1 else if c <? 0x800 then 2 else if c <? 0x10000 then 3 else 4) + n) 0 s.
Definition encode_utf16 (s : list Z) : list Z :=
  s ≫= λ c,
    if c <? 0x10000 then [c]
    else [0xD800 + Z.shiftr (c - 0x10000) 10; 0xDC00 + Z.land (c - 0x10000) 0x3FF].
Definition is_high (u : Z) : bool := (0xD800 <=? u) && (u <? 0xDC00).
Definition is_low (u : Z) : bool := (0xDC00 <=? u) && (u <? 0xE000).
(** [String::from_utf16_lossy] *)
Fixpoint from_utf16_lossy (l : list Z) : list Z :=
  match l with
  | [] => []
  | u :: l' =>
      if is_high u then
        match l' with
        | v :: l'' =>
            if is_low v then (0x10000 + Z.shiftl (u - 0xD800) 10 + (v - 0xDC00)) :: from_utf16_lossy l''
            else 0xFFFD :: from_utf16_lossy l'
        | [] => [0xFFFD]
        end
      else (if is_low u then 0xFFFD else u) :: from_utf16_lossy l'
  end.

(** ** Long names *)

Definition is_alnum (c : Z) : bool :=
  ((0x61 <=? c) && (c <=? 0x7A)) || ((0x41 <=? c) && (c <=? 0x5A)) || ((0x30 <=? c) && (c <=? 0x39)).
Definition long_name_char (c : Z) : bool :=
  is_alnum c || ((0x80 <=? c) && (c <=? 0xFFFF)) ||
  bool_decide (c ∈ [0x24; 0x25; 0x27; 0x2D; 0x5F; 0x40; 0x7E; 0x60; 0x21; 0x28; 0x29; 0x7B; 0x7D; 0x2E; 0x20;
                    0x2B; 0x2C; 0x3B; 0x3D; 0x5B; 0x5D; 0x5E; 0x23; 0x26]).
Definition validate_long_name (name : list Z) : ioresult unit :=
  if bool_decide (name = []) then IoErr OtherError
  else if 255 <? utf8_len name then IoErr OtherError
  else if forallb long_name_char name then IoOk tt
  else IoErr OtherError.

Definition lfn_checksum (short_name : list Z) : Z :=
  fold_left (λ chksum b, cast 8 (shl 8 chksum 7 + Z.shiftr chksum 1 + b)) short_name 0.

(** ** [LongNameBuilder] *)

Record LongNameBuilder := { buf : list Z; b_chksum : Z; index : Z }.

Definition lnb_new : LongNameBuilder := {| buf := []; b_chksum := 0; index := 0 |}.
Definition lnb_clear (self : LongNameBuilder) : LongNameBuilder :=
  {| buf := []; b_chksum := b_chksum self; index := 0 |}.
Definition lnb_is_empty (self : LongNameBuilder) : bool := index self =? 0.
(** The trailing [0] and [0xFFFF] units are dropped. *)
Definition lfn_pad (u : Z) : bool := (u =? 0xFFFF) || (u =? 0).
Fixpoint strip_lfn (l : list Z) : list Z :=
  match l with
  | [] => []
  | u :: l => match strip_lfn l with
              | [] => if lfn_pad u then [] else [u]
              | r => u :: r
              end
  end.
Definition lnb_truncate (self : LongNameBuilder) : LongNameBuilder :=
  {| buf := strip_lfn (buf self); b_chksum := b_chksum self; index := index self |}.
Definition into_vec (self : LongNameBuilder) : list Z :=
  if index self =? 1 then buf (lnb_truncate self)
  else if negb (lnb_is_empty self) then buf (lnb_clear self)
  else buf self.

(** [Vec::resize] *)
Definition vec_resize (n : nat) (x : Z) (l : list Z) : list Z := take n l ++ replicate (n - length l) x.
(** [copy_name_to_slice(&mut self.buf[pos..pos + 13])] *)
Definition copy_part (self : LongNameBuilder) (data : DirLfnEntryData) (idx : Z) : exec LongNameBuilder :=
  let pos := Z.of_nat LFN_PART_LEN * (idx - 1) in
  if pos + 13 <=? Z.of_nat (length (buf self)) then
    Ok {| buf := splice pos (copy_name_to_slice data) (buf self); b_chksum := b_chksum self; index := index self |}
  else Panic OutOfBounds.
Definition lnb_process (self : LongNameBuilder) (data : DirLfnEntryData) : exec LongNameBuilder :=
  let is_last := negb (Z.land (order data) LFN_ENTRY_LAST_FLAG =? 0) in
  let idx := Z.land (order data) 0x1F in
  if idx =? 0 then Ok (lnb_clear self)
  else if is_last then
    copy_part {| buf := vec_resize (Z.to_nat idx * LFN_PART_LEN) 0 (buf self);
                 b_chksum := checksum data; index := idx |} data idx
  else if (index self =? 0) || negb (idx =? index self - 1) || negb (checksum data =? b_chksum self) then
    Ok (lnb_clear self)
  else
    copy_part {| buf := buf self; b_chksum := b_chksum self; index := index self - 1 |} data idx.
Definition validate_chksum (self : LongNameBuilder) (short_name : list Z) : LongNameBuilder :=
  if lnb_is_empty self then self
  else if lfn_checksum short_name =? b_chksum self then self
  else lnb_clear self.

(** ** [LfnEntriesGenerator] *)

(** [chunks(LFN_PART_LEN)]; the first argument bounds the number of chunks. *)
Fixpoint chunks (fuel : nat) (n : nat) (l : list Z) : list (list Z) :=
  match fuel, l with
  | S fuel, _ :: _ => take n l :: chunks fuel n (drop n l)
  | _, _ => []
  end.

Record LfnEntriesGenerator := {
  name_parts_iter : list (list Z);
  g_checksum : Z;
  g_index : nat;
  num : nat;
  ended : bool;
}.
Definition leg_new (name_utf16 : list Z) (ck : Z) : LfnEntriesGenerator :=
  {| g_checksum := ck; name_parts_iter := reverse (chunks (length name_utf16) LFN_PART_LEN name_utf16);
     g_index := 0; num := (length name_utf16 + LFN_PART_LEN - 1) / LFN_PART_LEN; ended := false |}.
(** [lfn_part]: a terminating zero and 0xFFFF after it when the part is short *)
Definition pad_part (name_part : list Z) : list Z :=
  if (length name_part <? LFN_PART_LEN)%nat
  then name_part ++ 0 :: replicate (LFN_PART_LEN - 1 - length name_part) 0xFFFF
  else name_part.
Definition leg_next (self : LfnEntriesGenerator) : exec (option DirLfnEntryData * LfnEntriesGenerator) :=
  if ended self then Ok (None, self)
  else
    match name_parts_iter self with
    | name_part :: parts =>
        lfn_index ← chk 64 (Z.of_nat (num self) - Z.of_nat (g_index self));
        let o := cast 8 lfn_index in
        let o := if (g_index self =? 0)%nat then Z.lor o LFN_ENTRY_LAST_FLAG else o in
        if 0 <? o then
          let e := copy_name_from_slice (lfn_new o (g_checksum self)) (pad_part name_part) in
          Ok (Some e, {| name_parts_iter := parts; g_checksum := g_checksum self; g_index := S (g_index self);
                         num := num self; ended := false |})
        else Panic AssertFailed
    | [] => Ok (None, {| name_parts_iter := []; g_checksum := g_checksum self; g_index := g_index self;
                         num := num self; ended := true |})
    end.
(** [ExactSizeIterator::len], and the entries a [for] loop sees; [fuel] is more than the number of parts. *)
Definition leg_len (self : LfnEntriesGenerator) : nat := length (name_parts_iter self).
Fixpoint leg_collect (fuel : nat) (self : LfnEntriesGenerator) : exec (list DirLfnEntryData) :=
  match fuel with
  | O => Panic OutOfFuel
  | S fuel =>
      r ← leg_next self;
      match r.1 with
      | Some e => l ← leg_collect fuel r.2; mret (e :: l)
      | None => mret []
      end
  end.
Definition lfn_entries (name_utf16 : list Z) (ck : Z) : exec (list DirLfnEntryData) :=
  leg_collect (S (leg_len (leg_new name_utf16 ck))) (leg_new name_utf16 ck).

(** ** [ShortNameGenerator] *)

Record ShortNameGenerator := {
  chksum : Z;
  long_prefix_bitmap : Z;
  prefix_chksum_bitmap : Z;
  name_fits : bool;
  lossy_conv : bool;
  exact_match : bool;
  basename_len : nat;
  short_name : list Z;
}.

Definition to_ascii_uppercase (c : Z) : Z := if (0x61 <=? c) && (c <=? 0x7A) then c - 32 else c.
Definition short_name_char (c : Z) : bool :=
  is_alnum c ||
  bool_decide (c ∈ [0x21; 0x23; 0x24; 0x25; 0x26; 0x27; 0x28; 0x29; 0x2D; 0x40; 0x5E; 0x5F; 0x60; 0x7B; 0x7D; 0x7E]).

(** [copy_short_name_part] into a slice of [room] bytes of which [dst] is written *)
Fixpoint copy_short_name_part (room : nat) (src dst : list Z) (lossy : bool) : list Z * bool * bool :=
  match src with
  | [] => (dst, true, lossy)
  | c :: src =>
      if (length dst =? room)%nat then (dst, false, lossy)
      else if (c =? 0x20) || (c =? 0x2E) then copy_short_name_part room src dst true
      else
        let fixed_c := if short_name_char c then c else 0x5F in
        copy_short_name_part room src (dst ++ [to_ascii_uppercase fixed_c]) (lossy || negb (fixed_c =? c))
  end.
Definition pad_to (n : nat) (l : list Z) : list Z := l ++ replicate (n - length l) SFN_PADDING.

(** [rfind('.')]: the parts before and after the last dot *)
Fixpoint rsplit_dot (s : list Z) : option (list Z * list Z) :=
  match s with
  | [] => None
  | c :: s =>
      match rsplit_dot s with
      | Some (a, b) => Some (c :: a, b)
      | None => if c =? 0x2E then Some ([], s) else None
      end
  end.

(** The BSD checksum of the name *)
Definition sng_checksum (name : list Z) : Z :=
  fold_left (λ ck c, cast 16 (Z.shiftr ck 1 + shl 16 ck 15 + cast 16 c)) name 0.

Definition sng_new (name : list Z) : ShortNameGenerator :=
  let '(base, ext, fits, lossy) :=
    match rsplit_dot name with
    | Some (b, e) =>
        let '(base, base_fits, base_lossy) := copy_short_name_part 8 b [] false in
        let '(ext, ext_fits, ext_lossy) := copy_short_name_part 3 e [] false in
        (base, ext, base_fits && ext_fits, base_lossy || ext_lossy)
    | None =>
        let '(base, base_fits, base_lossy) := copy_short_name_part 8 name [] false in
        (base, [], base_fits, base_lossy)
    end in
  {| short_name := pad_to 8 base ++ pad_to 3 ext; chksum := sng_checksum name; name_fits := fits;
     lossy_conv := lossy; basename_len := length base; long_prefix_bitmap := 0; prefix_chksum_bitmap := 0;
     exact_match := false |}.

Definition generate_dot : list Z := 0x2E :: replicate 10 SFN_PADDING.
Definition generate_dotdot : list Z := 0x2E :: 0x2E :: replicate 9 SFN_PADDING.

(** [char::to_digit(radix)] for radices up to 16 *)
Definition to_digit (radix c : Z) : option Z :=
  let d := if (0x30 <=? c) && (c <=? 0x39) then Some (c - 0x30)
           else if (0x61 <=? c) && (c <=? 0x66) then Some (c - 0x61 + 10)
           else if (0x41 <=? c) && (c <=? 0x46) then Some (c - 0x41 + 10)
           else None in
  match d with Some d => if d <? radix then Some d else None | None => None end.
(** [char::from_digit(x, 16)] in upper case *)
Definition hex_digit (x : Z) : Z := if x <? 10 then 0x30 + x else 0x41 + (x - 10).

(** [str::from_utf8(..).map(|s| u16::from_str_radix(s, 16))] on four bytes, as an
    option: bytes that are no UTF-8 or no digits give an error; a [+] is accepted. *)
Fixpoint parse_digits (l : list Z) (acc : Z) : option Z :=
  match l with
  | [] => Some acc
  | c :: l => match to_digit 16 c with Some d => parse_digits l (acc * 16 + d) | None => None end
  end.
Definition from_str_radix_16 (l : list Z) : option Z :=
  match l with
  | [] => None
  | [c] => parse_digits [c] 0
  | c :: l' => if c =? 0x2B then parse_digits l' 0 else parse_digits l 0
  end.

(** [name[i]] for the indices below, which are at most 7 *)
Definition byte_at (l : list Z) (i : nat) : Z := default 0 (l !! i).
Definition num_suffix (n : list Z) (i : nat) : option Z :=
  if byte_at n i =? 0x7E then to_digit 10 (byte_at n (i + 1)) else None.

Section generator.
Variable self : ShortNameGenerator.

Definition prefix_matches (k : nat) (n : list Z) : bool :=
  bool_decide (take k n = take k (short_name self)).
Definition ext_matches (n : list Z) : bool := bool_decide (drop 8 n = drop 8 (short_name self)).

Definition add_existing (n : list Z) : ShortNameGenerator :=
  let long_len := Nat.min (basename_len self) 6 in
  let long_bits :=
    match num_suffix n long_len with
    | Some k => if prefix_matches long_len n && ext_matches n then Z.shiftl 1 k else 0
    | None => 0
    end in
  let short_len := Nat.min (basename_len self) 2 in
  let short_bits :=
    match num_suffix n (short_len + 4) with
    | Some k =>
        if prefix_matches short_len n && ext_matches n &&
           bool_decide (from_str_radix_16 (take 4 (drop short_len n)) = Some (chksum self))
        then Z.shiftl 1 k else 0
    | None => 0
    end in
  {| chksum := chksum self; long_prefix_bitmap := Z.lor (long_prefix_bitmap self) long_bits;
     prefix_chksum_bitmap := Z.lor (prefix_chksum_bitmap self) short_bits; name_fits := name_fits self;
     lossy_conv := lossy_conv self; exact_match := exact_match self || bool_decide (n = short_name self);
     basename_len := basename_len self; short_name := short_name self |}.

Definition u16_to_u8_array (x : Z) : list Z :=
  [hex_digit (Z.land (Z.shiftr x 12) 0xF); hex_digit (Z.land (Z.shiftr x 8) 0xF);
   hex_digit (Z.land (Z.shiftr x 4) 0xF); hex_digit (Z.land (Z.shiftr x 0) 0xF)].
Definition build_prefixed_name (k : Z) (with_chksum : bool) : list Z :=
  let prefix :=
    if with_chksum then take (Nat.min (basename_len self) 2) (short_name self) ++ u16_to_u8_array (chksum self)
    else take (Nat.min (basename_len self) 6) (short_name self) in
  pad_to 8 (prefix ++ [0x7E; 0x30 + k]) ++ drop 8 (short_name self).

(** [for i in range { if bitmap & (1 << i) == 0 { return .. } }] *)
Fixpoint first_free (bitmap : Z) (range : list Z) : option Z :=
  match range with
  | [] => None
  | i :: range => if Z.land bitmap (Z.shiftl 1 i) =? 0 then Some i else first_free bitmap range
  end.
Definition generate : ioresult (list Z) :=
  if negb (lossy_conv self) && name_fits self && negb (exact_match self) then IoOk (short_name self)
  else
    match first_free (long_prefix_bitmap self) [1; 2; 3; 4] with
    | Some i => IoOk (build_prefixed_name i false)
    | None =>
        match first_free (prefix_chksum_bitmap self) [1; 2; 3; 4; 5; 6; 7; 8; 9] with
        | Some i => IoOk (build_prefixed_name i true)
        | None => IoErr AlreadyExists
        end
    end.
Definition next_iteration : ShortNameGenerator :=
  {| chksum := cast 16 (chksum self + 1); long_prefix_bitmap := 0; prefix_chksum_bitmap := 0;
     name_fits := name_fits self; lossy_conv := lossy_conv self; exact_match := exact_match self;
     basename_len := basename_len self; short_name := short_name self |}.
End generator.

(** ** Long names: any entries *)

(** Every unit the index still points to is inside the buffer. *)
Definition lnb_wf (b : LongNameBuilder) : Prop :=
  0 ≤ index b ≤ 31 ∧ 13 * index b ≤ Z.of_nat (length (buf b)).

Lemma low_bits_range o : 0 ≤ Z.land o 0x1F ≤ 31.
Proof.
  change 0x1F with (2 ^ 5 - 1). rewrite land_pow2_mod by lia. pose proof (Z.mod_pos_bound o (2 ^ 5)). lia.
Qed.

Lemma length_vec_resize n x l : length (vec_resize n x l) = n.
Proof. unfold vec_resize. rewrite length_app, length_take, length_replicate. lia. Qed.

Lemma length_lfn_part e : lfn_entry_wf e → length (copy_name_to_slice e) = 13%nat.
Proof.
  intros (_ & [H0 _] & _ & _ & _ & [H1 _] & _ & [H2 _]). unfold copy_name_to_slice.
  by rewrite !length_app, H0, H1, H2.
Qed.

Lemma copy_part_ok b e i :
  lfn_entry_wf e → 1 ≤ i → 13 * i ≤ Z.of_nat (length (buf b)) →
  copy_part b e i = Ok {| buf := splice (13 * (i - 1)) (copy_name_to_slice e) (buf b);
                          b_chksum := b_chksum b; index := index b |}.
Proof.
  intros He Hi Hl. unfold copy_part. change (Z.of_nat LFN_PART_LEN) with 13.
  by rewrite (proj2 (Z.leb_le _ _)) by lia.
Qed.

(** One step of the builder on any entry: no index is out of bounds. *)
Lemma process_wf b e : lfn_entry_wf e → lnb_wf b → ∃ b', lnb_process b e = Ok b' ∧ lnb_wf b'.
Proof.
  intros He (Hi & Hb). pose proof (low_bits_range (order e)) as Hr. pose proof (length_lfn_part e He) as Hp.
  unfold lnb_process. set (i := Z.land (order e) 0x1F) in *.
  destruct (Z.eqb_spec i 0) as [|Hi0]; [eexists; split; [done|split; cbn; lia]|].
  destruct (negb (Z.land (order e) LFN_ENTRY_LAST_FLAG =? 0)).
  - assert (Z.of_nat (length (vec_resize (Z.to_nat i * LFN_PART_LEN) 0 (buf b))) = 13 * i) as Hl.
    { rewrite length_vec_resize. unfold LFN_PART_LEN. lia. }
    rewrite copy_part_ok by (done || cbn [buf]; lia). eexists. split; [done|].
    split; cbn [buf index]; [lia|]. rewrite length_splice by lia. lia.
  - destruct (_ || _) eqn:E; [eexists; split; [done|split; cbn; lia]|].
    apply orb_false_iff in E as [E _]. apply orb_false_iff in E as [E1 E2].
    apply Z.eqb_neq in E1. apply negb_false_iff, Z.eqb_eq in E2.
    rewrite copy_part_ok by (done || cbn [buf]; lia). eexists. split; [done|].
    split; cbn [buf index]; [lia|]. rewrite length_splice by lia. lia.
Qed.

(** All entries in front of a short entry, as [read_dir_entry] feeds them *)
Fixpoint process_all (b : LongNameBuilder) (es : list DirLfnEntryData) : exec LongNameBuilder :=
  match es with
  | [] => mret b
  | e :: es => b ← lnb_process b e; process_all b es
  end.

(** C39: Whatever long-name entries stand in a directory, in any order and with any
    indices, flags and checksums, the builder's slice [buf[pos..pos + 13]] is in
    bounds: [process] never panics, and the units it hands out fit the buffer. *)
Theorem long_name_builder_total (es : list DirLfnEntryData) :
  Forall lfn_entry_wf es → ∃ b, process_all lnb_new es = Ok b ∧ lnb_wf b.
Proof.
  assert (lnb_wf lnb_new) as Hb by (split; cbn; lia).
  intros Hes. revert Hb. generalize lnb_new.
  induction Hes as [|e es He Hes IH]; intros b Hb; [eexists; split; done|].
  destruct (process_wf b e He Hb) as (b' & H & Hb'). cbn. rewrite H. by apply IH.
Qed.

(** ** Long names: splitting and joining *)

Section lfn_roundtrip.
Variables (u : list Z) (ck : Z).
#[local] Abbreviation n := (length u).

Definition parts : nat := (n + 12) / 13.
Definition part (k : nat) : list Z := take 13 (drop (13 * k) u).
(** The units on disk: the name, a terminating zero and 0xFFFF up to the end of its last part *)
Definition padded : list Z :=
  if (n =? 13 * parts)%nat then u else u ++ 0 :: replicate (13 * parts - n - 1) 0xFFFF.
Definition entry_order (k : nat) : Z :=
  let o := Z.of_nat (S k) in if (S k =? parts)%nat then Z.lor o LFN_ENTRY_LAST_FLAG else o.
Definition entry_of (k : nat) : DirLfnEntryData :=
  copy_name_from_slice (lfn_new (entry_order k) ck) (pad_part (part k)).

Lemma parts_bounds : (13 * parts < n + 13 ∧ n ≤ 13 * parts)%nat.
Proof.
  unfold parts. pose proof (Nat.div_mod_eq (n + 12) 13). pose proof (Nat.mod_upper_bound (n + 12) 13). lia.
Qed.

Lemma length_padded : length padded = (13 * parts)%nat.
Proof.
  pose proof parts_bounds. unfold padded. destruct (Nat.eqb_spec n (13 * parts)) as [E|E]; [done|].
  rewrite length_app. cbn [length]. rewrite length_replicate. lia.
Qed.

Lemma pad_part_padded k : (k < parts)%nat → pad_part (part k) = take 13 (drop (13 * k) padded).
Proof.
  intros Hk. pose proof parts_bounds. unfold pad_part, padded, part.
  change LFN_PART_LEN with 13%nat. rewrite length_take, length_drop.
  destruct (Nat.eqb_spec n (13 * parts)) as [E|E].
  { by rewrite (proj2 (Nat.ltb_ge _ _)) by lia. }
  destruct (decide (S k = parts)) as [El|El].
  - rewrite (proj2 (Nat.ltb_lt _ _)) by lia. rewrite drop_app_le by lia.
    rewrite (take_ge (drop _ u)) by (rewrite length_drop; lia). rewrite take_ge.
    + do 3 f_equal. lia.
    + rewrite length_app, length_drop. cbn [length]. rewrite length_replicate. lia.
  - rewrite (proj2 (Nat.ltb_ge _ _)) by lia. rewrite drop_app_le by lia.
    by rewrite take_app_le by (rewrite length_drop; lia).
Qed.

Lemma length_pad_part k : (k < parts)%nat → length (pad_part (part k)) = 13%nat.
Proof.
  intros Hk. rewrite pad_part_padded by done. rewrite length_take, length_drop, length_padded. lia.
Qed.

Lemma chunks_spec fuel k :
  (n ≤ 13 * k + fuel)%nat → chunks fuel 13 (drop (13 * k) u) = part <$> seq k (parts - k).
Proof.
  revert k. induction fuel as [|fuel IH]; intros k Hf; pose proof parts_bounds.
  - replace (parts - k)%nat with 0%nat by lia. done.
  - destruct (decide (n ≤ 13 * k)%nat) as [Hn|Hn].
    + rewrite drop_ge by lia. replace (parts - k)%nat with 0%nat by lia. done.
    + replace (parts - k)%nat with (S (parts - S k)) by lia. cbn [seq fmap list_fmap].
      rewrite <- IH by lia. unfold part.
      destruct (drop (13 * k) u) as [|x l] eqn:E.
      { apply (f_equal length) in E. rewrite length_drop in E. cbn in E. lia. }
      cbn [chunks]. f_equal. rewrite <- E, drop_drop. f_equal. f_equal. lia.
Qed.

Lemma copy_entry_of k : (k < parts)%nat → copy_name_to_slice (entry_of k) = take 13 (drop (13 * k) padded).
Proof.
  intros Hk. rewrite <- pad_part_padded by done. pose proof (length_pad_part k Hk) as Hl.
  unfold entry_of, copy_name_to_slice, copy_name_from_slice. cbn [name_0 name_1 name_2].
  rewrite (take_ge (drop 11 _)) by (rewrite length_drop; lia).
  change 11%nat with (5 + 6)%nat at 1. by rewrite <- drop_drop, !take_drop.
Qed.

Lemma leg_next_part j p ps :
  (j < parts)%nat → (parts ≤ 31)%nat →
  leg_next {| name_parts_iter := p :: ps; g_checksum := ck; g_index := parts - S j; num := parts; ended := false |} =
  Ok (Some (copy_name_from_slice (lfn_new (entry_order j) ck) (pad_part p)),
      {| name_parts_iter := ps; g_checksum := ck; g_index := parts - j; num := parts; ended := false |}).
Proof.
  intros Hj Hp. unfold leg_next. cbn [ended name_parts_iter num g_index g_checksum].
  replace (Z.of_nat parts - Z.of_nat (parts - S j)) with (Z.of_nat (S j)) by lia.
  rewrite chk_in by lia. cbn [mbind exec_bind]. unfold cast. rewrite Z.mod_small by lia.
  replace (parts - S j =? 0)%nat with (S j =? parts)%nat
    by (destruct (Nat.eqb_spec (S j) parts), (Nat.eqb_spec (parts - S j) 0); (done || lia)).
  change (if (S j =? parts)%nat then Z.lor (Z.of_nat (S j)) LFN_ENTRY_LAST_FLAG else Z.of_nat (S j))
    with (entry_order j).
  rewrite (proj2 (Z.ltb_lt _ _)); [by replace (S (parts - S j)) with (parts - j)%nat by lia|].
  unfold entry_order, LFN_ENTRY_LAST_FLAG. destruct (S j =? parts)%nat; [|lia].
  pose proof (Z.log2_lor (Z.of_nat (S j)) 0x40) as L. 
  assert (0 ≤ Z.lor (Z.of_nat (S j)) 0x40) by (apply Z.lor_nonneg; lia).
  enough (Z.lor (Z.of_nat (S j)) 0x40 ≠ 0) by lia. intros E%Z.lor_eq_0_iff. lia.
Qed.

Lemma leg_collect_S fuel g :
  leg_collect (S fuel) g = (r ← leg_next g; match r.1 with
                            | Some e => l ← leg_collect fuel r.2; mret (e :: l)
                            | None => mret []
                            end).
Proof. done. Qed.

(** The entries the generator yields: the last part first *)
Lemma collect_spec j :
  (j ≤ parts)%nat → (parts ≤ 31)%nat →
  leg_collect (S j) {| name_parts_iter := reverse (part <$> seq 0 j); g_checksum := ck; g_index := parts - j;
                       num := parts; ended := false |} =
  Ok (entry_of <$> reverse (seq 0 j)).
Proof.
  induction j as [|j IH]; intros Hj Hp; [done|].
  rewrite seq_S, fmap_app, !reverse_app, !Nat.add_0_l.
  change (reverse (part <$> [j]) ++ reverse (part <$> seq 0 j)) with (part j :: reverse (part <$> seq 0 j)).
  change (entry_of <$> reverse [j] ++ reverse (seq 0 j)) with (entry_of j :: (entry_of <$> reverse (seq 0 j))).
  rewrite leg_collect_S, leg_next_part by lia. cbn [mbind exec_bind fst snd]. by rewrite IH by lia.
Qed.

Lemma lfn_entries_spec : (parts ≤ 31)%nat → lfn_entries u ck = Ok (entry_of <$> reverse (seq 0 parts)).
Proof.
  intros Hp. rewrite <- collect_spec by lia. unfold lfn_entries, leg_len, leg_new.
  cbn [name_parts_iter]. change LFN_PART_LEN with 13%nat.
  rewrite <- (drop_0 u) at 2 4. change (drop 0 u) with (drop (13 * 0) u).
  rewrite chunks_spec, Nat.sub_0_r, length_reverse, length_fmap, length_seq, Nat.sub_diag by lia.
  replace ((n + 13 - 1) / 13)%nat with parts; [done|]. unfold parts. f_equal. lia.
Qed.

Lemma splice_parts l0 j :
  (j < parts)%nat → length l0 = (13 * parts)%nat →
  splice (13 * Z.of_nat j) (take 13 (drop (13 * j) padded)) (take (13 * S j) l0 ++ drop (13 * S j) padded) =
  take (13 * j) l0 ++ drop (13 * j) padded.
Proof.
  intros Hj Hl. unfold splice. replace (Z.to_nat (13 * Z.of_nat j)) with (13 * j)%nat by lia.
  rewrite length_take, length_drop, length_padded.
  replace (13 `min` (13 * parts - 13 * j))%nat with 13%nat by lia.
  rewrite take_app_le by (rewrite length_take; lia). rewrite take_take, Nat.min_l by lia.
  f_equal. replace (13 * j + 13)%nat with (13 * S j)%nat by lia.
  rewrite drop_app_length' by (rewrite length_take; lia).
  replace (13 * S j)%nat with (13 * j + 13)%nat by lia. by rewrite <- drop_drop, take_drop.
Qed.

Lemma order_bits k : (k < parts)%nat → (parts ≤ 31)%nat →
  Z.land (entry_order k) 0x1F = Z.of_nat (S k) ∧
  negb (Z.land (entry_order k) LFN_ENTRY_LAST_FLAG =? 0) = (S k =? parts)%nat.
Proof.
  intros Hk Hp. assert (Z.land (Z.of_nat (S k)) 0x1F = Z.of_nat (S k)) as E.
  { change 0x1F with (2 ^ 5 - 1). rewrite land_pow2_mod by lia. apply Z.mod_small. lia. }
  unfold entry_order, LFN_ENTRY_LAST_FLAG. destruct (S k =? parts)%nat.
  - rewrite !Z.land_lor_distr_l, E. change (Z.land 64 31) with 0. rewrite Z.lor_0_r. split; [done|].
    apply negb_true_iff, Z.eqb_neq. intros [_ H]%Z.lor_eq_0_iff. done.
  - split; [done|]. rewrite <- E, <- Z.land_assoc. by rewrite Z.land_0_r.
Qed.

Hypothesis Hu : Forall is_unit u.
Hypothesis Hck : 0 ≤ ck < 2 ^ 8.

Lemma entry_of_wf k : (k < parts)%nat → (parts ≤ 31)%nat → lfn_entry_wf (entry_of k).
Proof.
  intros Hk Hp. pose proof (length_pad_part k Hk) as Hl.
  assert (Forall is_unit (pad_part (part k))) as Hf.
  { rewrite pad_part_padded by done. apply Forall_take, Forall_drop. unfold padded.
    destruct (n =? 13 * parts)%nat; [done|]. apply Forall_app. split; [done|].
    constructor; [split; lia|]. apply Forall_replicate. split; lia. }
  assert (0 ≤ entry_order k < 2 ^ 8) as Ho.
  { unfold entry_order, LFN_ENTRY_LAST_FLAG. destruct (S k =? parts)%nat; [|lia].
    assert (0 ≤ Z.lor (Z.of_nat (S k)) 64) by (apply Z.lor_nonneg; lia). split; [done|].
    apply Z.log2_lt_cancel. rewrite Z.log2_lor by lia. change (Z.log2 (2 ^ 8)) with 8.
    apply Z.max_lub_lt; [|done]. apply Z.log2_lt_pow2; lia. }
  unfold lfn_entry_wf, entry_of, copy_name_from_slice, lfn_new.
  cbn [order name_0 l_attrs entry_type checksum name_1 l_reserved_0 name_2].
  split_and!; try done; try lia; try (rewrite !length_take, ?length_drop; lia).
  all: repeat first [apply Forall_take|apply Forall_drop|assumption]. all: split; lia.
Qed.

(** The builder after the parts [j], [j + 1], ... *)
Definition joined (l0 : list Z) (j : nat) : LongNameBuilder :=
  {| buf := take (13 * j) l0 ++ drop (13 * j) padded; b_chksum := ck; index := Z.of_nat (S j) |}.

Lemma length_joined l0 j : (j ≤ parts)%nat → length l0 = (13 * parts)%nat →
  length (buf (joined l0 j)) = (13 * parts)%nat.
Proof. intros. cbn [buf joined]. rewrite length_app, length_take, length_drop, length_padded. lia. Qed.

Lemma process_first b : (1 ≤ parts ≤ 31)%nat →
  ∃ l0, length l0 = (13 * parts)%nat ∧ lnb_process b (entry_of (parts - 1)) = Ok (joined l0 (parts - 1)).
Proof.
  intros Hp. destruct (order_bits (parts - 1)) as [E1 E2]; [lia..|].
  replace (S (parts - 1)) with parts in * by lia. rewrite Nat.eqb_refl in E2.
  unfold lnb_process. change (order (entry_of (parts - 1))) with (entry_order (parts - 1)).
  rewrite E1, E2, (proj2 (Z.eqb_neq _ _)) by lia.
  set (l0 := vec_resize _ _ _). exists l0.
  assert (length l0 = (13 * parts)%nat) as Hl by (unfold l0; rewrite length_vec_resize; unfold LFN_PART_LEN; lia).
  split; [done|]. rewrite copy_part_ok; cbn [buf index b_chksum]; [|apply entry_of_wf; lia|lia|lia].
  rewrite copy_entry_of by lia. replace (13 * (Z.of_nat parts - 1)) with (13 * Z.of_nat (parts - 1)) by lia.
  unfold joined. rewrite <- (splice_parts l0) by (done || lia).
  replace (S (parts - 1)) with parts by lia.
  rewrite (take_ge l0), (drop_ge padded (13 * parts)), app_nil_r by (rewrite ?length_padded; lia). done.
Qed.

Lemma process_next l0 j : (S j < parts)%nat → (parts ≤ 31)%nat → length l0 = (13 * parts)%nat →
  lnb_process (joined l0 (S j)) (entry_of j) = Ok (joined l0 j).
Proof.
  intros Hj Hp Hl. destruct (order_bits j) as [E1 E2]; [lia..|].
  unfold lnb_process. change (order (entry_of j)) with (entry_order j).
  rewrite E1, E2, (proj2 (Z.eqb_neq _ _)), (proj2 (Nat.eqb_neq _ _)) by lia.
  cbn [joined index b_chksum]. change (checksum (entry_of j)) with ck. rewrite Z.eqb_refl.
  rewrite (proj2 (Z.eqb_neq _ _)), (proj2 (Z.eqb_eq _ _)) by lia. cbn [negb orb].
  rewrite copy_part_ok; cbn [buf index b_chksum]; [|apply entry_of_wf; lia|lia|rewrite length_joined; lia].
  rewrite copy_entry_of by lia. replace (13 * (Z.of_nat (S j) - 1)) with (13 * Z.of_nat j) by lia.
  cbn [buf joined]. rewrite splice_parts by (done || lia). unfold joined. do 2 f_equal. lia.
Qed.

Lemma process_rest l0 j : (j < parts)%nat → (parts ≤ 31)%nat → length l0 = (13 * parts)%nat →
  process_all (joined l0 j) (entry_of <$> reverse (seq 0 j)) = Ok (joined l0 0).
Proof.
  intros Hj Hp Hl. induction j as [|j IH]; [done|].
  rewrite seq_S, reverse_app, Nat.add_0_l.
  change (entry_of <$> reverse [j] ++ reverse (seq 0 j)) with (entry_of j :: (entry_of <$> reverse (seq 0 j))).
  cbn [process_all]. rewrite process_next by lia. cbn [mbind exec_bind]. apply IH. lia.
Qed.

Lemma process_entries b : (1 ≤ parts ≤ 31)%nat →
  process_all b (entry_of <$> reverse (seq 0 parts)) =
    Ok {| buf := padded; b_chksum := ck; index := 1 |}.
Proof.
  intros Hp. destruct (process_first b Hp) as (l0 & Hl & H1).
  replace parts with (S (parts - 1)) by lia. rewrite seq_S, reverse_app, Nat.add_0_l.
  change (entry_of <$> reverse [(parts - 1)%nat] ++ reverse (seq 0 (parts - 1)))
    with (entry_of (parts - 1) :: (entry_of <$> reverse (seq 0 (parts - 1)))).
  cbn [process_all]. rewrite H1. cbn [mbind exec_bind]. by rewrite process_rest by lia.
Qed.

Lemma strip_lfn_pads l : Forall (λ x, lfn_pad x = true) l → strip_lfn l = [].
Proof. induction 1 as [|x l Hx Hl IH]; [done|]. cbn. by rewrite IH, Hx. Qed.

Lemma strip_lfn_app l l' : Forall (λ x, lfn_pad x = true) l' → strip_lfn (l ++ l') = strip_lfn l.
Proof. intros H. induction l as [|x l IH]; cbn; [by apply strip_lfn_pads|by rewrite IH]. Qed.

Lemma strip_lfn_last l x : lfn_pad x = false → strip_lfn (l ++ [x]) = l ++ [x].
Proof.
  intros Hx. induction l as [|y l IH]; cbn; [by rewrite Hx|]. rewrite IH. by destruct (l ++ [x]) eqn:E; [destruct l|].
Qed.

Lemma strip_padded x : last u = Some x → lfn_pad x = false → strip_lfn padded = u.
Proof.
  intros [l E]%last_Some Hx. transitivity (strip_lfn u); [|rewrite E; by apply strip_lfn_last].
  unfold padded. destruct (_ =? _)%nat; [done|]. apply strip_lfn_app. constructor; [done|].
  by apply Forall_replicate.
Qed.
End lfn_roundtrip.

Lemma lfn_checksum_range sn : 0 ≤ lfn_checksum sn < 2 ^ 8.
Proof.
  unfold lfn_checksum.
  enough (∀ c, 0 ≤ c < 2 ^ 8 →
    0 ≤ fold_left (λ k b, cast 8 (shl 8 k 7 + Z.shiftr k 1 + b)) sn c < 2 ^ 8) as H by (apply H; lia).
  induction sn as [|b sn IH]; intros c Hc; [done|]. cbn [fold_left]. apply IH. apply Z.mod_pos_bound. lia.
Qed.

(** A long name of up to 31 entries (255 units need 20) survives the directory: the
    entries [LfnEntriesGenerator] writes in front of a short entry, last part
    first, are joined to the same units by [LongNameBuilder] whatever it had
    read before, provided the name does not end in a unit the format uses for padding. *)
Theorem long_name_roundtrip (u : list Z) (sn : list Z) (b : LongNameBuilder) (x : Z) :
  Forall is_unit u → (length u ≤ 403)%nat → last u = Some x → x ≠ 0 → x ≠ 0xFFFF →
  ∃ es b', lfn_entries u (lfn_checksum sn) = Ok es ∧
    process_all b es = Ok b' ∧ into_vec (validate_chksum b' sn) = u.
Proof.
  intros Hu Hl Hx H0 HF.
  assert (1 ≤ parts u ≤ 31)%nat as Hp.
  { pose proof (parts_bounds u). destruct u; [done|]. cbn [length] in *. lia. }
  eexists _, _. split; [apply lfn_entries_spec; lia|]. split.
  { apply process_entries; [done|apply lfn_checksum_range|done]. }
  unfold validate_chksum. cbn [lnb_is_empty index b_chksum]. rewrite Z.eqb_refl.
  cbn [into_vec index lnb_truncate buf]. change (1 =? 0) with false. change (1 =? 1) with true. cbn [buf].
  apply (strip_padded u x Hx). unfold lfn_pad. lia.
Qed.

(** U+FFFF is accepted by [validate_long_name], but at the end of a name it is
    taken for padding: the name read back has lost it. *)
Theorem long_name_ffff_lost :
  validate_long_name [0x61; 0xFFFF] = IoOk tt ∧
  (es ← lfn_entries (encode_utf16 [0x61; 0xFFFF]) 0; b ← process_all lnb_new es; Ok (into_vec b)) = Ok [0x61].
Proof. split; reflexivity. Qed.

(** ** Examples from the unit tests *)

Definition str (s : string) : list Z := (λ a, Z.of_N (Ascii.N_of_ascii a)) <$> String.list_ascii_of_string s.

Example split_path_3 : split_path (str "aaa/bbb/ccc") = (str "aaa", Some (str "bbb/ccc")).
Proof. reflexivity. Qed.
Example split_path_1 : split_path (str "aaa") = (str "aaa", None).
Proof. reflexivity. Qed.
Example short_name_foo : generate (sng_new (str "Foo+1.baR")) = IoOk (str "FOO_1~1 BAR").
Proof. reflexivity. Qed.
Example short_name_ver : generate (sng_new (str "ver +1.2.text")) = IoOk (str "VER_12~1TEX").
Proof. reflexivity. Qed.
Example short_name_bashrc : generate (sng_new (str ".bashrc.swp")) = IoOk (str "BASHRC~1SWP").
Proof. reflexivity. Qed.
(** The name after [n] collisions *)
Fixpoint after_collisions (n : nat) (g : ShortNameGenerator) : ShortNameGenerator :=
  match n with
  | O => g
  | S n => match generate g with
           | IoOk s => after_collisions n (add_existing g s)
           | IoErr _ => after_collisions n (next_iteration g)
           end
  end.
Example collisions_4 : generate (after_collisions 4 (sng_new (str "TextFile.Mine.txt"))) = IoOk (str "TE527D~1TXT").
Proof. reflexivity. Qed.
Example collisions_12 : generate (after_collisions 12 (sng_new (str "TextFile.Mine.txt"))) = IoOk (str "TE527D~9TXT").
Proof. reflexivity. Qed.
Example collisions_13 : generate (after_collisions 13 (sng_new (str "TextFile.Mine.txt"))) = IoErr AlreadyExists.
Proof. reflexivity. Qed.
Example collisions_18 : generate (after_collisions 18 (sng_new (str "TextFile.Mine.txt"))) = IoOk (str "TE527E~1TXT").
Proof. reflexivity. Qed.
Example collisions_short : generate (after_collisions 6 (sng_new (str "x.txt"))) = IoOk (str "X40DA~2 TXT").
Proof. reflexivity. Qed.

(** ** Witnesses *)

Lemma long_name_builder_total_witness :
  ∃ b, process_all lnb_new [copy_name_from_slice (lfn_new 3 7) (replicate 13 0x41)] = Ok b ∧ lnb_wf b.
Proof.
  apply (long_name_builder_total [copy_name_from_slice (lfn_new 3 7) (replicate 13 0x41)]).
  constructor; [|constructor]. unfold lfn_entry_wf, is_unit. cbn.
  split_and!; try lia; try reflexivity; try discriminate;
    repeat first [apply Forall_nil_2|apply Forall_cons_2; [lia|]].
Defined.

Lemma long_name_roundtrip_witness :
  ∃ es b', lfn_entries (str "A long file name.text") (lfn_checksum (str "ALONGF~1TEX")) = Ok es ∧
    process_all lnb_new es = Ok b' ∧
    into_vec (validate_chksum b' (str "ALONGF~1TEX")) = str "A long file name.text".
Proof.
  apply (long_name_roundtrip (str "A long file name.text") (str "ALONGF~1TEX") lnb_new 0x74).
  - unfold is_unit. cbn.
    repeat first [apply Forall_nil_2|apply Forall_cons_2; [lia|]].
  - apply Nat.leb_le. reflexivity.
  - reflexivity.
  - discriminate.
  - discriminate.
Defined.
