(* ===== verification/ShortName.v ===== *)
(** * The 8.3 name generator is correct

    [ShortNameGenerator] of fatfs/src/dir.rs: the generated name is in no entry of
    the directory, and the loop of [check_for_existence] that looks for one ends. *)

From stdpp Require Import strings.
From S2P Require Import Prelude Io FatIo FatTime BootSector FatTable FatFs DirEntry FatName.

(** ** Short names: a fresh name *)

Record sng_wf (g : ShortNameGenerator) : Prop := {
  sng_short : length (short_name g) = 11%nat;
  sng_base : (basename_len g ≤ 8)%nat;
  sng_ck : 0 ≤ chksum g < 2 ^ 16;
}.

(** The names already in the directory, as [find_entry] adds them *)
Definition add_all (g : ShortNameGenerator) (names : list (list Z)) : ShortNameGenerator :=
  fold_left add_existing names g.
(** Round [k] of the loop in [check_for_existence] *)
Fixpoint round (names : list (list Z)) (g : ShortNameGenerator) (k : nat) : ShortNameGenerator :=
  match k with
  | O => add_all g names
  | S k => add_all (next_iteration (round names g k)) names
  end.

Lemma length_copy_part room src dst lossy :
  (length dst ≤ room)%nat → (length (copy_short_name_part room src dst lossy).1.1 ≤ room)%nat.
Proof.
  revert dst lossy. induction src as [|c src IH]; intros dst lossy Hd; cbn; [done|].
  destruct (Nat.eqb_spec (length dst) room); [cbn; lia|].
  destruct (_ || _); [by apply IH|]. apply IH. rewrite length_app. cbn. lia.
Qed.

Lemma sng_checksum_range name : 0 ≤ sng_checksum name < 2 ^ 16.
Proof.
  unfold sng_checksum.
  enough (∀ k, 0 ≤ k < 2 ^ 16 →
    0 ≤ fold_left (λ ck c, cast 16 (Z.shiftr ck 1 + shl 16 ck 15 + cast 16 c)) name k < 2 ^ 16) as H by (apply H; lia).
  induction name as [|c name IH]; intros k Hk; [done|]. cbn [fold_left]. apply IH. apply Z.mod_pos_bound. lia.
Qed.

Lemma length_pad_to n l : (length l ≤ n)%nat → length (pad_to n l) = n.
Proof. intros. unfold pad_to. rewrite length_app, length_replicate. lia. Qed.

Lemma sng_new_wf name : sng_wf (sng_new name).
Proof.
  unfold sng_new. destruct (rsplit_dot name) as [[b e]|].
  - pose proof (length_copy_part 8 b [] false (Nat.le_0_l 8)) as H1.
    pose proof (length_copy_part 3 e [] false (Nat.le_0_l 3)) as H2.
    destruct (copy_short_name_part 8 b [] false) as [[base ?] ?].
    destruct (copy_short_name_part 3 e [] false) as [[ext ?] ?]. cbn [fst] in *.
    split; cbn [short_name basename_len chksum]; [|done|apply sng_checksum_range].
    by rewrite length_app, !length_pad_to.
  - pose proof (length_copy_part 8 name [] false (Nat.le_0_l 8)) as H1.
    destruct (copy_short_name_part 8 name [] false) as [[base ?] ?]. cbn [fst] in *.
    split; cbn [short_name basename_len chksum]; [|done|apply sng_checksum_range].
    rewrite length_app, !length_pad_to; [done|cbn; lia|done].
Qed.

(** The fields that scanning leaves alone *)
Definition same_name (g g' : ShortNameGenerator) : Prop :=
  short_name g' = short_name g ∧ basename_len g' = basename_len g ∧ name_fits g' = name_fits g ∧
  lossy_conv g' = lossy_conv g.

Lemma add_all_same g names : same_name g (add_all g names) ∧ chksum (add_all g names) = chksum g.
Proof.
  revert g. induction names as [|n names IH]; intros g; [done|]. destruct (IH (add_existing g n)) as [H1 H2]. done.
Qed.

Lemma round_same g names k :
  0 ≤ chksum g < 2 ^ 16 →
  same_name g (round names g k) ∧ chksum (round names g k) = cast 16 (chksum g + Z.of_nat k).
Proof.
  intros Hc. induction k as [|k IH]; cbn [round].
  - destruct (add_all_same g names) as [H1 ->]. split; [done|]. symmetry. unfold cast.
    rewrite Z.add_0_r. by apply Z.mod_small.
  - destruct (add_all_same (next_iteration (round names g k)) names) as [(? & ? & ? & ?) ->].
    destruct IH as [(? & ? & ? & ?) Hk]. split; [split_and!; cbn in *; congruence|].
    cbn [next_iteration chksum]. rewrite Hk. unfold cast.
    rewrite Zplus_mod_idemp_l. f_equal. lia.
Qed.

Lemma round_wf g names k : sng_wf g → sng_wf (round names g k).
Proof.
  intros [? ? ?]. destruct (round_same g names k) as [(E1 & E2 & _) E3]; [done|].
  split; rewrite ?E1, ?E2, ?E3; try done. apply Z.mod_pos_bound. lia.
Qed.

(** ** Collisions as bits *)

Section hits.
Variable g : ShortNameGenerator.

(** The bit an existing name sets in either bitmap *)
Definition long_hit (n : list Z) : option Z :=
  let p := Nat.min (basename_len g) 6 in
  match num_suffix n p with
  | Some k => if prefix_matches g p n && ext_matches g n then Some k else None
  | None => None
  end.
Definition short_hit (n : list Z) : option Z :=
  let p := Nat.min (basename_len g) 2 in
  match num_suffix n (p + 4) with
  | Some k => if prefix_matches g p n && ext_matches g n &&
                 bool_decide (from_str_radix_16 (take 4 (drop p n)) = Some (chksum g)) then Some k else None
  | None => None
  end.
End hits.

Definition hit_bits (h : option Z) : Z := match h with Some k => Z.shiftl 1 k | None => 0 end.

Lemma add_existing_bits g n :
  long_prefix_bitmap (add_existing g n) = Z.lor (long_prefix_bitmap g) (hit_bits (long_hit g n)) ∧
  prefix_chksum_bitmap (add_existing g n) = Z.lor (prefix_chksum_bitmap g) (hit_bits (short_hit g n)).
Proof.
  unfold add_existing, long_hit, short_hit. cbn [long_prefix_bitmap prefix_chksum_bitmap].
  split; f_equal; destruct (num_suffix _ _); try done; by destruct (_ && _).
Qed.

Lemma to_digit_range r c k : to_digit r c = Some k → 0 ≤ k < r.
Proof. unfold to_digit. repeat case_match; intros; simplify_eq; lia. Qed.

Lemma num_suffix_Some n p k : num_suffix n p = Some k → 0 ≤ k < 10 ∧ byte_at n p = 0x7E.
Proof.
  unfold num_suffix. destruct (Z.eqb_spec (byte_at n p) 0x7E); [|done]. intros H%to_digit_range. done.
Qed.

Lemma hit_range g n : (∀ k, long_hit g n = Some k → 0 ≤ k < 10) ∧ (∀ k, short_hit g n = Some k → 0 ≤ k < 10).
Proof.
  unfold long_hit, short_hit. split; intros k; destruct (num_suffix _ _) as [j|] eqn:E; try done;
    apply num_suffix_Some in E as [? _]; destruct (_ && _); naive_solver.
Qed.

Lemma testbit_hit h i : 0 ≤ i → (∀ k, h = Some k → 0 ≤ k) →
  Z.testbit (hit_bits h) i = bool_decide (h = Some i).
Proof.
  intros Hi Hh. destruct h as [k|]; cbn [hit_bits]; [|by rewrite Z.bits_0].
  rewrite Z.shiftl_1_l. specialize (Hh k eq_refl). destruct (decide (k = i)) as [->|Hk].
  - rewrite Z.pow2_bits_true by lia. symmetry. by apply bool_decide_eq_true.
  - rewrite Z.pow2_bits_false by lia. symmetry. apply bool_decide_eq_false. congruence.
Qed.

(** After a scan, a bit is set exactly by an initial bit or by a colliding name. *)
Lemma add_all_bits g names i : 0 ≤ i →
  (Z.testbit (long_prefix_bitmap (add_all g names)) i = true ↔
    Z.testbit (long_prefix_bitmap g) i = true ∨ ∃ n, n ∈ names ∧ long_hit g n = Some i) ∧
  (Z.testbit (prefix_chksum_bitmap (add_all g names)) i = true ↔
    Z.testbit (prefix_chksum_bitmap g) i = true ∨ ∃ n, n ∈ names ∧ short_hit g n = Some i).
Proof.
  intros Hi. revert g. induction names as [|n names IH]; intros g; cbn [add_all fold_left].
  { split; split; [tauto|intros [?|(? & ?%not_elem_of_nil & _)]; done|tauto|intros [?|(? & ?%not_elem_of_nil & _)]; done]. }
  destruct (IH (add_existing g n)) as [H1 H2]. destruct (add_existing_bits g n) as [B1 B2].
  destruct (hit_range g n) as [R1 R2].
  change (add_all (add_existing g n) names) with (fold_left add_existing names (add_existing g n)) in *.
  rewrite H1, H2, B1, B2, !Z.lor_spec, !orb_true_iff, !testbit_hit, !bool_decide_eq_true;
    [|done|intros k Hk; apply R2 in Hk; lia|done|intros k Hk; apply R1 in Hk; lia].
  split; (split; [intros [[?|?]|(m & ? & ?)]|intros [?|(m & [->|?]%elem_of_cons & ?)]]); set_solver.
Qed.

Lemma add_all_exact g names :
  exact_match (add_all g names) = false → exact_match g = false ∧ (short_name g ∉ names).
Proof.
  revert g. induction names as [|n names IH]; intros g H; [split; [done|apply not_elem_of_nil]|].
  apply (IH (add_existing g n)) in H as [H1 H2]. cbn [add_existing exact_match short_name] in *.
  apply orb_false_iff in H1 as [H1 H3%bool_decide_eq_false]. split; [done|]. set_solver.
Qed.

Lemma bitmap_free_Some b r i : first_free b r = Some i → i ∈ r ∧ Z.testbit b i = false.
Proof.
  induction r as [|j r IH]; cbn; [done|]. destruct (Z.eqb_spec (Z.land b (Z.shiftl 1 j)) 0) as [E|E].
  - intros [= ->]. split; [set_solver|]. destruct (decide (0 ≤ i)); [|by apply Z.testbit_neg_r; lia].
    apply (f_equal (λ z, Z.testbit z i)) in E.
    rewrite Z.land_spec, Z.shiftl_1_l, Z.pow2_bits_true, andb_true_r, Z.bits_0 in E by done. done.
  - intros [? ?]%IH. split; [set_solver|done].
Qed.

Lemma bitmap_free_None b r i : first_free b r = None → i ∈ r → 0 ≤ i → Z.testbit b i = true.
Proof.
  induction r as [|j r IH]; cbn; [set_solver|].
  destruct (Z.eqb_spec (Z.land b (Z.shiftl 1 j)) 0) as [E|E]; [done|].
  intros Hr [->|Hi]%elem_of_cons Hi0; [|by apply IH].
  destruct (Z.testbit b j) eqn:T; [done|]. destruct E. apply Z.bits_inj'. intros k Hk.
  rewrite Z.land_spec, Z.shiftl_1_l, Z.bits_0. destruct (decide (k = j)) as [->|]; [by rewrite T|].
  by rewrite Z.pow2_bits_false, andb_false_r by lia.
Qed.

(** ** The names that are built collide with themselves *)

Lemma to_digit_dec r k : 0 ≤ k < 10 → r = 10 ∨ r = 16 → to_digit r (0x30 + k) = Some k.
Proof.
  intros Hk Hr. unfold to_digit. replace ((48 <=? 48 + k) && (48 + k <=? 57)) with true by lia.
  replace (48 + k - 48) with k by lia. rewrite (proj2 (Z.ltb_lt _ _)) by lia. done.
Qed.

Lemma hex_digit_parse x : 0 ≤ x < 16 → to_digit 16 (hex_digit x) = Some x.
Proof.
  intros Hx. unfold hex_digit. destruct (Z.ltb_spec x 10); [apply to_digit_dec; lia|].
  unfold to_digit. replace ((48 <=? 65 + (x - 10)) && (65 + (x - 10) <=? 57)) with false by lia.
  replace ((97 <=? 65 + (x - 10)) && (65 + (x - 10) <=? 102)) with false by lia.
  replace ((65 <=? 65 + (x - 10)) && (65 + (x - 10) <=? 70)) with true by lia.
  replace (65 + (x - 10) - 65 + 10) with x by lia. rewrite (proj2 (Z.ltb_lt _ _)) by lia. done.
Qed.

Lemma hex_digit_plus x : 0 ≤ x < 16 → hex_digit x ≠ 0x2B.
Proof. intros. unfold hex_digit. destruct (Z.ltb_spec x 10); lia. Qed.

(** [from_str_radix] inverts [u16_to_u8_array]. *)
Lemma parse_u16_to_u8_array x : 0 ≤ x < 2 ^ 16 → from_str_radix_16 (u16_to_u8_array x) = Some x.
Proof.
  intros Hx. unfold u16_to_u8_array.
  assert (∀ n, 0 ≤ n → Z.land (Z.shiftr x n) 0xF = (x `div` 2 ^ n) `mod` 16) as E.
  { intros n Hn. change 0xF with (2 ^ 4 - 1). rewrite land_pow2_mod, Z.shiftr_div_pow2 by lia. done. }
  rewrite !E by lia. clear E. unfold from_str_radix_16.
  rewrite (proj2 (Z.eqb_neq _ _)) by (apply hex_digit_plus, Z.mod_pos_bound; lia).
  cbn [parse_digits]. rewrite !hex_digit_parse by (apply Z.mod_pos_bound; lia). f_equal.
  change (2 ^ 12) with 4096. change (2 ^ 8) with 256. change (2 ^ 4) with 16. change (2 ^ 0) with 1.
  rewrite Z.div_1_r. change (2 ^ 16) with 65536 in Hx.
  replace 4096 with (16 * 16 * 16) by lia. replace 256 with (16 * 16) by lia.
  rewrite <- !Z.div_div by lia.
  pose proof (Z.div_mod x 16). pose proof (Z.div_mod (x `div` 16) 16).
  pose proof (Z.div_mod ((x `div` 16) `div` 16) 16).
  rewrite (Z.mod_small (((x `div` 16) `div` 16) `div` 16)); [lia|].
  rewrite !Z.div_div by lia. split; [apply Z.div_pos; lia|apply Z.div_lt_upper_bound; lia].
Qed.

Section built.
Variables (g : ShortNameGenerator) (Hg : sng_wf g).

Lemma prefixed_parts (pre : list Z) (k : Z) :
  (length pre ≤ 6)%nat →
  let n := pad_to 8 (pre ++ [0x7E; 0x30 + k]) ++ drop 8 (short_name g) in
  take (length pre) n = pre ∧ byte_at n (length pre) = 0x7E ∧ byte_at n (length pre + 1) = 0x30 + k ∧
  drop 8 n = drop 8 (short_name g) ∧ length n = 11%nat.
Proof.
  intros Hp n. destruct Hg as [Hs _ _].
  assert (length (pad_to 8 (pre ++ [0x7E; 0x30 + k])) = 8%nat) as Hl.
  { apply length_pad_to. rewrite length_app. cbn. lia. }
  assert (n = pre ++ [0x7E; 0x30 + k] ++ replicate (8 - length (pre ++ [0x7E; 0x30 + k])) SFN_PADDING ++
              drop 8 (short_name g)) as En.
  { unfold n, pad_to. by rewrite <- !app_assoc. }
  unfold byte_at. split_and!.
  - by rewrite En, take_app_length.
  - rewrite En, lookup_app_r, Nat.sub_diag by lia. done.
  - rewrite En, lookup_app_r by lia. by replace (length pre + 1 - length pre)%nat with 1%nat by lia.
  - unfold n. by rewrite drop_app_length' by done.
  - unfold n. rewrite length_app, Hl, length_drop, Hs. done.
Qed.

Lemma long_hit_built k : 0 ≤ k < 10 → long_hit g (build_prefixed_name g k false) = Some k.
Proof.
  intros Hk. destruct Hg as [Hs Hb _]. set (p := Nat.min (basename_len g) 6).
  assert (length (take p (short_name g)) = p) as Hp by (rewrite length_take; lia).
  destruct (prefixed_parts (take p (short_name g)) k) as (H1 & H2 & H3 & H4 & _); [lia|]. rewrite Hp in *.
  change (build_prefixed_name g k false)
    with (pad_to 8 (take p (short_name g) ++ [0x7E; 0x30 + k]) ++ drop 8 (short_name g)).
  unfold long_hit, num_suffix, prefix_matches, ext_matches. fold p.
  rewrite H1, H2, H3, H4, to_digit_dec, !bool_decide_eq_true_2 by (done || lia). done.
Qed.

Lemma short_hit_built k : 0 ≤ k < 10 → short_hit g (build_prefixed_name g k true) = Some k.
Proof.
  intros Hk. destruct Hg as [Hs Hb Hc]. set (p := Nat.min (basename_len g) 2).
  assert (length (take p (short_name g)) = p) as Hp by (rewrite length_take; lia).
  set (pre := take p (short_name g) ++ u16_to_u8_array (chksum g)).
  assert (length pre = (p + 4)%nat) as Hl by (unfold pre; rewrite length_app, Hp; done).
  destruct (prefixed_parts pre k) as (H1 & H2 & H3 & H4 & _); [lia|]. rewrite Hl in *.
  change (build_prefixed_name g k true) with (pad_to 8 (pre ++ [0x7E; 0x30 + k]) ++ drop 8 (short_name g)).
  set (n := pad_to 8 _ ++ _) in *.
  assert (take p n = take p (short_name g) ∧ take 4 (drop p n) = u16_to_u8_array (chksum g)) as [E1 E2].
  { rewrite <- (take_drop (p + 4) n), H1. unfold pre. rewrite <- !app_assoc. split.
    - by rewrite take_app_length'.
    - rewrite drop_app_length' by done. done. }
  unfold short_hit, num_suffix, prefix_matches, ext_matches. fold p.
  rewrite H2, H3, H4, E1, E2, to_digit_dec, parse_u16_to_u8_array, !bool_decide_eq_true_2 by (done || lia). done.
Qed.

Lemma length_built k c : length (build_prefixed_name g k c) = 11%nat.
Proof.
  destruct Hg as [Hs Hb _]. destruct c.
  - apply (prefixed_parts (take (Nat.min (basename_len g) 2) (short_name g) ++ u16_to_u8_array (chksum g))).
    rewrite length_app, length_take. cbn. lia.
  - apply (prefixed_parts (take (basename_len g `min` 6) (short_name g))). rewrite length_take. lia.
Qed.
End built.

Lemma hits_ext g g' n : same_name g g' → long_hit g' n = long_hit g n ∧
  (chksum g' = chksum g → short_hit g' n = short_hit g n).
Proof.
  intros (E1 & E2 & _). unfold long_hit, short_hit, prefix_matches, ext_matches. rewrite E1, E2.
  split; [done|]. by intros ->.
Qed.

(** ** Freshness *)

Lemma generate_fresh g names s :
  sng_wf g → generate (add_all g names) = IoOk s → (s ∉ names) ∧ length s = 11%nat.
Proof.
  intros Hg. destruct (add_all_same g names) as [Hs Hc].
  assert (sng_wf (add_all g names)) as Hw.
  { destruct Hg, Hs as (E1 & E2 & _). split; by rewrite ?E1, ?E2, ?Hc. }
  set (g' := add_all g names) in *. unfold generate.
  destruct (negb (lossy_conv g') && name_fits g' && negb (exact_match g')) eqn:E.
  - intros [= <-]. apply andb_true_iff in E as [_ E%negb_true_iff]. apply add_all_exact in E as [_ E].
    destruct Hs as (-> & _). split; [done|apply Hg].
  - destruct (first_free (long_prefix_bitmap g') [1; 2; 3; 4]) as [i|] eqn:L.
    + intros [= <-]. apply bitmap_free_Some in L as [Hi L]. split; [|by apply length_built].
      intros Hin. assert (0 ≤ i < 10) as Hi' by (clear -Hi; set_unfold; lia).
      enough (Z.testbit (long_prefix_bitmap g') i = true) by congruence.
      apply (add_all_bits g names i); [lia|]. right. eexists. split; [exact Hin|].
      rewrite <- (proj1 (hits_ext g g' _ Hs)). by apply long_hit_built.
    + destruct (first_free (prefix_chksum_bitmap g') _) as [i|] eqn:S; [|done].
      intros [= <-]. apply bitmap_free_Some in S as [Hi S]. split; [|by apply length_built].
      intros Hin. assert (0 ≤ i < 10) as Hi' by (clear -Hi; set_unfold; lia).
      enough (Z.testbit (prefix_chksum_bitmap g') i = true) by congruence.
      apply (add_all_bits g names i); [lia|]. right. eexists. split; [exact Hin|].
      rewrite <- (proj2 (hits_ext g g' _ Hs) Hc). by apply short_hit_built.
Qed.

Lemma sng_wf_next g : sng_wf g → sng_wf (next_iteration g).
Proof. intros [? ? ?]. split; cbn; [done..|]. apply Z.mod_pos_bound. lia. Qed.

Lemma round_fresh g names k s :
  sng_wf g → generate (round names g k) = IoOk s → (s ∉ names) ∧ length s = 11%nat.
Proof.
  intros Hg. destruct k as [|k]; cbn [round]; [by apply generate_fresh|].
  apply generate_fresh. by apply sng_wf_next, round_wf.
Qed.

(** ** The search ends *)

(** A failed round has a colliding name that carries the round's checksum. *)
Lemma round_fails g names k :
  sng_wf g → prefix_chksum_bitmap g = 0 → generate (round names g k) = IoErr AlreadyExists →
  ∃ n, n ∈ names ∧
    from_str_radix_16 (take 4 (drop (Nat.min (basename_len g) 2) n)) = Some (cast 16 (chksum g + Z.of_nat k)).
Proof.
  intros Hg H0. destruct (round_same g names k) as [Hs Hc]; [apply Hg|].
  assert (∃ g0, round names g k = add_all g0 names ∧ prefix_chksum_bitmap g0 = 0) as (g0 & E & Hz).
  { destruct k; cbn [round]; eauto. }
  intros Hgen. assert (first_free (prefix_chksum_bitmap (add_all g0 names)) [1; 2; 3; 4; 5; 6; 7; 8; 9] = None) as F.
  { rewrite E in Hgen. unfold generate in Hgen. repeat case_match; done. }
  apply (bitmap_free_None _ _ 1) in F; [|set_solver|lia].
  apply (add_all_bits g0 names 1) in F as [F|(n & Hn & Hh)]; [| |lia].
  { by rewrite Hz, Z.bits_0 in F. }
  exists n. split; [done|]. rewrite <- Hc. destruct (add_all_same g0 names) as [(E1 & E2 & _) E3].
  destruct Hs as (_ & E4 & _). rewrite E in E4 |- *. rewrite <- E4, E3, E2.
  unfold short_hit in Hh. destruct (num_suffix _ _); [|done].
  destruct (_ && _ && _) eqn:B; [|done]. apply andb_true_iff in B as [_ B]. by apply bool_decide_eq_true in B.
Qed.

Lemma generate_err g e : generate g = IoErr e → e = AlreadyExists.
Proof. unfold generate. repeat case_match; congruence. Qed.

Lemma injective_length {A} (P : nat → A → Prop) (l : list A) m :
  (∀ k, (k < m)%nat → ∃ x, x ∈ l ∧ P k x) →
  (∀ k k' x, (k < m)%nat → (k' < m)%nat → P k x → P k' x → k = k') → (m ≤ length l)%nat.
Proof.
  intros Hex Hinj.
  assert (∃ w, length w = m ∧ ∀ k x, w !! k = Some x → x ∈ l ∧ P k x) as (w & Hl & Hw).
  { clear Hinj. induction m as [|m IH]; [exists []; split; [done|intros k x; by rewrite lookup_nil]|].
    destruct IH as (w & Hl & Hw); [intros; apply Hex; lia|]. destruct (Hex m) as (y & Hy & Py); [lia|].
    exists (w ++ [y]). split; [rewrite length_app; cbn; lia|]. intros k x Hx.
    apply lookup_app_Some in Hx as [Hx|[Hk Hx]]; [by apply Hw|].
    apply list_lookup_singleton_Some in Hx as [Hk' <-]. by replace k with m by lia. }
  rewrite <- Hl. apply submseteq_length, NoDup_submseteq.
  - apply NoDup_alt. intros i j x Hi Hj. pose proof (lookup_lt_Some _ _ _ Hi). pose proof (lookup_lt_Some _ _ _ Hj).
    apply (Hinj i j x); [lia..|by apply Hw|by apply Hw].
  - intros x [k Hk]%list_elem_of_lookup. by apply (Hw k x).
Qed.

(** Among [length names + 1] rounds one succeeds. *)
Lemma some_round g names :
  sng_wf g → prefix_chksum_bitmap g = 0 → Z.of_nat (length names) < 65536 →
  ∃ k s, (k ≤ length names)%nat ∧ generate (round names g k) = IoOk s.
Proof.
  intros Hg H0 Hn.
  destruct (decide (Exists (λ k, match generate (round names g k) with IoOk _ => true | IoErr _ => false end = true)
              (seq 0 (S (length names))))) as [H|H].
  - apply Exists_exists in H as (k & Hk%elem_of_seq & H).
    destruct (generate _) as [s|] eqn:E; [|done]. exists k, s. split; [lia|done].
  - exfalso. enough (S (length names) ≤ length names)%nat by lia.
    apply (injective_length (λ k n, from_str_radix_16 (take 4 (drop (Nat.min (basename_len g) 2) n)) =
                                    Some (cast 16 (chksum g + Z.of_nat k)))).
    + intros k Hk. apply round_fails; [done..|].
      destruct (generate (round names g k)) as [s|e] eqn:E; [|by rewrite (generate_err _ _ E)].
      destruct H. apply Exists_exists. exists k. rewrite E. split; [apply elem_of_seq; lia|done].
    + intros k k' x Hk Hk' Hx Hx'. rewrite Hx in Hx'. injection Hx' as Hx'. unfold cast in Hx'.
      assert ((chksum g + Z.of_nat k - (chksum g + Z.of_nat k')) `mod` 2 ^ 16 = 0) as Hm.
      { rewrite Zminus_mod, Hx', Z.sub_diag. done. }
      replace (chksum g + Z.of_nat k - (chksum g + Z.of_nat k')) with (Z.of_nat k - Z.of_nat k') in Hm by lia.
      apply Z.mod_divide in Hm as [q Hq]; [|lia]. lia.
Qed.

(** The short name under which an entry is created is in no entry of the directory,
    in whichever round of the search it is found, and has eleven bytes. *)
Theorem short_name_fresh (name : list Z) (existing : list (list Z)) (k : nat) (s : list Z) :
  generate (round existing (sng_new name) k) = IoOk s → (s ∉ existing) ∧ length s = 11%nat.
Proof. apply round_fresh, sng_new_wf. Qed.

(** The search for a short name ends: with fewer than 65536 entries in the directory,
    a free name is found after at most one more round than there are entries. *)
Theorem short_name_search_ends (name : list Z) (existing : list (list Z)) :
  Z.of_nat (length existing) < 65536 →
  ∃ k s, (k ≤ length existing)%nat ∧ generate (round existing (sng_new name) k) = IoOk s.
Proof.
  intros H. apply some_round; [apply sng_new_wf| |done].
  unfold sng_new. by repeat case_match.
Qed.

(** ** Examples *)

(** A directory that holds [X.TXT] and [X~1.TXT] *)
Definition taken : list (list Z) := [str "X       TXT"; str "X~1     TXT"].

Lemma short_name_fresh_witness :
  generate (round taken (sng_new (str "x.txt")) 0) = IoOk (str "X~2     TXT") ∧
  (str "X~2     TXT" ∉ taken) ∧ length (str "X~2     TXT") = 11%nat.
Proof.
  assert (generate (round taken (sng_new (str "x.txt")) 0) = IoOk (str "X~2     TXT")) as H by reflexivity.
  split; [exact H|]. apply (short_name_fresh (str "x.txt") taken 0 _ H).
Defined.

Lemma short_name_search_ends_witness :
  ∃ k s, (k ≤ length taken)%nat ∧ generate (round taken (sng_new (str "x.txt")) k) = IoOk s.
Proof. apply (short_name_search_ends (str "x.txt") taken). reflexivity. Defined.
