(* ===== verification/FatFile.v ===== *)
(** * Files (fatfs/src/file.rs)

    A [File] is a cursor over the cluster chain of a directory entry.  It borrows
    the file system, so its methods run on the pair of both; a file is a stream,
    and dropping it flushes the entry it caches. *)

From S2P Require Import Prelude Io FatIo FatTime BootSector FatTable FatFs DirEntry.

Definition MAX_FILE_SIZE : Z := 2 ^ 32 - 1.

(** [%] *)
Definition urem (a b : Z) : exec Z := if b =? 0 then Panic Explicit else Ok (a `mod` b).

Record File := {
  first_cluster : option Z;
  current_cluster : option Z;
  f_offset : Z;
  entry : option DirEntryEditor;
}.

Definition file_new (first : option Z) (e : option DirEntryEditor) : File :=
  {| first_cluster := first; entry := e; current_cluster := None; f_offset := 0 |}.
Definition file_at (self : File) (off : Z) (cur : option Z) : File :=
  {| first_cluster := first_cluster self; current_cluster := cur; f_offset := off; entry := entry self |}.
Definition file_entry (self : File) (e : option DirEntryEditor) : File :=
  {| first_cluster := first_cluster self; current_cluster := current_cluster self; f_offset := f_offset self;
     entry := e |}.
Definition file_first (self : File) (c : option Z) : File :=
  {| first_cluster := c; current_cluster := current_cluster self; f_offset := f_offset self;
     entry := entry self |}.

Definition file_size (self : File) : option Z :=
  match entry self with Some e => dfe_size (ed_data e) | None => None end.
Definition file_is_dir (self : File) : bool :=
  match entry self with Some e => is_dir (ed_data e) | None => false end.
(** [s - self.offset] is a subtraction of [u32]s. *)
Definition bytes_left_in_file (self : File) : exec (option Z) :=
  match file_size self with
  | Some s => d ← u32 (s - f_offset self); mret (Some d)
  | None => mret None
  end.
Definition set_first_cluster (self : File) (cluster : Z) (t : FatType) : File :=
  let self := file_first self (Some cluster) in
  match entry self with
  | Some e => file_entry self (Some (ed_set_first_cluster e (Some cluster) t))
  | None => self
  end.

(** [Inode for File] *)
Definition default_stat : Stat :=
  {| st_dev := 0; st_ino := 0; st_mode := 0; st_nlink := 0; st_uid := 0; st_gid := 0; st_rdev := 0; st_pad := 0;
     st_size := 0; st_blksize := 0; st_pad2 := 0; st_blocks := 0; st_atime_sec := 0; st_atime_nsec := 0;
     st_mtime_sec := 0; st_mtime_nsec := 0; st_ctime_sec := 0; st_ctime_nsec := 0; st_unused := [0; 0] |}.
Definition get_fstat (self : File) : Stat :=
  match entry self with Some e => editor_stat e | None => default_stat end.
Definition get_dents64 (entry_size : Z) (self : File) : exec LinuxDirent64 :=
  match entry self with
  | Some e => editor_dirent entry_size e
  | None => Ok {| d_ino := 0; d_off := 0; d_reclen := 0; d_type := 0; d_name := 0x2F :: replicate 10 0 |}
  end.

Section file.
Context {D : Type} `{!Stream D}.
Abbreviation Fs := (FileSystem D).

(** Uses of [self.fs] and of the fields of [self] *)
Definition on_fs {A} (m : M Fs A) : M (File * Fs) A := λ s,
  match m s.2 with Ok (a, fs) => Ok (a, (s.1, fs)) | Panic f => Panic f end.
Definition self : M (File * Fs) File := λ s, Ok (s.1, s).
Definition set_self (f : File) : M (File * Fs) unit := λ s, Ok (tt, (f, s.2)).

(** [abs_pos]: between clusters, the position after the previous one *)
Definition file_abs_pos (f : File) (fs : Fs) : exec (option Z) :=
  match current_cluster f with
  | Some n =>
      cluster_size ← fs_cluster_size fs;
      m ← urem (f_offset f) cluster_size;
      let offset_in_cluster := if m =? 0 then cluster_size else m in
      p ← offset_from_cluster fs n;
      q ← u64 (p + offset_in_cluster);
      mret (Some q)
  | None => mret None
  end.

Definition flush_dir_entry : M (File * Fs) (ioresult unit) :=
  f ← self;
  match entry f with
  | Some e => e' ←? on_fs (ed_flush e); set_self (file_entry f (Some e')) ;; ok tt
  | None => ok tt
  end.
Definition file_flush : M (File * Fs) (ioresult unit) :=
  flush_dir_entry ?;
  on_fs (on_disk s_flush).
(** [Drop]: an error is only logged. *)
Definition file_drop : M (File * Fs) unit := file_flush ;; mret tt.

(** The editor's setters on the cached entry, if there is one *)
Definition edit (f : DirEntryEditor → exec DirEntryEditor) : M (File * Fs) unit :=
  me ← self;
  match entry me with
  | Some e => e' ← lift (f e); set_self (file_entry me (Some e'))
  | None => mret tt
  end.
Definition file_set_created (dt : DateTime) : M (File * Fs) unit := edit (λ e, ed_set_created e dt).
Definition file_set_accessed (d : Date) : M (File * Fs) unit := edit (λ e, ed_set_accessed e d).
Definition file_set_modified (dt : DateTime) : M (File * Fs) unit := edit (λ e, ed_set_modified e dt).

Definition update_dir_entry_after_write : M (File * Fs) unit :=
  s ← get;
  edit (λ e,
    now ← tp_date_time (time_provider (options s.2));
    e ← ed_set_modified e now;
    match dfe_size (ed_data e) with
    | Some sz => if sz <? f_offset s.1 then Ok (ed_set_size e (f_offset s.1)) else Ok e
    | None => Ok e
    end).

(** Truncate the file at the current position. *)
Definition file_truncate : M (File * Fs) (ioresult unit) :=
  s ← get;
  let off := f_offset s.1 in
  edit (λ e,
    let e := ed_set_size e off in
    Ok (if off =? 0 then ed_set_first_cluster e None (fat_type s.2) else e)) ;;
  if 0 <? off then
    lift (ensure (negb (bool_decide (current_cluster s.1 = None)))) ;;
    c ← lift (unwrap (current_cluster s.1));
    on_fs (truncate_cluster_chain c)
  else
    lift (ensure (bool_decide (current_cluster s.1 = None))) ;;
    match first_cluster s.1 with
    | Some n =>
        on_fs (free_cluster_chain n) ?;
        f ← self;
        set_self (file_first f None) ;;
        ok tt
    | None => ok tt
    end.

(** The cluster behind the current one, or the first: [None] at the end of the chain *)
Definition following_cluster : M (File * Fs) (ioresult (option Z)) :=
  f ← self;
  match current_cluster f with
  | None => ok (first_cluster f)
  | Some n =>
      r ← on_fs (with_cluster_iter n ci_next);
      match r with
      | Some (IoErr e) => err e
      | Some (IoOk n) => ok (Some n)
      | None => ok None
      end
  end.

(** [Read::read] *)
Definition file_read (len : Z) : M (File * Fs) (ioresult (list Z)) :=
  s ← get;
  let f := s.1 in
  cluster_size ← lift (fs_cluster_size s.2);
  m ← lift (urem (f_offset f) cluster_size);
  current_cluster_opt ←? (if m =? 0 then following_cluster else ok (current_cluster f));
  match current_cluster_opt with
  | None => ok []
  | Some current =>
      let offset_in_cluster := m in
      bytes_left_in_cluster ← lift (u32 (cluster_size - offset_in_cluster));
      left ← lift (bytes_left_in_file f);
      let bytes_left := default bytes_left_in_cluster left in
      let read_size := Z.min (Z.min len bytes_left_in_cluster) bytes_left in
      if read_size =? 0 then ok []
      else
        p ← lift (offset_from_cluster s.2 current);
        offset_in_fs ← lift (u64 (p + offset_in_cluster));
        on_fs (on_disk (s_seek (SeekStart offset_in_fs))) ?;
        buf ←? on_fs (on_disk (s_read read_size));
        if bool_decide (buf = []) then ok []
        else
          f ← self;
          off ← lift (u32 (f_offset f + cast 32 (Z.of_nat (length buf))));
          set_self (file_at f off (Some current)) ;;
          (if update_accessed_date (options s.2) then
             edit (λ e, now ← tp_date (time_provider (options s.2)); ed_set_accessed e now)
           else mret tt) ;;
          ok buf
  end.

(** The cluster a write goes to, allocated at the end of the chain *)
Definition cluster_for_write (between : bool) : M (File * Fs) (ioresult Z) :=
  if between then
    next_cluster ←? following_cluster;
    match next_cluster with
    | Some n => ok n
    | None =>
        f ← self;
        new_cluster ←? on_fs (fs_alloc_cluster (current_cluster f) (file_is_dir f));
        s ← get;
        (if bool_decide (first_cluster s.1 = None)
         then set_self (set_first_cluster s.1 new_cluster (fat_type s.2)) else mret tt) ;;
        ok new_cluster
    end
  else
    f ← self;
    match current_cluster f with
    | Some n => ok n
    | None => panic Explicit
    end.

(** [Write::write] *)
Definition file_write (buf : list Z) : M (File * Fs) (ioresult Z) :=
  s ← get;
  cluster_size ← lift (fs_cluster_size s.2);
  offset_in_cluster ← lift (urem (f_offset s.1) cluster_size);
  bytes_left_in_cluster ← lift (u32 (cluster_size - offset_in_cluster));
  bytes_left_until_max_file_size ← lift (u32 (MAX_FILE_SIZE - f_offset s.1));
  let write_size := Z.min (Z.of_nat (length buf)) bytes_left_in_cluster in
  let write_size := Z.min write_size bytes_left_until_max_file_size in
  if write_size =? 0 then ok 0
  else
    on_fs (set_dirty_flag true) ?;
    current ←? cluster_for_write (offset_in_cluster =? 0);
    p ← lift (offset_from_cluster s.2 current);
    offset_in_fs ← lift (u64 (p + offset_in_cluster));
    on_fs (on_disk (s_seek (SeekStart offset_in_fs))) ?;
    written_bytes ←? on_fs (on_disk (s_write (take (Z.to_nat write_size) buf)));
    if written_bytes =? 0 then ok 0
    else
      f ← self;
      off ← lift (u32 (f_offset f + cast 32 written_bytes));
      set_self (file_at f off (Some current)) ;;
      update_dir_entry_after_write ;;
      ok written_bytes.

(** The [for] loop of [seek]: the cluster reached, and the index of the round in
    which the chain ended early *)
Fixpoint seek_loop (rounds : list Z) (cluster : Z) : M (ClusterIterator (DiskSlice Fs)) (ioresult (Z * option Z)) :=
  match rounds with
  | [] => ok (cluster, None)
  | i :: rounds =>
      r ← ci_next;
      match r with
      | Some (IoOk c) => seek_loop rounds c
      | Some (IoErr e) => err e
      | None => ok (cluster, Some i)
      end
  end.

(** [Seek::seek] *)
Definition file_seek (pos : SeekFrom) : M (File * Fs) (ioresult Z) :=
  s ← get;
  let f := s.1 in
  new_pos ← lift
    match pos with
    | SeekCurrent x => ichk 64 (f_offset f + x)
    | SeekStart x => Ok (icast 64 x)
    | SeekEnd x => size ← unwrap (file_size f); ichk 64 (size + x)
    end;
  if new_pos <? 0 then err InvalidInput
  else
    let new_pos := match file_size f with Some sz => if sz <? new_pos then sz else new_pos | None => new_pos end in
    let new_pos := cast 32 new_pos in
    if new_pos =? f_offset f then ok (f_offset f)
    else
      n ← lift (fs_clusters_from_bytes s.2 new_pos);
      cluster_count ← lift (ichk 32 (icast 32 n - 1));
      o ← lift (fs_clusters_from_bytes s.2 (f_offset f));
      old_cluster_count ← lift (ichk 32 (icast 32 o - 1));
      r ←? (if new_pos =? 0 then ok (new_pos, None)
            else if cluster_count =? old_cluster_count then ok (new_pos, current_cluster f)
            else
              match first_cluster f with
              | Some n =>
                  c ←? on_fs (with_cluster_iter n (seek_loop (range 0 cluster_count) n));
                  match c.2 with
                  | Some i =>
                      b ← lift (bytes_from_clusters s.2 (cast 32 (i + 1)));
                      ok (cast 32 b, Some c.1)
                  | None => ok (new_pos, Some c.1)
                  end
              | None => ok (0, None)
              end);
      f ← self;
      set_self (file_at f r.1 r.2) ;;
      ok r.1.

#[export] Instance file_stream : Stream (File * Fs) := {|
  s_read := file_read;
  s_write := file_write;
  s_flush := file_flush;
  s_seek := file_seek |}.
End file.
