(* ===== verification/FileRep.v ===== *)
(** * A file of a mounted volume is a stream over its bytes

    The bytes of a file are those of the clusters of its chain, up to its size.
    [file_on] relates a [File] and the volume to these bytes and the position, and
    the lemmas follow [read], [seek] and [write] of fatfs/src/file.rs. *)

From S2P Require Import Prelude Io FatIo FatBits FatTime BootSector FatTable FatFs FatSlice FatVolume DirEntry FatFile.

(** ** Clusters as bytes *)

(** Where the cursor stands: [None] at the start, otherwise the cluster of the last
    byte passed. *)
Definition cursor (cs : Z) (l : list Z) (pos : Z) : option Z :=
  if pos =? 0 then None else l !! Z.to_nat ((pos - 1) `div` cs).

Lemma concat_splice (f g : Z → list Z) (l : list Z) cs k c o chunk :
  0 < cs → NoDup l → l !! k = Some c → (∀ c, c ∈ l → Z.of_nat (length (f c)) = cs) →
  0 ≤ o → o + Z.of_nat (length chunk) ≤ cs →
  (∀ c', c' ∈ l → g c' = if decide (c' = c) then splice o chunk (f c) else f c') →
  concat (g <$> l) = splice (Z.of_nat k * cs + o) chunk (concat (f <$> l)).
Proof.
  intros Hcs Hn Hk Hf Ho Hc Hg. revert k Hk. induction l as [|a l IH]; intros k Hk; [done|].
  inversion_clear Hn as [|? ? Hna Hnl]. cbn [fmap list_fmap concat].
  assert (Z.of_nat (length (f a)) = cs) as Ha by (apply Hf; set_solver).
  destruct k as [|k]; cbn in Hk.
  - injection Hk as ->. rewrite Hg by set_solver. rewrite decide_True by done.
    assert (g <$> l = f <$> l) as ->.
    { apply list_fmap_ext. intros i x Hx. rewrite Hg by (right; by eapply list_elem_of_lookup_2).
      rewrite decide_False; [done|]. intros ->. by apply Hna, list_elem_of_lookup_2 with i. }
    rewrite Z.add_0_l. rewrite <- (app_nil_l (splice o chunk (f c) ++ _)), <- (app_nil_l (f c ++ _)).
    replace o with (Z.of_nat (length (@nil Z)) + o) at 2 by (cbn; lia). symmetry. apply splice_mid; lia.
  - rewrite Hg by set_solver. rewrite decide_False.
    2:{ intros ->. by apply Hna, list_elem_of_lookup_2 with k. }
    rewrite (IH Hnl) with (k := k); [|set_solver|intros; apply Hg; set_solver|done].
    unfold splice. replace (Z.to_nat (Z.of_nat (S k) * cs + o)) with
      (length (f a) + Z.to_nat (Z.of_nat k * cs + o))%nat by nia.
    rewrite take_app_add, <- Nat.add_assoc, drop_app_add. by rewrite <- !app_assoc.
Qed.

Lemma length_concat_eq (f : Z → list Z) (l : list Z) cs :
  (∀ c, c ∈ l → Z.of_nat (length (f c)) = cs) → Z.of_nat (length (concat (f <$> l))) = Z.of_nat (length l) * cs.
Proof.
  intros Hf. induction l as [|a l IH]; [done|]. cbn [fmap list_fmap concat length]. rewrite length_app.
  rewrite Nat2Z.inj_add, IH, Hf by set_solver. lia.
Qed.

Lemma concat_read (f : Z → list Z) (l : list Z) cs k c o n :
  0 < cs → l !! k = Some c → (∀ c, c ∈ l → Z.of_nat (length (f c)) = cs) →
  0 ≤ o → o + Z.of_nat n ≤ cs →
  take n (drop (Z.to_nat (Z.of_nat k * cs + o)) (concat (f <$> l))) = take n (drop (Z.to_nat o) (f c)).
Proof.
  intros Hcs Hk Hf Ho Hn. revert k Hk. induction l as [|a l IH]; intros k Hk; [done|].
  cbn [fmap list_fmap concat]. assert (Z.of_nat (length (f a)) = cs) as Ha by (apply Hf; set_solver).
  destruct k as [|k]; cbn in Hk.
  - injection Hk as ->. rewrite Z.add_0_l, drop_app_le by lia. by rewrite take_app_le by (rewrite length_drop; lia).
  - replace (Z.to_nat (Z.of_nat (S k) * cs + o)) with (length (f a) + Z.to_nat (Z.of_nat k * cs + o))%nat by nia.
    rewrite drop_app_add. apply IH; [set_solver|done].
Qed.

Section file_rep.
Context {D : Type} `{!Stream D, !ByteStream D, !WholeWrites D}.
Abbreviation Fs := (FileSystem D).

Definition cluster_data (fs : Fs) (A tab B : list Z) (c : Z) : list Z :=
  slice (in_data fs A tab c) (Z.to_nat (cluster_bytes fs)) B.
Definition content (fs : Fs) (A tab B : list Z) (l : list Z) : list Z := concat (cluster_data fs A tab B <$> l).

(** The provider's times fit the fields of an entry. *)
Record clock_ok (o : FsOptions) : Prop := {
  ck_time : ∃ dt d t, tp_date_time (time_provider o) = Ok dt ∧ date_encode (date dt) = Ok d ∧
    time_encode (time dt) = Ok t ∧ 0 ≤ d < 2 ^ 16 ∧ 0 ≤ t.1 < 2 ^ 16;
  ck_date : ∃ dt d, tp_date (time_provider o) = Ok dt ∧ date_encode dt = Ok d ∧ 0 ≤ d < 2 ^ 16;
}.

(** A set of clusters that form a chain of the volume. *)
Record chain_on (fs : Fs) (A tab B l : list Z) : Prop := {
  co_volume : volume fs A tab B;
  co_area : data_area fs A tab B;
  co_chain : chain Fat32 tab l;
  co_live : Forall (live (fs_total_clusters fs)) l;
  co_nodup : NoDup l;
  co_used c : c ∈ l → fat_value Fat32 tab c ≠ Free;
}.

(** [f] is open on the chain [l], holds [bs] and stands at [pos]. *)
Record file_on (fs : Fs) (A tab B l : list Z) (f : File) (bs : list Z) (pos : Z) : Prop := {
  fo_chain : chain_on fs A tab B l;
  fo_clock : clock_ok (options fs);
  fo_first : first_cluster f = head l;
  fo_bytes : bs `prefix_of` content fs A tab B l;
  fo_size : Z.of_nat (length bs) =
    match file_size f with Some s => s | None => Z.of_nat (length (content fs A tab B l)) end;
  fo_max : Z.of_nat (length bs) ≤ MAX_FILE_SIZE;
  fo_pos : f_offset f = pos ∧ 0 ≤ pos ≤ Z.of_nat (length bs);
  fo_cur : current_cluster f = cursor (cluster_bytes fs) l pos;
  fo_entry e : entry f = Some e → file_entry_wf (ed_data e);
}.

(** ** Geometry *)

Lemma geometry_same (fs fs' : Fs) A tab c B : same_volume fs fs' →
  cluster_bytes fs' = cluster_bytes fs ∧ in_data fs' A tab c = in_data fs A tab c ∧
  cluster_data fs' A tab B c = cluster_data fs A tab B c.
Proof.
  intros (_ & _ & E1 & E2 & _ & _). unfold cluster_data, in_data, cluster_pos, cluster_bytes. by rewrite E1, E2.
Qed.

Lemma content_same (fs fs' : Fs) A tab B l : same_volume fs fs' → content fs' A tab B l = content fs A tab B l.
Proof.
  intros Hs. unfold content. f_equal. apply list_fmap_ext. intros i c _. by apply geometry_same.
Qed.

Lemma data_area_same (fs fs' : Fs) A tab B tab' B' : same_volume fs fs' → length tab' = length tab → length B' = length B →
  data_area fs A tab B → data_area fs' A tab' B'.
Proof.
  intros (_ & _ & E1 & E2 & _ & E3 & _) Ht Hb [].
  split; rewrite ?E1, ?E2, ?E3; try done; unfold volume_bytes in *; rewrite !length_app, !length_copies in *;
    by rewrite ?Ht, ?Hb.
Qed.

Lemma in_data_len (fs : Fs) A tab tab' c : length tab' = length tab → in_data fs A tab' c = in_data fs A tab c.
Proof. intros H. unfold in_data. by rewrite !length_app, !length_copies, H. Qed.

Section chains.
Variables (fs : Fs) (A tab B l : list Z) (Hc : chain_on fs A tab B l).

Lemma cluster_bytes_pos : 0 < cluster_bytes fs < 2 ^ 24 ∧ fs_cluster_size fs = Ok (cluster_bytes fs).
Proof using Hc.
  destruct (co_area _ _ _ _ _ Hc) as [Hspc Hbps _ _ _]. pose proof (v_bpb _ _ _ _ (co_volume _ _ _ _ _ Hc)) as Hw.
  pose proof (wf_bps _ Hw). pose proof (wf_spc _ Hw).
  assert (0 < cluster_bytes fs < 2 ^ 24) as Hcb by (unfold cluster_bytes; nia). split; [done|].
  unfold fs_cluster_size, cluster_size. apply chk_in. fold (cluster_bytes fs). lia.
Qed.

Lemma cluster_live c : c ∈ l → live (fs_total_clusters fs) c.
Proof using Hc. intros. by apply (proj1 (Forall_forall _ _) (co_live _ _ _ _ _ Hc)). Qed.

Lemma length_cluster_data c : c ∈ l → Z.of_nat (length (cluster_data fs A tab B c)) = cluster_bytes fs.
Proof using Hc WholeWrites0.
  intros Hin. destruct (cluster_pos_range fs A tab B c) as (H1 & H2 & _ & _ & H3); [apply Hc|apply Hc|by apply cluster_live|].
  unfold cluster_data. rewrite length_slice; lia.
Qed.

Lemma length_content : Z.of_nat (length (content fs A tab B l)) = Z.of_nat (length l) * cluster_bytes fs.
Proof using Hc WholeWrites0. apply length_concat_eq, length_cluster_data. Qed.

Lemma chain_lookup k c : l !! k = Some c → next_of (fat_value Fat32 tab c) = l !! S k.
Proof using Hc.
  pose proof (co_chain _ _ _ _ _ Hc) as H. clear Hc. revert k. induction l as [|a l' IH]; intros k Hk; [done|].
  destruct H as [Ha H]. destruct k as [|k].
  - injection Hk as <-. rewrite Ha. apply head_lookup.
  - by apply (IH H k).
Qed.

(** The same chain after the disk has moved, or other data was written. *)
Lemma chain_moved fs' B' :
  fs_rep fs (volume_bytes (fs_bpb fs) A tab B) fs' (volume_bytes (fs_bpb fs) A tab B') → length B' = length B →
  chain_on fs' A tab B' l ∧ same_volume fs fs'.
Proof using Hc.
  intros Hr Hl. destruct Hc as [Hv Ha Hch Hli Hn Hu]. pose proof Hr as [pos Hat].
  pose proof (static_info _ _ (fa_static _ _ _ _ _ Hat)) as Hi.
  pose proof (static_same fs fs' (fs_info fs') (fa_static _ _ _ _ _ Hat) (fa_keep _ _ _ _ _ Hat)) as Hs. rewrite with_info_id in Hs.
  split; [|done]. split; try done.
  - rewrite <- (with_info_id fs'), Hi. apply (volume_after fs A tab B); try done; apply Hv.
  - by apply (data_area_same fs fs' A tab B tab B').
  - destruct Hs as (_ & _ & _ & _ & _ & -> & _). done.
Qed.

(** Stepping to the next cluster. *)
Lemma next_spec c k : l !! k = Some c →
  ∃ fs', with_cluster_iter c ci_next fs = Ok (IoOk <$> l !! S k, fs') ∧ chain_on fs' A tab B l ∧ same_volume fs fs'.
Proof using Hc WholeWrites0.
  intros Hk. pose proof (co_volume _ _ _ _ _ Hc) as Hv.
  destruct (with_iter_run ci_next fs A tab B c Hv) as (sl & Hsl & Hrun).
  assert (c ∈ l) as Hin by (by eapply list_elem_of_lookup_2).
  destruct (fat_for_in _ _ _ c (v_fat _ _ _ _ Hv) (cluster_live c Hin)) as (Hit & _ & _).
  destruct (ci_next_spec (ByteStream0 := volume_stream fs A tab B (v_fat32 _ _ _ _ Hv)) Fat32 c sl tab 0)
    as (sl' & pos' & Hsl' & H); [apply (v_fat _ _ _ _ Hv)|done|done|].
  rewrite (chain_lookup k c Hk) in H. exists (inner sl'). split; [exact (Hrun _ _ H)|].
  apply chain_moved; [|done]. exact (volume_slice fs A tab B Hv sl' tab pos' Hsl').
Qed.
End chains.

Lemma cursor_same (fs fs' : Fs) l pos : same_volume fs fs' → cursor (cluster_bytes fs') l pos = cursor (cluster_bytes fs) l pos.
Proof. intros Hs. by destruct (geometry_same fs fs' [] [] 0 [] Hs) as (-> & _). Qed.

Lemma file_moved (fs fs' : Fs) A tab B l f bs pos : file_on fs A tab B l f bs pos →
  chain_on fs' A tab B l → same_volume fs fs' → file_on fs' A tab B l f bs pos.
Proof.
  intros [Hc Hk Hf Hb Hs Hm Hp Hcu He] Hc' Hsame. pose proof (content_same fs fs' A tab B l Hsame) as Ec.
  split; try done; rewrite ?Ec; try done.
  - destruct Hsame as (-> & _). done.
  - by rewrite (cursor_same fs).
Qed.

Lemma on_fs_spec {R} (m : M Fs R) f fs r fs' : m fs = Ok (r, fs') → on_fs m (f, fs) = Ok (r, (f, fs')).
Proof. unfold on_fs. cbn. by intros ->. Qed.

Lemma cursor_boundary cs l k : 0 < cs → cursor cs l (Z.of_nat (S k) * cs) = l !! k.
Proof.
  intros Hcs. unfold cursor. rewrite (proj2 (Z.eqb_neq _ _)) by nia. f_equal.
  rewrite <- (Z.div_unique (Z.of_nat (S k) * cs - 1) cs (Z.of_nat k) (cs - 1)) by lia. lia.
Qed.

(** [following_cluster] between two clusters *)
Lemma following_spec (fs : Fs) A tab B l f bs k :
  file_on fs A tab B l f bs (Z.of_nat k * cluster_bytes fs) →
  ∃ fs', following_cluster (f, fs) = Ok (IoOk (l !! k), (f, fs')) ∧
    file_on fs' A tab B l f bs (Z.of_nat k * cluster_bytes fs) ∧ same_volume fs fs'.
Proof.
  intros Hf. pose proof (fo_chain _ _ _ _ _ _ _ _ Hf) as Hc.
  destruct (cluster_bytes_pos _ _ _ _ _ Hc) as [Hcs _]. unfold following_cluster.
  unfold self. setoid_rewrite (M_bind_eq _ _ (f, fs) f (f, fs) eq_refl). rewrite (fo_cur _ _ _ _ _ _ _ _ Hf).
  destruct k as [|k].
  - cbn [cursor]. rewrite (fo_first _ _ _ _ _ _ _ _ Hf), head_lookup. exists fs. done.
  - rewrite cursor_boundary by lia.
    assert (∃ c, l !! k = Some c) as [c Hk].
    { apply lookup_lt_is_Some_2. pose proof (length_content _ _ _ _ _ Hc) as Hl.
      destruct (fo_pos _ _ _ _ _ _ _ _ Hf) as [_ Hp]. pose proof (prefix_length _ _ (fo_bytes _ _ _ _ _ _ _ _ Hf)). nia. }
    rewrite Hk. destruct (next_spec fs A tab B l Hc c k Hk) as (fs' & H & Hc' & Hs).
    rewrite (M_bind_eq _ _ _ _ _ (on_fs_spec _ f _ _ _ H)). exists fs'.
    split; [by destruct (l !! S k)|]. split; [|done]. by apply (file_moved fs).
Qed.

(** ** Reading *)

Lemma file_on_entry (fs : Fs) A tab B l f bs pos e e' : file_on fs A tab B l f bs pos → entry f = Some e →
  file_entry_wf (ed_data e') → same_file (ed_data e) (ed_data e') → file_on fs A tab B l (file_entry f (Some e')) bs pos.
Proof.
  intros [] He Hw Hs. split; try done.
  - unfold file_size in *. cbn [entry file_entry]. rewrite He in fo_size0. by rewrite (proj1 (same_file_size _ _ Hs)).
  - intros ? [= <-]. done.
Qed.

(** [edit] with a setter that succeeds *)
Lemma edit_spec (fs : Fs) A tab B l f bs pos g : file_on fs A tab B l f bs pos →
  (∀ e, entry f = Some e → ∃ e', g e = Ok e' ∧ file_entry_wf (ed_data e') ∧ same_file (ed_data e) (ed_data e')) →
  ∃ f', edit g (f, fs) = Ok (tt, (f', fs)) ∧ file_on fs A tab B l f' bs pos.
Proof.
  intros Hf Hg. unfold edit, self. setoid_rewrite (M_bind_eq _ _ (f, fs) f (f, fs) eq_refl).
  destruct (entry f) as [e|] eqn:He; [|by exists f].
  destruct (Hg e eq_refl) as (e' & H & Hw & Hs). rewrite H. run_refl.
  eexists. split; [done|]. by apply (file_on_entry _ _ _ _ _ _ _ _ e).
Qed.

(** The cluster of the byte at [pos] *)
Lemma cursor_inside cs l pos : 0 < cs → 0 ≤ pos → pos `mod` cs ≠ 0 → cursor cs l pos = l !! Z.to_nat (pos `div` cs).
Proof.
  intros Hcs Hp Hm. pose proof (Z.div_mod pos cs). pose proof (Z.mod_pos_bound pos cs).
  assert (pos ≠ 0) by (intros ->; by rewrite Z.mod_0_l in Hm by lia).
  unfold cursor. rewrite (proj2 (Z.eqb_neq _ _)) by lia. do 2 f_equal. symmetry.
  apply Z.div_unique with (pos `mod` cs - 1); lia.
Qed.

Lemma current_spec (fs : Fs) A tab B l f bs pos : file_on fs A tab B l f bs pos →
  ∃ fs', (if pos `mod` cluster_bytes fs =? 0 then following_cluster else ok (current_cluster f)) (f, fs) =
      Ok (IoOk (l !! Z.to_nat (pos `div` cluster_bytes fs)), (f, fs')) ∧
    file_on fs' A tab B l f bs pos ∧ same_volume fs fs'.
Proof.
  intros Hf. pose proof (fo_chain _ _ _ _ _ _ _ _ Hf) as Hc.
  destruct (cluster_bytes_pos _ _ _ _ _ Hc) as [Hcs _]. destruct (fo_pos _ _ _ _ _ _ _ _ Hf) as [_ Hp].
  set (cs := cluster_bytes fs) in *. pose proof (Z.div_mod pos cs). pose proof (Z.div_pos pos cs).
  destruct (Z.eqb_spec (pos `mod` cs) 0) as [E|E].
  - assert (pos = Z.of_nat (Z.to_nat (pos `div` cs)) * cs) as Ep by lia.
    rewrite Ep in Hf. destruct (following_spec fs A tab B l f bs _ Hf) as (fs' & H1 & Hf' & Hs).
    exists fs'. rewrite H1. fold cs in Hf'. rewrite <- Ep in Hf'. done.
  - exists fs. rewrite (fo_cur _ _ _ _ _ _ _ _ Hf), cursor_inside by (done || lia). done.
Qed.

Lemma slice_take off o (n k : nat) bs : 0 ≤ off → 0 ≤ o → (Z.to_nat o + k ≤ n)%nat →
  take k (drop (Z.to_nat o) (slice off n bs)) = take k (drop (Z.to_nat (off + o)) bs).
Proof.
  intros H1 H2 H3. unfold slice. rewrite skipn_firstn_comm, take_take, drop_drop.
  rewrite Nat.min_l by lia. do 2 f_equal. lia.
Qed.

(** The bytes of the disk at offset [o] of the cluster [l !! k] are those of the file. *)
Lemma disk_bytes (fs : Fs) A tab B l k c o (n : nat) : chain_on fs A tab B l → l !! k = Some c →
  0 ≤ o → o + Z.of_nat n ≤ cluster_bytes fs →
  take n (drop (Z.to_nat (cluster_pos fs c + o)) (volume_bytes (fs_bpb fs) A tab B)) =
  take n (drop (Z.to_nat (Z.of_nat k * cluster_bytes fs + o)) (content fs A tab B l)).
Proof.
  intros Hc Hk Ho Hn. assert (c ∈ l) as Hin by (by eapply list_elem_of_lookup_2).
  destruct (cluster_bytes_pos _ _ _ _ _ Hc) as [Hcs _].
  destruct (cluster_pos_range fs A tab B c) as (H1 & H2 & _); [apply Hc|apply Hc|by apply (cluster_live fs A tab B l)|].
  unfold content. rewrite (concat_read _ l (cluster_bytes fs) k c);
    [|lia|done|intros; by apply (length_cluster_data fs A tab B l)|done|done].
  unfold cluster_data. rewrite slice_take by lia.
  set (X := A ++ concat (replicate (Z.to_nat (fat_copies (fs_bpb fs))) tab)).
  assert (volume_bytes (fs_bpb fs) A tab B = X ++ B ++ []) as ->
    by (unfold volume_bytes, X; by rewrite app_nil_r, app_assoc).
  replace (cluster_pos fs c + o) with (Z.of_nat (length X) + (in_data fs A tab c + o)) by (unfold in_data, X; lia).
  apply drop_mid; lia.
Qed.

Lemma take_prefix (bs cont : list Z) p (k : nat) : bs `prefix_of` cont → 0 ≤ p → p + Z.of_nat k ≤ Z.of_nat (length bs) →
  take k (drop (Z.to_nat p) cont) = take k (drop (Z.to_nat p) bs).
Proof.
  intros [r ->] Hp Hk. rewrite drop_app_le by lia. by rewrite take_app_le by (rewrite length_drop; lia).
Qed.

(** Moving within the cluster of [pos] *)
Lemma cursor_within cs l pos k : 0 < cs → 0 ≤ pos → 0 < k → pos `mod` cs + k ≤ cs →
  cursor cs l (pos + k) = l !! Z.to_nat (pos `div` cs).
Proof.
  intros Hcs Hp Hk Hm. pose proof (Z.div_mod pos cs). pose proof (Z.mod_pos_bound pos cs).
  unfold cursor. rewrite (proj2 (Z.eqb_neq _ _)) by lia. do 2 f_equal. symmetry.
  apply Z.div_unique with (pos `mod` cs + k - 1); lia.
Qed.

Lemma file_advance (fs : Fs) A tab B l f bs pos k c : file_on fs A tab B l f bs pos →
  0 < k → pos `mod` cluster_bytes fs + k ≤ cluster_bytes fs → pos + k ≤ Z.of_nat (length bs) →
  l !! Z.to_nat (pos `div` cluster_bytes fs) = Some c →
  file_on fs A tab B l (file_at f (pos + k) (Some c)) bs (pos + k).
Proof.
  intros Hf Hk Hm Hl Hc. destruct (cluster_bytes_pos _ _ _ _ _ (fo_chain _ _ _ _ _ _ _ _ Hf)) as [Hcs _].
  destruct Hf as [? ? ? ? ? ? [? ?] ? ?]. split; try done.
  - split; [done|lia].
  - cbn [current_cluster file_at]. rewrite <- Hc. symmetry. apply cursor_within; lia.
Qed.

(** A read of the disk in the data of a chain *)
Lemma disk_read (fs : Fs) A tab B l k c o n : chain_on fs A tab B l → l !! k = Some c →
  0 ≤ o → 0 < n → o + n ≤ cluster_bytes fs →
  ∃ (j : nat) fs1 fs2, on_disk (s_seek (SeekStart (cluster_pos fs c + o))) fs = Ok (IoOk (cluster_pos fs c + o), fs1) ∧
    on_disk (s_read n) fs1 =
      Ok (IoOk (take j (drop (Z.to_nat (Z.of_nat k * cluster_bytes fs + o)) (content fs A tab B l))), fs2) ∧
    chain_on fs2 A tab B l ∧ same_volume fs fs2 ∧ (0 < j)%nat ∧ Z.of_nat j ≤ n.
Proof.
  intros Hc Hk Ho Hn Hl. pose proof (co_volume _ _ _ _ _ Hc) as Hv.
  assert (c ∈ l) as Hin by (by eapply list_elem_of_lookup_2).
  destruct (cluster_pos_range fs A tab B c) as (H1 & H2 & _); [apply Hc|apply Hc|by apply (cluster_live fs A tab B l)|].
  set (V := volume_bytes (fs_bpb fs) A tab B).
  assert (512 ≤ cluster_pos fs c + o < Z.of_nat (length V)) as Hp.
  { unfold V, volume_bytes. pose proof (v_lo _ _ _ _ Hv). unfold in_data in *. rewrite !length_app in *. lia. }
  destruct (fs_seek_spec fs V fs V (cluster_pos fs c + o) (v_disk _ _ _ _ Hv)) as (fs1 & Hs1 & Hr1); [lia|].
  destruct (fs_read_spec fs V fs1 V (cluster_pos fs c + o) n Hr1) as (j & fs2 & Hs2 & Hr2 & Hj & _ & Hj0); [lia|lia|].
  destruct (chain_moved fs A tab B l Hc fs2 B Hr2 eq_refl) as [Hc2 Hsame].
  exists j, fs1, fs2. split; [exact Hs1|]. split; [|split_and!; try done; apply Hj0; lia].
  rewrite <- (disk_bytes fs A tab B l k c o j) by (done || lia). exact Hs2.
Qed.

Lemma bytes_left_spec (fs : Fs) A tab B l f bs pos : file_on fs A tab B l f bs pos →
  bytes_left_in_file f = Ok (match file_size f with Some _ => Some (Z.of_nat (length bs) - pos) | None => None end).
Proof.
  intros [? ? ? ? Hs Hm [<- Hp] ? ?]. unfold bytes_left_in_file. unfold MAX_FILE_SIZE in Hm.
  destruct (file_size f) as [s|]; [|done]. rewrite chk_in by lia. cbn. by rewrite Hs.
Qed.

(** What a read at [pos] returns *)
Definition read_result (fs : Fs) (A tab B l bs : list Z) (pos n : Z) (r : exec (ioresult (list Z) * (File * Fs))) : Prop :=
  ∃ (k : nat) f' fs', r = Ok (IoOk (take k (drop (Z.to_nat pos) bs)), (f', fs')) ∧
    file_on fs' A tab B l f' bs (pos + Z.of_nat k) ∧ same_volume fs fs' ∧ Z.of_nat k ≤ n ∧
    Z.of_nat k ≤ Z.max 0 (Z.of_nat (length bs) - pos) ∧
    (0 < n → pos < Z.of_nat (length bs) → (0 < k)%nat).

Lemma read_nothing (fs : Fs) A tab B l f bs pos n fs1 : file_on fs1 A tab B l f bs pos → same_volume fs fs1 → 0 ≤ n →
  (n = 0 ∨ pos = Z.of_nat (length bs)) → read_result fs A tab B l bs pos n (Ok (IoOk [], (f, fs1))).
Proof. intros Hf Hs Hn H. exists 0%nat, f, fs1. rewrite Z.add_0_r. split_and!; try done; lia. Qed.

(** The date of the last access after a read *)
Lemma accessed_spec (fs : Fs) A tab B l f bs pos (b : bool) : file_on fs A tab B l f bs pos →
  ∃ f', (if b then edit (λ e, now ← tp_date (time_provider (options fs)); ed_set_accessed e now) else mret tt) (f, fs) =
    Ok (tt, (f', fs)) ∧ file_on fs A tab B l f' bs pos.
Proof.
  intros Hf. destruct b; [|by exists f]. apply (edit_spec fs A tab B l f bs pos); [done|]. intros e He.
  destruct (ck_date _ (fo_clock _ _ _ _ _ _ _ _ Hf)) as (dt & d & H1 & H2 & H3).
  destruct (ed_set_accessed_spec e dt d) as (e' & H4 & H5 & H6 & _); [by apply (fo_entry _ _ _ _ _ _ _ _ Hf)|done|done|].
  exists e'. rewrite H1. done.
Qed.

Lemma file_read_spec (fs : Fs) A tab B l f bs pos n : file_on fs A tab B l f bs pos → 0 ≤ n →
  read_result fs A tab B l bs pos n (file_read n (f, fs)).
Proof.
  intros Hf Hn. pose proof (fo_chain _ _ _ _ _ _ _ _ Hf) as Hc. destruct (fo_pos _ _ _ _ _ _ _ _ Hf) as [Hoff Hp].
  destruct (cluster_bytes_pos _ _ _ _ _ Hc) as [Hcs Hcs'].
  destruct (current_spec fs A tab B l f bs pos Hf) as (fs1 & H1 & Hf1 & Hs1).
  destruct (geometry_same fs fs1 A tab 0 B Hs1) as (Ecs & _ & _).
  pose proof (content_same fs fs1 A tab B l Hs1) as Econ.
  set (cs := cluster_bytes fs) in *. set (q := Z.to_nat (pos `div` cs)) in *. set (o := pos `mod` cs) in *.
  pose proof (Z.div_mod pos cs ltac:(lia)) as Hdm. pose proof (Z.mod_pos_bound pos cs ltac:(lia)) as Hmb.
  pose proof (Z.div_pos pos cs ltac:(lia) ltac:(lia)) as Hdp. fold o in Hdm, Hmb.
  assert (pos = Z.of_nat q * cs + o) as Hpos by (unfold q; lia).
  pose proof (prefix_length _ _ (fo_bytes _ _ _ _ _ _ _ _ Hf)) as Hpre.
  pose proof (length_content fs A tab B l Hc) as Hlc. fold cs in Hlc.
  unfold file_read. rewrite (M_bind_eq _ _ (f, fs) (f, fs) (f, fs) eq_refl). cbn [fst snd].
  rewrite Hcs'. run_refl. unfold urem. rewrite Hoff, (proj2 (Z.eqb_neq cs 0)) by lia. run_refl. fold o.
  rewrite (try_ok _ _ _ _ _ H1). destruct (l !! q) as [c|] eqn:Ec.
  2:{ apply read_nothing; try done. right. apply lookup_ge_None in Ec. nia. }
  chk_run. rewrite (bytes_left_spec fs A tab B l f bs pos Hf). run_refl.
  set (left := match file_size f with Some _ => _ | None => _ end).
  assert (Z.min (cs - o) (default (cs - o) left) = Z.min (cs - o) (Z.of_nat (length bs) - pos)) as El.
  { unfold left. pose proof (fo_size _ _ _ _ _ _ _ _ Hf) as Hsz. destruct (file_size f); cbn [default]; [done|].
    apply lookup_lt_Some in Ec. nia. }
  set (rs := Z.min (Z.min n (cs - o)) (default (cs - o) left)).
  assert (rs = Z.min n (Z.min (cs - o) (Z.of_nat (length bs) - pos))) as Ers by (unfold rs; lia).
  destruct (Z.eqb_spec rs 0); [apply read_nothing; try done; lia|].
  assert (c ∈ l) as Hin by (by eapply list_elem_of_lookup_2).
  destruct (cluster_pos_range fs A tab B c) as (Hd1 & Hd2 & Hofs & _ & _);
    [apply Hc|apply Hc|by apply (cluster_live fs A tab B l)|].
  rewrite Hofs. run_refl.
  assert (cluster_pos fs c = cluster_pos fs1 c) as Ecp.
  { destruct Hs1 as (_ & _ & E1 & E2 & _). unfold cluster_pos. by rewrite E1, E2. }
  assert (0 ≤ cluster_pos fs c + o < 2 ^ 63) as Hr.
  { pose proof (v_limit _ _ _ _ (co_volume _ _ _ _ _ Hc)) as Hlim. unfold volume_bytes in Hlim.
    rewrite app_assoc, length_app in Hlim. unfold in_data in *. fold cs in Hd2. lia. }
  chk_run. rewrite Ecp. pose proof (fo_chain _ _ _ _ _ _ _ _ Hf1) as Hc1.
  destruct (disk_read fs1 A tab B l q c o rs Hc1 Ec) as (j & fs2 & fs3 & H2 & H3 & Hc3 & Hs3 & Hj0 & Hj); [lia..|].
  rewrite (try_ok _ _ _ _ _ (on_fs_spec _ f _ _ _ H2)), (try_ok _ _ _ _ _ (on_fs_spec _ f _ _ _ H3)).
  rewrite Ecs, Econ, <- Hpos, (take_prefix bs) by (try apply (fo_bytes _ _ _ _ _ _ _ _ Hf); lia).
  assert (length (take j (drop (Z.to_nat pos) bs)) = j) as Hlen by (rewrite length_take, length_drop; lia).
  rewrite bool_decide_eq_false_2 by (intros E; rewrite E in Hlen; cbn in Hlen; lia).
  unfold self. rewrite (M_bind_eq _ _ (f, fs3) f (f, fs3) eq_refl). rewrite Hlen, cast_in by lia. rewrite Hoff.
  pose proof (fo_max _ _ _ _ _ _ _ _ Hf) as Hmax. unfold MAX_FILE_SIZE in Hmax. chk_run. run_refl. cbn [snd].
  pose proof (same_volume_trans _ _ _ Hs1 Hs3) as Hs13.
  destruct (geometry_same fs fs3 A tab 0 B Hs13) as (Ecs3 & _ & _). fold cs in Ecs3.
  pose proof (file_advance fs3 A tab B l f bs pos (Z.of_nat j) c (file_moved fs fs3 A tab B l f bs pos Hf Hc3 Hs13)) as Hadv.
  rewrite Ecs3 in Hadv. specialize (Hadv ltac:(lia) ltac:(fold o; lia) ltac:(lia) Ec).
  destruct (accessed_spec fs3 A tab B l _ bs _ (update_accessed_date (options fs)) Hadv) as (f' & H4 & Hf').
  destruct Hs13 as (Eo & _). rewrite Eo in H4. rewrite (M_bind_eq _ _ _ _ _ H4).
  exists j, f', fs3. split_and!; try done; [apply (same_volume_trans _ _ _ Hs1 Hs3)|lia..].
Qed.

(** ** Seeking *)

(** [clusters_from_bytes(p) - 1]: the index of the cluster of the last byte before [p] *)
Lemma cluster_index (fs : Fs) A tab B l p : chain_on fs A tab B l → 0 ≤ p ≤ Z.of_nat (length (content fs A tab B l)) →
  ∃ n, fs_clusters_from_bytes fs p = Ok n ∧ icast 32 n - 1 = (if p =? 0 then -1 else (p - 1) `div` cluster_bytes fs) ∧
    -1 ≤ icast 32 n - 1 < Z.of_nat (length l) ∧ Z.of_nat (length l) < 2 ^ 28.
Proof.
  intros Hc Hp. destruct (cluster_bytes_pos _ _ _ _ _ Hc) as [Hcs Hcs']. rewrite (length_content _ _ _ _ _ Hc) in Hp.
  pose proof (fat_for_total _ _ _ (v_fat _ _ _ _ (co_volume _ _ _ _ _ Hc))) as Htot.
  pose proof (live_nodup_length (fs_total_clusters fs) l ltac:(lia) (co_live _ _ _ _ _ Hc) (co_nodup _ _ _ _ _ Hc)) as Hl.
  set (cs := cluster_bytes fs) in *.
  assert ((p + cs - 1) `div` cs = 1 + (p - 1) `div` cs) as Ed.
  { replace (p + cs - 1) with ((p - 1) + 1 * cs) by lia. rewrite Z.div_add by lia. lia. }
  assert (-1 ≤ (p - 1) `div` cs < Z.of_nat (length l)) as Hr.
  { split; [apply Z.div_le_lower_bound; lia|apply Z.div_lt_upper_bound; nia]. }
  exists ((p + cs - 1) `div` cs). rewrite icast_in by lia. split_and!; try lia.
  - unfold fs_clusters_from_bytes, clusters_from_bytes. unfold fs_cluster_size in Hcs'. rewrite Hcs'. fold cs.
    cbn [mbind exec_bind]. assert (0 ≤ p < 2 ^ 52) by nia. rewrite icast_in, ichk_in by lia. cbn [mbind exec_bind].
    rewrite ichk_in by lia. cbn [mbind exec_bind]. rewrite (proj2 (Z.eqb_neq cs 0)) by lia.
    rewrite Z.quot_div_nonneg by lia. by rewrite cast_in by lia.
  - destruct (Z.eqb_spec p 0) as [->|]; [|lia]. rewrite Ed.
    rewrite <- (Z.div_unique (0 - 1) cs (-1) (cs - 1)); lia.
Qed.

Lemma walk_spec (fs : Fs) A tab B l n : ∀ k c sl pos i, chain_on fs A tab B l → ∀ Hv : volume fs A tab B,
  l !! k = Some c → (k + n < length l)%nat →
  stream_rep (ByteStream := volume_stream fs A tab B (v_fat32 _ _ _ _ Hv)) sl tab pos →
  ∃ c' sl' pos', l !! (k + n)%nat = Some c' ∧
    seek_loop (range i (i + Z.of_nat n)) c (ci_new sl Fat32 c) = Ok (IoOk (c', None), ci_new sl' Fat32 c') ∧
    stream_rep (ByteStream := volume_stream fs A tab B (v_fat32 _ _ _ _ Hv)) sl' tab pos'.
Proof.
  induction n as [|n IH]; intros k c sl pos i Hc Hv Hk Hl Hsl.
  { exists c, sl, pos. rewrite Nat.add_0_r, Z.add_0_r, range_nil by lia. done. }
  rewrite range_cons by lia. cbn [seek_loop].
  assert (c ∈ l) as Hin by (by eapply list_elem_of_lookup_2).
  destruct (fat_for_in _ _ _ c (v_fat _ _ _ _ Hv) (cluster_live fs A tab B l Hc c Hin)) as (Hit & _ & _).
  destruct (ci_next_spec (ByteStream0 := volume_stream fs A tab B (v_fat32 _ _ _ _ Hv)) Fat32 c sl tab pos)
    as (sl1 & pos1 & Hsl1 & H1); [apply (v_fat _ _ _ _ Hv)|done|done|].
  rewrite (chain_lookup fs A tab B l Hc k c Hk) in H1.
  destruct (lookup_lt_is_Some_2 l (S k)) as [c1 Hk1]; [lia|]. rewrite Hk1 in H1.
  unfold ci_new at 1. rewrite (M_bind_eq _ _ _ _ _ H1). cbn [fmap option_fmap option_map].
  destruct (IH (S k) c1 sl1 pos1 (i + 1) Hc Hv Hk1 ltac:(lia) Hsl1) as (c' & sl' & pos' & Hk' & H2 & Hsl').
  exists c', sl', pos'. replace (k + S n)%nat with (S k + n)%nat by lia. split; [done|]. split; [|done].
  replace (i + Z.of_nat (S n)) with (i + 1 + Z.of_nat n) by lia. exact H2.
Qed.

(** The walk of [seek] from the first cluster to cluster [n] of the chain *)
Lemma seek_walk (fs : Fs) A tab B l c n : chain_on fs A tab B l → head l = Some c → 0 ≤ n < Z.of_nat (length l) →
  ∃ c' fs', with_cluster_iter c (seek_loop (range 0 n) c) fs = Ok (IoOk (c', None), fs') ∧
    l !! Z.to_nat n = Some c' ∧ chain_on fs' A tab B l ∧ same_volume fs fs'.
Proof.
  intros Hc Hh Hn. pose proof (co_volume _ _ _ _ _ Hc) as Hv.
  destruct (with_iter_run (seek_loop (range 0 n) c) fs A tab B c Hv) as (sl & Hsl & Hrun).
  destruct (walk_spec fs A tab B l (Z.to_nat n) 0 c sl 0 0 Hc Hv) as (c' & sl' & pos' & Hk & H & Hsl').
  - by rewrite <- head_lookup.
  - lia.
  - exact Hsl.
  - rewrite Z.add_0_l, Z2Nat.id in H by lia. exists c', (inner sl'). split; [exact (Hrun _ _ H)|]. split; [done|].
    apply (chain_moved fs A tab B l Hc); [|done]. exact (volume_slice fs A tab B Hv sl' tab pos' Hsl').
Qed.

(** The position a seek asks for *)
Definition seek_target (f : File) (bs : list Z) (w : SeekFrom) (t : Z) : Prop :=
  0 ≤ t < 2 ^ 63 ∧
  match w with
  | SeekStart x => x = t
  | SeekCurrent x => f_offset f + x = t
  | SeekEnd x => file_size f ≠ None ∧ Z.of_nat (length bs) + x = t
  end.

(** Where the cursor is put: [r] is the new position and the current cluster. *)
Lemma seek_cluster (fs : Fs) A tab B l f bs pos p cc oc : file_on fs A tab B l f bs pos → 0 ≤ p ≤ Z.of_nat (length bs) →
  cc = (if p =? 0 then -1 else (p - 1) `div` cluster_bytes fs) →
  oc = (if pos =? 0 then -1 else (pos - 1) `div` cluster_bytes fs) →
  -1 ≤ cc < Z.of_nat (length l) →
  ∃ fs', (if p =? 0 then ok (p, None)
          else if cc =? oc then ok (p, current_cluster f)
          else match first_cluster f with
               | Some n =>
                   c ←? on_fs (with_cluster_iter n (seek_loop (range 0 cc) n));
                   match c.2 with
                   | Some i => b ← lift (bytes_from_clusters fs (cast 32 (i + 1))); ok (cast 32 b, Some c.1)
                   | None => ok (p, Some c.1)
                   end
               | None => ok (0, None)
               end) (f, fs) = Ok (IoOk (p, cursor (cluster_bytes fs) l p), (f, fs')) ∧
    chain_on fs' A tab B l ∧ same_volume fs fs'.
Proof.
  intros Hf Hp Hcc Hoc Hr. pose proof (fo_chain _ _ _ _ _ _ _ _ Hf) as Hc.
  destruct (cluster_bytes_pos _ _ _ _ _ Hc) as [Hcs _].
  pose proof (same_volume_refl fs) as Hrefl.
  destruct (Z.eqb_spec p 0) as [->|Hp0]; [by exists fs|].
  assert (0 ≤ (p - 1) `div` cluster_bytes fs) by (apply Z.div_pos; lia).
  assert (cursor (cluster_bytes fs) l p = l !! Z.to_nat cc) as Ecu.
  { unfold cursor. rewrite (proj2 (Z.eqb_neq p 0)) by done. by rewrite Hcc. }
  destruct (Z.eqb_spec cc oc) as [E|E].
  - exists fs. split; [|done]. rewrite (fo_cur _ _ _ _ _ _ _ _ Hf), Ecu. unfold cursor.
    destruct (Z.eqb_spec pos 0); [lia|]. by rewrite E, Hoc.
  - rewrite (fo_first _ _ _ _ _ _ _ _ Hf). destruct (head l) as [c|] eqn:Eh.
    2:{ exfalso. destruct l; [cbn in Hr; lia|done]. }
    destruct (seek_walk fs A tab B l c cc Hc Eh ltac:(lia)) as (c' & fs' & H1 & Hk & Hc' & Hs).
    exists fs'. rewrite (try_ok _ _ _ _ _ (on_fs_spec _ f _ _ _ H1)). cbn [fst snd]. by rewrite Ecu, Hk.
Qed.

Lemma seek_target_lift (fs : Fs) A tab B l f bs pos w t : file_on fs A tab B l f bs pos → seek_target f bs w t →
  match w with
  | SeekCurrent x => ichk 64 (f_offset f + x)
  | SeekStart x => Ok (icast 64 x)
  | SeekEnd x => size ← unwrap (file_size f); ichk 64 (size + x)
  end = Ok t.
Proof.
  intros Hf [Ht Hw]. destruct w as [x|x|x].
  - by rewrite Hw, icast_in by lia.
  - destruct Hw as [Hs Hw]. pose proof (fo_size _ _ _ _ _ _ _ _ Hf) as Hsz. destruct (file_size f) as [s|]; [|done].
    cbn. rewrite <- Hsz, Hw. apply ichk_in. lia.
  - rewrite Hw. apply ichk_in. lia.
Qed.

(** [seek] goes to the target, or to the end of a file that is shorter. *)
Lemma file_seek_spec (fs : Fs) A tab B l f bs pos w t p : file_on fs A tab B l f bs pos → seek_target f bs w t →
  p = match file_size f with Some s => Z.min t s | None => t end → p ≤ Z.of_nat (length bs) →
  ∃ f' fs', file_seek w (f, fs) = Ok (IoOk p, (f', fs')) ∧ file_on fs' A tab B l f' bs p ∧ same_volume fs fs'.
Proof.
  intros Hf Hw Ep Hp. pose proof (fo_chain _ _ _ _ _ _ _ _ Hf) as Hc. destruct (fo_pos _ _ _ _ _ _ _ _ Hf) as [Hoff Hpos].
  pose proof (fo_size _ _ _ _ _ _ _ _ Hf) as Hsz. pose proof (fo_max _ _ _ _ _ _ _ _ Hf) as Hmax. unfold MAX_FILE_SIZE in Hmax.
  pose proof (prefix_length _ _ (fo_bytes _ _ _ _ _ _ _ _ Hf)) as Hpre.
  assert (0 ≤ t) as Ht by apply Hw. assert (0 ≤ p) as Hp0 by (destruct (file_size f); lia).
  unfold file_seek. rewrite (M_bind_eq _ _ (f, fs) (f, fs) (f, fs) eq_refl). cbn [fst snd].
  rewrite (seek_target_lift fs A tab B l f bs pos w t Hf Hw). run_refl.
  replace (t <? 0) with false by lia.
  replace (match file_size f with Some sz => if sz <? t then sz else t | None => t end) with p
    by (rewrite Ep; destruct (file_size f) as [z|]; [destruct (Z.ltb_spec z t); lia|done]).
  rewrite cast_in, Hoff by lia. destruct (Z.eqb_spec p pos) as [->|Hne].
  { exists f, fs. done. }
  destruct (cluster_index fs A tab B l p Hc) as (n & Hn & Enc & Hrn & Hl28); [lia|].
  destruct (cluster_index fs A tab B l pos Hc) as (o & Ho & Eoc & Hro & _); [lia|].
  rewrite Hn. run_refl. rewrite ichk_in by lia. run_refl. rewrite Ho. run_refl. rewrite ichk_in by lia. run_refl.
  destruct (seek_cluster fs A tab B l f bs pos p _ _ Hf ltac:(lia) Enc Eoc Hrn) as (fs' & H1 & Hc' & Hs).
  rewrite (try_ok _ _ _ _ _ H1). unfold self. rewrite (M_bind_eq _ _ (f, fs') f (f, fs') eq_refl). run_refl. cbn [fst snd].
  exists (file_at f p (cursor (cluster_bytes fs) l p)), fs'. split; [done|]. split; [|done].
  apply (file_moved fs); try done. by destruct Hf as [? ? ? ? ? ? ? ? ?].
Qed.
End file_rep.
