(* ===== verification/FileWrite.v ===== *)
(** * Writing to a file of a mounted volume

    [File::write] of fatfs/src/file.rs: the volume is marked dirty, a cluster is
    taken at the end of the chain if needed, the bytes go to that cluster only,
    and the cached entry gets the new size. *)

From S2P Require Import Prelude Io FatIo FatBits FatTime BootSector FatTable FatFs FatSlice FatVolume DirEntry FatFile FileRep.

Lemma slice_lookup off n bs i : 0 ≤ off → slice off n bs !! i = if decide (i < n)%nat then bs !! (Z.to_nat off + i)%nat else None.
Proof.
  intros Ho. unfold slice. case_decide as E.
  - by rewrite lookup_take_lt, lookup_drop by done.
  - by rewrite lookup_take_ge by lia.
Qed.

Lemma slice_splice_apart off n p l bs : 0 ≤ off → 0 ≤ p → p + Z.of_nat (length l) ≤ Z.of_nat (length bs) →
  off + Z.of_nat n ≤ p ∨ p + Z.of_nat (length l) ≤ off → slice off n (splice p l bs) = slice off n bs.
Proof.
  intros Ho Hp Hl Hd. apply list_eq. intros i. rewrite !slice_lookup by done. case_decide; [|done].
  rewrite splice_lookup by done. by rewrite decide_False by lia.
Qed.

Lemma slice_splice_inside off n o l bs : 0 ≤ off → 0 ≤ o → o + Z.of_nat (length l) ≤ Z.of_nat n →
  off + Z.of_nat n ≤ Z.of_nat (length bs) → slice off n (splice (off + o) l bs) = splice o l (slice off n bs).
Proof.
  intros Ho Hoo Hl Hb. assert (length (slice off n bs) = n) as Hs by (apply length_slice; lia).
  apply list_eq. intros i. rewrite (splice_lookup o l (slice off n bs)) by lia. rewrite !slice_lookup by done.
  destruct (decide (i < n)%nat) as [Hi|Hi].
  - rewrite splice_lookup by lia. repeat case_decide; try lia; [|done]. f_equal. lia.
  - rewrite decide_False by lia. done.
Qed.

Lemma length_grow pos l bs : 0 ≤ pos ≤ Z.of_nat (length bs) →
  Z.of_nat (length (splice pos l bs)) = Z.max (Z.of_nat (length bs)) (pos + Z.of_nat (length l)).
Proof. intros. unfold splice. rewrite !length_app, length_take, length_drop. lia. Qed.

Lemma prefix_splice (bs cont : list Z) pos l : bs `prefix_of` cont → 0 ≤ pos ≤ Z.of_nat (length bs) →
  pos + Z.of_nat (length l) ≤ Z.of_nat (length cont) → splice pos l bs `prefix_of` splice pos l cont.
Proof.
  intros [r ->] Hp Hl. unfold splice. rewrite take_app_le by lia. apply prefix_app, prefix_app.
  rewrite skipn_app. apply prefix_app_r. done.
Qed.

Lemma cursor_app cs l l' pos : 0 < cs → 0 ≤ pos ≤ Z.of_nat (length l) * cs → cursor cs (l ++ l') pos = cursor cs l pos.
Proof.
  intros Hcs Hp. unfold cursor. destruct (Z.eqb_spec pos 0); [done|]. apply lookup_app_l.
  assert (0 ≤ (pos - 1) `div` cs < Z.of_nat (length l)); [|lia].
  split; [apply Z.div_pos; lia|apply Z.div_lt_upper_bound; nia].
Qed.

Section file_write.
Context {D : Type} `{!Stream D, !ByteStream D, !WholeWrites D}.
Abbreviation Fs := (FileSystem D).

Definition is_dirty (fs : Fs) : Prop := dirty (current_status_flags fs) = true.

(** ** The data of a chain *)

Lemma in_data_apart (fs : Fs) A tab c c' : 0 < cluster_bytes fs → c ≠ c' →
  in_data fs A tab c + cluster_bytes fs ≤ in_data fs A tab c' ∨ in_data fs A tab c' + cluster_bytes fs ≤ in_data fs A tab c.
Proof.
  intros Hcs Hne. unfold in_data, cluster_pos, cluster_bytes in *. destruct (Z.lt_total c c') as [?|[?|?]]; [left|done|right]; nia.
Qed.

(** A write inside cluster [c] changes that cluster only. *)
Lemma cluster_data_splice (fs : Fs) A tab B c o chunk c' : volume fs A tab B → data_area fs A tab B →
  live (fs_total_clusters fs) c → live (fs_total_clusters fs) c' → 0 ≤ o → o + Z.of_nat (length chunk) ≤ cluster_bytes fs →
  cluster_data fs A tab (splice (in_data fs A tab c + o) chunk B) c' =
    if decide (c' = c) then splice o chunk (cluster_data fs A tab B c) else cluster_data fs A tab B c'.
Proof.
  intros Hv Ha Hc Hc' Ho Hl. destruct (cluster_pos_range fs A tab B c Hv Ha Hc) as (H1 & H2 & _ & _ & H3).
  destruct (cluster_pos_range fs A tab B c' Hv Ha Hc') as (H4 & H5 & _). unfold cluster_data. case_decide as E.
  - subst c'. apply slice_splice_inside; lia.
  - apply slice_splice_apart; try lia. destruct (in_data_apart fs A tab c c'); [lia|done|lia..].
Qed.

Lemma content_splice (fs : Fs) A tab B l k c o chunk : chain_on fs A tab B l → l !! k = Some c →
  0 ≤ o → o + Z.of_nat (length chunk) ≤ cluster_bytes fs →
  content fs A tab (splice (in_data fs A tab c + o) chunk B) l =
    splice (Z.of_nat k * cluster_bytes fs + o) chunk (content fs A tab B l).
Proof.
  intros Hc Hk Ho Hl. destruct (cluster_bytes_pos _ _ _ _ _ Hc) as [Hcs _].
  assert (c ∈ l) as Hin by (by eapply list_elem_of_lookup_2).
  apply (concat_splice _ _ l (cluster_bytes fs) k c); try done; [lia|apply Hc|intros; by apply (length_cluster_data fs A tab B l)|].
  intros c' Hc'. apply cluster_data_splice; try done; try apply Hc; by apply (cluster_live fs A tab B l).
Qed.

(** ** The disk *)

Lemma mark_dirty (fs : Fs) A tab B l : chain_on fs A tab B l →
  ∃ fs1, set_dirty_flag true fs = Ok (IoOk tt, fs1) ∧ chain_on fs1 A tab B l ∧ same_volume fs fs1 ∧ is_dirty fs1.
Proof.
  intros Hc. pose proof (co_volume _ _ _ _ _ Hc) as Hv. destruct (v_disk _ _ _ _ Hv) as [pos [_ (raw & Hd & Hm & Hb) Hl _ _]].
  destruct (set_dirty_spec fs true raw pos (v_fat32 _ _ _ _ Hv) Hd) as (fs1 & raw1 & pos1 & H & Hs & Hf & Hd1 & Hm1 & Hl1 & Hb1);
    [by rewrite <- length_mask, <- Hm|done|].
  exists fs1. split; [done|].
  assert (is_dirty fs1) as Hdi by (unfold is_dirty; rewrite Hf; cbn; apply orb_true_r).
  destruct (chain_moved fs A tab B l Hc fs1 B) as [Hc1 Hs1]; [|done|done].
  exists pos1. split; [done| |done|by right|done]. exists raw1. by rewrite Hm1.
Qed.

Lemma disk_write (fs : Fs) A tab B l k c o chunk : chain_on fs A tab B l → is_dirty fs → l !! k = Some c →
  0 ≤ o → o + Z.of_nat (length chunk) ≤ cluster_bytes fs →
  ∃ fs1 fs2, on_disk (s_seek (SeekStart (cluster_pos fs c + o))) fs = Ok (IoOk (cluster_pos fs c + o), fs1) ∧
    on_disk (s_write chunk) fs1 = Ok (IoOk (Z.of_nat (length chunk)), fs2) ∧
    chain_on fs2 A tab (splice (in_data fs A tab c + o) chunk B) l ∧ same_volume fs fs2 ∧ is_dirty fs2.
Proof.
  intros Hc Hdi Hk Ho Hl. pose proof (co_volume _ _ _ _ _ Hc) as Hv.
  assert (c ∈ l) as Hin by (by eapply list_elem_of_lookup_2).
  destruct (cluster_pos_range fs A tab B c) as (H1 & H2 & _); [apply Hc|apply Hc|by apply (cluster_live fs A tab B l)|].
  set (X := A ++ concat (replicate (Z.to_nat (fat_copies (fs_bpb fs))) tab)).
  assert (∀ B', volume_bytes (fs_bpb fs) A tab B' = X ++ B' ++ []) as EX
    by (intros; unfold volume_bytes, X; by rewrite app_nil_r, app_assoc).
  assert (cluster_pos fs c + o = Z.of_nat (length X) + (in_data fs A tab c + o)) as Ep by (unfold in_data, X; lia).
  assert (512 ≤ Z.of_nat (length X)) by (pose proof (v_lo _ _ _ _ Hv); unfold X; rewrite length_app; lia).
  destruct (v_disk _ _ _ _ Hv) as [pos [Hs (raw & Hd & Hm & Hb) Hlen _ _]]. rewrite EX in Hm.
  assert (length raw = length X + length B)%nat as Hraw by (rewrite <- (length_mask raw), <- Hm, !length_app; cbn; lia).
  destruct (stream_seek (disk fs) raw pos (cluster_pos fs c + o) Hd) as (d1 & Hs1 & Hd1); [lia|].
  destruct (whole_write d1 raw (cluster_pos fs c + o) chunk Hd1) as (d2 & Hs2 & Hd2); [lia|].
  exists (with_disk fs d1), (with_disk (with_disk fs d1) d2).
  split; [exact (on_disk_spec _ fs _ _ Hs1)|]. split; [exact (on_disk_spec _ (with_disk fs d1) _ _ Hs2)|].
  destruct (chain_moved fs A tab B l Hc (with_disk (with_disk fs d1) d2)
              (splice (in_data fs A tab c + o) chunk B)) as [Hc2 Hs']; [|apply length_splice; lia|done].
  eexists. split; [by apply static_disk, static_disk| | |by right|done].
  - eexists. split; [exact Hd2|]. split.
    + rewrite mask_splice by lia. rewrite <- Hm, EX, Ep. symmetry. apply splice_mid; lia.
    + rewrite splice_lookup by lia. unfold STATUS in *. rewrite decide_False by lia. exact Hb.
  - rewrite EX, !length_app in *. lia.
Qed.

(** ** Growing a chain *)

(** The table after a cluster is linked behind the chain [l] *)
Lemma linked_chain (fs : Fs) A tab B l c tab' : chain_on fs A tab B l → live (fs_total_clusters fs) c →
  fat_value Fat32 tab c = Free → allocated Fat32 tab (last l) c tab' →
  chain Fat32 tab' (l ++ [c]) ∧ NoDup (l ++ [c]) ∧ (∀ c', c' ∈ l ++ [c] → fat_value Fat32 tab' c' ≠ Free) ∧
  (∀ c', 0 ≤ c' → c' ∉ l ++ [c] → fat_value Fat32 tab' c' = fat_value Fat32 tab c').
Proof.
  intros Hc Hl Hfree Ha. assert (c ∉ l) as Hnew by (intros Hin; by apply (co_used _ _ _ _ _ Hc c Hin)).
  assert (∀ c', c' ∈ l ++ [c] → 0 ≤ c') as Hpos.
  { intros c' [Hin| ->%list_elem_of_singleton]%elem_of_app; [apply (cluster_live fs A tab B l Hc) in Hin as Hli|];
      unfold live, RESERVED_FAT_ENTRIES in *; lia. }
  assert (fat_value Fat32 tab' c = EndOfChain) as Hce.
  { rewrite Ha by (apply Hpos; set_solver). rewrite decide_False; [by rewrite decide_True|].
    intros E. apply last_Some_elem_of in E. done. }
  split_and!.
  - destruct l as [|p l0 _] using rev_ind; [split; [by rewrite Hce|done]|].
    rewrite last_snoc in Ha. rewrite <- app_assoc. cbn [app].
    by apply (chain_allocated Fat32 tab (fs_total_clusters fs) l0 p c tab'); try apply Hc.
  - apply NoDup_app. split; [apply Hc|]. split; [set_solver|apply NoDup_singleton].
  - intros c' Hin. rewrite Ha by (by apply Hpos). repeat case_decide; try done.
    apply elem_of_app in Hin as [Hin|Hin]; [by apply (co_used _ _ _ _ _ Hc)|by apply list_elem_of_singleton in Hin].
  - intros c' H0 Hnin. rewrite Ha by done. rewrite decide_False.
    + rewrite decide_False; [done|]. intros ->. set_solver.
    + intros E. apply last_Some_elem_of in E. set_solver.
Qed.

Definition zeroed (fs : Fs) (A tab B : list Z) (zero : bool) (c : Z) : list Z :=
  if zero then splice (in_data fs A tab c) (replicate (Z.to_nat (cluster_bytes fs)) 0) B else B.

Lemma grow_chain (fs : Fs) A tab B l zero : chain_on fs A tab B l →
  (∃ c fs' tab', fs_alloc_cluster (last l) zero fs = Ok (IoOk c, fs') ∧
     chain_on fs' A tab' (zeroed fs A tab B zero c) (l ++ [c]) ∧ same_volume fs fs' ∧ is_dirty fs' ∧
     length tab' = length tab ∧ live (fs_total_clusters fs) c ∧ fat_value Fat32 tab c = Free ∧
     ∀ c', 0 ≤ c' → c' ∉ l ++ [c] → fat_value Fat32 tab' c' = fat_value Fat32 tab c') ∨
  ((∀ c, live (fs_total_clusters fs) c → fat_value Fat32 tab c ≠ Free) ∧
   ∃ fs', fs_alloc_cluster (last l) zero fs = Ok (IoErr OtherError, fs') ∧ chain_on fs' A tab B l ∧ same_volume fs fs').
Proof.
  intros Hc. pose proof (co_volume _ _ _ _ _ Hc) as Hv. pose proof (co_area _ _ _ _ _ Hc) as Hda.
  destruct (fs_alloc_spec fs A tab B (last l) zero Hv Hda)
    as [(c & fs' & tab' & H & Hv' & Hlc & Hfree & Ha & Hdi & _ & Hs)|(Hno & fs' & H & Hv' & Hs)].
  { intros p Hp. apply last_Some_elem_of in Hp. split; [by apply (cluster_live fs A tab B l)|by apply (co_used _ _ _ _ _ Hc)]. }
  - left. exists c, fs', tab'. split; [done|].
    destruct (linked_chain fs A tab B l c tab' Hc Hlc Hfree Ha) as (H1 & H2 & H3 & H4).
    pose proof Hs as (_ & _ & Eb & _ & _ & Et & _).
    assert (length tab' = length tab) as Hlt.
    { pose proof (v_bs _ _ _ _ Hv). pose proof (v_bs _ _ _ _ Hv') as Hb'. rewrite Eb in Hb'. lia. }
    assert (length (zeroed fs A tab B zero c) = length B) as Hlz.
    { unfold zeroed. destruct zero; [|done]. destruct (cluster_pos_range fs A tab B c Hv Hda Hlc) as (? & ? & _ & _ & ?).
      apply length_splice; rewrite ?length_replicate; lia. }
    split_and!; try done; try apply Hlc. split; try done.
    + by apply (data_area_same fs fs' A tab B).
    + rewrite Et. apply Forall_app. split; [apply Hc|by apply Forall_singleton].
  - right. split; [done|]. exists fs'. split; [done|]. split; [|done]. destruct Hc. split; try done.
    + by apply (data_area_same fs fs' A tab B).
    + by destruct Hs as (_ & _ & _ & _ & _ & -> & _).
Qed.

Lemma zeroed_other (fs : Fs) A tab B l zero c c' : chain_on fs A tab B l → live (fs_total_clusters fs) c →
  live (fs_total_clusters fs) c' → c' ≠ c → cluster_data fs A tab (zeroed fs A tab B zero c) c' = cluster_data fs A tab B c'.
Proof.
  intros Hc Hl Hl' Hne. unfold zeroed. destruct zero; [|done].
  destruct (cluster_pos_range fs A tab B c) as (? & ? & _ & _ & ?); [apply Hc|apply Hc|done|].
  pose proof (cluster_data_splice fs A tab B c 0 (replicate (Z.to_nat (cluster_bytes fs)) 0) c') as E.
  rewrite Z.add_0_r, decide_False in E by done. apply E; try done; try apply Hc. rewrite length_replicate. lia.
Qed.

Lemma zeroed_zero (fs : Fs) A tab B l c : chain_on fs A tab B l → live (fs_total_clusters fs) c →
  cluster_data fs A tab (zeroed fs A tab B true c) c = replicate (Z.to_nat (cluster_bytes fs)) 0.
Proof.
  intros Hc Hl. destruct (cluster_pos_range fs A tab B c) as (? & ? & _ & _ & ?); [apply Hc|apply Hc|done|].
  pose proof (splice_read (in_data fs A tab c) (replicate (Z.to_nat (cluster_bytes fs)) 0) B) as E.
  rewrite length_replicate in E. apply E; lia.
Qed.

Lemma cluster_data_moved (fs fs' : Fs) A tab tab' B c : same_volume fs fs' → length tab' = length tab →
  cluster_data fs' A tab' B c = cluster_data fs A tab B c.
Proof.
  intros Hs Hl. destruct (geometry_same fs fs' A tab' c B Hs) as (_ & _ & ->). unfold cluster_data.
  by rewrite (in_data_len fs A tab tab').
Qed.

Lemma content_grown (fs fs' : Fs) A tab tab' B l zero c : chain_on fs A tab B l → live (fs_total_clusters fs) c →
  fat_value Fat32 tab c = Free → same_volume fs fs' → length tab' = length tab →
  content fs' A tab' (zeroed fs A tab B zero c) (l ++ [c]) =
    content fs A tab B l ++ cluster_data fs A tab (zeroed fs A tab B zero c) c.
Proof.
  intros Hc Hl Hfree Hs Ht. unfold content. rewrite fmap_app, concat_app. cbn [fmap list_fmap concat]. rewrite app_nil_r.
  rewrite (cluster_data_moved fs fs' A tab tab') by done. f_equal. f_equal. apply list_fmap_ext. intros i x Hx.
  rewrite (cluster_data_moved fs fs' A tab tab') by done. apply list_elem_of_lookup_2 in Hx.
  apply (zeroed_other fs A tab B l); try done; [by apply (cluster_live fs A tab B l)|].
  intros ->. by apply (co_used _ _ _ _ _ Hc c Hx).
Qed.

(** ** The cluster for a write *)

(** Nothing changes when the chain goes on at [pos]; otherwise a free cluster is appended,
    zeroed for a directory. *)
Definition grown (fs : Fs) (A tab B l : list Z) (f : File) (bs : list Z) (pos : Z) (tab1 B1 l1 bs1 : list Z) : Prop :=
  (tab1 = tab ∧ B1 = B ∧ l1 = l ∧ bs1 = bs) ∨
  (∃ c, pos = Z.of_nat (length l) * cluster_bytes fs ∧ l1 = l ++ [c] ∧ live (fs_total_clusters fs) c ∧ fat_value Fat32 tab c = Free ∧ length tab1 = length tab ∧
     B1 = zeroed fs A tab B (file_is_dir f) c ∧
     bs1 = match file_size f with Some _ => bs | None => bs ++ cluster_data fs A tab B1 c end ∧
     ∀ c', 0 ≤ c' → c' ∉ l1 → fat_value Fat32 tab1 c' = fat_value Fat32 tab c').

Lemma grown_same (fs fs1 : Fs) A tab B l f bs pos tab1 B1 l1 bs1 : same_volume fs fs1 →
  grown fs1 A tab B l f bs pos tab1 B1 l1 bs1 → grown fs A tab B l f bs pos tab1 B1 l1 bs1.
Proof.
  intros Hs [H|(c & H0 & H1 & H2 & H3 & H4 & H5 & H6 & H7)]; [by left|right]. exists c.
  destruct (geometry_same fs fs1 A tab c B1 Hs) as (E1 & E2 & E3). pose proof Hs as (_ & _ & _ & _ & _ & E4 & _).
  rewrite E1 in H0. rewrite E4 in H2. rewrite E3 in H6. unfold zeroed in *. rewrite E1, E2 in H5. by split_and!; try apply H2.
Qed.

Lemma cursor_end cs l : 0 < cs → cursor cs l (Z.of_nat (length l) * cs) = last l.
Proof.
  intros Hcs. destruct l as [|x l _] using rev_ind; [done|]. rewrite length_app, last_snoc. cbn [length].
  replace (length l + 1)%nat with (S (length l)) by lia. rewrite cursor_boundary by done.
  by rewrite lookup_app_r, Nat.sub_diag by lia.
Qed.

(** The file after its first cluster is set, if it had none *)
Definition with_first (f : File) (c : Z) : File :=
  if bool_decide (first_cluster f = None) then set_first_cluster f c Fat32 else f.

Lemma set_first_wf d c : file_entry_wf d → file_entry_wf (dfe_set_first_cluster d c Fat32).
Proof.
  intros (H1 & H2 & H3 & H4 & H5 & H6 & H7 & H8 & H9 & H10 & H11 & H12).
  unfold file_entry_wf, dfe_set_first_cluster, with_cluster, cast. cbn -[Z.pow Z.modulo Z.land Z.shiftr].
  repeat first [assumption|apply Z.mod_pos_bound; lia|split].
Qed.

Lemma with_first_fields f c : file_size (with_first f c) = file_size f ∧ file_is_dir (with_first f c) = file_is_dir f ∧
  f_offset (with_first f c) = f_offset f ∧ current_cluster (with_first f c) = current_cluster f ∧
  first_cluster (with_first f c) = Some (default c (first_cluster f)) ∧
  ((∀ e, entry f = Some e → file_entry_wf (ed_data e)) → ∀ e, entry (with_first f c) = Some e → file_entry_wf (ed_data e)).
Proof.
  unfold with_first. case_bool_decide as E.
  - unfold set_first_cluster, file_size, file_is_dir. cbn [entry file_first]. rewrite E.
    destruct (entry f) as [e|] eqn:He; cbn [entry file_entry file_first]; rewrite ?He; [|by split_and!].
    unfold ed_set_first_cluster. case_bool_decide; [by split_and!|]. split_and!; try done.
    intros Hw e' [= <-]. cbn [ed_data ed_change]. by apply set_first_wf, Hw.
  - split_and!; try done. by destruct (first_cluster f).
Qed.

(** Taking a cluster at the end of the chain *)
Lemma extend_spec (fs : Fs) A tab B l f bs : file_on fs A tab B l f bs (Z.of_nat (length l) * cluster_bytes fs) → is_dirty fs →
  (file_size f = None → Z.of_nat (length bs) + cluster_bytes fs ≤ MAX_FILE_SIZE) →
  let pos := Z.of_nat (length l) * cluster_bytes fs in
  (∃ c fs1 tab1 B1 bs1, fs_alloc_cluster (current_cluster f) (file_is_dir f) fs = Ok (IoOk c, fs1) ∧
     file_on fs1 A tab1 B1 (l ++ [c]) (with_first f c) bs1 pos ∧ same_volume fs fs1 ∧ is_dirty fs1 ∧
     grown fs A tab B l f bs pos tab1 B1 (l ++ [c]) bs1) ∨
  ((∀ c, live (fs_total_clusters fs) c → fat_value Fat32 tab c ≠ Free) ∧
   ∃ fs1, fs_alloc_cluster (current_cluster f) (file_is_dir f) fs = Ok (IoErr OtherError, fs1) ∧
     file_on fs1 A tab B l f bs pos ∧ same_volume fs fs1).
Proof.
  intros Hf Hdi Hmx pos. pose proof (fo_chain _ _ _ _ _ _ _ _ Hf) as Hc.
  destruct (cluster_bytes_pos _ _ _ _ _ Hc) as [Hcs _].
  rewrite (fo_cur _ _ _ _ _ _ _ _ Hf), cursor_end by lia.
  destruct (grow_chain fs A tab B l (file_is_dir f) Hc)
    as [(c & fs1 & tab1 & H & Hc1 & Hs & Hd1 & Hlt & Hlc & Hfree & Hfr)|(Hno & fs1 & H & Hc1 & Hs)].
  2:{ right. split; [done|]. exists fs1. split; [done|]. split; [|done]. by apply (file_moved fs). }
  left. set (B1 := zeroed fs A tab B (file_is_dir f) c) in *.
  set (bs1 := match file_size f with Some _ => bs | None => bs ++ cluster_data fs A tab B1 c end).
  exists c, fs1, tab1, B1, bs1. split; [done|]. split_and!; try done; [|right; exists c; split_and!; done || apply Hlc].
  pose proof (content_grown fs fs1 A tab tab1 B l (file_is_dir f) c Hc Hlc Hfree Hs Hlt) as Hcon. fold B1 in Hcon.
  destruct (with_first_fields f c) as (E1 & E2 & E3 & E4 & E5 & E6).
  destruct (geometry_same fs fs1 A tab 0 B Hs) as (Ecs & _ & _).
  assert (Z.of_nat (length (cluster_data fs A tab B1 c)) = cluster_bytes fs) as Hlen.
  { rewrite <- Ecs, <- (cluster_data_moved fs fs1 A tab tab1) by done. apply (length_cluster_data fs1 A tab1 B1 (l ++ [c])); set_solver. }
  destruct Hf as [? ? Hfirst Hb Hsz Hm [Hoff Hp] Hcu He].
  assert (file_size f = None → bs = content fs A tab B l) as Hbs.
  { intros En. rewrite En in Hsz. apply prefix_length_eq; [done|lia]. }
  assert (Z.of_nat (length bs) ≤ Z.of_nat (length bs1)) as Hge.
  { unfold bs1. destruct (file_size f); [done|]. rewrite length_app. lia. }
  split; rewrite ?E1, ?E3, ?E4, ?E5, ?Hcon.
  - done.
  - destruct Hs as (-> & _). done.
  - rewrite Hfirst. by destruct l.
  - unfold bs1. destruct (file_size f) eqn:Es; [by apply prefix_app_r|]. by rewrite (Hbs eq_refl).
  - unfold bs1. destruct (file_size f) eqn:Es; [done|]. by rewrite (Hbs eq_refl).
  - unfold bs1. destruct (file_size f) eqn:Es; [done|]. rewrite length_app. specialize (Hmx eq_refl). lia.
  - split; [done|lia].
  - rewrite Ecs, cursor_app by (fold pos; lia). exact Hcu.
  - by apply E6.
Qed.

Lemma cluster_for_write_spec (fs : Fs) A tab B l f bs pos : file_on fs A tab B l f bs pos → is_dirty fs →
  (file_size f = None → Z.of_nat (length bs) + cluster_bytes fs ≤ MAX_FILE_SIZE) →
  let run := cluster_for_write (pos `mod` cluster_bytes fs =? 0) (f, fs) in
  (∃ c f1 fs1 tab1 B1 l1 bs1, run = Ok (IoOk c, (f1, fs1)) ∧ file_on fs1 A tab1 B1 l1 f1 bs1 pos ∧ same_volume fs fs1 ∧
     is_dirty fs1 ∧ l1 !! Z.to_nat (pos `div` cluster_bytes fs) = Some c ∧ grown fs A tab B l f bs pos tab1 B1 l1 bs1 ∧
     (f1 = f ∨ f1 = with_first f c)) ∨
  (pos = Z.of_nat (length l) * cluster_bytes fs ∧
   (∀ c, live (fs_total_clusters fs) c → fat_value Fat32 tab c ≠ Free) ∧
   ∃ fs1, run = Ok (IoErr OtherError, (f, fs1)) ∧ file_on fs1 A tab B l f bs pos ∧ same_volume fs fs1).
Proof.
  intros Hf Hdi Hmx run. pose proof (fo_chain _ _ _ _ _ _ _ _ Hf) as Hc. destruct (fo_pos _ _ _ _ _ _ _ _ Hf) as [Hoff Hp].
  destruct (cluster_bytes_pos _ _ _ _ _ Hc) as [Hcs _]. unfold run, cluster_for_write. clear run.
  pose proof (prefix_length _ _ (fo_bytes _ _ _ _ _ _ _ _ Hf)) as Hpre. pose proof (length_content fs A tab B l Hc) as Hlc.
  pose proof (Z.div_mod pos (cluster_bytes fs) ltac:(lia)) as Hdm.
  pose proof (Z.div_pos pos (cluster_bytes fs) ltac:(lia) ltac:(lia)) as Hdp.
  destruct (current_spec fs A tab B l f bs pos Hf) as (fs1 & H1 & Hf1 & Hs1).
  destruct (Z.eqb_spec (pos `mod` cluster_bytes fs) 0) as [E|E].
  - rewrite (try_ok _ _ _ _ _ H1). destruct (l !! Z.to_nat (pos `div` cluster_bytes fs)) as [c|] eqn:Ec.
    + left. exists c, f, fs1, tab, B, l, bs. split_and!; try done; [by apply Hs1|by left|by left].
    + apply lookup_ge_None in Ec. assert (pos = Z.of_nat (length l) * cluster_bytes fs) as Epos by nia.
      destruct (geometry_same fs fs1 A tab 0 B Hs1) as (Ecs & _ & _). 
      rewrite Epos, <- Ecs in Hf1.
      destruct (extend_spec fs1 A tab B l f bs Hf1) as [(c & fs2 & tab2 & B2 & bs2 & H2 & Hf2 & Hs2 & Hd2 & Hg)|(Hno & fs2 & H2 & Hf2 & Hs2)];
        [by apply Hs1|by rewrite Ecs|left|right].
      * exists c, (with_first f c), fs2, tab2, B2, (l ++ [c]), bs2. rewrite Ecs, <- Epos in Hf2, Hg.
        split_and!; try done; [|by apply (same_volume_trans _ fs1)| |by apply (grown_same fs fs1)|by right].
        -- unfold self. rewrite (M_bind_eq _ _ (f, fs1) f (f, fs1) eq_refl).
           rewrite (try_ok _ _ _ _ _ (on_fs_spec _ f _ _ _ H2)).
           rewrite (M_bind_eq _ _ (f, fs2) (f, fs2) (f, fs2) eq_refl). cbn [fst snd].
           rewrite (v_fat32 _ _ _ _ (co_volume _ _ _ _ _ (fo_chain _ _ _ _ _ _ _ _ Hf2))).
           unfold with_first. by case_bool_decide.
        -- rewrite Epos, Z.div_mul, Nat2Z.id by lia. by rewrite lookup_app_r, Nat.sub_diag by lia.
      * rewrite Ecs, <- Epos in Hf2. split; [done|]. split.
        { intros c. destruct Hs1 as (_ & _ & _ & _ & _ & Et & _). rewrite <- Et. apply Hno. }
        exists fs2. split; [|split; [done|by apply (same_volume_trans _ fs1)]].
        unfold self. rewrite (M_bind_eq _ _ (f, fs1) f (f, fs1) eq_refl).
        by rewrite (try_err _ _ _ _ _ (on_fs_spec _ f _ _ _ H2)).
  - left. assert (∃ c, l !! Z.to_nat (pos `div` cluster_bytes fs) = Some c) as [c Hk].
    { apply lookup_lt_is_Some_2. pose proof (Z.mod_pos_bound pos (cluster_bytes fs)). nia. }
    exists c, f, fs, tab, B, l, bs. split_and!; try done; [|by left|by left].
    unfold self. rewrite (M_bind_eq _ _ (f, fs) f (f, fs) eq_refl).
    by rewrite (fo_cur _ _ _ _ _ _ _ _ Hf), cursor_inside, Hk by (done || lia).
Qed.

(** ** The entry after a write *)

Definition grow_size (sz : option Z) (off : Z) : option Z := Z.max off <$> sz.

Lemma update_entry_spec o e off : clock_ok o → file_entry_wf (ed_data e) → 0 ≤ off < 2 ^ 32 →
  ∃ e', (now ← tp_date_time (time_provider o);
         e1 ← ed_set_modified e now;
         match dfe_size (ed_data e1) with
         | Some sz => if sz <? off then Ok (ed_set_size e1 off) else Ok e1
         | None => Ok e1
         end) = Ok e' ∧ file_entry_wf (ed_data e') ∧ dfe_size (ed_data e') = grow_size (dfe_size (ed_data e)) off.
Proof.
  intros [(dt & d & t & H1 & H2 & H3 & H4 & H5) _] Hw Ho. rewrite H1. cbn [mbind exec_bind].
  destruct (ed_set_modified_spec e dt d t Hw H2 H4 H3 H5) as (e1 & Hm & Hw1 & Hs & _). rewrite Hm. cbn [mbind exec_bind].
  rewrite <- (proj1 (same_file_size _ _ Hs)). clear Hs Hm Hw.
  destruct (dfe_size (ed_data e1)) as [sz|] eqn:Es; [|by exists e1].
  unfold grow_size. cbn [fmap option_fmap option_map]. destruct (Z.ltb_spec sz off) as [Hlt|Hge].
  - eexists. split; [done|]. unfold ed_set_size. rewrite Es, (proj2 (Z.eqb_neq _ _)) by lia. cbn [ed_data ed_change].
    split.
    + destruct Hw1 as (W1 & W2 & W3 & W4 & W5 & W6 & W7 & W8 & W9 & W10 & W11 & W12).
      unfold file_entry_wf, dfe_set_size. cbn. split_and!; (done || lia).
    + unfold dfe_size, is_file, is_dir in *. cbn. destruct (negb _); [|done]. f_equal. lia.
  - exists e1. split; [done|]. split; [done|]. rewrite Es. f_equal. lia.
Qed.

Lemma stored_spec (fs : Fs) A tab B l f bs pos c chunk fs2 : file_on fs A tab B l f bs pos →
  l !! Z.to_nat (pos `div` cluster_bytes fs) = Some c → (0 < length chunk)%nat →
  pos `mod` cluster_bytes fs + Z.of_nat (length chunk) ≤ cluster_bytes fs → pos + Z.of_nat (length chunk) ≤ MAX_FILE_SIZE →
  let B2 := splice (in_data fs A tab c + pos `mod` cluster_bytes fs) chunk B in
  chain_on fs2 A tab B2 l → same_volume fs fs2 →
  ∃ f', (set_self (file_at f (pos + Z.of_nat (length chunk)) (Some c)) ;; update_dir_entry_after_write) (f, fs2) =
      Ok (tt, (f', fs2)) ∧
    file_on fs2 A tab B2 l f' (splice pos chunk bs) (pos + Z.of_nat (length chunk)).
Proof.
  intros Hf Hk Hn Ho Hm B2 Hc2 Hs. pose proof (fo_chain _ _ _ _ _ _ _ _ Hf) as Hc.
  destruct (cluster_bytes_pos _ _ _ _ _ Hc) as [Hcs _]. destruct Hf as [_ Hclk Hfi Hb Hsz Hmx [Hoff Hp] Hcu He].
  set (cs := cluster_bytes fs) in *. set (n := Z.of_nat (length chunk)) in *.
  pose proof (Z.div_mod pos cs ltac:(lia)) as Hdm. pose proof (Z.mod_pos_bound pos cs ltac:(lia)) as Hmb.
  pose proof (Z.div_pos pos cs ltac:(lia) ltac:(lia)) as Hdp.
  assert (content fs2 A tab B2 l = splice pos chunk (content fs A tab B l)) as Hcon.
  { rewrite (content_same fs fs2) by done. unfold B2.
    rewrite (content_splice fs A tab B l (Z.to_nat (pos `div` cs)) c) by (done || (fold cs; lia)). f_equal. fold cs. lia. }
  pose proof (length_content fs A tab B l Hc) as Hlc. fold cs in Hlc. pose proof (prefix_length _ _ Hb) as Hpre.
  assert (pos + n ≤ Z.of_nat (length (content fs A tab B l))) as Hend.
  { apply lookup_lt_Some in Hk. nia. }
  pose proof (length_grow pos chunk bs Hp) as Hg. fold n in Hg.
  set (f1 := file_at f (pos + n) (Some c)).
  assert (∃ f', update_dir_entry_after_write (f1, fs2) = Ok (tt, (f', fs2)) ∧ first_cluster f' = first_cluster f ∧
    f_offset f' = pos + n ∧ current_cluster f' = Some c ∧ file_size f' = grow_size (file_size f) (pos + n) ∧
    ∀ e, entry f' = Some e → file_entry_wf (ed_data e)) as (f' & H1 & E1 & E2 & E3 & E4 & E5).
  { unfold update_dir_entry_after_write. setoid_rewrite (M_bind_eq _ _ (f1, fs2) (f1, fs2) (f1, fs2) eq_refl).
    cbn [fst snd]. unfold edit, self. setoid_rewrite (M_bind_eq _ _ (f1, fs2) f1 (f1, fs2) eq_refl).
    cbn [entry f1 file_at f_offset]. unfold file_size. destruct (entry f) as [e|] eqn:Ee.
    - destruct (update_entry_spec (options fs2) e (pos + n)) as (e' & H1 & Hw & Hz);
        [by destruct Hs as (-> & _)|by apply He|unfold MAX_FILE_SIZE in Hm; lia|].
      rewrite H1. run_refl. eexists. split; [done|]. cbn [entry file_entry file_at]. split_and!; try done.
      intros ? [= <-]. done.
    - exists f1. split_and!; try done; cbn [entry f1 file_at]; by rewrite Ee. }
  exists f'. split; [run_refl; exact H1|]. destruct (geometry_same fs fs2 A tab 0 B Hs) as (Ecs & _ & _). fold cs in Ecs.
  split; rewrite ?Hcon, ?E1, ?E2, ?E3, ?E4, ?Ecs; try done.
  - by destruct Hs as (-> & _).
  - by apply prefix_splice.
  - unfold grow_size. rewrite Hg. destruct (file_size f); cbn [fmap option_fmap option_map]; [lia|].
    rewrite length_grow by lia. fold n. lia.
  - rewrite Hg. lia.
  - split; [done|lia].
  - rewrite <- Hk. symmetry. apply cursor_within; lia.
Qed.

(** ** [File::write] *)

Definition write_len (fs : Fs) (pos : Z) (buf : list Z) : Z :=
  Z.min (Z.min (Z.of_nat (length buf)) (cluster_bytes fs - pos `mod` cluster_bytes fs)) (MAX_FILE_SIZE - pos).

Lemma file_write_spec (fs : Fs) A tab B l f bs pos buf : file_on fs A tab B l f bs pos →
  0 < Z.of_nat (length buf) → pos < MAX_FILE_SIZE →
  (file_size f = None → Z.of_nat (length bs) + cluster_bytes fs ≤ MAX_FILE_SIZE) →
  let n := write_len fs pos buf in
  (∃ f' fs' tab' B1 B' l' bs1 c, file_write buf (f, fs) = Ok (IoOk n, (f', fs')) ∧ 0 < n ∧
     grown fs A tab B l f bs pos tab' B1 l' bs1 ∧ l' !! Z.to_nat (pos `div` cluster_bytes fs) = Some c ∧
     B' = splice (in_data fs A tab c + pos `mod` cluster_bytes fs) (take (Z.to_nat n) buf) B1 ∧
     file_on fs' A tab' B' l' f' (splice pos (take (Z.to_nat n) buf) bs1) (pos + n) ∧
     same_volume fs fs' ∧ is_dirty fs') ∨
  (pos = Z.of_nat (length l) * cluster_bytes fs ∧ (∀ c, live (fs_total_clusters fs) c → fat_value Fat32 tab c ≠ Free) ∧
   ∃ fs', file_write buf (f, fs) = Ok (IoErr OtherError, (f, fs')) ∧ file_on fs' A tab B l f bs pos ∧ same_volume fs fs').
Proof.
  intros Hf Hbuf Hpm Hmx n. pose proof (fo_chain _ _ _ _ _ _ _ _ Hf) as Hc. destruct (fo_pos _ _ _ _ _ _ _ _ Hf) as [Hoff Hp].
  destruct (cluster_bytes_pos _ _ _ _ _ Hc) as [Hcs Hcs']. set (cs := cluster_bytes fs) in *. set (o := pos `mod` cs) in *.
  pose proof (Z.mod_pos_bound pos cs ltac:(lia)) as Hmb. fold o in Hmb.
  assert (0 < n ∧ o + n ≤ cs ∧ pos + n ≤ MAX_FILE_SIZE ∧ n ≤ Z.of_nat (length buf)) as (Hn & Hon & Hmaxn & Hnb)
    by (unfold n, write_len; fold cs o; lia).
  unfold file_write. setoid_rewrite (M_bind_eq _ _ (f, fs) (f, fs) (f, fs) eq_refl). cbn [fst snd].
  rewrite Hcs', Hoff. setoid_rewrite (M_bind_eq _ _ (f, fs) cs (f, fs) eq_refl). unfold urem.
  rewrite (proj2 (Z.eqb_neq cs 0)) by lia. setoid_rewrite (M_bind_eq _ _ (f, fs) o (f, fs) eq_refl).
  unfold MAX_FILE_SIZE in Hmaxn, Hpm.
  setoid_rewrite (M_bind_eq _ _ (f, fs) (cs - o) (f, fs) (lift_chk 32 (cs - o) (f, fs) ltac:(lia))).
  setoid_rewrite (M_bind_eq _ _ (f, fs) (MAX_FILE_SIZE - pos) (f, fs)
    (lift_chk 32 (MAX_FILE_SIZE - pos) (f, fs) ltac:(unfold MAX_FILE_SIZE; lia))).
  cbv zeta. change (Z.min (Z.min (Z.of_nat (length buf)) (cs - o)) (MAX_FILE_SIZE - pos)) with n.
  rewrite (proj2 (Z.eqb_neq n 0)) by lia.
  destruct (mark_dirty fs A tab B l Hc) as (fs1 & H1 & Hc1 & Hs1 & Hd1).
  rewrite (try_ok _ _ _ _ _ (on_fs_spec _ f _ _ _ H1)).
  destruct (geometry_same fs fs1 A tab 0 B Hs1) as (Ecs1 & _ & _). fold cs in Ecs1.
  pose proof (file_moved fs fs1 A tab B l f bs pos Hf Hc1 Hs1) as Hf1.
  destruct (cluster_for_write_spec fs1 A tab B l f bs pos Hf1 Hd1) as
    [(c & f2 & fs2 & tab2 & B2 & l2 & bs2 & H2 & Hf2 & Hs2 & Hd2 & Hk & Hg & _)|(Epos & Hno & fs2 & H2 & Hf2 & Hs2)];
    [by rewrite Ecs1| |]; rewrite Ecs1 in *; fold o in H2.
  2:{ right. split; [done|]. split.
      { intros c. destruct Hs1 as (_ & _ & _ & _ & _ & Et & _). rewrite <- Et. apply Hno. }
      exists fs2. rewrite (try_err _ _ _ _ _ H2). split; [done|]. split; [done|]. by apply (same_volume_trans _ fs1). }
  left. rewrite (try_ok _ _ _ _ _ H2). pose proof (same_volume_trans _ _ _ Hs1 Hs2) as Hs12.
  destruct (geometry_same fs fs2 A tab2 c B2 Hs12) as (Ecs2 & Eind & _). fold cs in Ecs2.
  pose proof (fo_chain _ _ _ _ _ _ _ _ Hf2) as Hc2. assert (c ∈ l2) as Hin by (by eapply list_elem_of_lookup_2).
  assert (live (fs_total_clusters fs) c) as Hlive.
  { pose proof (cluster_live fs2 A tab2 B2 l2 Hc2 c Hin) as Hlv. by destruct Hs12 as (_ & _ & _ & _ & _ & <- & _). }
  assert (cluster_pos fs2 c = cluster_pos fs c) as Ecp.
  { destruct Hs12 as (_ & _ & E1 & E2 & _). unfold cluster_pos. by rewrite E1, E2. }
  destruct (cluster_pos_range fs A tab B c) as (Hd1' & Hd2' & Hofs & _ & _); [apply Hc|apply Hc|done|].
  rewrite Hofs. setoid_rewrite (M_bind_eq _ _ (f2, fs2) (cluster_pos fs c) (f2, fs2) eq_refl).
  assert (0 ≤ cluster_pos fs c + o < 2 ^ 63) as Hr.
  { pose proof (v_limit _ _ _ _ (co_volume _ _ _ _ _ Hc)) as Hlim. unfold volume_bytes in Hlim.
    rewrite app_assoc, length_app in Hlim. unfold in_data in *. fold cs in Hd2'. lia. }
  setoid_rewrite (M_bind_eq _ _ (f2, fs2) _ (f2, fs2) (lift_chk 64 (cluster_pos fs c + o) (f2, fs2) ltac:(lia))).
  set (chunk := take (Z.to_nat n) buf).
  assert (Z.of_nat (length chunk) = n) as Hlen by (unfold chunk; rewrite length_take; lia).
  destruct (disk_write fs2 A tab2 B2 l2 (Z.to_nat (pos `div` cs)) c o chunk Hc2 Hd2 Hk) as (fs3 & fs4 & H3 & H4 & Hc4 & Hs4 & Hd4);
    [lia|lia|]. rewrite Ecp in H3.
  rewrite (try_ok _ _ _ _ _ (on_fs_spec _ f2 _ _ _ H3)), (try_ok _ _ _ _ _ (on_fs_spec _ f2 _ _ _ H4)).
  rewrite Hlen, (proj2 (Z.eqb_neq n 0)) by lia. unfold self. setoid_rewrite (M_bind_eq _ _ (f2, fs4) f2 (f2, fs4) eq_refl).
  destruct (fo_pos _ _ _ _ _ _ _ _ Hf2) as [Hoff2 _]. rewrite Hoff2, cast_in by lia.
  setoid_rewrite (M_bind_eq _ _ (f2, fs4) _ (f2, fs4) (lift_chk 32 (pos + n) (f2, fs4) ltac:(lia))).
  destruct (stored_spec fs2 A tab2 B2 l2 f2 bs2 pos c chunk fs4 Hf2) as (f' & H5 & Hf5);
    rewrite ?Ecs2, ?Hlen; fold o; try done; try lia.
  exists f', fs4, tab2, B2, (splice (in_data fs2 A tab2 c + o) chunk B2), l2, bs2, c.
  rewrite Hlen in H5, Hf5. rewrite Ecs2 in Hf5. fold o in Hf5.
  split.
  { rewrite <- M_bind_assoc. by rewrite (M_bind_eq _ _ _ _ _ H5). }
  split; [done|]. split; [by apply (grown_same fs fs1)|]. split; [done|]. split.
  - f_equal. rewrite Eind. f_equal. apply in_data_len.
    destruct Hg as [(-> & _)|(c0 & _ & _ & _ & _ & Hlt & _)]; done.
  - split; [done|]. split; [by apply (same_volume_trans _ fs2)|done].
Qed.

(** The clusters outside the chain of the file *)
Lemma write_frame (fs : Fs) A tab B l f bs pos tab' B1 l' bs1 c o chunk : chain_on fs A tab B l →
  grown fs A tab B l f bs pos tab' B1 l' bs1 → c ∈ l' → 0 ≤ o → o + Z.of_nat (length chunk) ≤ cluster_bytes fs →
  ∀ c', live (fs_total_clusters fs) c' → c' ∉ l' →
    cluster_data fs A tab (splice (in_data fs A tab c + o) chunk B1) c' = cluster_data fs A tab B c' ∧
    fat_value Fat32 tab' c' = fat_value Fat32 tab c'.
Proof.
  intros Hc Hg Hin Ho Hl c' Hc' Hn. assert (0 ≤ c') by (unfold live, RESERVED_FAT_ENTRIES in Hc'; lia).
  assert (live (fs_total_clusters fs) c ∧ length B1 = length B) as [Hlc HlB].
  { destruct Hg as [(_ & -> & -> & _)|(c0 & _ & -> & Hl0 & _ & _ & -> & _)];
      [split; [by apply (cluster_live fs A tab B l)|done]|]. split.
    - apply elem_of_app in Hin as [Hin| ->%list_elem_of_singleton]; [by apply (cluster_live fs A tab B l)|done].
    - unfold zeroed. destruct (file_is_dir f); [|done].
      destruct (cluster_pos_range fs A tab B c0) as (? & ? & _ & _ & ?); [apply Hc|apply Hc|done|].
      apply length_splice; rewrite ?length_replicate; lia. }
  assert (cluster_data fs A tab (splice (in_data fs A tab c + o) chunk B1) c' = cluster_data fs A tab B1 c') as ->.
  { destruct (cluster_pos_range fs A tab B c) as (? & ? & _ & _ & ?); [apply Hc|apply Hc|done|].
    destruct (cluster_pos_range fs A tab B c') as (? & ? & _); [apply Hc|apply Hc|done|].
    apply slice_splice_apart; try lia. destruct (in_data_apart fs A tab c c'); [lia|intros ->; done|lia..]. }
  destruct Hg as [(-> & -> & -> & _)|(c0 & _ & -> & Hl0 & _ & _ & -> & _ & Hfr)]; [done|].
  split; [|by apply Hfr]. apply (zeroed_other fs A tab B l); try done. intros ->. set_solver.
Qed.

(** C28: A read of an open file returns bytes of the file at its position, at least one
    before the end, and moves behind them; the volume keeps every byte. *)
Theorem file_read_correct (fs : Fs) A tab B l f bs pos n :
  file_on fs A tab B l f bs pos → 0 ≤ n →
  ∃ (k : nat) f' fs', file_read n (f, fs) = Ok (IoOk (take k (drop (Z.to_nat pos) bs)), (f', fs')) ∧
    file_on fs' A tab B l f' bs (pos + Z.of_nat k) ∧ Z.of_nat k ≤ n ∧
    Z.of_nat k ≤ Z.of_nat (length bs) - pos ∧ (0 < n → pos < Z.of_nat (length bs) → (0 < k)%nat).
Proof.
  intros Hf Hn. destruct (file_read_spec fs A tab B l f bs pos n Hf Hn) as (k & f' & fs' & H1 & H2 & _ & H3 & H4 & H5).
  destruct (fo_pos _ _ _ _ _ _ _ _ Hf) as [_ Hp]. exists k, f', fs'. split_and!; (done || lia).
Qed.

(** A seek in an open file, from the start, the current position or the end, goes
    where it is asked to, or to the end of a shorter file: the cursor is then on
    the cluster of the last byte before the position. *)
Theorem file_seek_correct (fs : Fs) A tab B l f bs pos w t s :
  file_on fs A tab B l f bs pos → file_size f = Some s → seek_target f bs w t →
  ∃ f' fs', file_seek w (f, fs) = Ok (IoOk (Z.min t s), (f', fs')) ∧ file_on fs' A tab B l f' bs (Z.min t s).
Proof.
  intros Hf Hs Hw. pose proof (fo_size _ _ _ _ _ _ _ _ Hf) as Hz. rewrite Hs in Hz.
  destruct (file_seek_spec fs A tab B l f bs pos w t (Z.min t s) Hf Hw) as (f' & fs' & H1 & H2 & _); [by rewrite Hs|lia|].
  by exists f', fs'.
Qed.

(** C12: A write to an open file stores a non-empty prefix of the buffer at the position
    and moves behind it: the file's bytes are overwritten or extended there, its
    chain is extended by a free cluster when it ends at the position, the volume
    is marked dirty, and no cluster and no table entry outside the chain changes.
    It fails only when a cluster is needed and none is free. *)
Theorem file_write_correct (fs : Fs) A tab B l f bs pos buf s :
  file_on fs A tab B l f bs pos → file_size f = Some s → buf ≠ [] → pos < MAX_FILE_SIZE →
  let n := write_len fs pos buf in
  0 < n ≤ Z.of_nat (length buf) ∧
  ((∃ f' fs' tab' B' l', file_write buf (f, fs) = Ok (IoOk n, (f', fs')) ∧
      file_on fs' A tab' B' l' f' (splice pos (take (Z.to_nat n) buf) bs) (pos + n) ∧ is_dirty fs' ∧
      (l' = l ∨ ∃ c, l' = l ++ [c] ∧ fat_value Fat32 tab c = Free) ∧
      ∀ c', live (fs_total_clusters fs) c' → c' ∉ l' →
        cluster_data fs A tab B' c' = cluster_data fs A tab B c' ∧ fat_value Fat32 tab' c' = fat_value Fat32 tab c') ∨
   (pos = Z.of_nat (length l) * cluster_bytes fs ∧ (∀ c, live (fs_total_clusters fs) c → fat_value Fat32 tab c ≠ Free) ∧
    ∃ fs', file_write buf (f, fs) = Ok (IoErr OtherError, (f, fs')) ∧ file_on fs' A tab B l f bs pos)).
Proof.
  intros Hf Hs Hbuf Hpm n. pose proof (fo_chain _ _ _ _ _ _ _ _ Hf) as Hc.
  destruct (cluster_bytes_pos _ _ _ _ _ Hc) as [Hcs _]. pose proof (Z.mod_pos_bound pos (cluster_bytes fs) ltac:(lia)) as Hmb.
  assert (0 < Z.of_nat (length buf)) as Hb0 by (destruct buf; [done|cbn; lia]).
  assert (0 < n ≤ Z.of_nat (length buf) ∧ pos `mod` cluster_bytes fs + n ≤ cluster_bytes fs) as [Hn Hon]
    by (unfold n, write_len; lia). split; [done|].
  destruct (file_write_spec fs A tab B l f bs pos buf Hf Hb0 Hpm) as
    [(f' & fs' & tab' & B1 & B' & l' & bs1 & c & H1 & _ & Hg & Hk & HB & Hf' & _ & Hd)|(H1 & H2 & fs' & H3 & H4 & _)];
    [congruence|left|right; split_and!; eauto].
  assert (bs1 = bs) as -> by (destruct Hg as [(_ & _ & _ & ->)|(? & _ & _ & _ & _ & _ & _ & -> & _)]; [done|by rewrite Hs]).
  exists f', fs', tab', B', l'. split_and!; try done.
  - destruct Hg as [(_ & _ & -> & _)|(c0 & _ & -> & _ & Hfr & _)]; [by left|right; eauto].
  - rewrite HB. apply (write_frame fs A tab B l f bs pos tab' B1 l' bs); try done; [by eapply list_elem_of_lookup_2|lia|].
    rewrite length_take. fold n. lia.
Qed.

(** A directory whose entries fill its chain grows by a cluster when an entry is
    added.  The rest of the new cluster is zero, which ends the directory there,
    only for a directory that has an entry of its own: for the root directory it
    keeps the bytes of whatever file had the cluster before. *)
Theorem directory_growth (fs : Fs) A tab B l f bs buf c0 :
  file_on fs A tab B l f bs (Z.of_nat (length l) * cluster_bytes fs) → file_size f = None →
  buf ≠ [] → Z.of_nat (length buf) ≤ cluster_bytes fs → Z.of_nat (length bs) + cluster_bytes fs ≤ MAX_FILE_SIZE →
  live (fs_total_clusters fs) c0 → fat_value Fat32 tab c0 = Free →
  ∃ c f' fs' tab' B', file_write buf (f, fs) = Ok (IoOk (Z.of_nat (length buf)), (f', fs')) ∧
    fat_value Fat32 tab c = Free ∧
    file_on fs' A tab' B' (l ++ [c]) f'
      (bs ++ buf ++ drop (length buf) (if file_is_dir f then replicate (Z.to_nat (cluster_bytes fs)) 0
                                       else cluster_data fs A tab B c))
      (Z.of_nat (length l) * cluster_bytes fs + Z.of_nat (length buf)).
Proof.
  intros Hf Hs Hb Hl Hm Hc0 Hfree. pose proof (fo_chain _ _ _ _ _ _ _ _ Hf) as Hc.
  destruct (cluster_bytes_pos _ _ _ _ _ Hc) as [Hcs _]. pose proof (length_content fs A tab B l Hc) as Hlc.
  pose proof (fo_size _ _ _ _ _ _ _ _ Hf) as Hsz. rewrite Hs, Hlc in Hsz.
  assert (0 < Z.of_nat (length buf)) as Hb0 by (destruct buf; [done|cbn; lia]).
  set (pos := Z.of_nat (length l) * cluster_bytes fs) in *.
  assert (write_len fs pos buf = Z.of_nat (length buf)) as Hn.
  { unfold write_len. unfold pos at 1. rewrite Z.mod_mul by lia. unfold pos in *. lia. }
  destruct (file_write_spec fs A tab B l f bs pos buf Hf Hb0) as
    [(f' & fs' & tab' & B1 & B' & l' & bs1 & c & H1 & _ & Hg & Hk & HB & Hf' & _)|(_ & Hno & _)];
    [unfold pos in *; lia|by intros _| |by destruct (Hno c0)].
  rewrite Hn in H1, Hf'. unfold pos in Hk at 1. rewrite Z.div_mul, Nat2Z.id in Hk by lia.
  destruct Hg as [(_ & _ & -> & _)|(c1 & _ & -> & Hlv & Hfr & _ & HB1 & Hbs & _)].
  { by rewrite lookup_ge_None_2 in Hk. }
  exists c1, f', fs', tab', B'. split; [done|]. split; [done|].
  assert (cluster_data fs A tab B1 c1 = if file_is_dir f then replicate (Z.to_nat (cluster_bytes fs)) 0
            else cluster_data fs A tab B c1) as Hdata.
  { rewrite HB1. destruct (file_is_dir f); [by apply (zeroed_zero fs A tab B l)|done]. }
  rewrite Hs, Hdata in Hbs. rewrite Hbs, Nat2Z.id, (take_ge buf) in Hf' by lia. rewrite <- Hsz in Hf' |- *.
  unfold splice in Hf'. rewrite Nat2Z.id, take_app_length, drop_app_add in Hf'. exact Hf'.
Qed.
End file_write.
