(* ===== verification/FatDir.v ===== *)
(** * Directories (fatfs/src/dir.rs, and [DirEntry] of fatfs/src/dir_entry.rs)

    A directory is a stream of entries: a file, or on FAT12/16 the fixed root
    area.  A [Dir] is a handle on such a stream; every operation works on a clone
    of the handle and drops it, and dropping a file handle flushes the entry it
    caches, so the operations here run on the file system and end with that drop. *)

From S2P Require Import Prelude Io FatIo FatTime BootSector FatTable FatFs DirEntry FatName FatFile.

(** ** Raw streams *)

(** [DirRawStream]; the slice's [FsIoAdapter] is the file system of the state. *)
Inductive DirRawStream := StreamFile (file : File) | StreamRoot (slice : DiskSlice unit).

Section raw.
Context {D : Type} `{!Stream D}.
Abbreviation Fs := (FileSystem D).

Definition with_raw {A} (mf : M (File * Fs) A) (mr : M (DiskSlice Fs) A) : M (DirRawStream * Fs) A := λ s,
  match s.1 with
  | StreamFile f =>
      match mf (f, s.2) with Ok (a, (f, fs)) => Ok (a, (StreamFile f, fs)) | Panic e => Panic e end
  | StreamRoot r =>
      match mr {| begin := begin r; size := size r; offset := offset r; mirrors := mirrors r; inner := s.2 |} with
      | Ok (a, sl) =>
          Ok (a, (StreamRoot {| begin := begin sl; size := size sl; offset := offset sl; mirrors := mirrors sl;
                                inner := tt |}, inner sl))
      | Panic e => Panic e
      end
  end.

#[export] Instance raw_stream : Stream (DirRawStream * Fs) := {|
  s_read n := with_raw (s_read n) (s_read n);
  s_write l := with_raw (s_write l) (s_write l);
  s_flush := with_raw s_flush s_flush;
  s_seek p := with_raw (s_seek p) (s_seek p) |}.

Definition raw_abs_pos : M (DirRawStream * Fs) (option Z) := λ s,
  match match s.1 with
        | StreamFile f => file_abs_pos f s.2
        | StreamRoot r => p ← ds_abs_pos r; mret (Some p)
        end with
  | Ok p => Ok (p, s)
  | Panic e => Panic e
  end.
Definition raw_first_cluster (st : DirRawStream) : option Z :=
  match st with StreamFile f => first_cluster f | StreamRoot _ => None end.
(** Dropping a stream *)
Definition raw_drop (st : DirRawStream) : M Fs unit := λ fs,
  match st with
  | StreamFile f => match file_drop (f, fs) with Ok (_, s) => Ok (tt, s.2) | Panic e => Panic e end
  | StreamRoot _ => Ok (tt, fs)
  end.

(** Work on a stream owned by a function, which drops it when it returns *)
Definition with_stream {A} (st : DirRawStream) (m : M (DirRawStream * Fs) A) : M Fs A := λ fs,
  match m (st, fs) with
  | Ok (a, (st, fs)) => match raw_drop st fs with Ok (_, fs) => Ok (a, fs) | Panic e => Panic e end
  | Panic e => Panic e
  end.
End raw.

(** [Inode for Dir] *)
Definition dir_get_fstat (d : DirRawStream) : exec Stat :=
  match d with StreamFile f => Ok (get_fstat f) | StreamRoot _ => Panic Explicit end.
Definition dir_get_dents64 (entry_size : Z) (d : DirRawStream) : exec LinuxDirent64 :=
  match d with StreamFile f => get_dents64 entry_size f | StreamRoot _ => Panic Explicit end.

(** ** Entries *)

(** [DirEntry]; [fs] is the file system of the state. *)
Record DirEntry := {
  de_data : DirFileEntryData;
  de_short_name : ShortName;
  lfn_utf16 : list Z;
  entry_pos : Z;
  offset_range : Z * Z;
}.

Definition de_is_dir (e : DirEntry) : bool := is_dir (de_data e).
Definition de_is_file (e : DirEntry) : bool := is_file (de_data e).
Definition de_first_cluster (e : DirEntry) (t : FatType) : option Z := dfe_first_cluster (de_data e) t.
Definition editor (e : DirEntry) : DirEntryEditor := ed_new (de_data e) (entry_pos e).
Definition is_same_entry (e other : DirEntry) : bool := entry_pos e =? entry_pos other.
Definition short_file_name_as_bytes (e : DirEntry) : list Z := sn_as_bytes (de_short_name e).
Definition short_file_name (e : DirEntry) (c : OemCpConverter) : list Z := sn_to_string (de_short_name e) c.
Definition file_name (e : DirEntry) (c : OemCpConverter) : list Z :=
  if bool_decide (lfn_utf16 e = []) then sn_to_string (lowercase_name (de_data e)) c
  else from_utf16_lossy (lfn_utf16 e).
Definition de_len (e : DirEntry) : Z := e_size (de_data e).

Definition to_file (e : DirEntry) (t : FatType) : exec File :=
  ensure (negb (de_is_dir e));;
  mret (file_new (de_first_cluster e t) (Some (editor e))).

(** Bound on the entries of a directory: those of the root area and of all clusters *)
Definition dir_fuel {D} (fs : FileSystem D) : nat :=
  Z.to_nat ((fs_root_dir_sectors fs + fs_total_clusters fs * sectors_per_cluster (fs_bpb fs)) *
            bytes_per_sector (fs_bpb fs) / 32) + 2.

(** The iterator's state beside its stream *)
Inductive found_or_name := FoundEntry (e : DirEntry) | FreeName (n : list Z).

Section dir.
Context {D : Type} `{!Stream D}.
Abbreviation Fs := (FileSystem D).
(** Unicode's upper case, see [to_uppercase] *)
Variable upper_other : Z → list Z.

(** [FileSystem::root_dir] *)
Definition root_dir (fs : Fs) : exec DirRawStream :=
  match fat_type fs with
  | Fat32 => Ok (StreamFile (file_new (Some (root_dir_first_cluster (fs_bpb fs))) None))
  | _ =>
      first ← u32 (fs_first_data_sector fs - fs_root_dir_sectors fs);
      sl ← ds_from_sectors first (fs_root_dir_sectors fs) 1 (fs_bpb fs) tt;
      mret (StreamRoot sl)
  end.
Definition to_dir (e : DirEntry) (fs : Fs) : exec DirRawStream :=
  ensure (de_is_dir e);;
  match de_first_cluster e (fat_type fs) with
  | Some n => Ok (StreamFile (file_new (Some n) (Some (editor e))))
  | None => root_dir fs
  end.

Definition eq_name (e : DirEntry) (name : list Z) (c : OemCpConverter) : bool :=
  bool_decide (upper upper_other (file_name e c) = upper upper_other name) ||
  sn_eq_ignore_case upper_other (de_short_name e) name c.

(** ** The iterator *)

Definition should_ship_entry (skip_volume : bool) (raw_entry : DirEntryData) : bool :=
  is_deleted raw_entry ||
  match raw_entry with FileEntry f => skip_volume && is_volume f | LfnEntry _ => false end.

(** [abs_pos().map(|p| p - DIR_ENTRY_SIZE)], unwrapped *)
Definition entry_abs_pos : M (DirRawStream * Fs) Z :=
  p ← raw_abs_pos;
  q ← lift match p with Some p => q ← u64 (p - DIR_ENTRY_SIZE); mret (Some q) | None => mret None end;
  lift (unwrap q).

Fixpoint read_dir_entry_loop (fuel : nat) (skip_volume : bool) (lfn_buf : LongNameBuilder)
    (begin_offset offset : Z) : M (DirRawStream * Fs) (ioresult (option DirEntry)) :=
  match fuel with
  | O => panic OutOfFuel
  | S fuel =>
      raw_entry ←? entry_deserialize;
      offset ← lift (u64 (offset + DIR_ENTRY_SIZE));
      if is_end raw_entry then ok None
      else if should_ship_entry skip_volume raw_entry then
        read_dir_entry_loop fuel skip_volume (lnb_clear lfn_buf) offset offset
      else
        match raw_entry with
        | FileEntry data =>
            pos ← raw_abs_pos;
            pos ← lift match pos with Some p => q ← u64 (p - DIR_ENTRY_SIZE); mret (Some q) | None => mret None end;
            let lfn_buf := validate_chksum lfn_buf (name data) in
            pos ← lift (unwrap pos);
            ok (Some {| de_data := data; de_short_name := sn_new (name data); lfn_utf16 := into_vec lfn_buf;
                        entry_pos := pos; offset_range := (begin_offset, offset) |})
        | LfnEntry data =>
            lfn_buf ← lift (lnb_process lfn_buf data);
            read_dir_entry_loop fuel skip_volume lfn_buf begin_offset offset
        end
  end.
Definition read_dir_entry (fuel : nat) (skip_volume : bool) : M (DirRawStream * Fs) (ioresult (option DirEntry)) :=
  offset ←? s_seek (SeekCurrent 0);
  read_dir_entry_loop fuel skip_volume lnb_new offset offset.

(** [for r in iter { let e = r?; .. }]: the body returns a result, or goes on with
    a new accumulator; [None] when the entries end.  A round reads an entry at
    least, so [fuel] entries bound both loops. *)
Fixpoint iterate {A R} (fuel : nat) (skip_volume : bool) (body : A → DirEntry → ioresult R + A) (acc : A) :
    M (DirRawStream * Fs) (option (ioresult R) * A) :=
  match fuel with
  | O => panic OutOfFuel
  | S n =>
      r ← read_dir_entry fuel skip_volume;
      match r with
      | IoErr e => mret (Some (IoErr e), acc)
      | IoOk None => mret (None, acc)
      | IoOk (Some e) =>
          match body acc e with
          | inl r => mret (Some r, acc)
          | inr acc => iterate n skip_volume body acc
          end
      end
  end.
(** A loop over all entries of a directory *)
Definition for_entries {A R} (dir : DirRawStream) (skip_volume : bool) (body : A → DirEntry → ioresult R + A)
    (acc : A) : M Fs (option (ioresult R) * A) :=
  fs ← get;
  with_stream dir (iterate (dir_fuel fs) skip_volume body acc).

(** ** Finding entries *)

(** [find_entry]; the generator, if there is one, is threaded through. *)
Definition find_body (name : list Z) (want_dir : option bool) (c : OemCpConverter)
    (gen : option ShortNameGenerator) (e : DirEntry) : ioresult DirEntry + option ShortNameGenerator :=
  if eq_name e name c then
    if bool_decide (want_dir ≠ None ∧ want_dir ≠ Some (de_is_dir e)) then inl (IoErr OtherError)
    else inl (IoOk e)
  else inr ((λ g, add_existing g (DirEntry.name (de_data e))) <$> gen).
Definition find_entry_gen (dir : DirRawStream) (name : list Z) (want_dir : option bool)
    (gen : option ShortNameGenerator) : M Fs (ioresult DirEntry * option ShortNameGenerator) :=
  fs ← get;
  r ← for_entries dir true (find_body name want_dir (oem_cp_converter (options fs))) gen;
  mret (default (IoErr NotFound) r.1, r.2).
Definition find_entry (dir : DirRawStream) (name : list Z) (want_dir : option bool) : M Fs (ioresult DirEntry) :=
  r ← find_entry_gen dir name want_dir None; mret r.1.

Definition find_volume_entry (dir : DirRawStream) : M Fs (ioresult (option DirEntry)) :=
  r ← for_entries dir false (λ (_ : unit) e, if is_volume (de_data e) then inl (IoOk (Some e)) else inr tt) tt;
  mret (default (IoOk None) r.1).

(** [check_for_existence]: each round has another checksum, and there are 65536. *)
Fixpoint existence_loop (fuel : nat) (dir : DirRawStream) (name : list Z) (want_dir : option bool)
    (gen : ShortNameGenerator) : M Fs (ioresult found_or_name) :=
  match fuel with
  | O => panic OutOfFuel
  | S fuel =>
      r ← find_entry_gen dir name want_dir (Some gen);
      match r with
      | (IoOk e, _) => ok (FoundEntry e)
      | (IoErr NotFound, g) =>
          let gen := default gen g in
          match generate gen with
          | IoOk n => ok (FreeName n)
          | IoErr _ => existence_loop fuel dir name want_dir (next_iteration gen)
          end
      | (IoErr e, _) => err e
      end
  end.
Definition check_for_existence (dir : DirRawStream) (name : list Z) (want_dir : option bool) :
    M Fs (ioresult found_or_name) :=
  existence_loop (Z.to_nat 65536) dir name want_dir (sng_new name).

Definition is_empty (dir : DirRawStream) : M Fs (ioresult bool) :=
  r ← for_entries dir true (λ (_ : unit) e,
        let n := short_file_name_as_bytes e in
        if bool_decide (n ≠ [0x2E] ∧ n ≠ [0x2E; 0x2E]) then inl (IoOk false) else inr tt) tt;
  mret (default (IoOk true) r.1).

(** ** Writing entries *)

Fixpoint find_free_loop (fuel : nat) (num_entries first_free num_free i : Z) :
    M (DirRawStream * Fs) (ioresult unit) :=
  match fuel with
  | O => panic OutOfFuel
  | S fuel =>
      raw_entry ←? entry_deserialize;
      if is_end raw_entry then
        let first_free := if num_free =? 0 then i else first_free in
        p ← lift (u64 (first_free * DIR_ENTRY_SIZE));
        s_seek (SeekStart p) ?; ok tt
      else if is_deleted raw_entry then
        let first_free := if num_free =? 0 then i else first_free in
        num_free ← lift (uadd num_free 1);
        if num_free =? num_entries then
          p ← lift (u64 (first_free * DIR_ENTRY_SIZE));
          s_seek (SeekStart p) ?; ok tt
        else
          i ← lift (ichk 32 (i + 1));
          find_free_loop fuel num_entries first_free num_free i
      else
        i ← lift (ichk 32 (i + 1));
        find_free_loop fuel num_entries first_free 0 i
  end.
(** [find_free_entries] leaves the stream where the new entries go. *)
Definition find_free_entries (num_entries : Z) : M (DirRawStream * Fs) (ioresult unit) :=
  s ← get;
  find_free_loop (dir_fuel s.2) num_entries 0 0 0.

Definition create_sfn_entry (fs : Fs) (sn : list Z) (a : Z) (first : option Z) : exec DirFileEntryData :=
  let raw_entry := dfe_set_first_cluster (dfe_new sn a) first (fat_type fs) in
  now ← tp_date_time (time_provider (options fs));
  raw_entry ← dfe_set_created raw_entry now;
  raw_entry ← dfe_set_accessed raw_entry (date now);
  dfe_set_modified raw_entry now.

(** [alloc_and_write_lfn_entries]: the position of the first entry written *)
Definition alloc_and_write_lfn_entries (units : list Z) (sn : list Z) : M (DirRawStream * Fs) (ioresult Z) :=
  let lfn_iter := leg_new units (lfn_checksum sn) in
  let num_entries := Z.of_nat (leg_len lfn_iter) + 1 in
  find_free_entries num_entries ?;
  start_pos ←? s_seek (SeekCurrent 0);
  es ← lift (lfn_entries units (lfn_checksum sn));
  try_each es lfn_serialize ?;
  ok start_pos.

Definition write_entry (dir : DirRawStream) (n : list Z) (raw_entry : DirFileEntryData) : M Fs (ioresult DirEntry) :=
  match validate_long_name n with
  | IoErr e => err e
  | IoOk _ =>
      with_stream dir (
        let units := encode_utf16 n in
        start_pos ←? alloc_and_write_lfn_entries units (name raw_entry);
        dfe_serialize raw_entry ?;
        end_pos ←? s_seek (SeekCurrent 0);
        pos ← entry_abs_pos;
        ok {| de_data := raw_entry; de_short_name := sn_new (name raw_entry); lfn_utf16 := units;
              entry_pos := pos; offset_range := (start_pos, end_pos) |})
  end.

(** [for _ in 0..num { .. }]: marks the entries from the stream's position on as deleted *)
Fixpoint delete_entries (num : nat) : M (DirRawStream * Fs) (ioresult unit) :=
  match num with
  | O => ok tt
  | S num =>
      data ←? entry_deserialize;
      s_seek (SeekCurrent (- DIR_ENTRY_SIZE)) ?;
      entry_serialize (set_deleted data) ?;
      delete_entries num
  end.
(** The long and short entries of [e] *)
Definition free_entries (dir : DirRawStream) (e : DirEntry) : M Fs (ioresult unit) :=
  with_stream dir (
    s_seek (SeekStart (offset_range e).1) ?;
    num ← lift (u64 ((offset_range e).2 - (offset_range e).1));
    delete_entries (Z.to_nat (num `div` DIR_ENTRY_SIZE))).

(** ** Operations on paths

    A [Dir] that is a temporary is dropped after the call on it.  The recursion is
    on the path, whose rest is shorter. *)
Definition in_dir {A} (dir : DirRawStream) (m : M Fs A) : M Fs A :=
  a ← m; raw_drop dir ;; mret a.

Fixpoint open_dir_rec (fuel : nat) (dir : DirRawStream) (path : list Z) : M Fs (ioresult DirRawStream) :=
  match fuel with
  | O => panic OutOfFuel
  | S fuel =>
      let '(n, rest_opt) := split_path path in
      e ←? find_entry dir n (Some true);
      fs ← get;
      sub ← lift (to_dir e fs);
      match rest_opt with
      | Some rest => in_dir sub (open_dir_rec fuel sub rest)
      | None => ok sub
      end
  end.
Definition open_dir (dir : DirRawStream) (path : list Z) : M Fs (ioresult DirRawStream) :=
  open_dir_rec (S (length path)) dir path.

(** The parent directory of the last component of a path, and what is done there *)
Fixpoint in_parent {A} (fuel : nat) (dir : DirRawStream) (path : list Z)
    (last_step : DirRawStream → list Z → M Fs (ioresult A)) : M Fs (ioresult A) :=
  match fuel with
  | O => panic OutOfFuel
  | S fuel =>
      let '(n, rest_opt) := split_path path in
      match rest_opt with
      | Some rest =>
          e ←? find_entry dir n (Some true);
          fs ← get;
          sub ← lift (to_dir e fs);
          in_dir sub (in_parent fuel sub rest last_step)
      | None => last_step dir n
      end
  end.

Definition open_file (dir : DirRawStream) (path : list Z) : M Fs (ioresult File) :=
  in_parent (S (length path)) dir path (λ dir n,
    e ←? find_entry dir n (Some false);
    fs ← get;
    f ← lift (to_file e (fat_type fs));
    ok f).

Definition create_file (dir : DirRawStream) (path : list Z) : M Fs (ioresult File) :=
  in_parent (S (length path)) dir path (λ dir n,
    r ←? check_for_existence dir n (Some false);
    fs ← get;
    match r with
    | FreeName sn =>
        sfn_entry ← lift (create_sfn_entry fs sn (attrs_truncate 0) None);
        e ←? write_entry dir n sfn_entry;
        f ← lift (to_file e (fat_type fs));
        ok f
    | FoundEntry e => f ← lift (to_file e (fat_type fs)); ok f
    end).

(** A [Dir] that is returned unless [m] fails *)
Definition keep_dir (dir : DirRawStream) (m : M Fs (ioresult unit)) : M Fs (ioresult DirRawStream) :=
  r ← m;
  match r with IoOk _ => ok dir | IoErr e => raw_drop dir ;; err e end.

Definition create_dir (dir : DirRawStream) (path : list Z) : M Fs (ioresult DirRawStream) :=
  in_parent (S (length path)) dir path (λ dir n,
    r ←? check_for_existence dir n (Some true);
    match r with
    | FreeName sn =>
        cluster ←? fs_alloc_cluster None true;
        fs ← get;
        sfn_entry ← lift (create_sfn_entry fs sn DIRECTORY (Some cluster));
        e ←? write_entry dir n sfn_entry;
        fs ← get;
        sub ← lift (to_dir e fs);
        keep_dir sub (
          dot ← lift (create_sfn_entry fs generate_dot DIRECTORY (de_first_cluster e (fat_type fs)));
          write_entry sub [0x2E] dot ?;
          dotdot ← lift (create_sfn_entry fs generate_dotdot DIRECTORY (raw_first_cluster dir));
          write_entry sub [0x2E; 0x2E] dotdot ?;
          ok tt)
    | FoundEntry e => fs ← get; sub ← lift (to_dir e fs); ok sub
    end).

Definition remove (dir : DirRawStream) (path : list Z) : M Fs (ioresult unit) :=
  in_parent (S (length path)) dir path (λ dir n,
    e ←? find_entry dir n None;
    fs ← get;
    empty ←? (if de_is_dir e then sub ← lift (to_dir e fs); in_dir sub (is_empty sub) else ok true);
    if negb empty then err OtherError
    else
      match de_first_cluster e (fat_type fs) with
      | Some n => free_cluster_chain n
      | None => ok tt
      end ?;
      free_entries dir e).

Definition rename_internal (dir : DirRawStream) (src_name : list Z) (dst_dir : DirRawStream) (dst_name : list Z) :
    M Fs (ioresult unit) :=
  e ←? find_entry dir src_name None;
  r ←? check_for_existence dst_dir dst_name None;
  match r with
  | FoundEntry dst_e => if is_same_entry e dst_e then ok tt else err AlreadyExists
  | FreeName sn =>
      free_entries dir e ?;
      write_entry dst_dir dst_name (renamed (de_data e) sn) ?;
      ok tt
  end.
(** [rename]: the source path first, then the destination path; the last step gets
    the paths, not their last components. *)
Fixpoint rename_dst (fuel : nat) (dir : DirRawStream) (src_path : list Z) (dst_dir : DirRawStream)
    (dst_path : list Z) : M Fs (ioresult unit) :=
  match fuel with
  | O => panic OutOfFuel
  | S fuel =>
      let '(n, rest_opt) := split_path dst_path in
      match rest_opt with
      | Some rest =>
          e ←? find_entry dst_dir n (Some true);
          fs ← get;
          sub ← lift (to_dir e fs);
          in_dir sub (rename_dst fuel dir src_path sub rest)
      | None => rename_internal dir src_path dst_dir dst_path
      end
  end.
Fixpoint rename_src (fuel : nat) (dir : DirRawStream) (src_path : list Z) (dst_dir : DirRawStream)
    (dst_path : list Z) : M Fs (ioresult unit) :=
  match fuel with
  | O => panic OutOfFuel
  | S fuel =>
      let '(n, rest_opt) := split_path src_path in
      match rest_opt with
      | Some rest =>
          e ←? find_entry dir n (Some true);
          fs ← get;
          sub ← lift (to_dir e fs);
          in_dir sub (rename_src fuel sub rest dst_dir dst_path)
      | None => rename_dst (S (length dst_path)) dir src_path dst_dir dst_path
      end
  end.
Definition rename (dir : DirRawStream) (src_path : list Z) (dst_dir : DirRawStream) (dst_path : list Z) :
    M Fs (ioresult unit) :=
  rename_src (S (length src_path)) dir src_path dst_dir dst_path.

(** [FileSystem::read_volume_label_from_root_dir] *)
Definition read_volume_label_from_root_dir_as_bytes : M Fs (ioresult (option (list Z))) :=
  fs ← get;
  root ← lift (root_dir fs);
  e ←? in_dir root (find_volume_entry root);
  ok ((λ e, name (de_data e)) <$> e).
Definition read_volume_label_from_root_dir : M Fs (ioresult (option (list Z))) :=
  fs ← get;
  l ←? read_volume_label_from_root_dir_as_bytes;
  ok ((λ l, oem_decode (oem_cp_converter (options fs)) <$> strip_padding l) <$> l).
End dir.
