(* ===== verification/DirRep.v ===== *)
(** * A directory is a list of entries

    The root directory of a FAT32 volume is a file without an entry; here it is a stream of bytes ([root_stream]), its bytes are entries of
    fatfs/src/dir_entry.rs, and reading it (fatfs/src/dir.rs) is reading a list. *)

From S2P Require Import Prelude Io FatIo FatBits FatTime BootSector FatTable FatFs FatSlice FatVolume DirEntry FatName FatFile FileRep FileWrite FatDir.

(** Flushing leaves the bytes and the position. *)
Class FlushKeeps (D : Type) `{ByteStream D} : Prop := {
  flush_keeps d bs pos : stream_rep d bs pos → ∃ r d', s_flush d = Ok (r, d') ∧ stream_rep d' bs pos;
}.
#[export] Instance memfile_flush : FlushKeeps memfile.
Proof. split. intros d bs pos H. by exists (IoOk tt), d. Qed.

Section stays.
Context {D : Type} `{!Stream D}.
Abbreviation Fs := (FileSystem D).

(** A file without an entry stays one. *)
Definition stays {R} (m : M (File * Fs) R) : Prop := ∀ s r s', entry s.1 = None → m s = Ok (r, s') → entry s'.1 = None.
Lemma stays_bind {A B} (m : M (File * Fs) A) (k : A → M (File * Fs) B) : stays m → (∀ a, stays (k a)) → stays (a ← m; k a).
Proof. intros Hm Hk s r s' H0 (a & s1 & H1 & H2)%M_bind_Ok. apply (Hk a s1 r s'); [by apply (Hm s a s1)|done]. Qed.
Lemma stays_get {B} (k : File * Fs → M (File * Fs) B) : (∀ s, entry s.1 = None → stays (k s)) → stays (s ← get; k s).
Proof. intros Hk s r s' H0 H. by apply (Hk s H0 s r s'). Qed.
Lemma stays_self {B} (k : File → M (File * Fs) B) : (∀ f, entry f = None → stays (k f)) → stays (f ← self; k f).
Proof. intros Hk s r s' H0 H. by apply (Hk s.1 H0 s r s'). Qed.
Lemma stays_try {A B} (m : M (File * Fs) (ioresult A)) (k : A → M (File * Fs) (ioresult B)) : stays m → (∀ a, stays (k a)) → stays (a ←? m; k a).
Proof. intros Hm Hk. apply stays_bind; [done|]. intros [a|e]; [done|]. by intros s r s' H0 [= _ <-]. Qed.
Lemma stays_ret {A} (a : A) : stays (mret a).
Proof. by intros s r s' H0 [= _ <-]. Qed.
Lemma stays_lift {A} (e : exec A) : stays (lift e).
Proof. intros s r s' H0. unfold lift. destruct e; [|done]. by intros [= _ <-]. Qed.
Lemma stays_panic {A} e : stays (panic e : M _ A).
Proof. done. Qed.
Lemma stays_on_fs {A} (m : M Fs A) : stays (on_fs m).
Proof. intros s r s' H0. unfold on_fs. destruct (m s.2) as [[a fs]|]; [|done]. by intros [= _ <-]. Qed.
Lemma stays_set f : entry f = None → stays (set_self f).
Proof. by intros Hf s r s' H0 [= _ <-]. Qed.
Lemma stays_edit g : stays (edit g).
Proof. unfold edit. apply stays_self. intros f ->. apply stays_ret. Qed.
End stays.
Create HintDb stays.
#[export] Hint Resolve stays_ret stays_lift stays_panic stays_on_fs stays_set stays_edit : stays.
Ltac stays_step :=
  match goal with
  | |- ∀ _, _ => intro
  | |- stays (get ≫= _) => apply stays_get
  | |- stays (self ≫= _) => apply stays_self
  | |- stays (_ ≫= _) => apply stays_bind
  | |- stays (try _ _) => apply stays_try
  | |- stays (match ?x with _ => _ end) => destruct x
  | |- stays _ => solve [auto with stays]
  end.

Section stays_file.
Context {D : Type} `{!Stream D}.
Lemma stays_following : stays (D := D) following_cluster.
Proof. unfold following_cluster, ok, err. repeat stays_step. Qed.
#[local] Hint Resolve stays_following : stays.
Lemma stays_read n : stays (D := D) (file_read n).
Proof. unfold file_read, ok, err. repeat stays_step. Qed.
Lemma set_first_none f c t : entry f = None → entry (set_first_cluster f c t) = None.
Proof. intros H. unfold set_first_cluster. cbn. by rewrite H. Qed.
#[local] Hint Resolve set_first_none : stays.
Lemma stays_write buf : stays (D := D) (file_write buf).
Proof.
  unfold file_write, cluster_for_write, update_dir_entry_after_write, ok, err. repeat stays_step.
Qed.
Lemma stays_seek w : stays (D := D) (file_seek w).
Proof. unfold file_seek, ok, err. repeat stays_step. Qed.
End stays_file.

(** ** The root directory as a stream *)

Section root.
Context {D : Type} `{!Stream D, !ByteStream D, !WholeWrites D}.
Abbreviation Fs := (FileSystem D).
(** The volume at the start: [l] is the chain of the directory. *)
Context (fs0 : Fs) (A tab B0 l : list Z).

(** The directory is open, holds [bs] and stands at [pos]; no other cluster has changed. *)
Record root_on (s : DirRawStream * Fs) (f : File) (B : list Z) (bs : list Z) (pos : Z) : Prop := {
  ro_file : s.1 = StreamFile f;
  ro_on : file_on s.2 A tab B l f bs pos;
  ro_entry : entry f = None;
  ro_volume : same_volume fs0 s.2;
  ro_max : Z.of_nat (length bs) + cluster_bytes fs0 ≤ MAX_FILE_SIZE;
  ro_frame c : live (fs_total_clusters fs0) c → c ∉ l → cluster_data fs0 A tab B c = cluster_data fs0 A tab B0 c;
}.
Definition root_rep (s : DirRawStream * Fs) (bs : list Z) (pos : Z) : Prop := ∃ f B, root_on s f B bs pos.

Lemma root_moved s f B bs pos f' fs' pos' : root_on s f B bs pos → file_on fs' A tab B l f' bs pos' → same_volume s.2 fs' → entry f' = None →
  root_on (StreamFile f', fs') f' B bs pos'.
Proof. intros [H1 H2 H3 H4 H5 H6] Hf Hs He. split; cbn; try done. by apply (same_volume_trans _ s.2). Qed.
Lemma on_root {R} (mf : M (File * Fs) R) mr s f r f' fs' : s.1 = StreamFile f → mf (f, s.2) = Ok (r, (f', fs')) → with_raw mf mr s = Ok (r, (StreamFile f', fs')).
Proof. intros E H. unfold with_raw. by rewrite E, H. Qed.

Lemma root_seek s bs pos w t : root_rep s bs pos → 0 ≤ t ≤ Z.of_nat (length bs) → match w with SeekStart x => x = t | SeekCurrent x => pos + x = t | SeekEnd _ => False end →
  ∃ s', s_seek w s = Ok (IoOk t, s') ∧ root_rep s' bs t.
Proof.
  intros (f & B & Hr) Ht Hw. pose proof Hr as [H1 H2 H3 H4 H5 H6]. unfold MAX_FILE_SIZE in *. destruct (fo_pos _ _ _ _ _ _ _ _ H2) as [Hp _].
  destruct (cluster_bytes_pos _ _ _ _ _ (fo_chain _ _ _ _ _ _ _ _ H2)) as [Hcs _].
  assert (cluster_bytes s.2 = cluster_bytes fs0) as Ecs by (destruct (geometry_same fs0 s.2 A tab 0 B H4) as (E & _); done).
  destruct (file_seek_spec s.2 A tab B l f bs pos w t t H2) as (f' & fs' & Hs & Hf & Hv).
  - split; [lia|]. destruct w; [done|done|by rewrite Hp].
  - unfold file_size. by rewrite H3.
  - lia.
  - exists (StreamFile f', fs'). split; [by apply (on_root _ _ s f)|]. exists f', B. apply (root_moved s f B bs pos); try done. by apply (stays_seek w (f, s.2) _ _ H3 Hs).
Qed.
Lemma root_read s bs pos n : root_rep s bs pos → 0 ≤ n → ∃ (k : nat) s', s_read n s = Ok (IoOk (take k (drop (Z.to_nat pos) bs)), s') ∧
  root_rep s' bs (pos + Z.of_nat k) ∧ Z.of_nat k ≤ n ∧ Z.of_nat k ≤ Z.max 0 (Z.of_nat (length bs) - pos) ∧ (0 < n → pos < Z.of_nat (length bs) → (0 < k)%nat).
Proof.
  intros (f & B & Hr) Hn. pose proof Hr as [H1 H2 H3 H4 H5 H6]. destruct (file_read_spec s.2 A tab B l f bs pos n H2 Hn) as (k & f' & fs' & Hd & Hf & Hv & Hk).
  exists k, (StreamFile f', fs'). split; [by apply (on_root _ _ s f)|]. split; [|done]. exists f', B. apply (root_moved s f B bs pos); try done.
  by apply (stays_read n (f, s.2) _ _ H3 Hd).
Qed.
Lemma write_nothing (fs : Fs) B f bs pos : file_on fs A tab B l f bs pos → file_write [] (f, fs) = Ok (IoOk 0, (f, fs)).
Proof.
  intros Hf. pose proof (fo_chain _ _ _ _ _ _ _ _ Hf) as Hc. destruct (fo_pos _ _ _ _ _ _ _ _ Hf) as [Ho Hp]. pose proof (fo_max _ _ _ _ _ _ _ _ Hf) as Hm.
  destruct (cluster_bytes_pos _ _ _ _ _ Hc) as [Hcs Ecs]. pose proof (Z.mod_pos_bound pos (cluster_bytes fs) ltac:(lia)) as Hmb. unfold MAX_FILE_SIZE in Hm.
  unfold file_write. run_refl. cbn [fst snd]. rewrite Ecs, Ho. run_refl. unfold urem. rewrite (proj2 (Z.eqb_neq _ 0)) by lia. run_refl.
  rewrite (chk_in 32 (cluster_bytes fs - _)) by lia. run_refl. unfold MAX_FILE_SIZE. rewrite chk_in by lia. run_refl. cbv zeta. rewrite (proj2 (Z.eqb_eq _ 0)) by (cbn [length]; lia). done.
Qed.
Lemma root_size s f B bs pos : root_on s f B bs pos → Z.of_nat (length bs) = Z.of_nat (length l) * cluster_bytes fs0 ∧ 0 < cluster_bytes fs0 ∧ bs = content fs0 A tab B l.
Proof.
  intros [H1 H2 H3 H4 H5 H6]. pose proof (fo_chain _ _ _ _ _ _ _ _ H2) as Hc. pose proof (geometry_same fs0 s.2 A tab 0 B H4) as (Ecs & _).
  destruct (cluster_bytes_pos _ _ _ _ _ Hc) as [Hcs _]. pose proof (length_content _ _ _ _ _ Hc) as Hlc. pose proof (fo_size _ _ _ _ _ _ _ _ H2) as Hsz.
  unfold file_size in Hsz. rewrite H3, Hlc, Ecs in Hsz. split; [done|]. split; [lia|]. rewrite <- (content_same fs0 s.2 A tab B l H4).
  destruct (fo_bytes _ _ _ _ _ _ _ _ H2) as [t Ht]. rewrite Ht in Hlc |- *. rewrite length_app in Hlc. rewrite Ecs in Hlc. assert (length t = 0%nat) as ->%length_zero_iff_nil by lia. by rewrite app_nil_r.
Qed.
Lemma root_write s bs pos buf : root_rep s bs pos → pos + Z.of_nat (length buf) ≤ Z.of_nat (length bs) → ∃ (k : nat) s', s_write buf s = Ok (IoOk (Z.of_nat k), s') ∧
  root_rep s' (splice pos (take k buf) bs) (pos + Z.of_nat k) ∧ (k ≤ length buf)%nat ∧ (buf ≠ [] → (0 < k)%nat).
Proof.
  intros (f & B & Hr) Hl. pose proof Hr as [H1 H2 H3 H4 H5 H6]. pose proof (fo_chain _ _ _ _ _ _ _ _ H2) as Hc. destruct (fo_pos _ _ _ _ _ _ _ _ H2) as [Ho Hp].
  pose proof (geometry_same fs0 s.2 A tab 0 B H4) as (Ecs & _). destruct (root_size s f B bs pos Hr) as (Hsz & Hcs & _). rewrite <- Ecs in *.
  destruct (decide (buf = [])) as [->|Hne].
  { exists 0%nat, s. rewrite splice_nil, Z.add_0_r. split; [|split; [by exists f, B|done]]. cbn. rewrite (on_root _ _ s f _ _ _ H1 (write_nothing _ _ _ _ _ H2)).
    destruct s; cbn in *; by subst. }
  assert (0 < Z.of_nat (length buf)) as Hb by (destruct buf; [done|cbn; lia]). unfold MAX_FILE_SIZE in H5.
  destruct (file_write_spec s.2 A tab B l f bs pos buf H2 Hb) as [(f' & fs' & tab' & B1 & B' & l' & bs1 & c & Hw & Hn & Hg & Hk & HB & Hf & Hv & _)|(Hend & _)];
    [unfold MAX_FILE_SIZE; lia|intros _; unfold MAX_FILE_SIZE; lia| |lia].
  set (n := write_len s.2 pos buf) in *. pose proof (Z.mod_pos_bound pos (cluster_bytes s.2) ltac:(lia)) as Hmb.
  assert (n ≤ Z.of_nat (length buf) ∧ pos `mod` cluster_bytes s.2 + n ≤ cluster_bytes s.2) as [Hnb Hon] by (unfold n, write_len; lia).
  pose proof (write_frame s.2 A tab B l f bs pos tab' B1 l' bs1 c (pos `mod` cluster_bytes s.2) (take (Z.to_nat n) buf) Hc Hg) as Hfr.
  destruct Hg as [(-> & -> & -> & ->)|(c0 & Hpos & _)]; [|lia].
  exists (Z.to_nat n), (StreamFile f', fs'). rewrite Z2Nat.id by lia. split; [by apply (on_root _ _ s f)|]. split; [|split; [lia|intros _; lia]].
  exists f', B'. split; cbn; try done.
  - by apply (stays_write buf (f, s.2) _ _ H3 Hw).
  - by apply (same_volume_trans _ s.2).
  - rewrite length_splice by (rewrite ?length_take; lia). rewrite <- Ecs. unfold MAX_FILE_SIZE. lia.
  - intros c' Hlv Hnin. pose proof H4 as (_ & _ & _ & _ & _ & Et & _). rewrite <- (H6 c' Hlv Hnin).
    destruct (geometry_same fs0 s.2 A tab c' B H4) as (_ & _ & <-), (geometry_same fs0 s.2 A tab c' B' H4) as (_ & _ & <-). rewrite HB.
    apply Hfr; [by eapply list_elem_of_lookup_2|lia|rewrite length_take; lia|by rewrite Et|done].
Qed.
Definition root_stream : ByteStream (DirRawStream * Fs).
Proof.
  refine {| stream_rep := root_rep; stream_read := root_read; stream_write := root_write |}.
  - intros s bs pos (f & B & [_ H2 _ _ _ _]). apply (fo_pos _ _ _ _ _ _ _ _ H2).
  - intros s bs pos pos' Hs Hp. by apply (root_seek s bs pos).
  - intros s bs pos Hs. pose proof Hs as (f & B & [_ H2 _ _ _ _]). apply (root_seek s bs pos); [done|apply (fo_pos _ _ _ _ _ _ _ _ H2)|lia].
Defined.
End root.

(** ** Entries in a stream *)

Definition dir_bytes (es : list DirEntryData) : list Z := concat (entry_bytes <$> es).
Lemma dir_bytes_app es1 es2 : dir_bytes (es1 ++ es2) = dir_bytes es1 ++ dir_bytes es2.
Proof. unfold dir_bytes. by rewrite fmap_app, concat_app. Qed.
Lemma length_dir_bytes es : Forall entry_wf es → length (dir_bytes es) = (32 * length es)%nat.
Proof. induction 1 as [|e es He _ IH]; [done|]. unfold dir_bytes in *. cbn [fmap list_fmap concat length]. rewrite length_app, IH, (length_entry_bytes e He). lia. Qed.
Lemma dir_bytes_drop es i : Forall entry_wf es → drop (32 * i) (dir_bytes es) = dir_bytes (drop i es).
Proof.
  intros Hw. destruct (decide (i ≤ length es)%nat); [|rewrite !drop_ge by (rewrite ?length_dir_bytes by done; lia); done].
  rewrite <- (take_drop i es) at 1. rewrite dir_bytes_app. apply drop_app_length'. rewrite length_dir_bytes by (by apply Forall_take). rewrite length_take. lia.
Qed.
(** One entry replaced *)
Lemma dir_bytes_insert es i e : Forall entry_wf es → entry_wf e → (i < length es)%nat →
  splice (32 * Z.of_nat i) (entry_bytes e) (dir_bytes es) = dir_bytes (<[i := e]> es).
Proof.
  intros Hw He Hi. pose proof (length_entry_bytes e He) as Hl. unfold splice. rewrite Hl. replace (Z.to_nat (32 * Z.of_nat i) + 32)%nat with (32 * S i)%nat by lia.
  replace (Z.to_nat (32 * Z.of_nat i)) with (32 * i)%nat by lia. rewrite dir_bytes_drop by done. rewrite insert_take_drop by done.
  rewrite dir_bytes_app. f_equal.
  rewrite <- (take_drop i es) at 1. rewrite dir_bytes_app. apply take_app_length'. rewrite length_dir_bytes by (by apply Forall_take). rewrite length_take. lia.
Qed.

Section entries.
Context {T : Type} `{!Stream T, !ByteStream T}.

Lemma read_exact_at_end (d : T) bs n : stream_rep d bs (Z.of_nat (length bs)) → 0 < n → ∃ d', read_exact n d = Ok (IoErr UnexpectedEof, d') ∧ stream_rep d' bs (Z.of_nat (length bs)).
Proof.
  intros Hd Hn. unfold read_exact. destruct (Z.to_nat n) as [|m] eqn:E; [lia|]. cbn [read_exact_loop]. rewrite (proj2 (Z.eqb_neq _ _)) by lia.
  destruct (stream_read d bs _ n Hd ltac:(lia)) as (k & d' & H & Hd' & _ & Hk & _). assert (k = 0%nat) as -> by lia. run H. rewrite Z.add_0_r in Hd'. by exists d'.
Qed.
(** The entry at [i], which is an empty one at the end *)
Lemma entry_read (d : T) es i : Forall entry_wf es → (i ≤ length es)%nat → stream_rep d (dir_bytes es) (32 * Z.of_nat i) →
  ∃ d', entry_deserialize d = Ok (IoOk (default (FileEntry dfe_default) (es !! i)), d') ∧ stream_rep d' (dir_bytes es) (32 * Z.of_nat (if decide (i < length es)%nat then S i else i)).
Proof.
  intros Hw Hi Hd. pose proof (length_dir_bytes es Hw) as Hl. case_decide as Hlt.
  - destruct (lookup_lt_is_Some_2 es i Hlt) as [e He]. rewrite He. cbn [default].
    destruct (entry_deserialize_spec e d (dir_bytes es) (32 * Z.of_nat i) (dir_bytes (drop (S i) es))) as (d' & H & Hd' & _).
    + by eapply Forall_lookup_1.
    + split; [done|]. split; [lia|]. replace (Z.to_nat (32 * Z.of_nat i)) with (32 * i)%nat by lia. rewrite dir_bytes_drop by done. by rewrite (drop_S _ _ _ He).
    + exists d'. split; [done|]. by replace (32 * Z.of_nat (S i)) with (32 * Z.of_nat i + 32) by lia.
  - assert (i = length es) as -> by lia. rewrite lookup_ge_None_2 by lia. cbn [default]. replace (32 * Z.of_nat (length es)) with (Z.of_nat (length (dir_bytes es))) in * by lia.
    destruct (read_exact_at_end d _ 11 Hd ltac:(lia)) as (d' & H & Hd'). exists d'. unfold entry_deserialize. by run H.
Qed.
Lemma entry_write (d : T) es i e : Forall entry_wf es → entry_wf e → (i < length es)%nat → stream_rep d (dir_bytes es) (32 * Z.of_nat i) →
  ∃ d', entry_serialize e d = Ok (IoOk tt, d') ∧ stream_rep d' (dir_bytes (<[i := e]> es)) (32 * Z.of_nat (S i)).
Proof.
  intros Hw He Hi Hd. pose proof (length_dir_bytes es Hw) as Hl. destruct (entry_serialize_spec e d (dir_bytes es) (32 * Z.of_nat i) He ltac:(lia) Hd) as (d' & H & Hd').
  exists d'. split; [done|]. rewrite dir_bytes_insert in Hd' by done. by replace (32 * Z.of_nat (S i)) with (32 * Z.of_nat i + 32) by lia.
Qed.
End entries.
