(* ===== verification/DirList.v ===== *)
(** * Reading a directory is reading a list

    [listing] is the list of the entries that the iterator of fatfs/src/dir.rs yields on a directory that holds the raw entries [es]; the
    loops over a directory are folds over it.  Writing a name into free slots, and marking the slots of a name as deleted, insert and delete in the
    list.  The lemmas on loops hold for every stream that knows where it is on the disk ([DirStream]). *)

From S2P Require Import Prelude Io FatIo FatBits FatTime BootSector FatTable FatFs DirEntry FatName FatFile FatDir DirRep.

(** What a directory's stream promises beside its bytes: the position on the disk of what was just read or written *)
Class DirStream (D : Type) `{!Stream D} `{!ByteStream (DirRawStream * FileSystem D)} := {
  disk_pos : Z → Z;
  disk_pos_spec (s : DirRawStream * FileSystem D) bs pos : stream_rep s bs pos → 0 < pos → raw_abs_pos s = Ok (Some (disk_pos pos), s) ∧ 32 ≤ disk_pos pos < 2 ^ 64;
  dir_back (s : DirRawStream * FileSystem D) bs pos : stream_rep s bs pos → 32 ≤ pos ≤ Z.of_nat (length bs) →
    ∃ s', s_seek (SeekCurrent (- 32)) s = Ok (IoOk (pos - 32), s') ∧ stream_rep s' bs (pos - 32);
  dir_max (s : DirRawStream * FileSystem D) bs pos : stream_rep s bs pos → Z.of_nat (length bs) < 2 ^ 32;
}.

(** ** The list of a directory *)

Definition lnb_step (b : LongNameBuilder) (data : DirLfnEntryData) : LongNameBuilder :=
  match lnb_process b data with Ok b' => b' | Panic _ => b end.
Lemma lnb_step_ok b data : lfn_entry_wf data → lnb_wf b → lnb_process b data = Ok (lnb_step b data) ∧ lnb_wf (lnb_step b data).
Proof. intros He Hb. destruct (process_wf b data He Hb) as (b' & H & Hb'). unfold lnb_step. by rewrite H. Qed.
Lemma lnb_new_wf : lnb_wf lnb_new.
Proof. split; cbn; lia. Qed.
Lemma lnb_clear_wf b : lnb_wf (lnb_clear b).
Proof. split; cbn; lia. Qed.
#[local] Hint Resolve lnb_new_wf lnb_clear_wf : core.

Definition listed (at_ : Z → Z) (b : LongNameBuilder) (bg i : nat) (data : DirFileEntryData) : DirEntry :=
  {| de_data := data; de_short_name := sn_new (name data); lfn_utf16 := into_vec (validate_chksum b (name data));
     entry_pos := at_ (32 * Z.of_nat (S i)) - 32; offset_range := (32 * Z.of_nat bg, 32 * Z.of_nat (S i)) |}.

(** The entries of [es], the first of which is the [i]th of the directory; [b] is the long name so far, which began at [bg]. *)
Fixpoint listing (at_ : Z → Z) (skip : bool) (b : LongNameBuilder) (bg i : nat) (es : list DirEntryData) : list DirEntry :=
  match es with
  | [] => []
  | e :: es =>
      if is_end e then []
      else if should_ship_entry skip e then listing at_ skip (lnb_clear b) (S i) (S i) es
      else match e with
           | FileEntry data => listed at_ b bg i data :: listing at_ skip lnb_new (S i) (S i) es
           | LfnEntry data => listing at_ skip (lnb_step b data) bg (S i) es
           end
  end.

Lemma listing_ext (f g : Z → Z) skip es : (∀ p, f p = g p) → ∀ b bg i, listing f skip b bg i es = listing g skip b bg i es.
Proof.
  intros Hfg. induction es as [|e es IH]; intros b bg i; [done|]. cbn [listing]. unfold listed. rewrite Hfg. by repeat case_match; rewrite ?IH.
Qed.

(** A loop over a list whose body may return *)
Fixpoint run_body {A R} (body : A → DirEntry → ioresult R + A) (acc : A) (l : list DirEntry) : option (ioresult R) * A :=
  match l with
  | [] => (None, acc)
  | e :: l => match body acc e with inl r => (Some r, acc) | inr acc => run_body body acc l end
  end.

Section reading.
Context {D : Type} `{!Stream D} `{!ByteStream (DirRawStream * FileSystem D)} `{!DirStream D}.
Abbreviation Fs := (FileSystem D).
Context (es : list DirEntryData) (Hes : Forall entry_wf es).

Lemma dir_len (s : DirRawStream * Fs) pos : stream_rep s (dir_bytes es) pos → 32 * Z.of_nat (length es) < 2 ^ 32.
Proof using Hes DirStream0. intros Hs. pose proof (dir_max s _ _ Hs) as H. rewrite length_dir_bytes in H by done. lia. Qed.

Lemma read_loop_spec skip fuel : ∀ (s : DirRawStream * Fs) i b bg, stream_rep s (dir_bytes es) (32 * Z.of_nat i) → lnb_wf b →
  (i ≤ length es)%nat → (length es - i < fuel)%nat →
  ∃ s' (j : nat), read_dir_entry_loop fuel skip b (32 * Z.of_nat bg) (32 * Z.of_nat i) s = Ok (IoOk (head (listing disk_pos skip b bg i (drop i es))), s') ∧
    stream_rep s' (dir_bytes es) (32 * Z.of_nat j) ∧ (j ≤ length es)%nat ∧
    (listing disk_pos skip b bg i (drop i es) ≠ [] → (i < j)%nat ∧ tail (listing disk_pos skip b bg i (drop i es)) = listing disk_pos skip lnb_new j j (drop j es)).
Proof using Hes DirStream0.
  induction fuel as [|fuel IH]; intros s i b bg Hs Hb Hi Hf; [lia|]. pose proof (dir_len s _ Hs) as Hm. cbn [read_dir_entry_loop].
  destruct (entry_read s es i Hes Hi Hs) as (s1 & H1 & Hs1). rewrite (try_ok _ _ _ _ _ H1). clear H1.
  unfold DIR_ENTRY_SIZE. rewrite (M_bind_eq _ _ _ _ _ (lift_chk 64 (32 * Z.of_nat i + 32) s1 ltac:(lia))).
  case_decide as Hlt.
  2:{ rewrite lookup_ge_None_2, drop_ge by lia. cbn [default]. change (is_end (FileEntry dfe_default)) with true.
      exists s1, i. by split_and!. }
  destruct (lookup_lt_is_Some_2 es i Hlt) as [e He]. rewrite He. change (default (FileEntry dfe_default) (Some e)) with e. rewrite (drop_S _ _ _ He). cbn [listing].
  assert (entry_wf e) as Hwe by (by eapply Forall_lookup_1). destruct (is_end e); [exists s1, (S i); split_and!; [reflexivity|exact Hs1|lia|]; by intros []|].
  replace (32 * Z.of_nat i + 32) with (32 * Z.of_nat (S i)) by lia.
  destruct (should_ship_entry skip e).
  { destruct (IH s1 (S i) (lnb_clear b) (S i) Hs1) as (s' & j & H & Hs' & Hj & Ht); [done|lia|lia|].
    exists s', j. split_and!; try done. intros Hne. destruct (Ht Hne). split; [lia|done]. }
  destruct e as [data|data].
  - destruct (disk_pos_spec s1 _ _ Hs1 ltac:(lia)) as [Hp Hr]. run Hp. cbn [mbind exec_bind lift].
    rewrite chk_in by lia. run_refl. cbv zeta. run_refl. exists s1, (S i). split_and!; [done|done|lia|]. intros _. split; [lia|done].
  - destruct (lnb_step_ok b data Hwe Hb) as [Hp Hb']. rewrite Hp. run_refl.
    destruct (IH s1 (S i) (lnb_step b data) bg Hs1) as (s' & j & H & Hs' & Hj & Ht); [done|lia|lia|].
    exists s', j. split_and!; try done. intros Hne. destruct (Ht Hne). split; [lia|done].
Qed.
Lemma iterate_spec {A R} skip (body : A → DirEntry → ioresult R + A) fuel : ∀ (s : DirRawStream * Fs) i acc, stream_rep s (dir_bytes es) (32 * Z.of_nat i) →
  (i ≤ length es)%nat → (length es - i < fuel)%nat →
  ∃ s' pos, iterate fuel skip body acc s = Ok (run_body body acc (listing disk_pos skip lnb_new i i (drop i es)), s') ∧ stream_rep s' (dir_bytes es) pos.
Proof using Hes DirStream0.
  induction fuel as [|fuel IH]; intros s i acc Hs Hi Hf; [lia|]. cbn [iterate]. unfold read_dir_entry.
  destruct (stream_tell s _ _ Hs) as (s1 & H1 & Hs1).
  destruct (read_loop_spec skip (S fuel) s1 i lnb_new i Hs1 lnb_new_wf Hi Hf) as (s2 & j & H2 & Hs2 & Hj & Ht).
  erewrite M_bind_eq; [|rewrite (try_ok _ _ _ _ _ H1); exact H2].
  destruct (listing disk_pos skip lnb_new i i (drop i es)) as [|e l]; cbn [head run_body]; [by exists s2, (32 * Z.of_nat j)|].
  destruct (Ht ltac:(done)) as [Hij El]. cbn [tail] in El. destruct (body acc e) as [r|acc']; [by exists s2, (32 * Z.of_nat j)|].
  rewrite El. apply IH; [done|done|lia].
Qed.
End reading.

(** * Inserting and deleting in the list *)

(** After the first end entry there are only end entries. *)
Fixpoint clean (es : list DirEntryData) : Prop :=
  match es with
  | [] => True
  | e :: es => if is_end e then Forall (λ e, is_end e = true) es else clean es
  end.
Abbreviation goes_on := (λ e : DirEntryData, is_end e = false).
Lemma clean_app es1 es2 : Forall goes_on es1 → clean (es1 ++ es2) ↔ clean es2.
Proof. induction 1 as [|e es1 He _ IH]; [done|]. cbn [app clean]. by rewrite He. Qed.
Lemma ends_clean es : Forall (λ e, is_end e = true) es → clean es.
Proof. destruct 1 as [|e es He H]; [done|]. cbn [clean]. by rewrite He. Qed.

(** The slots from the first end entry on *)
Fixpoint end_room (es : list DirEntryData) : nat :=
  match es with
  | [] => 0
  | e :: es => if is_end e then S (length es) else end_room es
  end.
Lemma end_room_app es1 es2 : Forall goes_on es1 → end_room (es1 ++ es2) = end_room es2.
Proof. induction 1 as [|e es1 He _ IH]; [done|]. cbn [app end_room]. by rewrite He. Qed.
Lemma end_room_le es : (end_room es ≤ length es)%nat.
Proof. induction es as [|e es IH]; [done|]. cbn [end_room length]. destruct (is_end e); lia. Qed.

(** An entry that the iterator does not skip *)
Definition shown (skip : bool) (e : DirEntryData) : Prop := is_end e = false ∧ should_ship_entry skip e = false.
(** A builder without a name *)
Definition idle (b : LongNameBuilder) : Prop := index b = 0 ∧ buf b = [].
Lemma idle_new : idle lnb_new.
Proof. done. Qed.
Lemma idle_clear b : idle (lnb_clear b).
Proof. done. Qed.
#[export] Hint Resolve idle_new idle_clear : core.

Lemma idle_step b b' data : idle b → idle b' → lnb_step b data = lnb_step b' data ∨ (idle (lnb_step b data) ∧ idle (lnb_step b' data)).
Proof.
  intros [Hi Hb] [Hi' Hb']. unfold lnb_step, lnb_process. destruct (Z.land (order data) 31 =? 0); [by right|].
  destruct (negb _); [rewrite Hb, Hb'; destruct (copy_part _ _ _); [by left|by right]|]. rewrite Hi, Hi'. by right.
Qed.
Lemma idle_listed at_ b b' bg i data : idle b → idle b' → listed at_ b bg i data = listed at_ b' bg i data.
Proof. intros [Hi Hb] [Hi' Hb']. unfold listed, validate_chksum, into_vec, lnb_is_empty. rewrite Hi, Hi'. cbn. by rewrite Hi, Hi', Hb, Hb'. Qed.
Lemma listing_idle at_ skip es : ∀ b b' bg i, idle b → idle b' → listing at_ skip b bg i es = listing at_ skip b' bg i es.
Proof.
  induction es as [|e es IH]; intros b b' bg i Hb Hb'; [done|]. cbn [listing]. destruct (is_end e); [done|]. destruct (should_ship_entry skip e); [by apply IH|].
  destruct e as [data|data]; [by rewrite (idle_listed at_ b b')|]. destruct (idle_step b b' data Hb Hb') as [->|[]]; [done|by apply IH].
Qed.

(** ** Runs of entries *)

Lemma listing_prefix at_ skip pre : Forall goes_on pre → ∀ b bg i, (bg ≤ i)%nat → lnb_wf b → Forall entry_wf pre →
  ∃ b' bg' l1, (bg ≤ bg' ≤ i + length pre)%nat ∧ lnb_wf b' ∧ ∀ tl, listing at_ skip b bg i (pre ++ tl) = l1 ++ listing at_ skip b' bg' (i + length pre) tl.
Proof.
  induction 1 as [|e pre He _ IH]; intros b bg i Hbg Hb Hw.
  { exists b, bg, []. split; [cbn; lia|]. split; [done|]. intros tl. by rewrite Nat.add_0_r. }
  inversion_clear Hw as [|? ? Hwe Hwp]. cbn [app listing length]. rewrite He. replace (i + S (length pre))%nat with (S i + length pre)%nat by lia.
  destruct (should_ship_entry skip e).
  { destruct (IH (lnb_clear b) (S i) (S i)) as (b' & bg' & l1 & H1 & H2 & H3); [lia|split; cbn; lia|done|]. exists b', bg', l1. split_and!; try done; lia. }
  destruct e as [data|data].
  - destruct (IH lnb_new (S i) (S i)) as (b' & bg' & l1 & H1 & H2 & H3); [lia|split; cbn; lia|done|]. exists b', bg', (listed at_ b bg i data :: l1).
    split_and!; try done; [lia|lia|]. intros tl. cbn [app]. by rewrite <- H3.
  - destruct (IH (lnb_step b data) bg (S i)) as (b' & bg' & l1 & H1 & H2 & H3); [lia|by apply lnb_step_ok|done|]. exists b', bg', l1. split_and!; try done; lia.
Qed.
Lemma deleted_goes_on e : is_deleted e = true → is_end e = false.
Proof.
  destruct e as [f|d]; cbn.
  - unfold dfe_is_deleted, dfe_is_end. by intros ->%Z.eqb_eq.
  - unfold lfn_is_deleted, lfn_is_end. by intros ->%Z.eqb_eq.
Qed.
Lemma listing_deleted at_ skip ds : Forall (λ e, is_deleted e = true) ds → ∀ b bg i tl, ds ≠ [] →
  listing at_ skip b bg i (ds ++ tl) = listing at_ skip lnb_new (i + length ds) (i + length ds) tl.
Proof.
  induction 1 as [|e ds He Hds IH]; intros b bg i tl Hne; [done|]. cbn [app listing length]. rewrite (deleted_goes_on e He). unfold should_ship_entry at 1. rewrite He. cbn [orb].
  replace (i + S (length ds))%nat with (S i + length ds)%nat by lia. destruct ds as [|d ds]; [cbn [app length]; rewrite Nat.add_0_r; by apply listing_idle|]. by apply IH.
Qed.
Lemma listing_ends at_ skip es b bg i : Forall (λ e, is_end e = true) es → listing at_ skip b bg i es = [].
Proof. destruct 1 as [|e es He H]; [done|]. cbn. by rewrite He. Qed.
Lemma listing_lfns at_ skip lf : Forall (λ e, shown skip (LfnEntry e)) lf → ∀ b bg i tl,
  listing at_ skip b bg i ((LfnEntry <$> lf) ++ tl) = listing at_ skip (fold_left lnb_step lf b) bg (i + length lf) tl.
Proof.
  induction 1 as [|e lf [H1 H2] _ IH]; intros b bg i tl; [cbn; by rewrite Nat.add_0_r|]. cbn [fmap list_fmap app listing length fold_left]. rewrite H1, H2, IH.
  by replace (i + S (length lf))%nat with (S i + length lf)%nat by lia.
Qed.
Lemma listing_file at_ skip data b bg i tl : shown skip (FileEntry data) →
  listing at_ skip b bg i (FileEntry data :: tl) = listed at_ b bg i data :: listing at_ skip lnb_new (S i) (S i) tl.
Proof. intros [H1 H2]. cbn [listing]. by rewrite H1, H2. Qed.
Lemma listing_skipped at_ skip e b bg i tl : is_end e = false → should_ship_entry skip e = true →
  listing at_ skip b bg i (e :: tl) = listing at_ skip lnb_new (S i) (S i) tl.
Proof. intros H1 H2. cbn [listing]. rewrite H1, H2. by apply listing_idle. Qed.

(** ** Deleting an entry *)

(** The long-name entries in front *)
Lemma lfn_run skip es : ∃ lf rest, es = (LfnEntry <$> lf) ++ rest ∧ Forall (λ e, shown skip (LfnEntry e)) lf ∧
  match rest with LfnEntry d :: _ => is_end (LfnEntry d) = true ∨ should_ship_entry skip (LfnEntry d) = true | _ => True end.
Proof.
  induction es as [|e es (lf & rest & -> & Hlf & Hr)]; [by exists [], []|]. destruct e as [f|d]; [exists [], (FileEntry f :: (LfnEntry <$> lf) ++ rest); by split_and!|].
  destruct (is_end (LfnEntry d)) eqn:E1; [exists [], (LfnEntry d :: (LfnEntry <$> lf) ++ rest); split_and!; [done|done|by left]|].
  destruct (should_ship_entry skip (LfnEntry d)) eqn:E2; [exists [], (LfnEntry d :: (LfnEntry <$> lf) ++ rest); split_and!; [done|done|by right]|].
  exists (d :: lf), rest. split; [done|]. split; [|done]. constructor; [by split|done].
Qed.
Lemma shown_goes_on skip lf : Forall (λ e, shown skip (LfnEntry e)) lf → Forall goes_on (LfnEntry <$> lf).
Proof. intros H. apply Forall_fmap. eapply Forall_impl; [exact H|]. by intros e []. Qed.

(** Where an entry of the list comes from: its long-name entries [lf], and its own *)
Record from_slots at_ skip b i es (l1 : list DirEntry) (e : DirEntry) (l2 : list DirEntry) pre lf d post b0 : Prop := {
  fs_es : es = pre ++ (LfnEntry <$> lf) ++ FileEntry d :: post;
  fs_idle : idle b0;
  fs_on : Forall goes_on pre;
  fs_pre tl : listing at_ skip b i i (pre ++ tl) = l1 ++ listing at_ skip b0 (i + length pre) (i + length pre) tl;
  fs_lf : Forall (λ e, shown skip (LfnEntry e)) lf;
  fs_d : shown skip (FileEntry d);
  fs_e : e = listed at_ (fold_left lnb_step lf b0) (i + length pre) (i + length pre + length lf) d;
  fs_l2 : l2 = listing at_ skip lnb_new (S (i + length pre + length lf)) (S (i + length pre + length lf)) post;
}.
(** One more entry in front, whether listed (in [l0]) or skipped *)
Lemma from_slots_cons at_ skip b i es lf x l0 l1 e l2 pre lf' d post b0 :
  Forall (λ e, shown skip (LfnEntry e)) lf → is_end x = false →
  (∀ tl, listing at_ skip (fold_left lnb_step lf b) i (i + length lf) (x :: tl) = l0 ++ listing at_ skip lnb_new (S (i + length lf)) (S (i + length lf)) tl) →
  from_slots at_ skip lnb_new (S (i + length lf)) es l1 e l2 pre lf' d post b0 →
  from_slots at_ skip b i ((LfnEntry <$> lf) ++ x :: es) (l0 ++ l1) e l2 ((LfnEntry <$> lf) ++ x :: pre) lf' d post b0.
Proof.
  intros Hlf Hx Hl [H1 H2 H3 H4 H5 H6 H7 H8]. assert (i + length ((LfnEntry <$> lf) ++ x :: pre) = S (i + length lf) + length pre)%nat as El
    by (rewrite length_app, length_fmap; cbn; lia).
  split; try done; rewrite ?El; try done.
  - by rewrite <- app_assoc, H1.
  - apply Forall_app. split; [by apply (shown_goes_on skip)|by constructor].
  - intros tl. rewrite <- app_assoc, listing_lfns by done. cbn [app]. by rewrite Hl, H4, app_assoc.
Qed.
Lemma listing_split at_ skip : ∀ n es, length es = n → ∀ b i l1 e l2, idle b → listing at_ skip b i i es = l1 ++ e :: l2 →
  ∃ pre lf d post b0, from_slots at_ skip b i es l1 e l2 pre lf d post b0.
Proof.
  induction n as [n IH] using lt_wf_ind. intros es Hn b i l1 e l2 Hb Hl.
  destruct (lfn_run skip es) as (lf & rest & -> & Hlf & Hr). rewrite listing_lfns in Hl by done. rewrite length_app, length_fmap in Hn.
  destruct rest as [|x rest]; [by destruct l1|]. destruct (is_end x) eqn:Ex; [cbn [listing] in Hl; rewrite Ex in Hl; by destruct l1|]. cbn [length] in Hn.
  destruct (should_ship_entry skip x) eqn:Es.
  { rewrite listing_skipped in Hl by done. destruct (IH (length rest) ltac:(lia) rest eq_refl _ _ l1 e l2 idle_new Hl) as (pre & lf' & d & post & b0 & H).
    exists ((LfnEntry <$> lf) ++ x :: pre), lf', d, post, b0. apply (from_slots_cons at_ skip b i rest lf x [] l1); try done. intros tl. by rewrite listing_skipped. }
  destruct x as [d|d]; [|destruct Hr as [Hr|Hr]; by rewrite Hr in *]. assert (shown skip (FileEntry d)) as Hd by done. rewrite listing_file in Hl by done.
  destruct l1 as [|e1 l1]; injection Hl as He Hl.
  { exists [], lf, d, rest, b. split; try done; cbn [length]; rewrite ?Nat.add_0_r; try done. }
  destruct (IH (length rest) ltac:(lia) rest eq_refl _ _ l1 e l2 idle_new Hl) as (pre & lf' & d' & post & b0 & H).
  exists ((LfnEntry <$> lf) ++ FileEntry d :: pre), lf', d', post, b0. apply (from_slots_cons at_ skip b i rest lf (FileEntry d) [e1] l1); try done.
  intros tl. rewrite listing_file by done. by rewrite He.
Qed.

(** The entries from [i] on replaced by [news] *)
Definition put_entries (i : nat) (news es : list DirEntryData) : list DirEntryData := take i es ++ news ++ drop (i + length news) es.
Lemma set_deleted_deleted e : entry_wf e → is_deleted (set_deleted e) = true.
Proof.
  destruct e as [f|d]; cbn; [|done]. intros (Hn & _). unfold dfe_is_deleted, dfe_set_deleted, at0. cbn. by destruct (name f).
Qed.
Lemma set_deleted_wf e : entry_wf e → entry_wf (set_deleted e).
Proof.
  destruct e as [f|d]; cbn.
  - intros (Hn & H). split; [|done]. cbn. by rewrite length_insert.
  - intros (_ & H). split; [by cbn|done].
Qed.
(** The slots of an entry marked as deleted: the list is without it, and everything else is as it was. *)
Lemma listing_remove at_ skip es l1 e l2 : Forall entry_wf es → clean es → listing at_ skip lnb_new 0 0 es = l1 ++ e :: l2 →
  file_entry_wf (de_data e) ∧ shown skip (FileEntry (de_data e)) ∧
  ∃ i n, offset_range e = (32 * Z.of_nat i, 32 * Z.of_nat (i + n)) ∧ (i + n ≤ length es)%nat ∧
    let es' := put_entries i (set_deleted <$> take n (drop i es)) es in listing at_ skip lnb_new 0 0 es' = l1 ++ l2 ∧ clean es' ∧ Forall entry_wf es' ∧ end_room es' = end_room es.
Proof.
  intros Hw Hc Hl. destruct (listing_split at_ skip _ es eq_refl _ _ _ _ _ idle_new Hl) as (pre & lf & d & post & b0 & [-> Hb Hon Hpre Hlf Hd -> ->]).
  split; [rewrite !Forall_app, Forall_cons in Hw; apply Hw|]. split; [done|]. exists (length pre), (S (length lf)). cbn [offset_range listed Nat.add]. set (mid := (LfnEntry <$> lf) ++ [FileEntry d]).
  assert (length mid = S (length lf)) as Lm by (unfold mid; rewrite length_app, length_fmap; cbn; lia).
  replace ((LfnEntry <$> lf) ++ FileEntry d :: post) with (mid ++ post) in * by (unfold mid; by rewrite <- app_assoc).
  apply Forall_app in Hw as [Hw1 Hw2]. pose proof Hw2 as [Hwm Hwp]%Forall_app.
  split; [f_equal; lia|]. split; [rewrite !length_app; lia|]. rewrite drop_app_length, <- Lm, take_app_length. unfold put_entries. rewrite length_fmap, take_app_length.
  rewrite <- drop_drop, !drop_app_length.
  assert (Forall (λ e, is_deleted e = true) (set_deleted <$> mid)) as Hdel by (apply Forall_fmap; eapply Forall_impl; [exact Hwm|apply set_deleted_deleted]).
  assert (Forall goes_on (set_deleted <$> mid)) as Hdon by (eapply Forall_impl; [exact Hdel|apply deleted_goes_on]).
  assert (Forall goes_on mid) as Hmon by (unfold mid; apply Forall_app; split; [by apply (shown_goes_on skip)|constructor; [apply Hd|done]]).
  cbv zeta. split_and!.
  - rewrite Hpre, listing_deleted; [|done|intros E%fmap_nil_inv; by rewrite E in Lm]. rewrite length_fmap, Lm. do 2 f_equal; lia.
  - rewrite !clean_app by done. by rewrite !clean_app in Hc by done.
  - apply Forall_app. split; [done|]. apply Forall_app. split; [|done]. apply Forall_fmap. eapply Forall_impl; [exact Hwm|apply set_deleted_wf].
  - by rewrite !end_room_app by done.
Qed.

(** ** Inserting an entry *)

(** Where [find_free_entries] stops: [i] entries are read, the last [k] of them are free and begin at [first]. *)
Fixpoint free_at (num : nat) (first k i : nat) (es : list DirEntryData) : nat :=
  match es with
  | [] => if (k =? 0)%nat then i else first
  | e :: es =>
      if is_end e then (if (k =? 0)%nat then i else first)
      else if is_deleted e then
        let first := if (k =? 0)%nat then i else first in
        if (S k =? num)%nat then first else free_at num first (S k) (S i) es
      else free_at num first 0 (S i) es
  end.
(** The slots at [p]: deleted entries, [num] of them or up to the end of the directory *)
Definition free_slots (num p : nat) (es : list DirEntryData) : Prop :=
  Forall goes_on (take p es) ∧ (p ≤ length es)%nat ∧ ∃ ds rest, drop p es = ds ++ rest ∧ Forall (λ e, is_deleted e = true) ds ∧ (length ds ≤ num)%nat ∧
    (length ds = num ∨ match rest with e :: _ => is_end e = true | [] => True end).
Lemma free_at_spec num es : ∀ pre ds i first, (length ds < num)%nat → Forall goes_on pre → Forall (λ e, is_deleted e = true) ds →
  i = (length pre + length ds)%nat → (ds ≠ [] → first = length pre) → free_slots num (free_at num first (length ds) i es) (pre ++ ds ++ es).
Proof.
  induction es as [|e es IH]; intros pre ds i first Hk Hpre Hds -> Hf.
  - assert (free_slots num (length pre) (pre ++ ds ++ [])) as H.
    { split; [by rewrite take_app_length|]. split; [rewrite length_app; lia|]. exists ds, []. rewrite drop_app_length. split_and!; [done|done|lia|by right]. }
    cbn [free_at]. destruct ds as [|d ds]; [by rewrite Nat.add_0_r|]. cbn [length Nat.eqb]. by rewrite Hf.
  - cbn [free_at]. assert ((if (length ds =? 0)%nat then (length pre + length ds)%nat else first) = length pre) as ->.
    { destruct ds as [|d ds]; [cbn; lia|]. cbn [length Nat.eqb]. by apply Hf. }
    destruct (is_end e) eqn:Ee.
    { split; [by rewrite take_app_length|]. split; [rewrite length_app; lia|]. exists ds, (e :: es). rewrite drop_app_length. split_and!; [done|done|lia|by right]. }
    destruct (is_deleted e) eqn:Ed.
    + assert (length (ds ++ [e]) = S (length ds)) as Ls by (rewrite length_app; cbn; lia). assert (Forall (λ e, is_deleted e = true) (ds ++ [e])) as Hds' by (apply Forall_app; by repeat constructor).
      replace (pre ++ ds ++ e :: es) with (pre ++ (ds ++ [e]) ++ es) by (by rewrite <- app_assoc). destruct (Nat.eqb_spec (S (length ds)) num) as [<-|Hne].
      * split; [by rewrite take_app_length|]. split; [rewrite length_app; lia|]. exists (ds ++ [e]), es. rewrite drop_app_length. split_and!; [done|done|lia|by left].
      * rewrite <- Ls. apply IH; [lia|done|done|lia|done].
    + replace (pre ++ ds ++ e :: es) with ((pre ++ ds ++ [e]) ++ [] ++ es) by (by rewrite <- !app_assoc). apply (IH (pre ++ ds ++ [e]) []); [cbn; lia| |done|rewrite !length_app; cbn; lia|done].
      apply Forall_app. split; [done|]. apply Forall_app. split; [eapply Forall_impl; [exact Hds|apply deleted_goes_on]|by repeat constructor].
Qed.
(** The list after the entries of a name, [lf] and [d], have been written into free slots: one more entry, and everything else is as it was. *)
Lemma listing_insert at_ skip es lf d num p : Forall entry_wf es → clean es → free_slots num p es → num = S (length lf) → (p + num ≤ length es)%nat →
  Forall (λ e, shown skip (LfnEntry e)) lf → shown skip (FileEntry d) → Forall entry_wf ((LfnEntry <$> lf) ++ [FileEntry d]) →
  let es' := put_entries p ((LfnEntry <$> lf) ++ [FileEntry d]) es in clean es' ∧ Forall entry_wf es' ∧
  ∃ l1 l2 b bg, (bg ≤ p)%nat ∧ lnb_wf b ∧ listing at_ skip lnb_new 0 0 es = l1 ++ l2 ∧
    listing at_ skip lnb_new 0 0 es' = l1 ++ listed at_ (fold_left lnb_step lf b) bg (p + length lf) d :: l2.
Proof.
  intros Hw Hc (Hon & Hp & ds & rest & Edr & Hds & Hle & Hend) Hnum Hroom Hlf Hd Hwn. set (news := (LfnEntry <$> lf) ++ [FileEntry d]).
  assert (length news = num) as Ln by (unfold news; rewrite length_app, length_fmap; cbn; lia). cbv zeta. unfold put_entries. rewrite Ln.
  assert (Forall goes_on news) as Hnon by (apply Forall_app; split; [by apply (shown_goes_on skip)|constructor; [apply Hd|done]]).
  assert (Forall goes_on ds) as Hdon by (eapply Forall_impl; [exact Hds|apply deleted_goes_on]).
  set (post := drop (p + num) es). assert (post = drop num (ds ++ rest)) as Epost by (unfold post; by rewrite <- Edr, drop_drop).
  (* what follows the slots: unchanged entries, or only ends *)
  assert (clean post ∧ ∀ b bg, listing at_ skip b bg p (drop p es) = listing at_ skip lnb_new (p + num) (p + num) post) as [Hcp Hlp].
  { rewrite <- (take_drop p es) in Hc. apply clean_app in Hc; [|done]. rewrite Edr in *. apply clean_app in Hc; [|done]. destruct Hend as [Hl|Hend].
    - rewrite <- Hl, drop_app_length in Epost. rewrite Epost. split; [done|]. intros b bg. rewrite listing_deleted by (done || intros ->; cbn in *; lia). by rewrite Hl.
    - assert (Forall (λ e, is_end e = true) rest) as Hr by (destruct rest as [|e rest]; [done|]; cbn [clean] in Hc; rewrite Hend in Hc; by constructor).
      rewrite drop_app_ge in Epost by done. assert (Forall (λ e, is_end e = true) post) as Hpo by (rewrite Epost; by apply Forall_drop). split; [by apply ends_clean|].
      intros b bg. rewrite (listing_ends at_ skip post) by done. destruct ds as [|d0 ds]; [by apply listing_ends|]. rewrite listing_deleted by done. by apply listing_ends. }
  split; [by rewrite !clean_app by done|]. split.
  { apply Forall_app. split; [by apply Forall_take|]. apply Forall_app. split; [done|by apply Forall_drop]. }
  destruct (listing_prefix at_ skip (take p es) Hon lnb_new 0 0 ltac:(lia) lnb_new_wf ltac:(by apply Forall_take)) as (b & bg & l1 & Hbg & Hb & Hl1).
  rewrite length_take, Nat.min_l in * by done. cbn [Nat.add] in *. exists l1, (listing at_ skip lnb_new (p + num) (p + num) post), b, bg.
  split; [lia|]. split; [done|]. split; [by rewrite <- (take_drop p es) at 1; rewrite Hl1, Hlp|]. unfold news. rewrite <- app_assoc, Hl1, listing_lfns by done. cbn [app].
  rewrite listing_file by done. by replace (S (p + length lf)) with (p + num)%nat by lia.
Qed.

(** * Writing a directory

    The loops of [find_free_entries], [alloc_and_write_lfn_entries] and [free_entries] on the entries of a stream *)

Lemma free_at_before num es : ∀ first k i, (first ≤ i)%nat → (free_at num first k i es + end_room es ≤ i + length es)%nat.
Proof.
  induction es as [|e es IH]; intros first k i Hf; cbn [free_at end_room length]; [case_match; lia|]. destruct (is_end e); [case_match; lia|]. pose proof (end_room_le es). destruct (is_deleted e).
  - destruct (S k =? num)%nat; [case_match; lia|]. pose proof (IH (if (k =? 0)%nat then i else first) (S k) (S i) ltac:(case_match; lia)). lia.
  - pose proof (IH first 0%nat (S i) ltac:(lia)). lia.
Qed.
Lemma put_wf i news es : Forall entry_wf es → Forall entry_wf news → Forall entry_wf (put_entries i news es).
Proof. intros H1 H2. apply Forall_app. split; [by apply Forall_take|]. apply Forall_app. split; [done|by apply Forall_drop]. Qed.
Lemma length_put i news es : (i + length news ≤ length es)%nat → length (put_entries i news es) = length es.
Proof. intros H. unfold put_entries. rewrite !length_app, length_take, length_drop. lia. Qed.
Lemma put_nil i es : put_entries i [] es = es.
Proof. unfold put_entries. cbn [length app]. by rewrite Nat.add_0_r, take_drop. Qed.
Lemma put_cons i e news es : (i < length es)%nat → put_entries (S i) news (<[i := e]> es) = put_entries i (e :: news) es.
Proof.
  intros Hi. unfold put_entries. cbn [length app]. rewrite drop_insert_lt by lia. rewrite (take_S_r _ _ e) by (by rewrite list_lookup_insert_eq).
  rewrite take_insert_ge by lia. rewrite <- app_assoc. cbn [app]. by replace (i + S (length news))%nat with (S i + length news)%nat by lia.
Qed.
Lemma put_app i news1 news2 es : (i + length news1 + length news2 ≤ length es)%nat → put_entries (i + length news1) news2 (put_entries i news1 es) = put_entries i (news1 ++ news2) es.
Proof.
  intros H. unfold put_entries at 1. assert (length (take i es) = i) as Li by (rewrite length_take; lia).
  assert (take (i + length news1) (put_entries i news1 es) = take i es ++ news1) as ->.
  { unfold put_entries. rewrite app_assoc. apply take_app_length'. rewrite length_app. lia. }
  assert (drop (i + length news1 + length news2) (put_entries i news1 es) = drop (i + length news1 + length news2) es) as ->.
  { rewrite <- drop_drop. unfold put_entries. rewrite app_assoc, drop_app_length' by (rewrite length_app; lia). by rewrite drop_drop. }
  unfold put_entries. rewrite <- !app_assoc, length_app. by rewrite Nat.add_assoc.
Qed.

Section writing.
Context {D : Type} `{!Stream D} `{!ByteStream (DirRawStream * FileSystem D)} `{!DirStream D}.
Abbreviation Fs := (FileSystem D).

Lemma seek_entry (s : DirRawStream * Fs) es pos p : Forall entry_wf es → stream_rep s (dir_bytes es) pos → (p ≤ length es)%nat →
  ∃ s', (q ← lift (u64 (Z.of_nat p * DIR_ENTRY_SIZE)); s_seek (SeekStart q) ?; ok tt) s = Ok (IoOk tt, s') ∧ stream_rep s' (dir_bytes es) (32 * Z.of_nat p).
Proof.
  intros Hes Hs Hp. pose proof (dir_len es Hes s _ Hs) as Hm. pose proof (length_dir_bytes es Hes) as Hl. unfold DIR_ENTRY_SIZE. chk_run.
  destruct (stream_seek s _ _ (32 * Z.of_nat p) Hs) as (s' & H & Hs'); [lia|]. exists s'. split; [|done]. rewrite (Z.mul_comm _ 32). by rewrite (try_ok _ _ _ _ _ H).
Qed.
Lemma find_free_slots (num : nat) es fuel : Forall entry_wf es → Z.of_nat num < 2 ^ 32 → ∀ (s : DirRawStream * Fs) first k i,
  stream_rep s (dir_bytes es) (32 * Z.of_nat i) → (i ≤ length es)%nat → (first ≤ i)%nat → (k < num)%nat → (length es - i < fuel)%nat →
  ∃ s', find_free_loop fuel (Z.of_nat num) (Z.of_nat first) (Z.of_nat k) (Z.of_nat i) s = Ok (IoOk tt, s') ∧
    stream_rep s' (dir_bytes es) (32 * Z.of_nat (free_at num first k i (drop i es))).
Proof.
  intros Hes Hnum. induction fuel as [|fuel IH]; intros s first k i Hs Hi Hf Hk Hfu; [lia|]. pose proof (dir_len es Hes s _ Hs) as Hm. cbn [find_free_loop].
  destruct (entry_read s es i Hes Hi Hs) as (s1 & H1 & Hs1). rewrite (try_ok _ _ _ _ _ H1). clear H1.
  assert ((if Z.of_nat k =? 0 then Z.of_nat i else Z.of_nat first) = Z.of_nat (if (k =? 0)%nat then i else first)) as Ef by (destruct k; done).
  rewrite Ef. assert ((if (k =? 0)%nat then i else first) ≤ i)%nat as Hfi by (destruct k; cbn; lia). case_decide as Hlt.
  2:{ rewrite lookup_ge_None_2, drop_ge by lia. cbn [default free_at]. change (is_end (FileEntry dfe_default)) with true. cbv zeta. apply (seek_entry s1 es _ _ Hes Hs1). lia. }
  destruct (lookup_lt_is_Some_2 es i Hlt) as [e He]. rewrite He. change (default (FileEntry dfe_default) (Some e)) with e. rewrite (drop_S _ _ _ He). cbn [free_at].
  destruct (is_end e); [apply (seek_entry s1 es _ _ Hes Hs1); lia|]. cbv zeta. destruct (is_deleted e).
  - unfold uadd. rewrite (checked_in (Z.of_nat k + 1)) by lia. run_refl. replace (Z.of_nat k + 1) with (Z.of_nat (S k)) by lia.
    destruct (Nat.eqb_spec (S k) num) as [->|Hne]; [rewrite Z.eqb_refl; apply (seek_entry s1 es _ _ Hes Hs1); lia|]. rewrite (proj2 (Z.eqb_neq _ _)) by lia.
    rewrite ichk_in by lia. run_refl. replace (Z.of_nat i + 1) with (Z.of_nat (S i)) by lia. apply IH; [done|lia|lia|lia|lia].
  - rewrite ichk_in by lia. run_refl. replace (Z.of_nat i + 1) with (Z.of_nat (S i)) by lia. apply (IH s1 first 0%nat (S i)); [done|lia|lia|lia|lia].
Qed.
Lemma write_lfns lf : ∀ (s : DirRawStream * Fs) es i, Forall entry_wf es → Forall lfn_entry_wf lf → (i + length lf ≤ length es)%nat → stream_rep s (dir_bytes es) (32 * Z.of_nat i) →
  ∃ s', try_each lf lfn_serialize s = Ok (IoOk tt, s') ∧ stream_rep s' (dir_bytes (put_entries i (LfnEntry <$> lf) es)) (32 * Z.of_nat (i + length lf)).
Proof.
  induction lf as [|e lf IH]; intros s es i Hes Hlf Hi Hs; [exists s; split; [done|]; cbn [length fmap list_fmap]; by rewrite put_nil, Nat.add_0_r|].
  inversion_clear Hlf as [|? ? He Hlf']. cbn [length] in *. destruct (entry_write s es i (LfnEntry e) Hes He ltac:(lia) Hs) as (s1 & H1 & Hs1). cbn [try_each].
  destruct (IH s1 (<[i := LfnEntry e]> es) (S i)) as (s2 & H2 & Hs2); [by apply Forall_insert|done|rewrite length_insert; lia|done|].
  exists s2. split; [by rewrite (try_ok _ _ _ _ _ H1)|]. rewrite put_cons in Hs2 by lia. by replace (i + S (length lf))%nat with (S i + length lf)%nat by lia.
Qed.
Lemma delete_spec n : ∀ (s : DirRawStream * Fs) es i, Forall entry_wf es → (i + n ≤ length es)%nat → stream_rep s (dir_bytes es) (32 * Z.of_nat i) →
  ∃ s', delete_entries n s = Ok (IoOk tt, s') ∧ stream_rep s' (dir_bytes (put_entries i (set_deleted <$> take n (drop i es)) es)) (32 * Z.of_nat (i + n)).
Proof.
  induction n as [|n IH]; intros s es i Hes Hi Hs; [exists s; split; [done|]; cbn [take fmap list_fmap]; by rewrite put_nil, Nat.add_0_r|]. cbn [delete_entries].
  destruct (lookup_lt_is_Some_2 es i ltac:(lia)) as [e He]. assert (entry_wf e) as Hwe by (by eapply Forall_lookup_1). pose proof (length_dir_bytes es Hes) as Hl.
  destruct (entry_read s es i Hes ltac:(lia) Hs) as (s1 & H1 & Hs1). rewrite (try_ok _ _ _ _ _ H1). rewrite decide_True in Hs1 by lia. rewrite He. change (default (FileEntry dfe_default) (Some e)) with e.
  unfold DIR_ENTRY_SIZE. destruct (dir_back s1 _ _ Hs1 ltac:(lia)) as (s2 & H2 & Hs2). rewrite (try_ok _ _ _ _ _ H2). replace (32 * Z.of_nat (S i) - 32) with (32 * Z.of_nat i) in Hs2 by lia.
  destruct (entry_write s2 es i (set_deleted e) Hes (set_deleted_wf e Hwe) ltac:(lia) Hs2) as (s3 & H3 & Hs3). rewrite (try_ok _ _ _ _ _ H3).
  destruct (IH s3 (<[i := set_deleted e]> es) (S i)) as (s4 & H4 & Hs4); [apply Forall_insert; [done|by apply set_deleted_wf]|rewrite length_insert; lia|done|].
  exists s4. split; [done|]. rewrite put_cons, drop_insert_lt in Hs4 by lia. rewrite (drop_S _ _ _ He). cbn [take fmap list_fmap].
  by replace (i + S n)%nat with (S i + n)%nat by lia.
Qed.
End writing.
