(* ===== verification/DirRoot.v ===== *)
(** * The root directory of a mounted volume

    [dir_on] says which raw entries the root directory holds.  An operation opens the root, works on its stream and drops it ([with_stream] of
    FatDir.v): [with_root] turns what holds on the stream into what holds on the volume.
    [find_entry] and [check_for_existence] of fatfs/src/dir.rs are functions of the list of the directory. *)

From S2P Require Import Prelude Io FatIo FatBits FatTime BootSector FatTable FatFs FatSlice FatVolume DirEntry FatName ShortName FatFile FileRep FileWrite FatDir DirRep DirList.

(** ** Where the bytes of the directory are on the disk *)

Definition root_pos {D} (fs : FileSystem D) (l : list Z) (pos : Z) : Z :=
  cluster_pos fs (l !!! Z.to_nat ((pos - 1) `div` cluster_bytes fs)) + (pos - 1) `mod` cluster_bytes fs + 1.
Lemma root_pos_same {D} (fs fs' : FileSystem D) l pos : same_volume fs fs' → root_pos fs' l pos = root_pos fs l pos.
Proof. intros (_ & _ & E1 & E2 & _). unfold root_pos, cluster_pos, cluster_bytes. by rewrite E1, E2. Qed.

Section root_pos.
Context {D : Type} `{!Stream D, !ByteStream D, !WholeWrites D}.
Abbreviation Fs := (FileSystem D).
Context (fs0 : Fs) (A tab B0 l : list Z).

(** [abs_pos] of a file that was read or written *)
Lemma last_offset cs pos : 0 < cs → 0 < pos → (if pos `mod` cs =? 0 then cs else pos `mod` cs) = (pos - 1) `mod` cs + 1.
Proof.
  intros Hcs Hp. pose proof (Z.mod_pos_bound (pos - 1) cs Hcs). pose proof (Z.div_mod (pos - 1) cs ltac:(lia)) as E.
  set (q := (pos - 1) `div` cs) in *. set (m := (pos - 1) `mod` cs) in *.
  destruct (decide (m + 1 = cs)) as [Em|].
  - replace pos with (0 + (q + 1) * cs) by lia. rewrite Z.mod_add by lia. rewrite Z.mod_0_l by lia. cbn. lia.
  - rewrite <- (Z.mod_unique pos cs q (m + 1)) by lia. by rewrite (proj2 (Z.eqb_neq _ _)) by lia.
Qed.
Lemma root_abs_pos s bs pos : root_rep fs0 A tab B0 l s bs pos → 0 < pos → raw_abs_pos s = Ok (Some (root_pos fs0 l pos), s) ∧ 32 ≤ root_pos fs0 l pos < 2 ^ 64.
Proof.
  intros (f & B & Hr) Hpos. pose proof Hr as [H1 H2 H3 H4 H5 H6]. pose proof (fo_chain _ _ _ _ _ _ _ _ H2) as Hc. destruct (fo_pos _ _ _ _ _ _ _ _ H2) as [Ho Hp].
  destruct (root_size fs0 A tab B0 l s f B bs pos Hr) as (Hsz & Hcs & _). destruct (geometry_same fs0 s.2 A tab 0 B H4) as (Ecs & _).
  rewrite <- (root_pos_same fs0 s.2 l pos H4). unfold root_pos. rewrite Ecs in *. set (cs := cluster_bytes fs0) in *. set (q := (pos - 1) `div` cs).
  assert (0 ≤ q < Z.of_nat (length l)) as Hq by (split; [apply Z.div_pos; lia|apply Z.div_lt_upper_bound; nia]).
  destruct (lookup_lt_is_Some_2 l (Z.to_nat q)) as [c Hl]; [lia|]. rewrite (list_lookup_total_correct _ _ _ Hl).
  assert (c ∈ l) as Hin by (by eapply list_elem_of_lookup_2).
  destruct (cluster_pos_range s.2 A tab B c) as (Hd1 & Hd2 & Hofs & Hcsz & _); [apply Hc|apply Hc|by apply (cluster_live s.2 A tab B l)|].
  pose proof (fo_cur _ _ _ _ _ _ _ _ H2) as Hcur. rewrite Ecs in *. fold cs in Hcur, Hd2, Hcsz. unfold cursor in Hcur. rewrite (proj2 (Z.eqb_neq pos 0)) in Hcur by lia.
  fold q in Hcur. rewrite Hl in Hcur. pose proof (Z.mod_pos_bound (pos - 1) cs Hcs) as Hm.
  assert (512 ≤ cluster_pos s.2 c ∧ cluster_pos s.2 c + cs < 2 ^ 63) as Hrg.
  { pose proof (v_limit _ _ _ _ (co_volume _ _ _ _ _ Hc)) as Hlim. pose proof (v_lo _ _ _ _ (co_volume _ _ _ _ _ Hc)) as Hlo. unfold volume_bytes in Hlim.
    rewrite app_assoc, length_app in Hlim. unfold in_data in *. rewrite length_app in *. lia. }
  split; [|lia]. unfold raw_abs_pos. rewrite H1. unfold file_abs_pos. rewrite Hcur, Hcsz. cbn [mbind exec_bind]. unfold urem. rewrite (proj2 (Z.eqb_neq cs 0)) by lia.
  cbn [mbind exec_bind]. rewrite Hofs. cbn [mbind exec_bind]. rewrite Ho, last_offset by lia. rewrite chk_in by lia. cbn [mbind exec_bind mret exec_ret]. by rewrite Z.add_assoc.
Qed.
Lemma root_max s bs pos : root_rep fs0 A tab B0 l s bs pos → Z.of_nat (length bs) < 2 ^ 32.
Proof. intros (f & B & [_ H2 _ _ _ _]). pose proof (fo_max _ _ _ _ _ _ _ _ H2). unfold MAX_FILE_SIZE in *. lia. Qed.
Definition root_dir_stream : DirStream D (ByteStream0 := root_stream fs0 A tab B0 l).
Proof.
  refine (Build_DirStream D _ (root_stream fs0 A tab B0 l) (root_pos fs0 l) _ _ _).
  - intros s bs pos Hs. by apply root_abs_pos with bs.
  - intros s bs pos Hs Hp. apply (root_seek fs0 A tab B0 l s bs pos); [done|lia|lia].
  - intros s bs pos Hs. by apply root_max with s pos.
Defined.
End root_pos.

(** ** Opening and dropping *)

Definition root_handle {D} (fs : FileSystem D) : DirRawStream := StreamFile (file_new (Some (root_dir_first_cluster (fs_bpb fs))) None).

Section dir_on.
Context {D : Type} `{!Stream D, !ByteStream D, !WholeWrites D, !FlushKeeps D}.
Abbreviation Fs := (FileSystem D).

(** The root directory is the chain [l] and holds the entries [es]; it has not grown to the size limit of a file. *)
Record dir_on (fs : Fs) (A tab B l : list Z) (es : list DirEntryData) : Prop := {
  do_chain : chain_on fs A tab B l;
  do_clock : clock_ok (options fs);
  do_first : head l = Some (root_dir_first_cluster (fs_bpb fs));
  do_bytes : content fs A tab B l = dir_bytes es;
  do_wf : Forall entry_wf es;
  do_max : Z.of_nat (length (dir_bytes es)) + cluster_bytes fs ≤ MAX_FILE_SIZE;
  do_root : 0 ≤ fs_root_dir_sectors fs;
}.
(** No cluster outside the directory has changed. *)
Definition only_root (fs : Fs) (A tab l B B' : list Z) : Prop :=
  ∀ c, live (fs_total_clusters fs) c → c ∉ l → cluster_data fs A tab B' c = cluster_data fs A tab B c.
(** What an operation that leaves [es'] in the directory has done *)
Definition dir_step (fs : Fs) (A tab l B : list Z) (fs' : Fs) (B' : list Z) (es' : list DirEntryData) : Prop :=
  dir_on fs' A tab B' l es' ∧ same_volume fs fs' ∧ only_root fs A tab l B B'.

Lemma only_root_trans (fs fs' : Fs) A tab l B B1 B2 : same_volume fs fs' → only_root fs A tab l B B1 → only_root fs' A tab l B1 B2 → only_root fs A tab l B B2.
Proof.
  intros Hs H1 H2 c Hc Hn. rewrite <- (H1 c Hc Hn). destruct (geometry_same fs fs' A tab c B1 Hs) as (_ & _ & <-), (geometry_same fs fs' A tab c B2 Hs) as (_ & _ & <-).
  apply H2; [|done]. destruct Hs as (_ & _ & _ & _ & _ & -> & _). done.
Qed.
Lemma dir_step_trans (fs fs1 fs2 : Fs) A tab l B B1 B2 es1 es2 : dir_step fs A tab l B fs1 B1 es1 → dir_step fs1 A tab l B1 fs2 B2 es2 → dir_step fs A tab l B fs2 B2 es2.
Proof. intros (H1 & H2 & H3) (H4 & H5 & H6). split; [done|]. split; [by apply (same_volume_trans _ fs1)|by apply (only_root_trans fs fs1 A tab l B B1 B2)]. Qed.

Lemma root_dir_on fs A tab B l es : dir_on fs A tab B l es → root_dir fs = Ok (root_handle fs).
Proof. intros []. unfold root_dir. by rewrite (v_fat32 _ _ _ _ (co_volume _ _ _ _ _ do_chain0)). Qed.
Lemma root_handle_same (fs fs' : Fs) : same_volume fs fs' → root_handle fs' = root_handle fs.
Proof. intros (_ & _ & E & _). unfold root_handle. by rewrite E. Qed.
Lemma root_open fs A tab B l es : dir_on fs A tab B l es → root_rep fs A tab B l (root_handle fs, fs) (dir_bytes es) 0.
Proof.
  intros [Hc Hk Hf Hb Hw Hm Hr]. destruct (cluster_bytes_pos _ _ _ _ _ Hc) as [Hcs _]. exists (file_new (Some (root_dir_first_cluster (fs_bpb fs))) None), B. split; try done.
  - split; try done.
    + by rewrite <- Hb.
    + unfold file_size. cbn. by rewrite Hb.
    + cbn [snd]. lia.
    + split; [done|lia].
Qed.

Lemma flush_disk fs A tab B l : chain_on fs A tab B l → ∃ r fs', on_disk s_flush fs = Ok (r, fs') ∧ chain_on fs' A tab B l ∧ same_volume fs fs'.
Proof.
  intros Hc. destruct (v_disk _ _ _ _ (co_volume _ _ _ _ _ Hc)) as [pos [Hs (raw & Hd & Em & Hb) Hl Hdi Hke]].
  destruct (flush_keeps (disk fs) raw pos Hd) as (r & d' & H & Hd'). exists r, (with_disk fs d'). split; [by apply on_disk_spec|].
  apply (chain_moved fs A tab B l Hc); [|done]. exists pos. split; try done. by exists raw.
Qed.
Lemma root_close fs A tab B l es' s pos : root_rep fs A tab B l s (dir_bytes es') pos → Forall entry_wf es' →
  0 ≤ fs_root_dir_sectors fs → head l = Some (root_dir_first_cluster (fs_bpb fs)) →
  ∃ fs' B', raw_drop s.1 s.2 = Ok (tt, fs') ∧ dir_step fs A tab l B fs' B' es'.
Proof.
  intros (f & B' & Hr) Hw Hrs Hh. pose proof Hr as [H1 H2 H3 H4 H5 H6]. destruct (root_size _ _ _ _ _ _ _ _ _ _ Hr) as (_ & _ & Hcont).
  destruct (flush_disk s.2 A tab B' l (fo_chain _ _ _ _ _ _ _ _ H2)) as (r & fs' & Hfl & Hc & Hs).
  assert (same_volume fs fs') as Hsv by (by apply (same_volume_trans _ s.2)). exists fs', B'. split.
  - assert (file_flush (f, s.2) = Ok (r, (f, fs'))) as E.
    { unfold file_flush. erewrite try_ok; [|unfold flush_dir_entry, self; run_refl; cbn [fst]; rewrite H3; reflexivity]. by apply on_fs_spec. }
    unfold raw_drop. rewrite H1. unfold file_drop. by run E.
  - split; [|split; [done|exact H6]]. pose proof (content_same fs fs' A tab B' l Hsv) as Ec. destruct (geometry_same fs fs' A tab 0 B' Hsv) as (Ecs & _).
    pose proof Hsv as (Eo & _ & Eb & _ & Er & _). split; try done; rewrite ?Eo, ?Eb, ?Er, ?Ec, ?Ecs; try done.
    pose proof (fo_clock _ _ _ _ _ _ _ _ H2) as Hck. destruct H4 as (E & _). by rewrite <- E.
Qed.
Lemma with_root {R} (m : M (DirRawStream * Fs) R) fs A tab B l es es' r s' pos : dir_on fs A tab B l es → m (root_handle fs, fs) = Ok (r, s') →
  root_rep fs A tab B l s' (dir_bytes es') pos → Forall entry_wf es' →
  ∃ fs' B', with_stream (root_handle fs) m fs = Ok (r, fs') ∧ dir_step fs A tab l B fs' B' es'.
Proof.
  intros Hd Hm Hr Hw. destruct (root_close fs A tab B l es' s' pos Hr Hw) as (fs' & B' & Hdr & Hst); [apply Hd..|].
  exists fs', B'. split; [|done]. unfold with_stream. rewrite Hm. destruct s' as [st fs1]. cbn [fst snd] in Hdr. by rewrite Hdr.
Qed.

(** ** Loops over the root directory *)

Lemma dir_fuel_enough fs A tab B l es : dir_on fs A tab B l es → (length es < dir_fuel fs)%nat.
Proof.
  intros [Hc Hk Hf Hb Hw Hm Hr]. pose proof (length_content _ _ _ _ _ Hc) as Hlc. rewrite Hb, length_dir_bytes in Hlc by done.
  pose proof (fat_for_total _ _ _ (v_fat _ _ _ _ (co_volume _ _ _ _ _ Hc))) as Htot.
  pose proof (live_nodup_length (fs_total_clusters fs) l ltac:(lia) (co_live _ _ _ _ _ Hc) (co_nodup _ _ _ _ _ Hc)) as Hl.
  destruct (co_area _ _ _ _ _ Hc) as [Hspc Hbps _ _ _]. unfold dir_fuel, cluster_bytes in *.
  set (X := (fs_root_dir_sectors fs + fs_total_clusters fs * sectors_per_cluster (fs_bpb fs)) * bytes_per_sector (fs_bpb fs)).
  assert (Z.of_nat (length es) ≤ X `div` 32) as Hle; [|lia]. apply Z.div_le_lower_bound; [lia|]. unfold X. nia.
Qed.
Lemma for_root {X R} skip (body : X → DirEntry → ioresult R + X) acc fs A tab B l es : dir_on fs A tab B l es →
  ∃ fs' B', for_entries (root_handle fs) skip body acc fs = Ok (run_body body acc (listing (root_pos fs l) skip lnb_new 0 0 es), fs') ∧
    dir_step fs A tab l B fs' B' es.
Proof.
  intros Hd. pose proof (dir_fuel_enough _ _ _ _ _ _ Hd) as Hfu.
  destruct (iterate_spec (ByteStream0 := root_stream fs A tab B l) (DirStream0 := root_dir_stream fs A tab B l) es (do_wf _ _ _ _ _ _ Hd) skip body (dir_fuel fs) (root_handle fs, fs) 0 acc)
    as (s' & pos & H & Hs'); [by apply root_open|lia|lia|].
  destruct (with_root _ fs A tab B l es es _ s' pos Hd H Hs' (do_wf _ _ _ _ _ _ Hd)) as (fs' & B' & Hw & Hst). exists fs', B'. by split.
Qed.
End dir_on.

(** * Finding entries, and names for new ones *)

(** The list of a directory: without volume labels, from the first entry on *)
Definition listing_of {D} (fs : FileSystem D) (l : list Z) (es : list DirEntryData) : list DirEntry := listing (root_pos fs l) true lnb_new 0 0 es.
Lemma listing_of_same {D} (fs fs' : FileSystem D) l es : same_volume fs fs' → listing_of fs' l es = listing_of fs l es.
Proof. intros Hs. apply listing_ext. intros p. by apply root_pos_same. Qed.
Definition dir_names (es : list DirEntry) : list (list Z) := (λ e, name (de_data e)) <$> es.

Section search.
Variable upper_other : Z → list Z.
(** The first entry with the name, which must be of the kind that is asked for *)
Definition search_list (n : list Z) (want_dir : option bool) (c : OemCpConverter) (l : list DirEntry) : ioresult DirEntry :=
  match List.find (λ e, eq_name upper_other e n c) l with
  | Some e => if bool_decide (want_dir ≠ None ∧ want_dir ≠ Some (de_is_dir e)) then IoErr OtherError else IoOk e
  | None => IoErr NotFound
  end.
Lemma run_find n want c g l : default (IoErr NotFound) (run_body (find_body upper_other n want c) g l).1 = search_list n want c l.
Proof.
  unfold search_list. revert g. induction l as [|e l IH]; intros g; [done|]. cbn [run_body List.find]. unfold find_body.
  destruct (eq_name _ e n c); [by case_bool_decide|]. apply IH.
Qed.
Lemma run_find_gen n want c g l : List.find (λ e, eq_name upper_other e n c) l = None →
  run_body (find_body upper_other n want c) (Some g) l = (None, Some (add_all g (dir_names l))).
Proof.
  revert g. induction l as [|e l IH]; intros g; [done|]. cbn [run_body List.find]. unfold find_body.
  destruct (eq_name _ e n c); [done|]. intros H. by apply IH.
Qed.

Context {D : Type} `{!Stream D, !ByteStream D, !WholeWrites D, !FlushKeeps D}.
Abbreviation Fs := (FileSystem D).
Abbreviation conv fs := (oem_cp_converter (options fs)).

Lemma find_gen_spec fs A tab B l es n want g : dir_on fs A tab B l es → ∃ fs' B' g',
  find_entry_gen upper_other (root_handle fs) n want g fs = Ok ((search_list n want (conv fs) (listing_of fs l es), g'), fs') ∧ dir_step fs A tab l B fs' B' es ∧
  (∀ g0, g = Some g0 → List.find (λ e, eq_name upper_other e n (conv fs)) (listing_of fs l es) = None → g' = Some (add_all g0 (dir_names (listing_of fs l es)))).
Proof.
  intros Hd. destruct (for_root true (find_body upper_other n want (conv fs)) g fs A tab B l es Hd) as (fs' & B' & H & Hst).
  unfold find_entry_gen. exists fs', B', (run_body (find_body upper_other n want (conv fs)) g (listing_of fs l es)).2. split; [|split; [done|]].
  - rewrite (M_bind_eq _ _ fs fs fs eq_refl). run H. by rewrite run_find.
  - intros g0 -> Hf. by rewrite run_find_gen.
Qed.
Lemma find_entry_spec fs A tab B l es n want : dir_on fs A tab B l es → ∃ fs' B',
  find_entry upper_other (root_handle fs) n want fs = Ok (search_list n want (conv fs) (listing_of fs l es), fs') ∧ dir_step fs A tab l B fs' B' es.
Proof.
  intros Hd. destruct (find_gen_spec fs A tab B l es n want None Hd) as (fs' & B' & g' & H & Hst & _). exists fs', B'. split; [|done]. unfold find_entry. by run H.
Qed.

(** ** A free short name *)

Lemma length_listing at_ skip b bg i es : (length (listing at_ skip b bg i es) ≤ length es)%nat.
Proof.
  revert b bg i. induction es as [|e es IH]; intros b bg i; [done|]. cbn [listing length].
  destruct (is_end e); [cbn; lia|]. destruct (should_ship_entry skip e); [etrans; [apply IH|lia]|]. destruct e as [data|data]; cbn [length].
  - apply le_n_S, IH.
  - etrans; [apply IH|lia].
Qed.
(** The rounds from [k] on, until one has a name *)
Lemma existence_rounds n want names sn k : ∀ j fuel fs A tab B l es g,
  dir_on fs A tab B l es → names = dir_names (listing_of fs l es) → List.find (λ e, eq_name upper_other e n (conv fs)) (listing_of fs l es) = None →
  add_all g names = round names (sng_new n) j → (j ≤ k)%nat → (k - j < fuel)%nat →
  generate (round names (sng_new n) k) = IoOk sn → (∀ i, (i < k)%nat → ∃ e, generate (round names (sng_new n) i) = IoErr e) →
  ∃ fs' B', existence_loop upper_other fuel (root_handle fs) n want g fs = Ok (IoOk (FreeName sn), fs') ∧ dir_step fs A tab l B fs' B' es.
Proof.
  intros j fuel. revert j. induction fuel as [|fuel IH]; intros j fs A tab B l es g Hd En Hno Hg Hj Hfu Hk Hlt; [lia|]. cbn [existence_loop].
  destruct (find_gen_spec fs A tab B l es n want (Some g) Hd) as (fs1 & B1 & g' & H & Hst & Hg'). run H. rewrite (Hg' g eq_refl Hno), <- En, Hg.
  unfold search_list. rewrite Hno. cbv zeta. change (default g (Some (round names (sng_new n) j))) with (round names (sng_new n) j).
  destruct (decide (j = k)) as [->|Hne]; [rewrite Hk; by exists fs1, B1|].
  destruct (Hlt j) as [e He]; [lia|]. rewrite He.
  destruct Hst as (Hd1 & Hs1 & Ho1). rewrite <- (root_handle_same fs fs1 Hs1). pose proof Hs1 as (Eo & _).
  destruct (IH (S j) fs1 A tab B1 l es (next_iteration (round names (sng_new n) j)) Hd1) as (fs2 & B2 & H2 & Hst2);
    [by rewrite (listing_of_same fs fs1)|by rewrite Eo, (listing_of_same fs fs1)|done|lia|lia|done|done|].
  exists fs2, B2. split; [done|]. by apply (dir_step_trans fs fs1 fs2 A tab l B B1 B2 es es).
Qed.
Lemma least_round names g : sng_wf g → prefix_chksum_bitmap g = 0 → Z.of_nat (length names) < 65536 →
  ∃ k s, (k ≤ length names)%nat ∧ generate (round names g k) = IoOk s ∧ ∀ i, (i < k)%nat → ∃ e, generate (round names g i) = IoErr e.
Proof.
  intros H1 H2 H3. destruct (some_round g names H1 H2 H3) as (k & s & Hk & Hs). revert s Hk Hs. induction (lt_wf k) as [k _ IH]. intros s Hk Hs.
  destruct (decide (Exists (λ i, match generate (round names g i) with IoOk _ => true | IoErr _ => false end = true) (seq 0 k))) as [He|Hn].
  - apply Exists_exists in He as (i & Hi%elem_of_seq & He). destruct (generate (round names g i)) as [s'|] eqn:E; [|done]. apply (IH i ltac:(lia) s'); [lia|done].
  - exists k, s. split_and!; try done. intros i Hi. destruct (generate (round names g i)) as [s'|e] eqn:E; [|by exists e].
    destruct Hn. apply Exists_exists. exists i. rewrite E. split; [apply elem_of_seq; lia|done].
Qed.
Lemma existence_spec fs A tab B l es n want : dir_on fs A tab B l es → Z.of_nat (length es) < 65536 →
  List.find (λ e, eq_name upper_other e n (conv fs)) (listing_of fs l es) = None →
  ∃ sn k fs' B', check_for_existence upper_other (root_handle fs) n want fs = Ok (IoOk (FreeName sn), fs') ∧ dir_step fs A tab l B fs' B' es ∧
    (sn ∉ dir_names (listing_of fs l es)) ∧ length sn = 11%nat ∧ generate (round (dir_names (listing_of fs l es)) (sng_new n) k) = IoOk sn.
Proof.
  intros Hd Hlen Hno. set (names := dir_names (listing_of fs l es)). pose proof (length_listing (root_pos fs l) true lnb_new 0 0 es) as Hl.
  assert (length names = length (listing_of fs l es)) as Ln by apply length_fmap. unfold listing_of in Ln.
  destruct (least_round names (sng_new n)) as (k & sn & Hk & Hs & Hlt); [apply sng_new_wf|unfold sng_new; by repeat case_match|lia|].
  destruct (round_fresh (sng_new n) names k sn (sng_new_wf n) Hs) as [Hf H11].
  destruct (existence_rounds n want names sn k 0 (Z.to_nat 65536) fs A tab B l es (sng_new n)) as (fs' & B' & H & Hst); try done; [lia|lia|].
  exists sn, k, fs', B'. by split_and!.
Qed.
(** The name is taken. *)
Lemma existence_found fs A tab B l es n want r : dir_on fs A tab B l es → search_list n want (conv fs) (listing_of fs l es) = r → r ≠ IoErr NotFound →
  ∃ fs' B', check_for_existence upper_other (root_handle fs) n want fs = Ok (match r with IoOk e => IoOk (FoundEntry e) | IoErr e => IoErr e end, fs') ∧ dir_step fs A tab l B fs' B' es.
Proof.
  intros Hd Hr Hne. destruct (find_gen_spec fs A tab B l es n want (Some (sng_new n)) Hd) as (fs1 & B1 & g' & H & Hst & _). exists fs1, B1. split; [|done].
  unfold check_for_existence. destruct (Z.to_nat 65536) as [|m] eqn:E; [done|]. cbn [existence_loop]. run H. rewrite Hr. destruct r as [e|[]]; done.
Qed.
End search.
