(* ===== verification/DirOps.v ===== *)
(** * Creating and removing files in the root directory

    [write_entry], [free_entries], [create_file] and [remove] of fatfs/src/dir.rs change the list of the directory by one entry.
    First, what [LfnEntriesGenerator] and [ShortNameGenerator] write for a name is listed, and is found under that name. *)

From S2P Require Import Prelude Io FatIo FatBits FatTime BootSector FatTable FatFs FatSlice FatVolume DirEntry FatName ShortName FatFile FileRep FileWrite FatDir.
From S2P Require Import DirRep DirList DirRoot.

(** * The entries of a new name *)

(** A Unicode scalar value, as Rust's [char] *)
Definition is_char (c : Z) : Prop := 0 ≤ c < 0xD800 ∨ 0xE000 ≤ c < 0x110000.
(** A name the file system can hold: U+FFFF at its end would be taken for padding. *)
Record long_name (n : list Z) : Prop := {
  ln_chars : Forall is_char n;
  ln_valid : validate_long_name n = IoOk tt;
  ln_last : last n ≠ Some 0xFFFF;
}.

Section long_name.
Context (n : list Z) (Hn : long_name n).

Lemma long_name_chars : n ≠ [] ∧ (length n ≤ 255)%nat ∧ Forall (λ c, long_name_char c = true) n.
Proof using Hn.
  destruct Hn as [_ Hv _]. unfold validate_long_name in Hv. case_bool_decide as Hne; [done|]. destruct (Z.ltb_spec 255 (utf8_len n)) as [|Hl]; [done|].
  destruct (forallb long_name_char n) eqn:E; [|done]. split; [done|]. split; [|rewrite Forall_forall; intros c Hc; apply (proj1 (forallb_forall _ _) E); by apply list_elem_of_In].
  assert (Z.of_nat (length n) ≤ utf8_len n) as H; [|lia]. clear. induction n as [|c s IH]; [done|]. cbn [length utf8_len foldr]. unfold utf8_len in IH. repeat case_match; lia.
Qed.
Lemma long_name_char_range c : long_name_char c = true → is_char c → 0x20 ≤ c ≤ 0xFFFF ∧ is_high c = false ∧ is_low c = false.
Proof.
  intros H Hc. unfold long_name_char, is_alnum in H. assert (0x20 ≤ c ≤ 0xFFFF) as Hr.
  { apply orb_true_iff in H as [H|H]; [lia|]. apply bool_decide_eq_true in H. rewrite !elem_of_cons, elem_of_nil in H. lia. }
  unfold is_char, is_high, is_low in *. split; [done|]. lia.
Qed.
Lemma long_name_units : encode_utf16 n = n ∧ Forall is_unit n ∧ from_utf16_lossy n = n.
Proof using Hn.
  destruct long_name_chars as (_ & _ & Hc). pose proof (ln_chars _ Hn) as Hk. clear Hn. induction n as [|c s IH]; [done|].
  inversion_clear Hc as [|? ? Hc1 Hc2]. inversion_clear Hk as [|? ? Hk1 Hk2]. destruct (IH Hc2 Hk2) as (E1 & E2 & E3). destruct (long_name_char_range c Hc1 Hk1) as (Hr & H1 & H2).
  split_and!.
  - unfold encode_utf16 in *. cbn. rewrite (proj2 (Z.ltb_lt _ _)) by lia. cbn. by rewrite E1.
  - constructor; [unfold is_unit; lia|done].
  - cbn [from_utf16_lossy]. by rewrite H1, H2, E3.
Qed.
Lemma long_name_last : ∃ x, last n = Some x ∧ lfn_pad x = false.
Proof using Hn.
  destruct long_name_chars as (Hne & _ & Hc). destruct (last n) as [x|] eqn:E; [|by apply last_None in E]. exists x. split; [done|].
  assert (x ∈ n) as Hx by (by apply last_Some_elem_of). pose proof (ln_last _ Hn) as Hl. rewrite E in Hl. rewrite Forall_forall in Hc.
  destruct (long_name_char_range x (Hc x Hx)) as (Hr & _); [pose proof (ln_chars _ Hn) as Hk; rewrite Forall_forall in Hk; by apply Hk|].
  unfold lfn_pad. assert (x ≠ 0xFFFF) by congruence. lia.
Qed.
End long_name.

(** ** Long entries *)

Lemma process_fold es : ∀ b b', process_all b es = Ok b' → fold_left lnb_step es b = b'.
Proof.
  induction es as [|e es IH]; intros b b' H; [by injection H|]. cbn [process_all fold_left] in *. unfold lnb_step at 2. destruct (lnb_process b e) as [b1|]; [|done].
  cbn [mbind exec_bind] in H. by apply IH.
Qed.
Lemma order_range u k : (k < parts u)%nat → (parts u ≤ 31)%nat → 0 < entry_order u k < 0x60.
Proof.
  intros Hk Hp. unfold entry_order. assert (Forall (λ o, Z.lor o LFN_ENTRY_LAST_FLAG = o + 0x40) (seqZ 1 31)) as H by (apply (bool_decide_unpack _); by vm_compute).
  rewrite Forall_forall in H. destruct (S k =? parts u)%nat; [rewrite H by (apply elem_of_seqZ; lia)|]; lia.
Qed.
Definition name_entries (u sn : list Z) : list DirLfnEntryData := entry_of u (lfn_checksum sn) <$> reverse (seq 0 (parts u)).
Section entries.
Context (u sn : list Z) (Hu : Forall is_unit u) (Hl : (length u ≤ 403)%nat).

Lemma parts_31 : (parts u ≤ 31)%nat.
Proof using Hl. pose proof (parts_bounds u). lia. Qed.
Lemma length_name_entries : length (name_entries u sn) = parts u.
Proof. unfold name_entries. by rewrite length_fmap, length_reverse, length_seq. Qed.
Lemma leg_len_parts : leg_len (leg_new u (lfn_checksum sn)) = parts u.
Proof.
  unfold leg_len, leg_new. cbn [name_parts_iter]. change LFN_PART_LEN with 13%nat. rewrite <- (drop_0 u) at 2. change (drop 0 u) with (drop (13 * 0) u).
  rewrite chunks_spec by lia. by rewrite length_reverse, length_fmap, length_seq, Nat.sub_0_r.
Qed.
Lemma in_name_entries e : e ∈ name_entries u sn → ∃ k, (k < parts u)%nat ∧ e = entry_of u (lfn_checksum sn) k.
Proof. unfold name_entries. rewrite list_elem_of_fmap. intros (k & -> & Hk). exists k. rewrite elem_of_reverse, elem_of_seq in Hk. split; [lia|done]. Qed.
Lemma padded_units : Forall is_unit (padded u).
Proof using Hu.
  unfold padded. destruct (_ =? _)%nat; [done|]. apply Forall_app. split; [done|]. constructor; [by unfold is_unit|]. apply Forall_replicate. by unfold is_unit.
Qed.
Lemma name_entries_wf : Forall lfn_entry_wf (name_entries u sn).
Proof using Hu Hl.
  apply Forall_forall. intros e (k & Hk & ->)%in_name_entries. pose proof (order_range u k Hk parts_31) as Ho. pose proof (length_pad_part u k Hk) as Hp.
  pose proof (lfn_checksum_range sn) as Hc. assert (Forall is_unit (pad_part (part u k))) as Hpu by (rewrite pad_part_padded by done; apply Forall_take, Forall_drop, padded_units).
  unfold lfn_entry_wf, entry_of. cbn -[entry_order pad_part take drop]. split_and!; try lia; try (by unfold is_unit; lia);
    rewrite ?length_take, ?length_drop, ?Hp; try done; try (by repeat first [apply Forall_take|apply Forall_drop]).
Qed.
Lemma name_entries_shown skip : Forall (λ e, shown skip (LfnEntry e)) (name_entries u sn).
Proof using Hl.
  apply Forall_forall. intros e (k & Hk & ->)%in_name_entries. pose proof (order_range u k Hk parts_31) as Ho.
  unfold shown, should_ship_entry, is_end, is_deleted, lfn_is_end, lfn_is_deleted, DIR_ENTRY_DELETED_FLAG. change (order (entry_of u (lfn_checksum sn) k)) with (entry_order u k).
  rewrite !(proj2 (Z.eqb_neq _ _)) by lia. done.
Qed.
Lemma name_entries_join b x : u ≠ [] → last u = Some x → lfn_pad x = false → into_vec (validate_chksum (fold_left lnb_step (name_entries u sn) b) sn) = u.
Proof using Hu Hl.
  intros Hne Hx Hp. pose proof (parts_bounds u). pose proof parts_31. assert (length u ≠ 0%nat) by (by destruct u).
  rewrite (process_fold _ b {| buf := padded u; b_chksum := lfn_checksum sn; index := 1 |}) by (apply process_entries; [done|apply lfn_checksum_range|lia]).
  unfold validate_chksum. cbn [lnb_is_empty index b_chksum]. rewrite Z.eqb_refl. cbn [into_vec index lnb_truncate buf]. by apply (strip_padded u x).
Qed.
End entries.

(** ** Short entries *)

Abbreviation printable := (λ b : Z, 0x20 ≤ b < 0x80).
Lemma copy_part_printable room src : ∀ dst lossy, Forall printable dst → Forall printable (copy_short_name_part room src dst lossy).1.1.
Proof.
  induction src as [|c src IH]; intros dst lossy Hd; cbn [copy_short_name_part]; [done|]. destruct (_ =? _)%nat; [done|]. destruct (_ || _); [by apply IH|]. apply IH.
  apply Forall_app. split; [done|]. constructor; [|done]. destruct (short_name_char c) eqn:E; [|by vm_compute].
  unfold short_name_char, is_alnum in E. unfold to_ascii_uppercase. assert (0x20 ≤ c < 0x80); [|case_match; lia].
  apply orb_true_iff in E as [E|E]; [lia|]. apply bool_decide_eq_true in E. rewrite !elem_of_cons, elem_of_nil in E. lia.
Qed.
Lemma pad_to_printable k l : Forall printable l → Forall printable (pad_to k l).
Proof. intros H. apply Forall_app. split; [done|]. apply Forall_replicate. by unfold SFN_PADDING. Qed.
Lemma sng_new_printable n : Forall printable (short_name (sng_new n)).
Proof.
  unfold sng_new. destruct (rsplit_dot n) as [[b e]|].
  - pose proof (copy_part_printable 8 b [] false ltac:(done)) as H1. pose proof (copy_part_printable 3 e [] false ltac:(done)) as H2.
    destruct (copy_short_name_part 8 b [] false) as [[base ?] ?], (copy_short_name_part 3 e [] false) as [[ext ?] ?]. cbn [short_name]. apply Forall_app. split; by apply pad_to_printable.
  - pose proof (copy_part_printable 8 n [] false ltac:(done)) as H1. destruct (copy_short_name_part 8 n [] false) as [[base ?] ?]. cbn [short_name].
    apply Forall_app. split; by apply pad_to_printable.
Qed.
Lemma hex_digit_printable x : 0 ≤ x < 16 → printable (hex_digit x).
Proof. intros. unfold hex_digit. case_match; lia. Qed.
Lemma nibble_range x : 0 ≤ Z.land x 0xF < 16.
Proof. change 0xF with (2 ^ 4 - 1). rewrite land_pow2_mod by lia. apply Z.mod_pos_bound. lia. Qed.
Lemma first_free_in bm r i : first_free bm r = Some i → i ∈ r.
Proof. induction r as [|j r IH]; [done|]. cbn. case_match; [intros [= ->]; by left|]. right. by apply IH. Qed.
Lemma generate_printable g s : Forall printable (short_name g) → generate g = IoOk s → Forall printable s.
Proof.
  intros Hg. unfold generate. destruct (_ && _); [by intros [= <-]|].
  assert (∀ k c, 0 ≤ k ≤ 9 → Forall printable (build_prefixed_name g k c)) as Hb.
  { intros k c Hk. apply Forall_app. split; [|by apply Forall_drop]. apply pad_to_printable, Forall_app. split; [|by repeat constructor; lia].
    destruct c; [|by apply Forall_take]. apply Forall_app. split; [by apply Forall_take|]. repeat constructor; apply hex_digit_printable, nibble_range. }
  destruct (first_free _ [1; 2; 3; 4]) as [i|] eqn:E; [intros [= <-]; apply Hb; apply first_free_in in E; rewrite !elem_of_cons, elem_of_nil in E; lia|].
  destruct (first_free (prefix_chksum_bitmap g) _) as [i|] eqn:E2; [intros [= <-]; apply Hb; apply first_free_in in E2; rewrite !elem_of_cons, elem_of_nil in E2; lia|done].
Qed.
Lemma round_printable names n k s : generate (round names (sng_new n) k) = IoOk s → Forall printable s.
Proof.
  apply generate_printable. destruct (round_same (sng_new n) names k (sng_ck _ (sng_new_wf n))) as [(E & _) _]. rewrite E. apply sng_new_printable.
Qed.
(** An entry with such a name that is no volume label is listed. *)
Lemma file_shown skip d : Forall printable (name d) → length (name d) = 11%nat → is_volume d = false → shown skip (FileEntry d).
Proof.
  intros Hp Hl Hv. unfold shown, should_ship_entry, is_end, is_deleted, dfe_is_end, dfe_is_deleted. destruct (name d) as [|b s]; [done|]. inversion_clear Hp as [|? ? Hb _]. unfold at0. cbn.
  unfold DIR_ENTRY_DELETED_FLAG. rewrite !(proj2 (Z.eqb_neq _ _)) by lia. by rewrite Hv, andb_false_r.
Qed.
Lemma file_name_long upper_other e n c : long_name n → lfn_utf16 e = n → file_name e c = n ∧ eq_name upper_other e n c = true.
Proof.
  intros Hn He. destruct (long_name_chars n Hn) as (Hne & _). destruct (long_name_units n Hn) as (_ & _ & E). assert (file_name e c = n) as Ef.
  { unfold file_name. rewrite He. by rewrite bool_decide_eq_false_2. }
  split; [done|]. unfold eq_name. rewrite Ef. by rewrite bool_decide_eq_true_2.
Qed.

(** * Operations *)

(** The slots of a new entry with the name [u], in a directory that holds [es] *)
Definition new_slot (u : list Z) (es : list DirEntryData) : nat := free_at (S (parts u)) 0 0 0 es.
Definition new_entries (u : list Z) (d : DirFileEntryData) : list DirEntryData := (LfnEntry <$> name_entries u (name d)) ++ [FileEntry d].
Lemma new_entries_wf u d : Forall is_unit u → (length u ≤ 403)%nat → file_entry_wf d → Forall entry_wf (new_entries u d).
Proof. intros Hu Hl Hd. apply Forall_app. split; [apply Forall_fmap; by apply name_entries_wf|]. constructor; [exact Hd|done]. Qed.
(** There is room for it: the directory need not grow. *)
Definition has_room (u : list Z) (es : list DirEntryData) : Prop := (new_slot u es + S (parts u) ≤ length es)%nat.

Section write.
Context {D : Type} `{!Stream D} `{!ByteStream (DirRawStream * FileSystem D)} `{!DirStream D}.
Abbreviation Fs := (FileSystem D).

Lemma write_new_spec (s : DirRawStream * Fs) es u raw : Forall entry_wf es → Forall is_unit u → (length u ≤ 403)%nat → file_entry_wf raw → has_room u es →
  stream_rep s (dir_bytes es) 0 → (length es < dir_fuel s.2)%nat → let p := new_slot u es in let q := 32 * Z.of_nat (p + S (parts u)) in
  ∃ s', (start_pos ←? alloc_and_write_lfn_entries u (name raw);
         dfe_serialize raw ?;
         end_pos ←? s_seek (SeekCurrent 0);
         pos ← entry_abs_pos;
         ok {| de_data := raw; de_short_name := sn_new (name raw); lfn_utf16 := u; entry_pos := pos; offset_range := (start_pos, end_pos) |}) s =
      Ok (IoOk {| de_data := raw; de_short_name := sn_new (name raw); lfn_utf16 := u; entry_pos := disk_pos q - 32; offset_range := (32 * Z.of_nat p, q) |}, s') ∧
    stream_rep s' (dir_bytes (put_entries p (new_entries u raw) es)) q.
Proof.
  intros Hes Hu Hl Hraw Hroom Hs Hfu. cbv zeta. unfold has_room in Hroom. set (p := new_slot u es) in *. pose proof (parts_31 u Hl) as H31. set (sn := name raw).
  pose proof (length_name_entries u sn) as Ln. pose proof (name_entries_wf u sn Hu Hl) as Hwf.
  destruct (find_free_slots (S (parts u)) es (dir_fuel s.2) Hes ltac:(lia) s 0 0 0 Hs ltac:(lia) ltac:(lia) ltac:(lia) ltac:(lia)) as (s1 & H1 & Hs1).
  change (drop 0 es) with es in Hs1. change (free_at (S (parts u)) 0 0 0 es) with p in Hs1. destruct (stream_tell s1 _ _ Hs1) as (s2 & H2 & Hs2).
  destruct (write_lfns (name_entries u sn) s2 es p Hes Hwf ltac:(lia) Hs2) as (s3 & H3 & Hs3). rewrite Ln in Hs3.
  assert (alloc_and_write_lfn_entries u sn s = Ok (IoOk (32 * Z.of_nat p), s3)) as Ha.
  { unfold alloc_and_write_lfn_entries. cbv zeta. rewrite leg_len_parts by done. replace (Z.of_nat (parts u) + 1) with (Z.of_nat (S (parts u))) by lia.
    erewrite try_ok; [|unfold find_free_entries; rewrite (M_bind_eq _ _ s s s eq_refl); exact H1]. rewrite (try_ok _ _ _ _ _ H2).
    rewrite lfn_entries_spec by done. run_refl. by rewrite (try_ok _ _ _ _ _ H3). }
  rewrite (try_ok _ _ _ _ _ Ha). clear Ha H1 H2 H3. set (es1 := put_entries p (LfnEntry <$> name_entries u sn) es) in *.
  assert (length (LfnEntry <$> name_entries u sn) = parts u) as Ln' by (by rewrite length_fmap).
  assert (length es1 = length es) as Le1 by (apply length_put; lia). assert (Forall entry_wf es1) as Hes1 by (apply put_wf; [done|]; by apply Forall_fmap).
  destruct (entry_write s3 es1 (p + parts u) (FileEntry raw) Hes1 Hraw ltac:(lia) Hs3) as (s4 & H4 & Hs4). cbn [entry_serialize] in H4. rewrite (try_ok _ _ _ _ _ H4).
  assert (<[(p + parts u)%nat := FileEntry raw]> es1 = put_entries p (new_entries u raw) es) as E.
  { unfold new_entries. fold sn. rewrite <- put_app by (rewrite Ln'; cbn [length]; lia). fold es1. rewrite Ln', <- put_cons by lia. by rewrite put_nil. }
  rewrite E in Hs4. replace (S (p + parts u)) with (p + S (parts u))%nat in Hs4 by lia. destruct (stream_tell s4 _ _ Hs4) as (s5 & H5 & Hs5). rewrite (try_ok _ _ _ _ _ H5).
  destruct (disk_pos_spec s5 _ _ Hs5 ltac:(lia)) as [Hp Hr]. unfold entry_abs_pos.
  assert ((p0 ← raw_abs_pos; q ← lift match p0 with Some p1 => q ← u64 (p1 - DIR_ENTRY_SIZE); mret (Some q) | None => mret None end; lift (unwrap q)) s5 =
    Ok (disk_pos (32 * Z.of_nat (p + S (parts u))) - 32, s5)) as Hab.
  { run Hp. unfold DIR_ENTRY_SIZE. rewrite chk_in by lia. by run_refl. }
  run Hab. by exists s5.
Qed.
Lemma delete_new_spec (s : DirRawStream * Fs) es i n : Forall entry_wf es → (i + n ≤ length es)%nat → stream_rep s (dir_bytes es) 0 →
  ∃ s', (s_seek (SeekStart (32 * Z.of_nat i)) ?; num ← lift (u64 (32 * Z.of_nat (i + n) - 32 * Z.of_nat i)); delete_entries (Z.to_nat (num `div` DIR_ENTRY_SIZE))) s = Ok (IoOk tt, s') ∧
    stream_rep s' (dir_bytes (put_entries i (set_deleted <$> take n (drop i es)) es)) (32 * Z.of_nat (i + n)).
Proof.
  intros Hes Hi Hs. pose proof (dir_len es Hes s _ Hs) as Hm. pose proof (length_dir_bytes es Hes) as Hl. destruct (stream_seek s _ _ (32 * Z.of_nat i) Hs) as (s1 & H1 & Hs1); [lia|].
  rewrite (try_ok _ _ _ _ _ H1). chk_run. unfold DIR_ENTRY_SIZE. replace (32 * Z.of_nat (i + n) - 32 * Z.of_nat i) with (Z.of_nat n * 32) by lia. rewrite Z.div_mul, Nat2Z.id by lia.
  by apply delete_spec.
Qed.
End write.

(** ** On the volume *)

Section ops.
Variable upper_other : Z → list Z.
Context {D : Type} `{!Stream D, !ByteStream D, !WholeWrites D, !FlushKeeps D}.
Abbreviation Fs := (FileSystem D).
Abbreviation conv fs := (oem_cp_converter (options fs)).

(** The entry written for the name [n] in the slots that end at [p], of a long name that began at [bg] *)
Definition new_entry (fs : Fs) (l n : list Z) (raw : DirFileEntryData) (bg p : nat) : DirEntry :=
  {| de_data := raw; de_short_name := sn_new (name raw); lfn_utf16 := n; entry_pos := root_pos fs l (32 * Z.of_nat p) - 32;
     offset_range := (32 * Z.of_nat bg, 32 * Z.of_nat p) |}.
Lemma write_entry_spec fs A tab B l es n raw : dir_on fs A tab B l es → long_name n → file_entry_wf raw → has_room n es → ∃ fs' B',
  write_entry (root_handle fs) n raw fs = Ok (IoOk (new_entry fs l n raw (new_slot n es) (new_slot n es + S (parts n))), fs') ∧
  dir_step fs A tab l B fs' B' (put_entries (new_slot n es) (new_entries n raw) es).
Proof.
  intros Hd Hn Hraw Hroom. destruct (long_name_units n Hn) as (Eu & Hu & _). destruct (long_name_chars n Hn) as (_ & Hl & _). pose proof (do_wf _ _ _ _ _ _ Hd) as Hw.
  destruct (write_new_spec (ByteStream0 := root_stream fs A tab B l) (DirStream0 := root_dir_stream fs A tab B l) (root_handle fs, fs) es n raw)
    as (s' & H & Hs'); try done; [lia|by apply root_open|by apply (dir_fuel_enough fs A tab B l)|].
  destruct (with_root _ fs A tab B l es (put_entries (new_slot n es) (new_entries n raw) es) _ s' _ Hd H Hs') as (fs' & B' & Hws & Hst).
  { apply put_wf; [done|]. apply new_entries_wf; [done|lia|done]. }
  exists fs', B'. split; [|done]. unfold write_entry. rewrite (ln_valid _ Hn). cbv zeta. rewrite Eu. exact Hws.
Qed.
(** The list after [write_entry] *)
Lemma write_entry_listing fs l es n raw : Forall entry_wf es → clean es → long_name n → file_entry_wf raw → has_room n es → shown true (FileEntry raw) →
  let es' := put_entries (new_slot n es) (new_entries n raw) es in clean es' ∧ length es' = length es ∧
  ∃ l1 l2 bg, (bg ≤ new_slot n es)%nat ∧ listing_of fs l es = l1 ++ l2 ∧ listing_of fs l es' = l1 ++ new_entry fs l n raw bg (new_slot n es + S (parts n)) :: l2.
Proof.
  intros Hw Hc Hn Hraw Hroom Hsh. destruct (long_name_units n Hn) as (_ & Hu & _). destruct (long_name_chars n Hn) as (Hne & Hl & _). destruct (long_name_last n Hn) as (x & Hx & Hpx).
  pose proof (length_name_entries n (name raw)) as Ln. assert (free_slots (S (parts n)) (new_slot n es) es) as Hfree by (apply (free_at_spec (S (parts n)) es [] [] 0 0); done || (cbn; lia)).
  destruct (listing_insert (root_pos fs l) true es (name_entries n (name raw)) raw (S (parts n)) (new_slot n es)) as (Hc' & Hw' & l1 & l2 & b & bg & Hbg & Hb & H1 & H2);
    try done; [by rewrite Ln|apply name_entries_shown; lia| |].
  { apply (new_entries_wf n raw); [done|lia|done]. }
  cbv zeta. split; [exact Hc'|]. split; [apply length_put; unfold new_entries; rewrite length_app, length_fmap, Ln; cbn [length]; unfold has_room in Hroom; lia|].
  exists l1, l2, bg. split; [done|]. split; [done|]. unfold listing_of, new_entries. rewrite H2. do 2 f_equal. unfold listed, new_entry. rewrite Ln.
  replace (S (new_slot n es + parts n)) with (new_slot n es + S (parts n))%nat by lia. f_equal. apply (name_entries_join n (name raw)) with x; try done. lia.
Qed.

(** ** New files *)

Lemma time_encode_hi tm t : time_encode tm = Ok t → 0 ≤ t.2 < 2 ^ 8.
Proof. unfold time_encode. intros H. inv_exec. injection H as <- <-. by apply cast_range. Qed.
Lemma create_sfn_spec (fs : Fs) sn a : clock_ok (options fs) → length sn = 11%nat → 0 ≤ a < 0x40 → Z.land a LFN ≠ LFN →
  ∃ raw, create_sfn_entry fs sn a None = Ok raw ∧ file_entry_wf raw ∧ name raw = sn ∧ attrs raw = a ∧ e_size raw = 0 ∧ ∀ t, dfe_first_cluster raw t = None.
Proof.
  intros [(dt & d & t & H1 & H2 & H3 & H4 & H5) _] Hl Ha1 Ha2. pose proof (time_encode_hi _ _ H3) as H6. unfold create_sfn_entry. rewrite H1. cbn [mbind exec_bind].
  unfold dfe_set_created. rewrite H2. cbn [mbind exec_bind]. rewrite H3. cbn [mbind exec_bind mret exec_ret]. unfold dfe_set_accessed. rewrite H2. cbn [mbind exec_bind mret exec_ret].
  unfold dfe_set_modified. rewrite H2. cbn [mbind exec_bind mret exec_ret]. rewrite H3. cbn [mbind exec_bind mret exec_ret]. eexists. split; [done|]. split_and!; try done.
  - unfold file_entry_wf. cbn -[Z.pow]. split_and!; try done; try lia; by destruct (is_Fat32 (fat_type fs)).
  - intros t'. unfold dfe_first_cluster. cbn. by destruct (is_Fat32 t'), (is_Fat32 (fat_type fs)).
Qed.

(** A search that fails, in the parts of a list *)
Lemma find_app_None {X} (f : X → bool) l1 l2 : List.find f (l1 ++ l2) = None ↔ List.find f l1 = None ∧ List.find f l2 = None.
Proof. induction l1 as [|x l1 IH]; cbn; [naive_solver|]. destruct (f x); [naive_solver|done]. Qed.
Lemma find_app_at {X} (f : X → bool) l1 x l2 : List.find f l1 = None → f x = true → List.find f (l1 ++ x :: l2) = Some x.
Proof. intros H Hx. induction l1 as [|y l1 IH]; cbn in *; [by rewrite Hx|]. destruct (f y); [done|by apply IH]. Qed.
Lemma find_split {X} (f : X → bool) l x : List.find f l = Some x → ∃ l1 l2, l = l1 ++ x :: l2 ∧ List.find f l1 = None ∧ f x = true.
Proof.
  induction l as [|y l IH]; cbn; [done|]. destruct (f y) eqn:E; [intros [= ->]; by exists [], l|]. intros H. destruct (IH H) as (l1 & l2 & -> & H1 & H2).
  exists (y :: l1), l2. cbn. by rewrite E.
Qed.
Lemma in_parent_here {X} fuel dir path n (step : DirRawStream → list Z → M Fs (ioresult X)) : split_path path = (n, None) → in_parent upper_other (S fuel) dir path step = step dir n.
Proof. intros H. cbn [in_parent]. by rewrite H. Qed.

(** None of the entries has the name. *)
Definition unnamed (fs : Fs) (n : list Z) (l : list DirEntry) : Prop := List.find (λ e, eq_name upper_other e n (conv fs)) l = None.
Lemma search_split fs n want l e : search_list upper_other n want (conv fs) l = IoOk e → ∃ l1 l2, l = l1 ++ e :: l2 ∧ unnamed fs n l1 ∧ eq_name upper_other e n (conv fs) = true.
Proof.
  unfold search_list. destruct (List.find _ _) as [e'|] eqn:E; [|done]. case_bool_decide; [done|]. intros [= ->]. destruct (find_split _ _ _ E) as (l1 & l2 & -> & H1 & H2). by exists l1, l2.
Qed.
Lemma search_none fs n want l : search_list upper_other n want (conv fs) l = IoErr NotFound → unnamed fs n l.
Proof. unfold search_list, unnamed. destruct (List.find _ _); [by case_bool_decide|done]. Qed.

(** What [create_file] did to a directory that held [es]: one new entry, which is empty and is the one that is found under its name *)
Record created_in (fs : Fs) (l n : list Z) (es es' : list DirEntryData) (e : DirEntry) : Prop := {
  ci_list : ∃ l1 l2, listing_of fs l es = l1 ++ l2 ∧ listing_of fs l es' = l1 ++ e :: l2 ∧ unnamed fs n l1;
  ci_name : file_name e (conv fs) = n;
  ci_short : name (de_data e) ∉ dir_names (listing_of fs l es);
  ci_empty : de_is_file e = true ∧ de_len e = 0 ∧ de_first_cluster e Fat32 = None;
  ci_found : search_list upper_other n (Some false) (conv fs) (listing_of fs l es') = IoOk e;
}.
Lemma create_file_spec fs A tab B l es path n : dir_on fs A tab B l es → clean es → Z.of_nat (length es) < 65536 → split_path path = (n, None) → long_name n →
  search_list upper_other n (Some false) (conv fs) (listing_of fs l es) = IoErr NotFound → has_room n es → ∃ f fs' B' es' e,
  create_file upper_other (root_handle fs) path fs = Ok (IoOk f, fs') ∧ dir_step fs A tab l B fs' B' es' ∧ clean es' ∧ length es' = length es ∧
  f = file_new None (Some (ed_new (de_data e) (entry_pos e))) ∧ created_in fs l n es es' e.
Proof.
  intros Hd Hcl Hlen Hsp Hn Hse Hroom. pose proof (search_none fs n _ _ Hse) as Hno.
  destruct (existence_spec upper_other fs A tab B l es n (Some false) Hd Hlen Hno) as (sn & k & fs1 & B1 & H1 & Hst1 & Hfresh & H11 & Hgen). pose proof Hst1 as (Hd1 & Hs1 & _).
  destruct (create_sfn_spec fs1 sn (attrs_truncate 0) (do_clock _ _ _ _ _ _ Hd1) H11) as (raw & H2 & Hraw & En & Ea & Esz & Efc); [by vm_compute|by vm_compute|].
  assert (is_dir raw = false ∧ is_volume raw = false) as [Hndir Hnvol] by (unfold is_dir, is_volume; by rewrite Ea).
  assert (shown true (FileEntry raw)) as Hsh by (apply file_shown; rewrite ?En; [by apply (round_printable (dir_names (listing_of fs l es)) n k)|done|done]).
  destruct (write_entry_spec fs1 A tab B1 l es n raw Hd1 Hn Hraw Hroom) as (fs2 & B2 & H3 & Hst2). set (e0 := new_entry _ _ _ _ _ _) in H3.
  destruct (write_entry_listing fs l es n raw (do_wf _ _ _ _ _ _ Hd) Hcl Hn Hraw Hroom Hsh) as (Hcl' & Hlen' & l1 & l2 & bg & Hbg & Hl1 & Hl2).
  set (es' := put_entries _ _ es) in *. set (e := new_entry fs l n raw bg _) in Hl2. destruct (file_name_long upper_other e n (conv fs) Hn eq_refl) as [Hfn Heq].
  pose proof Hno as Hno'. unfold unnamed in Hno'. rewrite Hl1 in Hno'. apply find_app_None in Hno' as [Hno1 _].
  exists (file_new None (Some (ed_new raw (entry_pos e)))), fs2, B2, es', e. split_and!; try done.
  - unfold create_file. rewrite (in_parent_here _ _ _ n) by done. rewrite (try_ok _ _ _ _ _ H1). rewrite (M_bind_eq _ _ fs1 fs1 fs1 eq_refl). rewrite H2. run_refl.
    rewrite (root_handle_same fs fs1 Hs1) in H3. rewrite (try_ok _ _ _ _ _ H3). unfold to_file, de_is_dir, de_first_cluster, editor. cbn [de_data e0 new_entry].
    rewrite Hndir, Efc. cbn [negb ensure]. run_refl. unfold e, e0. cbn [entry_pos new_entry]. by rewrite (root_pos_same fs fs1 l _ Hs1).
  - by apply (dir_step_trans fs fs1 fs2 A tab l B B1 B2 es es').
  - split; try done.
    + by exists l1, l2.
    + by cbn [de_data e new_entry]; rewrite En.
    + unfold de_is_file, de_len, de_first_cluster, is_file. cbn [de_data e new_entry]. by rewrite Hndir, Esz, Efc.
    + unfold search_list. rewrite Hl2, (find_app_at _ l1 e l2) by done. unfold de_is_dir. cbn [de_data e new_entry]. rewrite Hndir. by rewrite bool_decide_eq_false_2 by naive_solver.
Qed.

(** ** Files that exist *)

Lemma search_kind n b c l e : search_list upper_other n (Some b) c l = IoOk e → de_is_dir e = b.
Proof. unfold search_list. destruct (List.find _ _) as [e'|]; [|done]. case_bool_decide as H; [done|]. intros [= ->]. destruct (decide (de_is_dir e = b)) as [|Hne]; [done|]. destruct H. split; congruence. Qed.
(** The file of an entry, or the error of the search *)
Definition opened_file (r : ioresult DirEntry) : ioresult File :=
  match r with IoOk e => IoOk (file_new (de_first_cluster e Fat32) (Some (editor e))) | IoErr e => IoErr e end.
Lemma to_file_spec e : de_is_dir e = false → to_file e Fat32 = Ok (file_new (de_first_cluster e Fat32) (Some (editor e))).
Proof. intros H. unfold to_file. by rewrite H. Qed.
Lemma dir_fat32 (fs : Fs) A tab B l es : dir_on fs A tab B l es → fat_type fs = Fat32.
Proof. intros Hd. apply (v_fat32 _ _ _ _ (co_volume _ _ _ _ _ (do_chain _ _ _ _ _ _ Hd))). Qed.
(** [open_file] on every branch: the first entry with the name, if it is a file *)
Theorem open_file_correct fs A tab B l es path n : dir_on fs A tab B l es → split_path path = (n, None) → ∃ fs' B',
  open_file upper_other (root_handle fs) path fs = Ok (opened_file (search_list upper_other n (Some false) (conv fs) (listing_of fs l es)), fs') ∧ dir_step fs A tab l B fs' B' es.
Proof.
  intros Hd Hsp. destruct (find_entry_spec upper_other fs A tab B l es n (Some false) Hd) as (fs1 & B1 & H1 & Hst). exists fs1, B1. split; [|done]. pose proof Hst as (Hd1 & _).
  unfold open_file. rewrite (in_parent_here _ _ _ n) by done. destruct (search_list _ n _ _ _) as [e|e] eqn:E; [|by unfold try; run H1]. rewrite (try_ok _ _ _ _ _ H1).
  rewrite (M_bind_eq _ _ fs1 fs1 fs1 eq_refl). by rewrite (dir_fat32 fs1 A tab B1 l es), to_file_spec by (done || by apply (search_kind n false (conv fs) (listing_of fs l es))).
Qed.
(** [create_file] under a name that is taken opens the file, or fails when it is a directory's; the directory does not change. *)
Theorem create_file_existing fs A tab B l es path n : dir_on fs A tab B l es → split_path path = (n, None) →
  search_list upper_other n (Some false) (conv fs) (listing_of fs l es) ≠ IoErr NotFound → ∃ fs' B',
  create_file upper_other (root_handle fs) path fs = Ok (opened_file (search_list upper_other n (Some false) (conv fs) (listing_of fs l es)), fs') ∧ dir_step fs A tab l B fs' B' es.
Proof.
  intros Hd Hsp Hne. destruct (existence_found upper_other fs A tab B l es n (Some false) _ Hd eq_refl Hne) as (fs1 & B1 & H1 & Hst). exists fs1, B1. split; [|done]. pose proof Hst as (Hd1 & _).
  unfold create_file. rewrite (in_parent_here _ _ _ n) by done. destruct (search_list _ n _ _ _) as [e|e] eqn:E; [|by unfold try; run H1]. rewrite (try_ok _ _ _ _ _ H1).
  rewrite (M_bind_eq _ _ fs1 fs1 fs1 eq_refl). by rewrite (dir_fat32 fs1 A tab B1 l es), to_file_spec by (done || by apply (search_kind n false (conv fs) (listing_of fs l es))).
Qed.

(** ** Removing *)

Lemma free_entries_spec fs A tab B l es l1 e l2 : dir_on fs A tab B l es → clean es → listing_of fs l es = l1 ++ e :: l2 → ∃ fs' B' es',
  free_entries (root_handle fs) e fs = Ok (IoOk tt, fs') ∧ dir_step fs A tab l B fs' B' es' ∧ clean es' ∧ length es' = length es ∧ listing_of fs l es' = l1 ++ l2 ∧
  file_entry_wf (de_data e) ∧ shown true (FileEntry (de_data e)) ∧ end_room es' = end_room es.
Proof.
  intros Hd Hc Hl. pose proof (do_wf _ _ _ _ _ _ Hd) as Hw. destruct (listing_remove (root_pos fs l) true es l1 e l2 Hw Hc Hl) as (Hwe & Hsh & i & n & Ho & Hin & Hl' & Hc' & Hw' & Her).
  set (es' := put_entries i _ es) in *. assert (length es' = length es) as Hlen by (apply length_put; rewrite length_fmap, length_take, length_drop; lia).
  destruct (delete_new_spec (ByteStream0 := root_stream fs A tab B l) (DirStream0 := root_dir_stream fs A tab B l) (root_handle fs, fs) es i n Hw Hin) as (s' & H & Hs'); [by apply root_open|].
  destruct (with_root _ fs A tab B l es es' _ s' _ Hd H Hs' Hw') as (fs' & B' & Hws & Hst). exists fs', B', es'. split_and!; try done.
  unfold free_entries. rewrite Ho. cbn [fst snd]. exact Hws.
Qed.

(** A file's clusters: a chain of the volume apart from the directory's *)
Record file_chain (fs : Fs) (tab l : list Z) (lf : list Z) : Prop := {
  fc_chain : chain Fat32 tab lf;
  fc_live : Forall (live (fs_total_clusters fs)) lf;
  fc_nodup : NoDup lf;
  fc_used c : c ∈ lf → fat_value Fat32 tab c ≠ Free;
  fc_apart c : c ∈ lf → c ∉ l;
}.
Lemma file_chain_nil fs tab l : file_chain fs tab l [].
Proof. split; try done; [constructor|..]; intros c Hc; by apply elem_of_nil in Hc. Qed.
Lemma dir_on_table (fs fs' : Fs) A tab tab' B l es : dir_on fs A tab B l es → volume fs' A tab' B → same_volume fs fs' →
  (∀ c, c ∈ l → fat_value Fat32 tab' c = fat_value Fat32 tab c) → dir_on fs' A tab' B l es.
Proof.
  intros [Hc Hk Hf Hb Hw Hm Hr] Hv Hs Ht. pose proof Hs as (Eo & _ & Eb & _ & Er & Et & _). pose proof (geometry_same fs fs' A tab 0 B Hs) as (Ecs & _).
  assert (length tab' = length tab) as Hlen.
  { pose proof (v_bs _ _ _ _ Hv) as H1. pose proof (v_bs _ _ _ _ (co_volume _ _ _ _ _ Hc)) as H2. rewrite Eb in H1. lia. }
  destruct Hc as [Hv0 Ha Hch Hli Hnd Hu]. split; rewrite ?Eo, ?Eb, ?Er, ?Ecs; try done.
  - split; try done.
    + by apply (data_area_same fs fs' A tab B tab' B).
    + by apply (chain_same Fat32 tab).
    + by rewrite Et.
    + intros c Hin. rewrite Ht by done. by apply Hu.
  - rewrite <- Hb, <- (content_same fs fs' A tab B l Hs). unfold content. f_equal. apply list_fmap_ext. intros i c _. unfold cluster_data. by rewrite (in_data_len fs' A tab tab').
Qed.
Lemma release_file fs A tab B l es lf c : dir_on fs A tab B l es → file_chain fs tab l (c :: lf) → ∃ fs' tab', free_cluster_chain c fs = Ok (IoOk tt, fs') ∧
  dir_on fs' A tab' B l es ∧ same_volume fs fs' ∧ ∀ c', 0 ≤ c' → fat_value Fat32 tab' c' = if decide (c' ∈ c :: lf) then Free else fat_value Fat32 tab c'.
Proof.
  intros Hd [H1 H2 H3 H4 H5]. pose proof (do_chain _ _ _ _ _ _ Hd) as Hc. destruct (fs_release_spec fs A tab B c lf (co_volume _ _ _ _ _ Hc) H1 H2 H3 H4) as [(fs' & tab' & H & Hv & Hs & Ht) _].
  exists fs', tab'. split_and!; try done. apply (dir_on_table fs fs' A tab tab' B l es); try done. intros c' Hc'. rewrite Ht.
  - rewrite decide_False; [done|]. intros Hin. by apply (H5 c').
  - pose proof (cluster_live fs A tab B l Hc c' Hc') as Hli. unfold live, RESERVED_FAT_ENTRIES in Hli. lia.
Qed.
Lemma cluster_data_table (fs : Fs) A tab tab' B c : length tab' = length tab → cluster_data fs A tab' B c = cluster_data fs A tab B c.
Proof. intros H. unfold cluster_data. by rewrite (in_data_len fs A tab tab'). Qed.

(** What [remove] of the file [e] with the clusters [lf] left: the entry is gone, its clusters are free, and nothing else has changed *)
Record removed_from (fs : Fs) (A tab l B n : list Z) (es : list DirEntryData) (e : DirEntry) (lf : list Z) (fs' : Fs) (tab' B' : list Z) (es' : list DirEntryData) : Prop := {
  rf_dir : dir_on fs' A tab' B' l es';
  rf_same : same_volume fs fs';
  rf_clean : clean es' ∧ length es' = length es;
  rf_list : ∃ l1 l2, listing_of fs l es = l1 ++ e :: l2 ∧ listing_of fs l es' = l1 ++ l2 ∧ unnamed fs n l1;
  rf_table c : 0 ≤ c → fat_value Fat32 tab' c = if decide (c ∈ lf) then Free else fat_value Fat32 tab c;
  rf_data c : live (fs_total_clusters fs) c → c ∉ l → cluster_data fs A tab B' c = cluster_data fs A tab B c;
}.
Lemma remove_file_spec fs A tab B l es path n e lf : dir_on fs A tab B l es → clean es → split_path path = (n, None) →
  search_list upper_other n None (conv fs) (listing_of fs l es) = IoOk e → de_is_dir e = false → file_chain fs tab l lf → de_first_cluster e Fat32 = head lf → ∃ fs' tab' B' es',
  remove upper_other (root_handle fs) path fs = Ok (IoOk tt, fs') ∧ removed_from fs A tab l B n es e lf fs' tab' B' es'.
Proof.
  intros Hd Hcl Hsp Hse Hnd Hfc Hhd. destruct (find_entry_spec upper_other fs A tab B l es n None Hd) as (fs1 & B1 & H1 & Hst1). rewrite Hse in H1. pose proof Hst1 as (Hd1 & Hs1 & Hon1).
  assert (fat_type fs1 = Fat32) as Eft by apply (v_fat32 _ _ _ _ (co_volume _ _ _ _ _ (do_chain _ _ _ _ _ _ Hd1))).
  assert (∃ fs2 tab2, (match head lf with Some c => free_cluster_chain c | None => ok tt end) fs1 = Ok (IoOk tt, fs2) ∧ dir_on fs2 A tab2 B1 l es ∧ same_volume fs1 fs2 ∧
    ∀ c', 0 ≤ c' → fat_value Fat32 tab2 c' = if decide (c' ∈ lf) then Free else fat_value Fat32 tab c') as (fs2 & tab2 & H2 & Hd2 & Hs2 & Ht2).
  { destruct lf as [|c lf].
    - exists fs1, tab. by split_and!.
    - apply (release_file fs1 A tab B1 l es lf c Hd1). destruct Hfc. split; try done. destruct Hs1 as (_ & _ & _ & _ & _ & -> & _). done. }
  pose proof (same_volume_trans _ _ _ Hs1 Hs2) as Hs12.
  destruct (search_split fs n None _ e Hse) as (l1 & l2 & Hl & Hun & _).
  destruct (free_entries_spec fs2 A tab2 B1 l es l1 e l2 Hd2 Hcl) as (fs3 & B3 & es' & H3 & (Hd3 & Hs3 & Hon3) & Hcl' & Hlen & Hl' & _); [by rewrite (listing_of_same fs fs2)|].
  rewrite (listing_of_same fs fs2 l es' Hs12) in Hl'. rewrite (root_handle_same fs fs2 Hs12) in H3. exists fs3, tab2, B3, es'. split.
  - unfold remove. rewrite (in_parent_here _ _ _ n) by done. rewrite (try_ok _ _ _ _ _ H1). rewrite (M_bind_eq _ _ fs1 fs1 fs1 eq_refl). rewrite Hnd.
    rewrite (try_ok _ _ fs1 true fs1 eq_refl). cbn [negb]. rewrite Eft, Hhd. by rewrite (try_ok _ _ _ _ _ H2).
  - split; try done.
    + by apply (same_volume_trans _ fs2).
    + by exists l1, l2.
    + intros c Hc Hn. rewrite <- (Hon1 c Hc Hn). destruct (geometry_same fs fs2 A tab c B3 Hs12) as (_ & _ & <-), (geometry_same fs fs2 A tab c B1 Hs12) as (_ & _ & <-).
      assert (length tab2 = length tab) as Hlt.
      { pose proof (v_bs _ _ _ _ (co_volume _ _ _ _ _ (do_chain _ _ _ _ _ _ Hd2))) as E1. pose proof (v_bs _ _ _ _ (co_volume _ _ _ _ _ (do_chain _ _ _ _ _ _ Hd))) as E2.
        destruct Hs12 as (_ & _ & Eb & _). rewrite Eb in E1. lia. }
      rewrite <- !(cluster_data_table fs2 A tab tab2) by done. apply Hon3; [|done]. destruct Hs12 as (_ & _ & _ & _ & _ & -> & _). done.
Qed.

(** ** Renaming *)

Lemma end_has_room n es : (S (parts n) ≤ end_room es)%nat → has_room n es.
Proof. intros H. unfold has_room, new_slot. pose proof (free_at_before (S (parts n)) es 0 0 0 ltac:(lia)). lia. Qed.
(** What renaming left: the entry [e] is gone, and [e'] is in the list, which is [e] under the new name; the others are as they were *)
Record renamed_in (fs : Fs) (l dst : list Z) (es es' : list DirEntryData) (e e' : DirEntry) : Prop := {
  ri_list : ∃ l1 l2 k1 k2, listing_of fs l es = l1 ++ e :: l2 ∧ l1 ++ l2 = k1 ++ k2 ∧ listing_of fs l es' = k1 ++ e' :: k2;
  ri_data : de_data e' = renamed (de_data e) (name (de_data e'));
  ri_name : file_name e' (conv fs) = dst;
  ri_short : name (de_data e') ∉ dir_names (listing_of fs l es);
  ri_found : search_list upper_other dst None (conv fs) (listing_of fs l es') = IoOk e';
}.
Lemma rename_spec fs A tab B l es src dst e : dir_on fs A tab B l es → clean es → Z.of_nat (length es) < 65536 → split_path src = (src, None) → split_path dst = (dst, None) → long_name dst →
  search_list upper_other src None (conv fs) (listing_of fs l es) = IoOk e → search_list upper_other dst None (conv fs) (listing_of fs l es) = IoErr NotFound → (S (parts dst) ≤ end_room es)%nat → ∃ fs' B' es' e',
  rename upper_other (root_handle fs) src (root_handle fs) dst fs = Ok (IoOk tt, fs') ∧ dir_step fs A tab l B fs' B' es' ∧ clean es' ∧ length es' = length es ∧ renamed_in fs l dst es es' e e'.
Proof.
  intros Hd Hcl Hlen Hsp1 Hsp2 Hn Hse Hno%search_none Hroom. destruct (search_split fs src None _ e Hse) as (l1 & l2 & Hl & _ & _).
  destruct (find_entry_spec upper_other fs A tab B l es src None Hd) as (fs1 & B1 & H1 & Hst1). rewrite Hse in H1. pose proof Hst1 as (Hd1 & Hs1 & _). pose proof Hs1 as (Eo1 & _).
  destruct (existence_spec upper_other fs1 A tab B1 l es dst None Hd1 Hlen) as (sn & k & fs2 & B2 & H2 & Hst2 & Hfresh & H11 & Hgen); [rewrite Eo1, (listing_of_same fs fs1) by done; exact Hno|].
  pose proof Hst2 as (Hd2 & Hs2 & _). pose proof (same_volume_trans _ _ _ Hs1 Hs2) as Hs12. rewrite (listing_of_same fs fs1) in Hfresh, Hgen by done.
  destruct (free_entries_spec fs2 A tab B2 l es l1 e l2 Hd2 Hcl) as (fs3 & B3 & es3 & H3 & Hst3 & Hcl3 & Hlen3 & Hl3 & Hwe & Hshe & Her); [by rewrite (listing_of_same fs fs2)|].
  rewrite (listing_of_same fs fs2) in Hl3 by done. pose proof Hst3 as (Hd3 & Hs3 & _). pose proof (same_volume_trans _ _ _ Hs12 Hs3) as Hs13.
  set (raw := renamed (de_data e) sn). assert (file_entry_wf raw) as Hraw by (destruct Hwe as (_ & Hwe); split; [exact H11|exact Hwe]).
  assert (shown true (FileEntry raw)) as Hsh.
  { apply file_shown; [by apply (round_printable (dir_names (listing_of fs l es)) dst k)|done|]. destruct Hshe as [_ Hshe]. unfold should_ship_entry in Hshe. apply orb_false_iff in Hshe as [_ Hshe]. exact Hshe. }
  assert (has_room dst es3) as Hroom3 by (apply end_has_room; lia). destruct (write_entry_spec fs3 A tab B3 l es3 dst raw Hd3 Hn Hraw Hroom3) as (fs4 & B4 & H4 & Hst4).
  destruct (write_entry_listing fs l es3 dst raw (do_wf _ _ _ _ _ _ Hd3) Hcl3 Hn Hraw Hroom3 Hsh) as (Hcl4 & Hlen4 & k1 & k2 & bg & Hbg & Hk1 & Hk2). set (es4 := put_entries _ _ es3) in *.
  set (e' := new_entry fs l dst raw bg _) in Hk2. destruct (file_name_long upper_other e' dst (conv fs) Hn eq_refl) as [Hfn Heq]. exists fs4, B4, es4, e'.
  rewrite (root_handle_same fs fs1 Hs1) in H2. rewrite (root_handle_same fs fs2 Hs12) in H3. rewrite (root_handle_same fs fs3 Hs13) in H4. split_and!; try done.
  - unfold rename. cbn [rename_src]. rewrite Hsp1. cbn [rename_dst]. rewrite Hsp2. unfold rename_internal. rewrite (try_ok _ _ _ _ _ H1), (try_ok _ _ _ _ _ H2), (try_ok _ _ _ _ _ H3).
    by rewrite (try_ok _ _ _ _ _ H4).
  - eapply dir_step_trans; [exact Hst1|]. eapply dir_step_trans; [exact Hst2|]. eapply dir_step_trans; [exact Hst3|exact Hst4].
  - by rewrite Hlen4.
  - rewrite Hl3 in Hk1. split; try done.
    + by exists l1, l2, k1, k2.
    + assert (unnamed fs dst k1) as Hun.
      { unfold unnamed in *. rewrite Hl, find_app_None in Hno. destruct Hno as [Hn1 Hn2]. cbn [List.find] in Hn2. destruct (eq_name _ e _ _); [done|].
        apply (proj1 (find_app_None _ k1 k2)). rewrite <- Hk1. by apply find_app_None. }
      unfold search_list. by rewrite Hk2, (find_app_at _ k1 e' k2).
Qed.

(** ** Properties *)

(** C29: Finding a name in the root directory, whatever entries it holds (deleted ones, stray or broken long names, no end marker), is the search for the first
    entry of its list: the same entry, [NotFound] without one, and an error when it is of the other kind.  The directory and the volume do not change. *)
Theorem find_entry_search fs A tab B l es n want : dir_on fs A tab B l es → ∃ fs' B',
  find_entry upper_other (root_handle fs) n want fs = Ok (search_list upper_other n want (conv fs) (listing_of fs l es), fs') ∧ dir_step fs A tab l B fs' B' es.
Proof. exact (find_entry_spec upper_other fs A tab B l es n want). Qed.

(** C13: Creating a file under a path of one component, a valid long name that no entry has, in a root directory with room for the entries (it need not grow), with
    nothing behind the first end marker and with fewer than 65536 entries: it adds one entry to the list and changes no other, nor any cluster outside the directory: the entry has the name
    asked for and a short name no other entry has, is empty, and is the one found under the name afterwards; the file returned is open on it. *)
Theorem create_file_correct fs A tab B l es path n : dir_on fs A tab B l es → clean es → Z.of_nat (length es) < 65536 → split_path path = (n, None) → long_name n →
  search_list upper_other n (Some false) (conv fs) (listing_of fs l es) = IoErr NotFound → has_room n es → ∃ f fs' B' es' e,
  create_file upper_other (root_handle fs) path fs = Ok (IoOk f, fs') ∧ dir_step fs A tab l B fs' B' es' ∧ clean es' ∧ length es' = length es ∧
  f = file_new None (Some (ed_new (de_data e) (entry_pos e))) ∧ created_in fs l n es es' e.
Proof. exact (create_file_spec fs A tab B l es path n). Qed.

(** C14: Removing a file takes its entry, and no other, from the list of the root directory; the clusters of the file become free, the rest of the table and
    the data of every cluster outside the directory stay as they were. *)
Theorem remove_file_correct fs A tab B l es path n e lf : dir_on fs A tab B l es → clean es → split_path path = (n, None) →
  search_list upper_other n None (conv fs) (listing_of fs l es) = IoOk e → de_is_dir e = false → file_chain fs tab l lf → de_first_cluster e Fat32 = head lf → ∃ fs' tab' B' es',
  remove upper_other (root_handle fs) path fs = Ok (IoOk tt, fs') ∧ removed_from fs A tab l B n es e lf fs' tab' B' es'.
Proof. exact (remove_file_spec fs A tab B l es path n e lf). Qed.

(** C15: Renaming inside the root directory, between paths of one component, to a valid long name that no entry has, with room for its entries at the end, nothing behind the first
    end marker and fewer than 65536 entries: it moves one entry to the new name: the entry found under it afterwards has the data of the old one and a short name
    that no entry had; every other entry, and every cluster outside the directory, is as it was. *)
Theorem rename_correct fs A tab B l es src dst e : dir_on fs A tab B l es → clean es → Z.of_nat (length es) < 65536 → split_path src = (src, None) → split_path dst = (dst, None) → long_name dst →
  search_list upper_other src None (conv fs) (listing_of fs l es) = IoOk e → search_list upper_other dst None (conv fs) (listing_of fs l es) = IoErr NotFound → (S (parts dst) ≤ end_room es)%nat → ∃ fs' B' es' e',
  rename upper_other (root_handle fs) src (root_handle fs) dst fs = Ok (IoOk tt, fs') ∧ dir_step fs A tab l B fs' B' es' ∧ clean es' ∧ length es' = length es ∧ renamed_in fs l dst es es' e e'.
Proof. exact (rename_spec fs A tab B l es src dst e). Qed.

Lemma split_unique {X} (f : X → bool) l1 l2 k1 k2 e : l1 ++ e :: l2 = k1 ++ e :: k2 → List.find f l1 = None → List.find f k1 = None → f e = true → l1 = k1 ∧ l2 = k2.
Proof.
  revert k1. induction l1 as [|x l1 IH]; intros [|y k1] H Hl Hk He; cbn in *.
  - by simplify_eq.
  - simplify_eq. by rewrite He in Hk.
  - simplify_eq. by rewrite He in Hl.
  - injection H as -> H. destruct (f y); [done|]. by destruct (IH k1 H Hl Hk He) as [-> ->].
Qed.

(** C30: Under the same conditions as for creating alone (a valid unused name, room without a new cluster, nothing behind the end marker, fewer than 65536 entries), creating a
    file and removing it restores the list of the root directory and the table, and touches no cluster outside the directory. *)
Theorem create_remove_roundtrip fs A tab B l es path n : dir_on fs A tab B l es → clean es → Z.of_nat (length es) < 65536 → split_path path = (n, None) → long_name n →
  search_list upper_other n (Some false) (conv fs) (listing_of fs l es) = IoErr NotFound → has_room n es → ∃ f fs1 fs2 tab2 B2 es2,
  create_file upper_other (root_handle fs) path fs = Ok (IoOk f, fs1) ∧ remove upper_other (root_handle fs) path fs1 = Ok (IoOk tt, fs2) ∧
  dir_on fs2 A tab2 B2 l es2 ∧ clean es2 ∧ same_volume fs fs2 ∧ listing_of fs2 l es2 = listing_of fs l es ∧
  (∀ c, 0 ≤ c → fat_value Fat32 tab2 c = fat_value Fat32 tab c) ∧ only_root fs A tab l B B2.
Proof.
  intros Hd Hcl Hlen Hsp Hn Hse Hroom. destruct (create_file_spec fs A tab B l es path n Hd Hcl Hlen Hsp Hn Hse Hroom) as (f & fs1 & B1 & es1 & e & H1 & (Hd1 & Hs1 & Ho1) & Hcl1 & _ & _ & Hci).
  destruct Hci as [(l1 & l2 & E1 & E2 & Hun) Hfn Hsh (Hf & Hz & Hfc) Hfo]. pose proof Hs1 as (Eo & _). pose proof (listing_of_same fs fs1 l es1 Hs1) as El.
  assert (de_is_dir e = false) as Hnd by (unfold de_is_file, is_file, de_is_dir in *; by destruct (is_dir (de_data e))).
  assert (search_list upper_other n None (conv fs1) (listing_of fs1 l es1) = IoOk e ∧ eq_name upper_other e n (conv fs) = true) as [Hse1 Heq].
  { rewrite Eo, El. destruct (search_split fs n _ _ e Hfo) as (k1 & k2 & -> & Hk & Heq). split; [|done]. unfold search_list. rewrite (find_app_at _ k1 e k2) by done. done. }
  destruct (remove_file_spec fs1 A tab B1 l es1 path n e [] Hd1 Hcl1 Hsp Hse1 Hnd) as (fs2 & tab2 & B2 & es2 & H2 & [Hd2 Hs2 [Hcl2 _] (k1 & k2 & E3 & E4 & Hun2) Ht Hda]); [apply file_chain_nil|done|].
  exists f, fs1, fs2, tab2, B2, es2. rewrite <- (root_handle_same fs fs1 Hs1). pose proof (same_volume_trans _ _ _ Hs1 Hs2) as Hs12. split_and!; try done.
  - by rewrite (root_handle_same fs fs1 Hs1).
  - rewrite (listing_of_same fs fs2) by done. rewrite <- (listing_of_same fs fs1 l es2 Hs1), E4, E1. rewrite El, E2 in E3. unfold unnamed in *. rewrite Eo in Hun2.
    by destruct (split_unique _ _ _ _ _ _ E3 Hun Hun2 Heq) as [-> ->].
  - apply (only_root_trans fs fs1 A tab l B B1 B2); done.
Qed.
End ops.
