(* ===== verification/FileSample.v ===== *)
(** * Files and directories of the sample volume

    The theorems on files applied to the volume of FatSample.v, and runs of the
    directory operations on it; and the theorems on the root directory, applied to one
    that holds a file. *)

From stdpp Require Import strings.
From S2P Require Import Prelude Io FatIo FatBits FatTime BootSector FatTable FatFs FatSlice FatVolume FatMount FatSample.
From S2P Require Import DirEntry FatName FatFile FileRep FileWrite FatDir DirRep DirList DirRoot DirOps.

(** A file of 1100 bytes on the clusters 2, 3, 4 *)
Definition big_entry : DirFileEntryData :=
  {| name := name sample_entry; attrs := ARCHIVE; e_reserved_0 := 0; create_time_0 := 0; create_time_1 := 0;
     create_date := 0; access_date := 0; first_cluster_hi := 0; modify_time := 0; modify_date := 0;
     first_cluster_lo := 2; e_size := 1100 |}.
Definition big_file : File := file_new (Some 2) (Some (ed_new big_entry 2048)).
Definition big_bytes : list Z := replicate (Z.to_nat 1100) 0xAA.

Lemma default_clock : clock_ok FsOptions_new.
Proof.
  split.
  - eexists _, _, _. split; [vm_compute; reflexivity|]. split; [vm_compute; reflexivity|].
    split; [vm_compute; reflexivity|]. cbn. lia.
  - eexists _, _. split; [vm_compute; reflexivity|]. split; [vm_compute; reflexivity|]. lia.
Qed.

Lemma big_chain : chain_on vol_fs vol_reserved vol_table vol_data [2; 3; 4].
Proof.
  split.
  - exact vol_volume.
  - exact vol_data_area.
  - vm_compute. repeat split.
  - exact sample_live.
  - exact sample_nodup.
  - intros c Hc. rewrite !elem_of_cons in Hc.
    destruct Hc as [->|[->|[->|Hc]]]; [vm_compute; discriminate..|by apply elem_of_nil in Hc].
Qed.

Lemma big_on : file_on vol_fs vol_reserved vol_table vol_data [2; 3; 4] big_file big_bytes 0.
Proof.
  split.
  - exact big_chain.
  - exact default_clock.
  - reflexivity.
  - exists (replicate 436 0xAA). vm_compute. reflexivity.
  - vm_compute. reflexivity.
  - vm_compute. discriminate.
  - split; [reflexivity|]. split; vm_compute; discriminate.
  - reflexivity.
  - intros e [= <-]. vm_compute. intuition congruence.
Qed.

Lemma file_read_correct_witness :
  ∃ (k : nat) f' fs', file_read 2000 (big_file, vol_fs) = Ok (IoOk (take k (drop 0 big_bytes)), (f', fs')) ∧ (0 < k)%nat.
Proof.
  destruct (file_read_correct vol_fs vol_reserved vol_table vol_data [2; 3; 4] big_file big_bytes 0 2000 big_on)
    as (k & f' & fs' & H1 & _ & _ & _ & H2); [lia|].
  exists k, f', fs'. split; [exact H1|]. apply H2; [lia|vm_compute; reflexivity].
Defined.

Lemma file_seek_correct_witness :
  ∃ f' fs', file_seek (SeekStart 5000) (big_file, vol_fs) = Ok (IoOk 1100, (f', fs')) ∧
    file_on fs' vol_reserved vol_table vol_data [2; 3; 4] f' big_bytes 1100.
Proof.
  apply (file_seek_correct vol_fs vol_reserved vol_table vol_data [2; 3; 4] big_file big_bytes 0 (SeekStart 5000) 5000 1100 big_on).
  - reflexivity.
  - split; [lia|reflexivity].
Defined.

Lemma file_write_correct_witness :
  0 < write_len vol_fs 0 [1; 2; 3] ≤ 3 ∧
  ((∃ f' fs', file_write [1; 2; 3] (big_file, vol_fs) = Ok (IoOk 3, (f', fs'))) ∨
   ∃ fs', file_write [1; 2; 3] (big_file, vol_fs) = Ok (IoErr OtherError, (big_file, fs'))).
Proof.
  destruct (file_write_correct vol_fs vol_reserved vol_table vol_data [2; 3; 4] big_file big_bytes 0 [1; 2; 3] 1100 big_on)
    as [Hn [(f' & fs' & tab' & B' & l' & H & _)|(_ & _ & fs' & H & _)]].
  - reflexivity.
  - discriminate.
  - vm_compute. reflexivity.
  - split; [exact Hn|]. left. exists f', fs'. exact H.
  - split; [exact Hn|]. right. exists fs'. exact H.
Defined.

(** The root directory on the clusters 2, 3, 4, all of them full *)
Definition full_root : File := file_at (file_new (Some 2) None) 1536 (Some 4).
Definition full_bytes : list Z := replicate (3 * 512) 0xAA.

Lemma full_on : file_on vol_fs vol_reserved vol_table vol_data [2; 3; 4] full_root full_bytes 1536.
Proof.
  split.
  - exact big_chain.
  - exact default_clock.
  - reflexivity.
  - exists []. vm_compute. reflexivity.
  - vm_compute. reflexivity.
  - vm_compute. discriminate.
  - split; [reflexivity|]. split; vm_compute; discriminate.
  - vm_compute. reflexivity.
  - intros e [=].
Qed.

Lemma directory_growth_witness :
  ∃ c f' fs', file_write (replicate 32 1) (full_root, vol_fs) = Ok (IoOk 32, (f', fs')) ∧
    fat_value Fat32 vol_table c = Free.
Proof.
  destruct (directory_growth vol_fs vol_reserved vol_table vol_data [2; 3; 4] full_root full_bytes (replicate 32 1) 5)
    as (c & f' & fs' & tab' & B' & H1 & H2 & _).
  - exact full_on.
  - reflexivity.
  - discriminate.
  - vm_compute. discriminate.
  - vm_compute. discriminate.
  - split; vm_compute; congruence.
  - vm_compute. reflexivity.
  - exists c, f', fs'. split; [exact H1|exact H2].
Defined.

(** ** Runs of the directory operations *)

(** The same volume with an empty root directory, at cluster 2 *)
Definition empty_disk : memfile :=
  {| mf_bytes := boot_bytes vol_boot ++ info_bytes vol_info ++ vol_table ++ vol_table ++
                 replicate (3 * 512) 0 ++ replicate (7 * 512) 0xAA; mf_pos := 0 |}.
Definition empty_fs : FileSystem memfile := {|
  disk := {| mf_bytes := mf_bytes empty_disk; mf_pos := 1024 |}; options := FsOptions_new; fat_type := Fat32;
  fs_bpb := vol_bpb; fs_first_data_sector := 4; fs_root_dir_sectors := 0; fs_total_clusters := 10;
  fs_info := vol_info; current_status_flags := {| dirty := false; io_error := false |} |}.
Definition root : DirRawStream := StreamFile (file_new (Some 2) None).

Example empty_mounts : fs_new FsOptions_new empty_disk = Ok (IoOk empty_fs) ∧ root_dir empty_fs = Ok root.
Proof. split; vm_compute; reflexivity. Qed.

(** Upper case of the characters outside ASCII: none of the names below has any. *)
Definition no_upper (c : Z) : list Z := [c].

(** The result of a run, without the final state *)
Definition result {S A} (r : exec (A * S)) : exec A := match r with Ok (a, _) => Ok a | Panic e => Panic e end.

(** Creating, finding (ignoring case), moving and removing files and directories *)
Example directory_session :
  result ((create_file no_upper root (str "Hello World.txt") ?;
    create_dir no_upper root (str "sub") ?;
    create_file no_upper root (str "sub/x.y") ?;
    e ←? find_entry no_upper root (str "hello world.TXT") None;
    d ←? open_dir no_upper root (str "/sub/");
    b1 ←? is_empty d;
    remove no_upper root (str "sub/x.y") ?;
    b2 ←? is_empty d;
    rename no_upper root (str "Hello World.txt") d (str "hw") ?;
    e2 ←? find_entry no_upper d (str "HW") (Some false);
    ok (name (de_data e), from_utf16_lossy (lfn_utf16 e), b1, b2, name (de_data e2))) empty_fs) =
  Ok (IoOk (str "HELLOW~1TXT", str "Hello World.txt", false, true, str "HW         ")).
Proof. vm_compute. reflexivity. Qed.

(** Renaming to a name that [validate_long_name] rejects loses the file: the old
    entries are marked as deleted before the new name is checked, so the call
    fails and neither name exists afterwards. *)
Theorem rename_invalid_loses_file :
  result ((create_file no_upper root (str "a.txt") ?;
    r ← rename no_upper root (str "a.txt") root (str "b:");
    e ← find_entry no_upper root (str "a.txt") None;
    ok (r, e)) empty_fs) =
  Ok (IoOk (IoErr OtherError, IoErr NotFound)).
Proof. vm_compute. reflexivity. Qed.

(** ** A root directory with a file

    On the clusters 2, 3, 4; it holds the file [Hello.txt] on cluster 5. *)

Definition dir_info : FsInfoSector := {| free_cluster_count := Some 6; next_free_cluster := Some 6; info_dirty := false |}.
(** Cluster 5 is the end of a chain. *)
Definition dir_table : list Z := splice 20 [0xFF; 0xFF; 0xFF; 0x0F] vol_table.
Definition hello : DirFileEntryData :=
  {| name := str "HELLO   TXT"; attrs := ARCHIVE; e_reserved_0 := 0; create_time_0 := 0; create_time_1 := 0; create_date := 0x21; access_date := 0x21;
     first_cluster_hi := 0; modify_time := 0; modify_date := 0x21; first_cluster_lo := 5; e_size := 100 |}.
Definition hello_entries : list DirEntryData := new_entries (str "Hello.txt") hello ++ replicate 46 (FileEntry dfe_default).
Definition hello_data : list Z := dir_bytes hello_entries ++ replicate (7 * 512) 0xAA.
Definition dir_disk : memfile :=
  {| mf_bytes := boot_bytes vol_boot ++ info_bytes dir_info ++ dir_table ++ dir_table ++ hello_data; mf_pos := 1024 |}.
Definition dir_fs : FileSystem memfile := {|
  disk := dir_disk; options := FsOptions_new; fat_type := Fat32; fs_bpb := vol_bpb; fs_first_data_sector := 4; fs_root_dir_sectors := 0; fs_total_clusters := 10;
  fs_info := dir_info; current_status_flags := {| dirty := false; io_error := false |} |}.
Definition dir_reserved : list Z := mask (boot_bytes vol_boot) ++ info_bytes dir_info.

Lemma dir_mounts : fs_new FsOptions_new {| mf_bytes := mf_bytes dir_disk; mf_pos := 0 |} = Ok (IoOk dir_fs).
Proof. vm_compute. reflexivity. Qed.
Lemma dir_fat_for : fat_for Fat32 dir_table 10.
Proof.
  split; [split; [|by vm_compute]|by vm_compute|split; by vm_compute]. destruct vol_fat_for as [[H _] _ _]. unfold dir_table, splice.
  apply Forall_app. split; [by apply Forall_take|]. apply Forall_app. split; [|by apply Forall_drop]. repeat constructor; by vm_compute.
Qed.
Lemma dir_volume : volume dir_fs dir_reserved dir_table hello_data.
Proof.
  split.
  - reflexivity.
  - exact vol_bpb_wf.
  - vm_compute. reflexivity.
  - vm_compute. discriminate.
  - vm_compute. reflexivity.
  - vm_compute. discriminate.
  - vm_compute. reflexivity.
  - exists 1024. split; [reflexivity| |vm_compute; discriminate|left; reflexivity|done].
    exists (mf_bytes dir_disk). split; [split; [reflexivity|split; [reflexivity|discriminate]]|].
    split; vm_compute; reflexivity.
  - vm_compute. reflexivity.
  - exact dir_fat_for.
  - intros n [= <-]. vm_compute. discriminate.
  - intros n [= <-]. vm_compute. reflexivity.
Qed.
Lemma dir_data_area : data_area dir_fs dir_reserved dir_table hello_data.
Proof. split; vm_compute; (discriminate || reflexivity). Qed.
Lemma hello_wf : Forall entry_wf hello_entries.
Proof.
  apply Forall_app. split; [|apply Forall_replicate; vm_compute; intuition congruence]. apply new_entries_wf.
  - unfold is_unit. cbn. repeat first [apply Forall_nil_2|apply Forall_cons_2; [lia|]].
  - apply Nat.leb_le. reflexivity.
  - vm_compute. intuition congruence.
Qed.
Lemma dir_chain : chain_on dir_fs dir_reserved dir_table hello_data [2; 3; 4].
Proof.
  split.
  - exact dir_volume.
  - exact dir_data_area.
  - vm_compute. repeat split.
  - exact sample_live.
  - exact sample_nodup.
  - intros c Hc. rewrite !elem_of_cons in Hc.
    destruct Hc as [->|[->|[->|Hc]]]; [vm_compute; discriminate..|by apply elem_of_nil in Hc].
Qed.
Lemma hello_dir : dir_on dir_fs dir_reserved dir_table hello_data [2; 3; 4] hello_entries.
Proof.
  split.
  - exact dir_chain.
  - exact default_clock.
  - reflexivity.
  - vm_compute. reflexivity.
  - exact hello_wf.
  - vm_compute. discriminate.
  - vm_compute. discriminate.
Qed.
Lemma hello_clean : clean hello_entries.
Proof. apply clean_app; [repeat (constructor; [reflexivity|]); constructor|]. apply ends_clean, Forall_replicate. reflexivity. Qed.
(** The listed entry *)
Definition hello_entry : DirEntry := new_entry dir_fs [2; 3; 4] (str "Hello.txt") hello 0 2.
Example hello_listing : listing_of dir_fs [2; 3; 4] hello_entries = [hello_entry].
Proof. vm_compute. reflexivity. Qed.

Lemma sample_long_name : long_name (str "A new file").
Proof.
  split; [|vm_compute; reflexivity|vm_compute; discriminate]. unfold is_char. cbn. repeat first [apply Forall_nil_2|apply Forall_cons_2; [lia|]].
Qed.

Lemma find_entry_search_witness : ∃ fs', find_entry no_upper root (str "HELLO.TXT") None dir_fs = Ok (IoOk hello_entry, fs').
Proof.
  destruct (find_entry_search no_upper dir_fs dir_reserved dir_table hello_data [2; 3; 4] hello_entries (str "HELLO.TXT") None hello_dir) as (fs' & B' & H & _).
  exists fs'. rewrite hello_listing in H. exact H.
Defined.
Lemma create_file_correct_witness : ∃ f fs', create_file no_upper root (str "A new file") dir_fs = Ok (IoOk f, fs') ∧ first_cluster f = None.
Proof.
  destruct (create_file_correct no_upper dir_fs dir_reserved dir_table hello_data [2; 3; 4] hello_entries (str "A new file") (str "A new file")) as (f & fs' & B' & es' & e & H & _ & _ & _ & -> & _).
  - exact hello_dir.
  - exact hello_clean.
  - reflexivity.
  - reflexivity.
  - exact sample_long_name.
  - rewrite hello_listing. vm_compute. reflexivity.
  - apply Nat.leb_le. vm_compute. reflexivity.
  - exists (file_new None (Some (ed_new (de_data e) (entry_pos e)))), fs'. split; [exact H|reflexivity].
Defined.
Lemma remove_file_correct_witness : ∃ fs' tab', remove no_upper root (str "hello.txt") dir_fs = Ok (IoOk tt, fs') ∧ fat_value Fat32 tab' 5 = Free.
Proof.
  destruct (remove_file_correct no_upper dir_fs dir_reserved dir_table hello_data [2; 3; 4] hello_entries (str "hello.txt") (str "hello.txt") hello_entry [5]) as (fs' & tab' & B' & es' & H & Hr).
  - exact hello_dir.
  - exact hello_clean.
  - reflexivity.
  - rewrite hello_listing. vm_compute. reflexivity.
  - reflexivity.
  - split.
    + vm_compute. repeat split.
    + constructor; [split; vm_compute; congruence|constructor].
    + apply NoDup_singleton.
    + intros c ->%list_elem_of_singleton. vm_compute. discriminate.
    + intros c ->%list_elem_of_singleton. rewrite !elem_of_cons, elem_of_nil. lia.
  - reflexivity.
  - exists fs', tab'. split; [exact H|]. rewrite (rf_table _ _ _ _ _ _ _ _ _ _ _ _ _ _ Hr 5) by lia. reflexivity.
Defined.
Lemma rename_correct_witness : ∃ fs' e', rename no_upper root (str "hello.TXT") root (str "A new file") dir_fs = Ok (IoOk tt, fs') ∧ file_name e' (oem_cp_converter FsOptions_new) = str "A new file".
Proof.
  destruct (rename_correct no_upper dir_fs dir_reserved dir_table hello_data [2; 3; 4] hello_entries (str "hello.TXT") (str "A new file") hello_entry) as (fs' & B' & es' & e' & H & _ & _ & _ & Hr).
  - exact hello_dir.
  - exact hello_clean.
  - reflexivity.
  - reflexivity.
  - reflexivity.
  - exact sample_long_name.
  - rewrite hello_listing. vm_compute. reflexivity.
  - rewrite hello_listing. vm_compute. reflexivity.
  - apply Nat.leb_le. vm_compute. reflexivity.
  - exists fs', e'. split; [exact H|exact (ri_name _ _ _ _ _ _ _ _ Hr)].
Defined.
Lemma create_remove_roundtrip_witness : ∃ f fs1 fs2 es2, create_file no_upper root (str "A new file") dir_fs = Ok (IoOk f, fs1) ∧
  remove no_upper root (str "A new file") fs1 = Ok (IoOk tt, fs2) ∧ listing_of fs2 [2; 3; 4] es2 = [hello_entry].
Proof.
  destruct (create_remove_roundtrip no_upper dir_fs dir_reserved dir_table hello_data [2; 3; 4] hello_entries (str "A new file") (str "A new file"))
    as (f & fs1 & fs2 & tab2 & B2 & es2 & H1 & H2 & _ & _ & _ & H3 & _).
  - exact hello_dir.
  - exact hello_clean.
  - reflexivity.
  - reflexivity.
  - exact sample_long_name.
  - rewrite hello_listing. vm_compute. reflexivity.
  - apply Nat.leb_le. vm_compute. reflexivity.
  - exists f, fs1, fs2, es2. split; [exact H1|]. split; [exact H2|]. rewrite H3. exact hello_listing.
Defined.
