(* ===== verification/Address.v ===== *)
(** * Addresses and page numbers

    kernel/src/mm/address.rs, the [Config] trait of kernel/src/mm/mod.rs and
    the two boards' [ConfigImpl] (kernel/boards/*/config.rs).  [PA], [VA], [PPN]
    and [VPN] are newtypes over [usize]: here they are integers, and each
    [From] conversion is a function of its own.  A conversion whose arithmetic
    can overflow returns [exec]. *)

From S2P Require Import Prelude.

(** ** Board configuration *)

(** The trait [Config] (kernel/src/mm/mod.rs).  [PTE_PPN_BITS] is the width of
    the page number in a page-table entry, which arch/riscv/page_table.rs
    selects with [#[cfg(feature = "k210")]]. *)
Class Config := {
  KERNEL_MAP_OFFSET : Z;
  USER_STACK_SIZE : Z;
  KERNEL_STACK_ALIGN_BITS : Z;
  KERNEL_STACK_SIZE : Z;
  KERNEL_HEAP_SIZE : Z;
  MEMORY_START : Z;
  MEMORY_SIZE : Z;
  PAGE_SIZE_BITS : Z;
  MMIO : list (Z * Z);
  CLOCK_FREQ : Z;
  BOOT_CPU_ID : Z;
  PTE_PPN_BITS : Z;
}.

Definition PAGE_SIZE `{Config} : Z := ushl 1 PAGE_SIZE_BITS.
Definition KERNEL_STACK_ALIGN_SIZE `{Config} : Z := ushl 1 KERNEL_STACK_ALIGN_BITS.
Definition KERNEL_STACK_TOP `{Config} : Z := 2 ^ 64 - 1 - KERNEL_STACK_ALIGN_SIZE + 1.
Definition MEMORY_END `{Config} : Z := MEMORY_START + MEMORY_SIZE.

Definition k210_config : Config := {|
  KERNEL_MAP_OFFSET := 0xFFFFFFC000000000;
  USER_STACK_SIZE := 2 ^ 13;
  KERNEL_STACK_ALIGN_BITS := 14;
  KERNEL_STACK_SIZE := 2 ^ 13;
  KERNEL_HEAP_SIZE := 0x200000;
  MEMORY_START := 0xFFFFFFC080000000;
  MEMORY_SIZE := 0x800000;
  PAGE_SIZE_BITS := 12;
  MMIO := [(0x0C000000, 0x3000); (0x0C200000, 0x1000); (0x38000000, 0x1000);
           (0x38001000, 0x1000); (0x50200000, 0x1000); (0x50240000, 0x1000);
           (0x502B0000, 0x1000); (0x502D0000, 0x1000); (0x502E0000, 0x1000);
           (0x502F0000, 0x1000); (0x50440000, 0x1000); (0x52000000, 0x1000);
           (0x53000000, 0x1000); (0x54000000, 0x1000)];
  CLOCK_FREQ := 403000000 `div` 62;
  BOOT_CPU_ID := 0;
  PTE_PPN_BITS := 38 |}.

Definition qemu_config : Config := {|
  KERNEL_MAP_OFFSET := 0xFFFFFFC000000000;
  USER_STACK_SIZE := 2 ^ 13;
  KERNEL_STACK_ALIGN_BITS := 14;
  KERNEL_STACK_SIZE := 2 ^ 13;
  KERNEL_HEAP_SIZE := 0x300000;
  MEMORY_START := 0xFFFFFFC080000000;
  MEMORY_SIZE := 0x800000;
  PAGE_SIZE_BITS := 12;
  MMIO := [(0x10001000, 0x1000)];
  CLOCK_FREQ := 10000000;
  BOOT_CPU_ID := 0;
  PTE_PPN_BITS := 44 |}.

(** What the memory management code relies on of a board. *)
Class ConfigOk (C : Config) : Prop := {
  page_size_bits_ok : PAGE_SIZE_BITS = 12;
  map_offset_ok : KERNEL_MAP_OFFSET = 0xFFFFFFC000000000;
  ppn_bits_ok : 26 ≤ PTE_PPN_BITS ≤ 44;
  memory_ok : KERNEL_MAP_OFFSET ≤ MEMORY_START ∧ 0 < MEMORY_SIZE ∧
              MEMORY_END ≤ 2 ^ 64 - 2 ^ 30;
  stack_align_ok : 12 ≤ KERNEL_STACK_ALIGN_BITS ≤ 20;
  stack_size_ok : 0 < KERNEL_STACK_SIZE ∧ KERNEL_STACK_SIZE `mod` 2 ^ 12 = 0 ∧
                  KERNEL_STACK_SIZE < KERNEL_STACK_ALIGN_SIZE;
}.

#[export] Instance k210_config_ok : ConfigOk k210_config.
Proof. split; vm_compute; intuition congruence. Qed.
#[export] Instance qemu_config_ok : ConfigOk qemu_config.
Proof. split; vm_compute; intuition congruence. Qed.

(** ** Rounding macros *)

(** [round_down!(value, boundary)] *)
Definition round_down (value boundary : Z) : Z := Z.land value (unot (boundary - 1)).
(** [round_up!(value, boundary)] *)
Definition round_up (value boundary : Z) : exec Z :=
  s ← uadd value boundary; Ok (Z.land (s - 1) (unot (boundary - 1))).

(** [Range<VA>]; [VARangeOrd] wraps it with the ordering below. *)
Record VARange := { r_start : Z; r_end : Z }.

#[export] Instance VARange_eq_dec : EqDecision VARange.
Proof. solve_decision. Defined.

Section address.
Context `{C : Config}.

(** ** Linear mapping between physical and kernel virtual addresses *)

Definition vpn_of_ppn (ppn : Z) : exec Z :=
  uadd ppn (ushr KERNEL_MAP_OFFSET PAGE_SIZE_BITS).
Definition ppn_of_vpn (vpn : Z) : exec Z :=
  usub vpn (ushr KERNEL_MAP_OFFSET PAGE_SIZE_BITS).
Definition va_of_pa (pa : Z) : exec Z := uadd pa KERNEL_MAP_OFFSET.
Definition pa_of_va (va : Z) : exec Z := usub va KERNEL_MAP_OFFSET.

(** ** Pages: [implement_address_to_page_number!] (the same code for PA/PPN
    and VA/VPN) *)

Definition addr_of_pn (pn : Z) : Z := ushl pn PAGE_SIZE_BITS.
Definition floor (a : Z) : Z := ushr a PAGE_SIZE_BITS.
Definition ceil (a : Z) : exec Z :=
  x ← usub a 1; y ← uadd x PAGE_SIZE; Ok (ushr y PAGE_SIZE_BITS).
Definition page_offset (a : Z) : Z := Z.land a (PAGE_SIZE - 1).

(** [VPN::indexes]: the loop runs for i = 2, 1, 0. *)
Definition indexes (vpn : Z) : Z * Z * Z :=
  let idx2 := Z.land vpn 511 in
  let vpn := ushr vpn 9 in
  let idx1 := Z.land vpn 511 in
  let vpn := ushr vpn 9 in
  let idx0 := Z.land vpn 511 in
  (idx0, idx1, idx2).

(** ** Virtual address ranges *)

(** [VARangeOrd::vpn_range], as the list the [for] loops iterate over. *)
Definition vpn_range (r : VARange) : exec (list Z) :=
  e ← ceil (r_end r); Ok (range (floor (r_start r)) e).

(** [PartialEq for VARangeOrd]: one of the ranges contains the other. *)
Definition range_eqb (a b : VARange) : bool :=
  ((r_start a <=? r_start b) && (r_end b <=? r_end a))
  || ((r_start b <=? r_start a) && (r_end a <=? r_end b)).

(** [Ord for VARangeOrd] *)
Definition range_cmp (a b : VARange) : comparison :=
  if range_eqb a b then Eq
  else if r_start a <? r_start b then Lt else Gt.
End address.

(** ** Properties *)

Section lemmas.
Context {C : Config} {Cok : ConfigOk C}.

Lemma PAGE_SIZE_eq : PAGE_SIZE = 4096.
Proof. unfold PAGE_SIZE. by rewrite page_size_bits_ok. Qed.

Lemma ushr_offset : ushr KERNEL_MAP_OFFSET PAGE_SIZE_BITS = 2 ^ 52 - 2 ^ 26.
Proof. by rewrite page_size_bits_ok, map_offset_ok. Qed.

Lemma floor_div a : floor a = a `div` 4096.
Proof. unfold floor. by rewrite page_size_bits_ok, ushr_div by lia. Qed.

Lemma addr_of_pn_mul pn : 0 ≤ pn < 2 ^ 52 → addr_of_pn pn = pn * 4096.
Proof.
  intros. unfold addr_of_pn. rewrite page_size_bits_ok, ushl_mul by lia.
  apply Z.mod_small. lia.
Qed.

Lemma page_offset_mod a : page_offset a = a `mod` 4096.
Proof.
  unfold page_offset. rewrite PAGE_SIZE_eq.
  change (4096 - 1) with (2 ^ 12 - 1). by rewrite land_pow2_mod by lia.
Qed.

Lemma ceil_Ok a r :
  ceil a = Ok r ↔ 1 ≤ a ∧ a + 4095 < 2 ^ 64 ∧ r = (a + 4095) `div` 4096.
Proof.
  unfold ceil, usub, uadd. rewrite PAGE_SIZE_eq. split.
  - intros H. inv_exec. apply checked_Ok in Hm as [-> ?], Hm0 as [-> ?].
    rewrite page_size_bits_ok, ushr_div by lia.
    split_and!; [lia..|]. f_equal. lia.
  - intros (? & ? & ->). rewrite checked_in by lia. cbn.
    rewrite checked_in by lia. cbn. rewrite page_size_bits_ok, ushr_div by lia.
    do 2 f_equal. lia.
Qed.

Lemma vpn_of_ppn_in ppn :
  0 ≤ ppn < 2 ^ 44 → vpn_of_ppn ppn = Ok (ppn + (2 ^ 52 - 2 ^ 26)).
Proof.
  intros. unfold vpn_of_ppn, uadd. rewrite ushr_offset. apply checked_in. lia.
Qed.

Lemma ppn_of_vpn_in vpn :
  2 ^ 52 - 2 ^ 26 ≤ vpn < 2 ^ 64 → ppn_of_vpn vpn = Ok (vpn - (2 ^ 52 - 2 ^ 26)).
Proof.
  intros. unfold ppn_of_vpn, usub. rewrite ushr_offset. apply checked_in. lia.
Qed.

(** Three nine-bit digits. *)
Lemma indexes_eq vpn :
  indexes vpn = ((vpn `div` 2 ^ 18) `mod` 512, (vpn `div` 2 ^ 9) `mod` 512,
                 vpn `mod` 512).
Proof.
  unfold indexes. change 511 with (2 ^ 9 - 1).
  rewrite !land_pow2_mod, !ushr_div by lia.
  rewrite Z.div_div by lia. done.
Qed.

Lemma round_down_eq v n :
  0 ≤ n < 64 → in_usize v → round_down v (2 ^ n) = v - v `mod` 2 ^ n.
Proof. apply land_unot_pow2. Qed.

Lemma round_up_eq v n :
  0 ≤ n < 64 → 0 ≤ v → v + 2 ^ n < 2 ^ 64 →
  round_up v (2 ^ n) = Ok (2 ^ n * ((v + 2 ^ n - 1) `div` 2 ^ n)).
Proof.
  intros Hn Hv Hb. assert (0 < 2 ^ n) by (apply Z.pow_pos_nonneg; lia).
  unfold round_up, uadd. rewrite checked_in by lia. cbn.
  rewrite land_unot_pow2 by lia. f_equal.
  pose proof (Z.div_mod (v + 2 ^ n - 1) (2 ^ n)). lia.
Qed.

(** [round_up] to a page: the least multiple of 4096 at or above [v]. *)
Lemma round_up_page v r :
  0 ≤ v → round_up v PAGE_SIZE = Ok r →
  v ≤ r < v + 4096 ∧ r `mod` 4096 = 0 ∧ v + 4096 < 2 ^ 64.
Proof.
  intros Hv H. assert (v + 4096 < 2 ^ 64) as Hb.
  { unfold round_up, uadd in H. rewrite PAGE_SIZE_eq in H. inv_exec.
    apply checked_Ok in Hm. lia. }
  rewrite PAGE_SIZE_eq in H. change 4096 with (2 ^ 12) in H.
  rewrite round_up_eq in H by lia. inv_exec.
  change (2 ^ 12) with 4096 in *.
  pose proof (Z.div_mod (v + 4096 - 1) 4096).
  pose proof (Z.mod_pos_bound (v + 4096 - 1) 4096).
  split_and!; [lia..| |lia]. rewrite Z.mul_comm. apply Z.mod_mul. lia.
Qed.

Lemma vpn_range_Ok r l :
  vpn_range r = Ok l ↔
  1 ≤ r_end r ∧ r_end r + 4095 < 2 ^ 64 ∧
  l = range (r_start r `div` 4096) ((r_end r + 4095) `div` 4096).
Proof.
  unfold vpn_range. rewrite floor_div. split.
  - intros H. inv_exec. apply ceil_Ok in Hm as (? & ? & ->). done.
  - intros (? & ? & ->). destruct (ceil (r_end r)) eqn:E; cbn.
    + apply ceil_Ok in E as (? & ? & ->). done.
    + assert (ceil (r_end r) = Ok ((r_end r + 4095) `div` 4096)) by (by apply ceil_Ok).
      congruence.
Qed.
End lemmas.

(** The linear map round-trips, and agrees on addresses and on page numbers. *)
Theorem linear_map_roundtrip {C : Config} {Cok : ConfigOk C} (pa : Z) :
  0 ≤ pa < 2 ^ 38 →
  ∃ va vpn,
    va_of_pa pa = Ok va ∧ pa_of_va va = Ok pa ∧
    vpn_of_ppn (floor pa) = Ok vpn ∧ ppn_of_vpn vpn = Ok (floor pa) ∧
    floor va = vpn ∧ page_offset va = page_offset pa ∧
    addr_of_pn vpn + page_offset pa = va.
Proof.
  intros Hpa.
  assert (0 ≤ pa `div` 4096 < 2 ^ 26) as Hq.
  { split; [apply Z.div_pos; lia|]. apply Z.div_lt_upper_bound; lia. }
  exists (pa + KERNEL_MAP_OFFSET), (pa `div` 4096 + (2 ^ 52 - 2 ^ 26)).
  rewrite !floor_div, vpn_of_ppn_in, ppn_of_vpn_in, !page_offset_mod by lia.
  rewrite addr_of_pn_mul by lia.
  unfold va_of_pa, pa_of_va, uadd, usub. rewrite map_offset_ok.
  change 0xFFFFFFC000000000 with ((2 ^ 52 - 2 ^ 26) * 4096).
  rewrite !checked_in by lia. rewrite Z.div_add, Z_mod_plus_full by lia.
  pose proof (Z.div_mod pa 4096).
  split_and!; try done; try (f_equal; lia); lia.
Qed.

Lemma indexes_digits (vpn : Z) :
  let '(i0, i1, i2) := indexes vpn in
  0 ≤ i0 < 512 ∧ 0 ≤ i1 < 512 ∧ 0 ≤ i2 < 512 ∧
  vpn `mod` 2 ^ 27 = i0 * 2 ^ 18 + i1 * 2 ^ 9 + i2.
Proof.
  rewrite indexes_eq.
  pose proof (Z.mod_pos_bound (vpn `div` 2 ^ 18) 512).
  pose proof (Z.mod_pos_bound (vpn `div` 2 ^ 9) 512).
  pose proof (Z.mod_pos_bound vpn 512).
  split_and!; try lia.
  change (2 ^ 27) with (512 * (512 * 512)).
  rewrite !Z.rem_mul_r by lia. rewrite Z.div_div by lia.
  change (512 * 512) with (2 ^ 18). change 512 with (2 ^ 9). lia.
Qed.

(** [VPN::indexes] splits a Sv39 page number into its three table indexes, and two
    page numbers have the same indexes exactly when they agree on 27 bits. *)
Theorem indexes_decompose (vpn vpn' : Z) :
  (let '(i0, i1, i2) := indexes vpn in
   0 ≤ i0 < 512 ∧ 0 ≤ i1 < 512 ∧ 0 ≤ i2 < 512 ∧
   vpn `mod` 2 ^ 27 = i0 * 2 ^ 18 + i1 * 2 ^ 9 + i2) ∧
  (indexes vpn = indexes vpn' ↔ vpn `mod` 2 ^ 27 = vpn' `mod` 2 ^ 27).
Proof.
  pose proof (indexes_digits vpn) as H. pose proof (indexes_digits vpn') as H'.
  destruct (indexes vpn) as [[a b] c], (indexes vpn') as [[a' b'] c'].
  split; [done|]. split; [intros [= -> -> ->]; lia|]. intros Heq.
  assert (a = a') by lia. assert (b = b') by lia. assert (c = c') by lia. congruence.
Qed.

(** The pages a range iterates over are those that intersect it. *)
Theorem vpn_range_covers {C : Config} {Cok : ConfigOk C} (r : VARange) (l : list Z) (vpn : Z) :
  0 ≤ r_start r < r_end r → vpn_range r = Ok l →
  vpn ∈ l ↔ ∃ a, r_start r ≤ a < r_end r ∧ floor a = vpn.
Proof.
  intros Hr (He & Hb & ->)%vpn_range_Ok. rewrite elem_of_range. split.
  - intros [H1 H2]. exists (Z.max (r_start r) (vpn * 4096)). rewrite floor_div.
    pose proof (Z.div_mod (r_start r) 4096). pose proof (Z.mod_pos_bound (r_start r) 4096).
    pose proof (Z.div_mod (r_end r + 4095) 4096).
    pose proof (Z.mod_pos_bound (r_end r + 4095) 4096).
    split; [lia|]. destruct (Z.max_spec (r_start r) (vpn * 4096)) as [[? ->]|[? ->]].
    + by apply Z.div_mul.
    + apply Z.le_antisymm; [lia|]. apply Z.div_le_lower_bound; lia.
  - intros (a & Ha & <-). rewrite floor_div. split; [apply Z.div_le_mono; lia|].
    pose proof (Z.div_mod a 4096). pose proof (Z.mod_pos_bound a 4096).
    pose proof (Z.div_mod (r_end r + 4095) 4096).
    pose proof (Z.mod_pos_bound (r_end r + 4095) 4096). lia.
Qed.
