(* ===== verification/Memory.v ===== *)
(** * Word memory

    The kernel reads and writes page tables, free-list links and reference
    counts through raw pointers into the linearly mapped physical memory.  The
    model of that memory is a finite map from the kernel virtual address of an
    aligned 8-byte word to its value; an access to an address outside the map is
    [UB]. *)

From S2P Require Import Prelude Address.

Abbreviation words := (gmap Z Z).

Definition load (a : Z) : M words Z := λ m,
  match m !! a with Some v => Ok (v, m) | None => Panic UB end.
Definition store (a v : Z) : M words unit := λ m,
  match m !! a with Some _ => Ok (tt, <[a := v]> m) | None => Panic UB end.

(** Consecutive words from [a]: [copy_from_slice], and [fill] with a repeated
    value. *)
Fixpoint store_words (a : Z) (vs : list Z) : M words unit :=
  match vs with
  | [] => mret tt
  | v :: vs => store a v ;; store_words (a + 8) vs
  end.
Fixpoint load_words (a : Z) (n : nat) : M words (list Z) :=
  match n with
  | O => mret []
  | S n => v ← load a; vs ← load_words (a + 8) n; mret (v :: vs)
  end.

(** One byte of the word that contains it (little endian). *)
Definition byte_get (w k : Z) : Z := Z.land (ushr w (8 * k)) 255.
Definition byte_set (w k v : Z) : Z :=
  Z.lor (Z.ldiff w (Z.shiftl 255 (8 * k))) (Z.shiftl v (8 * k)).
Definition load_byte (a : Z) : M words Z :=
  w ← load (a - a `mod` 8); mret (byte_get w (a `mod` 8)).
Definition store_byte (a v : Z) : M words unit :=
  w ← load (a - a `mod` 8); store (a - a `mod` 8) (byte_set w (a `mod` 8) v).
Fixpoint store_bytes (a : Z) (vs : list Z) : M words unit :=
  match vs with
  | [] => mret tt
  | v :: vs => store_byte a v ;; store_bytes (a + 1) vs
  end.
Fixpoint load_bytes (a : Z) (n : nat) : M words (list Z) :=
  match n with
  | O => mret []
  | S n => v ← load_byte a; vs ← load_bytes (a + 1) n; mret (v :: vs)
  end.

(** [m] maps the [n] words from [a]. *)
Definition mapped (m : words) (a : Z) (n : nat) : Prop :=
  ∀ i : nat, (i < n)%nat → is_Some (m !! (a + 8 * Z.of_nat i)).

Lemma load_eq a v m : m !! a = Some v → load a m = Ok (v, m).
Proof. unfold load. by intros ->. Qed.

Lemma store_eq a v m : is_Some (m !! a) → store a v m = Ok (tt, <[a := v]> m).
Proof. unfold store. by intros [? ->]. Qed.

Lemma store_Ok a v m u m' :
  store a v m = Ok (u, m') ↔ is_Some (m !! a) ∧ m' = <[a := v]> m.
Proof.
  unfold store. destruct (m !! a) eqn:E; [|split; [done|by intros [[? ?] _]]].
  destruct u. naive_solver.
Qed.

Lemma mapped_S m a n :
  mapped m a (S n) ↔ is_Some (m !! a) ∧ mapped m (a + 8) n.
Proof.
  unfold mapped. split.
  - intros H. split.
    + specialize (H 0%nat). rewrite Z.add_0_r in H. apply H. lia.
    + intros i Hi. specialize (H (S i)).
      replace (a + 8 + 8 * Z.of_nat i) with (a + 8 * Z.of_nat (S i)) by lia.
      apply H. lia.
  - intros [H0 H] [|i] Hi; [by rewrite Z.add_0_r|].
    replace (a + 8 * Z.of_nat (S i)) with (a + 8 + 8 * Z.of_nat i) by lia.
    apply H. lia.
Qed.

Lemma mapped_insert m a n b v :
  is_Some (m !! b) → mapped m a n → mapped (<[b := v]> m) a n.
Proof.
  intros Hb H i Hi. rewrite lookup_insert. case_decide; [done|]. by apply H.
Qed.

(** The memory after a block of stores. *)
Lemma store_words_spec vs : ∀ a m,
  mapped m a (length vs) →
  ∃ m', store_words a vs m = Ok (tt, m') ∧
    (∀ i v, vs !! i = Some v → m' !! (a + 8 * Z.of_nat i) = Some v) ∧
    (∀ b, (∀ i : nat, (i < length vs)%nat → b ≠ a + 8 * Z.of_nat i) → m' !! b = m !! b).
Proof.
  induction vs as [|v vs IH]; intros a m Hm.
  - exists m. split_and!; [done| |done]. intros i v. by rewrite lookup_nil.
  - apply mapped_S in Hm as [Ha Hm].
    destruct (IH (a + 8) (<[a := v]> m)) as (m' & Hs & Hin & Hout);
      [by apply mapped_insert|].
    exists m'. split_and!.
    + cbn. by rewrite (M_bind_eq _ _ _ _ _ (store_eq _ _ _ Ha)).
    + intros [|i] w; cbn [lookup list_lookup]; intros Hw.
      * simplify_eq. rewrite Z.add_0_r, Hout by lia. apply lookup_insert_eq.
      * replace (a + 8 * Z.of_nat (S i)) with (a + 8 + 8 * Z.of_nat i) by lia. by apply Hin.
    + intros b Hb. rewrite Hout.
      * apply lookup_insert_ne. specialize (Hb 0%nat). cbn in Hb. lia.
      * intros i Hi. specialize (Hb (S i)). cbn in Hb. lia.
Qed.

(** Reading a block back. *)
Lemma load_words_spec n : ∀ a m,
  mapped m a n →
  ∃ vs, load_words a n m = Ok (vs, m) ∧ length vs = n ∧
    ∀ i : nat, (i < n)%nat → vs !! i = m !! (a + 8 * Z.of_nat i).
Proof.
  induction n as [|n IH]; intros a m Hm.
  - exists []. split_and!; [done..|]. lia.
  - apply mapped_S in Hm as [[v Hv] Hm].
    destruct (IH (a + 8) m Hm) as (vs & Hl & Hlen & Hvs).
    exists (v :: vs). split_and!.
    + cbn. rewrite (M_bind_eq _ _ _ _ _ (load_eq _ _ _ Hv)).
      by rewrite (M_bind_eq _ _ _ _ _ Hl).
    + cbn. by rewrite Hlen.
    + intros [|i] Hi; cbn [lookup list_lookup]; [by rewrite Z.add_0_r|].
      replace (a + 8 * Z.of_nat (S i)) with (a + 8 + 8 * Z.of_nat i) by lia.
      rewrite Hvs by lia. done.
Qed.
