(* ===== verification/ForwardList.v ===== *)
(** * Intrusive forward lists

    [ForwardList<T>] and [ForwardListNode<T>]
    (kernel/src/mm/heap/slab_allocator/linked_list/forward_list.rs): a singly
    linked list whose nodes live in the memory they manage.  A list is its head
    pointer; the [next] fields are words of the memory, at the node's address.
    The null pointer is 0. *)

From S2P Require Import Prelude Address Memory.

(** [ForwardList::new] *)
Definition fl_new : Z := 0.

(** [get_head] and [set_head] *)
Definition get_head (head : Z) : Z := head.
Definition set_head (head new : Z) : Z := new.

(** [push_front]: [new.next = replace(&mut self.head, new)] *)
Definition push_front (head new : Z) : M words Z :=
  store new head ;; mret new.

(** [pop_front]: the head's [next] replaces the head, and becomes null *)
Definition pop_front (head : Z) : M words Z :=
  next ← load head; store head 0 ;; mret next.

(** [ForwardListNode::has_next], [get_next], [insert_after], [erase_after] *)
Definition has_next (node : Z) : M words bool :=
  next ← load node; mret (negb (next =? 0)).
Definition get_next (node : Z) : M words Z := load node.
Definition insert_after (node new : Z) : M words unit :=
  next ← load node; store node new ;; store new next.
Definition erase_after (node : Z) : M words unit :=
  next ← load node; nn ← load next; store node nn.

(** [remove]: [prev] is a reference to the head field or to a [next] field; the
    loop follows it until it designates [node].  [slot] is what [prev] points
    to: [None] the head, [Some a] the [next] field of the node at [a]. *)
Definition slot_read (head : Z) (slot : option Z) : M words Z :=
  match slot with None => mret head | Some a => load a end.
Definition slot_write (head : Z) (slot : option Z) (v : Z) : M words Z :=
  match slot with None => mret v | Some a => store a v ;; mret head end.

Fixpoint remove_loop (fuel : nat) (head : Z) (slot : option Z) (node : Z) : M words (option Z) :=
  match fuel with
  | O => panic OutOfFuel
  | S fuel =>
      cur ← slot_read head slot;
      if cur =? node then mret slot
      else load cur ;; remove_loop fuel head (Some cur) node
  end.

Definition remove (head node : Z) : M words Z := λ m,
  (slot ← remove_loop (S (size m)) head None node;
   next ← load node;
   slot_write head slot next) m.

(** ** Representation *)

(** The chain from [head] visits exactly the nodes [l] and ends with null. *)
Fixpoint flist (m : words) (head : Z) (l : list Z) : Prop :=
  match l with
  | [] => head = 0
  | a :: l' => head = a ∧ a ≠ 0 ∧ ∃ next, m !! a = Some next ∧ flist m next l'
  end.

Lemma flist_frame m m' h l :
  (∀ a, a ∈ l → m !! a = m' !! a) → flist m h l → flist m' h l.
Proof.
  revert h. induction l as [|a l IH]; intros h Heq; [done|]. cbn.
  intros (-> & Hz & next & Hm & Hl). split_and!; [done..|].
  exists next. split.
  - rewrite <- Heq; [done|set_solver].
  - apply IH; [|done]. set_solver.
Qed.

Lemma flist_insert m h l a v :
  a ∉ l → flist m h l → flist (<[a := v]> m) h l.
Proof.
  intros Ha. apply flist_frame. intros b Hb.
  rewrite lookup_insert_ne; [done|]. by intros ->.
Qed.

Lemma flist_det m h l1 l2 : flist m h l1 → flist m h l2 → l1 = l2.
Proof.
  revert h l2. induction l1 as [|a l1 IH]; intros h [|b l2]; cbn; naive_solver.
Qed.

Lemma flist_app m h l1 a l2 :
  flist m h (l1 ++ a :: l2) → flist m a (a :: l2).
Proof.
  revert h. induction l1 as [|b l1 IH]; intros h; cbn.
  - by intros (-> & ?).
  - intros (_ & _ & next & _ & H). by eapply IH.
Qed.

(** A null-terminated chain visits no node twice. *)
Lemma flist_NoDup m h l : flist m h l → NoDup l.
Proof.
  revert h. induction l as [|a l IH]; intros h Hl; [constructor|].
  assert (Htail := Hl). destruct Htail as (-> & Hz & next & Hm & Ht).
  constructor; [|by eapply IH].
  intros Hin. apply list_elem_of_split in Hin as (l1 & l2 & ->).
  assert (flist m a (a :: l2)) as Hsuf by (by eapply flist_app).
  pose proof (flist_det _ _ _ _ Hl Hsuf) as Heq.
  apply (f_equal length) in Heq. cbn in Heq. rewrite length_app in Heq. cbn in Heq. lia.
Qed.

Lemma flist_length m h l : flist m h l → (length l ≤ size m)%nat.
Proof.
  intros H. assert (NoDup l) by (by eapply flist_NoDup).
  assert (list_to_set l ⊆ dom m) as Hsub.
  { intros a Ha%elem_of_list_to_set. apply elem_of_dom.
    revert h H Ha. clear. induction l as [|b l IH]; intros h; [by intros _ ?%not_elem_of_nil|].
    cbn. intros (_ & _ & next & Hm & Hl) [->|Ha]%elem_of_cons; [by eexists|by eapply IH]. }
  apply subseteq_size in Hsub. rewrite size_list_to_set, size_dom in Hsub by done. done.
Qed.

(** ** The operations refine list operations *)

Lemma push_front_spec m h l new :
  flist m h l → new ≠ 0 → new ∉ l → is_Some (m !! new) →
  push_front h new m = Ok (new, <[new := h]> m) ∧ flist (<[new := h]> m) new (new :: l).
Proof.
  intros Hl Hz Hn Hs. split.
  - unfold push_front. by rewrite (M_bind_eq _ _ _ _ _ (store_eq _ _ _ Hs)).
  - cbn. split_and!; [done..|]. exists h. split; [apply lookup_insert_eq|].
    by apply flist_insert.
Qed.

Lemma pop_front_spec m h a l :
  flist m h (a :: l) →
  ∃ next, pop_front h m = Ok (next, <[a := 0]> m) ∧ flist (<[a := 0]> m) next l.
Proof.
  intros Hl. assert (NoDup (a :: l)) as [Hn _]%NoDup_cons by (by eapply flist_NoDup).
  destruct Hl as (-> & Hz & next & Hm & Hl). exists next. split.
  - unfold pop_front. rewrite (M_bind_eq _ _ _ _ _ (load_eq _ _ _ Hm)).
    by rewrite (M_bind_eq _ _ _ _ _ (store_eq _ _ _ ltac:(by eexists))).
  - by apply flist_insert.
Qed.

(** What [prev] designates once the loop has passed the nodes [l1]. *)
Lemma slot_read_spec m h l1 l2 :
  flist m h (l1 ++ l2) →
  ∃ cur, slot_read h (last l1) m = Ok (cur, m) ∧ flist m cur l2.
Proof.
  intros Hl. destruct l1 as [|a l1 _] using rev_ind.
  - exists h. by split.
  - rewrite <- app_assoc in Hl. apply flist_app in Hl as (_ & _ & next & Hm & Hl).
    exists next. rewrite last_snoc. split; [by apply load_eq|done].
Qed.

Lemma remove_loop_spec m h l1 l2 node fuel :
  flist m h (l1 ++ node :: l2) → node ∉ l1 → (length l1 < fuel)%nat →
  remove_loop fuel h None node m = Ok (last l1, m).
Proof.
  intros Hl Hn Hf.
  enough (∀ todo passed fuel, l1 = passed ++ todo → (length todo < fuel)%nat →
    remove_loop fuel h (last passed) node m = Ok (last l1, m)) as Hgen
    by (by apply (Hgen l1 [])).
  clear fuel Hf. induction todo as [|b todo IH]; intros passed [|fuel] Heq Hf;
    try (cbn in Hf; lia); cbn [remove_loop].
  - rewrite app_nil_r in Heq. subst passed.
    destruct (slot_read_spec _ _ _ _ Hl) as (cur & Hr & -> & _).
    rewrite (M_bind_eq _ _ _ _ _ Hr), Z.eqb_refl. done.
  - assert (flist m h (passed ++ b :: todo ++ node :: l2)) as Hl'.
    { by rewrite Heq, <- app_assoc in Hl. }
    destruct (slot_read_spec _ _ _ _ Hl') as (cur & Hr & -> & _ & next & Hm & _).
    rewrite (M_bind_eq _ _ _ _ _ Hr).
    destruct (Z.eqb_spec b node) as [->|_]; [set_solver|].
    rewrite (M_bind_eq _ _ _ _ _ (load_eq _ _ _ Hm)).
    specialize (IH (passed ++ [b]) fuel). rewrite last_snoc in IH. apply IH.
    + by rewrite <- app_assoc.
    + cbn in Hf. lia.
Qed.

(** Redirecting what [prev] designates to the rest of the chain. *)
Lemma slot_write_spec m h l1 node l2 p :
  flist m h (l1 ++ node :: l2) → flist m p l2 →
  ∃ h' m', slot_write h (last l1) p m = Ok (h', m') ∧ flist m' h' (l1 ++ l2) ∧
    ∀ b, b ∉ l1 → m' !! b = m !! b.
Proof.
  intros Hl Hp. pose proof (flist_NoDup _ _ _ Hl) as Hnd.
  destruct l1 as [|a l1 _] using rev_ind.
  - exists p, m. by split_and!.
  - rewrite last_snoc. rewrite <- app_assoc in Hl.
    destruct (flist_app _ _ _ _ _ Hl) as (_ & Haz & next & Hm & _).
    exists h, (<[a := p]> m). split_and!.
    + cbn. by rewrite (M_bind_eq _ _ _ _ _ (store_eq _ _ _ ltac:(by eexists))).
    + rewrite <- app_assoc in Hnd |- *. clear Hm next. revert h Hl Hnd.
      induction l1 as [|c l1 IH]; intros h; cbn.
      * intros (-> & _ & _) (Ha & _)%NoDup_cons. split_and!; [done..|].
        exists p. split; [apply lookup_insert_eq|]. apply flist_insert; [|done]. set_solver.
      * intros (-> & Hc & next & Hm & Hl) (Hcn & Hnd)%NoDup_cons. split_and!; [done..|].
        exists next. split; [|by apply IH]. rewrite lookup_insert_ne; [done|]. set_solver.
    + intros b Hb. apply lookup_insert_ne. set_solver.
Qed.

(** [remove] returns, unlinks exactly the node it is given, and writes only the
    [next] fields of nodes of the list. *)
Lemma remove_spec m h l1 node l2 :
  flist m h (l1 ++ node :: l2) →
  ∃ h' m', remove h node m = Ok (h', m') ∧ flist m' h' (l1 ++ l2) ∧
    ∀ b, b ∉ l1 → m' !! b = m !! b.
Proof.
  intros Hl. pose proof (flist_NoDup _ _ _ Hl) as Hnd.
  pose proof (flist_length _ _ _ Hl) as Hlen. rewrite length_app in Hlen. cbn in Hlen.
  assert (node ∉ l1) as Hn. { apply NoDup_app in Hnd as (_ & H & _). set_solver. }
  destruct (flist_app _ _ _ _ _ Hl) as (_ & _ & next & Hm & Hl2).
  destruct (slot_write_spec _ _ _ _ _ _ Hl Hl2) as (h' & m' & Hw & Hl' & Hout).
  exists h', m'. split_and!; [|done..]. unfold remove.
  rewrite (M_bind_eq _ _ _ _ _ (remove_loop_spec _ _ _ _ _ (S (size m)) Hl Hn ltac:(lia))).
  by rewrite (M_bind_eq _ _ _ _ _ (load_eq _ _ _ Hm)).
Qed.

(** Null dereference: removing from a list that does not hold the node. *)
Lemma remove_loop_absent m h l node fuel :
  flist m h l → node ∉ l → node ≠ 0 → m !! 0 = None → (length l < fuel)%nat →
  remove_loop fuel h None node m = Panic UB.
Proof.
  intros Hl Hn Hz H0 Hf.
  enough (∀ todo passed fuel, l = passed ++ todo → (length todo < fuel)%nat →
    remove_loop fuel h (last passed) node m = Panic UB) as Hgen
    by (by apply (Hgen l [])).
  clear fuel Hf. induction todo as [|b todo IH]; intros passed [|fuel] Heq Hf;
    try (cbn in Hf; lia); cbn [remove_loop]; rewrite Heq in Hl;
    destruct (slot_read_spec _ _ _ _ Hl) as (cur & Hr & Hc);
    rewrite (M_bind_eq _ _ _ _ _ Hr).
  - cbn in Hc. subst cur. destruct (Z.eqb_spec 0 node); [by subst|].
    apply M_bind_Panic. unfold load. by rewrite H0.
  - destruct Hc as (-> & _ & next & Hm & _).
    destruct (Z.eqb_spec b node) as [->|_]; [set_solver|].
    rewrite (M_bind_eq _ _ _ _ _ (load_eq _ _ _ Hm)).
    specialize (IH (passed ++ [b]) fuel). rewrite last_snoc in IH. apply IH.
    + by rewrite <- app_assoc.
    + cbn in Hf. lia.
Qed.
