(* ===== verification/PhysPage.v ===== *)
(** * Physical page allocator

    [PhyPageAllocator] and [FrameTracker] (kernel/src/mm/physical_page.rs): the
    free pages form a [ForwardList] threaded through the pages themselves, and
    an array of reference counts has one word per managed page.  The file gives
    the operations on the word memory, the abstract allocator they refine
    ([frames]), and the interface [FrameOps]/[FrameSource] through which the page
    tables use it. *)

From S2P Require Import Prelude Address Memory ForwardList.

(** ** State *)

Record PhyPageAllocator := {
  free_list : Z;
  page_usage : Z;
  start_ppn : Z;
}.

(** The allocator with the memory its pointers point into. *)
#[projections(primitive)] Record kmem := { kwords : words; kalloc : PhyPageAllocator }.

Definition on_words {A} (f : M words A) : M kmem A := λ s,
  match f (kwords s) with
  | Ok (a, w) => Ok (a, {| kwords := w; kalloc := kalloc s |})
  | Panic e => Panic e
  end.

Definition set_free_list (h : Z) : M kmem unit := modify (λ s,
  {| kwords := kwords s;
     kalloc := {| free_list := h; page_usage := page_usage (kalloc s);
                  start_ppn := start_ppn (kalloc s) |} |}).

Section operations.
Context {C : Config}.

(** [&mut *self.page_usage.add(ppn - self.start_ppn)] *)
Definition usage_slot (ppn : Z) : M kmem Z := λ s,
  match usub ppn (start_ppn (kalloc s)) with
  | Ok off => Ok (page_usage (kalloc s) + 8 * off, s)
  | Panic e => Panic e
  end.

(** [PhyPageAllocator::init].  [ekernel] is the linker symbol, [usage_ptr] the
    pointer the heap returns for the zeroed reference-count array. *)
Definition pp_init (ekernel usage_ptr : Z) : M kmem unit :=
  start ← lift (ceil ekernel);
  let end_ := floor MEMORY_END in
  for_each (reverse (range start end_)) (λ vpn,
    s ← get;
    h ← on_words (push_front (free_list (kalloc s)) (addr_of_pn vpn));
    set_free_list h) ;;
  n ← lift (usub end_ start);
  lift (umul n 8) ;;
  on_words (store_words usage_ptr (replicate (Z.to_nat n) 0)) ;;
  ppn ← lift (ppn_of_vpn start);
  modify (λ s, {| kwords := kwords s;
                  kalloc := {| free_list := free_list (kalloc s);
                               page_usage := usage_ptr; start_ppn := ppn |} |}).

(** [PhyPageAllocator::alloc] *)
Definition pp_alloc : M kmem (option Z) :=
  s ← get;
  let page := get_head (free_list (kalloc s)) in
  if page =? 0 then mret None
  else
    h ← on_words (pop_front page);
    set_free_list h ;;
    ppn ← lift (ppn_of_vpn (floor page));
    usage ← usage_slot ppn;
    ref_count ← on_words (load usage);
    lift (ensure (ref_count =? 0)) ;;
    on_words (store usage 1) ;;
    mret (Some ppn).

(** [PhyPageAllocator::dealloc], the [Drop] of a [FrameTracker] *)
Definition pp_dealloc (ppn : Z) : M kmem unit :=
  usage ← usage_slot ppn;
  ref_count ← on_words (load usage);
  lift (ensure (0 <? ref_count)) ;;
  ref_count' ← lift (usub ref_count 1);
  on_words (store usage ref_count') ;;
  if ref_count' =? 0 then
    vpn ← lift (vpn_of_ppn ppn);
    let page := addr_of_pn vpn in
    lift (ensure (negb (page =? 0))) ;;
    s ← get;
    h ← on_words (push_front (free_list (kalloc s)) page);
    set_free_list h
  else mret tt.

(** [PhyPageAllocator::clone], the [Clone] of a [FrameTracker] *)
Definition pp_clone (ppn : Z) : M kmem unit :=
  usage ← usage_slot ppn;
  ref_count ← on_words (load usage);
  lift (ensure (0 <? ref_count)) ;;
  ref_count' ← lift (uadd ref_count 1);
  on_words (store usage ref_count').

(** [PhyPageAllocator::get_ref_count] *)
Definition pp_get_ref_count (ppn : Z) : M kmem Z :=
  usage ← usage_slot ppn;
  ref_count ← on_words (load usage);
  lift (ensure (0 <? ref_count)) ;;
  mret ref_count.
End operations.

(** ** Abstract allocator *)

(** The free pages, most recently freed first, and the reference count of every
    managed page. *)
Record frames := { f_free : list Z; f_rc : gmap Z Z }.

Definition held (A : frames) (p : Z) : Prop := ∃ c, f_rc A !! p = Some c ∧ 0 < c.

Definition frames_alloc (A : frames) : option (Z * frames) :=
  match f_free A with
  | [] => None
  | p :: l => Some (p, {| f_free := l; f_rc := <[p := 1]> (f_rc A) |})
  end.
Definition frames_clone (p c : Z) (A : frames) : frames :=
  {| f_free := f_free A; f_rc := <[p := c + 1]> (f_rc A) |}.
Definition frames_drop (p c : Z) (A : frames) : frames :=
  {| f_free := if c =? 1 then p :: f_free A else f_free A;
     f_rc := <[p := c - 1]> (f_rc A) |}.

(** Kernel virtual address of the page with number [p]. *)
Definition page_va (p : Z) : Z := (p + (2 ^ 52 - 2 ^ 26)) * 4096.

(** A page is free exactly when its count is zero. *)
Definition frames_ok (A : frames) : Prop :=
  NoDup (f_free A) ∧ (∀ p, p ∈ f_free A ↔ f_rc A !! p = Some 0) ∧
  (∀ p c, f_rc A !! p = Some c → 0 ≤ p < 2 ^ 26 ∧ 0 ≤ c).

(** The address of the count of page [p]. *)
Definition count_va (a : PhyPageAllocator) (p : Z) : Z :=
  page_usage a + 8 * (p - start_ppn a).

(** The count words, every managed page mapped, and the count array outside the
    managed pages. *)
Record counts_rep (w : words) (a : PhyPageAllocator) (rc : gmap Z Z) : Prop := {
  rep_start : 0 ≤ start_ppn a;
  rep_rc : ∀ p c, rc !! p = Some c →
    start_ppn a ≤ p ∧ in_usize c ∧ w !! count_va a p = Some c;
  rep_mapped : ∀ p c, rc !! p = Some c → mapped w (page_va p) 512;
  rep_sep : ∀ p q i, is_Some (rc !! p) → is_Some (rc !! q) → 0 ≤ i < 512 →
    count_va a p ≠ page_va q + 8 * i;
}.

(** [s] represents [A]. *)
Record frames_rep (s : kmem) (A : frames) : Prop := {
  rep_ok : frames_ok A;
  rep_free : flist (kwords s) (free_list (kalloc s)) (page_va <$> f_free A);
  rep_counts : counts_rep (kwords s) (kalloc s) (f_rc A);
}.

(** ** The interface the page tables use *)

(** Operations on a state that holds the word memory and a frame allocator. *)
Class FrameOps (St : Type) := {
  st_words : St → words;
  st_set : words → St → St;
  frame_alloc : M St (option Z);
  frame_clone : Z → M St unit;
  frame_drop : Z → M St unit;
  frame_refs : Z → M St Z;
}.

(** Two states agree on the words of the frames held in [A]. *)
Definition same_held `{FrameOps St} (A : frames) (s s' : St) : Prop :=
  ∀ q i, held A q → 0 ≤ i < 512 →
    st_words s' !! (page_va q + 8 * i) = st_words s !! (page_va q + 8 * i).

(** What the allocator promises: allocation hands out a frame nobody holds,
    counts are exact, no operation touches the contents of a held frame, and
    the holder of a frame may write it. *)
Class FrameSource (St : Type) `{FrameOps St} := {
  st_rep : St → frames → Prop;
  st_set_words s w : st_words (st_set w s) = w;
  st_set_set s w w' : st_set w' (st_set w s) = st_set w' s;
  st_set_id s : st_set (st_words s) s = s;
  st_rep_ok s A : st_rep s A → frames_ok A;
  st_rep_mapped s A p c : st_rep s A → f_rc A !! p = Some c →
    mapped (st_words s) (page_va p) 512;
  st_write s A p i v : st_rep s A → held A p → 0 ≤ i < 512 →
    st_rep (st_set (<[page_va p + 8 * i := v]> (st_words s)) s) A;
  frame_alloc_none s A : st_rep s A → frames_alloc A = None →
    frame_alloc s = Ok (None, s);
  frame_alloc_some s A p A' : st_rep s A → frames_alloc A = Some (p, A') →
    ∃ s', frame_alloc s = Ok (Some p, s') ∧ st_rep s' A' ∧ same_held A s s';
  frame_clone_ok s A p c : st_rep s A → f_rc A !! p = Some c → 0 < c < 2 ^ 64 - 1 →
    ∃ s', frame_clone p s = Ok (tt, s') ∧ st_rep s' (frames_clone p c A) ∧ same_held A s s';
  frame_drop_ok s A p c : st_rep s A → f_rc A !! p = Some c → 0 < c →
    ∃ s', frame_drop p s = Ok (tt, s') ∧ st_rep s' (frames_drop p c A) ∧
      same_held (frames_drop p c A) s s';
  frame_refs_ok s A p c : st_rep s A → f_rc A !! p = Some c → 0 < c →
    frame_refs p s = Ok (c, s);
}.

(** ** The abstract allocator *)

Lemma frames_alloc_ok A p A' :
  frames_ok A → frames_alloc A = Some (p, A') →
  frames_ok A' ∧ f_rc A !! p = Some 0 ∧ ¬ held A p ∧ f_rc A' = <[p := 1]> (f_rc A).
Proof.
  intros (Hnd & Hiff & Hrange) Ha. unfold frames_alloc in Ha.
  destruct (f_free A) as [|p' l] eqn:El; [done|]. simplify_eq.
  apply NoDup_cons in Hnd as [Hp Hnd].
  assert (f_rc A !! p = Some 0) as Hp0 by (apply Hiff; set_solver).
  split_and!; [|done| |done].
  - split_and!; cbn; [done| |].
    + intros q. rewrite lookup_insert. case_decide as Hq; [subst; naive_solver|].
      rewrite <- Hiff. set_solver.
    + intros q c. rewrite lookup_insert. case_decide; [|by apply Hrange].
      intros [= <-]. subst. apply Hrange in Hp0. lia.
  - intros (c & Hc & ?). rewrite Hp0 in Hc. simplify_eq. lia.
Qed.

Lemma frames_clone_ok A p c :
  frames_ok A → f_rc A !! p = Some c → 0 < c → frames_ok (frames_clone p c A).
Proof.
  intros (Hnd & Hiff & Hrange) Hp Hc. split_and!; cbn; [done| |].
  - intros q. rewrite lookup_insert. case_decide as Hq; [|apply Hiff].
    subst. rewrite Hiff, Hp. split; intros; simplify_eq; lia.
  - intros q c'. rewrite lookup_insert. case_decide; [|by apply Hrange].
    intros [= <-]. subst. apply Hrange in Hp. lia.
Qed.

Lemma frames_drop_ok A p c :
  frames_ok A → f_rc A !! p = Some c → 0 < c → frames_ok (frames_drop p c A).
Proof.
  intros (Hnd & Hiff & Hrange) Hp Hc.
  assert (p ∉ f_free A) as Hn.
  { rewrite Hiff, Hp. intros [= ->]. lia. }
  unfold frames_drop. split_and!; cbn.
  - destruct (c =? 1); [by apply NoDup_cons|done].
  - intros q. rewrite lookup_insert. destruct (Z.eqb_spec c 1) as [->|Hne].
    + rewrite elem_of_cons, Hiff. case_decide; naive_solver.
    + case_decide; [|apply Hiff]. subst. split; [done|]. intros [= ?]. lia.
  - intros q c'. rewrite lookup_insert. case_decide; [|by apply Hrange].
    intros [= <-]. subst. apply Hrange in Hp. lia.
Qed.

(** Allocation keeps what is held and adds the new frame. *)
Lemma held_alloc A p A' q :
  frames_ok A → frames_alloc A = Some (p, A') → held A' q ↔ q = p ∨ held A q.
Proof.
  intros Hok Ha. destruct (frames_alloc_ok _ _ _ Hok Ha) as (_ & Hp & Hn & Hrc).
  unfold held in *. rewrite Hrc. setoid_rewrite lookup_insert.
  case_decide as Hq; naive_solver lia.
Qed.

Lemma held_range A p : frames_ok A → held A p → 0 ≤ p < 2 ^ 26.
Proof. intros (_ & _ & H) (c & Hc & _). apply H in Hc. lia. Qed.

(** ** The word-memory operations refine the abstract allocator *)

Lemma page_va_disj p q i j :
  p ≠ q → 0 ≤ i < 512 → 0 ≤ j < 512 → page_va p + 8 * i ≠ page_va q + 8 * j.
Proof. unfold page_va. lia. Qed.

Lemma page_va_disj0 p q i : p ≠ q → 0 ≤ i < 512 → page_va p ≠ page_va q + 8 * i.
Proof. intros. pose proof (page_va_disj p q 0 i). lia. Qed.

Lemma page_va_inj : Inj (=) (=) page_va.
Proof. intros p q. unfold page_va. lia. Qed.

Lemma page_va_nonzero p : 0 ≤ p → page_va p ≠ 0.
Proof. unfold page_va. lia. Qed.

Lemma mapped_page w p i :
  mapped w (page_va p) 512 → 0 ≤ i < 512 → is_Some (w !! (page_va p + 8 * i)).
Proof.
  intros H Hi. specialize (H (Z.to_nat i)). rewrite Z2Nat.id in H by lia. apply H. lia.
Qed.

Lemma mapped_page0 w p : mapped w (page_va p) 512 → is_Some (w !! page_va p).
Proof. intros H. apply (mapped_page _ _ 0) in H; [by rewrite Z.add_0_r in H|lia]. Qed.

Lemma on_words_eq {A} (f : M words A) s a w :
  f (kwords s) = Ok (a, w) → on_words f s = Ok (a, {| kwords := w; kalloc := kalloc s |}).
Proof. unfold on_words. by intros ->. Qed.

Section refinement.
Context {C : Config} {Cok : ConfigOk C}.

Lemma floor_page_va p : floor (page_va p) = p + (2 ^ 52 - 2 ^ 26).
Proof. rewrite floor_div. unfold page_va. by rewrite Z.div_mul. Qed.

Lemma addr_page_va p :
  0 ≤ p < 2 ^ 26 → addr_of_pn (p + (2 ^ 52 - 2 ^ 26)) = page_va p.
Proof. intros. by rewrite addr_of_pn_mul by lia. Qed.

Lemma usage_slot_eq s p :
  start_ppn (kalloc s) ≤ p < 2 ^ 64 → 0 ≤ start_ppn (kalloc s) →
  usage_slot p s = Ok (count_va (kalloc s) p, s).
Proof. intros. unfold usage_slot, usub. by rewrite checked_in by lia. Qed.

(** The counts do not depend on the head of the free list. *)
Lemma counts_head w a rc h :
  counts_rep w a rc →
  counts_rep w {| free_list := h; page_usage := page_usage a; start_ppn := start_ppn a |} rc.
Proof. by intros []. Qed.

(** Writing a count. *)
Lemma counts_set w a rc p c c' :
  counts_rep w a rc → rc !! p = Some c → in_usize c' →
  counts_rep (<[count_va a p := c']> w) a (<[p := c']> rc).
Proof.
  intros [Hst Hrc Hmap Hsep] Hp Hc'. destruct (Hrc _ _ Hp) as (Hsp & _ & Hw). split.
  - done.
  - intros q cq. rewrite lookup_insert. case_decide as Hq.
    + intros [= <-]. subst q. split_and!; try done; try lia. apply lookup_insert_eq.
    + intros Hcq. destruct (Hrc _ _ Hcq) as (? & ? & ?). split_and!; try done; try lia.
      rewrite lookup_insert_ne; [done|]. unfold count_va. lia.
  - intros q cq Hq. apply mapped_insert; [by eexists|].
    rewrite lookup_insert in Hq. case_decide; [subst; by eapply Hmap|by eapply Hmap].
  - intros q r i Hq Hr. apply Hsep.
    + rewrite lookup_insert in Hq. case_decide; [by subst|done].
    + rewrite lookup_insert in Hr. case_decide; [by subst|done].
Qed.

(** Writing a word of a managed page. *)
Lemma counts_write w a rc p i v :
  counts_rep w a rc → is_Some (rc !! p) → 0 ≤ i < 512 →
  counts_rep (<[page_va p + 8 * i := v]> w) a rc.
Proof.
  intros [Hst Hrc Hmap Hsep] Hp Hi. split; [done| | |done].
  - intros q c Hc. destruct (Hrc _ _ Hc) as (? & ? & ?). split_and!; try done; try lia.
    rewrite lookup_insert_ne; [done|]. apply not_eq_sym, Hsep; [by eexists|done..].
  - intros q c Hc. apply mapped_insert; [|by eapply Hmap].
    destruct Hp as [cp Hcp]. eapply mapped_page; [by eapply Hmap|done].
Qed.

Lemma counts_write0 w a rc p v :
  counts_rep w a rc → is_Some (rc !! p) → counts_rep (<[page_va p := v]> w) a rc.
Proof.
  intros H Hp. pose proof (counts_write w a rc p 0 v H Hp) as H'.
  rewrite Z.add_0_r in H'. apply H'. lia.
Qed.

Lemma count_not_free w a A p c :
  counts_rep w a (f_rc A) → frames_ok A → f_rc A !! p = Some c →
  count_va a p ∉ page_va <$> f_free A.
Proof.
  intros Hcnt (_ & Hiff & _) Hp. rewrite list_elem_of_fmap. intros (q & Hq & Hin).
  apply Hiff in Hin. apply (rep_sep _ _ _ Hcnt p q 0); [by eexists|by eexists|lia|].
  by rewrite Z.add_0_r.
Qed.

Lemma pp_get_ref_count_spec s A p c :
  frames_rep s A → f_rc A !! p = Some c → 0 < c → pp_get_ref_count p s = Ok (c, s).
Proof.
  intros [(_ & _ & Hrange) _ Hcnt] Hp Hc.
  destruct (rep_rc _ _ _ Hcnt _ _ Hp) as (? & ? & Hw). pose proof (Hrange _ _ Hp).
  unfold pp_get_ref_count.
  run (usage_slot_eq s p ltac:(lia) (rep_start _ _ _ Hcnt)).
  run (on_words_eq _ _ _ _ (load_eq _ _ _ Hw)).
  destruct (Z.ltb_spec 0 c); [|lia]. by destruct s.
Qed.

Lemma pp_clone_spec s A p c :
  frames_rep s A → f_rc A !! p = Some c → 0 < c < 2 ^ 64 - 1 →
  ∃ w, pp_clone p s = Ok (tt, {| kwords := w; kalloc := kalloc s |}) ∧
    frames_rep {| kwords := w; kalloc := kalloc s |} (frames_clone p c A) ∧
    w = <[count_va (kalloc s) p := c + 1]> (kwords s).
Proof.
  intros [Hok Hfree Hcnt] Hp Hc. pose proof Hok as (_ & Hiff & Hrange).
  destruct (rep_rc _ _ _ Hcnt _ _ Hp) as (? & ? & Hw). pose proof (Hrange _ _ Hp).
  eexists. split; [|split; [|reflexivity]].
  - unfold pp_clone.
    run (usage_slot_eq s p ltac:(lia) (rep_start _ _ _ Hcnt)).
    run (on_words_eq _ _ _ _ (load_eq _ _ _ Hw)).
    destruct (Z.ltb_spec 0 c); [|lia].
    unfold uadd. rewrite checked_in by lia. cbn -[on_words].
    apply on_words_eq, store_eq. by eexists.
  - split; cbn.
    + apply frames_clone_ok; [done..|lia].
    + apply flist_insert; [by eapply count_not_free|done].
    + apply (counts_set _ _ _ _ c); [done..|lia].
Qed.

Lemma pp_alloc_none s A :
  frames_rep s A → frames_alloc A = None → pp_alloc s = Ok (None, s).
Proof.
  intros [_ Hfree _] Ha. unfold frames_alloc in Ha.
  destruct (f_free A) as [|p l]; [|done]. cbn in Hfree.
  unfold pp_alloc, get_head. run_refl. by rewrite Hfree.
Qed.

Lemma pp_alloc_spec s A p A' :
  frames_rep s A → frames_alloc A = Some (p, A') →
  ∃ s', pp_alloc s = Ok (Some p, s') ∧ frames_rep s' A' ∧
    kwords s' = <[count_va (kalloc s) p := 1]> (<[page_va p := 0]> (kwords s)).
Proof.
  intros [Hok Hfree Hcnt] Ha.
  destruct (frames_alloc_ok _ _ _ Hok Ha) as (Hok' & Hp & _ & Hrc).
  unfold frames_alloc in Ha. destruct (f_free A) as [|p' l] eqn:El; [done|]. simplify_eq.
  pose proof Hok as (_ & _ & Hrange). pose proof (Hrange _ _ Hp).
  rewrite fmap_cons in Hfree.
  destruct (pop_front_spec _ _ _ _ Hfree) as (next & Hpop & Hfree').
  destruct Hfree as (Hhead & Hz & _).
  assert (counts_rep (<[page_va p := 0]> (kwords s)) (kalloc s) (f_rc A)) as Hcnt'.
  { by apply counts_write0. }
  destruct (rep_rc _ _ _ Hcnt' _ _ Hp) as (Hsp & _ & Hw).
  pose proof (rep_start _ _ _ Hcnt).
  eexists. split_and!.
  - unfold pp_alloc, get_head. run_refl. rewrite Hhead in *.
    destruct (Z.eqb_spec (page_va p) 0); [done|].
    run (on_words_eq _ _ _ _ Hpop). run_refl.
    rewrite floor_page_va, ppn_of_vpn_in by lia.
    replace (p + _ - _) with p by lia. run_refl.
    erewrite M_bind_eq; [|apply usage_slot_eq; cbn; lia].
    erewrite M_bind_eq; [|apply on_words_eq, load_eq, Hw].
    run_refl.
    erewrite M_bind_eq; [|apply on_words_eq, store_eq; by eexists]. done.
  - split; cbn; [done| |].
    + apply flist_insert; [|done].
      pose proof (count_not_free _ _ _ _ _ Hcnt Hok Hp) as Hn.
      rewrite El, fmap_cons in Hn. set_solver.
    + apply (counts_head _ (kalloc s)). change (count_va _ p) with (count_va (kalloc s) p).
      apply (counts_set _ _ _ _ 0); [done..|lia].
  - done.
Qed.

Lemma pp_dealloc_spec s A p c :
  frames_rep s A → f_rc A !! p = Some c → 0 < c →
  ∃ s', pp_dealloc p s = Ok (tt, s') ∧ frames_rep s' (frames_drop p c A) ∧
    kwords s' = let w := <[count_va (kalloc s) p := c - 1]> (kwords s) in
                if c =? 1 then <[page_va p := free_list (kalloc s)]> w else w.
Proof.
  intros [Hok Hfree Hcnt] Hp Hc. pose proof Hok as (_ & Hiff & Hrange).
  pose proof (frames_drop_ok _ _ _ Hok Hp Hc) as Hok'.
  destruct (rep_rc _ _ _ Hcnt _ _ Hp) as (? & ? & Hw). pose proof (Hrange _ _ Hp).
  set (w := <[count_va (kalloc s) p := c - 1]> (kwords s)).
  assert (counts_rep w (kalloc s) (<[p := c - 1]> (f_rc A))) as Hcnt'.
  { apply (counts_set _ _ _ _ c); [done..|lia]. }
  assert (flist w (free_list (kalloc s)) (page_va <$> f_free A)) as Hfree'.
  { apply flist_insert; [by eapply count_not_free|done]. }
  assert (pp_dealloc p s =
    (if c - 1 =? 0 then
       vpn ← lift (vpn_of_ppn p);
       let page := addr_of_pn vpn in
       lift (ensure (negb (page =? 0))) ;;
       s ← get;
       h ← on_words (push_front (free_list (kalloc s)) page);
       set_free_list h
     else mret tt) {| kwords := w; kalloc := kalloc s |}) as ->.
  { unfold pp_dealloc.
    run (usage_slot_eq s p ltac:(lia) (rep_start _ _ _ Hcnt)).
    run (on_words_eq _ _ _ _ (load_eq _ _ _ Hw)).
    destruct (Z.ltb_spec 0 c); [|lia]. run_refl.
    unfold usub. rewrite checked_in by lia. run_refl.
    erewrite M_bind_eq; [|apply on_words_eq, store_eq; by eexists]. done. }
  unfold frames_drop in *. destruct (Z.eqb_spec c 1) as [->|Hne].
  - change (1 - 1 =? 0) with true. cbv iota. rewrite vpn_of_ppn_in by lia. run_refl.
    cbv zeta. rewrite addr_page_va by lia.
    destruct (Z.eqb_spec (page_va p) 0) as [Hz|Hz]; [by apply page_va_nonzero in Hz; [|lia]|].
    assert (page_va p ∉ page_va <$> f_free A) as Hnin.
    { rewrite list_elem_of_fmap. intros (q & ->%page_va_inj & Hin).
      apply Hiff in Hin. rewrite Hp in Hin. done. }
    destruct (push_front_spec w _ _ (page_va p) Hfree' Hz Hnin) as [Hpush Hfree''].
    { apply mapped_page0. eapply rep_mapped; [done|]. apply lookup_insert_eq. }
    run_refl. run_refl.
    eexists. split_and!.
    + erewrite M_bind_eq; [|apply on_words_eq, Hpush]. done.
    + split; cbn; [done|done|]. apply (counts_head _ (kalloc s)), counts_write0; [done|]. by rewrite lookup_insert_eq.
    + done.
  - destruct (Z.eqb_spec (c - 1) 0); [lia|]. eexists. split_and!; [done| |done].
    by split.
Qed.
End refinement.

(** ** The allocator discharges the interface *)

#[export] Instance kmem_ops {C : Config} : FrameOps kmem := {|
  st_words := kwords;
  st_set := λ w s, {| kwords := w; kalloc := kalloc s |};
  frame_alloc := pp_alloc;
  frame_clone := pp_clone;
  frame_drop := pp_dealloc;
  frame_refs := pp_get_ref_count |}.

Section instance.
Context {C : Config} {Cok : ConfigOk C}.

Lemma held_managed A p : held A p → is_Some (f_rc A !! p).
Proof. intros (c & Hc & _). by eexists. Qed.

(** A count word is outside every held page. *)
Lemma same_held_count s A p v w :
  frames_rep s A → is_Some (f_rc A !! p) → w = <[count_va (kalloc s) p := v]> (kwords s) →
  same_held A s {| kwords := w; kalloc := kalloc s |}.
Proof.
  intros Hrep Hp -> q i Hq Hi. cbn. apply lookup_insert_ne.
  apply (rep_sep _ _ _ (rep_counts _ _ Hrep)); [done|by apply held_managed|done].
Qed.

#[export] Instance kmem_source : FrameSource kmem.
Proof.
  refine {| st_rep := frames_rep |}; try done.
  - apply rep_ok.
  - intros s A p c Hrep. apply (rep_mapped _ _ _ (rep_counts _ _ Hrep)).
  - intros s A p i v [Hok Hfree Hcnt] Hp Hi. split; [done| |].
    + apply flist_insert; [|done]. rewrite list_elem_of_fmap. intros (q & Hq & Hin).
      pose proof Hok as (_ & Hiff & _). apply Hiff in Hin.
      apply (page_va_disj0 q p i); [|done..]. intros ->. destruct Hp as (c & Hc & ?).
      rewrite Hin in Hc. simplify_eq. lia.
    + apply counts_write; [done|by apply held_managed|done].
  - apply pp_alloc_none.
  - intros s A p A' Hrep Ha.
    destruct (pp_alloc_spec _ _ _ _ Hrep Ha) as (s' & Hs & Hrep' & Hw).
    exists s'. split_and!; [done..|]. intros q i Hq Hi.
    change (kwords s') with (st_words s') in Hw. rewrite Hw.
    destruct (frames_alloc_ok _ _ _ (rep_ok _ _ Hrep) Ha) as (_ & Hp & Hn & _).
    rewrite !lookup_insert_ne; [done| |].
    + apply page_va_disj0; [by intros ->|done].
    + apply (rep_sep _ _ _ (rep_counts _ _ Hrep)); [by eexists|by apply held_managed|done].
  - intros s A p c Hrep Hp Hc.
    destruct (pp_clone_spec _ _ _ _ Hrep Hp Hc) as (w & Hs & Hrep' & Hw).
    exists {| kwords := w; kalloc := kalloc s |}. split_and!; [done..|].
    eapply same_held_count; [done|by eexists|done].
  - intros s A p c Hrep Hp Hc.
    destruct (pp_dealloc_spec _ _ _ _ Hrep Hp Hc) as (s' & Hs & Hrep' & Hw).
    exists s'. split_and!; [done..|]. intros q i Hq Hi.
    change (kwords s') with (st_words s') in Hw. rewrite Hw.
    assert (is_Some (f_rc A !! q)) as Hq'.
    { destruct Hq as (cq & Hcq & _). cbn in Hcq. rewrite lookup_insert in Hcq.
      case_decide; [subst|]; by eexists. }
    pose proof (rep_sep _ _ _ (rep_counts _ _ Hrep) p q i ltac:(by eexists) Hq' Hi).
    cbv zeta. destruct (Z.eqb_spec c 1) as [->|Hne]; rewrite !lookup_insert_ne; try done.
    apply page_va_disj0; [|done]. intros ->. destruct Hq as (cq & Hcq & ?). cbn in Hcq.
    rewrite lookup_insert_eq in Hcq. by simplify_eq.
  - apply pp_get_ref_count_spec.
Defined.
End instance.

(** ** Client traces *)

Section traces.
Context {C : Config} {Cok : ConfigOk C}.

(** What holders of frames do. *)
Inductive fop := FAlloc | FClone (p : Z) | FDrop (p : Z) | FRefs (p : Z).
Inductive fres := RFrame (o : option Z) | RUnit | RCount (c : Z).

Definition fop_run (o : fop) : M kmem fres :=
  match o with
  | FAlloc => r ← pp_alloc; mret (RFrame r)
  | FClone p => pp_clone p ;; mret RUnit
  | FDrop p => pp_dealloc p ;; mret RUnit
  | FRefs p => c ← pp_get_ref_count p; mret (RCount c)
  end.

Fixpoint fops_run (os : list fop) : M kmem (list fres) :=
  match os with
  | [] => mret []
  | o :: os => r ← fop_run o; rs ← fops_run os; mret (r :: rs)
  end.

(** The specification: only a held frame is cloned, dropped or counted. *)
Inductive fstep : frames → fop → fres → frames → Prop :=
  | fstep_none A : frames_alloc A = None → fstep A FAlloc (RFrame None) A
  | fstep_some A p A' : frames_alloc A = Some (p, A') → fstep A FAlloc (RFrame (Some p)) A'
  | fstep_clone A p c : f_rc A !! p = Some c → 0 < c < 2 ^ 64 - 1 →
      fstep A (FClone p) RUnit (frames_clone p c A)
  | fstep_drop A p c : f_rc A !! p = Some c → 0 < c →
      fstep A (FDrop p) RUnit (frames_drop p c A)
  | fstep_refs A p c : f_rc A !! p = Some c → 0 < c → fstep A (FRefs p) (RCount c) A.

Inductive fsteps : frames → list fop → list fres → frames → Prop :=
  | fsteps_nil A : fsteps A [] [] A
  | fsteps_cons A o r A1 os rs A2 :
      fstep A o r A1 → fsteps A1 os rs A2 → fsteps A (o :: os) (r :: rs) A2.

Lemma fstep_sim s A o r A' :
  frames_rep s A → fstep A o r A' →
  ∃ s', fop_run o s = Ok (r, s') ∧ frames_rep s' A'.
Proof.
  intros Hrep Hstep. revert Hrep.
  destruct Hstep as [? Ha|? p ? Ha|? p c Hp Hc|? p c Hp Hc|? p c Hp Hc]; intros Hrep; cbn.
  - exists s. split; [|done]. run (pp_alloc_none _ _ Hrep Ha). done.
  - destruct (pp_alloc_spec _ _ _ _ Hrep Ha) as (s' & Hs & ? & _). exists s'.
    split; [by run Hs|done].
  - destruct (pp_clone_spec _ _ _ _ Hrep Hp Hc) as (w & Hs & ? & _).
    exists {| kwords := w; kalloc := kalloc s |}. split; [by run Hs|done].
  - destruct (pp_dealloc_spec _ _ _ _ Hrep Hp Hc) as (s' & Hs & ? & _).
    exists s'. split; [by run Hs|done].
  - exists s. split; [|done]. by run (pp_get_ref_count_spec _ _ _ _ Hrep Hp Hc).
Qed.

(** C16: The allocator refines its specification: every sequence of requests that
    respects the ownership rules runs without a panic, with the results and the
    final state of the abstract allocator. *)
Theorem frame_allocator_refines (s : kmem) (A A' : frames) (os : list fop) (rs : list fres) :
  frames_rep s A → fsteps A os rs A' →
  ∃ s', fops_run os s = Ok (rs, s') ∧ frames_rep s' A'.
Proof.
  intros Hrep Hsteps. revert s Hrep. induction Hsteps as [|A o r A1 os rs A2 Hs _ IH];
    intros s Hrep; [by exists s|].
  destruct (fstep_sim _ _ _ _ _ Hrep Hs) as (s1 & H1 & Hrep1).
  destruct (IH _ Hrep1) as (s2 & H2 & Hrep2). exists s2. split; [|done].
  cbn. run H1. by run H2.
Qed.

(** Dropping or cloning a frame whose count is zero is caught by the assertion:
    a double free stops the kernel before the free list is touched. *)
Theorem double_free_panics (s : kmem) (A : frames) (p : Z) :
  frames_rep s A → p ∈ f_free A →
  pp_dealloc p s = Panic AssertFailed ∧ pp_clone p s = Panic AssertFailed.
Proof.
  intros [Hok _ Hcnt] Hp. pose proof Hok as (_ & Hiff & Hrange). apply Hiff in Hp.
  destruct (rep_rc _ _ _ Hcnt _ _ Hp) as (? & ? & Hw). pose proof (Hrange _ _ Hp).
  unfold pp_dealloc, pp_clone.
  split; run (usage_slot_eq s p ltac:(lia) (rep_start _ _ _ Hcnt));
    run (on_words_eq _ _ _ _ (load_eq _ _ _ Hw)); by apply M_bind_Panic.
Qed.
End traces.

(** ** Initialisation *)

Definition frames_init (p n : Z) : frames :=
  {| f_free := seqZ p n; f_rc := gset_to_gmap 0 (list_to_set (seqZ p n)) |}.

Section init.
Context {C : Config} {Cok : ConfigOk C}.

Lemma frames_init_ok p n : 0 ≤ p → p + n ≤ 2 ^ 26 → frames_ok (frames_init p n).
Proof.
  intros Hp Hn. split_and!; cbn.
  - apply NoDup_seqZ.
  - intros q. rewrite lookup_gset_to_gmap_Some, elem_of_list_to_set. naive_solver.
  - intros q c. rewrite lookup_gset_to_gmap_Some, elem_of_list_to_set, elem_of_seqZ. lia.
Qed.

(** The loop that pushes the pages from the last to the first. *)
Lemma pp_init_loop s start end_ :
  2 ^ 52 - 2 ^ 26 ≤ start → end_ ≤ 2 ^ 52 → free_list (kalloc s) = 0 →
  (∀ vpn, start ≤ vpn < end_ → is_Some (kwords s !! (vpn * 4096))) →
  ∃ s', for_each (reverse (range start end_)) (λ vpn,
          s ← get;
          h ← on_words (push_front (free_list (kalloc s)) (addr_of_pn vpn));
          set_free_list h) s = Ok (tt, s') ∧
    page_usage (kalloc s') = page_usage (kalloc s) ∧
    flist (kwords s') (free_list (kalloc s')) ((λ v, v * 4096) <$> range start end_) ∧
    (∀ a, is_Some (kwords s !! a) → is_Some (kwords s' !! a)).
Proof.
  intros Hs He Hh Hmap.
  set (I l1 (s1 : kmem) := page_usage (kalloc s1) = page_usage (kalloc s) ∧
    flist (kwords s1) (free_list (kalloc s1)) ((λ v, v * 4096) <$> reverse l1) ∧
    (∀ a, is_Some (kwords s !! a) → is_Some (kwords s1 !! a))).
  destruct (for_each_inv I (λ vpn,
          s ← get;
          h ← on_words (push_front (free_list (kalloc s)) (addr_of_pn vpn));
          set_free_list h) (reverse (range start end_)) s) as (s' & Hr & HI).
  - by split_and!.
  - intros l1 v l2 s1 Hl (Hu & Hfl & Hdom).
    assert (NoDup (l1 ++ v :: l2)) as Hnd by (rewrite <- Hl, reverse_Permutation; apply NoDup_range).
    assert (v ∈ range start end_) as Hv%elem_of_range.
    { rewrite <- elem_of_reverse, Hl. set_solver. }
    destruct (push_front_spec (kwords s1) _ _ (v * 4096) Hfl) as [Hpush Hfl'].
    + lia.
    + rewrite list_elem_of_fmap. intros (w & Hw & Hin). assert (w = v) as -> by lia.
      rewrite elem_of_reverse in Hin. apply NoDup_app in Hnd. set_solver.
    + by apply Hdom, Hmap.
    + eexists. split.
      * run_refl. rewrite addr_of_pn_mul by lia.
        run (on_words_eq _ _ _ _ Hpush). reflexivity.
      * split_and!; [done| |].
        -- rewrite reverse_app. done.
        -- intros a Ha. cbn. rewrite lookup_insert. case_decide; [done|by apply Hdom].
  - destruct HI as (? & Hfl & ?). rewrite reverse_involutive in Hfl. by exists s'.
Qed.

Lemma pp_init_rep (s : kmem) (ekernel usage_ptr start : Z) :
  ceil ekernel = Ok start →
  2 ^ 52 - 2 ^ 26 ≤ start ≤ floor MEMORY_END →
  free_list (kalloc s) = 0 →
  (∀ vpn, start ≤ vpn < floor MEMORY_END → mapped (kwords s) (vpn * 4096) 512) →
  mapped (kwords s) usage_ptr (Z.to_nat (floor MEMORY_END - start)) →
  usage_ptr + 8 * (floor MEMORY_END - start) ≤ start * 4096 →
  ∃ s', pp_init ekernel usage_ptr s = Ok (tt, s') ∧
    frames_rep s' (frames_init (start - (2 ^ 52 - 2 ^ 26)) (floor MEMORY_END - start)).
Proof.
  intros Hceil Hstart Hh Hmap Husage Hsep.
  set (n := floor MEMORY_END - start) in *.
  assert (floor MEMORY_END ≤ 2 ^ 52) as Hend.
  { rewrite floor_div. destruct memory_ok as (_ & _ & ?). apply Z.div_le_upper_bound; lia. }
  destruct (pp_init_loop s start (floor MEMORY_END)) as (s1 & Hloop & Hu & Hfl & Hdom);
    [lia..|done| |].
  { intros vpn Hv. apply Hmap, (mapped_S _ _ 511) in Hv as [? _]. done. }
  assert (mapped (kwords s1) usage_ptr (length (replicate (Z.to_nat n) 0))) as Hm1.
  { rewrite length_replicate. intros i Hi. by apply Hdom, Husage. }
  destruct (store_words_spec _ _ _ Hm1) as (w & Hw & Hin & Hout).
  rewrite length_replicate in Hout.
  assert (∀ a, start * 4096 ≤ a → w !! a = kwords s1 !! a) as Hpages.
  { intros a Ha. apply Hout. intros i Hi. lia. }
  set (p := start - (2 ^ 52 - 2 ^ 26)).
  assert (page_va <$> seqZ p n = (λ v, v * 4096) <$> range start (floor MEMORY_END)) as Hlist.
  { unfold range. fold n. apply list_eq. intros i. rewrite !list_lookup_fmap.
    destruct (decide (Z.of_nat i < n)).
    - rewrite !lookup_seqZ_lt by lia. cbn. f_equal. unfold page_va, p. lia.
    - by rewrite !lookup_seqZ_ge by lia. }
  eexists. split; [|split; [apply frames_init_ok; lia| |split]].
  - unfold pp_init. rewrite Hceil. run_refl. cbv zeta. run Hloop.
    unfold usub. rewrite checked_in by lia. run_refl. fold n.
    unfold umul. rewrite checked_in by lia. run_refl.
    run (on_words_eq _ _ _ _ Hw). rewrite ppn_of_vpn_in by lia. run_refl. reflexivity.
  - change (flist w (free_list (kalloc s1)) (page_va <$> seqZ p n)).
    rewrite Hlist. eapply flist_frame; [|exact Hfl].
    intros a (v & -> & Hv%elem_of_range)%list_elem_of_fmap. symmetry. apply Hpages. lia.
  - cbn. lia.
  - cbn. intros q c [Hq <-]%lookup_gset_to_gmap_Some.
    rewrite elem_of_list_to_set, elem_of_seqZ in Hq. split_and!; try lia.
    unfold count_va. cbn. specialize (Hin (Z.to_nat (q - p)) 0).
    rewrite Z2Nat.id in Hin by lia. fold p. apply Hin.
    apply lookup_replicate_2. lia.
  - cbn. intros q c [Hq <-]%lookup_gset_to_gmap_Some.
    rewrite elem_of_list_to_set, elem_of_seqZ in Hq. intros i Hi.
    rewrite Hpages by (unfold page_va; lia). apply Hdom. unfold page_va.
    apply Hmap; lia.
  - cbn. intros q r i [c [Hq _]%lookup_gset_to_gmap_Some] [c' [Hr _]%lookup_gset_to_gmap_Some].
    rewrite elem_of_list_to_set, elem_of_seqZ in Hq, Hr.
    unfold count_va, page_va. cbn. lia.
Qed.

(** after [init], every page between the end of the kernel image and the end
    of memory is free with count zero, and the allocator then hands them out in
    address order: a run of [k] allocations returns the first [k] pages. *)
Theorem frame_allocator_init (s : kmem) (ekernel usage_ptr start : Z) (k : nat) :
  ceil ekernel = Ok start →
  2 ^ 52 - 2 ^ 26 ≤ start ≤ floor MEMORY_END →
  free_list (kalloc s) = 0 →
  (∀ vpn, start ≤ vpn < floor MEMORY_END → mapped (kwords s) (vpn * 4096) 512) →
  mapped (kwords s) usage_ptr (Z.to_nat (floor MEMORY_END - start)) →
  usage_ptr + 8 * (floor MEMORY_END - start) ≤ start * 4096 →
  Z.of_nat k ≤ floor MEMORY_END - start →
  let first := start - (2 ^ 52 - 2 ^ 26) in
  ∃ s0 sk, pp_init ekernel usage_ptr s = Ok (tt, s0) ∧
    frames_rep s0 (frames_init first (floor MEMORY_END - start)) ∧
    fops_run (replicate k FAlloc) s0 =
      Ok ((λ p, RFrame (Some p)) <$> seqZ first (Z.of_nat k), sk).
Proof.
  intros Hc Hs Hh Hm Hu Hsep Hk first.
  destruct (pp_init_rep _ _ _ _ Hc Hs Hh Hm Hu Hsep) as (s0 & Hi & Hrep).
  set (n := floor MEMORY_END - start) in *.
  assert (∀ (j : nat) p rest (s : kmem) A, f_free A = seqZ p (Z.of_nat j) ++ rest → frames_rep s A →
    ∃ sk, fops_run (replicate j FAlloc) s = Ok ((λ p, RFrame (Some p)) <$> seqZ p (Z.of_nat j), sk))
    as Hrun.
  { clear - Cok. induction j as [|j IH]; intros p rest s A HA Hrep; [by exists s|].
    rewrite seqZ_cons in HA |- * by lia. replace (Z.pred (Z.of_nat (S j))) with (Z.of_nat j) in * by lia.
    destruct (pp_alloc_spec s A p {| f_free := seqZ (Z.succ p) (Z.of_nat j) ++ rest;
      f_rc := <[p := 1]> (f_rc A) |} Hrep) as (s1 & H1 & Hrep1 & _).
    { unfold frames_alloc. by rewrite HA. }
    edestruct (IH (Z.succ p) rest s1) as (sk & Hsk); [|exact Hrep1|]; [done|]. exists sk.
    cbn [replicate fops_run fop_run]. rewrite M_bind_assoc. run H1. run_refl. run Hsk. done. }
  destruct (Hrun k first (seqZ (first + Z.of_nat k) (n - Z.of_nat k)) s0 (frames_init first n)) as (sk & Hsk); [|done|].
  - cbn [f_free frames_init]. rewrite <- seqZ_app by lia. f_equal. lia.
  - by exists s0, sk.
Qed.
End init.
