(* ===== verification/Pte.v ===== *)
(** * Page-table entries

    [PTEImpl] (kernel/arch/riscv/page_table.rs), a [bitflags!] struct over
    [usize]: the low nine bits are flags (bit 8, reserved for software, marks
    copy-on-write pages), the page number starts at bit 10. *)

From S2P Require Import Prelude Address.

(** Flag constants. *)
Definition PTE_EMPTY : Z := 0.
Definition PTE_VALID : Z := Z.shiftl 1 0.
Definition PTE_READABLE : Z := Z.shiftl 1 1.
Definition PTE_WRITABLE : Z := Z.shiftl 1 2.
Definition PTE_EXECUTABLE : Z := Z.shiftl 1 3.
Definition PTE_USER : Z := Z.shiftl 1 4.
Definition PTE_GLOBAL : Z := Z.shiftl 1 5.
Definition PTE_ACCESSED : Z := Z.shiftl 1 6.
Definition PTE_DIRTY : Z := Z.shiftl 1 7.
Definition PTE_COW : Z := Z.shiftl 1 8.

(** [PTEImpl::all().bits], the union of the declared flags. *)
Definition PTE_ALL : Z :=
  Z.lor PTE_VALID (Z.lor PTE_READABLE (Z.lor PTE_WRITABLE (Z.lor PTE_EXECUTABLE
    (Z.lor PTE_USER (Z.lor PTE_GLOBAL (Z.lor PTE_ACCESSED (Z.lor PTE_DIRTY PTE_COW))))))).

(** The methods [bitflags!] generates. *)
Definition from_bits_truncate (b : Z) : Z := Z.land b PTE_ALL.
Definition flags_contains (self other : Z) : bool := Z.land self other =? other.
Definition flags_insert (self other : Z) : Z := Z.lor self other.
Definition flags_remove (self other : Z) : Z := Z.land self (unot other).
Definition flags_set (self other : Z) (value : bool) : Z :=
  if value then flags_insert self other else flags_remove self other.

Section pte.
Context {C : Config}.

(** [PTE::new] *)
Definition pte_new (ppn flags : Z) : Z :=
  Z.lor (ushl ppn 10) (from_bits_truncate flags).
(** [PTE::set_ppn] *)
Definition pte_set_ppn (self ppn : Z) : Z :=
  Z.lor (ushl ppn 10) (from_bits_truncate self).
(** [PTE::ppn] *)
Definition pte_ppn (self : Z) : Z := Z.land (ushr self 10) (ushl 1 PTE_PPN_BITS - 1).
(** [PTE::is_valid] *)
Definition pte_is_valid (self : Z) : bool := negb (Z.land self PTE_VALID =? PTE_EMPTY).
End pte.

Section lemmas.
Context {C : Config} {Cok : ConfigOk C}.

Lemma from_bits_truncate_mod b : from_bits_truncate b = b `mod` 2 ^ 9.
Proof.
  unfold from_bits_truncate. change PTE_ALL with (2 ^ 9 - 1). by rewrite land_pow2_mod.
Qed.

Lemma flags_range b : 0 ≤ from_bits_truncate b < 2 ^ 10.
Proof. rewrite from_bits_truncate_mod. pose proof (Z.mod_pos_bound b (2 ^ 9)). lia. Qed.

Lemma pte_new_eq ppn flags :
  0 ≤ ppn < 2 ^ 44 → pte_new ppn flags = ppn * 2 ^ 10 + from_bits_truncate flags.
Proof.
  intros Hp. unfold pte_new, ushl. rewrite Z.mod_small.
  - apply lor_shiftl_add; [lia|apply flags_range].
  - rewrite Z.shiftl_mul_pow2 by lia. lia.
Qed.

Lemma pte_valid_testbit w : pte_is_valid w = Z.testbit w 0.
Proof.
  unfold pte_is_valid. change PTE_VALID with (2 ^ 1 - 1). rewrite land_pow2_mod by lia.
  rewrite <- Z.bit0_mod. by destruct (Z.testbit w 0).
Qed.

Lemma pte_ppn_div w : pte_ppn w = (w `div` 2 ^ 10) `mod` 2 ^ PTE_PPN_BITS.
Proof.
  pose proof ppn_bits_ok. unfold pte_ppn. rewrite ushr_div by lia.
  unfold ushl. rewrite Z.shiftl_1_l, Z.mod_small.
  - by rewrite land_pow2_mod by lia.
  - split; [apply Z.pow_nonneg; lia|]. apply Z.pow_lt_mono_r; lia.
Qed.

Lemma ppn_bound ppn : 0 ≤ ppn < 2 ^ PTE_PPN_BITS → 0 ≤ ppn < 2 ^ 44.
Proof.
  intros. pose proof ppn_bits_ok.
  assert (2 ^ PTE_PPN_BITS ≤ 2 ^ 44) by (apply Z.pow_le_mono_r; lia). lia.
Qed.

Lemma ppn_bound26 ppn : 0 ≤ ppn < 2 ^ 26 → 0 ≤ ppn < 2 ^ PTE_PPN_BITS.
Proof.
  intros. pose proof ppn_bits_ok.
  assert (2 ^ 26 ≤ 2 ^ PTE_PPN_BITS) by (apply Z.pow_le_mono_r; lia). lia.
Qed.

Lemma pte_ppn_new ppn flags :
  0 ≤ ppn < 2 ^ PTE_PPN_BITS → pte_ppn (pte_new ppn flags) = ppn.
Proof.
  intros Hp. rewrite pte_ppn_div, pte_new_eq by (by apply ppn_bound).
  pose proof (flags_range flags).
  rewrite Z.div_add_l, (Z.div_small (from_bits_truncate flags)) by lia.
  rewrite Z.add_0_r. by apply Z.mod_small.
Qed.

Lemma pte_flags_new ppn flags :
  0 ≤ ppn < 2 ^ PTE_PPN_BITS →
  from_bits_truncate (pte_new ppn flags) = from_bits_truncate flags.
Proof.
  intros Hp. rewrite pte_new_eq by (by apply ppn_bound).
  rewrite !from_bits_truncate_mod.
  replace (ppn * 2 ^ 10) with ((ppn * 2) * 2 ^ 9) by lia.
  rewrite Z.add_comm, Z_mod_plus_full. apply Z.mod_mod. lia.
Qed.

Lemma pte_valid_new ppn flags :
  0 ≤ ppn < 2 ^ PTE_PPN_BITS → pte_is_valid (pte_new ppn (Z.lor flags PTE_VALID)) = true.
Proof.
  intros Hp. rewrite pte_valid_testbit. unfold pte_new, from_bits_truncate.
  rewrite Z.lor_spec, Z.land_spec, Z.lor_spec.
  change (Z.testbit PTE_VALID 0) with true. change (Z.testbit PTE_ALL 0) with true.
  by rewrite !orb_true_r.
Qed.

Lemma pte_valid_new' ppn :
  0 ≤ ppn < 2 ^ PTE_PPN_BITS → pte_is_valid (pte_new ppn PTE_VALID) = true.
Proof. intros. by apply (pte_valid_new ppn 0). Qed.

Lemma pte_new_testbit ppn flags i :
  0 ≤ ppn < 2 ^ PTE_PPN_BITS → 0 ≤ i < 9 →
  Z.testbit (pte_new ppn flags) i = Z.testbit flags i.
Proof.
  intros Hp Hi. rewrite <- (Z.mod_pow2_bits_low _ 9) by lia.
  rewrite <- from_bits_truncate_mod, pte_flags_new, from_bits_truncate_mod by done.
  apply Z.mod_pow2_bits_low. lia.
Qed.

Lemma pte_new_usize ppn flags : 0 ≤ ppn < 2 ^ PTE_PPN_BITS → in_usize (pte_new ppn flags).
Proof.
  intros Hp%ppn_bound. rewrite pte_new_eq by done. pose proof (flags_range flags). lia.
Qed.

(** Flag updates of an entry act on its flags. *)
Lemma pte_new_insert ppn flags o :
  Z.land o PTE_ALL = o → flags_insert (pte_new ppn flags) o = pte_new ppn (Z.lor flags o).
Proof.
  intros Ho. unfold flags_insert, pte_new, from_bits_truncate. rewrite <- Ho at 1.
  rewrite <- Z.lor_assoc. f_equal. apply Z.bits_inj'. intros i _.
  rewrite !Z.lor_spec, !Z.land_spec, Z.lor_spec.
  destruct (Z.testbit flags i), (Z.testbit o i), (Z.testbit PTE_ALL i); done.
Qed.

Lemma pte_new_remove_cow ppn flags :
  0 ≤ ppn < 2 ^ PTE_PPN_BITS →
  flags_remove (pte_new ppn flags) PTE_COW = pte_new ppn (Z.ldiff flags PTE_COW).
Proof.
  intros Hp. unfold flags_remove. rewrite unot_ldiff by (by apply pte_new_usize || by vm_compute).
  unfold pte_new, from_bits_truncate, ushl. apply Z.bits_inj'. intros i Hi.
  rewrite Z.ldiff_spec, !Z.lor_spec, !Z.land_spec, Z.ldiff_spec.
  destruct (decide (i = 8)) as [->|].
  - rewrite Z.mod_pow2_bits_low, Z.shiftl_spec by lia. rewrite Z.testbit_neg_r by lia.
    by destruct (Z.testbit flags 8).
  - assert (Z.testbit PTE_COW i = false) as ->.
    { change PTE_COW with (2 ^ 8). by apply Z.pow2_bits_false. }
    by rewrite !andb_true_r.
Qed.

Lemma pte_set_ppn_new ppn ppn' flags :
  0 ≤ ppn < 2 ^ PTE_PPN_BITS → pte_set_ppn (pte_new ppn flags) ppn' = pte_new ppn' flags.
Proof. intros Hp. unfold pte_set_ppn. rewrite pte_flags_new by done. done. Qed.

Lemma pte_contains_cow ppn flags :
  0 ≤ ppn < 2 ^ PTE_PPN_BITS → flags_contains (pte_new ppn flags) PTE_COW = Z.testbit flags 8.
Proof.
  intros Hp. rewrite <- (pte_new_testbit ppn flags 8) by (done || lia). unfold flags_contains.
  change PTE_COW with (Z.shiftl 1 8). set (w := pte_new ppn flags).
  destruct (Z.testbit w 8) eqn:E.
  - apply Z.eqb_eq, Z.bits_inj'. intros i Hi. rewrite Z.land_spec.
    destruct (decide (i = 8)) as [->|Hn]; [by rewrite E|].
    change (Z.shiftl 1 8) with (2 ^ 8). rewrite Z.pow2_bits_false by done. apply andb_false_r.
  - apply Z.eqb_neq. intros H. apply (f_equal (λ z, Z.testbit z 8)) in H.
    rewrite Z.land_spec, E in H. by vm_compute in H.
Qed.

Lemma pte_invalid_0 : pte_is_valid 0 = false.
Proof. done. Qed.
End lemmas.

(** Encoding and decoding of an entry, and [set_ppn] as an update of the page
    number that keeps the flags. *)
Theorem pte_roundtrip {C : Config} {Cok : ConfigOk C} (ppn ppn' flags : Z) :
  0 ≤ ppn < 2 ^ PTE_PPN_BITS → 0 ≤ ppn' < 2 ^ PTE_PPN_BITS → 0 ≤ flags < 2 ^ 9 →
  let pte := pte_new ppn flags in
  pte_ppn pte = ppn ∧ from_bits_truncate pte = flags ∧
  pte_is_valid pte = flags_contains flags PTE_VALID ∧
  pte_set_ppn pte ppn' = pte_new ppn' flags ∧
  pte_new (pte_ppn pte) pte = pte ∧ in_usize pte.
Proof.
  intros Hp Hp' Hf pte.
  assert (from_bits_truncate flags = flags) as Hfl.
  { rewrite from_bits_truncate_mod. apply Z.mod_small. lia. }
  pose proof (pte_flags_new ppn flags Hp) as Hpf. fold pte in Hpf. rewrite Hfl in Hpf.
  assert (pte_new ppn flags = ppn * 2 ^ 10 + flags) as Heq.
  { rewrite pte_new_eq by (by apply ppn_bound). by rewrite Hfl. }
  split_and!.
  - by apply pte_ppn_new.
  - done.
  - rewrite pte_valid_testbit. unfold pte, flags_contains.
    change PTE_VALID with (2 ^ 1 - 1). rewrite land_pow2_mod, Heq by lia.
    rewrite <- Z.bit0_mod, !Z.bit0_odd, Z.odd_add, Z.odd_mul. cbn.
    rewrite andb_false_r. by destruct (Z.odd flags).
  - unfold pte_set_ppn. fold (from_bits_truncate pte). rewrite Hpf.
    unfold pte_new. by rewrite Hfl.
  - unfold pte at 1. rewrite pte_ppn_new by done. unfold pte_new at 1. rewrite Hpf.
    unfold pte, pte_new. by rewrite Hfl.
  - unfold pte. rewrite Heq. apply ppn_bound in Hp. lia.
  - unfold pte. rewrite Heq. apply ppn_bound in Hp. lia.
Qed.
