(* ===== verification/BTree.v ===== *)
(** * Ordered maps

    [alloc::collections::BTreeMap] as the kernel uses it: [MapArea::data_frames]
    (kernel/src/mm/address_space.rs), [AddressSpace::areas] and
    [Timer::events] (kernel/src/timer.rs).  A map is the list of its entries in
    key order.  The search walks the entries from the left and compares the
    sought key with each, as the linear search of a B-tree node does: past a
    smaller key, found at an equal one, absent at a greater one.  [areas] is
    keyed by an ordering that is not a total order on arbitrary ranges, so the
    laws below ask for what the walk needs and not for a lawful [Ord]. *)

From Stdlib Require Import Sorted.
From S2P Require Import Prelude.

Section btree.
Context {K V : Type} (cmp : K → K → comparison).

(** [get]: the entry whose key compares equal to [k]. *)
Fixpoint bt_entry (k : K) (m : list (K * V)) : option (K * V) :=
  match m with
  | [] => None
  | (k', v) :: m =>
      match cmp k k' with
      | Lt => None
      | Eq => Some (k', v)
      | Gt => bt_entry k m
      end
  end.
Definition bt_get (k : K) (m : list (K * V)) : option V := snd <$> bt_entry k m.
Definition bt_contains_key (k : K) (m : list (K * V)) : bool :=
  match bt_get k m with Some _ => true | None => false end.

(** [insert]: an equal key keeps its place and its old key. *)
Fixpoint bt_insert (k : K) (v : V) (m : list (K * V)) : list (K * V) :=
  match m with
  | [] => [(k, v)]
  | (k', v') :: m =>
      match cmp k k' with
      | Lt => (k, v) :: (k', v') :: m
      | Eq => (k', v) :: m
      | Gt => (k', v') :: bt_insert k v m
      end
  end.

(** [remove_entry] *)
Fixpoint bt_remove (k : K) (m : list (K * V)) : option ((K * V) * list (K * V)) :=
  match m with
  | [] => None
  | (k', v) :: m =>
      match cmp k k' with
      | Lt => None
      | Eq => Some ((k', v), m)
      | Gt => '(e, m') ← bt_remove k m; Some (e, (k', v) :: m')
      end
  end.

(** [get_mut] followed by a write. *)
Fixpoint bt_update (k : K) (v : V) (m : list (K * V)) : list (K * V) :=
  match m with
  | [] => []
  | (k', v') :: m =>
      match cmp k k' with
      | Lt => (k', v') :: m
      | Eq => (k', v) :: m
      | Gt => (k', v') :: bt_update k v m
      end
  end.

(** A key for which the walk passes exactly the entries [m1] and stops at the
    first of [m2]. *)
Definition passes (k : K) (m : list (K * V)) : Prop :=
  Forall (λ e, cmp k e.1 = Gt) m.

Lemma bt_entry_at k k' v m1 m2 :
  passes k m1 → cmp k k' = Eq → bt_entry k (m1 ++ (k', v) :: m2) = Some (k', v).
Proof.
  intros Hp He. induction Hp as [|[k1 v1] m1 H1 _ IH]; cbn.
  - by rewrite He.
  - cbn in H1. by rewrite H1.
Qed.

Lemma bt_remove_at k k' v m1 m2 :
  passes k m1 → cmp k k' = Eq →
  bt_remove k (m1 ++ (k', v) :: m2) = Some ((k', v), m1 ++ m2).
Proof.
  intros Hp He. induction Hp as [|[k1 v1] m1 H1 _ IH]; cbn.
  - by rewrite He.
  - cbn in H1. by rewrite H1, IH.
Qed.

Lemma bt_update_at k k' v v' m1 m2 :
  passes k m1 → cmp k k' = Eq →
  bt_update k v' (m1 ++ (k', v) :: m2) = m1 ++ (k', v') :: m2.
Proof.
  intros Hp He. induction Hp as [|[k1 v1] m1 H1 _ IH]; cbn.
  - by rewrite He.
  - cbn in H1. by rewrite H1, IH.
Qed.

Lemma bt_insert_at k v m1 m2 :
  passes k m1 → match m2 with [] => True | e :: _ => cmp k e.1 = Lt end →
  bt_insert k v (m1 ++ m2) = m1 ++ (k, v) :: m2.
Proof.
  intros Hp Hn. induction Hp as [|[k1 v1] m1 H1 _ IH]; cbn.
  - destruct m2 as [|[k2 v2] m2]; cbn; [done|]. cbn in Hn. by rewrite Hn.
  - cbn in H1. by rewrite H1, IH.
Qed.

Lemma bt_insert_over k k' v v' m1 m2 :
  passes k m1 → cmp k k' = Eq →
  bt_insert k v (m1 ++ (k', v') :: m2) = m1 ++ (k', v) :: m2.
Proof.
  intros Hp He. induction Hp as [|[k1 v1] m1 H1 _ IH]; cbn.
  - by rewrite He.
  - cbn in H1. by rewrite H1, IH.
Qed.

Lemma bt_entry_elem k m e : bt_entry k m = Some e → e ∈ m ∧ cmp k e.1 = Eq.
Proof.
  induction m as [|[k' v] m IH]; cbn; [done|].
  destruct (cmp k k') eqn:E; [intros [= <-]|done|].
  - split; [set_solver|done].
  - intros H. apply IH in H as [??]. split; [set_solver|done].
Qed.

Lemma bt_remove_Some k m e m' :
  bt_remove k m = Some (e, m') →
  ∃ m1 m2, m = m1 ++ e :: m2 ∧ m' = m1 ++ m2 ∧ cmp k e.1 = Eq ∧ passes k m1.
Proof.
  revert m'. induction m as [|[k' v] m IH]; intros m'; cbn; [done|].
  destruct (cmp k k') eqn:E; [intros [= <- <-]|done|].
  - exists [], m. split_and!; [done..|constructor].
  - destruct (bt_remove k m) as [[e' m'']|]; cbn; [|done]. intros [= <- <-].
    destruct (IH _ eq_refl) as (m1 & m2 & -> & -> & ? & ?).
    exists ((k', v) :: m1), m2. split_and!; [done..|]. by constructor.
Qed.

Lemma bt_remove_entry k m :
  bt_entry k m = fst <$> bt_remove k m.
Proof.
  induction m as [|[k' v] m IH]; cbn; [done|].
  destruct (cmp k k'); [done..|]. rewrite IH. by destruct (bt_remove k m) as [[]|].
Qed.
End btree.

(** ** Maps keyed by integers *)

Section zmap.
Context {V : Type}.
Implicit Types m : list (Z * V).

Abbreviation zget := (bt_get Z.compare).
Abbreviation zinsert := (bt_insert Z.compare).

(** Strictly increasing keys. *)
Definition zsorted m : Prop := StronglySorted (λ e1 e2, e1.1 < e2.1) m.

Lemma zinsert_keys (P : Z → Prop) k v m :
  P k → Forall (λ e, P e.1) m → Forall (λ e, P e.1) (zinsert k v m).
Proof.
  intros Hk Hf. induction Hf as [|[k' v'] m H Hf IH]; cbn; [by constructor|].
  cbn in H. destruct (Z.compare k k'); repeat constructor; done.
Qed.

Lemma zsorted_insert k v m : zsorted m → zsorted (zinsert k v m).
Proof.
  induction m as [|[k' v'] m IH]; cbn; intros Hm; [repeat constructor|].
  apply StronglySorted_inv in Hm as [Hs Hf].
  destruct (Z.compare_spec k k'); subst.
  - by constructor.
  - constructor; [by constructor|]. constructor; [done|].
    eapply Forall_impl; [exact Hf|]. cbn. lia.
  - constructor; [by apply IH|]. apply (zinsert_keys (λ x, k' < x)); [lia|done].
Qed.

Lemma zinsert_perm k v m : k ∉ m.*1 → zinsert k v m ≡ₚ (k, v) :: m.
Proof.
  induction m as [|[k' v'] m IH]; cbn; intros Hk; [done|]. apply not_elem_of_cons in Hk as [Hk1 Hk2].
  destruct (Z.compare_spec k k'); [done|done|]. rewrite IH by done. apply Permutation_swap.
Qed.

Lemma zget_absent k m : Forall (λ e, k < e.1) m → zget k m = None.
Proof.
  intros Hf. unfold bt_get. destruct Hf as [|[k' v] m H _]; cbn; [done|].
  cbn in H. by destruct (Z.compare_spec k k'); try lia.
Qed.

Lemma zget_insert k k' v m :
  zsorted m → zget k (zinsert k' v m) = if decide (k = k') then Some v else zget k m.
Proof.
  unfold bt_get. induction m as [|[k2 v2] m IH]; intros Hm.
  - cbn. destruct (Z.compare_spec k k'); case_decide; subst; try done; lia.
  - apply StronglySorted_inv in Hm as [Hs Hf]. cbn.
    destruct (Z.compare_spec k' k2) as [->|?|?]; cbn.
    + destruct (Z.compare_spec k k2); case_decide; subst; try done; lia.
    + destruct (Z.compare_spec k k'); case_decide; subst; try done; try lia.
      destruct (Z.compare_spec k k2); try done; lia.
    + destruct (Z.compare_spec k k2); [case_decide; [lia|done]..|by apply IH].
Qed.

Lemma zget_elem k v m : zsorted m → zget k m = Some v ↔ (k, v) ∈ m.
Proof.
  unfold bt_get. intros Hm. induction m as [|[k' v'] m IH]; cbn.
  - split; [done|set_solver].
  - apply StronglySorted_inv in Hm as [Hs Hf]. rewrite elem_of_cons.
    rewrite Forall_forall in Hf.
    destruct (Z.compare_spec k k') as [->|?|?].
    + cbn. split; [intros [= ->]; by left|]. intros [[= ->]|Hin]; [done|].
      apply Hf in Hin. cbn in Hin. lia.
    + split; [done|]. intros [[= -> ->]|Hin]; [lia|]. apply Hf in Hin. cbn in Hin. lia.
    + rewrite IH by done. split; [by right|]. intros [[= -> ->]|?]; [lia|done].
Qed.
End zmap.
