(* ===== verification/PageTable.v ===== *)
(** * Sv39 page tables

    [PageTableImpl] (kernel/arch/riscv/page_table.rs) and the trait [PageTable]
    (kernel/src/mm/page_table.rs).  A table is a frame of 512 entries in the word
    memory; a reference [&mut PTEImpl] is the address of the entry.  The frame
    allocator is used through the interface of [PhysPage]. *)

From S2P Require Import Prelude Address Memory PhysPage Pte BTree.

(** [MapType] and [MapArea] (kernel/src/mm/address_space.rs) *)
Inductive MapType := Linear | Framed | Device | KernelStack.

#[export] Instance MapType_eq_dec : EqDecision MapType.
Proof. solve_decision. Defined.

Record MapArea := {
  data_frames : list (Z * Z);
  map_type : MapType;
  map_perm : Z;
}.

(** [area.data_frames.insert(vpn, frame)] *)
Definition area_insert (area : MapArea) (vpn ppn : Z) : MapArea :=
  {| data_frames := bt_insert Z.compare vpn ppn (data_frames area);
     map_type := map_type area; map_perm := map_perm area |}.

(** [PageTableImpl]: the frames it owns. *)
Record PageTableImpl := { pt_root : Z; pt_frames : list Z }.

Section operations.
Context {C : Config} {St : Type} `{!FrameOps St}.

Definition on_mem {A} (f : M words A) : M St A := λ s,
  match f (st_words s) with
  | Ok (a, w) => Ok (a, st_set w s)
  | Panic e => Panic e
  end.

(** [VPN::from(ppn).get_array()], the address of the frame's contents *)
Definition array_va (ppn : Z) : exec Z := vpn ← vpn_of_ppn ppn; Ok (addr_of_pn vpn).
(** [&mut VPN::from(ppn).get_array()[idx]] *)
Definition entry_va (ppn idx : Z) : exec Z := a ← array_va ppn; Ok (a + 8 * idx).
(** [VPN::from(ppn).get_array().fill(v)] *)
Definition fill_frame (ppn v : Z) : M St unit :=
  a ← lift (array_va ppn); on_mem (store_words a (replicate 512 v)).

(** [PageTable::find_pte] *)
Fixpoint find_loop (pte : Z) (idxs : list Z) : M St (option Z) :=
  w ← on_mem (load pte);
  if negb (pte_is_valid w) then mret None
  else match idxs with
       | [] => mret (Some pte)
       | idx :: idxs => pte' ← lift (entry_va (pte_ppn w) idx); find_loop pte' idxs
       end.
Definition find_pte (pt : PageTableImpl) (vpn : Z) : M St (option Z) :=
  let '(i0, i1, i2) := indexes vpn in
  pte ← lift (entry_va (pt_root pt) i0);
  find_loop pte [i1; i2].

(** One turn of the loop of [find_pte_create]: the table under [pte], which is
    created when the entry is not valid. *)
Definition create_child (pt : PageTableImpl) (pte : Z) : M St (PageTableImpl * Z) :=
  w ← on_mem (load pte);
  if negb (pte_is_valid w) then
    o ← frame_alloc;
    frame ← lift (unwrap o);
    fill_frame frame PTE_EMPTY ;;
    on_mem (store pte (pte_new frame PTE_VALID)) ;;
    w' ← on_mem (load pte);
    mret ({| pt_root := pt_root pt; pt_frames := pt_frames pt ++ [frame] |}, pte_ppn w')
  else mret (pt, pte_ppn w).

(** [PageTable::find_pte_create] *)
Fixpoint create_loop (pt : PageTableImpl) (pte : Z) (idxs : list Z) : M St (PageTableImpl * Z) :=
  match idxs with
  | [] => mret (pt, pte)
  | idx :: idxs =>
      '(pt', ppn) ← create_child pt pte;
      pte' ← lift (entry_va ppn idx);
      create_loop pt' pte' idxs
  end.
Definition find_pte_create (pt : PageTableImpl) (vpn : Z) : M St (PageTableImpl * option Z) :=
  let '(i0, i1, i2) := indexes vpn in
  pte ← lift (entry_va (pt_root pt) i0);
  '(pt', pte') ← create_loop pt pte [i1; i2];
  mret (pt', Some pte').

(** [PageTable::translate_va] *)
Definition translate_va (pt : PageTableImpl) (va : Z) : M St (option Z) :=
  o ← find_pte pt (floor va);
  match o with
  | None => mret None
  | Some pte =>
      w ← on_mem (load pte);
      pa ← lift (uadd (addr_of_pn (pte_ppn w)) (page_offset va));
      mret (Some pa)
  end.

(** [PageTable::remap_one] *)
Definition remap_one (pt : PageTableImpl) (vpn ppn flags : Z) : M St unit :=
  o ← find_pte pt vpn;
  pte ← lift (unwrap o);
  w ← on_mem (load pte);
  lift (ensure (pte_is_valid w)) ;;
  on_mem (store pte (pte_new ppn (Z.lor flags PTE_VALID))).

(** [PageTable::modify_flags] *)
Definition modify_flags (pt : PageTableImpl) (vpn flags : Z) : M St unit :=
  o ← find_pte pt vpn;
  pte ← lift (unwrap o);
  w ← on_mem (load pte);
  lift (ensure (pte_is_valid w)) ;;
  on_mem (store pte (pte_new (pte_ppn w) (Z.lor flags PTE_VALID))).

(** [PageTable::map_one] *)
Definition map_one (pt : PageTableImpl) (vpn ppn flags : Z) : M St PageTableImpl :=
  '(pt', o) ← find_pte_create pt vpn;
  pte ← lift (unwrap o);
  w ← on_mem (load pte);
  lift (ensure (negb (pte_is_valid w))) ;;
  on_mem (store pte (pte_new ppn (Z.lor flags PTE_VALID))) ;;
  mret pt'.

(** [PageTable::unmap_one] *)
Definition unmap_one (pt : PageTableImpl) (vpn : Z) : M St unit :=
  o ← find_pte pt vpn;
  pte ← lift (unwrap o);
  w ← on_mem (load pte);
  lift (ensure (pte_is_valid w)) ;;
  on_mem (store pte PTE_EMPTY).

(** A loop that updates a page table and an area. *)
Fixpoint for_pages {A B} (l : list B) (f : B → A → M St A) (a : A) : M St A :=
  match l with
  | [] => mret a
  | x :: l => a' ← f x a; for_pages l f a'
  end.

(** Allocate a frame, map it, record it: the body of the [Framed] and
    [KernelStack] loops of [PageTable::map] ([sfence.vma] has no effect on
    memory). *)
Definition map_new_frame (zero : bool) (vpn : Z) (st : PageTableImpl * MapArea) :
    M St (PageTableImpl * MapArea) :=
  let '(pt, area) := st in
  o ← frame_alloc;
  frame ← lift (unwrap o);
  pt' ← map_one pt vpn frame (map_perm area);
  (if zero then fill_frame frame 0 else mret tt) ;;
  mret (pt', area_insert area vpn frame).

(** [PageTable::map] *)
Definition pt_map (pt : PageTableImpl) (r : VARange) (area : MapArea) (data : option (list Z)) :
    M St (PageTableImpl * MapArea) :=
  match map_type area with
  | Linear =>
      vpns ← lift (vpn_range r);
      pt' ← for_pages vpns (λ vpn pt,
              ppn ← lift (ppn_of_vpn vpn); map_one pt vpn ppn (map_perm area)) pt;
      match data with
      | Some bytes => on_mem (store_bytes (r_start r) bytes)
      | None => mret tt
      end ;;
      mret (pt', area)
  | Framed =>
      match data with
      | Some (_ :: _) => panic Explicit
      | Some [] => vpns ← lift (vpn_range r); for_pages vpns (map_new_frame true) (pt, area)
      | None => vpns ← lift (vpn_range r); for_pages vpns (map_new_frame false) (pt, area)
      end
  | Device =>
      vpns ← lift (vpn_range r);
      pt' ← for_pages vpns (λ vpn pt, map_one pt vpn vpn (map_perm area)) pt;
      mret (pt', area)
  | KernelStack =>
      lift (ensure (match data with None => true | Some _ => false end)) ;;
      vpns ← lift (vpn_range r); for_pages vpns (map_new_frame false) (pt, area)
  end.

(** [PageTable::new_kernel]: the lower half is empty, the upper half is copied
    from the kernel's root table. *)
Definition pt_new_kernel (kernel_root : Z) : M St PageTableImpl :=
  o ← frame_alloc;
  frame ← lift (unwrap o);
  a ← lift (array_va frame);
  on_mem (store_words a (replicate 256 PTE_EMPTY)) ;;
  ka ← lift (array_va kernel_root);
  ws ← on_mem (load_words (ka + 8 * 256) 256);
  on_mem (store_words (a + 8 * 256) ws) ;;
  mret {| pt_root := frame; pt_frames := [] |}.

(** [kernel_page_table] (kernel/src/mm/page_table.rs): the linearly mapped kernel
    sections [(start, end, permissions)] between the linker symbols, the devices,
    and an empty second-level table for the kernel stacks. *)
Definition new_area (t : MapType) (perm : Z) : MapArea :=
  {| data_frames := []; map_type := t; map_perm := perm |}.
Definition map_ranges (t : MapType) (l : list (VARange * Z)) (pt : PageTableImpl) :
    M St PageTableImpl :=
  (fix go l pt :=
     match l with
     | [] => mret pt
     | (r, perm) :: l => '(pt', _) ← pt_map pt r (new_area t perm) None; go l pt'
     end) l pt.
Definition mmio_ranges : list (VARange * Z) :=
  (λ '(base, size), ({| r_start := base; r_end := base + size |},
                     Z.lor PTE_READABLE PTE_WRITABLE)) <$> MMIO.
Definition kernel_page_table
    (stext etext srodata erodata sdata edata sbss_with_stack ebss ekernel : Z) :
    M St PageTableImpl :=
  o ← frame_alloc;
  root ← lift (unwrap o);
  fill_frame root PTE_EMPTY ;;
  let pt := {| pt_root := root; pt_frames := [] |} in
  pt ← map_ranges Linear
         [({| r_start := stext; r_end := etext |}, Z.lor PTE_READABLE PTE_EXECUTABLE);
          ({| r_start := srodata; r_end := erodata |}, PTE_READABLE);
          ({| r_start := sdata; r_end := edata |}, Z.lor PTE_READABLE PTE_WRITABLE);
          ({| r_start := sbss_with_stack; r_end := ebss |}, Z.lor PTE_READABLE PTE_WRITABLE);
          ({| r_start := ekernel; r_end := MEMORY_END |}, Z.lor PTE_READABLE PTE_WRITABLE)] pt;
  pt ← map_ranges Device mmio_ranges pt;
  let '(idx, _, _) := indexes (floor KERNEL_STACK_TOP) in
  pte ← lift (entry_va root idx);
  o ← frame_alloc;
  frame ← lift (unwrap o);
  fill_frame frame PTE_EMPTY ;;
  on_mem (store pte (pte_new frame PTE_VALID)) ;;
  mret {| pt_root := pt_root pt; pt_frames := pt_frames pt ++ [frame] |}.

(** [PageTable::activate]: the value written to [satp] (QEMU) or [sptbr] (K210),
    by the width of a page number. *)
Definition activate (pt : PageTableImpl) : Z :=
  if PTE_PPN_BITS =? 38 then Z.land (pt_root pt) (ushl 1 38 - 1)
  else Z.lor (ushl 8 60) (pt_root pt).
End operations.

(** ** The tree and the address map it denotes *)

Section view.
Context {C : Config}.

(** The entry [i] of table [p], when it is valid. *)
Definition entry (m : words) (p i : Z) : option Z :=
  w ← m !! (page_va p + 8 * i); if pte_is_valid w then Some w else None.
Definition child (m : words) (p i : Z) : option Z := pte_ppn <$> entry m p i.

(** The table reached from [root] along a path of indexes. *)
Definition node (m : words) (root : Z) (path : list Z) : option Z :=
  foldl (λ o i, o ≫= λ p, child m p i) (Some root) path.

(** The leaf entry of a virtual page, [None] when it is not mapped. *)
Definition view (m : words) (root : Z) (k : Z * Z * Z) : option Z :=
  let '(i0, i1, i2) := k in p ← node m root [i0; i1]; entry m p i2.

Definition idx_ok (i : Z) : Prop := 0 ≤ i < 512.
Definition path_ok (l : list Z) : Prop := Forall idx_ok l ∧ (length l ≤ 2)%nat.

(** The tables of the tree are held frames, and no table has two parents. *)
Record pt_wf (m : words) (A : frames) (root : Z) : Prop := {
  wf_held : ∀ l p, path_ok l → node m root l = Some p → held A p;
  wf_inj : ∀ l l' p, path_ok l → path_ok l' →
    node m root l = Some p → node m root l' = Some p → l = l';
}.

(** The frames that are tables. *)
Definition is_table (m : words) (root p : Z) : Prop :=
  ∃ l, path_ok l ∧ node m root l = Some p.
End view.

Section walk.
Context {C : Config} {Cok : ConfigOk C} {St : Type} `{!FrameOps St, !FrameSource St}.
Implicit Types s : St.

Lemma node_snoc m root l i : node m root (l ++ [i]) = node m root l ≫= λ p, child m p i.
Proof. unfold node. by rewrite foldl_app. Qed.

Lemma indexes_ok vpn : let '(i0, i1, i2) := indexes vpn in idx_ok i0 ∧ idx_ok i1 ∧ idx_ok i2.
Proof. pose proof (indexes_digits vpn). unfold idx_ok. destruct (indexes vpn) as [[??]?]. lia. Qed.

Lemma path_ok_nil : path_ok [].
Proof. split; [constructor|cbn; lia]. Qed.

Lemma path_ok_snoc l i : path_ok l → (length l < 2)%nat → idx_ok i → path_ok (l ++ [i]).
Proof.
  intros [Hf _] Hl Hi. split; [apply Forall_app; split; [done|by constructor]|].
  rewrite length_app. cbn. lia.
Qed.

Lemma path_ok_snoc_inv l i : path_ok (l ++ [i]) → path_ok l ∧ (length l < 2)%nat ∧ idx_ok i.
Proof.
  intros [[Hf Hi]%Forall_app Hl]. rewrite length_app in Hl. cbn in Hl.
  inversion_clear Hi. split; [split; [done|lia]|]. split; [lia|done].
Qed.

Lemma on_mem_eq {A} (f : M words A) s a w :
  f (st_words s) = Ok (a, w) → on_mem f s = Ok (a, st_set w s).
Proof. unfold on_mem. by intros ->. Qed.

Lemma on_mem_load s a v : st_words s !! a = Some v → on_mem (load a) s = Ok (v, s).
Proof.
  intros H. rewrite (on_mem_eq _ _ _ _ (load_eq _ _ _ H)). by rewrite st_set_id.
Qed.

Lemma array_va_eq p : 0 ≤ p < 2 ^ 26 → array_va p = Ok (page_va p).
Proof.
  intros. unfold array_va. rewrite vpn_of_ppn_in by lia. cbn. by rewrite addr_page_va.
Qed.

Lemma entry_va_eq p i : 0 ≤ p < 2 ^ 26 → entry_va p i = Ok (page_va p + 8 * i).
Proof. intros. unfold entry_va. by rewrite array_va_eq. Qed.

Lemma entry_mapped s A p i :
  st_rep s A → held A p → idx_ok i → ∃ w, st_words s !! (page_va p + 8 * i) = Some w.
Proof.
  intros Hrep (c & Hc & _) Hi. eapply mapped_page; [|done]. by eapply st_rep_mapped.
Qed.

(** The loop of [find_pte] below a table reached along [l]. *)
Lemma find_loop_spec s A root rest : ∀ l p i,
  st_rep s A → pt_wf (st_words s) A root → path_ok l → Forall idx_ok (i :: rest) →
  (length l + length rest = 2)%nat → node (st_words s) root l = Some p →
  find_loop (page_va p + 8 * i) rest s =
  Ok (q ← node (st_words s) root (l ++ take (length rest) (i :: rest));
      w ← entry (st_words s) q (List.last (i :: rest) 0);
      Some (page_va q + 8 * List.last (i :: rest) 0), s).
Proof.
  induction rest as [|j rest IH]; intros l p i Hrep Hwf Hl Hidx Hlen Hn.
  - cbn [length take]. rewrite app_nil_r, Hn. cbn -[entry].
    apply Forall_cons in Hidx as [Hi _].
    destruct (entry_mapped s A p i Hrep) as [w Hw]; [by eapply wf_held|done|].
    cbn [find_loop]. run (on_mem_load _ _ _ Hw). unfold entry. rewrite Hw. cbn.
    by destruct (pte_is_valid w).
  - apply Forall_cons in Hidx as [Hi Hidx].
    destruct (entry_mapped s A p i Hrep) as [w Hw]; [by eapply wf_held|done|].
    cbn [find_loop]. run (on_mem_load _ _ _ Hw).
    assert (node (st_words s) root (l ++ [i]) = pte_ppn <$> entry (st_words s) p i) as Hc.
    { by rewrite node_snoc, Hn. }
    unfold entry in Hc. rewrite Hw in Hc. cbn in Hc.
    replace (l ++ take (length (j :: rest)) (i :: j :: rest))
      with ((l ++ [i]) ++ take (length rest) (j :: rest)) by (by rewrite <- app_assoc).
    destruct (pte_is_valid w); cbn [negb].
    + cbn in Hlen. assert (path_ok (l ++ [i])) as Hl' by (apply path_ok_snoc; [done|lia|done]).
      rewrite entry_va_eq by (eapply held_range; [by eapply st_rep_ok|by eapply wf_held]).
      run_refl. rewrite (IH (l ++ [i]) (pte_ppn w)); try done.
      rewrite length_app. cbn. lia.
    + cbn in Hc. unfold node in *. rewrite foldl_app, Hc.
      assert (∀ x, foldl (λ o i, o ≫= λ p, child (st_words s) p i) None x = None) as ->; [|done].
      induction x; done.
Qed.

(** [find_pte] computes [view]: it returns the address of the leaf entry exactly
    when the page is mapped, and changes nothing. *)
Lemma find_pte_view s A pt vpn :
  st_rep s A → pt_wf (st_words s) A (pt_root pt) →
  let '(i0, i1, i2) := indexes vpn in
  find_pte pt vpn s =
  Ok (q ← node (st_words s) (pt_root pt) [i0; i1];
      w ← entry (st_words s) q i2; Some (page_va q + 8 * i2), s).
Proof.
  intros Hrep Hwf. pose proof (indexes_ok vpn) as Hi. unfold find_pte.
  destruct (indexes vpn) as [[i0 i1] i2]. destruct Hi as (? & ? & ?).
  assert (held A (pt_root pt)) as Hroot by (by apply (wf_held _ _ _ Hwf [] _ path_ok_nil)).
  rewrite entry_va_eq by (eapply held_range; [by eapply st_rep_ok|done]). run_refl.
  rewrite (find_loop_spec s A (pt_root pt) [i1; i2] [] (pt_root pt) i0); try done.
  - apply path_ok_nil.
  - do 3 (apply Forall_cons_2; [done|]). by apply Forall_nil.
Qed.
End walk.

(** ** Updates of the tree *)

Section tree.
Context {C : Config} {Cok : ConfigOk C}.
Implicit Types m : words.

Definition key_ok (k : Z * Z * Z) : Prop :=
  let '(i0, i1, i2) := k in idx_ok i0 ∧ idx_ok i1 ∧ idx_ok i2.

Lemma path_ok_2 i0 i1 : idx_ok i0 → idx_ok i1 → path_ok [i0; i1].
Proof.
  intros. split; [|cbn; lia]. do 2 (apply Forall_cons_2; [done|]). by apply Forall_nil.
Qed.

(** Entries of different tables, or at different indexes, do not alias. *)
Lemma entry_ne p i q j :
  idx_ok i → idx_ok j → (p, i) ≠ (q, j) → page_va p + 8 * i ≠ page_va q + 8 * j.
Proof.
  unfold idx_ok. intros Hi Hj Hne. destruct (decide (p = q)) as [->|].
  - intros ?. apply Hne. f_equal. lia.
  - by apply page_va_disj.
Qed.

Lemma entry_same m m' p i :
  m' !! (page_va p + 8 * i) = m !! (page_va p + 8 * i) → entry m' p i = entry m p i.
Proof. unfold entry. by intros ->. Qed.

(** Writing a leaf entry: the tables stay, the map changes at one page. *)
Section leaf.
Context (m : words) (A : frames) (root i0 i1 i2 p w : Z).
Hypothesis Hwf : pt_wf m A root.
Hypothesis Hk : key_ok (i0, i1, i2).
Hypothesis Hp : node m root [i0; i1] = Some p.
Let m' := <[page_va p + 8 * i2 := w]> m.

Lemma leaf_node l : path_ok l → node m' root l = node m root l.
Proof.
  destruct Hk as (? & ? & ?). induction l as [|j l IH] using rev_ind; [done|].
  intros (Hl & Hlen & Hj)%path_ok_snoc_inv. rewrite !node_snoc, IH by done.
  destruct (node m root l) as [x|] eqn:Hx; [|done]. cbn. unfold child. f_equal.
  apply entry_same, lookup_insert_ne, entry_ne; try done.
  intros [= <- _]. pose proof (wf_inj _ _ _ Hwf _ _ _ Hl (path_ok_2 i0 i1 ltac:(done) ltac:(done)) Hx Hp).
  subst l. cbn in Hlen. lia.
Qed.

Lemma leaf_wf : pt_wf m' A root.
Proof.
  split.
  - intros l x Hl. rewrite leaf_node by done. by apply (wf_held _ _ _ Hwf).
  - intros l l' x Hl Hl'. rewrite !leaf_node by done. by apply (wf_inj _ _ _ Hwf).
Qed.

Lemma leaf_view k :
  key_ok k →
  view m' root k =
  if decide (k = (i0, i1, i2)) then if pte_is_valid w then Some w else None
  else view m root k.
Proof.
  destruct k as [[j0 j1] j2]. intros (? & ? & ?). destruct Hk as (? & ? & ?).
  unfold view. rewrite leaf_node by (by apply path_ok_2). case_decide as Hd.
  - simplify_eq. rewrite Hp. cbn. unfold entry, m'. by rewrite lookup_insert_eq.
  - destruct (node m root [j0; j1]) as [q|] eqn:Hq; [|done]. cbn.
    apply entry_same, lookup_insert_ne, entry_ne; [done..|]. intros [= <- <-]. apply Hd.
    assert ([j0; j1] = [i0; i1]) as Heq; [|by simplify_eq].
    eapply (wf_inj _ _ _ Hwf); [by apply path_ok_2|by apply path_ok_2|done..].
Qed.
End leaf.

(** Linking a zeroed table [q] under an invalid entry: one more table, the same
    address map. *)
Section link.
Context (m m' : words) (A A' : frames) (root : Z) (l0 : list Z) (p i q : Z).
Hypothesis Hwf : pt_wf m A root.
Hypothesis Hl0 : path_ok l0.
Hypothesis Hlen0 : (length l0 < 2)%nat.
Hypothesis Hi : idx_ok i.
Hypothesis Hp : node m root l0 = Some p.
Hypothesis Hnone : entry m p i = None.
Hypothesis Hfresh : ¬ held A q.
Hypothesis Hq : 0 ≤ q < 2 ^ 26.
Hypothesis HA' : ∀ x, held A' x ↔ x = q ∨ held A x.
Hypothesis Hold : ∀ x j, held A x → idx_ok j → (x, j) ≠ (p, i) →
  m' !! (page_va x + 8 * j) = m !! (page_va x + 8 * j).
Hypothesis Hlink : m' !! (page_va p + 8 * i) = Some (pte_new q PTE_VALID).
Hypothesis Hzero : ∀ j, idx_ok j → m' !! (page_va q + 8 * j) = Some 0.

Lemma link_entry_p : entry m' p i = Some (pte_new q PTE_VALID).
Proof. unfold entry. rewrite Hlink. cbn. by rewrite pte_valid_new' by (by apply ppn_bound26). Qed.

Lemma link_entry_q j : idx_ok j → entry m' q j = None.
Proof. intros. unfold entry. by rewrite Hzero. Qed.

Lemma link_entry_old x j : held A x → idx_ok j → (x, j) ≠ (p, i) → entry m' x j = entry m x j.
Proof. intros. by apply entry_same, Hold. Qed.

Lemma link_new : node m' root l0 = Some p → node m' root (l0 ++ [i]) = Some q.
Proof.
  intros Hn. rewrite node_snoc, Hn. cbn. unfold child. rewrite link_entry_p. cbn.
  by rewrite pte_ppn_new by (by apply ppn_bound26).
Qed.

Lemma link_keep l r : path_ok l → node m root l = Some r → node m' root l = Some r.
Proof.
  revert r. induction l as [|j l IH] using rev_ind; intros r; [done|].
  intros (Hl & Hlen & Hj)%path_ok_snoc_inv. rewrite !node_snoc.
  destruct (node m root l) as [x|] eqn:Hx; [|done]. rewrite (IH x) by done. cbn.
  unfold child. intros Hr. rewrite link_entry_old; [done|by eapply wf_held|done|].
  intros [= -> ->]. by rewrite Hnone in Hr.
Qed.

Lemma link_inv l r : path_ok l → node m' root l = Some r →
  node m root l = Some r ∨ l = l0 ++ [i] ∧ r = q.
Proof.
  revert r. induction l as [|j l IH] using rev_ind; intros r; [by left|].
  intros (Hl & Hlen & Hj)%path_ok_snoc_inv. rewrite !node_snoc.
  destruct (node m' root l) as [x|] eqn:Hx; [|done]. cbn. unfold child. intros Hr.
  destruct (IH x Hl eq_refl) as [Hx'|[-> ->]].
  - rewrite Hx'. cbn. destruct (decide ((x, j) = (p, i))) as [[= -> ->]|Hne].
    + right. rewrite link_entry_p in Hr. cbn in Hr.
      rewrite pte_ppn_new in Hr by (by apply ppn_bound26). simplify_eq.
      split; [|done]. f_equal. by eapply (wf_inj _ _ _ Hwf).
    + left. rewrite link_entry_old in Hr; [done|by eapply wf_held|done..].
  - by rewrite link_entry_q in Hr.
Qed.

Lemma link_wf : pt_wf m' A' root.
Proof.
  split.
  - intros l r Hl Hr. apply HA'. destruct (link_inv _ _ Hl Hr) as [?|[_ ->]]; [|by left].
    right. by eapply wf_held.
  - intros l l' r Hl Hl' Hr Hr'.
    destruct (link_inv _ _ Hl Hr) as [?|[-> ->]], (link_inv _ _ Hl' Hr') as [?|[-> ?]]; subst;
      try done.
    + by eapply (wf_inj _ _ _ Hwf).
    + exfalso. apply Hfresh. by apply (wf_held _ _ _ Hwf l).
    + exfalso. apply Hfresh. by apply (wf_held _ _ _ Hwf l').
Qed.

Lemma link_view k : key_ok k → view m' root k = view m root k.
Proof.
  destruct k as [[j0 j1] j2]. intros (? & ? & ?). unfold view.
  assert (path_ok [j0; j1]) as Hj by (by apply path_ok_2).
  destruct (node m' root [j0; j1]) as [r|] eqn:Hr.
  - destruct (link_inv _ _ Hj Hr) as [Hr'|[Heq ->]].
    + rewrite Hr'. cbn. apply link_entry_old; [by eapply wf_held|done|].
      intros [= -> ->]. assert ([j0; j1] = l0) by (by eapply (wf_inj _ _ _ Hwf)).
      subst l0. cbn in Hlen0. lia.
    + assert (node m root [j0; j1] = None) as ->.
      { rewrite Heq, node_snoc, Hp. cbn. unfold child. by rewrite Hnone. }
      cbn. by rewrite link_entry_q.
  - destruct (node m root [j0; j1]) as [r|] eqn:Hr'; [|done].
    apply (link_keep _ _ Hj) in Hr'. congruence.
Qed.

Lemma link_table x : is_table m' root x ↔ x = q ∨ is_table m root x.
Proof.
  split.
  - intros (l & Hl & Hr). destruct (link_inv _ _ Hl Hr) as [?|[_ ->]]; [right; by exists l|by left].
  - intros [->|(l & Hl & Hr)].
    + exists (l0 ++ [i]). split; [by apply path_ok_snoc|]. by apply link_new, link_keep.
    + exists l. split; [done|by apply link_keep].
Qed.
End link.
End tree.

(** ** Writes to held frames *)

Section writes.
Context {C : Config} {Cok : ConfigOk C} {St : Type} `{!FrameOps St, !FrameSource St}.
Implicit Types s : St.

Lemma on_mem_bind {A B} (f : M words A) (g : A → M words B) s :
  on_mem (f ≫= g) s = (a ← on_mem f; on_mem (g a)) s.
Proof.
  unfold on_mem, mbind, M_bind. destruct (f (st_words s)) as [[a w]|]; [|done].
  rewrite st_set_words. destruct (g a w) as [[b w']|]; [|done]. by rewrite st_set_set.
Qed.

(** One entry of a held frame. *)
Lemma on_mem_store s A p i v :
  st_rep s A → held A p → idx_ok i →
  on_mem (store (page_va p + 8 * i) v) s =
    Ok (tt, st_set (<[page_va p + 8 * i := v]> (st_words s)) s) ∧
  st_rep (st_set (<[page_va p + 8 * i := v]> (st_words s)) s) A.
Proof.
  intros Hrep Hp Hi. split; [|by apply st_write].
  apply on_mem_eq, store_eq. by eapply entry_mapped.
Qed.

(** A block of entries of a held frame. *)
Lemma on_mem_store_words A p vs : ∀ s (k : nat),
  st_rep s A → held A p → (k + length vs ≤ 512)%nat →
  ∃ s', on_mem (store_words (page_va p + 8 * Z.of_nat k) vs) s = Ok (tt, s') ∧ st_rep s' A ∧
    (∀ j v, vs !! j = Some v → st_words s' !! (page_va p + 8 * Z.of_nat (k + j)) = Some v) ∧
    (∀ a, (∀ j : nat, (k ≤ j < k + length vs)%nat → a ≠ page_va p + 8 * Z.of_nat j) →
       st_words s' !! a = st_words s !! a).
Proof.
  induction vs as [|v vs IH]; intros s k Hrep Hp Hk; cbn [length] in Hk.
  - exists s. split_and!; [|done| |done].
    + cbn. unfold on_mem, mret, M_ret. by rewrite st_set_id.
    + intros j v. by rewrite lookup_nil.
  - destruct (on_mem_store s A p (Z.of_nat k) v Hrep Hp) as [H1 Hrep1]; [split; lia|].
    set (s1 := st_set _ s) in *.
    destruct (IH s1 (S k) Hrep1 Hp ltac:(lia)) as (s' & H2 & Hrep2 & Hin & Hout).
    exists s'. split_and!; [|done| |].
    + cbn [store_words]. rewrite on_mem_bind. run H1.
      replace (page_va p + 8 * Z.of_nat k + 8) with (page_va p + 8 * Z.of_nat (S k)) by lia.
      done.
    + intros [|j] w; cbn [lookup list_lookup]; intros Hw.
      * simplify_eq. rewrite Nat.add_0_r, Hout by (intros; lia).
        unfold s1. rewrite st_set_words. apply lookup_insert_eq.
      * replace (k + S j)%nat with (S k + j)%nat by lia. by apply Hin.
    + intros a Ha. rewrite Hout by (intros; apply Ha; cbn [length]; lia).
      unfold s1. rewrite st_set_words. apply lookup_insert_ne.
      apply not_eq_sym, Ha. cbn [length]. lia.
Qed.

(** [fill]: the whole frame, nothing else. *)
Lemma fill_frame_spec s A p v :
  st_rep s A → held A p →
  ∃ s', fill_frame p v s = Ok (tt, s') ∧ st_rep s' A ∧
    (∀ j, idx_ok j → st_words s' !! (page_va p + 8 * j) = Some v) ∧
    (∀ q j, q ≠ p → idx_ok j → st_words s' !! (page_va q + 8 * j) =
                               st_words s !! (page_va q + 8 * j)).
Proof.
  intros Hrep Hp.
  destruct (on_mem_store_words A p (replicate 512 v) s 0 Hrep Hp) as (s' & Hs & Hrep' & Hin & Hout);
    [by rewrite length_replicate|].
  exists s'. split_and!; [|done| |].
  - unfold fill_frame.
    rewrite array_va_eq by (eapply held_range; [by eapply st_rep_ok|done]). run_refl.
    by rewrite Z.mul_0_r, Z.add_0_r in Hs.
  - intros j [Hj1 Hj2]. specialize (Hin (Z.to_nat j) v). rewrite Nat.add_0_l, Z2Nat.id in Hin by lia.
    apply Hin. apply lookup_replicate_2. lia.
  - intros q j Hq Hj. apply Hout. intros k Hk. rewrite length_replicate in Hk.
    apply page_va_disj; [done|done|lia].
Qed.
End writes.

(** ** Growing the tree *)

Abbreviation key := (Z * Z * Z)%type.

Section grow.
Context {C : Config} {Cok : ConfigOk C} {St : Type} `{!FrameOps St, !FrameSource St}.
Implicit Types s : St.

(** The effect of an operation on the tree at [root]: the frames [ns] were taken
    from the allocator to become tables, the address map changed by [f], and
    every word of a held frame is unchanged, those of the subtrees under the
    entries [I] of the root apart. *)
Definition under (m : words) (root : Z) (I : Z → Prop) (x j : Z) : Prop :=
  x = root ∧ I j ∨ ∃ i l, I i ∧ path_ok (i :: l) ∧ node m root (i :: l) = Some x.

Record grow (I : Z → Prop) (root : Z) (f : key → option Z → option Z) (ns : list Z)
    (s : St) (A : frames) (s' : St) (A' : frames) : Prop := {
  g_rep : st_rep s' A';
  g_wf : pt_wf (st_words s') A' root;
  g_free : f_free A = ns ++ f_free A';
  g_new : ∀ x, x ∈ ns → f_rc A' !! x = Some 1;
  g_rc : ∀ x, x ∉ ns → f_rc A' !! x = f_rc A !! x;
  g_view : ∀ k, key_ok k → view (st_words s') root k = f k (view (st_words s) root k);
  g_keep : ∀ l r, path_ok l → node (st_words s) root l = Some r →
    node (st_words s') root l = Some r;
  g_table : ∀ x, is_table (st_words s') root x ↔ x ∈ ns ∨ is_table (st_words s) root x;
  g_same : ∀ x j, held A x → ¬ under (st_words s) root I x j → idx_ok j →
    st_words s' !! (page_va x + 8 * j) = st_words s !! (page_va x + 8 * j);
}.
#[global] Arguments g_rep {_ _ _ _ _ _ _ _} _.
#[global] Arguments g_wf {_ _ _ _ _ _ _ _} _.
#[global] Arguments g_free {_ _ _ _ _ _ _ _} _.
#[global] Arguments g_new {_ _ _ _ _ _ _ _} _.
#[global] Arguments g_rc {_ _ _ _ _ _ _ _} _.
#[global] Arguments g_view {_ _ _ _ _ _ _ _} _.
#[global] Arguments g_keep {_ _ _ _ _ _ _ _} _.
#[global] Arguments g_table {_ _ _ _ _ _ _ _} _.
#[global] Arguments g_same {_ _ _ _ _ _ _ _} _.

Lemma under_table m root I x j : under m root I x j → is_table m root x.
Proof.
  intros [[-> _]|(i & l & _ & Hl & Hx)]; [|by eexists].
  exists []. split; [apply path_ok_nil|done].
Qed.

Lemma grow_under I root f ns s A s' A' x j :
  grow I root f ns s A s' A' → under (st_words s') root I x j →
  x ∈ ns ∨ under (st_words s) root I x j.
Proof.
  intros G [[-> Hj]|(i & l & Hi & Hl & Hx)]; [right; by left|].
  destruct (proj1 (g_table G x)) as [?|(l' & Hl' & Hx')]; [by eexists|by left|].
  assert (l' = i :: l) as ->.
  { eapply (wf_inj _ _ _ (g_wf G)); [done|done|by apply (g_keep G)|done]. }
  right. right. by exists i, l.
Qed.

(** No page is remapped; one page gets the entry [w]. *)
Definition same_view (k : key) (v : option Z) : option Z := v.
Definition set_view (k0 : key) (w : option Z) (k : key) (v : option Z) : option Z :=
  if decide (k = k0) then w else v.

Lemma grow_refl I root s A :
  st_rep s A → pt_wf (st_words s) A root → grow I root same_view [] s A s A.
Proof. intros. split; try done; set_solver. Qed.

Lemma held_not_free A x : frames_ok A → held A x → x ∉ f_free A.
Proof.
  intros (_ & Hiff & _) (c & Hc & Hpos). rewrite Hiff, Hc. intros [= ->]. lia.
Qed.

Lemma grow_held I root f ns s A s' A' x :
  st_rep s A → grow I root f ns s A s' A' → held A x → held A' x ∧ x ∉ ns.
Proof.
  intros Hrep G Hx.
  assert (x ∉ ns) as Hn.
  { apply held_not_free in Hx; [|by eapply st_rep_ok]. rewrite (g_free G) in Hx.
    set_solver. }
  split; [|done]. destruct Hx as (c & Hc & ?). exists c.
  by rewrite (g_rc G).
Qed.

Lemma grow_trans I root f1 f2 ns1 ns2 s A s1 A1 s2 A2 :
  st_rep s A → grow I root f1 ns1 s A s1 A1 → grow I root f2 ns2 s1 A1 s2 A2 →
  grow I root (λ k v, f2 k (f1 k v)) (ns1 ++ ns2) s A s2 A2.
Proof.
  intros Hrep G1 G2.
  assert (∀ x, held A x → held A1 x ∧ x ∉ ns1) as Hh by (intros; by eapply grow_held).
  assert (NoDup (f_free A)) as Hnd by (by destruct (st_rep_ok _ _ Hrep)).
  assert (∀ x j, under (st_words s1) root I x j → x ∈ ns1 ∨ under (st_words s) root I x j) as Hu
    by (intros; by eapply grow_under).
  destruct G1 as [Hrep1 Hwf1 Hf1 Hn1 Hr1 Hv1 Hk1 Ht1 Hd1].
  destruct G2 as [Hrep2 Hwf2 Hf2 Hn2 Hr2 Hv2 Hk2 Ht2 Hd2].
  split; try done.
  - by rewrite Hf1, Hf2, <- app_assoc.
  - intros x [Hx|Hx]%elem_of_app; [|by apply Hn2]. rewrite Hr2; [by apply Hn1|].
    rewrite Hf1, Hf2 in Hnd. apply NoDup_app in Hnd as (_ & Hdis & _).
    intros Hx2. apply (Hdis x Hx). set_solver.
  - intros x Hx. rewrite Hr2, Hr1; [done|set_solver..].
  - intros k Hk. by rewrite Hv2, Hv1.
  - intros l r Hl Hr. by apply Hk2, Hk1.
  - intros x. rewrite Ht2, Ht1. set_solver.
  - intros x j Hx Hnt Hj. destruct (Hh _ Hx).
    rewrite Hd2, Hd1; try done. intros [?|?]%Hu; done.
Qed.

(** One turn of the creation loop. *)
Lemma create_child_spec s A pt l p i :
  let root := pt_root pt in
  st_rep s A → pt_wf (st_words s) A root → path_ok l → (length l < 2)%nat → idx_ok i →
  node (st_words s) root l = Some p → f_free A ≠ [] →
  ∃ s' A' ns q, create_child pt (page_va p + 8 * i) s =
      Ok (({| pt_root := root; pt_frames := pt_frames pt ++ ns |}, q), s') ∧
    grow (eq (hd i l)) root same_view ns s A s' A' ∧ (length ns ≤ 1)%nat ∧
    node (st_words s') root (l ++ [i]) = Some q.
Proof.
  intros root Hrep Hwf Hl Hlen Hi Hp Hne.
  assert (held A p) as Hhp by (by eapply wf_held).
  destruct (entry_mapped _ _ _ _ Hrep Hhp Hi) as [w Hw]. unfold create_child.
  run (on_mem_load _ _ _ Hw). destruct (pte_is_valid w) eqn:Hv; cbn [negb].
  { exists s, A, [], (pte_ppn w). rewrite app_nil_r. split_and!; [by destruct pt|by apply grow_refl|cbn; lia|].
    rewrite node_snoc, Hp. cbn. unfold child, entry. rewrite Hw. cbn. by rewrite Hv. }
  destruct (frames_alloc A) as [[q A']|] eqn:Ha.
  2: { unfold frames_alloc in Ha. by destruct (f_free A). }
  destruct (frame_alloc_some _ _ _ _ Hrep Ha) as (s1 & Hs1 & Hrep1 & Hsame1). run Hs1. run_refl.
  pose proof (st_rep_ok _ _ Hrep) as Hok.
  destruct (frames_alloc_ok _ _ _ Hok Ha) as (Hok' & Hq0 & Hnq & Hrc').
  pose proof (held_alloc _ _ _ q Hok Ha) as [_ Hhq]. specialize (Hhq (or_introl eq_refl)).
  destruct (fill_frame_spec s1 A' q PTE_EMPTY Hrep1 Hhq) as (s2 & Hs2 & Hrep2 & Hz & Hsame2).
  run Hs2.
  assert (held A' p) as Hhp' by (apply (held_alloc _ _ _ p Hok Ha); by right).
  destruct (on_mem_store s2 A' p i (pte_new q PTE_VALID) Hrep2 Hhp' Hi) as [Hs3 Hrep3].
  set (s3 := st_set _ s2) in *. run Hs3.
  assert (st_words s3 !! (page_va p + 8 * i) = Some (pte_new q PTE_VALID)) as Hlink.
  { unfold s3. rewrite st_set_words. apply lookup_insert_eq. }
  run (on_mem_load _ _ _ Hlink).
  assert (0 ≤ q < 2 ^ 26) as Hqr by (by eapply held_range).
  rewrite pte_ppn_new by (by apply ppn_bound26).
  assert (q ≠ p) as Hqp by (intros ->; done).
  assert (∀ x j, held A x → idx_ok j → (x, j) ≠ (p, i) →
    st_words s3 !! (page_va x + 8 * j) = st_words s !! (page_va x + 8 * j)) as Hold.
  { intros x j Hx Hj Hxj. unfold s3. rewrite st_set_words, lookup_insert_ne.
    - rewrite Hsame2, Hsame1; try done. intros ->; done.
    - apply entry_ne; [done..|]. by apply not_eq_sym. }
  assert (∀ j, idx_ok j → st_words s3 !! (page_va q + 8 * j) = Some 0) as Hzero.
  { intros j Hj. unfold s3. rewrite st_set_words, lookup_insert_ne; [by apply Hz|].
    apply entry_ne; [done..|]. congruence. }
  assert (entry (st_words s) p i = None) as Hnone.
  { unfold entry. rewrite Hw. cbn. by rewrite Hv. }
  assert (∀ x, held A' x ↔ x = q ∨ held A x) as HA' by (intros; by apply held_alloc).
  exists s3, A', [q], q. split_and!; [done| |cbn; lia|].
  - split; try done.
    + by eapply link_wf.
    + unfold frames_alloc in Ha. destruct (f_free A); [done|]. by simplify_eq.
    + intros x ->%list_elem_of_singleton. rewrite Hrc'. apply lookup_insert_eq.
    + intros x Hx. rewrite Hrc'. apply lookup_insert_ne. set_solver.
    + intros k Hk. by eapply link_view.
    + intros l' r Hl'. by eapply link_keep.
    + intros x. rewrite list_elem_of_singleton. by eapply link_table.
    + intros x j Hx Hnt Hj. apply Hold; [done..|]. intros [= -> ->]. apply Hnt.
      destruct l as [|i0 l]; [left; split; [by injection Hp|done]|right; by exists i0, l].
  - eapply link_new; [done..|]. by eapply link_keep.
Qed.

Lemma grow_ext I root f f' ns s A s' A' :
  (∀ k v, f k v = f' k v) → grow I root f ns s A s' A' → grow I root f' ns s A s' A'.
Proof.
  intros Hf [Hrep Hwf Hfr Hn Hr Hv Hk Ht Hd]. split; try done.
  intros k Hkk. by rewrite <- Hf, Hv.
Qed.

(** The entry [find_pte_create] returns, with the tables it creates. *)
Lemma find_pte_create_spec s A pt vpn :
  let root := pt_root pt in
  st_rep s A → pt_wf (st_words s) A root → (2 ≤ length (f_free A))%nat →
  let '(i0, i1, i2) := indexes vpn in
  ∃ s' A' ns q, find_pte_create pt vpn s =
      Ok (({| pt_root := root; pt_frames := pt_frames pt ++ ns |},
           Some (page_va q + 8 * i2)), s') ∧
    grow (eq i0) root same_view ns s A s' A' ∧ (length ns ≤ 2)%nat ∧
    node (st_words s') root [i0; i1] = Some q.
Proof.
  intros root Hrep Hwf Hfree. pose proof (indexes_ok vpn) as Hi. unfold find_pte_create.
  destruct (indexes vpn) as [[i0 i1] i2]. destruct Hi as (H0 & H1 & H2).
  assert (held A root) as Hroot by (by apply (wf_held _ _ _ Hwf [] _ path_ok_nil)).
  rewrite entry_va_eq by (eapply held_range; [by eapply st_rep_ok|done]). run_refl.
  destruct (create_child_spec s A pt [] root i0) as (s1 & A1 & ns1 & q1 & Hs1 & G1 & Hn1 & Hq1);
    try done; [apply path_ok_nil|cbn; lia|intros Hn; rewrite Hn in Hfree; cbn in Hfree; lia|].
  set (pt1 := {| pt_root := _ |}) in Hs1.
  pose proof (g_rep G1) as Hrep1. pose proof (g_wf G1) as Hwf1.
  assert (path_ok [i0]) as Hp0 by (apply (path_ok_snoc []); [apply path_ok_nil|cbn; lia|done]).
  destruct (create_child_spec s1 A1 pt1 [i0] q1 i1) as (s2 & A2 & ns2 & q2 & Hs2 & G2 & Hn2 & Hq2);
    try done; [cbn; lia| |].
  { intros Hnil. pose proof (g_free G1) as Hf. rewrite Hnil, app_nil_r in Hf.
    rewrite Hf in Hfree. lia. }
  exists s2, A2, (ns1 ++ ns2), q2. split_and!.
  - cbn [create_loop]. rewrite M_bind_assoc. run Hs1.
    rewrite M_bind_assoc, entry_va_eq by (eapply held_range; [by eapply st_rep_ok|by eapply wf_held]).
    run_refl. rewrite M_bind_assoc. run Hs2.
    assert (held A2 q2) as Hh2.
    { eapply (wf_held _ _ _ (g_wf G2)); [|exact Hq2]. by apply path_ok_2. }
    rewrite M_bind_assoc, entry_va_eq by
      (eapply held_range; [eapply st_rep_ok, (g_rep G2)|done]).
    run_refl. run_refl. unfold pt1. cbn. by rewrite app_assoc.
  - by eapply (grow_ext _ _ _ _ _ _ _ _ _ (λ _ _, eq_refl)), grow_trans.
  - rewrite length_app. lia.
  - done.
Qed.

(** Writing the leaf entry of [vpn]. *)
Lemma store_leaf_spec s A root i0 i1 i2 q w :
  st_rep s A → pt_wf (st_words s) A root → key_ok (i0, i1, i2) →
  node (st_words s) root [i0; i1] = Some q →
  ∃ s', on_mem (store (page_va q + 8 * i2) w) s = Ok (tt, s') ∧
    grow (eq i0) root (set_view (i0, i1, i2) (if pte_is_valid w then Some w else None)) [] s A s' A.
Proof.
  intros Hrep Hwf Hk Hq. pose proof Hk as (H0 & H1 & H2).
  assert (path_ok [i0; i1]) as Hp by (by apply path_ok_2).
  assert (held A q) as Hh by (by eapply wf_held).
  destruct (on_mem_store s A q i2 w Hrep Hh H2) as [Hs Hrep'].
  eexists. split; [done|]. split; try done; rewrite ?st_set_words.
  - by eapply leaf_wf.
  - set_solver.
  - intros k Hkk. by apply leaf_view with A.
  - intros l r Hl Hr. by erewrite leaf_node.
  - intros x. split.
    + intros (l & Hl & Hr). erewrite leaf_node in Hr by done. right. by exists l.
    + intros [?|(l & Hl & Hr)]; [set_solver|]. exists l. split; [done|]. by erewrite leaf_node.
  - intros x j Hx Hnt Hj. apply lookup_insert_ne, entry_ne; [done..|].
    intros [= <- <-]. apply Hnt. right. by exists i0, [i1].
Qed.
End grow.

(** ** Operations on the address map *)

(** The entry of the root table a page goes through. *)
Definition top_of `{Config} (vpn : Z) : Z := (indexes vpn).1.1.

Section specs.
Context {C : Config} {Cok : ConfigOk C} {St : Type} `{!FrameOps St, !FrameSource St}.
Implicit Types s : St.

Abbreviation vpn_view s pt vpn := (view (st_words s) (pt_root pt) (indexes vpn)).

(** The leaf entry of a mapped page: its address and its contents. *)
Lemma find_pte_some s A pt vpn w :
  st_rep s A → pt_wf (st_words s) A (pt_root pt) → vpn_view s pt vpn = Some w →
  let '(i0, i1, i2) := indexes vpn in
  ∃ q, node (st_words s) (pt_root pt) [i0; i1] = Some q ∧
    find_pte pt vpn s = Ok (Some (page_va q + 8 * i2), s) ∧
    st_words s !! (page_va q + 8 * i2) = Some w ∧ pte_is_valid w = true.
Proof.
  intros Hrep Hwf Hv. pose proof (find_pte_view s A pt vpn Hrep Hwf) as Hf.
  destruct (indexes vpn) as [[i0 i1] i2]. cbn in Hv.
  destruct (node (st_words s) (pt_root pt) [i0; i1]) as [q|] eqn:Hq.
  2: { unfold node in Hq. cbn in Hq. by rewrite Hq in Hv. }
  unfold node in Hq. cbn in Hq. rewrite Hq in Hv. cbn in Hv.
  exists q. rewrite Hf. cbn. rewrite Hv. split_and!; [done..| |];
    unfold entry in Hv; destruct (st_words s !! _) as [w'|]; cbn in Hv; try done;
    destruct (pte_is_valid w') eqn:E; by simplify_eq.
Qed.

Lemma find_pte_none s A pt vpn :
  st_rep s A → pt_wf (st_words s) A (pt_root pt) → vpn_view s pt vpn = None →
  find_pte pt vpn s = Ok (None, s).
Proof.
  intros Hrep Hwf Hv. pose proof (find_pte_view s A pt vpn Hrep Hwf) as Hf.
  destruct (indexes vpn) as [[i0 i1] i2]. rewrite Hf. unfold view in Hv.
  destruct (node (st_words s) (pt_root pt) [i0; i1]) as [q|]; [|done]. cbn in *.
  by rewrite Hv.
Qed.

(** Overwriting the entry of a mapped page: the common part of [remap_one],
    [modify_flags] and [unmap_one]. *)
Lemma update_pte_spec s A pt vpn w w' :
  st_rep s A → pt_wf (st_words s) A (pt_root pt) → vpn_view s pt vpn = Some w →
  ∃ pte s', find_pte pt vpn s = Ok (Some pte, s) ∧ on_mem (load pte) s = Ok (w, s) ∧
    pte_is_valid w = true ∧ on_mem (store pte w') s = Ok (tt, s') ∧
    grow (eq (top_of vpn)) (pt_root pt) (set_view (indexes vpn) (if pte_is_valid w' then Some w' else None))
      [] s A s' A.
Proof.
  intros Hrep Hwf Hv. pose proof (find_pte_some _ _ _ _ _ Hrep Hwf Hv) as Hf. unfold top_of.
  pose proof (indexes_ok vpn) as Hi. destruct (indexes vpn) as [[i0 i1] i2].
  destruct Hf as (q & Hq & Hf & Hw & Hval).
  destruct (store_leaf_spec s A (pt_root pt) i0 i1 i2 q w') as (s' & Hs & G); [done..|].
  exists (page_va q + 8 * i2), s'. split_and!; try done. by apply on_mem_load.
Qed.

Lemma remap_one_eq s A pt vpn ppn flags w :
  st_rep s A → pt_wf (st_words s) A (pt_root pt) → vpn_view s pt vpn = Some w →
  0 ≤ ppn < 2 ^ PTE_PPN_BITS →
  ∃ s', remap_one pt vpn ppn flags s = Ok (tt, s') ∧
    grow (eq (top_of vpn)) (pt_root pt) (set_view (indexes vpn) (Some (pte_new ppn (Z.lor flags PTE_VALID))))
      [] s A s' A.
Proof.
  intros Hrep Hwf Hv Hp.
  destruct (update_pte_spec _ _ _ _ _ (pte_new ppn (Z.lor flags PTE_VALID)) Hrep Hwf Hv)
    as (pte & s' & H1 & H2 & H3 & H4 & G).
  exists s'. rewrite pte_valid_new in G by done. split; [|done].
  unfold remap_one. run H1. run_refl. run H2. rewrite H3. by run_refl.
Qed.

Lemma modify_flags_eq s A pt vpn flags w :
  st_rep s A → pt_wf (st_words s) A (pt_root pt) → vpn_view s pt vpn = Some w →
  ∃ s', modify_flags pt vpn flags s = Ok (tt, s') ∧
    grow (eq (top_of vpn)) (pt_root pt)
      (set_view (indexes vpn) (Some (pte_new (pte_ppn w) (Z.lor flags PTE_VALID)))) [] s A s' A.
Proof.
  intros Hrep Hwf Hv.
  assert (0 ≤ pte_ppn w < 2 ^ PTE_PPN_BITS) as Hp.
  { rewrite pte_ppn_div. apply Z.mod_pos_bound, Z.pow_pos_nonneg; [lia|].
    pose proof ppn_bits_ok. lia. }
  destruct (update_pte_spec _ _ _ _ _ (pte_new (pte_ppn w) (Z.lor flags PTE_VALID)) Hrep Hwf Hv)
    as (pte & s' & H1 & H2 & H3 & H4 & G).
  exists s'. rewrite pte_valid_new in G by done. split; [|done].
  unfold modify_flags. run H1. run_refl. run H2. rewrite H3. by run_refl.
Qed.

Lemma unmap_one_eq s A pt vpn w :
  st_rep s A → pt_wf (st_words s) A (pt_root pt) → vpn_view s pt vpn = Some w →
  ∃ s', unmap_one pt vpn s = Ok (tt, s') ∧
    grow (eq (top_of vpn)) (pt_root pt) (set_view (indexes vpn) None) [] s A s' A.
Proof.
  intros Hrep Hwf Hv.
  destruct (update_pte_spec _ _ _ _ _ PTE_EMPTY Hrep Hwf Hv)
    as (pte & s' & H1 & H2 & H3 & H4 & G).
  exists s'. split; [|done]. unfold unmap_one. run H1. run_refl. run H2. rewrite H3. by run_refl.
Qed.

Lemma map_one_eq s A pt vpn ppn flags :
  st_rep s A → pt_wf (st_words s) A (pt_root pt) → vpn_view s pt vpn = None →
  0 ≤ ppn < 2 ^ PTE_PPN_BITS → (2 ≤ length (f_free A))%nat →
  ∃ s' A' ns, map_one pt vpn ppn flags s =
      Ok ({| pt_root := pt_root pt; pt_frames := pt_frames pt ++ ns |}, s') ∧
    grow (eq (top_of vpn)) (pt_root pt) (set_view (indexes vpn) (Some (pte_new ppn (Z.lor flags PTE_VALID))))
      ns s A s' A' ∧ (length ns ≤ 2)%nat.
Proof.
  intros Hrep Hwf Hv Hp Hfree. unfold top_of.
  pose proof (find_pte_create_spec s A pt vpn Hrep Hwf Hfree) as Hc.
  pose proof (indexes_ok vpn) as Hi. destruct (indexes vpn) as [[i0 i1] i2] eqn:Ei.
  destruct Hc as (s1 & A1 & ns & q & Hs1 & G1 & Hns & Hq).
  pose proof (g_rep G1) as Hrep1. pose proof (g_wf G1) as Hwf1.
  assert (path_ok [i0; i1]) as Hpath by (destruct Hi as (? & ? & ?); by apply path_ok_2).
  destruct (entry_mapped s1 A1 q i2 Hrep1) as [w Hw]; [by eapply wf_held|by destruct Hi as (_&_&?)|].
  assert (pte_is_valid w = false) as Hinv.
  { pose proof (g_view G1 (i0, i1, i2) Hi) as Hv1. unfold same_view in Hv1.
    rewrite Hv in Hv1. unfold view in Hv1. rewrite Hq in Hv1. cbn in Hv1.
    unfold entry in Hv1. rewrite Hw in Hv1. cbn in Hv1. by destruct (pte_is_valid w). }
  destruct (store_leaf_spec s1 A1 (pt_root pt) i0 i1 i2 q (pte_new ppn (Z.lor flags PTE_VALID)))
    as (s2 & Hs2 & G2); [done..|].
  rewrite pte_valid_new in G2 by done.
  exists s2, A1, ns. split_and!; [| |done].
  - unfold map_one. run Hs1. run_refl. run (on_mem_load _ _ _ Hw). rewrite Hinv. run_refl.
    by run Hs2.
  - rewrite <- (app_nil_r ns). by eapply (grow_ext _ _ _ _ _ _ _ _ _ (λ _ _, eq_refl)), grow_trans.
Qed.
End specs.

(** ** Changes outside the tree *)

Section frame.
Context {C : Config} {Cok : ConfigOk C}.

(** Memory that agrees on the tables denotes the same tree. *)
Lemma tree_frame m m' A A' root :
  pt_wf m A root →
  (∀ x j, is_table m root x → idx_ok j → m' !! (page_va x + 8 * j) = m !! (page_va x + 8 * j)) →
  (∀ x, is_table m root x → held A' x) →
  (∀ l, path_ok l → node m' root l = node m root l) ∧ pt_wf m' A' root ∧
  (∀ k, key_ok k → view m' root k = view m root k) ∧
  (∀ x, is_table m' root x ↔ is_table m root x).
Proof.
  intros Hwf Hm HA.
  assert (∀ l, path_ok l → node m' root l = node m root l) as Hnode.
  { induction l as [|j l IH] using rev_ind; [done|].
    intros (Hl & Hlen & Hj)%path_ok_snoc_inv. rewrite !node_snoc, IH by done.
    destruct (node m root l) as [x|] eqn:Hx; [|done]. cbn. unfold child. f_equal.
    apply entry_same, Hm; [by exists l|done]. }
  split_and!; [done| | |].
  - split.
    + intros l p Hl. rewrite Hnode by done. intros Hp. apply HA. by exists l.
    + intros l l' p Hl Hl'. rewrite !Hnode by done. by apply (wf_inj _ _ _ Hwf).
  - intros [[i0 i1] i2] (? & ? & ?). unfold view.
    assert (path_ok [i0; i1]) by (by apply path_ok_2). rewrite Hnode by done.
    destruct (node m root [i0; i1]) as [x|] eqn:Hx; [|done]. cbn.
    apply entry_same, Hm; [by exists [i0; i1]|done].
  - intros x. split; intros (l & Hl & Hx); exists l; (split; [done|]); by rewrite ?Hnode in * by done.
Qed.
End frame.

(** ** Mapping a range of fresh frames *)

Section pages.
Context {C : Config} {Cok : ConfigOk C} {St : Type} `{!FrameOps St, !FrameSource St}.
Implicit Types s : St.

(** Like [grow], with frames [ds] handed to the caller as data pages. *)
Record pstep (I : Z → Prop) (root : Z) (f : key → option Z → option Z) (ts ds : list Z)
    (s : St) (A : frames) (s' : St) (A' : frames) : Prop := {
  p_rep : st_rep s' A';
  p_wf : pt_wf (st_words s') A' root;
  p_free : ∃ l, f_free A = l ++ f_free A' ∧ l ≡ₚ ts ++ ds;
  p_new : ∀ x, x ∈ ts ++ ds → f_rc A' !! x = Some 1;
  p_rc : ∀ x, x ∉ ts ++ ds → f_rc A' !! x = f_rc A !! x;
  p_view : ∀ k, key_ok k → view (st_words s') root k = f k (view (st_words s) root k);
  p_table : ∀ x, is_table (st_words s') root x ↔ x ∈ ts ∨ is_table (st_words s) root x;
  p_keep : ∀ l r, path_ok l → node (st_words s) root l = Some r →
    node (st_words s') root l = Some r;
  p_same : ∀ x j, held A x → ¬ under (st_words s) root I x j → idx_ok j →
    st_words s' !! (page_va x + 8 * j) = st_words s !! (page_va x + 8 * j);
}.
#[global] Arguments p_rep {_ _ _ _ _ _ _ _ _} _.
#[global] Arguments p_wf {_ _ _ _ _ _ _ _ _} _.
#[global] Arguments p_free {_ _ _ _ _ _ _ _ _} _.
#[global] Arguments p_new {_ _ _ _ _ _ _ _ _} _.
#[global] Arguments p_rc {_ _ _ _ _ _ _ _ _} _.
#[global] Arguments p_view {_ _ _ _ _ _ _ _ _} _.
#[global] Arguments p_table {_ _ _ _ _ _ _ _ _} _.
#[global] Arguments p_keep {_ _ _ _ _ _ _ _ _} _.
#[global] Arguments p_same {_ _ _ _ _ _ _ _ _} _.

Lemma p_data I root f ts ds s A s' A' x j :
  pstep I root f ts ds s A s' A' → held A x → ¬ is_table (st_words s) root x → idx_ok j →
  st_words s' !! (page_va x + 8 * j) = st_words s !! (page_va x + 8 * j).
Proof. intros P Hx Hn. apply (p_same P); [done|]. by intros ?%under_table. Qed.

Lemma pstep_under I root f ts ds s A s' A' x j :
  pstep I root f ts ds s A s' A' → under (st_words s') root I x j →
  x ∈ ts ∨ under (st_words s) root I x j.
Proof.
  intros G [[-> Hj]|(i & l & Hi & Hl & Hx)]; [right; by left|].
  destruct (proj1 (p_table G x)) as [?|(l' & Hl' & Hx')]; [by eexists|by left|].
  assert (l' = i :: l) as ->.
  { eapply (wf_inj _ _ _ (p_wf G)); [done|done|by apply (p_keep G)|done]. }
  right. right. by exists i, l.
Qed.

Lemma pstep_mono I (I' : Z → Prop) root f ts ds s A s' A' :
  (∀ i, I i → I' i) → pstep I root f ts ds s A s' A' → pstep I' root f ts ds s A s' A'.
Proof.
  intros HI [Hrep Hwf Hfr Hn Hr Hv Ht Hk Hd]. split; try done.
  intros x j Hx Hnu. apply Hd; [done|]. intros [[-> ?]|(i & l & ? & ?)]; apply Hnu.
  - left. split; [done|]. by apply HI.
  - right. exists i, l. split; [by apply HI|done].
Qed.

Lemma grow_pstep I root f ns s A s' A' : grow I root f ns s A s' A' → pstep I root f ns [] s A s' A'.
Proof.
  intros [Hrep Hwf Hfr Hn Hr Hv Hk Ht Hd]. split; rewrite ?app_nil_r; try done.
  by exists ns.
Qed.

Lemma pstep_ext I root f f' ts ds s A s' A' :
  (∀ k v, f k v = f' k v) → pstep I root f ts ds s A s' A' → pstep I root f' ts ds s A s' A'.
Proof.
  intros Hf [Hrep Hwf Hfr Hn Hr Hv Ht Hk Hd]. split; try done.
  intros k Hkk. by rewrite <- Hf, Hv.
Qed.

Lemma pstep_refl I root s A :
  st_rep s A → pt_wf (st_words s) A root → pstep I root same_view [] [] s A s A.
Proof. intros. by apply grow_pstep, grow_refl. Qed.

Lemma table_held m A root x : pt_wf m A root → is_table m root x → held A x.
Proof. intros Hwf (l & Hl & Hx). by eapply wf_held. Qed.

Lemma pstep_held I root f ts ds s A s' A' x :
  st_rep s A → pstep I root f ts ds s A s' A' → held A x → held A' x ∧ x ∉ ts ++ ds.
Proof.
  intros Hrep [_ _ (l & Hf & Hp) _ Hr _ _ _ _] Hx.
  assert (x ∉ ts ++ ds) as Hn.
  { rewrite <- Hp. apply held_not_free in Hx; [|by eapply st_rep_ok]. rewrite Hf in Hx. set_solver. }
  split; [|done]. destruct Hx as (c & Hc & ?). exists c. by rewrite Hr.
Qed.

Lemma pstep_trans I root f1 f2 ts1 ts2 ds1 ds2 s A s1 A1 s2 A2 :
  st_rep s A → pstep I root f1 ts1 ds1 s A s1 A1 → pstep I root f2 ts2 ds2 s1 A1 s2 A2 →
  pstep I root (λ k v, f2 k (f1 k v)) (ts1 ++ ts2) (ds1 ++ ds2) s A s2 A2.
Proof.
  intros Hrep G1 G2.
  assert (∀ x, held A x → held A1 x ∧ x ∉ ts1 ++ ds1) as Hh by (intros; by eapply pstep_held).
  assert (NoDup (f_free A)) as Hnd by (by destruct (st_rep_ok _ _ Hrep)).
  assert (∀ x j, under (st_words s1) root I x j → x ∈ ts1 ∨ under (st_words s) root I x j) as Hu
    by (intros; by eapply pstep_under).
  destruct G1 as [Hrep1 Hwf1 (l1 & Hf1 & Hp1) Hn1 Hr1 Hv1 Ht1 Hk1 Hd1].
  destruct G2 as [Hrep2 Hwf2 (l2 & Hf2 & Hp2) Hn2 Hr2 Hv2 Ht2 Hk2 Hd2].
  assert (∀ x, x ∈ ts1 ++ ds1 → x ∉ ts2 ++ ds2) as Hdisj.
  { intros x. rewrite <- Hp1, <- Hp2. rewrite Hf1, Hf2 in Hnd.
    apply NoDup_app in Hnd as (_ & Hdis & _). intros Hx Hx2. apply (Hdis x Hx). set_solver. }
  split; try done.
  - exists (l1 ++ l2). rewrite Hf1, Hf2, <- app_assoc. split; [done|].
    rewrite Hp1, Hp2. solve_Permutation.
  - intros x Hx. destruct (decide (x ∈ ts2 ++ ds2)); [by apply Hn2|].
    rewrite Hr2 by done. apply Hn1. set_solver.
  - intros x Hx. rewrite Hr2, Hr1; [done|set_solver..].
  - intros k Hk. by rewrite Hv2, Hv1.
  - intros x. rewrite Ht2, Ht1. set_solver.
  - intros l r Hl Hr. by apply Hk2, Hk1.
  - intros x j Hx Hnt Hj. destruct (Hh _ Hx). rewrite Hd2, Hd1; try done.
    intros [?|?]%Hu; set_solver.
Qed.

(** Taking a data frame. *)
Lemma frame_alloc_pstep I root s A :
  st_rep s A → pt_wf (st_words s) A root → f_free A ≠ [] →
  ∃ s' A' q, frame_alloc s = Ok (Some q, s') ∧ pstep I root same_view [] [q] s A s' A' ∧
    f_free A = q :: f_free A' ∧ held A' q ∧ ¬ held A q.
Proof.
  intros Hrep Hwf Hne. pose proof (st_rep_ok _ _ Hrep) as Hok.
  destruct (frames_alloc A) as [[q A']|] eqn:Ha.
  2: { unfold frames_alloc in Ha. by destruct (f_free A). }
  destruct (frame_alloc_some _ _ _ _ Hrep Ha) as (s' & Hs & Hrep' & Hsame).
  destruct (frames_alloc_ok _ _ _ Hok Ha) as (Hok' & Hq0 & Hnq & Hrc').
  assert (f_free A = q :: f_free A') as Hf.
  { unfold frames_alloc in Ha. destruct (f_free A); [done|]. by simplify_eq. }
  assert (∀ x, held A x → held A' x) as Hmono by (intros; apply (held_alloc _ _ _ x Hok Ha); by right).
  destruct (tree_frame (st_words s) (st_words s') A A' root Hwf) as (Hn' & Hwf' & Hv' & Ht').
  { intros x j Hx Hj. apply Hsame; [by eapply table_held|done]. }
  { intros x Hx. eapply Hmono, table_held; done. }
  exists s', A', q. split_and!; try done; [|by apply (held_alloc _ _ _ q Hok Ha); left].
  split; try done.
  - exists [q]. done.
  - intros x ->%list_elem_of_singleton. rewrite Hrc'. apply lookup_insert_eq.
  - intros x Hx. rewrite Hrc'. apply lookup_insert_ne. set_solver.
  - intros x. rewrite Ht'. set_solver.
  - intros l r Hl Hr. by rewrite Hn'.
  - intros x j Hx _ Hj. by apply Hsame.
Qed.

(** Writing a held frame that is not a table. *)
Lemma fill_frame_pstep root s A q v :
  st_rep s A → pt_wf (st_words s) A root → held A q → ¬ is_table (st_words s) root q →
  ∃ s', fill_frame q v s = Ok (tt, s') ∧ st_rep s' A ∧ pt_wf (st_words s') A root ∧
    (∀ k, key_ok k → view (st_words s') root k = view (st_words s) root k) ∧
    (∀ x, is_table (st_words s') root x ↔ is_table (st_words s) root x) ∧
    (∀ l, path_ok l → node (st_words s') root l = node (st_words s) root l) ∧
    (∀ x j, x ≠ q → idx_ok j →
      st_words s' !! (page_va x + 8 * j) = st_words s !! (page_va x + 8 * j)) ∧
    (∀ j, idx_ok j → st_words s' !! (page_va q + 8 * j) = Some v).
Proof.
  intros Hrep Hwf Hq Hnt.
  destruct (fill_frame_spec s A q v Hrep Hq) as (s' & Hs & Hrep' & Hin & Hout).
  destruct (tree_frame (st_words s) (st_words s') A A root Hwf) as (Hn' & Hwf' & Hv' & Ht').
  { intros x j Hx Hj. apply Hout; [by intros ->|done]. }
  { intros x Hx. by eapply table_held. }
  exists s'. by split_and!.
Qed.
End pages.
