(* ===== verification/PageMap.v ===== *)
(** * Page tables: ranges and theorems

    The loops of [PageTable::map] (kernel/src/mm/page_table.rs) over the pages of
    a range, and the theorems about page tables: translation, mapping,
    unmapping, the kernel half shared by every address space. *)

From S2P Require Import Prelude Address Memory PhysPage Pte BTree PageTable.

Section ranges.
Context {C : Config} {Cok : ConfigOk C} {St : Type} `{!FrameOps St, !FrameSource St}.
Implicit Types s : St.

Abbreviation vpn_view s pt vpn := (view (st_words s) (pt_root pt) (indexes vpn)).

Lemma held_ppn s A q : st_rep s A → held A q → 0 ≤ q < 2 ^ PTE_PPN_BITS.
Proof. intros Hrep Hq. apply ppn_bound26. eapply held_range; [by eapply st_rep_ok|done]. Qed.

Lemma key_ok_indexes vpn : key_ok (indexes vpn).
Proof. pose proof (indexes_ok vpn). by destruct (indexes vpn) as [[??]?]. Qed.

(** One page of a [Framed] or [KernelStack] area. *)
Lemma map_new_frame_spec zero vpn pt area s A :
  st_rep s A → pt_wf (st_words s) A (pt_root pt) → vpn_view s pt vpn = None →
  (3 ≤ length (f_free A))%nat →
  ∃ s' A' pt' ts q, map_new_frame zero vpn (pt, area) s = Ok ((pt', area_insert area vpn q), s') ∧
    pt_root pt' = pt_root pt ∧
    pstep (eq (top_of vpn)) (pt_root pt)
      (set_view (indexes vpn) (Some (pte_new q (Z.lor (map_perm area) PTE_VALID)))) ts [q] s A s' A' ∧
    (length ts ≤ 2)%nat ∧ (zero = true → ∀ j, idx_ok j → st_words s' !! (page_va q + 8 * j) = Some 0).
Proof.
  intros Hrep Hwf Hv Hfree. set (root := pt_root pt).
  destruct (frame_alloc_pstep (eq (top_of vpn)) root s A Hrep Hwf) as (s1 & A1 & q & Hs1 & P1 & Hf1 & Hq1 & Hnq).
  { intros Hn. rewrite Hn in Hfree. cbn in Hfree. lia. }
  rewrite Hf1 in Hfree. cbn in Hfree.
  pose proof (p_rep P1) as Hrep1. pose proof (p_wf P1) as Hwf1.
  assert (vpn_view s1 pt vpn = None) as Hv1.
  { rewrite (p_view P1) by apply key_ok_indexes. done. }
  assert (0 ≤ q < 2 ^ PTE_PPN_BITS) as Hqb by (by eapply held_ppn).
  destruct (map_one_eq s1 A1 pt vpn q (map_perm area) Hrep1 Hwf1 Hv1 Hqb ltac:(lia))
    as (s2 & A2 & ts & Hs2 & G2 & Hts).
  pose proof (grow_pstep _ _ _ _ _ _ _ _ G2) as P2.
  pose proof (pstep_trans _ _ _ _ _ _ _ _ _ _ _ _ _ _ Hrep P1 P2) as P12. cbn [app] in P12.
  pose proof (p_rep P2) as Hrep2. pose proof (p_wf P2) as Hwf2.
  assert (held A2 q ∧ q ∉ ts) as [Hq2 Hqts].
  { destruct (pstep_held _ _ _ _ _ _ _ _ _ q Hrep1 P2 Hq1). set_solver. }
  assert (¬ is_table (st_words s2) root q) as Hnt.
  { rewrite (p_table P12). intros [?|Ht]; [done|]. apply Hnq.
    by eapply table_held. }
  unfold map_new_frame. run Hs1. run_refl. run Hs2. destruct zero.
  - destruct (fill_frame_pstep root s2 A2 q 0 Hrep2 Hwf2 Hq2 Hnt)
      as (s3 & Hs3 & Hrep3 & Hwf3 & Hv3 & Ht3 & Hn3 & Hout3 & Hin3).
    run Hs3. exists s3, A2. do 3 eexists. split_and!; [done|done| |done|done].
    destruct P12 as [_ _ Hfr Hn Hr Hvw Htb Hkp Hd]. split; try done.
    + intros k Hk. by rewrite Hv3, Hvw.
    + intros x. by rewrite Ht3.
    + intros l r Hl Hr'. rewrite Hn3 by done. by apply Hkp.
    + intros x j Hx Hxt Hj. rewrite Hout3; [by apply Hd|by intros ->|done].
  - run_refl. exists s2, A2. do 3 eexists. by split_and!.
Qed.

(** The effect of a list of new mappings on the address map. *)
Definition set_views (perm : Z) (l : list (Z * Z)) (k : key) (v : option Z) : option Z :=
  foldl (λ v e, set_view (indexes e.1) (Some (pte_new e.2 (Z.lor perm PTE_VALID))) k v) v l.
(** The frames recorded in an area. *)
Definition insert_frames (l : list (Z * Z)) (area : MapArea) : MapArea :=
  foldl (λ a e, area_insert a e.1 e.2) area l.

Lemma insert_frames_perm l : ∀ area, map_perm (insert_frames l area) = map_perm area ∧
  map_type (insert_frames l area) = map_type area.
Proof. induction l as [|e l IH]; intros area; [done|]. apply (IH (area_insert area e.1 e.2)). Qed.

(** The loop over the pages of an area: it takes a fresh frame for each page. *)
Lemma map_frames_spec (I : Z → Prop) zero vpns : ∀ pt area s A,
  st_rep s A → pt_wf (st_words s) A (pt_root pt) →
  NoDup (indexes <$> vpns) → (∀ vpn, vpn ∈ vpns → vpn_view s pt vpn = None) →
  (3 * length vpns ≤ length (f_free A))%nat → (∀ vpn, vpn ∈ vpns → I (top_of vpn)) →
  ∃ s' A' pt' ts qs, length qs = length vpns ∧
    for_pages vpns (map_new_frame zero) (pt, area) s =
      Ok ((pt', insert_frames (zip vpns qs) area), s') ∧
    pt_root pt' = pt_root pt ∧
    pstep I (pt_root pt) (set_views (map_perm area) (zip vpns qs)) ts qs s A s' A' ∧
    (length ts ≤ 2 * length vpns)%nat ∧
    (zero = true → ∀ q j, q ∈ qs → idx_ok j → st_words s' !! (page_va q + 8 * j) = Some 0).
Proof.
  induction vpns as [|vpn vpns IH]; intros pt area s A Hrep Hwf Hnd Hv Hfree HI.
  { exists s, A, pt, [], []. split_and!; try done; [by apply pstep_refl|]. set_solver. }
  rewrite fmap_cons in Hnd. apply NoDup_cons in Hnd as [Hnin Hnd]. cbn [length] in Hfree.
  destruct (map_new_frame_spec zero vpn pt area s A Hrep Hwf) as
    (s1 & A1 & pt1 & ts1 & q & Hs1 & Hr1 & P1 & Hts1 & Hz1); [apply Hv; set_solver|lia|].
  apply (pstep_mono _ I) in P1; [|intros ? <-; apply HI; set_solver].
  pose proof (p_rep P1) as Hrep1. pose proof (p_wf P1) as Hwf1.
  rewrite <- Hr1 in Hwf1.
  assert (3 * length vpns ≤ length (f_free A1))%nat as Hfree1.
  { destruct (p_free P1) as (l & Hl & Hperm). rewrite Hl, length_app in Hfree.
    apply Permutation_length in Hperm. rewrite length_app in Hperm. cbn in Hperm. lia. }
  destruct (IH pt1 (area_insert area vpn q) s1 A1) as
    (s2 & A2 & pt2 & ts2 & qs & Hlen & Hs2 & Hr2 & P2 & Hts2 & Hz2); try done.
  2: { set_solver. }
  { intros v Hin. rewrite Hr1, (p_view P1) by apply key_ok_indexes.
    unfold set_view. rewrite decide_False; [apply Hv; set_solver|].
    intros Heq. apply Hnin. rewrite <- Heq. by apply list_elem_of_fmap_2. }
  rewrite Hr1 in P2, Hr2.
  exists s2, A2, pt2, (ts1 ++ ts2), (q :: qs). split_and!.
  - cbn. by rewrite Hlen.
  - cbn [for_pages]. run Hs1. done.
  - done.
  - eapply (pstep_ext _ _ (λ k v, set_views (map_perm (area_insert area vpn q)) (zip vpns qs) k
      (set_view (indexes vpn) (Some (pte_new q (Z.lor (map_perm area) PTE_VALID))) k v)));
      [done|]. by apply (pstep_trans _ _ _ _ ts1 ts2 [q] qs _ _ s1 A1).
  - rewrite length_app. cbn [length]. lia.
  - intros -> x j [->|Hx]%elem_of_cons Hj; [|by apply Hz2].
    assert (held A1 q) as Hq1.
    { exists 1. split; [|lia]. apply (p_new P1). set_solver. }
    rewrite (p_data _ _ _ _ _ _ _ _ _ _ _ P2); [by apply Hz1|done| |done].
    rewrite (p_table P1). intros [Hin|Ht].
    + destruct (p_free P1) as (l & Hl & Hperm).
      assert (NoDup (f_free A)) as Hndf by (by destruct (st_rep_ok _ _ Hrep)).
      rewrite Hl in Hndf. apply NoDup_app in Hndf as (Hndl & _ & _). rewrite Hperm in Hndl.
      apply NoDup_app in Hndl as (_ & Hd & _). apply (Hd q Hin). set_solver.
    + apply (table_held _ A) in Ht; [|done].
      destruct (pstep_held _ _ _ _ _ _ _ _ _ q Hrep P1 Ht). set_solver.
Qed.
End ranges.

(** ** Theorems *)

Section theorems.
Context {C : Config} {Cok : ConfigOk C} {St : Type} `{!FrameOps St, !FrameSource St}.
Implicit Types s : St.

Abbreviation vpn_view s pt vpn := (view (st_words s) (pt_root pt) (indexes vpn)).

(** The physical address an entry gives to a virtual address. *)
Definition entry_pa (va w : Z) : Z := pte_ppn w * 4096 + va `mod` 4096.

Lemma translate_va_eq s A pt va :
  st_rep s A → pt_wf (st_words s) A (pt_root pt) →
  translate_va pt va s = Ok (entry_pa va <$> vpn_view s pt (floor va), s).
Proof.
  intros Hrep Hwf. unfold translate_va.
  destruct (vpn_view s pt (floor va)) as [w|] eqn:Hv.
  - destruct (update_pte_spec _ _ _ _ _ 0 Hrep Hwf Hv) as (pte & s' & H1 & H2 & _).
    run H1. run H2.
    assert (0 ≤ pte_ppn w < 2 ^ 44) as Hp.
    { rewrite pte_ppn_div. apply ppn_bound, Z.mod_pos_bound, Z.pow_pos_nonneg; [lia|].
      pose proof ppn_bits_ok. lia. }
    rewrite addr_of_pn_mul, page_offset_mod by lia.
    pose proof (Z.mod_pos_bound va 4096). unfold uadd. rewrite checked_in by lia. done.
  - by run (find_pte_none _ _ _ _ Hrep Hwf Hv).
Qed.

(** Mapping a page: afterwards addresses of the page translate to the frame, all
    other addresses translate as before, the tree is well formed, and no data
    frame was written. *)
Theorem map_one_translates s A pt vpn ppn flags :
  st_rep s A → pt_wf (st_words s) A (pt_root pt) → vpn_view s pt vpn = None →
  0 ≤ ppn < 2 ^ PTE_PPN_BITS → (2 ≤ length (f_free A))%nat →
  ∃ s' A' pt', map_one pt vpn ppn flags s = Ok (pt', s') ∧
    st_rep s' A' ∧ pt_wf (st_words s') A' (pt_root pt') ∧
    (∀ va, ∃ r, translate_va pt va s = Ok (r, s) ∧
       translate_va pt' va s' =
         Ok (if decide (indexes (floor va) = indexes vpn)
             then Some (ppn * 4096 + va `mod` 4096) else r, s')) ∧
    (∀ x j, held A x → ¬ is_table (st_words s) (pt_root pt) x → 0 ≤ j < 512 →
       st_words s' !! (page_va x + 8 * j) = st_words s !! (page_va x + 8 * j)).
Proof.
  intros Hrep Hwf Hv Hp Hfree.
  destruct (map_one_eq s A pt vpn ppn flags Hrep Hwf Hv Hp Hfree) as (s' & A' & ns & Hs & G & _).
  exists s', A'. eexists. split_and!; [done|apply G|apply G| |].
  2: { intros x j Hx Hn. apply (g_same G); [done|]. by intros ?%under_table. }
  intros va. eexists. split; [by apply translate_va_eq with A|].
  rewrite (translate_va_eq s' A') by apply G. cbn [pt_root].
  rewrite (g_view G) by apply key_ok_indexes. unfold set_view.
  case_decide; [|done]. cbn. unfold entry_pa. by rewrite pte_ppn_new.
Qed.

(** The panics of the page-table operations: mapping a mapped page trips the
    assertion, and remapping, changing or unmapping an unmapped page trips the
    [unwrap] of [find_pte]. *)
Theorem page_table_misuse_panics s A pt vpn ppn flags :
  st_rep s A → pt_wf (st_words s) A (pt_root pt) → (2 ≤ length (f_free A))%nat →
  (∀ w, vpn_view s pt vpn = Some w → map_one pt vpn ppn flags s = Panic AssertFailed) ∧
  (vpn_view s pt vpn = None →
     remap_one pt vpn ppn flags s = Panic UnwrapNone ∧
     modify_flags pt vpn flags s = Panic UnwrapNone ∧
     unmap_one pt vpn s = Panic UnwrapNone).
Proof.
  intros Hrep Hwf Hfree. split.
  - intros w Hv. pose proof (find_pte_create_spec s A pt vpn Hrep Hwf Hfree) as Hc.
    pose proof (key_ok_indexes vpn) as Hk.
    destruct (indexes vpn) as [[i0 i1] i2] eqn:Ei.
    destruct Hc as (s1 & A1 & ns & q & Hs1 & G1 & _ & Hq).
    rewrite <- (g_view G1 (i0, i1, i2) Hk : _ = view _ _ _) in Hv.
    unfold view in Hv. rewrite Hq in Hv. cbn in Hv. unfold entry in Hv.
    destruct (st_words s1 !! (page_va q + 8 * i2)) as [w'|] eqn:Hw; [|done]. cbn in Hv.
    unfold map_one. run Hs1. run_refl. run (on_mem_load _ _ _ Hw).
    destruct (pte_is_valid w'); [|done]. by apply M_bind_Panic.
  - intros Hv. unfold remap_one, modify_flags, unmap_one.
    split_and!; run (find_pte_none _ _ _ _ Hrep Hwf Hv); by apply M_bind_Panic.
Qed.

(** Unmapping undoes mapping: the address map is restored at every page. *)
Theorem map_unmap_roundtrip s A pt vpn ppn flags :
  st_rep s A → pt_wf (st_words s) A (pt_root pt) → vpn_view s pt vpn = None →
  0 ≤ ppn < 2 ^ PTE_PPN_BITS → (2 ≤ length (f_free A))%nat →
  ∃ s1 pt' s2 A', map_one pt vpn ppn flags s = Ok (pt', s1) ∧ unmap_one pt' vpn s1 = Ok (tt, s2) ∧
    st_rep s2 A' ∧ pt_wf (st_words s2) A' (pt_root pt') ∧
    ∀ vpn', vpn_view s2 pt' vpn' = vpn_view s pt vpn'.
Proof.
  intros Hrep Hwf Hv Hp Hfree.
  destruct (map_one_eq s A pt vpn ppn flags Hrep Hwf Hv Hp Hfree) as (s1 & A' & ns & Hs & G & _).
  set (pt' := {| pt_root := _ |}) in Hs. change (pt_root pt) with (pt_root pt') in G at 1.
  destruct (unmap_one_eq s1 A' pt' vpn (pte_new ppn (Z.lor flags PTE_VALID))) as (s2 & Hs2 & G2).
  - apply G.
  - apply G.
  - rewrite (g_view G) by apply key_ok_indexes. unfold set_view.
    by rewrite decide_True.
  - exists s1, pt', s2, A'. split_and!; [done..|apply G2|apply G2|].
    intros vpn'. rewrite (g_view G2), (g_view G) by apply key_ok_indexes.
    unfold set_view. case_decide as Hd; [|done]. by rewrite Hd, Hv.
Qed.
End theorems.

(** ** Areas of fresh frames *)

Section areas.
Context {C : Config} {Cok : ConfigOk C} {St : Type} `{!FrameOps St, !FrameSource St}.
Implicit Types s : St.

Abbreviation vpn_view s pt vpn := (view (st_words s) (pt_root pt) (indexes vpn)).
Abbreviation zget := (bt_get Z.compare).

Lemma indexes_inj_mod v v' : indexes v = indexes v' → v `mod` 2 ^ 27 = v' `mod` 2 ^ 27.
Proof.
  pose proof (indexes_digits v) as H. pose proof (indexes_digits v') as H'.
  destruct (indexes v) as [[??]?], (indexes v') as [[??]?]. intros [= -> -> ->]. lia.
Qed.

Lemma indexes_range_inj a b v v' :
  b - a ≤ 2 ^ 27 → v ∈ range a b → v' ∈ range a b → indexes v = indexes v' → v = v'.
Proof.
  rewrite !elem_of_range. intros Hab Hv Hv' Heq%indexes_inj_mod.
  assert ((v - v') `mod` 2 ^ 27 = 0) as Hm.
  { rewrite Zminus_mod, Heq, Z.sub_diag. done. }
  apply Z.mod_divide in Hm as [k Hk]; [|lia]. assert (k = 0) by lia. lia.
Qed.

Lemma NoDup_indexes_range a b : b - a ≤ 2 ^ 27 → NoDup (indexes <$> range a b).
Proof.
  intros Hab. assert (∀ l, (∀ x, x ∈ l → x ∈ range a b) → NoDup l → NoDup (indexes <$> l)) as H.
  { induction l as [|x l IH]; intros Hsub Hnd; [constructor|].
    apply NoDup_cons in Hnd as [Hx Hnd]. rewrite fmap_cons. apply NoDup_cons. split.
    - rewrite list_elem_of_fmap. intros (y & Hy & Hin). apply Hx.
      rewrite (indexes_range_inj a b x y); try done; apply Hsub; set_solver.
    - apply IH; [|done]. set_solver. }
  apply H; [done|apply NoDup_range].
Qed.

Lemma area_insert_get area vpn q k :
  zsorted (data_frames area) →
  zget k (data_frames (area_insert area vpn q)) =
  if decide (k = vpn) then Some q else zget k (data_frames area).
Proof. apply zget_insert. Qed.

(** What an area records and the map shows for the pages of [zip vpns qs]. *)
Lemma insert_frames_get vpns : ∀ qs area i vpn q,
  zsorted (data_frames area) → NoDup vpns → vpns !! i = Some vpn → qs !! i = Some q →
  zget vpn (data_frames (insert_frames (zip vpns qs) area)) = Some q ∧
  zsorted (data_frames (insert_frames (zip vpns qs) area)).
Proof.
  enough (∀ vpns qs area vpn, zsorted (data_frames area) →
    zsorted (data_frames (insert_frames (zip vpns qs) area)) ∧
    (vpn ∉ vpns → zget vpn (data_frames (insert_frames (zip vpns qs) area)) =
                  zget vpn (data_frames area))) as Hout.
  { induction vpns as [|v vpns IH]; intros [|x qs] area i vpn q Hs Hnd Hv Hq;
      try (by rewrite lookup_nil in *). apply NoDup_cons in Hnd as [Hv0 Hnd].
    assert (zsorted (data_frames (area_insert area v x))) by (by apply zsorted_insert).
    destruct i as [|i]; cbn in Hv, Hq.
    - simplify_eq. change (insert_frames _ _) with (insert_frames (zip vpns qs) (area_insert area vpn q)).
      destruct (Hout vpns qs (area_insert area vpn q) vpn) as [? Heq]; [done|].
      rewrite Heq by done. split; [|done]. rewrite area_insert_get by done. by rewrite decide_True.
    - by apply (IH qs (area_insert area v x) i). }
  clear vpns. induction vpns as [|v vpns IH]; intros [|x qs] area vpn Hs; try done.
  destruct (IH qs (area_insert area v x) vpn) as [? Heq]; [by apply zsorted_insert|].
  split; [done|]. intros Hn. change (insert_frames _ _) with
    (insert_frames (zip vpns qs) (area_insert area v x)).
  rewrite Heq by set_solver. rewrite area_insert_get by done. rewrite decide_False; set_solver.
Qed.

Lemma set_views_get perm vpns : ∀ qs i vpn q v,
  NoDup (indexes <$> vpns) → vpns !! i = Some vpn → qs !! i = Some q →
  set_views perm (zip vpns qs) (indexes vpn) v = Some (pte_new q (Z.lor perm PTE_VALID)).
Proof.
  induction vpns as [|v vpns IH]; intros [|x qs] i vpn q v0 Hnd Hv Hq;
    try (by rewrite lookup_nil in *).
  rewrite fmap_cons in Hnd. apply NoDup_cons in Hnd as [Hn Hnd].
  destruct i as [|i]; cbn in Hv, Hq.
  - simplify_eq. cbn. unfold set_view at 2. rewrite decide_True by done.
    fold (set_views perm (zip vpns qs) (indexes vpn) (Some (pte_new q (Z.lor perm PTE_VALID)))).
    clear IH Hnd. revert qs. induction vpns as [|v vpns IH]; intros [|y qs]; try done.
    rewrite fmap_cons, not_elem_of_cons in Hn. destruct Hn as [Hn1 Hn2]. cbn.
    unfold set_view at 2. rewrite decide_False by done. by apply IH.
  - cbn. by apply IH with i.
Qed.

Lemma set_views_out perm vpns : ∀ qs k v,
  k ∉ indexes <$> vpns → set_views perm (zip vpns qs) k v = v.
Proof.
  induction vpns as [|x vpns IH]; intros [|y qs] k v Hk; try done.
  rewrite fmap_cons, not_elem_of_cons in Hk. destruct Hk as [Hk1 Hk2]. cbn.
  unfold set_view at 2. rewrite decide_False by done. by apply IH.
Qed.

(** A [Framed] area: every page of the range is mapped to a frame of its own,
    taken from the free frames and recorded in the area with count one; no other
    page and no frame that was in use changes. *)
Theorem map_framed_area s A pt r vpns perm :
  st_rep s A → pt_wf (st_words s) A (pt_root pt) → vpn_range r = Ok vpns →
  Z.of_nat (length vpns) ≤ 2 ^ 27 → (3 * length vpns ≤ length (f_free A))%nat →
  (∀ vpn, vpn ∈ vpns → vpn_view s pt vpn = None) →
  ∃ s' A' pt' area', pt_map pt r (new_area Framed perm) None s = Ok ((pt', area'), s') ∧
    st_rep s' A' ∧ pt_wf (st_words s') A' (pt_root pt') ∧ pt_root pt' = pt_root pt ∧
    (∀ vpn, vpn ∈ vpns → ∃ q, zget vpn (data_frames area') = Some q ∧
       vpn_view s' pt' vpn = Some (pte_new q (Z.lor perm PTE_VALID)) ∧
       q ∈ f_free A ∧ f_rc A' !! q = Some 1) ∧
    (∀ vpn vpn' q, vpn ∈ vpns → vpn' ∈ vpns → zget vpn (data_frames area') = Some q →
       zget vpn' (data_frames area') = Some q → vpn = vpn') ∧
    (∀ vpn, indexes vpn ∉ indexes <$> vpns → vpn_view s' pt' vpn = vpn_view s pt vpn) ∧
    (∀ x, held A x → f_rc A' !! x = f_rc A !! x) ∧
    (∀ x j, held A x → ¬ is_table (st_words s) (pt_root pt) x → 0 ≤ j < 512 →
       st_words s' !! (page_va x + 8 * j) = st_words s !! (page_va x + 8 * j)).
Proof.
  intros Hrep Hwf Hr Hlen Hfree Hv.
  apply vpn_range_Ok in Hr as Hr'. destruct Hr' as (_ & _ & Hvpns).
  set (a := r_start r `div` 4096) in *. set (b := (r_end r + 4095) `div` 4096) in *.
  assert (NoDup (indexes <$> vpns)) as Hnd.
  { subst vpns. destruct (decide (b ≤ a)).
    - rewrite range_nil by done. constructor.
    - apply NoDup_indexes_range. unfold range in Hlen. rewrite length_seqZ in Hlen. lia. }
  assert (NoDup vpns) as Hnd' by (subst vpns; apply NoDup_range).
  destruct (map_frames_spec (λ _, True) false vpns pt (new_area Framed perm) s A Hrep Hwf Hnd Hv Hfree (λ _ _, I))
    as (s' & A' & pt' & ts & qs & Hqs & Hs & Hroot & P & _).
  exists s', A', pt', (insert_frames (zip vpns qs) (new_area Framed perm)).
  assert (∀ vpn i, vpns !! i = Some vpn → ∃ q, qs !! i = Some q) as Hqi.
  { intros vpn i Hi. apply lookup_lt_is_Some_2. rewrite Hqs. by eapply lookup_lt_Some. }
  destruct (p_free P) as (l & Hl & Hperm).
  assert (zsorted (data_frames (new_area Framed perm))) as Hsorted by constructor.
  split_and!; rewrite ?Hroot.
  - unfold pt_map. cbn [map_type new_area]. rewrite Hr. by run_refl.
  - apply P.
  - apply P.
  - done.
  - intros vpn [i Hi]%list_elem_of_lookup. destruct (Hqi _ _ Hi) as [q Hq]. exists q.
    assert (q ∈ ts ++ qs) as Hin by (apply elem_of_app; right; by eapply list_elem_of_lookup_2).
    split_and!.
    + by eapply insert_frames_get.
    + rewrite (p_view P) by apply key_ok_indexes. by eapply set_views_get.
    + rewrite Hl. apply elem_of_app. left. by rewrite Hperm.
    + by apply (p_new P).
  - intros vpn vpn' q [i Hi]%list_elem_of_lookup [i' Hi']%list_elem_of_lookup Hq Hq'.
    destruct (Hqi _ _ Hi) as [x Hx], (Hqi _ _ Hi') as [x' Hx'].
    destruct (insert_frames_get _ qs _ _ _ _ Hsorted Hnd' Hi Hx) as [Hg _].
    destruct (insert_frames_get _ qs _ _ _ _ Hsorted Hnd' Hi' Hx') as [Hg' _].
    assert (NoDup qs) as Hndq.
    { assert (NoDup (f_free A)) as Hn by (by destruct (st_rep_ok _ _ Hrep)).
      rewrite Hl in Hn. apply NoDup_app in Hn as (Hn & _ & _). rewrite Hperm in Hn.
      by apply NoDup_app in Hn as (_ & _ & ?). }
    rewrite Hq in Hg. rewrite Hq' in Hg'. simplify_eq.
    assert (i = i') by (by eapply NoDup_lookup). by simplify_eq.
  - intros vpn Hn. rewrite (p_view P) by apply key_ok_indexes.
    by apply set_views_out.
  - intros x Hx. apply (p_rc P).
    by destruct (pstep_held _ _ _ _ _ _ _ _ _ x Hrep P Hx).
  - intros x j Hx Hnt Hj. by eapply p_data.
Qed.
End areas.
