(* ===== verification/World.v ===== *)
(** * Several address spaces over one memory

    Every process has a root table of its own, and all of them share the tables of
    the kernel half (the entries 256 to 511 of a root,
    [PageTable::new_kernel] of kernel/arch/riscv/page_table.rs).  A [world] is a
    list of roots whose lower halves are private: an operation on the lower half
    of one of them leaves the address maps of all the others as they are. *)

From S2P Require Import Prelude Address Memory PhysPage Pte PageTable PageMap.

(** The entries of a root that belong to user space. *)
Definition low (i : Z) : Prop := i < 256.

(** No table of [P] lies below the lower half of [Q]. *)
Definition apart `{Config} (m : words) (P Q : Z) : Prop :=
  ∀ x j, is_table m P x → ¬ under m Q low x j.

Section world.
Context {C : Config} {Cok : ConfigOk C} {St : Type} `{!FrameOps St, !FrameSource St}.
Implicit Types (s : St) (Rs : list Z).

Record world Rs (s : St) (A : frames) : Prop := {
  w_rep : st_rep s A;
  w_wf : ∀ R, R ∈ Rs → pt_wf (st_words s) A R;
  w_apart : ∀ P Q, P ∈ Rs → Q ∈ Rs → P ≠ Q → apart (st_words s) P Q;
}.

(** A change of the world that takes the frames [ns] from the allocator, and
    writes no held frame that is not a table. *)
Record wstep Rs (ns : list Z) (s : St) (A : frames) (s' : St) (A' : frames) : Prop := {
  w_world : world Rs s' A';
  w_free : ∃ l, f_free A = l ++ f_free A' ∧ l ≡ₚ ns;
  w_new : ∀ x, x ∈ ns → f_rc A' !! x = Some 1;
  w_rc : ∀ x, x ∉ ns → f_rc A' !! x = f_rc A !! x;
  w_table : ∀ R x, R ∈ Rs → is_table (st_words s') R x → x ∈ ns ∨ is_table (st_words s) R x;
  w_same : ∀ x j, held A x → (∀ R, R ∈ Rs → ¬ is_table (st_words s) R x) → idx_ok j →
    st_words s' !! (page_va x + 8 * j) = st_words s !! (page_va x + 8 * j);
}.

Lemma world_table_held Rs s A R x :
  world Rs s A → R ∈ Rs → is_table (st_words s) R x → held A x.
Proof. intros W HR. by eapply table_held, w_wf. Qed.

Lemma taken_not_held (A A' : frames) (l ns : list Z) x :
  frames_ok A → f_free A = l ++ f_free A' → l ≡ₚ ns → x ∈ ns → ¬ held A x.
Proof.
  intros Hok Hf Hl Hx Hh. apply (held_not_free _ _ Hok Hh). rewrite Hf, elem_of_app. left.
  by rewrite Hl.
Qed.

Lemma under_same m m' root I x j :
  (∀ l, path_ok l → node m' root l = node m root l) → under m' root I x j → under m root I x j.
Proof.
  intros Hn [?|(i & l & ? & Hl & Hx)]; [by left|]. right. exists i, l. by rewrite <- Hn.
Qed.

(** An operation on the lower half of one root. *)
Lemma world_step Rs P f ts ds s A s' A' :
  world Rs s A → P ∈ Rs → pstep low P f ts ds s A s' A' →
  wstep Rs (ts ++ ds) s A s' A' ∧
  (∀ k, key_ok k → view (st_words s') P k = f k (view (st_words s) P k)) ∧
  (∀ R k, R ∈ Rs → R ≠ P → key_ok k → view (st_words s') R k = view (st_words s) R k) ∧
  (∀ R x, R ∈ Rs → is_table (st_words s') R x → x ∈ ts ∨ is_table (st_words s) R x).
Proof.
  intros W HP G. pose proof (w_rep _ _ _ W) as Hrep. pose proof (st_rep_ok _ _ Hrep) as Hok.
  destruct (p_free G) as (l & Hf & Hl).
  assert (∀ x, x ∈ ts ++ ds → ¬ held A x) as Hfresh by (intros; by eapply taken_not_held).
  assert (∀ R, R ∈ Rs → R ≠ P →
    (∀ l, path_ok l → node (st_words s') R l = node (st_words s) R l) ∧
    pt_wf (st_words s') A' R ∧
    (∀ k, key_ok k → view (st_words s') R k = view (st_words s) R k) ∧
    (∀ x, is_table (st_words s') R x ↔ is_table (st_words s) R x)) as Hother.
  { intros R HR Hne. apply (tree_frame _ _ A); [by eapply w_wf| |].
    - intros x j Hx Hj. apply (p_same G); [by eapply world_table_held| |done].
      by apply (w_apart _ _ _ W R P).
    - intros x Hx. eapply pstep_held; [exact Hrep|exact G|by eapply world_table_held]. }
  assert (∀ R x, R ∈ Rs → is_table (st_words s') R x → x ∈ ts ∨ is_table (st_words s) R x) as Htab.
  { intros R x HR. destruct (decide (R = P)) as [->|Hne]; [by apply (p_table G)|].
    destruct (Hother R HR Hne) as (_ & _ & _ & ->). by right. }
  split_and!; [|apply G|intros R k HR Hne; by apply Hother|done].
  split; try apply G.
  - split; [apply G| |].
    + intros R HR. destruct (decide (R = P)) as [->|]; [apply G|by apply Hother].
    + intros R Q HR HQ Hne x j Hx Hu.
      assert (x ∈ ts ∨ under (st_words s) Q low x j) as [Hts|Hu'].
      { destruct (decide (Q = P)) as [->|HQP]; [by eapply pstep_under|].
        right. eapply under_same; [|exact Hu]. by apply Hother. }
      * destruct (decide (R = P)) as [->|HRP].
        -- assert (Q ≠ P) as HQP by done. eapply under_same in Hu; [|by apply Hother].
           apply (Hfresh x); [set_solver|]. eapply (world_table_held Rs s A Q); [done..|by eapply under_table].
        -- apply (Hfresh x); [set_solver|]. eapply (world_table_held Rs s A R); [done..|]. by apply Hother.
      * destruct (Htab R x HR Hx) as [Hts|Hx'].
        -- apply (Hfresh x); [set_solver|]. eapply (world_table_held Rs s A Q); [done..|by eapply under_table].
        -- by apply (w_apart _ _ _ W R Q HR HQ Hne x j).
  - intros R x HR Hx. destruct (Htab R x HR Hx); [left; set_solver|by right].
  - intros x j Hx Hn Hj. apply (p_same G); [done| |done]. intros Hu%under_table. by apply (Hn P).
Qed.

Lemma wstep_refl Rs s A : world Rs s A → wstep Rs [] s A s A.
Proof. intros W. split; try done; [by exists []|set_solver|by right]. Qed.

Lemma wstep_held Rs ns s A s' A' x :
  world Rs s A → wstep Rs ns s A s' A' → held A x → held A' x ∧ x ∉ ns.
Proof.
  intros W S Hx. destruct (w_free _ _ _ _ _ _ S) as (l & Hf & Hl).
  assert (x ∉ ns) as Hn.
  { intros Hn. assert (frames_ok A) by (eapply st_rep_ok, W).
    by eapply (taken_not_held A A' l ns x). }
  split; [|done]. destruct Hx as (c & Hc & ?). exists c. by rewrite (w_rc _ _ _ _ _ _ S).
Qed.

Lemma wstep_trans Rs ns1 ns2 s A s1 A1 s2 A2 :
  world Rs s A → wstep Rs ns1 s A s1 A1 → wstep Rs ns2 s1 A1 s2 A2 →
  wstep Rs (ns1 ++ ns2) s A s2 A2.
Proof.
  intros W S1 S2. assert (NoDup (f_free A)) as Hnd by (by destruct (st_rep_ok _ _ (w_rep _ _ _ W))).
  assert (∀ x, held A x → held A1 x ∧ x ∉ ns1) as Hh by (intros; by eapply wstep_held).
  destruct S1 as [W1 (l1 & Hf1 & Hl1) Hn1 Hr1 Ht1 Hs1], S2 as [W2 (l2 & Hf2 & Hl2) Hn2 Hr2 Ht2 Hs2].
  assert (∀ x, x ∈ ns1 → x ∉ ns2) as Hdisj.
  { intros x. rewrite <- Hl1, <- Hl2. rewrite Hf1, Hf2 in Hnd.
    apply NoDup_app in Hnd as (_ & Hd & _). intros Hx Hx2. apply (Hd x Hx). set_solver. }
  split; try done.
  - exists (l1 ++ l2). rewrite Hf1, Hf2, <- app_assoc. split; [done|]. by rewrite Hl1, Hl2.
  - intros x [Hx|Hx]%elem_of_app; [|by apply Hn2]. rewrite Hr2; [by apply Hn1|by apply Hdisj].
  - intros x Hx. rewrite Hr2, Hr1; [done|set_solver..].
  - intros R x HR Hx. destruct (Ht2 R x HR Hx) as [?|Hx1]; [set_solver|].
    destruct (Ht1 R x HR Hx1); set_solver.
  - intros x j Hx Hn Hj. destruct (Hh x Hx) as [Hx1 Hx2]. rewrite Hs2, Hs1; try done.
    intros R HR Ht. destruct (Ht1 R x HR Ht); [done|by apply (Hn R)].
Qed.

Lemma world_sub Rs Rs' s A : Rs' ⊆ Rs → world Rs s A → world Rs' s A.
Proof. intros Hs [Hr Hw Ha]. split; [done|..]; intros; [apply Hw|apply Ha]; set_solver. Qed.

(** The first step adds the root [q], whose tables are [q] and tables of other
    roots; the second may write them. *)
Lemma wstep_join Rs q ns2 s A s1 A1 s2 A2 :
  world Rs s A → wstep Rs [q] s A s1 A1 → wstep (q :: Rs) ns2 s1 A1 s2 A2 →
  (∀ x, is_table (st_words s1) q x → x = q ∨ ∃ R, R ∈ Rs ∧ is_table (st_words s1) R x) →
  wstep Rs (q :: ns2) s A s2 A2.
Proof.
  intros W S1 S2 Hq. assert (NoDup (f_free A)) as Hnd by (by destruct (st_rep_ok _ _ (w_rep _ _ _ W))).
  assert (∀ x, held A x → held A1 x ∧ x ∉ [q]) as Hh by (intros; by eapply wstep_held).
  destruct S1 as [W1 (l1 & Hf1 & Hl1) Hn1 Hr1 Ht1 Hs1], S2 as [W2 (l2 & Hf2 & Hl2) Hn2 Hr2 Ht2 Hs2].
  assert (q ∉ ns2) as Hdisj.
  { rewrite <- Hl2. rewrite Hf1, Hf2 in Hnd. apply NoDup_app in Hnd as (_ & Hd & _).
    intros Hx2. apply (Hd q); [rewrite Hl1|]; set_solver. }
  split; try done.
  - eapply world_sub, W2. set_solver.
  - exists (l1 ++ l2). rewrite Hf1, Hf2, <- app_assoc. split; [done|]. by rewrite Hl1, Hl2.
  - intros x [->|Hx]%elem_of_cons; [|by apply Hn2]. rewrite Hr2 by done. apply Hn1. set_solver.
  - intros x Hx. rewrite Hr2, Hr1; [done|set_solver..].
  - intros R x HR Hx. destruct (Ht2 R x ltac:(set_solver) Hx) as [?|Hx1]; [set_solver|].
    destruct (Ht1 R x HR Hx1); set_solver.
  - intros x j Hx Hn Hj. destruct (Hh x Hx) as [Hx1 Hx2].
    assert (∀ R, R ∈ Rs → ¬ is_table (st_words s1) R x) as Hn1'.
    { intros R HR Ht. destruct (Ht1 R x HR Ht); [done|by apply (Hn R)]. }
    rewrite Hs2, Hs1; try done. intros R [->|HR]%elem_of_cons; [|by apply Hn1'].
    intros [->|(R & HR & Ht)]%Hq; [set_solver|by apply (Hn1' R)].
Qed.

(** A change outside the tables: they stay held and their words stay. *)
Lemma world_tables Rs s A s' A' :
  world Rs s A → st_rep s' A' → (∀ R x, R ∈ Rs → is_table (st_words s) R x → held A' x) →
  (∀ R x j, R ∈ Rs → is_table (st_words s) R x → idx_ok j →
     st_words s' !! (page_va x + 8 * j) = st_words s !! (page_va x + 8 * j)) →
  world Rs s' A' ∧
  (∀ R k, R ∈ Rs → key_ok k → view (st_words s') R k = view (st_words s) R k) ∧
  (∀ R x, R ∈ Rs → is_table (st_words s') R x ↔ is_table (st_words s) R x) ∧
  (∀ R l, R ∈ Rs → path_ok l → node (st_words s') R l = node (st_words s) R l).
Proof.
  intros W Hrep' Hheld Hsame.
  assert (∀ R, R ∈ Rs →
    (∀ l, path_ok l → node (st_words s') R l = node (st_words s) R l) ∧
    pt_wf (st_words s') A' R ∧
    (∀ k, key_ok k → view (st_words s') R k = view (st_words s) R k) ∧
    (∀ x, is_table (st_words s') R x ↔ is_table (st_words s) R x)) as H.
  { intros R HR. apply (tree_frame _ _ A); [by eapply w_wf| |].
    - intros x j Hx Hj. by eapply Hsame.
    - intros x Hx. by eapply Hheld. }
  split_and!; [split; [done| |]|intros; by apply H|intros; by apply H|intros; by apply H].
  - intros R HR. by apply H.
  - intros P Q HP HQ Hne x j Hx Hu. apply (w_apart _ _ _ W P Q HP HQ Hne x j).
    + by apply H.
    + eapply under_same; [|exact Hu]. by apply H.
Qed.

Lemma world_counts Rs s A s' A' :
  world Rs s A → st_rep s' A' → (∀ x, held A x → held A' x) →
  (∀ R x j, R ∈ Rs → is_table (st_words s) R x → idx_ok j →
     st_words s' !! (page_va x + 8 * j) = st_words s !! (page_va x + 8 * j)) →
  world Rs s' A' ∧
  (∀ R k, R ∈ Rs → key_ok k → view (st_words s') R k = view (st_words s) R k) ∧
  (∀ R x, R ∈ Rs → is_table (st_words s') R x ↔ is_table (st_words s) R x) ∧
  (∀ R l, R ∈ Rs → path_ok l → node (st_words s') R l = node (st_words s) R l).
Proof. intros W Hrep Hmono. eapply world_tables; [done..|]. intros R x HR Hx. by eapply Hmono, world_table_held. Qed.
End world.

(** ** A new root *)

Section new_root.
Context {C : Config} {Cok : ConfigOk C} {St : Type} `{!FrameOps St, !FrameSource St}.
Implicit Types (s : St) (Rs : list Z).

(** The nodes below a root whose lower half is empty and whose upper half is that
    of [K]. *)
Lemma copied_node m m' A K q i l :
  pt_wf m A K →
  (∀ x j, held A x → idx_ok j → m' !! (page_va x + 8 * j) = m !! (page_va x + 8 * j)) →
  (∀ j, 0 ≤ j < 256 → m' !! (page_va q + 8 * j) = Some 0) →
  (∀ j, 256 ≤ j < 512 → m' !! (page_va q + 8 * j) = m !! (page_va K + 8 * j)) →
  path_ok (i :: l) →
  node m' q (i :: l) = if decide (i < 256) then None else node m K (i :: l).
Proof.
  intros Hwf Hm Hlo Hhi. induction l as [|j l IH] using rev_ind.
  - intros [Hi _]. inversion_clear Hi. unfold node, idx_ok in *. cbn. unfold child, entry.
    case_decide; [rewrite Hlo by lia|rewrite Hhi by lia]; done.
  - intros Hp. change (i :: l ++ [j]) with ((i :: l) ++ [j]) in *.
    apply path_ok_snoc_inv in Hp as (Hl & Hlen & Hj). rewrite !node_snoc, IH by done.
    case_decide; [done|]. destruct (node m K (i :: l)) as [x|] eqn:Hx; [|done]. cbn.
    unfold child. f_equal. apply entry_same, Hm; [|done]. by eapply wf_held.
Qed.

Lemma on_mem_load_words s A p (k n : nat) :
  st_rep s A → held A p → (k + n ≤ 512)%nat →
  ∃ vs, on_mem (load_words (page_va p + 8 * Z.of_nat k) n) s = Ok (vs, s) ∧ length vs = n ∧
    ∀ i : nat, (i < n)%nat → vs !! i = st_words s !! (page_va p + 8 * Z.of_nat (k + i)).
Proof.
  intros Hrep Hp Hk.
  destruct (load_words_spec n (page_va p + 8 * Z.of_nat k) (st_words s)) as (vs & Hl & Hlen & Hvs).
  { intros i Hi. replace (page_va p + 8 * Z.of_nat k + 8 * Z.of_nat i)
      with (page_va p + 8 * Z.of_nat (k + i)) by lia.
    eapply entry_mapped; [done..|]. split; lia. }
  exists vs. split_and!; [|done|].
  - rewrite (on_mem_eq _ _ _ _ Hl). by rewrite st_set_id.
  - intros i Hi. rewrite Hvs by done. f_equal. lia.
Qed.

(** [PageTable::new_kernel] on the word memory: a fresh frame with the two
    halves, and no other word of a held frame changed. *)
Lemma pt_new_kernel_words s A K :
  st_rep s A → held A K → f_free A ≠ [] →
  ∃ s' A' q, pt_new_kernel K s = Ok ({| pt_root := q; pt_frames := [] |}, s') ∧
    st_rep s' A' ∧ frames_alloc A = Some (q, A') ∧
    (∀ x j, held A x → idx_ok j → st_words s' !! (page_va x + 8 * j) = st_words s !! (page_va x + 8 * j)) ∧
    (∀ j, 0 ≤ j < 256 → st_words s' !! (page_va q + 8 * j) = Some 0) ∧
    (∀ j, 256 ≤ j < 512 → st_words s' !! (page_va q + 8 * j) = st_words s !! (page_va K + 8 * j)).
Proof.
  intros Hrep HK Hne. pose proof (st_rep_ok _ _ Hrep) as Hok.
  destruct (frames_alloc A) as [[q A']|] eqn:Ha.
  2: { unfold frames_alloc in Ha. by destruct (f_free A). }
  destruct (frame_alloc_some _ _ _ _ Hrep Ha) as (s1 & Hs1 & Hrep1 & Hsame1).
  destruct (frames_alloc_ok _ _ _ Hok Ha) as (Hok' & _ & Hnq & _).
  assert (held A' q ∧ held A' K) as [Hq HK'].
  { split; apply (held_alloc _ _ _ _ Hok Ha); [by left|by right]. }
  destruct (on_mem_store_words A' q (replicate 256 PTE_EMPTY) s1 0 Hrep1 Hq)
    as (s2 & Hs2 & Hrep2 & Hin2 & Hout2); [rewrite length_replicate; lia|].
  destruct (on_mem_load_words s2 A' K 256 256 Hrep2 HK') as (vs & Hvs & Hlen & Hv); [lia|].
  destruct (on_mem_store_words A' q vs s2 256 Hrep2 Hq) as (s3 & Hs3 & Hrep3 & Hin3 & Hout3);
    [lia|].
  rewrite length_replicate in Hout2. rewrite Hlen in Hout3. rewrite Z.mul_0_r, Z.add_0_r in Hs2.
  assert (∀ x j, x ≠ q → idx_ok j →
    st_words s3 !! (page_va x + 8 * j) = st_words s1 !! (page_va x + 8 * j)) as Hx.
  { unfold idx_ok. intros x j Hx Hj.
    rewrite Hout3, Hout2; [done|intros ? ?; apply page_va_disj; [done|lia..]..]. }
  exists s3, A', q. split_and!; try done.
  - unfold pt_new_kernel. run Hs1. run_refl.
    rewrite !array_va_eq by (by eapply held_range). do 2 (run_refl || run Hs2).
    run_refl. change (8 * 256) with (8 * Z.of_nat 256). run Hvs. by run Hs3.
  - intros x j Hxh Hj. rewrite Hx; [by apply Hsame1|by intros ->|done].
  - intros j Hj. rewrite Hout3 by (intros; lia). specialize (Hin2 (Z.to_nat j) 0).
    rewrite Nat.add_0_l, Z2Nat.id in Hin2 by lia. apply Hin2, lookup_replicate_2. lia.
  - intros j Hj. destruct (entry_mapped s2 A' K j Hrep2 HK') as [w Hw]; [unfold idx_ok; lia|].
    specialize (Hin3 (Z.to_nat j - 256)%nat w). specialize (Hv (Z.to_nat j - 256)%nat ltac:(lia)).
    replace (256 + (Z.to_nat j - 256))%nat with (Z.to_nat j) in * by lia.
    rewrite Z2Nat.id in * by lia. rewrite Hin3 by (by rewrite Hv, Hw).
    rewrite <- Hw, Hout2 by (intros; apply page_va_disj; [by intros ->|lia..]).
    apply Hsame1; [done|lia].
Qed.

(** The new root joins the world: an empty lower half, the kernel's upper half. *)
Lemma pt_new_kernel_world Rs s A K :
  world Rs s A → K ∈ Rs → f_free A ≠ [] →
  ∃ s' A' q, pt_new_kernel K s = Ok ({| pt_root := q; pt_frames := [] |}, s') ∧
    world (q :: Rs) s' A' ∧ wstep Rs [q] s A s' A' ∧ (q ∉ Rs) ∧
    (∀ R k, R ∈ Rs → key_ok k → view (st_words s') R k = view (st_words s) R k) ∧
    (∀ k, key_ok k → view (st_words s') q k =
       if decide (k.1.1 < 256) then None else view (st_words s) K k) ∧
    (∀ x, is_table (st_words s') q x → x = q ∨ is_table (st_words s) K x) ∧
    (∀ R x, R ∈ Rs → is_table (st_words s') R x ↔ is_table (st_words s) R x).
Proof.
  intros W HK Hne. pose proof (w_rep _ _ _ W) as Hrep. pose proof (w_wf _ _ _ W K HK) as HwfK.
  assert (held A K) as HhK by (by apply (wf_held _ _ _ HwfK [] _ path_ok_nil)).
  pose proof (st_rep_ok _ _ Hrep) as Hok.
  destruct (pt_new_kernel_words s A K Hrep HhK Hne) as (s' & A' & q & Hs & Hrep' & Ha & Hm & Hlo & Hhi).
  destruct (frames_alloc_ok _ _ _ Hok Ha) as (Hok' & _ & Hnq & Hrc).
  pose proof (held_alloc _ _ _ q Hok Ha) as [_ Hq]. specialize (Hq (or_introl eq_refl)).
  assert (∀ x, held A x → held A' x) as Hmono by (intros; apply (held_alloc _ _ _ _ Hok Ha); by right).
  destruct (world_counts Rs s A s' A' W Hrep' Hmono) as (W' & Hview & Htab & _).
  { intros R x j HR Hx. apply Hm. by eapply world_table_held. }
  assert (∀ i l, path_ok (i :: l) → node (st_words s') q (i :: l) =
    if decide (i < 256) then None else node (st_words s) K (i :: l)) as Hnode
    by (intros; by eapply copied_node).
  assert (∀ l x, path_ok l → node (st_words s') q l = Some x →
    l = [] ∧ x = q ∨ ∃ i l', l = i :: l' ∧ 256 ≤ i ∧ node (st_words s) K l = Some x) as Hinv.
  { intros [|i l] x Hl Hx; [left; by injection Hx|]. right. rewrite Hnode in Hx by done.
    case_decide; [done|]. exists i, l. split_and!; [done|lia|done]. }
  assert (pt_wf (st_words s') A' q) as Hwfq.
  { split.
    - intros l x Hl Hx. destruct (Hinv l x Hl Hx) as [[_ ->]|(i & l' & _ & _ & HxK)]; [done|].
      by eapply Hmono, (wf_held _ _ _ HwfK).
    - intros l l' x Hl Hl' Hx Hx'.
      destruct (Hinv l x Hl Hx) as [[El Ex]|(i & l1 & _ & _ & HxK)],
        (Hinv l' x Hl' Hx') as [[El' Ex']|(i' & l1' & _ & _ & HxK')].
      + congruence.
      + rewrite Ex in HxK'. by apply (wf_held _ _ _ HwfK) in HxK'.
      + rewrite Ex' in HxK. by apply (wf_held _ _ _ HwfK) in HxK.
      + by eapply (wf_inj _ _ _ HwfK). }
  assert (q ∉ Rs) as HqRs.
  { intros HqR. apply Hnq. by apply (wf_held _ _ _ (w_wf _ _ _ W q HqR) [] _ path_ok_nil). }
  assert (∀ x, is_table (st_words s') q x → x = q ∨ is_table (st_words s) K x) as Htq.
  { intros x (l & Hl & Hx). destruct (Hinv l x Hl Hx) as [[_ ->]|(i & l' & _ & _ & HxK)]; [by left|].
    right. by exists l. }
  exists s', A', q. split_and!; try done.
  - split; [done| |].
    + intros R [->|HR]%elem_of_cons; [done|by apply (w_wf _ _ _ W')].
    + intros P Q [->|HP]%elem_of_cons [->|HQ]%elem_of_cons Hne' x j Hx Hu; try done.
      * (* tables of the new root below another root *)
        eapply (under_same (st_words s)) in Hu.
        2: { intros l Hl. eapply (tree_frame (st_words s) _ A A' Q); [by eapply w_wf| | |done].
             - intros y i Hy. apply Hm. by eapply world_table_held.
             - intros y Hy. by eapply Hmono, world_table_held. }
        destruct Hx as (l & Hl & Hx). destruct (Hinv l x Hl Hx) as [[_ ->]|(i & l' & -> & Hi & HxK)].
        -- apply Hnq. eapply (world_table_held Rs s A Q); [done..|by eapply under_table].
        -- destruct (decide (Q = K)) as [->|HQK].
           ++ destruct Hu as [[-> _]|(i2 & l2 & Hi2 & Hl2 & Hx2)].
              ** by pose proof (wf_inj _ _ _ HwfK [] _ _ path_ok_nil Hl eq_refl HxK).
              ** pose proof (wf_inj _ _ _ HwfK _ _ _ Hl Hl2 HxK Hx2). simplify_eq.
                 unfold low in Hi2. lia.
           ++ apply (w_apart _ _ _ W K Q HK HQ (not_eq_sym HQK) x j); [by eexists|done].
      * (* tables of another root below the new one *)
        destruct Hu as [[-> _]|(i & l & Hi & Hl & Hxq)].
        -- apply Hnq. eapply (world_table_held Rs s A P); [done..|]. by apply Htab.
        -- rewrite Hnode in Hxq by done. rewrite decide_True in Hxq by done. done.
      * by apply (w_apart _ _ _ W' P Q HP HQ Hne' x j).
  - split; try done.
    + exists [q]. split; [|done]. unfold frames_alloc in Ha. destruct (f_free A); [done|]. by simplify_eq.
    + intros x ->%list_elem_of_singleton. rewrite Hrc. apply lookup_insert_eq.
    + intros x Hx. rewrite Hrc. apply lookup_insert_ne. set_solver.
    + intros R x HR Hx. right. by apply Htab.
    + intros x j Hx _ Hj. by apply Hm.
  - intros [[i0 i1] i2] (? & ? & ?). unfold view. cbn [fst]. rewrite Hnode by (by apply path_ok_2).
    case_decide; [done|]. destruct (node (st_words s) K [i0; i1]) as [x|] eqn:Hx; [|done]. cbn.
    apply entry_same, Hm; [|done]. eapply (wf_held _ _ _ HwfK); [|done]. by apply path_ok_2.
Qed.
End new_root.
