(* ===== verification/AddressSpace.v ===== *)
(** * Address spaces

    [AddressSpace] (kernel/src/mm/address_space.rs): a page table and the map of
    the areas it was filled from.  Frames belong to the areas; a frame shared by a
    copy-on-write [fork] is counted once for each area that holds it.  Dropping a
    [MapArea] drops its frames, in the order of their pages. *)

From Stdlib Require Import Sorted.
From S2P Require Import Prelude Io Address Memory PhysPage Pte BTree PageTable PageMap.

Record AddressSpace := {
  page_table : PageTableImpl;
  areas : list (VARange * MapArea);
  data_segment_end : Z;
  data_segment_max : Z;
}.

Definition with_table (self : AddressSpace) (pt : PageTableImpl) : AddressSpace :=
  {| page_table := pt; areas := areas self; data_segment_end := data_segment_end self;
     data_segment_max := data_segment_max self |}.
Definition with_areas (self : AddressSpace) (l : list (VARange * MapArea)) : AddressSpace :=
  {| page_table := page_table self; areas := l; data_segment_end := data_segment_end self;
     data_segment_max := data_segment_max self |}.
Definition with_segment (self : AddressSpace) (e m : Z) : AddressSpace :=
  {| page_table := page_table self; areas := areas self; data_segment_end := e;
     data_segment_max := m |}.

(** [AddressSpace::BRK_MAX] *)
Definition BRK_MAX : Z := 0x3000.

(** [x as isize] *)
Definition as_isize (z : Z) : Z := if z <? 2 ^ 63 then z else z - 2 ^ 64.

(** The key [VARangeOrd(va..va)] of a lookup by address. *)
Definition point (va : Z) : VARange := {| r_start := va; r_end := va |}.

(** A program header as the ELF parser gives it: whether it is loadable, its
    place in memory and in the file, and its permissions. *)
Record ProgramHeader := {
  ph_load : bool;
  ph_virtual_addr : Z;
  ph_mem_size : Z;
  ph_offset : Z;
  ph_file_size : Z;
  ph_read : bool;
  ph_write : bool;
  ph_execute : bool;
}.

Section operations.
Context {C : Config} {St : Type} `{!FrameOps St}.

(** ** Ownership *)

Definition area_drop (area : MapArea) : M St unit :=
  for_each (data_frames area) (λ e, frame_drop e.2).
(** [MapArea::clone] *)
Definition area_clone (area : MapArea) : M St MapArea :=
  for_each (data_frames area) (λ e, frame_clone e.2) ;; mret area.
(** [self.areas.insert(range, area)]; a value it replaces is dropped. *)
Definition areas_insert (self : AddressSpace) (r : VARange) (area : MapArea) : M St AddressSpace :=
  match bt_get range_cmp r (areas self) with
  | Some old => area_drop old
  | None => mret tt
  end ;;
  mret (with_areas self (bt_insert range_cmp r area (areas self))).
(** Dropping an [AddressSpace]: its tables, then its areas. *)
Definition as_drop (self : AddressSpace) : M St unit :=
  frame_drop (pt_root (page_table self)) ;;
  for_each (pt_frames (page_table self)) frame_drop ;;
  for_each (areas self) (λ e, area_drop e.2).

(** ** Operations *)

(** [AddressSpace::new_kernel]; [kernel_root] is the root of [KERNEL_PAGE_TABLE]. *)
Definition new_kernel (kernel_root : Z) : M St AddressSpace :=
  pt ← pt_new_kernel kernel_root;
  pt ← map_ranges Device mmio_ranges pt;
  mret {| page_table := pt; areas := []; data_segment_end := 1; data_segment_max := 1 |}.

(** The flags [fork] maps an area's pages with: a writable area becomes
    copy-on-write. *)
Definition area_cow (area : MapArea) : bool :=
  flags_contains (map_perm area) PTE_WRITABLE || flags_contains (map_perm area) PTE_COW.
Definition fork_flags (area : MapArea) : Z :=
  if area_cow area then flags_insert (flags_remove (map_perm area) PTE_WRITABLE) PTE_COW
  else map_perm area.

(** One page: mapped in the child, and remapped in the parent when it becomes
    copy-on-write. *)
Definition fork_page (cow : bool) (flags : Z) (parent : PageTableImpl) (e : Z * Z)
    (child : PageTableImpl) : M St PageTableImpl :=
  child ← map_one child e.1 e.2 flags;
  (if cow then remap_one parent e.1 e.2 flags else mret tt) ;;
  mret child.
Definition fork_area (parent : PageTableImpl) (e : VARange * MapArea) (new_as : AddressSpace) :
    M St AddressSpace :=
  let '(r, area) := e in
  pt ← for_pages (data_frames area) (fork_page (area_cow area) (fork_flags area) parent)
         (page_table new_as);
  copy ← area_clone area;
  areas_insert (with_table new_as pt) r copy.
(** [AddressSpace::fork]; [self] changes only in memory, through its table. *)
Definition fork (kernel_root : Z) (self : AddressSpace) : M St AddressSpace :=
  new_as ← new_kernel kernel_root;
  new_as ← for_pages (areas self) (fork_area (page_table self)) new_as;
  mret (with_segment new_as (data_segment_end self) (data_segment_max self)).

(** [AddressSpace::handle_pagefault].  The fault is taken on the active table, so
    the faulting page is read through the entry that was just found. *)
Definition handle_pagefault (self : AddressSpace) (va : Z) : M St AddressSpace :=
  let vpn := floor va in
  o ← find_pte (page_table self) vpn;
  pte ← lift (unwrap o);
  w ← on_mem (load pte);
  (if negb (flags_contains w PTE_COW) then panic Explicit else mret tt) ;;
  on_mem (store pte (flags_remove w PTE_COW)) ;;
  w ← on_mem (load pte);
  on_mem (store pte (flags_insert w PTE_WRITABLE)) ;;
  area ← lift (unwrap (bt_get range_cmp (point va) (areas self)));
  frame ← lift (unwrap (bt_get Z.compare vpn (data_frames area)));
  n ← frame_refs frame;
  if 1 <? n then
    o ← frame_alloc;
    new_frame ← lift (unwrap o);
    dst ← lift (array_va new_frame);
    w ← on_mem (load pte);
    src ← lift (array_va (pte_ppn w));
    ws ← on_mem (load_words src 512);
    on_mem (store_words dst ws) ;;
    on_mem (store pte (pte_set_ppn w new_frame)) ;;
    frame_drop frame ;;
    mret (with_areas self (bt_update range_cmp (point va)
            {| data_frames := bt_update Z.compare vpn new_frame (data_frames area);
               map_type := map_type area; map_perm := map_perm area |} (areas self)))
  else mret self.

(** [AddressSpace::remove_area]; the frames are dropped after the loop. *)
Definition remove_area (self : AddressSpace) (va : Z) : M St AddressSpace :=
  '((r, area), rest) ← lift (unwrap (bt_remove range_cmp (point va) (areas self)));
  vpns ← lift (vpn_range r);
  for_each vpns (unmap_one (page_table self)) ;;
  area_drop area ;;
  mret (with_areas self rest).

(** [AddressSpace::insert_framed_area] *)
Definition insert_framed_area (self : AddressSpace) (r : VARange) (perm : Z)
    (data : option (list Z)) : M St AddressSpace :=
  '(pt, area) ← pt_map (page_table self) r (new_area Framed perm) data;
  areas_insert (with_table self pt) r area.

(** [AddressSpace::insert_kernel_stack_area] *)
Definition insert_kernel_stack_area (self : AddressSpace) (r : VARange) : M St AddressSpace :=
  '(pt, area) ← pt_map (page_table self) r
                  (new_area KernelStack (Z.lor PTE_READABLE PTE_WRITABLE)) None;
  areas_insert (with_table self pt) r area.

(** [AddressSpace::alloc_user_area] *)
Fixpoint alloc_loop (keys : list VARange) (size va_end : Z) : exec Z :=
  match keys with
  | [] => Ok va_end
  | k :: keys =>
      guard ← uadd va_end PAGE_SIZE;
      if guard <=? r_start k then Ok va_end
      else
        e ← round_up (r_end k) PAGE_SIZE;
        e ← uadd e PAGE_SIZE;
        e ← uadd e size;
        alloc_loop keys size (Z.max va_end e)
  end.
Definition alloc_user_area (self : AddressSpace) (size : Z) : exec Z :=
  a ← uadd (data_segment_max self) PAGE_SIZE;
  va_end ← uadd a size;
  alloc_loop (areas self).*1 size va_end.

(** The loop of [brk] over the new pages. *)
Definition brk_page (vpn : Z) (st : PageTableImpl * MapArea) : M St (PageTableImpl * MapArea) :=
  map_new_frame false vpn st.
(** [AddressSpace::brk] *)
Definition brk (self : AddressSpace) (addr : Z) : M St (AddressSpace * Z) :=
  cur_end ← lift (round_up (data_segment_end self) PAGE_SIZE);
  if addr =? 0 then mret (self, as_isize cur_end)
  else if data_segment_max self <? addr then mret (self, -1)
  else
    '((r, area), rest) ←
      lift (unwrap (bt_remove range_cmp (point (data_segment_end self)) (areas self)));
    '(pt, area) ←
      (if cur_end <=? addr then
         vpns ← lift (vpn_range {| r_start := cur_end; r_end := addr |});
         for_pages vpns brk_page (page_table self, area)
       else mret (page_table self, area));
    let self := with_segment (with_areas (with_table self pt) rest) addr (data_segment_max self) in
    self ← areas_insert self {| r_start := r_start r; r_end := addr |} area;
    mret (self, as_isize addr).

(** ** Loading a program *)

Context {F : Type} `{!Stream F}.

(** [data[lo..hi]] panics outside [0 <= lo <= hi <= 4096]. *)
Definition slice_ok (lo hi : Z) : exec unit :=
  if (lo <=? hi) && (hi <=? 4096) then Ok tt else Panic OutOfBounds.

(** One page of a segment: the file's bytes from [start] on, then zeros. *)
Definition load_page (r : VARange) (bss_start perm : Z) (vpn : Z)
    (st : Z * PageTableImpl * MapArea * F) : M St (Z * PageTableImpl * MapArea * F) :=
  let '(start, pt, area, file) := st in
  o ← frame_alloc;
  frame ← lift (unwrap o);
  data ← lift (array_va frame);
  next ← lift (uadd vpn 1);
  let end1 := if addr_of_pn next <=? bss_start then 4096
              else if bss_start <=? addr_of_pn vpn then 0 else page_offset bss_start in
  let end2 := if addr_of_pn next <=? r_end r then 4096 else page_offset (r_end r) in
  lift (slice_ok start end1) ;;
  '(res, file) ← lift (read_exact (end1 - start) file);
  bytes ← lift (io_unwrap res);
  on_mem (store_bytes (data + start) bytes) ;;
  lift (slice_ok end1 end2) ;;
  on_mem (store_bytes (data + end1) (replicate (Z.to_nat (end2 - end1)) 0)) ;;
  pt ← map_one pt vpn frame perm;
  mret (0, pt, area_insert area vpn frame, file).

(** The permissions of a segment. *)
Definition segment_perm (ph : ProgramHeader) : Z :=
  flags_set (flags_set (flags_set PTE_USER PTE_READABLE (ph_read ph))
               PTE_WRITABLE (ph_write ph)) PTE_EXECUTABLE (ph_execute ph).

(** The loop over the segments. *)
Definition load_segment (ph : ProgramHeader) (st : AddressSpace * F) : M St (AddressSpace * F) :=
  let '(self, file) := st in
  if negb (ph_load ph) then mret (self, file)
  else
    end_ ← lift (uadd (ph_virtual_addr ph) (ph_mem_size ph));
    let r := {| r_start := ph_virtual_addr ph; r_end := end_ |} in
    bss_start ← lift (uadd (ph_virtual_addr ph) (ph_file_size ph));
    let perm := segment_perm ph in
    '(res, file) ← lift (s_seek (SeekStart (ph_offset ph)) file);
    lift (io_unwrap res) ;;
    vpns ← lift (vpn_range r);
    '(_, pt, area, file) ←
      for_pages vpns (load_page r bss_start perm)
        (page_offset (ph_virtual_addr ph), page_table self, new_area Framed perm, file);
    let self := with_segment (with_table self pt) end_ (data_segment_max self) in
    self ← areas_insert self r area;
    mret (self, file).

(** [AddressSpace::from_elf] *)
Definition from_elf (kernel_root : Z) (headers : list ProgramHeader) (file : F) :
    M St (AddressSpace * F) :=
  self ← new_kernel kernel_root;
  '(self, file) ← for_pages headers load_segment (self, file);
  e ← lift (round_up (data_segment_end self) PAGE_SIZE);
  m ← lift (uadd e BRK_MAX);
  mret (with_segment self (data_segment_end self) m, file).
End operations.

(** ** Placing an area *)

Section placing.
Context {C : Config} {Cok : ConfigOk C}.

Lemma round_up_in v : 0 ≤ v → v + 4096 < 2 ^ 64 →
  ∃ r, round_up v PAGE_SIZE = Ok r ∧ v ≤ r < v + 4096 ∧ r `mod` 4096 = 0.
Proof.
  intros Hv Hb. assert (∃ r, round_up v PAGE_SIZE = Ok r) as [r Hr].
  { rewrite PAGE_SIZE_eq. change 4096 with (2 ^ 12). eexists. by apply round_up_eq. }
  exists r. destruct (round_up_page _ _ Hv Hr) as (? & ? & _). done.
Qed.

(** A candidate end clears every area it has passed; the loop stops at the first
    gap that is large enough. *)
Lemma alloc_loop_spec B size keys : ∀ va,
  0 ≤ va ≤ B + 2 * 4096 + size → 0 ≤ size → size `mod` 4096 = 0 → va `mod` 4096 = 0 →
  B + size + 4 * 4096 < 2 ^ 64 → (∀ k, k ∈ keys → 0 ≤ r_end k ≤ B) →
  StronglySorted (λ k k', r_start k ≤ r_start k') keys →
  ∃ v, alloc_loop keys size va = Ok v ∧ va ≤ v ≤ B + 2 * 4096 + size ∧ v `mod` 4096 = 0 ∧
    ∀ k, k ∈ keys → r_end k + 4096 ≤ v - size ∨ v + 4096 ≤ r_start k.
Proof.
  induction keys as [|k keys IH]; intros va Hva Hs Hsm Hvm HB Hk Hsort; cbn [alloc_loop].
  { exists va. split_and!; [done|lia..|done|]. set_solver. }
  apply StronglySorted_inv in Hsort as [Hsort Hle]. rewrite Forall_forall in Hle.
  rewrite PAGE_SIZE_eq. arith.
  destruct (Z.leb_spec (va + 4096) (r_start k)) as [Hgap|Hgap].
  - exists va. split_and!; [done|lia..|done|]. intros k' [->|Hk']%elem_of_cons; [by right|].
    specialize (Hle _ Hk'). right. lia.
  - destruct (Hk k) as [He0 HeB]; [set_solver|].
    destruct (round_up_in (r_end k)) as (r & Hr & Hrb & Hrm); [lia..|].
    rewrite PAGE_SIZE_eq in Hr. rewrite Hr. cbn [mbind exec_bind]. do 2 arith.
    destruct (IH (Z.max va (r + 4096 + size))) as (v & Hv & Hvb & Hvm' & Hin); try done.
    + lia.
    + destruct (Z.max_spec va (r + 4096 + size)) as [[_ ->]|[_ ->]]; [|done].
      Z.div_mod_to_equations. lia.
    + intros k' Hk'. apply Hk. set_solver.
    + exists v. split_and!; [done|lia..|done|]. intros k' [->|Hk']%elem_of_cons; [|by apply Hin].
      left. lia.
Qed.

(** The region [v - size, v) that [alloc_user_area] returns is page aligned, lies
    above the heap, and keeps a guard page to every area of the space. *)
Theorem alloc_user_area_guarded (self : AddressSpace) (size B : Z) :
  0 ≤ size → size `mod` 4096 = 0 → B + size + 4 * 4096 < 2 ^ 64 →
  0 ≤ data_segment_max self ≤ B → data_segment_max self `mod` 4096 = 0 →
  (∀ k, k ∈ (areas self).*1 → 0 ≤ r_end k ≤ B) →
  StronglySorted (λ k k', r_start k ≤ r_start k') (areas self).*1 →
  ∃ v, alloc_user_area self size = Ok v ∧ v `mod` 4096 = 0 ∧
    data_segment_max self + 4096 ≤ v - size ∧ v ≤ B + 2 * 4096 + size ∧
    ∀ r a, (r, a) ∈ areas self → r_end r + 4096 ≤ v - size ∨ v + 4096 ≤ r_start r.
Proof.
  intros Hs Hsm HB Hd Hdm Hk Hsort. unfold alloc_user_area. rewrite PAGE_SIZE_eq.
  do 2 arith.
  destruct (alloc_loop_spec B size (areas self).*1 (data_segment_max self + 4096 + size))
    as (v & Hv & Hvb & Hvm & Hin); try done; [lia|Z.div_mod_to_equations; lia|].
  exists v. split_and!; [done..|lia|lia|]. intros r a Hr. apply Hin.
  apply list_elem_of_fmap. by exists (r, a).
Qed.
End placing.
