(* ===== verification/Cow.v ===== *)
(** * Copy-on-write

    [AddressSpace::new_kernel], [fork] and [handle_pagefault]
    (kernel/src/mm/address_space.rs) on a world of address spaces: what a fork
    shares, what a write fault copies, and that the processes do not see each
    other's writes. *)

From Stdlib Require Import Sorted.
From S2P Require Import Prelude Io Address Memory PhysPage Pte BTree PageTable PageMap World.
From S2P Require Import AddressSpace.

(** The pages of the device areas, mapped to themselves in every address space. *)
Definition mmio_vpns `{Config} : list Z :=
  flat_map (λ '(base, size), range (base `div` 4096) ((base + size + 4095) `div` 4096)) MMIO.

Class MmioOk (C : Config) : Prop := {
  mmio_bounds : ∀ base size, (base, size) ∈ MMIO → 0 ≤ base ∧ 0 < size ∧ base + size ≤ 2 ^ 37;
  mmio_nodup : NoDup mmio_vpns;
}.

Definition mmio_check `{Config} : bool :=
  forallb (λ '(base, size), (0 <=? base) && (0 <? size) && (base + size <=? 2 ^ 37)) MMIO.

Lemma mmio_check_ok {C : Config} : mmio_check = true → NoDup mmio_vpns → MmioOk C.
Proof.
  unfold mmio_check. rewrite forallb_forall. intros H Hnd. split; [|done].
  intros base size Hin. apply list_elem_of_In, H in Hin.
  rewrite !andb_true_iff, !Z.leb_le, Z.ltb_lt in Hin. lia.
Qed.

#[export] Instance k210_mmio_ok : MmioOk k210_config.
Proof. apply mmio_check_ok; [done|]. apply (bool_decide_unpack _). by vm_compute. Qed.
#[export] Instance qemu_mmio_ok : MmioOk qemu_config.
Proof. apply mmio_check_ok; [done|]. apply (bool_decide_unpack _). by vm_compute. Qed.

Section mapping.
Context {C : Config} {Cok : ConfigOk C} {St : Type} `{!FrameOps St, !FrameSource St}.
Implicit Types s : St.

(** Page numbers below 2^26 belong to the lower half, and their indexes are
    distinct. *)
Lemma top_of_low vpn : 0 ≤ vpn < 2 ^ 26 → low (top_of vpn).
Proof.
  intros H. unfold top_of, low. rewrite indexes_eq. cbn.
  rewrite Z.mod_small; [apply Z.div_lt_upper_bound; lia|].
  split; [apply Z.div_pos; lia|apply Z.div_lt_upper_bound; lia].
Qed.

Lemma indexes_inj_low v v' :
  0 ≤ v < 2 ^ 26 → 0 ≤ v' < 2 ^ 26 → indexes v = indexes v' → v = v'.
Proof. intros Hv Hv' H%indexes_inj_mod. rewrite !Z.mod_small in H by lia. done. Qed.

Lemma map_one_pstep s A pt vpn ppn flags :
  st_rep s A → pt_wf (st_words s) A (pt_root pt) →
  view (st_words s) (pt_root pt) (indexes vpn) = None → low (top_of vpn) →
  0 ≤ ppn < 2 ^ PTE_PPN_BITS → (2 ≤ length (f_free A))%nat →
  ∃ s' A' ns, map_one pt vpn ppn flags s =
      Ok ({| pt_root := pt_root pt; pt_frames := pt_frames pt ++ ns |}, s') ∧
    pstep low (pt_root pt)
      (set_view (indexes vpn) (Some (pte_new ppn (Z.lor flags PTE_VALID)))) ns [] s A s' A' ∧
    (length ns ≤ 2)%nat.
Proof.
  intros Hrep Hwf Hv Hlow Hp Hfree.
  destruct (map_one_eq s A pt vpn ppn flags Hrep Hwf Hv Hp Hfree) as (s' & A' & ns & Hs & G & Hn).
  exists s', A', ns. split_and!; [done| |done].
  eapply pstep_mono, grow_pstep, G. by intros i <-.
Qed.

Lemma remap_one_pstep s A pt vpn ppn flags w :
  st_rep s A → pt_wf (st_words s) A (pt_root pt) →
  view (st_words s) (pt_root pt) (indexes vpn) = Some w → low (top_of vpn) →
  0 ≤ ppn < 2 ^ PTE_PPN_BITS →
  ∃ s', remap_one pt vpn ppn flags s = Ok (tt, s') ∧
    pstep low (pt_root pt)
      (set_view (indexes vpn) (Some (pte_new ppn (Z.lor flags PTE_VALID)))) [] [] s A s' A.
Proof.
  intros Hrep Hwf Hv Hlow Hp.
  destruct (remap_one_eq s A pt vpn ppn flags w Hrep Hwf Hv Hp) as (s' & Hs & G).
  exists s'. split; [done|]. eapply pstep_mono, grow_pstep, G. by intros i <-.
Qed.

(** A loop of [map_one] over distinct unmapped pages. *)
Lemma map_list_spec flags (L : list Z) (ppn_of : Z → Z) : ∀ pt s A,
  st_rep s A → pt_wf (st_words s) A (pt_root pt) → NoDup (indexes <$> L) →
  (∀ v, v ∈ L → view (st_words s) (pt_root pt) (indexes v) = None ∧ low (top_of v) ∧
     0 ≤ ppn_of v < 2 ^ PTE_PPN_BITS) →
  (2 * length L ≤ length (f_free A))%nat →
  ∃ s' A' pt' ts f, for_pages L (λ v pt, map_one pt v (ppn_of v) flags) pt s = Ok (pt', s') ∧
    pt_root pt' = pt_root pt ∧ pstep low (pt_root pt) f ts [] s A s' A' ∧
    (length ts ≤ 2 * length L)%nat ∧ (∀ k v, k ∉ indexes <$> L → f k v = v).
Proof.
  induction L as [|v L IH]; intros pt s A Hrep Hwf Hnd HL Hfree.
  { exists s, A, pt, [], same_view. split_and!; try done. by apply pstep_refl. }
  rewrite fmap_cons in Hnd. apply NoDup_cons in Hnd as [Hnin Hnd]. cbn [length] in Hfree.
  destruct (HL v) as (Hv & Hlow & Hp); [set_solver|].
  destruct (map_one_pstep s A pt v (ppn_of v) flags Hrep Hwf Hv Hlow Hp ltac:(lia))
    as (s1 & A1 & ns & Hs1 & P1 & Hns).
  set (pt1 := {| pt_root := pt_root pt |}) in Hs1.
  destruct (p_free P1) as (l & Hl & Hperm). rewrite app_nil_r in Hperm.
  apply Permutation_length in Hperm. rewrite Hl, length_app in Hfree.
  destruct (IH pt1 s1 A1) as (s2 & A2 & pt2 & ts & f & Hs2 & Hr2 & P2 & Hts & Hf);
    [apply P1|apply P1|done| |lia|].
  { intros v' Hv'. destruct (HL v') as (Hv1 & ? & ?); [set_solver|]. split; [|done].
    cbn [pt_root pt1]. rewrite (p_view P1) by apply key_ok_indexes. unfold set_view.
    rewrite decide_False; [done|]. intros Heq. apply Hnin. rewrite <- Heq.
    by apply list_elem_of_fmap_2. }
  exists s2, A2, pt2, (ns ++ ts), (λ k w, f k (set_view (indexes v)
    (Some (pte_new (ppn_of v) (Z.lor flags PTE_VALID))) k w)). split_and!.
  - cbn [for_pages]. run Hs1. exact Hs2.
  - by rewrite Hr2.
  - by apply (pstep_trans _ _ _ _ ns ts [] [] _ _ s1 A1).
  - rewrite length_app. cbn [length]. lia.
  - intros k w Hk. rewrite fmap_cons, not_elem_of_cons in Hk. destruct Hk as [Hk1 Hk2].
    cbv beta. rewrite Hf by done. unfold set_view. by rewrite decide_False.
Qed.
End mapping.

Section devices.
Context {C : Config} {Cok : ConfigOk C} {Mok : MmioOk C} {St : Type} `{!FrameOps St, !FrameSource St}.
Implicit Types s : St.

Definition device_vpns (l : list (Z * Z)) : list Z :=
  flat_map (λ '(base, size), range (base `div` 4096) ((base + size + 4095) `div` 4096)) l.

Lemma device_vpns_low l v :
  (∀ base size, (base, size) ∈ l → 0 ≤ base ∧ 0 < size ∧ base + size ≤ 2 ^ 37) →
  v ∈ device_vpns l → 0 ≤ v < 2 ^ 26.
Proof.
  unfold device_vpns. intros Hl. rewrite list_elem_of_In, in_flat_map.
  intros ([base size] & Hin & Hv). apply list_elem_of_In in Hin. apply list_elem_of_In in Hv.
  apply Hl in Hin. apply elem_of_range in Hv as [Hv1 Hv2]. split.
  - etransitivity; [|exact Hv1]. apply Z.div_pos; lia.
  - eapply Z.lt_le_trans; [exact Hv2|]. apply Z.div_le_upper_bound; lia.
Qed.

(** The loop over the device areas. *)
Lemma map_devices_spec perm l : ∀ pt s A,
  (∀ base size, (base, size) ∈ l → 0 ≤ base ∧ 0 < size ∧ base + size ≤ 2 ^ 37) →
  NoDup (device_vpns l) → st_rep s A → pt_wf (st_words s) A (pt_root pt) →
  (∀ v, v ∈ device_vpns l → view (st_words s) (pt_root pt) (indexes v) = None) →
  (2 * length (device_vpns l) ≤ length (f_free A))%nat →
  ∃ s' A' pt' ts f,
    map_ranges Device ((λ '(base, size), ({| r_start := base; r_end := base + size |}, perm)) <$> l) pt s =
      Ok (pt', s') ∧
    pt_root pt' = pt_root pt ∧ pstep low (pt_root pt) f ts [] s A s' A' ∧
    (length ts ≤ 2 * length (device_vpns l))%nat ∧
    (∀ k v, k ∉ indexes <$> device_vpns l → f k v = v).
Proof.
  induction l as [|[base size] l IH]; intros pt s A Hl Hnd Hrep Hwf Hv Hfree.
  { exists s, A, pt, [], same_view. split_and!; try done. by apply pstep_refl. }
  set (r := range (base `div` 4096) ((base + size + 4095) `div` 4096)).
  change (device_vpns ((base, size) :: l)) with (r ++ device_vpns l) in *.
  rewrite length_app in Hfree |- *. apply NoDup_app in Hnd as (Hndr & Hdis & Hndl).
  destruct (Hl base size) as (Hb & Hsz & Hbd); [set_solver|].
  assert (∀ v, v ∈ r ++ device_vpns l → 0 ≤ v < 2 ^ 26) as Hlow
    by (intros v Hv'; by apply (device_vpns_low ((base, size) :: l))).
  assert (NoDup (indexes <$> r)) as Hndr'.
  { apply NoDup_indexes_range. assert ((base + size + 4095) `div` 4096 ≤ 2 ^ 26).
    { apply Z.div_le_upper_bound; lia. }
    assert (0 ≤ base `div` 4096) by (apply Z.div_pos; lia). lia. }
  destruct (map_list_spec perm r (λ v, v) pt s A Hrep Hwf Hndr')
    as (s1 & A1 & pt1 & ts1 & f1 & Hs1 & Hr1 & P1 & Hts1 & Hf1).
  { intros v Hin. split; [apply Hv; set_solver|split; [apply top_of_low, Hlow; set_solver|]].
    apply ppn_bound26, Hlow. set_solver. }
  { lia. }
  destruct (p_free P1) as (l1 & Hl1 & Hperm). rewrite app_nil_r in Hperm.
  apply Permutation_length in Hperm. rewrite Hl1, length_app in Hfree.
  destruct (IH pt1 s1 A1) as (s2 & A2 & pt2 & ts2 & f2 & Hs2 & Hr2 & P2 & Hts2 & Hf2);
    [set_solver|done|apply P1|rewrite Hr1; apply P1| |lia|].
  { intros v Hin. rewrite Hr1, (p_view P1) by apply key_ok_indexes. rewrite Hf1.
    - apply Hv. set_solver.
    - intros (v' & Heq & Hin')%list_elem_of_fmap. apply indexes_inj_low in Heq as ->;
        [by apply (Hdis v')|apply Hlow; set_solver..]. }
  rewrite Hr1 in P2, Hr2.
  exists s2, A2, pt2, (ts1 ++ ts2), (λ k w, f2 k (f1 k w)). split_and!.
  - rewrite fmap_cons. cbn [map_ranges]. unfold pt_map. cbn [new_area map_type map_perm].
    rewrite M_bind_assoc.
    assert (vpn_range {| r_start := base; r_end := base + size |} = Ok r) as ->.
    { apply vpn_range_Ok. cbn. split_and!; [lia..|done]. }
    run_refl. rewrite M_bind_assoc. run Hs1. run_refl. exact Hs2.
  - done.
  - by apply (pstep_trans _ _ _ _ ts1 ts2 [] [] _ _ s1 A1).
  - rewrite length_app. lia.
  - intros k w Hk. rewrite fmap_app, not_elem_of_app in Hk. destruct Hk as [Hk1 Hk2].
    cbv beta. rewrite Hf2 by done. by apply Hf1.
Qed.

(** [AddressSpace::new_kernel]: below the kernel half only the devices are
    mapped. *)
Lemma new_kernel_spec Rs s A K :
  world Rs s A → K ∈ Rs → (1 + 2 * length mmio_vpns ≤ length (f_free A))%nat →
  ∃ s' A' self ns, new_kernel K s = Ok (self, s') ∧
    let q := pt_root (page_table self) in
    world (q :: Rs) s' A' ∧ wstep Rs (q :: ns) s A s' A' ∧ (q ∉ Rs) ∧ areas self = [] ∧
    (length ns ≤ 2 * length mmio_vpns)%nat ∧
    (∀ R k, R ∈ Rs → key_ok k → view (st_words s') R k = view (st_words s) R k) ∧
    (∀ k, key_ok k → k ∉ indexes <$> mmio_vpns → view (st_words s') q k =
       if decide (k.1.1 < 256) then None else view (st_words s) K k) ∧
    (∀ x, is_table (st_words s') q x → x ∈ q :: ns ∨ is_table (st_words s) K x).
Proof.
  intros W HK Hfree.
  destruct (pt_new_kernel_world Rs s A K W HK) as (s1 & A1 & q & Hs1 & W1 & S1 & Hq & Hv1 & Hvq & Htq & Ht1).
  { intros Hn. rewrite Hn in Hfree. cbn in Hfree. lia. }
  set (pt1 := {| pt_root := q |}) in Hs1.
  destruct (w_free _ _ _ _ _ _ S1) as (l1 & Hl1 & Hp1). apply Permutation_length in Hp1.
  rewrite Hl1, length_app in Hfree. cbn [length] in Hp1.
  destruct (map_devices_spec (Z.lor PTE_READABLE PTE_WRITABLE) MMIO pt1 s1 A1)
    as (s2 & A2 & pt2 & ts & f & Hs2 & Hr2 & P2 & Hts & Hf).
  - apply mmio_bounds.
  - apply mmio_nodup.
  - apply W1.
  - apply (w_wf _ _ _ W1). set_solver.
  - intros v Hin. cbn [pt_root pt1]. rewrite Hvq by apply key_ok_indexes. apply decide_True.
    apply top_of_low. eapply device_vpns_low; [apply mmio_bounds|done].
  - change (device_vpns MMIO) with mmio_vpns. lia.
  - change (device_vpns MMIO) with mmio_vpns in *. cbn [pt_root pt1] in *.
    destruct (world_step (q :: Rs) q f ts [] s1 A1 s2 A2 W1) as (S2 & Hv2 & Hv2' & _); [set_solver|done|].
    rewrite app_nil_r in S2.
    exists s2, A2, {| page_table := pt2; areas := []; data_segment_end := 1; data_segment_max := 1 |}, ts.
    cbn [page_table areas]. rewrite Hr2. split_and!; try done.
    + unfold new_kernel. run Hs1. unfold mmio_ranges. run Hs2. done.
    + apply S2.
    + eapply wstep_join; [done..|]. intros x Hx. destruct (Htq x Hx) as [->|HxK]; [by left|].
      right. exists K. split; [done|]. by apply Ht1.
    + intros R k HR Hk. rewrite Hv2', Hv1; try done; set_solver.
    + intros k Hk Hn. rewrite Hv2, Hvq, Hf by done. done.
    + intros x Hx. apply (p_table P2) in Hx as [?|Hx]; [left; set_solver|].
      destruct (Htq x Hx) as [->|?]; [left; set_solver|by right].
Qed.
End devices.

(** ** Fork *)

(** The pages an address space holds frames for. *)
Definition all_frames (l : list (VARange * MapArea)) : list (Z * Z) :=
  flat_map (λ e, data_frames e.2) l.

Lemma elem_of_all_frames l e :
  e ∈ all_frames l ↔ ∃ r a, (r, a) ∈ l ∧ e ∈ data_frames a.
Proof.
  unfold all_frames. rewrite list_elem_of_In, in_flat_map. setoid_rewrite <- list_elem_of_In.
  split; [intros ([r a] & ? & ?); by exists r, a|intros (r & a & ? & ?); by exists (r, a)].
Qed.

(** Areas in the order of their keys: each is strictly after those before it. *)
Definition areas_sorted : list (VARange * MapArea) → Prop :=
  StronglySorted (λ e1 e2, range_cmp e2.1 e1.1 = Gt).

Section fork.
Context {C : Config} {Cok : ConfigOk C} {Mok : MmioOk C} {St : Type} `{!FrameOps St, !FrameSource St}.
Implicit Types (s : St) (Rs : list Z).

(** Cloning the frames of an area. *)
Lemma clone_list_spec Rs (L : list (Z * Z)) : ∀ s A,
  world Rs s A → NoDup L.*2 →
  (∀ p, p ∈ L.*2 → ∃ c, f_rc A !! p = Some c ∧ 0 < c < 2 ^ 64 - 1) →
  ∃ s' A', for_each L (λ e, frame_clone e.2) s = Ok (tt, s') ∧ world Rs s' A' ∧
    f_free A' = f_free A ∧ same_held A s s' ∧
    (∀ x, f_rc A' !! x = if decide (x ∈ L.*2) then Z.succ <$> f_rc A !! x else f_rc A !! x) ∧
    (∀ R k, R ∈ Rs → key_ok k → view (st_words s') R k = view (st_words s) R k) ∧
    (∀ R x, R ∈ Rs → is_table (st_words s') R x ↔ is_table (st_words s) R x).
Proof.
  induction L as [|[v p] L IH]; intros s A W Hnd HL.
  { by exists s, A. }
  cbn [fmap list_fmap snd] in Hnd. apply NoDup_cons in Hnd as [Hp Hnd].
  destruct (HL p) as (c & Hc & Hcb); [cbn; set_solver|].
  destruct (frame_clone_ok s A p c (w_rep _ _ _ W) Hc Hcb) as (s1 & Hs1 & Hrep1 & Hsame1).
  assert (∀ x, held A x → held (frames_clone p c A) x) as Hmono.
  { intros x (cx & Hcx & ?). unfold held, frames_clone. cbn. destruct (decide (p = x)) as [<-|].
    - exists (c + 1). rewrite lookup_insert_eq. split; [done|lia].
    - exists cx. by rewrite lookup_insert_ne. }
  destruct (world_counts Rs s A s1 (frames_clone p c A) W Hrep1 Hmono) as (W1 & Hv1 & Ht1 & _).
  { intros R x j HR Hx. apply Hsame1. by eapply world_table_held. }
  destruct (IH s1 (frames_clone p c A) W1 Hnd) as (s2 & A2 & Hs2 & W2 & Hf2 & Hsame2 & Hrc2 & Hv2 & Ht2).
  { intros q Hq. destruct (HL q) as (cq & Hcq & ?); [cbn; set_solver|]. exists cq. split; [|done].
    cbn. rewrite lookup_insert_ne; [done|by intros ->]. }
  exists s2, A2. split_and!; try done.
  - cbn [for_each]. run Hs1. exact Hs2.
  - intros x j Hx Hj. rewrite Hsame2, Hsame1; try done. by apply Hmono.
  - intros x. rewrite Hrc2. cbn [frames_clone f_rc fmap list_fmap snd]. rewrite lookup_insert.
    destruct (decide (x ∈ L.*2)) as [Hx|Hx].
    + rewrite (decide_True (P := x ∈ p :: L.*2)) by set_solver.
      rewrite decide_False; [done|by intros ->].
    + case_decide as Hpx.
      * subst x. rewrite decide_True by set_solver. by rewrite Hc.
      * rewrite decide_False; [done|set_solver].
  - intros R k HR Hk. by rewrite Hv2, Hv1.
  - intros R x HR. by rewrite Ht2, Ht1.
Qed.

(** The pages of one area: mapped in the child, and in the parent when they become
    copy-on-write. *)
Lemma fork_pages_spec Rs P cow flags (L : list (Z * Z)) : ∀ child s A,
  let Q := pt_root child in
  world Rs s A → pt_root P ∈ Rs → Q ∈ Rs → pt_root P ≠ Q → NoDup (indexes <$> L.*1) →
  (∀ v p, (v, p) ∈ L → low (top_of v) ∧ held A p ∧
     (∃ w, view (st_words s) (pt_root P) (indexes v) = Some w) ∧
     view (st_words s) Q (indexes v) = None) →
  (2 * length L ≤ length (f_free A))%nat →
  ∃ s' A' child' ns, for_pages L (fork_page cow flags P) child s = Ok (child', s') ∧
    pt_root child' = Q ∧ wstep Rs ns s A s' A' ∧ (length ns ≤ 2 * length L)%nat ∧
    (∀ k, key_ok k → view (st_words s') Q k = set_views flags L k (view (st_words s) Q k)) ∧
    (∀ k, key_ok k → view (st_words s') (pt_root P) k =
       if cow then set_views flags L k (view (st_words s) (pt_root P) k)
       else view (st_words s) (pt_root P) k) ∧
    (∀ R k, R ∈ Rs → R ≠ pt_root P → R ≠ Q → key_ok k →
       view (st_words s') R k = view (st_words s) R k).
Proof.
  induction L as [|[v p] L IH]; intros child s A Q W HP HQ Hne Hnd HL Hfree.
  { exists s, A, child, []. split_and!; try done; [by apply wstep_refl|]. by destruct cow. }
  cbn [fmap list_fmap fst] in Hnd. apply NoDup_cons in Hnd as [Hnin Hnd]. cbn [length] in Hfree.
  destruct (HL v p) as (Hlow & Hp & (w & Hw) & Hv); [set_solver|].
  assert (0 ≤ p < 2 ^ PTE_PPN_BITS) as Hpb by (eapply held_ppn; [apply W|done]).
  destruct (map_one_pstep s A child v p flags (w_rep _ _ _ W) (w_wf _ _ _ W Q HQ) Hv Hlow Hpb ltac:(lia))
    as (s1 & A1 & ns1 & Hs1 & P1 & Hns1).
  set (child1 := {| pt_root := pt_root child |}) in Hs1.
  destruct (world_step Rs Q _ _ _ _ _ _ _ W HQ P1) as (S1 & HvQ1 & Hv1 & _). rewrite app_nil_r in S1.
  pose proof (w_world _ _ _ _ _ _ S1) as W1.
  (* the parent *)
  assert (∃ s2, (if cow then remap_one P v p flags else mret tt) s1 = Ok (tt, s2) ∧
    wstep Rs [] s1 A1 s2 A1 ∧
    (∀ k, key_ok k → view (st_words s2) (pt_root P) k =
      if cow then set_view (indexes v) (Some (pte_new p (Z.lor flags PTE_VALID))) k
        (view (st_words s1) (pt_root P) k) else view (st_words s1) (pt_root P) k) ∧
    (∀ R k, R ∈ Rs → R ≠ pt_root P → key_ok k → view (st_words s2) R k = view (st_words s1) R k))
    as (s2 & Hs2 & S2 & HvP2 & Hv2).
  { destruct cow; [|exists s1; split_and!; try done; by apply wstep_refl].
    destruct (remap_one_pstep s1 A1 P v p flags w (w_rep _ _ _ W1) (w_wf _ _ _ W1 _ HP))
      as (s2 & Hs2 & P2); [|done|done|].
    { rewrite Hv1 by (done || apply key_ok_indexes). done. }
    exists s2. destruct (world_step Rs (pt_root P) _ _ _ _ _ _ _ W1 HP P2) as (S2 & ? & ? & _). done. }
  pose proof (wstep_trans _ _ _ _ _ _ _ _ _ W S1 S2) as S12. rewrite app_nil_r in S12.
  assert (2 * length L ≤ length (f_free A1))%nat as Hfree1.
  { destruct (w_free _ _ _ _ _ _ S1) as (l & Hl & Hperm). apply Permutation_length in Hperm.
    rewrite Hl, length_app in Hfree. lia. }
  destruct (IH child1 s2 A1) as (s3 & A3 & child3 & ns3 & Hs3 & Hr3 & S3 & Hns3 & HvQ3 & HvP3 & Hv3);
    [apply S2|done|done|done|done| |done|].
  { intros v' p' Hin. destruct (HL v' p') as (? & Hp' & (w' & Hw') & Hv'); [set_solver|].
    assert (indexes v' ≠ indexes v) as Hvv.
    { intros Heq. apply Hnin. rewrite <- Heq. apply list_elem_of_fmap_2.
      apply (list_elem_of_fmap_2 fst L (v', p')). done. }
    split; [done|]. split; [by eapply (wstep_held Rs _ s A s2 A1)|]. split.
    - exists w'. rewrite HvP2 by apply key_ok_indexes. unfold set_view. rewrite decide_False by done.
      rewrite Hv1 by (done || apply key_ok_indexes). by destruct cow.
    - cbn [child1 pt_root]. rewrite Hv2, HvQ1 by (done || apply key_ok_indexes). unfold set_view.
      by rewrite decide_False. }
  exists s3, A3, child3, (ns1 ++ ns3). cbn [child1 pt_root] in Hr3, HvQ3, Hv3. split_and!.
  - assert (fork_page cow flags P (v, p) child s = Ok (child1, s2)) as Hpage.
    { unfold fork_page. cbn [fst snd]. run Hs1. by run Hs2. }
    cbn [for_pages]. run Hpage. exact Hs3.
  - done.
  - by eapply wstep_trans.
  - rewrite length_app. cbn [length]. lia.
  - intros k Hk. rewrite HvQ3, Hv2, HvQ1 by done. done.
  - intros k Hk. rewrite HvP3, HvP2, Hv1 by done. by destruct cow.
  - intros R k HR HRP HRQ Hk. rewrite Hv3, Hv2, Hv1 by done. done.
Qed.

(** What forking the areas [l] of the space at [P] into the space at [Q] does. *)
Record forked Rs (P Q : Z) (l : list (VARange * MapArea)) (ns : list Z)
    (s : St) (A : frames) (s' : St) (A' : frames) : Prop := {
  fk_world : world Rs s' A';
  fk_free : ∃ fr, f_free A = fr ++ f_free A' ∧ fr ≡ₚ ns;
  fk_new : ∀ x, x ∈ ns → f_rc A' !! x = Some 1;
  fk_rc : ∀ x, x ∉ ns → f_rc A' !! x =
    if decide (x ∈ (all_frames l).*2) then Z.succ <$> f_rc A !! x else f_rc A !! x;
  fk_child : ∀ r a v p, (r, a) ∈ l → (v, p) ∈ data_frames a →
    view (st_words s') Q (indexes v) = Some (pte_new p (Z.lor (fork_flags a) PTE_VALID));
  fk_parent : ∀ r a v p, (r, a) ∈ l → (v, p) ∈ data_frames a →
    view (st_words s') P (indexes v) =
    if area_cow a then Some (pte_new p (Z.lor (fork_flags a) PTE_VALID))
    else view (st_words s) P (indexes v);
  fk_view : ∀ R k, R ∈ Rs → key_ok k → R ≠ P ∧ R ≠ Q ∨ k ∉ indexes <$> (all_frames l).*1 →
    view (st_words s') R k = view (st_words s) R k;
  fk_table : ∀ R x, R ∈ Rs → is_table (st_words s') R x → x ∈ ns ∨ is_table (st_words s) R x;
  fk_same : ∀ x j, held A x → (∀ R, R ∈ Rs → ¬ is_table (st_words s) R x) → idx_ok j →
    st_words s' !! (page_va x + 8 * j) = st_words s !! (page_va x + 8 * j);
}.

Lemma all_frames_cons r a l : all_frames ((r, a) :: l) = data_frames a ++ all_frames l.
Proof. done. Qed.

Lemma set_views_in flags (L : list (Z * Z)) v p w :
  NoDup (indexes <$> L.*1) → (v, p) ∈ L →
  set_views flags L (indexes v) w = Some (pte_new p (Z.lor flags PTE_VALID)).
Proof.
  intros Hnd [i Hi]%list_elem_of_lookup. rewrite <- (zip_fst_snd L).
  eapply (set_views_get _ _ _ i); [done|by rewrite list_lookup_fmap, Hi..].
Qed.

Lemma set_views_notin flags (L : list (Z * Z)) k w :
  k ∉ indexes <$> L.*1 → set_views flags L k w = w.
Proof. intros Hk. rewrite <- (zip_fst_snd L). by apply set_views_out. Qed.

Lemma key_in (L : list (Z * Z)) v p : (v, p) ∈ L → indexes v ∈ indexes <$> L.*1.
Proof. intros H. apply list_elem_of_fmap_2. by apply (list_elem_of_fmap_2 fst L (v, p)). Qed.

Lemma bt_append r (m : list (VARange * MapArea)) v :
  passes range_cmp r m →
  bt_get range_cmp r m = None ∧ bt_insert range_cmp r v m = m ++ [(r, v)].
Proof.
  intros Hp. split.
  - unfold bt_get. induction Hp as [|[k x] m H _ IH]; [done|]. cbn in *. by rewrite H.
  - rewrite <- (app_nil_r m) at 1. by apply bt_insert_at.
Qed.

(** One area. *)
Lemma fork_area_spec Rs P r a new_as s A :
  let Q := pt_root (page_table new_as) in let L := data_frames a in
  world Rs s A → pt_root P ∈ Rs → Q ∈ Rs → pt_root P ≠ Q →
  NoDup (indexes <$> L.*1) → NoDup L.*2 →
  (∀ v p, (v, p) ∈ L → low (top_of v) ∧ (∃ c, f_rc A !! p = Some c ∧ 0 < c < 2 ^ 64 - 1) ∧
     (∃ w, view (st_words s) (pt_root P) (indexes v) = Some w) ∧
     view (st_words s) Q (indexes v) = None) →
  passes range_cmp r (areas new_as) → (2 * length L ≤ length (f_free A))%nat →
  ∃ s' A' self' ns, fork_area P (r, a) new_as s = Ok (self', s') ∧
    pt_root (page_table self') = Q ∧ areas self' = areas new_as ++ [(r, a)] ∧
    forked Rs (pt_root P) Q [(r, a)] ns s A s' A' ∧ (length ns ≤ 2 * length L)%nat.
Proof.
  intros Q L W HP HQ Hne Hnd1 Hnd2 HL Hpass Hfree.
  destruct (fork_pages_spec Rs P (area_cow a) (fork_flags a) L (page_table new_as) s A)
    as (s1 & A1 & child & ns & Hs1 & Hr1 & S1 & Hns & HvQ & HvP & Hv1); try done.
  { intros v p Hin. destruct (HL v p Hin) as (? & (c & ? & ?) & ? & ?). split_and!; try done.
    exists c. split; [done|lia]. }
  assert (∀ p, p ∈ L.*2 → held A p) as Hheld.
  { intros p ([v p'] & -> & Hin)%list_elem_of_fmap. destruct (HL v p' Hin) as (_ & (c & Hc & ?) & _).
    exists c. split; [done|lia]. }
  assert (∀ p, p ∈ L.*2 → p ∉ ns) as Hdis by (intros p Hp; by eapply wstep_held, Hheld).
  destruct (clone_list_spec Rs L s1 A1) as (s2 & A2 & Hs2 & W2 & Hf2 & Hsame2 & Hrc2 & Hv2 & Ht2);
    [apply S1|done| |].
  { intros p Hp. pose proof Hp as ([v p'] & -> & Hin)%list_elem_of_fmap. cbn in *.
    destruct (HL v p' Hin) as (_ & (c & Hc & ?) & _). exists c.
    rewrite (w_rc _ _ _ _ _ _ S1); [done|by apply Hdis]. }
  destruct (bt_append r (areas new_as) a Hpass) as [Hget Hins].
  exists s2, A2, (with_areas (with_table new_as child) (areas new_as ++ [(r, a)])), ns.
  assert (all_frames [(r, a)] = L) as Hall by apply app_nil_r.
  split_and!; try done.
  - unfold fork_area. run Hs1. unfold area_clone. rewrite M_bind_assoc. run Hs2. run_refl.
    unfold areas_insert. cbn [with_table areas]. rewrite Hget. run_refl. by rewrite Hins.
  - split.
    + done.
    + rewrite Hf2. apply S1.
    + intros x Hx. rewrite Hrc2, decide_False; [by apply S1|]. intros Hp. by apply (Hdis x).
    + intros x Hx. rewrite Hrc2, Hall. by rewrite (w_rc _ _ _ _ _ _ S1).
    + intros r' a' v p [= -> ->]%list_elem_of_singleton Hin.
      rewrite Hv2, HvQ by (done || apply key_ok_indexes). by apply set_views_in.
    + intros r' a' v p [= -> ->]%list_elem_of_singleton Hin.
      rewrite Hv2, HvP by (done || apply key_ok_indexes). destruct (area_cow a); [|done].
      by apply set_views_in.
    + rewrite Hall. intros R k HR Hk Hor. rewrite Hv2 by done.
      destruct (decide (R = pt_root P)) as [->|].
      { destruct Hor as [[? ?]|?]; [done|]. rewrite HvP by done.
        destruct (area_cow a); [by apply set_views_notin|done]. }
      destruct (decide (R = Q)) as [->|]; [|by apply Hv1].
      destruct Hor as [[? ?]|?]; [done|]. rewrite HvQ by done. by apply set_views_notin.
    + intros R x HR Hx. apply Ht2 in Hx; [|done]. by apply (w_table _ _ _ _ _ _ S1).
    + intros x j Hx Hn Hj. rewrite Hsame2; [by apply S1| |done].
      by destruct (wstep_held _ _ _ _ _ _ x W S1 Hx).
Qed.

Lemma forked_held Rs P Q l ns s A s' A' x :
  world Rs s A → forked Rs P Q l ns s A s' A' → held A x → held A' x ∧ x ∉ ns.
Proof.
  intros W F Hx. destruct (fk_free _ _ _ _ _ _ _ _ _ F) as (fr & Hf & Hl).
  assert (x ∉ ns) as Hn.
  { intros Hn. assert (frames_ok A) by (eapply st_rep_ok, W). by eapply (taken_not_held A A' fr ns x). }
  split; [|done]. destruct Hx as (c & Hc & ?). unfold held. rewrite (fk_rc _ _ _ _ _ _ _ _ _ F) by done.
  rewrite Hc. case_decide; cbn; eexists; (split; [done|lia]).
Qed.

(** Forking one area and then the others. *)
Lemma forked_cons Rs P Q r a l ns1 ns2 s A s1 A1 s2 A2 :
  world Rs s A → P ∈ Rs → Q ∈ Rs →
  (∀ x, x ∈ (data_frames a).*2 → x ∉ (all_frames l).*2) →
  (∀ k, k ∈ indexes <$> (data_frames a).*1 → k ∉ indexes <$> (all_frames l).*1) →
  (∀ p, p ∈ (all_frames l).*2 → held A p) → (∀ p, p ∈ (data_frames a).*2 → held A p) →
  forked Rs P Q [(r, a)] ns1 s A s1 A1 → forked Rs P Q l ns2 s1 A1 s2 A2 →
  forked Rs P Q ((r, a) :: l) (ns1 ++ ns2) s A s2 A2.
Proof.
  intros W HP HQ Hdisp Hdisk Hhl Hha F1 F2.
  assert (NoDup (f_free A)) as Hnd by (by destruct (st_rep_ok _ _ (w_rep _ _ _ W))).
  assert (∀ x, held A x → held A1 x ∧ x ∉ ns1) as Hh by (intros; by eapply forked_held).
  destruct F1 as [W1 (l1 & Hf1 & Hl1) Hn1 Hr1 Hc1 Hp1 Hv1 Ht1 Hs1],
    F2 as [W2 (l2 & Hf2 & Hl2) Hn2 Hr2 Hc2 Hp2 Hv2 Ht2 Hs2].
  assert (all_frames [(r, a)] = data_frames a) as Hall by apply app_nil_r.
  rewrite Hall in *.
  assert (∀ x, x ∈ ns1 → x ∉ ns2) as Hdisj.
  { intros x. rewrite <- Hl1, <- Hl2. rewrite Hf1, Hf2 in Hnd.
    apply NoDup_app in Hnd as (_ & Hd & _). intros Hx Hx2. apply (Hd x Hx). set_solver. }
  split; try done.
  - exists (l1 ++ l2). rewrite Hf1, Hf2, <- app_assoc. split; [done|]. by rewrite Hl1, Hl2.
  - intros x [Hx|Hx]%elem_of_app; [|by apply Hn2]. rewrite Hr2 by (by apply Hdisj).
    rewrite decide_False; [by apply Hn1|]. intros Hxl%Hhl. by apply (Hh x).
  - intros x Hx. rewrite all_frames_cons, fmap_app. rewrite Hr2, Hr1 by set_solver.
    destruct (decide (x ∈ (all_frames l).*2)) as [Hxl|Hxl].
    + rewrite decide_False by naive_solver. by rewrite decide_True by set_solver.
    + destruct (decide (x ∈ (data_frames a).*2)).
      * by rewrite decide_True by set_solver.
      * by rewrite decide_False by set_solver.
  - intros r' a' v p [[= -> ->]|Hin]%elem_of_cons Hvp; [|by eapply Hc2].
    rewrite Hv2; [eapply (Hc1 r a); [set_solver|done]|done|apply key_ok_indexes|].
    right. apply Hdisk. by eapply key_in.
  - intros r' a' v p [[= -> ->]|Hin]%elem_of_cons Hvp.
    + rewrite Hv2; [eapply (Hp1 r a); [set_solver|done]|done|apply key_ok_indexes|].
      right. apply Hdisk. by eapply key_in.
    + rewrite (Hp2 _ _ _ _ Hin Hvp). destruct (area_cow a'); [done|].
      apply Hv1; [done|apply key_ok_indexes|]. right. intros Hk. apply (Hdisk _ Hk).
      eapply key_in, elem_of_all_frames. by exists r', a'.
  - intros R k HR Hk Hor. rewrite all_frames_cons, !fmap_app, not_elem_of_app in Hor.
    rewrite Hv2, Hv1; [done|done|done|tauto..|done|done|tauto].
  - intros R x HR Hx. destruct (Ht2 R x HR Hx) as [?|Hx1]; [set_solver|].
    destruct (Ht1 R x HR Hx1); set_solver.
  - intros x j Hx Hn Hj. destruct (Hh x Hx) as [Hx1 Hx2]. rewrite Hs2, Hs1; try done.
    intros R HR Ht. destruct (Ht1 R x HR Ht); [done|by apply (Hn R)].
Qed.

(** The loop over the areas. *)
Lemma fork_areas_spec Rs P l : ∀ new_as s A,
  let Q := pt_root (page_table new_as) in
  world Rs s A → pt_root P ∈ Rs → Q ∈ Rs → pt_root P ≠ Q →
  NoDup (indexes <$> (all_frames l).*1) → NoDup (all_frames l).*2 →
  (∀ v p, (v, p) ∈ all_frames l → low (top_of v) ∧ (∃ c, f_rc A !! p = Some c ∧ 0 < c < 2 ^ 64 - 1) ∧
     (∃ w, view (st_words s) (pt_root P) (indexes v) = Some w) ∧
     view (st_words s) Q (indexes v) = None) →
  areas_sorted l → (∀ e, e ∈ l → passes range_cmp e.1 (areas new_as)) →
  (2 * length (all_frames l) ≤ length (f_free A))%nat →
  ∃ s' A' self' ns, for_pages l (fork_area P) new_as s = Ok (self', s') ∧
    pt_root (page_table self') = Q ∧ areas self' = areas new_as ++ l ∧
    forked Rs (pt_root P) Q l ns s A s' A' ∧ (length ns ≤ 2 * length (all_frames l))%nat.
Proof.
  induction l as [|[r a] l IH]; intros new_as s A Q W HP HQ Hne Hnd1 Hnd2 HL Hsort Hpass Hfree.
  { exists s, A, new_as, []. rewrite app_nil_r. split_and!; try done.
    split; try done; [by exists []|set_solver..|by right]. }
  rewrite all_frames_cons in *. rewrite !fmap_app in Hnd1. rewrite fmap_app in Hnd2.
  rewrite length_app in Hfree. apply NoDup_app in Hnd1 as (Hnda & Hdisk & Hndl).
  apply NoDup_app in Hnd2 as (Hnda2 & Hdisp & Hndl2).
  apply StronglySorted_inv in Hsort as [Hsort Hgt]. rewrite Forall_forall in Hgt.
  destruct (fork_area_spec Rs P r a new_as s A) as (s1 & A1 & as1 & ns1 & Hs1 & Hr1 & Ha1 & F1 & Hn1);
    try done; [intros v p Hin; apply HL; set_solver|apply (Hpass (r, a)); set_solver|lia|].
  pose proof (fk_world _ _ _ _ _ _ _ _ _ F1) as W1.
  destruct (fk_free _ _ _ _ _ _ _ _ _ F1) as (fr1 & Hf1 & Hl1).
  pose proof (Permutation_length Hl1) as Hlen1. rewrite Hf1, length_app in Hfree.
  assert (all_frames [(r, a)] = data_frames a) as Hall by apply app_nil_r.
  assert (∀ v p, (v, p) ∈ all_frames l → indexes v ∉ indexes <$> (data_frames a).*1) as Hnk.
  { intros v p Hin Hk. apply (Hdisk _ Hk). by eapply key_in. }
  assert (∀ v p, (v, p) ∈ all_frames l → p ∉ (data_frames a).*2) as Hnp.
  { intros v p Hin Hk. apply (Hdisp _ Hk). by apply (list_elem_of_fmap_2 snd _ (v, p)). }
  assert (∀ v p, (v, p) ∈ all_frames l → p ∉ ns1) as Hnns.
  { intros v p Hin. destruct (HL v p) as (_ & (c & Hc & ?) & _); [set_solver|].
    eapply forked_held; [exact W|exact F1|]. exists c. split; [done|lia]. }
  destruct (IH as1 s1 A1) as (s2 & A2 & as2 & ns2 & Hs2 & Hr2 & Ha2 & F2 & Hn2);
    rewrite ?Hr1; try done.
  { intros v p Hin. destruct (HL v p) as (Hlo & (c & Hc & ?) & (w & Hw) & Hq); [set_solver|].
    split; [done|]. split_and!.
    - exists c. rewrite (fk_rc _ _ _ _ _ _ _ _ _ F1), Hall by (by eapply Hnns).
      rewrite decide_False; [done|by eapply Hnp].
    - exists w. rewrite (fk_view _ _ _ _ _ _ _ _ _ F1); [done..|apply key_ok_indexes|].
      right. rewrite Hall. by eapply Hnk.
    - rewrite (fk_view _ _ _ _ _ _ _ _ _ F1); [done..|apply key_ok_indexes|].
      right. rewrite Hall. by eapply Hnk. }
  { intros e He. unfold passes. rewrite Ha1. apply Forall_app. split; [apply Hpass; set_solver|].
    constructor; [|constructor]. by apply Hgt. }
  { lia. }
  rewrite Hr1 in Hr2, F2.
  exists s2, A2, as2, (ns1 ++ ns2). split_and!.
  - cbn [for_pages]. run Hs1. exact Hs2.
  - done.
  - by rewrite Ha2, Ha1, <- app_assoc.
  - apply (forked_cons Rs _ _ r a l ns1 ns2 s A s1 A1); try done;
      intros p ([v p'] & -> & Hin)%list_elem_of_fmap;
      (destruct (HL v p') as (_ & (c & Hc & ?) & _); [set_solver|]; exists c; split; [done|lia]).
  - rewrite !length_app. lia.
Qed.
End fork.

(** ** The theorems *)

Section theorems.
Context {C : Config} {Cok : ConfigOk C} {Mok : MmioOk C} {St : Type} `{!FrameOps St, !FrameSource St}.
Implicit Types (s : St) (Rs : list Z).

(** An address space of the world: its areas are in order, their pages are
    distinct user pages outside the devices, mapped to frames of their own that
    somebody counts. *)
Record space_ok Rs (K : Z) (s : St) (A : frames) (self : AddressSpace) : Prop := {
  sp_world : world Rs s A;
  sp_kernel : K ∈ Rs;
  sp_root : pt_root (page_table self) ∈ Rs;
  sp_sorted : areas_sorted (areas self);
  sp_pages : NoDup (all_frames (areas self)).*1;
  sp_frames : NoDup (all_frames (areas self)).*2;
  sp_page : ∀ v p, (v, p) ∈ all_frames (areas self) →
    0 ≤ v < 2 ^ 26 ∧ (v ∉ mmio_vpns) ∧
    (∃ c, f_rc A !! p = Some c ∧ 0 < c < 2 ^ 64 - 1) ∧
    (∃ w, view (st_words s) (pt_root (page_table self)) (indexes v) = Some w) ∧
    ∀ R, R ∈ Rs → ¬ is_table (st_words s) R p;
}.

Lemma NoDup_indexes_low (l : list Z) :
  (∀ v, v ∈ l → 0 ≤ v < 2 ^ 26) → NoDup l → NoDup (indexes <$> l).
Proof.
  induction l as [|v l IH]; intros Hl Hnd; [constructor|]. apply NoDup_cons in Hnd as [Hv Hnd].
  rewrite fmap_cons. apply NoDup_cons. split; [|apply IH; [set_solver|done]].
  intros (v' & Heq & Hin)%list_elem_of_fmap. apply indexes_inj_low in Heq as ->;
    [done|apply Hl; set_solver..].
Qed.

Lemma fork_spec Rs K s A self :
  space_ok Rs K s A self →
  (1 + 2 * length mmio_vpns + 2 * length (all_frames (areas self)) ≤ length (f_free A))%nat →
  ∃ s' A' child, fork K self s = Ok (child, s') ∧
    let P := pt_root (page_table self) in let Q := pt_root (page_table child) in
    world (Q :: Rs) s' A' ∧ (Q ∉ Rs) ∧ areas child = areas self ∧
    data_segment_end child = data_segment_end self ∧
    data_segment_max child = data_segment_max self ∧
    (∀ r a v p, (r, a) ∈ areas self → (v, p) ∈ data_frames a →
       view (st_words s') Q (indexes v) = Some (pte_new p (Z.lor (fork_flags a) PTE_VALID)) ∧
       view (st_words s') P (indexes v) =
         if area_cow a then Some (pte_new p (Z.lor (fork_flags a) PTE_VALID))
         else view (st_words s) P (indexes v)) ∧
    (∀ k, key_ok k → k ∉ indexes <$> mmio_vpns ++ (all_frames (areas self)).*1 →
       view (st_words s') Q k = if decide (k.1.1 < 256) then None else view (st_words s) K k) ∧
    (∀ R k, R ∈ Rs → key_ok k → R ≠ P ∨ k ∉ indexes <$> (all_frames (areas self)).*1 →
       view (st_words s') R k = view (st_words s) R k) ∧
    (∀ x, held A x → f_rc A' !! x =
       if decide (x ∈ (all_frames (areas self)).*2) then Z.succ <$> f_rc A !! x else f_rc A !! x) ∧
    (∀ x j, held A x → (∀ R, R ∈ Rs → ¬ is_table (st_words s) R x) → idx_ok j →
       st_words s' !! (page_va x + 8 * j) = st_words s !! (page_va x + 8 * j)) ∧
    (∀ v p, (v, p) ∈ all_frames (areas self) → ∀ R, R ∈ Q :: Rs → ¬ is_table (st_words s') R p) ∧
    (length (f_free A) ≤ length (f_free A') + 1 + 2 * length mmio_vpns +
       2 * length (all_frames (areas self)))%nat.
Proof.
  intros [W HK HP Hsort Hnd1 Hnd2 Hpg] Hfree. set (P := pt_root (page_table self)) in *.
  set (L := all_frames (areas self)) in *.
  destruct (new_kernel_spec Rs s A K W HK) as
    (s1 & A1 & new_as & ns1 & Hs1 & W1 & S1 & HQ & Har & Hn1 & Hv1 & HvQ & HtQ); [lia|].
  set (Q := pt_root (page_table new_as)) in *.
  destruct (w_free _ _ _ _ _ _ S1) as (l1 & Hl1 & Hp1). apply Permutation_length in Hp1.
  rewrite Hl1, length_app in Hfree. cbn [length] in Hp1.
  assert (∀ v p, (v, p) ∈ L → held A p) as Hheld.
  { intros v p Hin. destruct (Hpg v p Hin) as (_ & _ & (c & Hc & ?) & _).
    exists c. split; [done|lia]. }
  assert (∀ x, held A x → held A1 x ∧ x ∉ Q :: ns1) as Hh
    by (intros x Hx; exact (wstep_held _ _ _ _ _ _ x W S1 Hx)).
  destruct (fork_areas_spec (Q :: Rs) (page_table self) (areas self) new_as s1 A1)
    as (s2 & A2 & child & ns2 & Hs2 & Hr2 & Ha2 & F & Hn2); fold L; try done.
  - set_solver.
  - set_solver.
  - fold P Q. congruence.
  - apply NoDup_indexes_low; [|done]. intros v ([v' p] & -> & Hin)%list_elem_of_fmap.
    by destruct (Hpg v' p Hin).
  - intros v p Hin. destruct (Hpg v p Hin) as (Hvb & Hmm & (c & Hc & ?) & (w & Hw) & _).
    split; [by apply top_of_low|]. split_and!.
    + exists c. rewrite (w_rc _ _ _ _ _ _ S1); [done|]. by apply Hh, (Hheld v).
    + exists w. rewrite Hv1; [done..|apply key_ok_indexes].
    + rewrite HvQ; [by apply decide_True, top_of_low|apply key_ok_indexes|].
      intros (v' & Heq & Hv')%list_elem_of_fmap. apply indexes_inj_low in Heq as ->; [done..|].
      eapply (device_vpns_low MMIO); [apply mmio_bounds|done].
  - rewrite Har. intros e _. constructor.
  - lia.
  - fold L P Q in F, Hr2, Hn2. pose proof (fk_world _ _ _ _ _ _ _ _ _ F) as W2.
    exists s2, A2, (with_segment child (data_segment_end self) (data_segment_max self)).
    cbn [with_segment page_table areas data_segment_end data_segment_max].
    rewrite Hr2, Ha2, Har. split_and!; try done.
    + unfold fork. run Hs1. run Hs2. done.
    + intros r a v p Hr Hvp. split; [by eapply (fk_child _ _ _ _ _ _ _ _ _ F)|].
      rewrite (fk_parent _ _ _ _ _ _ _ _ _ F r a v p Hr Hvp). destruct (area_cow a); [done|].
      apply Hv1; [done|apply key_ok_indexes].
    + intros k Hk Hnin. rewrite fmap_app, not_elem_of_app in Hnin. destruct Hnin as [Hnm Hnl].
      rewrite (fk_view _ _ _ _ _ _ _ _ _ F); [by apply HvQ|set_solver|done|by right].
    + intros R k HR Hk Hor. rewrite (fk_view _ _ _ _ _ _ _ _ _ F); [by apply Hv1|set_solver|done|].
      destruct Hor as [?|?]; [left|by right]. split; [done|by intros ->].
    + intros x Hx. destruct (Hh x Hx) as [Hx1 Hx2].
      rewrite (fk_rc _ _ _ _ _ _ _ _ _ F), (w_rc _ _ _ _ _ _ S1); [done|done|].
      by destruct (forked_held _ _ _ _ _ _ _ _ _ x W1 F Hx1).
    + intros x j Hx Hn Hj. destruct (Hh x Hx) as [Hx1 Hx2].
      rewrite (fk_same _ _ _ _ _ _ _ _ _ F); [by apply S1|done| |done].
      intros R [->|HR]%elem_of_cons Ht.
      * destruct (HtQ x Ht) as [?|HtK]; [done|by apply (Hn K)].
      * destruct (w_table _ _ _ _ _ _ S1 R x HR Ht); [done|by apply (Hn R)].
    + intros v p Hin R HR Ht. destruct (Hh p (Hheld v p Hin)) as [Hp1' Hp2].
      destruct (Hpg v p Hin) as (_ & _ & _ & _ & Hnt).
      destruct (fk_table _ _ _ _ _ _ _ _ _ F R p HR Ht) as [Hns|Ht1].
      * by destruct (forked_held _ _ _ _ _ _ _ _ _ p W1 F Hp1').
      * apply elem_of_cons in HR as [->|HR].
        -- destruct (HtQ p Ht1) as [?|HtK]; [done|by apply (Hnt K)].
        -- destruct (w_table _ _ _ _ _ _ S1 R p HR Ht1); [done|by apply (Hnt R)].
    + destruct (fk_free _ _ _ _ _ _ _ _ _ F) as (l2 & Hl2 & Hp2). apply Permutation_length in Hp2.
      rewrite Hl1, Hl2, !length_app. lia.
Qed.

(** A store to the leaf entry of a mapped user page, in the world. *)
Lemma store_leaf_world Rs P s A i0 i1 i2 q w :
  world Rs s A → P ∈ Rs → key_ok (i0, i1, i2) → low i0 →
  node (st_words s) P [i0; i1] = Some q → pte_is_valid w = true →
  ∃ s', on_mem (store (page_va q + 8 * i2) w) s = Ok (tt, s') ∧ wstep Rs [] s A s' A ∧
    node (st_words s') P [i0; i1] = Some q ∧
    st_words s' !! (page_va q + 8 * i2) = Some w ∧
    (∀ k, key_ok k → view (st_words s') P k = set_view (i0, i1, i2) (Some w) k (view (st_words s) P k)) ∧
    (∀ R k, R ∈ Rs → R ≠ P → key_ok k → view (st_words s') R k = view (st_words s) R k).
Proof.
  intros W HP Hk Hlow Hq Hval.
  destruct (store_leaf_spec s A P i0 i1 i2 q w (w_rep _ _ _ W) (w_wf _ _ _ W P HP) Hk Hq)
    as (s' & Hs & G). rewrite Hval in G.
  assert (pstep low P (set_view (i0, i1, i2) (Some w)) [] [] s A s' A) as G'.
  { eapply pstep_mono, grow_pstep, G. by intros i <-. }
  destruct (world_step Rs P _ _ _ _ _ _ _ W HP G') as (S & HvP & Hv & _).
  pose proof Hk as (? & ? & ?).
  assert (node (st_words s') P [i0; i1] = Some q) as Hq' by (apply (g_keep G); [by apply path_ok_2|done]).
  exists s'. split_and!; try done.
  pose proof (HvP (i0, i1, i2) Hk) as Hve. unfold set_view in Hve. rewrite decide_True in Hve by done.
  unfold view in Hve. rewrite Hq' in Hve. cbn in Hve. unfold entry in Hve.
  destruct (st_words s' !! (page_va q + 8 * i2)) as [w'|]; [|done]. cbn in Hve.
  by destruct (pte_is_valid w'); simplify_eq.
Qed.

Lemma view_valid m root k w : view m root k = Some w → pte_is_valid w = true.
Proof.
  destruct k as [[i0 i1] i2]. unfold view. destruct (node m root [i0; i1]) as [q|]; [|done]. cbn.
  unfold entry. destruct (m !! _) as [w'|]; [|done]. cbn. destruct (pte_is_valid w') eqn:E; [|done].
  by intros [= <-].
Qed.

(** The flags after a fault: writable, no longer copy-on-write. *)
Definition fault_flags (f : Z) : Z := Z.lor (Z.ldiff f PTE_COW) PTE_WRITABLE.

Lemma fault_flags_valid p f :
  0 ≤ p < 2 ^ PTE_PPN_BITS → pte_is_valid (pte_new p f) = true →
  pte_is_valid (pte_new p (Z.ldiff f PTE_COW)) = true ∧
  ∀ q, 0 ≤ q < 2 ^ PTE_PPN_BITS → pte_is_valid (pte_new q (fault_flags f)) = true.
Proof.
  intros Hp. rewrite !pte_valid_testbit, !pte_new_testbit by (done || lia). intros Hf.
  split; [|intros q Hq; rewrite pte_valid_testbit, pte_new_testbit by (done || lia)];
    unfold fault_flags; rewrite ?Z.lor_spec, Z.ldiff_spec, Hf; done.
Qed.

(** The common part of [handle_pagefault]: the entry is made writable. *)
Lemma pagefault_entry Rs self s A v p f :
  let P := pt_root (page_table self) in
  world Rs s A → P ∈ Rs → low (top_of v) → 0 ≤ p < 2 ^ PTE_PPN_BITS →
  view (st_words s) P (indexes v) = Some (pte_new p f) → Z.testbit f 8 = true →
  let '(i0, i1, i2) := indexes v in
  ∃ q s1 s2, let pte := page_va q + 8 * i2 in
    find_pte (page_table self) v s = Ok (Some pte, s) ∧
    on_mem (load pte) s = Ok (pte_new p f, s) ∧
    flags_contains (pte_new p f) PTE_COW = true ∧
    on_mem (store pte (flags_remove (pte_new p f) PTE_COW)) s = Ok (tt, s1) ∧
    on_mem (load pte) s1 = Ok (pte_new p (Z.ldiff f PTE_COW), s1) ∧
    on_mem (store pte (flags_insert (pte_new p (Z.ldiff f PTE_COW)) PTE_WRITABLE)) s1 = Ok (tt, s2) ∧
    wstep Rs [] s A s2 A ∧ node (st_words s2) P [i0; i1] = Some q ∧
    (∀ k, key_ok k → view (st_words s2) P k =
       set_view (indexes v) (Some (pte_new p (fault_flags f))) k (view (st_words s) P k)) ∧
    (∀ R k, R ∈ Rs → R ≠ P → key_ok k → view (st_words s2) R k = view (st_words s) R k).
Proof.
  intros P W HP Hlow Hp Hv Hcow.
  pose proof (find_pte_some s A (page_table self) v _ (w_rep _ _ _ W) (w_wf _ _ _ W P HP) Hv) as Hf.
  pose proof (key_ok_indexes v) as Hk. unfold top_of in Hlow. fold P in Hf.
  destruct (indexes v) as [[i0 i1] i2] eqn:Ei. cbn in Hlow.
  destruct Hf as (q & Hq & Hfind & Hw & Hval).
  destruct (fault_flags_valid p f Hp Hval) as [Hval1 Hval2].
  destruct (store_leaf_world Rs P s A i0 i1 i2 q _ W HP Hk Hlow Hq Hval1)
    as (s1 & Hs1 & S1 & Hq1 & Hw1 & HvP1 & Hv1).
  destruct (store_leaf_world Rs P s1 A i0 i1 i2 q (pte_new p (fault_flags f)) (w_world _ _ _ _ _ _ S1)
    HP Hk Hlow Hq1) as (s2 & Hs2 & S2 & Hq2 & Hw2 & HvP2 & Hv2); [by apply Hval2|].
  exists q, s1, s2. cbv zeta. split_and!; try done.
  - by apply on_mem_load.
  - by rewrite pte_contains_cow.
  - by rewrite pte_new_remove_cow.
  - by apply on_mem_load.
  - by rewrite pte_new_insert.
  - by apply (wstep_trans Rs [] [] s A s1 A).
  - intros k Hkk. rewrite HvP2, HvP1 by done. unfold set_view. by case_decide.
  - intros R k HR Hne Hkk. by rewrite Hv2, Hv1.
Qed.

(** A fault on a page whose frame nobody else holds: only the entry changes. *)
Lemma pagefault_sole Rs self s A va r a p f :
  let P := pt_root (page_table self) in let v := floor va in
  world Rs s A → P ∈ Rs → low (top_of v) →
  bt_entry range_cmp (point va) (areas self) = Some (r, a) →
  bt_get Z.compare v (data_frames a) = Some p →
  view (st_words s) P (indexes v) = Some (pte_new p f) → Z.testbit f 8 = true →
  f_rc A !! p = Some 1 →
  ∃ s', handle_pagefault self va s = Ok (self, s') ∧ wstep Rs [] s A s' A ∧
    (∀ k, key_ok k → view (st_words s') P k =
       set_view (indexes v) (Some (pte_new p (fault_flags f))) k (view (st_words s) P k)) ∧
    (∀ R k, R ∈ Rs → R ≠ P → key_ok k → view (st_words s') R k = view (st_words s) R k).
Proof.
  intros P v W HP Hlow Har Hfr Hv Hcow Hrc.
  assert (0 ≤ p < 2 ^ PTE_PPN_BITS) as Hp.
  { eapply held_ppn; [apply W|]. exists 1. split; [done|lia]. }
  pose proof (pagefault_entry Rs self s A v p f W HP Hlow Hp Hv Hcow) as H.
  destruct (indexes v) as [[i0 i1] i2] eqn:Ei.
  destruct H as (q & s1 & s2 & H1 & H2 & H3 & H4 & H5 & H6 & S & _ & HvP & Hv').
  assert (bt_get range_cmp (point va) (areas self) = Some a) as Hget by (unfold bt_get; by rewrite Har).
  exists s2. split_and!; [|done..]. unfold handle_pagefault. fold v. run H1. run_refl. run H2.
  rewrite H3. run_refl. run H4. run H5. run H6. rewrite Hget. run_refl.
  rewrite Hfr. run_refl. run (frame_refs_ok s2 A p 1 (w_rep _ _ _ (w_world _ _ _ _ _ _ S)) Hrc ltac:(lia)).
  done.
Qed.

(** Copying a page into a frame that is not a table. *)
Lemma copy_page_world Rs s A p q :
  world Rs s A → held A p → held A q → p ≠ q → (∀ R, R ∈ Rs → ¬ is_table (st_words s) R q) →
  ∃ ws s', on_mem (load_words (page_va p) 512) s = Ok (ws, s) ∧
    on_mem (store_words (page_va q) ws) s = Ok (tt, s') ∧ world Rs s' A ∧
    (∀ j, idx_ok j → st_words s' !! (page_va q + 8 * j) = st_words s !! (page_va p + 8 * j)) ∧
    (∀ x j, x ≠ q → idx_ok j → st_words s' !! (page_va x + 8 * j) = st_words s !! (page_va x + 8 * j)) ∧
    (∀ R k, R ∈ Rs → key_ok k → view (st_words s') R k = view (st_words s) R k) ∧
    (∀ R x, R ∈ Rs → is_table (st_words s') R x ↔ is_table (st_words s) R x) ∧
    (∀ R l, R ∈ Rs → path_ok l → node (st_words s') R l = node (st_words s) R l).
Proof.
  intros W Hp Hq Hne Hnt.
  destruct (on_mem_load_words s A p 0 512 (w_rep _ _ _ W) Hp) as (ws & Hl & Hlen & Hws); [lia|].
  destruct (on_mem_store_words A q ws s 0 (w_rep _ _ _ W) Hq) as (s' & Hs & Hrep & Hin & Hout); [lia|].
  rewrite Z.mul_0_r, Z.add_0_r in Hl, Hs. rewrite Hlen in Hout.
  assert (∀ x j, x ≠ q → idx_ok j →
    st_words s' !! (page_va x + 8 * j) = st_words s !! (page_va x + 8 * j)) as Hother.
  { intros x j Hx Hj. apply Hout. intros i Hi. apply page_va_disj; [done|done|lia]. }
  destruct (world_counts Rs s A s' A W Hrep) as (W' & Hv & Ht & Hn); [done| |].
  { intros R x j HR Hx. apply Hother. intros ->. by apply (Hnt R). }
  exists ws, s'. split_and!; try done. intros j Hj.
  destruct (entry_mapped s A p j (w_rep _ _ _ W) Hp Hj) as [w Hw]. unfold idx_ok in Hj.
  specialize (Hin (Z.to_nat j) w). specialize (Hws (Z.to_nat j) ltac:(lia)).
  rewrite !Nat.add_0_l, Z2Nat.id in * by lia. rewrite Hw in *. by apply Hin.
Qed.

(** A fault on a page whose frame is shared: the faulting space gets a frame of
    its own with the same contents. *)
Lemma pagefault_shared Rs self s A va r a p f c :
  let P := pt_root (page_table self) in let v := floor va in
  world Rs s A → P ∈ Rs → low (top_of v) →
  bt_entry range_cmp (point va) (areas self) = Some (r, a) →
  bt_get Z.compare v (data_frames a) = Some p →
  view (st_words s) P (indexes v) = Some (pte_new p f) → Z.testbit f 8 = true →
  f_rc A !! p = Some c → 1 < c → (∀ R, R ∈ Rs → ¬ is_table (st_words s) R p) → f_free A ≠ [] →
  ∃ s' A' q, handle_pagefault self va s =
      Ok (with_areas self (bt_update range_cmp (point va)
            {| data_frames := bt_update Z.compare v q (data_frames a);
               map_type := map_type a; map_perm := map_perm a |} (areas self)), s') ∧
    world Rs s' A' ∧ f_free A = q :: f_free A' ∧ ¬ held A q ∧
    f_rc A' = <[p := c - 1]> (<[q := 1]> (f_rc A)) ∧
    (∀ k, key_ok k → view (st_words s') P k =
       set_view (indexes v) (Some (pte_new q (fault_flags f))) k (view (st_words s) P k)) ∧
    (∀ R k, R ∈ Rs → R ≠ P → key_ok k → view (st_words s') R k = view (st_words s) R k) ∧
    (∀ j, idx_ok j → st_words s' !! (page_va q + 8 * j) = st_words s !! (page_va p + 8 * j)) ∧
    (∀ x j, held A x → (∀ R, R ∈ Rs → ¬ is_table (st_words s) R x) → idx_ok j →
       st_words s' !! (page_va x + 8 * j) = st_words s !! (page_va x + 8 * j)).
Proof.
  intros P v W HP Hlow Har Hfr Hv Hcow Hrc Hc Hnt Hfree.
  assert (held A p) as Hhp by (exists c; split; [done|lia]).
  assert (0 ≤ p < 2 ^ PTE_PPN_BITS) as Hp by (eapply held_ppn; [apply W|done]).
  pose proof (pagefault_entry Rs self s A v p f W HP Hlow Hp Hv Hcow) as H.
  pose proof (key_ok_indexes v) as Hk. unfold top_of in Hlow.
  destruct (indexes v) as [[i0 i1] i2] eqn:Ei. cbn in Hlow.
  destruct H as (t & s1 & s2 & H1 & H2 & H3 & H4 & H5 & H6 & S2 & Ht2 & HvP2 & Hv2).
  pose proof (w_world _ _ _ _ _ _ S2) as W2.
  assert (∀ R, R ∈ Rs → ¬ is_table (st_words s2) R p) as Hnt2.
  { intros R HR Ht. destruct (w_table _ _ _ _ _ _ S2 R p HR Ht) as [Hb|]; [by apply elem_of_nil in Hb|by apply (Hnt R)]. }
  destruct (frame_alloc_pstep low P s2 A (w_rep _ _ _ W2) (w_wf _ _ _ W2 P HP) Hfree)
    as (s3 & A3 & q & H7 & P3 & Hf3 & Hq3 & Hnq).
  destruct (world_step Rs P _ _ _ _ _ _ _ W2 HP P3) as (S3 & HvP3 & Hv3 & Ht3). cbn [app] in S3.
  pose proof (w_world _ _ _ _ _ _ S3) as W3.
  destruct (wstep_held _ _ _ _ _ _ p W2 S3 Hhp) as [Hhp3 Hpq].
  assert (p ≠ q) as Hne by (by rewrite list_elem_of_singleton in Hpq).
  assert (∀ R, R ∈ Rs → ¬ is_table (st_words s3) R q) as Hntq.
  { intros R HR Ht. destruct (Ht3 R q HR Ht) as [Hb|Ht']; [by apply elem_of_nil in Hb|]. apply Hnq. by eapply (world_table_held Rs s2 A R). }
  destruct (copy_page_world Rs s3 A3 p q W3 Hhp3 Hq3 Hne Hntq)
    as (ws & s4 & H8 & H9 & W4 & Hcp4 & Hx4 & Hv4 & Ht4 & Hn4).
  pose proof Hk as (Hk0 & Hk1 & Hk2). assert (path_ok [i0; i1]) as Hpath by (by apply path_ok_2).
  assert (node (st_words s3) P [i0; i1] = Some t) as Hnt3 by (by apply (p_keep P3)).
  assert (st_words s3 !! (page_va t + 8 * i2) = Some (pte_new p (fault_flags f))) as Hw3.
  { pose proof (HvP3 (i0, i1, i2) Hk) as Hve. unfold same_view in Hve. rewrite HvP2 in Hve by done.
    unfold set_view in Hve. rewrite decide_True in Hve by done. unfold view in Hve.
    rewrite Hnt3 in Hve. cbn in Hve. unfold entry in Hve.
    destruct (st_words s3 !! _) as [w'|]; [|done]. cbn in Hve. by destruct (pte_is_valid w'); simplify_eq. }
  assert (0 ≤ q < 2 ^ PTE_PPN_BITS) as Hqb by (eapply held_ppn; [apply W3|done]).
  assert (pte_is_valid (pte_new q (fault_flags f)) = true) as Hval.
  { apply view_valid in Hv. by apply (fault_flags_valid p f). }
  assert (node (st_words s4) P [i0; i1] = Some t) as Hnt4 by (by rewrite Hn4).
  destruct (store_leaf_world Rs P s4 A3 i0 i1 i2 t (pte_new q (fault_flags f)) W4 HP Hk Hlow Hnt4 Hval)
    as (s5 & H10 & S5 & Hnt5 & Hw5 & HvP5 & Hv5).
  pose proof (w_world _ _ _ _ _ _ S5) as W5.
  assert (f_rc A3 = <[q := 1]> (f_rc A)) as Hrc3.
  { apply map_eq. intros x. rewrite lookup_insert. case_decide.
    - subst x. apply (w_new _ _ _ _ _ _ S3). by apply list_elem_of_singleton.
    - apply (w_rc _ _ _ _ _ _ S3). rewrite list_elem_of_singleton. congruence. }
  assert (f_rc A3 !! p = Some c) as Hrcp by (by rewrite Hrc3, lookup_insert_ne).
  destruct (frame_drop_ok s5 A3 p c (w_rep _ _ _ W5) Hrcp ltac:(lia)) as (s6 & H11 & Hrep6 & Hsame6).
  assert (∀ x, held A3 x → held (frames_drop p c A3) x) as Hmono.
  { intros x (cx & Hcx & ?). unfold held, frames_drop. cbn. destruct (decide (p = x)) as [<-|].
    - exists (c - 1). rewrite lookup_insert_eq. split; [done|lia].
    - exists cx. by rewrite lookup_insert_ne. }
  destruct (world_counts Rs s5 A3 s6 (frames_drop p c A3) W5 Hrep6 Hmono) as (W6 & Hv6 & _ & _).
  { intros R x j HR Hx. apply Hsame6, Hmono. by eapply (world_table_held Rs s5 A3 R). }
  assert (bt_get range_cmp (point va) (areas self) = Some a) as Hget by (unfold bt_get; by rewrite Har).
  exists s6, (frames_drop p c A3), q. split_and!; try done.
  - unfold handle_pagefault. fold v. run H1. run_refl. run H2. rewrite H3. run_refl. run H4. run H5.
    run H6. rewrite Hget. run_refl. rewrite Hfr. run_refl.
    run (frame_refs_ok s2 A p c (w_rep _ _ _ W2) Hrc ltac:(lia)).
    destruct (Z.ltb_spec 1 c); [|lia]. run H7. run_refl.
    rewrite array_va_eq by (eapply held_range; [eapply st_rep_ok, W3|done]). run_refl.
    run (on_mem_load _ _ _ Hw3). rewrite pte_ppn_new, pte_set_ppn_new by done.
    rewrite array_va_eq by (eapply held_range; [eapply st_rep_ok, W3|done]). run_refl.
    run H8. run H9. run H10. by run H11.
  - rewrite Hf3. cbn. by destruct (Z.eqb_spec c 1); [lia|].
  - cbn. by rewrite Hrc3.
  - intros k Hkk. rewrite Hv6, HvP5, Hv4, HvP3, HvP2 by done. unfold set_view, same_view. by case_decide.
  - intros R k HR HRP Hkk. by rewrite Hv6, Hv5, Hv4, Hv3, Hv2.
  - intros j Hj. rewrite Hsame6; [|by apply Hmono|done].
    rewrite (w_same _ _ _ _ _ _ S5); [|done| |done].
    + rewrite Hcp4 by done. rewrite (w_same _ _ _ _ _ _ S3); [by apply S2|done..].
    + intros R HR Ht. apply (Hntq R HR). by apply Ht4.
  - intros x j Hx Hn Hj.
    assert (∀ R, R ∈ Rs → ¬ is_table (st_words s2) R x) as Hn2'.
    { intros R HR Ht. destruct (w_table _ _ _ _ _ _ S2 R x HR Ht) as [Hb|]; [by apply elem_of_nil in Hb|by apply (Hn R)]. }
    assert (∀ R, R ∈ Rs → ¬ is_table (st_words s3) R x) as Hn3'.
    { intros R HR Ht. destruct (Ht3 R x HR Ht) as [Hb|]; [by apply elem_of_nil in Hb|by apply (Hn2' R)]. }
    destruct (wstep_held _ _ _ _ _ _ x W2 S3 Hx) as [Hx3 Hxq].
    rewrite Hsame6; [|by apply Hmono|done].
    rewrite (w_same _ _ _ _ _ _ S5); [|done|intros R HR Ht; apply (Hn3' R HR); by apply Ht4|done].
    rewrite list_elem_of_singleton in Hxq. rewrite Hx4 by done. rewrite (w_same _ _ _ _ _ _ S3) by done. by apply S2.
Qed.

(** ** Claims *)

Lemma fork_flags_bits a :
  area_cow a = true → 0 ≤ map_perm a < 2 ^ 9 →
  Z.testbit (fork_flags a) 8 = true ∧ Z.testbit (fork_flags a) 2 = false.
Proof.
  intros Hc Hp. unfold fork_flags, flags_insert, flags_remove. rewrite Hc.
  rewrite unot_ldiff by (lia || by vm_compute). rewrite !Z.lor_spec, !Z.ldiff_spec.
  change (Z.testbit PTE_COW 8) with true. change (Z.testbit PTE_WRITABLE 2) with true.
  change (Z.testbit PTE_COW 2) with false. by rewrite orb_true_r, andb_false_r.
Qed.

Lemma lor_valid_bits f i : 0 < i → Z.testbit (Z.lor f PTE_VALID) i = Z.testbit f i.
Proof.
  intros Hi. rewrite Z.lor_spec. change PTE_VALID with (2 ^ 0). rewrite Z.pow2_bits_false by lia.
  apply orb_false_r.
Qed.

Lemma fault_flags_bits f : Z.testbit (fault_flags f) 2 = true ∧ Z.testbit (fault_flags f) 8 = false.
Proof.
  unfold fault_flags. rewrite !Z.lor_spec, !Z.ldiff_spec.
  change (Z.testbit PTE_COW 8) with true. change (Z.testbit PTE_WRITABLE 2) with true.
  change (Z.testbit PTE_WRITABLE 8) with false. by rewrite orb_true_r, andb_false_r.
Qed.

(** C7: After [fork], a page of a writable area is mapped by parent and child to the
    same frame, in neither writable and in both marked copy-on-write, and the frame
    is counted once more; pages of other areas are shared with their permissions.
    The child has the parent's areas and the kernel half, no other process sees a
    change, and no frame in use is written except page tables. *)
Theorem fork_shares_pages Rs K s A self :
  space_ok Rs K s A self →
  (1 + 2 * length mmio_vpns + 2 * length (all_frames (areas self)) ≤ length (f_free A))%nat →
  ∃ s' A' child, fork K self s = Ok (child, s') ∧
    let P := pt_root (page_table self) in let Q := pt_root (page_table child) in
    world (Q :: Rs) s' A' ∧ areas child = areas self ∧
    (∀ r a v p, (r, a) ∈ areas self → (v, p) ∈ data_frames a → 0 ≤ map_perm a < 2 ^ 9 →
       (∃ w, view (st_words s') Q (indexes v) = Some w ∧ pte_ppn w = p ∧
          if area_cow a
          then Z.testbit w 2 = false ∧ Z.testbit w 8 = true ∧
               view (st_words s') P (indexes v) = Some w
          else view (st_words s') P (indexes v) = view (st_words s) P (indexes v)) ∧
       f_rc A' !! p = Z.succ <$> f_rc A !! p) ∧
    (∀ k, key_ok k → 256 ≤ k.1.1 → view (st_words s') Q k = view (st_words s) K k) ∧
    (∀ R k, R ∈ Rs → R ≠ P → key_ok k → view (st_words s') R k = view (st_words s) R k) ∧
    (∀ x j, held A x → (∀ R, R ∈ Rs → ¬ is_table (st_words s) R x) → idx_ok j →
       st_words s' !! (page_va x + 8 * j) = st_words s !! (page_va x + 8 * j)).
Proof.
  intros Hok Hfree. destruct (fork_spec Rs K s A self Hok Hfree) as
    (s' & A' & child & Hs & W & _ & Har & _ & _ & Hpg & HvQ & Hv & Hrc & Hsame & _).
  exists s', A', child. split; [done|]. cbv zeta. split_and!; try done.
  - intros r a v p Hr Hvp Hperm. destruct (Hpg r a v p Hr Hvp) as [HQ HP].
    assert ((v, p) ∈ all_frames (areas self)) as Hin by (apply elem_of_all_frames; by exists r, a).
    destruct (sp_page _ _ _ _ _ Hok v p Hin) as (_ & _ & (c & Hc & ?) & _).
    assert (held A p) as Hp by (exists c; split; [done|lia]).
    assert (0 ≤ p < 2 ^ PTE_PPN_BITS) as Hpb by (eapply held_ppn; [apply Hok|done]).
    split.
    + eexists. split; [exact HQ|]. split; [by apply pte_ppn_new|].
      destruct (area_cow a) eqn:Hcow; [|done]. destruct (fork_flags_bits a Hcow Hperm) as [H8 H2].
      rewrite !pte_new_testbit, !lor_valid_bits by (done || lia). done.
    + rewrite Hrc by done. apply decide_True. by apply (list_elem_of_fmap_2 snd _ (v, p)).
  - intros k Hk Hhi. rewrite HvQ; [apply decide_False; lia|done|].
    intros (v & -> & Hin)%list_elem_of_fmap. enough (low (top_of v)) as Hlow.
    { unfold low, top_of in Hlow. lia. }
    apply top_of_low. apply elem_of_app in Hin as [Hin|Hin].
    + eapply (device_vpns_low MMIO); [apply mmio_bounds|done].
    + apply list_elem_of_fmap in Hin as ([v' p] & -> & Hin). by apply (sp_page _ _ _ _ _ Hok v' p).
  - intros R k HR Hne Hk. apply Hv; [done..|by left].
Qed.

Lemma zget_in v p (l : list (Z * Z)) : bt_get Z.compare v l = Some p → (v, p) ∈ l.
Proof.
  unfold bt_get. destruct (bt_entry Z.compare v l) as [[k q]|] eqn:E; [|done]. intros [= ->].
  apply bt_entry_elem in E as [Hin Heq]. apply Z.compare_eq in Heq. cbn in Heq. by subst.
Qed.

(** C1: Copy-on-write isolates: after a fork, a write fault of either process on a
    page of a writable area gives that process a writable frame of its own with the
    contents the page had, while the other process keeps the shared frame, mapped
    read-only and unchanged. *)
Theorem cow_isolation Rs K s A self va r a p :
  space_ok Rs K s A self →
  (2 + 2 * length mmio_vpns + 2 * length (all_frames (areas self)) ≤ length (f_free A))%nat →
  bt_entry range_cmp (point va) (areas self) = Some (r, a) →
  bt_get Z.compare (floor va) (data_frames a) = Some p →
  area_cow a = true → 0 ≤ map_perm a < 2 ^ 9 →
  ∃ child s1, fork K self s = Ok (child, s1) ∧
    ∀ who other, who = self ∧ other = child ∨ who = child ∧ other = self →
    ∃ who' s2 A2 q w w', handle_pagefault who va s1 = Ok (who', s2) ∧
      world (pt_root (page_table child) :: Rs) s2 A2 ∧ p ≠ q ∧
      view (st_words s2) (pt_root (page_table who)) (indexes (floor va)) = Some w ∧
      pte_ppn w = q ∧ Z.testbit w 2 = true ∧
      view (st_words s2) (pt_root (page_table other)) (indexes (floor va)) = Some w' ∧
      pte_ppn w' = p ∧ Z.testbit w' 2 = false ∧
      ∀ j, idx_ok j →
        st_words s2 !! (page_va q + 8 * j) = st_words s !! (page_va p + 8 * j) ∧
        st_words s2 !! (page_va p + 8 * j) = st_words s !! (page_va p + 8 * j).
Proof.
  intros Hok Hfree Har Hfr Hcow Hperm. destruct (fork_spec Rs K s A self Hok) as
    (s1 & A1 & child & Hs & W & HQ & Harc & _ & _ & Hpg & HvQ & Hv & Hrc & Hsame & Hnt & Hlen); [lia|].
  exists child, s1. split; [done|]. intros who other Hwho.
  pose proof (bt_entry_elem _ _ _ _ Har) as [Hr _]. pose proof (zget_in _ _ _ Hfr) as Hvp.
  assert ((floor va, p) ∈ all_frames (areas self)) as Hin by (apply elem_of_all_frames; by exists r, a).
  destruct (sp_page _ _ _ _ _ Hok _ _ Hin) as (Hvb & _ & (c & Hc & Hcb) & _ & Hnt0).
  assert (held A p) as Hp by (exists c; split; [done|lia]).
  assert (0 ≤ p < 2 ^ PTE_PPN_BITS) as Hpb by (eapply held_ppn; [apply Hok|done]).
  destruct (Hpg r a (floor va) p Hr Hvp) as [HvQp HvPp]. rewrite Hcow in HvPp.
  set (P := pt_root (page_table self)) in *. set (Q := pt_root (page_table child)) in *.
  pose proof (sp_root _ _ _ _ _ Hok) as HP. fold P in HP.
  set (f := Z.lor (fork_flags a) PTE_VALID) in *.
  destruct (fork_flags_bits a Hcow Hperm) as [H8 H2].
  assert (Z.testbit f 8 = true) as Hf8 by (unfold f; by rewrite lor_valid_bits).
  assert (f_rc A1 !! p = Some (c + 1)) as Hrc1.
  { rewrite Hrc by done. rewrite decide_True, Hc; [done|].
    by apply (list_elem_of_fmap_2 snd _ (floor va, p)). }
  assert (areas who = areas self ∧
    view (st_words s1) (pt_root (page_table who)) (indexes (floor va)) = Some (pte_new p f) ∧
    view (st_words s1) (pt_root (page_table other)) (indexes (floor va)) = Some (pte_new p f) ∧
    pt_root (page_table who) ∈ Q :: Rs ∧ pt_root (page_table other) ∈ Q :: Rs ∧
    pt_root (page_table other) ≠ pt_root (page_table who)) as (Haw & Hvw & Hvo & Hw & Ho & Hwo).
  { assert (P ≠ Q) by congruence.
    destruct Hwho as [[-> ->]|[-> ->]]; fold P Q; (split_and!; [done..|set_solver|set_solver|done]). }
  destruct (pagefault_shared (Q :: Rs) who s1 A1 va r a p f (c + 1))
    as (s2 & A2 & q & Hs2 & W2 & Hf2 & Hnq & _ & HvP2 & Hv2 & Hcp2 & Hsame2); try done.
  - by apply top_of_low.
  - by rewrite Haw.
  - lia.
  - by eapply Hnt.
  - intros Hn. rewrite Hn in Hlen. cbn [length] in Hlen. lia.
  - assert (held A1 p) as Hp1 by (exists (c + 1); split; [done|lia]).
    assert (p ≠ q) as Hpq by (intros ->; done).
    assert (0 ≤ q < 2 ^ PTE_PPN_BITS) as Hqb.
    { apply ppn_bound26. assert (frames_ok A1) as (_ & Hiff & Hrange) by (eapply st_rep_ok, W).
      assert (f_rc A1 !! q = Some 0) as Hq0 by (apply Hiff; rewrite Hf2; by left).
      destruct (Hrange q 0 Hq0). done. }
    eexists _, s2, A2, q, (pte_new q (fault_flags f)), (pte_new p f). split; [exact Hs2|]. split_and!; try done.
    + rewrite HvP2 by apply key_ok_indexes. unfold set_view. by rewrite decide_True.
    + by apply pte_ppn_new.
    + rewrite pte_new_testbit by (done || lia). apply fault_flags_bits.
    + rewrite Hv2; [done..|apply key_ok_indexes].
    + by apply pte_ppn_new.
    + rewrite pte_new_testbit by (done || lia). unfold f. by rewrite lor_valid_bits.
    + intros j Hj. assert (st_words s1 !! (page_va p + 8 * j) = st_words s !! (page_va p + 8 * j)) as <-
        by (by apply Hsame).
      split; [by apply Hcp2|]. apply Hsame2; [done| |done]. by eapply Hnt.
Qed.
End theorems.
