(* ===== verification/Spaces.v ===== *)
(** * Building address spaces

    [AddressSpace::new_kernel] and [insert_framed_area]
    (kernel/src/mm/address_space.rs) keep the invariant of the copy-on-write
    theorems: a space starts with the devices and the kernel half, and gets areas
    of fresh frames. *)

From Stdlib Require Import Sorted.
From S2P Require Import Prelude Io Address Memory PhysPage Pte BTree PageTable PageMap World.
From S2P Require Import AddressSpace Cow.

Section spaces.
Context {C : Config} {Cok : ConfigOk C} {Mok : MmioOk C} {St : Type} `{!FrameOps St, !FrameSource St}.
Implicit Types (s : St) (Rs : list Z).

(** ** Ranges *)

(** A range that ends before another starts is smaller, for the kernel's order. *)
Lemma range_cmp_before r1 r2 :
  r_start r1 ≤ r_end r1 → r_end r1 < r_start r2 → r_start r2 ≤ r_end r2 →
  range_cmp r1 r2 = Lt ∧ range_cmp r2 r1 = Gt.
Proof.
  intros H1 H12 H2. unfold range_cmp, range_eqb.
  destruct (Z.leb_spec (r_start r1) (r_start r2)), (Z.leb_spec (r_end r2) (r_end r1)),
    (Z.leb_spec (r_start r2) (r_start r1)), (Z.leb_spec (r_end r1) (r_end r2)),
    (Z.ltb_spec (r_start r1) (r_start r2)), (Z.ltb_spec (r_start r2) (r_start r1)); cbn; try lia; done.
Qed.

(** A lookup by an address inside a range (its end included) finds it. *)
Lemma range_cmp_point va r : r_start r ≤ va ≤ r_end r → range_cmp (point va) r = Eq.
Proof.
  intros H. unfold range_cmp, range_eqb, point. cbn [r_start r_end].
  destruct (Z.leb_spec va (r_start r)), (Z.leb_spec (r_end r) va), (Z.leb_spec (r_start r) va),
    (Z.leb_spec va (r_end r)); cbn; try lia; done.
Qed.

(** Areas separated by at least one byte, in order. *)
Definition separated : list (VARange * MapArea) → Prop :=
  StronglySorted (λ e1 e2, r_end e1.1 < r_start e2.1).
Definition proper_ranges (l : list (VARange * MapArea)) : Prop :=
  ∀ r a, (r, a) ∈ l → r_start r ≤ r_end r.

Lemma proper_nil : proper_ranges [].
Proof. intros r a Hin. by apply elem_of_nil in Hin. Qed.

Lemma separated_sorted l : proper_ranges l → separated l → areas_sorted l.
Proof.
  induction l as [|[r a] l IH]; intros Hp Hs; [constructor|].
  apply StronglySorted_inv in Hs as [Hs Hf]. constructor.
  - apply IH; [|done]. intros r' a' Hin. apply (Hp r' a'). set_solver.
  - rewrite Forall_forall in *. intros [r' a'] Hin. cbn. apply range_cmp_before.
    + apply (Hp r a). set_solver.
    + by apply (Hf (r', a')).
    + apply (Hp r' a'). set_solver.
Qed.

(** A point lookup among separated areas finds the area that contains it. *)
Lemma point_lookup m1 r a m2 va :
  proper_ranges (m1 ++ (r, a) :: m2) → separated (m1 ++ (r, a) :: m2) → r_start r ≤ va ≤ r_end r →
  bt_entry range_cmp (point va) (m1 ++ (r, a) :: m2) = Some (r, a) ∧
  bt_remove range_cmp (point va) (m1 ++ (r, a) :: m2) = Some ((r, a), m1 ++ m2).
Proof.
  intros Hp Hs Hva.
  assert (passes range_cmp (point va) m1) as Hpass.
  { apply Forall_forall. intros [r' a'] Hin. cbn.
    assert (r_end r' < r_start r) as Hlt.
    { clear -Hs Hin. induction m1 as [|e m1 IH]; [set_solver|].
      apply StronglySorted_inv in Hs as [Hs Hf]. rewrite Forall_forall in Hf.
      apply elem_of_cons in Hin as [<-|Hin]; [|by apply IH].
      apply (Hf (r, a)). set_solver. }
    apply (range_cmp_before r' (point va)); [apply (Hp r' a'); set_solver|cbn; lia|cbn; lia]. }
  split; [apply bt_entry_at|apply bt_remove_at]; try done; by apply range_cmp_point.
Qed.

Lemma separated_insert m1 r a m2 :
  proper_ranges (m1 ++ m2) → separated (m1 ++ m2) → r_start r ≤ r_end r →
  (∀ e, e ∈ m1 → r_end e.1 < r_start r) → (∀ e, e ∈ m2 → r_end r < r_start e.1) →
  proper_ranges (m1 ++ (r, a) :: m2) ∧ separated (m1 ++ (r, a) :: m2) ∧
  bt_get range_cmp r (m1 ++ m2) = None ∧
  bt_insert range_cmp r a (m1 ++ m2) = m1 ++ (r, a) :: m2.
Proof.
  intros Hp Hs Hr H1 H2.
  assert (passes range_cmp r m1) as Hpass.
  { apply Forall_forall. intros [r' a'] Hin. apply range_cmp_before; [|by apply (H1 (r', a'))|done].
    apply (Hp r' a'). set_solver. }
  assert (match m2 with [] => True | e :: _ => range_cmp r e.1 = Lt end) as Hm2.
  { destruct m2 as [|[r' a'] m2]; [done|]. apply range_cmp_before; [done|apply (H2 (r', a')); set_solver|].
    apply (Hp r' a'). set_solver. }
  split_and!.
  - intros r' a' [Hin|[[= -> ->]|Hin]%elem_of_cons]%elem_of_app; [|done|]; apply (Hp r' a'); set_solver.
  - clear Hpass Hp. induction m1 as [|e m1 IH].
    + cbn in *. constructor; [done|]. apply Forall_forall. intros e He. by apply H2.
    + cbn in Hs. apply StronglySorted_inv in Hs as [Hs Hf]. cbn. constructor.
      * apply IH; [done|]. intros e' He'. apply H1. set_solver.
      * rewrite Forall_forall in *. intros e' [He'|[->|He']%elem_of_cons]%elem_of_app.
        -- apply Hf. set_solver.
        -- apply H1. set_solver.
        -- apply Hf. set_solver.
  - unfold bt_get. clear Hp Hs H1. induction Hpass as [|[k x] m1 H _ IH]; cbn.
    + destruct m2 as [|[k x] m2]; cbn in *; [done|]. by rewrite Hm2.
    + cbn in H. by rewrite H.
  - by apply bt_insert_at.
Qed.

(** ** A new space *)

Lemma new_kernel_ok Rs K s A :
  world Rs s A → K ∈ Rs → (1 + 2 * length mmio_vpns ≤ length (f_free A))%nat →
  ∃ s' A' self, new_kernel K s = Ok (self, s') ∧
    space_ok (pt_root (page_table self) :: Rs) K s' A' self ∧ areas self = [] ∧
    (∀ v, 0 ≤ v < 2 ^ 26 → v ∉ mmio_vpns →
       view (st_words s') (pt_root (page_table self)) (indexes v) = None) ∧
    (length (f_free A) ≤ length (f_free A') + 1 + 2 * length mmio_vpns)%nat ∧ f_free A' ⊆ f_free A.
Proof.
  intros W HK Hfree. destruct (new_kernel_spec Rs s A K W HK Hfree) as
    (s' & A' & self & ns & Hs & W' & S & HQ & Har & Hns & Hv & HvQ & Ht).
  exists s', A', self. split_and!; try done.
  - split; try (rewrite Har); try done; [set_solver..|constructor|constructor|constructor|].
    intros v p Hin. by apply elem_of_nil in Hin.
  - intros v Hvb Hmm. rewrite HvQ; [by apply decide_True, top_of_low|apply key_ok_indexes|].
    intros (v' & Heq & Hv')%list_elem_of_fmap. apply indexes_inj_low in Heq as ->; [done..|].
    eapply (device_vpns_low MMIO); [apply mmio_bounds|done].
  - destruct (w_free _ _ _ _ _ _ S) as (l & Hl & Hp). apply Permutation_length in Hp.
    rewrite Hl, length_app. cbn [length] in Hp. lia.
  - destruct (w_free _ _ _ _ _ _ S) as (l & -> & _). set_solver.
Qed.

(** ** Inserting an area *)

(** Frames inserted in the order of their pages are appended. *)
Lemma insert_frames_append vpns : ∀ qs area,
  length qs = length vpns → StronglySorted Z.lt vpns →
  (∀ v k, v ∈ vpns → k ∈ (data_frames area).*1 → k < v) →
  data_frames (insert_frames (zip vpns qs) area) = data_frames area ++ zip vpns qs.
Proof.
  induction vpns as [|v vpns IH]; intros [|q qs] area Hlen Hs Hlt; try done; [by rewrite app_nil_r|].
  apply StronglySorted_inv in Hs as [Hs Hf]. rewrite Forall_forall in Hf.
  assert (data_frames (area_insert area v q) = data_frames area ++ [(v, q)]) as Happ.
  { cbn. rewrite <- (app_nil_r (data_frames area)) at 1. apply bt_insert_at; [|done].
    apply Forall_forall. intros [k x] Hin. apply Z.compare_gt_iff. cbn. apply Hlt; [set_solver|].
    by apply (list_elem_of_fmap_2 fst _ (k, x)). }
  change (insert_frames _ _) with (insert_frames (zip vpns qs) (area_insert area v q)).
  rewrite IH, Happ, <- app_assoc; try done; [by injection Hlen|].
  intros v' k Hv' Hk. rewrite Happ, fmap_app in Hk. apply elem_of_app in Hk as [Hk|Hk].
  - apply Hlt; [set_solver|done].
  - cbn in Hk. apply list_elem_of_singleton in Hk as ->. by apply Hf.
Qed.

Lemma range_sorted a b : StronglySorted Z.lt (range a b).
Proof.
  unfold range. set (n := b - a). clearbody n. clear b. destruct (decide (n ≤ 0)).
  { rewrite seqZ_nil by lia. constructor. }
  rewrite <- (Z2Nat.id n) by lia. generalize (Z.to_nat n). clear. intros n. revert a.
  induction n as [|n IH]; intros a; [constructor|]. rewrite seqZ_cons by lia.
  replace (Z.pred (Z.of_nat (S n))) with (Z.of_nat n) by lia. constructor; [apply IH|].
  apply Forall_forall. intros x Hx. apply elem_of_seqZ in Hx. lia.
Qed.

(** Fresh frames [qs] mapped for the pages [vpns] and recorded in the areas: the
    common part of [insert_framed_area] and [brk]. *)
Lemma add_frames_ok Rs K s A self self' perm vpns ts qs s1 A1 :
  let P := pt_root (page_table self) in
  space_ok Rs K s A self → NoDup vpns → length qs = length vpns →
  (∀ v, v ∈ vpns → 0 ≤ v < 2 ^ 26 ∧ (v ∉ mmio_vpns) ∧ view (st_words s) P (indexes v) = None) →
  pstep low P (set_views perm (zip vpns qs)) ts qs s A s1 A1 → (length ts ≤ 2 * length vpns)%nat →
  pt_root (page_table self') = P → areas_sorted (areas self') →
  all_frames (areas self') ≡ₚ zip vpns qs ++ all_frames (areas self) →
  space_ok Rs K s1 A1 self' ∧
  (∀ v q, (v, q) ∈ zip vpns qs →
     view (st_words s1) P (indexes v) = Some (pte_new q (Z.lor perm PTE_VALID)) ∧
     f_rc A1 !! q = Some 1 ∧ q ∈ f_free A) ∧
  (∀ v, 0 ≤ v < 2 ^ 26 → v ∉ vpns →
     view (st_words s1) P (indexes v) = view (st_words s) P (indexes v)) ∧
  (∀ R k, R ∈ Rs → R ≠ P → key_ok k → view (st_words s1) R k = view (st_words s) R k) ∧
  (∀ x j, held A x → (∀ R, R ∈ Rs → ¬ is_table (st_words s) R x) → idx_ok j →
     st_words s1 !! (page_va x + 8 * j) = st_words s !! (page_va x + 8 * j)) ∧
  (∀ x, held A x → f_rc A1 !! x = f_rc A !! x ∧
     ∀ R, R ∈ Rs → is_table (st_words s1) R x → is_table (st_words s) R x) ∧
  (length (f_free A) ≤ length (f_free A1) + 3 * length vpns)%nat ∧ f_free A1 ⊆ f_free A.
Proof.
  intros P [W HK HP Hsort Hnd1 Hnd2 Hpg] Hndv Hlen Hvp G Hts Hroot Hsort' Hall. fold P in HP, Hpg.
  destruct (world_step Rs P _ _ _ _ _ _ _ W HP G) as (S1 & HvP & Hv & Htab).
  destruct (w_free _ _ _ _ _ _ S1) as (fr & Hfr & Hperm).
  assert (NoDup (ts ++ qs)) as Hndq.
  { assert (NoDup (f_free A)) as Hn by (by destruct (st_rep_ok _ _ (w_rep _ _ _ W))).
    rewrite Hfr in Hn. apply NoDup_app in Hn as (Hn & _ & _). by rewrite Hperm in Hn. }
  assert ((zip vpns qs).*1 = vpns) as Hz1 by (apply fst_zip; lia).
  assert ((zip vpns qs).*2 = qs) as Hz2 by (apply snd_zip; lia).
  assert (NoDup (indexes <$> vpns)) as Hndi by (apply NoDup_indexes_low; [intros v Hx; by apply Hvp|done]).
  assert (∀ v p, (v, p) ∈ all_frames (areas self) → (v ∉ vpns) ∧ (p ∉ ts ++ qs)) as Hold.
  { intros v p Hin. destruct (Hpg v p Hin) as (_ & _ & (c & Hc & ?) & (w & Hw) & _).
    split; [intros Hv'; destruct (Hvp v Hv') as (_ & _ & ?); congruence|].
    eapply wstep_held; [exact W|exact S1|]. exists c. split; [done|lia]. }
  split_and!; [split; try done|..].
  - apply S1.
  - by rewrite Hroot.
  - rewrite Hall, fmap_app, Hz1. apply NoDup_app. split_and!; [done| |done].
    intros v Hv1 ([v' p] & -> & Hin)%list_elem_of_fmap. by destruct (Hold v' p Hin).
  - rewrite Hall, fmap_app, Hz2. apply NoDup_app in Hndq as (_ & _ & Hndq).
    apply NoDup_app. split_and!; [done| |done].
    intros p Hp ([v p'] & -> & Hin)%list_elem_of_fmap. destruct (Hold v p' Hin) as [_ Hn].
    apply Hn. set_solver.
  - intros v p. rewrite Hall, elem_of_app. rewrite Hroot. intros [Hin|Hin].
    + assert (v ∈ vpns) as Hv1 by (rewrite <- Hz1; by apply (list_elem_of_fmap_2 fst _ (v, p))).
      assert (p ∈ qs) as Hp1 by (rewrite <- Hz2; by apply (list_elem_of_fmap_2 snd _ (v, p))).
      destruct (Hvp v Hv1) as (Hvb & Hmm & _). split; [done|]. split; [done|]. split_and!.
      * exists 1. split; [apply (w_new _ _ _ _ _ _ S1); set_solver|lia].
      * eexists. rewrite HvP by apply key_ok_indexes. apply set_views_in; [|done]. by rewrite Hz1.
      * intros R HR Ht. destruct (Htab R p HR Ht) as [Hpt|Ht'].
        -- apply NoDup_app in Hndq as (_ & Hd & _). by apply (Hd p).
        -- assert (p ∉ ts ++ qs) as Hn; [|set_solver].
           eapply wstep_held; [exact W|exact S1|by eapply (world_table_held Rs s A R)].
    + destruct (Hold v p Hin) as [Hnv Hnp].
      destruct (Hpg v p Hin) as (Hvb & Hmm & (c & Hc & ?) & (w & Hw) & Hnt).
      split; [done|]. split; [done|]. split_and!.
      * exists c. by rewrite (w_rc _ _ _ _ _ _ S1).
      * exists w. rewrite HvP by apply key_ok_indexes. rewrite set_views_notin; [done|].
        rewrite Hz1. intros (v' & Heq & Hv')%list_elem_of_fmap.
        apply indexes_inj_low in Heq as ->; [done|done|by apply Hvp].
      * intros R HR Ht. destruct (Htab R p HR Ht) as [?|Ht']; [set_solver|by apply (Hnt R)].
  - intros v q Hin. rewrite HvP by apply key_ok_indexes.
    assert (q ∈ ts ++ qs) as Hq.
    { apply elem_of_app. right. rewrite <- Hz2. by apply (list_elem_of_fmap_2 snd _ (v, q)). }
    split_and!.
    + apply set_views_in; [by rewrite Hz1|done].
    + by apply (w_new _ _ _ _ _ _ S1).
    + rewrite Hfr. apply elem_of_app. left. by rewrite Hperm.
  - intros v Hvb Hnv. rewrite HvP by apply key_ok_indexes. apply set_views_notin. rewrite Hz1.
    intros (v' & Heq & Hv')%list_elem_of_fmap. apply indexes_inj_low in Heq as ->;
      [done|done|by apply Hvp].
  - done.
  - apply S1.
  - intros x Hx. destruct (wstep_held _ _ _ _ _ _ x W S1 Hx) as [_ Hn]. split; [by apply (w_rc _ _ _ _ _ _ S1)|].
    intros R HR Ht. destruct (Htab R x HR Ht); [set_solver|done].
  - apply Permutation_length in Hperm. rewrite length_app in Hperm. rewrite Hfr, length_app. lia.
  - rewrite Hfr. set_solver.
Qed.

Lemma insert_framed_area_ok Rs K s A self r perm vpns m1 m2 :
  let P := pt_root (page_table self) in
  space_ok Rs K s A self → areas self = m1 ++ m2 →
  proper_ranges (m1 ++ m2) → separated (m1 ++ m2) → r_start r ≤ r_end r →
  (∀ e, e ∈ m1 → r_end e.1 < r_start r) → (∀ e, e ∈ m2 → r_end r < r_start e.1) →
  vpn_range r = Ok vpns →
  (∀ v, v ∈ vpns → 0 ≤ v < 2 ^ 26 ∧ (v ∉ mmio_vpns) ∧ view (st_words s) P (indexes v) = None) →
  (3 * length vpns ≤ length (f_free A))%nat →
  ∃ s' A' self' qs, insert_framed_area self r perm None s = Ok (self', s') ∧
    let area := {| data_frames := zip vpns qs; map_type := Framed; map_perm := perm |} in
    length qs = length vpns ∧ space_ok Rs K s' A' self' ∧
    pt_root (page_table self') = P ∧ areas self' = m1 ++ (r, area) :: m2 ∧
    proper_ranges (areas self') ∧ separated (areas self') ∧
    (∀ v q, (v, q) ∈ zip vpns qs →
       view (st_words s') P (indexes v) = Some (pte_new q (Z.lor perm PTE_VALID)) ∧
       f_rc A' !! q = Some 1 ∧ q ∈ f_free A) ∧
    (∀ v, 0 ≤ v < 2 ^ 26 → v ∉ vpns →
       view (st_words s') P (indexes v) = view (st_words s) P (indexes v)) ∧
    (∀ R k, R ∈ Rs → R ≠ P → key_ok k → view (st_words s') R k = view (st_words s) R k) ∧
    (∀ x j, held A x → (∀ R, R ∈ Rs → ¬ is_table (st_words s) R x) → idx_ok j →
       st_words s' !! (page_va x + 8 * j) = st_words s !! (page_va x + 8 * j)) ∧
    (∀ x, held A x → f_rc A' !! x = f_rc A !! x ∧
       ∀ R, R ∈ Rs → is_table (st_words s') R x → is_table (st_words s) R x) ∧
    (length (f_free A) ≤ length (f_free A') + 3 * length vpns)%nat ∧ f_free A' ⊆ f_free A.
Proof.
  intros P Hok Hm Hprop Hsep Hr Hm1 Hm2 Hvr Hvp Hfree. pose proof Hok as [W HK HP _ _ _ _]. fold P in HP.
  apply vpn_range_Ok in Hvr as Hvr'. destruct Hvr' as (_ & _ & Hvpns).
  assert (NoDup vpns) as Hndv by (subst vpns; apply NoDup_range).
  destruct (map_frames_spec low false vpns (page_table self) (new_area Framed perm) s A)
    as (s1 & A1 & pt & ts & qs & Hlen & Hs1 & Hroot & G & Hts & _); try done.
  { apply W. } { by apply (w_wf _ _ _ W). }
  { apply NoDup_indexes_low; [intros v Hv; by apply Hvp|done]. } { intros v Hv. by apply Hvp. }
  { intros v Hv. apply top_of_low. by apply Hvp. }
  cbn [map_perm new_area] in G. fold P in G, Hroot.
  destruct (separated_insert m1 r (insert_frames (zip vpns qs) (new_area Framed perm)) m2)
    as (Hprop' & Hsep' & Hget & Hins); try done.
  assert (insert_frames (zip vpns qs) (new_area Framed perm) =
    {| data_frames := zip vpns qs; map_type := Framed; map_perm := perm |}) as Harea.
  { destruct (insert_frames_perm (zip vpns qs) (new_area Framed perm)) as [Hpm Htp].
    assert (data_frames (insert_frames (zip vpns qs) (new_area Framed perm)) = zip vpns qs) as Hdf.
    { rewrite insert_frames_append; [done|done|subst vpns; apply range_sorted|].
      intros v k _ Hk. by apply elem_of_nil in Hk. }
    destruct (insert_frames _ _). cbn in *. by subst. }
  rewrite Harea in *. set (area := {| data_frames := zip vpns qs |}) in *.
  set (self' := with_areas (with_table self pt) (m1 ++ (r, area) :: m2)).
  destruct (add_frames_ok Rs K s A self self' perm vpns ts qs s1 A1)
    as (Hok' & H1 & H2 & H3 & H4 & H5 & H6 & H7); try done.
  { by apply separated_sorted. }
  { rewrite Hm. unfold all_frames. cbn [areas self' with_areas]. rewrite !flat_map_app.
    cbn [flat_map snd area data_frames]. solve_Permutation. }
  exists s1, A1, self', qs. split_and!; try done.
  unfold insert_framed_area, pt_map. cbn [map_type new_area]. rewrite Hvr, M_bind_assoc. run_refl.
  run Hs1. unfold areas_insert. cbn [with_table areas]. rewrite Hm, Hget. run_refl. by rewrite Hins.
Qed.
End spaces.
