(* ===== verification/SpaceOps.v ===== *)
(** * Changing address spaces

    An address space is [exact] when the pages it maps in its user half are the
    devices and those of its areas.  [insert_framed_area], [remove_area] and a
    growing [brk] (kernel/src/mm/address_space.rs) keep it so; [remove_area] gives
    the frames of the area back. *)

From Stdlib Require Import Sorted.
From S2P Require Import Prelude Io Address Memory PhysPage Pte BTree PageTable PageMap World.
From S2P Require Import AddressSpace Cow Spaces.

(** The number of the page at or above an address *)
Abbreviation page_up x := ((x + 4095) `div` 4096).

Section exact.
Context {C : Config} {Cok : ConfigOk C} {Mok : MmioOk C} {St : Type} `{!FrameOps St, !FrameSource St}.
Implicit Types (s : St) (Rs : list Z).

Abbreviation root self := (pt_root (page_table self)).
Abbreviation pages self := ((all_frames (areas self)).*1).

Record exact Rs (K : Z) s (A : frames) (self : AddressSpace) : Prop := {
  ex_ok : space_ok Rs K s A self;
  ex_proper : proper_ranges (areas self);
  ex_separated : separated (areas self);
  ex_keys : ∀ r a, (r, a) ∈ areas self → vpn_range r = Ok (data_frames a).*1;
  ex_none : ∀ v, 0 ≤ v < 2 ^ 26 → v ∉ mmio_vpns → v ∉ pages self →
    view (st_words s) (root self) (indexes v) = None;
}.

(** A space without areas. *)
Lemma new_kernel_exact Rs K s A :
  world Rs s A → K ∈ Rs → (1 + 2 * length mmio_vpns ≤ length (f_free A))%nat →
  ∃ s' A' self, new_kernel K s = Ok (self, s') ∧ exact (root self :: Rs) K s' A' self ∧ areas self = [] ∧
    (length (f_free A) ≤ length (f_free A') + 1 + 2 * length mmio_vpns)%nat ∧ f_free A' ⊆ f_free A.
Proof.
  intros W HK Hf. destruct (new_kernel_ok Rs K s A W HK Hf) as (s' & A' & self & Hs & Hok & Har & Hv & Hl & Hsub).
  exists s', A', self. split_and!; try done. split; try (rewrite Har); try done.
  - apply proper_nil.
  - constructor.
  - intros r a Hin. by apply elem_of_nil in Hin.
  - intros v Hvb Hm _. by apply Hv.
Qed.

(** ** Places between areas *)

(** The pages of a range lie between its bounds. *)
Lemma vpn_range_bounds r l v : vpn_range r = Ok l → v ∈ l → r_start r `div` 4096 ≤ v ∧ v * 4096 < r_end r.
Proof.
  intros (_ & _ & ->)%vpn_range_Ok [H1 H2]%elem_of_range. split; [done|].
  pose proof (Z.mul_div_le (r_end r + 4095) 4096). lia.
Qed.

(** Areas that avoid a region are before it or behind it. *)
Lemma split_areas (l : list (VARange * MapArea)) lo hi : lo ≤ hi → proper_ranges l → separated l →
  (∀ e, e ∈ l → r_end e.1 < lo ∨ hi < r_start e.1) →
  ∃ m1 m2, l = m1 ++ m2 ∧ (∀ e, e ∈ m1 → r_end e.1 < lo) ∧ (∀ e, e ∈ m2 → hi < r_start e.1).
Proof.
  intros Hlh Hp Hs Ha. induction l as [|[r a] l IH].
  { exists [], []. split_and!; [done|set_solver..]. }
  apply StronglySorted_inv in Hs as [Hs Hf]. rewrite Forall_forall in Hf.
  destruct (Ha (r, a)) as [Hr|Hr]; [set_solver| |].
  - destruct IH as (m1 & m2 & -> & H1 & H2); [intros r' a' Hin; apply (Hp r' a'); set_solver|done|set_solver|].
    exists ((r, a) :: m1), m2. split_and!; [done|set_solver..].
  - exists [], ((r, a) :: l). split_and!; [done|set_solver|]. intros e [->|He]%elem_of_cons; [done|].
    specialize (Hf e He). pose proof (Hp r a ltac:(set_solver)). cbn in *. lia.
Qed.

Lemma pages_key v l : v ∈ (all_frames l).*1 → ∃ r a, (r, a) ∈ l ∧ v ∈ (data_frames a).*1.
Proof.
  intros ([v' p] & -> & (r & a & Hin & Hd)%elem_of_all_frames)%list_elem_of_fmap. exists r, a. split; [done|].
  by apply (list_elem_of_fmap_2 fst _ (v', p)).
Qed.

Lemma all_frames_app l1 l2 : all_frames (l1 ++ l2) = all_frames l1 ++ all_frames l2.
Proof. apply flat_map_app. Qed.

(** ** A new area *)

Definition free_region (self : AddressSpace) (lo hi : Z) : Prop :=
  lo `mod` 4096 = 0 ∧ hi `mod` 4096 = 0 ∧ 0 ≤ lo < hi ∧ hi ≤ 2 ^ 38 ∧
  (∀ v, v ∈ mmio_vpns → v * 4096 < lo ∨ hi ≤ v * 4096) ∧
  ∀ r a, (r, a) ∈ areas self → r_end r + 4096 ≤ lo ∨ hi + 4096 ≤ r_start r.

Lemma free_region_pages Rs K s A self lo hi v :
  exact Rs K s A self → free_region self lo hi → lo `div` 4096 ≤ v < hi `div` 4096 →
  0 ≤ v < 2 ^ 26 ∧ (v ∉ mmio_vpns) ∧ v ∉ pages self.
Proof.
  intros HE (Hlo & Hhi & Hb & Hh & Hm & Ha) Hv.
  split; [Z.div_mod_to_equations; lia|]. split.
  - intros Hin. specialize (Hm v Hin). Z.div_mod_to_equations. lia.
  - intros (r & a & Hin & Hk)%pages_key. pose proof (ex_keys _ _ _ _ _ HE r a Hin) as Hr.
    destruct (vpn_range_bounds _ _ _ Hr Hk) as [H1 H2].
    destruct (Ha r a Hin); Z.div_mod_to_equations; lia.
Qed.

Lemma insert_exact Rs K s A self lo hi perm :
  let vpns := range (lo `div` 4096) (hi `div` 4096) in
  exact Rs K s A self → free_region self lo hi → (3 * length vpns ≤ length (f_free A))%nat →
  ∃ s' A' self' m1 m2 qs, insert_framed_area self {| r_start := lo; r_end := hi |} perm None s = Ok (self', s') ∧
    let area := {| data_frames := zip vpns qs; map_type := Framed; map_perm := perm |} in
    length qs = length vpns ∧ exact Rs K s' A' self' ∧ root self' = root self ∧
    areas self = m1 ++ m2 ∧ areas self' = m1 ++ ({| r_start := lo; r_end := hi |}, area) :: m2 ∧
    (∀ v q, (v, q) ∈ zip vpns qs →
       view (st_words s') (root self) (indexes v) = Some (pte_new q (Z.lor perm PTE_VALID)) ∧
       f_rc A' !! q = Some 1 ∧ q ∈ f_free A) ∧
    (∀ v, 0 ≤ v < 2 ^ 26 → v ∉ vpns →
       view (st_words s') (root self) (indexes v) = view (st_words s) (root self) (indexes v)) ∧
    (∀ R k, R ∈ Rs → R ≠ root self → key_ok k → view (st_words s') R k = view (st_words s) R k) ∧
    (∀ x j, held A x → (∀ R, R ∈ Rs → ¬ is_table (st_words s) R x) → idx_ok j →
       st_words s' !! (page_va x + 8 * j) = st_words s !! (page_va x + 8 * j)) ∧
    (∀ x, held A x → f_rc A' !! x = f_rc A !! x ∧
       ∀ R, R ∈ Rs → is_table (st_words s') R x → is_table (st_words s) R x) ∧
    (length (f_free A) ≤ length (f_free A') + 3 * length vpns)%nat ∧ f_free A' ⊆ f_free A.
Proof.
  intros vpns HE Hreg Hfree. pose proof Hreg as (Hlo & Hhi & Hb & Hh & Hm & Ha).
  set (r := {| r_start := lo; r_end := hi |}).
  assert (vpn_range r = Ok vpns) as Hvr.
  { apply vpn_range_Ok. cbn. split_and!; [lia..|]. unfold vpns. f_equal. Z.div_mod_to_equations. lia. }
  destruct (split_areas (areas self) lo hi) as (m1 & m2 & Hm12 & H1 & H2); [lia|apply HE|apply HE| |].
  { intros [r' a'] Hin. destruct (Ha r' a' Hin); cbn; lia. }
  assert (proper_ranges (m1 ++ m2) ∧ separated (m1 ++ m2)) as [Hp Hs] by (rewrite <- Hm12; split; apply HE).
  destruct (insert_framed_area_ok Rs K s A self r perm vpns m1 m2) as
    (s' & A' & self' & qs & Hrun & Hlen & Hok & Hroot & Har & Hp' & Hs' & Hnew & Hold & Hoth & Hdata & Hheld & Hfr & Hsub);
    [apply HE|done..|cbn; lia|exact H1|exact H2|done| |done|].
  { intros v Hv%elem_of_range. destruct (free_region_pages Rs K s A self lo hi v HE Hreg Hv) as (? & ? & ?).
    split_and!; try done; try lia. by apply (ex_none _ _ _ _ _ HE). }
  exists s', A', self', m1, m2, qs. split; [done|]. intros area. split_and!; try done. split; try done.
  - intros r' a' Hin. rewrite Har, elem_of_app, elem_of_cons in Hin.
    assert ((r', a') ∈ areas self ∨ (r', a') = (r, {| data_frames := zip vpns qs; map_type := Framed; map_perm := perm |}))
      as [Hin'|Heq] by (rewrite Hm12; set_solver); [by apply HE|].
    injection Heq as -> ->. cbn [data_frames]. rewrite fst_zip by lia. done.
  - intros v Hvb Hmm Hnv. rewrite Hroot.
    assert ((v ∉ vpns) ∧ (v ∉ pages self)) as [Hv1 Hv2].
    { rewrite Har, all_frames_app, all_frames_cons, !fmap_app in Hnv. cbn [data_frames] in Hnv.
      rewrite fst_zip in Hnv by lia. rewrite Hm12, all_frames_app, fmap_app. set_solver. }
    rewrite Hold by done. by apply HE.
Qed.

(** ** Removing an area *)

(** The address map without some pages. *)
Definition unset_views (L : list Z) (k : key) (v : option Z) : option Z :=
  if decide (k ∈ indexes <$> L) then None else v.

Lemma unmap_list_spec pt L : ∀ s A,
  st_rep s A → pt_wf (st_words s) A (pt_root pt) → NoDup (indexes <$> L) →
  (∀ v, v ∈ L → low (top_of v) ∧ is_Some (view (st_words s) (pt_root pt) (indexes v))) →
  ∃ s', for_each L (unmap_one pt) s = Ok (tt, s') ∧
    pstep low (pt_root pt) (unset_views L) [] [] s A s' A.
Proof.
  induction L as [|v L IH]; intros s A Hrep Hwf Hnd HL.
  { exists s. split; [done|]. eapply pstep_ext; [|by apply pstep_refl]. done. }
  rewrite fmap_cons in Hnd. apply NoDup_cons in Hnd as [Hnin Hnd].
  destruct (HL v) as (Hlow & w & Hw); [set_solver|].
  destruct (unmap_one_eq s A pt v w Hrep Hwf Hw) as (s1 & Hs1 & G).
  assert (pstep low (pt_root pt) (set_view (indexes v) None) [] [] s A s1 A) as P1
    by (eapply pstep_mono, grow_pstep, G; by intros i <-).
  destruct (IH s1 A) as (s2 & Hs2 & P2); [apply P1|apply P1|done| |].
  { intros v' Hv'. destruct (HL v') as (? & w' & Hw'); [set_solver|]. split; [done|]. exists w'.
    rewrite (p_view P1) by apply key_ok_indexes. unfold set_view. rewrite decide_False; [done|].
    intros Heq. apply Hnin. rewrite <- Heq. by apply list_elem_of_fmap_2. }
  exists s2. split; [cbn [for_each]; by run Hs1|].
  eapply (pstep_ext _ _ (λ k u, unset_views L k (set_view (indexes v) None k u))).
  { intros k u. unfold unset_views, set_view. rewrite fmap_cons. repeat case_decide; try done; set_solver. }
  by apply (pstep_trans _ _ _ _ [] [] [] [] _ _ s1 A).
Qed.

(** Dropping frames that are not tables: each loses one reference, and the frames
    whose last reference it was are free again. *)
Record dropped Rs (ps : list Z) s (A : frames) s' (A' : frames) : Prop := {
  d_world : world Rs s' A';
  d_rc : ∀ x, f_rc A' !! x = if decide (x ∈ ps) then Z.pred <$> f_rc A !! x else f_rc A !! x;
  d_free : ∃ l, f_free A' = l ++ f_free A ∧ NoDup l ∧ ∀ x, x ∈ l ↔ x ∈ ps ∧ f_rc A !! x = Some 1;
  d_view : ∀ R k, R ∈ Rs → key_ok k → view (st_words s') R k = view (st_words s) R k;
  d_table : ∀ R x, R ∈ Rs → is_table (st_words s') R x ↔ is_table (st_words s) R x;
  d_same : same_held A' s s';
}.

Lemma drop_one Rs s A p c :
  world Rs s A → f_rc A !! p = Some c → 0 < c → (∀ R, R ∈ Rs → ¬ is_table (st_words s) R p) →
  ∃ s', frame_drop p s = Ok (tt, s') ∧ dropped Rs [p] s A s' (frames_drop p c A).
Proof.
  intros W Hc Hpos Hnt. destruct (frame_drop_ok s A p c (w_rep _ _ _ W) Hc Hpos) as (s' & Hs & Hrep & Hsame).
  exists s'. split; [done|].
  assert (∀ x, x ≠ p → held A x → held (frames_drop p c A) x) as Hh.
  { intros x Hx (cx & Hcx & ?). exists cx. cbn. by rewrite lookup_insert_ne. }
  assert (∀ R x, R ∈ Rs → is_table (st_words s) R x → held (frames_drop p c A) x) as Ht.
  { intros R x HR Hx. apply Hh; [intros ->; by apply (Hnt R)|by eapply world_table_held]. }
  destruct (world_tables Rs s A s' (frames_drop p c A) W Hrep Ht) as (W' & Hv & Htab & _).
  { intros R x j HR Hx Hj. apply Hsame; [by eapply Ht|done]. }
  split; try done.
  - intros x. cbn. rewrite lookup_insert. case_decide as H1; subst.
    + rewrite decide_True by set_solver. rewrite Hc. done.
    + by rewrite decide_False by set_solver.
  - cbn. destruct (Z.eqb_spec c 1) as [->|Hne].
    + exists [p]. split; [done|]. split; [apply NoDup_singleton|]. set_solver.
    + exists []. split; [done|]. split; [constructor|]. intros x. rewrite list_elem_of_singleton.
      split; [by intros ?%elem_of_nil|]. intros [-> H]. rewrite Hc in H. by simplify_eq.
Qed.

Lemma drop_list Rs (L : list (Z * Z)) : ∀ s A,
  world Rs s A → NoDup L.*2 →
  (∀ p, p ∈ L.*2 → held A p ∧ ∀ R, R ∈ Rs → ¬ is_table (st_words s) R p) →
  ∃ s' A', for_each L (λ e, frame_drop e.2) s = Ok (tt, s') ∧ dropped Rs L.*2 s A s' A'.
Proof.
  induction L as [|[v p] L IH]; intros s A W Hnd HL.
  { exists s, A. split; [done|]. split; try done. exists []. split; [done|]. split; [constructor|]. set_solver. }
  cbn [fmap list_fmap snd] in Hnd, HL. apply NoDup_cons in Hnd as [Hp Hnd].
  destruct (HL p) as ((c & Hc & Hpos) & Hnt); [set_solver|].
  destruct (drop_one Rs s A p c W Hc Hpos Hnt) as (s1 & Hs1 & D1).
  destruct (IH s1 (frames_drop p c A)) as (s2 & A2 & Hs2 & D2); [apply D1|done| |].
  { intros q Hq. destruct (HL q) as ((cq & Hcq & ?) & Hntq); [set_solver|]. split.
    - exists cq. rewrite (d_rc _ _ _ _ _ _ D1), decide_False; [done|]. set_solver.
    - intros R HR. rewrite (d_table _ _ _ _ _ _ D1) by done. by apply Hntq. }
  exists s2, A2. split; [cbn [for_each]; by run Hs1|]. destruct D1 as [W1 Hrc1 Hf1 Hv1 Ht1 Hs1'], D2 as [W2 Hrc2 Hf2 Hv2 Ht2 Hs2'].
  change ((v, p) :: L).*2 with (p :: L.*2). split; try done.
  - intros x. rewrite Hrc2, Hrc1. destruct (decide (x = p)) as [->|Hx].
    + rewrite (decide_False (P := p ∈ L.*2)), !decide_True by (done || constructor). done.
    + destruct (decide (x ∈ L.*2)) as [Hl|Hl].
      * rewrite (decide_True (P := x ∈ p :: L.*2)) by (by constructor). rewrite decide_False; [done|]. by intros ?%list_elem_of_singleton.
      * rewrite !decide_False; [done|by intros [?|?]%elem_of_cons|by intros ?%list_elem_of_singleton].
  - destruct Hf1 as (l1 & Hl1 & Hn1 & Hx1), Hf2 as (l2 & Hl2 & Hn2 & Hx2). exists (l2 ++ l1).
    rewrite Hl2, Hl1, app_assoc. split; [done|].
    assert (∀ x, x ∈ l2 ↔ x ∈ L.*2 ∧ f_rc A !! x = Some 1) as Hx2'.
    { intros x. rewrite Hx2, Hrc1. case_decide as Hx; [|done]. apply list_elem_of_singleton in Hx as ->. naive_solver. }
    split.
    + apply NoDup_app. split_and!; [done| |done]. intros x [? _]%Hx2' [? _]%Hx1. set_solver.
    + intros x. rewrite elem_of_app, Hx1, Hx2'. set_solver.
  - intros R k HR Hk. by rewrite Hv2, Hv1.
  - intros R x HR. by rewrite Ht2, Ht1.
  - intros x j Hx Hj. rewrite Hs2' by done. apply Hs1'; [|done].
    destruct Hx as (cx & Hcx & ?). rewrite Hrc2 in Hcx. case_decide.
    + destruct (f_rc (frames_drop p c A) !! x) as [c0|] eqn:E; [|done]. cbn in Hcx. exists c0. split; [done|].
      injection Hcx as <-. lia.
    + by exists cx.
Qed.

(** The pages of an area: in the lower half, mapped, with frames that are held and
    are not tables. *)
Lemma area_pages Rs K s A self m1 r a m2 v p :
  exact Rs K s A self → areas self = m1 ++ (r, a) :: m2 → (v, p) ∈ data_frames a →
  0 ≤ v < 2 ^ 26 ∧ (v ∉ mmio_vpns) ∧ held A p ∧
  is_Some (view (st_words s) (root self) (indexes v)) ∧ ∀ R, R ∈ Rs → ¬ is_table (st_words s) R p.
Proof.
  intros HE Har Hin. destruct (sp_page _ _ _ _ _ (ex_ok _ _ _ _ _ HE) v p) as (Hv & Hm & (c & Hc & ?) & Hw & Ht).
  - apply elem_of_all_frames. exists r, a. rewrite Har. set_solver.
  - split; [done|]. split; [done|]. split; [exists c; split; [done|lia]|]. split; [|done]. by destruct Hw as [w Hw]; exists w.
Qed.

Lemma area_key v (a : MapArea) : v ∈ (data_frames a).*1 → ∃ p, (v, p) ∈ data_frames a.
Proof. intros ([v' p] & -> & Hin)%list_elem_of_fmap. by exists p. Qed.

(** What is left when an area is taken out. *)
Lemma areas_without m1 r a m2 :
  all_frames (m1 ++ (r, a) :: m2) ≡ₚ data_frames a ++ all_frames (m1 ++ m2).
Proof. rewrite !all_frames_app, all_frames_cons. solve_Permutation. Qed.

Lemma separated_without m1 e m2 : separated (m1 ++ e :: m2) → separated (m1 ++ m2).
Proof.
  induction m1 as [|e' m1 IH]; cbn; intros H; [by apply StronglySorted_inv in H as [? _]|].
  apply StronglySorted_inv in H as [H Hf]. constructor; [by apply IH|].
  rewrite Forall_forall in *. intros x Hx. apply Hf. set_solver.
Qed.

Lemma separated_before m1 r a m2 : separated (m1 ++ (r, a) :: m2) → ∀ e, e ∈ m1 → r_end e.1 < r_start r.
Proof.
  intros Hs e He. induction m1 as [|e' m1 IH]; [set_solver|]. apply StronglySorted_inv in Hs as [Hs Hf].
  apply elem_of_cons in He as [->|He]; [|by apply IH]. rewrite Forall_forall in Hf. apply (Hf (r, a)). set_solver.
Qed.

Lemma remove_exact Rs K s A self m1 r a m2 va :
  exact Rs K s A self → areas self = m1 ++ (r, a) :: m2 → r_start r ≤ va ≤ r_end r →
  ∃ s' A' self', remove_area self va s = Ok (self', s') ∧ exact Rs K s' A' self' ∧
    self' = with_areas self (m1 ++ m2) ∧
    (∀ v, v ∈ (data_frames a).*1 → view (st_words s') (root self) (indexes v) = None) ∧
    (∀ v, 0 ≤ v < 2 ^ 26 → v ∉ (data_frames a).*1 →
       view (st_words s') (root self) (indexes v) = view (st_words s) (root self) (indexes v)) ∧
    (∀ R k, R ∈ Rs → R ≠ root self → key_ok k → view (st_words s') R k = view (st_words s) R k) ∧
    (∀ x, f_rc A' !! x = if decide (x ∈ (data_frames a).*2) then Z.pred <$> f_rc A !! x else f_rc A !! x) ∧
    (∃ l, f_free A' = l ++ f_free A ∧ NoDup l ∧ ∀ x, x ∈ l ↔ x ∈ (data_frames a).*2 ∧ f_rc A !! x = Some 1) ∧
    (∀ x j, held A' x → (∀ R, R ∈ Rs → ¬ is_table (st_words s) R x) → idx_ok j →
       st_words s' !! (page_va x + 8 * j) = st_words s !! (page_va x + 8 * j)).
Proof.
  intros HE Har Hva. pose proof HE as [[W HK HP Hsort Hnd1 Hnd2 Hpg] Hprop Hsep Hkeys Hnone].
  assert (vpn_range r = Ok (data_frames a).*1) as Hvr by (apply Hkeys; rewrite Har; set_solver).
  rewrite Har, areas_without, !fmap_app in Hnd1, Hnd2.
  apply NoDup_app in Hnd1 as (Hnda1 & Hdis1 & Hndr1). apply NoDup_app in Hnd2 as (Hnda2 & Hdis2 & Hndr2).
  assert (∀ v, v ∈ (data_frames a).*1 → 0 ≤ v < 2 ^ 26 ∧ is_Some (view (st_words s) (root self) (indexes v))) as Hap.
  { intros v [p Hin]%area_key. by destruct (area_pages _ _ _ _ _ _ _ _ _ _ _ HE Har Hin) as (? & _ & _ & ? & _). }
  destruct (unmap_list_spec (page_table self) (data_frames a).*1 s A) as (s1 & Hs1 & P1).
  { apply W. } { by apply W. } { apply NoDup_indexes_low; [intros v Hv; by apply Hap|done]. }
  { intros v Hv. destruct (Hap v Hv). split; [by apply top_of_low|done]. }
  destruct (world_step Rs (root self) _ _ _ _ _ _ _ W HP P1) as (S1 & HvP & HvR & Htab).
  assert (∀ p, p ∈ (data_frames a).*2 → held A p ∧ ∀ R, R ∈ Rs → ¬ is_table (st_words s1) R p) as Hdrop.
  { intros p ([v p'] & -> & Hin)%list_elem_of_fmap. destruct (area_pages _ _ _ _ _ _ _ _ _ _ _ HE Har Hin) as (_ & _ & Hh & _ & Hnt).
    split; [done|]. intros R HR Ht. destruct (Htab R p' HR Ht) as [Hx|Hx]; [by apply elem_of_nil in Hx|by apply (Hnt R)]. }
  destruct (drop_list Rs (data_frames a) s1 A (w_world _ _ _ _ _ _ S1) Hnda2 Hdrop) as (s2 & A2 & Hs2 & D).
  assert (∀ v, 0 ≤ v < 2 ^ 26 → view (st_words s2) (root self) (indexes v) =
    if decide (v ∈ (data_frames a).*1) then None else view (st_words s) (root self) (indexes v)) as Hview.
  { intros v Hv. rewrite (d_view _ _ _ _ _ _ D), HvP by (done || apply key_ok_indexes). unfold unset_views.
    destruct (decide (v ∈ (data_frames a).*1)) as [H1|H1].
    - rewrite decide_True; [done|]. by apply list_elem_of_fmap_2.
    - rewrite decide_False; [done|]. intros (v' & Heq & Hin)%list_elem_of_fmap.
      apply indexes_inj_low in Heq as ->; [done|done|by apply Hap]. }
  assert (∀ v p, (v, p) ∈ all_frames (m1 ++ m2) → (v, p) ∈ all_frames (areas self) ∧
    (v ∉ (data_frames a).*1) ∧ p ∉ (data_frames a).*2) as Hrest.
  { intros v p Hin. split; [rewrite Har, areas_without; set_solver|].
    split; intros Hx; [apply (Hdis1 v Hx)|apply (Hdis2 p Hx)].
    - by apply (list_elem_of_fmap_2 fst _ (v, p)).
    - by apply (list_elem_of_fmap_2 snd _ (v, p)). }
  destruct (point_lookup m1 r a m2 va) as [_ Hrm]; [by rewrite <- Har|by rewrite <- Har|done|].
  exists s2, A2, (with_areas self (m1 ++ m2)). split_and!; try done.
  - unfold remove_area. rewrite Har, Hrm. run_refl. cbn beta iota zeta. erewrite M_bind_eq; [|by rewrite Hvr]. run Hs1. unfold area_drop. by run Hs2.
  - split; cbn [with_areas areas page_table].
    + split; cbn [with_areas areas page_table]; try done; [apply D| |].
      * apply separated_sorted; [|by apply (separated_without m1 (r, a)); rewrite <- Har].
        intros r' a' Hin. apply (Hprop r' a'). rewrite Har. set_solver.
      * intros v p Hin. destruct (Hrest v p Hin) as (Hin' & Hv' & Hp'). destruct (Hpg v p Hin') as (Hvb & Hm & (c & Hc & ?) & Hw & Hnt).
        split; [done|]. split; [done|]. split_and!.
        -- exists c. by rewrite (d_rc _ _ _ _ _ _ D), decide_False.
        -- by rewrite Hview, decide_False.
        -- intros R HR. rewrite (d_table _ _ _ _ _ _ D) by done. intros Ht.
           destruct (Htab R p HR Ht) as [Hx|Hx]; [by apply elem_of_nil in Hx|by apply (Hnt R)].
    + intros r' a' Hin. apply (Hprop r' a'). rewrite Har. set_solver.
    + apply (separated_without m1 (r, a)). by rewrite <- Har.
    + intros r' a' Hin. apply Hkeys. rewrite Har. set_solver.
    + intros v Hvb Hm Hnv. rewrite Hview by done. case_decide; [done|]. apply Hnone; [done..|].
      rewrite Har, areas_without, fmap_app. set_solver.
  - intros v Hv. rewrite Hview by (by apply Hap). by rewrite decide_True.
  - intros v Hvb Hv. by rewrite Hview, decide_False.
  - intros R k HR Hne Hk. rewrite (d_view _ _ _ _ _ _ D) by done. by apply HvR.
  - apply D.
  - apply D.
  - intros x j Hx Hnt Hj. rewrite (d_same _ _ _ _ _ _ D) by done. apply (w_same _ _ _ _ _ _ S1); [|done..].
    destruct Hx as (c & Hc & ?). rewrite (d_rc _ _ _ _ _ _ D) in Hc. case_decide; [by apply Hdrop|by exists c].
Qed.

(** ** Growing the heap *)

(** The area that ends at the end of the data segment, and what is around it: no
    device and no other area up to [top]. *)
Definition heap_area (self : AddressSpace) m1 r a m2 (top : Z) : Prop :=
  areas self = m1 ++ (r, a) :: m2 ∧ r_end r = data_segment_end self ∧ 0 ≤ r_start r ∧
  top + 4096 ≤ 2 ^ 38 ∧ (∀ e, e ∈ m2 → top + 4096 ≤ r_start e.1) ∧
  ∀ v, v ∈ mmio_vpns → v * 4096 < r_end r ∨ top ≤ v * 4096.

Lemma heap_new_pages Rs K s A self m1 r a m2 top v :
  exact Rs K s A self → heap_area self m1 r a m2 top → page_up (r_end r) ≤ v < page_up top →
  0 ≤ v < 2 ^ 26 ∧ (v ∉ mmio_vpns) ∧ view (st_words s) (root self) (indexes v) = None.
Proof.
  intros HE (Har & Hend & Hr0 & Ht & Hm2 & Hm) Hv.
  assert (r_start r ≤ r_end r) as Hr by (apply (ex_proper _ _ _ _ _ HE r a); rewrite Har; set_solver).
  assert (0 ≤ v < 2 ^ 26) as Hvb by (Z.div_mod_to_equations; lia).
  assert (v ∉ mmio_vpns) as Hvm by (intros Hin; specialize (Hm v Hin); Z.div_mod_to_equations; lia).
  split_and!; try done; try lia. apply (ex_none _ _ _ _ _ HE); try done.
  intros (r' & a' & Hin & Hk)%pages_key. destruct (vpn_range_bounds _ _ _ (ex_keys _ _ _ _ _ HE r' a' Hin) Hk) as [H1 H2].
  rewrite Har, elem_of_app, elem_of_cons in Hin. destruct Hin as [Hin|[Heq|Hin]].
  - pose proof (ex_separated _ _ _ _ _ HE) as Hs. rewrite Har in Hs.
    pose proof (separated_before _ _ _ _ Hs _ Hin). cbn in *. Z.div_mod_to_equations. lia.
  - injection Heq as -> ->. Z.div_mod_to_equations. lia.
  - specialize (Hm2 _ Hin). cbn in Hm2. Z.div_mod_to_equations. lia.
Qed.

Lemma round_up_page_up v : 0 ≤ v → v + 4096 < 2 ^ 64 → round_up v PAGE_SIZE = Ok (page_up v * 4096).
Proof.
  intros H1 H2. pose proof (round_up_eq v 12) as Hx. change (2 ^ 12) with 4096 in Hx. rewrite PAGE_SIZE_eq, Hx by lia.
  rewrite Z.mul_comm. by replace (v + 4096 - 1) with (v + 4095) by lia.
Qed.

(** The pages [brk] adds are those between the old end and the new one, none when
    both are in one page. *)
Lemma brk_pages (st : PageTableImpl * MapArea) e addr s :
  0 ≤ e ≤ addr → 0 < addr → addr + 4096 ≤ 2 ^ 38 →
  (if page_up e * 4096 <=? addr then
     vpns ← lift (vpn_range {| r_start := page_up e * 4096; r_end := addr |}); for_pages vpns brk_page st
   else mret st) s = for_pages (range (page_up e) (page_up addr)) brk_page st s.
Proof.
  intros He Ha Hb. destruct (Z.leb_spec (page_up e * 4096) addr) as [Hle|Hlt].
  - assert (vpn_range {| r_start := page_up e * 4096; r_end := addr |} = Ok (range (page_up e) (page_up addr))) as Hv.
    { apply vpn_range_Ok. cbn. split_and!; [lia..|]. by rewrite Z.div_mul. }
    erewrite M_bind_eq; [done|]. by rewrite Hv.
  - replace (range (page_up e) (page_up addr)) with (@nil Z); [done|].
    unfold range. rewrite seqZ_nil; [done|]. Z.div_mod_to_equations. lia.
Qed.

Lemma range_app a b c : a ≤ b ≤ c → range a c = range a b ++ range b c.
Proof.
  intros H. unfold range. replace (c - a) with ((b - a) + (c - b)) by lia. rewrite seqZ_app by lia.
  by replace (a + (b - a)) with b by lia.
Qed.

Lemma brk_grow Rs K s A self m1 r a m2 addr :
  let vpns := range (page_up (r_end r)) (page_up addr) in
  exact Rs K s A self → heap_area self m1 r a m2 addr → r_end r ≤ addr ≤ data_segment_max self →
  (3 * length vpns ≤ length (f_free A))%nat →
  ∃ s' A' self' qs, brk self addr s = Ok ((self', addr), s') ∧
    length qs = length vpns ∧ exact Rs K s' A' self' ∧ root self' = root self ∧
    data_segment_end self' = addr ∧ data_segment_max self' = data_segment_max self ∧
    areas self' = m1 ++ ({| r_start := r_start r; r_end := addr |},
      {| data_frames := data_frames a ++ zip vpns qs; map_type := map_type a; map_perm := map_perm a |}) :: m2 ∧
    (∀ v q, (v, q) ∈ zip vpns qs →
       view (st_words s') (root self) (indexes v) = Some (pte_new q (Z.lor (map_perm a) PTE_VALID)) ∧
       f_rc A' !! q = Some 1 ∧ q ∈ f_free A) ∧
    (∀ v, 0 ≤ v < 2 ^ 26 → v ∉ vpns →
       view (st_words s') (root self) (indexes v) = view (st_words s) (root self) (indexes v)) ∧
    (∀ R k, R ∈ Rs → R ≠ root self → key_ok k → view (st_words s') R k = view (st_words s) R k) ∧
    (∀ x j, held A x → (∀ R, R ∈ Rs → ¬ is_table (st_words s) R x) → idx_ok j →
       st_words s' !! (page_va x + 8 * j) = st_words s !! (page_va x + 8 * j)) ∧
    (∀ x, held A x → f_rc A' !! x = f_rc A !! x ∧
       ∀ R, R ∈ Rs → is_table (st_words s') R x → is_table (st_words s) R x).
Proof.
  intros vpns HE Hheap Haddr Hfree. pose proof Hheap as (Har & Hend & Hr0 & Ht & Hm2 & _).
  pose proof HE as [Hok Hprop Hsep Hkeys Hnone]. pose proof Hok as [W _ HP _ _ _ _].
  assert (r_start r ≤ r_end r) as Hr by (apply (Hprop r a); rewrite Har; set_solver).
  assert (vpn_range r = Ok (data_frames a).*1) as Hvr by (apply Hkeys; rewrite Har; set_solver).
  apply vpn_range_Ok in Hvr as Hvr'. destruct Hvr' as (He1 & He2 & Hkr).
  assert (∀ v, v ∈ vpns → 0 ≤ v < 2 ^ 26 ∧ (v ∉ mmio_vpns) ∧ view (st_words s) (root self) (indexes v) = None) as Hvp.
  { intros v Hv%elem_of_range. by eapply heap_new_pages. }
  assert (NoDup vpns) as Hndv by apply NoDup_range.
  destruct (map_frames_spec low false vpns (page_table self) a s A)
    as (s1 & A1 & pt & ts & qs & Hlen & Hs1 & Hroot & G & Hts & _); try done.
  { apply W. } { by apply (w_wf _ _ _ W). }
  { apply NoDup_indexes_low; [intros v Hv; by apply Hvp|done]. } { intros v Hv. by apply Hvp. }
  { intros v Hv. apply top_of_low. by apply Hvp. }
  assert (insert_frames (zip vpns qs) a =
    {| data_frames := data_frames a ++ zip vpns qs; map_type := map_type a; map_perm := map_perm a |}) as Harea.
  { destruct (insert_frames_perm (zip vpns qs) a) as [Hpm Htp].
    assert (data_frames (insert_frames (zip vpns qs) a) = data_frames a ++ zip vpns qs) as Hdf.
    { apply insert_frames_append; [done|apply range_sorted|]. intros v k Hv%elem_of_range Hk.
      rewrite Hkr in Hk. apply elem_of_range in Hk. lia. }
    destruct (insert_frames _ _). cbn in *. by subst. }
  rewrite Harea in Hs1. set (area := {| data_frames := data_frames a ++ zip vpns qs |}) in *.
  set (r' := {| r_start := r_start r; r_end := addr |}).
  assert (proper_ranges (m1 ++ m2) ∧ separated (m1 ++ m2)) as [Hp0 Hs0].
  { split; [intros r0 a0 Hin; apply (Hprop r0 a0); rewrite Har; set_solver|].
    apply (separated_without m1 (r, a)). by rewrite <- Har. }
  destruct (separated_insert m1 r' area m2) as (Hprop' & Hsep' & Hget & Hins); try done.
  { cbn. lia. }
  { apply (separated_before m1 r a m2). by rewrite <- Har. }
  { intros e He. specialize (Hm2 e He). cbn. lia. }
  set (self' := with_areas (with_segment (with_areas (with_table self pt) (m1 ++ m2)) addr (data_segment_max self)) (m1 ++ (r', area) :: m2)).
  destruct (add_frames_ok Rs K s A self self' (map_perm a) vpns ts qs s1 A1)
    as (Hok' & H1 & H2 & H3 & H4 & H5 & _); try done.
  { by apply separated_sorted. }
  { rewrite Har. cbn [areas self' with_areas]. rewrite !areas_without. cbn [area data_frames]. solve_Permutation. }
  destruct (point_lookup m1 r a m2 (data_segment_end self)) as [_ Hrm]; [by rewrite <- Har|by rewrite <- Har|lia|].
  assert (exact Rs K s1 A1 self') as HE'.
  { split; try done; cbn [areas self' with_areas].
    - intros r0 a0 Hin.
      assert ((r0, a0) ∈ areas self ∨ (r0, a0) = (r', area)) as [Hin'|Heq] by (rewrite Har; set_solver); [by apply Hkeys|].
      injection Heq as -> ->. apply vpn_range_Ok. cbn [r' r_start r_end area data_frames]. split_and!; [lia..|].
      rewrite fmap_app, fst_zip, Hkr by lia. unfold vpns.
      symmetry. apply range_app. split; Z.div_mod_to_equations; lia.
    - intros v Hvb Hmm. rewrite areas_without, fmap_app. cbn [area data_frames]. rewrite fmap_app, fst_zip by lia.
      intros Hnv. change (root self') with (pt_root pt). rewrite Hroot, H2 by (done || set_solver). apply Hnone; [done..|].
      rewrite Har, areas_without, fmap_app. set_solver. }
  exists s1, A1, self', qs. split; [|by split_and!].
  unfold brk. rewrite <- Hend in *. rewrite round_up_page_up by lia. run_refl. replace (addr =? 0) with false by lia. replace (data_segment_max self <? addr) with false by lia.
  rewrite Har, Hrm. run_refl. cbn beta iota zeta.
  erewrite M_bind_eq; [|rewrite (brk_pages (page_table self, a) (r_end r) addr s); [exact Hs1|lia..]]. cbn beta iota zeta.
  unfold areas_insert. cbn [with_segment with_areas with_table areas]. fold r'. rewrite Hget, M_bind_assoc. run_refl. run_refl.
  rewrite Hins. unfold as_isize. by replace (addr <? 2 ^ 63) with true by lia.
Qed.

(** ** Shrinking the heap *)

(** A lower end is only recorded: no page is unmapped and no frame is dropped. *)
Lemma brk_shrink Rs K s A self m1 r a m2 top addr :
  exact Rs K s A self → heap_area self m1 r a m2 top → 0 < addr → r_start r ≤ addr →
  page_up addr < page_up (r_end r) → r_end r ≤ data_segment_max self → r_end r ≤ top →
  brk self addr s = Ok ((with_segment (with_areas self (m1 ++ ({| r_start := r_start r; r_end := addr |}, a) :: m2))
    addr (data_segment_max self), addr), s).
Proof.
  intros HE (Har & Hend & Hr0 & Ht & Hm2 & _) Ha0 Ha Hpg Hmax Htop. pose proof HE as [_ Hprop Hsep Hkeys _].
  assert (r_start r ≤ r_end r) as Hr by (apply (Hprop r a); rewrite Har; set_solver).
  assert (addr < r_end r) as Hlt by (Z.div_mod_to_equations; lia).
  assert (proper_ranges (m1 ++ m2) ∧ separated (m1 ++ m2)) as [Hp0 Hs0].
  { split; [intros r0 a0 Hin; apply (Hprop r0 a0); rewrite Har; set_solver|].
    apply (separated_without m1 (r, a)). by rewrite <- Har. }
  set (r' := {| r_start := r_start r; r_end := addr |}).
  destruct (separated_insert m1 r' a m2) as (_ & _ & Hget & Hins); try done.
  { apply (separated_before m1 r a m2). by rewrite <- Har. }
  { intros e He. specialize (Hm2 e He). cbn. lia. }
  destruct (point_lookup m1 r a m2 (r_end r)) as [_ Hrm]; [by rewrite <- Har|by rewrite <- Har|lia|].
  unfold brk. rewrite <- Hend, round_up_page_up by lia. run_refl.
  replace (addr =? 0) with false by lia. replace (data_segment_max self <? addr) with false by lia.
  rewrite Har, Hrm. run_refl. cbn beta iota zeta.
  replace (page_up (r_end r) * 4096 <=? addr) with false by (Z.div_mod_to_equations; lia). run_refl. cbn beta iota zeta.
  unfold areas_insert. cbn [with_segment with_areas with_table areas]. fold r'. rewrite Hget, M_bind_assoc. run_refl. run_refl.
  rewrite Hins. unfold as_isize. by replace (addr <? 2 ^ 63) with true by lia.
Qed.

(** Growing again maps a page that is still mapped. *)
Lemma brk_regrow_panics Rs K s A self m1 r a m2 top addr addr2 :
  exact Rs K s A self → heap_area self m1 r a m2 top → 0 < addr → r_start r ≤ addr →
  page_up addr < page_up (r_end r) → r_end r ≤ data_segment_max self → r_end r ≤ top →
  page_up addr < page_up addr2 → addr2 ≤ data_segment_max self → data_segment_max self + 4096 ≤ 2 ^ 38 →
  (3 ≤ length (f_free A))%nat →
  brk (with_segment (with_areas self (m1 ++ ({| r_start := r_start r; r_end := addr |}, a) :: m2))
    addr (data_segment_max self)) addr2 s = Panic AssertFailed.
Proof.
  intros HE Hheap Ha0 Ha Hpg Hmax Htop Hpg2 Hmax2 Hbig Hfree. pose proof Hheap as (Har & Hend & Hr0 & Ht & Hm2 & _).
  pose proof HE as [Hok Hprop Hsep Hkeys _]. pose proof Hok as [W _ HP _ _ _ _].
  assert (addr < addr2) as Hlt by (Z.div_mod_to_equations; lia).
  assert (proper_ranges (m1 ++ m2) ∧ separated (m1 ++ m2)) as [Hp0 Hs0].
  { split; [intros r0 a0 Hin; apply (Hprop r0 a0); rewrite Har; set_solver|].
    apply (separated_without m1 (r, a)). by rewrite <- Har. }
  set (r' := {| r_start := r_start r; r_end := addr |}).
  destruct (separated_insert m1 r' a m2) as (Hp1 & Hs1 & _ & _); try done.
  { apply (separated_before m1 r a m2). by rewrite <- Har. }
  { intros e He. specialize (Hm2 e He). cbn. Z.div_mod_to_equations; lia. }
  destruct (point_lookup m1 r' a m2 addr) as [_ Hrm]; [done..|cbn; lia|].
  set (v := page_up addr).
  assert (∃ w, view (st_words s) (root self) (indexes v) = Some w) as [w Hw].
  { assert (v ∈ (data_frames a).*1) as [q Hin]%area_key.
    - assert (vpn_range r = Ok (data_frames a).*1) as (_ & _ & ->)%vpn_range_Ok by (apply Hkeys; rewrite Har; set_solver).
      apply elem_of_range. split; [apply Z.div_le_mono; lia|done].
    - by destruct (area_pages _ _ _ _ _ _ _ _ _ _ _ HE Har Hin) as (_ & _ & _ & [w Hw] & _); exists w. }
  assert (map_new_frame false v (page_table self, a) s = Panic AssertFailed) as Hmap.
  { destruct (frame_alloc_pstep low (root self) s A) as (s1 & A1 & q & Hq & P1 & _); [apply W|by apply W|intros Hnil; by rewrite Hnil in Hfree; cbn in Hfree; lia|].
    unfold map_new_frame. run Hq. run_refl. apply M_bind_Panic.
    destruct (page_table_misuse_panics s1 A1 (page_table self) v q (map_perm a)) as [H _];
      [apply P1|apply P1| |].
    - destruct (p_free P1) as (l & Hl & Hp). apply Permutation_length in Hp. rewrite Hl, length_app in Hfree. cbn in Hp. lia.
    - apply (H w). rewrite (p_view P1) by apply key_ok_indexes. done. }
  unfold brk. cbn [with_segment with_areas data_segment_end data_segment_max areas page_table].
  rewrite round_up_page_up by (Z.div_mod_to_equations; lia). run_refl.
  replace (addr2 =? 0) with false by lia. replace (data_segment_max self <? addr2) with false by lia.
  fold r'. rewrite Hrm. run_refl. cbn beta iota zeta. apply M_bind_Panic.
  rewrite (brk_pages (page_table self, a) addr addr2 s) by lia. fold v.
  unfold range. rewrite seqZ_cons by (unfold v; lia). cbn [for_pages]. by apply M_bind_Panic.
Qed.
End exact.
