(* ===== verification/Vfs.v ===== *)
(** * Open files

    Open files of the kernel (kernel/src/fs/file.rs), descriptor tables
    ([ProcessInner], kernel/src/process/process.rs), the system calls on them,
    path names (kernel/src/syscall/fs.rs) and the table of mounted file systems
    (kernel/src/fs/mod.rs).  A [FileDescriptor] is shared by the table slots that
    hold an [Arc] to it, and a vnode by the descriptors opened for its path: both
    live in a store, and the slots and descriptors hold handles. *)

From stdpp Require Import gmap fin_maps.
From S2P Require Import Prelude Io FatIo.

(** ** Flags *)

Definition WRONLY : Z := Z.shiftl 1 0.
Definition RDWR : Z := Z.shiftl 1 1.
Definition RDONLY : Z := 0.
Definition CLOEXEC : Z := Z.shiftl 1 19.

Definition readable (flags : Z) : bool := negb (Z.land flags (Z.lor RDONLY RDWR) =? WRONLY).
Definition writable (flags : Z) : bool := negb (Z.land flags (Z.lor WRONLY RDWR) =? RDONLY).

(** ** Descriptors *)

Record FileDescriptor := { flags : Z; fd_pos : Z; vnode : Z }.
Record Files (D : Type) := { inodes : gmap Z D; descs : gmap Z FileDescriptor }.
Arguments inodes {_}. Arguments descs {_}.

Section descriptors.
Context {D : Type} `{!Stream D}.
Abbreviation Fi := (Files D).

Definition desc (h : Z) : M Fi FileDescriptor := s ← get; lift (unwrap (descs s !! h)).
Definition set_pos (h p : Z) : M Fi unit :=
  modify (λ s, {| inodes := inodes s; descs := alter (λ d, {| flags := flags d; fd_pos := p; vnode := vnode d |}) h (descs s) |}).
(** A method of the inode of vnode [v] *)
Definition on_inode {R} (v : Z) (m : M D R) : M Fi R := λ s,
  match inodes s !! v with
  | Some d => match m d with Ok (r, d) => Ok (r, {| inodes := <[v := d]> (inodes s); descs := descs s |}) | Panic f => Panic f end
  | None => Panic UB
  end.

(** [Read for FileDescriptor] *)
Definition fd_read (h len : Z) : M Fi (ioresult (list Z)) :=
  d ← desc h;
  if readable (flags d) then
    r ← on_inode (vnode d) (s_seek (SeekStart (fd_pos d)));
    lift (io_unwrap r) ;;
    bs ←? on_inode (vnode d) (s_read len);
    p ← lift (u64 (fd_pos d + Z.of_nat (length bs)));
    set_pos h p ;;
    ok bs
  else err PermissionDenied.

(** [Write for FileDescriptor] *)
Definition fd_write (h : Z) (buf : list Z) : M Fi (ioresult Z) :=
  d ← desc h;
  if writable (flags d) then
    r ← on_inode (vnode d) (s_seek (SeekStart (fd_pos d)));
    lift (io_unwrap r) ;;
    n ←? on_inode (vnode d) (s_write buf);
    p ← lift (u64 (fd_pos d + n));
    set_pos h p ;;
    ok n
  else err PermissionDenied.
Definition fd_flush (h : Z) : M Fi (ioresult unit) := d ← desc h; on_inode (vnode d) s_flush.
(** [Seek for FileDescriptor] *)
Definition fd_seek (h : Z) (w : SeekFrom) : M Fi (ioresult Z) := d ← desc h; on_inode (vnode d) (s_seek w).

(** ** What a descriptor reads and writes *)

Context `{!ByteStream D}.

(** Descriptor [h] is [d], and its inode holds [bs] with its cursor anywhere. *)
Definition open_on (s : Fi) (h : Z) (d : FileDescriptor) (bs : list Z) : Prop :=
  descs s !! h = Some d ∧ ∃ i p, inodes s !! vnode d = Some i ∧ stream_rep i bs p.
(** Everything but descriptor [h] and inode [v] is as it was. *)
Definition others_kept (s s' : Fi) (h v : Z) : Prop :=
  (∀ h', h' ≠ h → descs s' !! h' = descs s !! h') ∧ (∀ v', v' ≠ v → inodes s' !! v' = inodes s !! v').

Lemma desc_eq s h d bs : open_on s h d bs → desc h s = Ok (d, s).
Proof. intros [H _]. unfold desc. run_refl. by rewrite H. Qed.

Lemma on_inode_eq {R} (m : M D R) s v i r i' : inodes s !! v = Some i → m i = Ok (r, i') →
  on_inode v m s = Ok (r, {| inodes := <[v := i']> (inodes s); descs := descs s |}).
Proof. intros Hi Hm. unfold on_inode. by rewrite Hi, Hm. Qed.

(** [seek] to the descriptor's own position, wherever another one left the inode *)
Lemma reposition s h d bs : open_on s h d bs → 0 ≤ fd_pos d ≤ Z.of_nat (length bs) →
  ∃ i' s', on_inode (vnode d) (s_seek (SeekStart (fd_pos d))) s = Ok (IoOk (fd_pos d), s') ∧
    inodes s' !! vnode d = Some i' ∧ stream_rep i' bs (fd_pos d) ∧ descs s' = descs s ∧
    ∀ v', v' ≠ vnode d → inodes s' !! v' = inodes s !! v'.
Proof.
  intros (Hd & i & p & Hi & Hrep) Hp. destruct (stream_seek i bs p (fd_pos d) Hrep Hp) as (i' & Hs & Hrep').
  eexists i', _. split; [by eapply on_inode_eq|]. cbn. rewrite lookup_insert_eq. split_and!; try done.
  intros v' Hv. by rewrite lookup_insert_ne.
Qed.

Lemma fd_read_spec s h d bs n : open_on s h d bs → 0 ≤ fd_pos d ≤ Z.of_nat (length bs) → Z.of_nat (length bs) < 2 ^ 64 →
  readable (flags d) = true → 0 ≤ n →
  ∃ (k : nat) s', fd_read h n s = Ok (IoOk (take k (drop (Z.to_nat (fd_pos d)) bs)), s') ∧
    open_on s' h {| flags := flags d; fd_pos := fd_pos d + Z.of_nat k; vnode := vnode d |} bs ∧
    others_kept s s' h (vnode d) ∧ Z.of_nat k ≤ n ∧ Z.of_nat k ≤ Z.of_nat (length bs) - fd_pos d ∧
    (0 < n → fd_pos d < Z.of_nat (length bs) → (0 < k)%nat).
Proof.
  intros Hop Hp Hl Hr Hn. unfold fd_read. erewrite M_bind_eq; [|by eapply desc_eq]. rewrite Hr.
  destruct (reposition s h d bs Hop Hp) as (i & s1 & H1 & Hi & Hrep & Hds & Hoth). run H1. run_refl.
  destruct (stream_read i bs (fd_pos d) n Hrep Hn) as (k & i2 & H2 & Hrep2 & Hkn & Hkl & Hk0).
  erewrite try_ok; [|by eapply on_inode_eq].
  assert (length (take k (drop (Z.to_nat (fd_pos d)) bs)) = k) as -> by (rewrite length_take, length_drop; lia).
  erewrite M_bind_eq; [|by apply lift_chk; lia]. run_refl. destruct Hop as (Hd & _).
  eexists k, _. split; [done|]. cbn. split_and!; try lia; try done.
  - split; [by cbn; rewrite Hds, lookup_alter_eq, Hd|]. cbn. eexists i2, _. by rewrite lookup_insert_eq.
  - split; cbn; [intros h' Hh; by rewrite lookup_alter_ne, Hds|intros v' Hv; by rewrite lookup_insert_ne, Hoth].
Qed.

Lemma fd_write_spec s h d bs buf : open_on s h d bs → 0 ≤ fd_pos d → fd_pos d + Z.of_nat (length buf) ≤ Z.of_nat (length bs) →
  Z.of_nat (length bs) < 2 ^ 64 → writable (flags d) = true →
  ∃ (k : nat) s', fd_write h buf s = Ok (IoOk (Z.of_nat k), s') ∧
    open_on s' h {| flags := flags d; fd_pos := fd_pos d + Z.of_nat k; vnode := vnode d |} (splice (fd_pos d) (take k buf) bs) ∧
    others_kept s s' h (vnode d) ∧ (k ≤ length buf)%nat ∧ (buf ≠ [] → (0 < k)%nat).
Proof.
  intros Hop Hp Hl Hl2 Hw. unfold fd_write. erewrite M_bind_eq; [|by eapply desc_eq]. rewrite Hw.
  destruct (reposition s h d bs Hop) as (i & s1 & H1 & Hi & Hrep & Hds & Hoth); [lia|]. run H1. run_refl.
  destruct (stream_write i bs (fd_pos d) buf Hrep Hl) as (k & i2 & H2 & Hrep2 & Hk & Hk0).
  erewrite try_ok; [|by eapply on_inode_eq]. erewrite M_bind_eq; [|by apply lift_chk; lia]. run_refl. destruct Hop as (Hd & _).
  eexists k, _. split; [done|]. cbn. split_and!; try lia; try done.
  - split; [by cbn; rewrite Hds, lookup_alter_eq, Hd|]. cbn. eexists i2, _. by rewrite lookup_insert_eq.
  - split; cbn; [intros h' Hh; by rewrite lookup_alter_ne, Hds|intros v' Hv; by rewrite lookup_insert_ne, Hoth].
Qed.

(** The mask in [readable] leaves out the bit it is compared with. *)
Lemma readable_any f : readable f = true.
Proof.
  unfold readable. apply negb_true_iff, Z.eqb_neq. intros H.
  apply (f_equal (λ z, Z.testbit z 0)) in H. rewrite Z.land_spec, andb_false_r in H. done.
Qed.

(** A descriptor reads and writes at its own position, whatever other descriptors
    of the same file did to the inode's cursor, and moves only itself. *)
Theorem descriptor_io (s : Fi) (h : Z) (d : FileDescriptor) (bs buf : list Z) (n : Z) :
  open_on s h d bs → 0 ≤ fd_pos d → fd_pos d + Z.of_nat (length buf) ≤ Z.of_nat (length bs) < 2 ^ 64 → 0 ≤ n →
  (∃ (k : nat) s', fd_read h n s = Ok (IoOk (take k (drop (Z.to_nat (fd_pos d)) bs)), s') ∧
     open_on s' h {| flags := flags d; fd_pos := fd_pos d + Z.of_nat k; vnode := vnode d |} bs ∧
     others_kept s s' h (vnode d) ∧ (0 < n → fd_pos d < Z.of_nat (length bs) → (0 < k)%nat)) ∧
  (if writable (flags d) then
     ∃ (k : nat) s', fd_write h buf s = Ok (IoOk (Z.of_nat k), s') ∧
       open_on s' h {| flags := flags d; fd_pos := fd_pos d + Z.of_nat k; vnode := vnode d |} (splice (fd_pos d) (take k buf) bs) ∧
       others_kept s s' h (vnode d) ∧ (buf ≠ [] → (0 < k)%nat)
   else fd_write h buf s = Ok (IoErr PermissionDenied, s)).
Proof.
  intros Hop Hp Hl Hn. split.
  - destruct (fd_read_spec s h d bs n Hop) as (k & s' & H1 & H2 & H3 & _ & _ & H4); [lia|lia|apply readable_any|done|].
    by exists k, s'.
  - destruct (writable (flags d)) eqn:Hw.
    + destruct (fd_write_spec s h d bs buf Hop) as (k & s' & H1 & H2 & H3 & _ & H4); [lia|lia|lia|done|]. by exists k, s'.
    + unfold fd_write. erewrite M_bind_eq; [|by eapply desc_eq]. by rewrite Hw.
Qed.

Lemma fd_seek_open s h d bs q : open_on s h d bs → 0 ≤ q ≤ Z.of_nat (length bs) →
  ∃ s', fd_seek h (SeekStart q) s = Ok (IoOk q, s') ∧ open_on s' h d bs.
Proof.
  intros Hop Hq. pose proof Hop as (Hd & i & p & Hi & Hrep). destruct (stream_seek i bs p q Hrep Hq) as (i' & Hs & Hrep').
  exists {| inodes := <[vnode d := i']> (inodes s); descs := descs s |}. split.
  - unfold fd_seek. erewrite M_bind_eq; [|by eapply desc_eq]. by eapply on_inode_eq.
  - split; [done|]. exists i', q. cbn. by rewrite lookup_insert_eq.
Qed.

(** A seek on a descriptor has no effect on it: it reports the new position and
    moves the inode, but the next read is from the old one.  And every descriptor
    can be read, also one that was opened for writing only. *)
Theorem descriptor_seek_lost (s : Fi) (h : Z) (d : FileDescriptor) (bs : list Z) (q n : Z) :
  open_on s h d bs → 0 ≤ fd_pos d ≤ Z.of_nat (length bs) → Z.of_nat (length bs) < 2 ^ 64 → 0 ≤ q ≤ Z.of_nat (length bs) → 0 ≤ n →
  ∃ s1 s2 (k : nat), fd_seek h (SeekStart q) s = Ok (IoOk q, s1) ∧
    fd_read h n s1 = Ok (IoOk (take k (drop (Z.to_nat (fd_pos d)) bs)), s2) ∧
    (0 < n → fd_pos d < Z.of_nat (length bs) → (0 < k)%nat).
Proof.
  intros Hop Hp Hl Hq Hn. destruct (fd_seek_open s h d bs q Hop Hq) as (s1 & Hs & Hop1).
  destruct (fd_read_spec s1 h d bs n Hop1) as (k & s2 & H2 & _ & _ & _ & _ & H3); [lia|lia|apply readable_any|done|].
  by exists s1, s2, k.
Qed.
End descriptors.

(** ** Descriptor tables *)

Definition MAX_FD : Z := 128.
(** [Vec<Option<Arc<FileDescriptor>>>] and the descriptors its handles stand for *)
Record FdState := { fd_table : list (option Z); fd_descs : gmap Z FileDescriptor }.
Definition set_table (t : list (option Z)) : M FdState unit := modify (λ s, {| fd_table := t; fd_descs := fd_descs s |}).

(** The first index from [i] on whose slot is [None] *)
Fixpoint free_slot (i : Z) (slots : list (option Z)) : option Z :=
  match slots with
  | [] => None
  | None :: _ => Some i
  | Some _ :: slots => free_slot (i + 1) slots
  end.

Definition fd_alloc : M FdState Z :=
  s ← get;
  let len := Z.of_nat (length (fd_table s)) in
  match free_slot 3 (drop 3 (fd_table s)) with
  | Some i => mret i
  | None => if len =? MAX_FD then mret (-1) else set_table (fd_table s ++ [None]) ;; mret len
  end.

Definition fd_alloc_from (min : Z) : M FdState Z :=
  s ← get;
  let len := Z.of_nat (length (fd_table s)) in
  if MAX_FD <=? min then mret (-1)
  else if len <=? min then set_table (fd_table s ++ replicate (Z.to_nat (min + 1 - len)) None) ;; mret min
  else
    match free_slot min (drop (Z.to_nat min) (fd_table s)) with
    | Some i => mret i
    | None => if len =? MAX_FD then mret (-1) else set_table (fd_table s ++ [None]) ;; mret len
    end.

(** [fd_table[i]], [fd_table.get_mut(i).unwrap()] and [fd_table[i] = v] *)
Definition slot_index (i : Z) : M FdState (option Z) :=
  s ← get; match fd_table s !! Z.to_nat i with Some o => mret o | None => panic OutOfBounds end.
Definition slot_unwrap (i : Z) : M FdState (option Z) :=
  s ← get; lift (unwrap (fd_table s !! Z.to_nat i)).
Definition slot_set (i : Z) (v : option Z) : M FdState unit :=
  s ← get;
  if i <? Z.of_nat (length (fd_table s)) then set_table (<[Z.to_nat i := v]> (fd_table s)) else panic OutOfBounds.

Definition sys_dup (oldfd : Z) : M FdState Z :=
  o ← slot_index oldfd;
  match o with
  | Some d =>
      newfd ← fd_alloc;
      if 0 <=? newfd then slot_set newfd (Some d) ;; mret newfd else mret (-1)
  | None => mret (-1)
  end.

Definition sys_dup3 (oldfd newfd : Z) : M FdState Z :=
  o ← slot_index oldfd;
  match o with
  | Some d =>
      if newfd <? MAX_FD then
        s ← get;
        let len := Z.of_nat (length (fd_table s)) in
        (if len <=? newfd then set_table (fd_table s ++ replicate (Z.to_nat (newfd + 1 - len)) None) else mret tt) ;;
        slot_set newfd (Some d) ;;
        mret newfd
      else mret (-1)
  | None => mret (-1)
  end.

Definition sys_close (fd : Z) : M FdState Z :=
  slot_unwrap fd ;; slot_set fd None ;; mret 0.

(** [sys_pipe2]: [r] and [w] are the descriptors of [create_pipe_pair]; the result
    carries the two numbers stored through [pipefd]. *)
Definition sys_pipe2 (r w : Z) : M FdState (Z * option (Z * Z)) :=
  read_fd ← fd_alloc;
  if icast 32 read_fd <? 0 then mret (-1, None)
  else
    slot_set read_fd (Some r) ;;
    write_fd ← fd_alloc;
    if icast 32 write_fd <? 0 then slot_set read_fd None ;; mret (-1, None)
    else slot_set write_fd (Some w) ;; mret (0, Some (read_fd, write_fd)).

Inductive FcntlCmd := F_DUPFD | F_DUPFD_CLOEXEC | F_GETFD | F_SETFD | F_OTHER.

(** [flags.insert(CLOEXEC)] through the shared descriptor *)
Definition insert_cloexec (d : Z) : M FdState unit :=
  modify (λ s, {| fd_table := fd_table s;
    fd_descs := alter (λ f, {| flags := Z.lor (flags f) CLOEXEC; fd_pos := fd_pos f; vnode := vnode f |}) d (fd_descs s) |}).

Definition sys_fcntl (fd : Z) (cmd : FcntlCmd) (arg : Z) : M FdState Z :=
  o ← slot_unwrap fd;
  match o with
  | None => mret (-1)
  | Some d =>
      match cmd with
      | F_DUPFD =>
          newfd ← fd_alloc_from arg;
          if 0 <=? newfd then slot_set newfd (Some d) ;; mret newfd else mret (-1)
      | F_DUPFD_CLOEXEC =>
          newfd ← fd_alloc_from arg;
          if 0 <=? newfd then insert_cloexec d ;; slot_set newfd (Some d) ;; mret newfd else mret (-1)
      | F_GETFD => s ← get; f ← lift (unwrap (fd_descs s !! d)); mret (icast 64 (flags f))
      | F_SETFD => (if Z.testbit arg 0 then insert_cloexec d else mret tt) ;; mret (-1)
      | F_OTHER => mret (-1)
      end
  end.

(** ** Descriptor numbers *)

Definition used (t : list (option Z)) (i : Z) : Prop := ∃ d, t !! Z.to_nat i = Some (Some d).
(** [n] is the lowest free number from [min] on *)
Definition lowest_free (t : list (option Z)) (min n : Z) : Prop :=
  min ≤ n < MAX_FD ∧ ¬ used t n ∧ ∀ i, min ≤ i < n → used t i.

Lemma free_slot_spec l : ∀ i,
  match free_slot i l with
  | Some n => i ≤ n < i + Z.of_nat (length l) ∧ l !! Z.to_nat (n - i) = Some None ∧
      ∀ j, i ≤ j < n → ∃ d, l !! Z.to_nat (j - i) = Some (Some d)
  | None => ∀ j, i ≤ j < i + Z.of_nat (length l) → ∃ d, l !! Z.to_nat (j - i) = Some (Some d)
  end.
Proof.
  induction l as [|[d|] l IH]; intros i; cbn [free_slot length].
  - lia.
  - assert (∀ j, i + 1 ≤ j → (Some d :: l) !! Z.to_nat (j - i) = l !! Z.to_nat (j - (i + 1))) as Hs.
    { intros j Hj. replace (Z.to_nat (j - i)) with (S (Z.to_nat (j - (i + 1)))) by lia. done. }
    specialize (IH (i + 1)). destruct (free_slot (i + 1) l) as [n|].
    + destruct IH as (Hn & Hl & Hj). split; [lia|]. split; [by rewrite Hs by lia|].
      intros j Hji. destruct (decide (j = i)) as [->|]; [rewrite Z.sub_diag; by exists d|].
      rewrite Hs by lia. apply Hj. lia.
    + intros j Hji. destruct (decide (j = i)) as [->|]; [rewrite Z.sub_diag; by exists d|].
      rewrite Hs by lia. apply IH. lia.
  - split; [lia|]. split; [by rewrite Z.sub_diag|]. lia.
Qed.

(** The table after [fd_alloc_from]: as before, with empty slots behind it *)
Definition extended (t t' : list (option Z)) : Prop := ∃ n, t' = t ++ replicate n None.

Lemma used_extended t t' i : extended t t' → used t' i ↔ used t i.
Proof.
  intros [n ->]. unfold used. destruct (decide (Z.to_nat i < length t)%nat); [by rewrite lookup_app_l|].
  rewrite lookup_app_r, (lookup_ge_None_2 t) by lia. split; intros [d Hd]; [|done].
  apply lookup_replicate in Hd as [? _]. done.
Qed.

Lemma fd_alloc_from_spec s min : 0 ≤ min → Z.of_nat (length (fd_table s)) ≤ MAX_FD →
  ∃ n t', fd_alloc_from min s = Ok (n, {| fd_table := t'; fd_descs := fd_descs s |}) ∧ extended (fd_table s) t' ∧
    Z.of_nat (length t') ≤ MAX_FD ∧
    ((lowest_free (fd_table s) min n ∧ n < Z.of_nat (length t')) ∨ (n = -1 ∧ ∀ i, min ≤ i < MAX_FD → used (fd_table s) i)).
Proof.
  intros Hm Hl. destruct s as [t ds]; cbn [fd_table fd_descs] in *. unfold fd_alloc_from. run_refl. cbn [fd_table].
  assert (extended t t) as Hid by (exists 0%nat; cbn; by rewrite app_nil_r).
  destruct (Z.leb_spec MAX_FD min). { exists (-1), t. split_and!; try done. right. split; [done|]. lia. }
  destruct (Z.leb_spec (Z.of_nat (length t)) min).
  { eexists min, _. split; [done|]. split; [by eexists|]. rewrite length_app, length_replicate. split; [lia|]. left.
    split; [|lia]. split; [lia|]. split; [|lia]. intros [d Hd]. apply lookup_lt_Some in Hd. lia. }
  pose proof (free_slot_spec (drop (Z.to_nat min) t) min) as Hf. rewrite length_drop in Hf.
  assert (∀ j, min ≤ j → drop (Z.to_nat min) t !! Z.to_nat (j - min) = t !! Z.to_nat j) as Hdr.
  { intros j Hj. rewrite lookup_drop. f_equal. lia. }
  destruct (free_slot min (drop (Z.to_nat min) t)) as [n|].
  - destruct Hf as (Hn & Hs & Hu). exists n, t. split_and!; try done. left. split; [|lia]. split; [lia|]. split.
    + intros [d Hd]. rewrite Hdr in Hs by lia. congruence.
    + intros i Hi. destruct (Hu i) as [d Hd]; [lia|]. rewrite Hdr in Hd by lia. by exists d.
  - assert (∀ i, min ≤ i < Z.of_nat (length t) → used t i) as Hall.
    { intros i Hi. destruct (Hf i) as [d Hd]; [lia|]. rewrite Hdr in Hd by lia. by exists d. }
    destruct (Z.eqb_spec (Z.of_nat (length t)) MAX_FD) as [He|He].
    + exists (-1), t. split_and!; try done. right. split; [done|]. intros i Hi. apply Hall. lia.
    + eexists _, _. split; [done|]. split; [by exists 1%nat|]. rewrite length_app. cbn [length]. split; [lia|]. left.
      split; [|lia]. split; [lia|]. split; [|intros i Hi; apply Hall; lia]. intros [d Hd]. apply lookup_lt_Some in Hd. lia.
Qed.

(** [fd_alloc] is [fd_alloc_from(3)], the three standard descriptors being there *)
Lemma fd_alloc_eq s : 3 ≤ Z.of_nat (length (fd_table s)) ≤ MAX_FD → fd_alloc s = fd_alloc_from 3 s.
Proof.
  intros Hl. unfold fd_alloc, fd_alloc_from. run_refl. run_refl. change (MAX_FD <=? 3) with false.
  destruct (Z.leb_spec (Z.of_nat (length (fd_table s))) 3) as [H3|H3]; [|done].
  assert (Z.of_nat (length (fd_table s)) = 3) as He by lia. rewrite He, drop_ge by lia. done.
Qed.

(** The outcome of duplicating the descriptor [d] from [min] on. *)
Definition dup_outcome (s : FdState) (d min : Z) (r : exec (Z * FdState)) : Prop :=
  ∃ n t', r = Ok (n, {| fd_table := t'; fd_descs := fd_descs s |}) ∧ Z.of_nat (length t') ≤ MAX_FD ∧
    (∀ i d', 0 ≤ i → i ≠ n → t' !! Z.to_nat i = Some (Some d') ↔ fd_table s !! Z.to_nat i = Some (Some d')) ∧
    ((lowest_free (fd_table s) min n ∧ t' !! Z.to_nat n = Some (Some d)) ∨
     (n = -1 ∧ ∀ i, min ≤ i < MAX_FD → used (fd_table s) i)).

Lemma dup_from s d min : 0 ≤ min → Z.of_nat (length (fd_table s)) ≤ MAX_FD →
  dup_outcome s d min ((newfd ← fd_alloc_from min; if 0 <=? newfd then slot_set newfd (Some d) ;; mret newfd else mret (-1)) s).
Proof.
  intros Hm Hl. destruct (fd_alloc_from_spec s min Hm Hl) as (n & t' & H & [k ->] & Hl' & Hc). run H.
  assert (∀ i d', (fd_table s ++ replicate k None) !! Z.to_nat i = Some (Some d') ↔ fd_table s !! Z.to_nat i = Some (Some d')) as Hk.
  { intros i d'. destruct (decide (Z.to_nat i < length (fd_table s))%nat); [by rewrite lookup_app_l|].
    rewrite lookup_app_r, (lookup_ge_None_2 (fd_table s)) by lia. split; [|done]. by intros [? _]%lookup_replicate. }
  destruct Hc as [[Hlow Hn]|[-> Hall]].
  - pose proof Hlow as [Hr _]. replace (0 <=? n) with true by lia. unfold slot_set.
    erewrite M_bind_eq. 2:{ run_refl. cbn [fd_table]. replace (n <? _) with true by lia. done. }
    eexists n, _. split; [done|]. cbn [fd_descs]. split; [by rewrite length_insert|]. split.
    + intros i d' Hi Hne. rewrite list_lookup_insert_ne by lia. apply Hk.
    + left. split; [done|]. apply list_lookup_insert_eq. lia.
  - eexists (-1), _. split; [done|]. split; [done|]. split; [by intros|]. by right.
Qed.

(** [dup] and [fcntl(F_DUPFD)] give a descriptor the lowest free number from 3 or
    from the argument on, leave all other numbers alone and keep the table within
    its 128 slots; they fail only when no number is free. *)
Theorem dup_lowest (s : FdState) (oldfd d min : Z) :
  3 ≤ Z.of_nat (length (fd_table s)) ≤ MAX_FD → 0 ≤ min → fd_table s !! Z.to_nat oldfd = Some (Some d) →
  dup_outcome s d 3 (sys_dup oldfd s) ∧ dup_outcome s d min (sys_fcntl oldfd F_DUPFD min s).
Proof.
  intros Hl Hm Ho. split.
  - unfold sys_dup, slot_index. erewrite M_bind_eq; [|run_refl; by rewrite Ho].
    pose proof (dup_from s d 3 ltac:(lia) ltac:(lia)) as H. revert H.
    unfold mbind, M_bind. by rewrite fd_alloc_eq.
  - unfold sys_fcntl, slot_unwrap. erewrite M_bind_eq; [|run_refl; by rewrite Ho]. apply dup_from; lia.
Qed.

(** System calls with a descriptor number outside the table panic the kernel. *)
Theorem bad_descriptor_panics (s : FdState) (fd : Z) (cmd : FcntlCmd) (arg newfd : Z) :
  Z.of_nat (length (fd_table s)) ≤ fd →
  sys_close fd s = Panic UnwrapNone ∧ sys_fcntl fd cmd arg s = Panic UnwrapNone ∧
  sys_dup fd s = Panic OutOfBounds ∧ sys_dup3 fd newfd s = Panic OutOfBounds.
Proof.
  intros Hfd. assert (fd_table s !! Z.to_nat fd = None) as Hn by (apply lookup_ge_None_2; lia).
  unfold sys_close, sys_fcntl, sys_dup, sys_dup3, slot_unwrap, slot_index.
  split_and!; apply M_bind_Panic; run_refl; by rewrite Hn.
Qed.

(** ** Path names *)

(** Strings are lists of bytes. *)
Definition SLASH : Z := 0x2F.
Definition DOT : Z := 0x2E.

(** [trim_start_matches] of the two bytes [./] *)
Fixpoint trim_dot_slash (p : list Z) : list Z :=
  match p with
  | a :: (b :: q) as r => if (a =? DOT) && (b =? SLASH) then trim_dot_slash q else p
  | _ => p
  end.
(** [trim_end_matches] of one byte *)
Definition trim_end (c : Z) (p : list Z) : list Z :=
  reverse ((fix go l := match l with x :: l' => if x =? c then go l' else l | [] => [] end) (reverse p)).

(** [normalize_path]: [dir] is the current directory for [AT_FDCWD], and the path of
    the descriptor's vnode otherwise. *)
Definition normalize_path (dir pathname : list Z) : list Z :=
  match pathname with
  | 0x2F :: _ => pathname
  | _ => trim_end SLASH dir ++ SLASH :: trim_end DOT (trim_dot_slash pathname)
  end.

(** ** Mounted file systems *)

(** A mount table: the first entry is the root file system; [None] is a free slot. *)
Definition starts_with (p pre : list Z) : bool := bool_decide (take (length pre) p = pre).
Definition under (full_path mount_point : list Z) : bool :=
  (length mount_point <=? length full_path)%nat && starts_with full_path mount_point &&
  ((length mount_point =? length full_path)%nat || bool_decide (full_path !! length mount_point = Some SLASH)).

(** The loop over the entries behind the first: index of the best entry so far and
    the length of its mount point *)
Fixpoint lookup_loop (full_path : list Z) (i : nat) (table : list (option (list Z))) (ret prev_len : nat) : nat :=
  match table with
  | [] => ret
  | None :: table => lookup_loop full_path (S i) table ret prev_len
  | Some mp :: table =>
      if (length mp <=? length full_path)%nat && (prev_len <? length mp)%nat && starts_with full_path mp &&
         ((length mp =? length full_path)%nat || bool_decide (full_path !! length mp = Some SLASH))
      then lookup_loop full_path (S i) table i (length mp)
      else lookup_loop full_path (S i) table ret prev_len
  end.
Definition filesystem_lookup (full_path : list Z) (table : list (option (list Z))) : nat :=
  lookup_loop full_path 1 (drop 1 table) 0 0.

(** [regeister_file_system]: the first free slot *)
Fixpoint register_file_system (mount_point : list Z) (table : list (option (list Z))) : exec (list (option (list Z))) :=
  match table with
  | [] => Panic Explicit
  | None :: table => Ok (Some mount_point :: table)
  | Some m :: table => t ← register_file_system mount_point table; Ok (Some m :: t)
  end.

Lemma lookup_loop_spec full table : ∀ i ret prev, ∃ len,
  let r := lookup_loop full i table ret prev in
  ((r = ret ∧ len = prev) ∨
   (∃ k mp, r = (i + k)%nat ∧ table !! k = Some (Some mp) ∧ under full mp = true ∧ len = length mp ∧ (prev < len)%nat)) ∧
  ∀ k mp, table !! k = Some (Some mp) → under full mp = true → (length mp ≤ len)%nat.
Proof.
  induction table as [|o table IH]; intros i ret prev.
  { exists prev. cbn. split; [by left|]. intros k mp. by rewrite lookup_nil. }
  assert (∀ ret' prev', (∀ mp, o = Some mp → under full mp = true → (length mp ≤ prev')%nat) →
    ((ret' = ret ∧ prev' = prev) ∨ (∃ mp, ret' = i ∧ o = Some mp ∧ under full mp = true ∧ prev' = length mp ∧ (prev < prev')%nat)) →
    ∃ len, let r := lookup_loop full (S i) table ret' prev' in
      ((r = ret ∧ len = prev) ∨
       (∃ k mp, r = (i + k)%nat ∧ (o :: table) !! k = Some (Some mp) ∧ under full mp = true ∧ len = length mp ∧ (prev < len)%nat)) ∧
      ∀ k mp, (o :: table) !! k = Some (Some mp) → under full mp = true → (length mp ≤ len)%nat) as Hstep.
  { intros ret' prev' Ho Hr. destruct (IH (S i) ret' prev') as (len & Hbest & Hmax). exists len. cbn zeta in *.
    assert (prev' ≤ len)%nat as Hle by (destruct Hbest as [[_ ->]|(k & mp & _ & _ & _ & _ & ?)]; lia).
    split.
    - destruct Hbest as [[-> ->]|(k & mp & -> & Hk & Hu & -> & Hlt)].
      + destruct Hr as [[-> ->]|(mp & -> & -> & Hu & -> & Hlt)]; [by left|]. right. exists 0%nat, mp. split_and!; done || lia.
      + right. exists (S k), mp. split_and!; [lia|done..|]. destruct Hr as [[_ ->]|(? & _ & _ & _ & _ & ?)]; lia.
    - intros [|k] mp Hk Hu; cbn in Hk; [simplify_eq; specialize (Ho mp eq_refl Hu); lia|by apply (Hmax k mp)]. }
  cbn [lookup_loop]. destruct o as [mp|]; [|apply Hstep; [done|by left]].
  case_match eqn:Ec; apply Hstep.
  - by intros ? [= <-].
  - right. exists mp. unfold under. rewrite !andb_true_iff in Ec. destruct Ec as [[[H1 H2] H3] H4].
    rewrite H1, H3, H4. apply Nat.ltb_lt in H2. by split_and!.
  - intros ? [= <-] Hu. unfold under in Hu. rewrite !andb_true_iff in Hu. destruct Hu as [[H1 H2] H3].
    rewrite H1, H2, H3, !andb_true_r in Ec. cbn in Ec. apply Nat.ltb_ge in Ec. lia.
  - by left.
Qed.

(** A path belongs to the file system with the longest mount point that is the path
    or a directory on it, and to the root file system if no other is. *)
Theorem filesystem_lookup_longest (full_path : list Z) (root : option (list Z)) (table : list (option (list Z))) :
  let r := filesystem_lookup full_path (root :: table) in
  (r = 0%nat ∧ ∀ k mp, table !! k = Some (Some mp) → under full_path mp = true → mp = []) ∨
  (∃ k mp, r = S k ∧ table !! k = Some (Some mp) ∧ under full_path mp = true ∧
     ∀ k' mp', table !! k' = Some (Some mp') → under full_path mp' = true → (length mp' ≤ length mp)%nat).
Proof.
  unfold filesystem_lookup. cbn [drop]. destruct (lookup_loop_spec full_path table 1 0 0) as (len & Hbest & Hmax).
  destruct Hbest as [[Hr ->]|(k & mp & Hr & Hk & Hu & -> & _)].
  - left. split; [done|]. intros k mp Hk Hu. specialize (Hmax k mp Hk Hu). by destruct mp; [|cbn in Hmax; lia].
  - right. exists k, mp. by split_and!.
Qed.

(** [normalize_path] takes [..] for the directory itself: [chdir("..")] stays, and
    so do the names that end in dots. *)
Theorem normalize_dotdot (dir : list Z) :
  normalize_path dir [DOT; DOT] = trim_end SLASH dir ++ [SLASH] ∧
  normalize_path dir [DOT; SLASH; DOT; DOT] = trim_end SLASH dir ++ [SLASH].
Proof. split; reflexivity. Qed.

(** ** Examples *)

Definition shared_file : Files memfile := {|
  inodes := {[1 := {| mf_bytes := [10; 11; 12; 13]; mf_pos := 3 |}]};
  descs := {[5 := {| flags := WRONLY; fd_pos := 1; vnode := 1 |}; 6 := {| flags := RDWR; fd_pos := 0; vnode := 1 |}]} |}.

Lemma shared_open : open_on shared_file 5 {| flags := WRONLY; fd_pos := 1; vnode := 1 |} [10; 11; 12; 13].
Proof. split; [done|]. eexists _, 3. split; [done|]. split_and!; done. Qed.

Lemma descriptor_io_witness : ∃ (k : nat) s',
  fd_write 5 [7; 8] shared_file = Ok (IoOk (Z.of_nat k), s') ∧ (0 < k)%nat ∧ descs s' !! 6 = descs shared_file !! 6.
Proof.
  destruct (descriptor_io shared_file 5 _ _ [7; 8] 0 shared_open) as [_ (k & s' & H1 & _ & [H2 _] & H3)]; [done|cbn; lia|done|].
  exists k, s'. split; [exact H1|]. split; [by apply H3|by apply H2].
Defined.

Lemma descriptor_seek_lost_witness : ∃ s1 s2 (k : nat), fd_seek 5 (SeekStart 0) shared_file = Ok (IoOk 0, s1) ∧
  fd_read 5 2 s1 = Ok (IoOk (take k [11; 12; 13]), s2) ∧ (0 < k)%nat.
Proof.
  destruct (descriptor_seek_lost shared_file 5 _ _ 0 2 shared_open) as (s1 & s2 & k & H1 & H2 & H3); [cbn; lia|done|cbn; lia|done|].
  exists s1, s2, k. split; [exact H1|]. split; [exact H2|]. by apply H3.
Defined.

Definition table3 : FdState := {| fd_table := [Some 1; Some 2; Some 2; None; Some 9]; fd_descs := ∅ |}.
Lemma dup_lowest_witness : dup_outcome table3 9 3 (sys_dup 4 table3) ∧ sys_dup 4 table3 = Ok (3, {| fd_table := [Some 1; Some 2; Some 2; Some 9; Some 9]; fd_descs := ∅ |}).
Proof. split; [|reflexivity]. apply (dup_lowest table3 4 9 0); [split; by vm_compute|done|reflexivity]. Defined.

Lemma bad_descriptor_panics_witness : sys_close 5 table3 = Panic UnwrapNone.
Proof. apply (bad_descriptor_panics table3 5 F_GETFD 0 0). cbn. lia. Defined.
