(* ===== verification/Vnode.v ===== *)
(** * Vnodes: opening and closing files

    [file_open], [file_unlink], [mkdir], [mount], [umount] and the destructor of
    [FileDescriptor] (kernel/src/fs/file.rs), the table of vnodes (vnode.rs), the table
    of file systems (mod.rs), and the system calls that open, duplicate and close
    descriptors (kernel/src/syscall/fs.rs).  [Arc]s are handles into stores of objects
    with their strong counts: a clone adds one, and what drops the last one runs the
    object's destructor.  The table of vnodes is keyed by the paths themselves; in the
    code by pointers to them.  Locks are taken and released within a call. *)

From stdpp Require Import gmap fin_maps.
From S2P Require Import Prelude Io FatIo Vfs.

(** ** Flags *)

Definition CREAT : Z := Z.shiftl 1 6.
Definition EXCL : Z := Z.shiftl 1 7.
Definition TRUNC : Z := Z.shiftl 1 9.
Definition APPEND : Z := Z.shiftl 1 10.
Definition DIRECTORY : Z := Z.shiftl 1 21.
(** [flags.contains(f)] *)
Definition contains (flags f : Z) : bool := Z.land flags f =? f.

(** [AT_FDCWD] *)
Definition AT_FDCWD : Z := 2 ^ 64 - 100.

(** ** File systems and inodes

    What the kernel calls of fatfs and of its own pipes: inodes ([Box<dyn Inode>]) and
    open directories are handles of the state [F].  [dir_*] are methods of [Dir],
    [root_dir] and [fs_drop] those of the file system, [new_pipe] the two inodes of
    [create_pipe_pair]. *)
Class InodeOps (F : Type) := {
  dir_create_file : Z → list Z → M F (ioresult Z);
  dir_open_file : Z → list Z → M F (ioresult Z);
  dir_open_dir : Z → list Z → M F (ioresult Z);
  dir_create_dir : Z → list Z → M F (ioresult Z);
  dir_remove : Z → list Z → M F (ioresult unit);
  fs_root_dir : Z → M F Z;
  fs_release : Z → M F unit;
  i_seek : Z → SeekFrom → M F (ioresult Z);
  i_drop : Z → M F unit;
  new_pipe : M F (Z * Z);
}.

Record Vnode := { v_fs : option nat; full_path : list Z; inode : Z }.
(** [FileSystem]; [fs] is the handle of its [Arc<FatFs>]. *)
Record FileSystem := { mount_point : list Z; fs : Z }.

(** [hashset] is [VNODE_HASHSET] by the values of its keys.  In the code a key is a pointer to the path of the vnode, which the entry keeps
    alive, or, for a mount point, to the string of the file system: after [umount] that one dangles, and the model
    goes on with its value. *)
Record Vfs (F : Type) := {
  next : Z;
  vnodes : gmap Z (Vnode * nat);
  fds : gmap Z (FileDescriptor * nat);
  hashset : gmap (list Z) Z;
  fs_table : list (option (FileSystem * Z));
  tables : list (list (option Z));
  cwds : list (list Z);
  fsys : F;
}.
Arguments next {_}. Arguments vnodes {_}. Arguments fds {_}. Arguments hashset {_}. Arguments fs_table {_}.
Arguments tables {_}. Arguments cwds {_}. Arguments fsys {_}.

Section vnode.
Context {F : Type} `{!InodeOps F}.
Abbreviation V := (Vfs F).

Definition with_next (s : V) x : V := {| next := x; vnodes := vnodes s; fds := fds s; hashset := hashset s; fs_table := fs_table s; tables := tables s; cwds := cwds s; fsys := fsys s |}.
Definition with_vnodes (s : V) x : V := {| next := next s; vnodes := x; fds := fds s; hashset := hashset s; fs_table := fs_table s; tables := tables s; cwds := cwds s; fsys := fsys s |}.
Definition with_fds (s : V) x : V := {| next := next s; vnodes := vnodes s; fds := x; hashset := hashset s; fs_table := fs_table s; tables := tables s; cwds := cwds s; fsys := fsys s |}.
Definition with_hashset (s : V) x : V := {| next := next s; vnodes := vnodes s; fds := fds s; hashset := x; fs_table := fs_table s; tables := tables s; cwds := cwds s; fsys := fsys s |}.
Definition with_fs_table (s : V) x : V := {| next := next s; vnodes := vnodes s; fds := fds s; hashset := hashset s; fs_table := x; tables := tables s; cwds := cwds s; fsys := fsys s |}.
Definition with_tables (s : V) x : V := {| next := next s; vnodes := vnodes s; fds := fds s; hashset := hashset s; fs_table := fs_table s; tables := x; cwds := cwds s; fsys := fsys s |}.
Definition with_cwds (s : V) x : V := {| next := next s; vnodes := vnodes s; fds := fds s; hashset := hashset s; fs_table := fs_table s; tables := tables s; cwds := x; fsys := fsys s |}.
Definition on_fs {R} (m : M F R) : M V R := λ s,
  match m (fsys s) with
  | Ok (r, f) => Ok (r, {| next := next s; vnodes := vnodes s; fds := fds s; hashset := hashset s; fs_table := fs_table s; tables := tables s; cwds := cwds s; fsys := f |})
  | Panic e => Panic e
  end.

(** ** Reference counts *)

(** [Arc::new] *)
Definition fresh : M V Z := s ← get; put (with_next s (next s + 1)) ;; mret (next s).
Definition vnode_new (v : Vnode) : M V Z :=
  h ← fresh; modify (λ s, with_vnodes s (<[h := (v, 1%nat)]> (vnodes s))) ;; mret h.
Definition fd_new (d : FileDescriptor) : M V Z :=
  h ← fresh; modify (λ s, with_fds s (<[h := (d, 1%nat)]> (fds s))) ;; mret h.

Definition vnode_of (h : Z) : M V (Vnode * nat) :=
  s ← get; match vnodes s !! h with Some v => mret v | None => panic UB end.
Definition fd_of (h : Z) : M V (FileDescriptor * nat) :=
  s ← get; match fds s !! h with Some d => mret d | None => panic UB end.

(** [Arc::clone] and the destructor of an [Arc<Vnode>] *)
Definition vnode_clone (h : Z) : M V unit :=
  '(v, n) ← vnode_of h; modify (λ s, with_vnodes s (<[h := (v, S n)]> (vnodes s))).
Definition vnode_drop (h : Z) : M V unit :=
  '(v, n) ← vnode_of h;
  match n with
  | S (S n) => modify (λ s, with_vnodes s (<[h := (v, S n)]> (vnodes s)))
  | _ => modify (λ s, with_vnodes s (delete h (vnodes s))) ;; on_fs (i_drop (inode v))
  end.
Definition fd_clone (h : Z) : M V unit :=
  '(d, n) ← fd_of h; modify (λ s, with_fds s (<[h := (d, S n)]> (fds s))).

(** [hs.remove(path)], whose result is dropped, and [hs.insert(path, h)] *)
Definition hs_remove (path : list Z) : M V unit :=
  s ← get;
  match hashset s !! path with
  | Some h => put (with_hashset s (delete path (hashset s))) ;; vnode_drop h
  | None => mret tt
  end.
Definition hs_insert (path : list Z) (h : Z) : M V unit :=
  s ← get;
  put (with_hashset s (<[path := h]> (hashset s))) ;;
  match hashset s !! path with Some old => vnode_drop old | None => mret tt end.

(** [Drop for FileDescriptor], then its field [vnode] *)
Definition fd_destroy (d : FileDescriptor) : M V unit :=
  '(v, n) ← vnode_of (vnode d);
  (if (n =? 2)%nat then
     hs_remove (full_path v) ;;
     '(_, n) ← vnode_of (vnode d);
     lift (ensure (n =? 1)%nat)
   else mret tt) ;;
  vnode_drop (vnode d).
(** The destructor of an [Arc<FileDescriptor>] *)
Definition fd_drop (h : Z) : M V unit :=
  '(d, n) ← fd_of h;
  match n with
  | S (S n) => modify (λ s, with_fds s (<[h := (d, S n)]> (fds s)))
  | _ => modify (λ s, with_fds s (delete h (fds s))) ;; fd_destroy d
  end.
Definition slot_drop (o : option Z) : M V unit := match o with Some h => fd_drop h | None => mret tt end.

(** ** Files *)

Definition mount_points (s : V) : list (option (list Z)) := (λ o : option (FileSystem * Z), (λ e : FileSystem * Z, mount_point e.1) <$> o) <$> fs_table s.
(** The file system of a path: its entry in the table, which the callers assert *)
Definition lookup_fs (path : list Z) : M V (nat * (FileSystem * Z)) :=
  s ← get;
  let i := filesystem_lookup path (mount_points s) in
  match fs_table s !! i with
  | Some (Some e) => mret (i, e)
  | _ => panic AssertFailed
  end.

Definition open_inode (path : list Z) (flags : Z) : M V (ioresult (nat * Z)) :=
  '(i, (_, dir)) ← lookup_fs path;
  n ←? (if contains flags CREAT then on_fs (dir_create_file dir path)
        else if contains flags DIRECTORY then on_fs (dir_open_dir dir path)
        else on_fs (dir_open_file dir path));
  ok (i, n).

(** The vnode of a path, whose clone the caller holds *)
Definition open_vnode (path : list Z) (flags : Z) : M V (ioresult Z) :=
  s ← get;
  match hashset s !! path with
  | Some h => vnode_clone h ;; ok h
  | None =>
      e ←? open_inode path flags;
      h ← vnode_new {| v_fs := Some (fst e); full_path := path; inode := snd e |};
      vnode_clone h ;;
      hs_insert path h ;;
      ok h
  end.

Definition file_open (path : list Z) (flags : Z) : M V (ioresult Z) :=
  h ←? open_vnode path flags;
  pos ← (if contains flags APPEND then
           '(v, _) ← vnode_of h;
           r ← on_fs (i_seek (inode v) (SeekEnd 0));
           lift (io_unwrap r)
         else mret 0);
  d ← fd_new {| Vfs.flags := flags; fd_pos := pos; vnode := h |};
  ok d.

Definition file_unlink (path : list Z) : M V (ioresult unit) :=
  '(_, (_, dir)) ← lookup_fs path; on_fs (dir_remove dir path).

Definition mkdir (path : list Z) : M V Z :=
  '(_, (_, dir)) ← lookup_fs path;
  r ← on_fs (dir_create_dir dir path);
  match r with
  | IoOk d => on_fs (i_drop d) ;; mret 0
  | IoErr _ => mret (-1)
  end.

(** [regeister_file_system]: the first free slot of the table, and a vnode for the
    mount point *)
Fixpoint free_entry (i : nat) (t : list (option (FileSystem * Z))) : exec nat :=
  match t with
  | [] => Panic Explicit
  | None :: _ => Ok i
  | Some _ :: t => free_entry (S i) t
  end.
Definition regeister_file_system (f : FileSystem) : M V unit :=
  s ← get;
  i ← lift (free_entry 0 (fs_table s));
  dir ← on_fs (fs_root_dir (fs f));
  modify (λ s, with_fs_table s (<[i := Some (f, dir)]> (fs_table s))) ;;
  n ← on_fs (fs_root_dir (fs f));
  h ← vnode_new {| v_fs := Some i; full_path := mount_point f; inode := n |};
  hs_insert (mount_point f) h.

Definition mount (path : list Z) : M V unit :=
  '(_, (f, dir)) ← lookup_fs path;
  r ← on_fs (dir_open_dir dir (drop (length (mount_point f)) path));
  d ← lift (io_unwrap r);
  on_fs (i_drop d) ;;
  regeister_file_system {| mount_point := path; fs := fs f |}.

(** The file system is dropped with its last entry. *)
Definition mounted (f : Z) (t : list (option (FileSystem * Z))) : bool :=
  existsb (λ e, match e with Some (g, _) => fs g =? f | None => false end) t.
Definition umount (path : list Z) : M V unit :=
  '(i, (f, dir)) ← lookup_fs path;
  modify (λ s, with_fs_table s (<[i := None]> (fs_table s))) ;;
  s ← get;
  (if mounted (fs f) (fs_table s) then mret tt else on_fs (fs_release (fs f))) ;;
  on_fs (i_drop dir).

(** ** System calls

    [p] is the index of the process in the lists of tables and directories. *)

Definition table_of (p : nat) : M V (list (option Z)) := s ← get; lift (unwrap (tables s !! p)).
Definition set_table (p : nat) (t : list (option Z)) : M V unit := modify (λ s, with_tables s (<[p := t]> (tables s))).
(** A method of [ProcessInner] that only changes the table's length *)
Definition on_table {R} (p : nat) (m : M FdState R) : M V R :=
  t ← table_of p;
  match m {| fd_table := t; fd_descs := ∅ |} with
  | Ok (r, f) => set_table p (fd_table f) ;; mret r
  | Panic e => panic e
  end.
(** [fd_table[i] = v]: the old value is dropped. *)
Definition assign (p : nat) (i : Z) (v : option Z) : M V unit :=
  old ← on_table p (slot_index i);
  on_table p (slot_set i v) ;;
  slot_drop old.

(** [normalize_path(dirfd, pathname)]: the directory of a relative path, and the path *)
Definition dir_path (p : nat) (dirfd : Z) : M V (list Z) :=
  if dirfd =? AT_FDCWD then s ← get; lift (unwrap (cwds s !! p))
  else
    o ← on_table p (slot_index dirfd);
    h ← lift (unwrap o);
    '(d, _) ← fd_of h;
    '(v, _) ← vnode_of (vnode d);
    mret (full_path v).
Definition sys_path (p : nat) (dirfd : Z) (pathname : list Z) : M V (list Z) :=
  match pathname with
  | 0x2F :: _ => mret pathname
  | _ => dir ← dir_path p dirfd; mret (normalize_path dir pathname)
  end.

(** An [Arc] held by the caller goes into a new slot, or is dropped. *)
Definition install (p : nat) (h : Z) (alloc : M FdState Z) : M V Z :=
  newfd ← on_table p alloc;
  if 0 <=? newfd then assign p newfd (Some h) ;; mret newfd
  else fd_drop h ;; mret (-1).

Definition sys_openat (p : nat) (dirfd : Z) (pathname : list Z) (flags : Z) : M V Z :=
  path ← sys_path p dirfd pathname;
  r ← file_open path flags;
  match r with
  | IoOk h => install p h fd_alloc
  | IoErr _ => mret (-1)
  end.

Definition sys_close (p : nat) (fd : Z) : M V Z :=
  on_table p (slot_unwrap fd) ;;
  assign p fd None ;;
  mret 0.

Definition sys_dup (p : nat) (oldfd : Z) : M V Z :=
  o ← on_table p (slot_index oldfd);
  match o with
  | Some h => fd_clone h ;; install p h fd_alloc
  | None => mret (-1)
  end.

Definition sys_dup3 (p : nat) (oldfd newfd : Z) : M V Z :=
  o ← on_table p (slot_index oldfd);
  match o with
  | Some h =>
      fd_clone h ;;
      if newfd <? MAX_FD then
        t ← table_of p;
        let len := Z.of_nat (length t) in
        (if len <=? newfd then set_table p (t ++ replicate (Z.to_nat (newfd + 1 - len)) None) else mret tt) ;;
        assign p newfd (Some h) ;;
        mret newfd
      else fd_drop h ;; mret (-1)
  | None => mret (-1)
  end.

(** [create_pipe_pair] and [sys_pipe2]: the slots hold clones, and the pair itself is
    dropped at the end. *)
Definition PIPE_READ : list Z := [0x70; 0x69; 0x70; 0x65; 0x20; 0x72; 0x65; 0x61; 0x64; 0x20; 0x65; 0x6e; 0x64].
Definition PIPE_WRITE : list Z := [0x70; 0x69; 0x70; 0x65; 0x20; 0x77; 0x72; 0x69; 0x74; 0x65; 0x20; 0x65; 0x6e; 0x64].
Definition create_pipe_pair : M V (Z * Z) :=
  '(ri, wi) ← on_fs new_pipe;
  rv ← vnode_new {| v_fs := None; full_path := PIPE_READ; inode := ri |};
  r ← fd_new {| Vfs.flags := RDONLY; fd_pos := 0; vnode := rv |};
  wv ← vnode_new {| v_fs := None; full_path := PIPE_WRITE; inode := wi |};
  w ← fd_new {| Vfs.flags := WRONLY; fd_pos := 0; vnode := wv |};
  mret (r, w).
Definition sys_pipe2 (p : nat) : M V (Z * option (Z * Z)) :=
  '(r, w) ← create_pipe_pair;
  read_fd ← on_table p fd_alloc;
  res ← (if icast 32 read_fd <? 0 then mret (-1, None)
         else
           fd_clone r ;;
           assign p read_fd (Some r) ;;
           write_fd ← on_table p fd_alloc;
           if icast 32 write_fd <? 0 then assign p read_fd None ;; mret (-1, None)
           else
             fd_clone w ;;
             assign p write_fd (Some w) ;;
             mret (0, Some (read_fd, write_fd)));
  fd_drop r ;;
  fd_drop w ;;
  mret res.

Definition sys_unlinkat (p : nat) (dirfd : Z) (pathname : list Z) : M V Z :=
  path ← sys_path p dirfd pathname;
  r ← file_unlink path;
  mret (match r with IoOk _ => 0 | IoErr _ => -1 end).

Definition sys_mkdirat (p : nat) (dirfd : Z) (pathname : list Z) : M V Z :=
  path ← sys_path p dirfd pathname; mkdir path.

Definition sys_chdir (p : nat) (pathname : list Z) : M V Z :=
  path ← sys_path p AT_FDCWD pathname;
  modify (λ s, with_cwds s (<[p := path]> (cwds s))) ;;
  mret 0.

(** [buffer] is what the user's buffer holds; the result is what it holds then. *)
Definition sys_getcwd (p : nat) (buffer : list Z) : M V (list Z) :=
  s ← get;
  cwd ← lift (unwrap (cwds s !! p));
  if (length cwd <? length buffer)%nat then mret (cwd ++ [0] ++ drop (length cwd + 1) buffer)
  else panic OutOfBounds.

(** The descriptor lives to the end of the call; [get_fstat] is the caller's. *)
Definition sys_fstatat {R} (get_fstat : Z → M F R) (p : nat) (dirfd : Z) (pathname : list Z) : M V (Z * option R) :=
  path ← sys_path p dirfd pathname;
  r ← file_open path 0;
  match r with
  | IoOk h =>
      '(d, _) ← fd_of h;
      '(v, _) ← vnode_of (vnode d);
      st ← on_fs (get_fstat (inode v));
      fd_drop h ;;
      mret (0, Some st)
  | IoErr _ => mret (-1, None)
  end.

Definition sys_mount (p : nat) (target : list Z) : M V Z :=
  path ← sys_path p AT_FDCWD target; mount path ;; mret 0.
Definition sys_umount2 (p : nat) (target : list Z) : M V Z :=
  path ← sys_path p AT_FDCWD target; umount path ;; mret 0.

(** The descriptor table in [Process::fork] and in the destructor of a process *)
Definition slot_clone (o : option Z) : M V unit := match o with Some h => fd_clone h | None => mret tt end.
Definition fork_table (p : nat) : M V nat :=
  t ← table_of p;
  s ← get;
  cwd ← lift (unwrap (cwds s !! p));
  for_each t slot_clone ;;
  s ← get;
  put (with_cwds (with_tables s (tables s ++ [t])) (cwds s ++ [cwd])) ;;
  mret (length (tables s)).
Definition drop_table (p : nat) : M V unit :=
  t ← table_of p;
  set_table p [] ;;
  for_each t slot_drop.

(** The descriptor table and directory of [Process::from_elf] *)
Definition init_process (stdin stdout : Z) : M V nat :=
  fd_clone stdin ;;
  fd_clone stdout ;;
  fd_clone stdout ;;
  s ← get;
  put (with_cwds (with_tables s (tables s ++ [[Some stdin; Some stdout; Some stdout]])) (cwds s ++ [[SLASH]])) ;;
  mret (length (tables s)).

(** The static objects: [CONSOLE_VNODE], [STDIN] and [STDOUT] *)
Definition CONSOLE : Z := 0.
Definition STDIN : Z := 1.
Definition STDOUT : Z := 2.
Definition vfs_new (f : F) : V := {|
  next := 3;
  vnodes := {[CONSOLE := ({| v_fs := None; full_path := []; inode := 0 |}, 3%nat)]};
  fds := {[STDIN := ({| Vfs.flags := RDONLY; fd_pos := 0; vnode := CONSOLE |}, 1%nat);
           STDOUT := ({| Vfs.flags := WRONLY; fd_pos := 0; vnode := CONSOLE |}, 1%nat)]};
  hashset := ∅; fs_table := replicate 4 None; tables := []; cwds := []; fsys := f |}.
(** [fs::init] *)
Definition fs_init : M V unit := regeister_file_system {| mount_point := [SLASH]; fs := 0 |}.
End vnode.
