(* ===== verification/VnodeInv.v ===== *)
(** * Reference counts of vnodes and descriptors

    The invariant of the stores of [Vnode]: a descriptor's strong count is the number
    of table slots (and local variables) that hold it, a vnode's the number of its
    descriptors and of its entry in the table of vnodes.  It follows that the destructor
    of a descriptor finds what it asserts, that all descriptors of a path share one
    vnode, and that the table forgets a path with its last descriptor. *)

From stdpp Require Import gmap fin_maps.
From S2P Require Import Prelude Io FatIo Vfs Vnode.

(** ** Counting *)

Definition occ (x : Z) (l : list Z) : nat := length (filter (x =.) l).
Arguments occ : simpl never.

Lemma occ_app x l1 l2 : occ x (l1 ++ l2) = (occ x l1 + occ x l2)%nat.
Proof. unfold occ. by rewrite filter_app, length_app. Qed.
Lemma occ_cons x y l : occ x (y :: l) = ((if decide (x = y) then 1 else 0) + occ x l)%nat.
Proof. unfold occ. rewrite filter_cons. by case_decide. Qed.
#[export] Instance occ_perm x : Proper ((≡ₚ) ==> eq) (occ x).
Proof. intros l1 l2 H. unfold occ. by rewrite H. Qed.
Lemma occ_pos x l : (0 < occ x l)%nat ↔ x ∈ l.
Proof.
  induction l as [|y l IH]; [split; [unfold occ; cbn; lia|set_solver]|]. rewrite occ_cons, elem_of_cons, <- IH. case_decide; [subst; split; [by left|lia]|].
  split; [intros; right; lia|intros [?|?]; [done|lia]].
Qed.
Lemma occ_skip x y l1 l2 : x ≠ y → occ x (l1 ++ y :: l2) = occ x (l1 ++ l2).
Proof. intros H. rewrite !occ_app, occ_cons, decide_False by done. lia. Qed.
Lemma occ_same x l1 l2 : occ x (l1 ++ x :: l2) = S (occ x (l1 ++ l2)).
Proof. rewrite !occ_app, occ_cons, decide_True by done. lia. Qed.
Lemma occ_zero x l : occ x l = 0%nat ↔ x ∉ l.
Proof. rewrite <- occ_pos. lia. Qed.

(** The descriptors that slots hold *)
Definition held (ts : list (list (option Z))) : list Z := omap id (concat ts).
Arguments held : simpl never.

Lemma omap_insert (l : list (option Z)) i old v : l !! i = Some old →
  omap id (<[i := v]> l) ++ option_list old ≡ₚ omap id l ++ option_list v.
Proof.
  intros H. rewrite (insert_take_drop l i v) by (by eapply lookup_lt_Some).
  rewrite <- (take_drop_middle l i old H) at 3. rewrite !omap_app. cbn.
  rewrite <- !(assoc_L (++)). apply Permutation_app_head. destruct old, v; cbn; rewrite ?app_nil_r; try done.
  - rewrite (comm (++) _ [z]). cbn. rewrite (comm (++) _ [z0]). cbn. constructor.
  - by rewrite (comm (++)).
  - by rewrite (comm (++) _ [z]).
Qed.

Lemma held_insert (ts : list (list (option Z))) p t t' : ts !! p = Some t →
  held (<[p := t']> ts) ++ omap id t ≡ₚ held ts ++ omap id t'.
Proof.
  intros H. unfold held. rewrite (insert_take_drop ts p t') by (by eapply lookup_lt_Some).
  rewrite <- (take_drop_middle ts p t H) at 3. rewrite !concat_app, !omap_app. cbn. rewrite !omap_app.
  rewrite <- !(assoc_L (++)). apply Permutation_app_head.
  rewrite (comm (++) (omap id (concat _)) (omap id t)), (comm (++) (omap id (concat _)) (omap id t')).
  rewrite !(assoc (++)). apply Permutation_app_tail. apply (comm (++)).
Qed.

(** A class of file systems whose inodes can always be dropped. *)
Class DropTotal (F : Type) `{InodeOps F} := {
  i_drop_total i f : ∃ f', i_drop i f = Ok (tt, f');
  fs_release_total i f : ∃ f', fs_release i f = Ok (tt, f');
}.

Section counts.
Context {F : Type} `{!InodeOps F, !DropTotal F}.
(** The static descriptors [STDIN] and [STDOUT], and the references to the console's
    vnode that they and [CONSOLE_VNODE] are *)
Context (L0 W0 : list Z).
Abbreviation V := (Vfs F).
Implicit Types (s : V).

Definition hashed s (v : Vnode) (h : Z) : nat := if decide (hashset s !! full_path v = Some h) then 1 else 0.
Definition of_vnode (h : Z) (e : Z * (FileDescriptor * nat)) : Prop := vnode e.2.1 = h ∧ e.1 ∉ L0.
#[local] Instance of_vnode_dec h e : Decision (of_vnode h e).
Proof. unfold of_vnode. apply _. Defined.
Definition desc_count s (h : Z) : nat := size (filter (of_vnode h) (fds s)).

(** [L] and [W] are the references to descriptors and vnodes that local variables
    hold. *)
Record refs_ok (L W : list Z) s : Prop := {
  ok_next_v h x : vnodes s !! h = Some x → h < next s;
  ok_next_d h x : fds s !! h = Some x → h < next s;
  ok_fd h d n : fds s !! h = Some (d, n) → n = occ h (held (tables s) ++ L0 ++ L) ∧ (0 < n)%nat ∧ is_Some (vnodes s !! vnode d);
  ok_static h d n : fds s !! h = Some (d, n) → h ∈ L0 → vnode d ∈ W0;
  ok_ref h : h ∈ held (tables s) ++ L0 ++ L → is_Some (fds s !! h);
  ok_vnode h v n : vnodes s !! h = Some (v, n) → n = (hashed s v h + desc_count s h + occ h (W0 ++ W))%nat ∧ (0 < n)%nat;
  ok_wref h : h ∈ W0 ++ W → is_Some (vnodes s !! h);
  ok_hash path h : hashset s !! path = Some h → ∃ v n, vnodes s !! h = Some (v, n) ∧ full_path v = path;
  ok_unhashed h v n : vnodes s !! h = Some (v, n) → hashed s v h = 0%nat → v_fs v = None ∧ (n = 1%nat ∨ (3 ≤ occ h W0)%nat);
  ok_kind h v n : vnodes s !! h = Some (v, n) → (h ∈ W0 → v_fs v = None) ∧ (hashset s !! full_path v = Some h → v_fs v ≠ None);
}.

(** What the counts do not depend on *)
Definition same_stores s s' : Prop :=
  next s' = next s ∧ vnodes s' = vnodes s ∧ fds s' = fds s ∧ hashset s' = hashset s.

(** References move between slots and local variables. *)
Lemma refs_ok_move L L' W s s' : same_stores s s' → held (tables s') ++ L' ≡ₚ held (tables s) ++ L →
  refs_ok L W s → refs_ok L' W s'.
Proof.
  intros (En & Ev & Ed & Eh) HP [A1 A2 A3 A4 A5 A6 A7 A8 A9 A10].
  assert (held (tables s') ++ L0 ++ L' ≡ₚ held (tables s) ++ L0 ++ L) as HQ.
  { rewrite (assoc (++)), (comm (++) (held (tables s'))), <- (assoc (++)), HP.
    by rewrite (assoc (++)), (comm (++) L0), <- (assoc (++)). }
  split; unfold hashed, desc_count in *; rewrite ?En, ?Ev, ?Ed, ?Eh; eauto.
  - intros h d n. rewrite HQ. eauto.
  - intros h. rewrite HQ. eauto.
Qed.

Lemma on_fs_inv {R} (m : M F R) s r s' : on_fs m s = Ok (r, s') →
  same_stores s s' ∧ tables s' = tables s ∧ cwds s' = cwds s ∧ fs_table s' = fs_table s.
Proof. unfold on_fs. destruct (m (fsys s)) as [[? ?]|]; [|done]. by intros [= <- <-]. Qed.

Lemma desc_count_insert s h d n k : fds s !! h = None → h ∉ L0 →
  size (filter (of_vnode k) (<[h := (d, n)]> (fds s))) = ((if decide (vnode d = k) then 1 else 0) + desc_count s k)%nat.
Proof.
  intros Hn HL. rewrite map_filter_insert. unfold of_vnode at 1. cbn. case_decide as H1.
  - destruct H1 as [H1 _]. rewrite decide_True by done. rewrite map_size_insert_None; [done|]. by apply map_lookup_filter_None_2; left.
  - rewrite decide_False by naive_solver. by rewrite delete_id.
Qed.
Lemma desc_count_delete s h d n k : fds s !! h = Some (d, n) → h ∉ L0 →
  desc_count s k = ((if decide (vnode d = k) then 1 else 0) + size (filter (of_vnode k) (delete h (fds s))))%nat.
Proof.
  intros Hn HL. unfold desc_count. rewrite <- (insert_delete_id (fds s) h _ Hn) at 1.
  rewrite map_filter_insert. unfold of_vnode at 1. cbn. case_decide as H1.
  - destruct H1 as [H1 _]. rewrite decide_True by done. rewrite map_size_insert_None; [done|].
    apply map_lookup_filter_None_2. left. apply lookup_delete_eq.
  - rewrite decide_False by naive_solver. by rewrite (delete_id (delete h _)) by apply lookup_delete_eq.
Qed.
(** A new count leaves the descriptors as they are. *)
Lemma desc_count_update s h d n n' k : fds s !! h = Some (d, n) →
  size (filter (of_vnode k) (<[h := (d, n')]> (fds s))) = desc_count s k.
Proof.
  intros Hn. unfold desc_count. rewrite map_filter_insert. unfold of_vnode at 1. cbn. case_decide as H1.
  - rewrite map_size_insert_Some; [done|]. exists (d, n). by apply map_lookup_filter_Some_2.
  - rewrite map_filter_delete, map_size_delete_None; [done|]. apply map_lookup_filter_None_2. right.
    intros x Hx. rewrite Hn in Hx. by injection Hx as <-.
Qed.
Lemma desc_count_pos s k d n : fds s !! k = Some (d, n) → k ∉ L0 → (0 < desc_count s (vnode d))%nat.
Proof. intros H1 H2. rewrite (desc_count_delete s k d n _ H1 H2), decide_True by done. lia. Qed.

(** Tables, directories and file systems, which the counts have nothing to do with *)
Definition same_rest s s' : Prop := tables s' = tables s ∧ cwds s' = cwds s ∧ fs_table s' = fs_table s.
Lemma same_rest_trans s1 s2 s3 : same_rest s1 s2 → same_rest s2 s3 → same_rest s1 s3.
Proof. unfold same_rest. intros (? & ? & ?) (? & ? & ?). split_and!; congruence. Qed.

Lemma vnode_of_eq s h v n : vnodes s !! h = Some (v, n) → vnode_of h s = Ok ((v, n), s).
Proof. intros H. unfold vnode_of. run_refl. by rewrite H. Qed.
Lemma fd_of_eq s h d n : fds s !! h = Some (d, n) → fd_of h s = Ok ((d, n), s).
Proof. intros H. unfold fd_of. run_refl. by rewrite H. Qed.

(** ** Clones and drops *)

Lemma fd_clone_ok L W s h : refs_ok L W s → h ∈ held (tables s) ++ L0 ++ L →
  ∃ s', fd_clone h s = Ok (tt, s') ∧ refs_ok (h :: L) W s' ∧ same_rest s s' ∧ hashset s' = hashset s ∧ vnodes s' = vnodes s ∧
    ∀ k, fst <$> fds s' !! k = fst <$> fds s !! k.
Proof.
  intros R Hh. destruct (ok_ref _ _ _ R h Hh) as [[d n] Hd].
  eexists. split; [unfold fd_clone; run (fd_of_eq _ _ _ _ Hd); reflexivity|].
  destruct (ok_fd _ _ _ R _ _ _ Hd) as (Hn & Hn0 & Hv). split; [|split_and!; [done..|]].
  2:{ intros k. cbn. rewrite lookup_insert. case_decide; [subst; by rewrite Hd|done]. }
  assert (∀ k, occ k (held (tables s) ++ L0 ++ h :: L) = ((if decide (k = h) then 1 else 0) + occ k (held (tables s) ++ L0 ++ L))%nat) as Ho.
  { intros k. rewrite !occ_app, occ_cons. lia. }
  destruct R as [A1 A2 A3 A4 A5 A6 A7 A8 A9 A10]. split; cbn; try done.
  - intros k x. rewrite lookup_insert. case_decide; [subst; by eauto|eauto].
  - intros k x m. rewrite lookup_insert, Ho. case_decide as Hk; [intros [= <- <-]; subst k; by rewrite decide_True; [split_and!; [lia..|]|]|].
    rewrite decide_False by congruence. eauto.
  - intros k x m. rewrite lookup_insert. case_decide; [intros [= <- <-]; subst; eauto|eauto].
  - intros k Hk. rewrite lookup_insert. case_decide; [by eexists|]. apply A5. set_solver.
  - intros k v m Hk. unfold hashed, desc_count. cbn. rewrite (desc_count_update s h d n) by done. by apply A6.
Qed.

(** A vnode whose only references are a local one and its entry, if it has one, is
    freed with the entry. *)
Lemma refs_ok_free L W s s' h v n : refs_ok L (h :: W) s → vnodes s !! h = Some (v, n) → n = (hashed s v h + 1)%nat →
  next s' = next s → fds s' = fds s → tables s' = tables s → vnodes s' = delete h (vnodes s) →
  (∀ p, hashset s' !! p = if decide (hashset s !! p = Some h) then None else hashset s !! p) → refs_ok L W s'.
Proof.
  intros [A1 A2 A3 A4 A5 A6 A7 A8 A9 A10] Hv Hn En Ed Et Ev Eh.
  destruct (A6 _ _ _ Hv) as [Hc _].
  assert (desc_count s h = 0%nat ∧ occ h (W0 ++ W) = 0%nat) as [Hdc Ho].
  { rewrite occ_app, occ_cons, decide_True in Hc by done. rewrite occ_app. lia. }
  assert (∀ k w, k ≠ h → hashed s' w k = hashed s w k) as Hh.
  { intros k w Hk. unfold hashed. rewrite Eh. repeat case_decide; congruence. }
  apply occ_zero in Ho.
  split; rewrite ?En, ?Ed, ?Et, ?Ev; try done.
  - intros k x [_ Hk]%lookup_delete_Some. eauto.
  - intros k d m Hk. destruct (A3 _ _ _ Hk) as (? & ? & Hs). split_and!; try done.
    rewrite lookup_delete_ne; [done|]. intros ->. destruct (decide (k ∈ L0)) as [Hl|Hl].
    + apply Ho. rewrite elem_of_app. left. eauto.
    + pose proof (desc_count_pos s k d m Hk Hl). lia.
  - intros k w m [Hk Hw]%lookup_delete_Some. rewrite Hh by done. destruct (A6 _ _ _ Hw) as [-> ?]. split; [|done].
    unfold desc_count. rewrite Ed, !occ_app, occ_cons, decide_False by done. lia.
  - intros k Hk. rewrite lookup_delete_ne by (by intros <-). apply A7. set_solver.
  - intros p k. rewrite Eh. case_decide as Hp; [done|]. intros Hk. destruct (A8 _ _ Hk) as (w & m & Hw & Hf).
    exists w, m. split; [|done]. rewrite lookup_delete_ne; [done|]. by intros <-.
  - intros k w m [Hk Hw]%lookup_delete_Some. rewrite Hh by done. eauto.
  - intros k w m [Hk Hw]%lookup_delete_Some. rewrite Eh. case_decide; [split; [by eapply A10|done]|by eapply A10].
Qed.

Lemma on_fs_drop i s : ∃ s', on_fs (i_drop i) s = Ok (tt, s') ∧ same_stores s s' ∧ same_rest s s'.
Proof. unfold on_fs. destruct (i_drop_total i (fsys s)) as [f' ->]. by eexists. Qed.

(** Dropping a reference that is not the last one *)
Lemma refs_ok_dec L W s h v n : refs_ok L (h :: W) s → vnodes s !! h = Some (v, S (S n)) →
  refs_ok L W (with_vnodes s (<[h := (v, S n)]> (vnodes s))).
Proof.
  intros [A1 A2 A3 A4 A5 A6 A7 A8 A9 A10] Hv. split; cbn; try done.
  - intros k x. rewrite lookup_insert. case_decide; [subst; by eauto|eauto].
  - intros k d m Hk. destruct (A3 _ _ _ Hk) as (? & ? & ?). split_and!; try done. rewrite lookup_insert. by case_decide.
  - intros k w m. rewrite lookup_insert. case_decide as Hk.
    + intros [= <- <-]. subst k. destruct (A6 _ _ _ Hv) as [Hc _]. rewrite occ_app, occ_cons, decide_True in Hc by done.
      rewrite occ_app. unfold hashed, desc_count in *. cbn. lia.
    + intros Hw. destruct (A6 _ _ _ Hw) as [-> ?]. rewrite occ_skip in * by congruence. unfold hashed, desc_count in *. cbn. lia.
  - intros k Hk. rewrite lookup_insert. case_decide; [by eexists|]. apply A7. set_solver.
  - intros p k Hk. destruct (A8 _ _ Hk) as (w & m & Hw & Hf). rewrite lookup_insert. case_decide; [|by eauto].
    subst k. rewrite Hv in Hw. injection Hw as <- <-. by eauto.
  - intros k w m. rewrite lookup_insert. case_decide as Hk; [|by apply A9].
    intros [= <- <-] Hh. subst k. destruct (A9 _ _ _ Hv Hh) as [? [?|?]]; [done|]. split; [done|by right].
  - intros k w m. rewrite lookup_insert. case_decide; [intros [= <- <-]; subst k; by eapply A10|by apply A10].
Qed.
Lemma vnode_drop_last s h v : vnodes s !! h = Some (v, 1%nat) →
  ∃ s', vnode_drop h s = Ok (tt, s') ∧ same_stores (with_vnodes s (delete h (vnodes s))) s' ∧ same_rest s s'.
Proof.
  intros Hv. unfold vnode_drop. run (vnode_of_eq _ _ _ _ Hv). run_refl.
  by destruct (on_fs_drop (inode v) (with_vnodes s (delete h (vnodes s)))) as (s' & ? & ? & ?); exists s'.
Qed.
Lemma vnode_drop_dec s h v n : vnodes s !! h = Some (v, S (S n)) →
  vnode_drop h s = Ok (tt, with_vnodes s (<[h := (v, S n)]> (vnodes s))).
Proof. intros Hv. unfold vnode_drop. by run (vnode_of_eq _ _ _ _ Hv). Qed.

(** The path of the vnode [h] is forgotten when [forget] holds. *)
Definition forgets (forget : Prop) s s' (h : Z) : Prop :=
  ∀ p, (forget ∧ hashset s !! p = Some h → hashset s' !! p = None) ∧
       (¬ (forget ∧ hashset s !! p = Some h) → hashset s' !! p = hashset s !! p).

(** The destructor of a descriptor whose vnode has [n] references, that of the
    descriptor included *)
Lemma fd_destroy_ok L W s d v n : refs_ok L (vnode d :: W) s → vnodes s !! vnode d = Some (v, n) →
  ∃ s', fd_destroy d s = Ok (tt, s') ∧ refs_ok L W s' ∧ same_rest s s' ∧ fds s' = fds s ∧
    forgets (n = 2%nat) s s' (vnode d) ∧ (∀ k, k ≠ vnode d → vnodes s' !! k = vnodes s !! k) ∧
    (is_Some (vnodes s' !! vnode d) ↔ (2 < n)%nat ∨ (n = 2%nat ∧ hashed s v (vnode d) = 0%nat)).
Proof.
  intros R Hv. set (h := vnode d) in *. destruct (ok_vnode _ _ _ R _ _ _ Hv) as [Hn Hn0].
  rewrite occ_same in Hn. pose proof (ok_unhashed _ _ _ R _ _ _ Hv) as Hu. rewrite occ_app in Hn.
  unfold fd_destroy. fold h. run (vnode_of_eq _ _ _ _ Hv).
  destruct n as [|[|[|n]]]; [lia| | |]; cbn [Nat.eqb].
  - (* the last reference: not in the table *)
    assert (hashed s v h = 0%nat) as H0 by lia.
    destruct (vnode_drop_last s h v Hv) as (s' & Hs & (E1 & E2 & E3 & E4) & Er).
    run_refl. exists s'. split; [done|]. cbn in *.
    assert (∀ p, hashset s !! p = Some h → False) as Hno.
    { intros p Hp. destruct (ok_hash _ _ _ R _ _ Hp) as (w & m & Hw & <-). rewrite Hv in Hw. injection Hw as <- <-.
      unfold hashed in H0. by case_decide. }
    split_and!; [|done|by rewrite E3|..].
    + eapply (refs_ok_free L W s s' h v 1); try done; [lia|apply Er|]. intros p. rewrite E4. case_decide; [exfalso; eauto|done].
    + intros p. split; [intros [? _]; lia|by rewrite E4].
    + intros k Hk. rewrite E2. by apply lookup_delete_ne.
    + rewrite E2, lookup_delete_eq. split; [by intros [? ?]|lia].
  - destruct (decide (hashset s !! full_path v = Some h)) as [Hh|Hh].
    2:{ unfold hashed in *. rewrite decide_False in Hn, Hu by done. destruct (Hu eq_refl) as [_ [?|?]]; [done|lia]. }
    assert (hashed s v h = 1%nat) as H1 by (unfold hashed; by rewrite decide_True).
    set (s1 := with_vnodes (with_hashset s (delete (full_path v) (hashset s))) (<[h := (v, 1%nat)]> (vnodes s))).
    assert (hs_remove (full_path v) s = Ok (tt, s1)) as Hrm.
    { unfold hs_remove. run_refl. rewrite Hh. run_refl. by rewrite (vnode_drop_dec _ h v 0). }
    assert (vnodes s1 !! h = Some (v, 1%nat)) as Hv1 by (cbn; apply lookup_insert_eq).
    destruct (vnode_drop_last s1 h v Hv1) as (s' & Hs & (E1 & E2 & E3 & E4) & Er).
    rewrite !M_bind_assoc. run Hrm. rewrite !M_bind_assoc. run (vnode_of_eq _ _ _ _ Hv1). cbn [Nat.eqb]. run_refl.
    cbn [vnodes s1 with_vnodes] in E2. rewrite delete_insert_eq in E2.
    assert (∀ p, hashset s' !! p = if decide (hashset s !! p = Some h) then None else hashset s !! p) as Hp.
    { intros p. rewrite E4. cbn. rewrite lookup_delete. case_decide as H2; [subst p; by rewrite Hh, decide_True|].
      case_decide as H3; [|done]. exfalso. destruct (ok_hash _ _ _ R _ _ H3) as (w & m & Hw & Hf). congruence. }
    exists s'. split; [done|]. split_and!; [|exact Er|by rewrite E3|..].
    + eapply (refs_ok_free L W s s' h v 2); try done; [lia|apply Er].
    + intros p. rewrite Hp. split; [by intros [_ ?]; case_decide|intros Hq; case_decide; tauto].
    + intros k Hk. rewrite E2. by apply lookup_delete_ne.
    + rewrite E2, lookup_delete_eq. split; [by intros [? ?]|]. intros [?|[_ ?]]; lia.
  - run_refl. eexists. split; [by apply vnode_drop_dec|]. split_and!; [by apply refs_ok_dec|done|done|..].
    + intros p. split; [intros [? _]; lia|done].
    + intros k Hk. cbn. by apply lookup_insert_ne.
    + cbn. rewrite lookup_insert_eq. split; [lia|by eexists].
Qed.
(** What a drop does to the stores: the last reference to a descriptor takes it away,
    and its path with the last descriptor of the vnode. *)
Definition dropped s s' (h : Z) : Prop :=
  ∃ d n, fds s !! h = Some (d, n) ∧
    (((1 < n)%nat ∧ fds s' = <[h := (d, pred n)]> (fds s) ∧ hashset s' = hashset s ∧ vnodes s' = vnodes s) ∨
     (n = 1%nat ∧ fds s' = delete h (fds s) ∧ (∀ k, k ≠ vnode d → vnodes s' !! k = vnodes s !! k) ∧
      ∃ v m, vnodes s !! vnode d = Some (v, m) ∧ forgets (m = 2%nat) s s' (vnode d))).

(** The last reference to a descriptor becomes one to its vnode. *)
Lemma refs_ok_release L W s h d n : refs_ok (h :: L) W s → fds s !! h = Some (d, n) → occ h (held (tables s) ++ L0 ++ L) = 0%nat →
  refs_ok L (vnode d :: W) (with_fds s (delete h (fds s))).
Proof.
  intros [A1 A2 A3 A4 A5 A6 A7 A8 A9 A10] Hd H0. destruct (A3 _ _ _ Hd) as (Hn & _ & Hvd).
  apply occ_zero in H0. assert (h ∉ L0) as HL by set_solver.
  assert (∀ k, k ≠ h → occ k (held (tables s) ++ L0 ++ h :: L) = occ k (held (tables s) ++ L0 ++ L)) as Ho.
  { intros k Hk. by rewrite !(assoc_L (++)), occ_skip. }
  split; cbn; try done.
  - intros k x [_ Hk]%lookup_delete_Some. eauto.
  - intros k e m [Hk Hd']%lookup_delete_Some. rewrite <- Ho by done. eauto.
  - intros k e m [Hk Hd']%lookup_delete_Some. eauto.
  - intros k Hk. rewrite lookup_delete_ne by (by intros ->). apply A5. set_solver.
  - intros k v m Hv. destruct (A6 _ _ _ Hv) as [Hm Hm0]. split; [|done]. rewrite Hm. unfold hashed. cbn.
    rewrite (desc_count_delete s h d n k Hd HL). unfold desc_count. cbn.
    destruct (decide (vnode d = k)) as [Hk|Hk].
    + subst k. rewrite occ_same. lia.
    + rewrite (occ_skip k) by done. lia.
  - intros k Hk. apply elem_of_app in Hk as [Hk|[->|Hk]%elem_of_cons]; [apply A7; set_solver|done|apply A7; set_solver].
Qed.

Lemma fd_drop_ok L W s h : refs_ok (h :: L) W s →
  ∃ s', fd_drop h s = Ok (tt, s') ∧ refs_ok L W s' ∧ same_rest s s' ∧ dropped s s' h.
Proof.
  intros R. destruct (ok_ref _ _ _ R h) as [[d n] Hd]; [set_solver|].
  destruct (ok_fd _ _ _ R _ _ _ Hd) as (Hn & Hn0 & [[v m] Hv]). rewrite (assoc_L (++)), occ_same, <- (assoc_L (++)) in Hn.
  unfold fd_drop. run (fd_of_eq _ _ _ _ Hd). destruct n as [|[|n]]; [lia| |].
  - injection Hn as Hn. pose proof (refs_ok_release L W s h d 1 R Hd (eq_sym Hn)) as R1.
    destruct (fd_destroy_ok L W _ d v m R1 Hv) as (s' & Hs & R' & Er & Ed & Hf & Hk & _).
    run_refl. exists s'. split; [done|]. split; [done|]. split; [exact Er|].
    exists d, 1%nat. split; [done|]. right. split_and!; [done..|]. by exists v, m.
  - eexists. split; [reflexivity|]. split; [|split; [done|]].
    2:{ exists d, (S (S n)). split; [done|]. left. split_and!; [lia|done..]. }
    destruct R as [A1 A2 A3 A4 A5 A6 A7 A8 A9 A10]. split; cbn; try done.
    + intros k x. rewrite lookup_insert. case_decide; [subst; by eauto|eauto].
    + intros k e j. rewrite lookup_insert. case_decide as Hk.
      * intros [= <- <-]. subst k. split_and!; [lia..|by eexists].
      * intros He. destruct (A3 _ _ _ He) as (? & ? & ?). rewrite (assoc_L (++)), occ_skip, <- (assoc_L (++)) in * by done. done.
    + intros k e j. rewrite lookup_insert. case_decide; [intros [= <- <-]; subst; eauto|eauto].
    + intros k Hk. rewrite lookup_insert. case_decide; [by eexists|]. apply A5. set_solver.
    + intros k w j Hw. unfold hashed, desc_count. cbn. rewrite (desc_count_update s h d (S (S n))) by done. by apply A6.
Qed.

Lemma slot_drop_ok L W s o : refs_ok (option_list o ++ L) W s →
  ∃ s', slot_drop o s = Ok (tt, s') ∧ refs_ok L W s' ∧ same_rest s s' ∧
    match o with Some h => dropped s s' h | None => s' = s end.
Proof. destruct o as [h|]; cbn; [apply fd_drop_ok|]. intros R. by exists s. Qed.

Lemma drop_all_ok W t : ∀ L s, refs_ok (omap id t ++ L) W s →
  ∃ s', for_each t slot_drop s = Ok (tt, s') ∧ refs_ok L W s' ∧ same_rest s s'.
Proof.
  induction t as [|o t IH]; intros L s R; cbn [for_each]; [by exists s|].
  destruct (slot_drop_ok (omap id t ++ L) W s o) as (s1 & H1 & R1 & E1 & _); [by destruct o|]. run H1.
  destruct (IH L s1 R1) as (s2 & H2 & R2 & E2). exists s2. split_and!; [done..|]. by eapply same_rest_trans.
Qed.

Lemma clone_all_ok W t : ∀ L s, refs_ok L W s → (∀ h, h ∈ omap id t → h ∈ held (tables s)) →
  ∃ s', for_each t slot_clone s = Ok (tt, s') ∧ refs_ok (omap id t ++ L) W s' ∧ same_rest s s'.
Proof.
  induction t as [|o t IH]; intros L s R Ht; cbn [for_each]; [by exists s|]. destruct o as [h|]; cbn in *.
  - destruct (fd_clone_ok L W s h R) as (s1 & H1 & R1 & E1 & _); [set_solver|]. run H1.
    destruct (IH (h :: L) s1 R1) as (s2 & H2 & R2 & E2).
    { intros k Hk. destruct E1 as [-> _]. set_solver. }
    exists s2. split_and!; [done| |by eapply same_rest_trans].
    eapply refs_ok_move; [| |exact R2]; [done|]. by rewrite Permutation_middle.
  - run_refl. by apply IH.
Qed.
End counts.
