(* ===== verification/VnodeOps.v ===== *)
(** * Opening, duplicating and closing descriptors

    Every call of [Vnode] keeps the reference counts of [VnodeInv] exact. *)

From stdpp Require Import gmap fin_maps.
From S2P Require Import Prelude Io FatIo Vfs Vnode VnodeInv.

Section ops.
Context {F : Type} `{!InodeOps F, !DropTotal F}.
Context (L0 W0 : list Z).
Abbreviation V := (Vfs F).
Implicit Types (s : V).
Abbreviation ok_refs := (refs_ok L0 W0).

(** ** Tables *)

Lemma perm_exchange (A A' L T T1 O O1 : list Z) : A' ++ T ≡ₚ A ++ T1 → T1 ++ O ≡ₚ T ++ O1 → A' ++ O ++ L ≡ₚ A ++ O1 ++ L.
Proof.
  intros H1 H2. apply (Permutation_app_inv_r T). trans ((A' ++ T) ++ O ++ L); [solve_Permutation|]. rewrite H1.
  trans (A ++ (T1 ++ O) ++ L); [solve_Permutation|]. rewrite H2. solve_Permutation.
Qed.

Lemma with_tables_id s : with_tables s (tables s) = s.
Proof. by destruct s. Qed.
Lemma same_rest_refl s : same_rest s s.
Proof. done. Qed.
Lemma same_stores_trans s1 s2 s3 : same_stores s1 s2 → same_stores s2 s3 → same_stores s1 s3.
Proof. unfold same_stores. intros (? & ? & ? & ?) (? & ? & ? & ?). split_and!; congruence. Qed.

Lemma on_table_eq {R} p (m : M FdState R) s t r t' ds : tables s !! p = Some t →
  m {| fd_table := t; fd_descs := ∅ |} = Ok (r, {| fd_table := t'; fd_descs := ds |}) →
  on_table p m s = Ok (r, with_tables s (<[p := t']> (tables s))).
Proof. intros Ht Hm. unfold on_table, table_of. rewrite M_bind_assoc. run_refl. rewrite Ht. run_refl. by rewrite Hm. Qed.

Lemma on_table_read {R} p (m : M FdState R) s t r : tables s !! p = Some t →
  m {| fd_table := t; fd_descs := ∅ |} = Ok (r, {| fd_table := t; fd_descs := ∅ |}) → on_table p m s = Ok (r, s).
Proof. intros Ht Hm. rewrite (on_table_eq p m s t r t ∅ Ht Hm). by rewrite list_insert_id, with_tables_id. Qed.

Lemma on_table_inv {R} p (m : M FdState R) s r s' : on_table p m s = Ok (r, s') → ∃ t f, tables s !! p = Some t ∧
  m {| fd_table := t; fd_descs := ∅ |} = Ok (r, f) ∧ s' = with_tables s (<[p := fd_table f]> (tables s)).
Proof.
  unfold on_table, table_of. rewrite M_bind_assoc. run_refl. destruct (tables s !! p) as [t|]; [|done]. run_refl.
  destruct (m _) as [[r' f]|] eqn:Hm; [|done]. intros [= <- <-]. by exists t, f.
Qed.

Lemma slot_index_eq t i o ds : t !! Z.to_nat i = Some o →
  slot_index i {| fd_table := t; fd_descs := ds |} = Ok (o, {| fd_table := t; fd_descs := ds |}).
Proof. intros H. unfold slot_index. run_refl. cbn. by rewrite H. Qed.

Lemma slot_index_run p i s o s' : on_table p (slot_index i) s = Ok (o, s') →
  s' = s ∧ ∃ t, tables s !! p = Some t ∧ t !! Z.to_nat i = Some o.
Proof.
  intros (t & f & Ht & Hm & ->)%on_table_inv. unfold slot_index in Hm. revert Hm. run_refl. cbn.
  destruct (t !! Z.to_nat i) as [o'|] eqn:Ho; [|done]. intros [= <- <-]. cbn.
  rewrite list_insert_id, with_tables_id by done. by eauto.
Qed.

Lemma held_slot ts p t (i : nat) h : ts !! p = Some t → t !! i = Some (Some h) → h ∈ held ts.
Proof.
  intros Ht Hi. unfold held. apply list_elem_of_omap. exists (Some h). split; [|done]. apply list_elem_of_In, in_concat.
  exists t. split; apply list_elem_of_In; by eapply list_elem_of_lookup_2.
Qed.

Lemma extended_held t t' : extended t t' → omap id t' = omap id t.
Proof.
  intros [n ->]. rewrite omap_app. replace (omap id (replicate n None)) with (@nil Z); [by rewrite app_nil_r|]. by induction n.
Qed.

(** [fd_alloc] finds or makes an empty slot, or fails. *)
Lemma fd_alloc_shape t : ∃ n t', fd_alloc {| fd_table := t; fd_descs := ∅ |} = Ok (n, {| fd_table := t'; fd_descs := ∅ |}) ∧
  extended t t' ∧ (n = -1 ∨ (0 ≤ n ∧ t' !! Z.to_nat n = Some None)).
Proof.
  unfold fd_alloc. run_refl. cbn [fd_table]. pose proof (free_slot_spec (drop 3 t) 3) as Hf.
  assert (extended t t) as Hid by (exists 0%nat; cbn; by rewrite app_nil_r).
  destruct (free_slot 3 (drop 3 t)) as [n|].
  - destruct Hf as (Hn & Hl & _). rewrite lookup_drop in Hl. exists n, t. split_and!; try done. right. split; [lia|].
    rewrite <- Hl. f_equal. lia.
  - case_match; [exists (-1), t; split_and!; try done; by left|].
    eexists _, _. split; [reflexivity|]. split; [by exists 1%nat|]. right. split; [lia|]. rewrite Nat2Z.id. apply list_lookup_middle. done.
Qed.

(** A slot is assigned: the reference moves into it, and the old one is dropped. *)
Lemma assign_ok L W s p t i old v : tables s !! p = Some t → t !! Z.to_nat i = Some old → ok_refs (option_list v ++ L) W s →
  let s1 := with_tables s (<[p := <[Z.to_nat i := v]> t]> (tables s)) in
  ∃ s', assign p i v s = Ok (tt, s') ∧ ok_refs L W s' ∧ same_rest s1 s' ∧
    match old with Some h => dropped s1 s' h | None => s' = s1 end.
Proof.
  intros Ht Hi R s1.
  assert (ok_refs (option_list old ++ L) W s1) as R1.
  { eapply refs_ok_move; [| |exact R]; [done|]. cbn.
    pose proof (held_insert (tables s) p t (<[Z.to_nat i := v]> t) Ht) as H1. pose proof (omap_insert t _ _ v Hi) as H2.
    by apply (perm_exchange _ _ L (omap id t) (omap id (<[Z.to_nat i := v]> t))). }
  unfold assign. run (on_table_read p _ s t old Ht (slot_index_eq t i old ∅ Hi)).
  assert (slot_set i v {| fd_table := t; fd_descs := ∅ |} = Ok (tt, {| fd_table := <[Z.to_nat i := v]> t; fd_descs := ∅ |})) as Hset.
  { unfold slot_set. run_refl. cbn. pose proof (lookup_lt_Some _ _ _ Hi). by replace (i <? _) with true by lia. }
  run (on_table_eq p _ s t tt _ ∅ Ht Hset). fold s1.
  destruct (slot_drop_ok L0 W0 L W s1 old R1) as (s' & Hs & R' & Er & Hd). exists s'. by split_and!.
Qed.
(** ** New vnodes and descriptors *)

Lemma refs_ok_stores L W s s' : same_stores s s' → same_rest s s' → ok_refs L W s → ok_refs L W s'.
Proof. intros H (Ht & _) R. eapply refs_ok_move; [exact H| |exact R]. by rewrite Ht. Qed.

Lemma desc_count_zero s h : (∀ k d n, fds s !! k = Some (d, n) → vnode d ≠ h) → desc_count L0 s h = 0%nat.
Proof.
  intros H. unfold desc_count. apply map_size_empty_iff, map_empty_filter. intros k [d n] Hk [Hv _]. cbn in Hv. by eapply H.
Qed.
Lemma fresh_vnode L W s : ok_refs L W s →
  vnodes s !! next s = None ∧ desc_count L0 s (next s) = 0%nat ∧ occ (next s) (W0 ++ W) = 0%nat.
Proof.
  intros R. assert (∀ x, vnodes s !! next s = Some x → False) as Hn.
  { intros x Hx. pose proof (ok_next_v _ _ _ _ _ R _ _ Hx). lia. }
  split; [destruct (vnodes s !! next s) eqn:E; [exfalso; eauto|done]|]. split.
  - apply desc_count_zero. intros k d n Hk Hvd. destruct (ok_fd _ _ _ _ _ R _ _ _ Hk) as (_ & _ & [x Hx]). rewrite Hvd in Hx. eauto.
  - apply occ_zero. intros Hw. destruct (ok_wref _ _ _ _ _ R _ Hw) as [x Hx]. eauto.
Qed.

(** A new vnode in the table, with [k] references of the caller *)
Lemma refs_ok_vnode L W s s' v (k : nat) : ok_refs L W s → hashset s !! full_path v = None → v_fs v ≠ None →
  next s' = next s + 1 → vnodes s' = <[next s := (v, S k)]> (vnodes s) → hashset s' = <[full_path v := next s]> (hashset s) →
  fds s' = fds s → tables s' = tables s → ok_refs L (replicate k (next s) ++ W) s'.
Proof.
  intros R Hp Hfs En Ev Eh Ed Et. destruct (fresh_vnode _ _ _ R) as (Hnew & Hdc & Hocc).
  assert (∀ x, occ x (W0 ++ replicate k (next s) ++ W) = ((if decide (x = next s) then k else 0) + occ x (W0 ++ W))%nat) as Ho.
  { intros x. rewrite !occ_app. replace (occ x (replicate k (next s))) with (if decide (x = next s) then k else 0%nat); [lia|].
    clear. induction k as [|k IH]; cbn [replicate]; [by case_decide|]. rewrite occ_cons, <- IH. by case_decide. }
  destruct R as [A1 A2 A3 A4 A5 A6 A7 A8 A9 A10].
  assert (∀ h w, h ≠ next s → hashed s' w h = hashed s w h) as Hh.
  { intros h w Hk. unfold hashed. rewrite Eh, lookup_insert.
    destruct (decide (full_path v = full_path w)) as [H1|H1]; [|done]. rewrite <- H1, Hp. rewrite decide_False by congruence. by rewrite decide_False. }
  split; rewrite ?En, ?Ev, ?Ed, ?Et; try done.
  - intros h x. rewrite lookup_insert. case_decide; [intros; lia|]. intros Hx. specialize (A1 _ _ Hx). lia.
  - intros h x Hx. specialize (A2 _ _ Hx). lia.
  - intros h d n Hd. destruct (A3 _ _ _ Hd) as (? & ? & ?). split_and!; try done. rewrite lookup_insert. by case_decide.
  - intros h w n. rewrite lookup_insert. case_decide as Hk.
    + intros [= <- <-]. subst h. rewrite Ho, decide_True, Hocc by done. unfold desc_count in *. rewrite Ed, Hdc.
      unfold hashed. rewrite Eh, lookup_insert_eq, decide_True by done. lia.
    + intros Hw. rewrite Hh, Ho, decide_False by congruence. unfold desc_count. rewrite Ed. by apply A6.
  - intros h Hw. rewrite lookup_insert. case_decide as Hk; [by eexists|]. apply A7.
    rewrite !elem_of_app in *. destruct Hw as [?|[[-> _]%elem_of_replicate|?]]; [by left|done|by right].
  - intros path h. rewrite Eh, lookup_insert. case_decide as Hk.
    + intros [= <-]. exists v, (S k). by rewrite lookup_insert_eq.
    + intros Hx. destruct (A8 _ _ Hx) as (w & n & Hw & Hf). exists w, n. rewrite lookup_insert_ne; [done|]. congruence.
  - intros h w n. rewrite lookup_insert. case_decide as Hk.
    + intros [= <- <-]. subst h. unfold hashed. by rewrite Eh, lookup_insert_eq, decide_True.
    + intros Hw. rewrite Hh by done. eauto.
  - intros h w n. rewrite lookup_insert. case_decide as Hk.
    + intros [= <- <-]. subst h. split; [|done]. apply occ_zero in Hocc. set_solver.
    + intros Hw. destruct (A10 _ _ _ Hw) as [H1 H2]. split; [done|]. rewrite Eh, lookup_insert. case_decide; [congruence|done].
Qed.

Lemma vnode_clone_ok L W s h path : ok_refs L W s → hashset s !! path = Some h →
  ∃ s', vnode_clone h s = Ok (tt, s') ∧ ok_refs L (h :: W) s' ∧ same_rest s s' ∧ hashset s' = hashset s ∧ fds s' = fds s ∧
    fsys s' = fsys s ∧ (∀ k, fst <$> vnodes s' !! k = fst <$> vnodes s !! k).
Proof.
  intros [A1 A2 A3 A4 A5 A6 A7 A8 A9 A10] Hp. destruct (A8 _ _ Hp) as (v & n & Hv & <-).
  eexists. split; [unfold vnode_clone; by run (vnode_of_eq _ _ _ _ Hv)|].
  split; [|split_and!; try done; intros k; cbn; rewrite lookup_insert; case_decide; [subst; by rewrite Hv|done]].
  split; cbn; try done.
  - intros k x. rewrite lookup_insert. case_decide; [subst; by eauto|eauto].
  - intros k d m Hk. destruct (A3 _ _ _ Hk) as (? & ? & ?). split_and!; try done. rewrite lookup_insert. by case_decide.
  - intros k w m. rewrite lookup_insert. case_decide as Hk.
    + intros [= <- <-]. subst k. destruct (A6 _ _ _ Hv) as [-> ?]. rewrite occ_same. unfold hashed, desc_count. cbn. lia.
    + rewrite occ_skip by congruence. apply A6.
  - intros k Hk. rewrite lookup_insert. case_decide; [by eexists|]. apply A7. set_solver.
  - intros q k Hk. destruct (A8 _ _ Hk) as (w & m & Hw & Hf). rewrite lookup_insert. case_decide; [|by eauto].
    subst k. rewrite Hv in Hw. injection Hw as <- <-. by eauto.
  - intros k w m. rewrite lookup_insert. case_decide as Hk; [|by apply A9].
    intros [= <- <-] Hh. unfold hashed in Hh. cbn in Hh. subst k. by rewrite decide_True in Hh.
  - intros k w m. rewrite lookup_insert. case_decide; [intros [= <- <-]; subst k; by eapply A10|by apply A10].
Qed.

(** The caller's reference to the vnode goes into a new descriptor. *)
Lemma fd_new_ok L W s d : ok_refs L (vnode d :: W) s →
  ∃ h s', fd_new d s = Ok (h, s') ∧ ok_refs (h :: L) W s' ∧ same_rest s s' ∧ hashset s' = hashset s ∧ vnodes s' = vnodes s ∧
    fds s !! h = None ∧ fds s' = <[h := (d, 1%nat)]> (fds s) ∧ fsys s' = fsys s.
Proof.
  intros R. set (h := next s).
  assert (fds s !! h = None) as Hnew.
  { destruct (fds s !! h) as [x|] eqn:Hx; [|done]. pose proof (ok_next_d _ _ _ _ _ R _ _ Hx). lia. }
  assert (occ h (held (tables s) ++ L0 ++ L) = 0%nat) as Hocc.
  { apply occ_zero. intros Hw. destruct (ok_ref _ _ _ _ _ R _ Hw) as [x Hx]. congruence. }
  assert (h ∉ L0) as HL by (apply occ_zero in Hocc; set_solver).
  exists h. eexists. split; [reflexivity|]. split; [|by split_and!].
  assert (∀ k, k ≠ h → occ k (held (tables s) ++ L0 ++ h :: L) = occ k (held (tables s) ++ L0 ++ L)) as Ho.
  { intros k Hk. by rewrite !(assoc_L (++)), occ_skip. }
  destruct R as [A1 A2 A3 A4 A5 A6 A7 A8 A9 A10]. split; cbn; try done; fold h.
  - intros k x Hx. specialize (A1 _ _ Hx). lia.
  - intros k x. rewrite lookup_insert. case_decide; [intros; lia|]. intros Hx. specialize (A2 _ _ Hx). lia.
  - intros k e n. rewrite lookup_insert. case_decide as Hk.
    + intros [= <- <-]. subst k. rewrite (assoc_L (++)), occ_same, <- (assoc_L (++)), Hocc. split_and!; [done|lia|].
      apply A7. set_solver.
    + rewrite Ho by congruence. apply A3.
  - intros k e n. rewrite lookup_insert. case_decide as Hk; [by subst k|apply A4].
  - intros k Hk. rewrite lookup_insert. case_decide; [by eexists|]. apply A5. set_solver.
  - intros k v n Hv. destruct (A6 _ _ _ Hv) as [Hn Hn0]. split; [|done]. rewrite Hn. unfold hashed. cbn. unfold desc_count at 2. cbn. fold h.
    rewrite (desc_count_insert L0 s h d 1 k Hnew HL). destruct (decide (vnode d = k)) as [Hk|Hk].
    + subst k. rewrite occ_same. lia.
    + rewrite occ_skip by done. lia.
  - intros k Hk. apply A7. set_solver.
Qed.
(** ** Opening files *)

Lemma lookup_fs_inv path s e s' : lookup_fs path s = Ok (e, s') → s' = s.
Proof. unfold lookup_fs. run_refl. repeat case_match; try done. by intros [= _ <-]. Qed.

Lemma open_inode_inv path fl s r s' : open_inode path fl s = Ok (r, s') → same_stores s s' ∧ same_rest s s'.
Proof.
  unfold open_inode. intros ([i [f dir]] & s1 & H1 & H)%M_bind_Ok. apply lookup_fs_inv in H1 as ->.
  apply M_bind_Ok in H as (a & s1 & H1 & H).
  assert (same_stores s s1 ∧ same_rest s s1) as Hs.
  { repeat case_match; by apply on_fs_inv in H1. }
  destruct a; by injection H as <- <-.
Qed.

Lemma open_vnode_inv L W s path fl r s' : ok_refs L W s → open_vnode path fl s = Ok (r, s') →
  same_rest s s' ∧ fds s' = fds s ∧
  match r with
  | IoOk h => ok_refs L (h :: W) s' ∧ hashset s' !! path = Some h ∧
      ((hashset s !! path = Some h ∧ hashset s' = hashset s ∧ fsys s' = fsys s) ∨
       (hashset s !! path = None ∧ hashset s' = <[path := h]> (hashset s)))
  | IoErr _ => ok_refs L W s' ∧ hashset s !! path = None ∧ hashset s' = hashset s
  end.
Proof.
  intros R. unfold open_vnode. run_refl. destruct (hashset s !! path) as [h|] eqn:Hp.
  - destruct (vnode_clone_ok L W s h path R Hp) as (s1 & H1 & R1 & Er & Eh & Ed & Ef & _). run H1. intros [= <- <-].
    split; [done|]. split; [done|]. split; [done|]. rewrite Eh. split; [done|]. by left.
  - intros ([e|er] & s1 & H1 & H)%M_bind_Ok; apply open_inode_inv in H1 as [Hs Hr];
      pose proof (refs_ok_stores _ _ _ _ Hs Hr R) as R1; destruct Hs as (E1 & E2 & E3 & E4).
    2:{ by injection H as <- <-. }
    set (v := {| v_fs := Some e.1; full_path := path; inode := e.2 |}) in *.
    assert (hashset s1 !! path = None) as Hp1 by (by rewrite E4).
    assert (vnodes s1 !! next s1 = None) as Hnew by (by eapply fresh_vnode).
    revert H. erewrite M_bind_eq by reflexivity. erewrite M_bind_eq.
    2:{ unfold vnode_clone. erewrite M_bind_eq by (apply vnode_of_eq; cbn; apply lookup_insert_eq). reflexivity. }
    erewrite M_bind_eq. 2:{ unfold hs_insert. run_refl. run_refl. cbn. rewrite Hp1. reflexivity. }
    intros [= <- <-]. split; [done|]. split; [done|]. split; [|cbn; rewrite lookup_insert_eq; split; [done|right; by rewrite E4]].
    apply (refs_ok_vnode L W s1 _ v 1 R1 Hp1); try done. cbn. apply insert_insert_eq.
Qed.

Lemma file_open_inv L W s path fl r s' : ok_refs L W s → file_open path fl s = Ok (r, s') →
  same_rest s s' ∧
  match r with
  | IoOk h => ok_refs (h :: L) W s' ∧ ∃ d, fds s !! h = None ∧ fds s' = <[h := (d, 1%nat)]> (fds s) ∧ flags d = fl ∧
      hashset s' !! path = Some (vnode d) ∧
      ((hashset s !! path = Some (vnode d) ∧ hashset s' = hashset s) ∨
       (hashset s !! path = None ∧ hashset s' = <[path := vnode d]> (hashset s)))
  | IoErr _ => ok_refs L W s' ∧ hashset s !! path = None ∧ hashset s' = hashset s ∧ fds s' = fds s
  end.
Proof.
  intros R. unfold file_open. intros ([h|e] & s1 & H1 & H)%M_bind_Ok; apply (open_vnode_inv L W _ _ _ _ _ R) in H1 as (Er & Ed & H1).
  2:{ injection H as <- <-. by destruct H1 as (? & ? & ?). }
  destruct H1 as (R1 & Hh & Hc). apply M_bind_Ok in H as (pos & s2 & H2 & H).
  assert (same_stores s1 s2 ∧ same_rest s1 s2) as [Hs2 Hr2].
  { destruct (contains fl APPEND); [|by injection H2 as <- <-].
    apply M_bind_Ok in H2 as ([v n] & s3 & H3 & H2). unfold vnode_of in H3. revert H3. run_refl. case_match; [|done]. intros [= -> <-].
    apply M_bind_Ok in H2 as (q & s3 & H3 & H2). apply lift_Ok in H2 as [_ ->]. by apply on_fs_inv in H3. }
  pose proof (refs_ok_stores _ _ _ _ Hs2 Hr2 R1) as R2. destruct Hs2 as (E1 & E2 & E3 & E4).
  destruct (fd_new_ok L W s2 {| Vfs.flags := fl; fd_pos := pos; vnode := h |} R2) as (k & s3 & H3 & R3 & Er3 & Eh3 & Ev3 & Hn & Ed3 & _).
  revert H. run H3. intros [= <- <-]. split; [by do 2 (eapply same_rest_trans; [eassumption|])|]. split; [done|].
  eexists. rewrite <- Ed, <- E3. split; [done|]. split; [done|]. cbn. split; [done|]. rewrite Eh3, E4. split; [done|].
  destruct Hc as [(? & -> & _)|[? ->]]; [by left|by right].
Qed.
(** ** System calls *)

Lemma refs_ok_extend L W s p t t' : tables s !! p = Some t → extended t t' → ok_refs L W s →
  ok_refs L W (with_tables s (<[p := t']> (tables s))).
Proof.
  intros Ht He R. eapply refs_ok_move; [| |exact R]; [done|]. cbn. apply Permutation_app_tail.
  apply (Permutation_app_inv_r (omap id t)). rewrite (held_insert _ _ _ t' Ht). by rewrite (extended_held _ _ He).
Qed.
Lemma fd_alloc_inv L W s p n s' : ok_refs L W s → on_table p fd_alloc s = Ok (n, s') →
  ∃ t t', tables s !! p = Some t ∧ extended t t' ∧ s' = with_tables s (<[p := t']> (tables s)) ∧ tables s' !! p = Some t' ∧
    ok_refs L W s' ∧ (n = -1 ∨ (0 ≤ n ∧ t' !! Z.to_nat n = Some None)).
Proof.
  intros R (t & f & Ht & Hm & ->)%on_table_inv. destruct (fd_alloc_shape t) as (n' & t' & Ha & He & Hc).
  rewrite Ha in Hm. injection Hm as <- <-. exists t, t'. cbn. split_and!; try done.
  - apply list_lookup_insert_eq. by eapply lookup_lt_Some.
  - by eapply refs_ok_extend.
Qed.

(** A reference of the caller goes into the lowest free slot, or is dropped. *)
Lemma install_inv L W s p h n s' : ok_refs (h :: L) W s → install p h fd_alloc s = Ok (n, s') →
  ok_refs L W s' ∧ ∃ t t' s1, tables s !! p = Some t ∧ extended t t' ∧ same_stores s s1 ∧ cwds s' = cwds s ∧ fs_table s' = fs_table s ∧
    ((0 ≤ n ∧ t' !! Z.to_nat n = Some None ∧ same_stores s s' ∧ tables s' = <[p := <[Z.to_nat n := Some h]> t']> (tables s)) ∨
     (n = -1 ∧ tables s' = <[p := t']> (tables s) ∧ dropped s1 s' h)).
Proof.
  intros R. unfold install. intros (k & s1 & H1 & H)%M_bind_Ok.
  destruct (fd_alloc_inv _ _ _ _ _ _ R H1) as (t & t' & Ht & He & -> & Ht' & R1 & Hc).
  set (s1 := with_tables s (<[p := t']> (tables s))) in *. case_match eqn:Hk.
  - destruct Hc as [->|[Hn Hs]]; [done|].
    destruct (assign_ok L W s1 p t' k None (Some h) Ht' Hs R1) as (s2 & H2 & R2 & Er & Ed). revert H. run H2. intros [= <- <-].
    split; [done|]. exists t, t', s1. subst s2. cbn. split_and!; try done. left. split_and!; try done. by rewrite list_insert_insert_eq.
  - destruct Hc as [->|[Hn _]]; [|lia].
    destruct (fd_drop_ok L0 W0 L W s1 h R1) as (s2 & H2 & R2 & (E1 & E2 & E3) & Ed). revert H. run H2. intros [= <- <-].
    split; [done|]. exists t, t', s1. split_and!; try done. right. by rewrite E1.
Qed.

Lemma fd_of_inv h s e s' : fd_of h s = Ok (e, s') → s' = s ∧ fds s !! h = Some e.
Proof. unfold fd_of. run_refl. case_match; [|done]. by intros [= -> <-]. Qed.
Lemma vnode_of_inv h s e s' : vnode_of h s = Ok (e, s') → s' = s ∧ vnodes s !! h = Some e.
Proof. unfold vnode_of. run_refl. case_match; [|done]. by intros [= -> <-]. Qed.

Lemma dir_path_inv p dirfd s dir s' : dir_path p dirfd s = Ok (dir, s') → s' = s.
Proof.
  unfold dir_path. destruct (dirfd =? AT_FDCWD); [by run_refl; intros [_ ->]%lift_Ok|].
  intros (o & s2 & [-> _]%slot_index_run & H)%M_bind_Ok. apply M_bind_Ok in H as (h & s2 & [_ ->]%lift_Ok & H).
  apply M_bind_Ok in H as ([d n] & s2 & [-> _]%fd_of_inv & H). apply M_bind_Ok in H as ([v m] & s2 & [-> _]%vnode_of_inv & H).
  by injection H as <- <-.
Qed.
Lemma sys_path_inv p dirfd pathname s path s' : sys_path p dirfd pathname s = Ok (path, s') → s' = s.
Proof.
  intros H. assert (sys_path p dirfd pathname s = Ok (pathname, s) ∨
    ∃ dir s1, dir_path p dirfd s = Ok (dir, s1) ∧ s' = s1) as [He|(dir & s1 & H1 & ->)].
  - unfold sys_path in *. repeat case_match; try (by left); apply M_bind_Ok in H as (dir & s1 & Hd & Hr); right; exists dir, s1;
      by injection Hr as <- <-.
  - rewrite He in H. by injection H as <- <-.
  - by eapply dir_path_inv.
Qed.
(** A call keeps the counts when it returns. *)
Definition keeps {R} (m : M V R) : Prop := ∀ s r s', ok_refs [] [] s → m s = Ok (r, s') → ok_refs [] [] s'.

Lemma keeps_after {A R} (m : M V A) (f : A → M V R) : (∀ s a s', m s = Ok (a, s') → s' = s) → (∀ a, keeps (f a)) → keeps (m ≫= f).
Proof. intros Hm Hf s r s' I (a & s1 & ->%Hm & H)%M_bind_Ok. by eapply Hf. Qed.
Lemma keeps_ret {A R} (m : M V A) (g : A → R) : keeps m → keeps (a ← m; mret (g a)).
Proof. intros Hm s r s' I (a & s1 & H1 & [= _ <-])%M_bind_Ok. by eapply Hm. Qed.
Lemma keeps_fs {A R} (m : M F A) (f : A → M V R) : (∀ a, keeps (f a)) → keeps (on_fs m ≫= f).
Proof.
  intros Hf s r s' I (a & s1 & H1 & H)%M_bind_Ok. eapply Hf; [|exact H]. destruct (on_fs_inv _ _ _ _ H1) as (? & ? & ? & ?).
  by eapply refs_ok_stores.
Qed.
Lemma keeps_mret {R} (r : R) : keeps (mret r).
Proof. by intros s r' s' I [= _ <-]. Qed.
Lemma keeps_fs_last {A} (m : M F A) : keeps (on_fs m).
Proof.
  intros s r s' I H1. destruct (on_fs_inv _ _ _ _ H1) as (? & ? & ? & ?). by eapply refs_ok_stores.
Qed.

Lemma keeps_openat p dirfd pathname fl : keeps (sys_openat p dirfd pathname fl).
Proof.
  apply keeps_after; [intros; by eapply sys_path_inv|]. intros path s r s' I (q & s1 & H1 & H)%M_bind_Ok.
  apply (file_open_inv _ _ _ _ _ _ _ I) in H1 as [_ H1]. destruct q as [h|e].
  - destruct H1 as [R1 _]. by apply (install_inv _ _ _ _ _ _ _ R1) in H as [? _].
  - injection H as <- <-. by destruct H1.
Qed.

Lemma keeps_close p fd : keeps (sys_close p fd).
Proof.
  intros s r s' I (o & s1 & H1 & H)%M_bind_Ok. apply on_table_inv in H1 as (t & f & Ht & Hm & ->).
  unfold slot_unwrap in Hm. revert Hm. run_refl. cbn. destruct (t !! Z.to_nat fd) as [old|] eqn:Ho; [|done]. intros [= -> <-].
  cbn in H. rewrite list_insert_id, with_tables_id in H by done.
  destruct (assign_ok [] [] s p t fd o None Ht Ho I) as (s2 & H2 & R2 & _). revert H. run H2. by intros [= _ <-].
Qed.

Lemma fd_clone_inv L W s h u s' : ok_refs L W s → fd_clone h s = Ok (u, s') → ok_refs (h :: L) W s' ∧ same_rest s s'.
Proof.
  intros I H1. assert (h ∈ held (tables s) ++ L0 ++ L) as Hh.
  { unfold fd_clone in H1. apply M_bind_Ok in H1 as ([d n] & s2 & [_ He]%fd_of_inv & _).
    destruct (ok_fd _ _ _ _ _ I _ _ _ He) as (-> & ? & _). by apply occ_pos. }
  destruct (fd_clone_ok L0 W0 L W s h I Hh) as (s2 & H2 & R2 & Er & _). rewrite H2 in H1. by injection H1 as <- <-.
Qed.
Lemma assign_inv L W s p i v u s' : ok_refs (option_list v ++ L) W s → assign p i v s = Ok (u, s') → ok_refs L W s'.
Proof.
  intros R H. pose proof H as H0. unfold assign in H0. apply M_bind_Ok in H0 as (o & s1 & [_ (t & Ht & Ho)]%slot_index_run & _).
  destruct (assign_ok L W s p t i o v Ht Ho R) as (s2 & H2 & R2 & _). rewrite H2 in H. by injection H as <- <-.
Qed.
Lemma fd_drop_inv L W s h u s' : ok_refs (h :: L) W s → fd_drop h s = Ok (u, s') → ok_refs L W s'.
Proof. intros R H. destruct (fd_drop_ok L0 W0 L W s h R) as (s2 & H2 & R2 & _). rewrite H2 in H. by injection H as <- <-. Qed.

Lemma keeps_dup p fd : keeps (sys_dup p fd).
Proof.
  apply keeps_after; [by intros s o s' [-> _]%slot_index_run|]. intros [h|]; [|apply keeps_mret].
  intros s r s' I (u & s1 & H1 & H)%M_bind_Ok. apply (fd_clone_inv _ _ _ _ _ _ I) in H1 as [R1 _].
  by apply (install_inv _ _ _ _ _ _ _ R1) in H as [? _].
Qed.

Lemma keeps_dup3 p fd newfd : keeps (sys_dup3 p fd newfd).
Proof.
  apply keeps_after; [by intros s o s' [-> _]%slot_index_run|]. intros [h|]; [|apply keeps_mret].
  intros s r s' I (u & s1 & H1 & H)%M_bind_Ok. apply (fd_clone_inv _ _ _ _ _ _ I) in H1 as [R1 _].
  destruct (newfd <? MAX_FD); apply M_bind_Ok in H as (t & s2 & H2 & H).
  2:{ injection H as <- <-. by eapply fd_drop_inv. }
  unfold table_of in H2. revert H2. run_refl. intros [Ht%unwrap_Ok ->]%lift_Ok.
  apply M_bind_Ok in H as (u2 & s2 & H2 & H). assert (ok_refs [h] [] s2) as R2.
  { case_match; [|by injection H2 as <- <-]. injection H2 as <- <-. eapply refs_ok_extend; [done| |done]. by eexists. }
  apply M_bind_Ok in H as (u3 & s3 & H3 & H). injection H as <- <-. by eapply (assign_inv _ _ _ _ _ (Some h)).
Qed.

(** A vnode outside the table *)
Lemma refs_ok_pipe L W s s' v : ok_refs L W s → v_fs v = None →
  next s' = next s + 1 → vnodes s' = <[next s := (v, 1%nat)]> (vnodes s) → hashset s' = hashset s → fds s' = fds s →
  tables s' = tables s → ok_refs L (next s :: W) s'.
Proof.
  intros R Hv En Ev Eh Ed Et. destruct (fresh_vnode _ _ _ R) as (Hnew & Hdc & Hocc).
  destruct R as [A1 A2 A3 A4 A5 A6 A7 A8 A9 A10]. split; rewrite ?En, ?Ev, ?Ed, ?Et; try done.
  - intros h x. rewrite lookup_insert. case_decide; [intros; lia|]. intros Hx. specialize (A1 _ _ Hx). lia.
  - intros h x Hx. specialize (A2 _ _ Hx). lia.
  - intros h d n Hd. destruct (A3 _ _ _ Hd) as (? & ? & ?). split_and!; try done. rewrite lookup_insert. by case_decide.
  - intros h w n. rewrite lookup_insert. case_decide as Hk.
    + intros [= <- <-]. subst h. rewrite occ_same, Hocc. unfold desc_count in *. rewrite Ed, Hdc.
      unfold hashed. rewrite Eh, decide_False; [lia|]. intros (w & n & Hw & _)%A8. congruence.
    + intros Hw. rewrite occ_skip by congruence. unfold desc_count, hashed. rewrite Ed, Eh. by apply A6.
  - intros h Hw. rewrite lookup_insert. case_decide as Hk; [by eexists|]. apply A7. set_solver.
  - intros path h. rewrite Eh. intros Hx. destruct (A8 _ _ Hx) as (w & n & Hw & Hf). exists w, n. rewrite lookup_insert_ne; [done|]. congruence.
  - intros h w n. rewrite lookup_insert. case_decide as Hk; [intros [= <- <-] _; split; [done|by left]|].
    intros Hw. unfold hashed. rewrite Eh. by apply A9.
  - intros h w n. rewrite lookup_insert, Eh. case_decide as Hk; [|by apply A10].
    intros [= <- <-]. split; [done|]. subst h. intros (w & n & Hw & _)%A8. congruence.
Qed.

Lemma vnode_new_inv L W s v h s' : ok_refs L W s → vnode_new v s = Ok (h, s') → v_fs v = None → ok_refs L (h :: W) s'.
Proof. intros R [= <- <-] Hv. by apply (refs_ok_pipe L W s _ v). Qed.
Lemma fd_new_inv L W s d h s' : ok_refs L (vnode d :: W) s → fd_new d s = Ok (h, s') → ok_refs (h :: L) W s'.
Proof. intros R H. destruct (fd_new_ok L W s d R) as (k & s2 & H2 & R2 & _). rewrite H2 in H. by injection H as <- <-. Qed.

Lemma create_pipe_pair_inv L s r w s' : ok_refs L [] s → create_pipe_pair s = Ok ((r, w), s') → ok_refs (w :: r :: L) [] s'.
Proof.
  intros I. unfold create_pipe_pair. intros ([ri wi] & s1 & H1 & H)%M_bind_Ok.
  destruct (on_fs_inv _ _ _ _ H1) as (Hs & Hr). pose proof (refs_ok_stores _ _ _ _ Hs Hr I) as R1.
  apply M_bind_Ok in H as (rv & s2 & H2 & H). apply (vnode_new_inv _ _ _ _ _ _ R1) in H2; [|done].
  apply M_bind_Ok in H as (r1 & s3 & H3 & H). apply (fd_new_inv _ _ _ (Build_FileDescriptor _ _ rv) _ _ H2) in H3.
  apply M_bind_Ok in H as (wv & s4 & H4 & H). apply (vnode_new_inv _ _ _ _ _ _ H3) in H4; [|done].
  apply M_bind_Ok in H as (w1 & s5 & H5 & H). apply (fd_new_inv _ _ _ (Build_FileDescriptor _ _ wv) _ _ H4) in H5.
  by injection H as <- <- <-.
Qed.

Lemma keeps_pipe2 p : keeps (sys_pipe2 p).
Proof.
  intros s res s' I ([r w] & s1 & H1 & H)%M_bind_Ok. apply (create_pipe_pair_inv _ _ _ _ _ I) in H1.
  apply M_bind_Ok in H as (rfd & s2 & H2 & H). apply (fd_alloc_inv _ _ _ _ _ _ H1) in H2 as (_ & _ & _ & _ & _ & _ & R2 & _).
  apply M_bind_Ok in H as (res' & s3 & H3 & H).
  assert (ok_refs [w; r] [] s3) as R3.
  { case_match; [by injection H3 as <- <-|].
    apply M_bind_Ok in H3 as (u & s4 & H4 & H3). apply (fd_clone_inv _ _ _ _ _ _ R2) in H4 as [R4 _].
    apply M_bind_Ok in H3 as (u5 & s5 & H5 & H3). apply (assign_inv _ _ _ _ _ (Some r) _ _ R4) in H5 as R5.
    apply M_bind_Ok in H3 as (wfd & s6 & H6 & H3). apply (fd_alloc_inv _ _ _ _ _ _ R5) in H6 as (_ & _ & _ & _ & _ & _ & R6 & _).
    case_match; apply M_bind_Ok in H3 as (u7 & s7 & H7 & H3).
    - injection H3 as <- <-. by apply (assign_inv _ _ _ _ _ None _ _ R6) in H7.
    - apply (fd_clone_inv _ _ _ _ _ _ R6) in H7 as [R7 _]. apply M_bind_Ok in H3 as (u8 & s8 & H8 & H3). injection H3 as <- <-.
      by apply (assign_inv _ _ _ _ _ (Some w) _ _ R7) in H8. }
  apply M_bind_Ok in H as (u4 & s4 & H4 & H). apply M_bind_Ok in H as (u5 & s5 & H5 & H). injection H as <- <-.
  eapply fd_drop_inv; [|exact H5]. eapply fd_drop_inv; [|exact H4]. eapply refs_ok_move; [| |exact R3]; [done|]. solve_Permutation.
Qed.

Lemma keeps_fork p : keeps (fork_table p).
Proof.
  intros s r s' I (t & s1 & H1 & H)%M_bind_Ok. unfold table_of in H1. revert H1. run_refl. intros [Ht%unwrap_Ok ->]%lift_Ok.
  revert H. run_refl. intros (cwd & s1 & [_ ->]%lift_Ok & H)%M_bind_Ok. apply M_bind_Ok in H as (u & s1 & H1 & H).
  destruct (clone_all_ok L0 W0 [] t [] s I) as (s2 & H2 & R2 & (Et & _)).
  { intros h (o & Ho & [= ->])%list_elem_of_omap. apply list_elem_of_lookup in Ho as [i Hi]. by eapply held_slot. }
  rewrite H2 in H1. injection H1 as <- <-. revert H. run_refl. run_refl. intros [= _ <-].
  eapply refs_ok_move; [| |exact R2]; [done|]. cbn. unfold held. rewrite concat_app, omap_app. cbn. by rewrite !app_nil_r.
Qed.

Lemma keeps_exit p : keeps (drop_table p).
Proof.
  intros s r s' I (t & s1 & H1 & H)%M_bind_Ok. unfold table_of in H1. revert H1. run_refl. intros [Ht%unwrap_Ok ->]%lift_Ok.
  revert H. run_refl. intros H. destruct (drop_all_ok L0 W0 [] t [] (with_tables s (<[p := []]> (tables s)))) as (s2 & H2 & R2 & _).
  - eapply refs_ok_move; [| |exact I]; [done|]. cbn. rewrite !app_nil_r. rewrite (held_insert _ _ _ [] Ht). by rewrite app_nil_r.
  - rewrite H2 in H. by injection H as _ <-.
Qed.
Lemma refs_ok_cwds L W s x : ok_refs L W s → ok_refs L W (with_cwds s x).
Proof. by apply refs_ok_move. Qed.
Lemma refs_ok_fs_table L W s x : ok_refs L W s → ok_refs L W (with_fs_table s x).
Proof. by apply refs_ok_move. Qed.

Lemma keeps_unlinkat p dirfd pathname : keeps (sys_unlinkat p dirfd pathname).
Proof.
  apply keeps_after; [intros; by eapply sys_path_inv|]. intros path. apply keeps_ret.
  apply keeps_after; [intros; by eapply lookup_fs_inv|]. intros [i [f dir]]. apply keeps_fs_last.
Qed.
Lemma keeps_mkdirat p dirfd pathname : keeps (sys_mkdirat p dirfd pathname).
Proof.
  apply keeps_after; [intros; by eapply sys_path_inv|]. intros path.
  apply keeps_after; [intros; by eapply lookup_fs_inv|]. intros [i [f dir]]. apply keeps_fs.
  intros [d|e]; [|apply keeps_mret]. apply keeps_fs. intros. apply keeps_mret.
Qed.
Lemma keeps_chdir p pathname : keeps (sys_chdir p pathname).
Proof.
  apply keeps_after; [intros; by eapply sys_path_inv|]. intros path s r s' I [= _ <-]. by apply refs_ok_cwds.
Qed.
Lemma keeps_fstatat {R} (get_fstat : Z → M F R) p dirfd pathname : keeps (sys_fstatat get_fstat p dirfd pathname).
Proof.
  apply keeps_after; [intros; by eapply sys_path_inv|]. intros path s r s' I (q & s1 & H1 & H)%M_bind_Ok.
  apply (file_open_inv _ _ _ _ _ _ _ I) in H1 as [_ H1]. destruct q as [h|e].
  - destruct H1 as [R1 _]. apply M_bind_Ok in H as ([d n] & s2 & [-> _]%fd_of_inv & H).
    apply M_bind_Ok in H as ([v m] & s2 & [-> _]%vnode_of_inv & H). apply M_bind_Ok in H as (x & s2 & H2 & H).
    destruct (on_fs_inv _ _ _ _ H2) as (Hs & Hr). pose proof (refs_ok_stores _ _ _ _ Hs Hr R1) as R2.
    apply M_bind_Ok in H as (u & s3 & H3 & H). injection H as <- <-. by eapply fd_drop_inv.
  - injection H as <- <-. by destruct H1.
Qed.
Lemma keeps_umount2 p target : keeps (sys_umount2 p target).
Proof.
  apply keeps_after; [intros; by eapply sys_path_inv|]. intros path. apply keeps_ret.
  apply keeps_after; [intros; by eapply lookup_fs_inv|]. intros [i [f dir]] s r s' I. run_refl. run_refl.
  intros (u & s1 & H1 & H)%M_bind_Ok. eapply keeps_fs_last; [|exact H]. apply (refs_ok_fs_table _ _ _ (<[i := None]> (fs_table s))) in I.
  case_match; [by injection H1 as <- <-|]. by eapply keeps_fs_last.
Qed.
(** Registering a file system on a path that has no vnode, and mounting *)
Lemma register_keeps f s r s' : ok_refs [] [] s → hashset s !! mount_point f = None →
  regeister_file_system f s = Ok (r, s') → ok_refs [] [] s'.
Proof.
  intros I Hp. unfold regeister_file_system. run_refl. intros (j & s3 & [_ ->]%lift_Ok & H)%M_bind_Ok.
  apply M_bind_Ok in H as (dir' & s3 & H3 & H). destruct (on_fs_inv _ _ _ _ H3) as ((_ & _ & _ & E3) & _). apply (keeps_fs_last _ _ _ _ I) in H3.
  revert H. run_refl. cbn beta. intros (n & s4 & H4 & H)%M_bind_Ok. destruct (on_fs_inv _ _ _ _ H4) as ((_ & _ & _ & E4) & _).
  apply (refs_ok_fs_table _ _ _ (<[j := Some (f, dir')]> (fs_table s3))) in H3.
  apply (keeps_fs_last _ _ _ _ H3) in H4. cbn in E4. rewrite E3 in E4.
  revert H. erewrite M_bind_eq by reflexivity. unfold hs_insert. run_refl. run_refl. cbn. rewrite E4, Hp. intros [= _ <-].
  apply (refs_ok_vnode [] [] s4 _ {| v_fs := Some j; full_path := mount_point f; inode := n |} 0 H4); try done; cbn; by rewrite E4.
Qed.
Lemma mount_keeps path s r s' : ok_refs [] [] s → hashset s !! path = None → mount path s = Ok (r, s') → ok_refs [] [] s'.
Proof.
  intros I Hp ([i [f dir]] & s1 & ->%lookup_fs_inv & H)%M_bind_Ok.
  apply M_bind_Ok in H as (q & s1 & H1 & H). apply M_bind_Ok in H as (d & s2 & [_ ->]%lift_Ok & H).
  apply M_bind_Ok in H as (u & s2 & H2 & H). destruct (on_fs_inv _ _ _ _ H1) as ((_ & _ & _ & E1) & _).
  destruct (on_fs_inv _ _ _ _ H2) as ((_ & _ & _ & E2) & _). apply (keeps_fs_last _ _ _ _ I) in H1. apply (keeps_fs_last _ _ _ _ H1) in H2.
  eapply register_keeps; [exact H2| |exact H]. cbn. by rewrite E2, E1.
Qed.
(** A new process: the clones of the static descriptors go into its table. *)
Lemma keeps_spawn stdin stdout : keeps (init_process stdin stdout).
Proof.
  intros s r s' I (u1 & s1 & H1 & H)%M_bind_Ok. apply (fd_clone_inv _ _ _ _ _ _ I) in H1 as [R1 _].
  apply M_bind_Ok in H as (u2 & s2 & H2 & H). apply (fd_clone_inv _ _ _ _ _ _ R1) in H2 as [R2 _].
  apply M_bind_Ok in H as (u3 & s3 & H3 & H). apply (fd_clone_inv _ _ _ _ _ _ R2) in H3 as [R3 _].
  revert H. run_refl. run_refl. intros [= _ <-]. eapply refs_ok_move; [| |exact R3]; [done|]. cbn. unfold held. rewrite concat_app, omap_app. cbn.
  solve_Permutation.
Qed.
End ops.
