(* ===== verification/VnodeProps.v ===== *)
(** * What the table of vnodes promises

    Sequences of the calls of [Vnode] from a booted system, in any order and by any
    number of processes, and what holds after each of them; and the calls on which
    the promises break. *)

From stdpp Require Import gmap fin_maps.
From S2P Require Import Prelude Io FatIo Vfs Vnode VnodeInv VnodeOps.

Section calls.
Context {F : Type} `{!InodeOps F}.
Abbreviation V := (Vfs F).
Implicit Types (s : V).

Inductive call :=
  | Init | Spawn
  | Openat (p : nat) (dirfd : Z) (pathname : list Z) (flags : Z)
  | Close (p : nat) (fd : Z) | Dup (p : nat) (fd : Z) | Dup3 (p : nat) (fd newfd : Z) | Pipe2 (p : nat)
  | Unlinkat (p : nat) (dirfd : Z) (pathname : list Z) | Mkdirat (p : nat) (dirfd : Z) (pathname : list Z)
  | Chdir (p : nat) (pathname : list Z) | Fstatat (p : nat) (dirfd : Z) (pathname : list Z)
  | Mount (p : nat) (target : list Z) | Umount (p : nat) (target : list Z)
  | Fork (p : nat) | Exit (p : nat).

Definition call_run (c : call) : M V unit :=
  match c with
  | Init => fs_init
  | Spawn => init_process STDIN STDOUT ;; mret tt
  | Openat p dirfd path fl => sys_openat p dirfd path fl ;; mret tt
  | Close p fd => sys_close p fd ;; mret tt
  | Dup p fd => sys_dup p fd ;; mret tt
  | Dup3 p fd newfd => sys_dup3 p fd newfd ;; mret tt
  | Pipe2 p => sys_pipe2 p ;; mret tt
  | Unlinkat p dirfd path => sys_unlinkat p dirfd path ;; mret tt
  | Mkdirat p dirfd path => sys_mkdirat p dirfd path ;; mret tt
  | Chdir p path => sys_chdir p path ;; mret tt
  | Fstatat p dirfd path => sys_fstatat (λ i, mret i) p dirfd path ;; mret tt
  | Mount p target => sys_mount p target ;; mret tt
  | Umount p target => sys_umount2 p target ;; mret tt
  | Fork p => fork_table p ;; mret tt
  | Exit p => drop_table p
  end.

(** The file systems are mounted on paths that no vnode has. *)
Definition mounts_on (c : call) s (path : list Z) : Prop :=
  match c with
  | Init => path = [SLASH]
  | Mount p target => ∃ s', sys_path p AT_FDCWD target s = Ok (path, s')
  | _ => False
  end.

Inductive reachable (f : F) : V → Prop :=
  | reach_new : reachable f (vfs_new f)
  | reach_call s c s' : reachable f s → (∀ path, mounts_on c s path → hashset s !! path = None) →
      call_run c s = Ok (tt, s') → reachable f s'.

Definition statics : list Z := [STDIN; STDOUT].
Definition console_refs : list Z := [CONSOLE; CONSOLE; CONSOLE].

Lemma vfs_new_ok (f : F) : refs_ok statics console_refs [] [] (vfs_new f).
Proof.
  assert (∀ h d n, fds (vfs_new f) !! h = Some (d, n) → h ∈ statics ∧ n = 1%nat ∧ vnode d = CONSOLE) as Hd.
  { intros h d n. cbn. rewrite lookup_insert. case_decide; [subst; intros [= <- <-]; set_solver|].
    intros [<- [= <- <-]]%lookup_singleton_Some. set_solver. }
  assert (∀ h v n, vnodes (vfs_new f) !! h = Some (v, n) → h = CONSOLE ∧ n = 3%nat ∧ v_fs v = None) as Hv.
  { intros h v n. cbn. by intros [<- [= <- <-]]%lookup_singleton_Some. }
  split; try done.
  - intros h [v n] (-> & _)%Hv. cbn. unfold CONSOLE. lia.
  - intros h [d n] (Hs & _)%Hd. cbn. unfold statics, STDIN, STDOUT in Hs. set_solver by lia.
  - intros h d n (Hs & -> & ->)%Hd. split_and!; [|lia|by eexists]. unfold statics in Hs.
    apply elem_of_cons in Hs as [->|Hs]; [done|]. by apply list_elem_of_singleton in Hs as ->.
  - intros h d n (_ & _ & ->)%Hd _. set_solver.
  - intros h Hh. assert (h = STDIN ∨ h = STDOUT) as [->| ->] by (revert Hh; cbn; set_solver); by eexists.
  - intros h v n (-> & -> & _)%Hv. split; [|lia]. unfold hashed. cbn. rewrite lookup_empty, decide_False by done. done.
  - intros h Hh. assert (h = CONSOLE) as -> by (revert Hh; cbn; set_solver). by eexists.
  - intros h v n (-> & -> & ->)%Hv _. split; [done|]. by right.
  - by intros h v n (-> & _ & ->)%Hv.
Qed.

Context `{!DropTotal F}.

Lemma call_keeps c s s' : refs_ok statics console_refs [] [] s → (∀ path, mounts_on c s path → hashset s !! path = None) →
  call_run c s = Ok (tt, s') → refs_ok statics console_refs [] [] s'.
Proof.
  intros I Hm. destruct c; cbn [call_run].
  - intros H. eapply register_keeps; [exact I| |exact H]. by apply Hm.
  - revert I. apply keeps_ret, keeps_spawn.
  - revert I. apply keeps_ret, keeps_openat.
  - revert I. apply keeps_ret, keeps_close.
  - revert I. apply keeps_ret, keeps_dup.
  - revert I. apply keeps_ret, keeps_dup3.
  - revert I. apply keeps_ret, keeps_pipe2.
  - revert I. apply keeps_ret, keeps_unlinkat.
  - revert I. apply keeps_ret, keeps_mkdirat.
  - revert I. apply keeps_ret, keeps_chdir.
  - revert I. apply keeps_ret, keeps_fstatat.
  - intros (r & s1 & H1 & H)%M_bind_Ok. injection H as <-. unfold sys_mount in H1. apply M_bind_Ok in H1 as (path & s2 & H2 & H1).
    pose proof (sys_path_inv _ _ _ _ _ _ H2) as ->. apply M_bind_Ok in H1 as (u & s2 & H3 & H1). injection H1 as <- <-.
    eapply mount_keeps; [exact I| |exact H3]. apply Hm. by eexists.
  - revert I. apply keeps_ret, keeps_umount2.
  - revert I. apply keeps_ret, keeps_fork.
  - revert I. apply keeps_exit.
Qed.

Lemma reachable_ok f s : reachable f s → refs_ok statics console_refs [] [] s.
Proof. induction 1; [apply vfs_new_ok|by eapply call_keeps]. Qed.

(** The vnode of an open file is the one the table has for its path. *)
Lemma open_hashed s h d n v m : refs_ok statics console_refs [] [] s → fds s !! h = Some (d, n) →
  vnodes s !! vnode d = Some (v, m) → v_fs v ≠ None → hashset s !! full_path v = Some (vnode d).
Proof.
  intros R Hd Hv Hfs. destruct (decide (hashset s !! full_path v = Some (vnode d))) as [Hh|Hh]; [done|].
  exfalso. apply Hfs. eapply (ok_unhashed _ _ _ _ _ R _ _ _ Hv). unfold hashed. by rewrite decide_False.
Qed.
(** How many descriptors a vnode of the table has *)
Lemma hashed_count s v h m : refs_ok statics console_refs [] [] s → vnodes s !! h = Some (v, m) →
  hashset s !! full_path v = Some h → m = S (desc_count statics s h).
Proof.
  intros R Hv Hh. destruct (ok_vnode _ _ _ _ _ R _ _ _ Hv) as [Hm _]. rewrite app_nil_r in Hm.
  unfold hashed in Hm. rewrite decide_True in Hm by done. assert (occ h console_refs = 0%nat) as Ho; [|lia].
  apply occ_zero. intros Hc. assert (h = CONSOLE) as -> by (revert Hc; unfold console_refs; set_solver).
  destruct (ok_kind _ _ _ _ _ R _ _ _ Hv) as [H1 H2]. apply H2; [done|]. apply H1. set_solver.
Qed.
(** C10: After any sequence of calls: a table slot holds a descriptor that is there, whose
    count is the number of slots that hold it (and one if it is [STDIN] or [STDOUT]);
    a descriptor of a file has the vnode the table has for its path, so that all
    descriptors of a path share one; and the vnode of a path in the table counts its
    descriptors and the table's own reference. *)
Theorem vnode_table_exact (f : F) (s : V) : reachable f s →
  (∀ p t i h, tables s !! p = Some t → t !! i = Some (Some h) → is_Some (fds s !! h)) ∧
  (∀ h d n, fds s !! h = Some (d, n) → n = (occ h (held (tables s)) + occ h statics)%nat ∧ (0 < n)%nat) ∧
  (∀ h d n, fds s !! h = Some (d, n) → ∃ v m, vnodes s !! vnode d = Some (v, m) ∧
     (v_fs v ≠ None → hashset s !! full_path v = Some (vnode d))) ∧
  (∀ path h, hashset s !! path = Some h → ∃ v, vnodes s !! h = Some (v, S (desc_count statics s h)) ∧ full_path v = path).
Proof.
  intros R%reachable_ok. split_and!.
  - intros p t i h Ht Hi. apply (ok_ref _ _ _ _ _ R). apply elem_of_app. left. by eapply held_slot.
  - intros h d n Hd. destruct (ok_fd _ _ _ _ _ R _ _ _ Hd) as (Hn & ? & _). by rewrite app_nil_r, occ_app in Hn.
  - intros h d n Hd. destruct (ok_fd _ _ _ _ _ R _ _ _ Hd) as (_ & _ & [[v m] Hv]). exists v, m. split; [done|]. intros. by eapply open_hashed.
  - intros path h Hh. destruct (ok_hash _ _ _ _ _ R _ _ Hh) as (v & m & Hv & <-). exists v. split; [|done].
    by rewrite <- (hashed_count s v h m R Hv Hh).
Qed.

(** C23: Closing an open descriptor succeeds: its slot is empty, the others are as before.
    While other slots hold the descriptor nothing else changes; with the last one the
    descriptor goes, and its path leaves the table of vnodes exactly when no other
    descriptor of the path is open. *)
Theorem close_correct (f : F) (s : V) (p : nat) (t : list (option Z)) (fd h : Z) (d : FileDescriptor) (n : nat) (v : Vnode) (m : nat) :
  reachable f s → tables s !! p = Some t → t !! Z.to_nat fd = Some (Some h) → fds s !! h = Some (d, n) →
  vnodes s !! vnode d = Some (v, m) → v_fs v ≠ None →
  ∃ s', sys_close p fd s = Ok (0, s') ∧ tables s' = <[p := <[Z.to_nat fd := None]> t]> (tables s) ∧
    (((1 < n)%nat ∧ fds s' = <[h := (d, pred n)]> (fds s) ∧ hashset s' = hashset s) ∨
     (n = 1%nat ∧ fds s' = delete h (fds s) ∧
      hashset s' !! full_path v = (if decide (desc_count statics s (vnode d) = 1%nat) then None else Some (vnode d)) ∧
      ∀ path, path ≠ full_path v → hashset s' !! path = hashset s !! path)).
Proof.
  intros R%reachable_ok Ht Hi Hd Hv Hfs. unfold sys_close.
  assert (slot_unwrap fd {| fd_table := t; fd_descs := ∅ |} = Ok (Some h, {| fd_table := t; fd_descs := ∅ |})) as Hu.
  { unfold slot_unwrap. run_refl. cbn. by rewrite Hi. }
  run (on_table_read p _ s t _ Ht Hu). destruct (assign_ok statics console_refs [] [] s p t fd (Some h) None Ht Hi R) as (s' & Hs & _ & (Et & _) & Hdr).
  run Hs. exists s'. split; [done|]. split; [exact Et|].
  pose proof (open_hashed s h d n v m R Hd Hv Hfs) as Hh. pose proof (hashed_count s v (vnode d) m R Hv Hh) as Hm.
  destruct Hdr as (d' & n' & Hd' & Hc). cbn in Hd'. rewrite Hd in Hd'. injection Hd' as <- <-.
  destruct Hc as [(? & ? & ? & _)|(-> & ? & _ & v' & m' & Hv' & Hf)]; [by left|]. right. cbn in Hv'. rewrite Hv in Hv'. injection Hv' as <- <-.
  split; [done|]. split; [done|]. split.
  - destruct (Hf (full_path v)) as [H1 H2]. cbn in H1, H2. case_decide as Hc; [apply H1; split; [lia|done]|].
    rewrite H2; [done|]. intros [? _]. lia.
  - intros path Hne. apply Hf. intros [_ Hp]. cbn in Hp. destruct (ok_hash _ _ _ _ _ R _ _ Hp) as (w & k & Hw & <-). congruence.
Qed.

Lemma open_shared s path fl h : refs_ok statics console_refs [] [] s → hashset s !! path = Some h → contains fl APPEND = false →
  ∃ d s', file_open path fl s = Ok (IoOk d, s') ∧ fsys s' = fsys s ∧ hashset s' = hashset s ∧
    fds s' = <[d := ({| flags := fl; fd_pos := 0; vnode := h |}, 1%nat)]> (fds s) ∧ fds s !! d = None.
Proof.
  intros R Hh Hfl. unfold file_open, open_vnode.
  destruct (vnode_clone_ok statics console_refs [] [] s h path R Hh) as (s1 & H1 & R1 & _ & E1 & E2 & E3 & _).
  erewrite try_ok. 2:{ run_refl. rewrite Hh. by run H1. }
  rewrite Hfl. run_refl.
  destruct (fd_new_ok statics console_refs [] [] s1 {| flags := fl; fd_pos := 0; vnode := h |} R1) as (d & s2 & H2 & _ & _ & E4 & _ & Hn & E5 & E6).
  run H2. exists d, s2. rewrite <- E1, <- E2, <- E3. done.
Qed.

(** A path that has a vnode is opened without asking the file system, whatever the
    flags say about creating, truncating or directories: the new descriptor has the
    vnode of the others and starts at 0.  So it is after the path has been unlinked:
    the descriptor is one of the file that is no longer there. *)
Theorem open_again (f : F) (s : V) (path : list Z) (fl h : Z) :
  reachable f s → hashset s !! path = Some h → contains fl APPEND = false →
  (∃ d s', file_open path fl s = Ok (IoOk d, s') ∧ fsys s' = fsys s ∧ hashset s' = hashset s ∧
    fds s' = <[d := ({| flags := fl; fd_pos := 0; vnode := h |}, 1%nat)]> (fds s) ∧ fds s !! d = None) ∧
  ∀ s1, file_unlink path s = Ok (IoOk tt, s1) →
    ∃ d s', file_open path fl s1 = Ok (IoOk d, s') ∧ fsys s' = fsys s1 ∧
      fds s' !! d = Some ({| flags := fl; fd_pos := 0; vnode := h |}, 1%nat).
Proof.
  intros R%reachable_ok Hh Hfl. split; [by apply open_shared|].
  intros s1 ([i [g dir]] & s2 & ->%lookup_fs_inv & H)%M_bind_Ok. destruct (on_fs_inv _ _ _ _ H) as [Hs Hr].
  destruct (open_shared s1 path fl h) as (d & s' & Ho & Hf & _ & Hd & _); [by eapply refs_ok_stores|by destruct Hs as (_ & _ & _ & ->)|done|].
  exists d, s'. rewrite Hd, lookup_insert_eq. done.
Qed.

(** [umount] takes any path: on a system with only the root file system it removes
    that, whatever path it is given, and then every path that is not open already
    panics the kernel. *)
Theorem umount_any_path (s s' : V) (e : FileSystem * Z) (target path : list Z) (fl : Z) :
  fs_table s = [Some e; None; None; None] → umount target s = Ok (tt, s') →
  fs_table s' = [None; None; None; None] ∧ (hashset s !! path = None → file_open path fl s' = Panic AssertFailed).
Proof.
  intros Ht. unfold umount. assert (lookup_fs target s = Ok ((0%nat, e), s)) as Hl.
  { unfold lookup_fs. run_refl. unfold mount_points. rewrite Ht. done. }
  run Hl. destruct e as [g dir]. run_refl. run_refl. intros (u & s1 & H1 & H)%M_bind_Ok.
  assert (hashset s1 = hashset s ∧ fs_table s1 = [None; None; None; None]) as [E1 E2].
  { case_match; [injection H1 as <- <-|apply on_fs_inv in H1 as ((_ & _ & _ & ->) & _ & _ & ->)]; cbn; by rewrite Ht. }
  apply on_fs_inv in H as ((_ & _ & _ & E3) & _ & _ & E4). rewrite E2 in E4. split; [done|]. intros Hp.
  unfold file_open. apply M_bind_Panic. unfold open_vnode. run_refl. rewrite E3, E1, Hp.
  apply M_bind_Panic. unfold open_inode. apply M_bind_Panic. unfold lookup_fs. run_refl. unfold mount_points. by rewrite E4.
Qed.
(** The state after a file system is registered on a path that has a vnode: the table's
    reference to the old one is gone. *)
Lemma register_over g s u s' path h v n : regeister_file_system g s = Ok (u, s') → mount_point g = path →
  hashset s !! path = Some h → vnodes s !! h = Some (v, S (S n)) → h < next s →
  vnodes s' !! h = Some (v, S n) ∧ fds s' = fds s ∧ tables s' = tables s ∧
  ∃ k w, hashset s' !! path = Some k ∧ vnodes s' !! k = Some (w, 1%nat) ∧ k ≠ h.
Proof.
  intros H Hg Hh Hv Hlt. unfold regeister_file_system in H. revert H. run_refl.
  intros (j & s1 & [_ ->]%lift_Ok & H)%M_bind_Ok. apply M_bind_Ok in H as (dir & s1 & H1 & H).
  apply on_fs_inv in H1 as ((E1 & E2 & E3 & E4) & E5 & _ & _).
  revert H. run_refl. intros (i & s2 & H2 & H)%M_bind_Ok. apply on_fs_inv in H2 as ((F1 & F2 & F3 & F4) & F5 & _ & _). cbn in *.
  revert H. erewrite M_bind_eq by reflexivity. unfold hs_insert. run_refl. run_refl. cbn. rewrite F4, E4, Hg, Hh.
  assert (vnodes s2 !! h = Some (v, S (S n))) as Hv2 by (by rewrite F2, E2). assert (h ≠ next s2) as Hne by (rewrite F1, E1; lia).
  rewrite (vnode_drop_dec _ h v n) by (cbn; by rewrite lookup_insert_ne). intros [= _ <-]. cbn.
  rewrite lookup_insert_eq, F3, E3, F5, E5. split_and!; [done..|]. eexists _, _. rewrite lookup_insert_eq. split; [done|].
  rewrite lookup_insert_ne, lookup_insert_eq by done. done.
Qed.

(** Closing the descriptor of a vnode that has one other reference, when the table has
    another vnode for its path: the assertion in the destructor fails. *)
Lemma close_replaced_panics s p t fd h d v k w : tables s !! p = Some t → t !! Z.to_nat fd = Some (Some h) →
  fds s !! h = Some (d, 1%nat) → vnodes s !! vnode d = Some (v, 2%nat) → hashset s !! full_path v = Some k →
  vnodes s !! k = Some (w, 1%nat) → k ≠ vnode d → sys_close p fd s = Panic AssertFailed.
Proof.
  intros Ht Hi Hd Hv Hh Hk Hne. unfold sys_close.
  assert (slot_unwrap fd {| fd_table := t; fd_descs := ∅ |} = Ok (Some h, {| fd_table := t; fd_descs := ∅ |})) as Hu.
  { unfold slot_unwrap. run_refl. cbn. by rewrite Hi. }
  run (on_table_read p _ s t _ Ht Hu). apply M_bind_Panic. unfold assign.
  run (on_table_read p _ s t _ Ht (slot_index_eq t fd _ ∅ Hi)).
  assert (slot_set fd None {| fd_table := t; fd_descs := ∅ |} = Ok (tt, {| fd_table := <[Z.to_nat fd := None]> t; fd_descs := ∅ |})) as Hset.
  { unfold slot_set. run_refl. cbn. pose proof (lookup_lt_Some _ _ _ Hi). by replace (fd <? _) with true by lia. }
  run (on_table_eq p _ s t tt _ ∅ Ht Hset). cbn [slot_drop]. set (s1 := with_tables s _).
  unfold fd_drop. run (fd_of_eq s1 h d 1 Hd). run_refl. set (s2 := with_fds s1 _). unfold fd_destroy.
  run (vnode_of_eq s2 (vnode d) v 2 Hv). cbn [Nat.eqb].
  assert (∃ s3, hs_remove (full_path v) s2 = Ok (tt, s3) ∧ vnodes s3 !! vnode d = Some (v, 2%nat)) as (s3 & H3 & Hv3).
  { unfold hs_remove. run_refl. cbn. rewrite Hh. run_refl.
    destruct (vnode_drop_last (with_hashset s2 (delete (full_path v) (hashset s))) k w Hk) as (s3 & H3 & (_ & E2 & _) & _).
    exists s3. split; [done|]. rewrite E2. cbn. by rewrite lookup_delete_ne. }
  apply M_bind_Panic. run H3. run (vnode_of_eq _ _ _ _ Hv3). done.
Qed.

(** Mounting on a directory that is open twice breaks the count of its vnode: closing
    one of the two descriptors panics the kernel. *)
Theorem mount_over_open_panics (f : F) (s s' : V) (path : list Z) (p : nat) (t : list (option Z)) (fd h : Z) (d : FileDescriptor) :
  reachable f s → hashset s !! path = Some (vnode d) → desc_count statics s (vnode d) = 2%nat →
  tables s !! p = Some t → t !! Z.to_nat fd = Some (Some h) → fds s !! h = Some (d, 1%nat) →
  mount path s = Ok (tt, s') → sys_close p fd s' = Panic AssertFailed.
Proof.
  intros R%reachable_ok Hh Hdc Ht Hi Hd ([i [g dir]] & s1 & ->%lookup_fs_inv & H)%M_bind_Ok.
  destruct (ok_hash _ _ _ _ _ R _ _ Hh) as (v & m & Hv & Hp). rewrite <- Hp in Hh.
  pose proof (hashed_count s v (vnode d) m R Hv Hh) as ->. rewrite Hdc in Hv. pose proof (ok_next_v _ _ _ _ _ R _ _ Hv) as Hlt.
  apply M_bind_Ok in H as (q & s1 & H1 & H). apply on_fs_inv in H1 as ((E1 & E2 & E3 & E4) & E5 & _).
  apply M_bind_Ok in H as (x & s2 & [_ ->]%lift_Ok & H).
  apply M_bind_Ok in H as (u & s2 & H2 & H). apply on_fs_inv in H2 as ((F1 & F2 & F3 & F4) & F5 & _).
  destruct (register_over _ _ _ _ (full_path v) (vnode d) v 1 H) as (Hv' & Ed & Et & k & w & Hk & Hw & Hne); [done|..].
  - by rewrite F4, E4.
  - by rewrite F2, E2.
  - by rewrite F1, E1.
  - eapply (close_replaced_panics s' p t fd h d v k w); try done; [by rewrite Et, F5, E5|by rewrite Ed, F3, E3].
Qed.
End calls.
