(* ===== verification/VnodeSample.v ===== *)
(** * Sessions on a small file system

    A file system in memory, as an instance of the operations [Vnode] relies on, and
    sequences of calls on which the theorems about vnodes are evaluated. *)

From stdpp Require Import gmap fin_maps.
From S2P Require Import Prelude Io FatIo Vfs Vnode VnodeInv VnodeOps VnodeProps.

(** Paths with what they are (a directory or not), and the open inodes *)
Record memfs := { m_paths : gmap (list Z) bool; m_open : gmap Z (list Z); m_next : Z }.

Fixpoint strip (p : list Z) : list Z := match p with x :: p' => if x =? SLASH then strip p' else p | [] => [] end.

Definition m_inode (path : list Z) : M memfs Z := λ m,
  Ok (m_next m, {| m_paths := m_paths m; m_open := <[m_next m := path]> (m_open m); m_next := m_next m + 1 |}).
Definition m_add (path : list Z) (dir : bool) : M memfs unit := modify (λ m,
  {| m_paths := <[path := dir]> (m_paths m); m_open := m_open m; m_next := m_next m |}).
Definition m_get (path : list Z) (dir : bool) : M memfs (ioresult Z) :=
  m ← get;
  match m_paths m !! path with
  | Some b => if eqb b dir then i ← m_inode path; ok i else err OtherError
  | None => err NotFound
  end.

#[export] Instance memfs_ops : InodeOps memfs := {|
  dir_create_file _ p := m ← get; match m_paths m !! strip p with Some _ => m_get (strip p) false | None => m_add (strip p) false ;; m_get (strip p) false end;
  dir_open_file _ p := m_get (strip p) false;
  dir_open_dir _ p := m_get (strip p) true;
  dir_create_dir _ p := m_add (strip p) true ;; m_get (strip p) true;
  dir_remove _ p := m ← get; match m_paths m !! strip p with
    | Some _ => put {| m_paths := delete (strip p) (m_paths m); m_open := m_open m; m_next := m_next m |} ;; ok tt
    | None => err NotFound end;
  fs_root_dir _ := m_inode [];
  fs_release _ := mret tt;
  i_seek _ _ := ok 0;
  i_drop i := modify (λ m, {| m_paths := m_paths m; m_open := delete i (m_open m); m_next := m_next m |});
  new_pipe := r ← m_inode []; w ← m_inode []; mret (r, w) |}.

#[export] Instance memfs_drop : DropTotal memfs.
Proof. split; intros i m; by eexists. Qed.

Definition mem0 : memfs := {| m_paths := {[[] := true]}; m_open := ∅; m_next := 1 |}.

Fixpoint run_calls (l : list call) : M (Vfs memfs) unit :=
  match l with [] => mret tt | c :: l => call_run c ;; run_calls l end.
Definition after (l : list call) : Vfs memfs :=
  match run_calls l (vfs_new mem0) with Ok (_, s) => s | Panic _ => vfs_new mem0 end.

(** Calls other than mounts lead from reachable states to reachable ones. *)
Definition no_mount (c : call) : bool := match c with Init | Mount _ _ => false | _ => true end.
Lemma reachable_calls l : ∀ s s', reachable mem0 s → forallb no_mount l = true → run_calls l s = Ok (tt, s') → reachable mem0 s'.
Proof.
  induction l as [|c l IH]; intros s s' R; cbn [run_calls forallb].
  - by intros _ [= <-].
  - intros [Hc Hl]%andb_true_iff ([] & s1 & H1 & H)%M_bind_Ok. eapply IH; [|done..]. eapply reach_call; [exact R| |exact H1].
    by destruct c.
Qed.
Lemma reachable_boot l : forallb no_mount l = true → is_Some (match run_calls (Init :: l) (vfs_new mem0) with Ok _ => Some tt | _ => None end) →
  reachable mem0 (after (Init :: l)).
Proof.
  intros Hl. unfold after. cbn [run_calls]. intros Hs.
  destruct (call_run Init (vfs_new mem0)) as [[[] s1]|] eqn:H1; [|by revert Hs; unfold mbind, M_bind; rewrite H1; intros [? ?]].
  rewrite (M_bind_eq _ _ _ _ _ H1) in *. assert (reachable mem0 s1) as R.
  { eapply reach_call; [apply reach_new| |exact H1]. intros path _. apply lookup_empty. }
  destruct (run_calls l s1) as [[[] s2]|] eqn:H2; [|by destruct Hs]. by eapply reachable_calls.
Qed.

(** The file [/a], created and opened again, and [/b] through a second process *)
Definition path_a : list Z := [SLASH; 0x61].
Definition path_b : list Z := [SLASH; 0x62].
Definition session : list call :=
  [Init; Spawn; Openat 0 AT_FDCWD path_a (Z.lor CREAT RDWR); Openat 0 AT_FDCWD [0x61] 0; Dup 0 3; Fork 0;
   Openat 1 AT_FDCWD path_b CREAT; Close 1 3; Pipe2 1].

Example session_tables : tables (after session) =
  [[Some 1; Some 2; Some 2; Some 5; Some 6; Some 5]; [Some 1; Some 2; Some 2; Some 10; Some 6; Some 5; Some 8; Some 12]].
Proof. vm_compute. reflexivity. Qed.
Example session_paths : hashset (after session) !! path_a = Some 4 ∧ hashset (after session) !! path_b = Some 7.
Proof. vm_compute. done. Qed.

Lemma session_reachable : reachable mem0 (after session).
Proof. by apply reachable_boot; [|vm_compute; eexists]. Qed.

Lemma vnode_table_exact_witness : ∃ v, vnodes (after session) !! 4 = Some (v, 3%nat) ∧ full_path v = path_a.
Proof.
  pose proof (vnode_table_exact mem0 (after session) session_reachable) as (_ & _ & _ & H).
  destruct (H path_a 4) as (v & Hv & Hp); [vm_compute; reflexivity|].
  exists v. split; [|exact Hp]. rewrite Hv. vm_compute. reflexivity.
Defined.

(** [/b] is open once: it is forgotten when its descriptor is closed. *)
Lemma close_correct_witness : ∃ s', sys_close 1 6 (after session) = Ok (0, s') ∧ hashset s' !! path_b = None ∧ hashset s' !! path_a = Some 4.
Proof.
  destruct (close_correct mem0 (after session) 1 [Some 1; Some 2; Some 2; Some 10; Some 6; Some 5; Some 8; Some 12] 6 8
    {| flags := CREAT; fd_pos := 0; vnode := 7 |} 1 {| v_fs := Some 0%nat; full_path := path_b; inode := 4 |} 2 session_reachable)
    as (s' & H & _ & [(Hn & _)|(_ & _ & Hp & Ho)]); [vm_compute; reflexivity..|done|lia|].
  exists s'. split; [exact H|]. split.
  - etransitivity; [exact Hp|]. vm_compute. reflexivity.
  - rewrite Ho; [vm_compute; reflexivity|done].
Defined.

Lemma open_again_witness :
  (∃ d s', file_open path_a (Z.lor CREAT TRUNC) (after session) = Ok (IoOk d, s') ∧ fsys s' = fsys (after session)) ∧
  ∃ s1 d s', file_unlink path_a (after session) = Ok (IoOk tt, s1) ∧ m_paths (fsys s1) !! [0x61] = None ∧
    file_open path_a (Z.lor CREAT TRUNC) s1 = Ok (IoOk d, s') ∧ m_paths (fsys s') !! [0x61] = None.
Proof.
  destruct (open_again mem0 (after session) path_a (Z.lor CREAT TRUNC) 4 session_reachable) as [H1 H2]; [vm_compute; reflexivity..|].
  split; [destruct H1 as (d & s' & Hx & Hy & _); exists d, s'; split; [exact Hx|exact Hy]|].
  destruct (file_unlink path_a (after session)) as [[r s1]|] eqn:Hu; [|vm_compute in Hu; discriminate].
  assert (r = IoOk tt ∧ m_paths (fsys s1) !! [0x61] = None) as [-> Hn].
  { vm_compute in Hu. injection Hu as <- <-. split; reflexivity. }
  destruct (H2 s1 eq_refl) as (d & s' & Ho & Hf & _). exists s1, d, s'. rewrite Hf. split; [reflexivity|]. split; [exact Hn|]. split; [exact Ho|exact Hn].
Defined.

Lemma umount_any_path_witness : ∃ s', umount path_a (after session) = Ok (tt, s') ∧
  file_open [SLASH; 0x63] 0 s' = Panic AssertFailed.
Proof.
  destruct (umount path_a (after session)) as [[[] s']|] eqn:Hu; [|vm_compute in Hu; discriminate].
  exists s'. split; [reflexivity|].
  apply (umount_any_path (after session) s' ({| mount_point := [SLASH]; fs := 0 |}, 1) path_a [SLASH; 0x63] 0);
    [vm_compute; reflexivity|exact Hu|vm_compute; reflexivity].
Defined.

(** The directory [/m] opened twice *)
Definition path_m : list Z := [SLASH; 0x6d].
Definition twice : list call :=
  [Init; Spawn; Mkdirat 0 AT_FDCWD path_m; Openat 0 AT_FDCWD path_m DIRECTORY; Openat 0 AT_FDCWD path_m DIRECTORY].
Lemma mount_over_open_panics_witness : ∃ s', mount path_m (after twice) = Ok (tt, s') ∧
  sys_close 0 4 s' = Panic AssertFailed.
Proof.
  destruct (mount path_m (after twice)) as [[[] s']|] eqn:Hm; [|vm_compute in Hm; discriminate]. exists s'. split; [reflexivity|].
  apply (mount_over_open_panics mem0 (after twice) s' path_m 0 [Some 1; Some 2; Some 2; Some 5; Some 6] 4 6
    {| flags := DIRECTORY; fd_pos := 0; vnode := 4 |}).
  - by apply reachable_boot; [|vm_compute; eexists].
  - vm_compute. reflexivity.
  - vm_compute. reflexivity.
  - vm_compute. reflexivity.
  - vm_compute. reflexivity.
  - vm_compute. reflexivity.
  - exact Hm.
Defined.

(** The root directory has a vnode from the start.  Its first close forgets that, and
    opening it again asks the file system for a file named [/]. *)
Example root_forgotten :
  sys_openat 0 AT_FDCWD [SLASH] 0 (after [Init; Spawn]) = Ok (3, after [Init; Spawn; Openat 0 AT_FDCWD [SLASH] 0]) ∧
  match sys_openat 0 AT_FDCWD [SLASH] 0 (after [Init; Spawn; Openat 0 AT_FDCWD [SLASH] 0; Close 0 3]) with Ok (r, _) => r = -1 | _ => False end.
Proof. split; vm_compute; reflexivity. Qed.
