(* ===== verification/VnodeIo.v ===== *)
(** * Reading and writing through descriptors

    [sys_read], [sys_write], [sys_writev] and [sys_sendfile] (kernel/src/syscall/fs.rs) on the
    stores of [Vnode]: a descriptor's position is its own, the inode's cursor is shared,
    and every access moves it first.  User buffers are the lists of bytes they hold. *)

From stdpp Require Import gmap fin_maps.
From S2P Require Import Prelude Io FatIo Vfs Vnode VnodeInv VnodeOps.

(** The rest of [Inode] that descriptors call *)
Class InodeIo (F : Type) := {
  i_read : Z → Z → M F (ioresult (list Z));
  i_write : Z → list Z → M F (ioresult Z);
}.

Section io.
Context {F : Type} `{!InodeOps F, !InodeIo F}.
Abbreviation V := (Vfs F).

Definition set_fd_pos (h pos : Z) : M V unit := modify (λ s,
  with_fds s (alter (λ e, ({| flags := flags e.1; fd_pos := pos; vnode := vnode e.1 |}, e.2)) h (fds s))).

(** [Read] and [Write for FileDescriptor] *)
Definition desc_read (h len : Z) : M V (ioresult (list Z)) :=
  '(d, _) ← fd_of h;
  if readable (flags d) then
    '(v, _) ← vnode_of (vnode d);
    r ← on_fs (i_seek (inode v) (SeekStart (fd_pos d)));
    lift (io_unwrap r) ;;
    bs ←? on_fs (i_read (inode v) len);
    p ← lift (u64 (fd_pos d + Z.of_nat (length bs)));
    set_fd_pos h p ;;
    ok bs
  else err PermissionDenied.
Definition desc_write (h : Z) (buf : list Z) : M V (ioresult Z) :=
  '(d, _) ← fd_of h;
  if writable (flags d) then
    '(v, _) ← vnode_of (vnode d);
    r ← on_fs (i_seek (inode v) (SeekStart (fd_pos d)));
    lift (io_unwrap r) ;;
    n ←? on_fs (i_write (inode v) buf);
    p ← lift (u64 (fd_pos d + n));
    set_fd_pos h p ;;
    ok n
  else err PermissionDenied.

(** The system calls return the count as an [isize]; a read also what it put into the
    buffer. *)
Definition sys_read (p : nat) (fd count : Z) : M V (Z * list Z) :=
  o ← on_table p (slot_unwrap fd);
  match o with
  | Some h =>
      r ← desc_read h count;
      mret (match r with IoOk bs => (icast 64 (Z.of_nat (length bs)), bs) | IoErr _ => (-1, []) end)
  | None => mret (-1, [])
  end.
Definition sys_write (p : nat) (fd : Z) (buf : list Z) : M V Z :=
  o ← on_table p (slot_unwrap fd);
  match o with
  | Some h =>
      r ← desc_write h buf;
      mret (match r with IoOk n => icast 64 n | IoErr _ => -1 end)
  | None => mret (-1)
  end.
(** [sys_writev]: the parts are collected in one buffer, which is written once. *)
Definition sys_writev (p : nat) (fd : Z) (iovecs : list (list Z)) : M V Z := sys_write p fd (concat iovecs).

(** [sys_fstat] and [sys_getdents64]: what is stored at the user's pointer is the second part;
    [get_fstat] and [get_dents64] are methods of the inode. *)
Definition fd_inode (p : nat) (fd : Z) : M V (option Z) :=
  o ← on_table p (slot_unwrap fd);
  match o with
  | Some h =>
      '(d, _) ← fd_of h;
      '(v, _) ← vnode_of (vnode d);
      mret (Some (inode v))
  | None => mret None
  end.
Definition sys_fstat {R} (get_fstat : Z → M F R) (p : nat) (fd : Z) : M V (Z * option R) :=
  o ← fd_inode p fd;
  match o with
  | Some i => st ← on_fs (get_fstat i); mret (0, Some st)
  | None => mret (-1, None)
  end.
(** [size_of::<LinuxDirent64>()] with its padding *)
Definition DIRENT_SIZE : Z := 32.
Definition sys_getdents64 {R} (get_dents64 : Z → M F R) (p : nat) (fd : Z) : M V (Z * option R) :=
  o ← fd_inode p fd;
  match o with
  | Some i => e ← on_fs (get_dents64 i); mret (DIRENT_SIZE, Some e)
  | None => mret (-1, None)
  end.

Definition BLK_SIZE : Z := 512.
(** The loop of [sys_sendfile]: it ends when nothing remains or a read comes short; a
    call that fails is tried again. *)
Fixpoint sendfile_loop (fuel : nat) (in_fd out_fd remain : Z) : M V Z :=
  if remain =? 0 then mret remain
  else
    match fuel with
    | O => panic OutOfFuel
    | S fuel =>
        let read_count := if BLK_SIZE <=? remain then BLK_SIZE else remain in
        r ← desc_read in_fd read_count;
        match r with
        | IoOk bs =>
            let m := Z.of_nat (length bs) in
            w ← desc_write out_fd bs;
            match w with
            | IoOk n =>
                remain ← lift (usub remain n);
                if negb (m =? BLK_SIZE) && (negb (m =? read_count) || negb (m =? n)) then mret remain
                else sendfile_loop fuel in_fd out_fd remain
            | IoErr _ => sendfile_loop fuel in_fd out_fd remain
            end
        | IoErr _ => sendfile_loop fuel in_fd out_fd remain
        end
    end.
(** [sys_sendfile]: before it copies, it opens the file of [in_fd] in the root file
    system, for a log message. *)
Definition sys_sendfile (fuel : nat) (p : nat) (out_fd in_fd offset count : Z) : M V Z :=
  lift (ensure (offset =? 0)) ;;
  o ← on_table p (slot_unwrap out_fd);
  match o with
  | None => mret (-1)
  | Some out =>
      o ← on_table p (slot_unwrap in_fd);
      match o with
      | None => mret (-1)
      | Some inp =>
          '(d, _) ← fd_of inp;
          '(v, _) ← vnode_of (vnode d);
          s ← get;
          match fs_table s !! 0%nat with
          | Some (Some (_, dir)) =>
              r ← on_fs (dir_open_file dir (full_path v));
              app ← lift (io_unwrap r);
              remain ← sendfile_loop fuel inp out count;
              on_fs (i_drop app) ;;
              sent ← lift (usub count remain);
              mret (icast 64 sent)
          | _ => panic UnwrapNone
          end
      end
  end.

(** ** Inodes as sequences of bytes *)

(** What an access at a position does: the seek succeeds, a read returns a prefix of
    what follows, a write replaces what is there by a prefix of the buffer. *)
Class InodeBytes := {
  i_bytes : F → Z → option (list Z);
  i_pread f i bs pos n : i_bytes f i = Some bs → 0 ≤ pos ≤ Z.of_nat (length bs) → 0 ≤ n →
    ∃ f1 (k : nat) f2, i_seek i (SeekStart pos) f = Ok (IoOk pos, f1) ∧
      i_read i n f1 = Ok (IoOk (take k (drop (Z.to_nat pos) bs)), f2) ∧ Z.of_nat k ≤ n ∧ pos + Z.of_nat k ≤ Z.of_nat (length bs) ∧
      (0 < n → pos < Z.of_nat (length bs) → (0 < k)%nat) ∧ ∀ j, i_bytes f2 j = i_bytes f j;
  i_pwrite f i bs pos buf : i_bytes f i = Some bs → 0 ≤ pos ≤ Z.of_nat (length bs) →
    ∃ f1 (k : nat) f2, i_seek i (SeekStart pos) f = Ok (IoOk pos, f1) ∧
      i_write i buf f1 = Ok (IoOk (Z.of_nat k), f2) ∧ (k ≤ length buf)%nat ∧
      i_bytes f2 i = Some (splice pos (take k buf) bs) ∧ ∀ j, j ≠ i → i_bytes f2 j = i_bytes f j;
}.
Context `{!InodeBytes}.
Implicit Types (s : V).

(** Descriptor [h] is [d], on the inode [i] that holds [bs]. *)
Definition open_at s (h : Z) (d : FileDescriptor) (i : Z) (bs : list Z) : Prop :=
  (∃ n v m, fds s !! h = Some (d, n) ∧ vnodes s !! vnode d = Some (v, m) ∧ inode v = i) ∧ i_bytes (fsys s) i = Some bs ∧
  0 ≤ fd_pos d ≤ Z.of_nat (length bs) ∧ Z.of_nat (length bs) < 2 ^ 63.
Definition at_pos (d : FileDescriptor) (pos : Z) : FileDescriptor := {| flags := flags d; fd_pos := pos; vnode := vnode d |}.

Lemma desc_read_spec s h d i bs len : open_at s h d i bs → readable (flags d) = true → 0 ≤ len →
  ∃ (k : nat) s', desc_read h len s = Ok (IoOk (take k (drop (Z.to_nat (fd_pos d)) bs)), s') ∧ Z.of_nat k ≤ len ∧
    fd_pos d + Z.of_nat k ≤ Z.of_nat (length bs) ∧ (0 < len → fd_pos d < Z.of_nat (length bs) → (0 < k)%nat) ∧
    open_at s' h (at_pos d (fd_pos d + Z.of_nat k)) i bs ∧
    (∀ h' d' i' bs', h' ≠ h → open_at s h' d' i' bs' → open_at s' h' d' i' bs') ∧ ∀ h', h' ≠ h → fds s' !! h' = fds s !! h'.
Proof.
  intros ((n & v & m & Hd & Hv & <-) & Hb & Hp & Hlen) Hr Hl.
  destruct (i_pread _ _ _ (fd_pos d) len Hb Hp Hl) as (f1 & k & f2 & Hs & Hrd & Hk & Hk' & Hpos & Hj).
  set (l := take k (drop (Z.to_nat (fd_pos d)) bs)). assert (length l = k) as Hll.
  { unfold l. rewrite length_take, length_drop. lia. }
  exists k. unfold desc_read. run (fd_of_eq _ _ _ _ Hd). rewrite Hr. run (vnode_of_eq _ _ _ _ Hv).
  erewrite M_bind_eq by (unfold on_fs; by rewrite Hs). run_refl.
  erewrite try_ok by (unfold on_fs; cbn [fsys]; by rewrite Hrd). fold l. rewrite Hll.
  rewrite (chk_in 64 (fd_pos d + Z.of_nat k)) by lia. run_refl. run_refl. eexists. split; [reflexivity|].
  split; [lia|]. split; [lia|]. split; [done|]. split.
  - split; [|cbn; rewrite Hj; split_and!; try done; lia]. exists n, v, m. cbn. rewrite lookup_alter_eq, Hd. done.
  - split; [|intros h' Hne; cbn; by rewrite lookup_alter_ne].
    intros h' d' i' bs' Hne ((n' & v' & m' & Hd' & Hv' & Hi') & Hb' & Hp'). split; [|cbn; by rewrite Hj].
    exists n', v', m'. cbn. rewrite lookup_alter_ne by done. done.
Qed.

Lemma splice_length pos l bs : 0 ≤ pos ≤ Z.of_nat (length bs) →
  length (splice pos l bs) = Nat.max (length bs) (Z.to_nat pos + length l).
Proof. intros Hp. unfold splice. rewrite !length_app, length_take, length_drop. lia. Qed.
Lemma splice_splice pos (l1 l2 bs : list Z) : 0 ≤ pos ≤ Z.of_nat (length bs) →
  splice (pos + Z.of_nat (length l1)) l2 (splice pos l1 bs) = splice pos (l1 ++ l2) bs.
Proof.
  intros Hp. unfold splice. replace (Z.to_nat (pos + Z.of_nat (length l1))) with (Z.to_nat pos + length l1)%nat by lia.
  set (p := Z.to_nat pos). assert (length (take p bs) = p) as Ht by (rewrite length_take; unfold p; lia).
  rewrite (assoc_L (++) (take p bs) l1). rewrite take_app_length' by (rewrite length_app; lia).
  rewrite drop_app_ge by (rewrite length_app; lia). rewrite drop_drop, !length_app, Ht, <- !(assoc_L (++)). do 4 f_equal. lia.
Qed.

(** An inode that takes whole buffers, as pipes and files in memory do *)
Definition whole_writes (i : Z) : Prop := ∀ f buf n f', i_write i buf f = Ok (IoOk n, f') → n = Z.of_nat (length buf).

Lemma desc_write_spec s h d i bs buf : open_at s h d i bs → writable (flags d) = true → fd_pos d + Z.of_nat (length buf) < 2 ^ 63 →
  ∃ (k : nat) s', desc_write h buf s = Ok (IoOk (Z.of_nat k), s') ∧ (k ≤ length buf)%nat ∧ (whole_writes i → k = length buf) ∧
    open_at s' h (at_pos d (fd_pos d + Z.of_nat k)) i (splice (fd_pos d) (take k buf) bs) ∧
    (∀ h' d' i' bs', h' ≠ h → i' ≠ i → open_at s h' d' i' bs' → open_at s' h' d' i' bs').
Proof.
  intros ((n & v & m & Hd & Hv & <-) & Hb & Hp & Hlen) Hr Hmax.
  destruct (i_pwrite _ _ _ (fd_pos d) buf Hb Hp) as (f1 & k & f2 & Hs & Hw & Hk & Hbi & Hj).
  exists k. unfold desc_write. run (fd_of_eq _ _ _ _ Hd). rewrite Hr. run (vnode_of_eq _ _ _ _ Hv).
  erewrite M_bind_eq by (unfold on_fs; by rewrite Hs). run_refl.
  erewrite try_ok by (unfold on_fs; cbn [fsys]; by rewrite Hw).
  rewrite (chk_in 64 (fd_pos d + Z.of_nat k)) by lia. run_refl. run_refl. eexists. split; [reflexivity|]. split; [done|].
  split; [intros Hww; specialize (Hww _ _ _ _ Hw); lia|]. split.
  - split; [|cbn; rewrite Hbi, splice_length, length_take by done; split_and!; try done; lia].
    exists n, v, m. cbn. rewrite lookup_alter_eq, Hd. done.
  - intros h' d' i' bs' Hne Hni ((n' & v' & m' & Hd' & Hv' & Hi') & Hb' & Hp'). split; [|cbn; by rewrite Hj].
    exists n', v', m'. cbn. rewrite lookup_alter_ne by done. done.
Qed.

Lemma at_pos_id d : at_pos d (fd_pos d) = d.
Proof. by destruct d. Qed.
Lemma take_drop_app {A} (k1 k2 p : nat) (l : list A) : take k1 (drop p l) ++ take k2 (drop (p + k1) l) = take (k1 + k2) (drop p l).
Proof. by rewrite <- drop_drop, take_take_drop. Qed.

Lemma sendfile_loop_spec ia ib bsa a b da db fuel : ∀ s count pa pb bsb,
  open_at s a (at_pos da pa) ia bsa → open_at s b (at_pos db pb) ib bsb → a ≠ b → ia ≠ ib →
  readable (flags da) = true → writable (flags db) = true → whole_writes ib →
  0 ≤ count ≤ Z.of_nat fuel → pb + count < 2 ^ 63 →
  ∃ (k : nat) s', sendfile_loop fuel a b count s = Ok (count - Z.of_nat k, s') ∧ Z.of_nat k ≤ count ∧
    pa + Z.of_nat k ≤ Z.of_nat (length bsa) ∧ (0 < count → pa < Z.of_nat (length bsa) → (0 < k)%nat) ∧
    open_at s' a (at_pos da (pa + Z.of_nat k)) ia bsa ∧
    open_at s' b (at_pos db (pb + Z.of_nat k)) ib (splice pb (take k (drop (Z.to_nat pa) bsa)) bsb).
Proof.
  induction fuel as [|fuel IH]; intros s count pa pb bsb Ha Hb Hab Hi Hr Hw Hww Hc Hmax; cbn [sendfile_loop];
    pose proof Ha as (_ & _ & Hpa & Hla); pose proof Hb as (_ & _ & Hpb & Hlb); cbn [fd_pos at_pos] in Hpa, Hpb.
  all: destruct (Z.eqb_spec count 0) as [->|H0];
    [exists 0%nat, s; rewrite !Z.add_0_r, splice_nil; repeat (split; [done || lia|]); done|].
  { lia. }
  set (rc := if BLK_SIZE <=? count then BLK_SIZE else count).
  assert (0 < rc ≤ count) as Hrc by (unfold rc, BLK_SIZE; destruct (Z.leb_spec 512 count); lia).
  destruct (desc_read_spec s a _ ia bsa rc Ha Hr) as (k & s1 & H1 & Hk & Hk' & Hpos & Ha1 & Ho1 & _); [lia|]. cbn [fd_pos at_pos] in *.
  run H1. set (l := take k (drop (Z.to_nat pa) bsa)). assert (length l = k) as Hll by (unfold l; rewrite length_take, length_drop; lia).
  destruct (desc_write_spec s1 b (at_pos db pb) ib bsb l) as (n & s2 & H2 & _ & Hn & Hb2 & Ho2); [by apply Ho1|done|cbn; lia|].
  specialize (Hn Hww). rewrite Hll in Hn. subst n. run H2. rewrite Hll, (usub_in count (Z.of_nat k)) by lia. run_refl.
  rewrite take_ge in Hb2 by lia. cbn [fd_pos at_pos] in Hb2. specialize (Ho2 a _ ia bsa Hab Hi Ha1).
  rewrite Z.eqb_refl, orb_false_r. case_match eqn:Hbr.
  - exists k, s2. repeat (split; [done || lia|]). done.
  - assert (0 < k)%nat as Hk0.
    { destruct k; [|lia]. exfalso. unfold BLK_SIZE in *. apply andb_false_iff in Hbr as [Hbr|Hbr]; [done|].
      apply negb_false_iff, Z.eqb_eq in Hbr. lia. }
    destruct (IH s2 (count - Z.of_nat k) (pa + Z.of_nat k) (pb + Z.of_nat k) (splice pb l bsb)) as (k2 & s3 & H3 & G1 & G2 & _ & G3 & G4);
      [done..|lia|lia|].
    exists (k + k2)%nat, s3. rewrite H3. split; [do 2 f_equal; lia|]. split; [lia|]. split; [lia|]. split; [lia|].
    replace (pa + Z.of_nat (k + k2)) with (pa + Z.of_nat k + Z.of_nat k2) by lia.
    replace (pb + Z.of_nat (k + k2)) with (pb + Z.of_nat k + Z.of_nat k2) by lia. split; [done|].
    rewrite <- take_drop_app. rewrite <- Hll, splice_splice in G4 by lia. rewrite Hll in G4.
    replace (Z.to_nat (pa + Z.of_nat k)) with (Z.to_nat pa + k)%nat in G4 by lia. exact G4.
Qed.

(** [sendfile] on a file and an inode that takes whole buffers copies bytes of the one
    to the other: it returns how many, at least one if there are any, moves both
    positions by as many, and ends. *)
Theorem sendfile_copies (fuel : nat) (s : V) (a b : Z) (da db : FileDescriptor) (ia ib : Z) (bsa bsb : list Z) (count : Z) :
  open_at s a da ia bsa → open_at s b db ib bsb → a ≠ b → ia ≠ ib → readable (flags da) = true → writable (flags db) = true →
  whole_writes ib → 0 ≤ count ≤ Z.of_nat fuel → fd_pos db + count < 2 ^ 63 →
  ∃ (k : nat) s', sendfile_loop fuel a b count s = Ok (count - Z.of_nat k, s') ∧ Z.of_nat k ≤ count ∧
    fd_pos da + Z.of_nat k ≤ Z.of_nat (length bsa) ∧ (0 < count → fd_pos da < Z.of_nat (length bsa) → (0 < k)%nat) ∧
    open_at s' a (at_pos da (fd_pos da + Z.of_nat k)) ia bsa ∧
    open_at s' b (at_pos db (fd_pos db + Z.of_nat k)) ib (splice (fd_pos db) (take k (drop (Z.to_nat (fd_pos da)) bsa)) bsb).
Proof.
  intros. apply sendfile_loop_spec; try done; by rewrite at_pos_id.
Qed.

(** To a descriptor that is not open for writing, [sendfile] tries for ever: no fuel is
    enough, also when the source is at its end. *)
Theorem sendfile_never_ends (fuel : nat) (s : V) (a b : Z) (da db : FileDescriptor) (n : nat) (ia : Z) (bsa : list Z) (count : Z) :
  open_at s a da ia bsa → readable (flags da) = true → fds s !! b = Some (db, n) → writable (flags db) = false → a ≠ b →
  0 < count → sendfile_loop fuel a b count s = Panic OutOfFuel.
Proof.
  intros Ha Hr Hb Hw Hab Hc. revert s da Ha Hr Hb.
  induction fuel as [|fuel IH]; intros s da Ha Hr Hb; cbn [sendfile_loop]; (destruct (Z.eqb_spec count 0); [lia|]); [done|].
  set (rc := if BLK_SIZE <=? count then BLK_SIZE else count).
  assert (0 ≤ rc) as Hrc by (unfold rc, BLK_SIZE; destruct (Z.leb_spec 512 count); lia).
  destruct (desc_read_spec s a da ia bsa rc Ha Hr Hrc) as (k & s1 & H1 & _ & _ & _ & Ha1 & _ & Hfd). run H1.
  assert (fds s1 !! b = Some (db, n)) as Hb1 by (by rewrite Hfd).
  assert (∀ buf, desc_write b buf s1 = Ok (IoErr PermissionDenied, s1)) as H2.
  { intros buf. unfold desc_write. run (fd_of_eq _ _ _ _ Hb1). by rewrite Hw. }
  rewrite (M_bind_eq _ _ _ _ _ (H2 _)). by eapply (IH s1).
Qed.
End io.

(** ** Files in memory *)

Abbreviation memnodes := (gmap Z memfile).
Definition on_mem {R} (i : Z) (m : M memfile R) : M memnodes R := λ f,
  match f !! i with
  | Some x => match m x with Ok (r, x) => Ok (r, <[i := x]> f) | Panic e => Panic e end
  | None => Panic UB
  end.
#[export] Instance memnodes_ops : InodeOps memnodes := {|
  dir_create_file _ _ := err NotFound; dir_open_file _ _ := err NotFound; dir_open_dir _ _ := err NotFound;
  dir_create_dir _ _ := err NotFound; dir_remove _ _ := err NotFound; fs_root_dir _ := mret 0; fs_release _ := mret tt;
  i_seek i w := on_mem i (s_seek w); i_drop i := modify (delete i); new_pipe := panic UB |}.
#[export] Instance memnodes_io : InodeIo memnodes := {|
  i_read i n := on_mem i (s_read n); i_write i buf := on_mem i (s_write buf) |}.

#[export] Instance memnodes_bytes : InodeBytes (F := memnodes).
Proof.
  refine {| i_bytes f i := mf_bytes <$> (f !! i : option memfile) |}.
  - intros f i bs pos n Hb Hp Hn. destruct (f !! i) as [x|] eqn:Hx; [|done]. injection Hb as <-.
    set (l := drop (Z.to_nat pos) (mf_bytes x)). exists (<[i := {| mf_bytes := mf_bytes x; mf_pos := pos |}]> f), (Nat.min (Z.to_nat n) (length l)).
    assert (length l = length (mf_bytes x) - Z.to_nat pos)%nat as Hl by (unfold l; apply length_drop).
    eexists. split; [cbn; unfold on_mem; by rewrite Hx|]. split.
    + cbn. unfold on_mem. rewrite lookup_insert_eq. cbn [mf_bytes mf_pos s_read memfile_stream]. fold l.
      replace (take (Nat.min (Z.to_nat n) (length l)) l) with (take (Z.to_nat n) l); [reflexivity|].
      destruct (decide (Z.to_nat n ≤ length l)%nat); [by rewrite Nat.min_l by lia|]. rewrite Nat.min_r by lia. by rewrite !take_ge by lia.
    + split; [lia|]. split; [lia|]. split; [lia|]. intros j. rewrite !lookup_insert. repeat case_decide; try done. subst j. by rewrite Hx.
  - intros f i bs pos buf Hb Hp. destruct (f !! i) as [x|] eqn:Hx; [|done]. injection Hb as <-.
    exists (<[i := {| mf_bytes := mf_bytes x; mf_pos := pos |}]> f), (length buf).
    eexists. split; [cbn; unfold on_mem; by rewrite Hx|]. split; [cbn; unfold on_mem; rewrite lookup_insert_eq; reflexivity|].
    split; [done|]. rewrite (take_ge buf (length buf)) by lia. rewrite lookup_insert_eq. split; [done|]. intros j Hj. by rewrite !lookup_insert_ne.
Defined.

(** Descriptors 5 and 6 on the vnodes 1 and 2 *)
Definition two_files (out_flags : Z) : Vfs memnodes := {|
  next := 10;
  vnodes := {[1 := ({| v_fs := Some 0%nat; full_path := [1]; inode := 11 |}, 2%nat); 2 := ({| v_fs := Some 0%nat; full_path := [2]; inode := 12 |}, 2%nat)]};
  fds := {[5 := ({| flags := RDONLY; fd_pos := 2; vnode := 1 |}, 1%nat); 6 := ({| flags := out_flags; fd_pos := 1; vnode := 2 |}, 1%nat)]};
  hashset := ∅; fs_table := []; tables := []; cwds := [];
  fsys := {[11 := {| mf_bytes := seqZ 100 700; mf_pos := 0 |}; 12 := {| mf_bytes := [7; 8]; mf_pos := 0 |}]} |}.

Lemma sendfile_copies_witness : ∃ (k : nat) s', sendfile_loop 1000 5 6 1000 (two_files RDWR) = Ok (1000 - Z.of_nat k, s') ∧ (0 < k)%nat ∧
  i_bytes (fsys s') 12 = Some (splice 1 (take k (drop 2 (seqZ 100 700))) [7; 8]).
Proof.
  destruct (sendfile_copies 1000 (two_files RDWR) 5 6 {| flags := RDONLY; fd_pos := 2; vnode := 1 |} {| flags := RDWR; fd_pos := 1; vnode := 2 |}
    11 12 (seqZ 100 700) [7; 8] 1000) as (k & s' & H & _ & _ & Hk & _ & (_ & Hb & _)).
  - split; [|vm_compute; split_and!; reflexivity || discriminate]. eexists _, _, _. split_and!; reflexivity.
  - split; [|vm_compute; split_and!; reflexivity || discriminate]. eexists _, _, _. split_and!; reflexivity.
  - discriminate.
  - discriminate.
  - reflexivity.
  - reflexivity.
  - intros f buf n f'. cbn. unfold on_mem. destruct (f !! 12); [|discriminate]. intros H. by injection H as <- _.
  - lia.
  - cbn. lia.
  - exists k, s'. split; [exact H|]. split; [apply Hk; [lia|vm_compute; reflexivity]|exact Hb].
Defined.
Lemma sendfile_never_ends_witness : sendfile_loop 1000 5 6 3 (two_files RDONLY) = Panic OutOfFuel.
Proof.
  apply (sendfile_never_ends 1000 (two_files RDONLY) 5 6 {| flags := RDONLY; fd_pos := 2; vnode := 1 |} {| flags := RDONLY; fd_pos := 1; vnode := 2 |}
    1 11 (seqZ 100 700) 3).
  - split; [|vm_compute; split_and!; reflexivity || discriminate]. eexists _, _, _. split_and!; reflexivity.
  - reflexivity.
  - reflexivity.
  - reflexivity.
  - discriminate.
  - lia.
Defined.
