(* ===== verification/FatInode.v ===== *)
(** * FAT volumes as inodes

    The file system of fatfs as an instance of what [Vnode] and [VnodeIo] rely on: the
    inodes are open files and directories of one volume, and share it.  Sessions run
    the system calls down to the bytes of the disk. *)

From stdpp Require Import gmap fin_maps strings.
From S2P Require Import Prelude Io FatIo BootSector FatTable FatFs FatSample DirEntry FatName FatFile FatDir FileSample.
From S2P Require Import Vfs Vnode VnodeInv VnodeOps VnodeProps VnodeIo.

(** The inodes: a [File] of fatfs is a [StreamFile], a [Dir] its stream.  Pipes, which
    have nothing to do with the volume, are left to [Pipe]. *)
Record FatNodes (D : Type) := { volume : FatFs.FileSystem D; nodes : gmap Z DirRawStream; node_next : Z }.
Arguments volume {_}. Arguments nodes {_}. Arguments node_next {_}.

Section fat_inodes.
Context {D : Type} `{!Stream D} (upper_other : Z → list Z).
Abbreviation FN := (FatNodes D).

Definition on_volume {R} (m : M (FatFs.FileSystem D) R) : M FN R := λ s,
  match m (volume s) with
  | Ok (r, v) => Ok (r, {| volume := v; nodes := nodes s; node_next := node_next s |})
  | Panic e => Panic e
  end.
Definition node_new (n : DirRawStream) : M FN Z := λ s,
  Ok (node_next s, {| volume := volume s; nodes := <[node_next s := n]> (nodes s); node_next := node_next s + 1 |}).
Definition node_stream (i : Z) : M FN DirRawStream :=
  s ← get; match nodes s !! i with Some st => mret st | None => panic UB end.
(** A method of the stream of an inode, which changes it and the volume *)
Definition on_node {R} (i : Z) (m : M (DirRawStream * FatFs.FileSystem D) R) : M FN R := λ s,
  match nodes s !! i with
  | Some st =>
      match m (st, volume s) with
      | Ok (r, (st, v)) => Ok (r, {| volume := v; nodes := <[i := st]> (nodes s); node_next := node_next s |})
      | Panic e => Panic e
      end
  | None => Panic UB
  end.
(** A method of [Dir] that opens a file or a directory *)
Definition opens {A} (dir : Z) (m : DirRawStream → M (FatFs.FileSystem D) (ioresult A)) (node : A → DirRawStream) : M FN (ioresult Z) :=
  st ← node_stream dir;
  a ←? on_volume (m st);
  i ← node_new (node a);
  ok i.

#[export] Instance fat_ops : InodeOps FN := {|
  dir_create_file dir path := opens dir (λ st, create_file upper_other st path) StreamFile;
  dir_open_file dir path := opens dir (λ st, open_file upper_other st path) StreamFile;
  dir_open_dir dir path := opens dir (λ st, open_dir upper_other st path) id;
  dir_create_dir dir path := opens dir (λ st, create_dir upper_other st path) id;
  dir_remove dir path := st ← node_stream dir; on_volume (remove upper_other st path);
  fs_root_dir _ := s ← get; st ← lift (root_dir (volume s)); node_new st;
  fs_release _ := on_volume fs_drop ;; mret tt;
  i_seek i w := on_node i (s_seek w);
  i_drop i := s ← get;
    match nodes s !! i with
    | Some st =>
        put {| volume := volume s; nodes := delete i (nodes s); node_next := node_next s |} ;;
        on_volume (raw_drop st)
    | None => panic UB
    end;
  new_pipe := panic UB |}.
#[export] Instance fat_io : InodeIo FN := {|
  i_read i n := on_node i (s_read n);
  i_write i buf := on_node i (s_write buf) |}.
End fat_inodes.

(** ** Sessions *)

#[local] Existing Instance fat_ops.
#[local] Existing Instance fat_io.
Definition fat0 : Vfs (FatNodes memfile) := vfs_new {| volume := empty_fs; nodes := ∅; node_next := 1 |}.
#[local] Instance ops0 : InodeOps (FatNodes memfile) := fat_ops no_upper.

(** A file is created, written and closed, and found again with its contents *)
Example write_close_read :
  result ((fs_init ;; init_process STDIN STDOUT ;;
    fd ← sys_openat 0 AT_FDCWD (str "/hello.txt") (Z.lor CREAT RDWR);
    n ← sys_write 0 fd (str "hello, world");
    sys_close 0 fd ;;
    fd' ← sys_openat 0 AT_FDCWD (str "HELLO.TXT") RDONLY;
    r ← sys_read 0 fd' 100;
    w ← sys_write 0 fd' (str "xy");
    mret (fd, n, fd', r, w)) fat0) =
  Ok (3, 12, 3, (12, str "hello, world"), -1).
Proof. vm_compute. reflexivity. Qed.

(** The bytes 0 to 255 twice, and 88 more: a file of two clusters *)
Definition pattern (n : nat) : list Z := (λ i, Z.of_nat i `mod` 256) <$> seq 0 n.
Definition source_file : M (Vfs (FatNodes memfile)) unit :=
  fs_init ;; init_process STDIN STDOUT ;;
  fd ← sys_openat 0 AT_FDCWD (str "/src") (Z.lor CREAT RDWR);
  sys_write 0 fd (pattern 512) ;;
  sys_write 0 fd (drop 512 (pattern 600)) ;;
  sys_close 0 fd ;;
  mret tt.
Definition send_to (prefix : list Z) : M (Vfs (FatNodes memfile)) (Z * list Z) :=
  a ← sys_openat 0 AT_FDCWD (str "/src") RDONLY;
  b ← sys_openat 0 AT_FDCWD (str "/dst") (Z.lor CREAT RDWR);
  sys_write 0 b prefix ;;
  n ← sys_sendfile 1000 0 b a 0 600;
  sys_close 0 b ;;
  b ← sys_openat 0 AT_FDCWD (str "/dst") RDONLY;
  r1 ← sys_read 0 b 512;
  r2 ← sys_read 0 b 512;
  mret (n, snd r1 ++ snd r2).

(** To the start of a file, [sendfile] copies everything. *)
Example sendfile_whole : result ((source_file ;; send_to []) fat0) = Ok (600, pattern 600).
Proof. vm_compute. reflexivity. Qed.

(** A write that comes short at the end of a cluster loses the rest of the block: sent
    to a file behind 100 bytes, the bytes 412 to 511 of the source are gone, and the
    call returns 500. *)
Theorem sendfile_loses_bytes :
  result ((source_file ;; send_to (replicate 100 7)) fat0) =
  Ok (500, replicate 100 7 ++ take 412 (pattern 600) ++ drop 512 (pattern 600)).
Proof. vm_compute. reflexivity. Qed.

(** The root directory has a vnode until its first close; opening it again asks fatfs
    for a file without a name. *)
Example root_forgotten_fat :
  result ((fs_init ;; init_process STDIN STDOUT ;;
    a ← sys_openat 0 AT_FDCWD (str "/") RDONLY;
    b ← sys_openat 0 AT_FDCWD (str "/") RDONLY;
    sys_close 0 a ;; sys_close 0 b ;;
    c ← sys_openat 0 AT_FDCWD (str "/") RDONLY;
    d ← sys_openat 0 AT_FDCWD (str "/") DIRECTORY;
    mret (a, b, c, d)) fat0) = Ok (3, 4, -1, -1).
Proof. vm_compute. reflexivity. Qed.
