(* ===== verification/UserMem.v ===== *)
(** * System calls on memory

    [sys_brk], [sys_mmap], [sys_mprotect] and [sys_munmap]
    (kernel/src/syscall/mm.rs) on the address space of the current process.  They
    run with the lock of the process held, and the kernel writes to user memory
    through the active page table: a write to a page that is not mapped, or not
    writable, faults, and [trap::handle_pagefault] (kernel/src/trap.rs) waits for
    that lock. *)

From Stdlib Require Import Sorted.
From S2P Require Import Prelude Io Address Memory PhysPage Pte BTree PageTable PageMap World.
From S2P Require Import AddressSpace Cow Spaces SpaceOps Vfs.

Definition PROT_READ : Z := 0x1.
Definition PROT_WRITE : Z := 0x2.
Definition PROT_EXEC : Z := 0x4.
(** [Errno::EINVAL] *)
Definition EINVAL : Z := 22.

(** The entry flags for a protection. *)
Definition prot_perm (prot : Z) : Z :=
  flags_set (flags_set (flags_set PTE_USER PTE_READABLE (flags_contains prot PROT_READ))
               PTE_WRITABLE (flags_contains prot PROT_WRITE)) PTE_EXECUTABLE (flags_contains prot PROT_EXEC).

(** [fd_table.get_mut(fd as usize)] *)
Definition table_get_mut (table : list (option Z)) (fd : Z) : option (option Z) :=
  if fd `mod` 2 ^ 64 <? Z.of_nat (length table) then table !! Z.to_nat (fd `mod` 2 ^ 64) else None.

Section syscalls.
Context {C : Config} {St : Type} `{!FrameOps St}.

Definition sys_brk (self : AddressSpace) (addr : Z) : M St (AddressSpace * Z) := brk self addr.

(** The kernel follows the pointers of a program without looking at them.  One that does not lead to the
    user half of the address space leads to the kernel's own data, its stacks among them, or nowhere: there the
    behaviour is undefined, and the model ends. *)
Definition user_va (va : Z) : exec unit := if va <? 2 ^ 38 then Ok tt else Panic UB.

(** A byte the kernel writes to the user address [va]. *)
Definition user_store (pt : PageTableImpl) (va b : Z) : M St unit :=
  lift (user_va va) ;;
  o ← find_pte pt (floor va);
  match o with
  | None => panic Deadlock
  | Some pte =>
      w ← on_mem (load pte);
      if flags_contains w PTE_WRITABLE then
        a ← lift (array_va (pte_ppn w));
        on_mem (store_byte (a + page_offset va) b)
      else panic Deadlock
  end.
Fixpoint user_store_all (pt : PageTableImpl) (va : Z) (bs : list Z) : M St unit :=
  match bs with
  | [] => mret tt
  | b :: bs => user_store pt va b ;; user_store_all pt (va + 1) bs
  end.

Context {D : Type} `{!Stream D}.

(** The part of [sys_mmap] for a descriptor in the table: the file is read into the
    new area, and the byte behind it is cleared. *)
Definition mmap_file (pt : PageTableImpl) (slot : option Z) (files : Files D) (va_end length offset : Z) :
    M St (Files D) :=
  h ← lift (unwrap slot);
  start ← lift (usub va_end length);
  '(res, files) ← lift (fd_seek h (SeekStart offset) files);
  lift (io_unwrap res) ;;
  '(res, files) ← lift (fd_read h length files);
  bs ← lift (io_unwrap res);
  user_store_all pt start bs ;;
  user_store pt va_end 0 ;;
  mret files.

Definition sys_mmap (self : AddressSpace) (table : list (option Z)) (files : Files D)
    (addr length prot fd offset : Z) : M St (AddressSpace * Files D * Z) :=
  let map_perm := prot_perm prot in
  if negb (addr =? 0) then
    e ← lift (uadd addr length);
    vpns ← lift (vpn_range {| r_start := addr; r_end := e |});
    for_each vpns (λ vpn, modify_flags (page_table self) vpn map_perm) ;;
    mret (self, files, as_isize addr)
  else
    va_end ← lift (alloc_user_area self length);
    start ← lift (usub va_end length);
    self ← insert_framed_area self {| r_start := start; r_end := va_end |} map_perm None;
    files ← match table_get_mut table fd with
            | Some slot => mmap_file (page_table self) slot files va_end length offset
            | None => mret files
            end;
    mret (self, files, as_isize start).

Definition sys_mprotect (addr len prot : Z) : Z := if addr =? 0 then - EINVAL else 0.

Definition sys_munmap (self : AddressSpace) (addr len : Z) : M St (AddressSpace * Z) :=
  self ← remove_area self addr; mret (self, 0).
End syscalls.

(** ** Anonymous memory *)

Section theorems.
Context {C : Config} {Cok : ConfigOk C} {Mok : MmioOk C} {St : Type} `{!FrameOps St, !FrameSource St}.
Context {D : Type} `{!Stream D}.
Implicit Types (s : St) (Rs : list Z) (files : Files D).

Abbreviation root self := (pt_root (page_table self)).

(** Room for [len] bytes in whole pages: every area and the heap end below [B], and
    the devices are further up. *)
Definition mmap_room (self : AddressSpace) (len B : Z) : Prop :=
  0 < len ∧ len `mod` 4096 = 0 ∧ B + len + 4 * 4096 ≤ 2 ^ 38 ∧
  0 ≤ data_segment_max self ≤ B ∧ data_segment_max self `mod` 4096 = 0 ∧
  (∀ r a, (r, a) ∈ areas self → 0 ≤ r_end r ≤ B) ∧
  ∀ v, v ∈ mmio_vpns → B + len + 4 * 4096 ≤ v * 4096.

Lemma separated_starts (l : list (VARange * MapArea)) :
  proper_ranges l → separated l → StronglySorted (λ k k', r_start k ≤ r_start k') l.*1.
Proof.
  induction l as [|[r a] l IH]; intros Hp Hs; [constructor|]. apply StronglySorted_inv in Hs as [Hs Hf].
  constructor; [apply IH; [intros r' a' Hin; apply (Hp r' a'); set_solver|done]|].
  rewrite Forall_forall in Hf. apply Forall_forall. intros k ([r' a'] & -> & Hin)%list_elem_of_fmap. specialize (Hf _ Hin).
  pose proof (Hp r a ltac:(set_solver)). cbn in *. lia.
Qed.

(** The region that is chosen for a new area. *)
Lemma mmap_region Rs K s A self len B :
  exact Rs K s A self → mmap_room self len B →
  ∃ v, alloc_user_area self len = Ok v ∧ usub v len = Ok (v - len) ∧ free_region self (v - len) v ∧
    data_segment_max self + 4096 ≤ v - len ∧ v + 4096 ≤ 2 ^ 38 ∧ (∀ x, x ∈ mmio_vpns → v + 4096 ≤ x * 4096).
Proof.
  intros HE (Hl & Hlm & HB & Hd & Hdm & Hr & Hm).
  destruct (alloc_user_area_guarded self len B) as (v & Hv & Hvm & Hlo & Hhi & Hgap); [lia|done|lia|done|done| | |].
  { intros k ([r a] & -> & Hin)%list_elem_of_fmap. by apply (Hr r a). }
  { apply separated_starts; apply HE. }
  exists v. split; [done|]. split; [by rewrite usub_in by lia|]. split.
  - split_and!; [Z.div_mod_to_equations; lia|done|lia..| |].
    + intros x Hx. specialize (Hm x Hx). right. lia.
    + intros r a Hin. destruct (Hgap r a Hin); lia.
  - split; [lia|]. split; [lia|]. intros x Hx. specialize (Hm x Hx). lia.
Qed.

Lemma region_pages len lo : 0 < len → len `mod` 4096 = 0 → lo `mod` 4096 = 0 →
  length (range (lo `div` 4096) ((lo + len) `div` 4096)) = Z.to_nat (len `div` 4096).
Proof. intros. unfold range. rewrite length_seqZ. f_equal. Z.div_mod_to_equations. lia. Qed.

Lemma zip_key (vs qs : list Z) v : length qs = length vs → v ∈ vs → ∃ q, (v, q) ∈ zip vs qs.
Proof.
  intros Hlen Hv. rewrite <- (fst_zip vs qs) in Hv by lia.
  apply list_elem_of_fmap in Hv as ([v' q] & -> & Hin). by exists q.
Qed.
Lemma zip_value (vs qs : list Z) q : length qs = length vs → q ∈ qs → ∃ v, (v, q) ∈ zip vs qs.
Proof.
  intros Hlen Hq. rewrite <- (snd_zip vs qs) in Hq by lia.
  apply list_elem_of_fmap in Hq as ([v q'] & -> & Hin). by exists v.
Qed.

(** [munmap] of an area whose frames nobody else holds: all of them are free again. *)
Lemma munmap_frees Rs K s A self m1 r a m2 va n :
  exact Rs K s A self → areas self = m1 ++ (r, a) :: m2 → r_start r ≤ va ≤ r_end r →
  (∀ q, q ∈ (data_frames a).*2 → f_rc A !! q = Some 1) →
  ∃ s' A', sys_munmap self va n s = Ok ((with_areas self (m1 ++ m2), 0), s') ∧
    exact Rs K s' A' (with_areas self (m1 ++ m2)) ∧
    (∀ v, v ∈ (data_frames a).*1 → view (st_words s') (root self) (indexes v) = None) ∧
    (∀ v, 0 ≤ v < 2 ^ 26 → v ∉ (data_frames a).*1 →
       view (st_words s') (root self) (indexes v) = view (st_words s) (root self) (indexes v)) ∧
    (∀ R k, R ∈ Rs → R ≠ root self → key_ok k → view (st_words s') R k = view (st_words s) R k) ∧
    (∀ x j, held A x → x ∉ (data_frames a).*2 → (∀ R, R ∈ Rs → ¬ is_table (st_words s) R x) → idx_ok j →
       f_rc A' !! x = f_rc A !! x ∧ st_words s' !! (page_va x + 8 * j) = st_words s !! (page_va x + 8 * j)) ∧
    f_free A' ≡ₚ (data_frames a).*2 ++ f_free A.
Proof.
  intros HE Har Hva Hone.
  destruct (remove_exact Rs K s A self m1 r a m2 va HE Har Hva) as
    (s' & A' & self' & Hs & HE' & -> & Hnone & Hrest & Hoth & Hrc & (l & Hfl & Hnd & Hin) & Hdata).
  exists s', A'. split; [unfold sys_munmap; by run Hs|]. split_and!; try done.
  - intros x j (c & Hc & ?) Hxa Hnt Hj. assert (f_rc A' !! x = f_rc A !! x) as Hx by (by rewrite Hrc, decide_False).
    split; [done|]. apply Hdata; try done. exists c. by rewrite Hx.
  - assert (l ≡ₚ (data_frames a).*2) as Hp.
    { apply NoDup_Permutation; [done| |intros x; rewrite Hin; naive_solver].
      pose proof (sp_frames _ _ _ _ _ (ex_ok _ _ _ _ _ HE)) as Hn. rewrite Har, areas_without, fmap_app in Hn.
      by apply NoDup_app in Hn as [Hn _]. }
    by rewrite Hfl, Hp.
Qed.

(** C4: Anonymous [mmap] of a multiple of the page size gives fresh frames with the protection asked
    for, in a region with a guard page to everything else; [munmap] of any address
    in it takes exactly this area away, puts exactly its frames back on the free list and restores the address
    maps of all processes, and the pages of others are as before throughout.  At most two
    frames a page are kept for tables. *)
Theorem mmap_munmap_roundtrip Rs K s A self table files len prot fd offset B :
  exact Rs K s A self → mmap_room self len B → table_get_mut table fd = None →
  (3 * Z.to_nat (len `div` 4096) ≤ length (f_free A))%nat →
  ∃ start s1 A1 self1 qs,
    sys_mmap self table files 0 len prot fd offset s = Ok ((self1, files, start), s1) ∧
    exact Rs K s1 A1 self1 ∧ data_segment_max self + 4096 ≤ start ∧
    (∀ r a, (r, a) ∈ areas self → r_end r + 4096 ≤ start ∨ start + len + 4096 ≤ r_start r) ∧
    length qs = Z.to_nat (len `div` 4096) ∧
    (∀ v, start `div` 4096 ≤ v < (start + len) `div` 4096 → ∃ q, q ∈ qs ∧
       view (st_words s1) (root self) (indexes v) = Some (pte_new q (Z.lor (prot_perm prot) PTE_VALID)) ∧
       f_rc A1 !! q = Some 1 ∧ q ∈ f_free A) ∧
    ∀ va n, start ≤ va ≤ start + len → ∃ s2 A2 self2,
      sys_munmap self1 va n s1 = Ok ((self2, 0), s2) ∧ exact Rs K s2 A2 self2 ∧ areas self2 = areas self ∧
      (∀ v, 0 ≤ v < 2 ^ 26 → view (st_words s2) (root self) (indexes v) = view (st_words s) (root self) (indexes v)) ∧
      (∀ R k, R ∈ Rs → R ≠ root self → key_ok k → view (st_words s2) R k = view (st_words s) R k) ∧
      (∀ x j, held A x → (∀ R, R ∈ Rs → ¬ is_table (st_words s) R x) → idx_ok j →
         f_rc A2 !! x = f_rc A !! x ∧
         st_words s2 !! (page_va x + 8 * j) = st_words s !! (page_va x + 8 * j)) ∧
      f_free A2 ≡ₚ qs ++ f_free A1 ∧
      (length (f_free A) ≤ length (f_free A2) + 2 * Z.to_nat (len `div` 4096))%nat.
Proof.
  intros HE Hroom Hfd Hfree. pose proof Hroom as (Hl & Hlm & _).
  destruct (mmap_region Rs K s A self len B HE Hroom) as (v & Hv & Hsub & Hreg & Hlo & _).
  pose proof Hreg as (Hlo1 & Hhi1 & Hb & Hh & _ & Hgap).
  pose proof (region_pages len (v - len) Hl Hlm Hlo1) as Hlen. replace (v - len + len) with v in * by lia.
  destruct (insert_exact Rs K s A self (v - len) v (prot_perm prot) HE Hreg) as
    (s1 & A1 & self1 & m1 & m2 & qs & Hs1 & Hq & HE1 & Hroot & Hm & Har1 & Hnew & Hold & Hoth & Hdata & Hheld & Hf1 & _); [lia|].
  rewrite Hlen in Hq, Hf1. set (vpns := range _ _) in *.
  exists (v - len), s1, A1, self1, qs. replace (v - len + len) with v by lia. split_and!; try done.
  - unfold sys_mmap. cbn [negb Z.eqb]. rewrite Hv. run_refl. rewrite Hsub. run_refl. run Hs1. rewrite Hfd. run_refl.
    unfold as_isize. by replace (v - len <? 2 ^ 63) with true by lia.
  - intros x Hx. destruct (zip_key vpns qs x) as [q Hin]; [lia|by apply elem_of_range|]. exists q. split; [by eapply elem_of_zip_r|]. by apply Hnew.
  - intros va n Hva.
    assert (∀ q, q ∈ qs → f_rc A1 !! q = Some 1 ∧ q ∈ f_free A) as Hqs.
    { intros q Hqq. destruct (zip_value vpns qs q) as [y Hy]; [lia|done|]. by apply (Hnew y q). }
    destruct (munmap_frees Rs K s1 A1 self1 m1 _ _ m2 va n HE1 Har1) as
      (s2 & A2 & Hs2 & HE2 & Hnone & Hrest & Hoth2 & Hdata2 & Hf2); [cbn; lia| |].
    { cbn [data_frames]. intros q. rewrite snd_zip by lia. intros ?. by apply Hqs. }
    cbn [data_frames] in *. rewrite fst_zip in Hnone, Hrest by lia. rewrite snd_zip in Hdata2, Hf2 by lia. rewrite Hroot in *.
    exists s2, A2, (with_areas self1 (m1 ++ m2)). split_and!; try done; [..|rewrite Hf2, length_app; lia].
    + intros x Hx. destruct (decide (x ∈ vpns)) as [Hi|Hi]; [|by rewrite Hrest, Hold].
      rewrite Hnone by done. apply elem_of_range in Hi.
      destruct (free_region_pages Rs K s A self (v - len) v x HE Hreg Hi) as (? & ? & ?). symmetry. by apply HE.
    + intros R k HR Hne Hk. by rewrite Hoth2, Hoth.
    + intros x j Hx Hnt Hj. destruct (Hheld x Hx) as [Hrx Htx]. rewrite <- Hrx, <- (Hdata x j) by done. apply Hdata2; [| | |done].
      * destruct Hx as (c & Hc & ?). exists c. by rewrite Hrx.
      * intros [_ Hxf]%Hqs. revert Hxf. apply held_not_free; [|done]. eapply st_rep_ok, HE.
      * intros R HR Ht. by apply (Hnt R), Htx.
Qed.

(** [mmap] at an address only changes the flags of pages that are mapped: with a new
    address it panics. *)
Theorem mmap_fixed_panics Rs K s A self table files addr len prot fd offset :
  exact Rs K s A self → 0 < addr → 0 < len → addr + len ≤ 2 ^ 38 → (2 ≤ length (f_free A))%nat →
  floor addr ∉ mmio_vpns → floor addr ∉ (all_frames (areas self)).*1 →
  sys_mmap self table files addr len prot fd offset s = Panic UnwrapNone.
Proof.
  intros HE Ha Hl Hb Hfree Hm Hp. unfold sys_mmap. replace (addr =? 0) with false by lia. cbn [negb].
  rewrite uadd_in by lia. run_refl.
  assert (vpn_range {| r_start := addr; r_end := addr + len |} =
    Ok (floor addr :: range (floor addr + 1) ((addr + len + 4095) `div` 4096))) as Hv.
  { apply vpn_range_Ok. cbn. split_and!; [lia..|]. rewrite floor_div. unfold range.
    rewrite (seqZ_cons (addr `div` 4096)) by (Z.div_mod_to_equations; lia). f_equal. f_equal; lia. }
  erewrite M_bind_eq; [|by rewrite Hv]. apply M_bind_Panic. cbn [for_each]. apply M_bind_Panic.
  pose proof (sp_world _ _ _ _ _ (ex_ok _ _ _ _ _ HE)) as W.
  eapply (page_table_misuse_panics s A (page_table self) (floor addr) 0); [apply W|apply W; apply HE|done|].
  apply HE; try done. rewrite floor_div. Z.div_mod_to_equations. lia.
Qed.

(** ** The heap *)

(** C5: [brk]: zero asks for the end of the heap, rounded up to a page; an end above
    the limit is refused with -1; and a higher end is returned as it was asked for (the comment on
    [AddressSpace::brk] says 0) and maps a fresh frame of its own for every
    page that is added, with the permissions of the data segment, and leaves the
    pages of this and every other process as they are. *)
Theorem brk_heap Rs K s A self m1 r a m2 addr :
  let vpns := range (page_up (r_end r)) (page_up addr) in
  exact Rs K s A self → heap_area self m1 r a m2 addr → r_end r ≤ addr → (3 * length vpns ≤ length (f_free A))%nat →
  sys_brk self 0 s = Ok ((self, page_up (r_end r) * 4096), s) ∧
  if data_segment_max self <? addr then sys_brk self addr s = Ok ((self, -1), s)
  else
    ∃ s' A' self' qs, sys_brk self addr s = Ok ((self', addr), s') ∧ exact Rs K s' A' self' ∧
      length qs = length vpns ∧ data_segment_end self' = addr ∧ data_segment_max self' = data_segment_max self ∧
      areas self' = m1 ++ ({| r_start := r_start r; r_end := addr |},
        {| data_frames := data_frames a ++ zip vpns qs; map_type := map_type a; map_perm := map_perm a |}) :: m2 ∧
      (∀ v q, (v, q) ∈ zip vpns qs →
         view (st_words s') (root self) (indexes v) = Some (pte_new q (Z.lor (map_perm a) PTE_VALID)) ∧
         f_rc A' !! q = Some 1 ∧ q ∈ f_free A) ∧
      (∀ v, 0 ≤ v < 2 ^ 26 → v ∉ vpns →
         view (st_words s') (root self) (indexes v) = view (st_words s) (root self) (indexes v)) ∧
      (∀ R k, R ∈ Rs → R ≠ root self → key_ok k → view (st_words s') R k = view (st_words s) R k) ∧
      (∀ x j, held A x → (∀ R, R ∈ Rs → ¬ is_table (st_words s) R x) → idx_ok j →
         f_rc A' !! x = f_rc A !! x ∧
         st_words s' !! (page_va x + 8 * j) = st_words s !! (page_va x + 8 * j)).
Proof.
  intros vpns HE Hheap Haddr Hfree. pose proof Hheap as (Har & Hend & Hr0 & Ht & _).
  assert (r_start r ≤ r_end r) as Hr by (apply (ex_proper _ _ _ _ _ HE r a); rewrite Har; set_solver).
  assert (1 ≤ r_end r) as He.
  { assert (vpn_range r = Ok (data_frames a).*1) as (? & _)%vpn_range_Ok by (apply HE; rewrite Har; set_solver). done. }
  assert (round_up (data_segment_end self) PAGE_SIZE = Ok (page_up (r_end r) * 4096)) as Hru
    by (rewrite <- Hend; apply round_up_page_up; lia).
  unfold sys_brk. split.
  - unfold brk. rewrite Hru. run_refl. unfold as_isize.
    replace (page_up (r_end r) * 4096 <? 2 ^ 63) with true by (Z.div_mod_to_equations; lia). done.
  - destruct (Z.ltb_spec (data_segment_max self) addr) as [Hlt|Hle].
    + unfold brk. rewrite Hru. run_refl. replace (addr =? 0) with false by lia.
      by replace (data_segment_max self <? addr) with true by lia.
    + destruct (brk_grow Rs K s A self m1 r a m2 addr HE Hheap) as
        (s' & A' & self' & qs & Hs & Hlen & HE' & _ & Hde & Hdm & Har' & H1 & H2 & H3 & H4 & H5); [lia|done|].
      exists s', A', self', qs. split_and!; try done. intros x j Hx Hnt Hj. split; [by apply H5|by apply H4].
Qed.

(** A lower end is only recorded, the pages above it stay mapped, and so the next
    [brk] that goes up across a page that was given back panics. *)
Theorem brk_shrink_panics Rs K s A self m1 r a m2 top addr addr2 :
  exact Rs K s A self → heap_area self m1 r a m2 top → 0 < addr → r_start r ≤ addr →
  page_up addr < page_up (r_end r) → r_end r ≤ data_segment_max self → r_end r ≤ top →
  page_up addr < page_up addr2 → addr2 ≤ data_segment_max self → data_segment_max self + 4096 ≤ 2 ^ 38 →
  (3 ≤ length (f_free A))%nat →
  ∃ self1, sys_brk self addr s = Ok ((self1, addr), s) ∧ data_segment_end self1 = addr ∧
    all_frames (areas self1) = all_frames (areas self) ∧ sys_brk self1 addr2 s = Panic AssertFailed.
Proof.
  intros HE Hheap Ha0 Ha Hpg Hmax Htop Hpg2 Hmax2 Hbig Hfree. unfold sys_brk.
  eexists. split; [by eapply brk_shrink|]. split; [done|]. split.
  - destruct Hheap as (-> & _). cbn. by rewrite !all_frames_app, !all_frames_cons.
  - by eapply brk_regrow_panics.
Qed.

(** ** Files in memory *)

Lemma user_va_in va : va < 2 ^ 38 → user_va va = Ok tt.
Proof. intros. unfold user_va. by replace (va <? 2 ^ 38) with true by lia. Qed.

(** The pages of [lo, hi) belong to frames that may be written. *)
Definition user_region Rs s (A : frames) (P lo hi : Z) : Prop :=
  ∀ v, lo `div` 4096 ≤ v < hi `div` 4096 → ∃ w, view (st_words s) P (indexes v) = Some w ∧
    held A (pte_ppn w) ∧ ∀ R, R ∈ Rs → ¬ is_table (st_words s) R (pte_ppn w).

(** Writing a byte of such a page changes no address map. *)
Lemma user_store_region Rs s A pt va b lo hi :
  world Rs s A → pt_root pt ∈ Rs → user_region Rs s A (pt_root pt) lo hi →
  hi `mod` 4096 = 0 → hi ≤ 2 ^ 38 → lo ≤ va < hi →
  user_store pt va b s = Panic Deadlock ∨
  ∃ s', user_store pt va b s = Ok (tt, s') ∧ world Rs s' A ∧ user_region Rs s' A (pt_root pt) lo hi ∧
    ∀ R k, R ∈ Rs → key_ok k → view (st_words s') R k = view (st_words s) R k.
Proof.
  intros W HP Hreg Hhi Htop Hva. destruct (Hreg (floor va)) as (w & Hw & Hheld & Hnt).
  { rewrite floor_div. Z.div_mod_to_equations. lia. }
  pose proof (find_pte_some s A pt (floor va) w (w_rep _ _ _ W) (w_wf _ _ _ W _ HP) Hw) as Hf.
  destruct (indexes (floor va)) as [[i0 i1] i2] eqn:Ei. destruct Hf as (t & _ & Hf & Hl & _).
  unfold user_store. rewrite user_va_in by lia. run_refl. run Hf. run (on_mem_load _ _ _ Hl). destruct (flags_contains w PTE_WRITABLE); [|by left]. right.
  set (q := pte_ppn w) in *. assert (0 ≤ q < 2 ^ 26) as Hq.
  { destruct (st_rep_ok _ _ (w_rep _ _ _ W)) as (_ & _ & Hrange). destruct Hheld as (c & Hc & _). by apply (Hrange q c). }
  rewrite array_va_eq by done. run_refl.
  assert (0 ≤ page_offset va < 4096) as Hoff by (rewrite page_offset_mod; apply Z.mod_pos_bound; lia).
  set (j := page_offset va `div` 8). assert (idx_ok j) as Hj by (unfold idx_ok, j; Z.div_mod_to_equations; lia).
  assert (page_va q + page_offset va - (page_va q + page_offset va) `mod` 8 = page_va q + 8 * j) as Ha.
  { unfold j, page_va. Z.div_mod_to_equations. lia. }
  unfold store_byte. rewrite on_mem_bind, Ha.
  destruct (entry_mapped s A q j) as [x Hx]; [apply W|done..|]. run (on_mem_load _ _ _ Hx).
  destruct (on_mem_store s A q j (byte_set x ((page_va q + page_offset va) `mod` 8) b)) as [Hs Hrep]; [apply W|done..|].
  destruct (world_tables Rs s A _ A W Hrep) as (W' & Hv & Ht & _).
  { intros R y HR Hy. by eapply world_table_held. }
  { intros R y k HR Hy Hk. rewrite st_set_words. apply lookup_insert_ne, entry_ne; [done..|].
    intros [= -> _]. by apply (Hnt R). }
  eexists. split; [exact Hs|]. split_and!; [done| |done].
  intros v Hvr. destruct (Hreg v Hvr) as (w' & Hw' & Hh' & Hnt'). exists w'.
  rewrite Hv by (done || apply key_ok_indexes). split_and!; try done. intros R HR. rewrite Ht by done. by apply Hnt'.
Qed.

Lemma user_store_all_region Rs A pt lo hi bs : ∀ s va,
  world Rs s A → pt_root pt ∈ Rs → user_region Rs s A (pt_root pt) lo hi → hi `mod` 4096 = 0 → hi ≤ 2 ^ 38 →
  lo ≤ va → va + Z.of_nat (length bs) ≤ hi →
  user_store_all pt va bs s = Panic Deadlock ∨
  ∃ s', user_store_all pt va bs s = Ok (tt, s') ∧ world Rs s' A ∧
    ∀ R k, R ∈ Rs → key_ok k → view (st_words s') R k = view (st_words s) R k.
Proof.
  induction bs as [|b bs IH]; intros s va W HP Hreg Hhi Htop Hlo Hlen; [right; by exists s|]. cbn [user_store_all length] in *.
  destruct (user_store_region Rs s A pt va b lo hi W HP Hreg Hhi Htop) as [H|(s1 & Hs1 & W1 & Hreg1 & Hv1)]; [lia| |].
  - left. by apply M_bind_Panic.
  - run Hs1. destruct (IH s1 (va + 1)) as [H|(s2 & Hs2 & W2 & Hv2)]; try done; [lia..|by left|].
    right. exists s2. split_and!; try done. intros R k HR Hk. by rewrite Hv2, Hv1.
Qed.

Context `{!ByteStream D}.

(** [mmap] of a file never returns: the area ends where its guard page begins,
    the byte behind the file's bytes is written there, and the fault handler waits
    for the process lock that [sys_mmap] holds. *)
Theorem mmap_file_hangs Rs K s A self table files h d bs len prot fd offset B :
  exact Rs K s A self → mmap_room self len B → (3 * Z.to_nat (len `div` 4096) ≤ length (f_free A))%nat →
  table_get_mut table fd = Some (Some h) → open_on files h d bs → 0 ≤ fd_pos d ≤ Z.of_nat (length bs) →
  Z.of_nat (length bs) < 2 ^ 64 → 0 ≤ offset ≤ Z.of_nat (length bs) →
  sys_mmap self table files 0 len prot fd offset s = Panic Deadlock.
Proof.
  intros HE Hroom Hfree Hfd Hop Hpos Hbs Hoff. pose proof Hroom as (Hl & Hlm & HB & _).
  destruct (mmap_region Rs K s A self len B HE Hroom) as (v & Hv & Hsub & Hreg & Hlo & Hv38 & Hmm).
  pose proof Hreg as (Hlo1 & Hhi1 & Hb & Hh & _ & Hgap).
  pose proof (region_pages len (v - len) Hl Hlm Hlo1) as Hlen. replace (v - len + len) with v in * by lia.
  destruct (insert_exact Rs K s A self (v - len) v (prot_perm prot) HE Hreg) as
    (s1 & A1 & self1 & m1 & m2 & qs & Hs1 & Hq & HE1 & Hroot & Hm & Har1 & Hnew & _); [lia|].
  set (vpns := range _ _) in *.
  unfold sys_mmap. cbn [negb Z.eqb]. rewrite Hv. run_refl. rewrite Hsub. run_refl. run Hs1. rewrite Hfd. apply M_bind_Panic.
  unfold mmap_file. run_refl. rewrite Hsub. run_refl.
  destruct (fd_seek_open files h d bs offset Hop Hoff) as (files1 & Hseek & Hop1). rewrite Hseek. run_refl. cbn beta iota zeta. run_refl.
  destruct (fd_read_spec files1 h d bs len Hop1) as (k & files2 & Hread & _ & _ & Hk & _); [done..|apply readable_any|lia|].
  rewrite Hread. run_refl. cbn beta iota zeta. run_refl.
  set (data := take k _). assert (Z.of_nat (length data) ≤ len) as Hdata by (unfold data; rewrite length_take; lia).
  destruct (user_store_all_region Rs A1 (page_table self1) (v - len) v data s1 (v - len))
    as [H|(s2 & Hs2 & W2 & Hv2)]; [apply HE1|apply HE1| |done|lia|lia|lia|by apply M_bind_Panic|].
  { intros x Hx. destruct (zip_key vpns qs x) as [q Hin]; [lia|by apply elem_of_range|].
    destruct (Hnew x q Hin) as (Hw & _ & _). destruct (area_pages _ _ _ _ _ _ _ _ _ x q HE1 Har1 Hin) as (_ & _ & Hhq & _ & Hnt).
    exists (pte_new q (Z.lor (prot_perm prot) PTE_VALID)). rewrite Hroot, pte_ppn_new; [done|].
    apply ppn_bound26. destruct (st_rep_ok _ _ (w_rep _ _ _ (sp_world _ _ _ _ _ (ex_ok _ _ _ _ _ HE1)))) as (_ & _ & Hrange).
    destruct Hhq as (c & Hc & _). by apply (Hrange q c). }
  run Hs2. apply M_bind_Panic. unfold user_store. rewrite user_va_in by lia. run_refl.
  erewrite M_bind_eq; [|eapply find_pte_none; [apply W2|apply W2; apply HE1|]]; [done|].
  rewrite Hv2 by (apply HE1 || apply key_ok_indexes). apply (ex_none _ _ _ _ _ HE1); rewrite floor_div.
  - Z.div_mod_to_equations. lia.
  - intros Hx. specialize (Hmm _ Hx). Z.div_mod_to_equations. lia.
  - intros (r & a & Hin & Hka)%pages_key. destruct (vpn_range_bounds _ _ _ (ex_keys _ _ _ _ _ HE1 r a Hin) Hka) as [H1 H2].
    rewrite Har1 in Hin. assert ((r, a) ∈ areas self ∨ r = {| r_start := v - len; r_end := v |}) as [Hin'| ->]
      by (rewrite Hm; set_solver); [destruct (Hgap r a Hin')|cbn in *]; Z.div_mod_to_equations; lia.
Qed.
End theorems.
