(* ===== verification/UserStack.v ===== *)
(** * The initial user stack

    [Process::alloc_user_stack] (kernel/src/process/process.rs) and
    [TrapFrame::init] (kernel/arch/riscv/trap_context.rs): what a program finds on
    its stack and in its registers when it starts.  The kernel writes the stack
    through the linear map, at a fixed distance [user_sp_offset] from the user's
    addresses, which it computes for the topmost page.  Strings are lists of bytes;
    the fields of the ELF header are those the ELF parser (vendor/xmas-elf) gives. *)

From stdpp Require Import gmap fin_maps.
From S2P Require Import Prelude Io Address Memory PhysPage Pte BTree PageTable PageMap World.
From S2P Require Import AddressSpace Cow Spaces SpaceOps Vfs UserMem.

(** ** Writing the stack *)

(** The bytes of a string and the zero behind it *)
Fixpoint write_str (off p : Z) (cs : list Z) : M words unit :=
  match cs with
  | [] => a ← lift (uadd p off); store_byte a 0
  | c :: cs => a ← lift (uadd p off); store_byte a c ;; p ← lift (uadd p 1); write_str off p cs
  end.
(** The loops over the environment and the arguments: the stack pointer and the
    addresses of the strings *)
Fixpoint push_strings (off sp : Z) (strs : list (list Z)) : M words (Z * list Z) :=
  match strs with
  | [] => mret (sp, [])
  | str :: strs =>
      sp ← lift (usub sp (Z.of_nat (length str) + 1));
      write_str off sp str ;;
      '(sp', ptrs) ← push_strings off sp strs;
      mret (sp', sp :: ptrs)
  end.
(** [user_sp -= words.len() * 8], and the words from there on *)
Definition push_words (off sp : Z) (ws : list Z) : M words Z :=
  sp ← lift (usub sp (8 * Z.of_nat (length ws)));
  a ← lift (uadd sp off);
  store_words a ws ;;
  mret sp.

Definition AT_NULL : Z := 0.
Definition AT_PHDR : Z := 3.
Definition AT_PHENT : Z := 4.
Definition AT_PHNUM : Z := 5.
Definition AT_PAGESZ : Z := 6.
Definition AT_BASE : Z := 7.
Definition AT_ENTRY : Z := 9.

Record ElfHeader := { ph_offset_of_table : Z; ph_entry_size : Z; ph_count : Z; entry_point : Z }.

(** The address of the program headers in memory: the first segment that holds them *)
Fixpoint ph_head_addr (headers : list ProgramHeader) (addr : Z) : exec Z :=
  match headers with
  | [] => Ok addr
  | ph :: headers =>
      if ph_load ph && (ph_offset ph <=? addr) then d ← usub (ph_virtual_addr ph) (ph_offset ph); uadd addr d
      else ph_head_addr headers addr
  end.
(** The pairs of the auxiliary vector, word by word *)
Definition auxv (elf : ElfHeader) (phdr : Z) : list Z :=
  [AT_PHDR; phdr; AT_PHENT; ph_entry_size elf; AT_PHNUM; ph_count elf; AT_PAGESZ; 4096; AT_BASE; 0;
   AT_ENTRY; entry_point elf; AT_NULL; 0].

Record Stack := { user_sp : Z; argv_base : Z; envp_base : Z; auxv_base : Z }.

(** Everything below the stack's top *)
Definition build_stack (off top : Z) (arguments environments : list (list Z)) (elf : ElfHeader)
    (headers : list ProgramHeader) : M words Stack :=
  sp ← lift (usub top 8);
  '(sp, envp) ← push_strings off sp environments;
  '(sp, argv) ← push_strings off sp arguments;
  phdr ← lift (ph_head_addr headers (ph_offset_of_table elf));
  sp ← lift (usub sp (sp `mod` 16));
  auxv_base ← push_words off sp (auxv elf phdr);
  envp_base ← push_words off auxv_base (envp ++ [0]);
  argv_base ← push_words off envp_base (argv ++ [0]);
  sp ← push_words off argv_base [Z.of_nat (length arguments)];
  mret {| user_sp := sp; argv_base := argv_base; envp_base := envp_base; auxv_base := auxv_base |}.

(** ** Trap frames *)

Record TrapFrame := { x : list Z; sstatus : Z; sepc : Z }.

(** [Sstatus] (vendor/riscv/src/register/sstatus.rs) *)
Definition set_bit (bits n : Z) (v : bool) : Z := if v then Z.setbit bits n else Z.clearbit bits n.
Inductive SPP := Supervisor | User.
Definition set_spp (bits : Z) (v : SPP) : Z := set_bit bits 8 (match v with Supervisor => true | User => false end).
Definition set_spie (bits : Z) (v : bool) : Z := set_bit bits 5 v.

Definition set_sp (tf : TrapFrame) (v : Z) : TrapFrame :=
  {| x := <[2%nat := v]> (x tf); sstatus := sstatus tf; sepc := sepc tf |}.
Definition set_arguments (tf : TrapFrame) (args : list Z) : exec TrapFrame :=
  ensure (length args <=? 8)%nat ;;
  Ok {| x := list_inserts 10 args (x tf); sstatus := sstatus tf; sepc := sepc tf |}.
(** [sstatus_now] is the value of the register. *)
Definition tf_init (sstatus_now : Z) (tf : TrapFrame) (stack_top entry : Z) (arguments : option (list Z)) (is_user : bool) :
    exec TrapFrame :=
  tf ← set_arguments (set_sp tf stack_top) (default [0; 0; 0; 0] arguments);
  Ok {| x := x tf; sstatus := set_spie (set_spp sstatus_now (if is_user then User else Supervisor)) true; sepc := entry |}.

Section stack.
Context {C : Config} {St : Type} `{!FrameOps St}.

(** [tf] is what the kernel stack holds where the trap frame is built; the task
    context below it, whose return address is set to [ret_to_restore], is left out. *)
Definition alloc_user_stack (self : AddressSpace) (arguments environments : list (list Z)) (elf : ElfHeader)
    (headers : list ProgramHeader) (sstatus_now : Z) (tf : TrapFrame) : M St (AddressSpace * Z * Stack * TrapFrame) :=
  user_stack_top ← lift (alloc_user_area self USER_STACK_SIZE);
  start ← lift (usub user_stack_top USER_STACK_SIZE);
  self ← insert_framed_area self {| r_start := start; r_end := user_stack_top |}
           (Z.lor (Z.lor PTE_READABLE PTE_WRITABLE) PTE_USER) None;
  va ← lift (usub user_stack_top 8);
  o ← translate_va (page_table self) va;
  pa ← lift (unwrap o);
  pa ← lift (uadd pa 8);
  kva ← lift (va_of_pa pa);
  user_sp_offset ← lift (usub kva user_stack_top);
  r ← on_mem (build_stack user_sp_offset user_stack_top arguments environments elf headers);
  tf ← lift (tf_init sstatus_now tf (user_sp r) (entry_point elf)
         (Some [Z.of_nat (length arguments); argv_base r; envp_base r; auxv_base r]) true);
  mret (self, user_stack_top, r, tf).

(** [Process::dealloc_user_stack] *)
Definition dealloc_user_stack (self : AddressSpace) (user_stack_top : Z) : M St AddressSpace :=
  remove_area self user_stack_top.
End stack.

(** ** Bytes and words of memory *)

Definition mem_byte (m : words) (a : Z) : option Z := (λ w, byte_get w (a `mod` 8)) <$> m !! (a - a `mod` 8).

Lemma byte_get_set w k j v : 0 ≤ k < 8 → 0 ≤ j < 8 → 0 ≤ v < 256 →
  byte_get (byte_set w k v) j = if decide (j = k) then v else byte_get w j.
Proof.
  intros Hk Hj Hv. unfold byte_get, byte_set, ushr. change 255 with (Z.ones 8).
  apply Z.bits_inj'. intros i Hi. rewrite Z.land_spec, Z.shiftr_spec, Z.lor_spec, Z.ldiff_spec, !Z.shiftl_spec by lia.
  destruct (Z.ltb_spec i 8) as [H8|H8].
  - rewrite (Z.ones_spec_low 8 i) by lia. rewrite andb_true_r. case_decide as Hjk.
    + subst. rewrite Z.ones_spec_low by lia. cbn [negb]. rewrite andb_false_r. cbn [orb]. f_equal. lia.
    + rewrite Z.land_spec, Z.shiftr_spec, (Z.ones_spec_low 8 i), andb_true_r by lia.
      destruct (Z.ltb_spec j k).
      * rewrite (Z.testbit_neg_r (Z.ones 8)), (Z.testbit_neg_r v) by lia. cbn. by rewrite andb_true_r, orb_false_r.
      * rewrite Z.ones_spec_high by lia. replace (Z.testbit v _) with false; [by cbn; rewrite andb_true_r, orb_false_r|].
        symmetry. apply Z.bits_above_log2; [lia|]. destruct (decide (v = 0)) as [->|]; [cbn; lia|].
        assert (Z.log2 v < 8); [|lia]. apply Z.log2_lt_pow2; lia.
  - rewrite (Z.ones_spec_high 8 i) by lia. rewrite andb_false_r. case_decide.
    + symmetry. apply Z.bits_above_log2; [lia|]. destruct (decide (v = 0)) as [->|]; [cbn; lia|].
      assert (Z.log2 v < 8); [|lia]. apply Z.log2_lt_pow2; lia.
    + by rewrite Z.land_spec, (Z.ones_spec_high 8 i), andb_false_r by lia.
Qed.

(** What a write to [lo, hi) leaves alone: the bytes and the whole words outside, and
    the set of words there are. *)
Record writes_in (m m' : words) (lo hi : Z) : Prop := {
  wi_byte : ∀ a, a < lo ∨ hi ≤ a → mem_byte m' a = mem_byte m a;
  wi_word : ∀ a, a + 8 ≤ lo ∨ hi ≤ a ∨ a `mod` 8 ≠ 0 → m' !! a = m !! a;
  wi_dom : ∀ a, is_Some (m' !! a) ↔ is_Some (m !! a);
}.

Lemma writes_in_trans m m1 m2 l1 h1 l2 h2 lo hi : lo ≤ l1 → h1 ≤ hi → lo ≤ l2 → h2 ≤ hi →
  writes_in m m1 l1 h1 → writes_in m1 m2 l2 h2 → writes_in m m2 lo hi.
Proof.
  intros H1 H2 H3 H4 [B1 W1 D1] [B2 W2 D2]. split; intros a.
  - intros H. rewrite B2, B1 by lia. done.
  - intros H. rewrite W2, W1 by lia. done.
  - by rewrite D2, D1.
Qed.
Lemma writes_in_refl m lo : writes_in m m lo lo.
Proof. by split. Qed.

(** Every word of [lo, hi) is there. *)
Definition region (m : words) (lo hi : Z) : Prop :=
  ∀ a, a `mod` 8 = 0 → lo ≤ a < hi → is_Some (m !! a).

Lemma region_writes m m' lo hi l h : region m lo hi → writes_in m m' l h → region m' lo hi.
Proof. intros Hr [_ _ D] a Ha Hb. apply D. by apply Hr. Qed.

Lemma store_byte_spec m lo hi a v :
  region m lo hi → lo `mod` 8 = 0 → lo ≤ a < hi → 0 ≤ v < 256 →
  ∃ m', store_byte a v m = Ok (tt, m') ∧ writes_in m m' a (a + 1) ∧ mem_byte m' a = Some v.
Proof.
  intros Hr Hlo Ha Hv. destruct (Hr (a - a `mod` 8)) as [w Hw]; [Z.div_mod_to_equations; lia..|].
  exists (<[a - a `mod` 8 := byte_set w (a `mod` 8) v]> m).
  assert (∀ b, mem_byte (<[a - a `mod` 8 := byte_set w (a `mod` 8) v]> m) b = if decide (b = a) then Some v else mem_byte m b) as Hb.
  { intros b. unfold mem_byte. rewrite lookup_insert.
    pose proof (Z.mod_pos_bound a 8). pose proof (Z.mod_pos_bound b 8).
    case_decide as Hab.
    - rewrite <- Hab, Hw. cbn. rewrite byte_get_set by lia. repeat case_decide; try done; exfalso; lia || congruence.
    - rewrite decide_False; [done|]. by intros ->. }
  split; [|split].
  - unfold store_byte. run (load_eq _ _ _ Hw). by apply store_eq; exists w.
  - split.
    + intros b Hab. rewrite Hb, decide_False; [done|lia].
    + intros b Hab. apply lookup_insert_ne. Z.div_mod_to_equations. lia.
    + intros b. rewrite lookup_insert. case_decide as Hab; [subst b; rewrite Hw; split; by eexists|done].
  - by rewrite Hb, decide_True.
Qed.

(** A string and its zero byte, at an address. *)
Definition bytes_at (m : words) (a : Z) (bs : list Z) : Prop :=
  ∀ j c, bs !! j = Some c → mem_byte m (a + Z.of_nat j) = Some c.

Lemma bytes_at_writes m m' a bs lo hi : bytes_at m a bs → writes_in m m' lo hi → hi ≤ a → bytes_at m' a bs.
Proof. intros Hb W Hle j c Hj. rewrite (wi_byte _ _ _ _ W); [by apply Hb|]. right. lia. Qed.

Definition is_str (cs : list Z) : Prop := Forall (λ c, 0 ≤ c < 256) cs.

Lemma write_str_spec lo hi off cs : ∀ p m,
  region m lo hi → lo `mod` 8 = 0 → 0 ≤ p → 0 ≤ off → lo ≤ p + off → p + off + Z.of_nat (length cs) < hi → hi ≤ 2 ^ 64 →
  is_str cs → ∃ m', write_str off p cs m = Ok (tt, m') ∧
    writes_in m m' (p + off) (p + off + Z.of_nat (length cs) + 1) ∧ bytes_at m' (p + off) (cs ++ [0]).
Proof.
  induction cs as [|c cs IH]; intros p m Hr Hlo Hp Hoff Hl Hh Hb Hs; cbn [write_str length] in *; rewrite (uadd_in p off) by lia; run_refl.
  - destruct (store_byte_spec m lo hi (p + off) 0 Hr Hlo) as (m' & Hm & W & Hv); [lia..|].
    exists m'. split; [done|]. split; [by rewrite Z.add_0_r|]. intros [|j] c; cbn; [intros [= <-]; by rewrite Z.add_0_r|done].
  - inversion_clear Hs as [|? ? Hc Hs'].
    destruct (store_byte_spec m lo hi (p + off) c Hr Hlo) as (m1 & Hm1 & W1 & Hv1); [lia..|]. run Hm1.
    rewrite uadd_in by lia. run_refl.
    destruct (IH (p + 1) m1) as (m2 & Hm2 & W2 & Hv2); try done; [by eapply region_writes|lia..|].
    exists m2. split; [done|]. split; [eapply writes_in_trans; [| | | |exact W1|exact W2]; lia|].
    intros [|j] c'; cbn; intros Hj.
    + simplify_eq. rewrite Z.add_0_r, (wi_byte _ _ _ _ W2) by lia. done.
    + specialize (Hv2 j c' Hj). replace (p + off + Z.of_nat (S j)) with (p + 1 + off + Z.of_nat j) by lia. done.
Qed.

(** The room a list of strings takes. *)
Definition strings_size (strs : list (list Z)) : Z := foldr (λ str n, Z.of_nat (length str) + 1 + n) 0 strs.
Lemma strings_size_pos strs : 0 ≤ strings_size strs.
Proof. induction strs as [|str strs IH]; unfold strings_size in *; cbn; lia. Qed.

(** The pointers [ptrs] lead to the strings [strs], between [lo] and [hi]. *)
Definition strings_at (m : words) (off lo hi : Z) (ptrs : list Z) (strs : list (list Z)) : Prop :=
  Forall2 (λ p str, lo ≤ p ∧ p + Z.of_nat (length str) < hi ∧ bytes_at m (p + off) (str ++ [0])) ptrs strs.
Lemma strings_at_writes m m' off lo hi lo' hi' l h ptrs strs :
  strings_at m off lo hi ptrs strs → writes_in m m' l h → h ≤ lo + off → lo' ≤ lo → hi ≤ hi' →
  strings_at m' off lo' hi' ptrs strs.
Proof.
  intros H W Hl H1 H2. eapply Forall2_impl; [exact H|]. intros p str (Hp1 & Hp2 & Hb). split_and!; [lia..|].
  eapply bytes_at_writes; [exact Hb|exact W|lia].
Qed.

Lemma push_strings_spec lo hi off strs : ∀ sp m,
  region m lo hi → lo `mod` 8 = 0 → 0 ≤ off → lo ≤ sp - strings_size strs + off → sp + off ≤ hi → hi ≤ 2 ^ 64 →
  0 ≤ sp - strings_size strs → Forall is_str strs →
  let sp' := sp - strings_size strs in
  ∃ m' ptrs, push_strings off sp strs m = Ok ((sp', ptrs), m') ∧ writes_in m m' (sp' + off) (sp + off) ∧
    strings_at m' off sp' sp ptrs strs.
Proof.
  induction strs as [|str strs IH]; intros sp m Hr Hlo Hoff Hl Hh Hb H0 Hs sp'; cbn [push_strings strings_size foldr] in *.
  { exists m, []. unfold sp'. rewrite Z.sub_0_r. split_and!; [done|apply writes_in_refl|constructor]. }
  fold (strings_size strs) in *. pose proof (strings_size_pos strs). inversion_clear Hs as [|? ? Hs1 Hs2].
  set (sp1 := sp - (Z.of_nat (length str) + 1)).
  rewrite usub_in by lia. run_refl. fold sp1.
  destruct (write_str_spec lo hi off str sp1 m) as (m1 & Hm1 & W1 & Hb1); try done; try (unfold sp1; lia). run Hm1.
  destruct (IH sp1 m1) as (m2 & ptrs & Hm2 & W2 & Hp2); try done; try (unfold sp1; lia); [by eapply region_writes|].
  run Hm2. assert (sp1 - strings_size strs = sp') as Hsp by (unfold sp1, sp'; lia). rewrite Hsp in *.
  exists m2, (sp1 :: ptrs). split; [done|]. split_and!.
  - eapply writes_in_trans; [| | | |exact W1|exact W2]; unfold sp1, sp'; lia.
  - constructor.
    + split_and!; [unfold sp1, sp'; lia..|]. eapply bytes_at_writes; [exact Hb1|exact W2|done].
    + eapply strings_at_writes; [exact Hp2|apply (writes_in_refl m2 (sp' + off))|unfold sp1; lia..].
Qed.

(** Words at an address. *)
Definition words_at (m : words) (a : Z) (ws : list Z) : Prop :=
  ∀ i w, ws !! i = Some w → m !! (a + 8 * Z.of_nat i) = Some w.

Lemma words_at_writes m m' a ws lo hi : words_at m a ws → writes_in m m' lo hi → hi ≤ a → words_at m' a ws.
Proof. intros Hb W Hle i w Hi. rewrite (wi_word _ _ _ _ W); [by apply Hb|]. lia. Qed.
Lemma push_words_spec lo hi off sp ws sp' m :
  sp' = sp - 8 * Z.of_nat (length ws) →
  region m lo hi → 0 ≤ off → 0 ≤ sp' → lo ≤ sp' + off → sp + off ≤ hi → hi ≤ 2 ^ 64 - 1 → (sp + off) `mod` 8 = 0 →
  ∃ m', push_words off sp ws m = Ok (sp', m') ∧ writes_in m m' (sp' + off) (sp + off) ∧ words_at m' (sp' + off) ws.
Proof.
  intros Hsp' Hr Hoff H0 Hl Hh Hb Hal. set (n := Z.of_nat (length ws)) in *.
  assert ((sp' + off) `mod` 8 = 0) as Hal' by (Z.div_mod_to_equations; lia).
  destruct (store_words_spec ws (sp' + off) m) as (m' & Hm & Hin & Hout).
  { intros i Hi. apply Hr; [Z.div_mod_to_equations; lia|lia]. }
  exists m'. split; [|split].
  - unfold push_words. rewrite usub_in by (lia). run_refl. replace (sp - 8 * Z.of_nat (length ws)) with sp' by done. rewrite uadd_in by (lia). run_refl. by run Hm.
  - assert (∀ a, a + 8 ≤ sp' + off ∨ sp + off ≤ a → m' !! a = m !! a) as Hw.
    { intros a Ha. apply Hout. intros i Hi. lia. }
    split; [| |].
    + intros a Ha. unfold mem_byte. rewrite Hw; [done|]. Z.div_mod_to_equations. lia.
    + intros a Ha. apply Hout. intros i Hi. Z.div_mod_to_equations. lia.
    + intros a. set (d := a - (sp' + off)).
      destruct (decide (d `mod` 8 = 0 ∧ 0 ≤ d < 8 * n)) as [[Hd1 Hd2]|Hn].
      * assert (∃ i : nat, (i < length ws)%nat ∧ a = sp' + off + 8 * Z.of_nat i) as (i & Hi & ->).
        { exists (Z.to_nat (d `div` 8)). unfold n, d in *. Z.div_mod_to_equations. lia. }
        destruct (lookup_lt_is_Some_2 ws i Hi) as [w Hw']. rewrite (Hin i w Hw'). split; [|by eexists]. intros _.
        apply Hr; [Z.div_mod_to_equations; lia|lia].
      * rewrite Hout; [done|]. intros i Hi ->. apply Hn. unfold d, n. Z.div_mod_to_equations. lia.
  - done.
Qed.

Lemma words_at_app m a l1 l2 : words_at m a l1 → words_at m (a + 8 * Z.of_nat (length l1)) l2 → words_at m a (l1 ++ l2).
Proof.
  intros H1 H2 i w [Hi|[Hl Hi]]%lookup_app_Some; [by apply H1|].
  specialize (H2 _ _ Hi). rewrite <- H2. f_equal. lia.
Qed.

(** What a program finds: from the stack pointer up, the number of arguments, the
    pointers to them, those to the environment, both ended by zero, and the
    auxiliary vector; and the strings above. *)
Definition stack_image (m : words) (off top : Z) (r : Stack) (arguments environments : list (list Z)) (aux : list Z) : Prop :=
  (∃ argv envp, strings_at m off (user_sp r) top argv arguments ∧ strings_at m off (user_sp r) top envp environments ∧
     words_at m (user_sp r + off) ([Z.of_nat (length arguments)] ++ (argv ++ [0]) ++ (envp ++ [0]) ++ aux)) ∧
  argv_base r = user_sp r + 8 ∧ envp_base r = argv_base r + 8 * (Z.of_nat (length arguments) + 1) ∧
  auxv_base r = envp_base r + 8 * (Z.of_nat (length environments) + 1).

(** The most it takes. *)
Definition stack_size (arguments environments : list (list Z)) : Z :=
  8 + strings_size environments + strings_size arguments + 15 + 8 * 14 +
  8 * (Z.of_nat (length environments) + 1) + 8 * (Z.of_nat (length arguments) + 1) + 8.

Lemma build_stack_spec m lo off top arguments environments elf headers phdr :
  region m lo (top + off) → lo `mod` 8 = 0 → 0 ≤ off → off `mod` 16 = 0 → top `mod` 16 = 0 →
  lo ≤ top - stack_size arguments environments + off → top + off ≤ 2 ^ 64 - 1 →
  0 ≤ top - stack_size arguments environments → Forall is_str arguments → Forall is_str environments →
  ph_head_addr headers (ph_offset_of_table elf) = Ok phdr →
  ∃ m' r, build_stack off top arguments environments elf headers m = Ok (r, m') ∧
    writes_in m m' (user_sp r + off) (top + off) ∧ top - stack_size arguments environments ≤ user_sp r ∧ auxv_base r + 8 * 14 ≤ top ∧
    user_sp r `mod` 16 = 8 * ((Z.of_nat (length arguments) + Z.of_nat (length environments) + 1) `mod` 2) ∧
    stack_image m' off top r arguments environments (auxv elf phdr).
Proof.
  intros Hr Hlo Hoff Hoff16 Htop Hl Hh H0 Ha He Hph. unfold stack_size in *.
  pose proof (strings_size_pos environments). pose proof (strings_size_pos arguments).
  destruct (push_strings_spec lo (top + off) off environments (top - 8) m) as (m1 & envp & R1 & W1 & S1); [done|done|lia..|done|].
  set (sp1 := top - 8 - strings_size environments) in *. assert (sp1 = top - 8 - strings_size environments) as E1 by done. clearbody sp1.
  destruct (push_strings_spec lo (top + off) off arguments sp1 m1) as (m2 & argv & R2 & W2 & S2);
    [by eapply region_writes|done|lia..|done|].
  set (sp2 := sp1 - strings_size arguments) in *. assert (sp2 = sp1 - strings_size arguments) as E2 by done. clearbody sp2.
  assert (∃ sp3, usub sp2 (sp2 `mod` 16) = Ok sp3 ∧ sp2 - 15 ≤ sp3 ≤ sp2 ∧ sp3 `mod` 16 = 0) as (sp3 & R3 & E3 & Hsp3).
  { exists (sp2 - sp2 `mod` 16). pose proof (Z.mod_pos_bound sp2 16). rewrite usub_in by (Z.div_mod_to_equations; lia).
    split_and!; [done|lia..|]. Z.div_mod_to_equations. lia. }
  assert (length envp = length environments ∧ length argv = length arguments) as [Lenv Larg] by (split; by eapply Forall2_length).
  destruct (push_words_spec lo (top + off) off sp3 (auxv elf phdr) (sp3 - 8 * 14) m2) as (m3 & R4 & W4 & S4);
    [done|by do 2 (eapply region_writes; [|done])|lia..|Z.div_mod_to_equations; lia|].
  set (sp4 := sp3 - 8 * 14) in *. assert (sp4 = sp3 - 8 * 14) as E4 by done. clearbody sp4.
  destruct (push_words_spec lo (top + off) off sp4 (envp ++ [0]) (sp4 - 8 * (Z.of_nat (length environments) + 1)) m3) as (m4 & R5 & W5 & S5);
    [rewrite length_app; cbn; lia|by do 3 (eapply region_writes; [|done])|lia..|Z.div_mod_to_equations; lia|].
  set (sp5 := sp4 - _) in *. assert (sp5 = sp4 - 8 * (Z.of_nat (length environments) + 1)) as E5 by done. clearbody sp5.
  destruct (push_words_spec lo (top + off) off sp5 (argv ++ [0]) (sp5 - 8 * (Z.of_nat (length arguments) + 1)) m4) as (m5 & R6 & W6 & S6);
    [rewrite length_app; cbn; lia|by do 4 (eapply region_writes; [|done])|lia..|Z.div_mod_to_equations; lia|].
  set (sp6 := sp5 - _) in *. assert (sp6 = sp5 - 8 * (Z.of_nat (length arguments) + 1)) as E6 by done. clearbody sp6.
  destruct (push_words_spec lo (top + off) off sp6 [Z.of_nat (length arguments)] (sp6 - 8) m5) as (m6 & R7 & W7 & S7);
    [done|by do 5 (eapply region_writes; [|done])|lia..|Z.div_mod_to_equations; lia|].
  exists m6, {| user_sp := sp6 - 8; argv_base := sp6; envp_base := sp5; auxv_base := sp4 |}. cbn [user_sp argv_base envp_base auxv_base].
  assert (writes_in m2 m6 (sp6 - 8 + off) (sp3 + off)) as W26.
  { eapply writes_in_trans; [| | | |exact W4|eapply writes_in_trans; [| | | |exact W5|eapply writes_in_trans; [| | | |exact W6|exact W7]]];
      try reflexivity; lia. }
  assert (writes_in m1 m6 (sp6 - 8 + off) (sp1 + off)) as W16 by (eapply writes_in_trans; [| | | |exact W2|exact W26]; lia).
  split_and!.
  - unfold build_stack. rewrite usub_in by lia. run_refl. run R1. run R2. rewrite Hph. run_refl. rewrite R3. run_refl.
    run R4. run R5. run R6. by run R7.
  - eapply writes_in_trans; [| | | |exact W1|exact W16]; lia.
  - lia.
  - lia.
  - set (n := Z.of_nat (length arguments) + Z.of_nat (length environments) + 1).
    replace (sp6 - 8) with (sp3 - 8 * n - 8 * 16) by lia. clearbody n. clear -Hsp3.
    assert (n `mod` 2 = 0 ∨ n `mod` 2 = 1) as [Hn|Hn] by (Z.div_mod_to_equations; lia); rewrite Hn; Z.div_mod_to_equations; lia.
  - split_and!; [|cbn; lia..]. exists argv, envp. split_and!.
    + eapply strings_at_writes; [exact S2|exact W26|cbn; lia..].
    + eapply strings_at_writes; [exact S1|exact W16|cbn; lia..].
    + cbn [user_sp]. apply words_at_app; [done|]. cbn [length]. replace (sp6 - 8 + off + 8 * Z.of_nat 1) with (sp6 + off) by lia.
      apply words_at_app; [eapply words_at_writes; [exact S6|exact W7|lia]|]. rewrite length_app, Larg. cbn [length].
      replace (sp6 + off + 8 * Z.of_nat (length arguments + 1)) with (sp5 + off) by lia.
      apply words_at_app; [eapply words_at_writes; [eapply words_at_writes; [exact S5|exact W6|lia]|exact W7|lia]|].
      rewrite length_app, Lenv. cbn [length]. replace (sp5 + off + 8 * Z.of_nat (length environments + 1)) with (sp4 + off) by lia.
      eapply words_at_writes; [eapply words_at_writes; [eapply words_at_writes; [exact S4|exact W5|lia]|exact W6|lia]|exact W7|lia].
Qed.

(** ** The stack in the address space *)

Section image.
Context {C : Config} {Cok : ConfigOk C} {Mok : MmioOk C} {St : Type} `{!FrameOps St, !FrameSource St}.
Implicit Types (s : St) (Rs : list Z).

Abbreviation root self := (pt_root (page_table self)).

(** What user code reads at an address of the space with root [P]. *)
Definition user_byte s (P va : Z) : option Z :=
  view (st_words s) P (indexes (floor va)) ≫= λ w, mem_byte (st_words s) (page_va (pte_ppn w) + va `mod` 4096).
Definition user_word s (P va : Z) : option Z :=
  view (st_words s) P (indexes (floor va)) ≫= λ w, st_words s !! (page_va (pte_ppn w) + va `mod` 4096).

(** Memory that differs in one held frame. *)
Lemma st_write_frame s A q (m : words) :
  st_rep s A → held A q →
  (∀ a, (∀ j, idx_ok j → a ≠ page_va q + 8 * j) → m !! a = st_words s !! a) →
  (∀ j, idx_ok j → is_Some (m !! (page_va q + 8 * j))) → st_rep (st_set m s) A.
Proof.
  intros Hrep Hq Hout Hin.
  set (vs := (λ j : nat, default 0 (m !! (page_va q + 8 * Z.of_nat j))) <$> seq 0 512).
  assert (∀ j : nat, (j < 512)%nat → vs !! j = m !! (page_va q + 8 * Z.of_nat j)) as Hvs.
  { intros j Hj. unfold vs. rewrite list_lookup_fmap, lookup_seq_lt by done. cbn.
    destruct (Hin (Z.of_nat j)) as [w Hw]; [unfold idx_ok; lia|]. by rewrite Hw. }
  assert (length vs = 512%nat) as Hl by (unfold vs; by rewrite length_fmap, length_seq).
  destruct (on_mem_store_words A q vs s 0 Hrep Hq) as (s' & Hs & Hrep' & Hi & Ho); [lia|].
  assert (st_words s' = m) as Hm.
  { apply map_eq. intros a. destruct (decide ((a - page_va q) `mod` 8 = 0 ∧ 0 ≤ a - page_va q < 4096)) as [[Ha1 Ha2]|Ha].
    - assert (∃ j : nat, a = page_va q + 8 * Z.of_nat j ∧ (j < 512)%nat) as (j & -> & Hj).
      { exists (Z.to_nat ((a - page_va q) `div` 8)). Z.div_mod_to_equations. lia. }
      destruct (Hin (Z.of_nat j)) as [w Hw]; [unfold idx_ok; lia|]. rewrite Hw. apply (Hi j w). by rewrite Hvs.
    - rewrite Hout, Ho; [done| |].
      + intros j Hj ->. apply Ha. Z.div_mod_to_equations. lia.
      + intros j Hj ->. apply Ha. unfold idx_ok in Hj. Z.div_mod_to_equations. lia. }
  assert (st_set m s = s') as ->; [|done]. unfold on_mem in Hs. destruct (store_words _ _ _) as [[[] w]|]; [|done].
  injection Hs as <-. rewrite st_set_words in Hm. by subst.
Qed.

(** Changes outside the tables keep an exact space. *)
Lemma exact_writes Rs K s s' A self :
  exact Rs K s A self → st_rep s' A →
  (∀ R x j, R ∈ Rs → is_table (st_words s) R x → idx_ok j →
     st_words s' !! (page_va x + 8 * j) = st_words s !! (page_va x + 8 * j)) →
  exact Rs K s' A self ∧ (∀ R k, R ∈ Rs → key_ok k → view (st_words s') R k = view (st_words s) R k).
Proof.
  intros [[W HK HP Hso Hn1 Hn2 Hpg] Hpr Hse Hke Hno] Hrep Hsame.
  destruct (world_tables Rs s A s' A W Hrep) as (W' & Hv & Ht & _); [intros R x HR Hx; by eapply world_table_held|done|].
  split; [|done]. split; try done.
  - split; try done. intros v p Hin. destruct (Hpg v p Hin) as (? & ? & ? & (w & Hw) & Hnt). split; [done|]. split; [done|]. split; [done|]. split.
    + exists w. by rewrite Hv by (done || apply key_ok_indexes).
    + intros R HR. rewrite Ht by done. by apply Hnt.
  - intros v Hvb Hm Hnv. rewrite Hv by (done || apply key_ok_indexes). by apply Hno.
Qed.

(** The stack as the program sees it, in the user half; the strings are above its pointer. *)
Definition user_image s (P : Z) (r : Stack) (arguments environments : list (list Z)) (aux : list Z) : Prop :=
  let cstr p str := user_sp r ≤ p ∧ p + Z.of_nat (length str) < 2 ^ 38 ∧ ∀ j c, (str ++ [0]) !! j = Some c → user_byte s P (p + Z.of_nat j) = Some c in
  ∃ argv envp, Forall2 cstr argv arguments ∧ Forall2 cstr envp environments ∧
    ∀ i w, ([Z.of_nat (length arguments)] ++ (argv ++ [0]) ++ (envp ++ [0]) ++ aux) !! i = Some w →
      user_sp r + 8 * Z.of_nat i < 2 ^ 38 ∧ user_word s P (user_sp r + 8 * Z.of_nat i) = Some w.

Lemma page_va_offset q : page_va q = q * 4096 + KERNEL_MAP_OFFSET.
Proof. rewrite map_offset_ok. unfold page_va. lia. Qed.

(** The topmost page of the stack, written through the linear map, is what the program
    sees there. *)
Lemma top_page_image s P v q w r arguments environments aux :
  v `mod` 4096 = 0 → view (st_words s) P (indexes (v `div` 4096 - 1)) = Some w → pte_ppn w = q →
  v - 4096 ≤ user_sp r → v ≤ 2 ^ 38 →
  stack_image (st_words s) (page_va q + 4096 - v) v r arguments environments aux →
  auxv_base r + 8 * Z.of_nat (length aux) ≤ v →
  user_image s P r arguments environments aux.
Proof.
  intros Hv Hw Hq Hsp Hv38 ((argv & envp & Ha & He & Hws) & Hb1 & Hb2 & Hb3) Htop.
  assert (∀ va, v - 4096 ≤ va < v → floor va = v `div` 4096 - 1 ∧ va `mod` 4096 = va - (v - 4096)) as Hpg.
  { intros va Hva. rewrite floor_div. split; Z.div_mod_to_equations; lia. }
  assert (∀ ptrs strs, strings_at (st_words s) (page_va q + 4096 - v) (user_sp r) v ptrs strs →
    Forall2 (λ p str, user_sp r ≤ p ∧ p + Z.of_nat (length str) < 2 ^ 38 ∧ ∀ j c, (str ++ [0]) !! j = Some c → user_byte s P (p + Z.of_nat j) = Some c) ptrs strs) as Hstr.
  { intros ptrs strs H. eapply Forall2_impl; [exact H|]. intros p str (H1 & H2 & Hb). split; [done|]. split; [lia|]. intros j c Hj.
    apply lookup_lt_Some in Hj as Hlt. rewrite length_app in Hlt. cbn in Hlt.
    destruct (Hpg (p + Z.of_nat j)) as [Hf Hm]; [lia|]. unfold user_byte. rewrite Hf, Hw. cbn. rewrite Hq, Hm.
    rewrite <- (Hb j c Hj). f_equal. lia. }
  exists argv, envp. split; [by apply Hstr|]. split; [by apply Hstr|]. intros i x Hi.
  apply lookup_lt_Some in Hi as Hlt. rewrite !length_app in Hlt. cbn [length] in Hlt.
  apply Forall2_length in Ha, He. rewrite Ha, He in Hlt.
  split; [lia|]. destruct (Hpg (user_sp r + 8 * Z.of_nat i)) as [Hf Hm]; [lia|]. unfold user_word. rewrite Hf, Hw. cbn. rewrite Hq, Hm.
  rewrite <- (Hws i x Hi). f_equal. lia.
Qed.

Lemma frame_region s A q : st_rep s A → held A q → region (st_words s) (page_va q) (page_va q + 4096).
Proof.
  intros Hrep Hq a Ha Hb. assert (∃ j, idx_ok j ∧ a = page_va q + 8 * j) as (j & Hj & ->).
  { exists ((a - page_va q) `div` 8). unfold idx_ok, page_va in *. Z.div_mod_to_equations. lia. }
  destruct (entry_mapped s A q j Hrep Hq Hj) as [x Hx]. by exists x.
Qed.

(** Building the stack in a space whose topmost stack page has the frame [q]. *)
Lemma stack_written Rs K s A self v q perm arguments environments elf headers phdr :
  exact Rs K s A self → v `mod` 4096 = 0 → 4096 ≤ v < 2 ^ 38 → 0 ≤ q < 2 ^ 26 - 1 → held A q →
  view (st_words s) (root self) (indexes (v `div` 4096 - 1)) = Some (pte_new q perm) →
  (∀ R, R ∈ Rs → ¬ is_table (st_words s) R q) →
  Forall is_str arguments → Forall is_str environments → stack_size arguments environments ≤ 4096 →
  ph_head_addr headers (ph_offset_of_table elf) = Ok phdr →
  ∃ s' r, on_mem (build_stack (page_va q + 4096 - v) v arguments environments elf headers) s = Ok (r, s') ∧
    exact Rs K s' A self ∧ user_image s' (root self) r arguments environments (auxv elf phdr) ∧ v - 4096 ≤ user_sp r ∧
    argv_base r = user_sp r + 8 ∧ envp_base r = argv_base r + 8 * (Z.of_nat (length arguments) + 1) ∧
    auxv_base r = envp_base r + 8 * (Z.of_nat (length environments) + 1) ∧
    (∀ R k, R ∈ Rs → key_ok k → view (st_words s') R k = view (st_words s) R k) ∧
    (∀ y j, y ≠ q → idx_ok j → st_words s' !! (page_va y + 8 * j) = st_words s !! (page_va y + 8 * j)).
Proof.
  intros HE Hv4 Hv Hq Hheld Hw Hnt HA Henv Hsize Hph.
  pose proof (w_rep _ _ _ (sp_world _ _ _ _ _ (ex_ok _ _ _ _ _ HE))) as Hrep.
  assert (0 ≤ page_va q ∧ page_va q + 4096 ≤ 2 ^ 64 - 4096 ∧ page_va q `mod` 4096 = 0 ∧ 2 ^ 38 ≤ page_va q) as (Hq0 & Hq1 & Hq2 & Hq3)
    by (unfold page_va; split_and!; [lia|lia|by apply Z.mod_mul|lia]).
  destruct (build_stack_spec (st_words s) (page_va q) (page_va q + 4096 - v) v arguments environments elf headers phdr)
    as (m & r & Hrun & HW & Hsp & Haux & _ & Himg); try done; try lia.
  1: replace (v + _) with (page_va q + 4096) by lia; by eapply frame_region.
  1-3: Z.div_mod_to_equations; lia.
  replace (v + (page_va q + 4096 - v)) with (page_va q + 4096) in HW by lia.
  assert (∀ a, (∀ j, idx_ok j → a ≠ page_va q + 8 * j) → m !! a = st_words s !! a) as Hout.
  { intros a Ha. apply (wi_word _ _ _ _ HW). destruct (decide (a `mod` 8 = 0)) as [Hm|]; [|lia].
    destruct (decide (page_va q ≤ a < page_va q + 4096)) as [Hr|]; [|Z.div_mod_to_equations; lia].
    exfalso. apply (Ha ((a - page_va q) `div` 8)); unfold idx_ok; Z.div_mod_to_equations; lia. }
  assert (st_rep (st_set m s) A) as Hrep'.
  { eapply st_write_frame; [done..|]. intros j Hj. apply (wi_dom _ _ _ _ HW). destruct (entry_mapped s A q j Hrep Hheld Hj) as [w Hw']. by exists w. }
  assert (∀ y j, y ≠ q → idx_ok j → st_words (st_set m s) !! (page_va y + 8 * j) = st_words s !! (page_va y + 8 * j)) as Hoth.
  { intros y j Hy Hj. rewrite st_set_words. apply Hout. intros j' Hj'. apply entry_ne; [done..|]. by intros [= ? _]. }
  destruct (exact_writes Rs K s (st_set m s) A self HE Hrep') as [HE' Hview].
  { intros R y j HR Hy Hj. apply Hoth; [|done]. intros ->. by apply (Hnt R). }
  pose proof Himg as (_ & Hb1 & Hb2 & Hb3).
  exists (st_set m s), r. split; [unfold on_mem; by rewrite Hrun|]. split_and!; try done; [|lia].
  eapply (top_page_image _ _ v q); [done| |apply pte_ppn_new, ppn_bound26; lia|lia|lia|by rewrite st_set_words|cbn; lia].
  rewrite Hview by (apply HE || apply key_ok_indexes). exact Hw.
Qed.

(** The distance between the stack's addresses and the linear map. *)
Lemma stack_offset s A pt v q perm :
  st_rep s A → pt_wf (st_words s) A (pt_root pt) → v `mod` 4096 = 0 → 4096 ≤ v < 2 ^ 38 → 0 ≤ q < 2 ^ 26 - 1 →
  view (st_words s) (pt_root pt) (indexes (v `div` 4096 - 1)) = Some (pte_new q perm) →
  ∃ pa, translate_va pt (v - 8) s = Ok (Some pa, s) ∧ uadd pa 8 = Ok (pa + 8) ∧
    va_of_pa (pa + 8) = Ok (page_va q + 4096) ∧ usub (page_va q + 4096) v = Ok (page_va q + 4096 - v).
Proof.
  intros Hrep Hwf Hv4 Hv Hq Hw. exists (q * 4096 + 4088).
  assert (floor (v - 8) = v `div` 4096 - 1 ∧ (v - 8) `mod` 4096 = 4088) as [Hf Hm].
  { rewrite floor_div. split; Z.div_mod_to_equations; lia. }
  split_and!.
  - rewrite (translate_va_eq s A pt (v - 8) Hrep Hwf), Hf, Hw. cbn. unfold entry_pa.
    by rewrite Hm, pte_ppn_new by (apply ppn_bound26; lia).
  - apply uadd_in. lia.
  - unfold va_of_pa. rewrite page_va_offset, map_offset_ok, uadd_in by lia. f_equal. lia.
  - unfold page_va. by rewrite usub_in by lia.
Qed.

(** The registers of a new trap frame. *)
Lemma tf_init_spec sstatus_now tf sp entry a0 a1 a2 a3 : length (x tf) = 32%nat →
  ∃ tf', tf_init sstatus_now tf sp entry (Some [a0; a1; a2; a3]) true = Ok tf' ∧
    x tf' !! 2%nat = Some sp ∧ take 4 (drop 10 (x tf')) = [a0; a1; a2; a3] ∧ sepc tf' = entry ∧
    Z.testbit (sstatus tf') 8 = false ∧ Z.testbit (sstatus tf') 5 = true.
Proof.
  intros Hx. destruct tf as [l st pc]. cbn [x] in Hx. do 14 (destruct l as [|? l]; [discriminate Hx|]).
  eexists. split; [reflexivity|]. split_and!; [reflexivity..| |]; cbn [sstatus]; unfold set_spie, set_spp, set_bit.
  - rewrite Z.setbit_neq by lia. apply Z.clearbit_eq.
  - apply Z.setbit_eq. lia.
Qed.

(** The stack pointer is not null, and the table is still the same. *)
Lemma alloc_user_stack_spec Rs K s A self arguments environments elf headers phdr sstatus_now tf B :
  exact Rs K s A self → mmap_room self USER_STACK_SIZE B →
  (3 * Z.to_nat (USER_STACK_SIZE `div` 4096) ≤ length (f_free A))%nat → (∀ p, p ∈ f_free A → p < 2 ^ 26 - 1) →
  Forall is_str arguments → Forall is_str environments → stack_size arguments environments ≤ 4096 →
  ph_head_addr headers (ph_offset_of_table elf) = Ok phdr → length (x tf) = 32%nat →
  ∃ s' A' self' top r tf',
    alloc_user_stack self arguments environments elf headers sstatus_now tf s = Ok ((self', top, r, tf'), s') ∧
    root self' = root self ∧ 0 < user_sp r ∧
    exact Rs K s' A' self' ∧ user_image s' (root self) r arguments environments (auxv elf phdr) ∧
    argv_base r = user_sp r + 8 ∧ envp_base r = argv_base r + 8 * (Z.of_nat (length arguments) + 1) ∧
    auxv_base r = envp_base r + 8 * (Z.of_nat (length environments) + 1) ∧
    x tf' !! 2%nat = Some (user_sp r) ∧
    take 4 (drop 10 (x tf')) = [Z.of_nat (length arguments); argv_base r; envp_base r; auxv_base r] ∧
    sepc tf' = entry_point elf ∧ Z.testbit (sstatus tf') 8 = false ∧
    (∀ R k, R ∈ Rs → R ≠ root self → key_ok k → view (st_words s') R k = view (st_words s) R k) ∧
    (∀ y j, held A y → (∀ R, R ∈ Rs → ¬ is_table (st_words s) R y) → idx_ok j →
       st_words s' !! (page_va y + 8 * j) = st_words s !! (page_va y + 8 * j)).
Proof.
  intros HE Hroom Hfree Htop HA Henv Hsize Hph Hx. pose proof Hroom as (Hl & Hlm & _).
  destruct (mmap_region Rs K s A self USER_STACK_SIZE B HE Hroom) as (v & Hv & Hsub & Hreg & Hlo & Hv38 & _).
  pose proof Hreg as (Hlo1 & Hhi1 & Hb & _).
  pose proof (region_pages USER_STACK_SIZE (v - USER_STACK_SIZE) Hl Hlm Hlo1) as Hlen.
  replace (v - USER_STACK_SIZE + USER_STACK_SIZE) with v in Hlen by lia.
  set (perm := Z.lor (Z.lor PTE_READABLE PTE_WRITABLE) PTE_USER).
  destruct (insert_exact Rs K s A self (v - USER_STACK_SIZE) v perm HE Hreg) as
    (s1 & A1 & self1 & m1 & m2 & qs & Hs1 & Hq & HE1 & Hroot & _ & Har1 & Hnew & _ & Hoth & Hdata & _); [lia|].
  set (vpns := range _ _) in *.
  destruct (zip_key vpns qs (v `div` 4096 - 1)) as [q Hin]; [lia|apply elem_of_range; Z.div_mod_to_equations; lia|].
  destruct (Hnew _ _ Hin) as (Hw & _ & Hqf).
  destruct (area_pages _ _ _ _ _ _ _ _ _ _ _ HE1 Har1 Hin) as (_ & _ & Hheld & _ & Hnt).
  assert (4096 ≤ v < 2 ^ 38) as Hvb by (Z.div_mod_to_equations; lia).
  assert (0 ≤ q < 2 ^ 26 - 1) as Hqb.
  { destruct (st_rep_ok _ _ (w_rep _ _ _ (sp_world _ _ _ _ _ (ex_ok _ _ _ _ _ HE)))) as (_ & Hfr & Hrange).
    split; [|by apply Htop]. apply Hfr in Hqf. by apply (Hrange q 0). }
  rewrite <- Hroot in Hw.
  destruct (stack_written Rs K s1 A1 self1 v q (Z.lor perm PTE_VALID) arguments environments elf headers phdr HE1) as
    (s2 & r & Hs2 & HE2 & Himg & Hb0 & Hb1 & Hb2 & Hb3 & Hview & Hwords); try done.
  destruct (tf_init_spec sstatus_now tf (user_sp r) (entry_point elf) (Z.of_nat (length arguments)) (argv_base r) (envp_base r) (auxv_base r) Hx)
    as (tf' & Htf & Hx2 & Hx10 & Hpc & Hspp & _).
  exists s2, A1, self1, v, r, tf'. rewrite Hroot in Himg. split_and!; try done; [|destruct Hroom as (_ & _ & _ & Hd0 & _); lia|..].
  - destruct (stack_offset s1 A1 (page_table self1) v q (Z.lor perm PTE_VALID)) as (pa & H1 & H2 & H3 & H4); try done.
    { apply HE1. } { apply (w_wf _ _ _ (sp_world _ _ _ _ _ (ex_ok _ _ _ _ _ HE1))). apply HE1. }
    unfold alloc_user_stack. rewrite Hv. run_refl. rewrite Hsub. run_refl. run Hs1. rewrite (usub_in v 8) by lia. run_refl.
    run H1. run_refl. rewrite H2. run_refl. rewrite H3. run_refl. rewrite H4. run_refl. run Hs2. rewrite Htf. by run_refl.
  - intros R k HR Hne Hk. rewrite Hview by done. by apply Hoth.
  - intros y j Hy Hny Hj. rewrite Hwords; [by apply Hdata| |done]. intros ->.
    revert Hqf. apply held_not_free; [|done]. eapply st_rep_ok, HE.
Qed.

(** C6: The user stack: with arguments and environment that fit in a page, the program
    starts with its stack pointer at the number of arguments, behind it the
    pointers to the arguments and to the environment and the auxiliary vector, the
    strings zero-terminated where the pointers say, and the same addresses in its
    argument registers; the rest of the memory of all processes is untouched. *)
Theorem user_stack_ready Rs K s A self arguments environments elf headers phdr sstatus_now tf B :
  exact Rs K s A self → mmap_room self USER_STACK_SIZE B →
  (3 * Z.to_nat (USER_STACK_SIZE `div` 4096) ≤ length (f_free A))%nat → (∀ p, p ∈ f_free A → p < 2 ^ 26 - 1) →
  Forall is_str arguments → Forall is_str environments → stack_size arguments environments ≤ 4096 →
  ph_head_addr headers (ph_offset_of_table elf) = Ok phdr → length (x tf) = 32%nat →
  ∃ s' A' self' top r tf',
    alloc_user_stack self arguments environments elf headers sstatus_now tf s = Ok ((self', top, r, tf'), s') ∧
    exact Rs K s' A' self' ∧ user_image s' (root self) r arguments environments (auxv elf phdr) ∧
    argv_base r = user_sp r + 8 ∧ envp_base r = argv_base r + 8 * (Z.of_nat (length arguments) + 1) ∧
    auxv_base r = envp_base r + 8 * (Z.of_nat (length environments) + 1) ∧
    x tf' !! 2%nat = Some (user_sp r) ∧
    take 4 (drop 10 (x tf')) = [Z.of_nat (length arguments); argv_base r; envp_base r; auxv_base r] ∧
    sepc tf' = entry_point elf ∧ Z.testbit (sstatus tf') 8 = false ∧
    (∀ R k, R ∈ Rs → R ≠ root self → key_ok k → view (st_words s') R k = view (st_words s) R k) ∧
    (∀ y j, held A y → (∀ R, R ∈ Rs → ¬ is_table (st_words s) R y) → idx_ok j →
       st_words s' !! (page_va y + 8 * j) = st_words s !! (page_va y + 8 * j)).
Proof.
  intros HE Hroom Hfree Htop HA Henv Hsize Hph Hx.
  destruct (alloc_user_stack_spec Rs K s A self arguments environments elf headers phdr sstatus_now tf B)
    as (s' & A' & self' & top & r & tf' & H & _ & _ & H'); [done..|]. by exists s', A', self', top, r, tf'.
Qed.
End image.
