(* ===== verification/Boot.v ===== *)
(** * A booted memory

    A concrete state of the word memory and the frame allocator: zeroed memory
    behind the kernel image, [PhyPageAllocator::init], and an empty root table.
    The examples of the later files run on it. *)

From S2P Require Import Prelude Address Memory ForwardList PhysPage Pte BTree PageTable PageMap World.
From S2P Require Import AddressSpace Cow Spaces.

(** [n] zero words from [a]. *)
Fixpoint zero_words (a : Z) (n : nat) : words :=
  match n with
  | O => ∅
  | S n => <[a := 0]> (zero_words (a + 8) n)
  end.

Lemma zero_words_lookup n : ∀ a i, (i < n)%nat → zero_words a n !! (a + 8 * Z.of_nat i) = Some 0.
Proof.
  induction n as [|n IH]; intros a i Hi; [lia|]. cbn. rewrite lookup_insert. case_decide; [done|].
  destruct i as [|i]; [lia|].
  replace (a + 8 * Z.of_nat (S i)) with (a + 8 + 8 * Z.of_nat i) by lia. apply IH. lia.
Qed.

Lemma zero_words_mapped a n b k :
  a ≤ b → (b - a) `mod` 8 = 0 → b + 8 * Z.of_nat k ≤ a + 8 * Z.of_nat n →
  mapped (zero_words a n) b k.
Proof.
  intros Hab Hmod Hle i Hi. exists 0.
  assert (b = a + 8 * ((b - a) `div` 8)) as Hb by (pose proof (Z.div_mod (b - a) 8); lia).
  assert (0 ≤ (b - a) `div` 8) by (apply Z.div_pos; lia).
  replace (b + 8 * Z.of_nat i) with (a + 8 * Z.of_nat (Z.to_nat ((b - a) `div` 8) + i)) by lia.
  apply zero_words_lookup. lia.
Qed.

(** A zeroed root table maps nothing. *)
Lemma empty_root `{C : Config} m A root :
  held A root → (∀ j, idx_ok j → m !! (page_va root + 8 * j) = Some 0) →
  pt_wf m A root ∧ (∀ k, key_ok k → view m root k = None) ∧ (∀ x, is_table m root x ↔ x = root).
Proof.
  intros Hroot Hz.
  assert (∀ i l, path_ok (i :: l) → node m root (i :: l) = None) as Hnone.
  { intros i l [Hf _]. apply Forall_cons in Hf as [Hi _]. unfold node. cbn [foldl].
    assert (child m root i = None) as Hc.
    { unfold child, entry. by rewrite Hz. }
    cbn. rewrite Hc. clear. induction l; done. }
  split_and!.
  - split.
    + intros [|i l] p Hl; [by intros [= <-]|]. by rewrite Hnone.
    + intros [|i l] [|i' l'] p Hl Hl'; rewrite ?(Hnone i l), ?(Hnone i' l') by done; done.
  - intros [[i0 i1] i2] (? & ? & ?). unfold view. by rewrite Hnone by (by apply path_ok_2).
  - intros x. split.
    + intros ([|i l] & Hl & Hx); [cbn in Hx; congruence|]. by rewrite Hnone in Hx.
    + intros ->. exists []. split; [apply path_ok_nil|done].
Qed.

(** ** The boot of [n] pages *)

Section boot.
Context {C : Config} {Cok : ConfigOk C}.

(** The last [n] pages of memory, with one page below them for the counts. *)
Definition boot_start (n : nat) : Z := floor MEMORY_END - Z.of_nat n.
Definition boot_mem (n : nat) : kmem :=
  {| kwords := zero_words ((boot_start n - 1) * 4096) (512 * (n + 1));
     kalloc := {| free_list := fl_new; page_usage := 0; start_ppn := 1 |} |}.

(** [init], then a zeroed root table. *)
Definition boot (n : nat) : M kmem PageTableImpl :=
  pp_init (boot_start n * 4096) ((boot_start n - 1) * 4096) ;;
  o ← frame_alloc;
  root ← lift (unwrap o);
  fill_frame root PTE_EMPTY ;;
  mret {| pt_root := root; pt_frames := [] |}.

Definition boot_frames (n : nat) : frames :=
  let p := boot_start n - (2 ^ 52 - 2 ^ 26) in
  {| f_free := seqZ (p + 1) (Z.of_nat n - 1);
     f_rc := <[p := 1]> (f_rc (frames_init p (Z.of_nat n))) |}.

Lemma memory_end_bounds : 2 ^ 52 - 2 ^ 26 ≤ floor MEMORY_END ≤ 2 ^ 52 - 2 ^ 18.
Proof.
  destruct memory_ok as (H1 & H2 & H3). rewrite map_offset_ok in H1. rewrite floor_div.
  unfold MEMORY_END in *. split.
  - apply Z.div_le_lower_bound; lia.
  - apply Z.div_le_upper_bound; lia.
Qed.

Lemma boot_mapped n vpn :
  boot_start n ≤ vpn < floor MEMORY_END → mapped (kwords (boot_mem n)) (vpn * 4096) 512.
Proof.
  intros Hv. apply zero_words_mapped; [lia| |].
  - replace (vpn * 4096 - _) with ((vpn - (boot_start n - 1)) * 512 * 8) by lia. by apply Z.mod_mul.
  - unfold boot_start in *. lia.
Qed.

Lemma boot_init n :
  (0 < n ≤ 512)%nat → 2 ^ 52 - 2 ^ 26 ≤ boot_start n →
  ∃ s0, pp_init (boot_start n * 4096) ((boot_start n - 1) * 4096) (boot_mem n) = Ok (tt, s0) ∧
    frames_rep s0 (frames_init (boot_start n - (2 ^ 52 - 2 ^ 26)) (Z.of_nat n)).
Proof.
  intros Hn Hs. pose proof memory_end_bounds as Hend.
  destruct (pp_init_rep (boot_mem n) (boot_start n * 4096) ((boot_start n - 1) * 4096) (boot_start n))
    as (s0 & Hi & Hrep).
  - apply ceil_Ok. unfold boot_start in *. split_and!; [lia..|].
    rewrite Z.add_comm, Z.div_add by lia. by rewrite (Z.div_small 4095) by lia.
  - unfold boot_start in *. lia.
  - done.
  - intros vpn Hv. by apply boot_mapped.
  - apply zero_words_mapped; [lia|by rewrite Z.sub_diag|]. unfold boot_start in *. lia.
  - unfold boot_start in *. lia.
  - exists s0. replace (floor MEMORY_END - boot_start n) with (Z.of_nat n) in * by (unfold boot_start; lia).
    done.
Qed.

(** Booting succeeds with an empty address map and [n - 1] free frames. *)
Lemma boot_spec n :
  (0 < n ≤ 512)%nat → 2 ^ 52 - 2 ^ 26 ≤ boot_start n →
  ∃ s pt, boot n (boot_mem n) = Ok (pt, s) ∧ st_rep s (boot_frames n) ∧
    pt_root pt = boot_start n - (2 ^ 52 - 2 ^ 26) ∧
    pt_wf (st_words s) (boot_frames n) (pt_root pt) ∧
    (∀ k, key_ok k → view (st_words s) (pt_root pt) k = None) ∧
    (∀ x, is_table (st_words s) (pt_root pt) x ↔ x = pt_root pt).
Proof.
  intros Hn Hs. destruct (boot_init n Hn Hs) as (s0 & Hi & Hrep).
  set (p := boot_start n - (2 ^ 52 - 2 ^ 26)) in *.
  assert (frames_alloc (frames_init p (Z.of_nat n)) = Some (p, boot_frames n)) as Ha.
  { unfold frames_alloc.
    replace (f_free (frames_init p (Z.of_nat n))) with (p :: seqZ (p + 1) (Z.of_nat n - 1)); [done|].
    cbn [f_free frames_init]. rewrite (seqZ_cons p) by lia. by rewrite Z.add_1_r, Z.sub_1_r. }
  assert (st_rep s0 (frames_init p (Z.of_nat n))) as Hrep' by exact Hrep.
  destruct (frame_alloc_some s0 _ _ _ Hrep' Ha) as (s1 & Hs1 & Hrep1 & _).
  assert (held (boot_frames n) p) as Hp.
  { exists 1. split; [|lia]. cbn. apply lookup_insert_eq. }
  destruct (fill_frame_spec s1 _ p PTE_EMPTY Hrep1 Hp) as (s2 & Hs2 & Hrep2 & Hz & _).
  destruct (empty_root (st_words s2) (boot_frames n) p Hp Hz) as (? & ? & ?).
  exists s2, {| pt_root := p; pt_frames := [] |}. split_and!; try done.
  unfold boot. run Hi. run Hs1. run_refl. by run Hs2.
Qed.
End boot.

(** ** Examples on the QEMU board, with sixteen pages *)

Section examples.
#[local] Existing Instance qemu_config.

Definition demo : kmem :=
  match boot 16 (boot_mem 16) with Ok (_, s) => s | Panic _ => boot_mem 16 end.
Definition demo_pt : PageTableImpl :=
  match boot 16 (boot_mem 16) with
  | Ok (pt, _) => pt
  | Panic _ => {| pt_root := 0; pt_frames := [] |}
  end.

Lemma demo_ok :
  st_rep demo (boot_frames 16) ∧ pt_wf (st_words demo) (boot_frames 16) (pt_root demo_pt) ∧
  (∀ k, key_ok k → view (st_words demo) (pt_root demo_pt) k = None) ∧
  (∀ x, is_table (st_words demo) (pt_root demo_pt) x ↔ x = pt_root demo_pt).
Proof.
  destruct (boot_spec 16) as (s & pt & Hb & ? & _ & ? & ? & ?); [lia|by vm_compute|].
  unfold demo, demo_pt. rewrite Hb. split_and!; assumption.
Qed.

Lemma demo_unmapped vpn : view (st_words demo) (pt_root demo_pt) (indexes vpn) = None.
Proof. destruct demo_ok as (_ & _ & H & _). apply H, key_ok_indexes. Qed.

Lemma demo_rep : st_rep demo (boot_frames 16).
Proof. by destruct demo_ok. Qed.

Lemma demo_wf : pt_wf (st_words demo) (boot_frames 16) (pt_root demo_pt).
Proof. by destruct demo_ok as (_ & ? & _). Qed.

Lemma demo_free : length (f_free (boot_frames 16)) = 15%nat.
Proof. reflexivity. Qed.

#[local] Opaque demo demo_pt.

Lemma linear_map_roundtrip_witness :
  ∃ va vpn, va_of_pa 0x80001234 = Ok va ∧ pa_of_va va = Ok 0x80001234 ∧
    vpn_of_ppn (floor 0x80001234) = Ok vpn ∧ ppn_of_vpn vpn = Ok (floor 0x80001234) ∧
    floor va = vpn ∧ page_offset va = page_offset 0x80001234 ∧
    addr_of_pn vpn + page_offset 0x80001234 = va.
Proof. apply linear_map_roundtrip. lia. Defined.

Lemma vpn_range_covers_witness :
  3 ∈ [1; 2; 3] ↔ ∃ a, 0x1800 ≤ a < 0x3001 ∧ floor a = 3.
Proof.
  apply (vpn_range_covers {| r_start := 0x1800; r_end := 0x3001 |}); [cbn; lia|by vm_compute].
Defined.

Lemma pte_roundtrip_witness :
  pte_ppn (pte_new 0x80456 0x1f) = 0x80456 ∧
  pte_set_ppn (pte_new 0x80456 0x1f) 0x80457 = pte_new 0x80457 0x1f.
Proof.
  destruct (pte_roundtrip 0x80456 0x80457 0x1f) as (H1 & _ & _ & H2 & _);
    [split; by vm_compute|split; by vm_compute|lia|]. by split.
Defined.

Lemma frame_allocator_init_witness :
  ∃ s0 sk, pp_init (boot_start 16 * 4096) ((boot_start 16 - 1) * 4096) (boot_mem 16) = Ok (tt, s0) ∧
    fops_run (replicate 3 FAlloc) s0 =
      Ok ([RFrame (Some 0x807f0); RFrame (Some 0x807f1); RFrame (Some 0x807f2)], sk).
Proof.
  destruct (frame_allocator_init (boot_mem 16) (boot_start 16 * 4096) ((boot_start 16 - 1) * 4096)
    (boot_start 16) 3) as (s0 & sk & H1 & _ & H2).
  - by vm_compute.
  - split; by vm_compute.
  - done.
  - intros vpn Hv. by apply boot_mapped.
  - apply zero_words_mapped; [done..|]. by vm_compute.
  - by vm_compute.
  - by vm_compute.
  - exists s0, sk. split; [exact H1|exact H2].
Defined.

Lemma frame_allocator_refines_witness :
  ∃ s', fops_run [FAlloc; FClone 0x807f1; FRefs 0x807f1; FDrop 0x807f1; FDrop 0x807f1] demo =
        Ok ([RFrame (Some 0x807f1); RUnit; RCount 2; RUnit; RUnit], s').
Proof.
  edestruct (frame_allocator_refines demo (boot_frames 16)
    (frames_drop 0x807f1 1 (frames_drop 0x807f1 2 (frames_clone 0x807f1 1
       {| f_free := seqZ 0x807f2 14; f_rc := <[0x807f1 := 1]> (f_rc (boot_frames 16)) |})))
    [FAlloc; FClone 0x807f1; FRefs 0x807f1; FDrop 0x807f1; FDrop 0x807f1]
    [RFrame (Some 0x807f1); RUnit; RCount 2; RUnit; RUnit]) as (s' & H & _).
  - apply demo_rep.
  - econstructor; [apply fstep_some; by vm_compute|].
    econstructor; [apply fstep_clone; [by vm_compute|lia]|].
    econstructor; [apply fstep_refs; [by vm_compute|lia]|].
    econstructor; [apply fstep_drop; [by vm_compute|lia]|].
    econstructor; [apply fstep_drop; [by vm_compute|lia]|]. constructor.
  - by exists s'.
Defined.

Lemma double_free_panics_witness :
  pp_dealloc 0x807f1 demo = Panic AssertFailed ∧ pp_clone 0x807f1 demo = Panic AssertFailed.
Proof.
  apply (double_free_panics demo (boot_frames 16)); [apply demo_rep|].
  apply elem_of_seqZ. by vm_compute.
Defined.

Lemma map_one_translates_witness :
  ∃ s' pt', map_one demo_pt 5 7 PTE_READABLE demo = Ok (pt', s') ∧
    translate_va pt' (5 * 4096 + 3) s' = Ok (Some (7 * 4096 + 3), s').
Proof.
  destruct (map_one_translates demo (boot_frames 16) demo_pt 5 7 PTE_READABLE)
    as (s' & A' & pt' & H & _ & _ & Ht & _).
  - apply demo_rep.
  - apply demo_wf.
  - apply demo_unmapped.
  - split; by vm_compute.
  - rewrite demo_free. lia.
  - exists s', pt'. split; [done|]. by destruct (Ht (5 * 4096 + 3)) as (r & _ & ->).
Defined.

Lemma page_table_misuse_panics_witness :
  unmap_one demo_pt 5 demo = Panic UnwrapNone.
Proof.
  destruct (page_table_misuse_panics demo (boot_frames 16) demo_pt 5 7 PTE_READABLE) as [_ H].
  - apply demo_rep.
  - apply demo_wf.
  - rewrite demo_free. lia.
  - apply H, demo_unmapped.
Defined.

Lemma map_unmap_roundtrip_witness :
  ∃ s1 pt' s2, map_one demo_pt 5 7 PTE_READABLE demo = Ok (pt', s1) ∧ unmap_one pt' 5 s1 = Ok (tt, s2) ∧
    view (st_words s2) (pt_root pt') (indexes 5) = None.
Proof.
  destruct (map_unmap_roundtrip demo (boot_frames 16) demo_pt 5 7 PTE_READABLE)
    as (s1 & pt' & s2 & A' & H1 & H2 & _ & _ & Hv).
  - apply demo_rep.
  - apply demo_wf.
  - apply demo_unmapped.
  - split; by vm_compute.
  - rewrite demo_free. lia.
  - exists s1, pt', s2. split_and!; [done..|]. rewrite Hv. apply demo_unmapped.
Defined.

Lemma map_framed_area_witness :
  ∃ s' pt' area' q, pt_map demo_pt {| r_start := 0x5000; r_end := 0x7000 |} (new_area Framed PTE_USER)
      None demo = Ok ((pt', area'), s') ∧ bt_get Z.compare 6 (data_frames area') = Some q.
Proof.
  destruct (map_framed_area demo (boot_frames 16) demo_pt {| r_start := 0x5000; r_end := 0x7000 |}
    [5; 6] PTE_USER) as (s' & A' & pt' & area' & H & _ & _ & _ & Hq & _).
  - apply demo_rep.
  - apply demo_wf.
  - by vm_compute.
  - by vm_compute.
  - rewrite demo_free. cbn. lia.
  - intros vpn _. apply demo_unmapped.
  - destruct (Hq 6) as (q & Hq' & _); [by right; left|].
    exists s', pt', area', q. split; assumption.
Defined.

(** The result of a run. *)
Definition run_or {A} (d : A) (r : exec A) : A := match r with Ok a => a | Panic _ => d end.

(** A process with one writable page at 0x5000. *)
Definition demo_range : VARange := {| r_start := 0x5000; r_end := 0x6000 |}.
Definition demo_perm : Z := Z.lor PTE_READABLE (Z.lor PTE_WRITABLE PTE_USER).
Definition demo_process : M kmem AddressSpace :=
  self ← new_kernel (pt_root demo_pt); insert_framed_area self demo_range demo_perm None.
Definition demo_run : AddressSpace * kmem :=
  run_or ({| page_table := demo_pt; areas := []; data_segment_end := 1; data_segment_max := 1 |}, demo) (demo_process demo).

Lemma demo_world : world [pt_root demo_pt] demo (boot_frames 16).
Proof.
  split; [apply demo_rep|..].
  - intros R HR. apply list_elem_of_singleton in HR as ->. apply demo_wf.
  - intros P Q HP HQ. apply list_elem_of_singleton in HP as ->.
    apply list_elem_of_singleton in HQ as ->. intros []. reflexivity.
Qed.

Lemma demo_space :
  ∃ Rs A p, space_ok Rs (pt_root demo_pt) demo_run.2 A demo_run.1 ∧
    areas demo_run.1 = [(demo_range, {| data_frames := [(5, p)]; map_type := Framed;
                                        map_perm := demo_perm |})] ∧
    (6 ≤ length (f_free A))%nat.
Proof.
  destruct (new_kernel_ok [pt_root demo_pt] (pt_root demo_pt) demo (boot_frames 16))
    as (s1 & A1 & self & Hs1 & Hok1 & Har1 & Hv1 & Hf1 & _).
  - apply demo_world.
  - by left.
  - rewrite demo_free. change (length mmio_vpns) with 1%nat. lia.
  - rewrite demo_free in Hf1. change (length mmio_vpns) with 1%nat in Hf1.
    destruct (insert_framed_area_ok _ (pt_root demo_pt) s1 A1 self demo_range demo_perm [5] [] [] Hok1)
      as (s2 & A2 & self2 & qs & Hs2 & Hlen & Hok2 & _ & Har2 & _ & _ & _ & _ & _ & _ & _ & Hf2 & _).
    + exact Har1.
    + apply proper_nil.
    + constructor.
    + unfold demo_range. cbn. lia.
    + intros e He. destruct (not_elem_of_nil e He).
    + intros e He. destruct (not_elem_of_nil e He).
    + reflexivity.
    + intros v Hv. apply list_elem_of_singleton in Hv as ->. split; [lia|].
      assert (5 ∉ mmio_vpns) as Hm by (apply (bool_decide_unpack _); by vm_compute).
      split; [exact Hm|]. apply Hv1; [lia|exact Hm].
    + cbn [length]. lia.
    + cbn [length] in *. destruct qs as [|p [|]]; [discriminate Hlen| |discriminate Hlen].
      assert (demo_run = (self2, s2)) as ->.
      { unfold demo_run. assert (demo_process demo = Ok (self2, s2)) as ->; [|reflexivity].
        unfold demo_process. rewrite (M_bind_eq _ _ _ _ _ Hs1). exact Hs2. }
      exists (pt_root (page_table self) :: [pt_root demo_pt]), A2, p. split; [exact Hok2|].
      split; [exact Har2|]. lia.
Qed.

Lemma fork_shares_pages_witness :
  ∃ s' child p, fork (pt_root demo_pt) demo_run.1 demo_run.2 = Ok (child, s') ∧
    ∃ w, view (st_words s') (pt_root (page_table child)) (indexes 5) = Some w ∧ pte_ppn w = p ∧
      Z.testbit w 2 = false.
Proof.
  destruct demo_space as (Rs & A & p & Hok & Har & Hf).
  destruct (fork_shares_pages Rs (pt_root demo_pt) demo_run.2 A demo_run.1 Hok)
    as (s' & A' & child & Hs & _ & _ & Hpg & _).
  - rewrite Har. cbn [all_frames flat_map data_frames snd app length].
    change (length mmio_vpns) with 1%nat. lia.
  - edestruct (Hpg demo_range) as [(w & Hw & Hp & Hbits) _].
    + rewrite Har. by left.
    + cbn. by left.
    + split; by vm_compute.
    + exists s', child, p. split; [exact Hs|]. exists w. split; [exact Hw|]. split; [exact Hp|].
      by destruct Hbits.
Defined.

Lemma cow_isolation_witness :
  ∃ child s1 who s2 p q, fork (pt_root demo_pt) demo_run.1 demo_run.2 = Ok (child, s1) ∧
    handle_pagefault child 0x5123 s1 = Ok (who, s2) ∧ p ≠ q ∧
    ∀ j, idx_ok j →
      st_words s2 !! (page_va q + 8 * j) = st_words demo_run.2 !! (page_va p + 8 * j).
Proof.
  destruct demo_space as (Rs & A & p & Hok & Har & Hf).
  destruct (cow_isolation Rs (pt_root demo_pt) demo_run.2 A demo_run.1 0x5123 demo_range
    {| data_frames := [(5, p)]; map_type := Framed; map_perm := demo_perm |} p Hok)
    as (child & s1 & Hs1 & H).
  - rewrite Har. cbn [all_frames flat_map data_frames snd app length].
    change (length mmio_vpns) with 1%nat. lia.
  - rewrite Har. reflexivity.
  - reflexivity.
  - reflexivity.
  - split; by vm_compute.
  - destruct (H child demo_run.1) as (who & s2 & A2 & q & w & w' & Hs2 & _ & Hne & _ & _ & _ & _ & _ & _ & Hj).
    { right. split; reflexivity. }
    exists child, s1, who, s2, p, q. split; [exact Hs1|]. split; [exact Hs2|]. split; [exact Hne|].
    intros j Hi. by apply Hj.
Defined.

Lemma alloc_user_area_guarded_witness :
  ∃ v, alloc_user_area {| page_table := demo_pt;
      areas := [(demo_range, new_area Framed demo_perm)];
      data_segment_end := 1; data_segment_max := 0x1000 |} 0x4000 = Ok v ∧ v - 0x4000 = 0x7000.
Proof.
  destruct (alloc_user_area_guarded {| page_table := demo_pt;
      areas := [(demo_range, new_area Framed demo_perm)];
      data_segment_end := 1; data_segment_max := 0x1000 |} 0x4000 0x10000)
    as (v & Hv & _).
  - lia.
  - reflexivity.
  - lia.
  - cbn. lia.
  - reflexivity.
  - intros k Hk. apply list_elem_of_singleton in Hk as ->. cbn. lia.
  - repeat constructor.
  - exists v. split; [exact Hv|]. vm_compute in Hv. injection Hv as <-. reflexivity.
Defined.
End examples.
