(* ===== verification/MemSample.v ===== *)
(** * A process on a small machine

    The theorems on the memory system calls applied to a process of the QEMU board
    with a one-page heap, in sixteen pages of memory. *)

From stdpp Require Import gmap fin_maps.
From Stdlib Require Import Sorted.
From S2P Require Import Prelude Io FatIo Address Memory PhysPage Pte BTree PageTable PageMap World.
From S2P Require Import AddressSpace Cow Spaces SpaceOps Vfs UserMem Boot.

Section examples.
#[local] Existing Instance qemu_config.
#[local] Opaque demo demo_pt.

(** The data segment is the page at 0x1000, and may grow to 0x4000. *)
Definition heap_range : VARange := {| r_start := 0x1000; r_end := 0x2000 |}.
Definition heap_process : M kmem AddressSpace :=
  self ← new_kernel (pt_root demo_pt);
  self ← insert_framed_area self heap_range demo_perm None;
  mret (with_segment self 0x2000 0x4000).
Definition heap_run : AddressSpace * kmem :=
  run_or ({| page_table := demo_pt; areas := []; data_segment_end := 1; data_segment_max := 1 |}, demo) (heap_process demo).

Lemma with_segment_exact Rs K (s : kmem) A self e m : exact Rs K s A self → exact Rs K s A (with_segment self e m).
Proof. intros [[] ? ? ? ?]. split; [by split|done..]. Qed.

(** The devices of the board are above 0x10000000. *)
Lemma qemu_mmio v : v ∈ mmio_vpns → 0x10001 ≤ v.
Proof.
  change mmio_vpns with (range 0x10001 0x10002).
  intros Hv%elem_of_range. lia.
Qed.

Lemma heap_exact : ∃ Rs A q,
  exact Rs (pt_root demo_pt) heap_run.2 A heap_run.1 ∧
  areas heap_run.1 = [(heap_range, {| data_frames := [(1, q)]; map_type := Framed; map_perm := demo_perm |})] ∧
  data_segment_end heap_run.1 = 0x2000 ∧ data_segment_max heap_run.1 = 0x4000 ∧
  (9 ≤ length (f_free A))%nat ∧ f_free A ⊆ f_free (boot_frames 16).
Proof.
  destruct (new_kernel_exact [pt_root demo_pt] (pt_root demo_pt) demo (boot_frames 16))
    as (s1 & A1 & self & Hs1 & HE1 & Har1 & Hf1 & Hsub1); [apply demo_world|by left| |].
  { rewrite demo_free. change (length mmio_vpns) with 1%nat. lia. }
  rewrite demo_free in Hf1. change (length mmio_vpns) with 1%nat in Hf1.
  destruct (insert_exact _ _ s1 A1 self 0x1000 0x2000 demo_perm HE1)
    as (s2 & A2 & self2 & m1 & m2 & qs & Hs2 & Hlen & HE2 & _ & Hm & Har2 & _ & _ & _ & _ & _ & Hf2 & Hsub2).
  { split; [reflexivity|]. split; [reflexivity|]. split; [lia|]. split; [lia|]. split.
    - intros v Hv%qemu_mmio. lia.
    - rewrite Har1. intros r a Hin. destruct (not_elem_of_nil _ Hin). }
  { change (range _ _) with [1]. cbn [length]. lia. }
  change (range _ _) with [1] in *. cbn [length] in *. destruct qs as [|q [|]]; [discriminate Hlen| |discriminate Hlen].
  rewrite Har1 in Hm. symmetry in Hm. apply app_nil in Hm as [-> ->].
  assert (heap_run = (with_segment self2 0x2000 0x4000, s2)) as ->.
  { unfold heap_run. assert (heap_process demo = Ok (with_segment self2 0x2000 0x4000, s2)) as ->; [|reflexivity].
    unfold heap_process. rewrite (M_bind_eq _ _ _ _ _ Hs1). unfold heap_range. rewrite (M_bind_eq _ _ _ _ _ Hs2). reflexivity. }
  exists (pt_root (page_table self) :: [pt_root demo_pt]), A2, q. cbn [fst snd].
  split; [apply with_segment_exact; exact HE2|]. split; [exact Har2|]. split; [reflexivity|]. split; [reflexivity|]. split; [lia|].
  intros y Hy. apply Hsub1, Hsub2, Hy.
Qed.

Lemma heap_room : mmap_room heap_run.1 0x1000 0x4000.
Proof.
  destruct heap_exact as (Rs & A & q & _ & Har & _ & Hmax & _ & _). split; [lia|]. split; [reflexivity|]. split; [lia|].
  rewrite Hmax. split; [lia|]. split; [reflexivity|]. split.
  - intros r a. rewrite Har. intros [= -> ->]%list_elem_of_singleton. cbn. lia.
  - intros v Hv%qemu_mmio. lia.
Qed.

Lemma mmap_munmap_roundtrip_witness : ∃ start self1 s1 self2 s2,
  sys_mmap heap_run.1 [] shared_file 0 0x1000 PROT_READ (-1) 0 heap_run.2 = Ok ((self1, shared_file, start), s1) ∧
  0x5000 ≤ start ∧ sys_munmap self1 start 0x1000 s1 = Ok ((self2, 0), s2) ∧ areas self2 = areas heap_run.1 ∧
  ∃ A1 A2 q, f_free A2 ≡ₚ q :: f_free A1.
Proof.
  destruct heap_exact as (Rs & A & q & HE & Har & _ & Hmax & Hf & _).
  destruct (mmap_munmap_roundtrip Rs (pt_root demo_pt) heap_run.2 A heap_run.1 [] shared_file 0x1000 PROT_READ (-1) 0 0x4000 HE heap_room)
    as (start & s1 & A1 & self1 & qs & Hs1 & _ & Hlo & _ & Hq & _ & Hun).
  - reflexivity.
  - change (Z.to_nat _) with 1%nat. lia.
  - destruct (Hun start 0x1000) as (s2 & A2 & self2 & Hs2 & _ & Har2 & _ & _ & _ & Hfr & _); [lia|].
    exists start, self1, s1, self2, s2. split; [exact Hs1|]. split; [rewrite Hmax in Hlo; lia|]. split; [exact Hs2|]. split; [exact Har2|].
    destruct qs as [|q' [|]]; [discriminate Hq| |discriminate Hq]. exists A1, A2, q'. exact Hfr.
Defined.

Lemma mmap_file_hangs_witness :
  sys_mmap heap_run.1 [Some 5] shared_file 0 0x1000 PROT_READ 0 0 heap_run.2 = Panic Deadlock.
Proof.
  destruct heap_exact as (Rs & A & q & HE & _ & _ & _ & Hf & _).
  apply (mmap_file_hangs Rs (pt_root demo_pt) heap_run.2 A heap_run.1 [Some 5] shared_file 5
    {| flags := WRONLY; fd_pos := 1; vnode := 1 |} [10; 11; 12; 13] 0x1000 PROT_READ 0 0 0x4000 HE heap_room).
  - change (Z.to_nat _) with 1%nat. lia.
  - reflexivity.
  - exact shared_open.
  - cbn. lia.
  - cbn. lia.
  - cbn. lia.
Defined.

Lemma heap_heap top : 0x2000 ≤ top ≤ 0x4000 → ∃ q,
  heap_area heap_run.1 [] heap_range {| data_frames := [(1, q)]; map_type := Framed; map_perm := demo_perm |} [] top.
Proof.
  intros Ht. destruct heap_exact as (Rs & A & q & _ & Har & Hend & _). exists q. split; [exact Har|].
  split; [rewrite Hend; reflexivity|]. split; [cbn; lia|]. split; [lia|]. split.
  - intros e He. destruct (not_elem_of_nil _ He).
  - intros v Hv%qemu_mmio. right. lia.
Qed.

Lemma brk_heap_witness : ∃ self' s', sys_brk heap_run.1 0x2800 heap_run.2 = Ok ((self', 0x2800), s') ∧
  sys_brk heap_run.1 0 heap_run.2 = Ok ((heap_run.1, 0x2000), heap_run.2).
Proof.
  destruct heap_exact as (Rs & A & q0 & HE & _ & _ & Hmax & Hf & _). destruct (heap_heap 0x2800) as [q Hh]; [lia|].
  destruct (brk_heap Rs (pt_root demo_pt) heap_run.2 A heap_run.1 _ _ _ _ 0x2800 HE Hh) as [H0 H1].
  - cbn. lia.
  - change (range _ _) with [2]. cbn [length]. lia.
  - rewrite Hmax in H1. destruct H1 as (s' & A' & self' & qs & Hs & _). exists self', s'. split; [exact Hs|exact H0].
Defined.

Lemma brk_shrink_panics_witness : ∃ self1, sys_brk heap_run.1 0x1000 heap_run.2 = Ok ((self1, 0x1000), heap_run.2) ∧
  sys_brk self1 0x1800 heap_run.2 = Panic AssertFailed.
Proof.
  destruct heap_exact as (Rs & A & q0 & HE & _ & _ & Hmax & Hf & _). destruct (heap_heap 0x4000) as [q Hh]; [lia|].
  destruct (brk_shrink_panics Rs (pt_root demo_pt) heap_run.2 A heap_run.1 _ _ _ _ 0x4000 0x1000 0x1800 HE Hh)
    as (self1 & H1 & _ & _ & H2); try (rewrite Hmax; lia); try (cbn; lia); try reflexivity.
  exists self1. split; [exact H1|exact H2].
Defined.
End examples.
