(* ===== verification/StackSample.v ===== *)
(** * Stacks of two programs

    The initial stack of a program with two arguments, and of one with an argument
    longer than a page, on the QEMU board with sixteen pages of memory. *)

From stdpp Require Import gmap fin_maps.
From S2P Require Import Prelude Io Address Memory PhysPage Pte BTree PageTable PageMap World.
From S2P Require Import AddressSpace Cow Spaces SpaceOps Vfs UserMem UserStack Boot MemSample.

Section examples.
#[local] Existing Instance qemu_config.

Definition demo_elf : ElfHeader := {| ph_offset_of_table := 64; ph_entry_size := 56; ph_count := 1; entry_point := 0x1000 |}.
Definition demo_header : ProgramHeader := {|
  ph_load := true; ph_virtual_addr := 0x1000; ph_mem_size := 0x1000; ph_offset := 0; ph_file_size := 0x200;
  ph_read := true; ph_write := true; ph_execute := true |}.
Definition zero_frame : TrapFrame := {| x := replicate 32 0; sstatus := 0; sepc := 0 |}.

(** ** An argument longer than a page *)

(** A new process without areas, and its stack *)
Definition start_program (argument : list Z) : M kmem (AddressSpace * Z * Stack * TrapFrame) :=
  kernel ← boot 16;
  self ← new_kernel (pt_root kernel);
  alloc_user_stack (with_segment self 0x2000 0x4000) [argument] [] demo_elf [demo_header] 0 zero_frame.

(** The flags of an entry that gives a user program everything *)
Definition all_access : Z := Z.lor PTE_VALID (Z.lor PTE_READABLE (Z.lor PTE_WRITABLE (Z.lor PTE_EXECUTABLE PTE_USER))).

Definition overwritten (argument : list Z) (vpn : Z) : bool :=
  match start_program argument (boot_mem 16) with
  | Ok ((self, _, _, _), s) =>
      negb (bool_decide (vpn ∈ (all_frames (areas self)).*1)) &&
      match view (st_words s) (pt_root (page_table self)) (indexes vpn) with
      | Some w => flags_contains w all_access && (w =? 0x1F1F1F1F1F1F1F1F)
      | None => false
      end
  | Panic _ => false
  end.

(** The distance to the linear map holds for the topmost page of the stack only:
    an argument that reaches into the page below is written to the physical frame
    below the topmost one, here a page table of the process, and its bytes become
    entries that give the program access to memory of its choice. *)
Theorem user_stack_overwrites_table :
  overwritten (replicate 4100 0x1F) 511 = true ∧ overwritten (replicate 100 0x1F) 511 = false.
Proof. split; vm_compute; reflexivity. Qed.

(** ** Two arguments *)

#[local] Opaque demo demo_pt.

Lemma stack_room : mmap_room heap_run.1 USER_STACK_SIZE 0x4000.
Proof.
  destruct heap_exact as (Rs & A & q & _ & Har & _ & Hmax & _ & _). change USER_STACK_SIZE with 0x2000.
  split; [lia|]. split; [reflexivity|]. split; [lia|]. rewrite Hmax. split; [lia|]. split; [reflexivity|]. split.
  - intros r a. rewrite Har. intros [= -> ->]%list_elem_of_singleton. cbn. lia.
  - intros v Hv%qemu_mmio. lia.
Qed.

(** The program is called with "ls" and "/". *)
Lemma user_stack_ready_witness : ∃ self' s' top r tf',
  alloc_user_stack heap_run.1 [[0x6C; 0x73]; [0x2F]] [] demo_elf [demo_header] 0 zero_frame heap_run.2 =
    Ok ((self', top, r, tf'), s') ∧ user_word s' (pt_root (page_table heap_run.1)) (user_sp r) = Some 2.
Proof.
  destruct heap_exact as (Rs & A & q & HE & _ & _ & _ & Hf & Hsub).
  destruct (user_stack_ready Rs (pt_root demo_pt) heap_run.2 A heap_run.1 [[0x6C; 0x73]; [0x2F]] [] demo_elf [demo_header] 0x1040 0 zero_frame
    0x4000 HE stack_room) as (s' & A' & self' & top & r & tf' & Hs & _ & (argv & envp & _ & _ & Hw) & _).
  - change (Z.to_nat _) with 2%nat. lia.
  - intros p Hp. apply Hsub in Hp. cbn [f_free boot_frames] in Hp. apply elem_of_seqZ in Hp.
    assert (boot_start 16 - (2 ^ 52 - 2 ^ 26) = 526320) as Hb by (vm_compute; reflexivity). rewrite Hb in Hp. lia.
  - repeat constructor; lia.
  - constructor.
  - vm_compute. discriminate.
  - reflexivity.
  - reflexivity.
  - exists self', s', top, r, tf'. split; [exact Hs|]. specialize (Hw 0%nat 2 eq_refl).
    rewrite Z.mul_0_r, Z.add_0_r in Hw. exact (proj2 Hw).
Defined.
End examples.
