(* ===== verification/Sched.v ===== *)
(** * Threads: identifiers, kernel stacks, the scheduler and the timer

    [TidAllocator] and [get_kernel_stack_range] (kernel/src/process/thread.rs), the
    FIFO scheduler [SchedulerImpl] (vendor/algorithm/src/scheduler/fifo_scheduler.rs)
    and the timer queue (kernel/src/timer.rs). *)

From S2P Require Import Prelude Address BTree.
From Stdlib Require Import Sorted.

(** ** Thread identifiers *)

Module Tid.

(** [recycled] is a [Vec]: pushed and popped at its end. *)
Record TidAllocator := { current : Z; recycled : list Z }.
Definition new : TidAllocator := {| current := 0; recycled := [] |}.

Definition alloc : M TidAllocator Z :=
  self ← get;
  match last (recycled self) with
  | Some tid =>
      put {| current := current self; recycled := take (length (recycled self) - 1) (recycled self) |} ;;
      mret tid
  | None =>
      c ← lift (uadd (current self) 1);
      put {| current := c; recycled := recycled self |} ;;
      lift (usub c 1)
  end.

(** [dealloc], which [Drop for Tid] calls *)
Definition dealloc (tid : Z) : M TidAllocator unit :=
  self ← get;
  lift (ensure (tid <? current self)) ;;
  lift (ensure (bool_decide (tid ∉ recycled self))) ;;
  put {| current := current self; recycled := recycled self ++ [tid] |}.

(** The allocator and the identifiers of the live threads, in any order of thread
    creations and exits *)
Inductive reachable : TidAllocator → list Z → Prop :=
  | reach_new : reachable new []
  | reach_alloc a live t a' : reachable a live → alloc a = Ok (t, a') → reachable a' (t :: live)
  | reach_drop a l1 t l2 a' : reachable a (l1 ++ t :: l2) → dealloc t a = Ok (tt, a') → reachable a' (l1 ++ l2).

(** Live and recycled identifiers share out [0..current]. *)
Definition inv (a : TidAllocator) (live : list Z) : Prop :=
  in_usize (current a) ∧ NoDup (live ++ recycled a) ∧ ∀ t, t ∈ live ++ recycled a ↔ 0 ≤ t < current a.

Lemma last_split {A} (l : list A) x : last l = Some x → l = take (length l - 1) l ++ [x].
Proof.
  intros [l' ->]%last_Some. rewrite length_app. cbn. by rewrite Nat.add_sub, take_app_length.
Qed.

(** An identifier is handed out to one live thread at a time. *)
Lemma alloc_spec a live : inv a live → recycled a ≠ [] ∨ current a < 2 ^ 64 - 1 →
  ∃ t a', alloc a = Ok (t, a') ∧ (t ∉ live) ∧ inv a' (t :: live).
Proof.
  intros (Hc & Hn & Hi) Hm. unfold alloc. run_refl. destruct (last (recycled a)) as [t|] eqn:El.
  - apply last_split in El. set (r := take _ _) in *. rewrite El in Hn, Hi.
    assert (live ++ r ++ [t] ≡ₚ t :: live ++ r) as Hp by solve_Permutation.
    eexists t, _. split; [done|]. split.
    + rewrite Hp in Hn. apply NoDup_cons in Hn as [Hn _]. set_solver.
    + split; [done|]. split; cbn [current recycled app]; [by rewrite <- Hp|]. intros x. by rewrite <- Hi, Hp.
  - apply last_None in El. destruct Hm as [Hm|Hm]; [done|]. rewrite uadd_in by lia. run_refl. run_refl. rewrite usub_in by lia.
    eexists _, _. split; [done|]. rewrite El, app_nil_r in *.
    replace (current a + 1 - 1) with (current a) by lia.
    assert (current a ∉ live) as Hnew by (rewrite Hi; lia). split; [done|].
    split; [cbn; lia|]. split; cbn [current recycled app]; rewrite app_nil_r; [by constructor|].
    intros x. rewrite elem_of_cons, Hi. lia.
Qed.

Lemma dealloc_spec a l1 t l2 : inv a (l1 ++ t :: l2) → ∃ a', dealloc t a = Ok (tt, a') ∧ inv a' (l1 ++ l2).
Proof.
  intros (Hc & Hn & Hi). assert (0 ≤ t < current a) as Ht by (apply Hi; set_solver).
  assert (l1 ++ l2 ++ recycled a ++ [t] ≡ₚ (l1 ++ t :: l2) ++ recycled a) as Hp by solve_Permutation.
  assert (t ∉ recycled a) as Hr.
  { rewrite <- Hp in Hn. rewrite !app_assoc, NoDup_app in Hn. set_solver. }
  unfold dealloc. run_refl. replace (t <? current a) with true by lia. run_refl.
  rewrite bool_decide_true by done. run_refl. eexists. split; [done|].
  split; [done|]. split; cbn [current recycled]; rewrite <- app_assoc; [by rewrite Hp|]. intros x. rewrite Hp. apply Hi.
Qed.

Lemma reachable_inv a live : reachable a live → inv a live.
Proof.
  induction 1 as [|a live t a' _ IH Ha|a l1 t l2 a' _ IH Ha].
  - split; [done|]. split; [constructor|]. cbn. intros t. split; [by intros ?%not_elem_of_nil|lia].
  - assert (recycled a ≠ [] ∨ current a < 2 ^ 64 - 1) as Hc.
    { destruct (decide (recycled a = [])) as [Hr|]; [right|by left]. revert Ha. unfold alloc. run_refl.
      rewrite Hr. cbn [last]. intros Ha. inv_exec. apply checked_Ok in Hm. lia. }
    destruct (alloc_spec a live IH Hc) as (t2 & a2 & H & _ & Hi). congruence.
  - destruct (dealloc_spec a l1 t l2 IH) as (a2 & H & Hi). congruence.
Qed.
End Tid.

(** ** Kernel stacks *)

Section stacks.
Context `{C : Config} `{!ConfigOk C}.

Definition get_kernel_stack_range (tid : Z) : exec VARange :=
  off ← umul tid KERNEL_STACK_ALIGN_SIZE;
  kernel_stack_top ← usub KERNEL_STACK_TOP off;
  bottom ← usub kernel_stack_top KERNEL_STACK_SIZE;
  Ok {| r_start := bottom; r_end := kernel_stack_top |}.

(** [sp] is the value of the stack pointer. *)
Definition get_cur_kernel_stack_top (sp : Z) : exec Z := round_up sp KERNEL_STACK_ALIGN_SIZE.

Lemma stack_align_pow : KERNEL_STACK_ALIGN_SIZE = 2 ^ KERNEL_STACK_ALIGN_BITS.
Proof.
  destruct (stack_align_ok (C := C)). unfold KERNEL_STACK_ALIGN_SIZE. rewrite ushl_mul by lia.
  rewrite Z.mul_1_l. apply Z.mod_small. split; [lia|]. apply Z.pow_lt_mono_r; lia.
Qed.

Lemma stack_range_spec tid r : 0 ≤ tid → get_kernel_stack_range tid = Ok r →
  r_end r = 2 ^ 64 - (tid + 1) * KERNEL_STACK_ALIGN_SIZE ∧ r_start r = r_end r - KERNEL_STACK_SIZE ∧ 0 ≤ r_start r.
Proof.
  intros Ht H. unfold get_kernel_stack_range, umul, usub in H. inv_exec.
  repeat match goal with H : checked _ = Ok _ |- _ => apply checked_Ok in H; destruct H as [-> ?] end.
  cbn. unfold KERNEL_STACK_TOP in *. lia.
Qed.

(** Stacks of distinct threads keep the guard gap, and the top of the stack the
    processor is on identifies its thread. *)
Lemma stack_top_of_sp tid r sp : 0 ≤ tid → get_kernel_stack_range tid = Ok r → r_start r ≤ sp < r_end r →
  get_cur_kernel_stack_top sp = Ok (r_end r).
Proof.
  intros Ht Hr Hsp. destruct (stack_range_spec tid r Ht Hr) as (He & Hs & H0).
  destruct (stack_size_ok (C := C)) as (Hk & _ & Hlt). pose proof stack_align_pow as Hpow.
  set (B := KERNEL_STACK_ALIGN_SIZE) in *. unfold get_cur_kernel_stack_top. fold B.
  assert (0 < B) by (rewrite Hpow; apply Z.pow_pos_nonneg; destruct (stack_align_ok (C := C)); lia).
  assert (2 ^ 64 = 2 ^ (64 - KERNEL_STACK_ALIGN_BITS) * B) as Hd.
  { rewrite Hpow, <- Z.pow_add_r by (destruct (stack_align_ok (C := C)); lia). f_equal. lia. }
  set (q := 2 ^ (64 - KERNEL_STACK_ALIGN_BITS) - (tid + 1)).
  assert (r_end r = q * B) as Hq by (unfold q; nia).
  rewrite Hpow, round_up_eq, <- Hpow by (destruct (stack_align_ok (C := C)); rewrite <- ?Hpow; nia).
  f_equal. rewrite Hq, Z.mul_comm. f_equal. symmetry. apply Z.div_unique with (sp + B - 1 - q * B); nia.
Qed.

(** However threads were created and ended, the kernel stacks of two live threads
    do not overlap and keep the guard area between them, and while the processor
    is on one of them, [get_cur_kernel_stack_top] finds its top, where the
    thread's own pointer is stored. *)
Theorem kernel_stacks_disjoint a live t1 t2 r1 r2 :
  Tid.reachable a live → (∃ l1 l2 l3, live = l1 ++ t1 :: l2 ++ t2 :: l3) →
  get_kernel_stack_range t1 = Ok r1 → get_kernel_stack_range t2 = Ok r2 →
  let gap := KERNEL_STACK_ALIGN_SIZE - KERNEL_STACK_SIZE in
  0 < gap ∧ (r_end r1 + gap ≤ r_start r2 ∨ r_end r2 + gap ≤ r_start r1) ∧
  ∀ sp, r_start r1 ≤ sp < r_end r1 → get_cur_kernel_stack_top sp = Ok (r_end r1).
Proof.
  intros Ha (l1 & l2 & l3 & ->) H1 H2 gap.
  apply Tid.reachable_inv in Ha as (_ & Hn & Hi).
  assert (t1 ≠ t2) as Hne.
  { intros ->. rewrite <- !app_assoc in Hn. apply NoDup_app in Hn as (_ & _ & Hn). cbn in Hn.
    apply NoDup_cons in Hn as [Hn _]. set_solver. }
  assert (0 ≤ t1) as Ht1 by (apply (Hi t1); set_solver). assert (0 ≤ t2) as Ht2 by (apply (Hi t2); set_solver).
  destruct (stack_range_spec t1 r1 Ht1 H1) as (E1 & S1 & _), (stack_range_spec t2 r2 Ht2 H2) as (E2 & S2 & _).
  destruct (stack_size_ok (C := C)) as (Hk & _ & Hlt). unfold gap.
  split; [lia|]. split; [|intros sp Hsp; by apply (stack_top_of_sp t1)].
  destruct (decide (t1 < t2)); [right|left]; nia.
Qed.
End stacks.

Lemma kernel_stacks_disjoint_witness :
  get_kernel_stack_range (C := k210_config) 1 = Ok {| r_start := 2 ^ 64 - 2 ^ 15 - 2 ^ 13; r_end := 2 ^ 64 - 2 ^ 15 |} ∧
  get_cur_kernel_stack_top (C := k210_config) (2 ^ 64 - 2 ^ 15 - 100) = Ok (2 ^ 64 - 2 ^ 15).
Proof.
  split; [reflexivity|].
  refine (proj2 (proj2 (kernel_stacks_disjoint (C := k210_config) {| Tid.current := 2; Tid.recycled := [] |} [1; 0] 1 0 _
    {| r_start := 2 ^ 64 - 2 ^ 14 - 2 ^ 13; r_end := 2 ^ 64 - 2 ^ 14 |} _ _ eq_refl eq_refl)) _ _).
  - eapply Tid.reach_alloc; [eapply Tid.reach_alloc; [apply Tid.reach_new|reflexivity]|reflexivity].
  - by exists [], [], [].
  - split; by vm_compute.
Defined.

(** ** The scheduler *)

Module Fifo.
Section fifo.
Context {T : Type} `{EqDecision T}.

Definition add_thread (t : T) : M (list T) unit := modify (λ pool, pool ++ [t]).
Definition get_next : M (list T) (option T) :=
  pool ← get;
  match pool with
  | t :: pool => put (pool ++ [t]) ;; mret (Some t)
  | [] => mret None
  end.
(** [drain_filter] and the assertion that exactly one thread was removed *)
Definition remove_thread (t : T) : M (list T) unit :=
  pool ← get;
  lift (ensure (length (filter (λ x, x = t) pool) =? 1)%nat) ;;
  put (filter (λ x, x ≠ t) pool).

Inductive op := Add (t : T) | Next | Remove (t : T).
Definition step (o : op) : M (list T) (option T) :=
  match o with
  | Add t => add_thread t ;; mret None
  | Next => get_next
  | Remove t => remove_thread t ;; mret None
  end.
(** The threads handed out by a sequence of operations *)
Fixpoint run (os : list op) : M (list T) (list T) :=
  match os with
  | [] => mret []
  | o :: os => r ← step o; rs ← run os; mret (match r with Some t => t :: rs | None => rs end)
  end.

(** The kernel's use: new threads are added, threads in the pool are removed. *)
Fixpoint proper (os : list op) (pool : list T) : Prop :=
  match os with
  | [] => True
  | Add t :: os => (t ∉ pool) ∧ proper os (pool ++ [t])
  | Next :: os => proper os (match pool with t :: p => p ++ [t] | [] => [] end)
  | Remove t :: os => t ∈ pool ∧ proper os (filter (λ x, x ≠ t) pool)
  end.
(** The number of time slices *)
Fixpoint turns (os : list op) : nat :=
  match os with
  | [] => 0
  | Next :: os => S (turns os)
  | _ :: os => turns os
  end.

Lemma filter_eq_NoDup (t : T) pool : NoDup pool → t ∈ pool → filter (λ x, x = t) pool = [t].
Proof.
  intros Hn Ht. apply list_elem_of_split in Ht as (p1 & p2 & ->). apply NoDup_app in Hn as (_ & H1 & H2).
  apply NoDup_cons in H2 as [H2 _]. rewrite filter_app, filter_cons_True by done.
  assert (∀ p : list T, t ∉ p → filter (λ x, x = t) p = []) as Hf.
  { intros p Hp. induction p as [|y p IH]; [done|]. apply not_elem_of_cons in Hp as [? ?].
    rewrite filter_cons_False by congruence. auto. }
  rewrite !Hf; [done|done|]. intros Ht. apply (H1 t Ht). set_solver.
Qed.

Lemma remove_thread_eq t pool : NoDup pool → t ∈ pool →
  remove_thread t pool = Ok (tt, filter (λ x, x ≠ t) pool).
Proof. intros Hn Ht. unfold remove_thread. run_refl. by rewrite filter_eq_NoDup. Qed.

(** A thread with [k] threads before it is among the next [k + 1] handed out. *)
Lemma run_reaches t os : ∀ p1 p2,
  NoDup (p1 ++ t :: p2) → proper os (p1 ++ t :: p2) → Remove t ∉ os →
  ∃ ts pool', run os (p1 ++ t :: p2) = Ok (ts, pool') ∧ NoDup pool' ∧ ((length p1 < turns os)%nat → t ∈ ts).
Proof.
  induction os as [|o os IH]; intros p1 p2 Hn Hp Hr.
  { eexists _, _. split; [done|]. split; [done|]. cbn. lia. }
  apply not_elem_of_cons in Hr as [Hr1 Hr2]. destruct o as [x| |x]; cbn [run step proper] in *.
  - destruct Hp as [Hx Hp]. rewrite <- app_assoc in Hp. cbn in Hp.
    destruct (IH p1 (p2 ++ [x])) as (ts & pool' & H & Hn' & Ht); [|done|done|].
    { change (t :: p2 ++ [x]) with ((t :: p2) ++ [x]). rewrite app_assoc. apply NoDup_app. split_and!; [done|set_solver|apply NoDup_singleton]. }
    exists ts, pool'. split; [|done]. run_refl.
    replace ((p1 ++ t :: p2) ++ [x]) with (p1 ++ t :: p2 ++ [x]) by (by rewrite <- app_assoc). by run H.
  - destruct p1 as [|y p1]; cbn [app] in *.
    + assert (NoDup (p2 ++ [t])) as Hn2 by (by rewrite (Permutation_app_comm p2 [t])).
      destruct (IH p2 []) as (ts & pool' & H & Hn' & _); [done|done|done|].
      exists (t :: ts), pool'. split; [|split; [done|set_solver]]. unfold get_next. run_refl. by run H.
    + rewrite <- app_assoc in Hp. cbn in Hp.
      destruct (IH p1 (p2 ++ [y])) as (ts & pool' & H & Hn' & Ht); [|done|done|].
      { assert (p1 ++ t :: p2 ++ [y] ≡ₚ y :: p1 ++ t :: p2) as -> by solve_Permutation. done. }
      exists (y :: ts), pool'. split; [|split; [done|]].
      * unfold get_next. run_refl. replace ((p1 ++ t :: p2) ++ [y]) with (p1 ++ t :: p2 ++ [y]) by (by rewrite <- app_assoc). by run H.
      * cbn. intros Hl. apply elem_of_cons. right. apply Ht. lia.
  - destruct Hp as [Hx Hp]. assert (x ≠ t) as Hxt by congruence.
    rewrite (M_bind_assoc (remove_thread x)). erewrite M_bind_eq; [|by apply remove_thread_eq]. run_refl.
    rewrite filter_app, filter_cons_True in Hp |- * by done.
    destruct (IH (filter (λ y, y ≠ x) p1) (filter (λ y, y ≠ x) p2)) as (ts & pool' & H & Hn' & Ht); [|done|done|].
    { rewrite <- (filter_cons_True (λ y, y ≠ x)) by done. rewrite <- filter_app. by apply NoDup_filter. }
    exists ts, pool'. run H. split; [done|]. split; [done|]. intros Hl. apply Ht.
    pose proof (length_filter (λ y, y ≠ x) p1). cbn in Hl. lia.
Qed.
End fifo.
Arguments op : clear implicits.
End Fifo.

(** C31: The scheduler starves no thread: whatever threads are added and removed in
    the meantime, a thread in the pool is handed out within as many time slices
    as the pool had threads. *)
Theorem fifo_fair {T} `{EqDecision T} (pool : list T) (t : T) (os : list (Fifo.op T)) :
  NoDup pool → t ∈ pool → Fifo.proper os pool → Fifo.Remove t ∉ os → (length pool ≤ Fifo.turns os)%nat →
  ∃ ts pool', Fifo.run os pool = Ok (ts, pool') ∧ t ∈ ts.
Proof.
  intros Hn (p1 & p2 & ->)%list_elem_of_split Hp Hr Hl.
  destruct (Fifo.run_reaches t os p1 p2 Hn Hp Hr) as (ts & pool' & H & _ & Ht).
  exists ts, pool'. split; [done|]. apply Ht. rewrite length_app in Hl. cbn in Hl. lia.
Qed.

Lemma fifo_fair_witness :
  ∃ ts pool', Fifo.run [Fifo.Next; Fifo.Add 9; Fifo.Remove 1; Fifo.Next; Fifo.Next] [1; 2; 3] = Ok (ts, pool') ∧ 3 ∈ ts.
Proof.
  apply (fifo_fair [1; 2; 3] 3 [Fifo.Next; Fifo.Add 9; Fifo.Remove 1; Fifo.Next; Fifo.Next]).
  - by apply (bool_decide_eq_true_1 _).
  - by apply (bool_decide_eq_true_1 _).
  - cbn. split_and!; try done; by apply (bool_decide_eq_true_1 _).
  - intros H. repeat (apply elem_of_cons in H as [H|H]; [done|]). by apply elem_of_nil in H.
  - cbn. lia.
Defined.

(** ** The timer *)

Module Timer.
Section timer.
(** Callbacks act on the rest of the kernel; a [Duration] is its nanoseconds. *)
Context {Cb W : Type} (call : Cb → M W unit).

Definition DURATION_END : Z := 2 ^ 64 * 10 ^ 9.
Definition duration_add (a b : Z) : exec Z := if a + b <? DURATION_END then Ok (a + b) else Panic Overflow.

(** [while self.events.contains_key(&deadline)]: at most one round for every event *)
Fixpoint free_deadline (fuel : nat) (events : list (Z * Cb)) (deadline : Z) : exec Z :=
  if bt_contains_key Z.compare deadline events then
    match fuel with
    | O => Panic OutOfFuel
    | S fuel => d ← duration_add deadline 1; free_deadline fuel events d
    end
  else Ok deadline.
Definition register (deadline : Z) (callback : Cb) (events : list (Z * Cb)) : exec (list (Z * Cb)) :=
  d ← free_deadline (length events) events deadline;
  Ok (bt_insert Z.compare d callback events).

(** [first_entry] and [remove_entry] take the first event; at most one round for every event *)
Fixpoint expire (now : Z) (events : list (Z * Cb)) : M W (list (Z * Cb)) :=
  match events with
  | [] => mret []
  | (deadline, callback) :: rest =>
      if now <? deadline then mret events
      else call callback ;; expire now rest
  end.

Lemma contains_key_spec k (m : list (Z * Cb)) : zsorted m →
  bt_contains_key Z.compare k m = true ↔ k ∈ m.*1.
Proof.
  intros Hm. unfold bt_contains_key. rewrite list_elem_of_fmap. destruct (bt_get Z.compare k m) as [v|] eqn:E.
  - apply zget_elem in E; [|done]. split; [|done]. intros _. by exists (k, v).
  - split; [done|]. intros ([k' v] & -> & H). apply zget_elem in H; [|done]. cbn in *. congruence.
Qed.

(** Among [n + 1] consecutive keys one is free when there are [n] events. *)
Lemma free_deadline_spec fuel : ∀ (m : list (Z * Cb)) (used : list Z) d,
  zsorted m → NoDup used → (∀ k, k ∈ used → k ∈ m.*1 ∧ k < d) → (length m ≤ fuel + length used)%nat →
  d + Z.of_nat fuel < DURATION_END →
  ∃ d', free_deadline fuel m d = Ok d' ∧ d ≤ d' ≤ d + Z.of_nat fuel ∧ d' ∉ m.*1.
Proof.
  induction fuel as [|fuel IH]; intros m used d Hm Hn Hu Hl He; cbn [free_deadline].
  - destruct (bt_contains_key Z.compare d m) eqn:Ec.
    + apply contains_key_spec in Ec; [|done]. exfalso.
      assert (length (d :: used) ≤ length m.*1)%nat as Hlen.
      { apply submseteq_length, NoDup_submseteq.
        - constructor; [|done]. intros H. apply Hu in H. lia.
        - intros k [->|H]%elem_of_cons; [done|]. by apply Hu. }
      rewrite length_fmap in Hlen. cbn in Hlen. lia.
    + exists d. split; [done|]. split; [lia|]. rewrite <- contains_key_spec by done. by rewrite Ec.
  - destruct (bt_contains_key Z.compare d m) eqn:Ec.
    + apply contains_key_spec in Ec; [|done]. unfold duration_add.
      replace (d + 1 <? DURATION_END) with true by lia. cbn [mbind exec_bind].
      destruct (IH m (d :: used) (d + 1)) as (d' & H & Hd & Hk); [done| | |cbn; lia|lia|].
      * constructor; [|done]. intros H. apply Hu in H. lia.
      * intros k [->|H]%elem_of_cons; [split; [done|lia]|]. apply Hu in H. split; [naive_solver|lia].
      * exists d'. split; [done|]. split; [lia|done].
    + exists d. split; [done|]. split; [lia|]. rewrite <- contains_key_spec by done. by rewrite Ec.
Qed.

Lemma expire_spec now events : zsorted events → ∀ w,
  let due := filter (λ e, e.1 ≤ now) events in
  expire now events w = (for_each (due.*2) call ;; mret (filter (λ e, now < e.1) events)) w.
Proof.
  intros Hs. induction Hs as [|[d cb] rest Hs IH Hf]; intros w; [done|]. cbv zeta in *.
  cbn [expire]. destruct (Z.ltb_spec now d) as [Hlt|Hge].
  - assert (Forall (λ e : Z * Cb, now < e.1) ((d, cb) :: rest)) as Hall.
    { constructor; [done|]. eapply Forall_impl; [exact Hf|]. cbn. lia. }
    rewrite (filter_none (λ e : Z * Cb, e.1 ≤ now)) by (eapply Forall_impl; [exact Hall|]; intros [??]; cbn; lia). by rewrite filter_all.
  - rewrite (filter_cons_True (λ e : Z * Cb, e.1 ≤ now)), (filter_cons_False (λ e : Z * Cb, now < e.1)) by (cbn; lia). cbn [fmap list_fmap for_each snd].
    rewrite M_bind_assoc. unfold mbind at 1 2, M_bind at 1 2. destruct (call cb w) as [[u w1]|]; [apply IH|done].
Qed.
End timer.
End Timer.

(** A callback is registered under a deadline of its own, at most a nanosecond
    later for every event in the queue, so no event displaces another; a tick
    runs exactly the callbacks that are due, the earliest first, and keeps the
    others. *)
Theorem timer_correct {Cb W} (call : Cb → M W unit) (events : list (Z * Cb)) (deadline now : Z) (cb : Cb) :
  zsorted events → deadline + Z.of_nat (length events) < Timer.DURATION_END →
  ∃ d events', Timer.register deadline cb events = Ok events' ∧ zsorted events' ∧
    events' ≡ₚ (d, cb) :: events ∧ deadline ≤ d ≤ deadline + Z.of_nat (length events) ∧
    ∀ w, Timer.expire call now events' w =
      (for_each (filter (λ e, e.1 ≤ now) events').*2 call ;; mret (filter (λ e, now < e.1) events')) w.
Proof.
  intros Hs Hd. destruct (Timer.free_deadline_spec (length events) events [] deadline Hs) as (d & H & Hb & Hk).
  { constructor. } { by intros k ?%not_elem_of_nil. } { cbn. lia. } { done. }
  exists d, (bt_insert Z.compare d cb events). unfold Timer.register. rewrite H. split; [done|].
  assert (zsorted (bt_insert Z.compare d cb events)) as Hs' by (by apply zsorted_insert).
  split; [done|]. split; [by apply zinsert_perm|]. split; [done|]. by apply Timer.expire_spec.
Qed.

Lemma timer_correct_witness :
  Timer.register 5 true [(5, false); (6, false); (9, true)] = Ok [(5, false); (6, false); (7, true); (9, true)] ∧
  Timer.expire (λ b (w : list bool), Ok (tt, w ++ [b])) 7 [(5, false); (6, false); (7, true); (9, true)] [] =
    Ok ([(9, true)], [false; false; true]).
Proof.
  destruct (timer_correct (λ b (w : list bool), Ok (tt, w ++ [b])) [(5, false); (6, false); (9, true)] 5 7 true)
    as (d & ev & H & _ & _ & _ & He); [by repeat (constructor; try lia; cbn)|done|].
  assert (ev = [(5, false); (6, false); (7, true); (9, true)]) as -> by (vm_compute in H; congruence).
  split; [exact H|]. rewrite He. reflexivity.
Defined.
