(* ===== verification/Pipe.v ===== *)
(** * Pipes and condition variables

    [Condvar] (kernel/src/sync/condvar.rs), the two ends of a pipe
    (kernel/src/fs/pipe.rs), [sys_read] and [sys_write] on them
    (kernel/src/syscall/fs.rs) and the dispatch of the scheduling thread
    (kernel/src/lib.rs, [schedule]).  The kernel runs on one processor and is
    preempted only in user mode, so a kernel path runs until it yields: a call
    that blocks returns [None], and runs its loop again when its thread is next
    dispatched.  Weak references to threads are their identifiers, and upgrade
    while the thread is in the table. *)

From stdpp Require Import gmap fin_maps.
From S2P Require Import Prelude Io FatIo Vfs.

Inductive ThreadStatus := Ready | Running | Waiting | Zombie.
#[export] Instance ThreadStatus_eq_dec : EqDecision ThreadStatus.
Proof. solve_decision. Defined.

(** The bytes in the pipe are owned by its read end ([None] once that is dropped);
    the write end holds a weak reference. *)
Record PipeState := { p_data : option (list Z); p_writer : bool; p_queue : list Z }.

(** The two [FileDescriptor]s of [create_pipe_pair]: every table slot of an end
    shares one of them. *)
Inductive pipe_end := ReadEnd | WriteEnd.
Definition end_flags (e : pipe_end) : Z := match e with ReadEnd => RDONLY | WriteEnd => WRONLY end.

(** The threads' status and process, the process locks ([Process::inner]) that are
    held, the processes' descriptor tables and the positions in the descriptors of
    the two ends, and one pipe. *)
Record Sys := {
  status : gmap Z ThreadStatus;
  process : gmap Z Z;
  locks : gset Z;
  tables : gmap Z (list (option pipe_end));
  read_pos : Z;
  write_pos : Z;
  pipe : PipeState;
}.
Definition with_status (s : Sys) m :=
  {| status := m; process := process s; locks := locks s; tables := tables s; read_pos := read_pos s; write_pos := write_pos s; pipe := pipe s |}.
Definition with_locks (s : Sys) l :=
  {| status := status s; process := process s; locks := l; tables := tables s; read_pos := read_pos s; write_pos := write_pos s; pipe := pipe s |}.
Definition with_pipe (s : Sys) p :=
  {| status := status s; process := process s; locks := locks s; tables := tables s; read_pos := read_pos s; write_pos := write_pos s; pipe := p |}.
(** [self.pos = n] in the descriptor of an end *)
Definition with_pos (s : Sys) (e : pipe_end) n :=
  match e with
  | ReadEnd => {| status := status s; process := process s; locks := locks s; tables := tables s; read_pos := n; write_pos := write_pos s; pipe := pipe s |}
  | WriteEnd => {| status := status s; process := process s; locks := locks s; tables := tables s; read_pos := read_pos s; write_pos := n; pipe := pipe s |}
  end.
Definition end_pos (s : Sys) (e : pipe_end) : Z := match e with ReadEnd => read_pos s | WriteEnd => write_pos s end.
Definition with_queue (s : Sys) q :=
  with_pipe s {| p_data := p_data (pipe s); p_writer := p_writer (pipe s); p_queue := q |}.
Definition with_data (s : Sys) d :=
  with_pipe s {| p_data := d; p_writer := p_writer (pipe s); p_queue := p_queue (pipe s) |}.

(** [thread.inner.lock().status = v], on a thread that can be upgraded *)
Definition set_status (t : Z) (v : ThreadStatus) : M Sys unit :=
  modify (λ s, with_status s (alter (λ _, v) t (status s))).

(** ** Condition variables *)

(** [cur] is the current thread. *)
Definition cv_wait (cur : Z) : M Sys unit :=
  set_status cur Waiting ;; modify (λ s, with_queue s (p_queue (pipe s) ++ [cur])).
Definition notify_one : M Sys unit :=
  s ← get;
  match p_queue (pipe s) with
  | t :: q => modify (λ s, with_queue s q) ;; set_status t Ready
  | [] => mret tt
  end.
Fixpoint notify_loop (fuel : nat) : M Sys unit :=
  s ← get;
  match p_queue (pipe s) with
  | t :: q =>
      match fuel with
      | O => panic OutOfFuel
      | S fuel => modify (λ s, with_queue s q) ;; set_status t Ready ;; notify_loop fuel
      end
  | [] => mret tt
  end.
Definition notify_all : M Sys unit := s ← get; notify_loop (length (p_queue (pipe s))).

(** ** The ends of a pipe *)

(** One round of the loop of [Read for PipeRead]: [None] when it yields *)
Definition pipe_read (cur len : Z) : M Sys (option (ioresult (list Z))) :=
  if len =? 0 then mret (Some (IoOk []))
  else
    s ← get;
    data ← lift (unwrap (p_data (pipe s)));
    let got := take (Z.to_nat len) data in
    modify (λ s, with_data s (Some (drop (Z.to_nat len) data))) ;;
    (if bool_decide (got = []) then cv_wait cur else mret tt) ;;
    if negb (bool_decide (got = [])) then mret (Some (IoOk got))
    else if negb (p_writer (pipe s)) then mret (Some (IoOk []))
    else mret None.

Definition pipe_write (buf : list Z) : M Sys (ioresult Z) :=
  s ← get;
  match p_data (pipe s) with
  | Some data =>
      modify (λ s, with_data s (Some (data ++ buf))) ;;
      notify_all ;;
      ok (Z.of_nat (length buf))
  | None => err BrokenPipe
  end.

(** The last descriptor of an end is closed. *)
Definition close_write : M Sys unit :=
  modify (λ s, with_pipe s {| p_data := p_data (pipe s); p_writer := false; p_queue := p_queue (pipe s) |}).
Definition close_read : M Sys unit := modify (λ s, with_data s None).

(** ** System calls and dispatch *)

(** [SpinLock::lock]: with one processor, a lock that is held is never released *)
Definition lock_process (t : Z) : M Sys Z :=
  s ← get;
  p ← lift (unwrap (process s !! t));
  if bool_decide (p ∈ locks s) then panic Deadlock
  else put (with_locks s ({[p]} ∪ locks s)) ;; mret p.
Definition unlock_process (p : Z) : M Sys unit := modify (λ s, with_locks s (locks s ∖ {[p]})).

(** The methods of the inode of an end: [Read for PipeRead], [Read for PipeWrite],
    [Write for PipeRead] and [Write for PipeWrite] *)
Definition end_read (e : pipe_end) (cur len : Z) : M Sys (option (ioresult (list Z))) :=
  match e with ReadEnd => pipe_read cur len | WriteEnd => mret (Some (IoErr PermissionDenied)) end.
Definition end_write (e : pipe_end) (buf : list Z) : M Sys (ioresult Z) :=
  match e with ReadEnd => err PermissionDenied | WriteEnd => pipe_write buf end.
(** [Seek for PipeRead] and [Seek for PipeWrite] *)
Definition end_seek (w : SeekFrom) : M Sys (ioresult Z) := ok 0.

(** [self.pos += n] *)
Definition advance (e : pipe_end) (n : Z) : M Sys unit :=
  s ← get; p ← lift (u64 (end_pos s e + n)); put (with_pos s e p).

(** [Read for FileDescriptor] and [Write for FileDescriptor] on an end *)
Definition desc_read (e : pipe_end) (cur len : Z) : M Sys (option (ioresult (list Z))) :=
  if readable (end_flags e) then
    s ← get;
    r ← end_seek (SeekStart (end_pos s e));
    lift (io_unwrap r) ;;
    r ← end_read e cur len;
    match r with
    | Some (IoOk bs) => advance e (Z.of_nat (length bs)) ;; mret (Some (IoOk bs))
    | r => mret r
    end
  else mret (Some (IoErr PermissionDenied)).
Definition desc_write (e : pipe_end) (buf : list Z) : M Sys (ioresult Z) :=
  if writable (end_flags e) then
    s ← get;
    r ← end_seek (SeekStart (end_pos s e));
    lift (io_unwrap r) ;;
    n ←? end_write e buf;
    advance e n ;;
    ok n
  else err PermissionDenied.

(** [process_inner.fd_table.get_mut(fd).unwrap()] *)
Definition table_get (p fd : Z) : M Sys (option pipe_end) :=
  s ← get; t ← lift (unwrap (tables s !! p)); lift (unwrap (t !! Z.to_nat fd)).

(** The guard [process_inner] lives until the call returns; the result carries the
    bytes stored through [buf]. *)
Definition sys_read (cur fd count : Z) : M Sys (option (Z * list Z)) :=
  p ← lock_process cur;
  o ← table_get p fd;
  match o with
  | Some e =>
      r ← desc_read e cur count;
      match r with
      | Some (IoOk bs) => unlock_process p ;; mret (Some (icast 64 (Z.of_nat (length bs)), bs))
      | Some (IoErr _) => unlock_process p ;; mret (Some (-1, []))
      | None => mret None
      end
  | None => unlock_process p ;; mret (Some (-1, []))
  end.
Definition sys_write (cur fd : Z) (buf : list Z) : M Sys Z :=
  p ← lock_process cur;
  o ← table_get p fd;
  match o with
  | Some e =>
      r ← desc_write e buf;
      match r with
      | IoOk n => unlock_process p ;; mret (icast 64 n)
      | IoErr _ => unlock_process p ;; mret (-1)
      end
  | None => unlock_process p ;; mret (-1)
  end.

(** A round of [schedule] on the thread the scheduler handed out: it runs if it is
    ready, after [activate], which takes the lock of its process for a moment. *)
Definition dispatch (t : Z) : M Sys bool :=
  s ← get;
  v ← lift (unwrap (status s !! t));
  if bool_decide (v = Ready) then p ← lock_process t; unlock_process p ;; mret true
  else mret false.

(** ** What waiters see *)

Lemma notify_loop_spec fuel s : (length (p_queue (pipe s)) ≤ fuel)%nat →
  notify_loop fuel s =
    Ok (tt, with_queue (with_status s (foldl (λ m t, alter (λ _, Ready) t m) (status s) (p_queue (pipe s)))) []).
Proof.
  revert s. induction fuel as [|fuel IH]; intros s Hf; cbn [notify_loop]; run_refl;
    destruct (p_queue (pipe s)) as [|t q] eqn:Eq.
  1,3: by destruct s as [? ? ? ? ? ? [? ? ?]]; cbn in *; subst.
  - cbn in Hf. lia.
  - run_refl. run_refl. rewrite IH by (cbn in *; lia). done.
Qed.

Lemma wake_lookup q : ∀ (m : gmap Z ThreadStatus) t,
  foldl (λ m t, alter (λ _, Ready) t m) m q !! t = if decide (t ∈ q) then (λ _, Ready) <$> m !! t else m !! t.
Proof.
  induction q as [|x q IH]; intros m t; cbn [foldl]; [by rewrite decide_False by set_solver|].
  rewrite IH. destruct (decide (x = t)) as [->|Hx].
  - rewrite lookup_alter_eq, (decide_True (P := t ∈ t :: q)) by set_solver. case_decide; [|done]. by destruct (m !! t).
  - rewrite lookup_alter_ne by done. repeat case_decide; try done; set_solver.
Qed.

Lemma notify_all_spec s : ∃ m,
  notify_all s = Ok (tt, with_queue (with_status s m) []) ∧
  ∀ t, m !! t = if decide (t ∈ p_queue (pipe s)) then (λ _, Ready) <$> status s !! t else status s !! t.
Proof.
  unfold notify_all. run_refl. rewrite notify_loop_spec by done. eexists. split; [done|]. intros t. apply wake_lookup.
Qed.

(** ** Runs of readers and writers

    A configuration carries all bytes written and all bytes read so far.  A reader
    runs only when it is [Ready]; bytes are written only while there is a write end. *)
Definition config : Type := Sys * list Z * list Z.
Inductive pipe_step : config → config → Prop :=
  | step_read t n s s' bs w r : status s !! t = Some Ready → 0 ≤ n →
      pipe_read t n s = Ok (Some (IoOk bs), s') → pipe_step (s, w, r) (s', w, r ++ bs)
  | step_block t n s s' w r : status s !! t = Some Ready → 0 ≤ n →
      pipe_read t n s = Ok (None, s') → pipe_step (s, w, r) (s', w, r)
  | step_write buf n s s' w r : p_writer (pipe s) = true →
      pipe_write buf s = Ok (IoOk n, s') → pipe_step (s, w, r) (s', w ++ buf, r)
  | step_close_write s s' w r : close_write s = Ok (tt, s') → pipe_step (s, w, r) (s', w, r)
  | step_close_read s s' w r : close_read s = Ok (tt, s') → pipe_step (s, w, r) (s', w, r).

(** [create_pipe_pair], with no thread waiting *)
Definition fresh_pipe (s : Sys) : Prop :=
  pipe s = {| p_data := Some []; p_writer := true; p_queue := [] |} ∧ ∀ t, status s !! t ≠ Some Waiting.

Definition pipe_inv (c : config) : Prop :=
  let '(s, w, r) := c in
  r `prefix_of` w ∧
  (∀ d, p_data (pipe s) = Some d → w = r ++ d ∧ (d ≠ [] → p_queue (pipe s) = [])) ∧
  ∀ t, status s !! t = Some Waiting → t ∈ p_queue (pipe s).

(** The three ways a read returns, and the one in which it blocks *)
Lemma pipe_read_cases t n s o s' : 0 ≤ n → pipe_read t n s = Ok (o, s') →
  (n = 0 ∧ o = Some (IoOk []) ∧ s' = s) ∨
  (∃ d, p_data (pipe s) = Some d ∧ 0 < n ∧ d ≠ [] ∧ o = Some (IoOk (take (Z.to_nat n) d)) ∧
     s' = with_data s (Some (drop (Z.to_nat n) d))) ∨
  (p_data (pipe s) = Some [] ∧ 0 < n ∧ o = (if p_writer (pipe s) then None else Some (IoOk [])) ∧
     s' = with_queue (with_status s (alter (λ _, Waiting) t (status s))) (p_queue (pipe s) ++ [t])).
Proof.
  intros Hn. unfold pipe_read. destruct (Z.eqb_spec n 0) as [->|Hn0]; [intros [= <- <-]; by left|]. intros H. right.
  revert H. run_refl. destruct (p_data (pipe s)) as [d|] eqn:Ed; [|done]. run_refl. run_refl.
  destruct d as [|b d].
  - rewrite take_nil, drop_nil. cbn [bool_decide]. rewrite bool_decide_true by done. cbn [negb].
    intros H. right. destruct s as [m p l tb rp wp [da wr q]]; cbn in *. subst. destruct wr; cbv in H; simplify_eq; split_and!; done || lia.
  - destruct (Z.to_nat n) as [|k] eqn:Ek; [lia|]. rewrite bool_decide_false by done. cbn [negb].
    intros H. left. exists (b :: d). split; [done|]. split; [lia|]. split; [done|]. by cbv in H; simplify_eq.
Qed.

Lemma pipe_write_cases buf s r s' : pipe_write buf s = Ok (r, s') →
  (p_data (pipe s) = None ∧ r = IoErr BrokenPipe ∧ s' = s) ∨
  ∃ d m, p_data (pipe s) = Some d ∧ r = IoOk (Z.of_nat (length buf)) ∧
    s' = with_queue (with_status (with_data s (Some (d ++ buf))) m) [] ∧
    ∀ t, m !! t = if decide (t ∈ p_queue (pipe s)) then (λ _, Ready) <$> status s !! t else status s !! t.
Proof.
  unfold pipe_write. run_refl. destruct (p_data (pipe s)) as [d|] eqn:Ed; [|intros [= <- <-]; by left].
  run_refl. destruct (notify_all_spec (with_data s (Some (d ++ buf)))) as (m & Hn & Hm). run Hn.
  intros [= <- <-]. right. by exists d, m.
Qed.

Lemma pipe_step_inv c c' : pipe_step c c' → pipe_inv c → pipe_inv c'.
Proof.
  intros Hst. destruct Hst as [t n s s' bs w r Hr Hn H|t n s s' w r Hr Hn H|buf n s s' w r Hw H|s s' w r H|s s' w r H];
    intros (Hp & Hd & Hq).
  - apply pipe_read_cases in H as [(-> & ? & ->)|[(d & Ed & Hn0 & Hne & ? & ->)|(Ed & Hn0 & ? & ->)]]; [..|done]; simplify_eq.
    + by rewrite app_nil_r.
    + destruct (Hd d Ed) as [-> Hq0]. specialize (Hq0 Hne). split_and!.
      * apply prefix_app. apply prefix_take.
      * intros d' [= <-]. by rewrite <- app_assoc, take_drop.
      * intros t'. cbn. rewrite Hq0. intros Ht'. by apply Hq in Ht' as Hx; rewrite Hq0 in Hx.
    + destruct (p_writer (pipe s)); simplify_eq. rewrite app_nil_r. destruct (Hd [] Ed) as [Hw _]. split_and!; [done| |].
      * cbn. intros d Hd'. rewrite Ed in Hd'. by simplify_eq.
      * intros t'. cbn. destruct (decide (t = t')) as [->|]; [set_solver|]. rewrite lookup_alter_ne by done.
        intros Ht'%Hq. set_solver.
  - apply pipe_read_cases in H as [(-> & ? & ->)|[(d & Ed & Hn0 & Hne & ? & ->)|(Ed & Hn0 & ? & ->)]]; [done|done| |done].
    destruct (Hd [] Ed) as [Hw _]. split_and!; [done| |].
    + cbn. intros d Hd'. rewrite Ed in Hd'. by simplify_eq.
    + intros t'. cbn. destruct (decide (t = t')) as [->|]; [set_solver|]. rewrite lookup_alter_ne by done.
      intros Ht'%Hq. set_solver.
  - apply pipe_write_cases in H as [(_ & ? & _)|(d & m & Ed & ? & -> & Hm)]; [done|]. destruct (Hd d Ed) as [-> _]. split_and!.
    + by apply prefix_app_r.
    + cbn. intros d' [= <-]. by rewrite app_assoc.
    + cbn. intros t. rewrite Hm. case_decide as Hin; [by destruct (status s !! t)|]. by intros ?%Hq.
  - unfold close_write, modify in H. simplify_eq. done.
  - unfold close_read, modify in H. simplify_eq. by split_and!.
Qed.

(** C22: A pipe delivers its bytes in order and once, in every interleaving of readers,
    writers and closes: what was read is a prefix of what was written and the rest
    is in the pipe; and no wake-up is lost: while there are bytes, no thread waits. *)
Theorem pipe_stream (s0 s : Sys) (w r : list Z) :
  fresh_pipe s0 → rtc pipe_step (s0, [], []) (s, w, r) →
  r `prefix_of` w ∧
  ∀ d, p_data (pipe s) = Some d → w = r ++ d ∧ (d ≠ [] → ∀ t, status s !! t ≠ Some Waiting).
Proof.
  intros [H0 Hs0] Hrun. assert (pipe_inv (s, w, r)) as (Hp & Hd & Hq).
  { revert Hrun. apply (rtc_ind_r (λ c, pipe_inv c)).
    - split_and!; [done| |by intros t Ht%Hs0]. rewrite H0. by intros d [= <-].
    - intros c c' _ Hstep. by apply pipe_step_inv. }
  split; [done|]. intros d Ed. destruct (Hd d Ed) as [Hw He]. split; [done|].
  intros Hne t Ht. apply Hq in Ht. rewrite (He Hne) in Ht. by apply not_elem_of_nil in Ht.
Qed.

(** Steps of a pipe without a write end: a waiting thread is not woken. *)
Lemma closed_step s w r s' w' r' t : pipe_step (s, w, r) (s', w', r') →
  p_writer (pipe s) = false → status s !! t = Some Waiting →
  p_writer (pipe s') = false ∧ status s' !! t = Some Waiting.
Proof.
  intros Hst Hw Ht. inversion Hst as [t0 n ? ? bs ? ? Hr Hn H|t0 n ? ? ? ? Hr Hn H|? ? ? ? ? ? Hw2 H|? ? ? ? H|? ? ? ? H]; subst.
  - apply pipe_read_cases in H as [(-> & ? & ->)|[(d & Ed & Hn0 & Hne & ? & ->)|(Ed & Hn0 & ? & ->)]]; [done..| |done].
    cbn. split; [done|]. rewrite lookup_alter. case_decide; [by subst; rewrite Ht|done].
  - apply pipe_read_cases in H as [(-> & ? & ->)|[(d & Ed & Hn0 & Hne & ? & ->)|(Ed & Hn0 & ? & ->)]]; [done..| |done].
    cbn. split; [done|]. rewrite lookup_alter. case_decide; [by subst; rewrite Ht|done].
  - congruence.
  - unfold close_write, modify in H. by simplify_eq.
  - unfold close_read, modify in H. by simplify_eq.
Qed.

(** A thread that reads at the end of a pipe without a write end is told so, but is
    left [Waiting]; and like one that waits when the write end is closed, it stays
    so: nothing that can still happen to the pipe wakes it, and the scheduler
    passes it over. *)
Theorem pipe_eof_reader_sleeps (s : Sys) (t n : Z) :
  p_writer (pipe s) = false →
  (p_data (pipe s) = Some [] → 0 < n → is_Some (status s !! t) →
     ∃ s', pipe_read t n s = Ok (Some (IoOk []), s') ∧ status s' !! t = Some Waiting ∧ p_writer (pipe s') = false) ∧
  (status s !! t = Some Waiting → ∀ w r s' w' r', rtc pipe_step (s, w, r) (s', w', r') →
     status s' !! t = Some Waiting ∧ dispatch t s' = Ok (false, s')).
Proof.
  intros Hw. split.
  - intros Hd Hn [v Hv]. unfold pipe_read. replace (n =? 0) with false by lia. run_refl. rewrite Hd. run_refl. run_refl.
    rewrite take_nil, drop_nil, bool_decide_true by done. rewrite Hw. eexists. split; [done|]. cbn.
    split; [|done]. by rewrite lookup_alter_eq, Hv.
  - intros Ht w r s' w' r' Hrun.
    assert (p_writer (pipe s') = false ∧ status s' !! t = Some Waiting) as [_ Ht'].
    { revert Hrun. apply (rtc_ind_r (λ c : config, p_writer (pipe c.1.1) = false ∧ status c.1.1 !! t = Some Waiting)); [done|].
      intros [[s1 w1] r1] [[s2 w2] r2] _ Hstep [H1 H2]. by apply (closed_step _ _ _ _ _ _ _ Hstep). }
    split; [done|]. unfold dispatch. run_refl. rewrite Ht'. done.
Qed.

Lemma lock_process_Ok t s p s' : lock_process t s = Ok (p, s') →
  process s !! t = Some p ∧ (p ∉ locks s) ∧ s' = with_locks s ({[p]} ∪ locks s).
Proof.
  unfold lock_process. run_refl. destruct (process s !! t) as [q|]; [|done]. run_refl.
  case_bool_decide; [done|]. run_refl. by intros [= <- <-].
Qed.

Lemma lock_process_held t s p : process s !! t = Some p → p ∈ locks s → lock_process t s = Panic Deadlock.
Proof. intros Hp Hl. unfold lock_process. run_refl. rewrite Hp. run_refl. by rewrite bool_decide_true. Qed.

(** A read through a descriptor that blocks has queued its thread. *)
Lemma desc_read_blocks e t n s s' : 0 ≤ n → desc_read e t n s = Ok (None, s') →
  s' = with_queue (with_status s (alter (λ _, Waiting) t (status s))) (p_queue (pipe s) ++ [t]).
Proof.
  intros Hn H. unfold desc_read in H. rewrite readable_any in H. revert H. run_refl. run_refl. run_refl. intros H.
  apply M_bind_Ok in H as (r & s1 & Hr & H). destruct e; [|by injection Hr as <- <-].
  apply pipe_read_cases in Hr as [(-> & -> & _)|[(d & _ & _ & _ & -> & _)|(_ & _ & Ho & ->)]]; [..|done].
  1,2: apply M_bind_Ok in H as (? & ? & _ & H); done.
  destruct (p_writer (pipe s)); subst r; [by injection H|]. apply M_bind_Ok in H as (? & ? & _ & H). done.
Qed.

(** A write through a descriptor that succeeds has woken every thread in the queue,
    and leaves the processes and their locks alone. *)
Lemma desc_write_wakes e buf n s s' : desc_write e buf s = Ok (IoOk n, s') →
  process s' = process s ∧ locks s' = locks s ∧
  ∀ t, t ∈ p_queue (pipe s) → is_Some (status s !! t) → status s' !! t = Some Ready.
Proof.
  unfold desc_write. destruct (writable (end_flags e)); [|done]. run_refl. run_refl. run_refl. intros H.
  apply M_bind_Ok in H as (r & s1 & Hr & H). destruct e; [by injection Hr as <- <-|].
  apply pipe_write_cases in Hr as [(_ & -> & _)|(d & m & _ & -> & -> & Hm)]; [done|].
  apply M_bind_Ok in H as (? & s2 & Ha & H). injection H as _ <-. unfold advance in Ha. revert Ha. run_refl. intros Ha.
  apply M_bind_Ok in Ha as (q & s3 & Hq & Ha). injection Ha as <-. unfold lift in Hq.
  destruct (u64 _); [|done]. injection Hq as _ <-. cbn in H. subst s2. split_and!; try done.
  intros t Ht [v Hv]. cbn. rewrite Hm, decide_True by done. by rewrite Hv.
Qed.

Lemma table_get_state p fd s o s' : table_get p fd s = Ok (o, s') → s' = s.
Proof.
  unfold table_get. run_refl. unfold lift. destruct (tables s !! p) as [t|]; [|done]. run_refl.
  destruct (t !! Z.to_nat fd); [|done]. by intros [= _ <-].
Qed.

(** C38: A read that has to wait deadlocks the kernel: it yields with the lock of its
    process held, and once a writer has made it ready, the dispatch of its thread
    spins on that lock. *)
Theorem blocked_read_deadlocks (s s1 s2 : Sys) (t t2 fd fd2 n len : Z) (buf : list Z) :
  0 ≤ n → sys_read t fd n s = Ok (None, s1) → is_Some (status s !! t) →
  sys_write t2 fd2 buf s1 = Ok (len, s2) → 0 ≤ len →
  status s2 !! t = Some Ready ∧ dispatch t s2 = Panic Deadlock.
Proof.
  intros Hn H Hv Hw Hlen. unfold sys_read in H. apply M_bind_Ok in H as (p & sl & Hl & H).
  apply lock_process_Ok in Hl as (Hp & _ & ->). apply M_bind_Ok in H as (o & sr & Ht%table_get_state & H). subst sr.
  destruct o as [e|]; [|apply M_bind_Ok in H as (? & ? & _ & H); done]. apply M_bind_Ok in H as (r & sr & Hr & H).
  destruct r as [[bs|k]|]; [apply M_bind_Ok in H as (? & ? & _ & H); done..|]. injection H as <-.
  apply desc_read_blocks in Hr as ->; [|done].
  unfold sys_write in Hw. apply M_bind_Ok in Hw as (p2 & sl & Hl & Hw). apply lock_process_Ok in Hl as (_ & Hp2 & ->).
  apply M_bind_Ok in Hw as (o & sw & Ht%table_get_state & Hw). subst sw.
  destruct o as [e2|]; [|apply M_bind_Ok in Hw as (? & ? & _ & Hw); injection Hw; lia].
  apply M_bind_Ok in Hw as (r & sw & Hw1 & Hw). destruct r as [n2|]; [|apply M_bind_Ok in Hw as (? & ? & _ & Hw); injection Hw; lia].
  apply desc_write_wakes in Hw1 as (Hpr & Hlk & Hwake). injection Hw as _ <-. cbn in Hp2, Hpr, Hlk, Hwake.
  assert (status sw !! t = Some Ready) as Hready.
  { apply Hwake; [set_solver|]. destruct Hv as [v Hv]. rewrite lookup_alter_eq, Hv. by eexists. }
  split; [done|]. unfold dispatch. run_refl. cbn [status with_locks]. rewrite Hready. run_refl.
  rewrite bool_decide_true by done. apply M_bind_Panic, lock_process_held with p; cbn; [by rewrite Hpr|].
  rewrite Hlk. set_solver.
Qed.

(** ** Examples *)

(** Threads 1 and 2 of processes 10 and 20, with a new pipe *)
Definition two_threads : Sys := {|
  status := {[1 := Ready; 2 := Ready]}; process := {[1 := 10; 2 := 20]}; locks := ∅;
  tables := {[10 := [None; Some ReadEnd]; 20 := [Some WriteEnd]]}; read_pos := 0; write_pos := 0;
  pipe := {| p_data := Some []; p_writer := true; p_queue := [] |} |}.
Definition unwrap_state {A} (r : exec (A * Sys)) : Sys := match r with Ok (_, s) => s | Panic _ => two_threads end.

Lemma fresh_two : fresh_pipe two_threads.
Proof.
  split; [done|]. intros t H. cbn in H. apply lookup_insert_Some in H as [[_ H]|[_ H]]; [done|].
  by apply lookup_singleton_Some in H as [_ H].
Qed.

Lemma pipe_stream_witness : ∃ s, rtc pipe_step (two_threads, [], []) (s, [7; 8; 9], [7; 8]) ∧ p_data (pipe s) = Some [9] ∧
  [7; 8; 9] = [7; 8] ++ [9] ∧ status s !! 1 ≠ Some Waiting.
Proof.
  set (s1 := unwrap_state (pipe_read 1 2 two_threads)).
  set (s2 := unwrap_state (pipe_write [7; 8; 9] s1)).
  set (s3 := unwrap_state (pipe_read 1 2 s2)).
  assert (rtc pipe_step (two_threads, [], []) (s3, [7; 8; 9], [7; 8])) as Hrun.
  { eapply rtc_l; [apply (step_block 1 2 two_threads s1); [reflexivity|done|reflexivity]|].
    eapply rtc_l; [apply (step_write [7; 8; 9] 3 s1 s2); reflexivity|].
    eapply rtc_l; [apply (step_read 1 2 s2 s3 [7; 8]); [reflexivity|done|reflexivity]|]. apply rtc_refl. }
  exists s3. split; [exact Hrun|]. split; [reflexivity|].
  destruct (pipe_stream two_threads s3 [7; 8; 9] [7; 8] fresh_two Hrun) as [_ H].
  destruct (H [9] eq_refl) as [H1 H2]. split; [exact H1|by apply H2].
Defined.

Lemma pipe_eof_reader_sleeps_witness : ∃ s,
  pipe_read 1 4 (unwrap_state (close_write two_threads)) = Ok (Some (IoOk []), s) ∧ status s !! 1 = Some Waiting.
Proof.
  destruct (proj1 (pipe_eof_reader_sleeps (unwrap_state (close_write two_threads)) 1 4 eq_refl) eq_refl) as (s & H1 & H2 & _);
    [done|by eexists|]. by exists s.
Defined.

Lemma blocked_read_deadlocks_witness : ∃ s1 s2,
  sys_read 1 1 4 two_threads = Ok (None, s1) ∧ sys_write 2 0 [7] s1 = Ok (1, s2) ∧ dispatch 1 s2 = Panic Deadlock.
Proof.
  set (s1 := unwrap_state (sys_read 1 1 4 two_threads)). set (s2 := unwrap_state (sys_write 2 0 [7] s1)).
  exists s1, s2. split; [vm_compute; reflexivity|]. split; [vm_compute; reflexivity|].
  apply (blocked_read_deadlocks two_threads s1 s2 1 2 1 0 4 1 [7]); [done|vm_compute; reflexivity|by eexists|vm_compute; reflexivity|done].
Defined.
