(* ===== verification/Wait.v ===== *)
(** * Exit and wait

    [sys_exit] and [sys_wait4] (kernel/src/syscall/process.rs) and what they keep in
    [ProcessInner] (kernel/src/process/process.rs).  A process has one thread
    ([CLONE_THREAD] is unimplemented), so a handle stands for both; a weak
    reference to a process is its handle, and upgrades while the process is in the
    table.  As in [Pipe], a call that blocks returns [None] and runs its loop again
    when its thread is dispatched. *)

From stdpp Require Import gmap fin_maps.
From S2P Require Import Prelude FatIo Address BTree Sched Pipe.

Record Times := { tms_utime : Z; tms_stime : Z; tms_cutime : Z; tms_cstime : Z }.

Record Process := {
  pid : Z;
  times : Times;
  parent : option Z;
  child : list Z;
  child_exited : list (Z * Z * Z);
  wake_callbacks : list Z;
}.
Definition with_times (p : Process) x := {| pid := pid p; times := x; parent := parent p; child := child p; child_exited := child_exited p; wake_callbacks := wake_callbacks p |}.
Definition with_child (p : Process) x := {| pid := pid p; times := times p; parent := parent p; child := x; child_exited := child_exited p; wake_callbacks := wake_callbacks p |}.
Definition with_exited (p : Process) x := {| pid := pid p; times := times p; parent := parent p; child := child p; child_exited := x; wake_callbacks := wake_callbacks p |}.
Definition with_callbacks (p : Process) x := {| pid := pid p; times := times p; parent := parent p; child := child p; child_exited := child_exited p; wake_callbacks := x |}.

(** [A] holds the address spaces, where [sys_exit] unmaps the thread's user stack. *)
Record Procs (A : Type) := { st : gmap Z ThreadStatus; procs : gmap Z Process; pool : list Z; spaces : A }.
Arguments st {_}. Arguments procs {_}. Arguments pool {_}. Arguments spaces {_}.

Section wait.
Context {A : Type} (dealloc_user_stack : Z → M A unit).
Abbreviation Ps := (Procs A).

Definition with_st (s : Ps) x : Ps := {| st := x; procs := procs s; pool := pool s; spaces := spaces s |}.
Definition with_procs (s : Ps) x : Ps := {| st := st s; procs := x; pool := pool s; spaces := spaces s |}.
Definition on_pool {R} (m : M (list Z) R) : M Ps R := λ s,
  match m (pool s) with Ok (r, p) => Ok (r, {| st := st s; procs := procs s; pool := p; spaces := spaces s |}) | Panic f => Panic f end.
Definition on_spaces {R} (m : M A R) : M Ps R := λ s,
  match m (spaces s) with Ok (r, a) => Ok (r, {| st := st s; procs := procs s; pool := pool s; spaces := a |}) | Panic f => Panic f end.

Definition set_st (t : Z) (v : ThreadStatus) : M Ps unit := modify (λ s, with_st s (alter (λ _, v) t (st s))).
Definition upd (h : Z) (f : Process → Process) : M Ps unit := modify (λ s, with_procs s (alter f h (procs s))).
Definition process_of (h : Z) : M Ps Process := s ← get; lift (unwrap (procs s !! h)).

(** [fetch_add] wraps around. *)
Definition add_child_times (t c : Times) : Times :=
  {| tms_utime := tms_utime t; tms_stime := tms_stime t;
     tms_cutime := cast 64 (tms_cutime t + tms_utime c); tms_cstime := cast 64 (tms_cstime t + tms_stime c) |}.

(** [Vec::pop] *)
Definition vec_pop {T} (l : list T) : option (T * list T) := x ← last l; Some (x, take (length l - 1) l).

(** [sys_exit] up to the switch that does not come back *)
Definition sys_exit (cur exit_status : Z) : M Ps unit :=
  set_st cur Zombie ;;
  on_pool (Fifo.remove_thread cur) ;;
  on_spaces (dealloc_user_stack cur) ;;
  p ← process_of cur;
  s ← get;
  match parent p with
  | Some h =>
      match procs s !! h with
      | Some _ =>
          upd h (λ q, with_times q (add_child_times (times q) (times p))) ;;
          upd h (λ q, with_exited q (child_exited q ++ [(pid p, cur, Z.land exit_status 0xFF)])) ;;
          q ← process_of h;
          match vec_pop (wake_callbacks q) with
          | Some (t, rest) => upd h (λ q, with_callbacks q rest) ;; set_st t Ready
          | None => mret tt
          end
      | None => mret tt
      end
  | None => mret tt
  end.

(** The child a round of [sys_wait4] takes: the last one that exited, or with a
    process id the last one that has it, and all with that id leave the list *)
Definition take_exited (pid_arg : Z) (l : list (Z * Z * Z)) : option (Z * Z * Z) * list (Z * Z * Z) :=
  if pid_arg =? -1 then
    match vec_pop l with Some (e, rest) => (Some e, rest) | None => (None, l) end
  else (fst <$> vec_pop (filter (λ e, e.1.1 = cast 64 pid_arg) l), filter (λ e, e.1.1 ≠ cast 64 pid_arg) l).

(** One round of the loop of [sys_wait4]: the process id returned and the word
    stored through [wstatus] *)
Definition sys_wait4 (cur pid_arg : Z) : M Ps (option (Z * Z)) :=
  p ← process_of cur;
  let '(e, rest) := take_exited pid_arg (child_exited p) in
  upd cur (λ p, with_exited p rest) ;;
  match e with
  | Some (cpid, h, exit_status) =>
      upd cur (λ p, with_child p (filter (λ c, c ≠ h) (child p))) ;;
      mret (Some (if pid_arg =? -1 then icast 64 cpid else pid_arg, Z.shiftl exit_status 8))
  | None =>
      upd cur (λ p, with_callbacks p (wake_callbacks p ++ [cur])) ;;
      set_st cur Waiting ;;
      mret None
  end.

(** The process table's part of [Thread::fork] and [sys_clone]: [h] and [pid_] are
    the handle and identifier of the new process. *)
Definition fork_process (cur h pid_ : Z) : M Ps unit :=
  modify (λ s, with_procs s (<[h := {| pid := pid_; times := {| tms_utime := 0; tms_stime := 0; tms_cutime := 0; tms_cstime := 0 |};
    parent := Some cur; child := []; child_exited := []; wake_callbacks := [] |}]> (procs s))) ;;
  upd cur (λ p, with_child p (child p ++ [h])) ;;
  modify (λ s, with_st s (<[h := Ready]> (st s))) ;;
  on_pool (Fifo.add_thread h) ;;
  set_st cur Ready.

(** The last reference to an ended thread is dropped. *)
Definition drop_process (h : Z) : M Ps unit :=
  modify (λ s, with_st (with_procs s (delete h (procs s))) (delete h (st s))).

(** ** Properties *)

Lemma vec_pop_snoc {T} (l : list T) x : vec_pop (l ++ [x]) = Some (x, l).
Proof. unfold vec_pop. rewrite last_snoc. cbn. rewrite length_app. cbn. by rewrite Nat.add_sub, take_app_length. Qed.

Lemma vec_pop_None {T} (l : list T) : vec_pop l = None ↔ l = [].
Proof. unfold vec_pop. rewrite bind_None, last_None. split; [by intros [?|(? & _ & ?)]|by left]. Qed.

Lemma upd_lookup h f (s : Ps) k : ∃ s', upd h f s = Ok (tt, s') ∧ st s' = st s ∧ pool s' = pool s ∧ spaces s' = spaces s ∧
  procs s' !! k = if decide (k = h) then f <$> procs s !! h else procs s !! k.
Proof. eexists. split; [done|]. cbn. split_and!; try done. rewrite lookup_alter. by repeat case_decide; subst. Qed.

Lemma process_of_eq h (s : Ps) p : procs s !! h = Some p → process_of h s = Ok (p, s).
Proof. intros H. unfold process_of. run_refl. by rewrite H. Qed.

(** What [sys_exit] does to the parent that is still there, and to the others. *)
Definition parent_after (p q : Process) (cur exit_status : Z) : Process :=
  let q := with_exited (with_times q (add_child_times (times q) (times p)))
             (child_exited q ++ [(pid p, cur, Z.land exit_status 0xFF)]) in
  match vec_pop (wake_callbacks q) with Some (_, rest) => with_callbacks q rest | None => q end.
Definition st_after (q : option Process) (m : gmap Z ThreadStatus) : gmap Z ThreadStatus :=
  match q ≫= λ q, vec_pop (wake_callbacks q) with Some (t, _) => alter (λ _, Ready) t m | None => m end.

Lemma sys_exit_spec cur v (s : Ps) p pl a' :
  procs s !! cur = Some p → Fifo.remove_thread cur (pool s) = Ok (tt, pl) → dealloc_user_stack cur (spaces s) = Ok (tt, a') →
  let q := parent p ≫= λ h, procs s !! h in
  ∃ s', sys_exit cur v s = Ok (tt, s') ∧ pool s' = pl ∧ spaces s' = a' ∧
    st s' = st_after q (alter (λ _, Zombie) cur (st s)) ∧
    ∀ k, procs s' !! k = if decide (parent p = Some k) then (λ q, parent_after p q cur v) <$> procs s !! k else procs s !! k.
Proof.
  intros Hp Hr Hd q. unfold sys_exit. run_refl.
  erewrite M_bind_eq; [|unfold on_pool; cbn; by rewrite Hr].
  erewrite M_bind_eq; [|unfold on_spaces; cbn; by rewrite Hd].
  erewrite M_bind_eq; [|by apply process_of_eq]. run_refl. cbn [procs with_st].
  unfold q. destruct (parent p) as [h|] eqn:Eh; cbn [mbind option_bind]; [destruct (procs s !! h) as [q0|] eqn:Eq|].
  - run_refl. run_refl. erewrite M_bind_eq.
    2:{ apply process_of_eq. cbn. by rewrite !lookup_alter_eq, Eq. }
    cbn [wake_callbacks with_exited with_times].
    assert (∀ k, alter (λ q, with_exited q (child_exited q ++ [(pid p, cur, Z.land v 255)])) h
              (alter (λ q, with_times q (add_child_times (times q) (times p))) h (procs s)) !! k =
            if decide (k = h) then Some (with_exited (with_times q0 (add_child_times (times q0) (times p)))
              (child_exited q0 ++ [(pid p, cur, Z.land v 255)])) else procs s !! k) as Hl.
    { intros k. rewrite !lookup_alter. repeat case_decide; subst; try done. by rewrite Eq. }
    unfold parent_after, st_after. cbn [mbind option_bind wake_callbacks with_exited with_times].
    destruct (vec_pop (wake_callbacks q0)) as [[t rest]|] eqn:Ep; eexists; (split; [done|]); cbn [pool spaces st procs with_st with_procs];
      (split_and!; try done); intros k.
    + rewrite lookup_alter, !Hl. repeat case_decide; simplify_eq; try done. rewrite Eq. cbn. by rewrite Ep.
    + rewrite Hl. repeat case_decide; simplify_eq; try done. rewrite Eq. cbn. by rewrite Ep.
  - eexists. split; [done|]. cbn. split_and!; try done. intros k. case_decide; simplify_eq; [by rewrite Eq|done].
  - eexists. split; [done|]. cbn. split_and!; try done.
Qed.

Lemma sys_exit_inv cur v (s s' : Ps) : sys_exit cur v s = Ok (tt, s') →
  ∃ p pl a', procs s !! cur = Some p ∧ Fifo.remove_thread cur (pool s) = Ok (tt, pl) ∧
    dealloc_user_stack cur (spaces s) = Ok (tt, a').
Proof.
  unfold sys_exit. run_refl. intros H. apply M_bind_Ok in H as ([] & s1 & H1 & H). unfold on_pool in H1. cbn in H1.
  destruct (Fifo.remove_thread cur (pool s)) as [[[] pl]|] eqn:Er; [|done]. injection H1 as <-.
  apply M_bind_Ok in H as ([] & s2 & H2 & H). unfold on_spaces in H2. cbn in H2.
  destruct (dealloc_user_stack cur (spaces s)) as [[[] a']|] eqn:Ed; [|done]. injection H2 as <-.
  apply M_bind_Ok in H as (p & s3 & H3 & _). unfold process_of in H3. revert H3. run_refl. cbn [procs with_st].
  destruct (procs s !! cur) as [p0|]; [|done]. intros _. by exists p0, pl, a'.
Qed.

Lemma take_exited_any l e : take_exited (-1) (l ++ [e]) = (Some e, l).
Proof. unfold take_exited. cbn. by rewrite vec_pop_snoc. Qed.

Lemma take_exited_pid l e : 0 ≤ e.1.1 < 2 ^ 63 →
  take_exited e.1.1 (l ++ [e]) = (Some e, filter (λ x, x.1.1 ≠ e.1.1) l).
Proof.
  intros He. unfold take_exited. replace (e.1.1 =? -1) with false by lia.
  rewrite cast_in, !filter_app by lia. rewrite (filter_cons_True (λ x : Z * Z * Z, x.1.1 = e.1.1)) by done.
  rewrite filter_nil, vec_pop_snoc. rewrite (filter_cons_False (λ x : Z * Z * Z, x.1.1 ≠ e.1.1)) by (intros []; done).
  by rewrite filter_nil, app_nil_r.
Qed.

(** Taking nothing leaves nothing to take. *)
Lemma take_exited_None a l rest : take_exited a l = (None, rest) → (take_exited a rest).1 = None.
Proof.
  unfold take_exited. destruct (a =? -1).
  - destruct (vec_pop l) as [[]|] eqn:E; [done|]. intros [= <-]. by rewrite E.
  - intros [= _ <-]. cbn. rewrite list_filter_filter, filter_none; [done|]. apply Forall_true. intros x [? ?]. done.
Qed.

(** The exit status of a child reaches its parent: after [sys_exit] the child is off
    the scheduler, its times are added to the parent's, a parent asleep in [sys_wait4]
    is ready again, and the parent's [sys_wait4], for any child or for this one,
    returns its process id and status and takes it off the list. *)
Theorem exit_status_delivered (s : Ps) (c h : Z) (p q : Process) (v : Z) (a' : A) :
  procs s !! c = Some p → parent p = Some h → procs s !! h = Some q → 0 ≤ pid p < 2 ^ 63 →
  NoDup (pool s) → c ∈ pool s → dealloc_user_stack c (spaces s) = Ok (tt, a') →
  ∃ s1, sys_exit c v s = Ok (tt, s1) ∧ (c ∉ pool s1) ∧
    (∃ q1, procs s1 !! h = Some q1 ∧ times q1 = add_child_times (times q) (times p)) ∧
    (wake_callbacks q = [h] → h ≠ c → is_Some (st s !! h) → st s1 !! h = Some Ready) ∧
    ∀ arg, arg = -1 ∨ arg = pid p → ∃ s2 q2,
      sys_wait4 h arg s1 = Ok (Some (pid p, Z.shiftl (Z.land v 0xFF) 8), s2) ∧ procs s2 !! h = Some q2 ∧
      child_exited q2 = (if arg =? -1 then child_exited q else filter (λ e, e.1.1 ≠ pid p) (child_exited q)) ∧
      child q2 = filter (λ x, x ≠ c) (child q).
Proof.
  intros Hp Hh Hq Hr Hn Hc Hd.
  destruct (sys_exit_spec c v s p _ a' Hp (Fifo.remove_thread_eq c _ Hn Hc) Hd) as (s1 & H1 & Hpool & _ & Hst & Hprocs).
  exists s1. split; [done|]. split; [rewrite Hpool, list_elem_of_filter; by intros [? _]|].
  specialize (Hprocs h). rewrite decide_True, Hq in Hprocs by done. cbn in Hprocs.
  set (q1 := parent_after p q c v) in *. set (e := (pid p, c, Z.land v 255)).
  assert (child_exited q1 = child_exited q ++ [e] ∧ child q1 = child q ∧ times q1 = add_child_times (times q) (times p)) as (Hce & Hch & Htm).
  { unfold q1, parent_after. by destruct (vec_pop _) as [[]|]. }
  split; [eauto|]. split.
  { intros Hw Hne [x Hx]. rewrite Hst, Hh. cbn. rewrite Hq. unfold st_after. cbn. rewrite Hw. cbn.
    rewrite lookup_alter_eq, lookup_alter_ne, Hx by done. done. }
  intros arg Harg. unfold sys_wait4. erewrite M_bind_eq; [|by apply process_of_eq]. rewrite Hce.
  assert (take_exited arg (child_exited q ++ [e]) =
    (Some e, if arg =? -1 then child_exited q else filter (λ e, e.1.1 ≠ pid p) (child_exited q))) as ->.
  { destruct Harg as [->| ->]; [apply take_exited_any|]. replace (pid p =? -1) with false by lia.
    change (pid p) with e.1.1. apply take_exited_pid. cbn. lia. }
  run_refl. unfold e. run_refl.
  assert ((if arg =? -1 then icast 64 (pid p) else arg) = pid p) as ->.
  { destruct Harg as [->| ->]; [apply icast_in; lia|]. by replace (pid p =? -1) with false by lia. }
  eexists _, _. split; [done|].
  cbn. rewrite !lookup_alter_eq, Hprocs. cbn. split; [done|]. cbn. by rewrite Hch.
Qed.

(** ** Sleeping parents

    [w] records which threads are inside [sys_wait4], and for which argument. *)
Inductive wait_step : Ps * gmap Z Z → Ps * gmap Z Z → Prop :=
  | step_exit t v s s' w : st s !! t = Some Ready → w !! t = None →
      sys_exit t v s = Ok (tt, s') → wait_step (s, w) (s', w)
  | step_wait t a r s s' w : st s !! t = Some Ready → w !! t = None ∨ w !! t = Some a →
      sys_wait4 t a s = Ok (Some r, s') → wait_step (s, w) (s', delete t w)
  | step_sleep t a s s' w : st s !! t = Some Ready → w !! t = None ∨ w !! t = Some a →
      sys_wait4 t a s = Ok (None, s') → wait_step (s, w) (s', <[t := a]> w)
  | step_fork t h pid_ s s' w : st s !! t = Some Ready → w !! t = None → procs s !! h = None → st s !! h = None →
      fork_process t h pid_ s = Ok (tt, s') → wait_step (s, w) (s', w)
  | step_drop h s s' w : st s !! h = Some Zombie → drop_process h s = Ok (tt, s') → wait_step (s, w) (s', w).

(** A process sleeps with one callback, its own, and with nothing to collect; all
    others have no callback. *)
Definition asleep_ok (s : Ps) (w : gmap Z Z) (t : Z) (p : Process) : Prop :=
  if decide (st s !! t = Some Waiting) then
    wake_callbacks p = [t] ∧ ∃ a, w !! t = Some a ∧ (take_exited a (child_exited p)).1 = None
  else wake_callbacks p = [].
Definition wait_inv (c : Ps * gmap Z Z) : Prop := ∀ t p, procs c.1 !! t = Some p → asleep_ok c.1 c.2 t p.

(** Before the first fork *)
Definition no_waiters (s : Ps) : Prop :=
  ∀ t p, procs s !! t = Some p → st s !! t ≠ Some Waiting ∧ wake_callbacks p = [].

Lemma asleep_ok_frame (s s' : Ps) w w' t p : st s' !! t = st s !! t → w' !! t = w !! t → asleep_ok s w t p → asleep_ok s' w' t p.
Proof. unfold asleep_ok. by intros -> ->. Qed.

Lemma asleep_ok_awake (s : Ps) w t p : st s !! t ≠ Some Waiting → asleep_ok s w t p ↔ wake_callbacks p = [].
Proof. intros H. unfold asleep_ok. by rewrite decide_False. Qed.

Lemma asleep_ok_asleep (s : Ps) w t p : st s !! t = Some Waiting → asleep_ok s w t p ↔
  wake_callbacks p = [t] ∧ ∃ a, w !! t = Some a ∧ (take_exited a (child_exited p)).1 = None.
Proof. intros H. unfold asleep_ok. by rewrite decide_True. Qed.

Lemma sys_wait4_inv t a (s : Ps) o s' : sys_wait4 t a s = Ok (o, s') →
  ∃ p p', procs s !! t = Some p ∧ (∀ k, procs s' !! k = if decide (t = k) then Some p' else procs s !! k) ∧
    match o with
    | Some _ => st s' = st s ∧ wake_callbacks p' = wake_callbacks p
    | None => st s' = alter (λ _, Waiting) t (st s) ∧ wake_callbacks p' = wake_callbacks p ++ [t] ∧
                (take_exited a (child_exited p')).1 = None
    end.
Proof.
  unfold sys_wait4. intros H. apply M_bind_Ok in H as (p & s1 & H1 & H). unfold process_of in H1. revert H1. run_refl.
  destruct (procs s !! t) as [p0|] eqn:Ep; [|done]. intros [= <- <-].
  destruct (take_exited a (child_exited p0)) as [[[[cpid h] v]|] rest] eqn:Et; revert H; run_refl; run_refl.
  - intros [= <- <-]. eexists p0, _. split; [done|]. split; [|split; [done|]].
    + intros k. cbn. destruct (decide (t = k)) as [<-|]; [by rewrite !lookup_alter_eq, Ep|by rewrite !lookup_alter_ne].
    + done.
  - run_refl. intros [= <- <-]. eexists p0, _. split; [done|]. split; [|split; [done|split]].
    + intros k. cbn. destruct (decide (t = k)) as [<-|]; [by rewrite !lookup_alter_eq, Ep|by rewrite !lookup_alter_ne].
    + done.
    + by apply take_exited_None in Et.
Qed.

(** A thread's exit keeps the sleepers in order: its parent, if asleep, is awake. *)
Lemma exit_keeps t v (s s' : Ps) w : st s !! t = Some Ready → sys_exit t v s = Ok (tt, s') →
  wait_inv (s, w) → wait_inv (s', w).
Proof.
  intros Ht H Hinv k x Hk. cbn [fst snd] in *.
  destruct (sys_exit_inv _ _ _ _ H) as (p & pl & a' & Hp & Hr & Hd).
  destruct (sys_exit_spec t v s p pl a' Hp Hr Hd) as (s1 & H1 & _ & _ & Hst & Hprocs).
  assert (s1 = s') as -> by congruence. rewrite Hprocs in Hk. clear H1 Hprocs H.
  assert (parent p ≠ Some k → procs s !! k = Some x →
    st s' !! k = alter (λ _, Zombie) t (st s) !! k → asleep_ok s' w k x) as Hother.
  { intros Hpk Hx Hk'. pose proof (Hinv k x Hx) as Hok. cbn [fst snd] in Hok. rewrite lookup_alter in Hk'. case_decide as Htk.
    - subst k. apply asleep_ok_awake in Hok; [|congruence]. apply asleep_ok_awake; [|done]. rewrite Hk'. by destruct (st s !! t).
    - by eapply asleep_ok_frame. }
  destruct (parent p) as [h|] eqn:Eh; cbn [mbind option_bind] in Hst; [|case_decide; [done|apply Hother; [done..|by rewrite Hst]]].
  destruct (procs s !! h) as [q0|] eqn:Eq.
  2:{ case_decide; simplify_eq; [rewrite Eq in Hk; discriminate|]. apply Hother; [congruence|done|by rewrite Hst]. }
  pose proof (Hinv h q0 Eq) as Hq. cbn [fst snd] in Hq. unfold st_after in Hst. cbn [mbind option_bind] in Hst.
  destruct (decide (st s !! h = Some Waiting)) as [Hwt|Hwt].
  - apply asleep_ok_asleep in Hq as [Hcb _]; [|done]. rewrite Hcb in Hst. cbn in Hst. case_decide; simplify_eq.
    + rewrite Eq in Hk. injection Hk as <-. apply asleep_ok_awake.
      * rewrite Hst, lookup_alter_eq. by destruct (alter _ _ (st s) !! _).
      * unfold parent_after. cbn. by rewrite Hcb.
    + apply Hother; [done..|]. rewrite Hst, lookup_alter_ne; congruence.
  - apply asleep_ok_awake in Hq; [|done]. rewrite Hq in Hst. cbn in Hst. case_decide; simplify_eq; [|apply Hother; [done..|by rewrite Hst]].
    rewrite Eq in Hk. injection Hk as <-. apply asleep_ok_awake.
    + rewrite Hst, lookup_alter. case_decide; [by destruct (st s !! t)|done].
    + unfold parent_after. cbn. by rewrite Hq.
Qed.

Lemma wait_step_inv c c' : wait_step c c' → wait_inv c → wait_inv c'.
Proof.
  intros Hst Hinv. destruct Hst as [t v s s' w Ht Hw H|t a r s s' w Ht Hw H|t a s s' w Ht Hw H|t h pid_ s s' w Ht Hw Hh1 Hh2 H|h s s' w Hz H].
  - by eapply exit_keeps.
  - intros k x Hk. cbn [fst snd] in *. destruct (sys_wait4_inv _ _ _ _ _ H) as (p & p' & Hp & Hprocs & Hst & Hcb).
    rewrite Hprocs in Hk. pose proof (Hinv t p Hp) as Ht'. cbn in Ht'. apply asleep_ok_awake in Ht'; [|congruence].
    case_decide; simplify_eq; [apply asleep_ok_awake; congruence|].
    eapply asleep_ok_frame; [by rewrite Hst|by rewrite lookup_delete_ne|by apply Hinv].
  - intros k x Hk. cbn [fst snd] in *. destruct (sys_wait4_inv _ _ _ _ _ H) as (p & p' & Hp & Hprocs & Hst & Hcb & Hte).
    rewrite Hprocs in Hk. pose proof (Hinv t p Hp) as Ht'. cbn in Ht'. apply asleep_ok_awake in Ht'; [|congruence].
    case_decide; simplify_eq.
    + apply asleep_ok_asleep; [by rewrite Hst, lookup_alter_eq, Ht|]. split; [by rewrite Hcb, Ht'|].
      exists a. by rewrite lookup_insert_eq.
    + eapply asleep_ok_frame; [by rewrite Hst, lookup_alter_ne|by rewrite lookup_insert_ne|by apply Hinv].
  - intros k x Hk. cbn [fst snd] in *. unfold fork_process in H. cbv [mbind M_bind modify upd set_st on_pool Fifo.add_thread] in H.
    injection H as <-. cbn in Hk. assert (t ≠ h) as Hth by congruence.
    rewrite lookup_alter in Hk. case_decide as Htk; simplify_eq.
    + rewrite lookup_insert_ne in Hk by done. destruct (procs s !! k) as [p|] eqn:Ep; [|done]. injection Hk as <-.
      pose proof (Hinv k p Ep) as Hok. cbn in Hok. apply asleep_ok_awake in Hok; [|congruence]. apply asleep_ok_awake; [|done].
      cbn. rewrite lookup_alter_eq, lookup_insert_ne, Ht by done. done.
    + rewrite lookup_insert in Hk. case_decide; simplify_eq.
      * apply asleep_ok_awake; [|done]. cbn. rewrite lookup_alter_ne, lookup_insert_eq by done. done.
      * eapply asleep_ok_frame; [|done|by apply Hinv]. cbn. by rewrite lookup_alter_ne, lookup_insert_ne by done.
  - intros k x Hk. cbn [fst snd] in *. unfold drop_process, modify in H. injection H as <-. cbn in Hk.
    apply lookup_delete_Some in Hk as [Hne Hk]. eapply asleep_ok_frame; [|done|by apply Hinv]. cbn. by rewrite lookup_delete_ne.
Qed.

(** C21: No exit is missed: however forks, exits and waits interleave, a process that
    sleeps in [sys_wait4] has no exited child that the call would return, and the
    callback that wakes it is registered. *)
Theorem wait4_no_lost_wakeup (s0 s : Ps) (w : gmap Z Z) (t : Z) (p : Process) :
  no_waiters s0 → rtc wait_step (s0, ∅) (s, w) → procs s !! t = Some p → st s !! t = Some Waiting →
  wake_callbacks p = [t] ∧ ∃ a, w !! t = Some a ∧ (take_exited a (child_exited p)).1 = None.
Proof.
  intros H0 Hrun Hp Ht. assert (wait_inv (s, w)) as Hinv.
  { revert Hrun. apply (rtc_ind_r wait_inv).
    - intros k x Hk. destruct (H0 k x Hk) as [H1 H2]. by apply asleep_ok_awake.
    - intros c c' _ Hstep. by apply wait_step_inv. }
  specialize (Hinv t p Hp). by apply asleep_ok_asleep in Hinv.
Qed.
End wait.

(** ** Examples *)

Definition no_times : Times := {| tms_utime := 3; tms_stime := 4; tms_cutime := 0; tms_cstime := 0 |}.
Definition keep (t : Z) : M unit unit := mret tt.
(** A parent 1 with process id 5 and its child 2 with process id 7 *)
Definition family : Procs unit := {|
  st := {[1 := Ready; 2 := Ready]};
  procs := {[1 := {| pid := 5; times := no_times; parent := None; child := [2]; child_exited := []; wake_callbacks := [] |};
             2 := {| pid := 7; times := no_times; parent := Some 1; child := []; child_exited := []; wake_callbacks := [] |}]};
  pool := [1; 2]; spaces := tt |}.

Lemma exit_status_delivered_witness : ∃ s1 s2,
  sys_exit keep 2 300 family = Ok (tt, s1) ∧ sys_wait4 1 (-1) s1 = Ok (Some (7, 44 * 256), s2).
Proof.
  destruct (exit_status_delivered keep family 2 1
    {| pid := 7; times := no_times; parent := Some 1; child := []; child_exited := []; wake_callbacks := [] |}
    {| pid := 5; times := no_times; parent := None; child := [2]; child_exited := []; wake_callbacks := [] |} 300 tt)
    as (s1 & H1 & _ & _ & _ & H2); [done|done|done|done|by apply (bool_decide_eq_true_1 _)|by apply (bool_decide_eq_true_1 _)|done|].
  destruct (H2 (-1) (or_introl eq_refl)) as (s2 & _ & H3 & _). exists s1, s2. split; [exact H1|exact H3].
Defined.

Lemma wait4_no_lost_wakeup_witness : ∃ s p,
  sys_wait4 1 7 family = Ok (None, s) ∧ procs s !! 1 = Some p ∧ wake_callbacks p = [1] ∧
  (take_exited 7 (child_exited p)).1 = None.
Proof.
  destruct (sys_wait4 1 7 family) as [[o s]|] eqn:E; [|vm_compute in E; discriminate].
  destruct o as [?|]; [vm_compute in E; discriminate|].
  set (p := {| pid := 5; times := no_times; parent := None; child := [2]; child_exited := []; wake_callbacks := [1] |}).
  assert (procs s !! 1 = Some p) as Hp by (vm_compute in E; injection E as <-; reflexivity).
  assert (st s !! 1 = Some Waiting) as Hs by (vm_compute in E; injection E as <-; reflexivity).
  destruct (wait4_no_lost_wakeup keep family s {[1 := 7]} 1 p) as (H1 & a & H2 & H3); [| |exact Hp|exact Hs|].
  - intros t q Hq. cbn in Hq. apply lookup_insert_Some in Hq as [[<- <-]|[_ Hq]]; [done|].
    apply lookup_singleton_Some in Hq as [<- <-]. done.
  - eapply rtc_l; [|apply rtc_refl]. apply (step_sleep keep 1 7 family s ∅); [reflexivity|by left|exact E].
  - exists s, p. split; [done|]. split; [exact Hp|]. split; [exact H1|].
    rewrite lookup_singleton_eq in H2. by injection H2 as <-.
Defined.

(** A process id that was used again before the first child was collected: one call
    takes both children off the list and returns the later one. *)
Example wait4_reused_pid : take_exited 7 [(7, 2, 1); (8, 3, 0); (7, 4, 9)] = (Some (7, 4, 9), [(8, 3, 0)]).
Proof. reflexivity. Qed.
