(* ===== verification/Clock.v ===== *)
(** * The clock, sleeping and the times of a process

    kernel/arch/riscv/timer.rs, the calls of kernel/src/syscall/misc.rs, and the accounting of
    user and system time in [syscall_handler] (syscall/mod.rs), [Thread::switch_to]
    (process/thread.rs) and [ret_to_restore] (arch/riscv/trap.rs).  [t] is the value of the
    [time] register; a [Duration] is its nanoseconds. *)

From stdpp Require Import gmap fin_maps.
From S2P Require Import Prelude Io FatIo Address BTree Sched Pipe Wait.

Definition TICKS_PER_SEC : Z := 100.
Definition MSEC_PER_SEC : Z := 1000.
Definition USEC_PER_SEC : Z := 1000000.
Definition NSEC_PER_SEC : Z := 1000000000.

Section clock.
Context {C : Config}.

Definition INTERVAL : Z := CLOCK_FREQ `div` TICKS_PER_SEC - 1.

Definition get_time_ms (t : Z) : Z := t `div` (CLOCK_FREQ `div` MSEC_PER_SEC).
(** (seconds, microseconds) *)
Definition get_time (t : Z) : Z * Z :=
  let usec := t `div` (CLOCK_FREQ `div` USEC_PER_SEC) in
  (usec `div` USEC_PER_SEC, usec `mod` USEC_PER_SEC).
Definition get_duration (t : Z) : exec Z :=
  n ← u64 (t * (NSEC_PER_SEC `div` 1000));
  let nsec := n `div` (CLOCK_FREQ `div` 1000) in
  Ok (nsec `div` NSEC_PER_SEC * NSEC_PER_SEC + nsec `mod` NSEC_PER_SEC).
Definition get_cycles (t : Z) : Z := t.

(** ** Ticks and sleeping

    The callbacks of the timer that the kernel registers wake a thread. *)

Record Clock := { timeout : Z; ticks : Z; events : list (Z * Z); statuses : gmap Z ThreadStatus }.

Definition wake (th : Z) : M (gmap Z ThreadStatus) unit := modify (alter (λ _, Ready) th).

(** [set_timer(time + INTERVAL)] *)
Definition set_next_timeout (t : Z) : M Clock unit :=
  x ← lift (uadd t INTERVAL);
  modify (λ s, {| timeout := x; ticks := ticks s; events := events s; statuses := statuses s |}).

(** [tick]: the registers are read twice. *)
Definition tick (t t' : Z) : M Clock unit :=
  set_next_timeout t ;;
  s ← get;
  n ← lift (u64 (ticks s + 1));
  now ← lift (get_duration t');
  match Timer.expire wake now (events s) (statuses s) with
  | Ok (ev, st) => put {| timeout := timeout s; ticks := n; events := ev; statuses := st |}
  | Panic e => panic e
  end.

(** [sys_nanosleep] in two steps: an interrupt can come between them.  [sys_nanosleep] itself is the run without one. *)
Definition nanosleep_register (t req th : Z) : M Clock unit :=
  now ← lift (get_duration t);
  deadline ← lift (Timer.duration_add req now);
  s ← get;
  ev ← lift (Timer.register deadline th (events s));
  put {| timeout := timeout s; ticks := ticks s; events := ev; statuses := statuses s |}.
Definition nanosleep_wait (th : Z) : M Clock unit :=
  modify (λ s, {| timeout := timeout s; ticks := ticks s; events := events s; statuses := alter (λ _, Waiting) th (statuses s) |}).
Definition sys_nanosleep (t req th : Z) : M Clock unit := nanosleep_register t req th ;; nanosleep_wait th.

(** [sys_gettimeofday]: the two words stored *)
Definition sys_gettimeofday (t : Z) : list Z := let '(sec, usec) := get_time t in [sec; usec].

(** ** Times *)

(** [sys_times]: the four words stored *)
Definition sys_times (ts : Times) : list Z :=
  (λ x, x `div` INTERVAL) <$> [tms_utime ts; tms_stime ts; tms_cutime ts; tms_cstime ts].

(** A thread's [cycles] and the times of its process *)
Record Acct := { cycles : Z; a_times : Times }.
Definition charge_user (n : Z) (ts : Times) : Times :=
  {| tms_utime := cast 64 (tms_utime ts + n); tms_stime := tms_stime ts; tms_cutime := tms_cutime ts; tms_cstime := tms_cstime ts |}.
Definition charge_system (n : Z) (ts : Times) : Times :=
  {| tms_utime := tms_utime ts; tms_stime := cast 64 (tms_stime ts + n); tms_cutime := tms_cutime ts; tms_cstime := tms_cstime ts |}.

(** The start of [syscall_handler]; its end, and the first half of [switch_to]; the
    second half of [switch_to], and [ret_to_restore] *)
Definition enter_kernel (now : Z) : M Acct unit :=
  s ← get; d ← lift (usub now (cycles s)); put {| cycles := now; a_times := charge_user d (a_times s) |}.
Definition leave_kernel (now : Z) : M Acct unit :=
  s ← get; d ← lift (usub now (cycles s)); put {| cycles := now; a_times := charge_system d (a_times s) |}.
Definition resume (now : Z) : M Acct unit :=
  s ← get; put {| cycles := now; a_times := a_times s |}.
End clock.

(** [sys_uname]: the strings with their zero bytes over the fields of the user's buffer *)
Section uname.
Context (SYSNAME NODENAME RELEASE VERSION MACHINE DOMAINNAME : list Z).
Definition UTS_LEN : nat := 65.
Definition copy_field (field name : list Z) : exec (list Z) :=
  if (length (name ++ [0%Z]) <=? length field)%nat then Ok ((name ++ [0]) ++ drop (length name + 1) field) else Panic OutOfBounds.
Fixpoint copy_fields (fields names : list (list Z)) : exec (list (list Z)) :=
  match fields, names with
  | f :: fields, n :: names => x ← copy_field f n; xs ← copy_fields fields names; Ok (x :: xs)
  | _, _ => Ok []
  end.
Definition sys_uname (buf : list (list Z)) : exec (list (list Z)) :=
  copy_fields buf [SYSNAME; NODENAME; RELEASE; VERSION; MACHINE; DOMAINNAME].
End uname.

(** ** Accounting *)

(** Where a thread is between two events: in user mode, in the kernel, or off the
    processor, after a call that blocks or after the timer preempted it. *)
Inductive mode := InUser | InKernel | OffKernel | OffUser.
Inductive event := Syscall | Sysret | Block | Preempt | Resume.
Definition is_preempt (e : event) : bool := match e with Preempt => true | _ => false end.
Definition mode_step (m : mode) (e : event) : option mode :=
  match m, e with
  | InUser, Syscall => Some InKernel
  | InUser, Preempt => Some OffUser
  | InKernel, Sysret => Some InUser
  | InKernel, Block => Some OffKernel
  | OffKernel, Resume => Some InKernel
  | OffUser, Resume => Some InUser
  | _, _ => None
  end.
Definition event_run (e : event) (now : Z) : M Acct unit :=
  match e with Syscall => enter_kernel now | Sysret | Block | Preempt => leave_kernel now | Resume => resume now end.

Fixpoint trace_run (l : list (event * Z)) : M Acct unit :=
  match l with [] => mret tt | (e, now) :: l => event_run e now ;; trace_run l end.
(** A history from the mode [m] at time [t] on, and where it ends *)
Fixpoint history (m : mode) (t : Z) (l : list (event * Z)) : Prop :=
  match l with
  | [] => True
  | (e, now) :: l => t ≤ now < 2 ^ 64 ∧ match mode_step m e with Some m' => history m' now l | None => False end
  end.
(** The time a history spends where [f] says, by the mode and the event that ends it *)
Fixpoint spent (f : mode → event → bool) (m : mode) (t : Z) (l : list (event * Z)) : Z :=
  match l with
  | [] => 0
  | (e, now) :: l => (if f m e then now - t else 0) + match mode_step m e with Some m' => spent f m' now l | None => 0 end
  end.
Definition on_cpu (m : mode) : bool := match m with InUser | InKernel => true | _ => false end.
Definition in_user (m : mode) : bool := match m with InUser => true | _ => false end.
Definition cpu_time : mode → Z → list (event * Z) → Z := spent (λ m _, on_cpu m).
Definition user_time : mode → Z → list (event * Z) → Z := spent (λ m _, in_user m).
Definition preempted_time : mode → Z → list (event * Z) → Z := spent (λ m e, in_user m && is_preempt e).

Lemma spent_nonneg f m t l : history m t l → 0 ≤ spent f m t l.
Proof.
  revert m t. induction l as [|[e now] l IH]; intros m t; cbn; [done|]. intros [Ht H].
  destruct (mode_step m e) as [m'|]; [|done]. specialize (IH _ _ H). destruct (f m e); lia.
Qed.
Lemma usub_run {S} now c (s : S) : 0 ≤ c ≤ now → now < 2 ^ 64 → lift (usub now c) s = Ok (now - c, s).
Proof. intros. by rewrite usub_in by lia. Qed.
Lemma enter_kernel_eq now a : 0 ≤ cycles a ≤ now → now < 2 ^ 64 → enter_kernel now a = Ok (tt, {| cycles := now; a_times := charge_user (now - cycles a) (a_times a) |}).
Proof. intros. unfold enter_kernel. run_refl. by rewrite (M_bind_eq _ _ _ _ _ (usub_run now (cycles a) a ltac:(lia) ltac:(lia))). Qed.
Lemma leave_kernel_eq now a : 0 ≤ cycles a ≤ now → now < 2 ^ 64 → leave_kernel now a = Ok (tt, {| cycles := now; a_times := charge_system (now - cycles a) (a_times a) |}).
Proof. intros. unfold leave_kernel. run_refl. by rewrite (M_bind_eq _ _ _ _ _ (usub_run now (cycles a) a ltac:(lia) ltac:(lia))). Qed.


(** Two stretches in user mode: the first ends with a call, the second by the timer. *)
Definition sample_history : list (event * Z) := [(Syscall, 110); (Sysret, 115); (Preempt, 165); (Resume, 300); (Syscall, 301); (Block, 304)].

(** A child of [fork] starts with [cycles] 0 and reaches user mode without passing
    [ret_to_restore]: its first call charges it the time since the machine started. *)
Theorem forked_child_charged (now : Z) (ts : Times) :
  0 ≤ now < 2 ^ 64 → tms_utime ts = 0 →
  ∃ a', event_run Syscall now {| cycles := 0; a_times := ts |} = Ok (tt, a') ∧ tms_utime (a_times a') = now.
Proof.
  intros Hn Hu. cbn [event_run]. rewrite enter_kernel_eq by (cbn; lia). eexists. split; [reflexivity|]. cbn -[cast].
  rewrite Hu, cast_in by lia. lia.
Qed.

(** ** The clock *)

Section clock_facts.
Context {C : Config}.

Lemma get_duration_eq t : 0 ≤ t * 1000000 < 2 ^ 64 → get_duration t = Ok ((t * 1000000) `div` (CLOCK_FREQ `div` 1000)).
Proof.
  intros H. unfold get_duration. change (NSEC_PER_SEC `div` 1000) with 1000000. rewrite chk_in by lia. cbn. f_equal.
  pose proof (Z.div_mod ((t * 1000000) `div` (CLOCK_FREQ `div` 1000)) NSEC_PER_SEC). unfold NSEC_PER_SEC in *. lia.
Qed.
End clock_facts.

(** The clock has a last tick: from [2^64 / 10^6] cycles on, 33 days on the K210, the
    product in [get_duration] overflows and every timer interrupt panics the kernel;
    before that it does not. *)
Theorem tick_limit {C : Config} (t t' : Z) (s : Clock) :
  0 ≤ t → t + INTERVAL < 2 ^ 64 → 0 ≤ t + INTERVAL → 0 ≤ ticks s < 2 ^ 64 - 1 → 0 ≤ t' →
  (2 ^ 64 ≤ t' * 1000000 → tick t t' s = Panic Overflow) ∧
  (t' * 1000000 < 2 ^ 64 → zsorted (events s) → ∃ s', tick t t' s = Ok (tt, s') ∧ ticks s' = ticks s + 1 ∧ timeout s' = t + INTERVAL ∧
    events s' = filter (λ e, (t' * 1000000) `div` (CLOCK_FREQ `div` 1000) < e.1) (events s)).
Proof.
  intros Ht Hi Hi' Htk Ht'. unfold tick, set_next_timeout. rewrite uadd_in by lia. rewrite M_bind_assoc. run_refl.
  run_refl. run_refl. cbn [ticks]. rewrite (chk_in 64 (ticks s + 1)) by lia. run_refl. split.
  - intros Ho. apply M_bind_Panic. unfold get_duration, lift. unfold chk at 1. change (NSEC_PER_SEC `div` 1000) with 1000000.
    by replace ((0 <=? t' * 1000000) && (t' * 1000000 <? 2 ^ 64)) with false by lia.
  - intros Ho Hs. rewrite get_duration_eq by lia. run_refl. cbn [events statuses timeout].
    rewrite Timer.expire_spec by done. cbv zeta.
    assert (∀ l st, ∃ st', for_each l wake st = Ok (tt, st')) as Hw.
    { induction l as [|x l IH]; intros st; cbn [for_each]; [by eexists|]. unfold wake at 1. run_refl. apply IH. }
    destruct (Hw (filter (λ e : Z * Z, e.1 ≤ (t' * 1000000) `div` (CLOCK_FREQ `div` 1000)) (events s)).*2 (statuses s)) as [st' Hst].
    rewrite (M_bind_eq _ _ _ _ _ Hst). cbn. eexists. split; [reflexivity|]. done.
Qed.

Definition late_clock : Clock := {| timeout := 0; ticks := 7; events := []; statuses := ∅ |}.
Lemma tick_limit_witness : @tick k210_config 18446744073710 18446744073710 late_clock = Panic Overflow.
Proof.
  destruct (@tick_limit k210_config 18446744073710 18446744073710 late_clock) as [H _].
  - lia.
  - vm_compute. reflexivity.
  - vm_compute. discriminate.
  - cbn. lia.
  - lia.
  - apply H. lia.
Defined.

(** On the K210 [gettimeofday] is fast: it divides by 6 cycles a microsecond, and
    there are six and a half.  After twelve seconds it says thirteen, while the clock of
    [nanosleep] says twelve. *)
Theorem gettimeofday_fast (k : Z) : 0 ≤ k < 10000 → let t := 12 * @CLOCK_FREQ k210_config * k in
  @sys_gettimeofday k210_config t = [13 * k; 0] ∧ @get_duration k210_config t = Ok (12 * k * NSEC_PER_SEC).
Proof.
  intros Hk t. assert (@CLOCK_FREQ k210_config = 6500000) as HC by reflexivity.
  assert (t = 78000000 * k) as Ht by (unfold t; lia). clearbody t. split.
  - unfold sys_gettimeofday, get_time. rewrite HC, Ht. change (6500000 `div` USEC_PER_SEC) with 6.
    replace (78000000 * k) with (13 * k * USEC_PER_SEC * 6) by (unfold USEC_PER_SEC; lia). rewrite Z.div_mul by lia.
    rewrite Z.div_mul, Z.mod_mul by (unfold USEC_PER_SEC; lia). done.
  - rewrite get_duration_eq by lia. f_equal. rewrite HC, Ht. change (6500000 `div` 1000) with 6500.
    replace (78000000 * k * 1000000) with (12 * k * NSEC_PER_SEC * 6500) by (unfold NSEC_PER_SEC; lia). by rewrite Z.div_mul by lia.
Qed.
Lemma gettimeofday_fast_witness :
  @sys_gettimeofday k210_config 78000000 = [13; 0] ∧ @get_duration k210_config 78000000 = Ok 12000000000.
Proof. exact (gettimeofday_fast 1 ltac:(lia)). Defined.

(** ** Sleeping *)

Section sleep.
Context {C : Config}.

Lemma wake_all l th : ∀ (st : gmap Z ThreadStatus), ∃ st', for_each l wake st = Ok (tt, st') ∧
  st' !! th = if decide (th ∈ l) then (λ _, Ready) <$> st !! th else st !! th.
Proof.
  induction l as [|x l IH]; intros st; cbn [for_each]; [by exists st|]. unfold wake at 1. run_refl.
  destruct (IH (alter (λ _, Ready) x st)) as (st' & H & E). exists st'. split; [done|]. rewrite E, lookup_alter.
  destruct (decide (x = th)) as [->|Hne].
  - rewrite (decide_True (P := th ∈ th :: l)) by set_solver. case_decide; by destruct (st !! th).
  - destruct (decide (th ∈ l)); [rewrite decide_True by set_solver|rewrite decide_False by set_solver]; done.
Qed.

Lemma zsorted_filter (P : Z * Z → Prop) `{!∀ e, Decision (P e)} (l : list (Z * Z)) : zsorted l → zsorted (filter P l).
Proof.
  unfold zsorted. induction 1 as [|e l Hs IH Hf]; [constructor|]. rewrite filter_cons. case_decide; [|done]. constructor; [done|].
  rewrite Forall_forall in *. intros x Hx%list_elem_of_filter. naive_solver.
Qed.

(** A tick at the clock's time [now] *)
Lemma tick_inv t t' s u s' th : zsorted (events s) → tick t t' s = Ok (u, s') →
  ∃ now, get_duration t' = Ok now ∧ events s' = filter (λ e, now < e.1) (events s) ∧ zsorted (events s') ∧
    statuses s' !! th = if decide (th ∈ (filter (λ e : Z * Z, e.1 ≤ now) (events s)).*2) then (λ _, Ready) <$> statuses s !! th else statuses s !! th.
Proof.
  intros Hs (u1 & s1 & H1 & H)%M_bind_Ok. unfold set_next_timeout in H1. apply M_bind_Ok in H1 as (x & s2 & [_ ->]%lift_Ok & H1).
  injection H1 as <- <-. revert H. run_refl. cbn. intros (n & s2 & [_ ->]%lift_Ok & H)%M_bind_Ok.
  apply M_bind_Ok in H as (now & s2 & [Hnow ->]%lift_Ok & H). exists now. split; [done|]. revert H.
  rewrite Timer.expire_spec by done. cbv zeta. destruct (wake_all (filter (λ e : Z * Z, e.1 ≤ now) (events s)).*2 th (statuses s)) as (st' & Hw & E).
  rewrite (M_bind_eq _ _ _ _ _ Hw). intros [= _ <-]. cbn. split; [done|]. split; [by apply zsorted_filter|done].
Qed.

Fixpoint ticks_run (l : list (Z * Z)) : M Clock unit :=
  match l with [] => mret tt | (t, t') :: l => tick t t' ;; ticks_run l end.
Definition due (d : Z) (tk : Z * Z) : bool := match get_duration tk.2 with Ok now => d <=? now | Panic _ => false end.

(** A thread in the state [x] whose only event is at [d] *)
Definition booked (s : Clock) (th d : Z) (x : ThreadStatus) : Prop :=
  zsorted (events s) ∧ statuses s !! th = Some x ∧ (d, th) ∈ events s ∧ ∀ d', (d', th) ∈ events s → d' = d.
(** A thread that its event has set ready, and that has no other *)
Definition woken (s : Clock) (th : Z) : Prop := zsorted (events s) ∧ statuses s !! th = Some Ready ∧ ∀ d', (d', th) ∉ events s.

Lemma booked_tick s th d x t t' u s' : booked s th d x → tick t t' s = Ok (u, s') → if due d (t, t') then woken s' th else booked s' th d x.
Proof.
  intros (Hz & Hst & Hin & Hone) H. destruct (tick_inv _ _ _ _ _ th Hz H) as (now & Hnow & Ee & Hz' & Es). unfold due. cbn. rewrite Hnow.
  destruct (d <=? now) eqn:Hd.
  - apply Z.leb_le in Hd. split; [done|]. rewrite Es, decide_True, Hst, Ee.
    + split; [done|]. intros d' [Hlt Hx]%list_elem_of_filter. rewrite (Hone _ Hx) in Hlt. cbn in Hlt. lia.
    + apply list_elem_of_fmap. exists (d, th). split; [done|]. by apply list_elem_of_filter.
  - apply Z.leb_gt in Hd. split; [done|]. rewrite Es, decide_False, Ee.
    + split; [done|]. setoid_rewrite list_elem_of_filter. split; [by split|]. intros d' [_ ?]. eauto.
    + intros ([d' y] & -> & [Hl Hx]%list_elem_of_filter)%list_elem_of_fmap. cbn in *. rewrite (Hone _ Hx) in Hl. lia.
Qed.
Lemma ticks_awake l th : ∀ s u s', zsorted (events s) → (∀ d', (d', th) ∉ events s) → ticks_run l s = Ok (u, s') →
  zsorted (events s') ∧ statuses s' !! th = statuses s !! th ∧ ∀ d', (d', th) ∉ events s'.
Proof.
  induction l as [|[t t'] l IH]; intros s u s' Hz Hno; cbn [ticks_run]; [by intros [= _ <-]|].
  intros (u1 & s1 & H1 & H)%M_bind_Ok. destruct (tick_inv _ _ _ _ _ th Hz H1) as (now & _ & Ee & Hz' & Es).
  destruct (IH s1 u s' Hz') as (Hz2 & E & Hno2); [rewrite Ee; intros d' [_ ?]%list_elem_of_filter; by eapply Hno|done|].
  split; [done|]. split; [|done]. rewrite E, Es, decide_False; [done|].
  intros ([d' x] & -> & [_ Hx]%list_elem_of_filter)%list_elem_of_fmap. by eapply Hno.
Qed.

Lemma booked_ticks l th d x : ∀ s u s', booked s th d x → ticks_run l s = Ok (u, s') → if existsb (due d) l then woken s' th else booked s' th d x.
Proof.
  induction l as [|[t t'] l IH]; intros s u s' Hs; cbn [ticks_run existsb]; [by intros [= _ <-]|].
  intros (u1 & s1 & H1 & H)%M_bind_Ok. pose proof (booked_tick _ _ _ _ _ _ _ _ Hs H1) as H2.
  destruct (due d (t, t')); cbn [orb]; [|by apply (IH s1 u)]. destruct H2 as (Hz & Hst & Hno).
  destruct (ticks_awake l th s1 u s' Hz Hno H) as (Hz' & Hst' & Hno'). split; [done|]. by rewrite Hst'.
Qed.

(** C25: A thread that calls [nanosleep] sleeps at least as long as it asked, and at most a
    nanosecond longer for every event in the queue: the first tick of the clock after
    that wakes it, and no earlier one does, unless that tick comes between the registration of the event and the store of
    [Waiting]: then the event is gone before the thread waits, and no tick ever wakes it. *)
Theorem nanosleep_correct (t now req th : Z) (s : Clock) (st : ThreadStatus) :
  zsorted (events s) → statuses s !! th = Some st → (∀ d, (d, th) ∉ events s) → get_duration t = Ok now →
  req + now + Z.of_nat (length (events s)) < Timer.DURATION_END →
  ∃ d s1, nanosleep_register t req th s = Ok (tt, s1) ∧ req + now ≤ d ≤ req + now + Z.of_nat (length (events s)) ∧
    sys_nanosleep t req th s = nanosleep_wait th s1 ∧
    ∀ between s2, ticks_run between s1 = Ok (tt, s2) → ∃ s3, nanosleep_wait th s2 = Ok (tt, s3) ∧ statuses s3 !! th = Some Waiting ∧
      ∀ l s', ticks_run l s3 = Ok (tt, s') →
        statuses s' !! th = Some (if negb (existsb (due d) between) && existsb (due d) l then Ready else Waiting).
Proof.
  intros Hz Hst Hno Hnow Hb. destruct (Timer.free_deadline_spec (length (events s)) (events s) [] (req + now) Hz) as (d & H & Hd & Hk).
  { constructor. } { by intros k ?%not_elem_of_nil. } { cbn. lia. } { done. }
  set (s1 := {| timeout := timeout s; ticks := ticks s; events := bt_insert Z.compare d th (events s); statuses := statuses s |}).
  assert (nanosleep_register t req th s = Ok (tt, s1)) as Hr.
  { unfold nanosleep_register. rewrite Hnow. run_refl. unfold Timer.duration_add. replace (req + now <? Timer.DURATION_END) with true by lia.
    run_refl. run_refl. unfold Timer.register. rewrite H. run_refl. done. }
  assert (booked s1 th d st) as Hs1.
  { assert (bt_insert Z.compare d th (events s) ≡ₚ (d, th) :: events s) as Hp by (by apply zinsert_perm).
    split; cbn; [by apply zsorted_insert|]. split; [done|]. setoid_rewrite Hp. split; [set_solver|].
    intros d' [[= ->]|Hx]%elem_of_cons; [done|]. by apply Hno in Hx. }
  exists d, s1. split; [done|]. split; [done|]. split; [unfold sys_nanosleep; by run Hr|].
  intros between s2 Hbt. apply (booked_ticks _ _ _ _ _ _ _ Hs1) in Hbt. eexists. split; [reflexivity|]. cbn. rewrite lookup_alter_eq.
  destruct (existsb (due d) between); destruct Hbt as (Hz2 & Hst2 & Hev); rewrite Hst2; (split; [done|]); intros l s' Hl; cbn [negb andb].
  - destruct (λ H1 H2, ticks_awake l th _ _ _ H1 H2 Hl) as (_ & -> & _); [exact Hz2|exact Hev|]. cbn. by rewrite lookup_alter_eq, Hst2.
  - eapply (booked_ticks l th d Waiting) in Hl; [|split; [exact Hz2|split; [cbn; by rewrite lookup_alter_eq, Hst2|exact Hev]]].
    destruct (existsb (due d) l); apply Hl.
Qed.
End sleep.

Definition one_thread : Clock := {| timeout := 0; ticks := 0; events := [(1000, 9)]; statuses := {[5 := Running; 9 := Waiting]} |}.
Definition after_ticks (e : exec (unit * Clock)) : Clock := match e with Ok (_, s) => s | Panic _ => one_thread end.
(** Without a tick in between the thread is woken; a late one in between loses the wake-up. *)
Lemma nanosleep_correct_witness : ∃ s1, @nanosleep_register k210_config 0 1000 5 one_thread = Ok (tt, s1) ∧
  (∃ s3, nanosleep_wait 5 s1 = Ok (tt, s3) ∧ ∀ s', @ticks_run k210_config [(6, 6); (7, 7)] s3 = Ok (tt, s') → statuses s' !! 5 = Some Ready) ∧
  ∃ s2 s3, @ticks_run k210_config [(8, 8)] s1 = Ok (tt, s2) ∧ nanosleep_wait 5 s2 = Ok (tt, s3) ∧
    ∀ s', @ticks_run k210_config [(9, 9); (10000, 10000)] s3 = Ok (tt, s') → statuses s' !! 5 = Some Waiting.
Proof.
  destruct (@nanosleep_correct k210_config 0 0 1000 5 one_thread Running) as (d & s1 & H & Hd & _ & Hall).
  - repeat constructor.
  - reflexivity.
  - intros d Hx. apply list_elem_of_singleton in Hx. discriminate.
  - reflexivity.
  - vm_compute. reflexivity.
  - exists s1. split; [exact H|]. assert (d = 1000 ∨ d = 1001) as Hd' by (cbn in Hd; lia). split.
    + destruct (Hall [] s1 eq_refl) as (s3 & H3 & _ & Hl). exists s3. split; [exact H3|]. intros s' Hs. rewrite (Hl _ _ Hs).
      destruct Hd' as [-> | ->]; reflexivity.
    + assert (@ticks_run k210_config [(8, 8)] s1 = Ok (tt, after_ticks (@ticks_run k210_config [(8, 8)] s1))) as H2.
      { vm_compute in H. injection H as <-. reflexivity. }
      destruct (Hall _ _ H2) as (s3 & H3 & _ & Hl). eexists _, s3. split; [exact H2|]. split; [exact H3|]. intros s' Hs. rewrite (Hl _ _ Hs).
      destruct Hd' as [-> | ->]; reflexivity.
Defined.

(** [uname] writes the names as C strings and leaves the rest of the fields. *)
Theorem uname_strings (names buf : list (list Z)) (a b c d e g : list Z) :
  names = [a; b; c; d; e; g] → length buf = 6%nat → Forall (λ f, length f = UTS_LEN) buf → Forall (λ n, (length n < UTS_LEN)%nat) names →
  ∃ buf', sys_uname a b c d e g buf = Ok buf' ∧ length buf' = 6%nat ∧
    ∀ i n f, names !! i = Some n → buf !! i = Some f → buf' !! i = Some (n ++ 0 :: drop (length n + 1) f).
Proof.
  intros -> Hl Hf Hn. unfold sys_uname.
  assert (∀ ns fs, length fs = length ns → Forall (λ f, length f = UTS_LEN) fs → Forall (λ n, (length n < UTS_LEN)%nat) ns →
    copy_fields fs ns = Ok (zip_with (λ n f, n ++ 0 :: drop (length n + 1) f) ns fs)) as Hc.
  { clear. induction ns as [|n ns IH]; intros [|f fs] Hl Hf Hn; try done. cbn [copy_fields zip_with].
    inversion_clear Hf as [|? ? Hf1 Hf2]. inversion_clear Hn as [|? ? Hn1 Hn2]. unfold copy_field. rewrite length_app, Hf1. cbn [length].
    replace (length n + 1 <=? UTS_LEN)%nat with true by (symmetry; apply Nat.leb_le; lia). cbn [mbind exec_bind].
    rewrite (IH fs) by (done || (cbn in Hl; lia)). cbn. by rewrite <- (assoc_L (++)). }
  eexists. split; [by apply Hc|]. split; [rewrite length_zip_with, Hl; done|]. intros i n f Hi Hb. rewrite lookup_zip_with, Hi. cbn. by rewrite Hb.
Qed.
