(* ===== verification/Task.v ===== *)
(** * Threads

    Creating, running and ending threads: [Thread] and [Process] (kernel/src/process) and
    the system calls [clone], [execve], [exit], [getpid], [getppid] and [set_tid_address]
    (kernel/src/syscall/process.rs).  The state is that of [Wait], whose parameter is here the
    machine: memory, thread identifiers, address spaces, and what the kernel stacks hold.
    A thread's handle is its identifier, and also stands for its process.  Descriptor
    tables and current directories are in [Vnode]; context switches end a step. *)

From stdpp Require Import gmap fin_maps strings.
From S2P Require Import Prelude Io FatIo FatName Address Memory PhysPage Pte BTree PageTable PageMap World.
From S2P Require Import AddressSpace Cow Spaces SpaceOps Vfs UserMem UserStack Sched Pipe Wait Clock.

(** ** Flags of [clone] *)

Definition CLONE_THREAD : Z := 0x10000.
Definition CLONE_CHILD_CLEARTID : Z := 0x200000.
Definition CLONE_CHILD_SETTID : Z := 0x1000000.
Definition flag_contains (flags f : Z) : bool := Z.land flags f =? f.

(** ** Trap frames *)

Definition set_return_value (tf : TrapFrame) (v : Z) : TrapFrame :=
  {| x := <[10%nat := v]> (x tf); sstatus := sstatus tf; sepc := sepc tf |}.
Definition set_entry_point (tf : TrapFrame) (v : Z) : TrapFrame :=
  {| x := x tf; sstatus := sstatus tf; sepc := v |}.

(** ** Threads *)

(** [Thread] and [ThreadInner], less the identifier, the process and the status *)
Record Thread := {
  user_stack_top : Z;
  task_ra : Z;
  thr_cycles : Z;
  set_child_tid : Z;
  clear_child_tid : Z;
  magic : Z;
}.
(** [Thread::MAGIC] *)
Definition MAGIC : Z := 0x5834384523833485.

(** [trap_frames] and [ptrs] are the trap frames and the thread pointers at the tops of kernel
    stacks, by address: words of frames that only the kernel's page tables map, and that [mem] does not
    show.  What the kernel stores for a program does not reach them as long as the address is one of the
    user half ([user_va]) and the arguments of a program fit in a page ([fitted_user_stack]); the code
    checks neither, and otherwise its behaviour is undefined. *)
Record Machine (St : Type) := {
  mem : St;
  tids : Tid.TidAllocator;
  kernel_space : AddressSpace;
  user_spaces : gmap Z AddressSpace;
  threads : gmap Z Thread;
  trap_frames : gmap Z TrapFrame;
  ptrs : gmap Z Z;
}.
Arguments mem {_}. Arguments tids {_}. Arguments kernel_space {_}. Arguments user_spaces {_}. Arguments threads {_}.
Arguments trap_frames {_}. Arguments ptrs {_}.

Section task.
Context {C : Config} {St : Type} `{!FrameOps St}.
(** The root of [KERNEL_PAGE_TABLE]; the addresses of [__restore] and [ret_to_restore] *)
Context (kernel_root __restore ret_to_restore : Z).
Abbreviation Mach := (Machine St).
Abbreviation T := (Procs Mach).

Definition w_mem (m : Mach) v : Mach := {| mem := v; tids := tids m; kernel_space := kernel_space m; user_spaces := user_spaces m; threads := threads m; trap_frames := trap_frames m; ptrs := ptrs m |}.
Definition w_tids (m : Mach) v : Mach := {| mem := mem m; tids := v; kernel_space := kernel_space m; user_spaces := user_spaces m; threads := threads m; trap_frames := trap_frames m; ptrs := ptrs m |}.
Definition w_kernel_space (m : Mach) v : Mach := {| mem := mem m; tids := tids m; kernel_space := v; user_spaces := user_spaces m; threads := threads m; trap_frames := trap_frames m; ptrs := ptrs m |}.
Definition w_user_spaces (m : Mach) v : Mach := {| mem := mem m; tids := tids m; kernel_space := kernel_space m; user_spaces := v; threads := threads m; trap_frames := trap_frames m; ptrs := ptrs m |}.
Definition w_threads (m : Mach) v : Mach := {| mem := mem m; tids := tids m; kernel_space := kernel_space m; user_spaces := user_spaces m; threads := v; trap_frames := trap_frames m; ptrs := ptrs m |}.
Definition w_frames (m : Mach) v : Mach := {| mem := mem m; tids := tids m; kernel_space := kernel_space m; user_spaces := user_spaces m; threads := threads m; trap_frames := v; ptrs := ptrs m |}.
Definition w_ptrs (m : Mach) v : Mach := {| mem := mem m; tids := tids m; kernel_space := kernel_space m; user_spaces := user_spaces m; threads := threads m; trap_frames := trap_frames m; ptrs := v |}.

Definition on_ram {R} (f : M St R) : M Mach R := λ m,
  match f (mem m) with Ok (r, v) => Ok (r, w_mem m v) | Panic e => Panic e end.
Definition on_tids {R} (f : M Tid.TidAllocator R) : M Mach R := λ m,
  match f (tids m) with Ok (r, v) => Ok (r, w_tids m v) | Panic e => Panic e end.

(** ** Kernel stacks *)

Definition THREAD_PTR_OFFSET : Z := 8.
Definition TRAP_FRAME_OFFSET : Z := THREAD_PTR_OFFSET + 34 * 8.

(** [get_current_thread], [get_current_trapframe] and [get_trapframe]: [sp] is the stack
    pointer.  With debug assertions the thread that is found must have the magic number. *)
Definition get_current_thread (sp : Z) : M Mach Z :=
  top ← lift (get_cur_kernel_stack_top sp);
  a ← lift (usub top THREAD_PTR_OFFSET);
  m ← get;
  match ptrs m !! a ≫= λ h, pair h <$> threads m !! h with
  | Some (h, th) => lift (ensure (magic th =? MAGIC)) ;; mret h
  | None => panic UB
  end.
Definition get_current_trapframe (sp : Z) : exec Z :=
  top ← get_cur_kernel_stack_top sp; usub top TRAP_FRAME_OFFSET.
Definition get_trapframe (tid : Z) : exec Z :=
  d ← chk 64 (tid * KERNEL_STACK_ALIGN_SIZE);
  top ← usub KERNEL_STACK_TOP d;
  usub top TRAP_FRAME_OFFSET.
Definition load_frame (a : Z) : M Mach TrapFrame :=
  m ← get; match trap_frames m !! a with Some tf => mret tf | None => panic UB end.
Definition store_frame (a : Z) (tf : TrapFrame) : M Mach unit := modify (λ m, w_frames m (<[a := tf]> (trap_frames m))).

Definition space_of (h : Z) : M Mach AddressSpace :=
  m ← get; match user_spaces m !! h with Some s => mret s | None => panic UB end.
Definition thread_of (h : Z) : M Mach Thread :=
  m ← get; match threads m !! h with Some t => mret t | None => panic UB end.

(** A kernel stack for [tid]; its range *)
Definition alloc_kernel_stack (tid : Z) : M Mach VARange :=
  r ← lift (get_kernel_stack_range tid);
  m ← get;
  k ← on_ram (insert_kernel_stack_area (kernel_space m) r);
  modify (λ m, w_kernel_space m k) ;;
  mret r.
(** The pointer at the top of a stack, and the thread it leads to *)
Definition install_thread (tid : Z) (r : VARange) (t : Thread) : M Mach unit :=
  a ← lift (usub (r_end r) THREAD_PTR_OFFSET);
  modify (λ m, w_ptrs (w_threads m (<[tid := t]> (threads m))) (<[a := tid]> (ptrs m))).

(** [Thread::new_kernel], whose address space is the kernel's *)
Definition thread_new_kernel (entry : Z) : M Mach Z :=
  tid ← on_tids Tid.alloc;
  r ← alloc_kernel_stack tid;
  install_thread tid r
    {| user_stack_top := 0; task_ra := entry; thr_cycles := 0; set_child_tid := 0; clear_child_tid := 0; magic := MAGIC |} ;;
  mret tid.

(** [CLONE_CHILD_SETTID]: the word is written through the kernel's map of the frame. *)
Definition write_child_tid (child : AddressSpace) (flags child_tid tid : Z) : M Mach Z :=
  if flag_contains flags CLONE_CHILD_SETTID then
    o ← on_ram (lift (user_va child_tid) ;; translate_va (page_table child) child_tid);
    pa ← lift (unwrap o);
    va ← lift (va_of_pa pa);
    on_ram (on_mem (store va tid)) ;;
    mret child_tid
  else mret 0.

(** [Thread::fork], less the process table: the new thread's identifier.  The parts that
    [Process::fork] gives the child are its address space here, its entry in the
    table of processes in [fork_entry], and its descriptors in [Vnode]. *)
Definition thread_fork (sp flags child_tid : Z) : M Mach Z :=
  self ← get_current_thread sp;
  tid ← on_tids Tid.alloc;
  space ← space_of self;
  child ← on_ram (fork kernel_root space);
  modify (λ m, w_user_spaces m (<[tid := child]> (user_spaces m))) ;;
  r ← alloc_kernel_stack tid;
  a ← lift (usub (r_end r) TRAP_FRAME_OFFSET);
  cur ← lift (get_current_trapframe sp);
  tf ← load_frame cur;
  store_frame a (set_return_value tf 0) ;;
  let clear := if flag_contains flags CLONE_CHILD_CLEARTID then child_tid else 0 in
  set ← write_child_tid child flags child_tid tid;
  (if flag_contains flags CLONE_THREAD then panic Explicit else mret tt) ;;
  cur ← get_current_thread sp;
  me ← thread_of cur;
  install_thread tid r
    {| user_stack_top := user_stack_top me; task_ra := __restore; thr_cycles := 0; set_child_tid := set; clear_child_tid := clear; magic := MAGIC |} ;;
  mret tid.

(** A word the kernel reads at a user address: the processor reads the frame, which is at
    [pa + KERNEL_MAP_OFFSET] in the model of memory. *)
Definition user_load (pt : PageTableImpl) (va : Z) : M St Z :=
  lift (user_va va) ;;
  o ← translate_va pt va;
  match o with
  | Some pa => on_mem (load (pa + KERNEL_MAP_OFFSET))
  | None => panic UB
  end.

(** The entry of a new process: [Process::fork], [Process::from_elf] *)
Definition new_process (up : option Z) (tid : Z) : Process :=
  {| pid := tid; times := {| tms_utime := 0; tms_stime := 0; tms_cutime := 0; tms_cstime := 0 |};
     parent := up; child := []; child_exited := []; wake_callbacks := [] |}.

(** [switch_to_schedule] up to the switch: the one kernel thread there is.  Its handle stands
    for [KERNEL_PROCESS]. *)
Definition switch_to_schedule (schedule : Z) : M T Z :=
  tid ← on_spaces (thread_new_kernel schedule);
  modify (λ s, with_st (with_procs s (<[tid := new_process None 0]> (procs s))) (<[tid := Ready]> (st s))) ;;
  mret tid.

(** The entry of the new process, and the parent's list of children *)
Definition fork_entry (cur tid : Z) : M T unit :=
  modify (λ s, with_procs s (<[tid := new_process (Some cur) tid]> (procs s))) ;;
  upd cur (λ p, with_child p (child p ++ [tid])).

(** The stack given to [clone], whose first word is where the new thread starts *)
Definition set_child_stack (cur a stack : Z) : M Mach unit :=
  if stack =? 0 then mret tt
  else
    space ← space_of cur;
    entry ← on_ram (user_load (page_table space) stack);
    tf ← load_frame a;
    store_frame a (set_entry_point (set_sp tf stack) entry).

(** [sys_clone] up to the switch to the new thread, and its return value *)
Definition sys_clone (sp flags stack child_tid : Z) : M T Z :=
  cur ← on_spaces (get_current_thread sp);
  tid ← on_spaces (thread_fork sp flags child_tid);
  fork_entry cur tid ;;
  a ← lift (get_trapframe tid);
  on_spaces (set_child_stack cur a stack) ;;
  modify (λ s, with_st s (<[tid := Ready]> (st s))) ;;
  on_pool (Fifo.add_thread tid) ;;
  set_st cur Ready ;;
  mret (icast 64 tid).

(** [Drop for Thread], then its fields: the identifier is free again and the process goes. *)
Definition thread_drop (tid : Z) : M T unit :=
  r ← lift (get_kernel_stack_range tid);
  on_spaces (
    m ← get;
    k ← on_ram (remove_area (kernel_space m) (r_end r));
    modify (λ m, w_kernel_space m k) ;;
    on_tids (Tid.dealloc tid) ;;
    space ← space_of tid;
    on_ram (as_drop space) ;;
    modify (λ m, w_threads (w_user_spaces m (delete tid (user_spaces m))) (delete tid (threads m)))) ;;
  drop_process tid.

(** [Thread::dealloc_user_stack], the parameter of [sys_exit] *)
Definition thread_dealloc_user_stack (tid : Z) : M Mach unit :=
  t ← thread_of tid;
  space ← space_of tid;
  space ← on_ram (dealloc_user_stack space (user_stack_top t));
  modify (λ m, w_user_spaces m (<[tid := space]> (user_spaces m))).
Definition task_exit (sp status : Z) : M T unit :=
  cur ← on_spaces (get_current_thread sp); sys_exit thread_dealloc_user_stack cur status.

Definition sys_getpid (sp : Z) : M T Z :=
  cur ← on_spaces (get_current_thread sp); p ← process_of cur; mret (icast 64 (pid p)).
Definition sys_getppid (sp : Z) : M T Z :=
  cur ← on_spaces (get_current_thread sp);
  p ← process_of cur;
  s ← get;
  match parent p ≫= λ h, procs s !! h with
  | Some q => let ppid := icast 64 (pid q) in mret (if ppid =? 0 then 1 else ppid)
  | None => mret (-1)
  end.
Definition sys_set_tid_address (sp tidptr : Z) : M Mach Z :=
  cur ← get_current_thread sp;
  t ← thread_of cur;
  modify (λ m, w_threads m (<[cur := {| user_stack_top := user_stack_top t; task_ra := task_ra t; thr_cycles := thr_cycles t;
    set_child_tid := set_child_tid t; clear_child_tid := tidptr; magic := magic t |}]> (threads m))) ;;
  mret (icast 64 cur).

(** [Process::alloc_user_stack] for strings and vectors that fit in the topmost page of the new stack: more of
    them are written to whatever frame is below that page's. *)
Definition fitted_user_stack (self : AddressSpace) (arguments environments : list (list Z)) (elf : ElfHeader)
    (headers : list ProgramHeader) (sstatus_now : Z) (tf : TrapFrame) : M St (AddressSpace * Z * Stack * TrapFrame) :=
  lift (if stack_size arguments environments <=? 4096 then Ok tt else Panic UB) ;;
  alloc_user_stack self arguments environments elf headers sstatus_now tf.

(** [Thread::execve] and [Process::execve]: a new address space and a new stack; the page
    is that of [ElfFileExt], and the headers are what the ELF parser reads in it. *)
Definition execve {F} `{!Stream F} (tid : Z) (headers : list ProgramHeader) (elf : ElfHeader) (file : F)
    (argv envp : list (list Z)) (sstatus_now : Z) : M Mach unit :=
  o ← on_ram frame_alloc;
  frame ← lift (unwrap o);
  '(space, file) ← on_ram (from_elf kernel_root headers file);
  old ← space_of tid;
  on_ram (as_drop old) ;;
  r ← lift (get_kernel_stack_range tid);
  a ← lift (usub (r_end r) TRAP_FRAME_OFFSET);
  tf ← load_frame a;
  '(space, top, _, tf) ← on_ram (fitted_user_stack space argv envp elf headers sstatus_now tf);
  store_frame a tf ;;
  t ← thread_of tid;
  modify (λ m, w_threads (w_user_spaces m (<[tid := space]> (user_spaces m)))
    (<[tid := {| user_stack_top := top; task_ra := ret_to_restore; thr_cycles := thr_cycles t;
       set_child_tid := set_child_tid t; clear_child_tid := clear_child_tid t; magic := magic t |}]> (threads m))) ;;
  on_ram (frame_drop frame).
Definition environment : list (list Z) :=
  (str <$> ["SHELL=/bin/bash"; "PWD=/"; "HOME=/"; "LANG=C.UTF-8"; "USER=root"; "PATH=/"; "OLDPWD=/root"])%string.

(** [Thread::new_thread] and [Process::from_elf], as [execve]; [tf] is what the new stack
    holds where the trap frame is built. *)
Definition new_thread {F} `{!Stream F} (sp : Z) (headers : list ProgramHeader) (elf : ElfHeader) (file : F)
    (arguments : list (list Z)) (sstatus_now : Z) (tf : TrapFrame) : M T Z :=
  '(cur, tid) ← on_spaces (
    tid ← on_tids Tid.alloc;
    o ← on_ram frame_alloc;
    frame ← lift (unwrap o);
    '(space, file) ← on_ram (from_elf kernel_root headers file);
    cur ← get_current_thread sp;
    r ← alloc_kernel_stack tid;
    '(space, top, _, tf) ← on_ram (fitted_user_stack space arguments environment elf headers sstatus_now tf);
    a ← lift (usub (r_end r) TRAP_FRAME_OFFSET);
    store_frame a tf ;;
    modify (λ m, w_user_spaces m (<[tid := space]> (user_spaces m))) ;;
    install_thread tid r
      {| user_stack_top := top; task_ra := ret_to_restore; thr_cycles := 0; set_child_tid := 0; clear_child_tid := 0; magic := MAGIC |} ;;
    on_ram (frame_drop frame) ;;
    mret (cur, tid));
  modify (λ s, with_st (with_procs s (<[tid := new_process (Some cur) tid]> (procs s))) (<[tid := Ready]> (st s))) ;;
  mret tid.
End task.
