(* ===== verification/Exec.v ===== *)
(** * The arguments of a program

    [convert_cstr_array] and [sys_execve] (kernel/src/syscall/process.rs): the kernel reads the argument
    and environment strings out of the memory of the caller.  What [alloc_user_stack] writes for a
    program, [execve] reads back. *)

From stdpp Require Import gmap fin_maps.
From S2P Require Import Prelude Io FatIo Address Memory PhysPage Pte BTree PageTable PageMap World.
From S2P Require Import AddressSpace Cow Spaces SpaceOps Vfs UserMem UserStack Sched Pipe Wait Clock Task.

Section exec.
Context {C : Config} {St : Type} `{!FrameOps St}.
Context (kernel_root __restore ret_to_restore : Z).

Definition user_load_byte (pt : PageTableImpl) (va : Z) : M St Z :=
  lift (user_va va) ;;
  o ← translate_va pt va;
  match o with
  | Some pa => on_mem (load_byte (pa + KERNEL_MAP_OFFSET))
  | None => panic UB
  end.

(** [CStr::from_ptr] and [to_bytes]; the fuel bounds the length. *)
Fixpoint cstr_bytes (fuel : nat) (pt : PageTableImpl) (p : Z) : M St (list Z) :=
  match fuel with
  | O => panic OutOfFuel
  | S fuel =>
      b ← user_load_byte pt p;
      if b =? 0 then mret []
      else rest ← cstr_bytes fuel pt (p + 1); mret (b :: rest)
  end.

(** [fuel] bounds the number of strings and the length of each. *)
Fixpoint cstr_array (n fuel : nat) (pt : PageTableImpl) (cstr_p : Z) : M St (list (list Z)) :=
  match n with
  | O => panic OutOfFuel
  | S n =>
      p ← user_load pt cstr_p;
      if p =? 0 then mret []
      else
        str ← cstr_bytes fuel pt p;
        rest ← cstr_array n fuel pt (cstr_p + 8);
        mret (str :: rest)
  end.
Definition convert_cstr_array (fuel : nat) (pt : PageTableImpl) (cstr_p : Z) : M St (list (list Z)) := cstr_array fuel fuel pt cstr_p.

(** [sys_execve] up to the switch; the file is the one at the path, opened *)
Definition sys_execve {F} `{!Stream F} (fuel : nat) (sp argv envp : Z) (headers : list ProgramHeader) (elf : ElfHeader) (file : F)
    (sstatus_now : Z) : M (Machine St) unit :=
  cur ← get_current_thread sp;
  space ← space_of cur;
  argv ← on_ram (convert_cstr_array fuel (page_table space) argv);
  envp ← on_ram (convert_cstr_array fuel (page_table space) envp);
  execve kernel_root ret_to_restore cur headers elf file argv envp sstatus_now.
End exec.

Section props.
Context {C : Config} {Cok : ConfigOk C} {Mok : MmioOk C} {St : Type} `{!FrameOps St, !FrameSource St}.
Implicit Types (s : St) (pt : PageTableImpl).

Context (s : St) (A : frames) (pt : PageTableImpl).
Hypothesis Hrep : st_rep s A.
Hypothesis Hwf : pt_wf (st_words s) A (pt_root pt).

Lemma user_load_eq va v : va < 2 ^ 38 → user_word s (pt_root pt) va = Some v → user_load pt va s = Ok (v, s).
Proof.
  intros Hva H. unfold user_load. rewrite user_va_in by done. run_refl. rewrite (M_bind_eq _ _ _ _ _ (translate_va_eq s A pt va Hrep Hwf)). unfold user_word in H.
  apply bind_Some in H as (w & Hw & Hv). rewrite Hw. cbn. apply on_mem_load. unfold entry_pa.
  rewrite <- Hv, page_va_offset. f_equal. lia.
Qed.

Lemma user_load_byte_eq va v : va < 2 ^ 38 → user_byte s (pt_root pt) va = Some v → user_load_byte pt va s = Ok (v, s).
Proof.
  intros Hva H. unfold user_load_byte. rewrite user_va_in by done. run_refl. rewrite (M_bind_eq _ _ _ _ _ (translate_va_eq s A pt va Hrep Hwf)). unfold user_byte in H.
  apply bind_Some in H as (w & Hw & Hv). rewrite Hw. cbn. unfold mem_byte in Hv.
  apply fmap_Some in Hv as (x & Hx & ->).
  replace (entry_pa va w + KERNEL_MAP_OFFSET) with (page_va (pte_ppn w) + va `mod` 4096) by (unfold entry_pa; rewrite page_va_offset; lia).
  unfold on_mem, load_byte, load, mbind, M_bind. rewrite Hx. cbn. by rewrite st_set_id.
Qed.

(** A zero-terminated string of the user half *)
Definition cstr_at (p : Z) (str : list Z) : Prop := p + Z.of_nat (length str) < 2 ^ 38 ∧
  ∀ j c, (str ++ [0]) !! j = Some c → user_byte s (pt_root pt) (p + Z.of_nat j) = Some c.

Lemma cstr_bytes_eq str : ∀ fuel p, cstr_at p str → 0 ∉ str → (length str < fuel)%nat → cstr_bytes fuel pt p s = Ok (str, s).
Proof.
  induction str as [|b str IH]; intros fuel p [Hva Hs] Hz Hf; cbn [length] in Hva; (destruct fuel as [|fuel]; [lia|]); cbn [cstr_bytes].
  - specialize (Hs 0%nat 0 eq_refl). rewrite Z.add_0_r in Hs. by run (user_load_byte_eq p _ ltac:(lia) Hs).
  - pose proof (Hs 0%nat b eq_refl) as Hb. rewrite Z.add_0_r in Hb. run (user_load_byte_eq p _ ltac:(lia) Hb).
    destruct (Z.eqb_spec b 0); [set_solver|]. step_by ltac:(apply IH); [done| |set_solver|cbn in Hf; lia].
    split; [lia|]. intros j c Hj. replace (p + 1 + Z.of_nat j) with (p + Z.of_nat (S j)) by lia. by apply Hs.
Qed.

(** The pointers to strings, with a zero behind them *)
Definition pointers_at (base : Z) (ps : list Z) : Prop :=
  ∀ j p, (ps ++ [0]) !! j = Some p →
    base + 8 * Z.of_nat j < 2 ^ 38 ∧ user_word s (pt_root pt) (base + 8 * Z.of_nat j) = Some p.

Lemma cstr_array_eq strs fuel : ∀ n base ps, pointers_at base ps → Forall2 cstr_at ps strs → 0 ∉ ps →
  Forall (λ str, (0 ∉ str) ∧ (length str < fuel)%nat) strs → (length strs < n)%nat → cstr_array n fuel pt base s = Ok (strs, s).
Proof.
  induction strs as [|str strs IH]; intros n base ps Hp Hs Hz Hstr Hn; (destruct n as [|n]; [lia|]); cbn [cstr_array].
  - apply Forall2_nil_inv_r in Hs as ->. destruct (Hp 0%nat 0 eq_refl) as [Hva Hb]. rewrite Z.add_0_r in Hva, Hb. by run (user_load_eq _ _ Hva Hb).
  - apply Forall2_cons_inv_r in Hs as (p & ps' & H1 & Hs & ->). apply Forall_cons in Hstr as [[Hnz Hlen] Hstr].
    destruct (Hp 0%nat p eq_refl) as [Hva Hb]. rewrite Z.add_0_r in Hva, Hb. run (user_load_eq _ _ Hva Hb).
    destruct (Z.eqb_spec p 0); [set_solver|]. run (cstr_bytes_eq str fuel p H1 Hnz Hlen).
    step_by ltac:(apply (IH n (base + 8) ps')); [done| |done|set_solver|done|cbn in Hn; lia].
    intros j q Hj. replace (base + 8 + 8 * Z.of_nat j) with (base + 8 * Z.of_nat (S j)) by lia. by apply Hp.
Qed.
End props.

Section roundtrip.
Context {C : Config} {Cok : ConfigOk C} {Mok : MmioOk C} {St : Type} `{!FrameOps St, !FrameSource St}.

(** The pointers of an image, without the strings *)
Lemma image_pointers (s : St) pt base ps pre post :
  (∀ i w, (pre ++ (ps ++ [0]) ++ post) !! i = Some w →
     base + 8 * Z.of_nat i < 2 ^ 38 ∧ user_word s (pt_root pt) (base + 8 * Z.of_nat i) = Some w) →
  pointers_at s pt (base + 8 * Z.of_nat (length pre)) ps.
Proof.
  intros H j p Hj. replace (base + 8 * Z.of_nat (length pre) + 8 * Z.of_nat j) with (base + 8 * Z.of_nat (length pre + j)) by lia.
  apply H. rewrite lookup_app_r by lia. replace (length pre + j - length pre)%nat with j by lia. by apply lookup_app_l_Some.
Qed.

Lemma image_strings (s : St) pt r ps strs : 0 < user_sp r →
  Forall2 (λ p str, user_sp r ≤ p ∧ p + Z.of_nat (length str) < 2 ^ 38 ∧
    ∀ j c, (str ++ [0]) !! j = Some c → user_byte s (pt_root pt) (p + Z.of_nat j) = Some c) ps strs →
  Forall2 (cstr_at s pt) ps strs ∧ 0 ∉ ps.
Proof.
  intros H0 H. split; [eapply Forall2_impl; [exact H|]; by intros p str [_ Hp]|].
  intros Hz. apply list_elem_of_lookup in Hz as [i Hi]. destruct (Forall2_lookup_l _ _ _ _ _ H Hi) as (str & _ & Hle & _). lia.
Qed.

(** C11: A program that passes the arguments and the environment it was started with on to
    [execve] passes the same strings: what [alloc_user_stack] writes to the stack of a program
    is what [convert_cstr_array] reads there, for strings without zero bytes that fit in a page. *)
Theorem arguments_roundtrip Rs K s A self arguments environments elf headers phdr sstatus_now tf B fuel :
  exact Rs K s A self → mmap_room self USER_STACK_SIZE B →
  (3 * Z.to_nat (USER_STACK_SIZE `div` 4096) ≤ length (f_free A))%nat → (∀ p, p ∈ f_free A → p < 2 ^ 26 - 1) →
  Forall is_str arguments → Forall is_str environments → stack_size arguments environments ≤ 4096 →
  ph_head_addr headers (ph_offset_of_table elf) = Ok phdr → length (x tf) = 32%nat →
  Forall (λ str, (0 ∉ str) ∧ (length str < fuel)%nat) (arguments ++ environments) →
  (length arguments < fuel)%nat → (length environments < fuel)%nat →
  ∃ s' self' top r tf',
    alloc_user_stack self arguments environments elf headers sstatus_now tf s = Ok ((self', top, r, tf'), s') ∧
    convert_cstr_array fuel (page_table self') (argv_base r) s' = Ok (arguments, s') ∧
    convert_cstr_array fuel (page_table self') (envp_base r) s' = Ok (environments, s').
Proof.
  intros HE Hroom Hfree Htop HA Henv Hsize Hph Hx [Hstr1 Hstr2]%Forall_app Hl1 Hl2.
  destruct (alloc_user_stack_spec Rs K s A self arguments environments elf headers phdr sstatus_now tf B)
    as (s' & A' & self' & top & r & tf' & H & Hroot & H0 & HE' & (argv & envp & Ha & He & Hw) & Hb1 & Hb2 & _); [done..|].
  exists s', self', top, r, tf'. split; [done|]. rewrite <- Hroot in Ha, He, Hw.
  pose proof (w_rep _ _ _ (sp_world _ _ _ _ _ (ex_ok _ _ _ _ _ HE'))) as Hrep.
  assert (pt_wf (st_words s') A' (pt_root (page_table self'))) as Hwf.
  { apply (w_wf _ _ _ (sp_world _ _ _ _ _ (ex_ok _ _ _ _ _ HE'))). apply HE'. }
  apply image_strings in Ha as [Ha Hza], He as [He Hze]; [|done..].
  split; eapply cstr_array_eq; try done.
  - rewrite Hb1. exact (image_pointers s' (page_table self') (user_sp r) argv [_] _ Hw).
  - rewrite Hb2, Hb1, <- (Forall2_length _ _ _ Ha).
    pose proof (image_pointers s' (page_table self') (user_sp r) envp ([Z.of_nat (length arguments)] ++ argv ++ [0]) (auxv elf phdr)) as Hp.
    rewrite !length_app in Hp. cbn [length] in Hp.
    replace (user_sp r + 8 + 8 * (Z.of_nat (length argv) + 1)) with (user_sp r + 8 * Z.of_nat (1 + (length argv + 1))) by lia.
    apply Hp. intros i w Hi. apply Hw. exact Hi.
Qed.
End roundtrip.
