(* ===== verification/TaskProps.v ===== *)
(** * Threads: who is running

    Whatever threads were created and ended, the kernel finds the thread it runs for in the
    word at the top of its stack; and what [clone] gives the new thread. *)

From stdpp Require Import gmap fin_maps.
From S2P Require Import Prelude Io FatIo Address Memory PhysPage Pte BTree PageTable PageMap World.
From S2P Require Import AddressSpace Cow Spaces SpaceOps Vfs UserMem UserStack Sched Pipe Wait Clock Task.

Section props.
Context {C : Config} {Cok : ConfigOk C} {St : Type} `{!FrameOps St}.
Context (kernel_root __restore ret_to_restore : Z).
Abbreviation Mach := (Machine St).
Abbreviation T := (Procs Mach).

(** ** Kernel stacks *)

Lemma align_pos : 4096 ≤ KERNEL_STACK_ALIGN_SIZE.
Proof.
  rewrite stack_align_pow. destruct (stack_align_ok (C := C)). change 4096 with (2 ^ 12). apply Z.pow_le_mono_r; lia.
Qed.

Lemma stack_size_page : 4096 ≤ KERNEL_STACK_SIZE.
Proof. destruct (stack_size_ok (C := C)) as (H & Hm & _). apply Z.mod_divide in Hm as [q Hq]; [|done]. nia. Qed.

Lemma range_end_inj t1 t2 r1 r2 : 0 ≤ t1 → 0 ≤ t2 → get_kernel_stack_range t1 = Ok r1 → get_kernel_stack_range t2 = Ok r2 →
  r_end r1 = r_end r2 → t1 = t2.
Proof.
  intros H1 H2 E1 E2 He. apply stack_range_spec in E1 as (E1 & _), E2 as (E2 & _); [|done..].
  pose proof align_pos. nia.
Qed.

(** An identifier that has a stack is a small number. *)
Lemma icast_tid t r : 0 ≤ t → get_kernel_stack_range t = Ok r → icast 64 t = t.
Proof.
  intros Ht E. apply stack_range_spec in E as (E & Es & H0); [|done]. pose proof stack_size_page. pose proof align_pos.
  apply icast_in; [lia|]. change (64 - 1) with 63. nia.
Qed.

(** The words at the top of a stack are inside it. *)
Lemma range_room t r : 0 ≤ t → get_kernel_stack_range t = Ok r →
  usub (r_end r) THREAD_PTR_OFFSET = Ok (r_end r - 8) ∧ usub (r_end r) TRAP_FRAME_OFFSET = Ok (r_end r - 280).
Proof.
  intros Ht E. apply stack_range_spec in E as (E & Es & H0); [|done]. pose proof stack_size_page. pose proof align_pos.
  split; [apply usub_in|apply (usub_in _ 280)]; change THREAD_PTR_OFFSET with 8; nia.
Qed.

Lemma get_trapframe_eq t r : 0 ≤ t → get_kernel_stack_range t = Ok r → get_trapframe t = Ok (r_end r - 280).
Proof.
  intros Ht E. destruct (range_room t r Ht E) as [_ H].
  unfold get_kernel_stack_range, umul in E. apply exec_bind_Ok in E as (off & E1 & E).
  apply exec_bind_Ok in E as (top & E2 & E). apply exec_bind_Ok in E as (b & E3 & E). injection E as <-. cbn in H |- *.
  unfold get_trapframe. assert (chk 64 (t * KERNEL_STACK_ALIGN_SIZE) = Ok off) as -> by exact E1.
  cbn. rewrite E2. cbn. exact H.
Qed.

Lemma current_frame t r sp : 0 ≤ t → get_kernel_stack_range t = Ok r → r_start r ≤ sp < r_end r →
  get_current_trapframe sp = get_trapframe t.
Proof.
  intros Ht E Hsp. rewrite (get_trapframe_eq t r) by done. unfold get_current_trapframe.
  rewrite (stack_top_of_sp t r sp) by done. cbn. by apply (range_room t).
Qed.

(** The thread is there, and not overwritten. *)
Definition sound_thread (m : Mach) (t : Z) : Prop := ∃ th, threads m !! t = Some th ∧ magic th = MAGIC.

Lemma current_thread t r sp (m : Mach) : 0 ≤ t → get_kernel_stack_range t = Ok r → r_start r ≤ sp < r_end r →
  ptrs m !! (r_end r - 8) = Some t → sound_thread m t → get_current_thread sp m = Ok (t, m).
Proof.
  intros Ht E Hsp Hp (th & Hth & Hmag). unfold get_current_thread. rewrite (stack_top_of_sp t r sp) by done. run_refl.
  rewrite (proj1 (range_room t r Ht E)). run_refl. run_refl. rewrite Hp. cbn. rewrite Hth. cbn. by rewrite Hmag.
Qed.

(** ** What the operations do to the machine *)

Lemma on_ram_Ok {R} (f : M St R) (m : Mach) r m' : on_ram f m = Ok (r, m') → ∃ v, f (mem m) = Ok (r, v) ∧ m' = w_mem m v.
Proof. unfold on_ram. destruct (f (mem m)) as [[]|]; [|done]. intros [= -> <-]. by eexists. Qed.

Lemma on_tids_Ok {R} (f : M Tid.TidAllocator R) (m : Mach) r m' :
  on_tids f m = Ok (r, m') → ∃ v, f (tids m) = Ok (r, v) ∧ m' = w_tids m v.
Proof. unfold on_tids. destruct (f (tids m)) as [[]|]; [|done]. intros [= -> <-]. by eexists. Qed.

Lemma on_spaces_Ok {R} (f : M Mach R) (s : T) r s' : on_spaces f s = Ok (r, s') →
  ∃ m, f (spaces s) = Ok (r, m) ∧ s' = {| st := st s; procs := procs s; pool := pool s; spaces := m |}.
Proof. unfold on_spaces. destruct (f (spaces s)) as [[]|]; [|done]. intros [= -> <-]. by eexists. Qed.

(** The machines differ at most in memory and in the kernel's address space. *)
Definition same_tasks (m m' : Mach) : Prop :=
  tids m' = tids m ∧ user_spaces m' = user_spaces m ∧ threads m' = threads m ∧
  trap_frames m' = trap_frames m ∧ ptrs m' = ptrs m.

Lemma alloc_kernel_stack_inv tid (m : Mach) r m' : alloc_kernel_stack tid m = Ok (r, m') →
  get_kernel_stack_range tid = Ok r ∧ same_tasks m m'.
Proof.
  unfold alloc_kernel_stack. intros H. inv_exec. apply on_ram_Ok in Hm1 as (v & _ & ->).
  unfold get, modify in *. simplify_eq. by split.
Qed.

Lemma install_thread_inv tid r t (m m' : Mach) : 0 ≤ tid → get_kernel_stack_range tid = Ok r →
  install_thread tid r t m = Ok (tt, m') →
  m' = w_ptrs (w_threads m (<[tid := t]> (threads m))) (<[r_end r - 8 := tid]> (ptrs m)).
Proof.
  intros Ht E. unfold install_thread. rewrite (proj1 (range_room tid r Ht E)). by intros [= <-].
Qed.

(** The parts of a new thread, and that nothing of the others changed *)
Definition adds_thread (m : Mach) (tid : Z) (m' : Mach) : Prop := ∃ t r,
  Tid.alloc (tids m) = Ok (tid, tids m') ∧ get_kernel_stack_range tid = Ok r ∧
  threads m' = <[tid := t]> (threads m) ∧ ptrs m' = <[r_end r - 8 := tid]> (ptrs m) ∧ magic t = MAGIC.
Definition adds_user (m : Mach) (tid : Z) (m' : Mach) : Prop := ∃ a space tf,
  get_trapframe tid = Ok a ∧ user_spaces m' = <[tid := space]> (user_spaces m) ∧ trap_frames m' = <[a := tf]> (trap_frames m).

Lemma alloc_nonneg a live tid a' : Tid.inv a live → Tid.alloc a = Ok (tid, a') → 0 ≤ tid ∧ (tid ∉ live) ∧ Tid.inv a' (tid :: live).
Proof.
  intros Hi Ha. assert (Tid.recycled a ≠ [] ∨ Tid.current a < 2 ^ 64 - 1) as Hc.
  { destruct (decide (Tid.recycled a = [])) as [Hr|]; [right|by left]. revert Ha. unfold Tid.alloc. run_refl.
    rewrite Hr. cbn [last]. intros Ha. inv_exec. apply checked_Ok in Hm. lia. }
  destruct (Tid.alloc_spec a live Hi Hc) as (t & a2 & H & Hn & Hi'). rewrite Ha in H. simplify_eq.
  split; [|done]. destruct Hi' as (_ & _ & Hb). apply (Hb t). set_solver.
Qed.

Lemma thread_new_kernel_inv live entry (m : Mach) tid m' : Tid.inv (tids m) live → thread_new_kernel entry m = Ok (tid, m') →
  adds_thread m tid m' ∧ user_spaces m' = user_spaces m ∧ trap_frames m' = trap_frames m.
Proof.
  intros Hi H. unfold thread_new_kernel in H. inv_exec. apply on_tids_Ok in Hm as (v & Ha & ->).
  destruct (alloc_nonneg _ _ _ _ Hi Ha) as (Ht & _).
  apply alloc_kernel_stack_inv in Hm0 as (Er & E1 & E2 & E3 & E4 & E5).
  destruct a1. apply install_thread_inv in Hm1 as ->; [|done..]. cbn in *. unfold adds_thread. cbn. rewrite E1, E2, E3, E4, E5.
  split; [|done]. by eexists _, _.
Qed.

(** A lookup in the machine that succeeds *)
Ltac inv_lookup := unfold get in *; simplify_eq; case_match; unfold mret, M_ret, panic in *; simplify_eq; done.

(** Where the current thread is not stored again before it is looked up *)
Lemma get_current_thread_same sp (m : Mach) t m' : get_current_thread sp m = Ok (t, m') → m' = m.
Proof.
  unfold get_current_thread. intros H. inv_exec. unfold get in *. simplify_eq. case_match; [|done]. case_match. by inv_exec.
Qed.
Lemma space_of_inv h (m : Mach) sp m' : space_of h m = Ok (sp, m') → m' = m ∧ user_spaces m !! h = Some sp.
Proof. unfold space_of. intros H. inv_exec. inv_lookup. Qed.
Lemma thread_of_inv h (m : Mach) t m' : thread_of h m = Ok (t, m') → m' = m ∧ threads m !! h = Some t.
Proof. unfold thread_of. intros H. inv_exec. inv_lookup. Qed.
Lemma load_frame_inv a (m : Mach) tf m' : load_frame a m = Ok (tf, m') → m' = m ∧ trap_frames m !! a = Some tf.
Proof. unfold load_frame. intros H. inv_exec. inv_lookup. Qed.

(** [CLONE_CHILD_SETTID] changes memory only. *)
Lemma write_child_tid_inv child flags child_tid tid (m : Mach) v m' :
  write_child_tid child flags child_tid tid m = Ok (v, m') → ∃ x, m' = w_mem m x.
Proof.
  unfold write_child_tid. destruct (flag_contains _ _); intros H; inv_exec.
  - apply on_ram_Ok in Hm as (? & _ & ->), Hm2 as (? & _ & ->). by eexists.
  - by exists (mem m'); destruct m'.
Qed.

Lemma thread_fork_inv live sp flags child_tid (m : Mach) tid m' : Tid.inv (tids m) live →
  thread_fork kernel_root __restore sp flags child_tid m = Ok (tid, m') →
  adds_thread m tid m' ∧ adds_user m tid m'.
Proof.
  intros Hi H. unfold thread_fork in H. inv_exec.
  apply get_current_thread_same in Hm as ->. apply on_tids_Ok in Hm0 as (v & Ha & ->).
  destruct (alloc_nonneg _ _ _ _ Hi Ha) as (Ht & _).
  apply space_of_inv in Hm1 as [-> _]. apply on_ram_Ok in Hm2 as (? & _ & ->).
  apply alloc_kernel_stack_inv in Hm4 as (Er & E1 & E2 & E3 & E4 & E5).
  apply load_frame_inv in Hm7 as [-> _]. apply write_child_tid_inv in Hm9 as [y ->].
  destruct (flag_contains flags CLONE_THREAD); [done|]. injection Hm10 as _ <-.
  apply get_current_thread_same in Hm11 as ->. apply thread_of_inv in Hm12 as [-> _].
  destruct a13. apply install_thread_inv in Hm13 as ->; [|done..].
  unfold store_frame, modify in *. simplify_eq. destruct (range_room tid _ Ht Er) as [_ Hr]. rewrite Hm5 in Hr. simplify_eq.
  unfold adds_thread, adds_user. cbn in *. rewrite E1, E2, E3, E4, E5. split; [by eexists _, _|].
  eexists _, _, _. split; [by apply get_trapframe_eq|]. done.
Qed.

Lemma new_thread_inv {F} `{!Stream F} live sp headers elf (file : F) args now tf (s : T) tid s' : Tid.inv (tids (spaces s)) live →
  new_thread kernel_root ret_to_restore sp headers elf file args now tf s = Ok (tid, s') →
  adds_thread (spaces s) tid (spaces s') ∧ adds_user (spaces s) tid (spaces s') ∧
  ∃ cur, procs s' = <[tid := new_process (Some cur) tid]> (procs s).
Proof.
  intros Hi H. unfold new_thread in H. apply M_bind_Ok in H as ([cur tid'] & s1 & H & H2).
  apply M_bind_Ok in H2 as (? & ? & Hm & H2). unfold modify in Hm. injection Hm as _ <-. injection H2 as -> <-.
  apply on_spaces_Ok in H as (m & H & ->). cbn. inv_exec.
  apply on_tids_Ok in Hm as (v & Ha & ->). destruct (alloc_nonneg _ _ _ _ Hi Ha) as (Ht & _).
  apply on_ram_Ok in Hm0 as (? & _ & ->), Hm2 as (? & _ & ->), Hm5 as (? & _ & ->), Hm10 as (? & _ & ->).
  apply get_current_thread_same in Hm3 as ->. apply alloc_kernel_stack_inv in Hm4 as (Er & E1 & E2 & E3 & E4 & E5).
  destruct a9. apply install_thread_inv in Hm9 as ->; [|done..].
  unfold store_frame, modify in *. simplify_eq. destruct (range_room tid _ Ht Er) as [_ Hr]. rewrite Hm6 in Hr. simplify_eq.
  unfold adds_thread, adds_user. cbn in *. rewrite E1, E2, E3, E4, E5. split; [by eexists _, _|]. split; [|by eexists].
  eexists _, _, _. split; [by apply get_trapframe_eq|]. done.
Qed.

(** ** The invariant *)

Definition pids (s : T) : gmap Z Z := pid <$> procs s.

Record tasks_ok (s : T) (live : list Z) : Prop := {
  ok_tids : Tid.inv (tids (spaces s)) live;
  ok_ptrs : ∀ t, t ∈ live → ∃ r, get_kernel_stack_range t = Ok r ∧ ptrs (spaces s) !! (r_end r - 8) = Some t ∧ sound_thread (spaces s) t;
  ok_pids : ∀ t p, pids s !! t = Some p → t ∈ live ∧ p = t;
  ok_users : ∀ t space, user_spaces (spaces s) !! t = Some space → is_Some (pids s !! t) ∧
    ∃ a, get_trapframe t = Ok a ∧ is_Some (trap_frames (spaces s) !! a);
}.

Lemma live_nonneg s live t : tasks_ok s live → t ∈ live → 0 ≤ t.
Proof. intros [(_ & _ & H) _ _ _] Ht. apply (H t). set_solver. Qed.

Lemma adds_ptrs s live tid m' : tasks_ok s live → adds_thread (spaces s) tid m' →
  Tid.inv (tids m') (tid :: live) ∧ (tid ∉ live) ∧
  ∀ t, t ∈ tid :: live → ∃ r, get_kernel_stack_range t = Ok r ∧ ptrs m' !! (r_end r - 8) = Some t ∧ sound_thread m' t.
Proof.
  intros Hok (th & r & Ha & Er & Eth & Ep & Hmag). destruct (alloc_nonneg _ _ _ _ (ok_tids _ _ Hok) Ha) as (Ht & Hn & Hi).
  split; [done|]. split; [done|]. intros t [->|Hl]%elem_of_cons.
  - exists r. rewrite Ep, lookup_insert_eq. split; [done|]. split; [done|]. exists th. by rewrite Eth, lookup_insert_eq.
  - destruct (ok_ptrs _ _ Hok t Hl) as (rt & Et & Hp & tht & Htt & Hmt). exists rt. split; [done|]. split.
    2:{ exists tht. rewrite Eth, lookup_insert_ne by congruence. done. }
    rewrite Ep, lookup_insert_ne; [done|].
    intros He. apply Hn. rewrite (range_end_inj tid t r rt); try done; [by apply (live_nonneg s live)|lia].
Qed.

Lemma adds_ok s live tid s' : tasks_ok s live → adds_thread (spaces s) tid (spaces s') →
  (adds_user (spaces s) tid (spaces s') ∨
   user_spaces (spaces s') = user_spaces (spaces s) ∧ trap_frames (spaces s') = trap_frames (spaces s)) →
  pids s' = <[tid := tid]> (pids s) → tasks_ok s' (tid :: live).
Proof.
  intros Hok Ha Hu Hp. destruct (adds_ptrs _ _ _ _ Hok Ha) as (Hi & Hn & Hptr).
  split; [done|done| |].
  - intros t p. rewrite Hp. intros [[-> ->]|[_ H]]%lookup_insert_Some; [set_solver|].
    apply (ok_pids _ _ Hok) in H. set_solver.
  - intros t space Hs. rewrite Hp, lookup_insert_is_Some.
    assert (user_spaces (spaces s) !! t = Some space → is_Some (pids s !! t) ∧
      ∃ a, get_trapframe t = Ok a ∧ is_Some (trap_frames (spaces s') !! a)) as Hold.
    { intros H. destruct (ok_users _ _ Hok t space H) as (Hq & a & Ea & Hf). split; [done|]. exists a. split; [done|].
      destruct Hu as [(a' & sp' & tf & _ & _ & ->)|[_ ->]]; [|done]. rewrite lookup_insert_is_Some. destruct (decide (a' = a)); auto. }
    destruct Hu as [(a & sp' & tf & Ea & Eu & Ef)|[Eu Ef]]; rewrite Eu in Hs.
    + apply lookup_insert_Some in Hs as [[-> _]|[Hne Hs]].
      * split; [by left|]. exists a. split; [done|]. by rewrite Ef, lookup_insert_eq.
      * destruct (Hold Hs) as [??]. auto.
    + destruct (Hold Hs) as [Hq ?]. split; [|done]. destruct (decide (tid = t)); auto.
Qed.

(** No thread comes or goes. *)
Definition same_threads (m m' : Mach) : Prop :=
  tids m' = tids m ∧ (ptrs m' = ptrs m ∧ ∀ t, sound_thread m t → sound_thread m' t) ∧ (∀ t, is_Some (user_spaces m' !! t) → is_Some (user_spaces m !! t)) ∧
  ∀ a, is_Some (trap_frames m !! a) → is_Some (trap_frames m' !! a).

Lemma keeps_ok s live s' : tasks_ok s live → same_threads (spaces s) (spaces s') → pids s' = pids s → tasks_ok s' live.
Proof.
  intros [Hi Hp Hd Hu] (E1 & [E2 Em] & Eu & Ef) Ed. split; rewrite ?E1, ?E2, ?Ed; try done.
  { intros t Hl. destruct (Hp t Hl) as (r & Er & Ht & Hm). exists r. auto. }
  intros t space Hs. destruct (Eu t) as [sp0 H0]; [by eexists|]. destruct (Hu t sp0 H0) as (Hq & a & Ea & Hf).
  split; [done|]. exists a. auto.
Qed.

Lemma pids_alter h f (s : T) s' : (∀ p, pid (f p) = pid p) → procs s' = alter f h (procs s) → pids s' = pids s.
Proof.
  intros Hf E. unfold pids. rewrite E. apply map_eq. intros k. rewrite !lookup_fmap, lookup_alter.
  case_decide as Hk; [subst|done]. destruct (procs s !! k); cbn; [by rewrite Hf|done].
Qed.

Lemma upd_pids h f (s : T) u s' : (∀ p, pid (f p) = pid p) → upd h f s = Ok (u, s') →
  pids s' = pids s ∧ spaces s' = spaces s.
Proof. intros Hf [= _ <-]. split; [by apply (pids_alter h f)|done]. Qed.
Lemma set_st_pids t v (s : T) u s' : set_st t v s = Ok (u, s') → pids s' = pids s ∧ spaces s' = spaces s.
Proof. by intros [= _ <-]. Qed.
Lemma on_pool_pids {R} (f : M (list Z) R) (s : T) r s' : on_pool f s = Ok (r, s') → pids s' = pids s ∧ spaces s' = spaces s.
Proof. unfold on_pool. destruct (f (pool s)) as [[]|]; [|done]. by intros [= _ <-]. Qed.
Lemma process_of_same h (s : T) p s' : process_of h s = Ok (p, s') → s' = s ∧ procs s !! h = Some p.
Proof. unfold process_of. intros H. inv_exec. unfold get in *. by simplify_eq. Qed.

(** The steps of a call that leave the processes and the machine *)
Ltac inv_procs := repeat first
  [ match goal with H : upd _ _ _ = Ok (_, _) |- _ => apply upd_pids in H as [? ?]; [|done] end
  | match goal with H : set_st _ _ _ = Ok (_, _) |- _ => apply set_st_pids in H as [? ?] end
  | match goal with H : on_pool _ _ = Ok (_, _) |- _ => apply on_pool_pids in H as [? ?] end
  | match goal with H : process_of _ _ = Ok (_, _) |- _ => apply process_of_same in H as [-> ?] end
  | match goal with H : get _ = Ok (_, _) |- _ => unfold get in H; injection H as H; simplify_eq end ].

Lemma sys_exit_pids (dealloc : Z → M Mach unit) cur v (s : T) u s' : sys_exit dealloc cur v s = Ok (u, s') →
  pids s' = pids s ∧ ∃ u0, dealloc cur (spaces s) = Ok (u0, spaces s').
Proof.
  unfold sys_exit. intros H. inv_exec. apply on_spaces_Ok in Hm1 as (m & Hd & ->). inv_procs.
  assert (pids s' = pids {| st := st s1; procs := procs s1; pool := pool s1; spaces := m |} ∧ spaces s' = m) as [E1 E2].
  { repeat case_match; inv_exec; inv_procs; repeat case_match; inv_exec; inv_procs; cbn in *; split; congruence. }
  split; [|rewrite E2; eexists; rewrite <- Hd; congruence]. rewrite E1. unfold pids in *. cbn. congruence.
Qed.

Lemma sys_wait4_pids cur pid_arg (s : T) r s' : sys_wait4 cur pid_arg s = Ok (r, s') → pids s' = pids s ∧ spaces s' = spaces s.
Proof.
  unfold sys_wait4. intros H. inv_exec. destruct (take_exited _ _) as [e rest]. inv_exec.
  repeat case_match; inv_exec; inv_procs; split; congruence.
Qed.

Lemma pids_insert tid p (s s' : T) : procs s' = <[tid := p]> (procs s) → pids s' = <[tid := pid p]> (pids s).
Proof. intros E. unfold pids. by rewrite E, fmap_insert. Qed.

Lemma fork_entry_pids cur tid (s : T) u s' : fork_entry cur tid s = Ok (u, s') →
  pids s' = <[tid := tid]> (pids s) ∧ spaces s' = spaces s.
Proof.
  unfold fork_entry. intros H. inv_exec. unfold modify in Hm. injection Hm as _ <-. inv_procs.
  split; [|done]. etransitivity; [eassumption|]. by apply (pids_insert tid (new_process (Some cur) tid)).
Qed.

(** The frame of a thread that exists is replaced. *)
Lemma store_same a tf (m : Mach) : same_threads m (w_frames m (<[a := tf]> (trap_frames m))).
Proof. split; [done|]. split; [done|]. split; [done|]. intros k. cbn. rewrite lookup_insert_is_Some. destruct (decide (a = k)); auto. Qed.

Lemma same_threads_refl m : same_threads m m.
Proof. done. Qed.

Lemma same_threads_trans (m1 m2 m3 : Mach) : same_threads m1 m2 → same_threads m2 m3 → same_threads m1 m3.
Proof. intros (E1 & [E2 E2'] & E3 & E4) (F1 & [F2 F2'] & F3 & F4). split; [congruence|]. split; [split; [congruence|auto]|]. split; auto. Qed.

Lemma set_child_stack_same cur a stack (m : Mach) u m' : set_child_stack cur a stack m = Ok (u, m') → same_threads m m'.
Proof.
  unfold set_child_stack. destruct (stack =? 0); intros H; inv_exec; [done|].
  apply space_of_inv in Hm as [-> _]. apply on_ram_Ok in Hm0 as (v & _ & ->). apply load_frame_inv in Hm1 as [-> _].
  unfold store_frame, modify in H. injection H as _ <-. apply (store_same a _ (w_mem m v)).
Qed.

Lemma sys_clone_ok live sp flags stack child_tid (s : T) r s' : tasks_ok s live →
  sys_clone kernel_root __restore sp flags stack child_tid s = Ok (r, s') →
  tasks_ok s' (r :: live).
Proof.
  intros Hok H. unfold sys_clone in H. inv_exec.
  apply on_spaces_Ok in Hm as (m0 & Hm & ->), Hm0 as (m1 & Hm0 & ->), Hm3 as (m2 & Hm3 & ->).
  apply get_current_thread_same in Hm as ->. apply set_child_stack_same in Hm3.
  cbn in Hm0. destruct (thread_fork_inv _ _ _ _ _ _ _ (ok_tids _ _ Hok) Hm0) as [Ha Hu].
  apply fork_entry_pids in Hm1 as [Ep Es]. cbn in Es.
  assert (icast 64 a0 = a0) as ->.
  { destruct Ha as (th & r & Ha & Er & _). destruct (alloc_nonneg _ _ _ _ (ok_tids _ _ Hok) Ha) as [Ht _]. by apply (icast_tid _ r). }
  unfold modify in Hm4. injection Hm4 as _ <-. inv_procs.
  assert (tasks_ok s2 (a0 :: live)) as Hok2 by (apply (adds_ok s); rewrite ?Es; try done; by left).
  apply (keeps_ok s2); [done| |].
  - rewrite H0, H2. done.
  - rewrite H, H1. done.
Qed.

Lemma new_thread_ok {F} `{!Stream F} live sp headers elf (file : F) args now tf (s : T) tid s' : tasks_ok s live →
  new_thread kernel_root ret_to_restore sp headers elf file args now tf s = Ok (tid, s') → tasks_ok s' (tid :: live).
Proof.
  intros Hok H. destruct (new_thread_inv _ _ _ _ _ _ _ _ _ _ _ (ok_tids _ _ Hok) H) as (Ha & Hu & cur & Hp).
  apply (adds_ok s); [done..|by left|]. by apply pids_insert in Hp.
Qed.

Lemma thread_drop_ok l1 t l2 (s : T) u s' : tasks_ok s (l1 ++ t :: l2) → thread_drop t s = Ok (u, s') → tasks_ok s' (l1 ++ l2).
Proof.
  intros Hok H. unfold thread_drop in H. apply M_bind_Ok in H as (r & ? & Hr & H). apply lift_Ok in Hr as [_ ->].
  apply M_bind_Ok in H as (u1 & s1 & Hs & H). apply on_spaces_Ok in Hs as (m & Hs & ->). inv_exec.
  apply on_ram_Ok in Hm0 as (? & _ & ->). apply on_tids_Ok in Hm2 as (v & Hv & ->).
  apply space_of_inv in Hm3 as [-> _]. apply on_ram_Ok in Hm4 as (? & _ & ->).
  unfold modify, get in *. simplify_eq. cbn in *. unfold drop_process, modify in H. injection H as _ <-.
  destruct Hok as [Hi Hp Hd Hu]. destruct (Tid.dealloc_spec _ _ _ _ Hi) as (v' & Hv' & Hi'). rewrite Hv in Hv'. simplify_eq.
  assert (NoDup (l1 ++ t :: l2)) as Hn by (destruct Hi as (_ & Hn & _); by apply NoDup_app in Hn as [Hn _]).
  assert (t ∉ l1 ++ l2) as Ht by (rewrite <- (Permutation_middle l1 l2 t), NoDup_cons in Hn; tauto).
  split; cbn; [done| | |].
  - intros t' Ht'. destruct (Hp t') as (rt & Et & Hpt & th & Hth & Hmag); [set_solver|]. exists rt. split; [done|]. split; [done|].
    exists th. split; [|done]. cbn. rewrite lookup_delete_ne; [done|]. set_solver.
  - intros t' p. unfold pids. cbn. rewrite fmap_delete, lookup_delete_Some. intros [Hne H]. destruct (Hd t' p H). set_solver.
  - intros t' space. rewrite lookup_delete_Some. intros [Hne H]. destruct (Hu t' space H) as (Hq & a & Ea & Hf).
    split; [|by exists a]. unfold pids. cbn. by rewrite fmap_delete, lookup_delete_ne.
Qed.

(** The fields of a thread are updated, but not its magic number. *)
Lemma sound_update (m m' : Mach) t0 th0 th : threads m !! t0 = Some th0 → magic th = magic th0 → threads m' = <[t0 := th]> (threads m) →
  ∀ t, sound_thread m t → sound_thread m' t.
Proof.
  intros H0 Hmag E t (th1 & H1 & Hm). destruct (decide (t = t0)) as [->|Hne].
  - exists th. rewrite E, lookup_insert_eq. split; [done|]. rewrite H0 in H1. injection H1 as <-. congruence.
  - exists th1. by rewrite E, lookup_insert_ne.
Qed.

Lemma insert_is_Some {V} (m : gmap Z V) k v : is_Some (m !! k) → ∀ t, is_Some (<[k := v]> m !! t) → is_Some (m !! t).
Proof. intros Hk t. rewrite lookup_insert_is_Some. intros [->|[_ H]]; done. Qed.

Lemma thread_dealloc_same t (m : Mach) u m' : thread_dealloc_user_stack t m = Ok (u, m') → same_threads m m'.
Proof.
  unfold thread_dealloc_user_stack. intros H. inv_exec. apply thread_of_inv in Hm as [-> _]. apply space_of_inv in Hm0 as [-> Hs].
  apply on_ram_Ok in Hm1 as (? & _ & ->). unfold modify in H. injection H as _ <-.
  split; [done|]. split; [done|]. split; [|done]. apply insert_is_Some. by eexists.
Qed.

Lemma execve_same {F} `{!Stream F} t headers elf (file : F) argv envp now (m : Mach) u m' :
  execve kernel_root ret_to_restore t headers elf file argv envp now m = Ok (u, m') → same_threads m m'.
Proof.
  unfold execve. intros H. inv_exec.
  apply on_ram_Ok in Hm as (? & _ & ->), Hm1 as (? & _ & ->), Hm3 as (? & _ & ->), Hm7 as (? & _ & ->), H as (? & _ & ->).
  apply space_of_inv in Hm2 as [-> Hs]. apply load_frame_inv in Hm6 as [-> _]. apply thread_of_inv in Hm9 as [-> Hth].
  unfold store_frame, modify in *. simplify_eq. cbn in *. split; [done|]. split; [split; [done|]|split].
  - eapply (sound_update m _ t a9); [done| |reflexivity]. done.
  - apply insert_is_Some. by eexists.
  - by destruct (store_same a5 t0 m) as (_ & _ & _ & H).
Qed.

Lemma set_tid_address_same sp p (m : Mach) r m' : sys_set_tid_address sp p m = Ok (r, m') → same_threads m m'.
Proof.
  unfold sys_set_tid_address. intros H. inv_exec. apply get_current_thread_same in Hm as ->.
  apply thread_of_inv in Hm0 as [-> Hth]. unfold modify in Hm1. injection Hm1 as _ <-.
  split; [done|]. split; [|done]. split; [done|]. eapply (sound_update m); [exact Hth| |reflexivity]. done.
Qed.

(** ** Every order of system calls *)

(** The machine as [switch_to_schedule] finds it *)
Definition booted (s : T) : Prop :=
  tids (spaces s) = Tid.new ∧ user_spaces (spaces s) = ∅ ∧ procs s = ∅.

(** The states of the kernel and the live threads: threads are created, make calls, run
    user code, which leaves a new frame on their stack and any memory, end, and are dropped.
    Programs are read from any kind of file. *)
Inductive tasks (F : Type) `{!Stream F} : T → list Z → Prop :=
  | tasks_boot schedule s tid s' : booted s → switch_to_schedule schedule s = Ok (tid, s') → tasks F s' [tid]
  | tasks_new sp headers elf (file : F) args now tf s live tid s' :
      tasks F s live → new_thread kernel_root ret_to_restore sp headers elf file args now tf s = Ok (tid, s') → tasks F s' (tid :: live)
  | tasks_clone sp flags stack child_tid s live tid s' :
      tasks F s live → sys_clone kernel_root __restore sp flags stack child_tid s = Ok (tid, s') → tasks F s' (tid :: live)
  | tasks_exec t headers elf (file : F) argv envp now s live s' :
      tasks F s live → on_spaces (execve kernel_root ret_to_restore t headers elf file argv envp now) s = Ok (tt, s') → tasks F s' live
  | tasks_exit sp v s live s' : tasks F s live → task_exit sp v s = Ok (tt, s') → tasks F s' live
  | tasks_wait t v r s live s' : tasks F s live → sys_wait4 t v s = Ok (r, s') → tasks F s' live
  | tasks_set_tid sp p r s live s' : tasks F s live → on_spaces (sys_set_tid_address sp p) s = Ok (r, s') → tasks F s' live
  | tasks_user a tf v s live s' :
      tasks F s live → on_spaces (store_frame a tf ;; modify (λ m, w_mem m v)) s = Ok (tt, s') → tasks F s' live
  | tasks_drop l1 t l2 s s' : tasks F s (l1 ++ t :: l2) → thread_drop t s = Ok (tt, s') → tasks F s' (l1 ++ l2).

Lemma boot_ok schedule (s : T) tid s' : booted s → switch_to_schedule schedule s = Ok (tid, s') → tasks_ok s' [tid].
Proof.
  intros (Et & Eu & Ep) H. unfold switch_to_schedule in H. inv_exec. apply on_spaces_Ok in Hm as (m & Hm & ->).
  unfold modify in Hm0. injection Hm0 as _ <-. cbn.
  assert (tasks_ok s []) as Hok.
  { split; rewrite ?Et; unfold pids; rewrite ?Eu, ?Ep.
    - apply Tid.reachable_inv. constructor.
    - by intros t Ht%not_elem_of_nil.
    - by intros t p Hp.
    - by intros t space Hs. }
  destruct (thread_new_kernel_inv _ _ _ _ _ (ok_tids _ _ Hok) Hm) as (Ha & Hu & Hf).
  apply (adds_ok s); [done|done|by right|].
  etransitivity; [by apply (pids_insert tid (new_process None 0) s)|].
  destruct Ha as (th & r & Ha & _). rewrite Et in Ha. by injection Ha as <- _.
Qed.

Lemma tasks_inv F `{!Stream F} s live : tasks F s live → tasks_ok s live.
Proof.
  induction 1 as [? ? ? ? ? H|? ? ? ? ? ? ? ? ? ? ? _ IH H|? ? ? ? ? ? ? ? _ IH H|? ? ? ? ? ? ? ? ? ? _ IH H|? ? ? ? ? _ IH H
    |? ? ? ? ? ? _ IH H|? ? ? ? ? ? _ IH H|? ? ? ? ? ? _ IH H|? ? ? ? ? _ IH H].
  - by eapply boot_ok.
  - by eapply new_thread_ok.
  - by eapply sys_clone_ok.
  - apply on_spaces_Ok in H as (m & H & ->). apply execve_same in H. by apply (keeps_ok _ _ _ IH).
  - unfold task_exit in H. inv_exec. apply on_spaces_Ok in Hm as (m & Hm & ->). apply get_current_thread_same in Hm as ->.
    apply sys_exit_pids in H as (Hp & u & H). apply thread_dealloc_same in H. by apply (keeps_ok _ _ _ IH).
  - apply sys_wait4_pids in H as [Hp Hs]. apply (keeps_ok _ _ _ IH); [by rewrite Hs|done].
  - apply on_spaces_Ok in H as (m & H & ->). apply set_tid_address_same in H. by apply (keeps_ok _ _ _ IH).
  - apply on_spaces_Ok in H as (m & [= <-] & ->). apply (keeps_ok _ _ _ IH); [|done]. apply (store_same a tf).
  - by eapply thread_drop_ok.
Qed.


(** ** [clone] *)

(** The frame of the new thread: that of its parent, returning 0; with a stack of its own
    it starts at the stack's first word. *)
Definition cloned_frame (tf : TrapFrame) (stack entry : Z) : TrapFrame :=
  let tf := set_return_value tf 0 in
  if stack =? 0 then tf else set_entry_point (set_sp tf stack) entry.

Lemma on_ram_eq {R} (f : M St R) (m : Mach) r v : f (mem m) = Ok (r, v) → on_ram f m = Ok (r, w_mem m v).
Proof. intros H. unfold on_ram. by rewrite H. Qed.
Lemma on_tids_eq {R} (f : M Tid.TidAllocator R) (m : Mach) r v : f (tids m) = Ok (r, v) → on_tids f m = Ok (r, w_tids m v).
Proof. intros H. unfold on_tids. by rewrite H. Qed.
Lemma on_spaces_eq {R} (f : M Mach R) (s : T) r v : f (spaces s) = Ok (r, v) →
  on_spaces f s = Ok (r, {| st := st s; procs := procs s; pool := pool s; spaces := v |}).
Proof. intros H. unfold on_spaces. by rewrite H. Qed.
Lemma space_of_eq h (m : Mach) space : user_spaces m !! h = Some space → space_of h m = Ok (space, m).
Proof. intros H. unfold space_of. run_refl. by rewrite H. Qed.
Lemma thread_of_eq h (m : Mach) t : threads m !! h = Some t → thread_of h m = Ok (t, m).
Proof. intros H. unfold thread_of. run_refl. by rewrite H. Qed.
Lemma load_frame_eq a (m : Mach) tf : trap_frames m !! a = Some tf → load_frame a m = Ok (tf, m).
Proof. intros H. unfold load_frame. run_refl. by rewrite H. Qed.
Lemma alloc_kernel_stack_eq tid r k (m : Mach) m2 : get_kernel_stack_range tid = Ok r →
  insert_kernel_stack_area (kernel_space m) r (mem m) = Ok (k, m2) →
  alloc_kernel_stack tid m = Ok (r, w_kernel_space (w_mem m m2) k).
Proof. intros Hr Hk. unfold alloc_kernel_stack. rewrite Hr. run_refl. run_refl. erewrite M_bind_eq; [|by apply on_ram_eq]. by run_refl. Qed.

Section clone.
Context (s : T) (live : list Z) (cur : Z) (rc : VARange) (sp : Z) (p : Process) (space : AddressSpace) (me : Thread) (b : Z) (tf : TrapFrame).
Hypothesis Hok : tasks_ok s live.
Hypothesis Hcur : cur ∈ live.
Hypothesis Hrc : get_kernel_stack_range cur = Ok rc.
Hypothesis Hsp : r_start rc ≤ sp < r_end rc.
Hypothesis Hp : procs s !! cur = Some p.
Hypothesis Hspace : user_spaces (spaces s) !! cur = Some space.
Hypothesis Hme : threads (spaces s) !! cur = Some me.
Hypothesis Hb : get_trapframe cur = Ok b.
Hypothesis Htf : trap_frames (spaces s) !! b = Some tf.

Lemma clone_current (m : Mach) : ptrs m = ptrs (spaces s) → threads m = threads (spaces s) → get_current_thread sp m = Ok (cur, m).
Proof.
  intros Em Eth. destruct (ok_ptrs _ _ Hok cur Hcur) as (r' & Er' & Hptr & th & Hth & Hmag). rewrite Hrc in Er'. injection Er' as <-.
  apply (current_thread cur rc); [by apply (live_nonneg s live)|done..|by rewrite Em|]. exists th. by rewrite Eth.
Qed.

Lemma thread_fork_spec flags child_tid tid al r child m1 k m2 :
  Tid.alloc (tids (spaces s)) = Ok (tid, al) → get_kernel_stack_range tid = Ok r →
  fork kernel_root space (mem (spaces s)) = Ok (child, m1) →
  insert_kernel_stack_area (kernel_space (spaces s)) r m1 = Ok (k, m2) →
  flag_contains flags CLONE_THREAD = false → flag_contains flags CLONE_CHILD_SETTID = false →
  thread_fork kernel_root __restore sp flags child_tid (spaces s) = Ok (tid,
    {| mem := m2; tids := al; kernel_space := k; user_spaces := <[tid := child]> (user_spaces (spaces s));
       threads := <[tid := {| user_stack_top := user_stack_top me; task_ra := __restore; thr_cycles := 0; set_child_tid := 0;
         clear_child_tid := if flag_contains flags CLONE_CHILD_CLEARTID then child_tid else 0; magic := MAGIC |}]> (threads (spaces s));
       trap_frames := <[r_end r - 280 := set_return_value tf 0]> (trap_frames (spaces s));
       ptrs := <[r_end r - 8 := tid]> (ptrs (spaces s)) |}).
Proof.
  intros Ha Hr Hf Hk Hth Hset. destruct (alloc_nonneg _ _ _ _ (ok_tids _ _ Hok) Ha) as (Ht & _).
  destruct (range_room tid r Ht Hr) as [Hr8 Hr280].
  unfold thread_fork. step_by ltac:(by apply clone_current). step_by ltac:(by apply on_tids_eq).
  step_by ltac:(by apply space_of_eq). step_by ltac:(apply on_ram_eq; exact Hf). run_refl.
  step_by ltac:(apply alloc_kernel_stack_eq; [exact Hr|exact Hk]). rewrite Hr280. run_refl.
  rewrite (current_frame cur rc) by (done || by apply (live_nonneg s live)). rewrite Hb. run_refl.
  step_by ltac:(by apply load_frame_eq). run_refl. unfold write_child_tid. rewrite Hset, Hth. run_refl. run_refl.
  step_by ltac:(by apply clone_current). step_by ltac:(by apply thread_of_eq).
  unfold install_thread. rewrite Hr8, M_bind_assoc. run_refl. run_refl. reflexivity.
Qed.

(** What a machine holds for a thread other than the new one *)
Lemma other_frame tid al r a t c : Tid.alloc (tids (spaces s)) = Ok (tid, al) → get_kernel_stack_range tid = Ok r →
  get_trapframe tid = Ok a → t ∈ live → get_trapframe t = Ok c → c ≠ a.
Proof.
  intros Ha Hr Ea Ht Ec ->. destruct (alloc_nonneg _ _ _ _ (ok_tids _ _ Hok) Ha) as (H0 & Hn & _).
  destruct (ok_ptrs _ _ Hok t Ht) as (rt & Et & _). pose proof (live_nonneg _ _ _ Hok Ht).
  rewrite (get_trapframe_eq t rt) in Ec by done. rewrite (get_trapframe_eq tid r) in Ea by done. simplify_eq.
  apply Hn. rewrite (range_end_inj tid t r rt); [done..|]. lia.
Qed.

(** C8: [clone] without [CLONE_THREAD] and [CLONE_CHILD_SETTID], given that the copy of the address
    space and the new kernel stack find memory: it returns the identifier of the new thread, which is
    ready and last in the pool.  The new thread resumes with its parent's registers, except that
    the call returns 0 there and that the stack and the first instruction are the given ones if
    there are; its address space is the copy; its process is a new child of the
    caller's.  No other thread's frame, address space or process changes. *)
Theorem clone_correct flags stack child_tid tid al r child_space m1 k m2 entry :
  Tid.alloc (tids (spaces s)) = Ok (tid, al) → get_kernel_stack_range tid = Ok r →
  fork kernel_root space (mem (spaces s)) = Ok (child_space, m1) →
  insert_kernel_stack_area (kernel_space (spaces s)) r m1 = Ok (k, m2) →
  flag_contains flags CLONE_THREAD = false → flag_contains flags CLONE_CHILD_SETTID = false →
  (stack ≠ 0 → user_load (page_table space) stack m2 = Ok (entry, m2)) →
  ∃ s' a, sys_clone kernel_root __restore sp flags stack child_tid s = Ok (tid, s') ∧ tasks_ok s' (tid :: live) ∧
    (tid ∉ live) ∧ get_trapframe tid = Ok a ∧
    trap_frames (spaces s') !! a = Some (cloned_frame tf stack entry) ∧
    (∀ t c, t ∈ live → get_trapframe t = Ok c → trap_frames (spaces s') !! c = trap_frames (spaces s) !! c) ∧
    user_spaces (spaces s') = <[tid := child_space]> (user_spaces (spaces s)) ∧
    procs s' = <[cur := with_child p (child p ++ [tid])]> (<[tid := new_process (Some cur) tid]> (procs s)) ∧
    st s' !! tid = Some Ready ∧ pool s' = pool s ++ [tid] ∧ mem (spaces s') = m2.
Proof.
  intros Ha Hr Hf Hk Hth Hset Hst. destruct (alloc_nonneg _ _ _ _ (ok_tids _ _ Hok) Ha) as (H0 & Hn & _).
  pose proof (get_trapframe_eq tid r H0 Hr) as Ea.
  assert (tid ≠ cur) as Hne by congruence.
  pose proof (thread_fork_spec flags child_tid tid al r child_space m1 k m2 Ha Hr Hf Hk Hth Hset) as HF.
  set (m := {| mem := m2 |}) in HF.
  set (m' := w_frames m (<[r_end r - 280 := cloned_frame tf stack entry]> (trap_frames (spaces s)))).
  assert (set_child_stack cur (r_end r - 280) stack m = Ok (tt, m')) as HS.
  { unfold set_child_stack, m', cloned_frame. destruct (Z.eqb_spec stack 0) as [->|Hz]; [done|].
    step_by ltac:(by apply space_of_eq; cbn; rewrite lookup_insert_ne). step_by ltac:(apply on_ram_eq; by apply Hst).
    step_by ltac:(apply load_frame_eq; cbn; by rewrite lookup_insert_eq). unfold store_frame, modify, w_frames, m. cbn. by rewrite insert_insert_eq. }
  assert (∃ s', sys_clone kernel_root __restore sp flags stack child_tid s = Ok (tid, s') ∧ spaces s' = m' ∧
    procs s' = <[cur := with_child p (child p ++ [tid])]> (<[tid := new_process (Some cur) tid]> (procs s)) ∧
    st s' = alter (λ _, Ready) cur (<[tid := Ready]> (st s)) ∧ pool s' = pool s ++ [tid]) as (s' & Hrun & E1 & E2 & E3 & E4).
  { eexists. split.
    - unfold sys_clone. step_by ltac:(apply on_spaces_eq; by apply clone_current). step_by ltac:(apply on_spaces_eq; exact HF).
      run_refl. rewrite Ea. run_refl. step_by ltac:(apply on_spaces_eq; exact HS). run_refl. run_refl. run_refl.
      by rewrite (icast_tid tid r).
    - cbn. split; [done|]. split; [|done]. apply map_eq. intros t. rewrite lookup_alter, !lookup_insert.
      repeat case_decide; simplify_eq; by rewrite ?Hp. }
  exists s', (r_end r - 280). split; [done|]. split; [by eapply sys_clone_ok|]. split; [done|]. split; [done|].
  rewrite E1, E2, E3, E4. split; [by apply lookup_insert_eq|]. split.
  { intros t c Ht Hc. cbn. rewrite lookup_insert_ne; [done|]. by apply not_eq_sym, (other_frame tid al r _ t). }
  split; [done|]. split; [done|]. split; [|done]. by rewrite lookup_alter_ne, lookup_insert_eq.
Qed.
End clone.
End props.
