(* ===== verification/TaskSample.v ===== *)
(** * The life of a process

    The QEMU board with twenty-four pages of memory: the kernel starts its scheduling thread, loads a
    program, and the program clones itself; the child exits, its parent waits for it, and
    the last reference to it is dropped. *)

From stdpp Require Import gmap fin_maps.
From S2P Require Import Prelude Io FatIo Address Memory PhysPage Pte BTree PageTable PageMap World.
From S2P Require Import AddressSpace Cow Spaces SpaceOps Vfs UserMem UserStack Boot MemSample StackSample.
From S2P Require Import Sched Pipe Wait Clock Task Exec TaskProps.

Section examples.
#[local] Existing Instance qemu_config.
Abbreviation T := (Procs (Machine kmem)).

Definition machine (pt : PageTableImpl) (m : kmem) : T :=
  {| st := ∅; procs := ∅; pool := [];
     spaces := {| mem := m; tids := Tid.new;
       kernel_space := {| page_table := pt; areas := []; data_segment_end := 1; data_segment_max := 1 |};
       user_spaces := ∅; threads := ∅; trap_frames := ∅; ptrs := ∅ |} |}.
Definition booting : exec (PageTableImpl * kmem) := boot 24 (boot_mem 24).
Definition power_on : T :=
  match booting with Ok (pt, m) => machine pt m | Panic _ => machine demo_pt (boot_mem 24) end.
Definition root : Z := pt_root (page_table (kernel_space (spaces power_on))).

(** A stack pointer on the stack of a thread *)
Definition sp_of (t : Z) : Z := 2 ^ 64 - (t + 1) * KERNEL_STACK_ALIGN_SIZE - 400.
Definition program : memfile := {| mf_bytes := replicate 512 7; mf_pos := 0 |}.

(** The state after a run, and that the run ended with [r] *)
Definition after {R} (e : exec (R * T)) : T := match e with Ok (_, s) => s | Panic _ => power_on end.
Definition ends {R} `{EqDecision R} (e : exec (R * T)) (r : R) : bool :=
  match e with Ok (r', _) => bool_decide (r' = r) | Panic _ => false end.
Lemma ends_Ok {R} `{EqDecision R} (e : exec (R * T)) r : ends e r = true → e = Ok (r, after e).
Proof. destruct e as [[r' s]|]; [|done]. cbn. by intros ->%bool_decide_eq_true. Qed.

Definition scheduling : T := after (switch_to_schedule 0x100 power_on).
Definition loading : T :=
  after (new_thread root 0x300 (sp_of 0) [demo_header] demo_elf program [[0x6C; 0x73]] 0 zero_frame scheduling).

(** The frames there are to allocate *)
Fixpoint free_frames (fuel : nat) (m : kmem) : nat :=
  match fuel with
  | O => O
  | S fuel => match frame_alloc m with Ok (Some _, m) => S (free_frames fuel m) | _ => O end
  end.

Lemma scheduling_Ok : switch_to_schedule 0x100 power_on = Ok (0, scheduling).
Proof. unfold scheduling. apply ends_Ok. vm_compute. reflexivity. Qed.
Lemma loading_Ok :
  new_thread root 0x300 (sp_of 0) [demo_header] demo_elf program [[0x6C; 0x73]] 0 zero_frame scheduling = Ok (1, loading).
Proof. unfold loading. apply ends_Ok. vm_compute. reflexivity. Qed.
Lemma power_on_booted : booted power_on.
Proof. unfold power_on. by destruct booting as [[]|]. Qed.
Lemma loaded : tasks root 0x200 0x300 memfile loading [1; 0].
Proof. exact (tasks_new _ _ _ _ _ _ _ _ _ _ _ _ _ _ _ (tasks_boot _ _ _ _ _ _ _ _ power_on_booted scheduling_Ok) loading_Ok). Qed.

Definition found {V} (o : option V) : bool := match o with Some _ => true | None => false end.
Lemma found_Some {V} (o : option V) : found o = true → is_Some o.
Proof. by destruct o. Qed.
Lemma loading_space : is_Some (user_spaces (spaces loading) !! 1).
Proof. apply found_Some. vm_compute. reflexivity. Qed.

Definition stack_1 : VARange := {| r_start := 2 ^ 64 - 2 ^ 15 - 2 ^ 13; r_end := 2 ^ 64 - 2 ^ 15 |}.
Lemma stack_1_Ok : get_kernel_stack_range 1 = Ok stack_1 ∧ r_start stack_1 ≤ sp_of 1 < r_end stack_1.
Proof. vm_compute. repeat split; congruence. Qed.


(** ** [clone] *)

(** What the calls in [clone] find *)
Definition stack_2 : VARange := {| r_start := 2 ^ 64 - 3 * 2 ^ 14 - 2 ^ 13; r_end := 2 ^ 64 - 3 * 2 ^ 14 |}.
Definition space_1 : AddressSpace := default (kernel_space (spaces power_on)) (user_spaces (spaces loading) !! 1).
Definition of_run {R} (d : R * kmem) (e : exec (R * kmem)) : R * kmem := match e with Ok r => r | Panic _ => d end.
Definition forked : AddressSpace * kmem := of_run (space_1, boot_mem 24) (fork root space_1 (mem (spaces loading))).
Definition stacked : AddressSpace * kmem :=
  of_run forked (insert_kernel_stack_area (kernel_space (spaces loading)) stack_2 forked.2).
Definition succeeds {R} (e : exec (R * kmem)) : bool := match e with Ok _ => true | Panic _ => false end.
Lemma of_run_Ok {R} (d : R * kmem) (e : exec (R * kmem)) : succeeds e = true → e = Ok ((of_run d e).1, (of_run d e).2).
Proof. by destruct e as [[]|]. Qed.

Lemma forked_Ok : fork root space_1 (mem (spaces loading)) = Ok (forked.1, forked.2).
Proof. unfold forked. apply of_run_Ok. vm_compute. reflexivity. Qed.
Lemma stacked_Ok :
  insert_kernel_stack_area (kernel_space (spaces loading)) stack_2 forked.2 = Ok (stacked.1, stacked.2).
Proof. unfold stacked. apply of_run_Ok. vm_compute. reflexivity. Qed.
Lemma space_1_Ok : user_spaces (spaces loading) !! 1 = Some space_1.
Proof. destruct loading_space as [space H]. unfold space_1. by rewrite H. Qed.

(** The program, called with one argument, at its first instruction *)
Definition first_frame : TrapFrame :=
  {| x := <[2%nat := 0x7ED8]> (list_inserts 10 [1; 0x7EE0; 0x7EF0; 0x7F30] (replicate 32 0)); sstatus := 32; sepc := 0x1000 |}.

Lemma clone_correct_witness : ∃ s' a, sys_clone root 0x200 (sp_of 1) 0 0 0 loading = Ok (2, s') ∧ get_trapframe 2 = Ok a ∧
  trap_frames (spaces s') !! a = Some (set_return_value first_frame 0) ∧ pool s' = [2].
Proof.
  destruct stack_1_Ok as [Hr Hsp].
  destruct (clone_correct root 0x200 loading [1; 0] 1 stack_1 (sp_of 1) (new_process (Some 0) 1) space_1
    {| user_stack_top := 0x8000; task_ra := 0x300; thr_cycles := 0; set_child_tid := 0; clear_child_tid := 0; magic := MAGIC |}
    (2 ^ 64 - 2 ^ 15 - 280) first_frame) with (flags := 0) (stack := 0) (child_tid := 0) (tid := 2)
    (al := {| Tid.current := 3; Tid.recycled := [] |}) (r := stack_2) (child_space := forked.1) (m1 := forked.2)
    (k := stacked.1) (m2 := stacked.2) (entry := 0) as (s' & a & H1 & _ & _ & H2 & H3 & _ & _ & _ & _ & H4 & _).
  - exact (tasks_inv _ _ _ _ _ _ loaded).
  - apply elem_of_cons. left. reflexivity.
  - exact Hr.
  - exact Hsp.
  - vm_compute. reflexivity.
  - exact space_1_Ok.
  - vm_compute. reflexivity.
  - vm_compute. reflexivity.
  - vm_compute. reflexivity.
  - vm_compute. reflexivity.
  - vm_compute. reflexivity.
  - exact forked_Ok.
  - exact stacked_Ok.
  - reflexivity.
  - reflexivity.
  - intros H. destruct (H eq_refl).
  - exists s', a. split; [exact H1|]. split; [exact H2|]. split; [exact H3|]. rewrite H4. vm_compute. reflexivity.
Defined.

(** The word the parent of a cloned thread reads at an address *)
Definition parent_reads (flags child_tid va : Z) : option Z :=
  match sys_clone root 0x200 (sp_of 1) flags 0 child_tid loading with
  | Ok (_, s) =>
      space ← user_spaces (spaces s) !! 1;
      match user_load (page_table space) va (mem (spaces s)) with Ok (v, _) => Some v | Panic _ => None end
  | Panic _ => None
  end.

(** [CLONE_CHILD_SETTID] asks for the identifier of the new thread in the memory of the child.
    The kernel writes it through the frame the two processes still share, so the parent's
    memory changes as well, and eight bytes of it where the identifier has four: the second
    half of the word, which is not the child's, is cleared. *)
Theorem child_tid_in_parent :
  parent_reads 0 0x1008 0x1008 = Some 0x0707070707070707 ∧ parent_reads CLONE_CHILD_SETTID 0x1008 0x1008 = Some 2.
Proof. split; vm_compute; reflexivity. Qed.

(** A child is cloned, exits with 7, and is waited for and dropped: the parent gets its
    identifier and its status, and every frame the clone took is free again. *)
Definition life : M T (Z * option (Z * Z)) :=
  tid ← sys_clone root 0x200 (sp_of 1) 0 0 0;
  task_exit (sp_of tid) 7 ;;
  r ← sys_wait4 1 (-1);
  thread_drop tid ;;
  mret (tid, r).
Example process_life :
  match life loading with
  | Ok (r, s) => Some (r, free_frames 24 (mem (spaces s)), Tid.recycled (tids (spaces s)))
  | Panic _ => None
  end = Some ((2, Some (2, 7 * 256)), free_frames 24 (mem (spaces loading)), [2]).
Proof. vm_compute. reflexivity. Qed.

(** The arguments "ls" and "/", read back *)
Lemma arguments_roundtrip_witness : ∃ s' self' top r tf',
  alloc_user_stack heap_run.1 [[0x6C; 0x73]; [0x2F]] [] demo_elf [demo_header] 0 zero_frame heap_run.2 =
    Ok ((self', top, r, tf'), s') ∧
  convert_cstr_array 3 (page_table self') (argv_base r) s' = Ok ([[0x6C; 0x73]; [0x2F]], s').
Proof.
  destruct heap_exact as (Rs & A & q & HE & _ & _ & _ & Hf & Hsub).
  destruct (arguments_roundtrip Rs (pt_root demo_pt) heap_run.2 A heap_run.1 [[0x6C; 0x73]; [0x2F]] [] demo_elf [demo_header] 0x1040 0 zero_frame
    0x4000 3 HE stack_room) as (s' & self' & top & r & tf' & H & Ha & _).
  - change (Z.to_nat _) with 2%nat. lia.
  - intros p Hp. apply Hsub in Hp. cbn [f_free boot_frames] in Hp. apply elem_of_seqZ in Hp.
    assert (boot_start 16 - (2 ^ 52 - 2 ^ 26) = 526320) as Hb by (vm_compute; reflexivity). rewrite Hb in Hp. lia.
  - repeat constructor; lia.
  - constructor.
  - vm_compute. discriminate.
  - reflexivity.
  - reflexivity.
  - repeat constructor; cbn; try lia; intros Hz; repeat (apply elem_of_cons in Hz as [Hz|Hz]; [discriminate Hz|]); by apply not_elem_of_nil in Hz.
  - cbn. lia.
  - cbn. lia.
  - exists s', self', top, r, tf'. split; [exact H|exact Ha].
Defined.
End examples.
