(* ===== verification/Syscall.v ===== *)
(** * System calls and traps

    [syscall_handler] (kernel/src/syscall/mod.rs) with the numbers of [SyscallImpl]
    (kernel/arch/riscv/syscall/mod.rs), and [handle_trap] (kernel/arch/riscv/trap.rs).  The calls
    on threads, processes and memory are those of [Task] and [UserMem]; the others act on a part of
    the kernel this file does not look into ([Vnode], [VnodeIo], [Pipe], [Clock]). *)

From stdpp Require Import gmap fin_maps.
From S2P Require Import Prelude Io FatIo Address Memory PhysPage Pte BTree PageTable PageMap World.
From S2P Require Import AddressSpace Cow Spaces SpaceOps Vfs UserMem UserStack Sched Pipe Wait Clock Task TaskProps.

(** ** The calls and their arguments *)

Inductive Call :=
  | GetCwd (buf size : Z) | Pipe2 (pipe flags : Z) | Dup (oldfd : Z) | Dup3 (oldfd newfd flags : Z) | ChDir (path : Z)
  | OpenAt (dirfd path flags mode : Z) | CloseFd (fd : Z) | GetDents64 (fd buf count : Z) | Read (fd buf count : Z)
  | Write (fd buf count : Z) | WriteV (fd iov count : Z) | LinkAt | UnlinkAt (dirfd path flags : Z) | MkDirAt (dirfd path mode : Z)
  | UMount2 (target flags : Z) | Mount (source target fstype flags data : Z) | FStat (fd stat : Z)
  | FStatAt (dirfd path stat flags : Z) | Fcntl (fd cmd arg : Z) | SendFile (out_fd in_fd offset count : Z)
  | Clone (flags stack parent_tid tls child_tid : Z) | Execve (path argv envp : Z) | Wait4 (pid_ wstatus options rusage : Z)
  | Exit (status_ : Z) | GetPPid | GetPid | SchedYield
  | Brk (addr : Z) | MUnmap (addr len : Z) | MMap (addr len prot flags fd offset : Z) | MProtect (addr len prot : Z)
  | TimesOf (buf : Z) | UName (buf : Z) | GetTimeOfDay (tv tz : Z) | NanoSleep (req rem : Z)
  | Zero | SetTidAddress (tidptr : Z) | Unimplemented.

(** The discriminants of [SyscallImpl] *)
Definition in_enum (n : Z) : bool :=
  ((0 <=? n) && (n <=? 37)) || ((39 <=? n) && (n <=? 244)) || ((260 <=? n) && (n <=? 294)) || ((424 <=? n) && (n <=? 440)).

(** [args] is [x[10..16]]; a number outside the enumeration is transmuted all the same. *)
Definition decode (n : Z) (args : list Z) : exec Call :=
  let a i := args !!! i in
  if negb (in_enum n) then Panic UB
  else Ok match n with
  | 17 => GetCwd (a 0%nat) (a 1%nat)
  | 59 => Pipe2 (a 0%nat) (icast 32 (a 1%nat))
  | 23 => Dup (a 0%nat)
  | 24 => Dup3 (a 0%nat) (a 1%nat) (a 2%nat)
  | 49 => ChDir (a 0%nat)
  | 56 => OpenAt (a 0%nat) (a 1%nat) (icast 64 (a 2%nat)) (a 3%nat)
  | 57 => CloseFd (a 0%nat)
  | 61 => GetDents64 (a 0%nat) (a 1%nat) (a 2%nat)
  | 63 => Read (a 0%nat) (a 1%nat) (a 2%nat)
  | 64 => Write (a 0%nat) (a 1%nat) (a 2%nat)
  | 66 => WriteV (a 0%nat) (a 1%nat) (a 2%nat)
  | 37 => LinkAt
  | 35 => UnlinkAt (a 0%nat) (a 1%nat) (icast 32 (a 2%nat))
  | 34 => MkDirAt (a 0%nat) (a 1%nat) (a 2%nat)
  | 39 => UMount2 (a 0%nat) (icast 32 (a 1%nat))
  | 40 => Mount (a 0%nat) (a 1%nat) (a 2%nat) (a 3%nat) (a 4%nat)
  | 80 => FStat (a 0%nat) (a 1%nat)
  | 79 => FStatAt (a 0%nat) (a 1%nat) (a 2%nat) (a 3%nat)
  | 25 => Fcntl (a 0%nat) (a 1%nat) (a 2%nat)
  | 71 => SendFile (a 0%nat) (a 1%nat) (a 2%nat) (a 3%nat)
  | 220 => Clone (a 0%nat) (a 1%nat) (a 2%nat) (a 3%nat) (a 4%nat)
  | 221 => Execve (a 0%nat) (a 1%nat) (a 2%nat)
  | 260 => Wait4 (icast 64 (a 0%nat)) (a 1%nat) (icast 64 (a 2%nat)) (a 3%nat)
  | 93 => Exit (icast 32 (a 0%nat))
  | 173 => GetPPid
  | 172 => GetPid
  | 124 => SchedYield
  | 214 => Brk (a 0%nat)
  | 215 => MUnmap (a 0%nat) (a 1%nat)
  | 222 => MMap (a 0%nat) (a 1%nat) (a 2%nat) (cast 32 (a 3%nat)) (icast 64 (a 4%nat)) (a 5%nat)
  | 226 => MProtect (a 0%nat) (a 1%nat) (a 2%nat)
  | 153 => TimesOf (a 0%nat)
  | 160 => UName (a 0%nat)
  | 169 => GetTimeOfDay (a 0%nat) (a 1%nat)
  | 101 => NanoSleep (a 0%nat) (a 1%nat)
  | 48 | 175 | 174 | 177 | 176 => Zero
  | 96 => SetTidAddress (a 0%nat)
  | _ => Unimplemented
  end.

Section syscall.
Context {C : Config} {St : Type} `{!FrameOps St} {X : Type}.
Context (kernel_root __restore : Z).
Abbreviation Mach := (Machine St).
Abbreviation T := (Procs Mach).
Abbreviation K := (T * X)%type.
(** The calls of the other parts, which may act on a process as well; a call that blocks returns
    [None] and is run again when its thread is dispatched.  [forked parent child] gives the
    process of a new thread its part. *)
Context (other : Z → Call → M K (option Z)) (forked : Z → Z → M X unit).

Definition on_tasks {R} (f : M T R) : M K R := λ k,
  match f k.1 with Ok (r, s) => Ok (r, (s, k.2)) | Panic e => Panic e end.
Definition on_rest {R} (f : M X R) : M K R := λ k,
  match f k.2 with Ok (r, y) => Ok (r, (k.1, y)) | Panic e => Panic e end.

(** ** Entering and leaving the kernel *)

(** The [critical_section] on the thread's [cycles], with the times of its process *)
Definition charge (sp : Z) (f : M Acct unit) : M T unit :=
  cur ← on_spaces (get_current_thread sp);
  th ← on_spaces (thread_of cur);
  p ← process_of cur;
  match f {| cycles := thr_cycles th; a_times := times p |} with
  | Ok (_, a) =>
      on_spaces (modify (λ m, w_threads m (<[cur := {| user_stack_top := user_stack_top th; task_ra := task_ra th; thr_cycles := cycles a;
        set_child_tid := set_child_tid th; clear_child_tid := clear_child_tid th; magic := magic th |}]> (threads m)))) ;;
      upd cur (λ q, with_times q (a_times a))
  | Panic e => panic e
  end.

(** [syscall_handler] up to the call *)
Definition syscall_enter (sp now : Z) : M T Call :=
  charge sp (enter_kernel now) ;;
  a ← lift (get_current_trapframe sp);
  tf ← on_spaces (load_frame a);
  pc ← lift (uadd (sepc tf) 4);
  on_spaces (store_frame a (set_entry_point tf pc)) ;;
  lift (decode (x tf !!! 17%nat) (take 6 (drop 10 (x tf)))).

(** [syscall_handler] after the call *)
Definition syscall_return (sp now r : Z) : M T unit :=
  a ← lift (get_current_trapframe sp);
  tf ← on_spaces (load_frame a);
  on_spaces (store_frame a (set_return_value tf (cast 64 r))) ;;
  charge sp (leave_kernel now).

(** ** The calls *)

(** A call on the address space of the current process *)
Definition on_space (sp : Z) (f : AddressSpace → M St (AddressSpace * Z)) : M Mach Z :=
  cur ← get_current_thread sp;
  space ← space_of cur;
  '(space, r) ← on_ram (f space);
  modify (λ m, w_user_spaces m (<[cur := space]> (user_spaces m))) ;;
  mret r.

(** A byte the kernel stores at a user address while it holds no lock: a page that is not
    writable faults, and the store is repeated. *)
Definition user_put (space : AddressSpace) (va b : Z) : M St AddressSpace :=
  lift (user_va va) ;;
  o ← find_pte (page_table space) (floor va);
  w ← match o with Some pte => on_mem (load pte) | None => mret 0 end;
  space ← (if flags_contains w PTE_WRITABLE then mret space else AddressSpace.handle_pagefault space va);
  user_store (page_table space) va b ;;
  mret space.
Fixpoint user_put_all (space : AddressSpace) (va : Z) (bs : list Z) : M St AddressSpace :=
  match bs with
  | [] => mret space
  | b :: bs => space ← user_put space va b; user_put_all space (va + 1) bs
  end.

(** [sys_wait4] with the store through [wstatus], a word of four bytes *)
Definition wait4_call (sp pid_ wstatus : Z) : M T (option Z) :=
  cur ← on_spaces (get_current_thread sp);
  o ← sys_wait4 cur pid_;
  match o with
  | Some (cpid, word) =>
      (if wstatus =? 0 then mret tt
       else
         on_spaces (on_space sp (λ space, space ← user_put_all space wstatus (le_bytes 4 word); mret (space, 0))) ;;
         mret tt) ;;
      mret (Some cpid)
  | None => mret None
  end.

Definition do_call (sp : Z) (c : Call) : M K (option Z) :=
  match c with
  | Clone flags stack _ _ child_tid =>
      cur ← on_tasks (on_spaces (get_current_thread sp));
      tid ← on_tasks (sys_clone kernel_root __restore sp flags stack child_tid);
      on_rest (forked cur tid) ;;
      mret (Some tid)
  | Exit v => on_tasks (task_exit sp v) ;; mret None
  | Wait4 pid_ wstatus _ _ => on_tasks (wait4_call sp pid_ wstatus)
  | GetPid => r ← on_tasks (sys_getpid sp); mret (Some r)
  | GetPPid => r ← on_tasks (sys_getppid sp); mret (Some r)
  | SetTidAddress p => r ← on_tasks (on_spaces (sys_set_tid_address sp p)); mret (Some r)
  | SchedYield => mret (Some 0)
  | Brk addr => r ← on_tasks (on_spaces (on_space sp (λ space, sys_brk space addr))); mret (Some r)
  | MUnmap addr len => r ← on_tasks (on_spaces (on_space sp (λ space, sys_munmap space addr len))); mret (Some r)
  | MProtect addr len prot => mret (Some (sys_mprotect addr len prot))
  | LinkAt => panic Explicit
  | Zero | Unimplemented => mret (Some 0)
  | c => other sp c
  end.

(** [syscall_handler]; whether it came back *)
Definition syscall_handler (sp now now' : Z) : M K bool :=
  c ← on_tasks (syscall_enter sp now);
  o ← do_call sp c;
  match o with
  | Some r => on_tasks (syscall_return sp now' r) ;; mret true
  | None => mret false
  end.

(** ** Traps *)

Inductive Cause :=
  | SupervisorTimer | SupervisorExternal | UserEnvCall | LoadPageFault | StorePageFault | InstructionPageFault | LoadFault
  | StoreFault | InstructionFault | OtherCause.

Definition USER_TOP : Z := 0x3fffffffff.
Definition KERNEL_BASE : Z := 0xffffffc000000000.
Definition from_user (tf : TrapFrame) : bool := negb (Z.testbit (sstatus tf) 8).

(** The assertions at the start of [handle_trap] *)
Definition trap_checks (sp sstatus_now sepc_now : Z) (tf : TrapFrame) : bool :=
  (sstatus tf =? sstatus_now) && (sepc tf =? sepc_now) && (KERNEL_BASE <=? sp) &&
  ((from_user tf && (sepc tf <=? USER_TOP)) || (negb (from_user tf) && (KERNEL_BASE <=? sepc tf))).

(** [handle_pagefault] of kernel/src/trap.rs *)
Definition handle_pagefault (sp addr : Z) : M Mach Z :=
  on_space sp (λ space, space ← AddressSpace.handle_pagefault space addr; mret (space, 0)).

(** [handle_trap]: [tf] is the frame of the trap, which is the thread's for a trap from user
    mode; the flag is [sstatus.sie], and [tick] and [yield_to_sched] are those of the timer and
    the scheduler. *)
Definition handle_trap (tick yield_to_sched : M K unit) (tf : TrapFrame) (cause : Cause) (stval sp sstatus_now sepc_now now now' : Z) :
    M (K * bool) unit :=
  let on_kernel {R} (f : M K R) : M (K * bool) R := λ k,
    match f k.1 with Ok (r, s) => Ok (r, (s, k.2)) | Panic e => Panic e end in
  let set_sie (b : bool) : M (K * bool) unit := modify (λ k, (k.1, b)) in
  lift (ensure (trap_checks sp sstatus_now sepc_now tf)) ;;
  match cause with
  | SupervisorTimer =>
      on_kernel tick ;;
      (if from_user tf then on_kernel yield_to_sched else mret tt)
  | _ =>
      set_sie true ;;
      match cause with
      | UserEnvCall => on_kernel (syscall_handler sp now now') ;; mret tt
      | LoadPageFault | StorePageFault | InstructionPageFault | LoadFault | StoreFault =>
          on_kernel (on_tasks (on_spaces (handle_pagefault sp stval))) ;; mret tt
      | _ => panic Explicit
      end ;;
      set_sie false
  end.
End syscall.

(** ** What a program sees of a call *)

Section props.
Context {C : Config} {Cok : ConfigOk C} {St : Type} `{!FrameOps St} {X : Type}.
Context (kernel_root __restore : Z).
Abbreviation Mach := (Machine St).
Abbreviation T := (Procs Mach).
Abbreviation K := (T * X)%type.
Context (other : Z → Call → M K (option Z)) (forked : Z → Z → M X unit).

(** A thread of the kernel, with everything a call needs of it *)
Record runs (s : T) (live : list Z) (t sp a : Z) (tf : TrapFrame) (th : Thread) (p : Process) : Prop := {
  runs_ok : tasks_ok s live;
  runs_live : t ∈ live;
  runs_sp : ∃ r, get_kernel_stack_range t = Ok r ∧ r_start r ≤ sp < r_end r;
  runs_at : get_trapframe t = Ok a;
  runs_frame : trap_frames (spaces s) !! a = Some tf;
  runs_thread : threads (spaces s) !! t = Some th;
  runs_process : procs s !! t = Some p;
}.

Lemma runs_current s live t sp a tf th p : runs s live t sp a tf th p → on_spaces (get_current_thread sp) s = Ok (t, s).
Proof.
  intros [Hok Hl (r & Hr & Hsp) _ _ _ _]. destruct (ok_ptrs _ _ Hok t Hl) as (r' & Hr' & Hp & Hth). rewrite Hr in Hr'. injection Hr' as <-.
  rewrite (on_spaces_eq _ s t (spaces s)); [by destruct s|]. apply (current_thread t r); [by apply (live_nonneg s live)|done..].
Qed.

Lemma runs_trapframe s live t sp a tf th p : runs s live t sp a tf th p → get_current_trapframe sp = Ok a.
Proof.
  intros [Hok Hl (r & Hr & Hsp) Ha _ _ _]. by rewrite (current_frame t r) by (done || by apply (live_nonneg s live)).
Qed.

Definition with_cycles (th : Thread) (n : Z) : Thread :=
  {| user_stack_top := user_stack_top th; task_ra := task_ra th; thr_cycles := n; set_child_tid := set_child_tid th;
     clear_child_tid := clear_child_tid th; magic := magic th |}.

(** The state with another frame, thread and process for [t] *)
Definition put_task (s : T) (t a : Z) (tf : TrapFrame) (th : Thread) (p : Process) : T :=
  {| st := st s; procs := <[t := p]> (procs s); pool := pool s;
     spaces := w_frames (w_threads (spaces s) (<[t := th]> (threads (spaces s)))) (<[a := tf]> (trap_frames (spaces s))) |}.

Lemma put_runs s live t sp a tf th p tf' th' p' : runs s live t sp a tf th p → magic th' = magic th → pid p' = pid p →
  runs (put_task s t a tf' th' p') live t sp a tf' th' p'.
Proof.
  intros [Hok Hl Hsp Ha Hf Ht Hp] Hmag Hpid. split; try done; cbn; [|by rewrite lookup_insert_eq..].
  apply (keeps_ok s); [done| |].
  - split; [done|]. split; [split; [done|]|split; [done|by destruct (store_same a tf' (spaces s)) as (_ & _ & _ & H)]].
    eapply (sound_update (spaces s)); [exact Ht|exact Hmag|reflexivity].
  - unfold pids. cbn. rewrite fmap_insert, Hpid. apply insert_id. by rewrite lookup_fmap, Hp.
Qed.

(** A thread whose frame is [tf] and that is charged [f]'s account *)
Lemma charge_eq s live t sp a tf th p f acct : runs s live t sp a tf th p →
  f {| cycles := thr_cycles th; a_times := times p |} = Ok (tt, acct) →
  charge sp f s = Ok (tt, put_task s t a tf (with_cycles th (cycles acct)) (with_times p (a_times acct))).
Proof.
  intros Hr Hf. unfold charge. step_by ltac:(by eapply runs_current). destruct Hr as [_ _ _ _ Hfr Ht Hp].
  step_by ltac:(apply on_spaces_eq; by apply thread_of_eq). step_by ltac:(by apply process_of_eq). rewrite Hf.
  run_refl. unfold upd, modify, put_task, with_procs. cbn. do 3 f_equal.
  - apply map_eq. intros k. rewrite lookup_alter, lookup_insert. repeat case_decide; simplify_eq; by rewrite ?Hp.
  - unfold w_frames, w_threads. cbn. f_equal. symmetry. by apply insert_id.
Qed.

Lemma enter_thread_eq now th p : thr_cycles th ≤ now < 2 ^ 64 → 0 ≤ thr_cycles th →
  enter_kernel now {| cycles := thr_cycles th; a_times := times p |} =
  Ok (tt, {| cycles := now; a_times := charge_user (now - thr_cycles th) (times p) |}).
Proof. intros H H0. unfold enter_kernel. run_refl. cbn. rewrite usub_in by lia. by run_refl. Qed.
Lemma leave_thread_eq now th p : thr_cycles th ≤ now < 2 ^ 64 → 0 ≤ thr_cycles th →
  leave_kernel now {| cycles := thr_cycles th; a_times := times p |} =
  Ok (tt, {| cycles := now; a_times := charge_system (now - thr_cycles th) (times p) |}).
Proof. intros H H0. unfold leave_kernel. run_refl. cbn. rewrite usub_in by lia. by run_refl. Qed.

(** The state in which a call runs: the program counter is behind the [ecall], and the time since the
    thread last left the kernel is user time. *)
Definition entered (s : T) (t a : Z) (tf : TrapFrame) (th : Thread) (p : Process) (now : Z) : T :=
  put_task s t a (set_entry_point tf (sepc tf + 4)) (with_cycles th now) (with_times p (charge_user (now - thr_cycles th) (times p))).
(** The state after a call that returned [r] *)
Definition returned (s : T) (t a : Z) (tf : TrapFrame) (th : Thread) (p : Process) (now r : Z) : T :=
  put_task s t a (set_return_value tf (cast 64 r)) (with_cycles th now)
    (with_times p (charge_system (now - thr_cycles th) (times p))).

Lemma syscall_enter_run s live t sp a tf th p now : runs s live t sp a tf th p →
  0 ≤ thr_cycles th ≤ now → now < 2 ^ 64 → 0 ≤ sepc tf < 2 ^ 64 - 4 →
  syscall_enter sp now s = lift (decode (x tf !!! 17%nat) (take 6 (drop 10 (x tf)))) (entered s t a tf th p now).
Proof.
  intros Hr Hc Hn Hpc. unfold syscall_enter.
  step_by ltac:(eapply charge_eq; [done|apply enter_thread_eq; lia]). rewrite (runs_trapframe _ _ _ _ _ _ _ _ Hr). run_refl.
  step_by ltac:(apply on_spaces_eq, load_frame_eq; cbn; apply lookup_insert_eq). rewrite uadd_in by lia. run_refl. run_refl.
  unfold entered, put_task, w_frames. cbn. by rewrite insert_insert_eq.
Qed.
Lemma syscall_enter_eq s live t sp a tf th p now c : runs s live t sp a tf th p →
  0 ≤ thr_cycles th ≤ now → now < 2 ^ 64 → 0 ≤ sepc tf < 2 ^ 64 - 4 →
  decode (x tf !!! 17%nat) (take 6 (drop 10 (x tf))) = Ok c →
  syscall_enter sp now s = Ok (c, entered s t a tf th p now).
Proof. intros Hr Hc Hn Hpc Hd. erewrite syscall_enter_run by done. by rewrite Hd. Qed.

Lemma syscall_return_eq s live t sp a tf th p now r : runs s live t sp a tf th p →
  0 ≤ thr_cycles th ≤ now → now < 2 ^ 64 → syscall_return sp now r s = Ok (tt, returned s t a tf th p now r).
Proof.
  intros Hr Hc Hn. unfold syscall_return. rewrite (runs_trapframe _ _ _ _ _ _ _ _ Hr). run_refl.
  step_by ltac:(apply on_spaces_eq, load_frame_eq; exact (runs_frame _ _ _ _ _ _ _ _ Hr)).
  step_by ltac:(by apply on_spaces_eq).
  pose proof (put_runs _ _ _ _ _ _ _ _ (set_return_value tf (cast 64 r)) th p Hr eq_refl eq_refl) as Hr'.
  assert (∀ s', s' = put_task s t a (set_return_value tf (cast 64 r)) th p →
    charge sp (leave_kernel now) s' = Ok (tt, returned s t a tf th p now r)) as H.
  { intros s' ->. erewrite charge_eq; [|exact Hr'|apply leave_thread_eq; lia]. cbn. unfold returned, put_task, w_frames, w_threads. cbn.
    by rewrite !insert_insert_eq. }
  apply H. unfold put_task, w_frames, w_threads. cbn. destruct Hr as [_ _ _ _ _ Ht Hp].
  by rewrite (insert_id (procs s) t p Hp), (insert_id (threads (spaces s)) t th Ht).
Qed.

Lemma on_tasks_eq {R} (f : M T R) s (y : X) r s' : f s = Ok (r, s') → on_tasks f (s, y) = Ok (r, (s', y)).
Proof. intros H. unfold on_tasks. cbn. by rewrite H. Qed.

(** The times of a process after a call that entered the kernel at [now] and left it at [now'] *)
Definition times_after (cycles_ now now' : Z) (ts : Times) : Times := charge_system (now' - now) (charge_user (now - cycles_) ts).

(** The frame a program continues with: behind the [ecall], with the result in [a0] *)
Definition frame_after (tf : TrapFrame) (r : Z) : TrapFrame := set_return_value (set_entry_point tf (sepc tf + 4)) (cast 64 r).

(** A call that returns, for a thread that is still there: the program continues behind its
    [ecall] with the result in [a0] and every other register as it was, unless the call wrote to the frame
    itself; the time in user mode and the time in the kernel are charged as such. *)
Theorem syscall_returns s live t sp a tf th p (y : X) now now' c r s2 y2 live2 p2 :
  runs s live t sp a tf th p → 0 ≤ thr_cycles th ≤ now → now ≤ now' < 2 ^ 64 → 0 ≤ sepc tf < 2 ^ 64 - 4 →
  decode (x tf !!! 17%nat) (take 6 (drop 10 (x tf))) = Ok c →
  do_call kernel_root __restore other forked sp c (entered s t a tf th p now, y) = Ok (Some r, (s2, y2)) →
  runs s2 live2 t sp a (set_entry_point tf (sepc tf + 4)) (with_cycles th now) p2 →
  ∃ s', syscall_handler kernel_root __restore other forked sp now now' (s, y) = Ok (true, (s', y2)) ∧
    trap_frames (spaces s') = <[a := frame_after tf r]> (trap_frames (spaces s2)) ∧
    procs s' = <[t := with_times p2 (charge_system (now' - now) (times p2))]> (procs s2) ∧
    user_spaces (spaces s') = user_spaces (spaces s2) ∧ st s' = st s2 ∧ pool s' = pool s2 ∧ mem (spaces s') = mem (spaces s2).
Proof.
  intros Hr Hc Hn Hpc Hd Hcall Hr2. eexists. split.
  - unfold syscall_handler. step_by ltac:(apply on_tasks_eq; eapply syscall_enter_eq; [done|lia|lia|lia|done]).
    run Hcall. step_by ltac:(apply on_tasks_eq; eapply syscall_return_eq; [done|cbn; lia|lia]). reflexivity.
  - done.
Qed.

Lemma entered_runs s live t sp a tf th p now : runs s live t sp a tf th p →
  runs (entered s t a tf th p now) live t sp a (set_entry_point tf (sepc tf + 4)) (with_cycles th now)
    (with_times p (charge_user (now - thr_cycles th) (times p))).
Proof. intros Hr. eapply put_runs; [exact Hr|done..]. Qed.

(** A call that leaves the state alone *)
Lemma quiet_call s live t sp a tf th p (y : X) now now' c r :
  runs s live t sp a tf th p → 0 ≤ thr_cycles th ≤ now → now ≤ now' < 2 ^ 64 → 0 ≤ sepc tf < 2 ^ 64 - 4 →
  decode (x tf !!! 17%nat) (take 6 (drop 10 (x tf))) = Ok c →
  do_call kernel_root __restore other forked sp c (entered s t a tf th p now, y) = Ok (Some r, (entered s t a tf th p now, y)) →
  syscall_handler kernel_root __restore other forked sp now now' (s, y) =
    Ok (true, (put_task s t a (frame_after tf r) (with_cycles th now') (with_times p (times_after (thr_cycles th) now now' (times p))), y)).
Proof.
  intros Hr Hc Hn Hpc Hd Hcall. unfold syscall_handler.
  step_by ltac:(apply on_tasks_eq; eapply syscall_enter_eq; [done|lia|lia|lia|done]). run Hcall.
  step_by ltac:(apply on_tasks_eq; eapply syscall_return_eq; [by apply entered_runs|cbn; lia|lia]).
  unfold returned, entered, put_task, w_frames, w_threads, mret, M_ret, frame_after, times_after. cbn. by rewrite !insert_insert_eq.
Qed.

Lemma getpid_eq s live t sp a tf th p : runs s live t sp a tf th p → sys_getpid sp s = Ok (t, s).
Proof.
  intros Hr. unfold sys_getpid. step_by ltac:(by eapply runs_current). destruct Hr as [Hok Hl (r & Hr & _) _ _ _ Hp].
  step_by ltac:(by apply process_of_eq). assert (pids s !! t = Some (pid p)) as Hq by (unfold pids; by rewrite lookup_fmap, Hp).
  apply (ok_pids _ _ Hok) in Hq as [_ ->]. by rewrite (icast_tid t r) by (done || by apply (live_nonneg s live)).
Qed.

(** What a program gets for a number: [getpid] gives the identifier of its process; a number of the
    enumeration the kernel does not handle gives 0, as if the call had succeeded, and does nothing
    else; any other number is undefined behaviour of the kernel. *)
Theorem call_numbers s live t sp a tf th p (y : X) now now' :
  runs s live t sp a tf th p → 0 ≤ thr_cycles th ≤ now → now ≤ now' < 2 ^ 64 → 0 ≤ sepc tf < 2 ^ 64 - 4 →
  let n := x tf !!! 17%nat in
  let back r := syscall_handler kernel_root __restore other forked sp now now' (s, y) =
    Ok (true, (put_task s t a (frame_after tf r) (with_cycles th now') (with_times p (times_after (thr_cycles th) now now' (times p))), y)) in
  (n = 172 → back t) ∧
  (in_enum n = true → decode n (take 6 (drop 10 (x tf))) = Ok Unimplemented → back 0) ∧
  (in_enum n = false → syscall_handler kernel_root __restore other forked sp now now' (s, y) = Panic UB).
Proof.
  intros Hr Hc Hn Hpc n back. split; [|split].
  - intros Hq. eapply quiet_call; [done..|fold n; by rewrite Hq|].
    cbn [do_call]. step_by ltac:(apply on_tasks_eq; eapply getpid_eq; by apply entered_runs). reflexivity.
  - intros _ Hd. by eapply quiet_call.
  - intros Hq. assert (on_tasks (syscall_enter sp now) (s, y) = Panic UB) as H.
    { unfold on_tasks. cbn [fst]. erewrite syscall_enter_run by (done || lia). fold n. unfold decode. by rewrite Hq. }
    unfold syscall_handler, mbind, M_bind. by rewrite H.
Qed.

(** A trap that returns leaves interrupts in the kernel as it found them if it was the timer's,
    and off otherwise; a trap that is neither the timer, a call nor a memory fault does not return. *)
Theorem trap_interrupts (tick yield_to_sched : M K unit) tf cause stval sp ss pc now now' (k k' : K) b b' :
  handle_trap kernel_root __restore other forked tick yield_to_sched tf cause stval sp ss pc now now' (k, b) = Ok (tt, (k', b')) →
  b' = match cause with SupervisorTimer => b | _ => false end ∧
  cause ≠ SupervisorExternal ∧ cause ≠ InstructionFault ∧ cause ≠ OtherCause.
Proof.
  intros H. unfold handle_trap in H. apply M_bind_Ok in H as (u & k1 & H1 & H). apply lift_Ok in H1 as [_ ->].
  destruct cause; apply M_bind_Ok in H as (u1 & k2 & H1 & H).
  { cbn [fst snd] in H1. destruct (tick k) as [[]|]; [|done]. injection H1 as _ <-. split; [|done]. destruct (from_user tf).
    - cbn [fst snd] in H. destruct (yield_to_sched _) as [[]|]; [|done]. by injection H as _ _ <-.
    - by injection H as _ <-. }
  all: apply M_bind_Ok in H as (u2 & k3 & H2 & H); try discriminate H2; injection H as _ <-; done.
Qed.
End props.
