(* ===== verification/SyscallSample.v ===== *)
(** * A session of system calls

    The machine of [TaskSample], with the calls made through [syscall_handler]. *)

From stdpp Require Import gmap fin_maps.
From S2P Require Import Prelude Io FatIo Address Memory PhysPage Pte BTree PageTable PageMap World.
From S2P Require Import AddressSpace Cow Spaces SpaceOps Vfs UserMem UserStack Boot MemSample StackSample.
From S2P Require Import Sched Pipe Wait Clock Task TaskProps TaskSample Syscall.

Section examples.
#[local] Existing Instance qemu_config.
Abbreviation T := (Procs (Machine kmem)).

(** There is nothing besides the tasks. *)
Definition no_other (sp : Z) (c : Call) : M (T * unit) (option Z) := panic Explicit.
Definition no_files (parent child : Z) : M unit unit := mret tt.

(** Thread [t] makes the call [n] *)
Definition ecall (t n : Z) (args : list Z) (now now' : Z) : M (T * unit) bool :=
  a ← lift (get_trapframe t);
  tf ← on_tasks (on_spaces (load_frame a));
  on_tasks (on_spaces (store_frame a {| x := <[17%nat := n]> (list_inserts 10 args (x tf)); sstatus := sstatus tf; sepc := sepc tf |})) ;;
  syscall_handler root 0x200 no_other no_files (sp_of t) now now'.
(** A register of a thread *)
Definition reg (t : Z) (i : nat) : M (T * unit) Z :=
  a ← lift (get_trapframe t); tf ← on_tasks (on_spaces (load_frame a)); mret (x tf !!! i).
Definition word (t va : Z) : M (T * unit) Z :=
  space ← on_tasks (on_spaces (space_of t)); on_tasks (on_spaces (on_ram (user_load (page_table space) va))).

(** Process 1 clones itself; the child gets 0 and the parent 2.  The child exits with 7, and the
    parent waits: it gets 2, and the status in the four bytes at 0x1010, a page it shares with the child, so the
    store faults and copies it.  The rest of the word is as it was. *)
Definition session : M (T * unit) (list Z) :=
  ecall 1 220 [0; 0; 0; 0; 0] 10 20 ;;
  p ← reg 1 10; c ← reg 2 10;
  ecall 2 93 [7] 30 40 ;;
  ecall 1 260 [2 ^ 64 - 1; 0x1010; 0; 0] 50 60 ;;
  q ← reg 1 10; w ← word 1 0x1010; v ← word 2 0x1010;
  mret [p; c; q; w; v].
Example session_run :
  match session (loading, tt) with Ok (l, _) => l | Panic _ => [] end = [2; 0; 2; 0x0707070700000700; 0x0707070707070707].
Proof. vm_compute. reflexivity. Qed.

(** ** Witnesses *)

Definition thread_1 : Thread :=
  {| user_stack_top := 0x8000; task_ra := 0x300; thr_cycles := 0; set_child_tid := 0; clear_child_tid := 0; magic := MAGIC |}.
Lemma loading_runs : runs loading [1; 0] 1 (sp_of 1) (2 ^ 64 - 2 ^ 15 - 280) first_frame thread_1 (new_process (Some 0) 1).
Proof.
  split.
  - exact (tasks_inv _ _ _ _ _ _ loaded).
  - apply elem_of_cons. left. reflexivity.
  - exists stack_1. exact stack_1_Ok.
  - vm_compute. reflexivity.
  - vm_compute. reflexivity.
  - vm_compute. reflexivity.
  - vm_compute. reflexivity.
Qed.

(** The first frame asks for call 0, which the kernel does not handle. *)
Lemma call_numbers_witness : ∃ s', syscall_handler root 0x200 no_other no_files (sp_of 1) 5 9 (loading, tt) = Ok (true, (s', tt)) ∧
  trap_frames (spaces s') !! (2 ^ 64 - 2 ^ 15 - 280) = Some (frame_after first_frame 0).
Proof.
  destruct (call_numbers root 0x200 no_other no_files loading [1; 0] 1 (sp_of 1) (2 ^ 64 - 2 ^ 15 - 280) first_frame _ _ tt 5 9 loading_runs)
    as (_ & H & _); [cbn; lia|lia|cbn; lia|].
  eexists. split; [apply H; reflexivity|]. apply lookup_insert_eq.
Defined.

Definition getpid_frame : TrapFrame := {| x := <[17%nat := 172]> (x first_frame); sstatus := sstatus first_frame; sepc := sepc first_frame |}.
Definition asking : T := put_task loading 1 (2 ^ 64 - 2 ^ 15 - 280) getpid_frame thread_1 (new_process (Some 0) 1).

Lemma syscall_returns_witness : ∃ s', syscall_handler root 0x200 no_other no_files (sp_of 1) 5 9 (asking, tt) = Ok (true, (s', tt)) ∧
  trap_frames (spaces s') !! (2 ^ 64 - 2 ^ 15 - 280) = Some (frame_after getpid_frame 1).
Proof.
  pose proof (put_runs _ _ _ _ _ _ _ _ getpid_frame thread_1 (new_process (Some 0) 1) loading_runs eq_refl eq_refl) as Hr. pose proof (entered_runs _ _ _ _ _ _ _ _ 5 Hr) as He.
  destruct (λ H1 H2 H3 H4 H5, syscall_returns root 0x200 no_other no_files asking [1; 0] 1 (sp_of 1) (2 ^ 64 - 2 ^ 15 - 280) getpid_frame thread_1
    (new_process (Some 0) 1) tt 5 9 GetPid 1 _ tt _ _ Hr H1 H2 H3 H4 H5 He)
    as (s' & H & Hf & _).
  - cbn. lia.
  - lia.
  - cbn. lia.
  - reflexivity.
  - cbn [do_call]. erewrite M_bind_eq; [|apply on_tasks_eq; exact (getpid_eq _ _ _ _ _ _ _ _ He)]. reflexivity.
  - exists s'. split; [exact H|]. rewrite Hf. apply lookup_insert_eq.
Defined.
End examples.
