(* ===== verification/VnodeOwn.v ===== *)
(** * What a call can touch

    The rest of the calls on descriptors, [sys_fcntl] (kernel/src/syscall/fs.rs) among them, on the stores
    of [Vnode]; that reading and writing keep the reference counts; and that a call of one
    process leaves the descriptor tables and directories of the others alone. *)

From stdpp Require Import gmap fin_maps.
From S2P Require Import Prelude Io FatIo Vfs Vnode VnodeInv VnodeOps VnodeProps VnodeIo.

Section more_calls.
Context {F : Type} `{!InodeOps F, !InodeIo F}.
Abbreviation V := (Vfs F).

(** [Seek for FileDescriptor]: the position of the descriptor stays. *)
Definition desc_seek (h : Z) (pos : SeekFrom) : M V (ioresult Z) :=
  '(d, _) ← fd_of h;
  '(v, _) ← vnode_of (vnode d);
  on_fs (i_seek (inode v) pos).

(** [flags.insert(CLOEXEC)] through the shared descriptor *)
Definition set_cloexec (h : Z) : M V unit := modify (λ s,
  with_fds s (alter (λ e, ({| flags := Z.lor (flags e.1) CLOEXEC; fd_pos := fd_pos e.1; vnode := vnode e.1 |}, e.2)) h (fds s))).

Definition fd_fcntl (p : nat) (fd : Z) (cmd : FcntlCmd) (arg : Z) : M V Z :=
  o ← on_table p (slot_unwrap fd);
  match o with
  | None => mret (-1)
  | Some h =>
      match cmd with
      | F_DUPFD => fd_clone h ;; install p h (fd_alloc_from arg)
      | F_DUPFD_CLOEXEC =>
          fd_clone h ;;
          newfd ← on_table p (fd_alloc_from arg);
          if 0 <=? newfd then set_cloexec h ;; assign p newfd (Some h) ;; mret newfd
          else fd_drop h ;; mret (-1)
      | F_GETFD => '(d, _) ← fd_of h; mret (icast 64 (flags d))
      | F_SETFD => (if Z.testbit arg 0 then set_cloexec h else mret tt) ;; mret (-1)
      | F_OTHER => mret (-1)
      end
  end.

(** ** Touching the own table only *)

(** Process [p] may have another table and another directory; nothing else of a process differs. *)
Definition others_same (p : nat) (s s' : V) : Prop :=
  length (tables s') = length (tables s) ∧ length (cwds s') = length (cwds s) ∧
  ∀ q, q ≠ p → tables s' !! q = tables s !! q ∧ cwds s' !! q = cwds s !! q.
#[export] Instance others_same_preorder p : PreOrder (others_same p).
Proof.
  split; [by intros s|]. intros s1 s2 s3 (E1 & E2 & E3) (F1 & F2 & F3). split; [congruence|]. split; [congruence|].
  intros q Hq. destruct (E3 q Hq), (F3 q Hq). split; congruence.
Qed.

Definition own {R} (p : nat) (m : M V R) : Prop := ∀ s r s', m s = Ok (r, s') → others_same p s s'.

Lemma own_bind {A R} p (m : M V A) (f : A → M V R) : own p m → (∀ a, own p (f a)) → own p (m ≫= f).
Proof. intros Hm Hf s r s' (a & s1 & H1 & H)%M_bind_Ok. etransitivity; [by eapply Hm|by eapply Hf]. Qed.
Lemma own_try {A R} p (m : M V (ioresult A)) (f : A → M V (ioresult R)) : own p m → (∀ a, own p (f a)) → own p (try m f).
Proof. intros Hm Hf. apply own_bind; [done|]. intros [a|e]; [done|]. by intros s r s' [= _ <-]. Qed.
Lemma own_mret {R} p (r : R) : own p (mret r).
Proof. by intros s r' s' [= _ <-]. Qed.
Lemma own_get p : own p get.
Proof. by intros s r' s' [= _ <-]. Qed.
Lemma own_lift {R} p (e : exec R) : own p (lift e).
Proof. by intros s r' s' [_ ->]%lift_Ok. Qed.
Lemma own_panic {R} p e : own p (panic e : M V R).
Proof. by intros s r' s' H. Qed.
Lemma own_on_fs {R} p (m : M F R) : own p (on_fs m).
Proof. intros s r s' H. unfold on_fs in H. destruct (m (fsys s)) as [[]|]; [|done]. by injection H as _ <-. Qed.
(** A change that is not to tables or directories *)
Lemma own_modify p (f : V → V) : (∀ s, tables (f s) = tables s ∧ cwds (f s) = cwds s) → own p (modify f).
Proof. intros Hf s r s' [= _ <-]. destruct (Hf s) as [E1 E2]. unfold others_same. by rewrite E1, E2. Qed.
Lemma own_set_table p t : own p (set_table p t).
Proof.
  intros s r s' [= _ <-]. split; [by apply length_insert|]. split; [done|]. intros q Hq. cbn. by rewrite list_lookup_insert_ne.
Qed.
Lemma own_put {R} p (f : V → V) (k : V → M V R) : (∀ s, tables (f s) = tables s ∧ cwds (f s) = cwds s) → (∀ s, own p (k s)) →
  own p (s ← get; put (f s) ;; k s).
Proof.
  intros Hf Hk s r s' H. revert H. run_refl. run_refl. intros H. etransitivity; [|by eapply Hk].
  destruct (Hf s) as [E1 E2]. unfold others_same. by rewrite E1, E2.
Qed.
End more_calls.

Create HintDb own discriminated.
#[export] Hint Resolve own_mret own_get own_lift own_panic own_on_fs own_set_table : own.
#[export] Hint Extern 1 (own _ (modify _)) => apply own_modify; by intros [] : own.
(** Follows the structure of a call. *)
Ltac own_step := first
  [ solve [eauto with own nocore] | apply own_bind; [|intros] | apply own_try; [|intros] | case_match ].
Ltac own_run := repeat own_step.

Section own_calls.
Context {F : Type} `{!InodeOps F, !InodeIo F}.
Abbreviation V := (Vfs F).

Lemma own_fresh p : own p (fresh (F := F)).
Proof. by apply own_put; [|intros; own_run]. Qed.
#[local] Hint Resolve own_fresh : own.
Lemma own_vnode_new p v : own p (vnode_new (F := F) v).
Proof. unfold vnode_new. own_run. Qed.
Lemma own_fd_new p d : own p (fd_new (F := F) d).
Proof. unfold fd_new. own_run. Qed.
Lemma own_vnode_of p h : own p (vnode_of (F := F) h).
Proof. unfold vnode_of. own_run. Qed.
Lemma own_fd_of p h : own p (fd_of (F := F) h).
Proof. unfold fd_of. own_run. Qed.
#[local] Hint Resolve own_vnode_new own_fd_new own_vnode_of own_fd_of : own.
Lemma own_vnode_clone p h : own p (vnode_clone (F := F) h).
Proof. unfold vnode_clone. own_run. Qed.
Lemma own_vnode_drop p h : own p (vnode_drop (F := F) h).
Proof. unfold vnode_drop. own_run. Qed.
Lemma own_fd_clone p h : own p (fd_clone (F := F) h).
Proof. unfold fd_clone. own_run. Qed.
#[local] Hint Resolve own_vnode_clone own_vnode_drop own_fd_clone : own.
Lemma own_hs_remove p path : own p (hs_remove (F := F) path).
Proof.
  intros s r s' H. unfold hs_remove in H. revert H. run_refl. case_match; [run_refl|by intros [= _ <-]].
  intros H'. by apply (own_vnode_drop p) in H'.
Qed.
Lemma own_hs_insert p path h : own p (hs_insert (F := F) path h).
Proof. by apply own_put; [|intros; own_run]. Qed.
#[local] Hint Resolve own_hs_remove own_hs_insert : own.
Lemma own_fd_destroy p d : own p (fd_destroy (F := F) d).
Proof. unfold fd_destroy. own_run. Qed.
#[local] Hint Resolve own_fd_destroy : own.
Lemma own_fd_drop p h : own p (fd_drop (F := F) h).
Proof. unfold fd_drop. own_run. Qed.
#[local] Hint Resolve own_fd_drop : own.
Lemma own_slot_drop p o : own p (slot_drop (F := F) o).
Proof. unfold slot_drop. own_run. Qed.
Lemma own_table_of p q : own p (table_of (F := F) q).
Proof. unfold table_of. own_run. Qed.
#[local] Hint Resolve own_slot_drop own_table_of : own.
Lemma own_on_table {R} p (m : M FdState R) : own p (on_table (F := F) p m).
Proof. unfold on_table. own_run. Qed.
#[local] Hint Resolve own_on_table : own.
Lemma own_assign p i v : own p (assign (F := F) p i v).
Proof. unfold assign. own_run. Qed.
#[local] Hint Resolve own_assign : own.
Lemma own_install p h alloc : own p (install (F := F) p h alloc).
Proof. unfold install. own_run. Qed.
Lemma own_lookup_fs p path : own p (lookup_fs (F := F) path).
Proof. unfold lookup_fs. own_run. Qed.
Lemma own_dir_path p dirfd : own p (dir_path (F := F) p dirfd).
Proof. unfold dir_path. own_run. Qed.
#[local] Hint Resolve own_install own_lookup_fs own_dir_path : own.
Lemma own_sys_path p dirfd path : own p (sys_path (F := F) p dirfd path).
Proof. unfold sys_path. own_run. Qed.
Lemma own_open_inode p path fl : own p (open_inode (F := F) path fl).
Proof. unfold open_inode, ok. own_run. Qed.
#[local] Hint Resolve own_sys_path own_open_inode : own.
Lemma own_open_vnode p path fl : own p (open_vnode (F := F) path fl).
Proof. unfold open_vnode, ok. own_run. Qed.
#[local] Hint Resolve own_open_vnode : own.
Lemma own_file_open p path fl : own p (file_open (F := F) path fl).
Proof. unfold file_open, ok. own_run. Qed.
#[local] Hint Resolve own_file_open : own.
Lemma own_register p f : own p (regeister_file_system (F := F) f).
Proof. unfold regeister_file_system. own_run. Qed.
#[local] Hint Resolve own_register : own.
Lemma own_set_fd_pos p h pos : own p (set_fd_pos (F := F) h pos).
Proof. unfold set_fd_pos. own_run. Qed.
#[local] Hint Resolve own_set_fd_pos : own.
Lemma own_desc_read p h len : own p (desc_read (F := F) h len).
Proof. unfold desc_read, ok, err. own_run. Qed.
Lemma own_desc_write p h buf : own p (desc_write (F := F) h buf).
Proof. unfold desc_write, ok, err. own_run. Qed.
Lemma own_desc_seek p h pos : own p (desc_seek (F := F) h pos).
Proof. unfold desc_seek. own_run. Qed.
#[local] Hint Resolve own_desc_read own_desc_write own_desc_seek : own.
Lemma own_fd_inode p fd : own p (fd_inode (F := F) p fd).
Proof. unfold fd_inode. own_run. Qed.
#[local] Hint Resolve own_fd_inode : own.
Lemma own_create_pipe_pair p : own p (create_pipe_pair (F := F)).
Proof. unfold create_pipe_pair. own_run. Qed.
#[local] Hint Resolve own_create_pipe_pair : own.
Lemma own_set_cloexec p h : own p (set_cloexec (F := F) h).
Proof. unfold set_cloexec. own_run. Qed.
#[local] Hint Resolve own_set_cloexec : own.
Lemma own_sendfile_loop p fuel a b n : own p (sendfile_loop (F := F) fuel a b n).
Proof. revert n. induction fuel as [|fuel IH]; intros n; cbn [sendfile_loop]; own_run. Qed.
#[local] Hint Resolve own_sendfile_loop : own.

(** ** The system calls *)

Lemma own_openat p dirfd path fl : own p (sys_openat (F := F) p dirfd path fl).
Proof. unfold sys_openat. own_run. Qed.
Lemma own_close p fd : own p (sys_close (F := F) p fd).
Proof. unfold sys_close. own_run. Qed.
Lemma own_dup p fd : own p (sys_dup (F := F) p fd).
Proof. unfold sys_dup. own_run. Qed.
Lemma own_dup3 p fd newfd : own p (sys_dup3 (F := F) p fd newfd).
Proof. unfold sys_dup3. own_run. Qed.
Lemma own_pipe2 p : own p (sys_pipe2 (F := F) p).
Proof. unfold sys_pipe2. own_run. Qed.
Lemma own_unlinkat p dirfd path : own p (sys_unlinkat (F := F) p dirfd path).
Proof. unfold sys_unlinkat, file_unlink. own_run. Qed.
Lemma own_mkdirat p dirfd path : own p (sys_mkdirat (F := F) p dirfd path).
Proof. unfold sys_mkdirat, mkdir. own_run. Qed.
Lemma own_chdir p path : own p (sys_chdir (F := F) p path).
Proof.
  unfold sys_chdir. apply own_bind; [own_run|]. intros full. apply own_bind; [|own_run].
  intros s r s' [= _ <-]. split; [done|]. split; [by apply length_insert|]. intros q Hq. cbn. by rewrite list_lookup_insert_ne.
Qed.
Lemma own_fstatat {R} (get_fstat : Z → M F R) p dirfd path : own p (sys_fstatat get_fstat p dirfd path).
Proof. unfold sys_fstatat. own_run. Qed.
Lemma own_mount p target : own p (sys_mount (F := F) p target).
Proof. unfold sys_mount, mount. own_run. Qed.
Lemma own_umount2 p target : own p (sys_umount2 (F := F) p target).
Proof. unfold sys_umount2, umount. own_run. Qed.
Lemma own_read p fd count : own p (sys_read (F := F) p fd count).
Proof. unfold sys_read. own_run. Qed.
Lemma own_write p fd buf : own p (sys_write (F := F) p fd buf).
Proof. unfold sys_write. own_run. Qed.
Lemma own_fstat {R} (get_fstat : Z → M F R) p fd : own p (sys_fstat get_fstat p fd).
Proof. unfold sys_fstat. own_run. Qed.
Lemma own_getdents64 {R} (get_dents64 : Z → M F R) p fd : own p (sys_getdents64 get_dents64 p fd).
Proof. unfold sys_getdents64. own_run. Qed.
Lemma own_sendfile fuel p a b offset count : own p (sys_sendfile (F := F) fuel p a b offset count).
Proof. unfold sys_sendfile. own_run. Qed.
Lemma own_fcntl p fd cmd arg : own p (fd_fcntl (F := F) p fd cmd arg).
Proof. unfold fd_fcntl. own_run. Qed.
End own_calls.
#[export] Hint Resolve own_sys_path own_table_of own_on_table own_desc_read own_desc_seek own_fd_of : own.
#[export] Hint Resolve own_openat own_close own_dup own_dup3 own_pipe2 own_unlinkat own_mkdirat own_chdir own_fstatat own_mount own_umount2
  own_read own_write own_fstat own_getdents64 own_sendfile own_fcntl : own.

(** ** The counts *)

Section keeps_more.
Context {F : Type} `{!InodeOps F, !InodeIo F, !DropTotal F}.
Context (L0 W0 : list Z).
Abbreviation V := (Vfs F).
Implicit Types (s : V).
Abbreviation ok_refs := (refs_ok L0 W0).

(** A call that moves no reference, whoever holds some *)
Definition stable {R} (m : M V R) : Prop := ∀ L W s r s', ok_refs L W s → m s = Ok (r, s') → ok_refs L W s'.

Lemma stable_keeps {R} (m : M V R) : stable m → keeps L0 W0 m.
Proof. intros H s r s'. apply H. Qed.
Lemma stable_bind {A R} (m : M V A) (f : A → M V R) : stable m → (∀ a, stable (f a)) → stable (m ≫= f).
Proof. intros Hm Hf L W s r s' I (a & s1 & H1 & H)%M_bind_Ok. eapply Hf; [|done]. by eapply Hm. Qed.
Lemma stable_try {A R} (m : M V (ioresult A)) (f : A → M V (ioresult R)) : stable m → (∀ a, stable (f a)) → stable (try m f).
Proof. intros Hm Hf. apply stable_bind; [done|]. intros [a|e]; [done|]. by intros L W s r s' I [= _ <-]. Qed.
Lemma stable_mret {R} (r : R) : stable (mret r).
Proof. by intros L W s r' s' I [= _ <-]. Qed.
Lemma stable_get : stable get.
Proof. by intros L W s r' s' I [= _ <-]. Qed.
Lemma stable_lift {R} (e : exec R) : stable (lift e).
Proof. by intros L W s r' s' I [_ ->]%lift_Ok. Qed.
Lemma stable_panic {R} e : stable (panic e : M V R).
Proof. by intros L W s r' s' I H. Qed.
Lemma stable_on_fs {R} (m : M F R) : stable (on_fs m).
Proof. intros L W s r s' I H. destruct (on_fs_inv _ _ _ _ H) as (? & ? & ? & ?). by eapply refs_ok_stores. Qed.
Lemma stable_fd_of h : stable (fd_of h).
Proof. by intros L W s r s' I [-> _]%fd_of_inv. Qed.
Lemma stable_vnode_of h : stable (vnode_of h).
Proof. by intros L W s r s' I [-> _]%vnode_of_inv. Qed.
Lemma stable_slot_unwrap p fd : stable (on_table p (slot_unwrap fd)).
Proof.
  intros L W s r s' I (t & f & Ht & Hm & ->)%on_table_inv. unfold slot_unwrap in Hm. revert Hm. run_refl. cbn.
  destruct (t !! Z.to_nat fd); [|done]. intros [= _ <-]. cbn. by rewrite list_insert_id, with_tables_id.
Qed.

(** The position or the flags of a descriptor change. *)
Lemma stable_alter (g : FileDescriptor → FileDescriptor) h : (∀ d, vnode (g d) = vnode d) →
  stable (modify (λ s : V, with_fds s (alter (λ e, (g e.1, e.2)) h (fds s)))).
Proof.
  intros Hg L W s r s' [A1 A2 A3 A4 A5 A6 A7 A8 A9 A10] [= _ <-].
  assert (∀ k d n, alter (λ e : FileDescriptor * nat, (g e.1, e.2)) h (fds s) !! k = Some (d, n) →
    ∃ d0, fds s !! k = Some (d0, n) ∧ vnode d = vnode d0) as Hinv.
  { intros k d n. rewrite lookup_alter. case_decide as E; [subst k|by eauto]. destruct (fds s !! h) as [[d0 n0]|]; [|done].
    intros [= <- <-]. exists d0. split; [done|apply Hg]. }
  assert (∀ k, is_Some (fds s !! k) → is_Some (alter (λ e : FileDescriptor * nat, (g e.1, e.2)) h (fds s) !! k)) as Hsome.
  { intros k [e He]. rewrite lookup_alter. case_decide as E; [subst k|]; rewrite He; by eexists. }
  assert (∀ v, desc_count L0 (with_fds s (alter (λ e : FileDescriptor * nat, (g e.1, e.2)) h (fds s))) v = desc_count L0 s v) as Hc.
  { intros v. unfold desc_count. cbn. rewrite <- !size_dom. f_equal. apply set_eq. intros k. rewrite !elem_of_dom.
    split; intros [[d n] [H1 [H2 H3]]%map_lookup_filter_Some]; cbn in *.
    - apply Hinv in H1 as (d0 & H1 & E). exists (d0, n). apply map_lookup_filter_Some. split; [done|]. split; cbn; congruence.
    - destruct (decide (h = k)) as [<-|E]; eexists; apply map_lookup_filter_Some; rewrite lookup_alter.
      + rewrite decide_True, H1 by done. split; [reflexivity|]. split; cbn; [by rewrite Hg|done].
      + rewrite decide_False, H1 by done. split; [reflexivity|]. by split. }
  split; cbn; try done.
  - intros k [d n] (d0 & Hd & _)%Hinv. by eapply A2.
  - intros k d n (d0 & Hd & E)%Hinv. rewrite E. by eapply A3.
  - intros k d n (d0 & Hd & E)%Hinv. rewrite E. by eapply A4.
  - intros k Hk. by apply Hsome, A5.
  - intros k v n Hv. rewrite Hc. by apply A6.
Qed.
Lemma stable_set_fd_pos h pos : stable (set_fd_pos h pos).
Proof. by apply (stable_alter (λ d, {| flags := flags d; fd_pos := pos; vnode := vnode d |})). Qed.
Lemma stable_set_cloexec h : stable (set_cloexec h).
Proof. by apply (stable_alter (λ d, {| flags := Z.lor (flags d) CLOEXEC; fd_pos := fd_pos d; vnode := vnode d |})). Qed.
End keeps_more.

Create HintDb stable discriminated.
#[export] Hint Resolve stable_mret stable_get stable_lift stable_panic stable_on_fs stable_fd_of stable_vnode_of stable_slot_unwrap
  stable_set_fd_pos stable_set_cloexec : stable.
Ltac stable_run := repeat first
  [ solve [eauto with stable nocore] | apply stable_bind; [|intros] | apply stable_try; [|intros] | case_match ].

Section keeps_calls.
Context {F : Type} `{!InodeOps F, !InodeIo F, !DropTotal F}.
Context (L0 W0 : list Z).
Abbreviation V := (Vfs F).
Implicit Types (s : V).

Lemma stable_desc_read h len : stable L0 W0 (desc_read (F := F) h len).
Proof. unfold desc_read, ok, err. stable_run. Qed.
Lemma stable_desc_write h buf : stable L0 W0 (desc_write (F := F) h buf).
Proof. unfold desc_write, ok, err. stable_run. Qed.
Lemma stable_desc_seek h pos : stable L0 W0 (desc_seek (F := F) h pos).
Proof. unfold desc_seek. stable_run. Qed.
#[local] Hint Resolve stable_desc_read stable_desc_write stable_desc_seek : stable.
Lemma stable_fd_inode p fd : stable L0 W0 (fd_inode (F := F) p fd).
Proof. unfold fd_inode. stable_run. Qed.
#[local] Hint Resolve stable_fd_inode : stable.
Lemma stable_sendfile_loop fuel a b n : stable L0 W0 (sendfile_loop (F := F) fuel a b n).
Proof. revert n. induction fuel as [|fuel IH]; intros n; cbn [sendfile_loop]; stable_run. Qed.
#[local] Hint Resolve stable_sendfile_loop : stable.

Lemma stable_read p fd count : stable L0 W0 (sys_read (F := F) p fd count).
Proof. unfold sys_read. stable_run. Qed.
Lemma stable_write p fd buf : stable L0 W0 (sys_write (F := F) p fd buf).
Proof. unfold sys_write. stable_run. Qed.
Lemma stable_fstat {R} (get_fstat : Z → M F R) p fd : stable L0 W0 (sys_fstat get_fstat p fd).
Proof. unfold sys_fstat. stable_run. Qed.
Lemma stable_getdents64 {R} (get_dents64 : Z → M F R) p fd : stable L0 W0 (sys_getdents64 get_dents64 p fd).
Proof. unfold sys_getdents64. stable_run. Qed.
Lemma stable_sendfile fuel p a b offset count : stable L0 W0 (sys_sendfile (F := F) fuel p a b offset count).
Proof. unfold sys_sendfile. stable_run. Qed.

Lemma alloc_from_inv L W s p min n s' : refs_ok L0 W0 L W s → on_table p (fd_alloc_from min) s = Ok (n, s') → refs_ok L0 W0 L W s'.
Proof.
  intros R (t & f & Ht & Hm & ->)%on_table_inv. eapply refs_ok_extend; [done| |done].
  unfold fd_alloc_from in Hm. revert Hm. run_refl. cbn. assert (extended t t) as H0 by (exists 0%nat; by rewrite app_nil_r).
  assert (∀ x t' (k : Z) r, (Vfs.set_table (t ++ t') ;; mret k) x = Ok (r, f) → t' = replicate (length t') None → extended t (fd_table f)) as H1.
  { intros x t' k r [= _ <-] E. exists (length t'). cbn. by rewrite <- E. }
  repeat case_match; try (by intros [= _ <-]); intros Hm; eapply H1; [exact Hm|by rewrite length_replicate|exact Hm|done].
Qed.
Lemma keeps_fcntl p fd cmd arg : keeps L0 W0 (fd_fcntl (F := F) p fd cmd arg).
Proof.
  intros s r s' I (o & s1 & H1 & H)%M_bind_Ok. apply (stable_slot_unwrap _ _ _ _ _ _ _ _ _ I) in H1 as R1.
  destruct o as [h|]; [|by injection H as _ <-].
  destruct cmd; [..|by injection H as _ <-].
  - apply M_bind_Ok in H as (u & s2 & H2 & H). apply (fd_clone_inv _ _ _ _ _ _ _ _ R1) in H2 as [R2 _].
    unfold install in H. apply M_bind_Ok in H as (n & s3 & H3 & H). apply (alloc_from_inv _ _ _ _ _ _ _ R2) in H3 as R3.
    case_match; apply M_bind_Ok in H as (u4 & s4 & H4 & [= _ <-]); [by eapply (assign_inv _ _ _ _ _ _ _ (Some h))|by eapply fd_drop_inv].
  - apply M_bind_Ok in H as (u & s2 & H2 & H). apply (fd_clone_inv _ _ _ _ _ _ _ _ R1) in H2 as [R2 _].
    apply M_bind_Ok in H as (n & s3 & H3 & H). apply (alloc_from_inv _ _ _ _ _ _ _ R2) in H3 as R3.
    case_match; apply M_bind_Ok in H as (u4 & s4 & H4 & H).
    + apply (stable_set_cloexec _ _ _ _ _ _ _ _ R3) in H4 as R4. apply M_bind_Ok in H as (u5 & s5 & H5 & [= _ <-]).
      by eapply (assign_inv _ _ _ _ _ _ _ (Some h)).
    + injection H as _ <-. by eapply fd_drop_inv.
  - assert (stable L0 W0 ('(d, _) ← fd_of h; mret (icast 64 (flags d)) : M V Z)) as Hs by stable_run. by eapply Hs.
  - assert (stable L0 W0 ((if Z.testbit arg 0 then set_cloexec h else mret tt) ;; mret (-1) : M V Z)) as Hs by stable_run. by eapply Hs.
Qed.
End keeps_calls.
(** The calls as the kernel makes them *)
Create HintDb keeps discriminated.
#[export] Hint Resolve keeps_openat keeps_close keeps_dup keeps_dup3 keeps_pipe2 keeps_unlinkat keeps_mkdirat keeps_chdir keeps_fstatat
  keeps_umount2 keeps_fcntl keeps_fs_last : keeps.
#[export] Hint Extern 1 (keeps _ _ (sys_read _ _ _)) => apply stable_keeps, stable_read : keeps.
#[export] Hint Extern 1 (keeps _ _ (sys_write _ _ _)) => apply stable_keeps, stable_write : keeps.
#[export] Hint Extern 1 (keeps _ _ (sys_fstat _ _ _)) => apply stable_keeps, stable_fstat : keeps.
#[export] Hint Extern 1 (keeps _ _ (sys_getdents64 _ _ _)) => apply stable_keeps, stable_getdents64 : keeps.
#[export] Hint Extern 1 (keeps _ _ (sys_sendfile _ _ _ _ _ _)) => apply stable_keeps, stable_sendfile : keeps.
#[export] Hint Extern 1 (keeps _ _ (desc_read _ _)) => apply stable_keeps, stable_desc_read : keeps.
#[export] Hint Extern 1 (keeps _ _ (desc_seek _ _)) => apply stable_keeps, stable_desc_seek : keeps.
#[export] Hint Extern 1 (keeps _ _ (on_table _ (slot_unwrap _))) => apply stable_keeps, stable_slot_unwrap : keeps.
