(* ===== verification/Kernel.v ===== *)
(** * The kernel: files, threads and memory together

    The system calls that [Syscall] leaves to other parts, with their pointers: paths, buffers and
    results are in the memory of the calling process, which the kernel reads and writes
    through its page table (kernel/src/syscall).  A call that holds the lock of its process while it does so
    cannot be helped by the fault handler, which takes the same lock: a page that would have to be
    copied first stops the kernel.  The state is that of [Task] and the stores of [Vnode], with
    the descriptor table each process has there. *)

From stdpp Require Import gmap fin_maps strings.
From S2P Require Import Prelude Io FatIo FatName Vfs Vnode VnodeInv VnodeOps VnodeProps VnodeIo VnodeOwn.
From S2P Require Import Address Memory PhysPage Pte BTree PageTable PageMap World AddressSpace Cow Spaces SpaceOps.
From S2P Require Import UserMem UserStack Sched Pipe Wait Clock Task Exec TaskProps Syscall.

(** The other methods of [Inode]: the bytes of the [Stat] and the [LinuxDirent64] *)
Class InodeStat (F : Type) := { i_fstat : Z → M F (list Z); i_dents64 : Z → M F (list Z) }.

(** [index] is the place of a process in the lists of [Vnode]; [sleepers] are the events of [TIMER]. *)
Record Rest (F : Type) := { vfs : Vfs F; index : gmap Z nat; sleepers : list (Z * Z) }.
Arguments vfs {_}. Arguments index {_}. Arguments sleepers {_}.

Section calls.
Context {C : Config} {St : Type} `{!FrameOps St} {F : Type} `{!InodeOps F, !InodeIo F, !InodeStat F} {G : Type} `{!Stream G}.
Context (kernel_root __restore ret_to_restore : Z).
(** [ElfFileExt::new]: the file at a path in a directory, with the headers the ELF parser reads *)
Context (program : Z → list Z → M F (list ProgramHeader * ElfHeader * G)).
(** [CARGO_PKG_VERSION] and [CARGO_PKG_VERSION_MAJOR] *)
Context (RELEASE VERSION : list Z).
(** The length of the longest string, and the bytes of the longest [sendfile] *)
Context (fuel : nat).
(** What the registers [time] and [sstatus] hold when a call reads them *)
Context (time sstatus_now : Z).
Abbreviation Mach := (Machine St).
Abbreviation T := (Procs Mach).
Abbreviation V := (Vfs F).
Abbreviation K := (T * Rest F)%type.

Definition on_vfs {R} (m : M V R) : M (Rest F) R := λ y,
  match m (vfs y) with
  | Ok (r, v) => Ok (r, {| vfs := v; index := index y; sleepers := sleepers y |})
  | Panic e => Panic e
  end.
Definition on_files {R} (m : M V R) : M K R := on_rest (on_vfs m).
Definition on_machine {R} (m : M Mach R) : M K R := on_tasks (on_spaces m).

(** The place of the current process *)
Definition table_index (t : Z) : M (Rest F) nat := y ← get; match index y !! t with Some p => mret p | None => panic UB end.
Definition current (sp : Z) : M K nat :=
  cur ← on_machine (get_current_thread sp);
  on_rest (table_index cur).

(** ** User memory *)

(** Reads and writes through the page table of the current process *)
Definition in_space {R} (sp : Z) (f : PageTableImpl → M St R) : M K R :=
  on_machine (cur ← get_current_thread sp; space ← space_of cur; on_ram (f (page_table space))).

(** With the lock held, see [user_va] for the pointers *)
Definition locked_byte (pt : PageTableImpl) (va : Z) : M St Z :=
  lift (user_va va) ;;
  o ← translate_va pt va;
  match o with Some pa => on_mem (load_byte (pa + KERNEL_MAP_OFFSET)) | None => panic Deadlock end.
Definition locked_word (pt : PageTableImpl) (va : Z) : M St Z :=
  lift (user_va va) ;;
  o ← translate_va pt va;
  match o with Some pa => on_mem (load (pa + KERNEL_MAP_OFFSET)) | None => panic Deadlock end.
Fixpoint locked_bytes (n : nat) (pt : PageTableImpl) (va : Z) : M St (list Z) :=
  match n with
  | O => mret []
  | S n => b ← locked_byte pt va; rest ← locked_bytes n pt (va + 1); mret (b :: rest)
  end.
(** [&[&str]]: pairs of a pointer and a length *)
Fixpoint locked_iovecs (n : nat) (pt : PageTableImpl) (iov : Z) : M St (list (list Z)) :=
  match n with
  | O => mret []
  | S n =>
      p ← locked_word pt iov;
      len ← locked_word pt (iov + 8);
      bs ← locked_bytes (Z.to_nat len) pt p;
      rest ← locked_iovecs n pt (iov + 16);
      mret (bs :: rest)
  end.

(** Without the lock: the fault handler copies pages. *)
Definition store_user (sp va : Z) (bs : list Z) : M K unit :=
  on_machine (on_space sp (λ space, space ← user_put_all space va bs; mret (space, 0))) ;; mret tt.

(** [CStr::from_ptr(path)] *)
Definition user_path (sp va : Z) : M K (list Z) := in_space sp (λ pt, cstr_bytes fuel pt va).

(** ** The calls *)

Definition getcwd_call (sp buf size : Z) : M K Z :=
  p ← current sp;
  k ← get;
  cwd ← lift (unwrap (cwds (vfs k.2) !! p));
  if Z.of_nat (length cwd) <? size then
    in_space sp (λ pt, user_store_all pt buf (cwd ++ [0])) ;;
    mret (icast 64 buf)
  else panic OutOfBounds.

Definition pipe2_call (sp pipe : Z) : M K Z :=
  p ← current sp;
  '(r, o) ← on_files (sys_pipe2 p);
  match o with
  | Some (read_fd, write_fd) =>
      store_user sp pipe (le_bytes 4 read_fd) ;;
      store_user sp (pipe + 4) (le_bytes 4 write_fd) ;;
      mret r
  | None => mret r
  end.

(** A call with a path *)
Definition path_call (sp path : Z) (f : nat → list Z → M V Z) : M K Z :=
  str ← user_path sp path;
  p ← current sp;
  on_files (f p str).

Definition read_call (sp fd buf count : Z) : M K Z :=
  p ← current sp;
  '(n, bs) ← on_files (VnodeIo.sys_read p fd count);
  in_space sp (λ pt, user_store_all pt buf bs) ;;
  mret n.

(** Whether a write to the descriptor takes bytes at all *)
Definition takes_bytes (p : nat) (fd : Z) : M V bool :=
  o ← on_table p (slot_unwrap fd);
  match o with Some h => '(d, _) ← fd_of h; mret (writable (flags d)) | None => mret false end.
Definition write_call (sp fd buf count : Z) : M K Z :=
  p ← current sp;
  w ← on_files (takes_bytes p fd);
  bs ← (if w : bool then in_space sp (λ pt, locked_bytes (Z.to_nat count) pt buf) else mret []);
  on_files (VnodeIo.sys_write p fd bs).
(** The parts are collected whether or not the descriptor is writable. *)
Definition writev_call (sp fd iov count : Z) : M K Z :=
  p ← current sp;
  o ← on_files (on_table p (slot_unwrap fd));
  match o with
  | Some _ =>
      iovecs ← in_space sp (λ pt, locked_iovecs (Z.to_nat count) pt iov);
      on_files (sys_writev p fd iovecs)
  | None => mret (-1)
  end.

(** A structure that is stored with the lock held, if there is one *)
Definition fstat_call (sp stat : Z) (f : nat → M V (Z * option (list Z))) : M K Z :=
  p ← current sp;
  '(r, o) ← on_files (f p);
  match o with
  | Some bs => in_space sp (λ pt, user_store_all pt stat bs) ;; mret r
  | None => mret r
  end.
Definition fstatat_call (sp dirfd path stat : Z) : M K Z :=
  str ← user_path sp path;
  p ← current sp;
  '(r, o) ← on_files (sys_fstatat i_fstat p dirfd str);
  match o with
  | Some bs => store_user sp stat bs ;; mret r
  | None => mret r
  end.

(** A command outside the enumeration is transmuted all the same. *)
Definition fcntl_cmd (cmd : Z) : exec FcntlCmd :=
  match cmd with
  | 0 => Ok F_DUPFD
  | 1 => Ok F_GETFD
  | 2 => Ok F_SETFD
  | 3 | 4 | 5 | 6 | 7 => Ok F_OTHER
  | 1030 => Ok F_DUPFD_CLOEXEC
  | _ => Panic UB
  end.

(** [sys_mmap] with the descriptor table of [Vnode]: the area, and then the file *)
Definition mmap_call (sp addr len prot fd offset : Z) : M K Z :=
  p ← current sp;
  r ← on_machine (on_space sp (λ space,
    '(space, _, r) ← sys_mmap space [] {| inodes := (∅ : gmap Z memfile); descs := ∅ |} addr len prot fd offset;
    mret (space, r)));
  if negb (addr =? 0) then mret r
  else
    table ← on_files (table_of p);
    match table_get_mut table fd with
    | None => mret r
    | Some slot =>
        h ← lift (unwrap slot);
        res ← on_files (desc_seek h (SeekStart offset));
        lift (io_unwrap res) ;;
        res ← on_files (VnodeIo.desc_read h len);
        bs ← lift (io_unwrap res);
        in_space sp (λ pt, user_store_all pt r bs) ;;
        in_space sp (λ pt, user_store pt (r + len) 0) ;;
        mret r
    end.

Fixpoint store_words (sp va : Z) (ws : list Z) : M K unit :=
  match ws with
  | [] => mret tt
  | w :: ws => store_user sp va (le_bytes 8 w) ;; store_words sp (va + 8) ws
  end.
Definition times_call (sp buf : Z) : M K Z :=
  cur ← on_machine (get_current_thread sp);
  p ← on_tasks (process_of cur);
  store_words sp buf (sys_times (times p)) ;;
  mret 0.
Definition gettimeofday_call (sp tv : Z) : M K Z := store_words sp tv (sys_gettimeofday time) ;; mret 0.

(** The fields are arrays of 65 bytes. *)
Fixpoint store_fields (sp va : Z) (names : list (list Z)) : M K unit :=
  match names with
  | [] => mret tt
  | n :: names =>
      lift (if (length (n ++ [0%Z]) <=? UTS_LEN)%nat then Ok tt else Panic OutOfBounds) ;;
      store_user sp va (n ++ [0]) ;;
      store_fields sp (va + Z.of_nat UTS_LEN) names
  end.
Definition uname_call (sp buf : Z) : M K Z :=
  store_fields sp buf [str "Hecto-OS"; str "None"; RELEASE; VERSION; str "None"; str "None"] ;; mret 0.

(** [sys_nanosleep] up to the switch, without an interrupt between registering and waiting ([Clock]) *)
Definition nanosleep_call (sp req : Z) : M K unit :=
  cur ← on_machine (get_current_thread sp);
  secs ← in_space sp (λ pt, user_load pt req);
  nanos ← in_space sp (λ pt, user_load pt (req + 8));
  now ← lift (get_duration time);
  deadline ← lift (Timer.duration_add (secs * NSEC_PER_SEC + nanos `mod` 2 ^ 32) now);
  k ← get;
  ev ← lift (Timer.register deadline cur (sleepers k.2));
  on_rest (modify (λ y, {| vfs := vfs y; index := index y; sleepers := ev |})) ;;
  on_tasks (set_st cur Waiting).

(** [sys_execve]; [FILE_SYSTEM_TABLE[0]] is the file system of programs. *)
Definition execve_call (sp path argv envp : Z) : M K unit :=
  str ← user_path sp path;
  p ← current sp;
  full ← on_files (sys_path p AT_FDCWD str);
  k ← get;
  match fs_table (vfs k.2) !! 0%nat with
  | Some (Some (_, dir)) =>
      '(headers, elf, file) ← on_files (on_fs (program dir full));
      on_machine (sys_execve kernel_root ret_to_restore fuel sp argv envp headers elf file sstatus_now)
  | _ => panic UnwrapNone
  end.

Definition returns {R} (m : M K R) : M K (option R) := r ← m; mret (Some r).

(** What [syscall_handler] calls for files, memory of files and time.  The calls on threads and on anonymous memory, [brk], [munmap] and
    [mprotect] among them, do not come here: [do_call] runs them itself.  Reading a pipe returns what the pipe of the parameter gives; how a read
    blocks is in [Pipe]. *)
Definition file_call (sp : Z) (c : Call) : M K (option Z) :=
  match c with
  | GetCwd buf size => returns (getcwd_call sp buf size)
  | Syscall.Pipe2 pipe _ => returns (pipe2_call sp pipe)
  | Syscall.Dup oldfd => returns (p ← current sp; on_files (sys_dup p oldfd))
  | Syscall.Dup3 oldfd newfd _ => returns (p ← current sp; on_files (sys_dup3 p oldfd newfd))
  | ChDir path => returns (path_call sp path sys_chdir)
  | OpenAt dirfd path flags _ => returns (path_call sp path (λ p s, sys_openat p dirfd s (cast 64 flags)))
  | CloseFd fd => returns (p ← current sp; on_files (sys_close p fd))
  | GetDents64 fd buf _ => returns (fstat_call sp buf (λ p, sys_getdents64 i_dents64 p fd))
  | Read fd buf count => returns (read_call sp fd buf count)
  | Write fd buf count => returns (write_call sp fd buf count)
  | WriteV fd iov count => returns (writev_call sp fd iov count)
  | UnlinkAt dirfd path _ => returns (path_call sp path (λ p s, sys_unlinkat p dirfd s))
  | MkDirAt dirfd path _ => returns (path_call sp path (λ p s, sys_mkdirat p dirfd s))
  | UMount2 target _ => returns (path_call sp target sys_umount2)
  | Syscall.Mount _ target _ _ _ => returns (path_call sp target sys_mount)
  | FStat fd stat => returns (fstat_call sp stat (λ p, sys_fstat i_fstat p fd))
  | FStatAt dirfd path stat _ => returns (fstatat_call sp dirfd path stat)
  | Fcntl fd cmd arg => returns (cmd ← lift (fcntl_cmd cmd); p ← current sp; on_files (fd_fcntl p fd cmd arg))
  | SendFile out_fd in_fd offset count => returns (p ← current sp; on_files (sys_sendfile fuel p out_fd in_fd offset count))
  | MMap addr len prot _ fd offset => returns (mmap_call sp addr len prot fd offset)
  | TimesOf buf => returns (times_call sp buf)
  | UName buf => returns (uname_call sp buf)
  | GetTimeOfDay tv _ => returns (gettimeofday_call sp tv)
  | NanoSleep req _ => nanosleep_call sp req ;; mret None
  | Execve path argv envp => execve_call sp path argv envp ;; mret None
  | _ => panic Explicit
  end.

(** The descriptor table and the directory of [Process::fork] *)
Definition files_forked (parent child : Z) : M (Rest F) unit :=
  p ← table_index parent;
  q ← on_vfs (fork_table p);
  modify (λ y, {| vfs := vfs y; index := <[child := q]> (index y); sleepers := sleepers y |}).

(** ** The kernel *)

Definition syscall (sp now now' : Z) : M K bool := syscall_handler kernel_root __restore file_call files_forked sp now now'.

(** A process that did not come from another: [Process::from_elf], and [KERNEL_PROCESS] *)
Definition files_new (t : Z) : M (Rest F) unit :=
  q ← on_vfs (init_process STDIN STDOUT);
  modify (λ y, {| vfs := vfs y; index := <[t := q]> (index y); sleepers := sleepers y |}).
Definition spawn (sp : Z) (headers : list ProgramHeader) (elf : ElfHeader) (file : G) (arguments : list (list Z)) (tf : TrapFrame) : M K Z :=
  tid ← on_tasks (new_thread kernel_root ret_to_restore sp headers elf file arguments sstatus_now tf);
  on_rest (files_new tid) ;;
  mret tid.

(** The last reference to a thread goes, and with it the only one to its process. *)
Definition reap (t : Z) : M K unit :=
  on_tasks (thread_drop t) ;;
  p ← on_rest (table_index t);
  on_files (drop_table p) ;;
  on_rest (modify (λ y, {| vfs := vfs y; index := delete t (index y); sleepers := sleepers y |})).

(** [fs::init] and the scheduling thread *)
Definition boot_files (f : F) : Rest F := {| vfs := vfs_new f; index := ∅; sleepers := [] |}.
Definition start (schedule : Z) : M K Z :=
  on_files fs_init ;;
  tid ← on_tasks (switch_to_schedule schedule);
  on_rest (files_new tid) ;;
  mret tid.
End calls.
