(* ===== verification/KernelProps.v ===== *)
(** * What a call may touch

    A system call on files, memory or time, made with pointers of the user half, creates and ends no thread, and changes no descriptor table and no
    directory but those of the calling process; and it keeps the reference counts of the open files exact. *)

From stdpp Require Import gmap fin_maps strings.
From S2P Require Import Prelude Io FatIo FatName Vfs Vnode VnodeInv VnodeOps VnodeProps VnodeIo VnodeOwn.
From S2P Require Import Address Memory PhysPage Pte BTree PageTable PageMap World AddressSpace Cow Spaces SpaceOps.
From S2P Require Import UserMem UserStack Sched Pipe Wait Clock Task Exec TaskProps Syscall Kernel.

Section alone.
Context {C : Config} {Cok : ConfigOk C} {St : Type} `{!FrameOps St} {F : Type} `{!InodeOps F, !InodeIo F, !InodeStat F}.
Context {G : Type} `{!Stream G}.
Abbreviation Mach := (Machine St).
Abbreviation T := (Procs Mach).
Abbreviation V := (Vfs F).
Abbreviation K := (T * Rest F)%type.
Implicit Types (k : K).

(** Threads, processes and tables are those there were, less what the process with the table at [p] did to its own table. *)
Record alone (p : nat) (k k' : K) : Prop := {
  al_same : same_threads (spaces k.1) (spaces k'.1);
  al_procs : procs k'.1 = procs k.1;
  al_pool : pool k'.1 = pool k.1;
  al_index : index k'.2 = index k.2;
  al_files : others_same p (vfs k.2) (vfs k'.2);
}.
#[export] Instance alone_preorder p : PreOrder (alone p).
Proof.
  split; [by split|]. intros k1 k2 k3 [A1 B1 C1 D1 E1] [A2 B2 C2 D2 E2].
  split; try congruence; [by eapply same_threads_trans|by etransitivity].
Qed.

Definition on_stack (sp t : Z) (p : nat) k : Prop :=
  get_current_thread sp (spaces k.1) = Ok (t, spaces k.1) ∧ index k.2 !! t = Some p.
Definition confined {R} (sp t : Z) (p : nat) (m : M K R) : Prop := ∀ k r k', on_stack sp t p k → m k = Ok (r, k') → alone p k k'.

Lemma current_same sp t (m m' : Mach) : same_threads m m' → get_current_thread sp m = Ok (t, m) → get_current_thread sp m' = Ok (t, m').
Proof.
  intros (_ & [E Hth] & _). unfold get_current_thread. intros (top & m1 & [H1 ->]%lift_Ok & H)%M_bind_Ok. apply M_bind_Ok in H as (a & m1 & [H2 ->]%lift_Ok & H).
  rewrite H1. run_refl. rewrite H2. run_refl. revert H. run_refl. run_refl. rewrite E. destruct (ptrs m !! a) as [h|]; cbn; [|done]. destruct (threads m !! h) as [th|] eqn:Hh; cbn; [|done].
  intros (u & m1 & [Hm%ensure_Ok ->]%lift_Ok & [= ->])%M_bind_Ok. apply Z.eqb_eq in Hm. destruct (Hth t) as (th' & Ht & Hm'); [by exists th|].
  rewrite Ht. cbn. by rewrite Hm'.
Qed.
Lemma alone_stack sp t p k k' : on_stack sp t p k → alone p k k' → on_stack sp t p k'.
Proof.
  intros [H1 H2] H. split; [|by rewrite (al_index _ _ _ H)]. eapply current_same; [|exact H1]. apply (al_same _ _ _ H).
Qed.

Section rules.
Context (sp t : Z) (p : nat).
Abbreviation conf := (confined sp t p).

Lemma conf_bind {A R} (m : M K A) (f : A → M K R) : conf m → (∀ a, conf (f a)) → conf (m ≫= f).
Proof.
  intros Hm Hf k r k' Hs (a & k1 & H1 & H)%M_bind_Ok. specialize (Hm _ _ _ Hs H1).
  etransitivity; [exact Hm|]. eapply Hf; [by eapply alone_stack|done].
Qed.
Lemma conf_mret {R} (r : R) : conf (mret r).
Proof. by intros k r' k' _ [= _ <-]. Qed.
Lemma conf_get : conf get.
Proof. by intros k r' k' _ [= _ <-]. Qed.
Lemma conf_lift {R} (e : exec R) : conf (lift e).
Proof. by intros k r' k' _ [_ ->]%lift_Ok. Qed.
Lemma conf_panic {R} e : conf (panic e : M K R).
Proof. by intros k r' k' _ H. Qed.
Lemma on_rest_inv {R} (m : M (Rest F) R) k r k' : on_rest m k = Ok (r, k') → ∃ y, m k.2 = Ok (r, y) ∧ k' = (k.1, y).
Proof. unfold on_rest. destruct (m k.2) as [[]|]; [|done]. intros [= <- <-]. by eexists. Qed.
Lemma on_tasks_inv {R} (m : M T R) k r k' : on_tasks m k = Ok (r, k') → ∃ s, m k.1 = Ok (r, s) ∧ k' = (s, k.2).
Proof. unfold on_tasks. destruct (m k.1) as [[]|]; [|done]. intros [= <- <-]. by eexists. Qed.
Lemma on_files_inv {R} (m : M V R) k r k' : on_files m k = Ok (r, k') →
  ∃ v, m (vfs k.2) = Ok (r, v) ∧ k' = (k.1, {| vfs := v; index := index k.2; sleepers := sleepers k.2 |}).
Proof.
  intros (y & H & ->)%on_rest_inv. unfold on_vfs in H. destruct (m (vfs k.2)) as [[]|]; [|done]. injection H as <- <-. by eexists.
Qed.
Lemma on_machine_inv {R} (m : M Mach R) k r k' : on_machine m k = Ok (r, k') →
  ∃ x, m (spaces k.1) = Ok (r, x) ∧ k' = ({| st := st k.1; procs := procs k.1; pool := pool k.1; spaces := x |}, k.2).
Proof. intros (s & (x & H & ->)%on_spaces_Ok & ->)%on_tasks_inv. by eexists. Qed.
Lemma conf_files {R} (m : M V R) : own p m → conf (on_files m).
Proof. intros Hm k r k' _ (v & H%Hm & ->)%on_files_inv. by split. Qed.
Lemma on_machine_eq {R} (m : M Mach R) k r : m (spaces k.1) = Ok (r, spaces k.1) → on_machine m k = Ok (r, k).
Proof. intros H. unfold on_machine, on_tasks, on_spaces. rewrite H. by destruct k as [[] ?]. Qed.
Lemma current_eq k : on_stack sp t p k → current sp k = Ok (p, k).
Proof.
  intros [H1 H2]. unfold current. run (on_machine_eq _ k t H1). unfold on_rest, table_index, mbind, M_bind, get. cbn. rewrite H2. by destruct k.
Qed.
Lemma conf_current {R} (f : nat → M K R) : conf (f p) → conf (q ← current sp; f q).
Proof. intros Hf k r k' Hs. run (current_eq k Hs). by apply Hf. Qed.
Lemma conf_thread {R} (f : Z → M K R) : conf (f t) → conf (cur ← on_machine (get_current_thread sp); f cur).
Proof. intros Hf k r k' Hs. run (on_machine_eq _ k t (proj1 Hs)). by apply Hf. Qed.
(** The machine of the current thread *)
Lemma conf_machine {R} (m : M Mach R) :
  (∀ x r x', get_current_thread sp x = Ok (t, x) → m x = Ok (r, x') → same_threads x x') → conf (on_machine m).
Proof. intros Hm k r k' [Hs _] (x & H & ->)%on_machine_inv. pose proof (Hm _ _ _ Hs H). by split. Qed.
Lemma conf_in_space {R} (f : PageTableImpl → M St R) : conf (in_space sp f).
Proof.
  apply conf_machine. intros x r x' _ H. inv_exec. apply get_current_thread_same in Hm as ->. apply space_of_inv in Hm0 as [-> _].
  by apply on_ram_Ok in H as (v & _ & ->).
Qed.
Lemma on_space_inv (f : AddressSpace → M St (AddressSpace * Z)) (x : Mach) r x' : get_current_thread sp x = Ok (t, x) →
  on_space sp f x = Ok (r, x') → ∃ space v, is_Some (user_spaces x !! t) ∧ x' = w_user_spaces (w_mem x v) (<[t := space]> (user_spaces x)).
Proof.
  intros Hc H. unfold on_space in H. revert H. run Hc. intros H. inv_exec. apply space_of_inv in Hm as [-> Hu].
  apply on_ram_Ok in Hm0 as (v & _ & ->). unfold modify in Hm1. injection Hm1 as _ <-. eexists _, v. split; [by eexists|done].
Qed.
Lemma conf_on_space (f : AddressSpace → M St (AddressSpace * Z)) : conf (on_machine (on_space sp f)).
Proof.
  apply conf_machine. intros x r x' Hc (space & v & Hu & ->)%on_space_inv; [|done].
  split; [done|]. split; [done|]. split; [|done]. by apply insert_is_Some.
Qed.
Lemma conf_sleepers ev : conf (on_rest (modify (λ y, {| vfs := vfs y; index := index y; sleepers := ev |}))).
Proof. intros k r k' _ (y & [= _ <-] & ->)%on_rest_inv. by split. Qed.
Lemma conf_wait v : conf (on_tasks (set_st t v)).
Proof.
  by intros k r k' _ (s & [= _ <-] & ->)%on_tasks_inv.
Qed.
Lemma conf_process h : conf (on_tasks (process_of h)).
Proof. intros k r k' _ (s & [-> _]%process_of_same & ->)%on_tasks_inv. by destruct k. Qed.
Lemma conf_execve root ret fuel argv envp headers elf (file : G) now : conf (on_machine (sys_execve root ret fuel sp argv envp headers elf file now)).
Proof.
  apply conf_machine. intros x r x' Hc H. unfold sys_execve in H. revert H. run Hc. intros H. inv_exec.
  apply space_of_inv in Hm as [-> _]. apply on_ram_Ok in Hm0 as (v & _ & ->), Hm1 as (v1 & _ & ->). exact (execve_same _ _ _ _ _ _ _ _ _ _ _ _ H).
Qed.
End rules.
End alone.

(** Follows the structure of a call. *)
Ltac conf_step := first
  [ apply conf_mret | apply conf_get | apply conf_lift | apply conf_panic | apply conf_in_space | apply conf_on_space | apply conf_process
  | apply conf_sleepers | apply conf_wait | apply conf_execve | apply conf_files; solve [own_run]
  | apply conf_current | apply conf_thread | apply conf_bind; [|intros] | case_match ].
Ltac conf_run := repeat conf_step.

Section file_calls.
Context {C : Config} {Cok : ConfigOk C} {St : Type} `{!FrameOps St} {F : Type} `{!InodeOps F, !InodeIo F, !InodeStat F}.
Context {G : Type} `{!Stream G}.
Context (kernel_root __restore ret_to_restore : Z) (program : Z → list Z → M F (list ProgramHeader * ElfHeader * G)).
Context (RELEASE VERSION : list Z) (fuel : nat) (time sstatus_now : Z).
Abbreviation Mach := (Machine St).
Abbreviation T := (Procs Mach).
Abbreviation V := (Vfs F).
Abbreviation K := (T * Rest F)%type.
Implicit Types (k : K).
Abbreviation calls := (file_call kernel_root ret_to_restore program RELEASE VERSION fuel time sstatus_now).

Lemma own_takes_bytes p fd : own p (takes_bytes (F := F) p fd).
Proof. unfold takes_bytes. own_run. Qed.
#[local] Hint Resolve own_takes_bytes : own.

Section conf.
Context (sp t : Z) (p : nat).
Lemma conf_store_user va bs : confined (F := F) sp t p (store_user sp va bs).
Proof. unfold store_user. conf_run. Qed.
Lemma conf_store_words va ws : confined (F := F) sp t p (store_words sp va ws).
Proof. revert va. induction ws as [|w ws IH]; intros va; cbn [store_words]; [conf_run|]. apply conf_bind; [apply conf_store_user|done]. Qed.
Lemma conf_store_fields va ns : confined (F := F) sp t p (store_fields sp va ns).
Proof.
  revert va. induction ns as [|n ns IH]; intros va; cbn [store_fields]; [conf_run|]. apply conf_bind; [conf_run|]. intros _.
  apply conf_bind; [apply conf_store_user|done].
Qed.

Lemma conf_call c : confined sp t p (calls sp c).
Proof.
  destruct c; cbn [file_call]; try apply conf_panic;
    unfold returns, getcwd_call, pipe2_call, path_call, read_call, write_call, writev_call, sys_writev, fstat_call, fstatat_call, mmap_call, times_call,
      uname_call, gettimeofday_call, nanosleep_call, execve_call, user_path;
    repeat first [ apply conf_store_user | apply conf_store_words | apply conf_store_fields | conf_step ].
Qed.
End conf.

(** ** The counts *)

Context `{!DropTotal F}.

Definition counted {R} (m : M K R) : Prop := ∀ k r k',
  refs_ok statics console_refs [] [] (vfs k.2) → m k = Ok (r, k') → refs_ok statics console_refs [] [] (vfs k'.2).

Lemma counted_bind {A R} (m : M K A) (f : A → M K R) : counted m → (∀ a, counted (f a)) → counted (m ≫= f).
Proof. intros Hm Hf k r k' I (a & k1 & H1 & H)%M_bind_Ok. eapply Hf; [|done]. by eapply Hm. Qed.
Lemma counted_mret {R} (r : R) : counted (mret r).
Proof. by intros k r' k' I [= _ <-]. Qed.
Lemma counted_get : counted get.
Proof. by intros k r' k' I [= _ <-]. Qed.
Lemma counted_lift {R} (e : exec R) : counted (lift e).
Proof. by intros k r' k' I [_ ->]%lift_Ok. Qed.
Lemma counted_panic {R} e : counted (panic e : M K R).
Proof. by intros k r' k' I H. Qed.
Lemma counted_tasks {R} (m : M T R) : counted (on_tasks m).
Proof. by intros k r k' I (s & _ & ->)%on_tasks_inv. Qed.
Lemma counted_files {R} (m : M V R) : keeps statics console_refs m → counted (on_files m).
Proof. intros Hm k r k' I (v & H & ->)%on_files_inv. cbn. by eapply Hm. Qed.
Lemma counted_index t : counted (on_rest (table_index t)).
Proof.
  intros k r k' I (y & H & ->)%on_rest_inv. unfold table_index in H. revert H. run_refl. case_match; [|done]. by intros [= _ <-].
Qed.
Lemma counted_modify (f : Rest F → Rest F) : (∀ y, vfs (f y) = vfs y) → counted (on_rest (modify f)).
Proof. intros Hf k r k' I (y & [= _ <-] & ->)%on_rest_inv. cbn. by rewrite Hf. Qed.
Lemma keeps_sys_path p dirfd path : keeps statics console_refs (sys_path (F := F) p dirfd path).
Proof. by intros s r s' I ->%sys_path_inv. Qed.
Lemma keeps_takes_bytes p fd : keeps statics console_refs (takes_bytes (F := F) p fd).
Proof. apply stable_keeps. unfold takes_bytes. stable_run. Qed.
Lemma keeps_table_of p : keeps statics console_refs (table_of (F := F) p).
Proof. intros s r s' I. unfold table_of. run_refl. by intros [_ ->]%lift_Ok. Qed.

Ltac counted_step := first
  [ apply counted_mret | apply counted_get | apply counted_lift | apply counted_panic | apply counted_tasks | apply counted_index
  | by apply counted_modify
  | apply counted_files; solve [eauto with keeps nocore | apply keeps_sys_path | apply keeps_takes_bytes | apply keeps_table_of]
  | apply counted_bind; [|intros] | case_match ].
Lemma counted_store_user sp va bs : counted (store_user sp va bs).
Proof. unfold store_user, on_machine. repeat counted_step. Qed.
Lemma counted_store_words sp va ws : counted (store_words sp va ws).
Proof. revert va. induction ws as [|w ws IH]; intros va; cbn [store_words]; [apply counted_mret|]. apply counted_bind; [apply counted_store_user|done]. Qed.
Lemma counted_store_fields sp va ns : counted (store_fields sp va ns).
Proof.
  revert va. induction ns as [|n ns IH]; intros va; cbn [store_fields]; [apply counted_mret|]. apply counted_bind; [apply counted_lift|]. intros _.
  apply counted_bind; [apply counted_store_user|done].
Qed.

(** The path on which a call mounts a file system *)
Definition mount_target (sp target : Z) : M K (list Z) :=
  str ← user_path fuel sp target; p ← current sp; on_files (sys_path p AT_FDCWD str).
Definition mounts (sp : Z) (c : Call) k (path : list Z) : Prop :=
  match c with Syscall.Mount _ target _ _ _ => ∃ k', mount_target sp target k = Ok (path, k') | _ => False end.

Lemma mount_refs sp target k r k' : refs_ok statics console_refs [] [] (vfs k.2) →
  (∀ path k', mount_target sp target k = Ok (path, k') → hashset (vfs k.2) !! path = None) →
  path_call fuel sp target sys_mount k = Ok (r, k') → refs_ok statics console_refs [] [] (vfs k'.2).
Proof.
  intros I Hm H. unfold path_call in H. apply M_bind_Ok in H as (str & k1 & H1 & H). apply M_bind_Ok in H as (p & k2 & H2 & H).
  pose proof H1 as H1'. pose proof H2 as H2'. apply on_machine_inv in H1' as (x & _ & E1).
  assert (vfs k2.2 = vfs k.2) as E2.
  { unfold current in H2'. apply M_bind_Ok in H2' as (cur & k3 & (x3 & _ & ->)%on_machine_inv & (y & H3 & ->)%on_rest_inv).
    unfold table_index in H3. revert H3. run_refl. case_match; [|done]. intros [= _ <-]. by subst k1. }
  apply on_files_inv in H as (v & H & ->). cbn. unfold sys_mount in H. apply M_bind_Ok in H as (path & v1 & H3 & H).
  apply M_bind_Ok in H as (u & v2 & H4 & [= _ <-]). pose proof (sys_path_inv _ _ _ _ _ _ H3) as ->. eapply mount_keeps; [|..|exact H4]; rewrite E2; [done|].
  eapply Hm. unfold mount_target. run H1. run H2. unfold on_files, on_rest, on_vfs. by rewrite H3.
Qed.

Lemma counted_call sp c : (match c with Syscall.Mount _ _ _ _ _ => False | _ => True end) → counted (calls sp c).
Proof.
  intros Hm. destruct c; cbn [file_call]; try apply counted_panic; try done;
    unfold returns, getcwd_call, pipe2_call, path_call, read_call, write_call, writev_call, sys_writev, fstat_call, fstatat_call, mmap_call, times_call,
      uname_call, gettimeofday_call, nanosleep_call, execve_call, user_path, current, in_space, on_machine;
    repeat first [ apply counted_store_user | apply counted_store_words | apply counted_store_fields | counted_step ].
Qed.
Lemma call_refs sp c k r k' : refs_ok statics console_refs [] [] (vfs k.2) →
  (∀ path, mounts sp c k path → hashset (vfs k.2) !! path = None) → calls sp c k = Ok (r, k') → refs_ok statics console_refs [] [] (vfs k'.2).
Proof.
  intros I Hm. destruct c; try (by apply counted_call). cbn [file_call]. unfold returns. intros (r1 & k1 & H & [= _ <-])%M_bind_Ok.
  eapply mount_refs; [done| |done]. intros path k2 H2. apply Hm. by eexists.
Qed.
End file_calls.
