(* ===== verification/KernelInv.v ===== *)
(** * The invariant of the kernel

    The states that system calls, faults, scheduling and user code lead to, from the boot on, by any
    number of processes in any order: threads and files stay consistent, separately and with each other. *)

From stdpp Require Import gmap fin_maps strings.
From S2P Require Import Prelude Io FatIo FatName Address Memory PhysPage Pte BTree PageTable PageMap World AddressSpace Cow Spaces SpaceOps.
From S2P Require Import Sched Pipe Wait Clock Vfs Vnode VnodeInv VnodeOps VnodeProps VnodeIo VnodeOwn.
From S2P Require Import UserMem UserStack Task Exec TaskProps Syscall Kernel KernelProps.

(** ** Tables come and go *)

Section tables.
Context {F : Type} `{!InodeOps F}.
Abbreviation V := (Vfs F).
Implicit Types (s : V).

Lemma fd_clone_places h s u s' : fd_clone h s = Ok (u, s') → tables s' = tables s ∧ cwds s' = cwds s.
Proof. intros ([d n] & s1 & [-> _]%fd_of_inv & [= _ <-])%M_bind_Ok. done. Qed.
Lemma clone_all_places t s u s' : for_each t slot_clone s = Ok (u, s') → tables s' = tables s ∧ cwds s' = cwds s.
Proof.
  revert s. induction t as [|o t IH]; intros s; [by intros [= _ <-]|]. cbn [for_each]. intros (u1 & s1 & H1 & H)%M_bind_Ok.
  destruct (IH _ H) as [-> ->]. destruct o; [by eapply fd_clone_places|by injection H1 as _ <-].
Qed.
(** A forked process has the descriptors and the directory of its parent. *)
Lemma fork_table_places p s q s' : fork_table p s = Ok (q, s') → ∃ t cwd, tables s !! p = Some t ∧ cwds s !! p = Some cwd ∧
  q = length (tables s) ∧ tables s' = tables s ++ [t] ∧ cwds s' = cwds s ++ [cwd].
Proof.
  intros (t & s1 & H1 & H)%M_bind_Ok. unfold table_of in H1. revert H1. run_refl. intros [Ht%unwrap_Ok ->]%lift_Ok.
  revert H. run_refl. intros (cwd & s1 & [Hc%unwrap_Ok ->]%lift_Ok & H)%M_bind_Ok. apply M_bind_Ok in H as (u & s1 & H1 & H).
  apply clone_all_places in H1 as [E1 E2]. revert H. run_refl. run_refl. intros [= <- <-]. exists t, cwd. cbn. by rewrite E1, E2.
Qed.
Lemma init_process_places a b s q s' : init_process a b s = Ok (q, s') →
  q = length (tables s) ∧ tables s' = tables s ++ [[Some a; Some b; Some b]] ∧ cwds s' = cwds s ++ [[SLASH]].
Proof.
  intros (u1 & s1 & [E1 F1]%fd_clone_places & H)%M_bind_Ok. apply M_bind_Ok in H as (u2 & s2 & [E2 F2]%fd_clone_places & H).
  apply M_bind_Ok in H as (u3 & s3 & [E3 F3]%fd_clone_places & H). revert H. run_refl. run_refl. intros [= <- <-]. cbn.
  by rewrite E3, E2, E1, F3, F2, F1.
Qed.
Lemma own_for_each {A} p (l : list A) (f : A → M V unit) : (∀ x, own p (f x)) → own p (for_each l f).
Proof. intros Hf. induction l as [|x l IH]; cbn [for_each]; [apply own_mret|]. by apply own_bind. Qed.
Lemma own_drop_table p : own p (drop_table (F := F) p).
Proof.
  unfold drop_table. apply own_bind; [apply own_table_of|]. intros t. apply own_bind; [apply own_set_table|]. intros _.
  apply own_for_each. intros o. apply own_slot_drop.
Qed.
End tables.

Section inert.
Context {C : Config} {Cok : ConfigOk C} {St : Type} `{!FrameOps St}.
Abbreviation Mach := (Machine St).
Abbreviation T := (Procs Mach).
Implicit Types (s : T).

(** ** Calls that neither create nor end threads *)

Definition same_procs s s' : Prop := same_threads (spaces s) (spaces s') ∧ pids s' = pids s.
Definition inert {R} (m : M T R) : Prop := ∀ s r s', m s = Ok (r, s') → same_procs s s'.

Lemma inert_bind {A R} (m : M T A) (f : A → M T R) : inert m → (∀ a, inert (f a)) → inert (m ≫= f).
Proof.
  intros Hm Hf s r s' (a & s1 & H1 & H)%M_bind_Ok. destruct (Hm _ _ _ H1) as [A1 B1], (Hf _ _ _ _ H) as [A2 B2].
  split; [by eapply same_threads_trans|congruence].
Qed.
Lemma inert_mret {R} (r : R) : inert (mret r).
Proof. by intros s r' s' [= _ <-]. Qed.
Lemma inert_get : inert get.
Proof. by intros s r' s' [= _ <-]. Qed.
Lemma inert_lift {R} (e : exec R) : inert (lift e).
Proof. by intros s r' s' [_ ->]%lift_Ok. Qed.
Lemma inert_panic {R} e : inert (panic e : M T R).
Proof. by intros s r' s' H. Qed.
Lemma inert_spaces {R} (m : M Mach R) : (∀ x r x', m x = Ok (r, x') → same_threads x x') → inert (on_spaces m).
Proof. intros Hm s r s' (x & H%Hm & ->)%on_spaces_Ok. by split. Qed.
Lemma inert_process h : inert (process_of h).
Proof. by intros s r s' [-> _]%process_of_same. Qed.
Lemma inert_upd h f : (∀ p, pid (f p) = pid p) → inert (upd h f).
Proof. intros Hf s r s' [H1 H2]%upd_pids; [|done]. split; [by rewrite H2|done]. Qed.
Lemma inert_current sp : inert (on_spaces (get_current_thread sp)).
Proof. apply inert_spaces. by intros x r x' ->%get_current_thread_same. Qed.
Lemma inert_thread_of h : inert (on_spaces (thread_of h)).
Proof. apply inert_spaces. by intros x r x' [-> _]%thread_of_inv. Qed.
Lemma inert_load a : inert (on_spaces (load_frame a)).
Proof. apply inert_spaces. by intros x r x' [-> _]%load_frame_inv. Qed.
Lemma inert_store a tf : inert (on_spaces (store_frame a tf)).
Proof. apply inert_spaces. intros x r x' [= _ <-]. apply (store_same a tf). Qed.
Lemma inert_on_space sp f : inert (on_spaces (on_space sp f)).
Proof.
  apply inert_spaces. intros x r x' H. assert (∃ cur, get_current_thread sp x = Ok (cur, x)) as [cur H1].
  { unfold on_space in H. apply M_bind_Ok in H as (cur & x1 & H1 & _). exists cur. by rewrite (get_current_thread_same _ _ _ _ H1) in H1. }
  destruct (on_space_inv sp cur f x r x' H1 H) as (space & v & Hu & ->). split; [done|]. split; [done|]. split; [|done]. by apply insert_is_Some.
Qed.
Lemma inert_set_tid sp p : inert (on_spaces (sys_set_tid_address sp p)).
Proof. apply inert_spaces. intros x r x'. apply set_tid_address_same. Qed.
Lemma inert_exit sp v : inert (task_exit (St := St) sp v).
Proof.
  apply inert_bind; [apply inert_current|]. intros cur s r s' (Hp & u & H)%sys_exit_pids. apply thread_dealloc_same in H. by split.
Qed.
Lemma inert_wait cur v : inert (sys_wait4 cur v).
Proof. intros s r s' [Hp Hs]%sys_wait4_pids. split; [by rewrite Hs|done]. Qed.

Lemma inert_charge sp f : inert (charge sp f).
Proof.
  intros s r s' H. unfold charge in H. apply M_bind_Ok in H as (cur & s1 & (m & ->%get_current_thread_same & ->)%on_spaces_Ok & H).
  apply M_bind_Ok in H as (th & s1 & (m & [-> Hth]%thread_of_inv & ->)%on_spaces_Ok & H).
  apply M_bind_Ok in H as (p & s1 & [-> _]%process_of_same & H). destruct (f _) as [[u a]|]; [|done].
  apply M_bind_Ok in H as (u1 & s1 & (m & [= _ <-] & ->)%on_spaces_Ok & H). apply upd_pids in H as [Hp Hs]; [|done]. split; [|exact Hp].
  rewrite Hs. cbn. split; [done|]. split; [|done]. split; [done|]. eapply (sound_update (spaces s)); [exact Hth| |reflexivity]. done.
Qed.
Lemma inert_enter sp now : inert (syscall_enter (St := St) sp now).
Proof.
  unfold syscall_enter. apply inert_bind; [apply inert_charge|]. intros _. apply inert_bind; [apply inert_lift|]. intros a.
  apply inert_bind; [apply inert_load|]. intros tf. apply inert_bind; [apply inert_lift|]. intros pc. apply inert_bind; [apply inert_store|].
  intros _. apply inert_lift.
Qed.
Lemma inert_return sp now r : inert (syscall_return (St := St) sp now r).
Proof.
  unfold syscall_return. apply inert_bind; [apply inert_lift|]. intros a. apply inert_bind; [apply inert_load|]. intros tf.
  apply inert_bind; [apply inert_store|]. intros _. apply inert_charge.
Qed.
Lemma inert_wait4 sp pid_ wstatus : inert (wait4_call (St := St) sp pid_ wstatus).
Proof.
  unfold wait4_call. apply inert_bind; [apply inert_current|]. intros cur. apply inert_bind; [apply inert_wait|]. intros [[cpid word]|]; [|apply inert_mret].
  apply inert_bind; [|intros; apply inert_mret]. case_match; [apply inert_mret|]. apply inert_bind; [apply inert_on_space|]. intros; apply inert_mret.
Qed.
Lemma inert_getpid sp : inert (sys_getpid (St := St) sp).
Proof. apply inert_bind; [apply inert_current|]. intros cur. apply inert_bind; [apply inert_process|]. intros p. apply inert_mret. Qed.
Lemma inert_getppid sp : inert (sys_getppid (St := St) sp).
Proof.
  apply inert_bind; [apply inert_current|]. intros cur. apply inert_bind; [apply inert_process|]. intros p.
  apply inert_bind; [apply inert_get|]. intros s0. case_match; [|apply inert_mret]. apply inert_mret.
Qed.
End inert.

(** ** The invariant *)

Section kernel.
Context {C : Config} {Cok : ConfigOk C} {St : Type} `{!FrameOps St} {F : Type} `{!InodeOps F, !InodeIo F, !InodeStat F, !DropTotal F}.
Context {G : Type} `{!Stream G}.
Context (kernel_root __restore ret_to_restore : Z) (program : Z → list Z → M F (list ProgramHeader * ElfHeader * G)).
Context (RELEASE VERSION : list Z) (fuel : nat).
Abbreviation Mach := (Machine St).
Abbreviation T := (Procs Mach).
Abbreviation K := (T * Rest F)%type.
Implicit Types (k : K).
Abbreviation calls time ss := (file_call kernel_root ret_to_restore program RELEASE VERSION fuel time ss).
Abbreviation call_of time ss := (do_call kernel_root __restore (calls time ss) files_forked).

(** Every live thread has a descriptor table and a directory of its own. *)
Record places_ok (y : Rest F) (live : list Z) : Prop := {
  po_live t : t ∈ live ↔ is_Some (index y !! t);
  po_place t p : index y !! t = Some p → (p < length (tables (vfs y)))%nat;
  po_own t t' p : index y !! t = Some p → index y !! t' = Some p → t = t';
  po_cwds : length (cwds (vfs y)) = length (tables (vfs y));
}.
Record kernel_ok k (live : list Z) : Prop := {
  ko_tasks : tasks_ok k.1 live;
  ko_refs : refs_ok statics console_refs [] [] (vfs k.2);
  ko_places : places_ok k.2 live;
}.

Lemma places_keep y y' live : index y' = index y → length (tables (vfs y')) = length (tables (vfs y)) →
  length (cwds (vfs y')) = length (cwds (vfs y)) → places_ok y live → places_ok y' live.
Proof. intros E1 E2 E3 [P1 P2 P3 P4]. split; rewrite ?E1, ?E2, ?E3; done. Qed.

(** A thread whose table is a new one at the end *)
Lemma places_add y y' live t : places_ok y live → t ∉ live → index y' = <[t := length (tables (vfs y))]> (index y) →
  length (tables (vfs y')) = S (length (tables (vfs y))) → length (cwds (vfs y')) = S (length (cwds (vfs y))) → places_ok y' (t :: live).
Proof.
  intros [P1 P2 P3 P4] Hn E1 E2 E3. split; rewrite ?E1, ?E2, ?E3.
  - intros t'. rewrite elem_of_cons, lookup_insert_is_Some', (P1 t'). naive_solver.
  - intros t' p [[-> <-]|[_ H%P2]]%lookup_insert_Some; lia.
  - intros t1 t2 p [[<- Hp]|[N1 H1]]%lookup_insert_Some [[<- Hp']|[N2 H2]]%lookup_insert_Some; [done|apply P2 in H2; lia|apply P2 in H1; lia|by eapply P3].
  - by rewrite P4.
Qed.
Lemma places_remove y y' l1 t l2 : places_ok y (l1 ++ t :: l2) → NoDup (l1 ++ t :: l2) → index y' = delete t (index y) →
  length (tables (vfs y')) = length (tables (vfs y)) → length (cwds (vfs y')) = length (cwds (vfs y)) → places_ok y' (l1 ++ l2).
Proof.
  intros [P1 P2 P3 P4] Hn E1 E2 E3. assert (t ∉ l1 ++ l2) as Ht by (rewrite <- (Permutation_middle l1 l2 t), NoDup_cons in Hn; tauto).
  split; rewrite ?E1, ?E2, ?E3; try done.
  - intros t'. rewrite lookup_delete_is_Some, <- (P1 t'). set_solver.
  - intros t' p [_ H]%lookup_delete_Some. by eapply P2.
  - intros t1 t2 p [_ H1]%lookup_delete_Some [_ H2]%lookup_delete_Some. by eapply P3.
Qed.

(** What a thread does to its own part keeps the invariant. *)
Lemma alone_ok p k k' live : kernel_ok k live → alone p k k' → refs_ok statics console_refs [] [] (vfs k'.2) → kernel_ok k' live.
Proof.
  intros [K1 K2 K3] H Hr. pose proof (al_files _ _ _ H) as (E1 & E2 & _). split; [|done|].
  - eapply keeps_ok; [exact K1|apply H|]. unfold pids. by rewrite (al_procs _ _ _ H).
  - eapply places_keep; [apply H|done|done|done].
Qed.
Lemma tasks_step {R} (m : M T R) k r k' live : inert m → kernel_ok k live → on_tasks m k = Ok (r, k') → kernel_ok k' live ∧ k'.2 = k.2.
Proof.
  intros Hm [K1 K2 K3] (s & [H1 H2]%Hm & ->)%on_tasks_inv. split; [|done]. split; cbn; [|done|done]. by eapply keeps_ok.
Qed.

(** The thread whose stack the kernel is on *)
Definition running (sp t : Z) : Prop := ∃ r, get_kernel_stack_range t = Ok r ∧ r_start r ≤ sp < r_end r.
Lemma running_stack sp t k live : kernel_ok k live → running sp t → t ∈ live →
  0 ≤ t ∧ get_current_thread sp (spaces k.1) = Ok (t, spaces k.1) ∧ ∃ p, on_stack sp t p k.
Proof.
  intros [K1 K2 [P1 _ _ _]] (r & Hr & Hsp) Hl. destruct (ok_ptrs _ _ K1 t Hl) as (r' & Hr' & Hp & Hth). rewrite Hr in Hr'. injection Hr' as <-.
  pose proof (live_nonneg _ _ _ K1 Hl) as H0. assert (get_current_thread sp (spaces k.1) = Ok (t, spaces k.1)) as Hc by by apply (current_thread t r).
  split; [done|]. split; [done|]. destruct (proj1 (P1 t) Hl) as [p Hi]. exists p. by split.
Qed.

Lemma clone_ok sp t flags stack child_tid k live r k' : kernel_ok k live → running sp t → t ∈ live →
  (cur ← on_tasks (on_spaces (get_current_thread sp));
   tid ← on_tasks (sys_clone kernel_root __restore sp flags stack child_tid);
   on_rest (files_forked cur tid) ;; mret (Some tid)) k = Ok (r, k') →
  ∃ tid p tb cwd, r = Some tid ∧ kernel_ok k' (tid :: live) ∧ (tid ∉ live) ∧ index k.2 !! t = Some p ∧
    tables (vfs k.2) !! p = Some tb ∧ cwds (vfs k.2) !! p = Some cwd ∧
    index k'.2 = <[tid := length (tables (vfs k.2))]> (index k.2) ∧
    tables (vfs k'.2) = tables (vfs k.2) ++ [tb] ∧ cwds (vfs k'.2) = cwds (vfs k.2) ++ [cwd].
Proof.
  intros Hk Hrun Hl H. destruct (running_stack _ _ _ _ Hk Hrun Hl) as (Ht & Hc & p & _ & Hi). destruct Hk as [K1 K2 K3].
  revert H. step_by ltac:(exact (on_machine_eq _ k t Hc)). intros (tid & k1 & (s1 & H1 & ->)%on_tasks_inv & H)%M_bind_Ok.
  pose proof (sys_clone_ok _ _ _ _ _ _ _ _ _ _ K1 H1) as K1'.
  apply M_bind_Ok in H as (u & k2 & (y & H2 & ->)%on_rest_inv & [= <- <-]). cbn in H2.
  unfold files_forked, table_index in H2. revert H2. rewrite M_bind_assoc. run_refl. rewrite Hi. run_refl. intros (q & y1 & H2 & H)%M_bind_Ok.
  unfold on_vfs in H2. destruct (fork_table p (vfs k.2)) as [[q' v]|] eqn:Hf; [|done]. injection H2 as <- <-. injection H as _ <-. cbn.
  pose proof (fork_table_places _ _ _ _ Hf) as (tb & cwd & E1 & E2 & -> & E3 & E4).
  assert (tid ∉ live) as Hn.
  { destruct (ok_tids _ _ K1') as (_ & Hn & _). apply NoDup_app in Hn as [Hn _]. by apply NoDup_cons in Hn as [Hn _]. }
  exists tid, p, tb, cwd. split_and!; try done. split; cbn; [done| |].
  - by eapply keeps_fork.
  - eapply (places_add k.2); [done|done|done|..]; cbn; rewrite ?E3, ?E4, length_app; cbn; lia.
Qed.

(** ** Steps *)

Lemma file_call_ok time ss sp t c k live r k' : kernel_ok k live → running sp t → t ∈ live →
  (∀ path, mounts fuel sp c k path → hashset (vfs k.2) !! path = None) → calls time ss sp c k = Ok (r, k') →
  kernel_ok k' live.
Proof.
  intros Hk Hrun Hl Hm H. destruct (running_stack _ _ _ _ Hk Hrun Hl) as (_ & _ & p & Hs).
  pose proof (conf_call _ _ _ _ _ _ _ _ _ _ p c _ _ _ Hs H) as Ha.
  eapply alone_ok; [done|done|]. pose proof (ko_refs _ _ Hk). by eapply call_refs.
Qed.

Lemma inert_call {R A} (m : M T R) (f : R → option A) k r k' live : inert m → kernel_ok k live →
  (x ← on_tasks m; mret (f x)) k = Ok (r, k') → ∃ live', kernel_ok k' live'.
Proof. intros Hm Hk (x & k1 & H1 & [= _ <-])%M_bind_Ok. exists live. exact (proj1 (tasks_step _ _ _ _ _ Hm Hk H1)). Qed.

Lemma do_call_ok time ss sp t c k live r k' : kernel_ok k live → running sp t → t ∈ live →
  (∀ path, mounts fuel sp c k path → hashset (vfs k.2) !! path = None) → call_of time ss sp c k = Ok (r, k') → ∃ live', kernel_ok k' live'.
Proof.
  intros Hk Hrun Hl Hm. destruct c; cbn [do_call];
    try (intros H; exists live; exact (file_call_ok _ _ _ _ _ _ _ _ _ Hk Hrun Hl Hm H)); try (intros [= _ <-]; by exists live); try done.
  - intros H. destruct (clone_ok _ _ _ _ _ _ _ _ _ Hk Hrun Hl H) as (tid & p & tb & cwd & _ & H' & _). by eexists.
  - intros H. exists live. exact (proj1 (tasks_step _ _ _ _ _ (inert_wait4 _ _ _) Hk H)).
  - intros H. apply (inert_call _ (λ _, None) _ _ _ live (inert_exit _ _) Hk H).
  - intros H. apply (inert_call _ Some _ _ _ live (inert_getppid _) Hk H).
  - intros H. apply (inert_call _ Some _ _ _ live (inert_getpid _) Hk H).
  - intros H. apply (inert_call _ Some _ _ _ live (inert_on_space _ _) Hk H).
  - intros H. apply (inert_call _ Some _ _ _ live (inert_on_space _ _) Hk H).
  - intros H. apply (inert_call _ Some _ _ _ live (inert_set_tid _ _) Hk H).
Qed.

Abbreviation kernel_call time ss := (syscall kernel_root __restore ret_to_restore program RELEASE VERSION fuel time ss).

(** The call a thread makes does not mount over an open path. *)
Definition mount_free (sp now : Z) k : Prop := ∀ c k1 path, on_tasks (syscall_enter sp now) k = Ok (c, k1) →
  mounts fuel sp c k1 path → hashset (vfs k.2) !! path = None.

Lemma syscall_ok time ss sp t now now' k live b k' : kernel_ok k live → running sp t → t ∈ live → mount_free sp now k →
  kernel_call time ss sp now now' k = Ok (b, k') → ∃ live', kernel_ok k' live'.
Proof.
  intros Hk Hrun Hl Hm (c & k1 & H1 & H)%M_bind_Ok. destruct (tasks_step _ _ _ _ _ (inert_enter _ _) Hk H1) as [Hk1 E1].
  apply M_bind_Ok in H as (o & k2 & H2 & H). assert (∃ live', kernel_ok k2 live') as [live' Hk2].
  { eapply do_call_ok; [done..| |done]. intros path Hp. rewrite E1. by eapply Hm. }
  exists live'. destruct o as [r|]; [|by injection H as _ <-]. apply M_bind_Ok in H as (u & k3 & H3 & [= _ <-]).
  exact (proj1 (tasks_step _ _ _ _ _ (inert_return _ _ _) Hk2 H3)).
Qed.

Lemma spawn_ok ss sp headers elf (file : G) args tf k live tid k' : kernel_ok k live →
  spawn kernel_root ret_to_restore ss sp headers elf file args tf k = Ok (tid, k') → kernel_ok k' (tid :: live).
Proof.
  intros [K1 K2 K3] (t & k1 & (s1 & H1 & ->)%on_tasks_inv & H)%M_bind_Ok. pose proof (new_thread_ok _ _ _ _ _ _ _ _ _ _ _ _ _ K1 H1) as K1'.
  apply M_bind_Ok in H as (u & k2 & (y & H2 & ->)%on_rest_inv & [= <- <-]). cbn in H2. apply M_bind_Ok in H2 as (q & y1 & H2 & [= _ <-]).
  unfold on_vfs in H2. destruct (init_process STDIN STDOUT (vfs k.2)) as [[q' v]|] eqn:Hf; [|done]. injection H2 as <- <-. cbn.
  pose proof (init_process_places _ _ _ _ _ Hf) as (-> & E1 & E2).
  assert (t ∉ live) as Hn.
  { destruct (ok_tids _ _ K1') as (_ & Hn & _). apply NoDup_app in Hn as [Hn _]. by apply NoDup_cons in Hn as [Hn _]. }
  split; cbn; [done|by eapply keeps_spawn|]. eapply (places_add k.2); [done|done|done|..]; cbn; rewrite ?E1, ?E2, length_app; cbn; lia.
Qed.

Lemma reap_ok t k live u k' : kernel_ok k live → reap t k = Ok (u, k') → ∃ l1 l2, live = l1 ++ t :: l2 ∧ kernel_ok k' (l1 ++ l2).
Proof.
  intros [K1 K2 K3] (u1 & k1 & (s1 & H1 & ->)%on_tasks_inv & H)%M_bind_Ok. apply M_bind_Ok in H as (p & k2 & (y & H2 & ->)%on_rest_inv & H).
  unfold table_index in H2. revert H2. run_refl. cbn. destruct (index k.2 !! t) as [p'|] eqn:Hi; [|done]. intros [= -> <-].
  apply M_bind_Ok in H as (u2 & k3 & (v & H3 & ->)%on_files_inv & (y & [= _ <-] & ->)%on_rest_inv). cbn in H3 |- *.
  assert (t ∈ live) as (l1 & l2 & ->)%list_elem_of_split by (apply (po_live _ _ K3); by eexists). exists l1, l2. split; [done|].
  destruct u1. split; cbn.
  - by eapply thread_drop_ok.
  - by eapply keeps_exit.
  - pose proof (own_drop_table p _ _ _ H3) as (E1 & E2 & _).
    eapply (places_remove k.2); [done| |done|done|done]. destruct (ok_tids _ _ K1) as (_ & Hn & _). by apply NoDup_app in Hn as [Hn _].
Qed.

Lemma start_ok schedule (s : T) (f : F) tid k' : booted s → start schedule (s, boot_files f) = Ok (tid, k') → kernel_ok k' [tid].
Proof.
  intros Hb (u & k1 & (v & H1 & ->)%on_files_inv & H)%M_bind_Ok. cbn in H1. apply M_bind_Ok in H as (t & k2 & (s1 & H2 & ->)%on_tasks_inv & H).
  cbn in H2. pose proof (boot_ok _ _ _ _ Hb H2) as K1.
  apply M_bind_Ok in H as (u2 & k3 & (y & H3 & ->)%on_rest_inv & [= <- <-]). cbn in H3. apply M_bind_Ok in H3 as (q & y1 & H3 & [= _ <-]).
  unfold on_vfs in H3. cbn in H3. destruct (init_process STDIN STDOUT v) as [[q' w]|] eqn:Hf; [|done]. injection H3 as <- <-. cbn.
  pose proof (init_process_places _ _ _ _ _ Hf) as (-> & E1 & E2).
  assert (refs_ok statics console_refs [] [] v) as R by (eapply register_keeps; [apply vfs_new_ok| |exact H1]; done).
  pose proof (own_register 0 _ _ _ _ H1) as (T1 & T2 & _). cbn in T1, T2.
  split; cbn; [done|by eapply keeps_spawn|].
  eapply (places_add {| vfs := v; index := ∅; sleepers := [] |}); [|set_solver|done|..]; cbn; rewrite ?E1, ?E2, ?length_app; cbn; try lia.
  split; cbn; try done; [|by rewrite T1, T2]. intros t'. split; [by intros ?%not_elem_of_nil|by intros [? ?]].
Qed.

(** ** Every order of steps *)

(** The states of the kernel.  User code leaves a new frame on its stack and any memory; the scheduler and the timer change what
    threads are ready. *)
Inductive kernel : K → Prop :=
  | kernel_boot schedule s f tid k' : booted s → start schedule (s, boot_files f) = Ok (tid, k') → kernel k'
  | kernel_spawn ss sp headers elf (file : G) args tf k tid k' :
      kernel k → spawn kernel_root ret_to_restore ss sp headers elf file args tf k = Ok (tid, k') → kernel k'
  | kernel_syscall time ss sp t now now' k b k' :
      kernel k → running sp t → is_Some (index k.2 !! t) → mount_free sp now k → kernel_call time ss sp now now' k = Ok (b, k') → kernel k'
  | kernel_fault sp addr k r k' : kernel k → on_machine (Syscall.handle_pagefault sp addr) k = Ok (r, k') → kernel k'
  | kernel_user a tf v k u k' : kernel k → on_machine (store_frame a tf ;; modify (λ m, w_mem m v)) k = Ok (u, k') → kernel k'
  | kernel_sched k ready queue ev : kernel k →
      kernel ({| st := ready; procs := procs k.1; pool := queue; spaces := spaces k.1 |}, {| vfs := vfs k.2; index := index k.2; sleepers := ev |})
  | kernel_reap t k u k' : kernel k → reap t k = Ok (u, k') → kernel k'.

Lemma kernel_inv k : kernel k → ∃ live, kernel_ok k live.
Proof.
  induction 1 as [? ? ? ? ? Hb H|? ? ? ? ? ? ? ? ? ? _ [live IH] H|? ? ? ? ? ? ? ? ? _ [live IH] Hr Hi Hm H|? ? ? ? ? _ [live IH] H
    |? ? ? ? ? ? _ [live IH] H|? ? ? ? _ [live IH]|? ? ? ? _ [live IH] H].
  - eexists. by eapply start_ok.
  - eexists. by eapply spawn_ok.
  - eapply syscall_ok; try done. by apply (po_live _ _ (ko_places _ _ IH)).
  - exists live. exact (proj1 (tasks_step _ _ _ _ _ (inert_on_space _ _) IH H)).
  - exists live. refine (proj1 (tasks_step _ _ _ _ _ _ IH H)). apply inert_spaces. intros x r x' [= _ <-]. apply (store_same a tf (w_mem x v)).
  - exists live. destruct IH as [K1 K2 K3]. split; cbn; [by apply (keeps_ok k.1)|done|by apply (places_keep k.2)].
  - destruct (reap_ok _ _ _ _ _ IH H) as (l1 & l2 & _ & H'). by eexists.
Qed.


(** C3: A process that [clone] makes starts with the descriptors and the directory of its parent, in a table that is new: no
    process had it before, and every table there was is as before. *)
Theorem clone_inherits_files k time ss sp t p flags stack ptid tls child_tid r k' : kernel k → running sp t → index k.2 !! t = Some p →
  call_of time ss sp (Syscall.Clone flags stack ptid tls child_tid) k = Ok (r, k') →
  ∃ tid q, r = Some tid ∧ index k.2 !! tid = None ∧ index k'.2 = <[tid := q]> (index k.2) ∧
    (∀ t', index k.2 !! t' ≠ Some q) ∧ tables (vfs k.2) !! q = None ∧ is_Some (tables (vfs k.2) !! p) ∧ tables (vfs k'.2) !! q = tables (vfs k.2) !! p ∧ cwds (vfs k'.2) !! q = cwds (vfs k.2) !! p ∧
    ∀ i, is_Some (tables (vfs k.2) !! i) → tables (vfs k'.2) !! i = tables (vfs k.2) !! i ∧ cwds (vfs k'.2) !! i = cwds (vfs k.2) !! i.
Proof.
  intros [live Hk]%kernel_inv Hrun Hi H. pose proof Hk as [K1 _ [P1 P2 _ P4]]. assert (t ∈ live) as Hl by (apply P1; by eexists).
  destruct (clone_ok _ _ _ _ _ _ _ _ _ Hk Hrun Hl H) as (tid & p' & tb & cwd & -> & _ & Hn & Hi' & Htb & Hcwd & E1 & E2 & E3).
  rewrite Hi in Hi'. injection Hi' as <-. exists tid, (length (tables (vfs k.2))). rewrite E2, E3, Htb, Hcwd. split_and!; try done.
  - rewrite <- not_elem_of_dom, elem_of_dom. by rewrite <- P1.
  - intros t' Ht'. apply P2 in Ht'. lia.
  - by apply lookup_ge_None.
  - by apply list_lookup_middle.
  - apply list_lookup_middle. by rewrite P4.
  - intros i Hlt%lookup_lt_is_Some. rewrite !lookup_app_l; [done|lia..].
Qed.
End kernel.

(** ** Reading into a shared page *)

Section shared.
Context {C : Config} {Cok : ConfigOk C} {Mok : MmioOk C} {St : Type} `{!FrameOps St, !FrameSource St}.
Context {F : Type} `{!InodeOps F, !InodeIo F} (kernel_root : Z).
Abbreviation K := (Procs (Machine St) * Rest F)%type.

Lemma not_writable w : Z.testbit w 2 = false → flags_contains w PTE_WRITABLE = false.
Proof.
  intros H. unfold flags_contains. apply Z.eqb_neq. intros E. apply (f_equal (λ x, Z.testbit x 2)) in E. rewrite Z.land_spec, H in E. done.
Qed.

Lemma user_store_protected (s : St) A pt va b w : st_rep s A → pt_wf (st_words s) A (pt_root pt) →
  view (st_words s) (pt_root pt) (indexes (floor va)) = Some w → Z.testbit w 2 = false → va < 2 ^ 38 →
  user_store pt va b s = Panic Deadlock.
Proof.
  intros Hrep Hwf Hw H2 Hva. pose proof (find_pte_some s A pt (floor va) w Hrep Hwf Hw) as Hf.
  destruct (indexes (floor va)) as [[i0 i1] i2]. destruct Hf as (q & _ & Hf & Hl & _).
  unfold user_store. rewrite user_va_in by done. run_refl. run Hf. run (on_mem_load _ _ _ Hl). by rewrite not_writable.
Qed.

(** C37: After [fork] neither of the two processes can [read] into a page of a writable area before it has written there itself: whatever the
    state of the kernel otherwise, a [read] that has a byte for such a page hangs.  The page is shared and would be copied by the fault handler,
    which waits for the lock of the process that [sys_read] holds. *)
Theorem read_after_fork_hangs Rs (s : St) A space r a v frame : space_ok Rs kernel_root s A space →
  (1 + 2 * length mmio_vpns + 2 * length (all_frames (areas space)) ≤ length (f_free A))%nat →
  (r, a) ∈ areas space → (v, frame) ∈ data_frames a → area_cow a = true → 0 ≤ map_perm a < 2 ^ 9 →
  ∃ child s', fork kernel_root space s = Ok (child, s') ∧
    ∀ self (k : K) sp t p fd buf count n b bs files, self = space ∨ self = child → mem (spaces k.1) = s' → user_spaces (spaces k.1) !! t = Some self →
      on_stack sp t p k → floor buf = v → VnodeIo.sys_read p fd count (vfs k.2) = Ok ((n, b :: bs), files) →
      read_call sp fd buf count k = Panic Deadlock.
Proof.
  intros Hok Hfree Hr Hv Hcow Hperm. destruct (fork_spec Rs kernel_root s A space Hok Hfree) as
    (s' & A' & child & Hs & W & _ & _ & _ & _ & Hpg & _). exists child, s'. split; [done|].
  intros self k sp t p fd buf count n b bs files Hself Hmem Hu Hst Hbuf Hread. destruct (Hpg r a v frame Hr Hv) as [HQ HP]. rewrite Hcow in HP.
  assert ((v, frame) ∈ all_frames (areas space)) as Hin by (apply elem_of_all_frames; by exists r, a).
  destruct (sp_page _ _ _ _ _ Hok v frame Hin) as (Hvb & _ & (c & Hc & ?) & _).
  assert (0 ≤ frame < 2 ^ PTE_PPN_BITS) as Hpb by (eapply held_ppn; [apply Hok|]; exists c; split; [done|lia]).
  assert (user_store (page_table self) buf b s' = Panic Deadlock) as Hp.
  { eapply (user_store_protected s' A' _ _ _ (pte_new frame (Z.lor (fork_flags a) PTE_VALID))); [apply W| | | |].
    - apply W. pose proof (sp_root _ _ _ _ _ Hok). destruct Hself as [->| ->]; set_solver.
    - rewrite Hbuf. by destruct Hself as [->| ->].
    - rewrite pte_new_testbit, lor_valid_bits by (done || lia). by apply fork_flags_bits.
    - rewrite floor_div in Hbuf. Z.div_mod_to_equations. lia. }
  unfold read_call. run (current_eq sp t p k Hst). step_by ltac:(unfold on_files, on_rest, on_vfs; by rewrite Hread).
  apply M_bind_Panic. unfold in_space, on_machine, on_tasks, on_spaces. cbn [fst spaces]. run (proj1 Hst).
  run (space_of_eq t (spaces k.1) self Hu). unfold on_ram. rewrite Hmem. cbn [user_store_all].
  by rewrite (M_bind_Panic _ _ _ _ Hp).
Qed.
End shared.
