(* ===== verification/KernelSample.v ===== *)
(** * Sessions with files

    The machine of [TaskSample] with a file system in memory: two processes make system calls on files through the
    handler, with paths and buffers in their own memory. *)

From stdpp Require Import gmap fin_maps strings.
From S2P Require Import Prelude Io FatIo FatName Address Memory PhysPage Pte BTree PageTable PageMap World AddressSpace Cow Spaces SpaceOps.
From S2P Require Import Sched Pipe Wait Clock Vfs Vnode VnodeInv VnodeOps VnodeProps VnodeIo VnodeOwn.
From S2P Require Import UserMem UserStack Boot MemSample StackSample Task Exec TaskProps TaskSample Syscall Kernel KernelProps KernelInv.

(** ** Files in memory *)

(** Contents by path, and the path of each inode; a directory is a path without contents. *)
Record ramfs := { r_files : gmap (list Z) memfile; r_open : gmap Z (list Z); r_next : Z }.
Definition r_inode (path : list Z) : M ramfs Z := λ m,
  Ok (r_next m, {| r_files := r_files m; r_open := <[r_next m := path]> (r_open m); r_next := r_next m + 1 |}).
Definition r_on {R} (i : Z) (f : M memfile R) : M ramfs R := λ m,
  match r_open m !! i ≫= λ p, pair p <$> r_files m !! p with
  | Some (p, x) => match f x with Ok (r, x) => Ok (r, {| r_files := <[p := x]> (r_files m); r_open := r_open m; r_next := r_next m |}) | Panic e => Panic e end
  | None => Panic UB
  end.
Definition r_get (path : list Z) : M ramfs (ioresult Z) :=
  m ← get; match r_files m !! path with Some _ => i ← r_inode path; ok i | None => err NotFound end.
Definition r_add (path : list Z) : M ramfs unit :=
  modify (λ m, {| r_files := <[path := {| mf_bytes := []; mf_pos := 0 |}]> (r_files m); r_open := r_open m; r_next := r_next m |}).

#[export] Instance ramfs_ops : InodeOps ramfs := {|
  dir_create_file _ p := m ← get; match r_files m !! p with Some _ => r_get p | None => r_add p ;; r_get p end;
  dir_open_file _ p := r_get p;
  dir_open_dir _ p := i ← r_inode p; ok i;
  dir_create_dir _ p := i ← r_inode p; ok i;
  dir_remove _ p := modify (λ m, {| r_files := delete p (r_files m); r_open := r_open m; r_next := r_next m |}) ;; ok tt;
  fs_root_dir _ := r_inode [];
  fs_release _ := mret tt;
  i_seek i w := r_on i (s_seek w);
  i_drop i := modify (λ m, {| r_files := r_files m; r_open := delete i (r_open m); r_next := r_next m |});
  new_pipe := r ← r_inode []; w ← r_inode []; mret (r, w) |}.
#[export] Instance ramfs_io : InodeIo ramfs := {| i_read i n := r_on i (s_read n); i_write i buf := r_on i (s_write buf) |}.
#[export] Instance ramfs_stat : InodeStat ramfs := {| i_fstat i := mret (le_bytes 4 i); i_dents64 i := mret (le_bytes 4 i) |}.
#[export] Instance ramfs_drop : DropTotal ramfs.
Proof. split; intros i m; by eexists. Qed.
Definition ram0 : ramfs := {| r_files := ∅; r_open := ∅; r_next := 1 |}.

Section examples.
#[local] Existing Instance qemu_config.
Abbreviation K := (Procs (Machine kmem) * Rest ramfs)%type.

Definition no_program (dir : Z) (path : list Z) : M ramfs (list ProgramHeader * ElfHeader * memfile) := panic UnwrapNone.
Definition power_on_files : K := (power_on, boot_files ram0).

(** A program whose data are the path "/a" and the text "hello" *)
Definition text : memfile := {| mf_bytes := str "/a" ++ [0; 0; 0; 0; 0; 0] ++ str "hello" ++ replicate 499 0; mf_pos := 0 |}.
Definition PATH : Z := 0x1000.
Definition TEXT : Z := 0x1008.
Definition BUF : Z := 0x1020.
Abbreviation handler := (syscall root 0x200 0x300 no_program (str "0.1.0") (str "0") 100 77 0).

Definition result (t : Z) : M K Z :=
  a ← lift (get_trapframe t); tf ← on_machine (load_frame a); mret (x tf !!! 10%nat).
Definition word (t va : Z) : M K Z := on_machine (space ← space_of t; on_ram (user_load (page_table space) va)).

(** ** Sessions *)

Definition store_args (t n : Z) (args : list Z) : M K unit :=
  a ← lift (get_trapframe t);
  tf ← on_machine (load_frame a);
  k ← get;
  on_machine (store_frame a {| x := <[17%nat := n]> (list_inserts 10 args (x tf)); sstatus := sstatus tf; sepc := sepc tf |} ;;
    modify (λ m, w_mem m (mem (spaces k.1)))).
(** A list of calls: thread, number and arguments *)
Definition Step : Type := Z * Z * list Z.
Definition ecall (c : Step) : M K bool := let '(t, n, args) := c in store_args t n args ;; handler (sp_of t) 1000 1000.
Fixpoint session (l : list Step) : M K unit := match l with [] => mret tt | c :: l => ecall c ;; session l end.

(** What the steps of a session are to meet: the thread is there and on its stack, and nothing is mounted *)
Definition on_its_stack (t : Z) : bool :=
  match get_kernel_stack_range t with Ok r => (r_start r <=? sp_of t) && (sp_of t <? r_end r) | Panic _ => false end.
Definition no_mount (t : Z) (k : K) : bool :=
  match on_tasks (syscall_enter (sp_of t) 1000) k with Ok (Syscall.Mount _ _ _ _ _, _) => false | _ => true end.
Fixpoint session_ok (l : list Step) (k : K) : bool :=
  match l with
  | [] => true
  | (t, n, args) :: l =>
      match store_args t n args k with
      | Ok (_, k1) => on_its_stack t && found (index k1.2 !! t) && no_mount t k1 &&
          match handler (sp_of t) 1000 1000 k1 with Ok (_, k2) => session_ok l k2 | Panic _ => false end
      | Panic _ => false
      end
  end.
Definition kafter {R} (e : exec (R * K)) : K := match e with Ok (_, k) => k | Panic _ => power_on_files end.

Abbreviation reached := (kernel root 0x200 0x300 no_program (str "0.1.0") (str "0") 100).

Lemma store_args_reached t n args k u k' : reached k → store_args t n args k = Ok (u, k') → reached k'.
Proof.
  intros Hk (a & k1 & [_ ->]%lift_Ok & H)%M_bind_Ok. apply M_bind_Ok in H as (tf & k1 & H1 & H).
  apply on_machine_inv in H1 as (y & [-> _]%load_frame_inv & ->). revert H. run_refl. intros H.
  eapply kernel_user; [|exact H]. destruct k as [[] ?]. exact Hk.
Qed.
Lemma session_reached l k : reached k → session_ok l k = true → session l k = Ok (tt, kafter (session l k)) ∧ reached (kafter (session l k)).
Proof.
  revert k. induction l as [|[[t n] args] l IH]; intros k Hk; cbn [session session_ok]; [by intros _|].
  unfold ecall. destruct (store_args t n args k) as [[u k1]|] eqn:H1; [|done]. intros [[[Ha Hf]%andb_true_iff Hn]%andb_true_iff H]%andb_true_iff.
  destruct (handler (sp_of t) 1000 1000 k1) as [[b k2]|] eqn:H2; [|done].
  assert (∀ {R} (f : M K R), ((store_args t n args ;; handler (sp_of t) 1000 1000) ;; f) k = f k2) as E.
  { intros R f. rewrite M_bind_assoc. run H1. by run H2. }
  rewrite E. apply IH; [|done]. eapply kernel_syscall; [by eapply store_args_reached| |by apply found_Some| |exact H2].
  - unfold on_its_stack in Ha. destruct (get_kernel_stack_range t) as [r|] eqn:Hr; [|done]. exists r. split; [done|]. lia.
  - intros c k3 path H3 Hm. unfold no_mount in Hn. rewrite H3 in Hn. destruct c; try destruct Hm. done.
Qed.

(** Process 1 creates the file, writes "hello" to it, and opens it again; 3 and 4 are its descriptors. *)
Definition started : K := kafter (start 0x100 power_on_files).
Definition booted_files : K := kafter (spawn root 0x300 0 (sp_of 0) [demo_header] demo_elf text [str "a"] zero_frame started).
Definition open_calls : list Step :=
  [(1, 56, [AT_FDCWD; PATH; Z.lor CREAT RDWR; 0]); (1, 64, [3; TEXT; 5]); (1, 56, [AT_FDCWD; PATH; RDONLY; 0])].
Definition opened : K := kafter (session open_calls booted_files).
Example opened_tables : tables (vfs opened.2) = [[Some 1; Some 2; Some 2]; [Some 1; Some 2; Some 2; Some 5; Some 6]].
Proof. vm_compute. reflexivity. Qed.

(** Then it clones itself, and the child closes a descriptor and changes its directory. *)
Definition clone_call : Step := (1, 220, [0; 0; 0; 0; 0]).
Definition forked_files : K := kafter (session [clone_call; (2, 57, [3]); (2, 49, [PATH])] opened).
Example forked_tables : tables (vfs forked_files.2) =
    [[Some 1; Some 2; Some 2]; [Some 1; Some 2; Some 2; Some 5; Some 6]; [Some 1; Some 2; Some 2; None; Some 6]] ∧
  cwds (vfs forked_files.2) = [str "/"; str "/"; str "/a"].
Proof. vm_compute. split; reflexivity. Qed.

Definition returned {R} (e : exec (R * K)) : bool := match e with Ok _ => true | Panic _ => false end.
Lemma returned_Ok {R} (e : exec (R * K)) : returned e = true → ∃ r, e = Ok (r, kafter e).
Proof. destruct e as [[r k]|]; [by exists r|done]. Qed.
Lemma started_reached : reached started.
Proof.
  unfold started. destruct (returned_Ok (start 0x100 power_on_files)) as [tid H]; [vm_compute; reflexivity|].
  exact (kernel_boot _ _ _ _ _ _ _ _ _ _ _ _ power_on_booted H).
Qed.
Lemma booted_reached : reached booted_files.
Proof.
  unfold booted_files. match goal with |- reached (kafter ?e) => destruct (returned_Ok e) as [tid H] end; [vm_compute; reflexivity|].
  exact (kernel_spawn _ _ _ _ _ _ _ _ _ _ _ _ _ _ _ _ _ started_reached H).
Qed.
Lemma opened_reached : reached opened.
Proof. apply session_reached; [exact booted_reached|]. vm_compute. reflexivity. Qed.
Lemma forked_reached : reached forked_files.
Proof. apply session_reached; [exact opened_reached|]. vm_compute. reflexivity. Qed.

(** ** Reading into a shared page *)

Definition read_hello : M K (Z * Z) := ecall (1, 63, [4; BUF; 5]) ;; n ← result 1; w ← word 1 BUF; mret (n, w).

(** Before a [clone] it returns the five bytes it put there; after one, in a reachable state, it hangs. *)
Example read_sessions :
  match read_hello opened with Ok (r, _) => Some r | Panic _ => None end = Some (5, le_value (str "hello" ++ [0; 0; 0])) ∧
  read_hello forked_files = Panic Deadlock.
Proof. split; vm_compute; reflexivity. Qed.

(** ** Witnesses *)

Lemma running_of t : on_its_stack t = true → running (sp_of t) t.
Proof.
  unfold on_its_stack. destruct (get_kernel_stack_range t) as [r|] eqn:Hr; [|done]. intros Ha. exists r. split; [done|]. lia.
Qed.


Abbreviation sample_call := (file_call root 0x300 no_program (str "0.1.0") (str "0") 100 77 0).
Lemma clone_inherits_files_witness : ∃ r k', do_call root 0x200 sample_call files_forked (sp_of 1) (Syscall.Clone 0 0 0 0 0) opened = Ok (r, k') ∧
  ∃ tid q, r = Some tid ∧ index k'.2 = <[tid := q]> (index opened.2) ∧ tables (vfs opened.2) !! q = None ∧ tables (vfs k'.2) !! q = tables (vfs opened.2) !! 1%nat.
Proof.
  destruct (returned_Ok (do_call root 0x200 sample_call files_forked (sp_of 1) (Syscall.Clone 0 0 0 0 0) opened)) as [r H]; [vm_compute; reflexivity|].
  exists r. eexists. split; [exact H|].
  destruct (λ H1 H2, clone_inherits_files root 0x200 0x300 no_program (str "0.1.0") (str "0") 100 opened 77 0 (sp_of 1) 1 1%nat 0 0 0 0 0 r _
    opened_reached H1 H2 H) as (tid & q & E1 & _ & E2 & _ & E4 & _ & E3 & _).
  - apply running_of. vm_compute. reflexivity.
  - vm_compute. reflexivity.
  - exists tid, q. split; [exact E1|]. split; [exact E2|]. split; [exact E4|exact E3].
Defined.

(** The process of [opened] with the address space of [Boot]: one page at 0x5000 *)
Definition with_page (self : AddressSpace) (m : kmem) (k : K) : K :=
  ({| st := st k.1; procs := procs k.1; pool := pool k.1;
      spaces := w_user_spaces (w_mem (spaces k.1) m) (<[1 := self]> (user_spaces (spaces k.1))) |}, k.2).
Lemma with_page_stack self m k sp p : on_stack sp 1 p k → is_Some (user_spaces (spaces k.1) !! 1) → on_stack sp 1 p (with_page self m k).
Proof.
  intros [Hc Hi] Hu. split; [|exact Hi]. eapply current_same; [|exact Hc]. split; [done|]. split; [done|]. split; [|done]. by apply insert_is_Some.
Qed.
Lemma opened_stack : on_stack (sp_of 1) 1 1%nat opened ∧ is_Some (user_spaces (spaces opened.1) !! 1).
Proof.
  destruct (kernel_inv _ _ _ _ _ _ _ _ opened_reached) as [live Hk]. assert (running (sp_of 1) 1) as Hr by (apply running_of; vm_compute; reflexivity).
  assert (1 ∈ live) as Hl by (apply (po_live _ _ (ko_places _ _ Hk)); apply found_Some; vm_compute; reflexivity).
  destruct (running_stack _ _ _ _ Hk Hr Hl) as (_ & Hc & _). split; [split; [exact Hc|]|apply found_Some]; vm_compute; reflexivity.
Qed.
Definition opened_read := VnodeIo.sys_read 1 4 5 (vfs opened.2).
Lemma opened_read_Ok : ∃ files, opened_read = Ok ((5, str "hello"), files).
Proof.
  assert (match opened_read with Ok (r, _) => bool_decide (r = (5, str "hello")) | Panic _ => false end = true) as H by (vm_compute; reflexivity).
  destruct opened_read as [[r files]|]; [|done]. apply bool_decide_eq_true in H as ->. by exists files.
Qed.

Lemma read_after_fork_hangs_witness : ∃ child m, fork (pt_root demo_pt) demo_run.1 demo_run.2 = Ok (child, m) ∧
  read_call (sp_of 1) 4 0x5000 5 (with_page demo_run.1 m opened) = Panic Deadlock ∧
  read_call (sp_of 1) 4 0x5000 5 (with_page child m opened) = Panic Deadlock.
Proof.
  destruct demo_space as (Rs & A & p & Hok & Har & Hf).
  destruct (read_after_fork_hangs (F := ramfs) (pt_root demo_pt) Rs demo_run.2 A demo_run.1 demo_range
    {| data_frames := [(5, p)]; map_type := Framed; map_perm := demo_perm |} 5 p Hok) as (child & m & Hm & H).
  - rewrite Har. cbn [all_frames flat_map data_frames snd app length]. change (length mmio_vpns) with 1%nat. lia.
  - rewrite Har. by left.
  - by left.
  - reflexivity.
  - split; by vm_compute.
  - exists child, m. split; [exact Hm|].
    destruct opened_read_Ok as [files Hread].
    destruct opened_stack as [Hst Hu]. split.
    + refine (H demo_run.1 (with_page demo_run.1 m opened) (sp_of 1) 1 1%nat 4 0x5000 5 5 104 (str "ello") files (or_introl eq_refl) eq_refl (lookup_insert_eq _ _ _) _ eq_refl Hread).
      exact (with_page_stack _ _ _ _ _ Hst Hu).
    + refine (H child (with_page child m opened) (sp_of 1) 1 1%nat 4 0x5000 5 5 104 (str "ello") files (or_intror eq_refl) eq_refl (lookup_insert_eq _ _ _) _ eq_refl Hread).
      exact (with_page_stack _ _ _ _ _ Hst Hu).
Defined.
End examples.
