(* ===== verification/HeapPages.v ===== *)
(** * Pages of the kernel heap

    The page layer of the slab allocator
    (kernel/src/mm/heap/slab_allocator/page.rs): runs of free pages in a list
    ordered by address.  The head of a run holds the address of the next run and
    its own length, as words of the memory of [Memory]. *)

From S2P Require Import Prelude Address Memory.

(** [FREE_PAGE_LIST] and the heap *)
Record Heap := { free_page_list : Z; heap : words }.
Definition on_heap {A} (m : M words A) : M Heap A := λ h,
  match m (heap h) with Ok (a, w) => Ok (a, {| free_page_list := free_page_list h; heap := w |}) | Panic f => Panic f end.

Definition HEAP_PAGE : Z := 4096.

(** The fields [next] and [npages] of the [PageHead] at [a] *)
Definition run_next (a : Z) : M Heap Z := on_heap (load a).
Definition set_run_next (a v : Z) : M Heap unit := on_heap (store a v).
Definition get_npages (a : Z) : M Heap Z := on_heap (load (a + 8)).
Definition set_npages (a v : Z) : M Heap unit := on_heap (store (a + 8) v).
(** [as_ptr().add(n)] *)
Definition page_add (a n : Z) : Z := (a + HEAP_PAGE * n) `mod` 2 ^ 64.

(** [*prev = v], where [prev] refers to [FREE_PAGE_LIST] or to the field [next] of a run *)
Definition set_prev (prev : option Z) (v : Z) : M Heap unit :=
  match prev with
  | None => modify (λ h, {| free_page_list := v; heap := heap h |})
  | Some a => set_run_next a v
  end.

Definition page_init (addr npages : Z) : M Heap unit :=
  set_npages addr npages ;; set_run_next addr 0 ;; set_prev None addr.

(** The fuel of the loops is a bound on the number of runs: one word of each. *)
Fixpoint page_alloc_loop (fuel : nat) (npages : Z) (prev : option Z) (iter : Z) : M Heap Z :=
  if iter =? 0 then mret 0
  else match fuel with
    | O => panic OutOfFuel
    | S fuel =>
        k ← get_npages iter;
        if npages <? k then
          let n := page_add iter npages in
          next ← run_next iter;
          set_run_next n next ;;
          rest ← lift (usub k npages);
          set_npages n rest ;;
          set_prev prev n ;;
          mret iter
        else if k =? npages then
          next ← run_next iter;
          set_prev prev next ;;
          mret iter
        else
          next ← run_next iter;
          page_alloc_loop fuel npages (Some iter) next
    end.
Definition page_alloc (npages : Z) : M Heap Z :=
  if npages =? 0 then mret 0
  else h ← get; page_alloc_loop (S (size (heap h))) npages None (free_page_list h).

Fixpoint page_free_loop (fuel : nat) (cur npages : Z) (prev : option Z) (iter : Z) : M Heap unit :=
  if iter =? 0 then mret tt
  else match fuel with
    | O => panic OutOfFuel
    | S fuel =>
        k ← get_npages iter;
        if page_add iter k =? cur then
          k ← lift (uadd k npages);
          set_npages iter k ;;
          next ← run_next iter;
          if page_add iter k =? next then
            k2 ← get_npages next;
            k ← lift (uadd k k2);
            set_npages iter k ;;
            next2 ← run_next next;
            set_run_next iter next2
          else mret tt
        else
          ck ← get_npages cur;
          if page_add cur ck =? iter then
            k ← lift (uadd k npages);
            set_npages cur k ;;
            next ← run_next iter;
            set_run_next cur next ;;
            set_prev prev cur
          else if page_add cur ck <? iter then
            set_npages cur npages ;;
            set_run_next cur iter ;;
            set_prev prev cur
          else
            next ← run_next iter;
            page_free_loop fuel cur npages (Some iter) next
    end.
Definition page_free (addr npages : Z) : M Heap unit :=
  h ← get; page_free_loop (S (size (heap h))) addr npages None (free_page_list h).

(** ** The list of runs *)

Abbreviation run := (Z * Z)%type.
Abbreviation run_end r := (r.1 + HEAP_PAGE * r.2).

(** The links from [p] through the runs [l] to [q] *)
Fixpoint seg (m : words) (p : Z) (l : list run) (q : Z) : Prop :=
  match l with
  | [] => p = q
  | (a, k) :: l => p = a ∧ m !! (a + 8) = Some k ∧ ∃ next, m !! a = Some next ∧ seg m next l q
  end.

(** A run is page aligned, not empty, and its pages are memory. *)
Definition run_ok (m : words) (r : run) : Prop :=
  0 < r.1 ∧ r.1 `mod` HEAP_PAGE = 0 ∧ 0 < r.2 ∧ run_end r < 2 ^ 64 ∧
  ∀ i, 0 ≤ i < r.2 → is_Some (m !! (r.1 + HEAP_PAGE * i)) ∧ is_Some (m !! (r.1 + HEAP_PAGE * i + 8)).

(** Runs in the order of their addresses, each behind the end of the one before *)
Fixpoint ordered (low : Z) (l : list run) : Prop :=
  match l with
  | [] => True
  | r :: l => low ≤ r.1 ∧ ordered (run_end r) l
  end.

Definition pages_rep (h : Heap) (l : list run) : Prop :=
  seg (heap h) (free_page_list h) l 0 ∧ Forall (run_ok (heap h)) l ∧ ordered 0 l.

(** First fit *)
Fixpoint first_fit (n : Z) (l : list run) : option (Z * list run) :=
  match l with
  | [] => None
  | (a, k) :: l =>
      if n <? k then Some (a, (a + HEAP_PAGE * n, k - n) :: l)
      else if k =? n then Some (a, l)
      else '(b, l') ← first_fit n l; Some (b, (a, k) :: l')
  end.

Lemma page_add_eq a n : 0 ≤ a → 0 ≤ n → a + HEAP_PAGE * n < 2 ^ 64 → page_add a n = a + HEAP_PAGE * n.
Proof. intros. unfold page_add, HEAP_PAGE in *. apply Z.mod_small. lia. Qed.

Lemma ordered_low l : ∀ low low', low' ≤ low → ordered low l → ordered low' l.
Proof. destruct l as [|r l]; [done|]. cbn. intros low low' H [H1 H2]. split; [lia|done]. Qed.

Lemma ordered_forall l : ∀ low, Forall (λ r, 0 < r.2) l → ordered low l → Forall (λ r, low ≤ r.1) l.
Proof.
  induction l as [|r l IH]; intros low Hp Ho; [constructor|]. apply Forall_cons in Hp as [Hr Hp]. destruct Ho as [H1 H2].
  constructor; [done|]. apply IH; [done|]. apply (ordered_low l (run_end r)); [|done]. unfold HEAP_PAGE. lia.
Qed.

Lemma run_ok_pos m l : Forall (run_ok m) l → Forall (λ r, 0 < r.2) l.
Proof. intros H. eapply Forall_impl; [exact H|]. by intros r (_ & _ & ? & _). Qed.

(** A run lies before those behind it. *)
Lemma ordered_before low l1 r l2 x : Forall (λ r, 0 < r.2) (l1 ++ r :: l2) → ordered low (l1 ++ r :: l2) → x ∈ l1 →
  run_end x ≤ r.1.
Proof.
  revert low. induction l1 as [|y l1 IH]; intros low Hp Ho Hx; [by apply not_elem_of_nil in Hx|].
  cbn in Hp, Ho. apply Forall_cons in Hp as [Hy Hp]. destruct Ho as [H1 H2]. apply elem_of_cons in Hx as [->|Hx]; [|by eapply IH].
  apply ordered_forall in H2; [|done]. rewrite Forall_app, Forall_cons in H2. tauto.
Qed.

Lemma ordered_app low l1 l2 : ordered low (l1 ++ l2) → ordered low l1.
Proof. revert low. induction l1 as [|r l1 IH]; intros low; cbn; [done|]. intros [H1 H2]. split; [done|]. by apply IH. Qed.

Lemma seg_app m p l1 l2 q : seg m p (l1 ++ l2) q ↔ ∃ x, seg m p l1 x ∧ seg m x l2 q.
Proof.
  revert p. induction l1 as [|[a k] l1 IH]; intros p; cbn.
  - split; [intros H; by exists p|by intros (x & -> & H)].
  - split.
    + intros (-> & Hk & nx & Hn & Hs). apply IH in Hs as (x & H1 & H2). exists x. split; [|done]. split_and!; eauto.
    + intros (x & (-> & Hk & nx & Hn & Hs) & H2). split_and!; try done. exists nx. split; [done|]. apply IH. eauto.
Qed.

(** Words of other addresses do not matter to a segment. *)
Lemma seg_frame m m' p l q :
  (∀ r, r ∈ l → m' !! r.1 = m !! r.1 ∧ m' !! (r.1 + 8) = m !! (r.1 + 8)) → seg m p l q → seg m' p l q.
Proof.
  revert p. induction l as [|[a k] l IH]; intros p Hf; cbn; [done|]. intros (-> & Hk & nx & Hn & Hs).
  destruct (Hf (a, k)) as [H1 H2]; [by left|]. cbn in *. split; [done|]. rewrite H2. split; [done|].
  exists nx. rewrite H1. split; [done|]. apply IH; [|done]. intros r Hr. apply Hf. by right.
Qed.

Lemma run_ok_frame m m' r : (∀ a, is_Some (m !! a) → is_Some (m' !! a)) → run_ok m r → run_ok m' r.
Proof. intros Hm (H1 & H2 & H3 & H4 & H5). split_and!; try done. intros i Hi. destruct (H5 i Hi). auto. Qed.

(** The place that links to a suffix of the list: [prev] is the last run before it *)
Definition linked (h : Heap) (prev : option Z) (l1 : list run) (q : Z) : Prop :=
  seg (heap h) (free_page_list h) l1 q ∧ prev = fst <$> last l1.

(** Redirecting that place touches one word, of the last run before it. *)
Lemma set_prev_spec h prev l1 q v :
  linked h prev l1 q → Forall (run_ok (heap h)) l1 → ordered 0 l1 →
  ∃ h', set_prev prev v h = Ok (tt, h') ∧ linked h' prev l1 v ∧
    (∀ a, is_Some (heap h !! a) → is_Some (heap h' !! a)) ∧
    ∀ a, (∀ r, r ∈ l1 → a ≠ r.1) → heap h' !! a = heap h !! a.
Proof.
  intros [Hs ->] Hok Hord. destruct l1 as [|[a k] l1 _] using rev_ind.
  { cbn. eexists. split; [done|]. cbn in *. split_and!; done. }
  rewrite last_snoc. cbn [fmap option_fmap option_map fst set_prev]. apply seg_app in Hs as (x & H1 & -> & Hk & nx & Hn & Hx).
  unfold set_run_next, on_heap. rewrite store_eq by eauto. eexists. split; [done|]. cbn [heap free_page_list].
  assert (∀ r, r ∈ l1 → r.1 ≠ a ∧ r.1 + 8 ≠ a) as Hne.
  { intros r Hr. pose proof (ordered_before 0 l1 (a, k) [] r (run_ok_pos _ _ Hok) Hord Hr) as Hb.
    apply run_ok_pos in Hok. rewrite Forall_app in Hok. destruct Hok as [Hok _]. rewrite Forall_forall in Hok.
    specialize (Hok r Hr). cbn in *. unfold HEAP_PAGE in *. lia. }
  split_and!.
  - split; [|by rewrite last_snoc]. cbn. apply seg_app. exists a. split.
    + eapply seg_frame; [|exact H1]. intros r Hr. destruct (Hne r Hr). by rewrite !lookup_insert_ne by done.
    + cbn. split_and!; [done|rewrite lookup_insert_ne by lia; done|]. exists v. by rewrite lookup_insert_eq.
  - intros b Hb. rewrite lookup_insert. by case_decide.
  - intros b Hb. rewrite lookup_insert_ne; [done|]. intros ->. apply (Hb (b, k)); [set_solver|done].
Qed.

Lemma ordered_apart low l1 l2 x y : Forall (λ r, 0 < r.2) (l1 ++ l2) → ordered low (l1 ++ l2) → x ∈ l1 → y ∈ l2 →
  run_end x ≤ y.1.
Proof.
  intros Hp Ho Hx Hy. apply list_elem_of_split in Hy as (l3 & l4 & ->). rewrite app_assoc in Hp, Ho.
  apply (ordered_before low (l1 ++ l3) y l4 x Hp Ho). set_solver.
Qed.

(** Exchanging what follows [l1] *)
Lemma ordered_exchange low l1 r l2 l2' : (∀ lo, lo ≤ r.1 → ordered lo (r :: l2) → ordered lo l2') →
  ordered low (l1 ++ r :: l2) → ordered low (l1 ++ l2').
Proof.
  intros H. revert low. induction l1 as [|x l1 IH]; intros low; cbn [app ordered]; [intros Ho; apply H; [apply Ho|done]|].
  intros [H1 H2]. split; [done|]. by apply IH.
Qed.

(** Linking the runs [l2], which start at [v], behind [l1] *)
Lemma relink h prev l1 q v l2 :
  linked h prev l1 q → Forall (run_ok (heap h)) (l1 ++ l2) → ordered 0 (l1 ++ l2) → seg (heap h) v l2 0 →
  ∃ h', set_prev prev v h = Ok (tt, h') ∧ pages_rep h' (l1 ++ l2).
Proof.
  intros Hl Hok Hord Hs. pose proof Hok as [Hok1 Hok2]%Forall_app.
  destruct (set_prev_spec h prev l1 q v Hl Hok1 (ordered_app _ _ _ Hord)) as (h' & H & [Hl' _] & Hsome & Hsame).
  exists h'. split; [done|]. split; [|split; [|done]].
  - apply seg_app. exists v. split; [done|]. eapply seg_frame; [|exact Hs]. intros r Hr.
    assert (∀ x, x ∈ l1 → r.1 ≠ x.1 ∧ r.1 + 8 ≠ x.1) as Hne.
    { intros x Hx. pose proof (ordered_apart 0 l1 l2 x r (run_ok_pos _ _ Hok) Hord Hx Hr).
      rewrite Forall_forall in Hok1. destruct (Hok1 x Hx) as (_ & _ & ? & _). unfold HEAP_PAGE in *. lia. }
    split; apply Hsame; intros x Hx; by apply Hne.
  - eapply Forall_impl; [exact Hok|]. intros r. by apply run_ok_frame.
Qed.

(** [page_alloc] from the run [l2] on *)
Lemma page_alloc_loop_spec n l2 : ∀ fuel h prev l1 q, 0 < n →
  linked h prev l1 q → seg (heap h) q l2 0 → Forall (run_ok (heap h)) (l1 ++ l2) → ordered 0 (l1 ++ l2) →
  (length l2 ≤ fuel)%nat →
  match first_fit n l2 with
  | Some (a, l2') => ∃ h', page_alloc_loop fuel n prev q h = Ok (a, h') ∧ pages_rep h' (l1 ++ l2')
  | None => page_alloc_loop fuel n prev q h = Ok (0, h)
  end.
Proof.
  induction l2 as [|[a k] l2 IH]; intros fuel h prev l1 q Hn Hl Hs Hok Hord Hf.
  { cbn in *. subst. by destruct fuel. }
  destruct fuel as [|fuel]; [cbn in Hf; lia|]. destruct Hs as (-> & Hk & nx & Hnx & Hs).
  pose proof Hok as [Hok1 [(Ha & Hal & Hk0 & Hend & Hmap) Hok2]%Forall_cons]%Forall_app. cbn [fst snd] in *.
  assert (get_npages a h = Ok (k, h)) as Hgk by (unfold get_npages, on_heap; rewrite (load_eq _ k) by done; by destruct h).
  assert (run_next a h = Ok (nx, h)) as Hgn by (unfold run_next, on_heap; rewrite (load_eq _ nx) by done; by destruct h).
  cbn [page_alloc_loop first_fit]. replace (a =? 0) with false by lia. run Hgk.
  destruct (Z.ltb_spec n k) as [Hlt|Hge].
  - set (b := a + HEAP_PAGE * n). assert (page_add a n = b) as -> by (apply page_add_eq; unfold HEAP_PAGE in *; lia).
    destruct (Hmap n) as [Hb1 Hb2]; [lia|]. fold b in Hb1, Hb2. run Hgn.
    set (m1 := <[b := nx]> (heap h)). set (m2 := <[b + 8 := k - n]> m1).
    unfold set_run_next, on_heap. rewrite (M_bind_eq _ _ h tt {| free_page_list := free_page_list h; heap := m1 |}) by (by rewrite store_eq).
    rewrite usub_in by (unfold HEAP_PAGE in *; lia). run_refl. unfold set_npages, on_heap.
    rewrite (M_bind_eq _ _ _ tt {| free_page_list := free_page_list h; heap := m2 |}).
    2:{ cbn. rewrite store_eq; [done|]. unfold m1. rewrite lookup_insert_ne by lia. done. }
    assert (∀ c, is_Some (heap h !! c) → is_Some (m2 !! c)) as Hsome.
    { intros c Hc. unfold m2, m1. rewrite !lookup_insert. by repeat case_decide. }
    assert (∀ c, c ≠ b → c ≠ b + 8 → m2 !! c = heap h !! c) as Hsame by (intros c ? ?; unfold m2, m1; by rewrite !lookup_insert_ne).
    assert (m2 !! b = Some nx ∧ m2 !! (b + 8) = Some (k - n)) as [Hb3 Hb4].
    { unfold m2, m1. by rewrite lookup_insert_ne, !lookup_insert_eq by lia. }
    destruct (relink {| free_page_list := free_page_list h; heap := m2 |} prev l1 a b ((b, k - n) :: l2)) as (h' & Hp & Hrep).
    + destruct Hl as [Hl1 Hl2]. split; [|done]. cbn. eapply seg_frame; [|exact Hl1]. intros r Hr.
      pose proof (ordered_before 0 l1 (a, k) l2 r (run_ok_pos _ _ Hok) Hord Hr).
      rewrite Forall_forall in Hok1. destruct (Hok1 r Hr) as (_ & _ & ? & _). unfold b, HEAP_PAGE in *. cbn in *.
      split; apply Hsame; lia.
    + cbn. apply Forall_app. split; [eapply Forall_impl; [exact Hok1|]; intros r; by apply run_ok_frame|].
      constructor; [|eapply Forall_impl; [exact Hok2|]; intros r; by apply run_ok_frame].
      split; [unfold b, HEAP_PAGE in *; cbn; lia|]. split; [unfold b; cbn; rewrite Z.mul_comm, Z.mod_add; done|].
      split; [cbn; lia|]. split; [unfold b, HEAP_PAGE in *; cbn; lia|]. intros i Hi. cbn in *. unfold b.
      replace (a + HEAP_PAGE * n + HEAP_PAGE * i) with (a + HEAP_PAGE * (n + i)) by lia.
      destruct (Hmap (n + i)) as [? ?]; [lia|]. split; by apply Hsome.
    + revert Hord. apply ordered_exchange. intros lo Hlo [_ Ho]. split; [unfold b, HEAP_PAGE in *; cbn in *; lia|].
      eapply ordered_low; [|exact Ho]. unfold b. cbn. lia.
    + cbn. split; [done|]. split; [done|]. exists nx. split; [done|]. eapply seg_frame; [|exact Hs]. intros r Hr.
      pose proof (ordered_apart 0 (l1 ++ [(a, k)]) l2 (a, k) r) as Hap. rewrite <- app_assoc in Hap.
      specialize (Hap (run_ok_pos _ _ Hok) Hord ltac:(set_solver) Hr). cbn in Hap.
      split; apply Hsame; unfold b, HEAP_PAGE in *; lia.
    + exists h'. by run Hp.
  - destruct (Z.eqb_spec k n) as [->|Hne].
    + run Hgn. destruct (relink h prev l1 a nx l2) as (h' & Hp & Hrep); try done.
      * by apply Forall_app.
      * revert Hord. apply ordered_exchange. intros lo Hlo [_ Ho]. eapply ordered_low; [|exact Ho]. cbn in *. unfold HEAP_PAGE. lia.
      * exists h'. by run Hp.
    + run Hgn. specialize (IH fuel h (Some a) (l1 ++ [(a, k)]) nx Hn). rewrite <- app_assoc in IH. cbn [app] in IH.
      assert (linked h (Some a) (l1 ++ [(a, k)]) nx) as Hl'.
      { destruct Hl as [Hl1 _]. split; [|by rewrite last_snoc]. apply seg_app. exists a. split; [done|]. cbn. split_and!; try done. by exists nx. }
      specialize (IH Hl' Hs Hok Hord ltac:(cbn in Hf; lia)). destruct (first_fit n l2) as [[b l2']|]; [|done]. cbn.
      destruct IH as (h' & H & Hrep). exists h'. split; [done|]. by rewrite <- app_assoc in Hrep.
Qed.

Lemma ordered_NoDup low l : Forall (λ r, 0 < r.2) l → ordered low l → NoDup l.*1.
Proof.
  revert low. induction l as [|r l IH]; intros low Hp Ho; [constructor|]. cbn. destruct Ho as [_ Ho]. apply Forall_cons in Hp as [Hr Hp].
  constructor; [|by eapply IH]. intros Hin. apply ordered_forall in Ho; [|done]. apply list_elem_of_fmap in Hin as (x & Hx & Hin).
  rewrite Forall_forall in Ho. specialize (Ho x Hin). unfold HEAP_PAGE in *. lia.
Qed.

(** There are no more runs than words. *)
Lemma runs_le_size h l : pages_rep h l → (length l ≤ size (heap h))%nat.
Proof.
  intros (_ & Hok & Ho). pose proof (ordered_NoDup 0 l (run_ok_pos _ _ Hok) Ho) as Hn.
  rewrite <- (length_fmap fst), <- (size_list_to_set (C := gset Z)) by done. rewrite <- size_dom. apply subseteq_size.
  intros a Ha. rewrite elem_of_list_to_set, list_elem_of_fmap in Ha. destruct Ha as (r & -> & Hr).
  rewrite Forall_forall in Hok. destruct (Hok r Hr) as (_ & _ & Hp & _ & Hm). apply elem_of_dom.
  destruct (Hm 0) as [H _]; [lia|]. by rewrite Z.mul_0_r, Z.add_0_r in H.
Qed.

(** [page_alloc] is first fit on the list of free runs: it cuts the pages off the
    first run that is long enough, takes the whole run if it has just the length,
    and returns null and changes nothing if there is none. *)
Theorem page_alloc_first_fit (h : Heap) (l : list run) (n : Z) :
  pages_rep h l → 0 < n →
  match first_fit n l with
  | Some (a, l') => ∃ h', page_alloc n h = Ok (a, h') ∧ pages_rep h' l'
  | None => page_alloc n h = Ok (0, h)
  end.
Proof.
  intros Hrep Hn. pose proof (runs_le_size h l Hrep) as Hf. destruct Hrep as (Hs & Hok & Ho).
  unfold page_alloc. replace (n =? 0) with false by lia.
  pose proof (page_alloc_loop_spec n l (S (size (heap h))) h None [] (free_page_list h) Hn) as H. cbn [app] in H.
  apply H; [by split|done..|lia].
Qed.

Lemma free_loop_skips n ck cur l : ∀ fuel h prev q,
  seg (heap h) q l 0 → Forall (run_ok (heap h)) l → heap h !! (cur + 8) = Some ck →
  Forall (λ r, run_end r ≠ cur ∧ r.1 < page_add cur ck) l → (length l ≤ fuel)%nat →
  page_free_loop fuel cur n prev q h = Ok (tt, h).
Proof.
  induction l as [|[a k] l IH]; intros fuel h prev q Hs Hok Hck Hb Hf.
  { cbn in Hs. subst. by destruct fuel. }
  destruct fuel as [|fuel]; [cbn in Hf; lia|]. destruct Hs as (-> & Hk & nx & Hnx & Hs).
  apply Forall_cons in Hok as [(Ha & _ & Hk0 & Hend & _) Hok]. apply Forall_cons in Hb as [[Hb1 Hb2] Hb]. cbn [fst snd] in *.
  cbn [page_free_loop]. replace (a =? 0) with false by lia.
  assert (get_npages a h = Ok (k, h)) as Hgk by (unfold get_npages, on_heap; rewrite (load_eq _ k) by done; by destruct h).
  assert (get_npages cur h = Ok (ck, h)) as Hgc by (unfold get_npages, on_heap; rewrite (load_eq _ ck) by done; by destruct h).
  assert (run_next a h = Ok (nx, h)) as Hgn by (unfold run_next, on_heap; rewrite (load_eq _ nx) by done; by destruct h).
  run Hgk. rewrite page_add_eq by lia. replace (a + HEAP_PAGE * k =? cur) with false by lia. run Hgc.
  replace (page_add cur ck =? a) with false by lia. replace (page_add cur ck <? a) with false by lia. run Hgn.
  apply IH; [done..|]. cbn in Hf. lia.
Qed.

(** [page_free] loses memory: a run behind all free ones that does not adjoin the
    last of them is not put back, whatever its pages hold: the free list stays as
    it was, and empty if it was empty. *)
Theorem page_free_leaks (h : Heap) (l : list run) (a n ck : Z) :
  pages_rep h l → 0 ≤ a → 0 ≤ ck → a + HEAP_PAGE * ck < 2 ^ 64 → heap h !! (a + 8) = Some ck →
  Forall (λ r, run_end r < a) l →
  page_free a n h = Ok (tt, h).
Proof.
  intros Hrep Ha Hc He Hck Hb. pose proof (runs_le_size h l Hrep) as Hf. destruct Hrep as (Hs & Hok & Ho).
  unfold page_free. run_refl. eapply free_loop_skips; [done..| |lia].
  apply Forall_forall. intros r Hr. rewrite Forall_forall in Hb, Hok. specialize (Hb r Hr). destruct (Hok r Hr) as (_ & _ & ? & _).
  rewrite page_add_eq by lia. unfold HEAP_PAGE in *. lia.
Qed.

(** ** Examples *)

(** Three free pages from [0x1000], and a page at [0x6000] in use *)
Definition three_pages : Heap := {| free_page_list := 0x1000;
  heap := list_to_map [(0x1000, 0); (0x1008, 3); (0x2000, 0); (0x2008, 0); (0x3000, 0); (0x3008, 0); (0x6000, 0); (0x6008, 7)] |}.

Lemma three_pages_rep : pages_rep three_pages [(0x1000, 3)].
Proof.
  split; [cbn; split_and!; [done|reflexivity|]; exists 0; split; reflexivity|]. split; [|cbn; lia].
  constructor; [|constructor]. split_and!; try done. cbn [fst snd]. intros i Hi.
  assert (i = 0 ∨ i = 1 ∨ i = 2) as [-> |[-> | ->]] by lia; split; by eexists.
Qed.

Lemma page_alloc_first_fit_witness : ∃ h', page_alloc 2 three_pages = Ok (0x1000, h') ∧ pages_rep h' [(0x3000, 1)].
Proof. exact (page_alloc_first_fit three_pages [(0x1000, 3)] 2 three_pages_rep eq_refl). Defined.

Lemma page_free_leaks_witness : page_free 0x6000 1 three_pages = Ok (tt, three_pages).
Proof.
  apply (page_free_leaks three_pages [(0x1000, 3)] 0x6000 1 7 three_pages_rep); [done|done|done|reflexivity|].
  constructor; [done|constructor].
Defined.

(** *** A session *)

(** Ten pages from [0x1000], all words zero *)
Definition ten_pages : Heap := {| free_page_list := 0;
  heap := list_to_map ((λ i, (0x1000 + 8 * i, 0)) <$> range 0 5120) |}.
Definition session : M Heap (list Z) :=
  page_init 0x1000 10 ;;
  a ← page_alloc 2; b ← page_alloc 2; c ← page_alloc 1;
  (** the owner of [a] fills its memory: its second word is 5 *)
  on_heap (store (a + 8) 5) ;;
  page_free a 2 ;;
  d ← page_alloc 3;
  mret [a; b; c; d].

(** [page_free] takes the length of the run that is freed from the freed memory
    itself, where its last owner left something else.  After this session the
    three pages allocated last overlap the second allocation, which is in use. *)
Theorem page_free_stale_length :
  (r ← session ten_pages; Ok r.1) = Ok [0x1000; 0x3000; 0x5000; 0x1000].
Proof. vm_compute. reflexivity. Qed.
