(* ===== verification/Slab.v ===== *)
(** * The slab allocator of the kernel heap

    [SlabAllocator] (kernel/src/mm/heap/slab_allocator/slab.rs), the global
    allocator: chunks of 72 size classes are cut from zones, zones and large
    blocks from the pages of [HeapPages].  Links of chunks and zones are words of
    the heap; the other fields of a zone are kept by the zone's address. *)

From stdpp Require Import gmap fin_maps.
From S2P Require Import Prelude FatIo Address Memory ForwardList HeapPages.

Definition NZONES : Z := 72.
Definition ZONE_FREE_CNT_LIMIT : Z := 4.
Definition ZALLOC_SLAB_MAGIC : Z := 0x51ab51ab.
(** [size_of::<SlabZoneNode>()]: four [u32], a pointer, a [u32] and its padding, the
    list head and the link *)
Definition ZONE_NODE_SIZE : Z := 48.

Record SlabZone := {
  z_magic : Z; z_nfree : Z; z_nmax : Z; z_uindex : Z; z_baseptr : Z; z_zoneindex : Z; z_freechunk : Z;
}.
Inductive PageUsage := UsageFree | UsageZone (off : Z) | UsagePage (npages : Z).

(** The statics of the module *)
Record Slab := {
  pages : Heap;
  zones : gmap Z SlabZone;
  page_usage : gmap Z PageUsage;
  heap_start : Z; heap_end : Z;
  zone_array : list Z;
  zone_free : Z; zone_free_cnt : Z;
  chunk_limit : Z; zone_size : Z; zone_page_cnt : Z;
}.
Definition with_pages (s : Slab) x := {| pages := x; zones := zones s; page_usage := page_usage s; heap_start := heap_start s; heap_end := heap_end s; zone_array := zone_array s; zone_free := zone_free s; zone_free_cnt := zone_free_cnt s; chunk_limit := chunk_limit s; zone_size := zone_size s; zone_page_cnt := zone_page_cnt s |}.
Definition with_zones (s : Slab) x := {| pages := pages s; zones := x; page_usage := page_usage s; heap_start := heap_start s; heap_end := heap_end s; zone_array := zone_array s; zone_free := zone_free s; zone_free_cnt := zone_free_cnt s; chunk_limit := chunk_limit s; zone_size := zone_size s; zone_page_cnt := zone_page_cnt s |}.
Definition with_usage (s : Slab) x := {| pages := pages s; zones := zones s; page_usage := x; heap_start := heap_start s; heap_end := heap_end s; zone_array := zone_array s; zone_free := zone_free s; zone_free_cnt := zone_free_cnt s; chunk_limit := chunk_limit s; zone_size := zone_size s; zone_page_cnt := zone_page_cnt s |}.
Definition with_array (s : Slab) x := {| pages := pages s; zones := zones s; page_usage := page_usage s; heap_start := heap_start s; heap_end := heap_end s; zone_array := x; zone_free := zone_free s; zone_free_cnt := zone_free_cnt s; chunk_limit := chunk_limit s; zone_size := zone_size s; zone_page_cnt := zone_page_cnt s |}.
Definition with_free (s : Slab) x n := {| pages := pages s; zones := zones s; page_usage := page_usage s; heap_start := heap_start s; heap_end := heap_end s; zone_array := zone_array s; zone_free := x; zone_free_cnt := n; chunk_limit := chunk_limit s; zone_size := zone_size s; zone_page_cnt := zone_page_cnt s |}.

Definition on_pages {A} (m : M Heap A) : M Slab A := λ s,
  match m (pages s) with Ok (a, h) => Ok (a, with_pages s h) | Panic f => Panic f end.
Definition on_links {A} (m : M words A) : M Slab A := on_pages (on_heap m).

(** [&mut *zn] *)
Definition zone_at (zn : Z) : M Slab SlabZone :=
  s ← get; match zones s !! zn with Some z => mret z | None => panic UB end.
Definition set_zone (zn : Z) (z : SlabZone) : M Slab unit := modify (λ s, with_zones s (<[zn := z]> (zones s))).
(** [ZONE_ARRAY[zi]] *)
Definition list_at (zi : Z) : M Slab Z :=
  s ← get; match zone_array s !! Z.to_nat zi with Some h => mret h | None => panic OutOfBounds end.
Definition set_list (zi h : Z) : M Slab unit := modify (λ s, with_array s (<[Z.to_nat zi := h]> (zone_array s))).
(** [btokup!]: the index of an address in [PAGE_USAGE_ARRAY] *)
Definition btokup (a : Z) : M Slab Z := s ← get; d ← lift (usub a (heap_start s)); mret (d `div` 4096).
Definition usage_of (i : Z) : M Slab PageUsage :=
  s ← get; match page_usage s !! i with Some u => mret u | None => panic UB end.
Definition set_usage (i : Z) (u : PageUsage) : M Slab unit :=
  s ← get; match page_usage s !! i with Some _ => put (with_usage s (<[i := u]> (page_usage s))) | None => panic UB end.

(** [usize::BITS - n.leading_zeros()] *)
Definition bit_len (n : Z) : Z := if n =? 0 then 0 else Z.log2 n + 1.

(** The index of the size class and the rounded size *)
Definition zone_index (limit bytes : Z) : exec (Z * Z) :=
  ensure (bytes <=? limit) ;;
  let i := Z.max 7 (bit_len bytes) - 1 - 3 in
  n ← round_up bytes (ushl 1 i);
  a ← uadd (ushr n i) (8 * (i - 3));
  zi ← usub a 1;
  Ok (zi, n).

(** The offset of the first chunk in its zone *)
Definition chunk_offset (size : Z) : exec Z :=
  if Z.lor size (size - 1) + 1 =? ushl size 1 then
    s ← uadd ZONE_NODE_SIZE size; s ← usub s 1; Ok (Z.land s (unot (size - 1)))
  else round_up ZONE_NODE_SIZE 8.

(** [init(start, end)]; [page_usage_array] is the memory of [PAGE_USAGE_ARRAY], whose
    zero words stand for [Free]. *)
Fixpoint zone_size_loop (fuel : nat) (size limsize : Z) : Z :=
  match fuel with
  | O => size
  | S fuel => if (size <? 128 * 1024) && (ushl size 1 <? limsize `div` 1024) then zone_size_loop fuel (ushl size 1) limsize else size
  end.
Definition slab_init (start end_ : Z) (h : Heap) : exec Slab :=
  hs ← round_up start 4096;
  let he := round_down end_ 4096 in
  ensure (hs <? he) ;;
  let limsize := he - hs in
  let npages := limsize `div` 4096 in
  r ← page_init hs npages h;
  let zs := zone_size_loop 2 (32 * 1024) limsize in
  u ← umul npages 16;
  u ← round_up u 4096;
  r ← page_alloc (u `div` 4096) r.2;
  Ok {| pages := r.2; zones := ∅; page_usage := list_to_map ((λ i, (i, UsageFree)) <$> range 0 npages);
        heap_start := hs; heap_end := he; zone_array := replicate (Z.to_nat NZONES) 0; zone_free := 0; zone_free_cnt := 0;
        chunk_limit := Z.min (zs `div` 4) (16 * 1024); zone_size := zs; zone_page_cnt := zs `div` 4096 |}.

(** [malloc] from a zone [zn] of the list [zi], whose head it is *)
Definition malloc_from (zi zn size : Z) : M Slab Z :=
  z ← zone_at zn;
  nfree ← lift (u32 (z_nfree z - 1));
  (if nfree =? 0 then h ← list_at zi; h ← on_links (pop_front h); set_list zi h else mret tt) ;;
  if negb (z_uindex z =? z_nmax z) then
    ui ← lift (u32 (z_uindex z + 1));
    set_zone zn {| z_magic := z_magic z; z_nfree := nfree; z_nmax := z_nmax z; z_uindex := ui;
      z_baseptr := z_baseptr z; z_zoneindex := z_zoneindex z; z_freechunk := z_freechunk z |} ;;
    mret (z_baseptr z + z_uindex z * size)
  else
    let chunk := get_head (z_freechunk z) in
    h ← on_links (pop_front (z_freechunk z));
    set_zone zn {| z_magic := z_magic z; z_nfree := nfree; z_nmax := z_nmax z; z_uindex := z_uindex z;
      z_baseptr := z_baseptr z; z_zoneindex := z_zoneindex z; z_freechunk := h |} ;;
    mret chunk.

(** A zone for the class [zi]: one of [ZONE_FREE], or pages *)
Definition new_zone : M Slab Z :=
  s ← get;
  if negb (zone_free s =? 0) then
    h ← on_links (pop_front (zone_free s));
    n ← lift (usub (zone_free_cnt s) 1);
    modify (λ s', with_free s' h n) ;;
    mret (zone_free s)
  else
    zn ← on_pages (page_alloc (zone_size s `div` 4096));
    if zn =? 0 then mret 0
    else
      kup ← btokup zn;
      for_each (range 0 (zone_page_cnt s)) (λ off, set_usage (kup + off) (UsageZone (cast 32 off))) ;;
      mret zn.

Definition malloc (size : Z) : M Slab Z :=
  if size =? 0 then mret 0
  else
    s ← get;
    if chunk_limit s <? size then
      r ← lift (round_up size 4096);
      let npages := r `div` 4096 in
      chunk ← on_pages (page_alloc npages);
      if chunk =? 0 then mret 0
      else kup ← btokup chunk; set_usage kup (UsagePage (cast 32 npages)) ;; mret chunk
    else
      '(zi, size) ← lift (zone_index (chunk_limit s) size);
      lift (ensure (zi <? NZONES)) ;;
      head ← list_at zi;
      if negb (get_head head =? 0) then malloc_from zi head size
      else
        zn ← new_zone;
        if zn =? 0 then mret 0
        else
          on_links (store_words zn (replicate 6 0)) ;;
          off ← lift (chunk_offset size);
          let nmax := cast 32 ((zone_size s - off) `div` size) in
          nfree ← lift (u32 (nmax - 1));
          set_zone zn {| z_magic := ZALLOC_SLAB_MAGIC; z_nfree := nfree; z_nmax := nmax; z_uindex := 1;
            z_baseptr := zn + off; z_zoneindex := cast 32 zi; z_freechunk := 0 |} ;;
          set_list zi (set_head head zn) ;;
          mret (zn + off).

(** A zone all of whose chunks are free leaves its list, if that has another zone. *)
Definition retire_zone (zn : Z) (z : SlabZone) : M Slab unit :=
  set_zone zn {| z_magic := 0; z_nfree := z_nfree z; z_nmax := z_nmax z; z_uindex := z_uindex z;
    z_baseptr := z_baseptr z; z_zoneindex := z_zoneindex z; z_freechunk := z_freechunk z |} ;;
  head ← list_at (z_zoneindex z);
  h ← on_links (ForwardList.remove head zn);
  set_list (z_zoneindex z) h ;;
  s ← get;
  if zone_free_cnt s <? ZONE_FREE_CNT_LIMIT then
    h ← on_links (push_front (zone_free s) zn);
    modify (λ s', with_free s' h (zone_free_cnt s + 1))
  else
    kup ← btokup zn;
    for_each (range 0 (zone_page_cnt s)) (λ i, set_usage (kup + i) UsageFree) ;;
    on_pages (page_free zn (zone_size s `div` 4096)).

Definition free (chunk : Z) : M Slab unit :=
  if chunk =? 0 then mret tt
  else
    kup ← btokup chunk;
    u ← usage_of kup;
    match u with
    | UsageFree => panic Explicit
    | UsageZone off =>
        zn ← lift (usub (round_down chunk 4096) (off * 4096));
        z ← zone_at zn;
        lift (ensure (z_magic z =? ZALLOC_SLAB_MAGIC)) ;;
        h ← on_links (push_front (z_freechunk z) chunk);
        nfree ← lift (u32 (z_nfree z + 1));
        let z := {| z_magic := z_magic z; z_nfree := nfree; z_nmax := z_nmax z; z_uindex := z_uindex z;
                    z_baseptr := z_baseptr z; z_zoneindex := z_zoneindex z; z_freechunk := h |} in
        set_zone zn z ;;
        head ← list_at (z_zoneindex z);
        if nfree =? 1 then
          h ← on_links (push_front head zn);
          set_list (z_zoneindex z) h
        else
          more ← on_links (has_next zn);
          if (nfree =? z_nmax z) && (more || negb (head =? zn)) then retire_zone zn z else mret tt
    | UsagePage npages => on_pages (page_free chunk npages) ;; set_usage kup UsageFree
    end.

(** [GlobalAlloc for SlabAllocator] *)
Definition slab_alloc (size align : Z) : M Slab Z := malloc (Z.max size align).
Definition slab_dealloc (ptr : Z) : M Slab unit := free ptr.

(** ** Size classes *)

(** The chunk size of a class: steps of 8 bytes up to 128, then eight steps between
    two powers of two *)
Definition class_size (zi : Z) : Z :=
  let q := zi + 1 in
  if q <? 8 then 8 * q else (8 + q `mod` 8) * 2 ^ (q `div` 8 + 2).

(** [zone_index] where the size has [i + 4] bits, or [i] is 3 and it has fewer *)
Lemma zone_index_step limit n i : 3 ≤ i ≤ 11 → 0 < n ≤ limit → limit ≤ 16 * 1024 → Z.max 7 (bit_len n) - 1 - 3 = i →
  let q := (n + 2 ^ i - 1) `div` 2 ^ i in
  zone_index limit n = Ok (q + 8 * (i - 3) - 1, 2 ^ i * q).
Proof.
  intros Hi Hn Hl Hb q. unfold zone_index. rewrite Hb. replace (n <=? limit) with true by lia. cbn [ensure mbind exec_bind].
  assert (0 < 2 ^ i ≤ 2 ^ 11) as Hp by (split; [apply Z.pow_pos_nonneg; lia|apply Z.pow_le_mono_r; lia]).
  assert (ushl 1 i = 2 ^ i) as -> by (rewrite ushl_mul by lia; rewrite Z.mul_1_l; apply Z.mod_small; lia).
  rewrite round_up_eq by lia. fold q. cbn [mbind exec_bind].
  assert (0 < q ≤ 2 ^ 15) as Hq.
  { unfold q. split; [apply Z.div_str_pos; lia|]. apply Z.div_le_upper_bound; nia. }
  rewrite ushr_div, (Z.mul_comm (2 ^ i)), Z.div_mul by lia. rewrite uadd_in by lia. cbn [mbind exec_bind].
  rewrite usub_in by lia. done.
Qed.

(** The classes around a size that needs [q] steps of [2 ^ i] bytes *)
Definition step_class (i q : Z) : bool :=
  let zi := q + 8 * (i - 3) - 1 in
  (class_size zi =? 2 ^ i * q) && (0 <=? zi) && (zi <? NZONES) &&
  ((zi =? 0) || (class_size (zi - 1) <=? 2 ^ i * (q - 1)) || ((3 <? i) && (class_size (zi - 1) <? 2 ^ (i + 3)))).
Lemma step_class_all : forallb (λ i, forallb (step_class i) (range (if i =? 3 then 1 else 8) (if i =? 11 then 9 else 17))) (range 3 12) = true.
Proof. vm_compute. reflexivity. Qed.

Lemma bit_len_range n : 0 < n → 2 ^ (bit_len n - 1) ≤ n < 2 ^ bit_len n.
Proof.
  intros Hn. unfold bit_len. replace (n =? 0) with false by lia. destruct (Z.log2_spec n Hn) as [H1 H2].
  replace (Z.log2 n + 1 - 1) with (Z.log2 n) by lia. by rewrite Z.add_1_r.
Qed.

Lemma bit_len_le n b : 0 ≤ b → 0 < n < 2 ^ b → 1 ≤ bit_len n ≤ b.
Proof.
  intros Hb Hn. destruct (bit_len_range n ltac:(lia)) as [H1 _]. unfold bit_len in *. replace (n =? 0) with false in * by lia.
  pose proof (Z.log2_nonneg n). split; [lia|]. enough (Z.log2 n < b) by lia. apply Z.log2_lt_pow2; lia.
Qed.

(** [zone_index] finds for every size up to the limit the least class whose chunks
    are large enough, and the chunk size of that class. *)
Theorem zone_index_least (limit n : Z) :
  0 < n ≤ limit → limit ≤ 16 * 1024 →
  ∃ zi, zone_index limit n = Ok (zi, class_size zi) ∧ 0 ≤ zi < NZONES ∧ n ≤ class_size zi ∧
    (0 < zi → class_size (zi - 1) < n).
Proof.
  intros Hn Hl. set (i := Z.max 7 (bit_len n) - 1 - 3). set (q := (n + 2 ^ i - 1) `div` 2 ^ i).
  assert (1 ≤ bit_len n ≤ 15) as Hb by (apply bit_len_le; lia).
  assert (3 ≤ i ≤ 11) as Hi by lia. pose proof (zone_index_step limit n i Hi Hn Hl eq_refl) as Hz. cbn zeta in Hz. fold q in Hz.
  assert (0 < 2 ^ i) as Hp by (apply Z.pow_pos_nonneg; lia).
  assert (2 ^ i * (q - 1) < n ≤ 2 ^ i * q) as Hq.
  { unfold q. pose proof (Z.div_mod (n + 2 ^ i - 1) (2 ^ i) ltac:(lia)). pose proof (Z.mod_pos_bound (n + 2 ^ i - 1) (2 ^ i) Hp). nia. }
  destruct (bit_len_range n ltac:(lia)) as [H1 H2].
  assert (n < 2 ^ (i + 4)) as Hup.
  { eapply Z.lt_le_trans; [exact H2|]. apply Z.pow_le_mono_r; lia. }
  assert (i ≠ 3 → 2 ^ (i + 3) ≤ n) as Hlow.
  { intros Hne. etransitivity; [|exact H1]. apply Z.pow_le_mono_r; lia. }
  rewrite Z.pow_add_r in Hup, Hlow by lia. change (2 ^ 4) with 16 in Hup. change (2 ^ 3) with 8 in Hlow.
  assert ((if i =? 3 then 1 else 8) ≤ q < (if i =? 11 then 9 else 17)) as Hqr.
  { destruct (Z.eqb_spec i 3), (Z.eqb_spec i 11) as [E|E]; [lia|nia| |nia]. rewrite E in *. change (2 ^ 11) with 2048 in *. lia. }
  pose proof step_class_all as Hall. rewrite forallb_forall in Hall. specialize (Hall i). rewrite <- list_elem_of_In, elem_of_range in Hall.
  specialize (Hall ltac:(lia)). rewrite forallb_forall in Hall. specialize (Hall q). rewrite <- list_elem_of_In, elem_of_range in Hall.
  specialize (Hall Hqr). unfold step_class in Hall. set (zi := q + 8 * (i - 3) - 1) in *.
  rewrite Z.pow_add_r in Hall by lia. change (2 ^ 3) with 8 in Hall.
  exists zi. rewrite Hz. rewrite !andb_true_iff, !orb_true_iff, andb_true_iff, Z.eqb_eq in Hall.
  destruct Hall as [[[-> H3] H4] H5]. split; [done|]. split; [lia|]. split; [lia|]. intros Hzi.
  destruct H5 as [[H5|H5]|[H5 H6]]; [lia|lia|]. specialize (Hlow ltac:(lia)). lia.
Qed.

(** ** Zones *)

Definition layout_ok (zone_size zi : Z) : bool :=
  let size := class_size zi in
  match chunk_offset size with
  | Ok off =>
      (ZONE_NODE_SIZE <=? off) && (off `mod` 8 =? 0) && (size `mod` 8 =? 0) && (2 <=? (zone_size - off) `div` size) &&
      ((off `mod` size =? 0) || negb (size =? 2 ^ Z.log2 size))
  | Panic _ => false
  end.
Lemma layout_ok_all :
  forallb (λ zs, forallb (λ zi, implb (4 * class_size zi <=? zs) (layout_ok zs zi)) (range 0 NZONES)) [32 * 1024; 64 * 1024; 128 * 1024] = true.
Proof. vm_compute. reflexivity. Qed.

(** The chunks of a zone lie behind the zone's header and inside the zone, one
    behind the other, at multiples of 8; chunks whose size is a power of two up to
    a page are aligned to their size. *)
Theorem zone_layout (zs zi zn : Z) :
  zs ∈ [32 * 1024; 64 * 1024; 128 * 1024] → 0 ≤ zi < NZONES → 4 * class_size zi ≤ zs → zn `mod` 4096 = 0 →
  let size := class_size zi in
  ∃ off, chunk_offset size = Ok off ∧ 2 ≤ (zs - off) `div` size ∧
    ∀ i, 0 ≤ i < (zs - off) `div` size →
      let chunk := zn + off + i * size in
      zn + ZONE_NODE_SIZE ≤ chunk ∧ chunk + size ≤ zn + zs ∧ chunk `mod` 8 = 0 ∧
      (∀ k, 0 ≤ k ≤ 12 → size = 2 ^ k → chunk `mod` size = 0).
Proof.
  intros Hzs Hzi Hc Hzn size. pose proof layout_ok_all as Hall.
  rewrite forallb_forall in Hall. specialize (Hall zs). rewrite <- list_elem_of_In in Hall. specialize (Hall Hzs).
  rewrite forallb_forall in Hall. specialize (Hall zi). rewrite <- list_elem_of_In, elem_of_range in Hall. specialize (Hall Hzi).
  replace (4 * class_size zi <=? zs) with true in Hall by lia. cbn [implb] in Hall. unfold layout_ok in Hall. fold size in Hall.
  destruct (chunk_offset size) as [off|]; [|done]. exists off. split; [done|].
  rewrite !andb_true_iff, orb_true_iff, negb_true_iff in Hall. destruct Hall as [[[[H1 H2] H3] H4] H5].
  split; [lia|]. intros i Hi. cbv zeta.
  assert (0 < size) as Hs by (unfold size, class_size, NZONES in *; case_match; [lia|]; apply Z.mul_pos_pos; [pose proof (Z.mod_pos_bound (zi + 1) 8); lia|apply Z.pow_pos_nonneg; [lia|pose proof (Z.div_pos (zi + 1) 8); lia]]).
  assert (size * ((zs - off) `div` size) ≤ zs - off) as Hd by (apply Z.mul_div_le; lia).
  apply Z.eqb_eq, Z.mod_divide in H2 as [a Ha]; [|lia]. apply Z.eqb_eq, Z.mod_divide in H3 as [b Hb]; [|lia].
  split; [nia|]. split; [nia|]. split.
  { apply Z.mod_divide; [lia|]. apply Z.mod_divide in Hzn as [z Hz]; [|lia]. exists (z * 512 + a + i * b). nia. }
  intros k Hk Hsk. destruct H5 as [H5|H5].
  2:{ exfalso. rewrite Hsk, Z.log2_pow2 in H5 by lia. lia. }
  apply Z.eqb_eq, Z.mod_divide in H5 as [d Hd2]; [|lia]. apply Z.mod_divide; [lia|].
  apply Z.mod_divide in Hzn as [z Hz]; [|lia]. exists (z * 2 ^ (12 - k) + d + i).
  assert (4096 = 2 ^ (12 - k) * size) as Hp by (rewrite Hsk, <- Z.pow_add_r by lia; change 4096 with (2 ^ 12); f_equal; lia).
  rewrite Hz, Hd2, Hp. ring.
Qed.

(** ** Examples *)

Lemma zone_index_least_witness :
  ∃ zi, zone_index 8192 100 = Ok (zi, class_size zi) ∧ 100 ≤ class_size zi ∧ (0 < zi → class_size (zi - 1) < 100).
Proof. destruct (zone_index_least 8192 100) as (zi & H1 & _ & H2 & H3); [lia|lia|]. exists zi. split; [exact H1|by split]. Defined.

Lemma zone_layout_witness : ∃ off, chunk_offset (class_size 7) = Ok off ∧ (0x8000 + off + 3 * class_size 7) `mod` class_size 7 = 0.
Proof.
  destruct (zone_layout (32 * 1024) 7 0x8000) as (off & H1 & H2 & H3); [left|done|by vm_compute|done|].
  exists off. split; [exact H1|]. vm_compute in H1. injection H1 as <-. apply (H3 3) with 6; [by vm_compute|done|done].
Defined.

(** A heap of sixteen zero pages *)
Definition sixteen_pages : Heap := {| free_page_list := 0;
  heap := list_to_map ((λ i, (0x10000 + 8 * i, 0)) <$> range 0 8192) |}.
Definition slab_result {A} (m : M Slab A) : exec A :=
  s ← slab_init 0x10000 0x20000 sixteen_pages; r ← m s; Ok r.1.

(** Chunks are reused last in, first out, once the zone has no unused ones. *)
Example slab_session :
  slab_result (a ← malloc 8192; b ← malloc 8192; c ← malloc 8192; free a ;; free b ;; d ← malloc 8000; e ← malloc 8000;
    mret [a; b; c; d; e]) = Ok [0x13000; 0x15000; 0x17000; 0x15000; 0x13000].
Proof. vm_compute. reflexivity. Qed.

(** The allocator forgets the alignment it is asked for: 96 bytes aligned to 32 are
    placed at an address that is a multiple of 16 only. *)
Theorem slab_alignment_lost : (a ← slab_result (slab_alloc 96 32); Ok (a `mod` 32)) = Ok 16.
Proof. vm_compute. reflexivity. Qed.
